(* ===== verification/_CoqProject ===== *)
-Q . S2P
Prelude.v
LList.v
Tree.v
Machine.v
Paging.v
Kernel.v
Memory.v
Space.v
Proc.v
Ipc.v
Rpc.v
Irq.v
Boot.v
CString.v
KMalloc.v
Path.v
RingBuf.v
Pack.v
AppStd.v
Cache.v
Fat.v
Storage.v
Vfs.v
Ramdisk.v
Fs.v
RamdiskFs.v
Iso9660.v
AppIpc.v
AppEnv.v
Files.v
FilesSpec.v
FilesFs.v
ProcData.v
AppRpc.v
Stdio.v
Vterm.v
Printf.v
Scanf.v
Inet.v
Fuse.v
Devfs.v
PsDev.v
