(* ===== verification/Prelude.v ===== *)
(** * Verification of meinOS

    meinOS is a microkernel for IA-32 with the libraries that the kernel and its
    processes share, and servers and drivers that run as processes.  The development
    models the kernel (src/kernel2), these libraries (src/lib) and, of the
    applications (src/apps), their system library, the file system servers and the
    layers below them, as executable functions, and proves what each component
    promises.

    ** The program

    The kernel manages physical pages (memphys.c) and page tables (paging.c),
    builds address spaces from them (memuser.c, memkernel.c, swap.c), runs
    processes in them (procm.c, vm86.c), and offers processes message queues,
    semaphores, shared memory (ipc.c, msg.c, sem.c, shm.c), remote procedure
    calls (rpc.c), signals, interrupts and timers (signal.c, interrupt.c) through
    a table of system calls (syscall.c).  Its data lives on a heap (malloc.c) in
    linked lists (llist.c); trees (tree.c), permissions (perm.c) and the C string
    functions (string.c, strings.c, ctype.c) are shared with the applications.
    At the start it makes a process of every module the boot loader has left in
    memory (multiboot.c, main.c), whose image it maps segment by segment (elf.c).

    A process opens files with the C library (stdlibc/files.c), which asks the virtual
    file system server (apps/vfs) which file system the path is on (path.c) and calls
    that server by remote procedure call (libmeinos/rpc.c), with packed arguments
    (pack.c) and data in shared memory (stdlibc/shm.c).  The FAT driver (apps/fat) reads sectors
    through a block cache (libcdi/cache.c) over a device, which a storage driver
    (libcdi/storage.c) offers as a stream of bytes; the ISO 9660 driver (apps/iso9660)
    reads CDs the same way; the RAM disk (apps/ramdisk) keeps its files in memory.
    All are called through libcdi/fs.c; the devices (apps/devfs) are files of another
    kind, on libfuse, which other processes read and write.  On top of files the C library has streams
    with a buffer (stdlibc/stdio.c); the terminal server (apps/vterm) turns what
    programs write into a screen and the codes of the keyboard into what they read.

    ** Files

    - Prelude: wrap-around of machine integers, tactics, list lemmas.
    - LList: llist.c twice.  [Seq] is the meaning of the functions on sequences
      of pointers; [Heap] is the code on a heap of headers and nodes.
      [Heap.llist_refines] is the simulation between the two, so that the kernel
      components, whose lists are fields of the kernel state, use [Seq].  Class
      [Malloc] is what they rely on when they allocate.
    - Tree: tree.c.  A tree with stored balances; a position is a zipper, so
      parent links are the path.  Rotations, balance propagation and removal are
      the code's, including what it does when a link it dereferences is missing.
    - Machine: commands with early stops, page table entries as bit fields,
      physical memory and the page walk of the MMU.
    - Paging: paging.c and the page stack of memphys.c, run on [Machine.mach].
    - Kernel: one record for the kernel's globals and, per C structure, a heap
      from addresses to records; user memory per page directory.
    - Memory: memuser.c, memkernel.c, swap.c and the DMA part of memphys.c.
    - Space: no code of its own; the invariant of an address space that is being
      filled ([layout]) and that [memuser_alloc_at] keeps it.
    - Boot: multiboot.c, elf.c and the loop of main.c that starts the programs.
    - Proc: procm.c and vm86.c.  Ipc: perm.c, ipc.c, msg.c, sem.c, shm.c.
      Rpc: rpc.c.  Irq: interrupt.c, signal.c, syscall.c, biosint.c.
    - CString: string.c, strings.c, ctype.c on a memory of bytes.
    - KMalloc: malloc.c on the same memory; headers are bytes of the memory the
      allocator manages.
    - Path: path.c on the strings of the parts.  RingBuf: ringbuf.c, Pack: pack.c
      and pack.h, on byte memory.  AppStd: sorting and numbers of stdlib.c.
    - Cache: libcdi/cache.c, a heap of blocks with the tree of Tree, the LRU list by
      links and the hints.  Class [Device] is the pair of functions of the user,
      [DeviceLaws] what they promise: the contents of the blocks.
    - Fat: the FAT driver on the cache.  [Volume] is the file it reads the sectors
      from, [VolumeLaws] its promise; [fat_device_laws] turns it into [DeviceLaws],
      so that the theorems on the cache apply.
    - Iso9660: the ISO 9660 driver with its Rock Ridge extension, on the same cache.
    - Storage: libcdi/storage.c over [Driver], with its promise [DriverLaws].
    - Vfs: vfs.c with the lists of LList and the paths of Path.
    - Ramdisk: the RAM disk, a heap of resources.
    - Fs: libcdi/fs.c, the part of a server that all file system drivers share: paths,
      open files, FIFOs and the calls of clients, which pass data in shared memory.
      Class [Filesystem] is the tables of functions of a driver, [FilesystemLaws] what
      it promises.  RamdiskFs: the tables of the RAM disk, and that it keeps the
      promise ([ramdisk_laws]).
    - AppIpc: shm.c, msg.c, sem.c and ipc.c of the C library; shared memory against
      class [ShmCalls], which [kernel_shm] implements with the kernel of Ipc.
      AppEnv: env.c and pathname.c.
    - Files: files.c, against class [Servers], the calls to the two servers.
      FilesSpec: what the library promises, and that it keeps it on servers that keep
      theirs ([RootServer]).  FilesFs: Vfs and Fs together are such servers.
    - ProcData: what a process hands to the next one (libmeinos/proc.c).  AppRpc:
      both ends of a remote call (libmeinos/rpc.c), against class [RpcCalls].
    - Stdio: the streams of stdio.c and stdio.h, on Files.  Vterm: display, escape
      sequences, terminals and keyboard of the terminal server, on the memory of
      CString with the buffers of RingBuf.
    - Fuse: libfuse, the other library for file system servers.  Class [Operations] is the
      table of functions of a file system.  Devfs: the devices on it (apps/devfs) and the
      library of their drivers (libmeinos/devfs.c).  PsDev: the drivers of null, zero, time,
      random and urandom (apps/psdev).
    - Printf: vsnprintf.c and the functions on top of it.  Scanf: vsscanf.c.  Inet:
      inet.c, which prints and reads network addresses with them.

    A C function is a function of the same name.  State is passed explicitly
    through [cmd]; [Stop] stands for what does not come back: panic, page fault,
    NULL dereference, use of freed or uninitialised memory, an index out of
    bounds, the idle loop, shutdown, a loop without an end.  Integers are [Z] with
    [w32], [s32] and the like written where the C code wraps.

    ** Theorems

    - Paging: mapping and unmapping change the translation the MMU performs for
      exactly the given page; what the kernel reads through the self-map is what
      the hardware walks; the page stack is last-in first-out; entries survive
      encoding and decoding.
    - Memory: the search for free addresses returns free pages and misses none
      but at the very end of the space; a page fault on a reserved page gets a
      frame and nothing else changes, any other is refused; DMA blocks are
      contiguous, were free, and are free again after release.
    - Space, Boot: allocating a page of an address space maps it and keeps page
      directory, page tables, free frames and page stack apart; after loading a program
      of page-aligned segments, every byte of every segment is the byte of the file, or
      zero where the file has none.
    - Proc: the scheduler picks by ticks, saves and restores contexts without
      loss, and gives every runnable process its turn; sleeping, waking, exiting
      and calling into a process do what they announce.
    - Ipc, Rpc, Irq: permission bits, creation and lookup of objects, message
      delivery, bounds of semaphore values as long as they do not wrap, mapping of shared
      frames, delivery of results, timers, the interrupt frame, the table of system calls.
    - LList, Tree: simulation of the list code; AVL and search-tree invariants of
      insertion and removal, neighbours; after any of them a search gives what a finite
      map holds and takes logarithmic time.
    - CString: memmove for every overlap, memmem as first occurrence, strcmp and
      strcpy.
    - KMalloc: malloc and free keep a sorted chain of free blocks apart from the
      blocks in use, never touch the contents of those, and lose no memory;
      [malloc_promise] is the promise of class [Malloc].
    - Path, RingBuf, Pack, AppStd: dots are resolved, paths and packed arguments and
      buffered bytes survive the round trip, qsort ends with a sorted permutation.
    - Cache: through the cache a device looks like an array of blocks, whatever is
      replaced in between, and after writing back it holds that array; the block
      replaced is the one unused for the longest time.
    - Fat: on a volume laid out as the format says, following the allocation table and
      reading gives the bytes of the clusters, cut at the file size; mounting finds the
      areas of the volume; short names are listed in lower case with a dot; what is written is never marked.
    - Iso9660: names, kinds, places and sizes of the files of a directory, with and
      without Rock Ridge, are read back from its records; a file is read cut at its size; mounting
      finds the primary volume descriptor and the root.
    - Storage, Vfs: which reads give the bytes of the device; which file system a
      path is given to, and under which name.
    - Ramdisk: classes, data and the tree of resources are consistent in every
      reachable state; files hold what was written; destroying ends and frees the
      tree.
    - Fs: looking up a path is following its steps; clients see a table of open files
      over the contents of the files, for every driver that keeps the promise.
    - Files: open, read, write and lseek of a process, through library, virtual file
      system and server, act on the contents of the files ([process_files]); open files
      survive being handed to another process.  AppRpc: the arguments of a remote call
      survive packing, unpacking by the server and copying back.
    - Stdio: a stream is a file with a position, whatever its buffer holds in between, for
      writes no longer than the buffer;
      fgets reads a line.  Vterm: what is written appears on the screen of its terminal, as
      far as its buffer has cells, a key that is typed alone reaches the reader, and an escape
      sequence that is too long writes behind its buffer.
    - Fuse, Devfs: a read of a device goes through libfuse, the server and the library of
      its owner to the function of the driver (PsDev: for five of them, what that
      gives); after a file has been closed, the record in
      the list of open files is used although it is freed.
    - Printf, Scanf, Inet: vsnprintf writes the text that a format stands for, cut at the
      size of the buffer; vsscanf reads numbers; addresses survive printing and reading.

    Some theorems and examples state what the code does where that is not what
    it means to do; they are named in the text before them.

    ** Loops

    Loops over a counter are recursive on it.  Walks over strings and free lists
    get the number of mapped bytes plus one as fuel, which is enough because the
    addresses they visit are different and mapped ([CString.block_size],
    [KMalloc.free_chain_length]); [malloc] asks for pages at most as often as its
    argument says, and two rounds are shown to be enough.  Loops over lists get
    the length of the list.  The loops of the cache get the number of blocks in its
    tree; a chain of clusters gets as much fuel as there are clusters, and the
    theorem shows that a chain without a cycle needs no more; a directory gets the
    number of entries the volume can hold; destroying a RAM disk gets the number of
    its resources and links.  A segment of a program gets one round per page; the
    entries of a Rock Ridge area get 256, the size of a record; the records of a
    directory get its size.  [read] and [write] get one round per page and two more,
    which is shown to be enough; what is written to a terminal gets one round per
    byte and one more, an escape sequence its length and four; a character of a format is processed at
    most three times; closing all files gets their number; a remote call is
    tried a hundred times, as in the code.  Module lists, strings of the boot loader and volume
    descriptors end by a mark in memory; the fuel is an argument of the theorems.

    ** Not modelled

    Port I/O, descriptor tables, interrupt controllers and the console; the TLB
    (taken to be coherent); the debug output; the functions that only register
    system calls; strdup and strerror; allocation failure in the kernel
    components; the calls of the initialisation functions in main.  The way of a remote call
    through the kernel is modelled (Rpc) but not joined with the library's two ends: AppRpc
    has it as an interface, Devfs calls the function of the other process directly.  Of the
    applications: printing to streams and the loading of keyboard layouts are left out;
    drivers of hardware are port I/O; zlib, regular expressions, malloc, the math library,
    gzip and ext2 are third-party code. *)

From Stdlib Require Export ZArith Lia.
From stdpp Require Export numbers gmap list.

#[global] Open Scope Z_scope.

(** ** Machine integers

    A [w]-bit unsigned integer is a [Z] in [0, 2^w); [wN] is the wrap-around
    of the conversion to the unsigned type, [sN] that of the conversion to the
    signed one (two's complement, as gcc on IA-32 defines it). *)

Definition w8 (x : Z) : Z := x mod 256.
Definition w16 (x : Z) : Z := x mod 65536.
Definition w32 (x : Z) : Z := x mod 4294967296.
Definition w64 (x : Z) : Z := x mod 18446744073709551616.

Definition s8 (x : Z) : Z := let y := w8 x in if y <? 128 then y else y - 256.
Definition s16 (x : Z) : Z := let y := w16 x in if y <? 32768 then y else y - 65536.
Definition s32 (x : Z) : Z := let y := w32 x in if y <? 2147483648 then y else y - 4294967296.

(** The null pointer. *)
Definition NULL : Z := 0.

Lemma w32_range x : 0 <= w32 x < 4294967296.
Proof. unfold w32. apply Z.mod_pos_bound. lia. Qed.

Lemma w32_small x : 0 <= x < 4294967296 -> w32 x = x.
Proof. unfold w32. apply Z.mod_small. Qed.

Lemma w8_range x : 0 <= w8 x < 256.
Proof. unfold w8. apply Z.mod_pos_bound. lia. Qed.

Lemma w8_small x : 0 <= x < 256 -> w8 x = x.
Proof. unfold w8. apply Z.mod_small. Qed.

Lemma w32_neg x : -4294967296 <= x < 0 -> w32 x = x + 4294967296.
Proof.
  intros. unfold w32. symmetry.
  apply (Z.mod_unique_pos _ _ (-1)); lia.
Qed.

Lemma s32_small x : -2147483648 <= x < 2147483648 -> s32 x = x.
Proof.
  intros H. unfold s32. destruct (decide (0 <= x)).
  - rewrite w32_small by lia. destruct (Z.ltb_spec x 2147483648); lia.
  - rewrite w32_neg by lia. destruct (Z.ltb_spec (x + 4294967296) 2147483648); lia.
Qed.

Lemma s32_range x : -2147483648 <= s32 x < 2147483648.
Proof.
  unfold s32. pose proof (w32_range x).
  destruct (Z.ltb_spec (w32 x) 2147483648); lia.
Qed.

(** ** Automation *)

Create HintDb mein.

(** Case analysis on the boolean tests of translated C conditions. *)
Ltac btest :=
  match goal with
  | |- context [?a =? ?b] => destruct (Z.eqb_spec a b)
  | |- context [?a <? ?b] => destruct (Z.ltb_spec a b)
  | |- context [?a <=? ?b] => destruct (Z.leb_spec a b)
  | H : context [?a =? ?b] |- _ => destruct (Z.eqb_spec a b)
  | H : context [?a <? ?b] |- _ => destruct (Z.ltb_spec a b)
  | H : context [?a <=? ?b] |- _ => destruct (Z.leb_spec a b)
  end.

Ltac btests := repeat (btest; simpl in *; try lia; try congruence).

(** Turn a computed boolean hypothesis into the proposition it decides. *)
Ltac zbool :=
  repeat match goal with
  | H : (_ =? _) = true |- _ => apply Z.eqb_eq in H
  | H : (_ =? _) = false |- _ => apply Z.eqb_neq in H
  | H : (_ <? _) = true |- _ => apply Z.ltb_lt in H
  | H : (_ <? _) = false |- _ => apply Z.ltb_ge in H
  | H : (_ <=? _) = true |- _ => apply Z.leb_le in H
  | H : (_ <=? _) = false |- _ => apply Z.leb_gt in H
  | H : _ && _ = true |- _ => apply andb_true_iff in H as [? ?]
  | H : _ || _ = false |- _ => apply orb_false_iff in H as [? ?]
  | H : negb _ = true |- _ => apply negb_true_iff in H
  | H : negb _ = false |- _ => apply negb_false_iff in H
  end.

(** ** Lists indexed by [Z] *)

Section list_lemmas.
Context {A : Type}.
Implicit Types l k : list A.

Lemma lookup_snoc_eq l (x : A) : (l ++ [x]) !! length l = Some x.
Proof. rewrite lookup_app_r by lia. by rewrite Nat.sub_diag. Qed.

Lemma delete_middle l k x : delete (length l) (l ++ x :: k) = (l ++ k).
Proof. induction l as [|y l IH]; [done|]. simpl. by f_equal. Qed.

Lemma insert_after l k x y :
  (take (S (length l)) (l ++ x :: k) ++ y :: drop (S (length l)) (l ++ x :: k)) = (l ++ x :: y :: k).
Proof. induction l as [|z l IH]; [done|]. cbn. f_equal. exact IH. Qed.

Lemma split_at l i x : l !! i = Some x -> exists k1 k2, l = (k1 ++ x :: k2) /\ length k1 = i.
Proof.
  intros H. exists (take i l), (drop (S i) l). split.
  - by rewrite take_drop_middle.
  - rewrite length_take. apply lookup_lt_Some in H. lia.
Qed.

Lemma NoDup_remove_elem l x : NoDup l -> x ∈ l ->
  exists k1 k2, l = (k1 ++ x :: k2) /\ x ∉ k1 /\ x ∉ k2 /\ NoDup (k1 ++ k2).
Proof.
  intros Hnd Hin. apply list_elem_of_split in Hin as (k1 & k2 & ->).
  exists k1, k2. apply NoDup_app in Hnd as (H1 & H2 & H3).
  apply NoDup_cons in H3 as [H3 H4].
  repeat split; auto.
  - intros Hx. apply (H2 x Hx). set_solver.
  - apply NoDup_app. repeat split; auto. intros y Hy Hy'. apply (H2 y Hy). set_solver.
Qed.
End list_lemmas.

(** ** Maps *)

Lemma alter_insert_same {A} (f : A -> A) (m : gmap Z A) p x : m !! p = Some x -> alter f p m = <[p := f x]> m.
Proof.
  intros Hx. apply map_eq. intros q. destruct (decide (q = p)) as [->|].
  - by rewrite lookup_alter_eq, lookup_insert_eq, Hx.
  - by rewrite lookup_alter_ne, lookup_insert_ne.
Qed.
