(* ===== verification/LList.v ===== *)
(** * Linked lists (lib/libmeinos/llist.c, include/llist.h)

    The heap representation of the list library: list headers
    ([struct llist_S]) and nodes ([struct llist_node]) live in a store indexed
    by addresses, every operation of llist.c is translated on that store, and
    a simulation relates it to the abstract store in which a list handle names
    a plain sequence.  The sequence operations of [Module Seq] are the
    interface the kernel components are written against. *)

From S2P Require Import Prelude.

(** What the list library relies on of the allocator: an address that is not
    NULL and not in use.  [malloc.c]'s own search loop never returns NULL. *)
Class Malloc := {
  malloc : gset Z -> Z;
  malloc_nonnull : forall used, malloc used <> NULL;
  malloc_fresh : forall used, malloc used ∉ used;
}.

(** ** The abstract operations: sequences of pointers *)

Module Seq.

(** [llist_get] *)
Definition get (xs : list Z) (index : Z) : Z :=
  if index <? 0 then NULL else default NULL (xs !! Z.to_nat index).

(** [llist_find]: the scan stops at the end or at a NULL element; (size_t)-1
    when nothing is found. *)
Fixpoint find_from (xs : list Z) (i : Z) (find : Z) : Z :=
  match xs with
  | [] => w32 (-1)
  | x :: xs =>
      if x =? NULL then w32 (-1)
      else if x =? find then i else find_from xs (i + 1) find
  end.

Definition find (xs : list Z) (x : Z) : Z := find_from xs 0 x.

(** [llist_remove]: the removed value (NULL when there is none) and the rest. *)
Definition remove (xs : list Z) (index : Z) : Z * list Z :=
  match xs !! Z.to_nat index with
  | Some x => (x, delete (Z.to_nat index) xs)
  | None => (NULL, xs)
  end.

(** [llist_insert]: [None] is the NULL result. *)
Definition insert (xs : list Z) (index value : Z) : option (list Z) :=
  if index <=? Z.of_nat (length xs)
  then Some (take (Z.to_nat index) xs ++ value :: drop (Z.to_nat index) xs)
  else None.

(** [llist_pop] *)
Definition pop (xs : list Z) : Z * list Z :=
  match xs with
  | [] => (NULL, [])
  | x :: xs => (x, xs)
  end.

(** The idiom [llist_remove(l, llist_find(l, x))] used all over the kernel. *)
Definition drop_elem (xs : list Z) (x : Z) : list Z := (remove xs (find xs x)).2.

(** The elements an indexed scan [for (i=0;(x = llist_get(l,i));i++)] visits. *)
Fixpoint scan (xs : list Z) : list Z :=
  match xs with
  | [] => []
  | x :: xs => if x =? NULL then [] else x :: scan xs
  end.

(** The values a drain [while ((x = llist_pop(l)))] yields, and what is left. *)
Fixpoint drain (xs : list Z) : list Z * list Z :=
  match xs with
  | [] => ([], [])
  | x :: xs => if x =? NULL then ([], xs) else let '(ys, r) := drain xs in (x :: ys, r)
  end.

End Seq.

(** ** Facts on the sequence operations used by the kernel components *)

Lemma find_from_range xs x i : Seq.find_from xs i x = w32 (-1) \/
  (exists n, Seq.find_from xs i x = i + Z.of_nat n /\ xs !! n = Some x).
Proof.
  revert i. induction xs as [|y xs IH]; intros i; simpl; [auto|].
  destruct (Z.eqb_spec y NULL); [auto|]. destruct (Z.eqb_spec y x).
  - right. exists 0%nat. split; [lia|]. by subst.
  - destruct (IH (i + 1)) as [->|(m & -> & Hm)]; [auto|]. right. exists (S m). split; [lia|done].
Qed.

Lemma find_from_in xs k x i :
  x <> NULL -> NULL ∉ xs -> x ∉ xs ->
  Seq.find_from (xs ++ x :: k) i x = i + Z.of_nat (length xs).
Proof.
  intros Hx. revert i. induction xs as [|y xs IH]; intros i H1 H2; simpl.
  - destruct (Z.eqb_spec x NULL); [done|]. rewrite Z.eqb_refl. lia.
  - destruct (Z.eqb_spec y NULL); [set_solver|]. destruct (Z.eqb_spec y x); [set_solver|].
    rewrite IH by set_solver. lia.
Qed.

(** [llist_remove(l, llist_find(l, x))] deletes the first [x]. *)
Lemma drop_elem_in xs k x :
  x <> NULL -> NULL ∉ xs -> x ∉ xs -> Seq.drop_elem (xs ++ x :: k) x = (xs ++ k).
Proof.
  intros. unfold Seq.drop_elem, Seq.find, Seq.remove. rewrite find_from_in by done.
  rewrite Z.add_0_l, Nat2Z.id, list_lookup_middle by done. simpl. apply delete_middle.
Qed.

(** ... and is a no-op on a list without [x]: index (size_t)-1 is out of range. *)
Lemma drop_elem_notin xs x :
  x ∉ xs -> Z.of_nat (length xs) < 4294967295 -> Seq.drop_elem xs x = xs.
Proof.
  intros Hx Hl. unfold Seq.drop_elem, Seq.find, Seq.remove.
  destruct (find_from_range xs x 0) as [->|(n & -> & Hn)].
  - by rewrite lookup_ge_None_2 by (change (w32 (-1)) with 4294967295; lia).
  - exfalso. apply Hx. eapply list_elem_of_lookup_2, Hn.
Qed.

(** On a duplicate-free list without NULL entries: exactly [x] goes. *)
Lemma drop_elem_NoDup xs x :
  NoDup xs -> NULL ∉ xs -> Z.of_nat (length xs) < 4294967295 ->
  NoDup (Seq.drop_elem xs x) /\ (forall y, y ∈ Seq.drop_elem xs x <-> y ∈ xs /\ y <> x) /\
  (length (Seq.drop_elem xs x) <= length xs)%nat.
Proof.
  intros Hnd H0 Hl. destruct (decide (x ∈ xs)) as [Hin|Hni].
  - destruct (NoDup_remove_elem xs x Hnd Hin) as (k1 & k2 & -> & H1 & H2 & H3).
    rewrite drop_elem_in by (auto; set_solver). repeat split; auto.
    + set_solver.
    + intros ->. set_solver.
    + set_solver.
    + rewrite !length_app. simpl. lia.
  - rewrite drop_elem_notin by done. repeat split; auto; [intros ->; done|tauto].
Qed.

Lemma scan_nonnull xs : NULL ∉ xs -> Seq.scan xs = xs.
Proof.
  induction xs as [|x xs IH]; intros H; simpl; [done|].
  destruct (Z.eqb_spec x NULL); [set_solver|]. rewrite IH by set_solver. done.
Qed.

(** ** A concrete allocator *)

Definition bump (used : gset Z) : Z := 1 + set_fold Z.max 0 used.

Lemma bump_above used x : x ∈ used -> x < bump used.
Proof.
  unfold bump. revert x.
  apply (set_fold_ind_L (fun r X => 0 <= r /\ forall x, x ∈ X -> x < 1 + r) Z.max 0).
  - split; [lia|set_solver].
  - intros y X r _ (H0 & H1). split; [lia|]. intros x Hx.
    apply elem_of_union in Hx as [->%elem_of_singleton|Hx]; [lia|]. specialize (H1 x Hx). lia.
Qed.

Lemma bump_pos used : 0 < bump used.
Proof.
  unfold bump. cut (0 <= set_fold Z.max 0 used); [lia|].
  apply (set_fold_ind_L (fun r _ => 0 <= r) Z.max 0); [lia|]. intros; lia.
Qed.

#[export] Instance bump_malloc : Malloc.
Proof.
  refine {| malloc := bump |}.
  - intros u E. pose proof (bump_pos u). unfold NULL in E. lia.
  - intros u Hin. pose proof (bump_above u _ Hin). lia.
Defined.

(** ** The heap representation *)

Module Heap.

Record llist_node := Node { next : Z; value : Z }.
Record llist_S := Hdr { anchor : Z; size : Z }.

Record store := Store { lists : gmap Z llist_S; nodes : gmap Z llist_node }.

Definition used (st : store) : gset Z := dom (lists st) ∪ dom (nodes st).

Definition set_hdr (st : store) (p : Z) (h : llist_S) : store :=
  Store (<[p := h]> (lists st)) (nodes st).
Definition set_node (st : store) (a : Z) (n : llist_node) : store :=
  Store (lists st) (<[a := n]> (nodes st)).
Definition free_node (st : store) (a : Z) : store := Store (lists st) (delete a (nodes st)).
Definition free_hdr (st : store) (p : Z) : store := Store (delete p (lists st)) (nodes st).

(** Results: [None] is an access to memory that is not there. *)

Section llist.
Context `{Malloc}.

Definition llist_create (st : store) : option (Z * store) :=
  let p := malloc (used st) in
  Some (p, set_hdr st p (Hdr NULL 0)).

Definition llist_size (st : store) (list : Z) : option Z :=
  if list =? NULL then Some 0 else
  h ← lists st !! list;
  if anchor h =? NULL then Some 0 else Some (size h).

Definition llist_push (st : store) (list value : Z) : option (Z * store) :=
  if list =? NULL then Some (NULL, st) else
  h ← lists st !! list;
  let a := malloc (used st) in
  let st1 := set_node st a (Node (anchor h) value) in
  Some (list, set_hdr st1 list (Hdr a (w32 (size h + 1)))).

Definition llist_pop (st : store) (list : Z) : option (Z * store) :=
  if list =? NULL then Some (NULL, st) else
  h ← lists st !! list;
  if anchor h =? NULL then Some (NULL, st) else
  n ← nodes st !! anchor h;
  let st1 := set_hdr st list (Hdr (next n) (w32 (size h - 1))) in
  Some (value n, free_node st1 (anchor h)).

(** [while (n--) { current = current->next; if (!current) return NULL; }] *)
Fixpoint walk (ns : gmap Z llist_node) (n : nat) (current : Z) : option Z :=
  match n with
  | O => Some current
  | S n =>
      nd ← ns !! current;
      if next nd =? NULL then Some NULL else walk ns n (next nd)
  end.

Definition llist_get_node_at (st : store) (list index : Z) : option Z :=
  if list =? NULL then Some NULL else
  h ← lists st !! list;
  if anchor h =? NULL then Some NULL
  else if w32 (size h - 1) <? index then Some NULL
  else walk (nodes st) (Z.to_nat index) (anchor h).

Definition llist_get (st : store) (list index : Z) : option Z :=
  node ← llist_get_node_at st list index;
  if node =? NULL then Some NULL else nd ← nodes st !! node; Some (value nd).

(** The node is allocated before the argument is checked, and is lost on the
    error returns. *)
Definition llist_insert (st : store) (list index v : Z) : option (Z * store) :=
  let a := malloc (used st) in
  let st1 := set_node st a (Node NULL v) in
  if list =? NULL then Some (NULL, st1) else
  h ← lists st1 !! list;
  if negb (index =? 0) then
    prev ← llist_get_node_at st1 list (w32 (index - 1));
    if prev =? NULL then Some (NULL, st1) else
    pn ← nodes st1 !! prev;
    let st2 := set_node st1 a (Node (next pn) v) in
    let st3 := set_node st2 prev (Node a (value pn)) in
    Some (list, set_hdr st3 list (Hdr (anchor h) (w32 (size h + 1))))
  else
    let st2 := set_node st1 a (Node (anchor h) v) in
    Some (list, set_hdr st2 list (Hdr a (w32 (size h + 1)))).

Definition llist_remove (st : store) (list index : Z) : option (Z * store) :=
  if list =? NULL then Some (NULL, st) else
  h ← lists st !! list;
  if negb (index =? 0) then
    prev ← llist_get_node_at st list (w32 (index - 1));
    if prev =? NULL then Some (NULL, st) else
    pn ← nodes st !! prev;
    if next pn =? NULL then Some (NULL, st) else
    n ← nodes st !! next pn;
    let st1 := set_node st prev (Node (next n) (value pn)) in
    let st2 := free_node st1 (next pn) in
    Some (value n, set_hdr st2 list (Hdr (anchor h) (w32 (size h - 1))))
  else
    if anchor h =? NULL then Some (NULL, st) else
    n ← nodes st !! anchor h;
    let st1 := free_node st (anchor h) in
    Some (value n, set_hdr st1 list (Hdr (next n) (w32 (size h - 1)))).

(** The scan of [llist_find]; a list has at most as many elements as there are
    nodes, so [S] of their number is enough fuel. *)
Fixpoint find_loop (fuel : nat) (st : store) (list find i : Z) : option Z :=
  match fuel with
  | O => None
  | S fuel =>
      element ← llist_get st list i;
      if element =? NULL then Some (w32 (-1))
      else if element =? find then Some i
      else find_loop fuel st list find (w32 (i + 1))
  end.

Definition scan_fuel (st : store) : nat := S (base.size (nodes st)).

Definition llist_find (st : store) (list find : Z) : option Z :=
  find_loop (scan_fuel st) st list find 0.

Fixpoint copy_loop (fuel : nat) (st : store) (list new i : Z) : option store :=
  match fuel with
  | O => None
  | S fuel =>
      element ← llist_get st list i;
      if element =? NULL then Some st
      else
        r ← llist_push st new element;
        copy_loop fuel r.2 list new (w32 (i + 1))
  end.

Definition llist_copy (st : store) (list : Z) : option (Z * store) :=
  '(new, st1) ← llist_create st;
  st2 ← copy_loop (scan_fuel st) st1 list new 0;
  Some (new, st2).

(** [while (llist_pop(list)!=NULL); free(list);] *)
Fixpoint drain_loop (fuel : nat) (st : store) (list : Z) : option store :=
  match fuel with
  | O => None
  | S fuel =>
      '(v, st1) ← llist_pop st list;
      if v =? NULL then Some st1 else drain_loop fuel st1 list
  end.

Definition llist_destroy (st : store) (list : Z) : option store :=
  st1 ← drain_loop (scan_fuel st) st list;
  _ ← lists st1 !! list;
  Some (free_hdr st1 list).

End llist.

(** ** Representation of sequences in the store *)

(** [chain ns a l]: from address [a], the nodes with the addresses and values
    of [l] follow one another and the last one ends with NULL. *)
Fixpoint chain (ns : gmap Z llist_node) (a : Z) (l : list (Z * Z)) : Prop :=
  match l with
  | [] => a = NULL
  | (b, v) :: l => a = b /\ a <> NULL /\ exists n, ns !! a = Some (Node n v) /\ chain ns n l
  end.

Lemma chain_dom ns a l b : chain ns a l -> b ∈ l.*1 -> b ∈ dom ns.
Proof.
  revert a. induction l as [|[c v] l IH]; intros a; simpl; [set_solver|].
  intros (-> & _ & n & Hn & Hc). rewrite elem_of_cons. intros [->|Hb]; [|eauto].
  apply elem_of_dom. eauto.
Qed.

Lemma chain_nonnull ns a l b : chain ns a l -> b ∈ l.*1 -> b <> NULL.
Proof.
  revert a. induction l as [|[c v] l IH]; intros a; simpl; [set_solver|].
  intros (-> & Hnn & n & _ & Hc). rewrite elem_of_cons. intros [->|Hb]; eauto.
Qed.

Lemma chain_frame ns ns' a l :
  (forall b, b ∈ l.*1 -> ns' !! b = ns !! b) -> chain ns a l -> chain ns' a l.
Proof.
  revert a. induction l as [|[c v] l IH]; intros a Hf; simpl; [done|].
  intros (-> & Hnn & n & Hn & Hc). repeat split; auto. exists n. split.
  - rewrite Hf by set_solver. done.
  - apply IH; [|done]. intros b Hb. apply Hf. set_solver.
Qed.

Lemma chain_fun ns a l1 l2 : chain ns a l1 -> chain ns a l2 -> l1 = l2.
Proof.
  revert a l2. induction l1 as [|[c v] l1 IH]; intros a [|[d w] l2]; simpl; try done.
  - intros -> (_ & Hn & _). by destruct Hn.
  - intros (-> & Hn & _) ->. done.
  - intros (-> & _ & n & Hn & Hc) (-> & _ & n' & Hn' & Hc').
    rewrite Hn in Hn'. injection Hn' as <- <-. f_equal. eauto.
Qed.

Lemma chain_app ns a l1 b v l2 : chain ns a (l1 ++ (b, v) :: l2) -> chain ns b ((b, v) :: l2).
Proof.
  revert a. induction l1 as [|[c w] l1 IH]; intros a.
  - intros Hc. assert (a = b) as -> by apply Hc. exact Hc.
  - intros (-> & _ & n & _ & Hc). exact (IH n Hc).
Qed.

(** A chain visits no address twice. *)
Lemma chain_NoDup ns a l : chain ns a l -> NoDup l.*1.
Proof.
  revert a. induction l as [|[c v] l IH]; intros a; [constructor|].
  intros Hc. pose proof Hc as Hc0. simpl. destruct Hc as (-> & _ & n & Hn & Hc).
  apply NoDup_cons. split; [|eauto].
  intros Hin. apply list_elem_of_fmap in Hin as ([d w] & Heq & Hd). simpl in Heq. subst d.
  apply list_elem_of_split in Hd as (l1 & l2 & ->).
  apply chain_app in Hc. pose proof (chain_fun _ _ _ _ Hc Hc0) as E.
  apply (f_equal length) in E. simpl in E. rewrite length_app in E. simpl in E. lia.
Qed.

Lemma chain_length ns a l : chain ns a l -> (length l <= base.size ns)%nat.
Proof.
  intros Hc. rewrite <- size_dom.
  rewrite <- (length_fmap fst l).
  rewrite <- (size_list_to_set (C:=gset Z)) by (eapply chain_NoDup; eauto).
  apply subseteq_size. intros b Hb. apply elem_of_list_to_set in Hb. eauto using chain_dom.
Qed.

(** The store [st] holds, for each handle of [sh], the chain [sh] says. *)
Record Shape (st : store) (sh : gmap Z (list (Z * Z))) : Prop := {
  shape_hdr : forall p l, sh !! p = Some l -> p <> NULL /\ exists a,
    lists st !! p = Some (Hdr a (Z.of_nat (length l))) /\ chain (nodes st) a l;
  shape_only : forall p, sh !! p = None -> lists st !! p = None;
  shape_disj : forall p q lp lq b, p <> q -> sh !! p = Some lp -> sh !! q = Some lq ->
    b ∈ lp.*1 -> b ∈ lq.*1 -> False;
}.

Definition Rep (st : store) (ls : gmap Z (list Z)) : Prop :=
  exists sh, Shape st sh /\ ls = (fun l : list (Z * Z) => l.*2) <$> sh.

Lemma shape_update st sh p l a' l' ns' :
  Shape st sh -> sh !! p = Some l ->
  (forall b, b ∈ l'.*1 -> b ∈ l.*1 \/ b ∉ dom (nodes st)) ->
  (forall b, b ∉ l.*1 -> b ∈ dom (nodes st) -> ns' !! b = nodes st !! b) ->
  chain ns' a' l' ->
  Shape (Store (<[p := Hdr a' (Z.of_nat (length l'))]> (lists st)) ns') (<[p := l']> sh).
Proof.
  intros [Hh Ho Hd] Hp Hold Hfr Hc.
  assert (Hdom : forall q lq b, sh !! q = Some lq -> b ∈ lq.*1 -> b ∈ dom (nodes st)).
  { intros q lq b Hq Hb. destruct (Hh q lq Hq) as (_ & a & _ & Hqc). eauto using chain_dom. }
  split; simpl.
  - intros q lq Hq. destruct (decide (p = q)) as [<-|Hne].
    + rewrite lookup_insert_eq in Hq. injection Hq as <-.
      split; [by apply (Hh p l)|]. exists a'. by rewrite lookup_insert_eq.
    + rewrite lookup_insert_ne in Hq by done.
      destruct (Hh q lq Hq) as (Hnn & a & Ha & Hqc). split; [done|]. exists a.
      rewrite lookup_insert_ne by done. split; [done|].
      apply (chain_frame (nodes st)); [|done].
      intros b Hb. apply Hfr; [|eauto]. intros Hb'. eauto.
  - intros q Hq. destruct (decide (p = q)) as [<-|Hne].
    + by rewrite lookup_insert_eq in Hq.
    + rewrite lookup_insert_ne in Hq by done. rewrite lookup_insert_ne by done. auto.
  - intros q r lq lr b Hqr Hq Hr Hbq Hbr.
    assert (Hx : forall s ls, p <> s -> sh !! s = Some ls -> b ∈ l'.*1 -> b ∈ ls.*1 -> False).
    { intros s ls Hs Hls Hb1 Hb2. destruct (Hold b Hb1) as [Hb|Hb]; [eauto|].
      apply Hb. eauto. }
    destruct (decide (p = q)) as [<-|Hq'], (decide (p = r)) as [<-|Hr']; simplify_map_eq; eauto.
Qed.

Lemma rep_shape st ls p xs :
  Rep st ls -> ls !! p = Some xs ->
  exists sh l a, Shape st sh /\ ls = (fun l : list (Z * Z) => l.*2) <$> sh /\
    sh !! p = Some l /\ xs = l.*2 /\ p <> NULL /\
    lists st !! p = Some (Hdr a (Z.of_nat (length xs))) /\ chain (nodes st) a l.
Proof.
  intros (sh & Hsh & ->) Hp. rewrite lookup_fmap in Hp.
  destruct (sh !! p) as [l|] eqn:El; simplify_eq/=.
  destruct (shape_hdr _ _ Hsh p l El) as (Hnn & a & Ha & Hc).
  exists sh, l, a. rewrite length_fmap. done.
Qed.

Lemma rep_update st sh p l a' l' ns' :
  Shape st sh -> sh !! p = Some l ->
  (forall b, b ∈ l'.*1 -> b ∈ l.*1 \/ b ∉ dom (nodes st)) ->
  (forall b, b ∉ l.*1 -> b ∈ dom (nodes st) -> ns' !! b = nodes st !! b) ->
  chain ns' a' l' ->
  Rep (Store (<[p := Hdr a' (Z.of_nat (length l'))]> (lists st)) ns')
      (<[p := l'.*2]> ((fun l : list (Z * Z) => l.*2) <$> sh)).
Proof.
  intros. exists (<[p := l']> sh). split; [by eapply shape_update|].
  by rewrite fmap_insert.
Qed.

(** Garbage nodes do not disturb the lists. *)
Lemma rep_garbage st ls a n : Rep st ls -> a ∉ dom (nodes st) -> Rep (set_node st a n) ls.
Proof.
  intros (sh & [Hh Ho Hd] & ->) Ha. exists sh. split; [|done]. split; auto. simpl.
  intros p l Hp. destruct (Hh p l Hp) as (Hnn & b & Hb & Hc). split; [done|].
  exists b. split; [done|]. apply (chain_frame (nodes st)); [|done].
  intros c Hcin. apply lookup_insert_ne. intros ->. apply Ha. eauto using chain_dom.
Qed.

(** A node takes eight bytes of a 4 GB address space, so a list length and its
    successor fit in a [size_t]. *)
Definition small (l : list (Z * Z)) : Prop := Z.of_nat (length l) < 4294967295.

Lemma walk_chain ns a l n b v :
  chain ns a l -> l !! n = Some (b, v) -> walk ns n a = Some b.
Proof.
  revert a n. induction l as [|[c w] l IH]; intros a [|n]; simpl; try done.
  - intros (-> & _) [= <- <-]. done.
  - intros (-> & Hnn & m & Hm & Hc) Hl. rewrite Hm. simpl.
    destruct (Z.eqb_spec m NULL) as [->|]; [|eauto].
    destruct l as [|[d u] l]; [done|]. simpl in Hc. destruct Hc as (_ & ? & _). done.
Qed.

Lemma chain_anchor ns a l : chain ns a l -> (a =? NULL) = bool_decide (l = []).
Proof.
  destruct l as [|[b v] l].
  - intros ->. by rewrite bool_decide_true.
  - intros (-> & Hn & _). rewrite bool_decide_false by done. by apply Z.eqb_neq.
Qed.

Lemma get_node_at_ok st p a l index :
  p <> NULL -> lists st !! p = Some (Hdr a (Z.of_nat (length l))) ->
  chain (nodes st) a l -> Z.of_nat (length l) < 4294967296 -> 0 <= index < 4294967296 ->
  llist_get_node_at st p index = Some (default NULL (fst <$> l !! Z.to_nat index)).
Proof.
  intros Hp Hh Hc Hs Hi. unfold llist_get_node_at.
  apply Z.eqb_neq in Hp as ->. rewrite Hh. simpl.
  rewrite (chain_anchor _ _ _ Hc). case_bool_decide; [by subst l|].
  rewrite w32_small by (destruct l; simpl in *; [done|lia]).
  destruct (Z.ltb_spec (Z.of_nat (length l) - 1) index).
  - by rewrite lookup_ge_None_2 by lia.
  - destruct (lookup_lt_is_Some_2 l (Z.to_nat index)) as [[b v] Hb]; [lia|].
    rewrite Hb. simpl. eauto using walk_chain.
Qed.

Lemma chain_lookup ns a l n b v :
  chain ns a l -> l !! n = Some (b, v) -> b <> NULL /\ exists m, ns !! b = Some (Node m v).
Proof.
  revert a n. induction l as [|[c w] l IH]; intros a [|n]; simpl; try done.
  - intros (-> & Hn & m & Hm & _) [= <- <-]. eauto.
  - intros (_ & _ & m & _ & Hc). eauto.
Qed.

Lemma get_ok st p a l index :
  p <> NULL -> lists st !! p = Some (Hdr a (Z.of_nat (length l))) ->
  chain (nodes st) a l -> small l -> 0 <= index < 4294967296 ->
  llist_get st p index = Some (Seq.get l.*2 index).
Proof.
  intros Hp Hh Hc Hs Hi. unfold llist_get, Seq.get.
  unfold small in Hs.
  rewrite (get_node_at_ok st p a l) by (try done; lia). simpl.
  destruct (Z.ltb_spec index 0); [lia|]. rewrite list_lookup_fmap.
  destruct (l !! Z.to_nat index) as [[b v]|] eqn:E; [|done]. simpl.
  destruct (chain_lookup _ _ _ _ _ _ Hc E) as (Hn & m & Hm).
  apply Z.eqb_neq in Hn as ->. by rewrite Hm.
Qed.

Lemma get_app_r (xs ys : list Z) :
  Seq.get (xs ++ ys) (Z.of_nat (length xs)) = Seq.get ys 0.
Proof.
  unfold Seq.get. destruct (Z.ltb_spec (Z.of_nat (length xs)) 0); [lia|].
  rewrite Nat2Z.id, lookup_app_r by lia. by rewrite Nat.sub_diag.
Qed.

Lemma find_loop_ok st p a l done ys x fuel :
  p <> NULL -> lists st !! p = Some (Hdr a (Z.of_nat (length l))) ->
  chain (nodes st) a l -> small l ->
  l.*2 = (done ++ ys) -> (length ys < fuel)%nat ->
  find_loop fuel st p x (Z.of_nat (length done)) =
    Some (Seq.find_from ys (Z.of_nat (length done)) x).
Proof.
  intros Hp Hh Hc Hs. revert done fuel.
  induction ys as [|y ys IH]; intros done [|fuel] Hl Hf; simpl in Hf; try lia; simpl.
  all: unfold small in Hs.
  all: assert (Hl' := f_equal length Hl); rewrite length_fmap, length_app in Hl'; simpl in Hl'.
  all: rewrite (get_ok st p a l) by (try done; lia); rewrite Hl; simpl.
  all: rewrite get_app_r; unfold Seq.get; simpl.
  - done.
  - destruct (Z.eqb_spec y NULL); [done|]. destruct (Z.eqb_spec y x); [done|].
    rewrite w32_small by lia.
    specialize (IH (done ++ [y]) fuel). rewrite length_app in IH. simpl in IH.
    replace (Z.of_nat (length done) + 1) with (Z.of_nat (length done + 1)) by lia.
    apply IH; [|lia]. by rewrite <- (assoc_L (++)).
Qed.

(** Replace what follows the node [c] of a chain. *)
Lemma chain_splice ns ns' a l1 c w l2 m l2' :
  chain ns a (l1 ++ (c, w) :: l2) ->
  (forall b, b ∈ l1.*1 -> ns' !! b = ns !! b) ->
  ns' !! c = Some (Node m w) -> chain ns' m l2' -> chain ns' a (l1 ++ (c, w) :: l2').
Proof.
  revert a. induction l1 as [|[d u] l1 IH]; intros a; simpl.
  - intros (-> & Hn & _) _ Hc Hm. eauto 10.
  - intros (-> & Hn & n & Hd & Hc) Hf Hw Hm. repeat split; auto. exists n. split.
    + rewrite Hf by set_solver. done.
    + apply IH; auto. intros b Hb. apply Hf. set_solver.
Qed.

Section ops.
Context `{Malloc}.

Lemma malloc_node st : malloc (used st) ∉ dom (nodes st).
Proof. pose proof (malloc_fresh (used st)). unfold used in *. set_solver. Qed.

Lemma malloc_hdr st : lists st !! malloc (used st) = None.
Proof.
  pose proof (malloc_fresh (used st)). unfold used in *.
  apply not_elem_of_dom. set_solver.
Qed.

(** Operations on one list [p] whose nodes are [l]. *)
Definition holds (st : store) sh (p a : Z) l : Prop :=
  Shape st sh /\ sh !! p = Some l /\ p <> NULL /\
  lists st !! p = Some (Hdr a (Z.of_nat (length l))) /\ chain (nodes st) a l.

#[local] Abbreviation absl sh := ((fun l : list (Z * Z) => l.*2) <$> sh).

Lemma push_ok st sh p a l v :
  holds st sh p a l -> small l ->
  exists st', llist_push st p v = Some (p, st') /\ Rep st' (<[p := v :: l.*2]> (absl sh)).
Proof.
  intros (Hsh & Hp & Hn & Hh & Hc) Hs. unfold llist_push.
  apply Z.eqb_neq in Hn as ->. rewrite Hh. simpl. eexists. split; [reflexivity|].
  unfold small in Hs.
  set (b := malloc _). pose proof (malloc_node st) as Hb. fold b in Hb.
  rewrite w32_small by lia.
  replace (Z.of_nat (length l) + 1) with (Z.of_nat (length ((b, v) :: l))) by (simpl; lia).
  change (v :: l.*2) with (((b, v) :: l).*2).
  unfold set_hdr, set_node. simpl lists. simpl nodes. eapply rep_update; eauto.
  - simpl. set_solver.
  - intros c Hc1 Hc2. apply lookup_insert_ne. set_solver.
  - simpl. repeat split; [apply malloc_nonnull|]. exists a. rewrite lookup_insert_eq.
    split; [done|]. eapply chain_frame; [|exact Hc].
    intros c Hc1. apply lookup_insert_ne. intros ->. apply Hb. eauto using chain_dom.
Qed.

Lemma pop_ok st sh p a l :
  holds st sh p a l -> small l ->
  exists st', llist_pop st p = Some ((Seq.pop l.*2).1, st') /\
    Rep st' (<[p := (Seq.pop l.*2).2]> (absl sh)).
Proof.
  intros (Hsh & Hp & Hn & Hh & Hc) Hs. unfold llist_pop.
  apply Z.eqb_neq in Hn as ->. rewrite Hh. simpl. rewrite (chain_anchor _ _ _ Hc).
  destruct l as [|[b v] l]; simpl.
  - eexists. split; [done|]. rewrite insert_id; [by exists sh|]. by rewrite lookup_fmap, Hp.
  - pose proof (chain_NoDup _ _ _ Hc) as Hnd. simpl in Hnd. apply NoDup_cons in Hnd as [Hnd _].
    unfold small in Hs. simpl in Hs.
    destruct Hc as (-> & Hbn & n & Hb & Hc). rewrite Hb. simpl. eexists. split; [done|].
    unfold free_node, set_hdr. simpl.
    replace (w32 _) with (Z.of_nat (length l)) by (rewrite w32_small; lia).
    eapply rep_update; eauto.
    + simpl. set_solver.
    + simpl. intros c Hc1 _. apply lookup_delete_ne. set_solver.
    + eapply chain_frame; [|exact Hc]. intros c Hc1. apply lookup_delete_ne. intros ->. done.
Qed.
Lemma insert_head_ok st sh p a l v :
  holds st sh p a l -> small l -> let b := malloc (used st) in
  Rep (set_hdr (set_node (set_node st b (Node NULL v)) b (Node a v)) p
         (Hdr b (w32 (Z.of_nat (length l) + 1))))
      (<[p := v :: l.*2]> (absl sh)).
Proof.
  intros (Hsh & Hp & Hn & Hh & Hc) Hs b. pose proof (malloc_node st) as Hb. fold b in Hb.
  unfold small in Hs. rewrite w32_small by lia.
  replace (Z.of_nat (length l) + 1) with (Z.of_nat (length ((b, v) :: l))) by (simpl; lia).
  change (v :: l.*2) with (((b, v) :: l).*2).
  unfold set_hdr, set_node. simpl lists. simpl nodes. rewrite insert_insert_eq.
  eapply rep_update; eauto.
  - simpl. set_solver.
  - intros c Hc1 Hc2. apply lookup_insert_ne. set_solver.
  - simpl. repeat split; [apply malloc_nonnull|]. exists a. rewrite lookup_insert_eq. split; [done|].
    eapply chain_frame; [|exact Hc]. intros c Hcin. apply lookup_insert_ne.
    intros ->. apply Hb. eauto using chain_dom.
Qed.

Lemma insert_mid_ok st sh p a l1 c w l2 m v :
  holds st sh p a (l1 ++ (c, w) :: l2) -> small (l1 ++ (c, w) :: l2) -> nodes st !! c = Some (Node m w) ->
  let b := malloc (used st) in
  Rep (set_hdr (set_node (set_node (set_node st b (Node NULL v)) b (Node m v)) c (Node b w)) p
         (Hdr a (w32 (Z.of_nat (length (l1 ++ (c, w) :: l2)) + 1))))
      (<[p := (l1 ++ (c, w) :: (b, v) :: l2).*2]> (absl sh)).
Proof.
  intros (Hsh & Hp & Hn & Hh & Hc) Hs Hm b. pose proof (malloc_node st) as Hb. fold b in Hb.
  pose proof (malloc_nonnull (used st)) as Hbn. fold b in Hbn.
  unfold small in Hs. rewrite w32_small by lia.
  replace (Z.of_nat (length (l1 ++ (c, w) :: l2)) + 1)
    with (Z.of_nat (length (l1 ++ (c, w) :: (b, v) :: l2))) by (rewrite !length_app; simpl; lia).
  assert (Hcb : b <> c). { intros ->. apply Hb. apply elem_of_dom. eauto. }
  pose proof (chain_NoDup _ _ _ Hc) as Hnd. rewrite fmap_app in Hnd. simpl in Hnd.
  apply NoDup_app in Hnd as (_ & Hnd1 & Hnd2). apply NoDup_cons in Hnd2 as [Hnd2 _].
  assert (Hfr : forall n x, x ∈ l1.*1 \/ x ∈ l2.*1 -> x <> c ->
            (<[c := n]> (<[b := Node m v]> (nodes st))) !! x = nodes st !! x).
  { intros n x Hx Hxc. rewrite lookup_insert_ne by done. apply lookup_insert_ne. intros ->.
    apply Hb. eapply chain_dom; [exact Hc|]. rewrite fmap_app. simpl. set_solver. }
  unfold set_hdr, set_node. simpl lists. simpl nodes. rewrite insert_insert_eq.
  eapply rep_update; eauto.
  - intros x. rewrite !fmap_app. simpl. set_solver.
  - intros x Hx1 Hx2. rewrite fmap_app in Hx1. simpl in Hx1.
    rewrite lookup_insert_ne by set_solver. apply lookup_insert_ne. set_solver.
  - eapply chain_splice; [exact Hc| |rewrite lookup_insert_eq; reflexivity|].
    + intros x Hx. apply Hfr; set_solver.
    + simpl. repeat split; auto. exists m. rewrite lookup_insert_ne by done.
      rewrite lookup_insert_eq. split; [done|]. apply chain_app in Hc.
      destruct Hc as (_ & _ & m' & Hm' & Hc). rewrite Hm in Hm'. injection Hm' as <-.
      eapply chain_frame; [|exact Hc]. intros x Hx. apply Hfr; set_solver.
Qed.

Lemma insert_ok st sh p a l i v :
  holds st sh p a l -> small l -> 0 <= i < 4294967296 ->
  exists r st', llist_insert st p i v = Some (r, st') /\
    match Seq.insert l.*2 i v with
    | Some ys => r = p /\ Rep st' (<[p := ys]> (absl sh))
    | None => r = NULL /\ Rep st' (absl sh)
    end.
Proof.
  intros Hhold Hs Hi. pose proof Hhold as (Hsh & Hp & Hn & Hh & Hc). unfold llist_insert.
  pose proof (malloc_node st) as Hb. set (b := malloc _) in *.
  pose proof (proj2 (Z.eqb_neq _ _) Hn) as ->. simpl lists. rewrite Hh. simpl.
  unfold small in Hs.
  unfold Seq.insert. rewrite length_fmap. destruct (Z.eqb_spec i 0) as [->|Hi0]; simpl.
  { destruct (Z.leb_spec 0 (Z.of_nat (length l))); [|lia].
    do 2 eexists. split; [reflexivity|]. split; [done|]. by eapply insert_head_ok. }
  rewrite (get_node_at_ok (set_node st b (Node NULL v)) p a l); try done; try lia.
  2: { eapply chain_frame; [|exact Hc]. intros c Hcin. apply lookup_insert_ne.
       intros ->. apply Hb. eauto using chain_dom. }
  2: { apply w32_range. }
  rewrite (w32_small (i - 1)) by lia. simpl. destruct (Z.leb_spec i (Z.of_nat (length l))) as [Hle|Hgt].
  - destruct (lookup_lt_is_Some_2 l (Z.to_nat (i - 1))) as [[c w] Hw]; [lia|].
    destruct (split_at _ _ _ Hw) as (l1 & l2 & -> & Hl1).
    destruct (chain_lookup _ _ _ _ _ _ Hc Hw) as (Hcn & m & Hm).
    rewrite Hw. simpl. pose proof (proj2 (Z.eqb_neq _ _) Hcn) as ->.
    rewrite lookup_insert_ne by (intros ->; apply Hb, elem_of_dom; eauto). rewrite Hm. simpl.
    do 2 eexists. split; [reflexivity|]. split; [done|].
    replace (Z.to_nat i) with (S (length l1.*2)) by (rewrite length_fmap; lia).
    rewrite fmap_app. simpl fmap. rewrite insert_after.
    pose proof (insert_mid_ok _ _ _ _ _ _ _ _ _ v Hhold Hs Hm) as HR.
    cbv zeta in HR. rewrite fmap_app in HR. exact HR.
  - rewrite lookup_ge_None_2 by lia. simpl. do 2 eexists. split; [reflexivity|].
    split; [done|]. apply rep_garbage; [by exists sh|done].
Qed.
Lemma remove_mid_ok st sh p a l1 c w d x l2 m :
  holds st sh p a (l1 ++ (c, w) :: (d, x) :: l2) -> small (l1 ++ (c, w) :: (d, x) :: l2) ->
  nodes st !! d = Some (Node m x) ->
  Rep (set_hdr (free_node (set_node st c (Node m w)) d) p
         (Hdr a (w32 (Z.of_nat (length (l1 ++ (c, w) :: (d, x) :: l2)) - 1))))
      (<[p := (l1 ++ (c, w) :: l2).*2]> (absl sh)).
Proof.
  intros (Hsh & Hp & Hn & Hh & Hc) Hs Hm.
  unfold small in Hs.
  replace (w32 _) with (Z.of_nat (length (l1 ++ (c, w) :: l2)))
    by (rewrite length_app in *; simpl in *; rewrite w32_small; rewrite ?length_app; simpl; lia).
  pose proof (chain_NoDup _ _ _ Hc) as Hnd. rewrite fmap_app in Hnd. simpl in Hnd.
  apply NoDup_app in Hnd as (_ & Hnd1 & Hnd2). apply NoDup_cons in Hnd2 as [Hnd2 Hnd3].
  apply NoDup_cons in Hnd3 as [Hnd3 _].
  unfold set_hdr, set_node, free_node. simpl lists. simpl nodes. eapply rep_update; eauto.
  - intros y. rewrite !fmap_app. simpl. set_solver.
  - intros y Hy _. rewrite fmap_app in Hy. simpl in Hy.
    rewrite lookup_delete_ne by set_solver. apply lookup_insert_ne. set_solver.
  - eapply chain_splice; [exact Hc| | |].
    + intros y Hy. rewrite lookup_delete_ne by set_solver. apply lookup_insert_ne. set_solver.
    + rewrite lookup_delete_ne by set_solver. apply lookup_insert_eq.
    + rewrite cons_middle, (assoc_L (++)) in Hc. apply chain_app in Hc.
      destruct Hc as (_ & _ & m' & Hm' & Hc). rewrite Hm in Hm'. injection Hm' as <-.
      eapply chain_frame; [|exact Hc]. intros y Hy.
      rewrite lookup_delete_ne by set_solver. apply lookup_insert_ne. set_solver.
Qed.

Lemma remove_ok st sh p a l i :
  holds st sh p a l -> small l -> 0 <= i < 4294967296 ->
  exists st', llist_remove st p i = Some ((Seq.remove l.*2 i).1, st') /\
    Rep st' (<[p := (Seq.remove l.*2 i).2]> (absl sh)).
Proof.
  intros Hhold Hs Hi. pose proof Hhold as (Hsh & Hp & Hn & Hh & Hc). unfold llist_remove.
  pose proof (proj2 (Z.eqb_neq _ _) Hn) as ->. rewrite Hh. simpl.
  pose proof Hs as Hs'. unfold small in Hs'.
  assert (Hnone : Rep st (<[p := l.*2]> (absl sh))).
  { rewrite insert_id; [by exists sh|]. by rewrite lookup_fmap, Hp. }
  unfold Seq.remove. destruct (Z.eqb_spec i 0) as [->|Hi0]; simpl.
  - pose proof (pop_ok st sh p a l Hhold Hs) as (st' & Hpop & Hrep).
    unfold llist_pop in Hpop. pose proof (proj2 (Z.eqb_neq _ _) Hn) as E. rewrite E, Hh in Hpop.
    simpl in Hpop. destruct (a =? NULL) eqn:Ea.
    + destruct l as [|[b v] l]; [simpl in *; eauto|].
      rewrite (chain_anchor _ _ _ Hc) in Ea. case_bool_decide; done.
    + destruct l as [|[b v] l]; [by rewrite (chain_anchor _ _ _ Hc) in Ea|].
      destruct Hc as (-> & _ & n & Hb & _). rewrite Hb in *. simpl in *. eauto.
  - rewrite (get_node_at_ok st p a l) by (try done; try lia; apply w32_range).
    rewrite (w32_small (i - 1)) by lia. simpl.
    destruct (l !! Z.to_nat (i - 1)) as [[c w]|] eqn:Hw; simpl.
    2: { rewrite lookup_ge_None_2; [eauto|]. apply lookup_ge_None in Hw. rewrite length_fmap. lia. }
    destruct (split_at _ _ _ Hw) as (l1 & l2 & -> & Hl1).
    destruct (chain_lookup _ _ _ _ _ _ Hc Hw) as (Hcn & m & Hm).
    pose proof (proj2 (Z.eqb_neq _ _) Hcn) as ->. rewrite Hm. simpl.
    apply chain_app in Hc as Hc2. destruct Hc2 as (_ & _ & m' & Hm' & Hc2).
    rewrite Hm in Hm'. injection Hm' as <-. rewrite (chain_anchor _ _ _ Hc2).
    assert (Hidx : Z.to_nat i = length (l1 ++ [(c, w)]).*2)
      by (rewrite length_fmap, length_app; simpl; lia).
    assert (Hx : (l1 ++ (c, w) :: l2).*2 = ((l1 ++ [(c, w)]).*2 ++ l2.*2))
      by (rewrite !fmap_app; simpl; by rewrite <- (assoc_L (++))).
    rewrite Hx in Hnone |- *. rewrite Hidx.
    destruct l2 as [|[d x] l2]; simpl.
    { rewrite lookup_ge_None_2 by (rewrite length_app; simpl; lia).
      eauto. }
    rewrite list_lookup_middle, delete_middle by done. simpl.
    destruct Hc2 as (-> & _ & m2 & Hd & _). rewrite Hd. simpl. eexists. split; [reflexivity|].
    pose proof (remove_mid_ok _ _ _ _ _ _ _ _ _ _ _ Hhold Hs Hd) as HR.
    rewrite fmap_app in HR. rewrite fmap_app, <- (assoc_L (++)). exact HR.
Qed.

Lemma find_ok st sh p a l x :
  holds st sh p a l -> small l -> llist_find st p x = Some (Seq.find l.*2 x).
Proof.
  intros (Hsh & Hp & Hn & Hh & Hc) Hs. unfold llist_find, Seq.find.
  apply (find_loop_ok st p a l [] l.*2); try done.
  rewrite length_fmap. pose proof (chain_length _ _ _ Hc). unfold scan_fuel. lia.
Qed.
Lemma create_ok st ls :
  Rep st ls -> let p := malloc (used st) in
  llist_create st = Some (p, set_hdr st p (Hdr NULL 0)) /\ ls !! p = None /\ p <> NULL /\
  Rep (set_hdr st p (Hdr NULL 0)) (<[p := []]> ls).
Proof.
  intros (sh & Hsh & ->) p. pose proof (malloc_hdr st) as Hp. fold p in Hp.
  pose proof (malloc_nonnull (used st)) as Hn. fold p in Hn.
  assert (Hs : sh !! p = None).
  { destruct (sh !! p) as [l|] eqn:E; [|done].
    destruct (shape_hdr _ _ Hsh p l E) as (_ & a & Ha & _). congruence. }
  repeat split; auto. { by rewrite lookup_fmap, Hs. }
  exists (<[p := []]> sh). rewrite fmap_insert. split; [|done].
  destruct Hsh as [Hh Ho Hd]. split; simpl.
  - intros q l. destruct (decide (p = q)) as [<-|Hne]; intros Hq; simplify_map_eq; [|by apply Hh].
    split; [done|]. exists NULL. done.
  - intros q. destruct (decide (p = q)) as [<-|Hne]; intros Hq; simplify_map_eq; auto.
  - intros q r lq lr b Hqr Hq Hr Hb1 Hb2.
    destruct (decide (p = q)) as [<-|], (decide (p = r)) as [<-|]; simplify_map_eq; eauto; set_solver.
Qed.

Lemma rep_holds st ls p xs :
  Rep st ls -> ls !! p = Some xs ->
  exists sh a l, holds st sh p a l /\ ls = absl sh /\ xs = l.*2 /\
    (length xs <= base.size (nodes st))%nat.
Proof.
  intros HR Hp. destruct (rep_shape st ls p xs HR Hp) as (sh & l & a & Hsh & -> & Hl & -> & Hn & Hh & Hc).
  exists sh, a, l. unfold holds. rewrite length_fmap in *. eauto 10 using chain_length.
Qed.

Lemma copy_loop_ok fuel st ls p new seen ys acc :
  Rep st ls -> p <> new -> ls !! p = Some (seen ++ ys) -> ls !! new = Some acc ->
  Z.of_nat (length (seen ++ ys)) + Z.of_nat (length acc) + Z.of_nat (length ys) < 4294967295 ->
  (length ys < fuel)%nat ->
  exists st', copy_loop fuel st p new (Z.of_nat (length seen)) = Some st' /\
    Rep st' (<[new := reverse (Seq.scan ys) ++ acc]> ls).
Proof.
  revert st ls seen acc fuel. induction ys as [|y ys IH];
    intros st ls seen acc [|fuel] HR Hne Hp Hnew Hb Hf; simpl in Hf; try lia; simpl.
  all: destruct (rep_holds _ _ _ _ HR Hp) as (sh & a & l & Hh & -> & Hl & _).
  all: assert (Hlen := f_equal length Hl); rewrite length_fmap, length_app in Hlen; simpl in Hlen.
  all: rewrite length_app in Hb; simpl in Hb.
  all: rewrite (get_ok st p a l) by (try apply Hh; unfold small; lia); rewrite <- Hl, get_app_r.
  all: unfold Seq.get; simpl.
  - eexists. split; [done|]. rewrite insert_id by done. done.
  - destruct (Z.eqb_spec y NULL); simpl.
    { eexists. split; [done|]. rewrite insert_id by done. done. }
    destruct (rep_holds _ _ _ _ HR Hnew) as (sh' & a' & l' & Hh' & Eq & Hl' & _).
    assert (Hlen' := f_equal length Hl'). rewrite length_fmap in Hlen'.
    destruct (push_ok st sh' new a' l' y Hh') as (st' & -> & HR'); [unfold small; lia|].
    rewrite <- Eq, <- Hl' in HR'. simpl. rewrite w32_small by lia.
    replace (Z.of_nat (length seen) + 1) with (Z.of_nat (length (seen ++ [y])))
      by (rewrite length_app; simpl; lia).
    destruct (IH st' _ (seen ++ [y]) (y :: acc) fuel HR' Hne) as (st2 & -> & HR2);
      rewrite <- ?(assoc_L (++)); simplify_map_eq; auto; [rewrite length_app; simpl; lia|lia|].
    eexists. split; [done|]. rewrite insert_insert_eq in HR2.
    by rewrite reverse_cons, <- (assoc_L (++)).
Qed.

Lemma drain_loop_ok fuel st ls p xs :
  Rep st ls -> ls !! p = Some xs -> Z.of_nat (length xs) < 4294967295 -> (length xs < fuel)%nat ->
  exists st', drain_loop fuel st p = Some st' /\ Rep st' (<[p := (Seq.drain xs).2]> ls).
Proof.
  revert st ls xs. induction fuel as [|fuel IH]; intros st ls xs HR Hp Hb Hf; [lia|]. simpl.
  destruct (rep_holds _ _ _ _ HR Hp) as (sh & a & l & Hh & -> & -> & _).
  destruct (pop_ok st sh p a l Hh) as (st' & -> & HR'); [unfold small; rewrite length_fmap in Hb; lia|].
  simpl. destruct l.*2 as [|y ys]; simpl in *; [eauto|].
  destruct (Z.eqb_spec y NULL); simpl; [eauto|].
  destruct (IH st' _ ys HR') as (st2 & -> & HR2); [by rewrite lookup_insert_eq|lia|lia|].
  rewrite insert_insert_eq in HR2. destruct (Seq.drain ys). eauto.
Qed.
End ops.

(** ** The library as a whole: calls, their abstract meaning, simulation *)

Inductive call :=
| Create | Destroy (p : Z) | Size (p : Z) | Push (p v : Z) | Pop (p : Z)
| Get (p i : Z) | Insert (p i v : Z) | Remove (p i : Z) | Find (p v : Z) | Copy (p : Z).

Definition handle (c : call) : option Z :=
  match c with
  | Create => None
  | Destroy p | Size p | Push p _ | Pop p | Get p _ | Insert p _ _ | Remove p _
  | Find p _ | Copy p => Some p
  end.

Definition index_ok (c : call) : Prop :=
  match c with
  | Get _ i | Insert _ i _ | Remove _ i => 0 <= i < 4294967296
  | _ => True
  end.

(** Run a call on the heap: its return value (0 for void) and the new heap. *)
Definition exec `{Malloc} (st : store) (c : call) : option (Z * store) :=
  match c with
  | Create => llist_create st
  | Destroy p => st' ← llist_destroy st p; Some (0, st')
  | Size p => n ← llist_size st p; Some (n, st)
  | Push p v => llist_push st p v
  | Pop p => llist_pop st p
  | Get p i => v ← llist_get st p i; Some (v, st)
  | Insert p i v => llist_insert st p i v
  | Remove p i => llist_remove st p i
  | Find p v => i ← llist_find st p v; Some (i, st)
  | Copy p => llist_copy st p
  end.

(** What the call means on named sequences. *)
Inductive spec (ls : gmap Z (list Z)) : call -> Z -> gmap Z (list Z) -> Prop :=
| spec_create p : p <> NULL -> ls !! p = None -> spec ls Create p (<[p := []]> ls)
| spec_destroy p : spec ls (Destroy p) 0 (delete p ls)
| spec_size p xs : ls !! p = Some xs -> spec ls (Size p) (Z.of_nat (length xs)) ls
| spec_push p xs v : ls !! p = Some xs -> spec ls (Push p v) p (<[p := v :: xs]> ls)
| spec_pop p xs : ls !! p = Some xs -> spec ls (Pop p) (Seq.pop xs).1 (<[p := (Seq.pop xs).2]> ls)
| spec_get p xs i : ls !! p = Some xs -> spec ls (Get p i) (Seq.get xs i) ls
| spec_insert p xs i v ys : ls !! p = Some xs -> Seq.insert xs i v = Some ys ->
    spec ls (Insert p i v) p (<[p := ys]> ls)
| spec_insert_out p xs i v : ls !! p = Some xs -> Seq.insert xs i v = None ->
    spec ls (Insert p i v) NULL ls
| spec_remove p xs i : ls !! p = Some xs ->
    spec ls (Remove p i) (Seq.remove xs i).1 (<[p := (Seq.remove xs i).2]> ls)
| spec_find p xs v : ls !! p = Some xs -> spec ls (Find p v) (Seq.find xs v) ls
| spec_copy p xs new : ls !! p = Some xs -> new <> NULL -> ls !! new = None ->
    spec ls (Copy p) new (<[new := reverse (Seq.scan xs)]> ls).

Definition fits (ls : gmap Z (list Z)) : Prop :=
  forall p xs, ls !! p = Some xs -> Z.of_nat (length xs) < 536870912.

Section simulation.
Context `{Malloc}.

Lemma destroy_ok st ls p xs :
  Rep st ls -> ls !! p = Some xs -> Z.of_nat (length xs) < 536870912 ->
  exists st', llist_destroy st p = Some st' /\ Rep st' (delete p ls).
Proof.
  intros HR Hp Hf. unfold llist_destroy.
  destruct (rep_holds _ _ _ _ HR Hp) as (sh & a & l & Hh & -> & -> & Hlen).
  destruct (drain_loop_ok (scan_fuel st) st _ p l.*2 HR Hp) as (st1 & -> & HR1); try lia.
  { unfold scan_fuel. lia. }
  destruct HR1 as (sh1 & [Hh1 Ho1 Hd1] & Eq).
  assert (Hp1 : is_Some (sh1 !! p)).
  { destruct (sh1 !! p) eqn:E; [eauto|].
    apply (f_equal (fun m => m !! p)) in Eq. rewrite lookup_insert_eq, lookup_fmap, E in Eq. done. }
  destruct Hp1 as [l1 Hl1]. destruct (Hh1 p l1 Hl1) as (_ & a1 & Ha1 & _). simpl.
  rewrite Ha1. simpl. eexists. split; [done|]. exists (delete p sh1). split.
  - split; simpl.
    + intros q lq Hq. destruct (decide (p = q)) as [<-|]; simplify_map_eq. eauto.
    + intros q Hq. destruct (decide (p = q)) as [<-|]; simplify_map_eq; auto.
    + intros q r lq lr b Hqr Hq Hr. apply lookup_delete_Some in Hq as [_ Hq].
      apply lookup_delete_Some in Hr as [_ Hr]. eauto.
  - rewrite fmap_delete, <- Eq. by rewrite delete_insert_eq.
Qed.

Lemma copy_ok st ls p xs :
  Rep st ls -> ls !! p = Some xs -> Z.of_nat (length xs) < 536870912 ->
  exists new st', llist_copy st p = Some (new, st') /\ new <> NULL /\ ls !! new = None /\
    Rep st' (<[new := reverse (Seq.scan xs)]> ls).
Proof.
  intros HR Hp Hf. unfold llist_copy.
  destruct (create_ok st ls HR) as (-> & Hnew & Hnn & HR1). cbn beta iota delta [mbind option_bind].
  set (new := malloc _) in *.
  destruct (rep_holds _ _ _ _ HR Hp) as (sh & a & l & Hh & Els & Exs & Hlen).
  assert (Hne : p <> new) by (intros ->; congruence).
  destruct (copy_loop_ok (scan_fuel st) _ _ p new [] xs [] HR1 Hne) as (st2 & Hcl & HR2).
  - by rewrite lookup_insert_ne.
  - by rewrite lookup_insert_eq.
  - simpl. lia.
  - unfold scan_fuel. lia.
  - change (Z.of_nat (length [])) with 0 in Hcl. rewrite Hcl. simpl.
    rewrite insert_insert_eq, app_nil_r in HR2. eauto 10.
Qed.

(** C17: the list library refines named sequences.  On every heap that
    represents an abstract store of sequences, every call of llist.c on a live
    list runs without touching memory outside the heap, returns the value its
    abstract meaning gives, and leaves a heap that represents the abstract
    result, with all other lists unchanged; [llist_copy] yields the elements
    in reverse order. *)
Theorem llist_refines st ls c :
  Rep st ls -> fits ls -> index_ok c ->
  (forall p, handle c = Some p -> is_Some (ls !! p)) ->
  exists r st' ls', exec st c = Some (r, st') /\ spec ls c r ls' /\ Rep st' ls'.
Proof.
  intros HR Hfit Hi Hlive.
  assert (Hall : forall p, handle c = Some p -> exists xs sh a l,
    ls !! p = Some xs /\ Z.of_nat (length xs) < 536870912 /\ holds st sh p a l /\
    ls = (fun l : list (Z * Z) => l.*2) <$> sh /\ xs = l.*2 /\ small l).
  { intros p Hp. destruct (Hlive p Hp) as [xs Hxs].
    destruct (rep_holds _ _ _ _ HR Hxs) as (sh & a & l & Hh & E & -> & _).
    pose proof (Hfit _ _ Hxs) as Hb. exists l.*2, sh, a, l. split; [done|]. split; [done|].
    split; [done|]. split; [done|]. split; [done|]. rewrite length_fmap in Hb. unfold small. lia. }
  destruct c as [|p|p|p v|p|p i|p i v|p i|p v|p]; simpl in *;
    [|destruct (Hall p eq_refl) as (xs & sh & a & l & Hp & Hb & Hh & E & Hx & Hs) ..].
  - destruct (create_ok st ls HR) as (-> & H1 & H2 & H3). eauto 10 using spec.
  - destruct (destroy_ok st ls p xs HR Hp Hb) as (st' & -> & H1). eauto 10 using spec.
  - pose proof Hh as (_ & _ & Hn & Hhd & Hc). unfold llist_size.
    apply Z.eqb_neq in Hn as ->. rewrite Hhd. simpl. rewrite (chain_anchor _ _ _ Hc).
    replace (Z.of_nat (length l)) with (Z.of_nat (length xs)) by (subst xs; by rewrite length_fmap).
    case_bool_decide as El; simpl; [|by eauto 10 using spec].
    exists 0, st, ls. repeat split; auto. replace 0 with (Z.of_nat (length xs)) by (by subst).
    by constructor.
  - destruct (push_ok st sh p a l v Hh Hs) as (st' & -> & H1). subst ls xs. eauto 10 using spec.
  - destruct (pop_ok st sh p a l Hh Hs) as (st' & -> & H1). subst ls xs. eauto 10 using spec.
  - rewrite (get_ok st p a l) by (try apply Hh; done). subst xs. eauto 10 using spec.
  - destruct (insert_ok st sh p a l i v Hh Hs Hi) as (r & st' & -> & H1). subst ls xs.
    destruct (Seq.insert _ _ _) eqn:Ei; destruct H1 as [-> H1]; eauto 10 using spec.
  - destruct (remove_ok st sh p a l i Hh Hs Hi) as (st' & -> & H1). subst ls xs. eauto 10 using spec.
  - rewrite (find_ok st sh p a l v Hh Hs). subst xs. eauto 10 using spec.
  - destruct (copy_ok st ls p xs HR Hp Hb) as (new & st' & -> & H1 & H2 & H3). eauto 10 using spec.
Qed.
End simulation.

(** The call sequence of a small client: create, push twice, copy. *)
Lemma llist_refines_witness :
  exists r st' ls', exec (Store {[8 := Hdr 16 1]} {[16 := Node 0 99]}) (Copy 8) = Some (r, st') /\
    spec {[8 := [99]]} (Copy 8) r ls' /\ Rep st' ls'.
Proof.
  apply (llist_refines (Store {[8 := Hdr 16 1]} {[16 := Node 0 99]}) {[8 := [99]]} (Copy 8)).
  - exists {[8 := [(16, 99)]]}. split; [|reflexivity]. split; simpl.
    + intros p l Hp. apply lookup_singleton_Some in Hp as [<- <-]. split; [done|].
      exists 16. split; [reflexivity|]. simpl. repeat split; [done|]. exists 0. done.
    + intros p Hp. apply lookup_singleton_None in Hp. by apply lookup_singleton_None.
    + intros p q lp lq b Hpq Hp Hq. apply lookup_singleton_Some in Hp as [<- _].
      apply lookup_singleton_Some in Hq as [<- _]. done.
  - intros p xs Hp. apply lookup_singleton_Some in Hp as [<- <-]. simpl. lia.
  - exact I.
  - intros p [= <-]. exists [99]. reflexivity.
Defined.

End Heap.
