(* ===== verification/Tree.v ===== *)
(** * AVL trees (lib/libmeinos/tree.c, include/tree.h)

    The intrusive AVL tree of the library.  A [struct tree_item] with its
    parent, left and right links is a position in the tree, that is, a subtree
    together with the frames from it up to the root (a zipper): following
    [parent] pops a frame, following [left]/[right] pushes one, and
    [link_from_parent] is the hole the subtree fills.  [balance] is the stored
    field, never recomputed.  An object is its key and its address.

    A dereference of a NULL link is [None]; the theorems show it never
    happens on AVL trees. *)

From Stdlib Require Import Sorted.
From S2P Require Import Prelude.

Inductive tree :=
| Null
| Item (left : tree) (key obj balance : Z) (right : tree).

#[export] Instance tree_eq_dec : EqDecision tree.
Proof. solve_decision. Defined.

(** The parent of a position and the side the position is on. *)
Inductive frame :=
| LeftOf (key obj balance : Z) (right : tree)
| RightOf (left : tree) (key obj balance : Z).

Abbreviation path := (list frame).

(** Write a subtree through the link of its parent. *)
Definition fill (f : frame) (t : tree) : tree :=
  match f with
  | LeftOf k o b r => Item t k o b r
  | RightOf l k o b => Item l k o b t
  end.

Fixpoint plug (t : tree) (p : path) : tree :=
  match p with
  | [] => t
  | f :: p => plug (fill f t) p
  end.

(** [do_search]: the flag and the last item visited (none in an empty tree). *)
Fixpoint do_search (t : tree) (key : Z) (p : path) : bool * option (tree * path) :=
  match t with
  | Null => (false, None)
  | Item l k o b r =>
      if key =? k then (true, Some (t, p))
      else if key <? k then
        match l with
        | Null => (false, Some (t, p))
        | _ => do_search l key (LeftOf k o b r :: p)
        end
      else
        match r with
        | Null => (false, Some (t, p))
        | _ => do_search r key (RightOf l k o b :: p)
        end
  end.

Definition tree_search (t : tree) (key : Z) : option Z :=
  match do_search t key [] with
  | (true, Some (Item _ _ o _ _, _)) => Some o
  | _ => None
  end.

(** [adjust_balance]: change the balance of the ancestors of a position. *)
Fixpoint adjust_balance (p : path) (value : Z) : path :=
  match p with
  | [] => []
  | LeftOf k o b r :: p =>
      let stop1 := 0 <? b in
      let b' := b - value in
      let stop := stop1 || (0 <? b') in
      LeftOf k o b' r :: (if stop then p else adjust_balance p value)
  | RightOf l k o b :: p =>
      let stop1 := b <? 0 in
      let b' := b + value in
      let stop := stop1 || (b' <? 0) in
      RightOf l k o b' :: (if stop then p else adjust_balance p value)
  end.

Definition rotate_left (t : tree) : option tree :=
  match t with
  | Item l k o b (Item rl k2 o2 b2 rr) => Some (Item (Item l k o b rl) k2 o2 b2 rr)
  | _ => None
  end.

Definition rotate_right (t : tree) : option tree :=
  match t with
  | Item (Item ll k2 o2 b2 lr) k o b r => Some (Item ll k2 o2 b2 (Item lr k o b r))
  | _ => None
  end.

(** The balances the rebalancing writes: of the new root, and of its children. *)
Definition set_balances (t : tree) (bl b br : Z) : option tree :=
  match t with
  | Item (Item a k1 o1 _ c) k o _ (Item d k2 o2 _ e) =>
      Some (Item (Item a k1 o1 bl c) k o b (Item d k2 o2 br e))
  | _ => None
  end.

Definition root_balance (t : tree) : option Z :=
  match t with Item _ _ _ b _ => Some b | Null => None end.

(** Balances after a single rotation: the new root and the old root below it. *)
Definition set_left2 (t : tree) (bl b : Z) : option tree :=
  match t with
  | Item (Item a k1 o1 _ c) k o _ r => Some (Item (Item a k1 o1 bl c) k o b r)
  | _ => None
  end.

Definition set_right2 (t : tree) (b br : Z) : option tree :=
  match t with
  | Item l k o _ (Item d k2 o2 _ e) => Some (Item l k o b (Item d k2 o2 br e))
  | _ => None
  end.

(** The body of the loop of [rebalance] at one item: the subtree that hangs
    where the item hung, and the frames above it. *)
Definition rebalance_item (t : tree) (p : path) : option (tree * path) :=
  match t with
  | Null => None
  | Item l k o b r =>
      if 2 <=? b then
        b2 ← root_balance r;
        if 0 <? b2 then
          t1 ← rotate_left t;
          t2 ← set_left2 t1 0 0;
          Some (t2, adjust_balance p (-1))
        else if b2 =? 0 then
          t1 ← rotate_left t;
          t2 ← set_left2 t1 1 (-1);
          Some (t2, p)
        else
          r1 ← rotate_right r;
          t1 ← rotate_left (Item l k o b r1);
          b3 ← root_balance t1;
          t2 ← set_balances t1 (if b3 =? 1 then -1 else 0) 0 (if b3 =? -1 then 1 else 0);
          Some (t2, adjust_balance p (-1))
      else if b <=? -2 then
        b2 ← root_balance l;
        if b2 <? 0 then
          t1 ← rotate_right t;
          t2 ← set_right2 t1 0 0;
          Some (t2, adjust_balance p (-1))
        else if b2 =? 0 then
          t1 ← rotate_right t;
          t2 ← set_right2 t1 1 (-1);
          Some (t2, p)
        else
          l1 ← rotate_left l;
          t1 ← rotate_right (Item l1 k o b r);
          b3 ← root_balance t1;
          t2 ← set_balances t1 (if b3 =? 1 then -1 else 0) 0 (if b3 =? -1 then 1 else 0);
          Some (t2, adjust_balance p (-1))
      else Some (t, p)
  end.

(** [rebalance] from an item to the root; the result is the whole tree.  After
    a rotation the item's parent is the new root of the rotated subtree; the
    loop visits it too, with a balance the code has just set to 0 or +-1, so
    that visit changes nothing (lemma [rebalance_item_again]) and the walk
    goes on with the frame above.  One unit of fuel per level. *)
Fixpoint rebalance_loop (fuel : nat) (t : tree) (p : path) : option tree :=
  match fuel with
  | O => None
  | S fuel =>
      '(t1, p1) ← rebalance_item t p;
      match p1 with
      | [] => Some t1
      | f :: p2 => rebalance_loop fuel (fill f t1) p2
      end
  end.

Definition rebalance (t : tree) (p : path) : option tree := rebalance_loop (S (length p)) t p.

(** [rebalance(tree, item->parent)] for the position ([t], [p]). *)
Definition rebalance_parent (t : tree) (p : path) : option tree :=
  match p with
  | [] => Some t
  | f :: p => rebalance (fill f t) p
  end.

Definition tree_insert (t : tree) (key obj : Z) : option tree :=
  let new := Item Null key obj 0 Null in
  match t with
  | Null => Some new
  | _ =>
      match do_search t key [] with
      | (false, Some (Item l k o b r, p)) =>
          let p1 := if key <? k then LeftOf k o b r :: p else RightOf l k o b :: p in
          rebalance new (adjust_balance p1 1)
      | (false, _) => None
      | (true, _) => Some t
      end
  end.

(** [subst = item->left; while (subst->right) subst = subst->right;] *)
Fixpoint rightmost (t : tree) (q : path) : option (tree * path) :=
  match t with
  | Null => None
  | Item l k o b Null => Some (t, q)
  | Item l k o b r => rightmost r (RightOf l k o b :: q)
  end.

(** [tree_remove] of the item at a position. *)
Definition tree_remove (t : tree) (p : path) : option tree :=
  match t with
  | Null => None
  | Item Null _ _ _ Null => rebalance_parent Null (adjust_balance p (-1))
  | Item ((Item _ _ _ _ _) as l) _ _ _ Null => rebalance_parent l (adjust_balance p (-1))
  | Item Null _ _ _ ((Item _ _ _ _ _) as r) => rebalance_parent r (adjust_balance p (-1))
  | Item l _ _ b r =>
      match rightmost l [] with
      | Some (Item old_left sk so _ _, []) =>          (* old_parent == item *)
          let b' := b + 1 in
          rebalance (Item old_left sk so b' r)
                    (if b' <=? 0 then adjust_balance p (-1) else p)
      | Some (Item old_left sk so _ _, RightOf ol ok oo ob :: q) =>
          let ob' := ob - 1 in
          let above := q ++ LeftOf sk so b r :: p in
          rebalance (Item ol ok oo ob' old_left)
                    (if 0 <=? ob' then adjust_balance above (-1) else above)
      | _ => None
      end
  end.

Fixpoint leftmost (t : tree) : option (Z * Z) :=
  match t with
  | Null => None
  | Item Null k o _ _ => Some (k, o)
  | Item l _ _ _ _ => leftmost l
  end.

Fixpoint rightmost_key (t : tree) : option (Z * Z) :=
  match t with
  | Null => None
  | Item _ k o _ Null => Some (k, o)
  | Item _ _ _ _ r => rightmost_key r
  end.

(** Climb until the walk comes from the other side. *)
Fixpoint climb_next (p : path) : option (Z * Z) :=
  match p with
  | [] => None
  | LeftOf k o _ _ :: _ => Some (k, o)
  | RightOf _ _ _ _ :: p => climb_next p
  end.

Fixpoint climb_prev (p : path) : option (Z * Z) :=
  match p with
  | [] => None
  | RightOf _ k o _ :: _ => Some (k, o)
  | LeftOf _ _ _ _ :: p => climb_prev p
  end.

(** [tree_next]/[tree_prev] of the item at a position. *)
Definition tree_next (t : tree) (p : path) : option (Z * Z) :=
  match t with
  | Null => None
  | Item _ _ _ _ Null => climb_next p
  | Item _ _ _ _ r => leftmost r
  end.

Definition tree_prev (t : tree) (p : path) : option (Z * Z) :=
  match t with
  | Null => None
  | Item Null _ _ _ _ => climb_prev p
  | Item l _ _ _ _ => rightmost_key l
  end.

(** Of NULL: the smallest and the largest object. *)
Definition tree_next_null (t : tree) : option (Z * Z) := leftmost t.
Definition tree_prev_null (t : tree) : option (Z * Z) := rightmost_key t.

(** ** Height, the AVL invariant, and correct balances *)

Fixpoint height (t : tree) : Z :=
  match t with
  | Null => 0
  | Item l _ _ _ r => 1 + Z.max (height l) (height r)
  end.

Fixpoint avl (t : tree) : Prop :=
  match t with
  | Null => True
  | Item l _ _ b r => avl l /\ avl r /\ b = height r - height l /\ -1 <= b <= 1
  end.

(** [pcor p h]: with a subtree of height [h] in the hole, the stored balances
    of the frames are the height differences, and the siblings are AVL. *)
Fixpoint pcor (p : path) (h : Z) : Prop :=
  match p with
  | [] => True
  | LeftOf _ _ b r :: p => avl r /\ b = height r - h /\ pcor p (1 + Z.max h (height r))
  | RightOf l _ _ b :: p => avl l /\ b = h - height l /\ pcor p (1 + Z.max (height l) h)
  end.

(** [pok p h]: with a subtree of height [h] in the hole, all frames balance. *)
Fixpoint pok (p : path) (h : Z) : Prop :=
  match p with
  | [] => True
  | LeftOf _ _ _ r :: p => -1 <= height r - h <= 1 /\ pok p (1 + Z.max h (height r))
  | RightOf l _ _ _ :: p => -1 <= h - height l <= 1 /\ pok p (1 + Z.max (height l) h)
  end.

Lemma height_nonneg t : 0 <= height t.
Proof. induction t; simpl; lia. Qed.

Lemma plug_app t p q : plug t (p ++ q) = plug (plug t p) q.
Proof. revert t. induction p; simpl; auto. Qed.

(** The tree of a position is AVL iff the subtree and the frames are. *)
Lemma avl_plug t p : avl (plug t p) <-> avl t /\ pcor p (height t) /\ pok p (height t).
Proof.
  revert t. induction p as [|[k o b r|l k o b] p IH]; intros t; simpl; [tauto|..];
    rewrite IH; simpl; intuition lia.
Qed.

Lemma adjust_pcor p h v : v = 1 \/ v = -1 -> pcor p h -> pcor (adjust_balance p v) (h + v).
Proof.
  intros Hv. revert h. induction p as [|[k o b r|l k o b] p IH]; intros h; simpl; [done|..].
  - intros (Hr & Hb & Hp). split; [done|]. split; [lia|].
    destruct (Z.ltb_spec 0 b); simpl.
    { replace (Z.max (h + v) (height r)) with (Z.max h (height r)) by lia. done. }
    destruct (Z.ltb_spec 0 (b - v)).
    { replace (Z.max (h + v) (height r)) with (Z.max h (height r)) by lia. done. }
    replace (1 + Z.max (h + v) (height r)) with (1 + Z.max h (height r) + v) by lia. auto.
  - intros (Hl & Hb & Hp). split; [done|]. split; [lia|].
    destruct (Z.ltb_spec b 0); simpl.
    { replace (Z.max (height l) (h + v)) with (Z.max (height l) h) by lia. done. }
    destruct (Z.ltb_spec (b + v) 0).
    { replace (Z.max (height l) (h + v)) with (Z.max (height l) h) by lia. done. }
    replace (1 + Z.max (height l) (h + v)) with (1 + Z.max (height l) h + v) by lia. auto.
Qed.

(** [adjust_balance] only writes balances. *)
Lemma adjust_pok p v h : pok (adjust_balance p v) h <-> pok p h.
Proof.
  revert h. induction p as [|[k o b r|l k o b] p IH]; intros h; simpl; [done|..];
    destruct (_ || _); rewrite ?IH; tauto.
Qed.

Lemma adjust_length p v : length (adjust_balance p v) = length p.
Proof.
  induction p as [|[k o b r|l k o b] p IH]; simpl; [done|..]; destruct (_ || _); congruence.
Qed.

(** ** In-order contents *)

Fixpoint inorder (t : tree) : list (Z * Z) :=
  match t with
  | Null => []
  | Item l k o _ r => inorder l ++ (k, o) :: inorder r
  end.

(** What lies left and right of a position. *)
Fixpoint lctx (p : path) : list (Z * Z) :=
  match p with
  | [] => []
  | LeftOf _ _ _ _ :: p => lctx p
  | RightOf l k o _ :: p => lctx p ++ inorder l ++ [(k, o)]
  end.

Fixpoint rctx (p : path) : list (Z * Z) :=
  match p with
  | [] => []
  | LeftOf k o _ r :: p => (k, o) :: inorder r ++ rctx p
  | RightOf _ _ _ _ :: p => rctx p
  end.

Ltac lists := simpl; rewrite <- ?(assoc_L (++)); simpl; rewrite <- ?(assoc_L (++)); auto.

Lemma inorder_plug t p : inorder (plug t p) = (lctx p ++ inorder t ++ rctx p).
Proof.
  revert t. induction p as [|[k o b r|l k o b] p IH]; intros t; simpl.
  - by rewrite app_nil_r.
  - rewrite IH. by lists.
  - rewrite IH. by lists.
Qed.

Lemma adjust_lctx p v : lctx (adjust_balance p v) = lctx p.
Proof. induction p as [|[k o b r|l k o b] p IH]; simpl; [done|..]; destruct (_ || _); congruence. Qed.

Lemma adjust_rctx p v : rctx (adjust_balance p v) = rctx p.
Proof. induction p as [|[k o b r|l k o b] p IH]; simpl; [done|..]; destruct (_ || _); congruence. Qed.

Lemma lctx_app p q : lctx (p ++ q) = (lctx q ++ lctx p).
Proof.
  induction p as [|[k o b r|l k o b] p IH]; simpl; rewrite ?app_nil_r; auto.
  rewrite IH. by lists.
Qed.

Lemma rctx_app p q : rctx (p ++ q) = (rctx p ++ rctx q).
Proof. induction p as [|[k o b r|l k o b] p IH]; simpl; rewrite ?IH; auto. by lists. Qed.

(** ** The rebalancing step *)

(** A subtree of height off by at most one from what the frames above expect. *)
Definition near (t : tree) (p : path) : Prop :=
  pcor p (height t) /\ exists h0, pok p h0 /\ -1 <= height t - h0 <= 1.

(** An item whose subtrees are AVL and whose balance is right but maybe +-2. *)
Definition cor (t : tree) : Prop :=
  match t with
  | Null => False
  | Item l _ _ b r => avl l /\ avl r /\ b = height r - height l /\ -2 <= b <= 2
  end.

(** The result of the step: the same contents, an AVL subtree; its height is
    that of the item, less one when the frames above were adjusted. *)
Definition step_spec (t : tree) (p : path) (t1 : tree) (p1 : path) : Prop :=
  avl t1 /\ inorder t1 = inorder t /\
  ((height t1 = height t /\ p1 = p) \/
   (height t1 = height t - 1 /\ p1 = adjust_balance p (-1))).

Lemma step_right l k o r p :
  avl l -> avl r -> height r = height l + 2 ->
  exists t1 p1, rebalance_item (Item l k o 2 r) p = Some (t1, p1) /\
    step_spec (Item l k o 2 r) p t1 p1.
Proof.
  intros Hl Hr Hb. pose proof (height_nonneg l).
  destruct r as [|rl k2 o2 b2 rr]; simpl in Hr, Hb; [lia|].
  destruct Hr as (Hrl & Hrr & Hb2 & Hb2'). pose proof (height_nonneg rl).
  unfold rebalance_item, step_spec. simpl.
  destruct (Z.ltb_spec 0 b2); [|destruct (Z.eqb_spec b2 0)]; simpl.
  - do 2 eexists. split; [reflexivity|]. simpl. lists. repeat split; auto; try lia; right; split; auto; lia.
  - do 2 eexists. split; [reflexivity|]. simpl. lists. repeat split; auto; try lia; left; split; auto; lia.
  - destruct rl as [|a k3 o3 b3 c]; simpl in *; [pose proof (height_nonneg rr); lia|].
    destruct Hrl as (Ha & Hc & Hb3 & Hb3').
    do 2 eexists. split; [reflexivity|]. simpl. lists.
    destruct (Z.eqb_spec b3 1), (Z.eqb_spec b3 (-1)); repeat split; auto; try lia; right; split; auto; lia.
Qed.

Lemma step_left l k o r p :
  avl l -> avl r -> height l = height r + 2 ->
  exists t1 p1, rebalance_item (Item l k o (-2) r) p = Some (t1, p1) /\
    step_spec (Item l k o (-2) r) p t1 p1.
Proof.
  intros Hl Hr Hb. pose proof (height_nonneg r).
  destruct l as [|ll k2 o2 b2 lr]; simpl in Hl, Hb; [lia|].
  destruct Hl as (Hll & Hlr & Hb2 & Hb2'). pose proof (height_nonneg lr).
  unfold rebalance_item, step_spec. simpl.
  destruct (Z.ltb_spec b2 0); [|destruct (Z.eqb_spec b2 0)]; simpl.
  - do 2 eexists. split; [reflexivity|]. simpl. lists. repeat split; auto; try lia; right; split; auto; lia.
  - do 2 eexists. split; [reflexivity|]. simpl. lists. repeat split; auto; try lia; left; split; auto; lia.
  - destruct lr as [|a k3 o3 b3 c]; simpl in *; [pose proof (height_nonneg ll); lia|].
    destruct Hlr as (Ha & Hc & Hb3 & Hb3').
    do 2 eexists. split; [reflexivity|]. simpl. lists.
    destruct (Z.eqb_spec b3 1), (Z.eqb_spec b3 (-1)); repeat split; auto; try lia; right; split; auto; lia.
Qed.

(** An item the loop can visit. *)
Definition ready (t : tree) (p : path) : Prop :=
  match t with
  | Null => False
  | Item l _ _ b r =>
      avl l /\ avl r /\ b = height r - height l /\ -2 <= b <= 2 /\
      pcor p (height t) /\
      exists h0, pok p h0 /\ -1 <= height t - h0 <= 1 /\ (b = 2 \/ b = -2 -> h0 <= height t)
  end.

Lemma ready_avl t p : t <> Null -> avl t -> near t p -> ready t p.
Proof.
  destruct t as [|l k o b r]; [done|]. intros _ (Hl & Hr & Hb & Hb') (Hp & h0 & H1 & H2).
  simpl in *. repeat split; auto; try lia. exists h0. repeat split; auto; lia.
Qed.

Lemma ready_fill t f p : avl t -> near t (f :: p) -> ready (fill f t) p.
Proof.
  intros Ht (Hp & h0 & H1 & H2). destruct f as [k o b r|l k o b]; simpl in *.
  - destruct Hp as (Hr & Hb & Hp). repeat split; auto; try lia.
    exists (1 + Z.max h0 (height r)). repeat split; try tauto; lia.
  - destruct Hp as (Hl & Hb & Hp). repeat split; auto; try lia.
    exists (1 + Z.max (height l) h0). repeat split; try tauto; lia.
Qed.

Lemma rebalance_item_again t p : t <> Null -> avl t -> rebalance_item t p = Some (t, p).
Proof.
  destruct t as [|l k o b r]; [done|]. simpl. intros _ (_ & _ & _ & Hb).
  destruct (Z.leb_spec 2 b); [lia|]. destruct (Z.leb_spec b (-2)); [lia|]. done.
Qed.

Lemma ready_step t p :
  ready t p -> exists t1 p1, rebalance_item t p = Some (t1, p1) /\ step_spec t p t1 p1 /\ near t1 p1.
Proof.
  destruct t as [|l k o b r]; [done|]. intros (Hl & Hr & Hb & Hb' & Hp & h0 & H1 & H2 & H3).
  assert (Hnear : forall t1 p1, step_spec (Item l k o b r) p t1 p1 ->
    (height t1 = height (Item l k o b r) \/ b = 2 \/ b = -2) -> near t1 p1).
  { intros t1 p1 (_ & _ & [(E & ->)|(E & ->)]) Hc; split; rewrite E.
    - done.
    - exists h0. auto.
    - replace (height (Item l k o b r) - 1) with (height (Item l k o b r) + -1) by lia.
      apply adjust_pcor; auto.
    - exists h0. rewrite adjust_pok. split; [done|].
      destruct Hc as [Hc|Hc]; [lia|]. specialize (H3 Hc). lia. }
  destruct (decide (b = 2)) as [->|]; [|destruct (decide (b = -2)) as [->|]].
  - destruct (step_right l k o r p) as (t1 & p1 & E & Hs); auto; [lia|]. eauto 10.
  - destruct (step_left l k o r p) as (t1 & p1 & E & Hs); auto; [lia|]. eauto 10.
  - exists (Item l k o b r), p.
    assert (Havl : avl (Item l k o b r)) by (simpl; repeat split; auto; lia).
    assert (Hs : step_spec (Item l k o b r) p (Item l k o b r) p) by (split; auto).
    split; [by apply rebalance_item_again|]. split; [done|]. apply Hnear; auto.
Qed.

Lemma step_ctx t p t1 p1 : step_spec t p t1 p1 ->
  lctx p1 = lctx p /\ rctx p1 = rctx p /\ length p1 = length p.
Proof.
  intros (_ & _ & [(_ & ->)|(_ & ->)]); [done|].
  by rewrite adjust_lctx, adjust_rctx, adjust_length.
Qed.

Lemma rebalance_loop_ok fuel t p :
  ready t p -> (length p < fuel)%nat ->
  exists t', rebalance_loop fuel t p = Some t' /\ avl t' /\
    inorder t' = (lctx p ++ inorder t ++ rctx p).
Proof.
  revert t p. induction fuel as [|fuel IH]; intros t p Hr Hf; [lia|]. simpl.
  destruct (ready_step t p Hr) as (t1 & p1 & -> & Hs & Hn).
  destruct (step_ctx _ _ _ _ Hs) as (<- & <- & Hlen). destruct Hs as (Ha & <- & _). simpl.
  destruct p1 as [|f p2].
  - exists t1. simpl. by rewrite app_nil_r.
  - simpl in Hlen. destruct (IH (fill f t1) p2) as (t' & -> & Ha' & Hi); [by apply ready_fill|lia|].
    exists t'. split; [done|]. split; [done|]. rewrite Hi.
    destruct f; lists.
Qed.

Lemma rebalance_ok t p :
  ready t p -> exists t', rebalance t p = Some t' /\ avl t' /\
    inorder t' = (lctx p ++ inorder t ++ rctx p).
Proof. intros. apply rebalance_loop_ok; auto. Qed.

Lemma rebalance_parent_ok t p :
  avl t -> near t p -> exists t', rebalance_parent t p = Some t' /\ avl t' /\
    inorder t' = (lctx p ++ inorder t ++ rctx p).
Proof.
  intros Ha Hn. destruct p as [|f p]; simpl.
  - exists t. by rewrite app_nil_r.
  - destruct (rebalance_ok (fill f t) p) as (t' & -> & Ha' & Hi); [by apply ready_fill|].
    exists t'. split; [done|]. split; [done|]. rewrite Hi. destruct f; lists.
Qed.

(** Replacing the subtree of a position in an AVL tree by one of height one
    more or less, with the frames adjusted. *)
Lemma near_adjust t p h v :
  pcor p h -> pok p h -> v = 1 \/ v = -1 -> height t = h + v -> near t (adjust_balance p v).
Proof.
  intros H1 H2 Hv E. split; rewrite E.
  - by apply adjust_pcor.
  - exists h. rewrite adjust_pok. split; [done|lia].
Qed.

(** ** Search *)

Definition keys (t : tree) : list Z := (inorder t).*1.

(** Strictly increasing keys: the search-tree order. *)
Definition bst (t : tree) : Prop := StronglySorted Z.lt (keys t).

Lemma sorted_app (xs ys : list Z) :
  StronglySorted Z.lt (xs ++ ys) <->
  StronglySorted Z.lt xs /\ StronglySorted Z.lt ys /\ (forall x y, x ∈ xs -> y ∈ ys -> x < y).
Proof.
  induction xs as [|x xs IH]; simpl.
  - split; [intros; repeat split; auto; [constructor|set_solver]|tauto].
  - split.
    + intros Hs. apply StronglySorted_inv in Hs as (Hs & Hf). apply IH in Hs as (H1 & H2 & H3).
      rewrite Forall_forall in Hf. repeat split; auto.
      * constructor; [done|]. rewrite Forall_forall. set_solver.
      * intros a b Ha Hb. apply elem_of_cons in Ha as [->|Ha]; [|auto]. apply Hf. set_solver.
    + intros (H1 & H2 & H3). apply StronglySorted_inv in H1 as (H1 & Hf). constructor.
      * apply IH. repeat split; auto. intros; apply H3; set_solver.
      * rewrite Forall_forall in Hf |- *. intros y Hy. apply elem_of_app in Hy as [Hy|Hy]; [auto|].
        apply H3; set_solver.
Qed.

Lemma sorted_item l k o b r :
  bst (Item l k o b r) <->
  bst l /\ bst r /\ (forall x, x ∈ keys l -> x < k) /\ (forall x, x ∈ keys r -> k < x).
Proof.
  unfold bst, keys. simpl. rewrite fmap_app. simpl. rewrite sorted_app. split.
  - intros (H1 & H2 & H3). apply StronglySorted_inv in H2 as (H2 & Hf).
    rewrite Forall_forall in Hf. repeat split; auto. intros x Hx. apply H3; set_solver.
  - intros (H1 & H2 & H3 & H4). split; [done|]. split.
    + constructor; [done|]. by rewrite Forall_forall.
    + intros x y Hx Hy. apply elem_of_cons in Hy as [->|Hy]; [auto|].
      specialize (H3 x Hx). specialize (H4 y Hy). lia.
Qed.

(** The path of a new leaf below the last item of an unsuccessful search. *)
Definition attach (key : Z) (t : tree) (p : path) : path :=
  match t with
  | Item l k o b r => if key <? k then LeftOf k o b r :: p else RightOf l k o b :: p
  | Null => p
  end.

(** Everything left of the position is smaller than [key], right of it larger. *)
Definition between (key : Z) (p : path) : Prop :=
  (forall x, x ∈ (lctx p).*1 -> x < key) /\ (forall x, x ∈ (rctx p).*1 -> key < x).

Lemma between_left key l k o b r p :
  bst (Item l k o b r) -> key < k -> between key p -> between key (LeftOf k o b r :: p).
Proof.
  intros Hb Hlt (H1 & H2). apply sorted_item in Hb as (_ & _ & _ & Hr).
  split; [done|]. simpl. intros x Hx. rewrite fmap_app in Hx.
  apply elem_of_cons in Hx as [->|Hx]; [done|]. apply elem_of_app in Hx as [Hx|Hx]; [|auto].
  specialize (Hr x Hx). lia.
Qed.

Lemma between_right key l k o b r p :
  bst (Item l k o b r) -> k < key -> between key p -> between key (RightOf l k o b :: p).
Proof.
  intros Hb Hlt (H1 & H2). apply sorted_item in Hb as (_ & _ & Hl & _).
  split; [|done]. simpl. intros x Hx. rewrite !fmap_app in Hx. simpl in Hx.
  apply elem_of_app in Hx as [Hx|Hx]; [auto|]. apply elem_of_app in Hx as [Hx|Hx].
  - specialize (Hl x Hx). lia.
  - apply list_elem_of_singleton in Hx. lia.
Qed.

Lemma do_search_spec t key p :
  bst t -> t <> Null -> between key p ->
  match do_search t key p with
  | (true, Some (Item l k o b r, p')) => k = key /\ plug (Item l k o b r) p' = plug t p
  | (false, Some (t', p')) => t' <> Null /\ plug Null (attach key t' p') = plug t p /\
      between key (attach key t' p')
  | _ => False
  end.
Proof.
  revert p. induction t as [|l IHl k o b r IHr]; intros p Hb Hn Hbt; [done|]. simpl.
  pose proof Hb as Hb0. apply sorted_item in Hb0 as (Hl & Hr & _ & _).
  destruct (Z.eqb_spec key k) as [->|Hne]; [done|]. destruct (Z.ltb_spec key k) as [Hlt|Hge].
  - pose proof (between_left key l k o b r p Hb Hlt Hbt) as Hbt'.
    destruct l as [|ll lk lo lb lr].
    + simpl. destruct (Z.ltb_spec key k); [|lia]. done.
    + apply (IHl (LeftOf k o b r :: p)); auto.
  - pose proof (between_right key l k o b r p Hb ltac:(lia) Hbt) as Hbt'.
    destruct r as [|rl rk ro rb rr].
    + simpl. destruct (Z.ltb_spec key k); [lia|]. done.
    + apply (IHr (RightOf l k o b :: p)); auto.
Qed.

Lemma bst_unique t key o o' : bst t -> (key, o) ∈ inorder t -> (key, o') ∈ inorder t -> o = o'.
Proof.
  intros Hb H1 H2. apply list_elem_of_split in H1 as (xs & ys & E).
  unfold bst, keys in Hb. rewrite E, fmap_app in Hb. simpl in Hb.
  apply sorted_app in Hb as (_ & H3 & H4). apply StronglySorted_inv in H3 as (_ & H3).
  rewrite Forall_forall in H3. rewrite E in H2.
  apply elem_of_app in H2 as [H2|H2].
  - apply (list_elem_of_fmap_2 fst) in H2. simpl in H2. specialize (H4 key key H2 ltac:(set_solver)). lia.
  - apply elem_of_cons in H2 as [[= ->]|H2]; [done|].
    apply (list_elem_of_fmap_2 fst) in H2. simpl in H2. specialize (H3 key H2). lia.
Qed.

Lemma notin_between key p : between key p -> key ∉ (lctx p ++ rctx p).*1.
Proof.
  intros (H1 & H2) Hin. rewrite fmap_app in Hin.
  apply elem_of_app in Hin as [Hin|Hin]; [specialize (H1 _ Hin)|specialize (H2 _ Hin)]; lia.
Qed.

(** [tree_search] finds exactly the objects of a search tree. *)
Lemma tree_search_spec t key o :
  bst t -> tree_search t key = Some o <-> (key, o) ∈ inorder t.
Proof.
  intros Hb. unfold tree_search. destruct (decide (t = Null)) as [->|Hn].
  { simpl. split; [done|]. set_solver. }
  pose proof (do_search_spec t key [] Hb Hn ltac:(split; set_solver)) as H.
  destruct (do_search t key []) as [[|] [[t' p']|]]; try done.
  - destruct t' as [|l k o' b r]; [done|]. destruct H as (-> & Hp). simpl in Hp.
    assert (Hin : (key, o') ∈ inorder t).
    { rewrite <- Hp, inorder_plug. simpl. set_solver. }
    split; [intros [= <-]; done|]. intros Hin'. f_equal. eauto using bst_unique.
  - destruct H as (Ht' & Hp & Hbt). simpl in Hp. destruct t' as [|l k o' b r]; [done|].
    split; [done|]. intros Hin. exfalso. apply (notin_between _ _ Hbt).
    rewrite <- Hp, inorder_plug in Hin. apply (list_elem_of_fmap_2 fst) in Hin. exact Hin.
Qed.

Lemma sorted_insert_mid xs ys key :
  StronglySorted Z.lt (xs ++ ys) -> (forall x, x ∈ xs -> x < key) -> (forall y, y ∈ ys -> key < y) ->
  StronglySorted Z.lt (xs ++ key :: ys).
Proof.
  intros Hs Hx Hy. apply sorted_app in Hs as (H1 & H2 & H3). apply sorted_app. split; [done|].
  split.
  - constructor; [done|]. by rewrite Forall_forall.
  - intros x y Hxin Hyin. apply elem_of_cons in Hyin as [->|Hyin]; auto.
Qed.

Lemma tree_insert_spec t key obj :
  avl t -> bst t ->
  exists t', tree_insert t key obj = Some t' /\ avl t' /\ bst t' /\
    (forall x, x ∈ inorder t' <-> x ∈ inorder t \/ (x = (key, obj) /\ key ∉ keys t)).
Proof.
  intros Ha Hb. destruct (decide (t = Null)) as [->|Hn].
  { exists (Item Null key obj 0 Null). simpl. repeat split; auto; try lia.
    - unfold bst, keys. simpl. repeat constructor.
    - unfold keys. simpl. set_solver.
    - set_solver. }
  assert (E : tree_insert t key obj = match do_search t key [] with
      | (false, Some (Item l k o b r as t', p)) =>
          rebalance (Item Null key obj 0 Null) (adjust_balance (attach key t' p) 1)
      | (false, _) => None
      | (true, _) => Some t end).
  { destruct t; [done|]. unfold tree_insert, attach. by repeat case_match. }
  rewrite E. clear E. pose proof (do_search_spec t key [] Hb Hn ltac:(split; set_solver)) as H.
  destruct (do_search t key []) as [[|] [[t' p']|]]; try done.
  - destruct t' as [|l k o' b r]; [done|]. destruct H as (-> & Hp). simpl in Hp.
    exists t. repeat split; auto. intros [Hx|(_ & Hk)]; [done|]. exfalso. apply Hk.
    unfold keys. rewrite <- Hp, inorder_plug, !fmap_app. simpl. rewrite fmap_app. set_solver.
  - destruct H as (Ht' & Hp & Hbt). simpl in Hp. destruct t' as [|l k o' b r]; [done|].
    set (p1 := attach key _ p') in *. rewrite <- Hp in Ha. apply avl_plug in Ha as (_ & Hc & Ho).
    destruct (rebalance_ok (Item Null key obj 0 Null) (adjust_balance p1 1)) as (t'' & -> & Ha & Hi).
    { apply ready_avl; [done|simpl; lia|]. eapply near_adjust; eauto. }
    rewrite adjust_lctx, adjust_rctx in Hi. exists t''.
    pose proof (inorder_plug Null p1) as Hin. rewrite Hp in Hin. simpl in Hi, Hin.
    repeat split; auto.
    + unfold bst, keys in *. rewrite Hi. rewrite Hin in Hb. rewrite fmap_app in *.
      apply sorted_insert_mid; auto; apply Hbt.
    + rewrite Hi, Hin. intros Hx. destruct (decide (x = (key, obj))) as [->|].
      * right. split; [done|]. unfold keys. rewrite Hin. by apply notin_between.
      * left. set_solver.
    + rewrite Hi, Hin. set_solver.
Qed.

(** What searches find after an insertion. *)
Lemma tree_insert_search t key obj :
  avl t -> bst t ->
  exists t', tree_insert t key obj = Some t' /\ avl t' /\ bst t' /\
    forall k, tree_search t' k =
      if decide (k = key) then Some (default obj (tree_search t key)) else tree_search t k.
Proof.
  intros Ha Hb. destruct (tree_insert_spec t key obj Ha Hb) as (t' & E & Ha' & Hb' & Hx).
  exists t'. split_and!; auto. intros k. apply option_eq. intros o.
  rewrite tree_search_spec, Hx by done. destruct (decide (k = key)) as [->|Hk].
  - destruct (tree_search t key) as [o'|] eqn:Es; simpl.
    + apply tree_search_spec in Es; [|done]. split; [|naive_solver].
      intros [Hin|(_ & Hn)]; [by rewrite (bst_unique t key o o')|].
      destruct Hn. by apply (list_elem_of_fmap_2 fst) in Es.
    + assert (key ∉ keys t).
      { intros (x & -> & Hin)%list_elem_of_fmap. destruct x as [k x].
        apply tree_search_spec in Hin; [|done]. simpl in Es. congruence. }
      split; [|intros [= <-]; naive_solver].
      intros [Hin|([= ->] & _)]; [|done]. apply tree_search_spec in Hin; [|done]. congruence.
  - rewrite tree_search_spec by done. naive_solver.
Qed.

(** C7: [tree_insert] on an AVL search tree follows no NULL link, yields an AVL
    search tree again, and afterwards [tree_search] finds the new object under its
    key, unless the key was taken, and under every other key what it found
    before. *)
Theorem tree_insert_correct t key obj :
  avl t -> bst t ->
  exists t', tree_insert t key obj = Some t' /\ avl t' /\ bst t' /\
    forall k, tree_search t' k =
      if decide (k = key) then Some (default obj (tree_search t key)) else tree_search t k.
Proof. apply tree_insert_search. Qed.

Lemma tree_insert_correct_witness :
  exists t', tree_insert (Item (Item Null 3 30 0 Null) 5 50 (-1) Null) 1 10 = Some t' /\
    avl t' /\ bst t' /\
    forall k, tree_search t' k =
      if decide (k = 1) then Some (default 10 (tree_search (Item (Item Null 3 30 0 Null) 5 50 (-1) Null) 1))
      else tree_search (Item (Item Null 3 30 0 Null) 5 50 (-1) Null) k.
Proof.
  apply (tree_insert_correct (Item (Item Null 3 30 0 Null) 5 50 (-1) Null) 1 10).
  - simpl. lia.
  - unfold bst. vm_compute. repeat constructor.
Defined.

(** ** Removal *)

(** [rightmost] walks right links only. *)
Definition right_frame (f : frame) : Prop := match f with RightOf _ _ _ _ => True | _ => False end.

Lemma rightmost_spec t q :
  t <> Null -> exists l k o b q2, rightmost t q = Some (Item l k o b Null, q2 ++ q) /\
    plug (Item l k o b Null) q2 = t /\ Forall right_frame q2.
Proof.
  revert q. induction t as [|l _ k o b r IH]; intros q Hn; [done|].
  destruct r as [|rl rk ro rb rr].
  - exists l, k, o, b, []. repeat split; auto.
  - destruct (IH (RightOf l k o b :: q)) as (l' & k' & o' & b' & q2 & E & Hp & Hf); [done|].
    exists l', k', o', b', (q2 ++ [RightOf l k o b]).
    rewrite <- (assoc_L (++)). simpl. split; [exact E|]. split.
    + by rewrite plug_app, Hp.
    + apply Forall_app. split; [done|]. repeat constructor.
Qed.

Lemma right_frames_rctx q : Forall right_frame q -> rctx q = [].
Proof. induction 1 as [|[k o b r|l k o b] q Hf _ IH]; simpl; done. Qed.

Lemma pcor_rekey q k o k' o' b r p h :
  pcor (q ++ LeftOf k o b r :: p) h <-> pcor (q ++ LeftOf k' o' b r :: p) h.
Proof. revert h. induction q as [|[] q IH]; intros h; simpl; rewrite ?IH; done. Qed.

Lemma pok_rekey q k o k' o' b r p h :
  pok (q ++ LeftOf k o b r :: p) h <-> pok (q ++ LeftOf k' o' b r :: p) h.
Proof. revert h. induction q as [|[] q IH]; intros h; simpl; rewrite ?IH; done. Qed.

Lemma cond_adjust (w : bool) p v :
  lctx (if w then adjust_balance p v else p) = lctx p /\
  rctx (if w then adjust_balance p v else p) = rctx p /\
  (forall h, pok (if w then adjust_balance p v else p) h <-> pok p h).
Proof. destruct w; [|done]. rewrite adjust_lctx, adjust_rctx. repeat split; apply adjust_pok. Qed.

(** Removing an item with at most one child, [c]. *)
Lemma remove_unary c t p :
  avl c -> pcor p (height t) -> pok p (height t) -> height c = height t - 1 ->
  exists t', rebalance_parent c (adjust_balance p (-1)) = Some t' /\ avl t' /\
    inorder t' = (lctx p ++ inorder c ++ rctx p).
Proof.
  intros Hc H1 H2 Hh.
  destruct (rebalance_parent_ok c (adjust_balance p (-1))) as (t' & E & Ha & Hi); auto.
  - eapply near_adjust; eauto.
  - rewrite adjust_lctx, adjust_rctx in Hi. eauto.
Qed.

(** The item's left child has no right child and takes its place. *)
Lemma remove_left_child sl sk so sb k o b r p :
  let l := Item sl sk so sb Null in
  avl (Item l k o b r) -> pcor p (height (Item l k o b r)) -> pok p (height (Item l k o b r)) ->
  exists t', rebalance (Item sl sk so (b + 1) r)
               (if b + 1 <=? 0 then adjust_balance p (-1) else p) = Some t' /\ avl t' /\
    inorder t' = (lctx p ++ inorder l ++ inorder r ++ rctx p).
Proof.
  intros l Hav Hc Ho. simpl in Hav. destruct Hav as ((Hsl & _ & Hsb & Hsb') & Hr & Hb & Hb').
  pose proof (height_nonneg sl).
  destruct (cond_adjust (b + 1 <=? 0) p (-1)) as (Hlc & Hrc & Hok).
  destruct (rebalance_ok (Item sl sk so (b + 1) r)
    (if b + 1 <=? 0 then adjust_balance p (-1) else p)) as (t' & E & Ha & Hi).
  - simpl in Hc, Ho |- *. repeat split; auto; try lia.
    + destruct (Z.leb_spec (b + 1) 0).
      * eapply (adjust_pcor _ _ (-1)) in Hc; [|lia]. eapply eq_ind; [exact Hc|lia].
      * eapply eq_ind; [exact Hc|lia].
    + eexists. split; [apply Hok; exact Ho|]. lia.
  - exists t'. split; [done|]. split; [done|]. rewrite Hi, Hlc, Hrc. by lists.
Qed.

(** The substitute sits deeper: its left child moves up, balances are adjusted
    from its old parent on. *)
Lemma remove_deep sl sk so sb ol ok oo ob q k o b r p :
  let l := plug (Item sl sk so sb Null) (RightOf ol ok oo ob :: q) in
  Forall right_frame q ->
  avl (plug (Item l k o b r) p) ->
  let above := q ++ LeftOf sk so b r :: p in
  exists t', rebalance (Item ol ok oo (ob - 1) sl)
               (if 0 <=? ob - 1 then adjust_balance above (-1) else above) = Some t' /\ avl t' /\
    inorder t' = (lctx p ++ inorder l ++ inorder r ++ rctx p).
Proof.
  intros l Hq Hav above.
  assert (El : plug (Item l k o b r) p =
    plug (Item sl sk so sb Null) (RightOf ol ok oo ob :: q ++ LeftOf k o b r :: p)).
  { simpl. rewrite plug_app. done. }
  rewrite El in Hav. apply avl_plug in Hav as ((Hsl & _ & Hsb & Hsb') & Hc & Ho). simpl in Hc, Ho, Hsb.
  destruct Hc as (Hol & Hob & Hc). destruct Ho as (Hob' & Ho).
  rewrite (pcor_rekey _ _ _ sk so) in Hc. rewrite (pok_rekey _ _ _ sk so) in Ho. fold above in Hc, Ho.
  pose proof (height_nonneg sl).
  destruct (cond_adjust (0 <=? ob - 1) above (-1)) as (Hlc & Hrc & Hok).
  destruct (rebalance_ok (Item ol ok oo (ob - 1) sl)
    (if 0 <=? ob - 1 then adjust_balance above (-1) else above)) as (t' & E & Ha & Hi).
  - simpl. repeat split; auto; try lia.
    + destruct (Z.leb_spec 0 (ob - 1)).
      * eapply (adjust_pcor _ _ (-1)) in Hc; [|lia]. eapply eq_ind; [exact Hc|lia].
      * eapply eq_ind; [exact Hc|lia].
    + eexists. split; [apply Hok; exact Ho|]. lia.
  - exists t'. split; [done|]. split; [done|].
    rewrite Hi, Hlc, Hrc. unfold above, l. rewrite lctx_app, rctx_app, inorder_plug. simpl.
    rewrite (right_frames_rctx q) by done. by lists.
Qed.

Lemma tree_remove_spec l k o b r p :
  avl (plug (Item l k o b r) p) ->
  exists t', tree_remove (Item l k o b r) p = Some t' /\ avl t' /\
    inorder t' = (lctx p ++ inorder l ++ inorder r ++ rctx p).
Proof.
  intros Hav. pose proof Hav as Hav0. apply avl_plug in Hav0 as ((Hl & Hr & Hb & Hb') & Hc & Ho).
  destruct l as [|ll lk lo lb lr], r as [|rl rk ro rb rr].
  - destruct (remove_unary Null (Item Null k o b Null) p) as (t' & E & ? & ?); auto. eauto.
  - destruct (remove_unary (Item rl rk ro rb rr) (Item Null k o b (Item rl rk ro rb rr)) p)
      as (t' & E & ? & ?); auto.
    { simpl. pose proof (height_nonneg rl). lia. } eauto.
  - destruct (remove_unary (Item ll lk lo lb lr) (Item (Item ll lk lo lb lr) k o b Null) p)
      as (t' & E & ? & ?); auto.
    { simpl. pose proof (height_nonneg ll). lia. } eauto.
  - set (l := Item ll lk lo lb lr) in *. set (r := Item rl rk ro rb rr) in *.
    destruct (rightmost_spec l []) as (sl & sk & so & sb & q & E & Hp & Hf); [done|].
    rewrite app_nil_r in E.
    assert (Er : tree_remove (Item l k o b r) p =
      match rightmost l [] with
      | Some (Item old_left sk so _ _, []) =>
          rebalance (Item old_left sk so (b + 1) r) (if b + 1 <=? 0 then adjust_balance p (-1) else p)
      | Some (Item old_left sk so _ _, RightOf ol ok oo ob :: q) =>
          rebalance (Item ol ok oo (ob - 1) old_left)
            (if 0 <=? ob - 1 then adjust_balance (q ++ LeftOf sk so b r :: p) (-1)
             else q ++ LeftOf sk so b r :: p)
      | _ => None end) by done.
    rewrite Er, E. clear Er E. destruct q as [|[|ol ok oo ob] q].
    + simpl in Hp. rewrite <- Hp in *. eapply remove_left_child; eauto. simpl. auto.
    + apply Forall_cons in Hf as [[] _].
    + apply Forall_cons in Hf as [_ Hf]. rewrite <- Hp in *. by eapply remove_deep.
Qed.

Lemma sorted_drop_mid (xs ys : list (Z * Z)) x :
  StronglySorted Z.lt (xs ++ x :: ys).*1 ->
  StronglySorted Z.lt (xs ++ ys).*1 /\
  forall y, y ∈ (xs ++ ys) <-> y ∈ (xs ++ x :: ys) /\ y.1 <> x.1.
Proof.
  rewrite !fmap_app. simpl. intros (H1 & H2 & H3)%sorted_app.
  apply StronglySorted_inv in H2 as (H2 & H4). rewrite Forall_forall in H4. split.
  - apply sorted_app. split; [done|]. split; [done|]. set_solver.
  - intros y. rewrite !elem_of_app, elem_of_cons. split.
    + intros [Hy|Hy]; split; auto; apply (list_elem_of_fmap_2 fst) in Hy.
      * specialize (H3 y.1 x.1 Hy ltac:(set_solver)). lia.
      * specialize (H4 y.1 Hy). lia.
    + naive_solver.
Qed.

Lemma tree_remove_elems l k o b r p :
  avl (plug (Item l k o b r) p) -> bst (plug (Item l k o b r) p) ->
  exists t', tree_remove (Item l k o b r) p = Some t' /\ avl t' /\ bst t' /\
    forall x, x ∈ inorder t' <-> x ∈ inorder (plug (Item l k o b r) p) /\ x.1 <> k.
Proof.
  intros Ha Hb. destruct (tree_remove_spec l k o b r p Ha) as (t' & E & Ha' & Hi).
  exists t'. split; [done|]. split; [done|]. unfold bst, keys in *.
  rewrite inorder_plug in *. simpl in Hb |- *. rewrite <- ?(assoc_L (++)) in Hb |- *. simpl in Hb |- *.
  rewrite Hi. pose proof (sorted_drop_mid (lctx p ++ inorder l) (inorder r ++ rctx p) (k, o)) as Hm.
  rewrite <- ?(assoc_L (++)) in Hm. simpl in Hm. by apply Hm.
Qed.

(** What searches find after a removal. *)
Lemma tree_remove_search l k o b r p :
  avl (plug (Item l k o b r) p) -> bst (plug (Item l k o b r) p) ->
  exists t', tree_remove (Item l k o b r) p = Some t' /\ avl t' /\ bst t' /\
    forall key, tree_search t' key =
      if decide (key = k) then None else tree_search (plug (Item l k o b r) p) key.
Proof.
  intros Ha Hb. destruct (tree_remove_elems l k o b r p Ha Hb) as (t' & E & Ha' & Hb' & Hx).
  exists t'. split_and!; auto. intros key. apply option_eq. intros x.
  rewrite tree_search_spec, Hx by done. simpl. destruct (decide (key = k)); [naive_solver|].
  rewrite tree_search_spec by done. naive_solver.
Qed.

(** C19: [tree_remove] of an item of an AVL search tree follows no NULL link, yields
    an AVL search tree, and afterwards [tree_search] finds nothing under the key of
    the item and under every other key what it found before. *)
Theorem tree_remove_correct l k o b r p :
  avl (plug (Item l k o b r) p) -> bst (plug (Item l k o b r) p) ->
  exists t', tree_remove (Item l k o b r) p = Some t' /\ avl t' /\ bst t' /\
    forall key, tree_search t' key =
      if decide (key = k) then None else tree_search (plug (Item l k o b r) p) key.
Proof. apply tree_remove_search. Qed.

Lemma tree_remove_correct_witness :
  exists t', tree_remove (Item Null 3 30 0 Null) [LeftOf 5 50 1 (Item (Item Null 6 60 0 Null) 7 70 0 (Item Null 8 80 0 Null))] = Some t' /\
    avl t' /\ bst t' /\
    forall key, tree_search t' key =
      if decide (key = 3) then None
      else tree_search (plug (Item Null 3 30 0 Null) [LeftOf 5 50 1 (Item (Item Null 6 60 0 Null) 7 70 0 (Item Null 8 80 0 Null))]) key.
Proof.
  apply (tree_remove_correct Null 3 30 0 Null
    [LeftOf 5 50 1 (Item (Item Null 6 60 0 Null) 7 70 0 (Item Null 8 80 0 Null))]).
  - simpl. lia.
  - unfold bst. vm_compute. repeat constructor.
Defined.

(** ** Neighbours *)

Lemma leftmost_head t : leftmost t = head (inorder t).
Proof.
  induction t as [|l IHl k o b r _]; [done|]. simpl. rewrite IHl.
  destruct l as [|ll lk lo lb lr]; [done|]. simpl. by destruct (inorder ll).
Qed.

Lemma rightmost_last t : rightmost_key t = last (inorder t).
Proof.
  induction t as [|l _ k o b r IHr]; [done|]. simpl. rewrite IHr.
  destruct r as [|rl rk ro rb rr].
  - simpl. by rewrite last_snoc.
  - rewrite (cons_middle (k, o)), (assoc_L (++)), (last_app (inorder l ++ [(k, o)])).
    destruct (last (inorder (Item rl rk ro rb rr))) eqn:E; [done|].
    apply last_None in E. simpl in E. by destruct (inorder rl).
Qed.

Lemma climb_next_head p : climb_next p = head (rctx p).
Proof. induction p as [|[] p IH]; simpl; auto. Qed.

Lemma climb_prev_last p : climb_prev p = last (lctx p).
Proof.
  induction p as [|[k o b r|l k o b] p IH]; simpl; auto.
  by rewrite (assoc_L (++)), last_snoc.
Qed.

(** In a tree whose contents in order are [before ++ x :: after] with the
    item [x] at the position, [tree_next] gives the first of [after] and
    [tree_prev] the last of [before]. *)
Lemma tree_neighbours l k o b r p before after :
  before = (lctx p ++ inorder l) -> after = (inorder r ++ rctx p) ->
  inorder (plug (Item l k o b r) p) = (before ++ (k, o) :: after) /\
  tree_next (Item l k o b r) p = head after /\
  tree_prev (Item l k o b r) p = last before.
Proof.
  intros -> ->. rewrite inorder_plug. split; [by lists|]. split.
  - destruct r as [|rl rk ro rb rr]; [exact (climb_next_head p)|].
    change (leftmost (Item rl rk ro rb rr) = head (inorder (Item rl rk ro rb rr) ++ rctx p)).
    rewrite leftmost_head. simpl. by destruct (inorder rl).
  - rewrite last_app. destruct l as [|ll lk lo lb lr]; [exact (climb_prev_last p)|].
    change (rightmost_key (Item ll lk lo lb lr) =
      match last (inorder (Item ll lk lo lb lr)) with Some y => Some y | None => last (lctx p) end).
    rewrite rightmost_last. destruct (last (inorder (Item ll lk lo lb lr))) eqn:E; [done|].
    apply last_None in E. simpl in E. by destruct (inorder ll).
Qed.

(** ** Logarithmic height *)

Fixpoint fib (n : nat) : Z :=
  match n with
  | O => 1
  | S m => match m with O => 2 | S m' => fib m + fib m' end
  end.

Lemma fib_SS n : fib (S (S n)) = fib (S n) + fib n.
Proof. done. Qed.

Lemma fib_pos n : 1 <= fib n /\ fib n <= fib (S n).
Proof.
  induction n as [|n IH]; [simpl; lia|]. rewrite fib_SS. lia.
Qed.

Lemma fib_mono n m : (n <= m)%nat -> fib n <= fib m.
Proof. induction 1 as [|m _ IH]; [lia|]. pose proof (fib_pos m). lia. Qed.

Lemma fib_pow2 n : 2 ^ Z.of_nat n <= fib (2 * n).
Proof.
  induction n as [|n IH]; [done|].
  replace (2 * S n)%nat with (S (S (2 * n))) by lia. rewrite fib_SS.
  pose proof (fib_pos (2 * n)). rewrite Nat2Z.inj_succ, Z.pow_succ_r by lia. lia.
Qed.

Lemma avl_fib t : avl t -> fib (Z.to_nat (height t)) <= Z.of_nat (length (inorder t)) + 1.
Proof.
  induction t as [|l IHl k o b r IHr]; [done|]. intros (Hl & Hr & Hb & Hb').
  specialize (IHl Hl). specialize (IHr Hr). simpl. rewrite length_app. simpl.
  pose proof (height_nonneg l). pose proof (height_nonneg r).
  pose proof (fib_pos (Z.to_nat (height l))). pose proof (fib_pos (Z.to_nat (height r))).
  destruct (decide (height l = height r)) as [E|Hne].
  - rewrite E, Z.max_id. rewrite E in *. replace (Z.to_nat (1 + height r)) with (S (Z.to_nat (height r))) by lia.
    destruct (Z.to_nat (height r)) as [|m]; [simpl in *; lia|]. rewrite fib_SS.
    pose proof (fib_pos m). lia.
  - destruct (decide (height l < height r)).
    + replace (Z.to_nat (1 + Z.max (height l) (height r))) with (S (S (Z.to_nat (height l)))) by lia.
      rewrite fib_SS. replace (S (Z.to_nat (height l))) with (Z.to_nat (height r)) by lia. lia.
    + replace (Z.to_nat (1 + Z.max (height l) (height r))) with (S (S (Z.to_nat (height r)))) by lia.
      rewrite fib_SS. replace (S (Z.to_nat (height r))) with (Z.to_nat (height l)) by lia. lia.
Qed.

Lemma avl_height_log t : avl t -> height t <= 2 * Z.log2 (Z.of_nat (length (inorder t)) + 1) + 1.
Proof.
  intros Ha. pose proof (avl_fib t Ha) as Hf. pose proof (height_nonneg t) as Hh.
  set (n := Z.to_nat (height t / 2)).
  pose proof (Z.div_mod (height t) 2 ltac:(lia)) as Hd.
  pose proof (Z.mod_pos_bound (height t) 2 ltac:(lia)) as Hm.
  assert (Hn : (2 * n <= Z.to_nat (height t))%nat) by (unfold n; lia).
  pose proof (fib_mono _ _ Hn). pose proof (fib_pow2 n).
  assert (Hl : Z.of_nat n <= Z.log2 (Z.of_nat (length (inorder t)) + 1)).
  { apply Z.log2_le_pow2; lia. }
  unfold n in Hl. rewrite Z2Nat.id in Hl by lia. lia.
Qed.

(** ** Histories *)

(** Insertions, and removals of the item that a search finds. *)
Inductive tree_op := Insert (key obj : Z) | Remove (key : Z).

Definition tree_run (t : tree) (op : tree_op) : option tree :=
  match op with
  | Insert key obj => tree_insert t key obj
  | Remove key =>
      match do_search t key [] with
      | (true, Some (item, p)) => tree_remove item p
      | _ => Some t
      end
  end.

(** The same on a finite map, which keeps the first object of a key. *)
Definition map_run (m : gmap Z Z) (op : tree_op) : gmap Z Z :=
  match op with
  | Insert key obj => if decide (m !! key = None) then <[key := obj]> m else m
  | Remove key => delete key m
  end.

(** How many items a search looks at. *)
Definition visits (t : tree) (key : Z) : Z :=
  match (do_search t key []).2 with Some (_, p) => 1 + Z.of_nat (length p) | None => 0 end.

Lemma do_search_depth t key p :
  match (do_search t key p).2 with
  | Some (_, p') => Z.of_nat (length p') < height t + Z.of_nat (length p)
  | None => True
  end.
Proof.
  revert p. induction t as [|l IHl k o b r IHr]; intros p; [done|]. cbn [do_search height].
  pose proof (height_nonneg l). pose proof (height_nonneg r).
  destruct (key =? k); [simpl; lia|]. destruct (key <? k).
  - destruct l as [|ll lk lo lb lr]; [simpl; lia|]. specialize (IHl (LeftOf k o b r :: p)).
    destruct (snd _) as [[i p']|]; [|done]. cbn [length] in IHl. lia.
  - destruct r as [|rl rk ro rb rr]; [simpl in *; lia|]. specialize (IHr (RightOf l k o b :: p)).
    destruct (snd _) as [[i p']|]; [|done]. cbn [length] in IHr. lia.
Qed.

Lemma visits_height t key : visits t key <= height t.
Proof.
  pose proof (do_search_depth t key []) as H. pose proof (height_nonneg t). unfold visits.
  destruct (snd _) as [[i p]|]; simpl in *; lia.
Qed.

(** An AVL search tree with the contents of a map. *)
Definition holds (t : tree) (m : gmap Z Z) : Prop := avl t /\ bst t /\ forall k, tree_search t k = m !! k.

Lemma bst_keys_nodup t : bst t -> NoDup (keys t).
Proof.
  unfold bst. induction 1 as [|x xs _ IH Hf]; constructor; [|done]. rewrite Forall_forall in Hf.
  intros Hx. specialize (Hf x Hx). lia.
Qed.

Lemma holds_size t m : holds t m -> length (inorder t) = size m.
Proof.
  intros (_ & Hb & Hs). assert (m = list_to_map (inorder t)) as ->.
  { apply map_eq. intros k. apply option_eq. intros o. rewrite <- Hs, tree_search_spec by done.
    apply elem_of_list_to_map. by apply bst_keys_nodup. }
  rewrite map_size_list_to_map; [done|]. by apply bst_keys_nodup.
Qed.

Lemma tree_run_holds t m op : holds t m -> exists t', tree_run t op = Some t' /\ holds t' (map_run m op).
Proof.
  intros (Ha & Hb & Hs). destruct op as [key obj|key]; cbn [tree_run map_run].
  - destruct (tree_insert_search t key obj Ha Hb) as (t' & E & Ha' & Hb' & Hs'). exists t'. split; [done|].
    split_and!; [done..|]. intros k. rewrite Hs', !Hs. destruct (decide (m !! key = None)) as [Hn|Hn].
    + destruct (decide (k = key)) as [->|]; [by rewrite Hn, lookup_insert_eq|by rewrite lookup_insert_ne].
    + destruct (decide (k = key)) as [->|]; [|done]. by destruct (m !! key).
  - destruct (decide (t = Null)) as [->|Hn].
    { exists Null. split; [done|]. split_and!; [done..|]. intros k. specialize (Hs k). simpl in *.
      destruct (decide (k = key)) as [->|]; [by rewrite lookup_delete_eq|by rewrite lookup_delete_ne]. }
    pose proof (do_search_spec t key [] Hb Hn ltac:(split; set_solver)) as H.
    destruct (do_search t key []) as [[|] [[i p]|]] eqn:E; try done.
    + destruct i as [|l k o b r]; [done|]. destruct H as (-> & Hp). simpl in Hp. rewrite <- Hp in Ha, Hb.
      destruct (tree_remove_search l key o b r p Ha Hb) as (t' & Et & Ha' & Hb' & Hs'). exists t'. split; [done|].
      split_and!; [done..|]. intros k. rewrite Hs', Hp, Hs.
      destruct (decide (k = key)) as [->|]; [by rewrite lookup_delete_eq|by rewrite lookup_delete_ne].
    + exists t. split; [done|]. split_and!; [done..|]. intros k. rewrite Hs, delete_id; [done|].
      rewrite <- Hs. unfold tree_search. by rewrite E.
Qed.

(** C30: The tree after any insertions and removals: no call follows a NULL link, searching
    gives what a finite map with the same history holds, and a search looks at no more than
    [2 * log2 (n + 1) + 1] of the [n] items. *)
Theorem tree_history_log ops : let m := foldl map_run ∅ ops in
  exists t, foldl (fun t op => t ≫= fun t => tree_run t op) (Some Null) ops = Some t /\
    forall key, tree_search t key = m !! key /\ visits t key <= 2 * Z.log2 (Z.of_nat (size m) + 1) + 1.
Proof.
  intros m. enough (H : forall t0 m0, holds t0 m0 ->
    exists t, foldl (fun t op => t ≫= fun t => tree_run t op) (Some t0) ops = Some t /\ holds t (foldl map_run m0 ops)).
  { destruct (H Null ∅) as (t & E & Ht); [split_and!; [done|constructor|done]|].
    exists t. split; [done|]. intros key. split; [apply Ht|]. pose proof (visits_height t key).
    pose proof (avl_height_log t (proj1 Ht)) as Hl. rewrite (holds_size _ _ Ht) in Hl. unfold m. lia. }
  clear m. induction ops as [|op ops IH]; intros t0 m0 H; [by exists t0|]. cbn [foldl].
  destruct (tree_run_holds t0 m0 op H) as (t1 & E & H1). simpl. rewrite E. by apply IH.
Qed.
