(* ===== verification/Machine.v ===== *)
(** * The machine below the kernel: effects, physical memory and the MMU

    The kernel code runs against a machine state: physical memory (32-bit
    words at word-aligned physical addresses), the page directory register and
    the variables of paging.c and memphys.c.  Commands pass the state
    explicitly; a command that does not come back (panic, page fault in the
    kernel, NULL dereference, idle loop, shutdown, a loop without an end) is a
    [Stop].

    The translation of virtual addresses is that of the IA-32 MMU with 4 KB
    pages, as the hardware performs it from CR3; accesses are supervisor
    accesses with CR0.WP clear, so only the present bits matter.  The TLB is
    taken to be coherent. *)

From S2P Require Import Prelude.

(** ** Commands *)

Inductive stop :=
| Panic | PageFault (addr : Z) | NullDeref | UseAfterFree | OutOfBounds | Uninitialized | Idle | Shutdown
| Hang.

Inductive outcome (S A : Type) :=
| Ret (a : A) (s : S)
| Stop (w : stop) (s : S).
Arguments Ret {S A}.
Arguments Stop {S A}.

Definition cmd (S A : Type) : Type := S -> outcome S A.

#[export] Instance cmd_ret S : MRet (cmd S) := fun A a s => Ret a s.
#[export] Instance cmd_bind S : MBind (cmd S) := fun A B f c s =>
  match c s with
  | Ret a s' => f a s'
  | Stop w s' => Stop w s'
  end.

Definition gets {S A} (f : S -> A) : cmd S A := fun s => Ret (f s) s.
Definition modify {S} (f : S -> S) : cmd S unit := fun s => Ret tt (f s).
Definition stop_with {S A} (w : stop) : cmd S A := fun s => Stop w s.

(** [for (i=0;i<n;i++) body(i)] *)
Fixpoint for_from {S} (n : nat) (i : Z) (body : Z -> cmd S unit) : cmd S unit :=
  match n with
  | O => mret tt
  | S n => body i;; for_from n (i + 1) body
  end.

(** A loop over the elements of a list. *)
Fixpoint for_each {S A} (xs : list A) (body : A -> cmd S unit) : cmd S unit :=
  match xs with
  | [] => mret tt
  | x :: xs => body x;; for_each xs body
  end.

Lemma bind_ret {S A B} (a : A) (f : A -> cmd S B) s : (mret a ≫= f) s = f a s.
Proof. done. Qed.

Lemma bind_gets {S A B} (g : S -> A) (f : A -> cmd S B) s : (gets g ≫= f) s = f (g s) s.
Proof. done. Qed.

Lemma bind_modify {S B} (g : S -> S) (f : unit -> cmd S B) s : (modify g ≫= f) s = f tt (g s).
Proof. done. Qed.

Lemma bind_assoc {S A B C} (c : cmd S A) (f : A -> cmd S B) (g : B -> cmd S C) s :
  ((c ≫= f) ≫= g) s = (c ≫= fun a => f a ≫= g) s.
Proof. unfold mbind, cmd_bind. by destruct (c s). Qed.

Lemma bind_Ret {S A B} (c : cmd S A) (f : A -> cmd S B) s a s' :
  c s = Ret a s' -> (c ≫= f) s = f a s'.
Proof. unfold mbind, cmd_bind. by intros ->. Qed.

Lemma bind_same {S A B} (c : cmd S A) (f g : A -> cmd S B) (s : S) :
  (forall a s', f a s' = g a s') -> (c ≫= f) s = (c ≫= g) s.
Proof. intros H. unfold mbind, cmd_bind. destruct (c s); [apply H|done]. Qed.

Lemma bind_same_l {S A B} (c d : cmd S A) (f : A -> cmd S B) (s : S) : c s = d s -> (c ≫= f) s = (d ≫= f) s.
Proof. intros H. unfold mbind, cmd_bind. by rewrite H. Qed.

Lemma bind_Stop {S A B} (c : cmd S A) (f : A -> cmd S B) s w s' :
  c s = Stop w s' -> (c ≫= f) s = Stop w s'.
Proof. unfold mbind, cmd_bind. by intros ->. Qed.

(** ** Page directory and page table entries (paging.h) *)

(** One bit field in front of the others. *)
Definition bit (b : bool) (rest : Z) : Z := Z.b2z b + 2 * rest.

Record pde_t := Pde {
  pde_exists : bool; pde_writable : bool; pde_user : bool; pde_write_though : bool;
  pde_cache_disabled : bool; pde_accessed : bool; pde_zero : bool; pde_pagesize : bool;
  pde_unused8 : bool; pde_unused9 : bool; pde_unused10 : bool; pde_unused11 : bool;
  pde_page : Z }.

Record pte_t := Pte {
  in_memory : bool; writable : bool; user : bool; write_though : bool;
  cache_disabled : bool; accessed : bool; dirty : bool; cow : bool;
  global : bool; pte_exists : bool; swappable : bool; swapped : bool;
  page : Z }.

(** The memory layout of the bit fields. *)
Definition enc_pde (p : pde_t) : Z :=
  bit (pde_exists p) (bit (pde_writable p) (bit (pde_user p) (bit (pde_write_though p)
  (bit (pde_cache_disabled p) (bit (pde_accessed p) (bit (pde_zero p) (bit (pde_pagesize p)
  (bit (pde_unused8 p) (bit (pde_unused9 p) (bit (pde_unused10 p) (bit (pde_unused11 p)
  (pde_page p)))))))))))).

Definition enc_pte (p : pte_t) : Z :=
  bit (in_memory p) (bit (writable p) (bit (user p) (bit (write_though p)
  (bit (cache_disabled p) (bit (accessed p) (bit (dirty p) (bit (cow p)
  (bit (global p) (bit (pte_exists p) (bit (swappable p) (bit (swapped p)
  (page p)))))))))))).

Definition dbit {A} (w : Z) (k : bool -> Z -> A) : A := k (Z.odd w) (Z.div2 w).

Definition dec_pde (w : Z) : pde_t :=
  dbit w (fun b0 w => dbit w (fun b1 w => dbit w (fun b2 w => dbit w (fun b3 w =>
  dbit w (fun b4 w => dbit w (fun b5 w => dbit w (fun b6 w => dbit w (fun b7 w =>
  dbit w (fun b8 w => dbit w (fun b9 w => dbit w (fun b10 w => dbit w (fun b11 w =>
  Pde b0 b1 b2 b3 b4 b5 b6 b7 b8 b9 b10 b11 w)))))))))))).

Definition dec_pte (w : Z) : pte_t :=
  dbit w (fun b0 w => dbit w (fun b1 w => dbit w (fun b2 w => dbit w (fun b3 w =>
  dbit w (fun b4 w => dbit w (fun b5 w => dbit w (fun b6 w => dbit w (fun b7 w =>
  dbit w (fun b8 w => dbit w (fun b9 w => dbit w (fun b10 w => dbit w (fun b11 w =>
  Pte b0 b1 b2 b3 b4 b5 b6 b7 b8 b9 b10 b11 w)))))))))))).

(** [memset(&entry,0,sizeof(entry))] *)
Definition pde0 : pde_t := dec_pde 0.
Definition pte0 : pte_t := dec_pte 0.

Lemma odd_bit b x : Z.odd (bit b x) = b.
Proof. unfold bit. rewrite Z.odd_add_mul_2. by destruct b. Qed.

Lemma div2_bit b x : Z.div2 (bit b x) = x.
Proof.
  unfold bit. rewrite Z.div2_div. symmetry.
  apply (Z.div_unique _ 2 x (Z.b2z b)); destruct b; simpl; lia.
Qed.

Lemma bit_odd_div2 w : bit (Z.odd w) (Z.div2 w) = w.
Proof. unfold bit. rewrite (Z.div2_odd w) at 3. lia. Qed.

Lemma div2_iter12 w : Z.div2 (Z.div2 (Z.div2 (Z.div2 (Z.div2 (Z.div2 (Z.div2 (Z.div2
  (Z.div2 (Z.div2 (Z.div2 (Z.div2 w))))))))))) = w / 4096.
Proof. rewrite !Z.div2_div, !Z.div_div by lia. done. Qed.

Lemma page_of_pde w : pde_page (dec_pde w) = w / 4096.
Proof. apply div2_iter12. Qed.

Lemma page_of_pte w : page (dec_pte w) = w / 4096.
Proof. apply div2_iter12. Qed.

Lemma dec_enc_pde p : dec_pde (enc_pde p) = p.
Proof. destruct p. unfold dec_pde, enc_pde, dbit. simpl. by repeat rewrite ?odd_bit, ?div2_bit. Qed.

Lemma dec_enc_pte p : dec_pte (enc_pte p) = p.
Proof. destruct p. unfold dec_pte, enc_pte, dbit. simpl. by repeat rewrite ?odd_bit, ?div2_bit. Qed.

Lemma enc_dec_pde w : enc_pde (dec_pde w) = w.
Proof. unfold dec_pde, enc_pde, dbit. simpl. by rewrite !bit_odd_div2. Qed.

Lemma enc_dec_pte w : enc_pte (dec_pte w) = w.
Proof. unfold dec_pte, enc_pte, dbit. simpl. by rewrite !bit_odd_div2. Qed.

(** the bit-field layout of directory and table entries loses nothing:
    writing an entry and reading it back gives the same fields, and every
    32-bit word is the layout of the fields read from it. *)
Theorem entry_roundtrip :
  (forall p, dec_pde (enc_pde p) = p) /\ (forall p, dec_pte (enc_pte p) = p) /\
  (forall w, enc_pde (dec_pde w) = w) /\ (forall w, enc_pte (dec_pte w) = w).
Proof.
  split; [exact dec_enc_pde|]. split; [exact dec_enc_pte|]. split; [exact enc_dec_pde|exact enc_dec_pte].
Qed.

(** ** Addresses (limits.h, sizes.h, memmap.h, paging.h) *)

Abbreviation PAGE_SIZE := 4096 (only parsing).
Abbreviation KBYTES := 1024 (only parsing).
Abbreviation MBYTES := 1048576 (only parsing).
Abbreviation GBYTES := 1073741824 (only parsing).

Definition PAGE2ADDR (page : Z) : Z := w32 (page * PAGE_SIZE).
Definition ADDR2PAGE (addr : Z) : Z := w32 addr / PAGE_SIZE.
Definition ADDR2PDE (addr : Z) : Z := ADDR2PAGE addr / 1024.
Definition ADDR2PTE (addr : Z) : Z := ADDR2PAGE addr mod 1024.
Definition PAGEDOWN (addr : Z) : Z := w32 addr / PAGE_SIZE * PAGE_SIZE.
Definition PAGEUP (addr : Z) : Z := w32 ((w32 (w32 addr - 1) / PAGE_SIZE + 1) * PAGE_SIZE).
Definition PAGEOFF (addr : Z) : Z := w32 addr mod PAGE_SIZE.

Definition KERNELCODE_ADDRESS : Z := 1 * MBYTES.
Definition KERNELCODE_SIZE : Z := 2 * MBYTES.
Definition STACKDATA_ADDRESS : Z := KERNELCODE_ADDRESS + KERNELCODE_SIZE.
Definition STACKDATA_SIZE : Z := 4 * MBYTES.
Definition KERNELDATA_ADDRESS : Z := STACKDATA_ADDRESS + STACKDATA_SIZE.
Definition KERNELDATA_SIZE : Z := 1 * GBYTES - KERNELDATA_ADDRESS.
Definition USERDATA_ADDRESS : Z := 1 * GBYTES.
Definition USERDATA_SIZE : Z := 3068 * MBYTES - 4 * KBYTES.
Definition KERNELPD_ADDRESS : Z := PAGEUP (KERNELCODE_ADDRESS + KERNELCODE_SIZE).
Definition KERNELPD_SIZE : Z := 3 * PAGE_SIZE.
Definition FREEPHYS_ADDRESS : Z := KERNELPD_ADDRESS + KERNELPD_SIZE.
Definition BUFPAGE_ADDRESS : Z := 4092 * MBYTES - 4 * KBYTES.
Definition USERSTACK_END : Z := BUFPAGE_ADDRESS.
Definition USERSTACK_MAXSIZE : Z := 1024 * PAGE_SIZE.
Definition PAGETABLES_ADDRESS : Z := 4092 * MBYTES.
Definition PAGEDIR_ADDRESS : Z := 4 * GBYTES - 4 * KBYTES.

(** ** Physical memory and translation *)

Definition rd (m : gmap Z Z) (a : Z) : Z := default 0 (m !! a).

Definition translate (m : gmap Z Z) (cr3 v : Z) : option Z :=
  let pde := dec_pde (rd m (cr3 + 4 * (v / 4194304))) in
  if pde_exists pde then
    let pte := dec_pte (rd m (pde_page pde * 4096 + 4 * (v / 4096 mod 1024))) in
    if in_memory pte then Some (page pte * 4096 + v mod 4096) else None
  else None.

(** The variables of paging.c and memphys.c. *)
Record mach := Mach {
  phys : gmap Z Z;
  paging_enabled : bool;
  paging_curpd : Z;
  paging_kernelpd : Z;
  paging_physrw_lastpage : Z;
  paging_physrw_lastpd : Z;
  memphys_stackbase : Z;
  memphys_stackend : Z;
  memphys_stackptr : Z;
  memphys_dma_bitmap : list Z;
}.

Definition set_phys (m : mach) (x : gmap Z Z) : mach :=
  Mach x (paging_enabled m) (paging_curpd m) (paging_kernelpd m) (paging_physrw_lastpage m)
    (paging_physrw_lastpd m) (memphys_stackbase m) (memphys_stackend m) (memphys_stackptr m)
    (memphys_dma_bitmap m).
Definition set_curpd (m : mach) (x : Z) : mach :=
  Mach (phys m) (paging_enabled m) x (paging_kernelpd m) (paging_physrw_lastpage m)
    (paging_physrw_lastpd m) (memphys_stackbase m) (memphys_stackend m) (memphys_stackptr m)
    (memphys_dma_bitmap m).
Definition set_enabled (m : mach) (x : bool) : mach :=
  Mach (phys m) x (paging_curpd m) (paging_kernelpd m) (paging_physrw_lastpage m)
    (paging_physrw_lastpd m) (memphys_stackbase m) (memphys_stackend m) (memphys_stackptr m)
    (memphys_dma_bitmap m).
Definition set_kernelpd (m : mach) (x : Z) : mach :=
  Mach (phys m) (paging_enabled m) (paging_curpd m) x (paging_physrw_lastpage m)
    (paging_physrw_lastpd m) (memphys_stackbase m) (memphys_stackend m) (memphys_stackptr m)
    (memphys_dma_bitmap m).
Definition set_physrw (m : mach) (pg pd : Z) : mach :=
  Mach (phys m) (paging_enabled m) (paging_curpd m) (paging_kernelpd m) pg pd
    (memphys_stackbase m) (memphys_stackend m) (memphys_stackptr m) (memphys_dma_bitmap m).
Definition set_stack (m : mach) (base end_ ptr : Z) : mach :=
  Mach (phys m) (paging_enabled m) (paging_curpd m) (paging_kernelpd m) (paging_physrw_lastpage m)
    (paging_physrw_lastpd m) base end_ ptr (memphys_dma_bitmap m).
Definition set_dma (m : mach) (x : list Z) : mach :=
  Mach (phys m) (paging_enabled m) (paging_curpd m) (paging_kernelpd m) (paging_physrw_lastpage m)
    (paging_physrw_lastpd m) (memphys_stackbase m) (memphys_stackend m) (memphys_stackptr m) x.

(** Kernel loads and stores of aligned words: through the MMU once paging is
    enabled. *)
Definition resolve (m : mach) (a : Z) : option Z :=
  if paging_enabled m then translate (phys m) (paging_curpd m) a else Some a.

Definition vload (a : Z) : cmd mach Z := fun m =>
  match resolve m a with
  | Some p => Ret (rd (phys m) p) m
  | None => Stop (PageFault a) m
  end.

Definition vstore (a v : Z) : cmd mach unit := fun m =>
  match resolve m a with
  | Some p => Ret tt (set_phys m (<[p := v]> (phys m)))
  | None => Stop (PageFault a) m
  end.

(** [memcpy]/[memset] on whole words. *)
Definition copy_words (dest src n : Z) : cmd mach unit :=
  for_from (Z.to_nat n) 0 (fun i => v ← vload (src + 4 * i); vstore (dest + 4 * i) v).

Definition clear_words (dest n : Z) : cmd mach unit :=
  for_from (Z.to_nat n) 0 (fun i => vstore (dest + 4 * i) 0).
