(* ===== verification/Paging.v ===== *)
(** * Paging and the physical page allocator (kernel2/paging.c, kernel2/memphys.c)

    The kernel reaches the loaded page directory and its tables through the
    last directory entry, which maps the directory itself; other directories
    are reached by mapping them at a buffer page.  The stack of free physical
    pages lives in virtual memory and is mapped with the same functions, so
    the two source files form one component.  Functions that take [pagedir]
    call each other only with the loaded directory, so the specialisation
    [paging_map] for the loaded directory comes first ([paging_map_pd_cur]
    shows that it is the general function there). *)

From S2P Require Import Prelude Machine.

(** ** The loaded directory *)

Definition paging_loadpagedir (pd : Z) : cmd mach Z :=
  modify (fun m => set_curpd m pd);; mret 0.

Definition pde_slot (m : mach) (virt : Z) : Z :=
  (if paging_enabled m then PAGEDIR_ADDRESS else paging_curpd m) + 4 * ADDR2PDE virt.

Definition pte_slot (m : mach) (pde : pde_t) (virt : Z) : Z :=
  (if paging_enabled m then PAGETABLES_ADDRESS + ADDR2PDE virt * PAGE_SIZE
   else PAGE2ADDR (pde_page pde)) + 4 * ADDR2PTE virt.

Definition paging_getpde (virt : Z) : cmd mach pde_t :=
  a ← gets (fun m => pde_slot m virt); w ← vload a; mret (dec_pde w).

Definition paging_setpde (virt : Z) (pde : pde_t) : cmd mach Z :=
  a ← gets (fun m => pde_slot m virt); vstore a (enc_pde pde);; mret 0.

Definition paging_getpte (virt : Z) : cmd mach pte_t :=
  pde ← paging_getpde virt;
  if negb (pde_exists pde) then mret pte0
  else a ← gets (fun m => pte_slot m pde virt); w ← vload a; mret (dec_pte w).

Definition paging_setpte (virt : Z) (pte : pte_t) : cmd mach Z :=
  pde ← paging_getpde virt;
  if negb (pde_exists pde) then mret (-1)
  else a ← gets (fun m => pte_slot m pde virt); vstore a (enc_pte pte);; mret 0.

Definition paging_unmap (virt : Z) : cmd mach Z :=
  pte ← paging_getpte virt;
  let addr := if in_memory pte then PAGE2ADDR (page pte) else NULL in
  paging_setpte virt pte0;; mret addr.

Definition paging_getphysaddr (virt : Z) : cmd mach Z :=
  pte ← paging_getpte virt;
  if pte_exists pte && in_memory pte
  then mret (w32 (PAGE2ADDR (page pte) + PAGEOFF virt)) else mret NULL.

(** ** Taking a page from the stack of free pages *)

(** [memphys_stackptr-memphys_stackend] counts pointers. *)
Definition memphys_pop : cmd mach Z :=
  base ← gets memphys_stackbase; end_ ← gets memphys_stackend; ptr ← gets memphys_stackptr;
  if base <? ptr then
    if PAGE_SIZE <? (ptr - end_) / 4 then
      let end' := end_ - 4 * PAGE_SIZE in
      modify (fun m => set_stack m base end' ptr);;
      paging_unmap end';;
      mret end'
    else
      modify (fun m => set_stack m base end_ (ptr - 4));;
      vload (ptr - 4)
  else stop_with Panic.

(** ** Mapping in the loaded directory *)

(** The entry of a new page table. *)
Definition new_pde (page : Z) : pde_t :=
  Pde true true true false false false false false false false false false page.

Definition new_pte (phys : Z) (user writable swappable cow : bool) : pte_t :=
  Pte true writable user false false false false cow false true swappable false (ADDR2PAGE phys).

Definition paging_map_ext (virt phys : Z) (user writable swappable cow : bool) : cmd mach Z :=
  pde ← paging_getpde virt;
  (if negb (pde_exists pde) then
     let pagetable := PAGETABLES_ADDRESS + ADDR2PDE virt * PAGE_SIZE in
     pg ← memphys_pop;
     paging_setpde virt (new_pde (ADDR2PAGE pg));;
     clear_words pagetable (PAGE_SIZE / 4)
   else mret tt);;
  r ← paging_setpte virt (new_pte phys user writable swappable cow);
  if r <? 0 then mret (-1) else mret 0.

(** [#define paging_map(virt,phys,user,writable)] *)
Definition paging_map (virt phys : Z) (user writable : bool) : cmd mach Z :=
  paging_map_ext virt phys user writable false false.

(** ** Physical memory through the buffer page *)

(** Map the page at the buffer; [false] is the failure return. *)
Definition map_buffer (rounded : Z) : cmd mach bool :=
  r ← paging_map BUFPAGE_ADDRESS rounded false true;
  if r <? 0 then mret false
  else modify (fun m => set_physrw m rounded (paging_curpd m));; mret true.

Definition buffered (rounded : Z) (m : mach) : bool :=
  (rounded =? paging_physrw_lastpage m) && (paging_curpd m =? paging_physrw_lastpd m).

Definition paging_physread (dest src count : Z) : cmd mach Z :=
  let src_rounded := PAGEDOWN src in
  hit ← gets (buffered src_rounded);
  ok ← (if negb hit then map_buffer src_rounded else mret true);
  if negb ok then mret 0
  else copy_words dest (BUFPAGE_ADDRESS + PAGEOFF src) (count / 4);; mret count.

(** The condition of [paging_physwrite] ends in [|| 1]. *)
Definition paging_physwrite (dest src count : Z) : cmd mach Z :=
  ok ← map_buffer (PAGEDOWN dest);
  if negb ok then mret 0
  else copy_words (BUFPAGE_ADDRESS + PAGEOFF dest) src (count / 4);; mret count.

(** The same with a local variable (one word) as destination or source. *)
Definition physread_word (src : Z) : cmd mach Z :=
  let src_rounded := PAGEDOWN src in
  hit ← gets (buffered src_rounded);
  ok ← (if negb hit then map_buffer src_rounded else mret true);
  if negb ok then stop_with Uninitialized
  else vload (BUFPAGE_ADDRESS + PAGEOFF src).

Definition physwrite_word (dest v : Z) : cmd mach Z :=
  ok ← map_buffer (PAGEDOWN dest);
  if negb ok then mret 0
  else vstore (BUFPAGE_ADDRESS + PAGEOFF dest) v;; mret 4.

Definition paging_cleanpage (page : Z) : cmd mach Z :=
  enabled ← gets paging_enabled;
  if enabled : bool then
    let page_rounded := PAGEDOWN page in
    hit ← gets (buffered page_rounded);
    ok ← (if negb hit then map_buffer page_rounded else mret true);
    if negb ok then mret 0
    else clear_words BUFPAGE_ADDRESS (PAGE_SIZE / 4);; mret page
  else clear_words page (PAGE_SIZE / 4);; mret page.

(** ** Any directory *)

Definition paging_getpde_pd (virt pagedir : Z) : cmd mach pde_t :=
  cur ← gets paging_curpd;
  if pagedir =? cur then paging_getpde virt
  else w ← physread_word (pagedir + 4 * ADDR2PDE virt); mret (dec_pde w).

Definition paging_setpde_pd (virt : Z) (pde : pde_t) (pagedir : Z) : cmd mach Z :=
  cur ← gets paging_curpd;
  if pagedir =? cur then paging_setpde virt pde
  else n ← physwrite_word (pagedir + 4 * ADDR2PDE virt) (enc_pde pde);
       mret (if n =? 4 then 0 else -1).

Definition paging_getpte_pd (virt pagedir : Z) : cmd mach pte_t :=
  cur ← gets paging_curpd;
  if pagedir =? cur then paging_getpte virt
  else
    pde ← paging_getpde_pd virt pagedir;
    let pt := PAGE2ADDR (pde_page pde) in
    if pt =? NULL then mret pte0
    else w ← physread_word (pt + 4 * ADDR2PTE virt); mret (dec_pte w).

Definition paging_setpte_pd (virt : Z) (pte : pte_t) (pagedir : Z) : cmd mach Z :=
  cur ← gets paging_curpd;
  if pagedir =? cur then paging_setpte virt pte
  else
    pde ← paging_getpde_pd virt pagedir;
    let pt := PAGE2ADDR (pde_page pde) in
    n ← physwrite_word (pt + 4 * ADDR2PTE virt) (enc_pte pte);
    mret (if n =? 4 then 0 else -1).

Definition paging_map_pd (virt phys : Z) (user writable swappable cow : bool) (pagedir : Z)
    : cmd mach Z :=
  pde ← paging_getpde_pd virt pagedir;
  ok ← (if negb (pde_exists pde) then
     let pagetable := PAGETABLES_ADDRESS + ADDR2PDE virt * PAGE_SIZE in
     pg ← memphys_pop;
     r ← paging_setpde_pd virt (new_pde (ADDR2PAGE pg)) pagedir;
     if r <? 0 then mret false
     else clear_words pagetable (PAGE_SIZE / 4);; mret true
   else mret true);
  if negb ok then mret (-1) else
  r ← paging_setpte_pd virt (new_pte phys user writable swappable cow) pagedir;
  if r <? 0 then mret (-1) else mret 0.

(** ** Giving a page back *)

Definition memphys_push (addr : Z) : cmd mach unit :=
  if addr =? NULL then mret tt else
  base ← gets memphys_stackbase; end_ ← gets memphys_stackend; ptr ← gets memphys_stackptr;
  if ptr =? end_ then
    r ← paging_map end_ addr false true;
    if r <? 0 then stop_with Panic
    else modify (fun m => set_stack m base (end_ + 4 * (PAGE_SIZE / 4)) ptr)
  else
    vstore ptr addr;;
    modify (fun m => set_stack m base end_ (ptr + 4)).

(** [size_t] arithmetic. *)
Definition memphys_memleft (m : mach) : Z :=
  w32 ((memphys_stackptr m - memphys_stackbase m) * PAGE_SIZE) / 4.

(** The memory map of the boot loader: base, length and whether it is free. *)
Definition memphys_init (mmap : list (Z * Z * bool)) : cmd mach Z :=
  modify (fun m => set_stack m STACKDATA_ADDRESS STACKDATA_ADDRESS STACKDATA_ADDRESS);;
  for_each mmap (fun '(addr, size, free) =>
    if free : bool then
      for_from (Z.to_nat (size / PAGE_SIZE)) 0 (fun j =>
        let a := w32 (addr + j * PAGE_SIZE) in
        if FREEPHYS_ADDRESS <=? a then memphys_push a else mret tt)
    else mret tt);;
  mret 0.

(** ** Switching paging on *)

Definition paging_init : cmd mach Z :=
  modify (fun m => set_physrw (set_enabled m false) NULL NULL);;
  modify (fun m => set_curpd (set_kernelpd m KERNELPD_ADDRESS) KERNELPD_ADDRESS);;
  clear_words KERNELPD_ADDRESS (PAGE_SIZE / 4);;
  vstore KERNELPD_ADDRESS (enc_pde (new_pde (ADDR2PAGE (KERNELPD_ADDRESS + PAGE_SIZE))));;
  vstore (KERNELPD_ADDRESS + 4) (enc_pde (new_pde (ADDR2PAGE (KERNELPD_ADDRESS + PAGE_SIZE * 2))));;
  clear_words (KERNELPD_ADDRESS + PAGE_SIZE) (PAGE_SIZE / 4);;
  for_from (Z.to_nat ((KERNELCODE_ADDRESS + KERNELCODE_SIZE) / PAGE_SIZE)) 0 (fun n =>
    let i := n * PAGE_SIZE in
    if (i <? 512) || (786432 <=? i) && (i <? 786432 + 262144)
    then paging_map i i true false;; mret tt
    else paging_map i i false true;; mret tt);;
  clear_words (KERNELPD_ADDRESS + PAGE_SIZE * 2) (PAGE_SIZE / 4);;
  vstore (KERNELPD_ADDRESS + 4 * 1023)
    (enc_pde (Pde true true false false false false false false false false false false
                  (ADDR2PAGE KERNELPD_ADDRESS)));;
  paging_loadpagedir KERNELPD_ADDRESS;;
  modify (fun m => set_enabled m true);;
  mret 0.

(** ** The self-map *)

Definition pde_at (m : mach) (d : Z) : pde_t := dec_pde (rd (phys m) (paging_curpd m + 4 * d)).

(** The loaded directory is page-aligned and its last entry maps it. *)
Definition selfmap (m : mach) : Prop :=
  paging_enabled m = true /\ paging_curpd m mod 4096 = 0 /\ 0 <= paging_curpd m < 4294967296 /\
  pde_exists (pde_at m 1023) = true /\ pde_page (pde_at m 1023) * 4096 = paging_curpd m.

Definition addr32 (v : Z) : Prop := 0 <= v < 4294967296.

Lemma in_memory_dec w : in_memory (dec_pte w) = Z.odd w.
Proof. done. Qed.

Lemma pde_exists_dec w : pde_exists (dec_pde w) = Z.odd w.
Proof. done. Qed.

(** The address [d * 2^22 + t * 2^12 + o]. *)
Lemma vaddr_split d t o :
  0 <= t < 1024 -> 0 <= o < 4096 ->
  (d * 4194304 + t * 4096 + o) / 4194304 = d /\
  (d * 4194304 + t * 4096 + o) / 4096 mod 1024 = t /\
  (d * 4194304 + t * 4096 + o) mod 4096 = o.
Proof.
  intros Ht Ho. repeat split.
  - symmetry. apply (Z.div_unique _ _ _ (t * 4096 + o)); lia.
  - replace ((d * 4194304 + t * 4096 + o) / 4096) with (d * 1024 + t)
      by (apply (Z.div_unique _ _ _ o); lia).
    symmetry. apply (Z.mod_unique _ _ d); lia.
  - symmetry. apply (Z.mod_unique _ _ (d * 1024 + t)); lia.
Qed.

Lemma resolve_pd m i :
  selfmap m -> 0 <= i < 1024 -> resolve m (PAGEDIR_ADDRESS + 4 * i) = Some (paging_curpd m + 4 * i).
Proof.
  intros (He & _ & _ & Hx & Hp) Hi. unfold resolve, translate. rewrite He.
  replace (PAGEDIR_ADDRESS + 4 * i) with (1023 * 4194304 + 1023 * 4096 + 4 * i)
    by (unfold PAGEDIR_ADDRESS; lia).
  destruct (vaddr_split 1023 1023 (4 * i)) as (-> & -> & ->); [lia..|].
  change (dec_pde (rd (phys m) (paging_curpd m + 4 * 1023))) with (pde_at m 1023).
  rewrite Hx, Hp, in_memory_dec, page_of_pte. unfold pde_at in Hx, Hp.
  rewrite pde_exists_dec in Hx. rewrite page_of_pde in Hp. by rewrite Hx, Hp.
Qed.

Lemma resolve_pt m d t :
  selfmap m -> 0 <= d < 1024 -> 0 <= t < 1024 -> pde_exists (pde_at m d) = true ->
  resolve m (PAGETABLES_ADDRESS + d * PAGE_SIZE + 4 * t) = Some (pde_page (pde_at m d) * 4096 + 4 * t).
Proof.
  intros (He & _ & _ & Hx & Hp) Hd Ht Hdx. unfold resolve, translate. rewrite He.
  replace (PAGETABLES_ADDRESS + d * 4096 + 4 * t) with (1023 * 4194304 + d * 4096 + 4 * t)
    by (unfold PAGETABLES_ADDRESS; lia).
  destruct (vaddr_split 1023 d (4 * t)) as (-> & -> & ->); [lia..|].
  change (dec_pde (rd (phys m) (paging_curpd m + 4 * 1023))) with (pde_at m 1023).
  rewrite Hx, Hp, in_memory_dec, page_of_pte. unfold pde_at in *.
  rewrite pde_exists_dec in Hdx. by rewrite Hdx, page_of_pde.
Qed.

Lemma addr2pde v : addr32 v -> ADDR2PDE v = v / 4194304 /\ 0 <= ADDR2PDE v < 1024.
Proof.
  intros Hv. unfold ADDR2PDE, ADDR2PAGE. rewrite w32_small by done. rewrite Z.div_div by lia.
  split; [done|]. unfold addr32 in Hv. split; [apply Z.div_pos; lia|].
  apply Z.div_lt_upper_bound; lia.
Qed.

Lemma addr2pte v : addr32 v -> ADDR2PTE v = v / 4096 mod 1024 /\ 0 <= ADDR2PTE v < 1024.
Proof.
  intros Hv. unfold ADDR2PTE, ADDR2PAGE. rewrite w32_small by done.
  split; [done|]. apply Z.mod_pos_bound. lia.
Qed.

(** The table entry the hardware uses for [v]. *)
Definition hw_pte (m : mach) (v : Z) : pte_t :=
  let pde := pde_at m (v / 4194304) in
  if pde_exists pde then dec_pte (rd (phys m) (pde_page pde * 4096 + 4 * (v / 4096 mod 1024))) else pte0.

Lemma getpde_ok m v :
  selfmap m -> addr32 v -> paging_getpde v m = Ret (pde_at m (v / 4194304)) m.
Proof.
  intros Hs Hv. destruct (addr2pde v Hv) as [Hd Hr].
  unfold paging_getpde, gets, mbind, cmd_bind, pde_slot, vload.
  pose proof Hs as (-> & _). rewrite resolve_pd by done. rewrite Hd. done.
Qed.

Lemma getpte_ok m v : selfmap m -> addr32 v -> paging_getpte v m = Ret (hw_pte m v) m.
Proof.
  intros Hs Hv. unfold paging_getpte.
  rewrite (bind_Ret _ _ _ _ _ (getpde_ok m v Hs Hv)). unfold hw_pte.
  destruct (addr2pde v Hv) as [Hd Hr], (addr2pte v Hv) as [Ht Htr].
  destruct (pde_exists (pde_at m (v / 4194304))) eqn:E; simpl; [|done].
  unfold gets, mbind, cmd_bind, pte_slot, vload. pose proof Hs as (-> & _).
  rewrite resolve_pt; auto; [|by rewrite Hd]. by rewrite Hd, Ht.
Qed.

Lemma translate_hw m v :
  translate (phys m) (paging_curpd m) v =
    if in_memory (hw_pte m v) then Some (page (hw_pte m v) * 4096 + v mod 4096) else None.
Proof.
  unfold translate, hw_pte, pde_at. by destruct (pde_exists _).
Qed.

(** The word of the entry for [v] of an existing table, and writing it. *)
Definition pte_word (m : mach) (v : Z) : Z :=
  pde_page (pde_at m (v / 4194304)) * 4096 + 4 * (v / 4096 mod 1024).

Lemma setpte_ok m v pte :
  selfmap m -> addr32 v -> pde_exists (pde_at m (v / 4194304)) = true ->
  paging_setpte v pte m = Ret 0 (set_phys m (<[pte_word m v := enc_pte pte]> (phys m))).
Proof.
  intros Hs Hv Hx. unfold paging_setpte.
  rewrite (bind_Ret _ _ _ _ _ (getpde_ok m v Hs Hv)). rewrite Hx. simpl.
  destruct (addr2pde v Hv) as [Hd Hr], (addr2pte v Hv) as [Ht Htr].
  unfold gets, mbind, cmd_bind, pte_slot, vstore. pose proof Hs as (-> & _).
  rewrite resolve_pt; auto; [|by rewrite Hd]. unfold pte_word. by rewrite Hd, Ht.
Qed.

Lemma getphysaddr_ok m v : selfmap m -> addr32 v -> pte_exists (hw_pte m v) = true ->
  0 <= page (hw_pte m v) < 1048576 ->
  paging_getphysaddr v m = Ret (default NULL (translate (phys m) (paging_curpd m) v)) m.
Proof.
  intros Hs Hv Hx Hp. unfold paging_getphysaddr.
  rewrite (bind_Ret _ _ _ _ _ (getpte_ok m v Hs Hv)), translate_hw, Hx. simpl.
  destruct (in_memory (hw_pte m v)); [|done]. simpl. unfold mret, cmd_ret. f_equal.
  unfold PAGE2ADDR, PAGEOFF. pose proof (Z.mod_pos_bound v 4096 ltac:(lia)).
  rewrite (w32_small v) by done. rewrite (w32_small (_ * _)) by lia. apply w32_small. lia.
Qed.

(** C27: the kernel's view of the loaded address space is the hardware's: with
    the self-map in place, reading the entries through the directory window
    and the table window gives exactly what the MMU walks, and
    [paging_getphysaddr] answers NULL or the MMU's translation. *)
Theorem selfmap_reads_hardware m v :
  selfmap m -> addr32 v ->
  paging_getpde v m = Ret (pde_at m (v / 4194304)) m /\
  paging_getpte v m = Ret (hw_pte m v) m /\
  (pte_exists (hw_pte m v) = true -> 0 <= page (hw_pte m v) < 1048576 ->
   paging_getphysaddr v m = Ret (default NULL (translate (phys m) (paging_curpd m) v)) m).
Proof.
  intros Hs Hv. split; [by apply getpde_ok|]. split; [by apply getpte_ok|]. by apply getphysaddr_ok.
Qed.

(** ** Mapping and unmapping *)

(** Directory and tables occupy different frames. *)
Definition separate (m : mach) : Prop :=
  (forall d, 0 <= d < 1023 -> pde_exists (pde_at m d) = true ->
     pde_page (pde_at m d) * 4096 <> paging_curpd m) /\
  (forall d d', 0 <= d < 1023 -> 0 <= d' < 1023 -> d <> d' ->
     pde_exists (pde_at m d) = true -> pde_exists (pde_at m d') = true ->
     pde_page (pde_at m d) <> pde_page (pde_at m d')).

(** Outside the window on the page tables. *)
Definition below_tables (v : Z) : Prop := 0 <= v < PAGETABLES_ADDRESS.

Lemma below_pde v : below_tables v -> addr32 v /\ 0 <= v / 4194304 < 1023.
Proof.
  unfold below_tables, addr32, PAGETABLES_ADDRESS. intros Hv. split; [lia|].
  split; [apply Z.div_pos; lia|]. apply Z.div_lt_upper_bound; lia.
Qed.

Lemma rd_insert m a v b : rd (<[a := v]> m) b = if decide (a = b) then v else rd m b.
Proof. unfold rd. rewrite lookup_insert. by case_decide. Qed.

(** A write to a table does not touch the directory. *)
Lemma pde_at_pte_write m v w d :
  selfmap m -> separate m -> below_tables v -> pde_exists (pde_at m (v / 4194304)) = true ->
  0 <= d < 1024 -> pde_at (set_phys m (<[pte_word m v := w]> (phys m))) d = pde_at m d.
Proof.
  intros (_ & Hal & _) (Hs1 & _) Hv Hx Hd. apply below_pde in Hv as [_ Hvd].
  unfold pde_at at 1. simpl. rewrite rd_insert. case_decide as E; [|done]. exfalso.
  specialize (Hs1 _ Hvd Hx). apply Hs1. unfold pte_word in E.
  pose proof (Z.mod_pos_bound (v / 4096) 1024 ltac:(lia)).
  pose proof (Z.div_mod (paging_curpd m) 4096 ltac:(lia)). lia.
Qed.

Lemma set_pte_selfmap m v w :
  selfmap m -> separate m -> below_tables v -> pde_exists (pde_at m (v / 4194304)) = true ->
  let m' := set_phys m (<[pte_word m v := w]> (phys m)) in selfmap m' /\ separate m'.
Proof.
  intros Hs Hsep Hv Hx m'.
  assert (Hd : forall d, 0 <= d < 1024 -> pde_at m' d = pde_at m d)
    by (intros; by apply pde_at_pte_write).
  split.
  - destruct Hs as (H1 & H2 & H3 & H4 & H5). unfold selfmap. rewrite Hd by lia. done.
  - destruct Hsep as (H1 & H2). split.
    + intros d Hr. rewrite Hd by lia. apply H1. lia.
    + intros d d' Hr Hr'. rewrite !Hd by lia. apply H2; lia.
Qed.

Lemma hw_pte_write m v w u :
  selfmap m -> separate m -> below_tables v -> below_tables u ->
  pde_exists (pde_at m (v / 4194304)) = true ->
  hw_pte (set_phys m (<[pte_word m v := w]> (phys m))) u =
    if decide (u / 4096 = v / 4096) then dec_pte w else hw_pte m u.
Proof.
  intros Hs Hsep Hv Hu Hx. pose proof (below_pde v Hv) as [_ Hvd].
  pose proof (below_pde u Hu) as [_ Hud].
  unfold hw_pte. rewrite pde_at_pte_write by (auto; lia). cbn [phys set_phys]. rewrite rd_insert.
  assert (Hdiv : forall x, x / 4194304 = x / 4096 / 1024)
    by (intros; by rewrite Z.div_div by lia).
  pose proof (Z.mod_pos_bound (v / 4096) 1024 ltac:(lia)).
  pose proof (Z.mod_pos_bound (u / 4096) 1024 ltac:(lia)).
  pose proof (Z.div_mod (u / 4096) 1024 ltac:(lia)).
  pose proof (Z.div_mod (v / 4096) 1024 ltac:(lia)).
  unfold pte_word. case_decide as E1; case_decide as E2; auto.
  - assert (u / 4194304 = v / 4194304) as -> by (by rewrite !Hdiv, E2). by rewrite Hx.
  - destruct (pde_exists (pde_at m (u / 4194304))) eqn:Hux; [|done]. exfalso.
    destruct (decide (u / 4194304 = v / 4194304)) as [E|Hne].
    + rewrite E in E1. rewrite !Hdiv in E. lia.
    + apply (proj2 Hsep _ _ Hud Hvd Hne Hux Hx). lia.
  - exfalso. apply E1. rewrite E2. by assert (u / 4194304 = v / 4194304) as -> by (by rewrite !Hdiv, E2).
Qed.

Lemma map_exact m v p u w s c :
  selfmap m -> below_tables v -> pde_exists (pde_at m (v / 4194304)) = true ->
  paging_map_ext v p u w s c m =
    Ret 0 (set_phys m (<[pte_word m v := enc_pte (new_pte p u w s c)]> (phys m))).
Proof.
  intros Hs Hv Hx. pose proof (below_pde v Hv) as [Hva _].
  unfold paging_map_ext. rewrite (bind_Ret _ _ _ _ _ (getpde_ok m v Hs Hva)), Hx. simpl.
  by rewrite bind_ret, (bind_Ret _ _ _ _ _ (setpte_ok m v _ Hs Hva Hx)).
Qed.

Lemma map_translates m v p u w s c x :
  selfmap m -> separate m -> below_tables v -> addr32 p -> below_tables x ->
  pde_exists (pde_at m (v / 4194304)) = true ->
  translate (<[pte_word m v := enc_pte (new_pte p u w s c)]> (phys m)) (paging_curpd m) x =
    if decide (x / 4096 = v / 4096) then Some (p / 4096 * 4096 + x mod 4096)
    else translate (phys m) (paging_curpd m) x.
Proof.
  intros Hs Hsep Hv Hp Hxb Hx.
  pose proof (translate_hw (set_phys m (<[pte_word m v := enc_pte (new_pte p u w s c)]> (phys m))) x) as T.
  cbn [phys set_phys paging_curpd] in T. rewrite T, translate_hw, hw_pte_write by done.
  case_decide; [|done]. rewrite dec_enc_pte. simpl.
  unfold ADDR2PAGE. by rewrite w32_small.
Qed.

Lemma hw_pte_page m v u : u / 4096 = v / 4096 -> hw_pte m u = hw_pte m v.
Proof.
  intros E. unfold hw_pte. rewrite E.
  assert (Hd : forall x, x / 4194304 = x / 4096 / 1024) by (intros; by rewrite Z.div_div by lia).
  by rewrite !Hd, E.
Qed.

Lemma setpte_missing m v pte :
  selfmap m -> addr32 v -> pde_exists (pde_at m (v / 4194304)) = false -> paging_setpte v pte m = Ret (-1) m.
Proof.
  intros Hs Hv Hx. unfold paging_setpte. by rewrite (bind_Ret _ _ _ _ _ (getpde_ok m v Hs Hv)), Hx.
Qed.

(** C20: unmapping returns the frame that was mapped (NULL if none was), removes
    the translation of that page only, and keeps the self-map; without a table
    nothing changes. *)
Theorem paging_unmap_correct m v :
  selfmap m -> separate m -> below_tables v -> 0 <= page (hw_pte m v) < 1048576 ->
  exists m', paging_unmap v m =
      Ret (match translate (phys m) (paging_curpd m) v with
           | Some p => p / 4096 * 4096 | None => NULL end) m' /\
    selfmap m' /\ separate m' /\
    (forall x, below_tables x -> translate (phys m') (paging_curpd m') x =
      if decide (x / 4096 = v / 4096) then None else translate (phys m) (paging_curpd m) x) /\
    (pde_exists (pde_at m (v / 4194304)) = false -> m' = m).
Proof.
  intros Hs Hsep Hv Hp. pose proof (below_pde v Hv) as [Hva _].
  unfold paging_unmap. rewrite (bind_Ret _ _ _ _ _ (getpte_ok m v Hs Hva)), translate_hw.
  assert (Hret : (if in_memory (hw_pte m v) then PAGE2ADDR (page (hw_pte m v)) else NULL) =
    match (if in_memory (hw_pte m v) then Some (page (hw_pte m v) * 4096 + v mod 4096) else None) with
    | Some p => p / 4096 * 4096 | None => NULL end).
  { destruct (in_memory (hw_pte m v)); [|done]. unfold PAGE2ADDR. rewrite w32_small by lia.
    pose proof (Z.mod_pos_bound v 4096 ltac:(lia)). f_equal. apply (Z.div_unique _ _ _ (v mod 4096)); lia. }
  destruct (pde_exists (pde_at m (v / 4194304))) eqn:Hx.
  - rewrite (bind_Ret _ _ _ _ _ (setpte_ok m v pte0 Hs Hva Hx)), <- Hret. eexists. split; [done|].
    destruct (set_pte_selfmap m v (enc_pte pte0) Hs Hsep Hv Hx) as (H1 & H2).
    split_and!; [done|done| |done]. intros x Hxb. rewrite !translate_hw. rewrite hw_pte_write by done. by case_decide.
  - rewrite (bind_Ret _ _ _ _ _ (setpte_missing m v pte0 Hs Hva Hx)), <- Hret. exists m.
    split_and!; [done..| |done]. intros x Hxb. case_decide as E; [|done].
    rewrite translate_hw, (hw_pte_page m v x E). unfold hw_pte. by rewrite Hx.
Qed.

(** The general functions at the loaded directory are the special ones. *)
Lemma getpde_pd_cur v m : paging_getpde_pd v (paging_curpd m) m = paging_getpde v m.
Proof. unfold paging_getpde_pd, gets, mbind at 1, cmd_bind at 1. by rewrite Z.eqb_refl. Qed.

(** ** The stack of free pages *)

(** [memphys_stackend] is never below the stack pointer, so the branch of
    [memphys_pop] that gives a stack page back is dead. *)
Definition stack_ok (m : mach) : Prop :=
  memphys_stackbase m <= memphys_stackptr m <= memphys_stackend m.

Lemma pop_branch_dead m : stack_ok m ->
  (PAGE_SIZE <? (memphys_stackptr m - memphys_stackend m) / 4) = false.
Proof.
  intros H. apply Z.ltb_ge. unfold stack_ok in H.
  pose proof (Z.div_le_mono (memphys_stackptr m - memphys_stackend m) 0 4 ltac:(lia) ltac:(lia)).
  change (0 / 4) with 0 in *. lia.
Qed.

Lemma memphys_pop_ok m f :
  selfmap m -> stack_ok m -> memphys_stackbase m < memphys_stackptr m ->
  translate (phys m) (paging_curpd m) (memphys_stackptr m - 4) = Some f ->
  memphys_pop m = Ret (rd (phys m) f)
    (set_stack m (memphys_stackbase m) (memphys_stackend m) (memphys_stackptr m - 4)).
Proof.
  intros Hs Hok Hlt Hf. unfold memphys_pop, gets, mbind, cmd_bind.
  apply Z.ltb_lt in Hlt as ->. rewrite pop_branch_dead by done. unfold modify, vload, resolve. simpl.
  pose proof Hs as (-> & _). by rewrite Hf.
Qed.

(** The top of the stack of free pages is [frame]. *)
Definition free_frame (m : mach) (frame : Z) : Prop :=
  stack_ok m /\ memphys_stackbase m < memphys_stackptr m /\ addr32 frame /\
  exists f, translate (phys m) (paging_curpd m) (memphys_stackptr m - 4) = Some f /\ rd (phys m) f = frame.

(** ** A new page table *)

Definition set_pde (m : mach) (d : Z) (pde : pde_t) : mach :=
  set_phys m (<[paging_curpd m + 4 * d := enc_pde pde]> (phys m)).

(** A frame that can become a table: it is neither the directory nor a table. *)
Definition table_frame (m : mach) (pg : Z) : Prop :=
  addr32 pg /\ pg / 4096 * 4096 <> paging_curpd m /\
  forall d, 0 <= d < 1023 -> pde_exists (pde_at m d) = true -> pde_page (pde_at m d) <> pg / 4096.

Lemma setpde_ok m v pde : selfmap m -> addr32 v -> paging_setpde v pde m = Ret 0 (set_pde m (v / 4194304) pde).
Proof.
  intros Hs Hv. destruct (addr2pde v Hv) as [Hd Hr].
  unfold paging_setpde, gets, mbind, cmd_bind, pde_slot, vstore.
  pose proof Hs as (-> & _). rewrite resolve_pd by done. by rewrite Hd.
Qed.

Lemma pde_at_set m d pde d' : pde_at (set_pde m d pde) d' = if decide (d' = d) then pde else pde_at m d'.
Proof.
  unfold pde_at, set_pde. cbn [phys set_phys paging_curpd]. rewrite rd_insert.
  destruct (decide (d' = d)) as [->|]; [rewrite decide_True by done; apply dec_enc_pde|].
  by rewrite decide_False by lia.
Qed.

Lemma set_pde_selfmap m d pg :
  selfmap m -> separate m -> 0 <= d < 1023 -> pde_exists (pde_at m d) = false -> table_frame m pg ->
  selfmap (set_pde m d (new_pde (pg / 4096))) /\ separate (set_pde m d (new_pde (pg / 4096))).
Proof.
  intros (H1 & H2 & H3 & H4 & H5) [Hs1 Hs2] Hd Hx (_ & Hn & Hf). split.
  - unfold selfmap. rewrite pde_at_set, decide_False by lia. done.
  - split; intros e; [|intros e']; rewrite !pde_at_set; cbn [set_pde set_phys paging_curpd].
    + case_decide; [done|]. apply Hs1.
    + intros He He' Hne. case_decide; case_decide; subst; try done; cbn [new_pde pde_page].
      * intros _ Hx'. specialize (Hf e' He' Hx'). done.
      * intros Hx' _. by apply Hf.
      * by apply Hs2.
Qed.

(** Clearing a table entry by entry. *)
Lemma clear_table m d n i :
  selfmap m -> separate m -> 0 <= d < 1023 -> pde_exists (pde_at m d) = true ->
  0 <= i -> i + Z.of_nat n <= 1024 ->
  exists m', for_from n i (fun j => vstore (PAGETABLES_ADDRESS + d * PAGE_SIZE + 4 * j) 0) m = Ret tt m' /\
    selfmap m' /\ separate m' /\ paging_curpd m' = paging_curpd m /\
    (forall e, 0 <= e < 1024 -> pde_at m' e = pde_at m e) /\
    (forall j, i <= j < i + Z.of_nat n -> rd (phys m') (pde_page (pde_at m d) * 4096 + 4 * j) = 0) /\
    (forall a, (forall j, i <= j < i + Z.of_nat n -> a <> pde_page (pde_at m d) * 4096 + 4 * j) ->
       rd (phys m') a = rd (phys m) a).
Proof.
  revert m i. induction n as [|n IH]; intros m i Hs Hsep Hd Hx Hi Hn.
  { exists m. split_and!; try done. intros j Hj. lia. }
  set (v := d * 4194304 + i * 4096 + 0).
  destruct (vaddr_split d i 0) as (V1 & V2 & _); [lia..|]. fold v in V1, V2.
  assert (Hv : below_tables v) by (unfold below_tables, PAGETABLES_ADDRESS, v; lia).
  assert (Hx' : pde_exists (pde_at m (v / 4194304)) = true) by by rewrite V1.
  set (m1 := set_phys m (<[pte_word m v := 0]> (phys m))).
  destruct (set_pte_selfmap m v 0 Hs Hsep Hv Hx') as [Hs1 Hsep1]. fold m1 in Hs1, Hsep1.
  assert (Hp1 : forall e, 0 <= e < 1024 -> pde_at m1 e = pde_at m e) by (intros; by apply pde_at_pte_write).
  assert (Hw : pte_word m v = pde_page (pde_at m d) * 4096 + 4 * i) by (unfold pte_word; by rewrite V1, V2).
  destruct (IH m1 (i + 1) Hs1 Hsep1 Hd) as (m' & Hrun & Hs' & Hsep' & Hc & Hp & Hz & Ho); [by rewrite Hp1 by lia|lia..|].
  rewrite (Hp1 d) in Hz, Ho by lia. exists m'. split_and!; [|done|done|done|..].
  - cbn [for_from]. rewrite (bind_Ret _ _ m tt m1); [done|]. unfold vstore.
    rewrite resolve_pt by (auto; lia). unfold m1. by rewrite Hw.
  - intros e He. by rewrite Hp, Hp1.
  - intros j Hj. destruct (decide (j = i)) as [->|]; [|apply Hz; lia].
    rewrite Ho by (intros; lia). unfold m1. cbn [phys set_phys]. by rewrite rd_insert, decide_True.
  - intros a Ha. rewrite Ho by (intros; apply Ha; lia). unfold m1. cbn [phys set_phys].
    rewrite rd_insert, decide_False; [done|]. rewrite Hw. intros E. apply (Ha i); lia.
Qed.

(** A fresh, cleared table changes no translation. *)
Lemma new_table_ok m v pg :
  selfmap m -> separate m -> below_tables v -> pde_exists (pde_at m (v / 4194304)) = false -> table_frame m pg ->
  exists m', (paging_setpde v (new_pde (ADDR2PAGE pg));;
              clear_words (PAGETABLES_ADDRESS + ADDR2PDE v * PAGE_SIZE) (PAGE_SIZE / 4)) m = Ret tt m' /\
    selfmap m' /\ separate m' /\ paging_curpd m' = paging_curpd m /\
    pde_exists (pde_at m' (v / 4194304)) = true /\ forall x, below_tables x -> hw_pte m' x = hw_pte m x.
Proof.
  intros Hs Hsep Hv Hx Hf. pose proof (below_pde v Hv) as [Hva Hvd]. destruct (addr2pde v Hva) as [Ed _].
  pose proof Hf as (Hpg & _). unfold ADDR2PAGE. rewrite w32_small by done.
  set (d := v / 4194304) in *. destruct (set_pde_selfmap m d pg Hs Hsep Hvd Hx Hf) as [Hs1 Hsep1].
  set (m1 := set_pde m d (new_pde (pg / 4096))) in *.
  assert (Hd1 : pde_at m1 d = new_pde (pg / 4096)) by (unfold m1; by rewrite pde_at_set, decide_True).
  destruct (clear_table m1 d 1024 0 Hs1 Hsep1 Hvd) as (m' & Hrun & Hs' & Hsep' & Hc & Hp & Hz & Ho); [by rewrite Hd1|lia..|].
  exists m'. split_and!; [|done|done|done|by rewrite Hp, Hd1 by lia|].
  - rewrite (bind_Ret _ _ _ _ _ (setpde_ok m v _ Hs Hva)). fold d. rewrite Ed. exact Hrun.
  - intros x Hxb. pose proof (below_pde x Hxb) as [_ Hxd]. pose proof (Z.mod_pos_bound (x / 4096) 1024 ltac:(lia)).
    unfold hw_pte. rewrite Hp by lia. destruct (decide (x / 4194304 = d)) as [E|E].
    + rewrite E, Hx. rewrite Hz by lia. by rewrite Hd1.
    + assert (Hxe : pde_at m1 (x / 4194304) = pde_at m (x / 4194304)) by (unfold m1; by rewrite pde_at_set, decide_False).
      rewrite Hxe. destruct (pde_exists (pde_at m (x / 4194304))) eqn:Hxx; [|done]. rewrite Ho.
      * unfold m1, set_pde. cbn [phys set_phys]. rewrite rd_insert, decide_False; [done|].
        intros E'. apply (proj1 Hsep _ Hxd Hxx). pose proof (proj1 (proj2 Hs)) as Hal.
        pose proof (Z.div_mod (paging_curpd m) 4096 ltac:(lia)). lia.
      * intros j Hj. rewrite Hd1. cbn [new_pde pde_page]. destruct Hf as (_ & _ & Hf). specialize (Hf _ Hxd Hxx). lia.
Qed.

(** The first half of [paging_map_ext]: the table is there afterwards. *)
Lemma ensure_table m v pg :
  selfmap m -> separate m -> below_tables v ->
  (pde_exists (pde_at m (v / 4194304)) = false -> free_frame m pg /\ table_frame m pg) ->
  exists m1, (if negb (pde_exists (pde_at m (v / 4194304))) then
      let pagetable := PAGETABLES_ADDRESS + ADDR2PDE v * PAGE_SIZE in
      pg ← memphys_pop;
      paging_setpde v (new_pde (ADDR2PAGE pg));; clear_words pagetable (PAGE_SIZE / 4)
    else mret tt) m = Ret tt m1 /\ selfmap m1 /\ separate m1 /\
    pde_exists (pde_at m1 (v / 4194304)) = true /\ forall x, below_tables x -> hw_pte m1 x = hw_pte m x.
Proof.
  intros Hs Hsep Hv Hnew. destruct (pde_exists (pde_at m (v / 4194304))) eqn:Hx; cbn [negb]; [by exists m|].
  destruct (Hnew eq_refl) as [(Hok & Hlt & _ & f & Hf & Hrd) Ht]. cbv zeta.
  rewrite (bind_Ret _ _ _ _ _ (memphys_pop_ok m f Hs Hok Hlt Hf)), Hrd.
  destruct (new_table_ok (set_stack m (memphys_stackbase m) (memphys_stackend m) (memphys_stackptr m - 4)) v pg)
    as (m1 & H1 & H2 & H3 & _ & H4 & H5); [done..|]. exists m1. auto.
Qed.

(** C1: [paging_map] succeeds, makes the MMU translate the page to the given
    frame, leaves the translation of every other page (outside the table
    window) alone, and keeps the self-map; when the table is missing it takes
    a free page for it, which is cleared first. *)
Theorem paging_map_correct m v p u w s c pg :
  selfmap m -> separate m -> below_tables v -> addr32 p ->
  (pde_exists (pde_at m (v / 4194304)) = false -> free_frame m pg /\ table_frame m pg) ->
  exists m', paging_map_ext v p u w s c m = Ret 0 m' /\ selfmap m' /\ separate m' /\
    forall x, below_tables x ->
      translate (phys m') (paging_curpd m') x =
        if decide (x / 4096 = v / 4096) then Some (p / 4096 * 4096 + x mod 4096)
        else translate (phys m) (paging_curpd m) x.
Proof.
  intros Hs Hsep Hv Hp Hnew. pose proof (below_pde v Hv) as [Hva _].
  destruct (ensure_table m v pg Hs Hsep Hv Hnew) as (m1 & Hrun & Hs1 & Hsep1 & Hx1 & Hhw).
  destruct (set_pte_selfmap m1 v (enc_pte (new_pte p u w s c)) Hs1 Hsep1 Hv Hx1) as (H1 & H2).
  eexists. split_and!; [|exact H1|exact H2|].
  - unfold paging_map_ext. rewrite (bind_Ret _ _ _ _ _ (getpde_ok m v Hs Hva)), (bind_Ret _ _ _ _ _ Hrun).
    by rewrite (bind_Ret _ _ _ _ _ (setpte_ok m1 v _ Hs1 Hva Hx1)).
  - intros x Hxb. cbn [phys set_phys paging_curpd]. rewrite map_translates by done.
    case_decide; [done|]. by rewrite !translate_hw, Hhw.
Qed.

(** Where the word at [a] lives is not a directory or table frame, so storing
    to it does not change translations of pages below the table window. *)
Definition data_frame (m : mach) (f : Z) : Prop :=
  0 <= f /\ f / 4096 * 4096 <> paging_curpd m /\
  forall d, 0 <= d < 1023 -> pde_exists (pde_at m d) = true -> pde_page (pde_at m d) <> f / 4096.

Lemma data_write_pde m f w d :
  selfmap m -> data_frame m f -> 0 <= d < 1024 ->
  pde_at (set_phys m (<[f := w]> (phys m))) d = pde_at m d.
Proof.
  intros (_ & Hal & _) (_ & Hne & _) Hd. unfold pde_at at 1. simpl. rewrite rd_insert.
  case_decide as E; [|done]. exfalso. apply Hne. subst f.
  pose proof (Z.div_mod (paging_curpd m) 4096 ltac:(lia)).
  replace ((paging_curpd m + 4 * d) / 4096) with (paging_curpd m / 4096)
    by (apply (Z.div_unique _ _ _ (4 * d)); lia). lia.
Qed.

Lemma data_write_hw m f w v :
  selfmap m -> data_frame m f -> below_tables v -> hw_pte (set_phys m (<[f := w]> (phys m))) v = hw_pte m v.
Proof.
  intros Hs Hf Hv. pose proof (below_pde v Hv) as [_ Hvd].
  unfold hw_pte. rewrite data_write_pde by (auto; lia). cbn [phys set_phys].
  destruct (pde_exists (pde_at m (v / 4194304))) eqn:Hx; [|done].
  rewrite rd_insert. case_decide as E; [|done]. exfalso.
  destruct Hf as (_ & _ & Hf). apply (Hf _ Hvd Hx). subst f.
  pose proof (Z.mod_pos_bound (v / 4096) 1024 ltac:(lia)).
  apply (Z.div_unique _ _ _ (4 * (v / 4096 mod 1024))); lia.
Qed.

Lemma data_write_translate m f w v :
  selfmap m -> data_frame m f -> below_tables v ->
  translate (<[f := w]> (phys m)) (paging_curpd m) v = translate (phys m) (paging_curpd m) v.
Proof.
  intros Hs Hf Hv. pose proof (translate_hw (set_phys m (<[f := w]> (phys m))) v) as T.
  cbn [phys set_phys paging_curpd] in T. by rewrite T, translate_hw, data_write_hw.
Qed.

(** the page stack is last-in first-out: a page pushed where the stack has
    room is the page the next [memphys_pop] returns, the stack pointers are
    restored, and neither call changes a translation below the table window. *)
Theorem memphys_push_pop m addr f :
  selfmap m -> stack_ok m -> memphys_stackptr m < memphys_stackend m ->
  below_tables (memphys_stackptr m) -> addr <> NULL ->
  translate (phys m) (paging_curpd m) (memphys_stackptr m) = Some f -> data_frame m f ->
  exists m1 m2, memphys_push addr m = Ret tt m1 /\ memphys_pop m1 = Ret addr m2 /\
    memphys_stackptr m1 = memphys_stackptr m + 4 /\
    memphys_stackptr m2 = memphys_stackptr m /\ memphys_stackend m2 = memphys_stackend m /\
    (forall v, below_tables v ->
       translate (phys m2) (paging_curpd m2) v = translate (phys m) (paging_curpd m) v).
Proof.
  intros Hs Hok Hroom Hb Hn Hf Hd. pose proof Hs as (He & _). unfold stack_ok in Hok.
  unfold memphys_push. apply Z.eqb_neq in Hn as ->.
  unfold gets, mbind, cmd_bind. destruct (Z.eqb_spec (memphys_stackptr m) (memphys_stackend m)); [lia|].
  unfold vstore, resolve. rewrite He, Hf. unfold modify. eexists. eexists. split; [reflexivity|].
  unfold memphys_pop, gets, mbind, cmd_bind. simpl.
  destruct (Z.ltb_spec (memphys_stackbase m) (memphys_stackptr m + 4)); [|lia].
  destruct (Z.ltb_spec 4096 ((memphys_stackptr m + 4 - memphys_stackend m) / 4)) as [Hbad|_].
  { pose proof (Z.div_le_mono (memphys_stackptr m + 4 - memphys_stackend m) 4 4 ltac:(lia) ltac:(lia)).
    change (4 / 4) with 1 in *. lia. }
  unfold modify, vload, resolve. simpl. rewrite He.
  replace (memphys_stackptr m + 4 - 4) with (memphys_stackptr m) by lia.
  rewrite (data_write_translate m f addr _ Hs Hd Hb), Hf, rd_insert, decide_True by done.
  split; [reflexivity|]. simpl. repeat split. intros v Hv. by apply data_write_translate.
Qed.

(** [memphys_memleft] wraps: it is the free memory in bytes only while
    fewer than 2^18 pages (1 GB) are on the stack, and with exactly that many
    it answers 0. *)
Theorem memphys_memleft_wraps m n :
  memphys_stackptr m = memphys_stackbase m + 4 * n -> 0 <= n ->
  (n < 262144 -> memphys_memleft m = n * PAGE_SIZE) /\ (n = 262144 -> memphys_memleft m = 0).
Proof.
  intros E Hn. unfold memphys_memleft. rewrite E.
  replace ((memphys_stackbase m + 4 * n - memphys_stackbase m) * 4096) with (n * 4096 * 4) by lia.
  split; intros H.
  - rewrite w32_small by lia. apply Z.div_mul. lia.
  - subst n. reflexivity.
Qed.

(** ** Reading another directory through the buffer page *)

Lemma translate_offset ph cr3 v o : v mod 4096 = 0 -> 0 <= o < 4096 ->
  translate ph cr3 (v + o) = (fun p => p + o) <$> translate ph cr3 v.
Proof.
  intros Hv Ho. pose proof (Z.div_mod v 4096 ltac:(lia)).
  assert (E : (v + o) / 4096 = v / 4096) by (symmetry; apply (Z.div_unique _ _ _ o); lia).
  assert (Em : (v + o) mod 4096 = o) by (symmetry; apply (Z.mod_unique _ _ (v / 4096)); lia).
  unfold translate. change 4194304 with (4096 * 1024). rewrite <- !Z.div_div, E, Em, Hv by lia.
  destruct (pde_exists _); [|done]. destruct (in_memory _); [|done]. simpl. f_equal. lia.
Qed.

(** The cache of the buffer page tells the truth. *)
Definition buffer_ok (m : mach) : Prop :=
  paging_physrw_lastpd m = paging_curpd m ->
  translate (phys m) (paging_curpd m) BUFPAGE_ADDRESS = Some (paging_physrw_lastpage m).

Lemma pagedown_off v : addr32 v ->
  PAGEDOWN v / 4096 * 4096 = PAGEDOWN v /\ PAGEDOWN v + PAGEOFF v = v /\
  0 <= PAGEOFF v < 4096 /\ addr32 (PAGEDOWN v).
Proof.
  intros Hv. unfold PAGEDOWN, PAGEOFF. rewrite w32_small by done. unfold addr32 in *.
  pose proof (Z.div_mod v 4096 ltac:(lia)). pose proof (Z.mod_pos_bound v 4096 ltac:(lia)).
  pose proof (Z.div_pos v 4096 ltac:(lia) ltac:(lia)). rewrite Z.div_mul by lia. lia.
Qed.

Lemma buffer_load m p o : paging_enabled m = true -> 0 <= o < 4096 ->
  translate (phys m) (paging_curpd m) BUFPAGE_ADDRESS = Some p ->
  vload (BUFPAGE_ADDRESS + o) m = Ret (rd (phys m) (p + o)) m.
Proof.
  intros He Ho Ht. unfold vload, resolve. by rewrite He, translate_offset, Ht.
Qed.

Lemma map_buffer_ok m rounded :
  selfmap m -> separate m -> addr32 rounded -> rounded / 4096 * 4096 = rounded ->
  pde_exists (pde_at m (BUFPAGE_ADDRESS / 4194304)) = true ->
  exists m', map_buffer rounded m = Ret true m' /\ selfmap m' /\ separate m' /\ buffer_ok m' /\
    paging_curpd m' = paging_curpd m /\
    translate (phys m') (paging_curpd m') BUFPAGE_ADDRESS = Some rounded /\
    (forall a, a <> pte_word m BUFPAGE_ADDRESS -> rd (phys m') a = rd (phys m) a).
Proof.
  intros Hs Hsep Ha Hr Hx.
  assert (Hb : below_tables BUFPAGE_ADDRESS) by (unfold below_tables, BUFPAGE_ADDRESS, PAGETABLES_ADDRESS; lia).
  unfold map_buffer, paging_map. rewrite (bind_Ret _ _ _ _ _ (map_exact m _ _ _ _ _ _ Hs Hb Hx)).
  eexists. split; [reflexivity|]. cbv beta.
  destruct (set_pte_selfmap m BUFPAGE_ADDRESS (enc_pte (new_pte rounded false true false false)) Hs Hsep Hb Hx)
    as (H1 & H2). split; [done|]. split; [done|].
  assert (Ht : translate (<[pte_word m BUFPAGE_ADDRESS := enc_pte (new_pte rounded false true false false)]> (phys m))
      (paging_curpd m) BUFPAGE_ADDRESS = Some rounded).
  { rewrite map_translates, decide_True by done. by rewrite Hr, Z.add_0_r. }
  split; [by intros _|]. split; [done|]. split; [done|].
  intros a Hne. simpl. by rewrite rd_insert, decide_False.
Qed.

(** [paging_physread] of a word delivers the word at that physical
    address, whatever was in the buffer page before, and changes physical
    memory at most in the table entry of the buffer page. *)
Theorem physread_word_correct m src :
  selfmap m -> separate m -> buffer_ok m -> addr32 src ->
  pde_exists (pde_at m (BUFPAGE_ADDRESS / 4194304)) = true ->
  src <> pte_word m BUFPAGE_ADDRESS ->
  exists m', physread_word src m = Ret (rd (phys m) src) m' /\
    selfmap m' /\ separate m' /\ buffer_ok m' /\ paging_curpd m' = paging_curpd m /\
    (forall a, a <> pte_word m BUFPAGE_ADDRESS -> rd (phys m') a = rd (phys m) a).
Proof.
  intros Hs Hsep Hbuf Hsrc Hx Hne.
  destruct (pagedown_off src Hsrc) as (Hdn & Hsum & Hoff & Hpa). unfold physread_word.
  rewrite (bind_Ret (gets (buffered (PAGEDOWN src))) _ m (buffered (PAGEDOWN src) m) m) by done.
  destruct (buffered (PAGEDOWN src) m) eqn:Hhit.
  - unfold buffered in Hhit. apply andb_true_iff in Hhit as [H1%Z.eqb_eq H2%Z.eqb_eq].
    specialize (Hbuf (eq_sym H2)) as Ht. rewrite <- H1 in Ht.
    exists m. split; [|done]. simpl. rewrite bind_ret. simpl. pose proof Hs as (He & _).
    by rewrite (buffer_load m _ _ He Hoff Ht), Hsum.
  - destruct (map_buffer_ok m (PAGEDOWN src) Hs Hsep Hpa Hdn Hx)
      as (m' & E & H1 & H2 & H3 & H4 & H5 & H6).
    exists m'. split; [|done]. simpl. rewrite (bind_Ret _ _ _ _ _ E). simpl. pose proof H1 as (He & _).
    by rewrite (buffer_load m' _ _ He Hoff H5), Hsum, H6.
Qed.

(** ** Concrete machines *)

(** [paging_init] on cleared memory: the kernel's first three megabytes are
    mapped to themselves, the fourth is not mapped, and the directory maps
    itself. *)
Definition boot : mach := Mach ∅ false 0 0 0 0 0 0 0 [].

Definition boot_check (m : mach) : bool :=
  forallb (fun i => bool_decide (translate (phys m) (paging_curpd m) (i * 4096) = Some (i * 4096)))
    (Z.of_nat <$> seq 0 768) &&
  bool_decide (translate (phys m) (paging_curpd m) STACKDATA_ADDRESS = None) &&
  bool_decide (translate (phys m) (paging_curpd m) PAGEDIR_ADDRESS = Some (paging_curpd m)).

Example paging_init_boot :
  match paging_init boot with Ret r m => (r =? 0) && boot_check m | Stop _ _ => false end = true.
Proof. vm_cast_no_check (eq_refl true). Qed.

(** A directory at frame 1 that maps itself and has one table, at frame 2,
    whose first entry maps page 0 to frame 3. *)
Definition demo : mach :=
  Mach (<[8188 := enc_pde (new_pde 1)]> (<[4096 := enc_pde (new_pde 2)]>
       (<[8192 := enc_pte (new_pte 12288 false true false false)]> ∅)))
    true 4096 4096 0 0 0 2048 1024 [].

Lemma demo_pde d : 0 <= d < 1024 ->
  pde_at demo d = if decide (d = 1023) then new_pde 1 else if decide (d = 0) then new_pde 2 else pde0.
Proof.
  intros Hd. unfold pde_at, demo. cbn [phys paging_curpd]. rewrite !rd_insert.
  case_decide; [rewrite decide_True by lia; by vm_compute|]. rewrite (decide_False (P := d = 1023)) by lia.
  case_decide; [rewrite decide_True by lia; by vm_compute|]. rewrite (decide_False (P := d = 0)) by lia.
  case_decide; [lia|]. unfold rd. by rewrite lookup_empty.
Qed.

Lemma demo_selfmap : selfmap demo.
Proof. unfold selfmap. rewrite demo_pde by lia. repeat split; vm_compute; congruence. Qed.

Lemma demo_separate : separate demo.
Proof.
  split.
  - intros d Hd. rewrite demo_pde by lia. rewrite decide_False by lia.
    case_decide; [by vm_compute|done].
  - intros d d' Hd Hd' Hne. rewrite !demo_pde by lia. rewrite !(decide_False (P := _ = 1023)) by lia.
    case_decide; case_decide; try done. lia.
Qed.

Lemma demo_below v : 0 <= v < 4194304 -> below_tables v.
Proof. unfold below_tables, PAGETABLES_ADDRESS. lia. Qed.

Lemma selfmap_reads_hardware_witness :
  paging_getpde 5 demo = Ret (pde_at demo 0) demo /\
  paging_getpte 5 demo = Ret (hw_pte demo 5) demo /\
  (pte_exists (hw_pte demo 5) = true -> 0 <= page (hw_pte demo 5) < 1048576 ->
   paging_getphysaddr 5 demo = Ret (default NULL (translate (phys demo) 4096 5)) demo).
Proof. apply (selfmap_reads_hardware demo 5); [exact demo_selfmap|unfold addr32; lia]. Defined.

(** [demo] with frame 7 on top of the stack of free pages. *)
Definition demo1 : mach := set_phys demo (<[13308 := 28672]> (phys demo)).

Lemma demo1_pde d : 0 <= d < 1024 -> pde_at demo1 d = pde_at demo d.
Proof.
  intros Hd. unfold pde_at, demo1. cbn [phys set_phys paging_curpd]. rewrite rd_insert.
  change (paging_curpd demo) with 4096. by rewrite decide_False by lia.
Qed.

Lemma demo1_ok : selfmap demo1 /\ separate demo1.
Proof.
  destruct demo_separate as [H1 H2]. split; [|split].
  - unfold selfmap. rewrite demo1_pde by lia. exact demo_selfmap.
  - intros d Hd. rewrite demo1_pde by lia. by apply H1.
  - intros d d' Hd Hd'. rewrite !demo1_pde by lia. by apply H2.
Qed.

(** The second table is missing. *)
Lemma paging_map_correct_witness :
  exists m', paging_map_ext 4194304 20480 true true false false demo1 = Ret 0 m' /\ selfmap m' /\ separate m' /\
  forall x, below_tables x ->
      translate (phys m') (paging_curpd m') x =
        if decide (x / 4096 = 4194304 / 4096) then Some (20480 / 4096 * 4096 + x mod 4096)
        else translate (phys demo1) (paging_curpd demo1) x.
Proof.
  apply (paging_map_correct demo1 4194304 20480 true true false false 28672).
  - apply demo1_ok.
  - apply demo1_ok.
  - unfold below_tables, PAGETABLES_ADDRESS. lia.
  - unfold addr32. lia.
  - intros _. split.
    + split; [unfold stack_ok; simpl; lia|]. split; [simpl; lia|]. split; [unfold addr32; lia|].
      exists 13308. split; vm_compute; reflexivity.
    + split; [unfold addr32; lia|]. split; [vm_compute; discriminate|].
      intros d Hd. rewrite demo1_pde, demo_pde by lia. rewrite decide_False by lia. case_decide; by vm_compute.
Defined.

Lemma paging_unmap_correct_witness :
  exists m', paging_unmap 0 demo = Ret 12288 m' /\ selfmap m' /\ separate m' /\
  (forall x, below_tables x -> translate (phys m') (paging_curpd m') x =
      if decide (x / 4096 = 0) then None else translate (phys demo) (paging_curpd demo) x) /\
  (pde_exists (pde_at demo 0) = false -> m' = demo).
Proof.
  apply (paging_unmap_correct demo 0 demo_selfmap demo_separate).
  - apply demo_below. lia.
  - vm_compute. split; congruence.
Defined.

Lemma memphys_push_pop_witness :
  exists m1 m2, memphys_push 28672 demo = Ret tt m1 /\ memphys_pop m1 = Ret 28672 m2 /\
  memphys_stackptr m1 = 1028 /\ memphys_stackptr m2 = 1024 /\ memphys_stackend m2 = 2048 /\
  (forall v, below_tables v ->
       translate (phys m2) (paging_curpd m2) v = translate (phys demo) (paging_curpd demo) v).
Proof.
  apply (memphys_push_pop demo 28672 13312 demo_selfmap).
  - unfold stack_ok. simpl. lia.
  - simpl. lia.
  - apply demo_below. simpl. lia.
  - unfold NULL. lia.
  - vm_compute. reflexivity.
  - split; [lia|]. split; [vm_compute; congruence|]. intros d Hd. rewrite demo_pde by lia.
    rewrite decide_False by lia. case_decide; [by vm_compute|done].
Defined.

Lemma memphys_memleft_wraps_witness :
  (256 < 262144 -> memphys_memleft demo = 256 * PAGE_SIZE) /\ (256 = 262144 -> memphys_memleft demo = 0).
Proof. apply (memphys_memleft_wraps demo 256); [reflexivity|lia]. Defined.

(** [demo] with a second table, at frame 4, for the buffer page. *)
Definition demo2 : mach := set_phys demo (<[4096 + 4 * 1022 := enc_pde (new_pde 4)]> (phys demo)).

Lemma demo2_pde d : 0 <= d < 1024 ->
  pde_at demo2 d = if decide (d = 1022) then new_pde 4 else pde_at demo d.
Proof.
  intros Hd. unfold pde_at, demo2. cbn [phys set_phys paging_curpd]. rewrite rd_insert.
  change (paging_curpd demo) with 4096.
  case_decide; [rewrite decide_True by lia; by vm_compute|]. by rewrite decide_False by lia.
Qed.

Lemma demo2_ok : selfmap demo2 /\ separate demo2.
Proof.
  split; [|split].
  - unfold selfmap. rewrite demo2_pde by lia. rewrite decide_False by lia. exact demo_selfmap.
  - intros d Hd. rewrite demo2_pde, demo_pde by lia. repeat case_decide; try lia; by vm_compute.
  - intros d d' Hd Hd' Hne. rewrite !demo2_pde, !demo_pde by lia.
    repeat case_decide; try lia; by vm_compute.
Qed.

Lemma physread_word_correct_witness :
  exists m', physread_word 12292 demo2 = Ret (rd (phys demo2) 12292) m' /\
    selfmap m' /\ separate m' /\ buffer_ok m' /\ paging_curpd m' = 4096 /\
    (forall a, a <> pte_word demo2 BUFPAGE_ADDRESS -> rd (phys m') a = rd (phys demo2) a).
Proof.
  apply (physread_word_correct demo2 12292).
  - apply demo2_ok.
  - apply demo2_ok.
  - intros H. vm_compute in H. discriminate H.
  - unfold addr32. lia.
  - vm_compute. reflexivity.
  - vm_compute. discriminate.
Defined.
