(* ===== verification/Kernel.v ===== *)
(** * The kernel state (kernel2/include: procm.h, memuser.h, ipc.h, ipc/msg.h,
    ipc/sem.h, ipc/shm.h, rpc.h, interrupt.h, swap.h, vm86.h, cpu.h)

    The structures of the kernel headers and its global variables.  Kernel
    objects are in one heap per type, indexed by address; [k_live] is the set
    of addresses in use, from which the allocator takes fresh ones.  A list
    header ([llist_t]) is the sequence it stands for (LList.v).  The values
    behind [interrupt_curregs] and [vm86_curregs] are the saved user context.
    Stores through user pointers are kept per loaded page directory in
    [k_user]. *)

From S2P Require Import Prelude LList Machine.

(** ** Processes (procm.h, vm86.h) *)

Record proc_registers := Regs {
  eax : Z;
  ebx : Z;
  ecx : Z;
  edx : Z;
  esi : Z;
  edi : Z;
  ebp : Z;
  esp : Z;
  eip : Z;
  efl : Z;
  cs : Z;
  ds : Z;
  es : Z;
  fs : Z;
  gs : Z;
  ss : Z;
}.

Record vm86_segmentregs := SegRegs {
  vm_es : Z;
  vm_ds : Z;
  vm_fs : Z;
  vm_gs : Z;
}.

Record proc_t := Proc {
  pid : Z;
  uid : Z;
  euid : Z;
  suid : Z;
  gid : Z;
  egid : Z;
  sgid : Z;
  system : Z;
  name : list Z;
  parent : Z;
  children : list Z;
  registers : proc_registers;
  addrspace : Z;
  nice : Z;
  ticks_rem : Z;
  is_sleeping : bool;
  var : Z;
  defunc : bool;
  ret : Z;
  signal : Z;
  is_vm86 : bool;
  vm86_pagedir : Z;
  wait : bool;
  wait_pid : Z;
  wait_stat : Z;
  vm86_segregs : vm86_segmentregs;
}.

(** ** Address spaces (memuser.h) *)

Record addrspace_t := AddrSpace {
  as_proc : Z;
  pages_loaded : list Z;
  pages_imaginary : list Z;
  pages_swapped : list Z;
  pagedir : Z;
  stack : Z;
}.

(** ** IPC objects (ipc.h, ipc/*.h) *)

Record ipc_obj_t := Obj {
  obj_type : Z;
  obj_id : Z;
  obj_key : Z;
  owner : Z;
  creator : Z;
  obj_mode : Z;
}.

Record ipc_msg_t := Msq {
  msg_ipc : ipc_obj_t;
  msgs : list Z;
  waiting : list Z;
  msg_mode : Z;
  lrpid : Z;
  lspid : Z;
  stime : Z;
  rtime : Z;
  msg_ctime : Z;
}.

Record ipc_msg_msg_t := Message {
  mm_msg : Z;
  mm_data : list Z;
  mm_size : Z;
  mm_type : Z;
  mm_flags : Z;
  mm_sender : Z;
}.

Record ipc_sem_sem_t := Sem {
  val : Z;
  sem_lopid : Z;
  waitn : list Z;
  waitz : list Z;
}.

Record ipc_sem_t := SemSet {
  sem_ipc : ipc_obj_t;
  num : Z;
  sems : list ipc_sem_sem_t;
  otime : Z;
  sem_ctime : Z;
}.

Record ipc_sem_sleepn_t := SleepN {
  sn_val : Z;
  sn_proc : Z;
}.

Record ipc_shm_t := Shm {
  shm_ipc : ipc_obj_t;
  shm_size : Z;
  num_pages : Z;
  shm_phys : list Z;
  atts : list Z;
  shm_lopid : Z;
  atime : Z;
  dtime : Z;
  shm_ctime : Z;
}.

Record ipc_shm_att_t := Att {
  att_shm : Z;
  att_proc : Z;
  att_virt : Z;
  att_readonly : Z;
}.

(** The objects in [ipc_objects] share their first member. *)
Inductive ipc_any :=
| IsMsg (x : ipc_msg_t)
| IsSem (x : ipc_sem_t)
| IsShm (x : ipc_shm_t).

Definition ipc_hdr (o : ipc_any) : ipc_obj_t :=
  match o with IsMsg x => msg_ipc x | IsSem x => sem_ipc x | IsShm x => shm_ipc x end.

(** ** RPC (rpc.h), interrupts (interrupt.h), swapping (swap.h) *)

Record rpc_call_t := RpcCall {
  caller : Z;
  params : list Z;
  ret_ptr : Z;
  ret_params : Z;
  error_ptr : Z;
}.

Record rpc_function_t := RpcFunction {
  rpc_id : Z;
  rpc_name : list Z;
  func : Z;
  synopsis : list Z;
  params_size : Z;
  rpc_owner : Z;
  calls : list Z;
  rpc_current : Z;
}.

Record interrupt_sleep_t := TimeSleep {
  sl_type : Z;
  sl_usec : Z;
  sl_proc : Z;
}.

Record interrupt_irq_t := Irq {
  irq_handler : bool;
  irq_proc : Z;
  irq_func : Z;
}.

Record swap_call_t := SwapCall {
  sw_op : Z;
  sw_pid : Z;
  sw_page : Z;
}.

(** ** The global variables *)

Record kernel := Kernel {
  k_mach : mach;
  k_live : gset Z;
  k_user : gmap (Z * Z) Z;
  k_procs : gmap Z proc_t;
  k_spaces : gmap Z addrspace_t;
  proc_all : list Z;
  proc_running : list Z;
  proc_sleeping : list Z;
  proc_nextpid : Z;
  proc_current : Z;
  curregs : proc_registers;
  vm86_curregs : vm86_segmentregs;
  ipc_objects : list Z;
  ipc_lastid : Z;
  k_ipc : gmap Z ipc_any;
  k_msgs : gmap Z ipc_msg_msg_t;
  k_sleepns : gmap Z ipc_sem_sleepn_t;
  k_atts : gmap Z ipc_shm_att_t;
  rpc_functions : list Z;
  rpc_lastid : Z;
  k_rpcs : gmap Z rpc_function_t;
  k_calls : gmap Z rpc_call_t;
  interrupt_sleep : list Z;
  k_sleeps : gmap Z interrupt_sleep_t;
  interrupt_irq : list (list Z);
  k_irqs : gmap Z interrupt_irq_t;
  cpu_ticks : Z;
  cpu_interval : Z;
  swap_queue : list Z;
  swap_proc : Z;
  swap_buf : Z;
  k_swapcalls : gmap Z swap_call_t;
}.

(** Field updates. *)

Definition set_eax (r : proc_registers) (x : Z) : proc_registers :=
  Regs x (ebx r) (ecx r) (edx r) (esi r) (edi r) (ebp r) (esp r) (eip r) (efl r) (cs r) (ds r)
    (es r) (fs r) (gs r) (ss r).
Definition set_esp (r : proc_registers) (x : Z) : proc_registers :=
  Regs (eax r) (ebx r) (ecx r) (edx r) (esi r) (edi r) (ebp r) x (eip r) (efl r) (cs r) (ds r)
    (es r) (fs r) (gs r) (ss r).
Definition set_eip (r : proc_registers) (x : Z) : proc_registers :=
  Regs (eax r) (ebx r) (ecx r) (edx r) (esi r) (edi r) (ebp r) (esp r) x (efl r) (cs r) (ds r)
    (es r) (fs r) (gs r) (ss r).
Definition set_efl (r : proc_registers) (x : Z) : proc_registers :=
  Regs (eax r) (ebx r) (ecx r) (edx r) (esi r) (edi r) (ebp r) (esp r) (eip r) x (cs r) (ds r)
    (es r) (fs r) (gs r) (ss r).
Definition set_cs (r : proc_registers) (x : Z) : proc_registers :=
  Regs (eax r) (ebx r) (ecx r) (edx r) (esi r) (edi r) (ebp r) (esp r) (eip r) (efl r) x
    (ds r) (es r) (fs r) (gs r) (ss r).
Definition set_ds (r : proc_registers) (x : Z) : proc_registers :=
  Regs (eax r) (ebx r) (ecx r) (edx r) (esi r) (edi r) (ebp r) (esp r) (eip r) (efl r) (cs r)
    x (es r) (fs r) (gs r) (ss r).
Definition set_es (r : proc_registers) (x : Z) : proc_registers :=
  Regs (eax r) (ebx r) (ecx r) (edx r) (esi r) (edi r) (ebp r) (esp r) (eip r) (efl r) (cs r)
    (ds r) x (fs r) (gs r) (ss r).
Definition set_fs (r : proc_registers) (x : Z) : proc_registers :=
  Regs (eax r) (ebx r) (ecx r) (edx r) (esi r) (edi r) (ebp r) (esp r) (eip r) (efl r) (cs r)
    (ds r) (es r) x (gs r) (ss r).
Definition set_gs (r : proc_registers) (x : Z) : proc_registers :=
  Regs (eax r) (ebx r) (ecx r) (edx r) (esi r) (edi r) (ebp r) (esp r) (eip r) (efl r) (cs r)
    (ds r) (es r) (fs r) x (ss r).
Definition set_ss (r : proc_registers) (x : Z) : proc_registers :=
  Regs (eax r) (ebx r) (ecx r) (edx r) (esi r) (edi r) (ebp r) (esp r) (eip r) (efl r) (cs r)
    (ds r) (es r) (fs r) (gs r) x.

Definition set_pid (r : proc_t) (x : Z) : proc_t :=
  Proc x (uid r) (euid r) (suid r) (gid r) (egid r) (sgid r) (system r) (name r) (parent r)
    (children r) (registers r) (addrspace r) (nice r) (ticks_rem r) (is_sleeping r) (var r)
    (defunc r) (ret r) (signal r) (is_vm86 r) (vm86_pagedir r) (wait r) (wait_pid r)
    (wait_stat r) (vm86_segregs r).
Definition set_uid (r : proc_t) (x : Z) : proc_t :=
  Proc (pid r) x (euid r) (suid r) (gid r) (egid r) (sgid r) (system r) (name r) (parent r)
    (children r) (registers r) (addrspace r) (nice r) (ticks_rem r) (is_sleeping r) (var r)
    (defunc r) (ret r) (signal r) (is_vm86 r) (vm86_pagedir r) (wait r) (wait_pid r)
    (wait_stat r) (vm86_segregs r).
Definition set_euid (r : proc_t) (x : Z) : proc_t :=
  Proc (pid r) (uid r) x (suid r) (gid r) (egid r) (sgid r) (system r) (name r) (parent r)
    (children r) (registers r) (addrspace r) (nice r) (ticks_rem r) (is_sleeping r) (var r)
    (defunc r) (ret r) (signal r) (is_vm86 r) (vm86_pagedir r) (wait r) (wait_pid r)
    (wait_stat r) (vm86_segregs r).
Definition set_suid (r : proc_t) (x : Z) : proc_t :=
  Proc (pid r) (uid r) (euid r) x (gid r) (egid r) (sgid r) (system r) (name r) (parent r)
    (children r) (registers r) (addrspace r) (nice r) (ticks_rem r) (is_sleeping r) (var r)
    (defunc r) (ret r) (signal r) (is_vm86 r) (vm86_pagedir r) (wait r) (wait_pid r)
    (wait_stat r) (vm86_segregs r).
Definition set_gid (r : proc_t) (x : Z) : proc_t :=
  Proc (pid r) (uid r) (euid r) (suid r) x (egid r) (sgid r) (system r) (name r) (parent r)
    (children r) (registers r) (addrspace r) (nice r) (ticks_rem r) (is_sleeping r) (var r)
    (defunc r) (ret r) (signal r) (is_vm86 r) (vm86_pagedir r) (wait r) (wait_pid r)
    (wait_stat r) (vm86_segregs r).
Definition set_egid (r : proc_t) (x : Z) : proc_t :=
  Proc (pid r) (uid r) (euid r) (suid r) (gid r) x (sgid r) (system r) (name r) (parent r)
    (children r) (registers r) (addrspace r) (nice r) (ticks_rem r) (is_sleeping r) (var r)
    (defunc r) (ret r) (signal r) (is_vm86 r) (vm86_pagedir r) (wait r) (wait_pid r)
    (wait_stat r) (vm86_segregs r).
Definition set_sgid (r : proc_t) (x : Z) : proc_t :=
  Proc (pid r) (uid r) (euid r) (suid r) (gid r) (egid r) x (system r) (name r) (parent r)
    (children r) (registers r) (addrspace r) (nice r) (ticks_rem r) (is_sleeping r) (var r)
    (defunc r) (ret r) (signal r) (is_vm86 r) (vm86_pagedir r) (wait r) (wait_pid r)
    (wait_stat r) (vm86_segregs r).
Definition set_system (r : proc_t) (x : Z) : proc_t :=
  Proc (pid r) (uid r) (euid r) (suid r) (gid r) (egid r) (sgid r) x (name r) (parent r)
    (children r) (registers r) (addrspace r) (nice r) (ticks_rem r) (is_sleeping r) (var r)
    (defunc r) (ret r) (signal r) (is_vm86 r) (vm86_pagedir r) (wait r) (wait_pid r)
    (wait_stat r) (vm86_segregs r).
Definition set_name (r : proc_t) (x : list Z) : proc_t :=
  Proc (pid r) (uid r) (euid r) (suid r) (gid r) (egid r) (sgid r) (system r) x (parent r)
    (children r) (registers r) (addrspace r) (nice r) (ticks_rem r) (is_sleeping r) (var r)
    (defunc r) (ret r) (signal r) (is_vm86 r) (vm86_pagedir r) (wait r) (wait_pid r)
    (wait_stat r) (vm86_segregs r).
Definition set_parent (r : proc_t) (x : Z) : proc_t :=
  Proc (pid r) (uid r) (euid r) (suid r) (gid r) (egid r) (sgid r) (system r) (name r) x
    (children r) (registers r) (addrspace r) (nice r) (ticks_rem r) (is_sleeping r) (var r)
    (defunc r) (ret r) (signal r) (is_vm86 r) (vm86_pagedir r) (wait r) (wait_pid r)
    (wait_stat r) (vm86_segregs r).
Definition set_children (r : proc_t) (x : list Z) : proc_t :=
  Proc (pid r) (uid r) (euid r) (suid r) (gid r) (egid r) (sgid r) (system r) (name r)
    (parent r) x (registers r) (addrspace r) (nice r) (ticks_rem r) (is_sleeping r) (var r)
    (defunc r) (ret r) (signal r) (is_vm86 r) (vm86_pagedir r) (wait r) (wait_pid r)
    (wait_stat r) (vm86_segregs r).
Definition set_registers (r : proc_t) (x : proc_registers) : proc_t :=
  Proc (pid r) (uid r) (euid r) (suid r) (gid r) (egid r) (sgid r) (system r) (name r)
    (parent r) (children r) x (addrspace r) (nice r) (ticks_rem r) (is_sleeping r) (var r)
    (defunc r) (ret r) (signal r) (is_vm86 r) (vm86_pagedir r) (wait r) (wait_pid r)
    (wait_stat r) (vm86_segregs r).
Definition set_addrspace (r : proc_t) (x : Z) : proc_t :=
  Proc (pid r) (uid r) (euid r) (suid r) (gid r) (egid r) (sgid r) (system r) (name r)
    (parent r) (children r) (registers r) x (nice r) (ticks_rem r) (is_sleeping r) (var r)
    (defunc r) (ret r) (signal r) (is_vm86 r) (vm86_pagedir r) (wait r) (wait_pid r)
    (wait_stat r) (vm86_segregs r).
Definition set_nice (r : proc_t) (x : Z) : proc_t :=
  Proc (pid r) (uid r) (euid r) (suid r) (gid r) (egid r) (sgid r) (system r) (name r)
    (parent r) (children r) (registers r) (addrspace r) x (ticks_rem r) (is_sleeping r)
    (var r) (defunc r) (ret r) (signal r) (is_vm86 r) (vm86_pagedir r) (wait r)
    (wait_pid r) (wait_stat r) (vm86_segregs r).
Definition set_ticks_rem (r : proc_t) (x : Z) : proc_t :=
  Proc (pid r) (uid r) (euid r) (suid r) (gid r) (egid r) (sgid r) (system r) (name r)
    (parent r) (children r) (registers r) (addrspace r) (nice r) x (is_sleeping r) (var r)
    (defunc r) (ret r) (signal r) (is_vm86 r) (vm86_pagedir r) (wait r) (wait_pid r)
    (wait_stat r) (vm86_segregs r).
Definition set_is_sleeping (r : proc_t) (x : bool) : proc_t :=
  Proc (pid r) (uid r) (euid r) (suid r) (gid r) (egid r) (sgid r) (system r) (name r)
    (parent r) (children r) (registers r) (addrspace r) (nice r) (ticks_rem r) x (var r)
    (defunc r) (ret r) (signal r) (is_vm86 r) (vm86_pagedir r) (wait r) (wait_pid r)
    (wait_stat r) (vm86_segregs r).
Definition set_var (r : proc_t) (x : Z) : proc_t :=
  Proc (pid r) (uid r) (euid r) (suid r) (gid r) (egid r) (sgid r) (system r) (name r)
    (parent r) (children r) (registers r) (addrspace r) (nice r) (ticks_rem r)
    (is_sleeping r) x (defunc r) (ret r) (signal r) (is_vm86 r) (vm86_pagedir r) (wait r)
    (wait_pid r) (wait_stat r) (vm86_segregs r).
Definition set_defunc (r : proc_t) (x : bool) : proc_t :=
  Proc (pid r) (uid r) (euid r) (suid r) (gid r) (egid r) (sgid r) (system r) (name r)
    (parent r) (children r) (registers r) (addrspace r) (nice r) (ticks_rem r)
    (is_sleeping r) (var r) x (ret r) (signal r) (is_vm86 r) (vm86_pagedir r) (wait r)
    (wait_pid r) (wait_stat r) (vm86_segregs r).
Definition set_ret (r : proc_t) (x : Z) : proc_t :=
  Proc (pid r) (uid r) (euid r) (suid r) (gid r) (egid r) (sgid r) (system r) (name r)
    (parent r) (children r) (registers r) (addrspace r) (nice r) (ticks_rem r)
    (is_sleeping r) (var r) (defunc r) x (signal r) (is_vm86 r) (vm86_pagedir r) (wait r)
    (wait_pid r) (wait_stat r) (vm86_segregs r).
Definition set_signal (r : proc_t) (x : Z) : proc_t :=
  Proc (pid r) (uid r) (euid r) (suid r) (gid r) (egid r) (sgid r) (system r) (name r)
    (parent r) (children r) (registers r) (addrspace r) (nice r) (ticks_rem r)
    (is_sleeping r) (var r) (defunc r) (ret r) x (is_vm86 r) (vm86_pagedir r) (wait r)
    (wait_pid r) (wait_stat r) (vm86_segregs r).
Definition set_is_vm86 (r : proc_t) (x : bool) : proc_t :=
  Proc (pid r) (uid r) (euid r) (suid r) (gid r) (egid r) (sgid r) (system r) (name r)
    (parent r) (children r) (registers r) (addrspace r) (nice r) (ticks_rem r)
    (is_sleeping r) (var r) (defunc r) (ret r) (signal r) x (vm86_pagedir r) (wait r)
    (wait_pid r) (wait_stat r) (vm86_segregs r).
Definition set_vm86_pagedir (r : proc_t) (x : Z) : proc_t :=
  Proc (pid r) (uid r) (euid r) (suid r) (gid r) (egid r) (sgid r) (system r) (name r)
    (parent r) (children r) (registers r) (addrspace r) (nice r) (ticks_rem r)
    (is_sleeping r) (var r) (defunc r) (ret r) (signal r) (is_vm86 r) x (wait r)
    (wait_pid r) (wait_stat r) (vm86_segregs r).
Definition set_wait (r : proc_t) (x : bool) : proc_t :=
  Proc (pid r) (uid r) (euid r) (suid r) (gid r) (egid r) (sgid r) (system r) (name r)
    (parent r) (children r) (registers r) (addrspace r) (nice r) (ticks_rem r)
    (is_sleeping r) (var r) (defunc r) (ret r) (signal r) (is_vm86 r) (vm86_pagedir r) x
    (wait_pid r) (wait_stat r) (vm86_segregs r).
Definition set_wait_pid (r : proc_t) (x : Z) : proc_t :=
  Proc (pid r) (uid r) (euid r) (suid r) (gid r) (egid r) (sgid r) (system r) (name r)
    (parent r) (children r) (registers r) (addrspace r) (nice r) (ticks_rem r)
    (is_sleeping r) (var r) (defunc r) (ret r) (signal r) (is_vm86 r) (vm86_pagedir r)
    (wait r) x (wait_stat r) (vm86_segregs r).
Definition set_wait_stat (r : proc_t) (x : Z) : proc_t :=
  Proc (pid r) (uid r) (euid r) (suid r) (gid r) (egid r) (sgid r) (system r) (name r)
    (parent r) (children r) (registers r) (addrspace r) (nice r) (ticks_rem r)
    (is_sleeping r) (var r) (defunc r) (ret r) (signal r) (is_vm86 r) (vm86_pagedir r)
    (wait r) (wait_pid r) x (vm86_segregs r).
Definition set_vm86_segregs (r : proc_t) (x : vm86_segmentregs) : proc_t :=
  Proc (pid r) (uid r) (euid r) (suid r) (gid r) (egid r) (sgid r) (system r) (name r)
    (parent r) (children r) (registers r) (addrspace r) (nice r) (ticks_rem r)
    (is_sleeping r) (var r) (defunc r) (ret r) (signal r) (is_vm86 r) (vm86_pagedir r)
    (wait r) (wait_pid r) (wait_stat r) x.

Definition set_as_proc (r : addrspace_t) (x : Z) : addrspace_t :=
  AddrSpace x (pages_loaded r) (pages_imaginary r) (pages_swapped r) (pagedir r) (stack r).
Definition set_pages_loaded (r : addrspace_t) (x : list Z) : addrspace_t :=
  AddrSpace (as_proc r) x (pages_imaginary r) (pages_swapped r) (pagedir r) (stack r).
Definition set_pages_imaginary (r : addrspace_t) (x : list Z) : addrspace_t :=
  AddrSpace (as_proc r) (pages_loaded r) x (pages_swapped r) (pagedir r) (stack r).
Definition set_pages_swapped (r : addrspace_t) (x : list Z) : addrspace_t :=
  AddrSpace (as_proc r) (pages_loaded r) (pages_imaginary r) x (pagedir r) (stack r).
Definition set_pagedir (r : addrspace_t) (x : Z) : addrspace_t :=
  AddrSpace (as_proc r) (pages_loaded r) (pages_imaginary r) (pages_swapped r) x (stack r).
Definition set_stack (r : addrspace_t) (x : Z) : addrspace_t :=
  AddrSpace (as_proc r) (pages_loaded r) (pages_imaginary r) (pages_swapped r) (pagedir r) x.

Definition set_obj_mode (r : ipc_obj_t) (x : Z) : ipc_obj_t :=
  Obj (obj_type r) (obj_id r) (obj_key r) (owner r) (creator r) x.

Definition set_msg_ipc (r : ipc_msg_t) (x : ipc_obj_t) : ipc_msg_t :=
  Msq x (msgs r) (waiting r) (msg_mode r) (lrpid r) (lspid r) (stime r) (rtime r)
    (msg_ctime r).
Definition set_msgs (r : ipc_msg_t) (x : list Z) : ipc_msg_t :=
  Msq (msg_ipc r) x (waiting r) (msg_mode r) (lrpid r) (lspid r) (stime r) (rtime r)
    (msg_ctime r).
Definition set_waiting (r : ipc_msg_t) (x : list Z) : ipc_msg_t :=
  Msq (msg_ipc r) (msgs r) x (msg_mode r) (lrpid r) (lspid r) (stime r) (rtime r)
    (msg_ctime r).
Definition set_msg_mode (r : ipc_msg_t) (x : Z) : ipc_msg_t :=
  Msq (msg_ipc r) (msgs r) (waiting r) x (lrpid r) (lspid r) (stime r) (rtime r)
    (msg_ctime r).
Definition set_lrpid (r : ipc_msg_t) (x : Z) : ipc_msg_t :=
  Msq (msg_ipc r) (msgs r) (waiting r) (msg_mode r) x (lspid r) (stime r) (rtime r)
    (msg_ctime r).
Definition set_lspid (r : ipc_msg_t) (x : Z) : ipc_msg_t :=
  Msq (msg_ipc r) (msgs r) (waiting r) (msg_mode r) (lrpid r) x (stime r) (rtime r)
    (msg_ctime r).
Definition set_stime (r : ipc_msg_t) (x : Z) : ipc_msg_t :=
  Msq (msg_ipc r) (msgs r) (waiting r) (msg_mode r) (lrpid r) (lspid r) x (rtime r)
    (msg_ctime r).
Definition set_rtime (r : ipc_msg_t) (x : Z) : ipc_msg_t :=
  Msq (msg_ipc r) (msgs r) (waiting r) (msg_mode r) (lrpid r) (lspid r) (stime r) x
    (msg_ctime r).
Definition set_msg_ctime (r : ipc_msg_t) (x : Z) : ipc_msg_t :=
  Msq (msg_ipc r) (msgs r) (waiting r) (msg_mode r) (lrpid r) (lspid r) (stime r) (rtime r) x.

Definition set_val (r : ipc_sem_sem_t) (x : Z) : ipc_sem_sem_t :=
  Sem x (sem_lopid r) (waitn r) (waitz r).
Definition set_sem_lopid (r : ipc_sem_sem_t) (x : Z) : ipc_sem_sem_t :=
  Sem (val r) x (waitn r) (waitz r).
Definition set_waitn (r : ipc_sem_sem_t) (x : list Z) : ipc_sem_sem_t :=
  Sem (val r) (sem_lopid r) x (waitz r).
Definition set_waitz (r : ipc_sem_sem_t) (x : list Z) : ipc_sem_sem_t :=
  Sem (val r) (sem_lopid r) (waitn r) x.

Definition set_sem_ipc (r : ipc_sem_t) (x : ipc_obj_t) : ipc_sem_t :=
  SemSet x (num r) (sems r) (otime r) (sem_ctime r).
Definition set_num (r : ipc_sem_t) (x : Z) : ipc_sem_t :=
  SemSet (sem_ipc r) x (sems r) (otime r) (sem_ctime r).
Definition set_sems (r : ipc_sem_t) (x : list ipc_sem_sem_t) : ipc_sem_t :=
  SemSet (sem_ipc r) (num r) x (otime r) (sem_ctime r).
Definition set_otime (r : ipc_sem_t) (x : Z) : ipc_sem_t :=
  SemSet (sem_ipc r) (num r) (sems r) x (sem_ctime r).
Definition set_sem_ctime (r : ipc_sem_t) (x : Z) : ipc_sem_t :=
  SemSet (sem_ipc r) (num r) (sems r) (otime r) x.

Definition set_shm_ipc (r : ipc_shm_t) (x : ipc_obj_t) : ipc_shm_t :=
  Shm x (shm_size r) (num_pages r) (shm_phys r) (atts r) (shm_lopid r) (atime r) (dtime r)
    (shm_ctime r).
Definition set_shm_size (r : ipc_shm_t) (x : Z) : ipc_shm_t :=
  Shm (shm_ipc r) x (num_pages r) (shm_phys r) (atts r) (shm_lopid r) (atime r) (dtime r)
    (shm_ctime r).
Definition set_num_pages (r : ipc_shm_t) (x : Z) : ipc_shm_t :=
  Shm (shm_ipc r) (shm_size r) x (shm_phys r) (atts r) (shm_lopid r) (atime r) (dtime r)
    (shm_ctime r).
Definition set_shm_phys (r : ipc_shm_t) (x : list Z) : ipc_shm_t :=
  Shm (shm_ipc r) (shm_size r) (num_pages r) x (atts r) (shm_lopid r) (atime r) (dtime r)
    (shm_ctime r).
Definition set_atts (r : ipc_shm_t) (x : list Z) : ipc_shm_t :=
  Shm (shm_ipc r) (shm_size r) (num_pages r) (shm_phys r) x (shm_lopid r) (atime r) (dtime r)
    (shm_ctime r).
Definition set_shm_lopid (r : ipc_shm_t) (x : Z) : ipc_shm_t :=
  Shm (shm_ipc r) (shm_size r) (num_pages r) (shm_phys r) (atts r) x (atime r) (dtime r)
    (shm_ctime r).
Definition set_atime (r : ipc_shm_t) (x : Z) : ipc_shm_t :=
  Shm (shm_ipc r) (shm_size r) (num_pages r) (shm_phys r) (atts r) (shm_lopid r) x (dtime r)
    (shm_ctime r).
Definition set_dtime (r : ipc_shm_t) (x : Z) : ipc_shm_t :=
  Shm (shm_ipc r) (shm_size r) (num_pages r) (shm_phys r) (atts r) (shm_lopid r) (atime r) x
    (shm_ctime r).
Definition set_shm_ctime (r : ipc_shm_t) (x : Z) : ipc_shm_t :=
  Shm (shm_ipc r) (shm_size r) (num_pages r) (shm_phys r) (atts r) (shm_lopid r) (atime r)
    (dtime r) x.

Definition set_rpc_name (r : rpc_function_t) (x : list Z) : rpc_function_t :=
  RpcFunction (rpc_id r) x (func r) (synopsis r) (params_size r) (rpc_owner r) (calls r)
    (rpc_current r).
Definition set_synopsis (r : rpc_function_t) (x : list Z) : rpc_function_t :=
  RpcFunction (rpc_id r) (rpc_name r) (func r) x (params_size r) (rpc_owner r) (calls r)
    (rpc_current r).
Definition set_calls (r : rpc_function_t) (x : list Z) : rpc_function_t :=
  RpcFunction (rpc_id r) (rpc_name r) (func r) (synopsis r) (params_size r) (rpc_owner r) x
    (rpc_current r).
Definition set_rpc_current (r : rpc_function_t) (x : Z) : rpc_function_t :=
  RpcFunction (rpc_id r) (rpc_name r) (func r) (synopsis r) (params_size r) (rpc_owner r) (calls r) x.

Definition set_sl_usec (r : interrupt_sleep_t) (x : Z) : interrupt_sleep_t :=
  TimeSleep (sl_type r) x (sl_proc r).

Definition set_k_mach (r : kernel) (x : mach) : kernel :=
  Kernel x (k_live r) (k_user r) (k_procs r) (k_spaces r) (proc_all r) (proc_running r)
    (proc_sleeping r) (proc_nextpid r) (proc_current r) (curregs r) (vm86_curregs r)
    (ipc_objects r) (ipc_lastid r) (k_ipc r) (k_msgs r) (k_sleepns r) (k_atts r)
    (rpc_functions r) (rpc_lastid r) (k_rpcs r) (k_calls r) (interrupt_sleep r)
    (k_sleeps r) (interrupt_irq r) (k_irqs r) (cpu_ticks r) (cpu_interval r) (swap_queue r)
    (swap_proc r) (swap_buf r) (k_swapcalls r).
Definition set_k_live (r : kernel) (x : gset Z) : kernel :=
  Kernel (k_mach r) x (k_user r) (k_procs r) (k_spaces r) (proc_all r) (proc_running r)
    (proc_sleeping r) (proc_nextpid r) (proc_current r) (curregs r) (vm86_curregs r)
    (ipc_objects r) (ipc_lastid r) (k_ipc r) (k_msgs r) (k_sleepns r) (k_atts r)
    (rpc_functions r) (rpc_lastid r) (k_rpcs r) (k_calls r) (interrupt_sleep r)
    (k_sleeps r) (interrupt_irq r) (k_irqs r) (cpu_ticks r) (cpu_interval r) (swap_queue r)
    (swap_proc r) (swap_buf r) (k_swapcalls r).
Definition set_k_user (r : kernel) (x : gmap (Z * Z) Z) : kernel :=
  Kernel (k_mach r) (k_live r) x (k_procs r) (k_spaces r) (proc_all r) (proc_running r)
    (proc_sleeping r) (proc_nextpid r) (proc_current r) (curregs r) (vm86_curregs r)
    (ipc_objects r) (ipc_lastid r) (k_ipc r) (k_msgs r) (k_sleepns r) (k_atts r)
    (rpc_functions r) (rpc_lastid r) (k_rpcs r) (k_calls r) (interrupt_sleep r)
    (k_sleeps r) (interrupt_irq r) (k_irqs r) (cpu_ticks r) (cpu_interval r) (swap_queue r)
    (swap_proc r) (swap_buf r) (k_swapcalls r).
Definition set_k_procs (r : kernel) (x : gmap Z proc_t) : kernel :=
  Kernel (k_mach r) (k_live r) (k_user r) x (k_spaces r) (proc_all r) (proc_running r)
    (proc_sleeping r) (proc_nextpid r) (proc_current r) (curregs r) (vm86_curregs r)
    (ipc_objects r) (ipc_lastid r) (k_ipc r) (k_msgs r) (k_sleepns r) (k_atts r)
    (rpc_functions r) (rpc_lastid r) (k_rpcs r) (k_calls r) (interrupt_sleep r)
    (k_sleeps r) (interrupt_irq r) (k_irqs r) (cpu_ticks r) (cpu_interval r) (swap_queue r)
    (swap_proc r) (swap_buf r) (k_swapcalls r).
Definition set_k_spaces (r : kernel) (x : gmap Z addrspace_t) : kernel :=
  Kernel (k_mach r) (k_live r) (k_user r) (k_procs r) x (proc_all r) (proc_running r)
    (proc_sleeping r) (proc_nextpid r) (proc_current r) (curregs r) (vm86_curregs r)
    (ipc_objects r) (ipc_lastid r) (k_ipc r) (k_msgs r) (k_sleepns r) (k_atts r)
    (rpc_functions r) (rpc_lastid r) (k_rpcs r) (k_calls r) (interrupt_sleep r)
    (k_sleeps r) (interrupt_irq r) (k_irqs r) (cpu_ticks r) (cpu_interval r) (swap_queue r)
    (swap_proc r) (swap_buf r) (k_swapcalls r).
Definition set_proc_all (r : kernel) (x : list Z) : kernel :=
  Kernel (k_mach r) (k_live r) (k_user r) (k_procs r) (k_spaces r) x (proc_running r)
    (proc_sleeping r) (proc_nextpid r) (proc_current r) (curregs r) (vm86_curregs r)
    (ipc_objects r) (ipc_lastid r) (k_ipc r) (k_msgs r) (k_sleepns r) (k_atts r)
    (rpc_functions r) (rpc_lastid r) (k_rpcs r) (k_calls r) (interrupt_sleep r)
    (k_sleeps r) (interrupt_irq r) (k_irqs r) (cpu_ticks r) (cpu_interval r) (swap_queue r)
    (swap_proc r) (swap_buf r) (k_swapcalls r).
Definition set_proc_running (r : kernel) (x : list Z) : kernel :=
  Kernel (k_mach r) (k_live r) (k_user r) (k_procs r) (k_spaces r) (proc_all r) x
    (proc_sleeping r) (proc_nextpid r) (proc_current r) (curregs r) (vm86_curregs r)
    (ipc_objects r) (ipc_lastid r) (k_ipc r) (k_msgs r) (k_sleepns r) (k_atts r)
    (rpc_functions r) (rpc_lastid r) (k_rpcs r) (k_calls r) (interrupt_sleep r)
    (k_sleeps r) (interrupt_irq r) (k_irqs r) (cpu_ticks r) (cpu_interval r) (swap_queue r)
    (swap_proc r) (swap_buf r) (k_swapcalls r).
Definition set_proc_sleeping (r : kernel) (x : list Z) : kernel :=
  Kernel (k_mach r) (k_live r) (k_user r) (k_procs r) (k_spaces r) (proc_all r) (proc_running r)
    x (proc_nextpid r) (proc_current r) (curregs r) (vm86_curregs r) (ipc_objects r)
    (ipc_lastid r) (k_ipc r) (k_msgs r) (k_sleepns r) (k_atts r) (rpc_functions r)
    (rpc_lastid r) (k_rpcs r) (k_calls r) (interrupt_sleep r) (k_sleeps r)
    (interrupt_irq r) (k_irqs r) (cpu_ticks r) (cpu_interval r) (swap_queue r)
    (swap_proc r) (swap_buf r) (k_swapcalls r).
Definition set_proc_nextpid (r : kernel) (x : Z) : kernel :=
  Kernel (k_mach r) (k_live r) (k_user r) (k_procs r) (k_spaces r) (proc_all r) (proc_running r)
    (proc_sleeping r) x (proc_current r) (curregs r) (vm86_curregs r) (ipc_objects r)
    (ipc_lastid r) (k_ipc r) (k_msgs r) (k_sleepns r) (k_atts r) (rpc_functions r)
    (rpc_lastid r) (k_rpcs r) (k_calls r) (interrupt_sleep r) (k_sleeps r)
    (interrupt_irq r) (k_irqs r) (cpu_ticks r) (cpu_interval r) (swap_queue r)
    (swap_proc r) (swap_buf r) (k_swapcalls r).
Definition set_proc_current (r : kernel) (x : Z) : kernel :=
  Kernel (k_mach r) (k_live r) (k_user r) (k_procs r) (k_spaces r) (proc_all r) (proc_running r)
    (proc_sleeping r) (proc_nextpid r) x (curregs r) (vm86_curregs r) (ipc_objects r)
    (ipc_lastid r) (k_ipc r) (k_msgs r) (k_sleepns r) (k_atts r) (rpc_functions r)
    (rpc_lastid r) (k_rpcs r) (k_calls r) (interrupt_sleep r) (k_sleeps r)
    (interrupt_irq r) (k_irqs r) (cpu_ticks r) (cpu_interval r) (swap_queue r)
    (swap_proc r) (swap_buf r) (k_swapcalls r).
Definition set_curregs (r : kernel) (x : proc_registers) : kernel :=
  Kernel (k_mach r) (k_live r) (k_user r) (k_procs r) (k_spaces r) (proc_all r) (proc_running r)
    (proc_sleeping r) (proc_nextpid r) (proc_current r) x (vm86_curregs r) (ipc_objects r)
    (ipc_lastid r) (k_ipc r) (k_msgs r) (k_sleepns r) (k_atts r) (rpc_functions r)
    (rpc_lastid r) (k_rpcs r) (k_calls r) (interrupt_sleep r) (k_sleeps r)
    (interrupt_irq r) (k_irqs r) (cpu_ticks r) (cpu_interval r) (swap_queue r)
    (swap_proc r) (swap_buf r) (k_swapcalls r).
Definition set_vm86_curregs (r : kernel) (x : vm86_segmentregs) : kernel :=
  Kernel (k_mach r) (k_live r) (k_user r) (k_procs r) (k_spaces r) (proc_all r) (proc_running r)
    (proc_sleeping r) (proc_nextpid r) (proc_current r) (curregs r) x (ipc_objects r)
    (ipc_lastid r) (k_ipc r) (k_msgs r) (k_sleepns r) (k_atts r) (rpc_functions r)
    (rpc_lastid r) (k_rpcs r) (k_calls r) (interrupt_sleep r) (k_sleeps r)
    (interrupt_irq r) (k_irqs r) (cpu_ticks r) (cpu_interval r) (swap_queue r)
    (swap_proc r) (swap_buf r) (k_swapcalls r).
Definition set_ipc_objects (r : kernel) (x : list Z) : kernel :=
  Kernel (k_mach r) (k_live r) (k_user r) (k_procs r) (k_spaces r) (proc_all r) (proc_running r)
    (proc_sleeping r) (proc_nextpid r) (proc_current r) (curregs r) (vm86_curregs r) x
    (ipc_lastid r) (k_ipc r) (k_msgs r) (k_sleepns r) (k_atts r) (rpc_functions r)
    (rpc_lastid r) (k_rpcs r) (k_calls r) (interrupt_sleep r) (k_sleeps r)
    (interrupt_irq r) (k_irqs r) (cpu_ticks r) (cpu_interval r) (swap_queue r)
    (swap_proc r) (swap_buf r) (k_swapcalls r).
Definition set_ipc_lastid (r : kernel) (x : Z) : kernel :=
  Kernel (k_mach r) (k_live r) (k_user r) (k_procs r) (k_spaces r) (proc_all r) (proc_running r)
    (proc_sleeping r) (proc_nextpid r) (proc_current r) (curregs r) (vm86_curregs r)
    (ipc_objects r) x (k_ipc r) (k_msgs r) (k_sleepns r) (k_atts r) (rpc_functions r)
    (rpc_lastid r) (k_rpcs r) (k_calls r) (interrupt_sleep r) (k_sleeps r)
    (interrupt_irq r) (k_irqs r) (cpu_ticks r) (cpu_interval r) (swap_queue r)
    (swap_proc r) (swap_buf r) (k_swapcalls r).
Definition set_k_ipc (r : kernel) (x : gmap Z ipc_any) : kernel :=
  Kernel (k_mach r) (k_live r) (k_user r) (k_procs r) (k_spaces r) (proc_all r) (proc_running r)
    (proc_sleeping r) (proc_nextpid r) (proc_current r) (curregs r) (vm86_curregs r)
    (ipc_objects r) (ipc_lastid r) x (k_msgs r) (k_sleepns r) (k_atts r) (rpc_functions r)
    (rpc_lastid r) (k_rpcs r) (k_calls r) (interrupt_sleep r) (k_sleeps r)
    (interrupt_irq r) (k_irqs r) (cpu_ticks r) (cpu_interval r) (swap_queue r)
    (swap_proc r) (swap_buf r) (k_swapcalls r).
Definition set_k_msgs (r : kernel) (x : gmap Z ipc_msg_msg_t) : kernel :=
  Kernel (k_mach r) (k_live r) (k_user r) (k_procs r) (k_spaces r) (proc_all r) (proc_running r)
    (proc_sleeping r) (proc_nextpid r) (proc_current r) (curregs r) (vm86_curregs r)
    (ipc_objects r) (ipc_lastid r) (k_ipc r) x (k_sleepns r) (k_atts r) (rpc_functions r)
    (rpc_lastid r) (k_rpcs r) (k_calls r) (interrupt_sleep r) (k_sleeps r)
    (interrupt_irq r) (k_irqs r) (cpu_ticks r) (cpu_interval r) (swap_queue r)
    (swap_proc r) (swap_buf r) (k_swapcalls r).
Definition set_k_sleepns (r : kernel) (x : gmap Z ipc_sem_sleepn_t) : kernel :=
  Kernel (k_mach r) (k_live r) (k_user r) (k_procs r) (k_spaces r) (proc_all r) (proc_running r)
    (proc_sleeping r) (proc_nextpid r) (proc_current r) (curregs r) (vm86_curregs r)
    (ipc_objects r) (ipc_lastid r) (k_ipc r) (k_msgs r) x (k_atts r) (rpc_functions r)
    (rpc_lastid r) (k_rpcs r) (k_calls r) (interrupt_sleep r) (k_sleeps r)
    (interrupt_irq r) (k_irqs r) (cpu_ticks r) (cpu_interval r) (swap_queue r)
    (swap_proc r) (swap_buf r) (k_swapcalls r).
Definition set_k_atts (r : kernel) (x : gmap Z ipc_shm_att_t) : kernel :=
  Kernel (k_mach r) (k_live r) (k_user r) (k_procs r) (k_spaces r) (proc_all r) (proc_running r)
    (proc_sleeping r) (proc_nextpid r) (proc_current r) (curregs r) (vm86_curregs r)
    (ipc_objects r) (ipc_lastid r) (k_ipc r) (k_msgs r) (k_sleepns r) x (rpc_functions r)
    (rpc_lastid r) (k_rpcs r) (k_calls r) (interrupt_sleep r) (k_sleeps r)
    (interrupt_irq r) (k_irqs r) (cpu_ticks r) (cpu_interval r) (swap_queue r)
    (swap_proc r) (swap_buf r) (k_swapcalls r).
Definition set_rpc_functions (r : kernel) (x : list Z) : kernel :=
  Kernel (k_mach r) (k_live r) (k_user r) (k_procs r) (k_spaces r) (proc_all r) (proc_running r)
    (proc_sleeping r) (proc_nextpid r) (proc_current r) (curregs r) (vm86_curregs r)
    (ipc_objects r) (ipc_lastid r) (k_ipc r) (k_msgs r) (k_sleepns r) (k_atts r) x
    (rpc_lastid r) (k_rpcs r) (k_calls r) (interrupt_sleep r) (k_sleeps r)
    (interrupt_irq r) (k_irqs r) (cpu_ticks r) (cpu_interval r) (swap_queue r)
    (swap_proc r) (swap_buf r) (k_swapcalls r).
Definition set_rpc_lastid (r : kernel) (x : Z) : kernel :=
  Kernel (k_mach r) (k_live r) (k_user r) (k_procs r) (k_spaces r) (proc_all r) (proc_running r)
    (proc_sleeping r) (proc_nextpid r) (proc_current r) (curregs r) (vm86_curregs r)
    (ipc_objects r) (ipc_lastid r) (k_ipc r) (k_msgs r) (k_sleepns r) (k_atts r)
    (rpc_functions r) x (k_rpcs r) (k_calls r) (interrupt_sleep r) (k_sleeps r)
    (interrupt_irq r) (k_irqs r) (cpu_ticks r) (cpu_interval r) (swap_queue r)
    (swap_proc r) (swap_buf r) (k_swapcalls r).
Definition set_k_rpcs (r : kernel) (x : gmap Z rpc_function_t) : kernel :=
  Kernel (k_mach r) (k_live r) (k_user r) (k_procs r) (k_spaces r) (proc_all r) (proc_running r)
    (proc_sleeping r) (proc_nextpid r) (proc_current r) (curregs r) (vm86_curregs r)
    (ipc_objects r) (ipc_lastid r) (k_ipc r) (k_msgs r) (k_sleepns r) (k_atts r)
    (rpc_functions r) (rpc_lastid r) x (k_calls r) (interrupt_sleep r) (k_sleeps r)
    (interrupt_irq r) (k_irqs r) (cpu_ticks r) (cpu_interval r) (swap_queue r)
    (swap_proc r) (swap_buf r) (k_swapcalls r).
Definition set_k_calls (r : kernel) (x : gmap Z rpc_call_t) : kernel :=
  Kernel (k_mach r) (k_live r) (k_user r) (k_procs r) (k_spaces r) (proc_all r) (proc_running r)
    (proc_sleeping r) (proc_nextpid r) (proc_current r) (curregs r) (vm86_curregs r)
    (ipc_objects r) (ipc_lastid r) (k_ipc r) (k_msgs r) (k_sleepns r) (k_atts r)
    (rpc_functions r) (rpc_lastid r) (k_rpcs r) x (interrupt_sleep r) (k_sleeps r)
    (interrupt_irq r) (k_irqs r) (cpu_ticks r) (cpu_interval r) (swap_queue r)
    (swap_proc r) (swap_buf r) (k_swapcalls r).
Definition set_interrupt_sleep (r : kernel) (x : list Z) : kernel :=
  Kernel (k_mach r) (k_live r) (k_user r) (k_procs r) (k_spaces r) (proc_all r) (proc_running r)
    (proc_sleeping r) (proc_nextpid r) (proc_current r) (curregs r) (vm86_curregs r)
    (ipc_objects r) (ipc_lastid r) (k_ipc r) (k_msgs r) (k_sleepns r) (k_atts r)
    (rpc_functions r) (rpc_lastid r) (k_rpcs r) (k_calls r) x (k_sleeps r)
    (interrupt_irq r) (k_irqs r) (cpu_ticks r) (cpu_interval r) (swap_queue r)
    (swap_proc r) (swap_buf r) (k_swapcalls r).
Definition set_k_sleeps (r : kernel) (x : gmap Z interrupt_sleep_t) : kernel :=
  Kernel (k_mach r) (k_live r) (k_user r) (k_procs r) (k_spaces r) (proc_all r) (proc_running r)
    (proc_sleeping r) (proc_nextpid r) (proc_current r) (curregs r) (vm86_curregs r)
    (ipc_objects r) (ipc_lastid r) (k_ipc r) (k_msgs r) (k_sleepns r) (k_atts r)
    (rpc_functions r) (rpc_lastid r) (k_rpcs r) (k_calls r) (interrupt_sleep r) x
    (interrupt_irq r) (k_irqs r) (cpu_ticks r) (cpu_interval r) (swap_queue r)
    (swap_proc r) (swap_buf r) (k_swapcalls r).
Definition set_interrupt_irq (r : kernel) (x : list (list Z)) : kernel :=
  Kernel (k_mach r) (k_live r) (k_user r) (k_procs r) (k_spaces r) (proc_all r) (proc_running r)
    (proc_sleeping r) (proc_nextpid r) (proc_current r) (curregs r) (vm86_curregs r)
    (ipc_objects r) (ipc_lastid r) (k_ipc r) (k_msgs r) (k_sleepns r) (k_atts r)
    (rpc_functions r) (rpc_lastid r) (k_rpcs r) (k_calls r) (interrupt_sleep r)
    (k_sleeps r) x (k_irqs r) (cpu_ticks r) (cpu_interval r) (swap_queue r) (swap_proc r)
    (swap_buf r) (k_swapcalls r).
Definition set_k_irqs (r : kernel) (x : gmap Z interrupt_irq_t) : kernel :=
  Kernel (k_mach r) (k_live r) (k_user r) (k_procs r) (k_spaces r) (proc_all r) (proc_running r)
    (proc_sleeping r) (proc_nextpid r) (proc_current r) (curregs r) (vm86_curregs r)
    (ipc_objects r) (ipc_lastid r) (k_ipc r) (k_msgs r) (k_sleepns r) (k_atts r)
    (rpc_functions r) (rpc_lastid r) (k_rpcs r) (k_calls r) (interrupt_sleep r)
    (k_sleeps r) (interrupt_irq r) x (cpu_ticks r) (cpu_interval r) (swap_queue r)
    (swap_proc r) (swap_buf r) (k_swapcalls r).
Definition set_cpu_ticks (r : kernel) (x : Z) : kernel :=
  Kernel (k_mach r) (k_live r) (k_user r) (k_procs r) (k_spaces r) (proc_all r) (proc_running r)
    (proc_sleeping r) (proc_nextpid r) (proc_current r) (curregs r) (vm86_curregs r)
    (ipc_objects r) (ipc_lastid r) (k_ipc r) (k_msgs r) (k_sleepns r) (k_atts r)
    (rpc_functions r) (rpc_lastid r) (k_rpcs r) (k_calls r) (interrupt_sleep r)
    (k_sleeps r) (interrupt_irq r) (k_irqs r) x (cpu_interval r) (swap_queue r)
    (swap_proc r) (swap_buf r) (k_swapcalls r).
Definition set_cpu_interval (r : kernel) (x : Z) : kernel :=
  Kernel (k_mach r) (k_live r) (k_user r) (k_procs r) (k_spaces r) (proc_all r) (proc_running r)
    (proc_sleeping r) (proc_nextpid r) (proc_current r) (curregs r) (vm86_curregs r)
    (ipc_objects r) (ipc_lastid r) (k_ipc r) (k_msgs r) (k_sleepns r) (k_atts r)
    (rpc_functions r) (rpc_lastid r) (k_rpcs r) (k_calls r) (interrupt_sleep r)
    (k_sleeps r) (interrupt_irq r) (k_irqs r) (cpu_ticks r) x (swap_queue r) (swap_proc r)
    (swap_buf r) (k_swapcalls r).
Definition set_swap_queue (r : kernel) (x : list Z) : kernel :=
  Kernel (k_mach r) (k_live r) (k_user r) (k_procs r) (k_spaces r) (proc_all r) (proc_running r)
    (proc_sleeping r) (proc_nextpid r) (proc_current r) (curregs r) (vm86_curregs r)
    (ipc_objects r) (ipc_lastid r) (k_ipc r) (k_msgs r) (k_sleepns r) (k_atts r)
    (rpc_functions r) (rpc_lastid r) (k_rpcs r) (k_calls r) (interrupt_sleep r)
    (k_sleeps r) (interrupt_irq r) (k_irqs r) (cpu_ticks r) (cpu_interval r) x
    (swap_proc r) (swap_buf r) (k_swapcalls r).
Definition set_swap_proc (r : kernel) (x : Z) : kernel :=
  Kernel (k_mach r) (k_live r) (k_user r) (k_procs r) (k_spaces r) (proc_all r) (proc_running r)
    (proc_sleeping r) (proc_nextpid r) (proc_current r) (curregs r) (vm86_curregs r)
    (ipc_objects r) (ipc_lastid r) (k_ipc r) (k_msgs r) (k_sleepns r) (k_atts r)
    (rpc_functions r) (rpc_lastid r) (k_rpcs r) (k_calls r) (interrupt_sleep r)
    (k_sleeps r) (interrupt_irq r) (k_irqs r) (cpu_ticks r) (cpu_interval r) (swap_queue r)
    x (swap_buf r) (k_swapcalls r).
Definition set_swap_buf (r : kernel) (x : Z) : kernel :=
  Kernel (k_mach r) (k_live r) (k_user r) (k_procs r) (k_spaces r) (proc_all r) (proc_running r)
    (proc_sleeping r) (proc_nextpid r) (proc_current r) (curregs r) (vm86_curregs r)
    (ipc_objects r) (ipc_lastid r) (k_ipc r) (k_msgs r) (k_sleepns r) (k_atts r)
    (rpc_functions r) (rpc_lastid r) (k_rpcs r) (k_calls r) (interrupt_sleep r)
    (k_sleeps r) (interrupt_irq r) (k_irqs r) (cpu_ticks r) (cpu_interval r) (swap_queue r)
    (swap_proc r) x (k_swapcalls r).
Definition set_k_swapcalls (r : kernel) (x : gmap Z swap_call_t) : kernel :=
  Kernel (k_mach r) (k_live r) (k_user r) (k_procs r) (k_spaces r) (proc_all r) (proc_running r)
    (proc_sleeping r) (proc_nextpid r) (proc_current r) (curregs r) (vm86_curregs r)
    (ipc_objects r) (ipc_lastid r) (k_ipc r) (k_msgs r) (k_sleepns r) (k_atts r)
    (rpc_functions r) (rpc_lastid r) (k_rpcs r) (k_calls r) (interrupt_sleep r)
    (k_sleeps r) (interrupt_irq r) (k_irqs r) (cpu_ticks r) (cpu_interval r) (swap_queue r)
    (swap_proc r) (swap_buf r) x.

(** ** Errors (errno.h), constants *)

Definition EACCES : Z := 2.
Definition EEXIST : Z := 20.
Definition EINVAL : Z := 28.
Definition ENOMSG : Z := 50.
Definition ENOSPC : Z := 52.

(** ** Access to the heaps *)

Definition dangling {A} (p : Z) : cmd kernel A :=
  stop_with (if p =? NULL then NullDeref else UseAfterFree).

Definition fetch {A} (heap : kernel -> gmap Z A) (p : Z) : cmd kernel A := fun k =>
  match heap k !! p with
  | Some x => Ret x k
  | None => dangling p k
  end.

Definition proc_at (p : Z) : cmd kernel proc_t := fetch k_procs p.
Definition space_at (p : Z) : cmd kernel addrspace_t := fetch k_spaces p.

Definition upd_proc (p : Z) (f : proc_t -> proc_t) : cmd kernel unit :=
  x ← proc_at p; modify (fun k => set_k_procs k (<[p := f x]> (k_procs k))).
Definition upd_space (p : Z) (f : addrspace_t -> addrspace_t) : cmd kernel unit :=
  x ← space_at p; modify (fun k => set_k_spaces k (<[p := f x]> (k_spaces k))).

(** Run a command of the machine. *)
Definition on_mach {A} (c : cmd mach A) : cmd kernel A := fun k =>
  match c (k_mach k) with
  | Ret a m => Ret a (set_k_mach k m)
  | Stop w m => Stop w (set_k_mach k m)
  end.

(** ** User memory

    Loads and stores through user pointers act on the bytes of the address
    space that is loaded; a byte nobody stored reads as 0. *)

Definition user_store8 (a v : Z) : cmd kernel unit :=
  modify (fun k => set_k_user k (<[(paging_curpd (k_mach k), w32 a) := w8 v]> (k_user k))).

Definition user_load8 (a : Z) : cmd kernel Z := fun k =>
  Ret (default 0 (k_user k !! (paging_curpd (k_mach k), w32 a))) k.

Fixpoint user_store_bytes (a : Z) (bs : list Z) : cmd kernel unit :=
  match bs with
  | [] => mret tt
  | b :: bs => user_store8 a b;; user_store_bytes (a + 1) bs
  end.

Fixpoint user_load_bytes (n : nat) (a : Z) : cmd kernel (list Z) :=
  match n with
  | O => mret []
  | S n => b ← user_load8 a; bs ← user_load_bytes n (a + 1); mret (b :: bs)
  end.

(** [int], little endian *)
Definition user_store (a v : Z) : cmd kernel unit :=
  let v := w32 v in
  user_store_bytes a [w8 v; w8 (v / 256); w8 (v / 65536); w8 (v / 16777216)].

Definition user_load (a : Z) : cmd kernel Z :=
  bs ← user_load_bytes 4 a;
  mret (foldr (fun b r => b + 256 * r) 0 bs).

Definition user_load16 (a : Z) : cmd kernel Z :=
  bs ← user_load_bytes 2 a;
  mret (foldr (fun b r => b + 256 * r) 0 bs).

(** [strncpy(buf,str,maxlen)] with a kernel string as source: with [maxlen] 0
    it copies 2^32-1 bytes. *)
Definition user_strncpy (buf : Z) (str : list Z) (maxlen : Z) : cmd kernel unit :=
  if maxlen =? 0 then stop_with OutOfBounds else
  let len := Z.min (Z.of_nat (length str) + 1) maxlen in
  user_store_bytes buf (take (Z.to_nat (len - 1)) str ++ [0]).

Section alloc.
Context `{Malloc}.

(** [malloc]: an address, and the block becomes live. *)
Definition kmalloc : cmd kernel Z := fun k =>
  let p := malloc (k_live k) in Ret p (set_k_live k ({[p]} ∪ k_live k)).

End alloc.

Definition kfree (p : Z) : cmd kernel unit := modify (fun k => set_k_live k (k_live k ∖ {[p]})).

Lemma fetch_Some {A} (heap : kernel -> gmap Z A) p x k :
  heap k !! p = Some x -> fetch heap p k = Ret x k.
Proof. unfold fetch. by intros ->. Qed.

Lemma fetch_None {A} (heap : kernel -> gmap Z A) p k :
  heap k !! p = None -> fetch heap p k = dangling p k.
Proof. unfold fetch. by intros ->. Qed.

Lemma on_mach_Ret {A} (c : cmd mach A) k a m :
  c (k_mach k) = Ret a m -> on_mach c k = Ret a (set_k_mach k m).
Proof. unfold on_mach. by intros ->. Qed.

Lemma upd_space_Some p f a k : k_spaces k !! p = Some a ->
  upd_space p f k = Ret tt (set_k_spaces k (<[p := f a]> (k_spaces k))).
Proof. intros E. unfold upd_space, space_at. by rewrite (bind_Ret _ _ _ _ _ (fetch_Some _ _ _ _ E)). Qed.

Lemma upd_proc_Some p f x k : k_procs k !! p = Some x ->
  upd_proc p f k = Ret tt (set_k_procs k (<[p := f x]> (k_procs k))).
Proof. intros E. unfold upd_proc, proc_at. by rewrite (bind_Ret _ _ _ _ _ (fetch_Some _ _ _ _ E)). Qed.

(** Run the first command of a sequence whose outcome is known. *)
Ltac cstep H := rewrite (bind_Ret _ _ _ _ _ H).

(** Case analysis on a command that returned. *)
Ltac cinv H :=
  unfold mbind, cmd_bind in H;
  repeat match type of H with
  | match ?c with Ret _ _ => _ | Stop _ _ => _ end = Ret _ _ =>
      let E := fresh "E" in destruct c eqn:E; [|discriminate H]
  end.

Lemma bind_Ret_inv {S A B} (c : cmd S A) (f : A -> cmd S B) s b s' :
  (c ≫= f) s = Ret b s' -> exists a s1, c s = Ret a s1 /\ f a s1 = Ret b s'.
Proof. unfold mbind, cmd_bind. destruct (c s); [eauto|done]. Qed.

(** No objects at all, on the machine [m]. *)
Definition regs0 : proc_registers := Regs 0 0 0 0 0 0 0 0 0 0 0 0 0 0 0 0.
Definition empty_kernel (m : mach) : kernel :=
  Kernel m ∅ ∅ ∅ ∅ [] [] [] 1 NULL regs0 (SegRegs 0 0 0 0) [] 0 ∅ ∅ ∅ ∅ [] 0 ∅ ∅ [] ∅
    (repeat [] 16) ∅ 0 0 [] NULL 0 ∅.

(** A process with pid [p] and address space [s], every other field zero. *)
Definition plain_proc (p s : Z) : proc_t :=
  Proc p 0 0 0 0 0 0 0 [] NULL [] regs0 s 0 1 false (-1) false 0 NULL false 0 false 0 NULL (SegRegs 0 0 0 0).

(** User memory as a function of the loaded directory. *)
Fixpoint put_bytes (pd a : Z) (bs : list Z) (u : gmap (Z * Z) Z) : gmap (Z * Z) Z :=
  match bs with
  | [] => u
  | b :: bs => put_bytes pd (a + 1) bs (<[(pd, w32 a) := w8 b]> u)
  end.

Definition byte_at (u : gmap (Z * Z) Z) (pd a : Z) : Z := default 0 (u !! (pd, w32 a)).

Definition word_at (u : gmap (Z * Z) Z) (pd a : Z) : Z :=
  byte_at u pd a + 256 * (byte_at u pd (a + 1) + 256 * (byte_at u pd (a + 2) + 256 * byte_at u pd (a + 3))).

Definition put_word (pd a v : Z) (u : gmap (Z * Z) Z) : gmap (Z * Z) Z :=
  let v := w32 v in put_bytes pd a [w8 v; w8 (v / 256); w8 (v / 65536); w8 (v / 16777216)] u.

Lemma user_store_bytes_ok bs : forall a k,
  user_store_bytes a bs k = Ret tt (set_k_user k (put_bytes (paging_curpd (k_mach k)) a bs (k_user k))).
Proof.
  induction bs as [|b bs IH]; intros a k; [by destruct k|]. cbn [user_store_bytes put_bytes].
  unfold user_store8. rewrite (bind_Ret (modify _) _ k tt _ eq_refl), IH. by destruct k.
Qed.

Lemma user_store_ok a v k :
  user_store a v k = Ret tt (set_k_user k (put_word (paging_curpd (k_mach k)) a v (k_user k))).
Proof. apply user_store_bytes_ok. Qed.

Lemma w32_shift a i j : 0 <= i < 4294967296 -> 0 <= j < 4294967296 -> w32 (a + i) = w32 (a + j) -> i = j.
Proof.
  intros Hi Hj E. unfold w32 in E.
  pose proof (Z.div_mod (a + i) 4294967296 ltac:(lia)). pose proof (Z.div_mod (a + j) 4294967296 ltac:(lia)).
  assert ((a + i) / 4294967296 = (a + j) / 4294967296 \/ (a + i) / 4294967296 < (a + j) / 4294967296 \/
    (a + j) / 4294967296 < (a + i) / 4294967296) by lia. nia.
Qed.

Lemma byte_at_insert u pd pd' a b v : byte_at (<[(pd, w32 a) := v]> u) pd' b =
  if decide (pd = pd' /\ w32 a = w32 b) then v else byte_at u pd' b.
Proof.
  unfold byte_at. rewrite lookup_insert. repeat case_decide; try done; [simplify_eq; tauto|].
  destruct_and!. congruence.
Qed.

Lemma word_bytes v : 0 <= v < 4294967296 ->
  v mod 256 + 256 * (v / 256 mod 256 + 256 * (v / 65536 mod 256 + 256 * (v / 16777216 mod 256))) = v.
Proof.
  intros Hv. pose proof (Z.div_mod v 256 ltac:(lia)).
  pose proof (Z.div_mod (v / 256) 256 ltac:(lia)) as H1. pose proof (Z.div_mod (v / 65536) 256 ltac:(lia)) as H2.
  assert (E1 : v / 256 / 256 = v / 65536) by (by rewrite Z.div_div by lia).
  assert (E2 : v / 65536 / 256 = v / 16777216) by (by rewrite Z.div_div by lia).
  assert (E3 : v / 16777216 mod 256 = v / 16777216).
  { apply Z.mod_small. split; [apply Z.div_pos; lia|apply Z.div_lt_upper_bound; lia]. }
  lia.
Qed.

Lemma byte_at_near u pd a i j v : 0 <= i < 4 -> 0 <= j < 4 ->
  byte_at (<[(pd, w32 (a + i)) := v]> u) pd (a + j) = if decide (i = j) then v else byte_at u pd (a + j).
Proof.
  intros Hi Hj. rewrite byte_at_insert. repeat case_decide; try done; [|subst; tauto].
  destruct_and!. exfalso. assert (i = j) by (apply (w32_shift a); [lia|lia|done]). done.
Qed.

(** A word stored in an address space is read back there. *)
Lemma word_at_put u pd a v : word_at (put_word pd a v u) pd a = w32 v.
Proof.
  unfold word_at, put_word. cbn [put_bytes]. cbv zeta.
  replace (a + 1 + 1) with (a + 2) by lia. replace (a + 2 + 1) with (a + 3) by lia.
  rewrite <- (Z.add_0_r a) at 4 5 9 13 17. rewrite !byte_at_near by lia. cbn.
  rewrite !(w8_small (w8 _)) by apply w8_range. unfold w8. apply word_bytes, w32_range.
Qed.

Lemma byte_at_put_ne u pd pd' a b v : (forall i, 0 <= i < 4 -> ~ (pd = pd' /\ w32 (a + i) = w32 b)) ->
  byte_at (put_word pd a v u) pd' b = byte_at u pd' b.
Proof.
  intros Hne. unfold put_word. cbn [put_bytes]. cbv zeta.
  replace (a + 1 + 1) with (a + 2) by lia. replace (a + 2 + 1) with (a + 3) by lia.
  pose proof (Hne 0 ltac:(lia)) as H0. rewrite Z.add_0_r in H0.
  rewrite !byte_at_insert, !decide_False; auto; apply Hne; lia.
Qed.

(** ... and other words are not touched. *)
Lemma word_at_put_ne u pd pd' a b v :
  pd <> pd' \/ (forall i j, 0 <= i < 4 -> 0 <= j < 4 -> w32 (a + i) <> w32 (b + j)) ->
  word_at (put_word pd a v u) pd' b = word_at u pd' b.
Proof.
  intros Hne. assert (E : forall j, 0 <= j < 4 -> forall i, 0 <= i < 4 -> ~ (pd = pd' /\ w32 (a + i) = w32 (b + j))).
  { intros j Hj i Hi [-> E]. destruct Hne as [|Hne]; [done|]. by apply (Hne i j). }
  unfold word_at. pose proof (E 0 ltac:(lia)) as E0. rewrite Z.add_0_r in E0.
  rewrite !byte_at_put_ne; auto; apply E; lia.
Qed.

Lemma w32_w32_add a i : w32 (w32 a + i) = w32 (a + i).
Proof. unfold w32. by rewrite Z.add_mod_idemp_l. Qed.

Lemma byte_at_w32 u pd a : byte_at u pd (w32 a) = byte_at u pd a.
Proof. unfold byte_at. by rewrite (w32_small (w32 a)) by apply w32_range. Qed.

Lemma word_at_w32 u pd a : word_at u pd (w32 a) = word_at u pd a.
Proof.
  assert (E : forall i, byte_at u pd (w32 a + i) = byte_at u pd (a + i)).
  { intros i. unfold byte_at. by rewrite w32_w32_add. }
  unfold word_at. by rewrite byte_at_w32, !E.
Qed.

(** ** What a command leaves alone

    [keeps f c]: whatever the outcome of [c], the part [f] of the state is as
    before.  The database [mein] decides such goals by the structure of the
    command. *)

Definition state_of {S A} (o : outcome S A) : S := match o with Ret _ s => s | Stop _ s => s end.

Definition keeps {S A B} (f : S -> B) (c : cmd S A) : Prop := forall s, f (state_of (c s)) = f s.

Section keeps.
Context {S : Type} {B : Type} (f : S -> B).

Lemma keeps_ret {A} (a : A) : keeps f (mret a).
Proof. done. Qed.

Lemma keeps_stop {A} w : keeps f (stop_with (A := A) w).
Proof. done. Qed.

Lemma keeps_gets {A} (g : S -> A) : keeps f (gets g).
Proof. done. Qed.

Lemma keeps_modify g : (forall s, f (g s) = f s) -> keeps f (modify g).
Proof. intros E s. apply E. Qed.

Lemma keeps_bind {A C} (c : cmd S A) (d : A -> cmd S C) :
  keeps f c -> (forall a, keeps f (d a)) -> keeps f (c ≫= d).
Proof.
  intros Hc Hd s. specialize (Hc s). unfold mbind, cmd_bind. destruct (c s) as [a s'|w s']; [|done].
  rewrite (Hd a s'). exact Hc.
Qed.

Lemma keeps_for_each {A} (xs : list A) (body : A -> cmd S unit) :
  (forall x, keeps f (body x)) -> keeps f (for_each xs body).
Proof. intros H. induction xs; cbn [for_each]; [apply keeps_ret|apply keeps_bind; auto]. Qed.

Lemma keeps_for_from n (body : Z -> cmd S unit) : (forall i, keeps f (body i)) ->
  forall i, keeps f (for_from n i body).
Proof. intros H. induction n; intros i; cbn [for_from]; [apply keeps_ret|apply keeps_bind; auto]. Qed.
End keeps.

Lemma keeps_fetch {A B} (f : kernel -> B) (heap : kernel -> gmap Z A) p : keeps f (fetch heap p).
Proof. intros k. unfold fetch, dangling. by destruct (heap k !! p). Qed.

Lemma keeps_on_mach {A B} (f : kernel -> B) (c : cmd mach A) :
  (forall k m, f (set_k_mach k m) = f k) -> keeps f (on_mach c).
Proof. intros E k. unfold on_mach. destruct (c (k_mach k)); apply E. Qed.

#[export] Hint Resolve keeps_ret keeps_stop keeps_gets keeps_fetch keeps_for_each keeps_for_from : mein.

(** Follow the structure of a command. *)
Ltac keeps_step :=
  first
  [ solve [auto with mein]
  | apply keeps_modify; reflexivity
  | apply keeps_on_mach; reflexivity
  | apply keeps_bind; [|intros ?]
  | apply keeps_for_each; intros ?
  | apply keeps_for_from; intros ?
  | match goal with
    | |- keeps _ (if ?b then _ else _) => destruct b
    | |- keeps _ (match ?b with _ => _ end) => destruct b
    | |- keeps _ (let _ := _ in _) => cbv zeta
    end ].
Ltac keeps_solve := repeat keeps_step.
