(* ===== verification/Memory.v ===== *)
(** * Address spaces and swapping (kernel2/memuser.c, kernel2/swap.c,
    kernel2/memkernel.c, the DMA part of kernel2/memphys.c)

    Address-space management on the kernel state: page directories are built
    and read with the functions of Paging.v, the bookkeeping lists of the
    address space are sequences. *)

From S2P Require Import Prelude LList Machine Paging Kernel.

(** ** DMA pages (memphys.c): a bitmap of 32-bit words *)

Definition MEMPHYS_DMALIMIT : Z := 16 * MBYTES.

Definition dma_used (bm : list Z) (i : Z) : bool :=
  Z.testbit (default 0 (bm !! Z.to_nat (i / 32))) (i mod 32).

Definition dma_set (bm : list Z) (i : Z) : list Z :=
  alter (fun w => Z.setbit w (i mod 32)) (Z.to_nat (i / 32)) bm.

Definition dma_clear (bm : list Z) (i : Z) : list Z :=
  alter (fun w => Z.clearbit w (i mod 32)) (Z.to_nat (i / 32)) bm.

(** [for (j=i-(found-1);j<=i;j++) bitmap |= bit j] *)
Fixpoint dma_mark (n : nat) (bm : list Z) (j : Z) : list Z :=
  match n with
  | O => bm
  | S n => dma_mark n (dma_set bm j) (j + 1)
  end.

(** The scan over all pages below the limit; [n] of them are left. *)
Fixpoint dma_scan (n : nat) (bm : list Z) (pages i found : Z) : Z * list Z :=
  match n with
  | O => (NULL, bm)
  | S n =>
      let found := if negb (dma_used bm i) then w32 (found + 1) else 0 in
      if found =? pages then
        let j := w32 (i - (found - 1)) in
        (w32 (j * PAGE_SIZE), dma_mark (Z.to_nat (i - j + 1)) bm j)
      else dma_scan n bm pages (i + 1) found
  end.

Definition dma_pages : Z := MEMPHYS_DMALIMIT / PAGE_SIZE.

Definition memphys_dma_alloc (pages : Z) : cmd mach Z := fun m =>
  let '(r, bm) := dma_scan (Z.to_nat dma_pages) (memphys_dma_bitmap m) pages 0 0 in
  Ret r (set_dma m bm).

(** No check that the page is below the limit. *)
Definition memphys_dma_free (addr : Z) : cmd mach unit := fun m =>
  let i := w32 addr / PAGE_SIZE in
  if i / 32 <? Z.of_nat (length (memphys_dma_bitmap m))
  then Ret tt (set_dma m (dma_clear (memphys_dma_bitmap m) i))
  else Stop OutOfBounds m.

(** The bitmap has [MEMPHYS_DMALIMIT/(PAGE_SIZE*8)] bytes, 128 words; the two
    [memset]s split it at byte [FREEPHYS_ADDRESS/(PAGE_SIZE*8)]. *)
Definition dma_init_byte (b : Z) : Z := if b <? FREEPHYS_ADDRESS / (PAGE_SIZE * 8) then 255 else 0.
Definition dma_init_word (w : Z) : Z :=
  dma_init_byte (4 * w) + 256 * dma_init_byte (4 * w + 1) + 65536 * dma_init_byte (4 * w + 2) +
  16777216 * dma_init_byte (4 * w + 3).

Definition memphys_dma_init : cmd mach Z := fun m =>
  Ret 0 (set_dma m (dma_init_word <$> (Z.of_nat <$> seq 0 (Z.to_nat (MEMPHYS_DMALIMIT / (PAGE_SIZE * 8) / 4))))).

(** ** Free virtual addresses *)

(** [memuser_findvirt]: from [virt] to the end of the user area. *)
Fixpoint findvirt_loop (fuel : nat) (pd pages virt found : Z) : cmd mach Z :=
  match fuel with
  | O => mret NULL
  | S fuel =>
      if virt <? USERDATA_ADDRESS + USERDATA_SIZE then
        if pages <=? found then mret (virt - found * PAGE_SIZE) else
        missing ← (if ADDR2PTE virt =? 0
                   then pde ← paging_getpde_pd virt pd; mret (negb (pde_exists pde))
                   else mret false);
        if missing : bool then
          findvirt_loop fuel pd pages (virt + 1023 * PAGE_SIZE + PAGE_SIZE) (found + 1024)
        else
          pte ← paging_getpte_pd virt pd;
          findvirt_loop fuel pd pages (virt + PAGE_SIZE) (if pte_exists pte then 0 else found + 1)
      else mret NULL
  end.

(** Each round advances by a page at least. *)
Definition findvirt_fuel : nat := Z.to_nat (USERDATA_SIZE / PAGE_SIZE + 1).

Definition findvirt (pd pages : Z) : cmd mach Z :=
  findvirt_loop findvirt_fuel pd pages USERDATA_ADDRESS 0.

Definition memuser_findvirt (addrspace pages : Z) : cmd kernel Z :=
  a ← space_at addrspace; on_mach (findvirt (pagedir a) pages).

(** [memkernel_findvirt]: the step over a missing table is
    [1024*(PAGE_SIZE-1)] bytes plus the loop's own page. *)
Fixpoint kfindvirt_loop (fuel : nat) (pages virt found : Z) : cmd mach Z :=
  match fuel with
  | O => mret NULL
  | S fuel =>
      if virt <? KERNELDATA_ADDRESS + KERNELDATA_SIZE then
        if pages <=? found then mret (virt - found * PAGE_SIZE) else
        missing ← (if ADDR2PTE virt =? 0
                   then pde ← paging_getpde virt; mret (negb (pde_exists pde))
                   else mret false);
        if missing : bool then
          kfindvirt_loop fuel pages (virt + 1024 * (PAGE_SIZE - 1) + PAGE_SIZE) (found + 1024)
        else
          pte ← paging_getpte virt;
          kfindvirt_loop fuel pages (virt + PAGE_SIZE) (if pte_exists pte then 0 else found + 1)
      else mret NULL
  end.

Definition memkernel_findvirt (pages : Z) : cmd mach Z :=
  kfindvirt_loop (Z.to_nat (KERNELDATA_SIZE / PAGE_SIZE + 1)) pages KERNELDATA_ADDRESS 0.

(** ** Page directories and address spaces *)

Definition memuser_load_addrspace (addrspace : Z) : cmd kernel Z :=
  a ← space_at addrspace;
  cur ← gets (fun k => paging_curpd (k_mach k));
  if negb (cur =? pagedir a) then on_mach (paging_loadpagedir (pagedir a)) else mret 0.

(** The count handed to [paging_physwrite] is the number of directory entries. *)
Definition memuser_create_pagedir : cmd mach Z :=
  pg ← memphys_pop;
  pd ← paging_cleanpage pg;
  paging_physwrite pd PAGEDIR_ADDRESS (ADDR2PDE (KERNELDATA_ADDRESS + KERNELDATA_SIZE));;
  paging_setpde_pd (4092 * MBYTES)
    (Pde true true false false false false false false false false false false (ADDR2PAGE pd)) pd;;
  mret pd.

Definition memuser_destroy_pagedir (pd : Z) : cmd mach Z :=
  cur ← gets paging_curpd;
  (if cur =? pd then k ← gets paging_kernelpd; paging_loadpagedir k;; mret tt else mret tt);;
  memphys_push pd;; mret 0.

Definition memuser_create_pagetable (pd virt : Z) : cmd mach Z :=
  pg ← memphys_pop;
  clean ← paging_cleanpage pg;
  r ← paging_setpde_pd virt (new_pde (ADDR2PAGE clean)) pd;
  mret (if 0 <=? r then 0 else -1).

Section memory.
Context `{Malloc}.

Definition memuser_create_addrspace (proc : Z) : cmd kernel Z :=
  new ← kmalloc;
  pd ← on_mach memuser_create_pagedir;
  modify (fun k => set_k_spaces k (<[new := AddrSpace proc [] [] [] pd NULL]> (k_spaces k)));;
  mret new.

(** ** Swapping (swap.c) *)

Definition SWAP_IN : Z := 1.
Definition SWAP_OUT : Z := 2.
Definition SWAP_REM : Z := 3.

Definition swap_init : cmd kernel Z := modify (fun k => set_swap_proc k NULL);; mret 0.

Definition swap_enable (buf : Z) : cmd kernel Z :=
  sp ← gets swap_proc;
  if negb (sp =? NULL) then mret (-1) else
  modify (fun k => set_swap_buf (set_swap_proc (set_swap_queue k []) (proc_current k)) buf);;
  mret 0.

Definition swap_call (op proc page : Z) : cmd kernel Z :=
  new ← kmalloc;
  if negb (new =? NULL) then
    x ← proc_at proc;
    modify (fun k => set_k_swapcalls k (<[new := SwapCall op (pid x) page]> (k_swapcalls k)));;
    modify (fun k => set_swap_queue k (new :: swap_queue k));;
    mret 0
  else mret (-1).

(** The call is tested for a non-zero result, that is, for failure; the changed
    entry is a local copy. *)
Definition swap_in (proc page : Z) : cmd kernel Z :=
  sp ← gets swap_proc;
  if sp =? NULL then mret (-1) else
  x ← proc_at proc; a ← space_at (addrspace x);
  pte ← on_mach (paging_getpte_pd page (pagedir a));
  if negb (in_memory pte) && swapped pte then
    memuser_load_addrspace (addrspace x);;
    r ← swap_call SWAP_IN proc page;
    if negb (r =? 0) then
      phys ← on_mach memphys_pop;
      buf ← gets swap_buf;
      on_mach (paging_physwrite phys buf PAGE_SIZE);;
      mret 0
    else mret (-1)
  else mret (-1).

Definition pte_swapped_out (p : pte_t) : pte_t :=
  Pte false (writable p) (user p) (write_though p) (cache_disabled p) (accessed p) (dirty p)
    (cow p) (global p) (pte_exists p) (swappable p) true (page p).

(** It is [page], the virtual address, that is given to [memphys_free]. *)
Definition swap_out (proc page : Z) : cmd kernel Z :=
  sp ← gets swap_proc;
  if sp =? NULL then mret (-1) else
  x ← proc_at proc; a ← space_at (addrspace x);
  pte ← on_mach (paging_getpte_pd page (pagedir a));
  if negb (swappable pte) then mret (-1) else
  memuser_load_addrspace (addrspace x);;
  let phys := PAGE2ADDR (Machine.page pte) in
  if negb (phys =? NULL) && in_memory pte then
    buf ← gets swap_buf;
    on_mach (paging_physread buf phys PAGE_SIZE);;
    r ← swap_call SWAP_OUT proc page;
    if negb (r =? -1) then
      on_mach (memphys_push page);;
      on_mach (paging_setpte_pd page (pte_swapped_out pte) (pagedir a));;
      mret 0
    else mret (-1)
  else mret (-1).

Definition swap_remove (proc page : Z) : cmd kernel Z :=
  sp ← gets swap_proc;
  if negb (sp =? NULL) then swap_call SWAP_REM proc page else mret (-1).

(** ** Allocation in an address space *)

(** The entry of a page that is allocated but has no frame yet. *)
Definition imaginary_pte (swappable : bool) : pte_t :=
  Pte false true true false false false false false false true swappable false 0.

Definition ensure_table (pd virt : Z) : cmd mach unit :=
  pde ← paging_getpde_pd virt pd;
  if negb (pde_exists pde) then memuser_create_pagetable pd virt;; mret tt else mret tt.

Definition memuser_alloc (addrspace count : Z) (swappable : bool) : cmd kernel Z :=
  addr ← memuser_findvirt addrspace (count / PAGE_SIZE);
  a ← space_at addrspace;
  (if negb (addr =? NULL) then
     for_from (Z.to_nat (count / PAGE_SIZE)) 0 (fun i =>
       let virt := addr + i * PAGE_SIZE in
       on_mach (ensure_table (pagedir a) virt);;
       on_mach (paging_setpte_pd virt (imaginary_pte swappable) (pagedir a));;
       upd_space addrspace (fun a => set_pages_imaginary a (virt :: pages_imaginary a)))
   else mret tt);;
  mret addr.

Definition current_space : cmd kernel Z :=
  p ← gets proc_current; x ← proc_at p; mret (addrspace x).

Definition memuser_alloc_syscall (count : Z) : cmd kernel Z :=
  s ← current_space; memuser_alloc s count true.

(** The entry examined is that of the stack, not of [page]. *)
Definition memuser_free (addrspace page : Z) : cmd kernel Z :=
  if page =? NULL then mret 0 else
  a ← space_at addrspace;
  pte ← on_mach (paging_getpte_pd (stack a) (pagedir a));
  (if in_memory pte then
     on_mach (memphys_push (PAGE2ADDR (Machine.page pte)));;
     upd_space addrspace (fun a => set_pages_loaded a (Seq.drop_elem (pages_loaded a) page))
   else if swapped pte then
     cur ← gets proc_current;
     swap_remove cur page;;
     upd_space addrspace (fun a => set_pages_swapped a (Seq.drop_elem (pages_swapped a) page))
   else if cow pte then on_mach (paging_unmap page);; mret tt
   else
     on_mach (paging_unmap page);;
     upd_space addrspace (fun a => set_pages_imaginary a (Seq.drop_elem (pages_imaginary a) page)));;
  on_mach (paging_setpte_pd page pte0 (pagedir a));;
  mret 0.

Definition memuser_free_syscall (page : Z) : cmd kernel Z :=
  s ← current_space; memuser_free s page.

Definition memuser_getphysaddr (addrspace virt : Z) : cmd kernel Z :=
  a ← space_at addrspace;
  pte ← on_mach (paging_getpte_pd virt (pagedir a));
  if negb (in_memory pte) then mret NULL else mret (PAGE2ADDR (Machine.page pte)).

Definition memuser_getphysaddr_syscall (virt : Z) : cmd kernel Z :=
  s ← current_space; memuser_getphysaddr s virt.

Definition loaded_pte (phys : Z) (writable : bool) : pte_t :=
  Pte true writable true false false false false false false true true false (ADDR2PAGE phys).

Definition memuser_alloc_at (addrspace addr phys : Z) (writable : bool) : cmd kernel Z :=
  a ← space_at addrspace;
  on_mach (ensure_table (pagedir a) addr);;
  on_mach (paging_getpte_pd addr (pagedir a));;
  phys ← (if phys =? NULL then on_mach memphys_pop else mret phys);
  on_mach (paging_setpte_pd addr (loaded_pte phys writable) (pagedir a));;
  upd_space addrspace (fun a => set_pages_loaded a (addr :: pages_loaded a));;
  mret 0.

Definition memuser_expand_stack (addrspace : Z) : cmd kernel Z :=
  upd_space addrspace (fun a => set_stack a (stack a - PAGE_SIZE));;
  a ← space_at addrspace;
  memuser_alloc_at addrspace (stack a) NULL true.

Definition memuser_create_stack (addrspace : Z) : cmd kernel Z :=
  upd_space addrspace (fun a => set_stack a USERSTACK_END);;
  memuser_expand_stack addrspace;;
  a ← space_at addrspace;
  mret (stack a + PAGE_SIZE - 4).

Definition memuser_destroy_stack (addrspace : Z) : cmd kernel Z :=
  a ← space_at addrspace; memuser_free addrspace (stack a).

(** [while ((page = llist_pop(l))!=NULL) body(page)] on a list of the space. *)
Definition drain_pages (addrspace : Z) (get : addrspace_t -> list Z)
    (set : addrspace_t -> list Z -> addrspace_t) (body : Z -> cmd kernel unit) : cmd kernel unit :=
  a ← space_at addrspace;
  upd_space addrspace (fun a => set a (Seq.drain (get a)).2);;
  for_each (Seq.drain (get a)).1 body.

(** The stack, an address in user space, is passed where the address space is
    expected.  The record itself is not freed. *)
Definition memuser_destroy_addrspace (addrspace : Z) : cmd kernel Z :=
  a ← space_at addrspace;
  cur ← gets (fun k => paging_curpd (k_mach k));
  if negb (cur =? pagedir a) then mret (-1) else
  (if negb (stack a =? NULL) then memuser_destroy_stack (stack a);; mret tt else mret tt);;
  drain_pages addrspace pages_loaded set_pages_loaded (fun page =>
    phys ← on_mach (paging_unmap page); on_mach (memphys_push phys));;
  drain_pages addrspace pages_imaginary set_pages_imaginary (fun page =>
    on_mach (paging_unmap page);; mret tt);;
  drain_pages addrspace pages_swapped set_pages_swapped (fun page =>
    swap_remove (as_proc a) page;; mret tt);;
  on_mach (memuser_destroy_pagedir (pagedir a));;
  mret 0.

(** ** Page faults *)

Definition pte_uncow (p : pte_t) (phys : Z) : pte_t :=
  Pte (in_memory p) true (user p) (write_though p) (cache_disabled p) (accessed p) (dirty p)
    false (global p) (pte_exists p) (swappable p) (swapped p) (ADDR2PAGE phys).

Definition pte_loaded (p : pte_t) (phys : Z) : pte_t :=
  Pte true (writable p) (user p) (write_though p) (cache_disabled p) (accessed p) (dirty p)
    (cow p) (global p) (pte_exists p) (swappable p) (swapped p) (ADDR2PAGE phys).

Definition memuser_pagefault (addr : Z) : cmd kernel Z :=
  cur ← gets proc_current; s ← current_space; a ← space_at s;
  let page := PAGEDOWN addr in
  pte ← on_mach (paging_getpte page);
  if negb (pte_exists pte) then
    if (addr <? stack a) && (USERSTACK_END - USERSTACK_MAXSIZE <? addr)
    then memuser_expand_stack s;; mret 0
    else mret (-1)
  else if swapped pte && negb (in_memory pte) then
    r ← swap_in cur page;
    if negb (r =? -1) then
      upd_space s (fun a => set_pages_swapped a (Seq.drop_elem (pages_swapped a) page));;
      upd_space s (fun a => set_pages_loaded a (page :: pages_loaded a));;
      swap_remove cur page;;
      mret 0
    else mret (-1)
  else if cow pte && in_memory pte then
    let old := PAGE2ADDR (Machine.page pte) in
    new ← on_mach memphys_pop;
    on_mach (paging_setpte page (pte_uncow pte new));;
    on_mach (paging_physread page old PAGE_SIZE);;
    mret 0
  else if negb (in_memory pte) then
    new ← on_mach memphys_pop;
    on_mach (paging_setpte page (pte_loaded pte new));;
    upd_space s (fun a => set_pages_imaginary a (Seq.drop_elem (pages_imaginary a) page));;
    upd_space s (fun a => set_pages_loaded a (page :: pages_loaded a));;
    mret 0
  else mret (-1).

(** ** Kernel mappings *)

Definition memuser_syncpds (addr : Z) : cmd kernel Z :=
  pde ← on_mach (paging_getpde addr);
  all ← gets proc_all;
  for_each (Seq.scan all) (fun p =>
    x ← proc_at p; memuser_load_addrspace (addrspace x);; on_mach (paging_setpde addr pde);; mret tt);;
  cur ← gets proc_current;
  (if negb (cur =? NULL) then x ← proc_at cur; memuser_load_addrspace (addrspace x);; mret tt else mret tt);;
  mret 0.

(** [memuser_syncpds] gets [virt+i], not [virt+i*PAGE_SIZE]. *)
Definition memkernel_alloc (inited : bool) (size : Z) : cmd kernel Z :=
  let pages := ADDR2PAGE size in
  virt ← on_mach (memkernel_findvirt pages);
  for_from (Z.to_nat pages) 0 (fun i =>
    pg ← on_mach memphys_pop;
    on_mach (paging_map (virt + i * PAGE_SIZE) pg false true);;
    if inited then memuser_syncpds (virt + i);; mret tt else mret tt);;
  mret virt.

Definition memkernel_free (addr : Z) : cmd kernel unit :=
  phys ← on_mach (paging_unmap addr); on_mach (memphys_push phys).

(** ** Devices in the address space of the caller *)

Definition VGA_TEXT_ADDRESS : Z := 753664.

Definition memuser_getvga : cmd kernel Z :=
  cur ← gets proc_current; x ← proc_at cur;
  virt ← memuser_findvirt (addrspace x) 1;
  (if negb (virt =? NULL)
   then on_mach (paging_map virt VGA_TEXT_ADDRESS true (gid x =? 1));; mret tt else mret tt);;
  mret virt.

Definition memuser_dma_alloc (size : Z) : cmd kernel Z :=
  phys ← on_mach (memphys_dma_alloc (size / PAGE_SIZE));
  if phys =? NULL then mret NULL else
  s ← current_space;
  virt ← memuser_findvirt s (size / PAGE_SIZE);
  if virt =? NULL then mret NULL else
  for_from (Z.to_nat ((size + PAGE_SIZE - 1) / PAGE_SIZE)) 0 (fun n =>
    on_mach (paging_map (virt + n * PAGE_SIZE) (phys + n * PAGE_SIZE) true true);; mret tt);;
  mret virt.

Definition memuser_dma_free (addr size : Z) : cmd kernel Z :=
  for_from (Z.to_nat ((size + PAGE_SIZE - 1) / PAGE_SIZE)) 0 (fun n =>
    phys ← on_mach (paging_unmap (addr + n * PAGE_SIZE)); on_mach (memphys_dma_free phys));;
  mret 0.

End memory.

(** ** The DMA bitmap *)

Definition dma_ok (bm : list Z) : Prop := length bm = 128%nat.

Lemma dma_word_index i j : i / 32 = j / 32 -> i mod 32 = j mod 32 -> i = j.
Proof. intros. rewrite (Z.div_mod i 32), (Z.div_mod j 32) by lia. lia. Qed.

Lemma dma_used_alter f bm i j :
  dma_ok bm -> 0 <= i < 4096 -> 0 <= j < 4096 ->
  (forall w n, 0 <= n -> n <> i mod 32 -> Z.testbit (f w) n = Z.testbit w n) ->
  dma_used (alter f (Z.to_nat (i / 32)) bm) j =
    if decide (j = i) then Z.testbit (f (default 0 (bm !! Z.to_nat (i / 32)))) (i mod 32)
    else dma_used bm j.
Proof.
  intros Hl Hi Hj Hf. unfold dma_used. pose proof (Z.mod_pos_bound j 32 ltac:(lia)).
  pose proof (Z.div_pos i 32). pose proof (Z.div_pos j 32).
  assert (Hlt : forall x, 0 <= x < 4096 -> (Z.to_nat (x / 32) < length bm)%nat).
  { intros x Hx. rewrite Hl. pose proof (Z.div_lt_upper_bound x 32 128). lia. }
  destruct (decide (j / 32 = i / 32)) as [E|Hne].
  - rewrite E, list_lookup_alter_eq.
    destruct (lookup_lt_is_Some_2 bm _ (Hlt i Hi)) as [w ->]. simpl.
    case_decide as D; [by subst|]. apply Hf; [lia|]. intros E2. apply D. by apply dma_word_index.
  - rewrite list_lookup_alter_ne by lia. rewrite decide_False; [done|congruence].
Qed.

Lemma dma_used_set bm i j : dma_ok bm -> 0 <= i < 4096 -> 0 <= j < 4096 ->
  dma_used (dma_set bm i) j = if decide (j = i) then true else dma_used bm j.
Proof.
  intros Hl Hi Hj. unfold dma_set. pose proof (Z.mod_pos_bound i 32 ltac:(lia)).
  rewrite dma_used_alter; auto.
  - by rewrite Z.setbit_eq by lia.
  - intros w n Hn Hne. apply Z.setbit_neq; lia.
Qed.

Lemma dma_used_clear bm i j : dma_ok bm -> 0 <= i < 4096 -> 0 <= j < 4096 ->
  dma_used (dma_clear bm i) j = if decide (j = i) then false else dma_used bm j.
Proof.
  intros Hl Hi Hj. unfold dma_clear. rewrite dma_used_alter; auto.
  - by rewrite Z.clearbit_eq.
  - intros w n Hn Hne. by apply Z.clearbit_neq.
Qed.

Lemma dma_ok_set bm i : dma_ok bm -> dma_ok (dma_set bm i).
Proof. unfold dma_ok, dma_set. by rewrite length_alter. Qed.

Lemma dma_mark_ok n : forall bm j, dma_ok bm -> 0 <= j -> j + Z.of_nat n <= 4096 ->
  dma_ok (dma_mark n bm j) /\
  forall p, 0 <= p < 4096 -> dma_used (dma_mark n bm j) p =
    if decide (j <= p < j + Z.of_nat n) then true else dma_used bm p.
Proof.
  induction n as [|n IH]; intros bm j Hl Hj Hr; simpl.
  - split; [done|]. intros p Hp. by rewrite decide_False by lia.
  - destruct (IH (dma_set bm j) (j + 1)) as [H1 H2]; [by apply dma_ok_set|lia|lia|].
    split; [done|]. intros p Hp. rewrite H2, dma_used_set by (auto; lia).
    repeat case_decide; auto; lia.
Qed.

(** [n] free pages from page [j] on. *)
Definition dma_free_run (bm : list Z) (j n : Z) : Prop :=
  forall p, j <= p < j + n -> dma_used bm p = false.

(** What the allocator promises: the lowest free run, marked used, or NULL when
    there is none. *)
Definition dma_spec (bm : list Z) (pages : Z) (r : Z) (bm' : list Z) : Prop :=
  (exists j, r = j * PAGE_SIZE /\ 0 <= j /\ j + pages <= dma_pages /\ dma_free_run bm j pages /\
     (forall j', 0 <= j' < j -> ~ dma_free_run bm j' pages) /\ dma_ok bm' /\
     forall p, 0 <= p < dma_pages ->
       dma_used bm' p = if decide (j <= p < j + pages) then true else dma_used bm p) \/
  (r = NULL /\ bm' = bm /\ forall j, 0 <= j -> j + pages <= dma_pages -> ~ dma_free_run bm j pages).

Lemma dma_scan_ok n : forall bm pages i found,
  dma_ok bm -> i + Z.of_nat n = dma_pages -> 0 <= found <= i -> found < pages ->
  dma_free_run bm (i - found) found ->
  (forall j, 0 <= j < i - found -> ~ dma_free_run bm j pages) ->
  dma_spec bm pages (dma_scan n bm pages i found).1 (dma_scan n bm pages i found).2.
Proof.
  change dma_pages with 4096.
  induction n as [|n IH]; intros bm pages i found Hl Hn Hf Hlt Hrun Hno; cbn [dma_scan].
  - right. split; [done|]. split; [done|]. change dma_pages with 4096. intros j Hj He. apply Hno. lia.
  - destruct (dma_used bm i) eqn:Hu; cbn [negb].
    + destruct (Z.eqb_spec 0 pages); [lia|]. apply (IH bm pages (i + 1) 0); auto; try lia.
      * intros p Hp. lia.
      * intros j Hj Hr. destruct (decide (j < i - found)); [by apply (Hno j); auto; lia|].
        rewrite Hr in Hu by lia. done.
    + rewrite (w32_small (found + 1)) by lia.
      assert (Hrun' : dma_free_run bm (i + 1 - (found + 1)) (found + 1)).
      { intros p Hp. destruct (decide (p = i)) as [->|]; [done|]. apply Hrun. lia. }
      destruct (Z.eqb_spec (found + 1) pages) as [<-|].
      * rewrite (w32_small (i - (found + 1 - 1))) by lia. cbn [fst snd]. left. exists (i - found).
        replace (i - (found + 1 - 1)) with (i - found) by lia.
        destruct (dma_mark_ok (Z.to_nat (i - (i - found) + 1)) bm (i - found)) as [H1 H2];
          [done|lia|lia|]. change dma_pages with 4096.
        rewrite w32_small by lia. repeat split; auto; try lia.
        -- intros p Hp. apply Hrun'. lia.
        -- intros p Hp. rewrite H2 by lia. repeat case_decide; auto; lia.
      * apply IH; auto; try lia. intros j Hj. apply Hno. lia.
Qed.

Lemma dma_alloc_ok m pages :
  dma_ok (memphys_dma_bitmap m) -> 0 < pages ->
  exists r bm', memphys_dma_alloc pages m = Ret r (set_dma m bm') /\ dma_spec (memphys_dma_bitmap m) pages r bm'.
Proof.
  intros Hl Hp. unfold memphys_dma_alloc.
  destruct (dma_scan _ _ _ _ _) as [r bm'] eqn:E. exists r, bm'. split; [done|].
  pose proof (dma_scan_ok (Z.to_nat dma_pages) (memphys_dma_bitmap m) pages 0 0) as H.
  rewrite E in H. apply H; auto; try lia; by intros ??; lia.
Qed.


(** [memphys_dma_alloc] returns the lowest run of free DMA pages of the
    requested length and marks exactly those pages used; it answers NULL, with
    the bitmap unchanged, only when no such run exists below 16 MB. *)
Theorem memphys_dma_alloc_correct m pages :
  dma_ok (memphys_dma_bitmap m) -> 0 < pages ->
  exists r bm', memphys_dma_alloc pages m = Ret r (set_dma m bm') /\ dma_spec (memphys_dma_bitmap m) pages r bm'.
Proof. apply dma_alloc_ok. Qed.

(** Freeing the pages of a run one by one. *)
Definition dma_free_pages (j n : Z) : cmd mach unit :=
  for_from (Z.to_nat n) 0 (fun i => memphys_dma_free ((j + i) * PAGE_SIZE)).

Lemma dma_free_loop n : forall j i m, dma_ok (memphys_dma_bitmap m) -> 0 <= j + i -> j + i + Z.of_nat n <= 4096 ->
  exists m', for_from n i (fun i => memphys_dma_free ((j + i) * PAGE_SIZE)) m = Ret tt m' /\ dma_ok (memphys_dma_bitmap m') /\ forall p, 0 <= p < 4096 -> dma_used (memphys_dma_bitmap m') p =
      if decide (j + i <= p < j + i + Z.of_nat n) then false else dma_used (memphys_dma_bitmap m) p.
Proof.
  induction n as [|n IH]; intros j i m Hl Hj Hr; cbn [for_from].
  - exists m. split; [done|]. split; [done|]. intros p Hp. by rewrite decide_False by lia.
  - assert (E : memphys_dma_free ((j + i) * 4096) m =
        Ret tt (set_dma m (dma_clear (memphys_dma_bitmap m) (j + i)))).
    { unfold memphys_dma_free. rewrite w32_small by lia. rewrite Z.div_mul by lia. rewrite Hl.
      destruct (Z.ltb_spec ((j + i) / 32) (Z.of_nat 128)) as [_|Hge]; [done|].
      pose proof (Z.div_lt_upper_bound (j + i) 32 128). lia. }
    rewrite (bind_Ret _ _ _ _ _ E).
    destruct (IH j (i + 1) (set_dma m (dma_clear (memphys_dma_bitmap m) (j + i)))) as (m' & E' & H1 & H2);
      [by unfold dma_ok, dma_clear; simpl; rewrite length_alter|lia|lia|].
    exists m'. split; [done|]. split; [done|]. intros p Hp. rewrite H2 by done. simpl.
    rewrite dma_used_clear by (auto; lia). repeat case_decide; auto; lia.
Qed.


(** giving a run of DMA pages back page by page makes exactly those pages
    free again, so allocating a run and freeing it restores the bitmap. *)
Theorem memphys_dma_alloc_free m pages j m1 :
  dma_ok (memphys_dma_bitmap m) -> 0 < pages ->
  memphys_dma_alloc pages m = Ret (j * PAGE_SIZE) m1 -> j <> 0 ->
  exists m2, dma_free_pages j pages m1 = Ret tt m2 /\
    forall p, 0 <= p < dma_pages ->
      dma_used (memphys_dma_bitmap m2) p = dma_used (memphys_dma_bitmap m) p.
Proof.
  intros Hl Hp E Hj. destruct (dma_alloc_ok m pages Hl Hp) as (r & bm' & E' & Hspec).
  rewrite E in E'. injection E' as <- ->.
  destruct Hspec as [(j' & Ej & Hj0 & Hjp & Hrun & _ & Hl' & Hu)|(Er & _)];
    [|unfold NULL in Er; lia].
  assert (j' = j) as -> by lia. change dma_pages with 4096 in *.
  destruct (dma_free_loop (Z.to_nat pages) j 0 (set_dma m bm')) as (m2 & E2 & _ & H2); [done|lia|lia|].
  exists m2. split; [done|]. intros p Hp'. rewrite H2 by done. simpl. rewrite Hu by done.
  repeat case_decide; try lia; [|done]. symmetry. apply Hrun. lia.
Qed.

(** ** Free virtual addresses *)

Definition USER_END : Z := USERDATA_ADDRESS + USERDATA_SIZE.

(** The start of the last directory entry's area. *)
Definition USER_LAST : Z := 4088 * MBYTES.

Definition free_run (m : mach) (u n : Z) : Prop :=
  forall i, 0 <= i < n -> pte_exists (hw_pte m (u + i * PAGE_SIZE)) = false.

Lemma getpte_pd_cur v m : paging_getpte_pd v (paging_curpd m) m = paging_getpte v m.
Proof. unfold paging_getpte_pd, gets, mbind at 1, cmd_bind at 1. by rewrite Z.eqb_refl. Qed.

Lemma hw_pte_missing m v u : pde_exists (pde_at m (v / 4194304)) = false ->
  u / 4194304 = v / 4194304 -> pte_exists (hw_pte m u) = false.
Proof. intros H E. unfold hw_pte. by rewrite E, H. Qed.

(** Where the scan stands at [virt] with [found] free pages behind it. *)
Record scanning (m : mach) (pages virt found : Z) : Prop := {
  sc_align : virt mod PAGE_SIZE = 0;
  sc_range : USERDATA_ADDRESS <= virt - found * PAGE_SIZE;
  sc_found : 0 <= found;
  sc_behind : free_run m (virt - found * PAGE_SIZE) found;
  sc_before : forall u, USERDATA_ADDRESS <= u < virt - found * PAGE_SIZE -> u mod PAGE_SIZE = 0 ->
    ~ free_run m u pages;
  sc_end : virt < USER_END \/ USER_LAST < virt - found * PAGE_SIZE + pages * PAGE_SIZE;
}.

Definition findvirt_spec (m : mach) (pages v : Z) : Prop :=
  (v <> NULL /\ USERDATA_ADDRESS <= v /\ v + pages * PAGE_SIZE <= USER_END /\ v mod PAGE_SIZE = 0 /\
   free_run m v pages) \/
  (v = NULL /\ forall u, USERDATA_ADDRESS <= u -> u mod PAGE_SIZE = 0 ->
     u + pages * PAGE_SIZE <= USER_LAST -> ~ free_run m u pages).

Lemma scanning_stop m pages virt found :
  scanning m pages virt found -> USER_END <= virt -> findvirt_spec m pages NULL.
Proof.
  intros [] Hv. right. split; [done|]. intros u Hu Ha Hl. apply sc_before0; [|done].
  destruct sc_end0; lia.
Qed.

Lemma scanning_hit m pages virt found :
  scanning m pages virt found -> 0 < pages -> pages <= found -> virt < USER_END ->
  findvirt_spec m pages (virt - found * PAGE_SIZE).
Proof.
  intros [] Hp Hf Hv. left.
  assert (USERDATA_ADDRESS = 1073741824) by done.
  split; [unfold NULL; lia|]. split; [lia|]. split; [lia|]. split.
  - rewrite Zminus_mod, sc_align0, Z.mod_mul by lia. done.
  - intros i Hi. apply sc_behind0. lia.
Qed.

(** A step over one page, free or taken. *)
Lemma scanning_page m pages virt found :
  scanning m pages virt found -> found < pages -> virt < USER_END ->
  scanning m pages (virt + PAGE_SIZE) (if pte_exists (hw_pte m virt) then 0 else found + 1).
Proof.
  intros [] Hf Hv.
  assert (Hend : virt + 4096 < USER_END \/ virt + 4096 = USER_END \/ USER_END < virt + 4096) by lia.
  assert (USER_LAST + 1023 * 4096 = USER_END) by done.
  assert (Ha : (virt + 4096) mod 4096 = 0) by (rewrite Zplus_mod, sc_align0; done).
  destruct (pte_exists (hw_pte m virt)) eqn:Hx; constructor; auto; try lia.
  - intros i Hi. lia.
  - intros u Hu Hua Hr. destruct (decide (u < virt - found * 4096)); [by apply (sc_before0 u); auto; lia|].
    pose proof (Z.div_mod virt 4096 ltac:(lia)). pose proof (Z.div_mod u 4096 ltac:(lia)).
    specialize (Hr (virt / 4096 - u / 4096)).
    replace (u + (virt / 4096 - u / 4096) * 4096) with virt in Hr by lia.
    rewrite Hr in Hx by lia. done.
  - intros i Hi. destruct (decide (i = found)) as [->|].
    + by replace (virt + 4096 - (found + 1) * 4096 + found * 4096) with virt by lia.
    + replace (virt + 4096 - (found + 1) * 4096) with (virt - found * 4096) by lia. apply sc_behind0. lia.
  - intros u Hu. apply sc_before0. lia.
Qed.

(** A step over a directory entry without table. *)
Lemma scanning_table m pages virt found :
  scanning m pages virt found -> found < pages -> virt < USER_END ->
  virt / 4096 mod 1024 = 0 -> pde_exists (pde_at m (virt / 4194304)) = false ->
  scanning m pages (virt + 1023 * PAGE_SIZE + PAGE_SIZE) (found + 1024).
Proof.
  intros [] Hf Hv Ht Hx. assert (USER_LAST + 1023 * 4096 = USER_END) by done.
  assert (USER_LAST = 1022 * 4194304) by done.
  pose proof (Z.div_mod virt 4096 ltac:(lia)). pose proof (Z.div_mod (virt / 4096) 1024 ltac:(lia)).
  assert (Hd : virt = virt / 4194304 * 4194304).
  { assert (virt / 4194304 = virt / 4096 / 1024) by (by rewrite Z.div_div by lia). lia. }
  constructor; auto; try lia.
  - rewrite Zplus_mod, (Zplus_mod virt), sc_align0. done.
  - intros i Hi. destruct (decide (i < found)).
    + replace (virt + 1023 * 4096 + 4096 - (found + 1024) * 4096) with (virt - found * 4096) by lia.
      apply sc_behind0. lia.
    + apply (hw_pte_missing m virt); [done|]. symmetry.
      apply (Z.div_unique _ _ _ ((i - found) * 4096)); lia.
  - intros u Hu. apply sc_before0. lia.
Qed.

Lemma findvirt_loop_ok fuel : forall m pages virt found,
  selfmap m -> 0 < pages -> scanning m pages virt found ->
  USER_END < virt + Z.of_nat fuel * PAGE_SIZE ->
  exists v, findvirt_loop fuel (paging_curpd m) pages virt found m = Ret v m /\ findvirt_spec m pages v.
Proof.
  induction fuel as [|fuel IH]; intros m pages virt found Hs Hp Hsc Hfuel; cbn [findvirt_loop].
  - exists NULL. split; [done|]. eapply scanning_stop; [done|lia].
  - change (USERDATA_ADDRESS + USERDATA_SIZE) with USER_END.
    destruct (Z.ltb_spec virt USER_END); [|exists NULL; split; [done|by eapply scanning_stop]].
    destruct (Z.leb_spec pages found); [eexists; split; [done|by apply scanning_hit]|].
    assert (Ha : addr32 virt).
    { destruct Hsc. unfold addr32. assert (USERDATA_ADDRESS = 1073741824) by done.
      assert (USER_END = 4290768896) by done. lia. }
    destruct (addr2pte virt Ha) as [Ht _].
    set (missing := (ADDR2PTE virt =? 0) && negb (pde_exists (pde_at m (virt / 4194304)))).
    rewrite (bind_Ret _ _ m missing m).
    2:{ unfold missing. destruct (ADDR2PTE virt =? 0); [|done].
        by rewrite (bind_Ret _ _ m _ m (eq_trans (getpde_pd_cur virt m) (getpde_ok m virt Hs Ha))). }
    destruct missing eqn:Hm; unfold missing in Hm.
    + zbool. apply IH; auto; [|lia]. apply scanning_table; auto. by rewrite <- Ht.
    + rewrite (bind_Ret _ _ m _ m (eq_trans (getpte_pd_cur virt m) (getpte_ok m virt Hs Ha))).
      apply IH; auto; [|lia]. by apply scanning_page.
Qed.

(** C21: the search for free virtual memory in the loaded address space
    terminates, changes nothing, and either returns a page-aligned range of
    the requested length inside the user area no page of which is in use, or
    answers NULL, and then every such range that ends before the area of the
    last directory entry has a page in use. *)
Theorem findvirt_correct m pages :
  selfmap m -> 0 < pages ->
  exists v, findvirt (paging_curpd m) pages m = Ret v m /\ findvirt_spec m pages v.
Proof.
  intros Hs Hp. unfold findvirt. assert (Hf : USER_END < USERDATA_ADDRESS + Z.of_nat findvirt_fuel * 4096).
  { unfold findvirt_fuel. rewrite Z2Nat.id by (vm_compute; congruence). by vm_compute. }
  revert Hf. generalize findvirt_fuel. intros fuel Hf. apply findvirt_loop_ok; auto.
  constructor; [done|lia|lia|intros i Hi; lia|intros u Hu; lia|by left].
Qed.

(** ** Page faults and swapping *)

Lemma pagedown_page v : addr32 v -> PAGEDOWN v / 4096 = v / 4096.
Proof. intros Hv. unfold PAGEDOWN. rewrite w32_small by done. apply Z.div_mul. lia. Qed.

Lemma below_pagedown v : below_tables v -> below_tables (PAGEDOWN v).
Proof.
  intros Hv. pose proof (below_pde v Hv) as [Ha _]. destruct (pagedown_off v Ha) as (_ & ? & ? & Hb).
  unfold below_tables, addr32 in *. lia.
Qed.

Lemma hw_pte_exists_pde m v : pte_exists (hw_pte m v) = true -> pde_exists (pde_at m (v / 4194304)) = true.
Proof. unfold hw_pte. by destruct (pde_exists _). Qed.

Section memory_facts.
Context `{Malloc}.

(** The current process and its address space. *)
Definition running (k : kernel) (x : proc_t) (a : addrspace_t) : Prop :=
  k_procs k !! proc_current k = Some x /\ k_spaces k !! addrspace x = Some a /\
  selfmap (k_mach k) /\ separate (k_mach k).

Lemma pagefault_enter k addr x a :
  running k x a -> below_tables addr ->
  memuser_pagefault addr k =
    (let page := PAGEDOWN addr in let pte := hw_pte (k_mach k) addr in
     if negb (pte_exists pte) then
       if (addr <? stack a) && (USERSTACK_END - USERSTACK_MAXSIZE <? addr)
       then (memuser_expand_stack (addrspace x);; mret 0) k else Ret (-1) k
     else if swapped pte && negb (in_memory pte) then
       (r ← swap_in (proc_current k) page;
        if negb (r =? -1) then
          upd_space (addrspace x) (fun a => set_pages_swapped a (Seq.drop_elem (pages_swapped a) page));;
          upd_space (addrspace x) (fun a => set_pages_loaded a (page :: pages_loaded a));;
          swap_remove (proc_current k) page;; mret 0
        else mret (-1)) k
     else if cow pte && in_memory pte then
       (new ← on_mach memphys_pop;
        on_mach (paging_setpte page (pte_uncow pte new));;
        on_mach (paging_physread page (PAGE2ADDR (Machine.page pte)) PAGE_SIZE);; mret 0) k
     else if negb (in_memory pte) then
       (new ← on_mach memphys_pop;
        on_mach (paging_setpte page (pte_loaded pte new));;
        upd_space (addrspace x) (fun a => set_pages_imaginary a (Seq.drop_elem (pages_imaginary a) page));;
        upd_space (addrspace x) (fun a => set_pages_loaded a (page :: pages_loaded a));; mret 0) k
     else Ret (-1) k).
Proof.
  intros (Hx & Ha & Hs & _) Hb. pose proof (below_pde addr Hb) as [Had _].
  destruct (pagedown_off addr Had) as (_ & _ & _ & Hpa).
  unfold memuser_pagefault, current_space.
  rewrite (bind_Ret (gets proc_current) _ k _ k eq_refl), bind_assoc.
  rewrite (bind_Ret (gets proc_current) _ k _ k eq_refl), bind_assoc.
  cstep (fetch_Some k_procs _ _ _ Hx). rewrite bind_ret. cstep (fetch_Some k_spaces _ _ _ Ha).
  cstep (on_mach_Ret _ _ _ _ (getpte_ok (k_mach k) _ Hs Hpa)).
  rewrite (hw_pte_page (k_mach k) addr) by (by apply pagedown_page).
  replace (set_k_mach k (k_mach k)) with k by (by destruct k).
  cbv zeta. by repeat case_match.
Qed.

(** C24: a fault on a page that was allocated but has no frame yet is resolved:
    the handler takes the top free frame, afterwards the MMU translates the
    page to it and every other page as before, and the page has moved from the
    imaginary to the loaded pages of the address space. *)
Theorem pagefault_demand k addr x a frame :
  running k x a -> below_tables addr -> free_frame (k_mach k) frame ->
  pte_exists (hw_pte (k_mach k) addr) = true -> in_memory (hw_pte (k_mach k) addr) = false ->
  swapped (hw_pte (k_mach k) addr) = false ->
  exists k', memuser_pagefault addr k = Ret 0 k' /\
    (forall v, below_tables v -> translate (phys (k_mach k')) (paging_curpd (k_mach k')) v =
       if decide (v / 4096 = addr / 4096) then Some (frame / 4096 * 4096 + v mod 4096)
       else translate (phys (k_mach k)) (paging_curpd (k_mach k)) v) /\
    k_spaces k' = <[addrspace x := set_pages_loaded
        (set_pages_imaginary a (Seq.drop_elem (pages_imaginary a) (PAGEDOWN addr)))
        (PAGEDOWN addr :: pages_loaded a)]> (k_spaces k) /\
    memphys_stackptr (k_mach k') = memphys_stackptr (k_mach k) - 4.
Proof.
  intros Hrun Hb (Hok & Hlt & Hfr & f & Hf & Hrd) Hx Hm Hsw.
  rewrite (pagefault_enter k addr x a Hrun Hb). cbv zeta. rewrite Hx, Hm, Hsw, andb_false_r. simpl.
  destruct Hrun as (_ & Ha & Hs & Hsep). pose proof (below_pagedown addr Hb) as Hb'.
  pose proof (below_pde addr Hb) as [Had _]. pose proof (below_pde _ Hb') as [Had' _].
  pose proof (pagedown_page addr Had) as Hpp. rewrite <- (hw_pte_page _ _ _ Hpp) in Hx, Hm, Hsw |- *.
  pose proof (hw_pte_exists_pde _ _ Hx) as Hpde.
  cstep (on_mach_Ret _ _ _ _ (memphys_pop_ok (k_mach k) f Hs Hok Hlt Hf)). rewrite Hrd.
  set (m1 := Machine.set_stack (k_mach k) _ _ _).
  assert (Hs1 : selfmap m1) by done.
  cstep (on_mach_Ret _ (set_k_mach k m1) _ _ (setpte_ok m1 _ (pte_loaded (hw_pte (k_mach k) (PAGEDOWN addr)) frame)
    Hs1 Had' Hpde)).
  match goal with |- context [set_k_mach (set_k_mach k m1) ?m] => set (k2 := set_k_mach (set_k_mach k m1) m) end.
  cstep (upd_space_Some _ (fun a => set_pages_imaginary a (Seq.drop_elem (pages_imaginary a) (PAGEDOWN addr)))
    a k2 Ha).
  rewrite (bind_Ret _ _ _ _ _ (upd_space_Some _ _ _ _ (lookup_insert_eq (k_spaces k2) _ _))).
  eexists. split; [reflexivity|]. split; [|split; [|done]].
  - intros v Hv. rewrite !translate_hw. unfold k2. cbn [k_mach set_k_mach set_k_spaces].
    rewrite (hw_pte_write m1) by done. rewrite Hpp. case_decide; [|done].
    rewrite dec_enc_pte. simpl. unfold ADDR2PAGE. by rewrite w32_small.
  - cbn [k_spaces set_k_spaces]. by rewrite insert_insert_eq.
Qed.

(** C31: a fault is refused, with nothing changed, when the page does not exist
    and the address is not in the stack area below the current stack, and when
    the page is loaded and not copy-on-write. *)
Theorem pagefault_refused k addr x a :
  running k x a -> below_tables addr ->
  (pte_exists (hw_pte (k_mach k) addr) = false /\
     (stack a <= addr \/ addr <= USERSTACK_END - USERSTACK_MAXSIZE)) \/
  (pte_exists (hw_pte (k_mach k) addr) = true /\ in_memory (hw_pte (k_mach k) addr) = true /\
     cow (hw_pte (k_mach k) addr) = false) ->
  memuser_pagefault addr k = Ret (-1) k.
Proof.
  intros Hrun Hb Hc. rewrite (pagefault_enter k addr x a Hrun Hb). cbv zeta.
  destruct Hc as [(-> & Hc)|(-> & -> & ->)]; simpl.
  - destruct (Z.ltb_spec addr (stack a)), (Z.ltb_spec (USERSTACK_END - USERSTACK_MAXSIZE) addr);
      simpl; try done; lia.
  - by rewrite andb_false_r.
Qed.

Lemma swap_call_ret op proc page k r k' : swap_call op proc page k = Ret r k' -> r = 0.
Proof.
  unfold swap_call. intros Hc.
  apply bind_Ret_inv in Hc as (p & k1 & Ep & Hc). unfold kmalloc in Ep. injection Ep as <- <-.
  rewrite (proj2 (Z.eqb_neq _ _) (malloc_nonnull _)) in Hc. simpl in Hc.
  apply bind_Ret_inv in Hc as (x & k2 & _ & Hc). by injection Hc.
Qed.

(** [swap_in] never succeeds: whenever it returns, it returns -1, because
    it takes the 0 that [swap_call] answers on success for a failure; so a
    fault on a page that is swapped out is never resolved. *)
Theorem swap_in_fails :
  (forall proc page k r k', swap_in proc page k = Ret r k' -> r = -1) /\
  (forall k addr x a r k', running k x a -> below_tables addr ->
     pte_exists (hw_pte (k_mach k) addr) = true -> swapped (hw_pte (k_mach k) addr) = true ->
     in_memory (hw_pte (k_mach k) addr) = false ->
     memuser_pagefault addr k = Ret r k' -> r = -1).
Proof.
  assert (Hin : forall proc page k r k', swap_in proc page k = Ret r k' -> r = -1).
  { intros proc page k r k' Hc. unfold swap_in in Hc.
    apply bind_Ret_inv in Hc as (sp & k1 & _ & Hc). destruct (sp =? NULL); [by injection Hc|].
    apply bind_Ret_inv in Hc as (x & k2 & _ & Hc). apply bind_Ret_inv in Hc as (a & k3 & _ & Hc).
    apply bind_Ret_inv in Hc as (pte & k4 & _ & Hc).
    destruct (negb (in_memory pte) && swapped pte); [|by injection Hc].
    apply bind_Ret_inv in Hc as (u & k5 & _ & Hc). apply bind_Ret_inv in Hc as (r' & k6 & E & Hc).
    apply swap_call_ret in E as ->. by injection Hc. }
  split; [done|]. intros k addr x a r k' Hrun Hb Hx Hsw Hm Hc.
  rewrite (pagefault_enter k addr x a Hrun Hb) in Hc. cbv zeta in Hc. rewrite Hx, Hsw, Hm in Hc. simpl in Hc.
  apply bind_Ret_inv in Hc as (r' & k1 & E & Hc). apply Hin in E as ->. by injection Hc.
Qed.

(** [memuser_destroy_addrspace] never completes on the loaded address
    space of a process that has a stack: the stack address is used as a
    pointer to an address space. *)
Theorem destroy_addrspace_stack k s a :
  k_spaces k !! s = Some a -> paging_curpd (k_mach k) = pagedir a -> stack a <> NULL ->
  k_spaces k !! stack a = None -> memuser_destroy_addrspace s k = Stop UseAfterFree k.
Proof.
  intros Ha Hcur Hst Hno. unfold memuser_destroy_addrspace. cstep (fetch_Some k_spaces _ _ _ Ha).
  rewrite (bind_Ret (gets _) _ k _ k eq_refl), Hcur, Z.eqb_refl. simpl.
  apply Z.eqb_neq in Hst as E. rewrite E. simpl.
  unfold memuser_destroy_stack, space_at, mbind, cmd_bind. rewrite fetch_None by done.
  unfold dangling. by rewrite E.
Qed.

End memory_facts.

(** ** Concrete instances *)

Lemma demo_like m : paging_enabled m = true -> paging_curpd m = 4096 ->
  (forall d, 0 <= d < 1024 -> pde_at m d = pde_at demo d) -> selfmap m /\ separate m.
Proof.
  intros He Hc Hd. split; [|split].
  - destruct demo_selfmap as (_ & _ & _ & H4 & H5). unfold selfmap.
    rewrite Hd, He, Hc by lia. repeat split; (done || lia).
  - intros d Hr. rewrite Hd, Hc by lia. by apply demo_separate.
  - intros d d' Hr Hr'. rewrite !Hd by lia. by apply demo_separate.
Qed.

(** [demo] with the entry [pte] for page 1 and the free frame 7. *)
Definition demo_pte (pte : pte_t) : mach :=
  set_phys demo (<[13308 := 28672]> (<[8196 := enc_pte pte]> (phys demo))).

Lemma demo_pte_ok pte : selfmap (demo_pte pte) /\ separate (demo_pte pte).
Proof.
  apply demo_like; [done|done|]. intros d Hd. unfold pde_at, demo_pte. cbn [phys set_phys paging_curpd].
  change (paging_curpd demo) with 4096. by rewrite !rd_insert, !decide_False by lia.
Qed.

(** A process at 100 with the loaded space at 200. *)
Definition demo_kernel (pte : pte_t) : kernel :=
  set_swap_proc (set_proc_current (set_k_spaces (set_k_procs (empty_kernel (demo_pte pte))
    {[100 := plain_proc 1 200]}) {[200 := AddrSpace 100 [] [4096] [] 4096 4290768896]}) 100) 100.

Definition demo_space : addrspace_t := AddrSpace 100 [] [4096] [] 4096 4290768896.

Lemma demo_running pte : running (demo_kernel pte) (plain_proc 1 200) demo_space.
Proof. split; [done|]. split; [done|]. apply demo_pte_ok. Qed.

Lemma demo_free_frame pte : free_frame (demo_pte pte) 28672.
Proof.
  split; [unfold stack_ok; simpl; lia|]. split; [simpl; lia|]. split; [unfold addr32; lia|].
  exists 13308. split; [|done]. rewrite translate_hw. unfold hw_pte, pde_at, demo_pte.
  cbn [phys set_phys paging_curpd memphys_stackptr]. by vm_compute.
Qed.

Definition demo_dma : mach := set_dma demo (repeat 0 128).

Lemma memphys_dma_alloc_correct_witness :
  exists r bm', memphys_dma_alloc 3 demo_dma = Ret r (set_dma demo_dma bm') /\
    dma_spec (repeat 0 128) 3 r bm'.
Proof. apply (memphys_dma_alloc_correct demo_dma 3); [reflexivity|lia]. Defined.

(** The bitmap [memphys_dma_init] builds. *)
Definition demo_dma2 : mach :=
  match memphys_dma_init demo with Ret _ m => m | Stop _ m => m end.

Lemma memphys_dma_alloc_free_witness : exists m2,
  (m1 ← memphys_dma_alloc 3;  dma_free_pages 768 3) demo_dma2 = Ret tt m2 /\
    forall p, 0 <= p < dma_pages ->
      dma_used (memphys_dma_bitmap m2) p = dma_used (memphys_dma_bitmap demo_dma2) p.
Proof.
  destruct (memphys_dma_alloc 3 demo_dma2) as [r m1|] eqn:E; [|vm_compute in E; discriminate].
  assert (r = 768 * PAGE_SIZE) as -> by (vm_compute in E; injection E as <- _; reflexivity).
  rewrite (bind_Ret _ _ _ _ _ E).
  apply (memphys_dma_alloc_free demo_dma2 3 768 m1); [reflexivity|lia|exact E|lia].
Defined.

Lemma findvirt_correct_witness :
  exists v, findvirt 4096 2 demo = Ret v demo /\ findvirt_spec demo 2 v.
Proof. apply (findvirt_correct demo 2 demo_selfmap). lia. Defined.

Lemma pagefault_demand_witness : exists k',
  memuser_pagefault 5000 (demo_kernel (imaginary_pte true)) = Ret 0 k' /\
  (forall v, below_tables v -> translate (phys (k_mach k')) (paging_curpd (k_mach k')) v =
       if decide (v / 4096 = 5000 / 4096) then Some (28672 / 4096 * 4096 + v mod 4096)
       else translate (phys (demo_pte (imaginary_pte true))) 4096 v) /\
  k_spaces k' = {[200 := AddrSpace 100 [4096] [] [] 4096 4290768896]} /\
  memphys_stackptr (k_mach k') = 1020.
Proof.
  destruct (pagefault_demand (demo_kernel (imaginary_pte true)) 5000 (plain_proc 1 200) demo_space 28672)
    as (k' & E & H1 & H2 & H3).
  - apply demo_running.
  - apply demo_below. lia.
  - apply demo_free_frame.
  - vm_compute. reflexivity.
  - vm_compute. reflexivity.
  - vm_compute. reflexivity.
  - exists k'. split; [exact E|]. split; [exact H1|]. split; [rewrite H2; vm_compute; reflexivity|].
    rewrite H3. reflexivity.
Defined.

Lemma pagefault_refused_witness :
  memuser_pagefault 9000 (demo_kernel (imaginary_pte true)) = Ret (-1) (demo_kernel (imaginary_pte true)).
Proof.
  apply (pagefault_refused _ 9000 (plain_proc 1 200) demo_space).
  - apply demo_running.
  - apply demo_below. lia.
  - left. split; [vm_compute; reflexivity|right; vm_compute; congruence].
Defined.

(** Page 1 is swapped out. *)
Definition swapped_entry : pte_t := Pte false true true false false false false false false true true true 0.

Lemma swap_in_fails_witness :
  match memuser_pagefault 5000 (demo_kernel swapped_entry) with Ret r _ => r = -1 | Stop _ _ => False end.
Proof.
  destruct (memuser_pagefault 5000 (demo_kernel swapped_entry)) as [r k'|w k'] eqn:E.
  - apply (proj2 swap_in_fails (demo_kernel swapped_entry) 5000 (plain_proc 1 200) demo_space r k');
      [apply demo_running|apply demo_below; lia|vm_compute; reflexivity..|exact E].
  - vm_compute in E. discriminate.
Defined.

Lemma destroy_addrspace_stack_witness :
  memuser_destroy_addrspace 200 (demo_kernel swapped_entry) = Stop UseAfterFree (demo_kernel swapped_entry).
Proof.
  apply (destroy_addrspace_stack _ 200 demo_space); [reflexivity|reflexivity|discriminate|reflexivity].
Defined.

(** In the kernel's area the search for free pages steps 1024*(PAGE_SIZE-1)
    bytes over a missing table and then returns an address off any page
    boundary: here 2048 pages with no table at all. *)
Example memkernel_findvirt_misaligned :
  match memkernel_findvirt 2048 demo with Ret v _ => v mod PAGE_SIZE | Stop _ _ => 0 end <> 0.
Proof. vm_compute. discriminate. Qed.
