(* ===== verification/Space.v ===== *)
(** * Frames, tables and the stack of free pages

    The invariant of the machine that the functions of paging.c, memphys.c and memuser.c
    keep together, and what their composition does: [layout] says that directory,
    tables, free frames and the stack that lists them do not overlap; [evolves] relates
    two machines of which the second has new pages; allocating a page at an address
    ([memuser_alloc_at]) is one such step, with its table made on the way if need be. *)

From S2P Require Import Prelude LList Machine Paging Kernel Memory.

#[local] Abbreviation tr m v := (translate (phys m) (paging_curpd m) v).
#[local] Abbreviation frame p := (p / 4096 * 4096).
#[local] Abbreviation buf_page := (BUFPAGE_ADDRESS / 4096).

(** The address of the [i]-th free frame, the top one first. *)
Definition slot (m : mach) (i : nat) : Z := memphys_stackptr m - 4 - 4 * Z.of_nat i.

Record layout (m : mach) (fl : list Z) : Prop := {
  lo_self : selfmap m;
  lo_sep : separate m;
  lo_buf : pde_exists (pde_at m (BUFPAGE_ADDRESS / 4194304)) = true;
  lo_stack : stack_ok m;
  lo_count : memphys_stackptr m = memphys_stackbase m + 4 * Z.of_nat (length fl);
  lo_range : 0 <= memphys_stackbase m /\ memphys_stackend m <= USERDATA_ADDRESS;
  lo_slot : forall i f, fl !! i = Some f -> exists p, tr m (slot m i) = Some p /\ rd (phys m) p = f /\
    data_frame m p /\ frame p ∉ fl;
  lo_nodup : NoDup fl;
  lo_free : forall f, f ∈ fl -> addr32 f /\ f mod 4096 = 0 /\ f <> NULL /\ data_frame m f;
}.

(** A physical address that belongs to none of them. *)
Definition data (m : mach) (fl : list Z) (p : Z) : Prop :=
  data_frame m p /\ frame p ∉ fl /\
  forall i q, (i < length fl)%nat -> tr m (slot m i) = Some q -> q / 4096 <> p / 4096.

(** From the first to the second machine free frames were taken, pages in [P] (whose
    tables may be new) and the buffer page mapped anew, and data at the addresses in [Q]
    overwritten. *)
Record evolves (P Q : Z -> Prop) (m : mach) (fl : list Z) (m' : mach) (fl' : list Z) : Prop := {
  ev_layout : layout m' fl';
  ev_buffer : buffer_ok m';
  ev_suffix : fl' `suffix_of` fl;
  ev_pd : paging_curpd m' = paging_curpd m;
  ev_pde : forall d, 0 <= d < 1024 -> (forall pg, P pg -> pg / 1024 <> d) -> pde_at m' d = pde_at m d;
  ev_pte : forall x, below_tables x -> ~ P (x / 4096) -> x / 4096 <> buf_page -> hw_pte m' x = hw_pte m x;
  ev_data : forall p, data m fl p -> data m' fl' p /\ (~ Q p -> rd (phys m') p = rd (phys m) p);
}.

Lemma hw_tr m m' x : hw_pte m' x = hw_pte m x -> tr m' x = tr m x.
Proof. intros E. by rewrite !translate_hw, E. Qed.

Lemma ev_tr P Q m fl m' fl' x : evolves P Q m fl m' fl' -> below_tables x -> ~ P (x / 4096) -> x / 4096 <> buf_page ->
  tr m' x = tr m x.
Proof. intros Hev Hx HP Hn. by apply hw_tr, (ev_pte _ _ _ _ _ _ Hev). Qed.

Definition nothing (x : Z) : Prop := False.

Lemma evolves_refl P Q m fl : layout m fl -> buffer_ok m -> evolves P Q m fl m fl.
Proof. intros. by split. Qed.

Lemma evolves_trans P Q m1 fl1 m2 fl2 m3 fl3 :
  evolves P Q m1 fl1 m2 fl2 -> evolves P Q m2 fl2 m3 fl3 -> evolves P Q m1 fl1 m3 fl3.
Proof.
  intros [_ _ S1 C1 E1 T1 D1] [L B S2 C2 E2 T2 D2]. split; [done|done|by transitivity fl2|congruence|..].
  - intros d Hd HP. by rewrite E2, E1.
  - intros x Hx HP Hb. by rewrite T2, T1.
  - intros p Hp. destruct (D1 p Hp) as [Hp' F1]. destruct (D2 p Hp') as [Hp'' F2]. split; [done|].
    intros HQ. by rewrite F2, F1.
Qed.

Lemma evolves_weaken (P Q P' Q' : Z -> Prop) m fl m' fl' :
  (forall x, P x -> P' x) -> (forall x, Q x -> Q' x) -> evolves P Q m fl m' fl' -> evolves P' Q' m fl m' fl'.
Proof.
  intros HP HQ [L B S C F T D]. split; [done..| | |].
  - intros d Hd Hn. apply F; auto.
  - intros x Hx Hn. apply T; auto.
  - intros p Hp. destruct (D p Hp) as [? E]. split; [done|]. intros Hn. apply E. auto.
Qed.

(** ** Taking a frame *)

Lemma slot_pop m i : slot (Machine.set_stack m (memphys_stackbase m) (memphys_stackend m) (memphys_stackptr m - 4)) i = slot m (S i).
Proof. unfold slot. simpl. lia. Qed.

Lemma pop_frame_ok m f fl : layout m (f :: fl) -> buffer_ok m ->
  exists m', memphys_pop m = Ret f m' /\ evolves nothing nothing m (f :: fl) m' fl /\ data m' fl f /\
    phys m' = phys m.
Proof.
  intros [Hs Hsep Hb Hst Hc Hr Hsl Hnd Hf] Hbuf. destruct (Hsl 0%nat f eq_refl) as (p & Hp & Hrd & Hdf & Hnp).
  unfold slot in Hp. rewrite Z.mul_0_r, Z.sub_0_r in Hp. cbn [length] in Hc.
  rewrite (memphys_pop_ok m p Hs Hst ltac:(lia) Hp), Hrd. eexists. split; [done|].
  apply NoDup_cons in Hnd as [Hnf Hnd]. destruct (Hf f ltac:(left)) as (Hf1 & Hf2 & Hf3 & Hf4).
  assert (Eff : frame f = f) by (pose proof (Z.div_mod f 4096 ltac:(lia)); lia).
  split; [|split; [|done]].
  - split; [|done|by exists [f]|done|done|done|].
    + split; try done; [unfold stack_ok in *; simpl; lia|simpl; lia|..].
      * intros i g Hg. destruct (Hsl (S i) g Hg) as (q & Hq & Hq2 & Hq3 & Hq4). exists q.
        rewrite slot_pop. split_and!; try done. set_solver.
      * intros g Hg. apply Hf. by right.
    + intros q (Hq1 & Hq2 & Hq3). split; [|done]. split; [done|]. split; [set_solver|].
      intros i x Hi Hx. rewrite slot_pop in Hx. apply (Hq3 (S i)); [simpl; lia|done].
  - split; [done|]. split; [by rewrite Eff|]. intros i q Hi Hq. rewrite slot_pop in Hq.
    destruct (lookup_lt_is_Some_2 fl i Hi) as [g Hg]. destruct (Hsl (S i) g Hg) as (q' & Hq' & _ & _ & Hn).
    cbn [phys paging_curpd Machine.set_stack] in Hq. rewrite Hq' in Hq. simplify_eq. intros E. apply Hn. rewrite E, Eff. left.
Qed.

(** ** Writes that leave the directory alone *)

Lemma data_frame_same m m' p : paging_curpd m' = paging_curpd m ->
  (forall d, 0 <= d < 1024 -> pde_at m' d = pde_at m d) -> data_frame m p -> data_frame m' p.
Proof.
  intros Hc Hd (H1 & H2 & H3). split; [done|]. rewrite Hc. split; [done|]. intros d Hr. rewrite Hd by lia. by apply H3.
Qed.

Lemma slot_below m fl i : layout m fl -> (i < length fl)%nat ->
  below_tables (slot m i) /\ 0 <= slot m i / 4096 < USERDATA_ADDRESS / 4096 /\ slot m i / 4096 <> buf_page.
Proof.
  intros [_ _ _ Hst Hc Hr _ _ _] Hi. change (USERDATA_ADDRESS / 4096) with 262144. change buf_page with 1047551.
  unfold stack_ok, slot, below_tables, USERDATA_ADDRESS, PAGETABLES_ADDRESS in *.
  set (a := _ - 4 - _). assert (Ha : 0 <= a < 1073741824) by (unfold a; lia).
  pose proof (Z.div_pos a 4096 ltac:(lia) ltac:(lia)).
  pose proof (Z.div_lt_upper_bound a 4096 262144 ltac:(lia) ltac:(lia)).
  lia.
Qed.

Lemma keep_layout (P Q : Z -> Prop) m fl m' :
  layout m fl -> paging_enabled m' = paging_enabled m -> paging_curpd m' = paging_curpd m ->
  memphys_stackbase m' = memphys_stackbase m -> memphys_stackend m' = memphys_stackend m ->
  memphys_stackptr m' = memphys_stackptr m -> buffer_ok m' ->
  (forall d, 0 <= d < 1024 -> pde_at m' d = pde_at m d) ->
  (forall pg, P pg -> USERDATA_ADDRESS / 4096 <= pg) ->
  (forall x, below_tables x -> ~ P (x / 4096) -> x / 4096 <> buf_page -> hw_pte m' x = hw_pte m x) ->
  (forall p, data_frame m p -> ~ Q p -> rd (phys m') p = rd (phys m) p) ->
  (forall i q, (i < length fl)%nat -> tr m (slot m i) = Some q -> ~ Q q) ->
  evolves P Q m fl m' fl.
Proof.
  intros Hl He Hc Hb Hen Hp Hbuf Hd HP Htr Hrd Hslot.
  assert (Hs' : forall i, slot m' i = slot m i) by (intros; unfold slot; by rewrite Hp).
  assert (Htr' : forall i, (i < length fl)%nat -> tr m' (slot m' i) = tr m (slot m i)).
  { intros i Hi. rewrite Hs'. destruct (slot_below m fl i Hl Hi) as (? & ? & ?). apply hw_tr, Htr; [done| |done].
    intros HPi%HP. lia. }
  pose proof Hl as [Hs Hsep Hbt Hst Hct Hr Hsl Hnd Hf]. split; [|done|done|done|by intros; apply Hd|done|].
  - split; try done.
    + destruct Hs as (S1 & S2 & S3 & S4 & S5). unfold selfmap. rewrite Hd, He, Hc by lia. done.
    + destruct Hsep as (S1 & S2). split.
      * intros d Hdr. rewrite Hd, Hc by lia. apply S1. lia.
      * intros d d' Hdr Hdr'. rewrite !Hd by lia. apply S2; lia.
    + rewrite Hd; [done|]. change (BUFPAGE_ADDRESS / 4194304) with 1022. lia.
    + unfold stack_ok in *. by rewrite Hb, Hen, Hp.
    + by rewrite Hp, Hb.
    + by rewrite Hb, Hen.
    + intros i f Hfi. pose proof (lookup_lt_Some _ _ _ Hfi) as Hi. destruct (Hsl i f Hfi) as (p & H1 & H2 & H3 & H4).
      exists p. rewrite Htr', Hrd by eauto. split_and!; try done. by apply data_frame_same with m.
    + intros f Hfi. destruct (Hf f Hfi) as (? & ? & ? & ?). split_and!; try done. by apply data_frame_same with m.
  - intros p (H1 & H2 & H3). split; [|by intros; apply Hrd]. split; [by apply data_frame_same with m|].
    split; [done|]. intros i q Hi. rewrite Htr' by done. by apply H3.
Qed.

(** A table entry is not data. *)
Lemma pte_word_table m v p : below_tables v -> pde_exists (pde_at m (v / 4194304)) = true -> data_frame m p ->
  p <> pte_word m v.
Proof.
  intros Hv Hx (_ & _ & H) ->. pose proof (below_pde v Hv) as [_ Hd]. apply (H _ Hd Hx). unfold pte_word.
  pose proof (Z.mod_pos_bound (v / 4096) 1024 ltac:(lia)).
  apply (Z.div_unique _ _ _ (4 * (v / 4096 mod 1024))); lia.
Qed.

Lemma buf_below : below_tables BUFPAGE_ADDRESS.
Proof. unfold below_tables, BUFPAGE_ADDRESS, PAGETABLES_ADDRESS. lia. Qed.

Lemma write_pte m fl v pte : layout m fl -> buffer_ok m -> below_tables v -> USERDATA_ADDRESS <= v ->
  v / 4096 <> buf_page -> pde_exists (pde_at m (v / 4194304)) = true ->
  let m' := set_phys m (<[pte_word m v := enc_pte pte]> (phys m)) in
  paging_setpte v pte m = Ret 0 m' /\ evolves (eq (v / 4096)) nothing m fl m' fl /\ hw_pte m' v = pte.
Proof.
  intros Hl Hbuf Hv Hu Hnb Hx m'. pose proof Hl as [Hs Hsep _ _ _ _ _ _ _]. pose proof (below_pde v Hv) as [Hva _].
  assert (Htr : forall x, below_tables x -> x / 4096 <> v / 4096 -> hw_pte m' x = hw_pte m x).
  { intros x Hxb Hne. unfold m'. by rewrite hw_pte_write, decide_False. }
  split; [by apply setpte_ok|]. split.
  - apply keep_layout; try done.
    + intros Hpd. rewrite (hw_tr m m' BUFPAGE_ADDRESS), (Hbuf Hpd); [done|]. apply Htr; [apply buf_below|congruence].
    + intros d Hd. by apply pde_at_pte_write.
    + intros pg <-. apply Z.div_le_mono; lia.
    + intros x Hxb HP _. apply Htr; [done|]. congruence.
    + intros p Hp _. unfold m'. cbn [phys set_phys]. rewrite rd_insert, decide_False; [done|].
      intros E. by apply (pte_word_table m v p Hv Hx Hp).
    + by intros i q _ _ [].
  - unfold m'. by rewrite hw_pte_write, decide_True, dec_enc_pte.
Qed.

(** ** Storing data *)

Lemma write_data m fl v p w : layout m fl -> buffer_ok m -> tr m v = Some p -> data m fl p ->
  let m' := set_phys m (<[p := w]> (phys m)) in
  vstore v w m = Ret tt m' /\ evolves nothing (eq p) m fl m' fl /\ rd (phys m') p = w /\
  (forall x, below_tables x -> hw_pte m' x = hw_pte m x).
Proof.
  intros Hl Hbuf Ht (Hp & _ & Hsl) m'. pose proof Hl as [Hs Hsep _ _ _ _ _ _ _].
  assert (Htr : forall x, below_tables x -> hw_pte m' x = hw_pte m x) by (intros x Hx; by apply data_write_hw).
  split; [|split; [|split; [|done]]].
  - unfold vstore, resolve. by rewrite (proj1 Hs), Ht.
  - apply keep_layout; try done.
    + intros Hpd. rewrite (hw_tr m m' _ (Htr BUFPAGE_ADDRESS buf_below)). by apply Hbuf.
    + intros d Hd. by apply data_write_pde.
    + intros x Hx _ _. by apply Htr.
    + intros q _ Hne. unfold m'. cbn [phys set_phys]. by rewrite rd_insert, decide_False.
    + intros i q Hi Hq <-. by apply (Hsl i p).
  - unfold m'. cbn [phys set_phys]. by rewrite rd_insert, decide_True.
Qed.

(** Mapping the buffer page. *)
Lemma map_buffer_layout m fl f : layout m fl -> addr32 f -> frame f = f ->
  exists m', map_buffer f m = Ret true m' /\ evolves nothing nothing m fl m' fl /\ tr m' BUFPAGE_ADDRESS = Some f.
Proof.
  intros Hl Hf Hal. pose proof Hl as [Hs Hsep Hb _ _ _ _ _ _]. pose proof buf_below as Hbb.
  unfold map_buffer, paging_map. rewrite (bind_Ret _ _ _ _ _ (map_exact m _ _ _ _ _ _ Hs Hbb Hb)).
  eexists. split; [reflexivity|].
  set (pte := new_pte f false true false false). set (m1 := set_phys m _).
  assert (Ht : forall x, below_tables x -> hw_pte m1 x = if decide (x / 4096 = buf_page) then pte else hw_pte m x).
  { intros x Hx. unfold m1. rewrite (hw_pte_write m BUFPAGE_ADDRESS), dec_enc_pte by done. done. }
  assert (Htb : tr m1 BUFPAGE_ADDRESS = Some f).
  { rewrite translate_hw, Ht, decide_True by done. cbn [pte new_pte in_memory page]. unfold ADDR2PAGE.
    rewrite w32_small, Hal by done. f_equal. apply Z.add_0_r. }
  split; [|exact Htb]. apply keep_layout; try done.
  - intros _. exact Htb.
  - intros d Hd. by apply (pde_at_pte_write m BUFPAGE_ADDRESS).
  - intros x Hx _ Hne. change (hw_pte m1 x = hw_pte m x). by rewrite Ht, decide_False.
  - intros p Hp _. unfold m1. cbn [phys set_physrw set_phys]. rewrite rd_insert, decide_False; [done|].
    intros E. by apply (pte_word_table m BUFPAGE_ADDRESS p Hbb Hb Hp).
  - by intros i q _ _ [].
Qed.

Lemma data_page m fl p p' : data m fl p -> p' / 4096 = p / 4096 -> 0 <= p' -> data m fl p'.
Proof.
  intros ((H1 & H2 & H3) & H4 & H5) E Hp. split; [split; [done|by rewrite E]|]. rewrite E. by split.
Qed.

Lemma in_frame f o : frame f = f -> 0 <= o < 4096 -> (f + o) / 4096 = f / 4096.
Proof. intros Hf Ho. symmetry. apply (Z.div_unique _ _ _ o); lia. Qed.

(** Clearing a frame through the buffer page. *)
Lemma clear_buffer n i m fl f : layout m fl -> buffer_ok m -> tr m BUFPAGE_ADDRESS = Some f -> frame f = f ->
  0 <= f -> data m fl f -> 0 <= i -> i + Z.of_nat n <= 1024 ->
  exists m', for_from n i (fun j => vstore (BUFPAGE_ADDRESS + 4 * j) 0) m = Ret tt m' /\
    evolves nothing (fun p => frame p = f) m fl m' fl /\
    (forall x, below_tables x -> hw_pte m' x = hw_pte m x) /\
    (forall j, i <= j < i + Z.of_nat n -> rd (phys m') (f + 4 * j) = 0) /\
    (forall j, 0 <= j < i -> rd (phys m') (f + 4 * j) = rd (phys m) (f + 4 * j)).
Proof.
  intros Hl Hb Ht Hal Hf Hd Hi Hn. revert m i Hl Hb Ht Hd Hi Hn.
  induction n as [|n IH]; intros m i Hl Hb Ht Hd Hi Hn.
  { exists m. split; [done|]. split; [by apply evolves_refl|]. split_and!; try done. intros j Hj. lia. }
  pose proof (in_frame f (4 * i) Hal ltac:(lia)) as Hfr.
  assert (Ht' : tr m (BUFPAGE_ADDRESS + 4 * i) = Some (f + 4 * i)) by (by rewrite translate_offset, Ht by (done || lia)).
  destruct (write_data m fl _ _ 0 Hl Hb Ht' (data_page m fl f _ Hd Hfr ltac:(lia))) as (E & Hev & Hz & Htr).
  set (m1 := set_phys m _) in *. pose proof Hev as [Hl1 Hb1 _ _ _ _ Hd1].
  destruct (IH m1 (i + 1) Hl1 Hb1) as (m' & E' & Hev' & Htr' & Hz' & Ho'); [|by apply Hd1|lia..|].
  { by rewrite (hw_tr m m1 _ (Htr _ buf_below)). }
  exists m'. split_and!.
  - cbn [for_from]. by rewrite (bind_Ret _ _ _ _ _ E).
  - apply evolves_trans with m1 fl; [|done]. apply (evolves_weaken nothing (eq (f + 4 * i))); [done| |done].
    intros x <-. by rewrite Hfr.
  - intros x Hx. by rewrite Htr', Htr.
  - intros j Hj. destruct (decide (j = i)) as [->|]; [by rewrite Ho' by lia|apply Hz'; lia].
  - intros j Hj. rewrite Ho' by lia. unfold m1. cbn [phys set_phys]. rewrite rd_insert, decide_False by lia. done.
Qed.

Lemma cleanpage_ok m fl f : layout m fl -> buffer_ok m -> addr32 f -> frame f = f -> data m fl f ->
  exists m', paging_cleanpage f m = Ret f m' /\ evolves nothing (fun p => frame p = f) m fl m' fl /\
    forall j, 0 <= j < 1024 -> rd (phys m') (f + 4 * j) = 0.
Proof.
  intros Hl Hb Hf Hal Hd. pose proof (proj1 (lo_self _ _ Hl)) as He. unfold paging_cleanpage.
  rewrite bind_gets, He. cbv zeta. assert (PAGEDOWN f = f) as -> by (unfold PAGEDOWN; rewrite w32_small by done; exact Hal).
  rewrite bind_gets.
  assert (Hmap : exists m1, (if negb (buffered f m) then map_buffer f else mret true) m = Ret true m1 /\
    evolves nothing nothing m fl m1 fl /\ tr m1 BUFPAGE_ADDRESS = Some f).
  { destruct (buffered f m) eqn:Hhit; cbn [negb]; [|by apply map_buffer_layout].
    unfold buffered in Hhit. apply andb_true_iff in Hhit as [H1%Z.eqb_eq H2%Z.eqb_eq].
    exists m. split; [done|]. split; [by apply evolves_refl|]. rewrite (Hb (eq_sym H2)). by rewrite <- H1. }
  destruct Hmap as (m1 & E1 & Hev1 & Ht1). rewrite (bind_Ret _ _ _ _ _ E1). cbn [negb].
  pose proof Hev1 as [Hl1 Hb1 _ _ _ _ Hd1]. destruct Hf as [Hf0 Hf1].
  destruct (clear_buffer 1024 0 m1 fl f Hl1 Hb1 Ht1 Hal Hf0) as (m2 & E2 & Hev2 & _ & Hz & _);
    [by apply Hd1|lia|lia|].
  unfold clear_words. change (Z.to_nat (PAGE_SIZE / 4)) with 1024%nat. rewrite (bind_Ret _ _ _ _ _ E2).
  exists m2. split; [done|]. split; [|exact Hz].
  apply evolves_trans with m1 fl; [|done]. by apply (evolves_weaken nothing nothing).
Qed.

(** A cleared frame becomes a table: nothing changes for the pages. *)
Lemma new_table m fl f v : layout m fl -> buffer_ok m -> addr32 f -> frame f = f -> data m fl f ->
  (forall j, 0 <= j < 1024 -> rd (phys m) (f + 4 * j) = 0) ->
  below_tables v -> pde_exists (pde_at m (v / 4194304)) = false ->
  let m' := set_pde m (v / 4194304) (new_pde (f / 4096)) in
  paging_setpde v (new_pde (ADDR2PAGE f)) m = Ret 0 m' /\ layout m' fl /\ buffer_ok m' /\
  (forall x, below_tables x -> hw_pte m' x = hw_pte m x) /\
  (forall p, data m fl p -> frame p <> f -> data m' fl p /\ rd (phys m') p = rd (phys m) p) /\
  pde_exists (pde_at m' (v / 4194304)) = true.
Proof.
  intros Hl Hb Hf Hal (Hdf & Hnf & Hns) Hz Hv Hx m'. pose proof (below_pde v Hv) as [Hva Hvd].
  pose proof Hl as [Hs Hsep Hbt Hst Hct Hr Hsl Hnd Hfree]. set (d := v / 4194304) in *.
  assert (Htf : table_frame m f) by (destruct Hdf as (_ & ? & ?); done).
  destruct (set_pde_selfmap m d f Hs Hsep Hvd Hx Htf) as [Hs' Hsep']. fold m' in Hs', Hsep'.
  assert (Hpd : forall e, pde_at m' e = if decide (e = d) then new_pde (f / 4096) else pde_at m e) by (intros; apply pde_at_set).
  assert (Hrd : forall p, frame p <> paging_curpd m -> rd (phys m') p = rd (phys m) p).
  { intros p Hp. unfold m', set_pde. cbn [phys set_phys]. rewrite rd_insert, decide_False; [done|]. intros <-. apply Hp.
    rewrite in_frame; [|pose proof (Z.div_mod (paging_curpd m) 4096 ltac:(lia)); pose proof (proj1 (proj2 Hs)); lia|lia].
    pose proof (Z.div_mod (paging_curpd m) 4096 ltac:(lia)). pose proof (proj1 (proj2 Hs)). lia. }
  assert (Hhw : forall x, below_tables x -> hw_pte m' x = hw_pte m x).
  { intros x Hxb. pose proof (below_pde x Hxb) as [_ Hxd]. pose proof (Z.mod_pos_bound (x / 4096) 1024 ltac:(lia)) as Hmod.
    unfold hw_pte. rewrite Hpd. destruct (decide (x / 4194304 = d)) as [->|].
    - cbn [new_pde pde_exists pde_page]. rewrite Hal, Hx, Hrd, Hz by
        (try lia; rewrite in_frame by (done || lia); destruct Hdf as (_ & ? & _); done). done.
    - destruct (pde_exists (pde_at m (x / 4194304))) eqn:Hxx; [|done]. rewrite Hrd; [done|].
      rewrite Z.div_add_l by lia. rewrite (Z.div_small (4 * _) 4096), Z.add_0_r by lia. by apply (proj1 Hsep). }
  assert (Hdat : forall p, data_frame m p -> frame p <> f -> data_frame m' p /\ rd (phys m') p = rd (phys m) p).
  { intros p (H1 & H2 & H3) Hne. split; [|by apply Hrd]. split; [done|]. split; [done|]. intros e He. rewrite Hpd.
    destruct (decide (e = d)); [|by apply H3]. intros _. cbn [new_pde pde_page]. intros E. by rewrite <- E in Hne. }
  assert (Htrs : forall i, (i < length fl)%nat -> tr m' (slot m' i) = tr m (slot m i)).
  { intros i Hi. apply hw_tr, Hhw. by destruct (slot_below m fl i Hl Hi). }
  split; [|split; [|split; [|split; [done|split]]]].
  - rewrite setpde_ok by done. unfold ADDR2PAGE. by rewrite w32_small.
  - split; try done.
    + rewrite Hpd. by case_decide.
    + intros i g Hg. pose proof (lookup_lt_Some _ _ _ Hg) as Hi. destruct (Hsl i g Hg) as (p & H1 & H2 & H3 & H4).
      destruct (Hdat p H3) as [H5 H6]; [intros E; apply (Hns i p Hi H1); rewrite <- E, Z.div_mul by lia; done|].
      exists p. rewrite Htrs by done. by rewrite H6.
    + intros g Hg. destruct (Hfree g Hg) as (H1 & H2 & H3 & H4). split_and!; try done.
      apply Hdat; [done|]. intros E. apply Hnf. rewrite Hal. pose proof (Z.div_mod g 4096 ltac:(lia)).
      replace f with g by lia. done.
  - intros E. rewrite (hw_tr m m' _ (Hhw _ buf_below)). by apply Hb.
  - intros p (H1 & H2 & H3) Hne. destruct (Hdat p H1 Hne) as [H4 H5]. split; [|done]. split; [done|]. split; [done|].
    intros i q Hi. rewrite Htrs by done. by apply H3.
  - by rewrite Hpd, decide_True.
Qed.

Lemma page_table v : v / 4096 / 1024 = v / 4194304.
Proof. by rewrite Z.div_div by lia. Qed.

Lemma create_pagetable_ok m f fl v : layout m (f :: fl) -> buffer_ok m -> below_tables v ->
  pde_exists (pde_at m (v / 4194304)) = false ->
  exists m', memuser_create_pagetable (paging_curpd m) v m = Ret 0 m' /\
    evolves (eq (v / 4096)) nothing m (f :: fl) m' fl /\ pde_exists (pde_at m' (v / 4194304)) = true.
Proof.
  intros Hl Hb Hv Hx. destruct (lo_free _ _ Hl f ltac:(left)) as (Hf & Hal & _ & _). pose proof (below_pde v Hv) as [_ Hvd].
  assert (Haf : frame f = f) by (pose proof (Z.div_mod f 4096 ltac:(lia)); lia).
  destruct (pop_frame_ok m f fl Hl Hb) as (m1 & E1 & Hev1 & Hd1 & _). pose proof Hev1 as [Hl1 Hb1 _ Hc1 Hp1 Ht1 Hk1].
  destruct (cleanpage_ok m1 fl f Hl1 Hb1 Hf Haf Hd1) as (m2 & E2 & Hev2 & Hz). pose proof Hev2 as [Hl2 Hb2 _ Hc2 Hp2 Ht2 Hk2].
  assert (Hx2 : pde_exists (pde_at m2 (v / 4194304)) = false) by (by rewrite Hp2, Hp1 by (lia || by intros ? [])).
  destruct (new_table m2 fl f v Hl2 Hb2 Hf Haf) as (E3 & Hl3 & Hb3 & Ht3 & Hk3 & Hx3); [by apply Hk2|done..|].
  eexists. split; [|split; [|exact Hx3]].
  - unfold memuser_create_pagetable. rewrite (bind_Ret _ _ _ _ _ E1), (bind_Ret _ _ _ _ _ E2).
    unfold paging_setpde_pd. rewrite bind_assoc, bind_gets, Hc2, Hc1, Z.eqb_refl.
    by rewrite (bind_Ret _ _ _ _ _ E3).
  - split; [done|done|by exists [f]|by cbn; rewrite Hc2, Hc1|..].
    + intros d Hd Hn. rewrite pde_at_set, decide_False, Hp2, Hp1; try done.
      intros ->. by apply (Hn _ eq_refl), page_table.
    + intros x Hxb _ Hnb. rewrite Ht3, Ht2, Ht1 by (done || by intros []). done.
    + intros p Hp. destruct (Hk1 p Hp) as [Hp' R1]. destruct (Hk2 p Hp') as [Hp'' R2].
      assert (Hne : frame p <> f) by (intros E; destruct Hp as (_ & Hn & _); apply Hn; rewrite E; left).
      destruct (Hk3 p Hp'' Hne) as [Hp3 R3]. split; [done|]. intros _. by rewrite R3, R2, R1 by (done || by intros []).
Qed.

Lemma ensure_table_ok m f fl v : layout m (f :: fl) -> buffer_ok m -> below_tables v ->
  exists m' fl', ensure_table (paging_curpd m) v m = Ret tt m' /\ (fl' = fl \/ fl' = f :: fl) /\
    evolves (eq (v / 4096)) nothing m (f :: fl) m' fl' /\ pde_exists (pde_at m' (v / 4194304)) = true.
Proof.
  intros Hl Hb Hv. pose proof (below_pde v Hv) as [Hva _]. unfold ensure_table, paging_getpde_pd.
  rewrite bind_assoc, bind_gets, Z.eqb_refl, (bind_Ret _ _ _ _ _ (getpde_ok m v (lo_self _ _ Hl) Hva)).
  destruct (pde_exists (pde_at m (v / 4194304))) eqn:Hx; cbn [negb].
  - exists m, (f :: fl). split_and!; auto. by apply evolves_refl.
  - destruct (create_pagetable_ok m f fl v Hl Hb Hv Hx) as (m' & E & Hev & Hx'). exists m', fl.
    rewrite (bind_Ret _ _ _ _ _ E). auto.
Qed.

(** ** Allocating a page at an address *)

Lemma data_not_null m fl p : data m fl p -> 0 <= p. Proof. by intros ((? & _) & _). Qed.

Lemma free_data m fl f : layout m fl -> f ∈ fl -> frame f = f.
Proof. intros Hl Hf. destruct (lo_free _ _ Hl f Hf) as (_ & H & _). pose proof (Z.div_mod f 4096 ltac:(lia)). lia. Qed.

(** The frame for the new page: the given one, or the top free one. *)
Lemma take_frame k f fl p : layout (k_mach k) (f :: fl) -> buffer_ok (k_mach k) ->
  exists m' fl' q, (if p =? NULL then on_mach memphys_pop else mret p) k = Ret q (set_k_mach k m') /\
    evolves nothing nothing (k_mach k) (f :: fl) m' fl' /\
    (if p =? NULL then fl' = fl /\ q = f /\ data m' fl f else fl' = f :: fl /\ q = p).
Proof.
  intros Hl Hb. destruct (Z.eqb_spec p NULL) as [->|Hp].
  - destruct (pop_frame_ok _ f fl Hl Hb) as (m' & E & Hev & Hd & _). exists m', fl, f. split; [by apply on_mach_Ret|]. done.
  - exists (k_mach k), (f :: fl), p. split; [by destruct k|]. split; [by apply evolves_refl|done].
Qed.

(** What a page that was allocated at [v] looks like: frame [q] behind every address. *)
Definition maps_page (m : mach) (v q : Z) : Prop :=
  forall x, x / 4096 = v / 4096 -> tr m x = Some (q + x mod 4096).

Section alloc.
Context `{Malloc}.

Lemma alloc_at_ok k sp a v p w f g fl :
  k_spaces k !! sp = Some a -> pagedir a = paging_curpd (k_mach k) ->
  layout (k_mach k) (f :: g :: fl) -> buffer_ok (k_mach k) -> below_tables v -> USERDATA_ADDRESS <= v ->
  v / 4096 <> buf_page -> (p <> NULL -> addr32 p /\ data (k_mach k) (f :: g :: fl) p) ->
  exists m' fl' q, memuser_alloc_at sp v p w k =
      Ret 0 (set_k_spaces (set_k_mach k m') (<[sp := set_pages_loaded a (v :: pages_loaded a)]> (k_spaces k))) /\
    evolves (eq (v / 4096)) nothing (k_mach k) (f :: g :: fl) m' fl' /\ (length fl <= length fl')%nat /\
    maps_page m' v q /\ data m' fl' q /\ addr32 q /\ frame q = q /\
    (if p =? NULL then q ∈ f :: g :: fl else q = frame p).
Proof.
  intros Ha Hpd Hl Hb Hv Hu Hnb Hp. set (m := k_mach k) in *.
  destruct (ensure_table_ok m f (g :: fl) v Hl Hb Hv) as (m1 & fl1 & E1 & Hfl1 & Hev1 & Hx1).
  pose proof Hev1 as [Hl1 Hb1 Hsf1 Hc1 _ _ Hd1]. pose proof (below_pde v Hv) as [Hva Hvd].
  assert (exists f' fl2, fl1 = f' :: fl2 /\ (length fl <= length fl2)%nat) as (f' & fl2 & -> & Hlen)
    by (destruct Hfl1 as [->| ->]; do 2 eexists; (split; [done|]); simpl; lia).
  destruct (take_frame (set_k_mach k m1) f' fl2 p Hl1 Hb1) as (m2 & fl3 & q & E2 & Hev2 & Hq).
  pose proof Hev2 as [Hl2 Hb2 _ Hc2 Hp2 _ Hd2].
  assert (Hx2 : pde_exists (pde_at m2 (v / 4194304)) = true) by (rewrite Hp2 by (lia || by intros ? []); exact Hx1).
  destruct (write_pte m2 fl3 v (loaded_pte q w) Hl2 Hb2 Hv Hu Hnb Hx2) as (E3 & Hev3 & Hhw).
  set (m3 := set_phys m2 _) in *. pose proof Hev3 as [_ _ _ _ _ _ Hd3].
  assert (Hq32 : addr32 q /\ data m2 fl3 q).
  { destruct (p =? NULL) eqn:Ep.
    - destruct Hq as (-> & -> & Hq). split; [|done]. apply (lo_free _ _ Hl1). left.
    - destruct Hq as (-> & ->). apply Z.eqb_neq in Ep. destruct (Hp Ep) as [? Hpp]. split; [done|]. apply Hd2. by apply Hd1. }
  destruct Hq32 as [Hq32 Hqd].
  assert (Hmap : maps_page m3 v (frame q)).
  { intros x Hx. rewrite translate_hw, (hw_pte_page m3 v x Hx), Hhw. cbn [loaded_pte in_memory page].
    unfold ADDR2PAGE. by rewrite w32_small. }
  exists m3, fl3, (frame q). split_and!.
  - unfold memuser_alloc_at, space_at. rewrite (bind_Ret _ _ _ _ _ (fetch_Some k_spaces _ _ _ Ha)), Hpd.
    rewrite (bind_Ret _ _ _ _ _ (on_mach_Ret _ k _ _ E1)).
    assert (E1' : paging_getpte_pd v (paging_curpd m) m1 = Ret (hw_pte m1 v) m1).
    { rewrite <- Hc1, getpte_pd_cur. apply getpte_ok; [apply (lo_self _ _ Hl1)|done]. }
    rewrite (bind_Ret _ _ _ _ _ (on_mach_Ret _ (set_k_mach k m1) _ _ E1')).
    change (set_k_mach (set_k_mach k m1) m1) with (set_k_mach k m1). rewrite (bind_Ret _ _ _ _ _ E2).
    assert (E3' : paging_setpte_pd v (loaded_pte q w) (paging_curpd m) m2 = Ret 0 m3).
    { unfold paging_setpte_pd. rewrite bind_gets, <- Hc1. change (paging_curpd m1) with (paging_curpd (k_mach (set_k_mach k m1))).
      by rewrite <- Hc2, Z.eqb_refl. }
    change (set_k_mach (set_k_mach k m1) m2) with (set_k_mach k m2).
    rewrite (bind_Ret _ _ _ _ _ (on_mach_Ret _ (set_k_mach k m2) _ _ E3')).
    by rewrite (bind_Ret _ _ _ _ _ (upd_space_Some sp (fun a => set_pages_loaded a (v :: pages_loaded a)) a
      (set_k_mach (set_k_mach k m2) m3) Ha)).
  - apply evolves_trans with m1 (f' :: fl2); [done|]. apply evolves_trans with m2 fl3; [|done].
    by apply (evolves_weaken nothing nothing).
  - destruct (p =? NULL); destruct Hq as [-> _]; simpl; lia.
  - exact Hmap.
  - apply Hd3. apply data_page with q; [done|by rewrite Z.div_mul by lia|]. pose proof (Z.div_pos q 4096); unfold addr32 in Hq32; lia.
  - unfold addr32 in *. pose proof (Z.div_mod q 4096 ltac:(lia)). pose proof (Z.mod_pos_bound q 4096 ltac:(lia)).
    pose proof (Z.div_pos q 4096); lia.
  - by rewrite Z.div_mul by lia.
  - destruct (p =? NULL); destruct Hq as [-> Hq]; [destruct Hq as [-> _]|by rewrite Hq].
    rewrite (free_data m1 (f' :: fl2) f' Hl1) by left. destruct Hsf1 as [k1 Hk1]. rewrite Hk1. set_solver.
Qed.

(** C10: Allocating a page at a user address of the loaded space, with two frames free for
    the page and a new table: it succeeds, the invariant of directory, tables, free
    frames and their stack is kept, every address of the page leads to the given frame
    or to one that was free, no other page but the buffer page changes its translation,
    no data is overwritten, and the page joins the loaded pages of the space. *)
Theorem alloc_at_correct k sp a v p w f g fl :
  k_spaces k !! sp = Some a -> pagedir a = paging_curpd (k_mach k) ->
  layout (k_mach k) (f :: g :: fl) -> buffer_ok (k_mach k) ->
  USERDATA_ADDRESS <= v < BUFPAGE_ADDRESS ->
  (p <> NULL -> addr32 p /\ data (k_mach k) (f :: g :: fl) p) ->
  exists m' fl' q, memuser_alloc_at sp v p w k =
      Ret 0 (set_k_spaces (set_k_mach k m') (<[sp := set_pages_loaded a (v :: pages_loaded a)]> (k_spaces k))) /\
    layout m' fl' /\ buffer_ok m' /\ fl' `suffix_of` f :: g :: fl /\
    (forall x, x / 4096 = v / 4096 -> tr m' x = Some (q + x mod 4096)) /\
    (if p =? NULL then q ∈ f :: g :: fl else q = frame p) /\
    (forall x, below_tables x -> x / 4096 <> v / 4096 -> x / 4096 <> buf_page -> tr m' x = tr (k_mach k) x) /\
    (forall y, data (k_mach k) (f :: g :: fl) y -> data m' fl' y /\ rd (phys m') y = rd (phys (k_mach k)) y).
Proof.
  intros Ha Hpd Hl Hb Hv Hp.
  assert (below_tables v /\ v / 4096 <> buf_page) as [Hbv Hnb].
  { change buf_page with 1047551. unfold USERDATA_ADDRESS, BUFPAGE_ADDRESS in Hv. split; [unfold below_tables, PAGETABLES_ADDRESS; lia|].
    pose proof (Z.div_lt_upper_bound v 4096 1047551 ltac:(lia) ltac:(lia)). lia. }
  destruct (alloc_at_ok k sp a v p w f g fl Ha Hpd Hl Hb Hbv ltac:(lia) Hnb Hp) as (m' & fl' & q & E & Hev & _ & Hm & _ & _ & _ & Hq).
  exists m', fl', q. split; [done|]. pose proof Hev as [H1 H2 H3 _ _ _ H6]. split_and!; try done.
  - intros x Hx Hne Hnx. apply (ev_tr _ _ _ _ _ _ _ Hev); congruence || done.
  - intros y Hy. destruct (H6 y Hy) as [Hd Hr]. split; [done|]. apply Hr. by intros [].
Qed.

End alloc.
