(* ===== verification/Proc.v ===== *)
(** * Processes and the scheduler (kernel2/procm.c, kernel2/vm86.c)

    Every operation of procm.c on the kernel state.  A process is a record in
    [k_procs] at its address; the three process lists, the current process and
    the saved user context ([curregs]) are the global variables.  The kernel
    is not preempted, so an operation that puts the current process to sleep
    goes on in the context of the process the scheduler picked; when there is
    none, the processor halts with a fresh kernel stack and the operation does
    not come back ([Stop Idle]). *)

From S2P Require Import Prelude LList Machine Paging Kernel Memory.

(** ** Constants (gdt.h, procm.h) *)

Definition PRIV_USER : Z := 3.
Definition IDX2SEL (idx priv : Z) : Z := Z.lor (Z.shiftl idx 3) priv.
Definition NICE2TICKS (nice : Z) : Z := 1.

(** The registers a new process starts with. *)
Definition initial_regs (efl : Z) : proc_registers :=
  let data := IDX2SEL 4 PRIV_USER in
  Regs 0 0 0 0 0 0 0 0 0 efl (IDX2SEL 3 PRIV_USER) data data data data data.

(** ** Registers *)

(** vm86.c *)
Definition vm86_save_segregs (p : Z) : cmd kernel unit :=
  r ← gets vm86_curregs; upd_proc p (fun x => set_vm86_segregs x r).

Definition vm86_load_segregs (p : Z) : cmd kernel unit :=
  x ← proc_at p; modify (fun k => set_vm86_curregs k (vm86_segregs x)).

Definition proc_regs_save (p : Z) : cmd kernel Z :=
  r ← gets curregs;
  upd_proc p (fun x => set_registers x r);;
  x ← proc_at p;
  (if is_vm86 x then vm86_save_segregs p else mret tt);;
  mret 0.

Definition proc_regs_load (p : Z) : cmd kernel Z :=
  x ← proc_at p;
  modify (fun k => set_curregs k (registers x));;
  (if is_vm86 x then vm86_load_segregs p else mret tt);;
  mret 0.

(** ** Scheduling *)

(** [proc_idle]: the kernel stack is reset and the processor halted. *)
Definition proc_idle {A} : cmd kernel A := stop_with Idle.

(** [cpu_shutdown]: halted with interrupts off. *)
Definition cpu_shutdown {A} : cmd kernel A := stop_with Shutdown.

(** The search for a process with time left: the last one found is taken. *)
Fixpoint pick (xs : list Z) (cur : Z) : cmd kernel Z :=
  match xs with
  | [] => mret cur
  | p :: xs => x ← proc_at p; pick xs (if 0 <? ticks_rem x then p else cur)
  end.

Definition proc_shedule : cmd kernel unit :=
  proc_old ← gets proc_current;
  running ← gets proc_running; sleeping ← gets proc_sleeping;
  (if bool_decide (running = []) then
     if bool_decide (sleeping = []) then cpu_shutdown
     else
       proc_regs_save proc_old;;
       modify (fun k => set_proc_current k NULL);;
       proc_idle
   else mret tt);;
  (if negb (proc_old =? NULL) then
     upd_proc proc_old (fun x => set_ticks_rem x (w32 (ticks_rem x - 1)));;
     modify (fun k => set_proc_current k NULL)
   else mret tt);;
  next ← pick (Seq.scan running) NULL;
  (if next =? NULL then
     for_each (Seq.scan running) (fun p => upd_proc p (fun x => set_ticks_rem x (NICE2TICKS (nice x))));;
     modify (fun k => set_proc_current k (Seq.get running 0))
   else modify (fun k => set_proc_current k next));;
  new ← gets proc_current;
  if negb (proc_old =? new) then
    (if negb (proc_old =? NULL) then proc_regs_save proc_old;; mret tt else mret tt);;
    proc_regs_load new;;
    x ← proc_at new;
    memuser_load_addrspace (addrspace x);; mret tt
  else mret tt.

Definition proc_sleep (p : Z) : cmd kernel Z :=
  x ← proc_at p;
  if negb (is_sleeping x) then
    modify (fun k => set_proc_running k (Seq.drop_elem (proc_running k) p));;
    modify (fun k => set_proc_sleeping k (p :: proc_sleeping k));;
    upd_proc p (fun x => set_is_sleeping x true);;
    cur ← gets proc_current;
    (if p =? cur then proc_shedule else mret tt);;
    mret 0
  else mret 0.

Definition proc_wake (p : Z) : cmd kernel Z :=
  x ← proc_at p;
  if is_sleeping x then
    modify (fun k => set_proc_sleeping k (Seq.drop_elem (proc_sleeping k) p));;
    modify (fun k => set_proc_running k (p :: proc_running k));;
    upd_proc p (fun x => set_is_sleeping x false);;
    mret 0
  else mret 0.

(** ** Creation and destruction *)

Section proc.
Context `{Malloc}.

(** [junk]: the contents of the block that [malloc] returned; the fields
    [ret], [vm86_pagedir], [wait], [wait_pid], [wait_stat] and [vm86_segregs]
    are not initialised. *)
Definition new_proc (junk : proc_t) (pid u g sys : Z) (nm : list Z) (parent : Z)
    (regs : proc_registers) (space : Z) (sleeping vm86 : bool) : proc_t :=
  Proc pid u u u g g g sys nm parent [] regs space 0 (NICE2TICKS 0) sleeping (-1) false (ret junk)
    NULL vm86 (vm86_pagedir junk) (wait junk) (wait_pid junk) (wait_stat junk) (vm86_segregs junk).

Definition next_pid : cmd kernel Z := fun k =>
  Ret (proc_nextpid k) (set_proc_nextpid k (s32 (proc_nextpid k + 1))).

Definition link_parent (parent new : Z) : cmd kernel unit :=
  if negb (parent =? NULL) then upd_proc parent (fun x => set_children x (new :: children x)) else mret tt.

Definition proc_create (junk : proc_t) (nm : list Z) (u g parent : Z) (running : bool) (sys : Z)
    : cmd kernel Z :=
  new ← kmalloc;
  n ← next_pid;
  link_parent parent new;;
  space ← memuser_create_addrspace new;
  modify (fun k => set_k_procs k (<[new :=
    new_proc junk n u g sys nm parent (initial_regs 514) space (negb running) false]> (k_procs k)));;
  modify (fun k => set_proc_all k (new :: proc_all k));;
  (if running then modify (fun k => set_proc_running k (new :: proc_running k))
   else modify (fun k => set_proc_sleeping k (new :: proc_sleeping k)));;
  mret new.

(** vm86.c: the process is on no list; [system] is not initialised either. *)
Definition vm86_proc_create (junk : proc_t) (nm : list Z) (u g parent : Z) : cmd kernel Z :=
  new ← kmalloc;
  n ← next_pid;
  link_parent parent new;;
  modify (fun k => set_k_procs k (<[new := set_vm86_pagedir
    (new_proc junk n u g (system junk) nm parent (initial_regs 131586) NULL false true) NULL]> (k_procs k)));;
  mret new.

Definition proc_destroy (p : Z) : cmd kernel Z :=
  x ← proc_at p;
  upd_proc p (fun x => set_children x (Seq.drain (children x)).2);;
  for_each (Seq.drain (children x)).1 (fun child => upd_proc child (fun c => set_parent c (parent x)));;
  (if negb (parent x =? NULL)
   then upd_proc (parent x) (fun y => set_children y (Seq.drop_elem (children y) p)) else mret tt);;
  (if negb (addrspace x =? NULL) then memuser_destroy_addrspace (addrspace x);; mret tt else mret tt);;
  modify (fun k => set_proc_all k (Seq.drop_elem (proc_all k) p));;
  run ← gets proc_running;
  let '(removed, rest) := Seq.remove run (Seq.find run p) in
  modify (fun k => set_proc_running k rest);;
  (if negb (removed =? p)
   then modify (fun k => set_proc_sleeping k (Seq.drop_elem (proc_sleeping k) p)) else mret tt);;
  modify (fun k => set_k_procs k (delete p (k_procs k)));;
  kfree p;;
  mret 0.

(** ** Finding processes *)

Fixpoint find_proc (test : proc_t -> bool) (xs : list Z) : cmd kernel Z :=
  match xs with
  | [] => mret NULL
  | p :: xs => x ← proc_at p; if test x then mret p else find_proc test xs
  end.

Definition proc_find (n : Z) : cmd kernel Z :=
  cur ← gets proc_current; x ← proc_at cur;
  if pid x =? n then mret cur
  else all ← gets proc_all; find_proc (fun x => pid x =? n) (Seq.scan all).

Definition proc_ischild (parent p : Z) : cmd kernel bool :=
  x ← proc_at parent; mret (existsb (Z.eqb p) (Seq.scan (children x))).

Definition current : cmd kernel proc_t := cur ← gets proc_current; proc_at cur.

Definition proc_getpid : cmd kernel Z := x ← current; mret (pid x).

Definition proc_getparent (n : Z) : cmd kernel Z :=
  p ← proc_find n;
  if negb (p =? NULL) then
    x ← proc_at p;
    if negb (parent x =? NULL) then y ← proc_at (parent x); mret (pid y) else mret 0
  else mret 0.

Definition proc_getchild (n i : Z) : cmd kernel Z :=
  p ← proc_find n;
  if negb (p =? NULL) then
    x ← proc_at p;
    let child := Seq.get (children x) i in
    if child =? NULL then mret (-1) else y ← proc_at child; mret (pid y)
  else mret 0.

Definition proc_getuid (id : Z) : cmd kernel Z :=
  if id =? 1 then x ← current; mret (uid x)
  else if id =? 2 then x ← current; mret (euid x)
  else if id =? 3 then x ← current; mret (suid x)
  else mret 0.

Definition proc_setuid (id u : Z) : cmd kernel unit :=
  cur ← gets proc_current;
  if id =? 1 then upd_proc cur (fun x => set_uid x u)
  else if id =? 2 then upd_proc cur (fun x => set_euid x u)
  else if id =? 3 then upd_proc cur (fun x => set_suid x u)
  else mret tt.

Definition proc_getgid (id : Z) : cmd kernel Z :=
  if id =? 1 then x ← current; mret (gid x)
  else if id =? 2 then x ← current; mret (egid x)
  else if id =? 3 then x ← current; mret (sgid x)
  else mret 0.

Definition proc_setgid (id g : Z) : cmd kernel unit :=
  cur ← gets proc_current;
  if id =? 1 then upd_proc cur (fun x => set_gid x g)
  else if id =? 2 then upd_proc cur (fun x => set_egid x g)
  else if id =? 3 then upd_proc cur (fun x => set_sgid x g)
  else mret tt.

Definition proc_getname (n buf maxlen : Z) : cmd kernel Z :=
  p ← proc_find n;
  if negb (p =? NULL) then
    x ← proc_at p;
    if negb (buf =? NULL) then user_strncpy buf (name x) maxlen;; mret 0
    else mret (Z.of_nat (length (name x)) + 1)
  else mret (-1).

(** -1 on every path. *)
Definition proc_setname (n : Z) (nm : list Z) : cmd kernel Z :=
  x ← current;
  (if negb (system x =? 0) then
     p ← proc_find n; cur ← gets proc_current;
     if negb (p =? NULL) && negb (p =? cur) then upd_proc p (fun x => set_name x nm) else mret tt
   else mret tt);;
  mret (-1).

Definition proc_getpidbyname (nm : list Z) : cmd kernel Z :=
  all ← gets proc_all;
  p ← find_proc (fun x => bool_decide (name x = nm)) (Seq.scan all);
  if p =? NULL then mret (-1) else x ← proc_at p; mret (pid x).

Definition proc_getvar (n : Z) : cmd kernel Z :=
  p ← proc_find n;
  if negb (p =? NULL) then
    cur ← gets proc_current; c ← proc_at cur;
    if negb (system c =? 0) || (cur =? p) then x ← proc_at p; mret (var x) else mret (-1)
  else mret (-1).

Definition proc_setvar (n v : Z) : cmd kernel unit :=
  p ← proc_find n; if negb (p =? NULL) then upd_proc p (fun x => set_var x v) else mret tt.

(** ** Waiting and exiting *)

Definition proc_waitpid (n stat_loc : Z) : cmd kernel Z :=
  done ← (if 0 <? n then
    p ← proc_find n;
    if negb (p =? NULL) then
      x ← proc_at p;
      if defunc x then user_store stat_loc (ret x);; mret (Some n) else mret None
    else mret (Some (-1))
  else mret None);
  match done with
  | Some r => mret r
  | None =>
      cur ← gets proc_current;
      upd_proc cur (fun x => set_wait (set_wait_stat (set_wait_pid x n) stat_loc) true);;
      proc_sleep cur;;
      mret (-1)
  end.

(** Whether the exit of [x] is what its parent [y] waits for. *)
Definition waits_for (y x : proc_t) : bool :=
  let n := wait_pid y in
  (n =? -1) || (n =? pid x) || ((n =? 0) && (gid x =? gid y)) || ((n <? -1) && (- n =? gid x)).

Definition proc_exit (r : Z) : cmd kernel unit :=
  cur ← gets proc_current; x ← proc_at cur;
  (if negb (parent x =? NULL) then
     y ← proc_at (parent x);
     if wait y && waits_for y x then
       upd_proc (parent x) (fun y => set_registers y (set_eax (registers y) (w32 (pid x))));;
       (if negb (wait_stat y =? NULL) then
          memuser_load_addrspace (addrspace y);;
          user_store (wait_stat y) r;;
          memuser_load_addrspace (addrspace x);; mret tt
        else mret tt);;
       upd_proc (parent x) (fun y => set_wait y false);;
       proc_wake (parent x);; mret tt
     else mret tt
   else mret tt);;
  upd_proc cur (fun x => set_defunc (set_ret x r) true);;
  modify (fun k => set_proc_running k (Seq.drop_elem (proc_running k) cur));;
  modify (fun k => set_proc_current k NULL);;
  proc_idle.

Definition proc_abort : cmd kernel unit := proc_exit 1.

Definition proc_stop : cmd kernel unit := cur ← gets proc_current; proc_sleep cur;; mret tt.

(** ** Calling into a process *)

(** The saved context of [p]: the interrupt frame for the current process. *)
Definition regs_of (p : Z) : cmd kernel proc_registers :=
  cur ← gets proc_current;
  if cur =? p then gets curregs else x ← proc_at p; mret (registers x).

Definition upd_regs (p : Z) (f : proc_registers -> proc_registers) : cmd kernel unit :=
  cur ← gets proc_current;
  if cur =? p then modify (fun k => set_curregs k (f (curregs k)))
  else upd_proc p (fun x => set_registers x (f (registers x))).

Definition proc_push (p v : Z) : cmd kernel unit :=
  upd_regs p (fun r => set_esp r (w32 (esp r - 4)));;
  r ← regs_of p;
  user_store (esp r) v.

Definition proc_pop (p : Z) : cmd kernel Z :=
  x ← proc_at p;
  v ← user_load (esp (registers x));
  upd_proc p (fun x => set_registers x (set_esp (registers x) (w32 (esp (registers x) + 4))));;
  mret (s32 v).

(** The parameters are pushed from the last to the first. *)
Definition proc_call (p func : Z) (args : list Z) : cmd kernel unit :=
  x ← proc_at p;
  if negb (defunc x) then
    memuser_load_addrspace (addrspace x);;
    for_each (rev args) (proc_push p);;
    r ← regs_of p;
    proc_push p (eip r);;
    cur ← gets proc_current;
    (if negb (cur =? NULL) then c ← proc_at cur; memuser_load_addrspace (addrspace c);; mret tt else mret tt);;
    upd_regs p (fun r => set_eip r func);;
    proc_wake p;; mret tt
  else mret tt.

(** ** System processes *)

(** [if (proc_current->system) { proc = proc_find(pid); if (proc!=NULL) ... }] *)
Definition privileged {A} (n : Z) (fail : A) (body : Z -> cmd kernel A) : cmd kernel A :=
  c ← current;
  if negb (system c =? 0) then
    p ← proc_find n;
    if negb (p =? NULL) then body p else mret fail
  else mret fail.

Definition load_current : cmd kernel unit :=
  c ← current; memuser_load_addrspace (addrspace c);; mret tt.

Definition proc_create_syscall (junk : proc_t) (nm : list Z) (u g parent_pid : Z) : cmd kernel Z :=
  privileged parent_pid (-1) (fun parent =>
    p ← proc_create junk nm u g parent false 0;
    if negb (p =? NULL) then x ← proc_at p; mret (pid x) else mret (-1)).

Definition proc_destroy_syscall (n : Z) : cmd kernel Z :=
  privileged n (-1) (fun p =>
    cur ← gets proc_current; if negb (p =? cur) then proc_destroy p else mret (-1)).

Definition proc_memmap (n virt phys writable swappable cow : Z) : cmd kernel Z :=
  privileged n NULL (fun p =>
    x ← proc_at p;
    virt ← (if virt =? NULL then memuser_findvirt (addrspace x) 1 else mret virt);
    phys ← (if phys =? NULL then on_mach memphys_pop else mret phys);
    a ← space_at (addrspace x);
    pte ← on_mach (paging_getpte_pd virt (pagedir a));
    if negb (pte_exists pte) then
      memuser_load_addrspace (addrspace x);;
      let w := negb (writable =? 0) in let c := negb (cow =? 0) in
      on_mach (paging_map_pd virt phys true (w && negb c) (Z.odd swappable) (c && w) (pagedir a));;
      load_current;;
      upd_space (addrspace x) (fun a => set_pages_loaded a (virt :: pages_loaded a));;
      mret virt
    else mret NULL).

Definition proc_memalloc (n virt writable swappable : Z) : cmd kernel Z :=
  r ← proc_memmap n virt NULL writable swappable 0; mret (if negb (r =? NULL) then 0 else -1).

Definition proc_memunmap (n virt : Z) : cmd kernel Z :=
  privileged n (-1) (fun p =>
    x ← proc_at p;
    memuser_load_addrspace (addrspace x);;
    on_mach (paging_unmap virt);;
    load_current;;
    upd_space (addrspace x) (fun a => set_pages_loaded a (Seq.drop_elem (pages_loaded a) virt));;
    upd_space (addrspace x) (fun a => set_pages_imaginary a (Seq.drop_elem (pages_imaginary a) virt));;
    upd_space (addrspace x) (fun a => set_pages_swapped a (Seq.drop_elem (pages_swapped a) virt));;
    mret 0).

Definition proc_memfree (n virt : Z) : cmd kernel Z :=
  privileged n (-1) (fun p =>
    x ← proc_at p;
    memuser_load_addrspace (addrspace x);;
    phys ← on_mach (paging_unmap virt);
    on_mach (memphys_push phys);;
    load_current;;
    upd_space (addrspace x) (fun a => set_pages_imaginary a (Seq.drop_elem (pages_imaginary a) virt));;
    mret 0).

Definition store_opt (ptr : Z) (b : bool) : cmd kernel unit :=
  if negb (ptr =? NULL) then user_store ptr (Z.b2z b) else mret tt.

Definition proc_memget (n virt pexists pwritable pswappable pcow : Z) : cmd kernel Z :=
  found ← privileged n None (fun p =>
    x ← proc_at p; a ← space_at (addrspace x);
    pte ← on_mach (paging_getpte_pd virt (pagedir a));
    store_opt pexists (pte_exists pte);;
    store_opt pwritable (writable pte);;
    store_opt pswappable (swappable pte);;
    store_opt pcow (cow pte);;
    mret (Some (if in_memory pte then PAGE2ADDR (page pte) else NULL)));
  match found with
  | Some r => mret r
  | None => user_store pexists 0;; mret NULL
  end.

(** [for (i=0;(addr = llist_get(l,i)) && j<n;i++) list[j++] = addr;] *)
Fixpoint store_pages (dst n j : Z) (xs : list Z) : cmd kernel Z :=
  match xs with
  | [] => mret j
  | x :: xs =>
      if j <? n then user_store (dst + 4 * j) x;; store_pages dst n (j + 1) xs else mret j
  end.

Definition proc_mempagelist (pid_ dst n : Z) : cmd kernel Z :=
  privileged pid_ (w32 (-1)) (fun p =>
    x ← proc_at p; a ← space_at (addrspace x);
    if (dst =? NULL) || (n =? 0) then
      mret (w32 (Z.of_nat (length (pages_loaded a)) + Z.of_nat (length (pages_imaginary a)) +
                 Z.of_nat (length (pages_swapped a))))
    else
      j ← store_pages dst n 0 (Seq.scan (pages_loaded a));
      j ← store_pages dst n j (Seq.scan (pages_imaginary a));
      store_pages dst n j (Seq.scan (pages_swapped a))).

Definition proc_system (n sys : Z) : cmd kernel Z :=
  privileged n (-1) (fun p =>
    x ← proc_at p; cur ← gets proc_current;
    if (sys =? 1) || (cur =? parent x) || (cur =? p)
    then upd_proc p (fun x => set_system x sys);; mret 0 else mret (-1)).

Definition proc_jump (n dest : Z) : cmd kernel Z :=
  privileged n (-1) (fun p =>
    upd_proc p (fun x => set_registers x (set_eip (registers x) (w32 dest)));; mret 0).

Definition proc_createstack (n : Z) : cmd kernel Z :=
  privileged n NULL (fun p =>
    x ← proc_at p;
    space_at (addrspace x);;
    st ← memuser_create_stack (addrspace x);
    upd_proc p (fun x => set_registers x (set_esp (registers x) (w32 st)));;
    mret st).

Definition proc_getstack (n : Z) : cmd kernel Z :=
  privileged n NULL (fun p => x ← proc_at p; a ← space_at (addrspace x); mret (stack a)).

Definition proc_setstack (n st : Z) : cmd kernel Z :=
  privileged n (-1) (fun p =>
    x ← proc_at p; upd_space (addrspace x) (fun a => set_stack a st);; mret 0).

End proc.

(** ** What the scheduler computes *)

(** The process lists: no duplicates, no NULL entries, no process on both, and
    the flag of each process says which one it is on. *)
Record lists_ok (k : kernel) : Prop := {
  lo_nodup : NoDup (proc_running k ++ proc_sleeping k);
  lo_nonnull : NULL ∉ proc_running k ++ proc_sleeping k;
  lo_length : Z.of_nat (length (proc_running k ++ proc_sleeping k)) < 4294967295;
  lo_running : forall p, p ∈ proc_running k ->
    exists x, k_procs k !! p = Some x /\ is_sleeping x = false;
  lo_sleeping : forall p, p ∈ proc_sleeping k ->
    exists x, k_procs k !! p = Some x /\ is_sleeping x = true;
}.

Abbreviation procs := (gmap Z proc_t).

Definition tick_down (old : Z) (m : procs) : procs :=
  if old =? NULL then m else alter (fun x => set_ticks_rem x (w32 (ticks_rem x - 1))) old m.

Definition has_time (m : procs) (p : Z) : bool :=
  match m !! p with Some x => 0 <? ticks_rem x | None => false end.

(** The last process of the list that has time left. *)
Definition last_with_time (m : procs) (xs : list Z) (d : Z) : Z :=
  foldl (fun c p => if has_time m p then p else c) d xs.

Definition refill (xs : list Z) (m : procs) : procs :=
  foldl (fun m p => alter (fun x => set_ticks_rem x (NICE2TICKS (nice x))) p m) m xs.

Definition save_context (k : kernel) (old : Z) (m : procs) : procs :=
  if old =? NULL then m else
  alter (fun x => let x := set_registers x (curregs k) in
                  if is_vm86 x then set_vm86_segregs x (vm86_curregs k) else x) old m.

Lemma pick_ok xs : forall cur k, (forall p, p ∈ xs -> is_Some (k_procs k !! p)) ->
  pick xs cur k = Ret (last_with_time (k_procs k) xs cur) k.
Proof.
  induction xs as [|p xs IH]; intros cur k Hl; [done|].
  destruct (Hl p) as [x Hx]; [set_solver|]. cbn [pick]. unfold proc_at.
  cstep (fetch_Some k_procs _ _ _ Hx). rewrite IH by set_solver.
  assert (Ht : has_time (k_procs k) p = (0 <? ticks_rem x)) by (unfold has_time; by rewrite Hx).
  unfold last_with_time. cbn [foldl]. by rewrite Ht.
Qed.

Lemma refill_live xs : forall m p, is_Some (refill xs m !! p) <-> is_Some (m !! p).
Proof.
  induction xs as [|q xs IH]; intros m p; [done|]. unfold refill in *. cbn [foldl]. rewrite IH.
  destruct (decide (q = p)) as [->|]; [rewrite lookup_alter_eq|by rewrite lookup_alter_ne].
  by rewrite fmap_is_Some.
Qed.

Lemma refill_lookup xs : forall m p, NoDup xs ->
  refill xs m !! p =
    if decide (p ∈ xs) then (fun x => set_ticks_rem x (NICE2TICKS (nice x))) <$> m !! p else m !! p.
Proof.
  induction xs as [|q xs IH]; intros m p Hnd; [done|].
  apply NoDup_cons in Hnd as [Hq Hnd]. unfold refill in *. cbn [foldl]. rewrite IH by done.
  destruct (decide (p = q)) as [->|Hne].
  - rewrite decide_False, decide_True by set_solver. by rewrite lookup_alter_eq.
  - rewrite lookup_alter_ne by done. destruct (decide (p ∈ xs)).
    + by rewrite decide_True by set_solver.
    + by rewrite decide_False by set_solver.
Qed.

Lemma upd_proc_alter p f k : is_Some (k_procs k !! p) ->
  upd_proc p f k = Ret tt (set_k_procs k (alter f p (k_procs k))).
Proof. intros [x Hx]. by rewrite (upd_proc_Some _ _ _ _ Hx), (alter_insert_same _ _ _ x). Qed.

Lemma refill_ok xs : forall k, (forall p, p ∈ xs -> is_Some (k_procs k !! p)) ->
  for_each xs (fun p => upd_proc p (fun x => set_ticks_rem x (NICE2TICKS (nice x)))) k =
    Ret tt (set_k_procs k (refill xs (k_procs k))).
Proof.
  induction xs as [|p xs IH]; intros k Hl; [by destruct k|]. cbn [for_each].
  cstep (upd_proc_alter p (fun x => set_ticks_rem x (NICE2TICKS (nice x))) k (Hl p ltac:(set_solver))).
  rewrite IH; [by destruct k|]. intros q Hq. cbn [k_procs set_k_procs].
  destruct (decide (p = q)) as [->|]; [rewrite lookup_alter_eq, fmap_is_Some|rewrite lookup_alter_ne by done];
    apply Hl; set_solver.
Qed.

Lemma regs_save_ok p k : is_Some (k_procs k !! p) -> p <> NULL ->
  proc_regs_save p k = Ret 0 (set_k_procs k (save_context k p (k_procs k))).
Proof.
  intros [x Hx] Hp. unfold proc_regs_save, save_context. apply Z.eqb_neq in Hp as ->.
  rewrite (bind_Ret (gets curregs) _ k _ k eq_refl).
  cstep (upd_proc_Some p (fun x => set_registers x (curregs k)) x k Hx).
  unfold proc_at. cstep (fetch_Some k_procs p (set_registers x (curregs k))
    (set_k_procs k (<[p := set_registers x (curregs k)]> (k_procs k))) (lookup_insert_eq _ _ _)).
  rewrite (alter_insert_same _ _ _ x Hx). cbv zeta. cbn [is_vm86 set_registers].
  destruct (is_vm86 x); [|done]. unfold vm86_save_segregs.
  rewrite bind_assoc, (bind_Ret (gets vm86_curregs) _ _ _ _ eq_refl).
  rewrite (bind_Ret _ _ _ _ _ (upd_proc_Some _ _ _ _ (lookup_insert_eq (k_procs k) _ _))).
  cbn [k_procs set_k_procs vm86_curregs]. by rewrite insert_insert_eq.
Qed.

Lemma regs_load_ok p x k : k_procs k !! p = Some x ->
  proc_regs_load p k = Ret 0 (let k := set_curregs k (registers x) in
    if is_vm86 x then set_vm86_curregs k (vm86_segregs x) else k).
Proof.
  intros Hx. unfold proc_regs_load, proc_at. cstep (fetch_Some k_procs _ _ _ Hx).
  rewrite (bind_Ret (modify _) _ k tt (set_curregs k (registers x)) eq_refl).
  destruct (is_vm86 x); [|done]. unfold vm86_load_segregs, proc_at.
  rewrite bind_assoc. by cstep (fetch_Some k_procs p x (set_curregs k (registers x)) Hx).
Qed.

Lemma load_addrspace_ok s a k : k_spaces k !! s = Some a ->
  memuser_load_addrspace s k = Ret 0 (set_k_mach k (set_curpd (k_mach k) (pagedir a))).
Proof.
  intros Ha. unfold memuser_load_addrspace, space_at. cstep (fetch_Some k_spaces _ _ _ Ha).
  rewrite (bind_Ret (gets _) _ k (paging_curpd (k_mach k)) k eq_refl).
  destruct (Z.eqb_spec (paging_curpd (k_mach k)) (pagedir a)) as [<-|]; [|done].
  unfold mret, cmd_ret. f_equal. by destruct k as [[]].
Qed.

(** ** The schedule as a function *)

(** The process table after the clock tick, and the process that is picked. *)
Definition sched_procs (k : kernel) : procs := tick_down (proc_current k) (k_procs k).
Definition sched_out_of_time (k : kernel) : bool :=
  last_with_time (sched_procs k) (proc_running k) NULL =? NULL.
Definition sched_next (k : kernel) : Z :=
  if sched_out_of_time k then Seq.get (proc_running k) 0
  else last_with_time (sched_procs k) (proc_running k) NULL.
Definition sched_filled (k : kernel) : procs :=
  if sched_out_of_time k then refill (proc_running k) (sched_procs k) else sched_procs k.

Definition switch_to (k : kernel) (new : Z) (x : proc_t) (a : addrspace_t) : kernel :=
  let k := set_curregs k (registers x) in
  let k := if is_vm86 x then set_vm86_curregs k (vm86_segregs x) else k in
  set_k_mach k (set_curpd (k_mach k) (pagedir a)).

(** Some process can run, and the records the scheduler follows are live. *)
Record ready (k : kernel) : Prop := {
  rd_running : proc_running k <> [];
  rd_nonnull : NULL ∉ proc_running k;
  rd_live : forall p, p ∈ proc_running k ->
    exists x a, k_procs k !! p = Some x /\ k_spaces k !! addrspace x = Some a;
  rd_current : proc_current k = NULL \/ is_Some (k_procs k !! proc_current k);
}.

Lemma last_with_time_cases m xs : forall d,
  last_with_time m xs d = d \/ (last_with_time m xs d ∈ xs /\ has_time m (last_with_time m xs d) = true).
Proof.
  induction xs as [|p xs IH]; intros d; [by left|]. unfold last_with_time in *. cbn [foldl].
  destruct (IH (if has_time m p then p else d)) as [->|[H1 H2]].
  - destruct (has_time m p) eqn:E; [right|by left]. set_solver.
  - right. set_solver.
Qed.

Lemma get_head xs : xs <> [] -> Seq.get xs 0 ∈ xs.
Proof. destruct xs as [|x xs]; [done|]. intros _. unfold Seq.get. simpl. set_solver. Qed.

Lemma sched_next_in k : ready k -> sched_next k ∈ proc_running k.
Proof.
  intros []. unfold sched_next, sched_out_of_time.
  destruct (Z.eqb_spec (last_with_time (sched_procs k) (proc_running k) NULL) NULL); [by apply get_head|].
  by destruct (last_with_time_cases (sched_procs k) (proc_running k) NULL) as [?|[? _]].
Qed.

(** The tick and the refill change nothing but [ticks_rem]. *)
Definition same_but_ticks (x y : proc_t) : Prop := set_ticks_rem x 0 = set_ticks_rem y 0.

Lemma sched_procs_lookup k p x : k_procs k !! p = Some x ->
  exists y, sched_procs k !! p = Some y /\ same_but_ticks x y.
Proof.
  intros Hx. unfold sched_procs, tick_down, same_but_ticks. destruct (_ =? NULL); [by eauto|].
  destruct (decide (proc_current k = p)) as [->|]; [|rewrite lookup_alter_ne by done; eauto].
  rewrite lookup_alter_eq, Hx. simpl. by eauto.
Qed.

Lemma refill_same xs : forall m p x, m !! p = Some x ->
  exists y, refill xs m !! p = Some y /\ same_but_ticks x y.
Proof.
  induction xs as [|q xs IH]; intros m p x Hx; [exists x; done|].
  unfold refill in *. cbn [foldl]. destruct (decide (q = p)) as [->|].
  - edestruct (IH (alter (fun x => set_ticks_rem x (NICE2TICKS (nice x))) p m) p) as (y & H1 & H2);
      [by rewrite lookup_alter_eq, Hx|]. exists y. by split.
  - apply IH. by rewrite lookup_alter_ne.
Qed.

Lemma sched_filled_lookup k p x : k_procs k !! p = Some x ->
  exists y, sched_filled k !! p = Some y /\ same_but_ticks x y.
Proof.
  intros Hx. destruct (sched_procs_lookup k p x Hx) as (y & Hy & H1). unfold sched_filled.
  destruct (sched_out_of_time k); [|eauto].
  destruct (refill_same (proc_running k) _ p y Hy) as (z & Hz & H2). exists z.
  split; [done|]. unfold same_but_ticks in *. congruence.
Qed.

Lemma sched_filled_current k : ready k -> proc_current k <> NULL ->
  is_Some (sched_filled k !! proc_current k).
Proof.
  intros [_ _ _ [?|[x Hx]]] Hne; [done|].
  destruct (sched_filled_lookup k _ x Hx) as (y & Hy & _). by eexists.
Qed.

Lemma shedule_tick k (c : cmd kernel unit) : ready k ->
  ((if negb (proc_current k =? NULL) then
     upd_proc (proc_current k) (fun x => set_ticks_rem x (w32 (ticks_rem x - 1)));;
     modify (fun k => set_proc_current k NULL)
   else mret tt);; c) k = c (set_proc_current (set_k_procs k (sched_procs k)) NULL).
Proof.
  intros [_ _ _ Hc]. unfold sched_procs, tick_down.
  destruct (Z.eqb_spec (proc_current k) NULL) as [E|E]; cbn [negb].
  - rewrite bind_ret. f_equal. destruct k. simpl in *. by subst.
  - destruct Hc as [?|Hx]; [done|]. rewrite bind_assoc.
    by rewrite (bind_Ret _ _ _ _ _ (upd_proc_alter _ _ _ Hx)).
Qed.

(** Enough is live to follow the scheduler to its end. *)
Lemma shedule_exact k x a :
  ready k -> sched_filled k !! sched_next k = Some x -> k_spaces k !! addrspace x = Some a ->
  proc_shedule k = Ret tt
    (if proc_current k =? sched_next k then set_proc_current (set_k_procs k (sched_filled k)) (sched_next k)
     else switch_to (set_proc_current (set_k_procs k (save_context k (proc_current k) (sched_filled k)))
            (sched_next k)) (sched_next k) x a).
Proof.
  intros Hr Hx Ha. pose proof Hr as [Hrun Hnn Hlive Hc]. unfold proc_shedule.
  rewrite (bind_Ret (gets proc_current) _ k _ k eq_refl), (bind_Ret (gets proc_running) _ k _ k eq_refl).
  rewrite (bind_Ret (gets proc_sleeping) _ k _ k eq_refl).
  rewrite bool_decide_false by done. rewrite bind_ret, shedule_tick by done.
  rewrite scan_nonnull by done. set (k1 := set_proc_current _ NULL).
  assert (Hl1 : forall p, p ∈ proc_running k -> is_Some (k_procs k1 !! p)).
  { intros p Hp. destruct (Hlive p Hp) as (y & _ & Hy & _).
    destruct (sched_procs_lookup k p y Hy) as (z & Hz & _). by exists z. }
  cstep (pick_ok (proc_running k) NULL k1 Hl1).
  change (k_procs k1) with (sched_procs k). fold (sched_out_of_time k).
  rewrite (bind_Ret _ _ k1 tt (set_proc_current (set_k_procs k (sched_filled k)) (sched_next k))).
  2:{ unfold sched_filled, sched_next. destruct (sched_out_of_time k); [|done].
      by cstep (refill_ok (proc_running k) k1 Hl1). }
  set (k2 := set_proc_current _ (sched_next k)).
  rewrite (bind_Ret (gets proc_current) _ k2 (sched_next k) k2 eq_refl).
  destruct (Z.eqb_spec (proc_current k) (sched_next k)) as [E|Hne]; cbn [negb]; [done|].
  rewrite (bind_Ret _ _ k2 tt (set_k_procs k2 (save_context k (proc_current k) (sched_filled k)))).
  2:{ destruct (Z.eqb_spec (proc_current k) NULL) as [E|E]; cbn [negb].
      - unfold save_context. by rewrite E.
      - by cstep (regs_save_ok (proc_current k) k2 (sched_filled_current k Hr E) E). }
  set (k3 := set_k_procs k2 _).
  assert (Hx3 : k_procs k3 !! sched_next k = Some x).
  { unfold k3, save_context. cbn [k_procs set_k_procs]. destruct (_ =? NULL); [done|].
    by rewrite lookup_alter_ne. }
  cstep (regs_load_ok _ _ _ Hx3). unfold proc_at.
  match goal with |- context [(fetch k_procs _ ≫= _) ?s] => set (k4 := s) end.
  assert (Hx4 : k_procs k4 !! sched_next k = Some x) by (unfold k4; by destruct (is_vm86 x)).
  assert (Ha4 : k_spaces k4 !! addrspace x = Some a) by (unfold k4; by destruct (is_vm86 x)).
  cstep (fetch_Some k_procs _ _ _ Hx4). by cstep (load_addrspace_ok _ _ _ Ha4).
Qed.

(** Time slices are unsigned and the current process has time left, so the
    decrement at its end does not wrap. *)
Definition ticks_ok (k : kernel) : Prop :=
  (forall p x, k_procs k !! p = Some x -> 0 <= ticks_rem x < 4294967296) /\
  (proc_current k <> NULL -> exists x, k_procs k !! proc_current k = Some x /\ 0 < ticks_rem x).

(** What a schedule does to the state: the context of the process that ran is
    saved in its record, the context and address space of the next are loaded,
    and the lists stay as they are. *)
Record scheduled (k k' : kernel) : Prop := {
  sd_lists : proc_running k' = proc_running k /\ proc_sleeping k' = proc_sleeping k /\
             proc_all k' = proc_all k;
  sd_current : proc_current k' ∈ proc_running k;
  sd_saved : proc_current k <> NULL -> proc_current k <> proc_current k' ->
    exists y, k_procs k' !! proc_current k = Some y /\ registers y = curregs k;
  sd_loaded : proc_current k <> proc_current k' -> exists x a,
    k_procs k !! proc_current k' = Some x /\ k_spaces k !! addrspace x = Some a /\
    curregs k' = registers x /\ paging_curpd (k_mach k') = pagedir a;
  sd_stay : proc_current k = proc_current k' -> curregs k' = curregs k /\ k_mach k' = k_mach k;
  sd_others : forall p x, p <> proc_current k -> k_procs k !! p = Some x ->
    exists y, k_procs k' !! p = Some y /\ same_but_ticks x y;
}.

Lemma same_but_ticks_fields x y : same_but_ticks x y ->
  addrspace y = addrspace x /\ registers y = registers x /\ is_sleeping y = is_sleeping x.
Proof. destruct x, y. unfold same_but_ticks. simpl. intros E. by injection E. Qed.

(** The state after a schedule, whichever branch was taken. *)
Lemma shedule_result k : ready k -> exists k' x a,
  proc_shedule k = Ret tt k' /\ sched_filled k !! sched_next k = Some x /\
  k_spaces k !! addrspace x = Some a /\
  k' = if proc_current k =? sched_next k then set_proc_current (set_k_procs k (sched_filled k)) (sched_next k)
       else switch_to (set_proc_current (set_k_procs k (save_context k (proc_current k) (sched_filled k)))
              (sched_next k)) (sched_next k) x a.
Proof.
  intros Hr. destruct (rd_live k Hr _ (sched_next_in k Hr)) as (y & a & Hy & Ha).
  destruct (sched_filled_lookup k _ y Hy) as (x & Hx & (E1 & E2 & _)%same_but_ticks_fields).
  rewrite <- E1 in Ha. eexists _, x, a. split; [by apply shedule_exact|]. done.
Qed.

Lemma save_context_lookup k old m p : p <> old -> save_context k old m !! p = m !! p.
Proof. intros. unfold save_context. destruct (_ =? NULL); [done|]. by rewrite lookup_alter_ne. Qed.

Lemma save_context_old k old m x : old <> NULL -> m !! old = Some x ->
  exists y, save_context k old m !! old = Some y /\ registers y = curregs k /\
    addrspace y = addrspace x /\ ticks_rem y = ticks_rem x.
Proof.
  intros Hn Hx. unfold save_context. apply Z.eqb_neq in Hn as ->. rewrite lookup_alter_eq, Hx. simpl.
  by destruct (is_vm86 x); eexists.
Qed.

(** The process table and the current process after a schedule. *)
Lemma shedule_fields k k' : ready k -> proc_shedule k = Ret tt k' ->
  proc_current k' = sched_next k /\ proc_running k' = proc_running k /\
  proc_sleeping k' = proc_sleeping k /\ proc_all k' = proc_all k /\ k_spaces k' = k_spaces k /\
  k_procs k' = if proc_current k =? sched_next k then sched_filled k
               else save_context k (proc_current k) (sched_filled k).
Proof.
  intros Hr E. destruct (shedule_result k Hr) as (k2 & x & a & E2 & _ & _ & ->).
  rewrite E in E2. injection E2 as ->. unfold switch_to.
  destruct (_ =? sched_next k); [done|]. by destruct (is_vm86 x).
Qed.

Lemma shedule_scheduled k : ready k -> exists k', proc_shedule k = Ret tt k' /\ scheduled k k'.
Proof.
  intros Hr. destruct (shedule_result k Hr) as (k' & x & a & E & Hx & Ha & Hk').
  exists k'. split; [done|]. pose proof (shedule_fields k k' Hr E) as (Hc & H1 & H2 & H3 & _ & Hp).
  destruct (rd_live k Hr _ (sched_next_in k Hr)) as (y & _ & Hy & _).
  destruct (sched_filled_lookup k _ y Hy) as (x' & Hx' & (E1 & E2 & _)%same_but_ticks_fields).
  rewrite Hx in Hx'. injection Hx' as <-.
  constructor; rewrite ?Hc.
  - done.
  - by apply sched_next_in.
  - intros Hn Hne. rewrite Hp, (proj2 (Z.eqb_neq _ _) Hne).
    destruct (sched_filled_current k Hr Hn) as [z Hz].
    destruct (save_context_old k _ _ z Hn Hz) as (w & Hw & Hw2 & _). by exists w.
  - intros Hne. exists y, a. rewrite (proj2 (Z.eqb_neq _ _) Hne) in Hk'. subst k'.
    rewrite <- E2, <- E1. unfold switch_to. by destruct (is_vm86 x).
  - intros Heq. rewrite (proj2 (Z.eqb_eq _ _) Heq) in Hk'. by subst k'.
  - intros p z Hne Hz. rewrite Hp. destruct (_ =? sched_next k); [by apply sched_filled_lookup|].
    rewrite save_context_lookup by done. by apply sched_filled_lookup.
Qed.

Lemma sched_procs_ticks k p x : ticks_ok k -> sched_procs k !! p = Some x -> 0 <= ticks_rem x < 4294967296.
Proof.
  intros [H1 H2]. unfold sched_procs, tick_down. destruct (Z.eqb_spec (proc_current k) NULL) as [|Hn]; [apply H1|].
  destruct (decide (proc_current k = p)) as [<-|]; [|rewrite lookup_alter_ne by done; apply H1].
  destruct (H2 Hn) as (y & Hy & Hpos). rewrite lookup_alter_eq, Hy. simpl. intros E. injection E as <-.
  specialize (H1 _ _ Hy). simpl. rewrite w32_small; lia.
Qed.

Lemma sched_filled_ticks k p x : ticks_ok k -> NoDup (proc_running k) ->
  sched_filled k !! p = Some x -> 0 <= ticks_rem x < 4294967296.
Proof.
  intros Ht Hnd. unfold sched_filled. destruct (sched_out_of_time k); [|by apply sched_procs_ticks].
  rewrite refill_lookup by done. case_decide; [|by apply sched_procs_ticks].
  intros E. apply fmap_Some in E as (y & _ & ->). simpl. unfold NICE2TICKS. lia.
Qed.

Lemma sched_next_time k x : ready k -> NoDup (proc_running k) ->
  sched_filled k !! sched_next k = Some x -> 0 < ticks_rem x.
Proof.
  intros Hr Hnd. pose proof (sched_next_in k Hr) as Hin. unfold sched_filled, sched_next in *.
  destruct (sched_out_of_time k) eqn:E; unfold sched_out_of_time in E; zbool.
  - rewrite refill_lookup, decide_True by done. intros H. apply fmap_Some in H as (y & _ & ->).
    simpl. unfold NICE2TICKS. lia.
  - destruct (last_with_time_cases (sched_procs k) (proc_running k) NULL) as [?|[_ Ht]]; [done|].
    intros Hx. unfold has_time in Ht. rewrite Hx in Ht. by zbool.
Qed.

Lemma shedule_ticks k k' : ready k -> ticks_ok k -> NoDup (proc_running k) ->
  proc_shedule k = Ret tt k' -> ticks_ok k'.
Proof.
  intros Hr Ht Hnd E. pose proof (shedule_fields k k' Hr E) as (Hc & _ & _ & _ & _ & Hp).
  destruct (shedule_result k Hr) as (_ & x & _ & _ & Hx & _). split.
  - intros p y Hy. rewrite Hp in Hy. destruct (_ =? sched_next k); [by eapply sched_filled_ticks|].
    destruct (decide (p = proc_current k)) as [->|]; [|rewrite save_context_lookup in Hy by done; by eapply sched_filled_ticks].
    destruct (decide (proc_current k = NULL)) as [E0|Hn].
    { unfold save_context in Hy. rewrite E0 in Hy. simpl in Hy. by eapply sched_filled_ticks. }
    destruct (sched_filled_current k Hr Hn) as [z Hz].
    destruct (save_context_old k _ _ z Hn Hz) as (w & Hw & _ & _ & Hwt). rewrite Hw in Hy. injection Hy as <-.
    rewrite Hwt. by eapply sched_filled_ticks.
  - intros _. exists x. split; [|by apply (sched_next_time k)]. rewrite Hc, Hp.
    destruct (Z.eqb_spec (proc_current k) (sched_next k)); [done|]. by rewrite save_context_lookup.
Qed.

(** C8: with a runnable process, [proc_shedule] returns, picks a process of
    the running list, saves the context of the process that ran, loads the
    context and the address space of the next one, leaves the lists alone, and
    keeps the time slices in range: no slice is ever decremented below zero. *)
Theorem proc_shedule_correct k :
  ready k -> ticks_ok k -> NoDup (proc_running k) ->
  exists k', proc_shedule k = Ret tt k' /\ scheduled k k' /\ ticks_ok k'.
Proof.
  intros Hr Ht Hnd. destruct (shedule_scheduled k Hr) as (k' & E & Hs). exists k'.
  split; [done|]. split; [done|]. by apply (shedule_ticks k).
Qed.

(** ** While a process does not run *)

(** The registers saved for a process. *)
Definition saved (p : Z) (k : kernel) : option proc_registers := registers <$> k_procs k !! p.

Lemma keeps_saved_upd A p f : p <> A \/ (forall x, registers (f x) = registers x) -> keeps (saved A) (upd_proc p f).
Proof.
  intros H k. unfold upd_proc, proc_at, fetch, saved, mbind, cmd_bind.
  destruct (k_procs k !! p) as [x|] eqn:Hx; [|done]. cbn.
  destruct (decide (p = A)) as [->|Hne]; [|by rewrite lookup_insert_ne].
  destruct H as [H|H]; [done|]. rewrite lookup_insert_eq, Hx. cbn. by rewrite H.
Qed.

Ltac saved_step :=
  first [ apply keeps_saved_upd; (left; assumption) || (right; reflexivity)
        | keeps_step
        | progress unfold proc_at, space_at, proc_idle, cpu_shutdown, vm86_save_segregs, vm86_load_segregs,
            proc_regs_save, proc_regs_load, memuser_load_addrspace ].

Lemma keeps_saved_pick A xs : forall c, keeps (saved A) (pick xs c).
Proof. induction xs as [|p xs IH]; intros c; cbn [pick]; repeat saved_step. Qed.

(** The scheduler saves the registers of the current process only. *)
Lemma shedule_saved A k : proc_current k <> A -> saved A (state_of (proc_shedule k)) = saved A k.
Proof.
  intros Hne. unfold proc_shedule. rewrite bind_gets. revert Hne. generalize (proc_current k). intros old Hne.
  revert k.
  match goal with |- forall k, saved A (state_of (?c k)) = _ => change (keeps (saved A) c) end.
  repeat (apply keeps_saved_pick || saved_step).
Qed.

Lemma wake_saved A p k : saved A (state_of (proc_wake p k)) = saved A k.
Proof.
  revert k. match goal with |- forall k, saved A (state_of (?c k)) = _ => change (keeps (saved A) c) end.
  unfold proc_wake. repeat saved_step.
Qed.

Lemma sleep_saved A p k : proc_current k <> A -> saved A (state_of (proc_sleep p k)) = saved A k.
Proof.
  intros Hne. unfold proc_sleep, proc_at, fetch. unfold mbind at 1, cmd_bind at 1.
  destruct (k_procs k !! p) as [x|] eqn:Hx; [|done]. destruct (is_sleeping x); [done|]. cbn [negb].
  rewrite !bind_modify. unfold upd_proc, proc_at, fetch. rewrite bind_assoc. unfold mbind at 1, cmd_bind at 1.
  cbn [k_procs set_proc_sleeping set_proc_running]. rewrite Hx, bind_modify, bind_gets.
  cbn [proc_current set_k_procs set_proc_sleeping set_proc_running k_procs]. set (k1 := set_k_procs _ _).
  assert (H1 : saved A k1 = saved A k).
  { unfold saved. cbn. destruct (decide (p = A)) as [->|]; [by rewrite lookup_insert_eq, Hx|by rewrite lookup_insert_ne]. }
  destruct (p =? proc_current k); [|by rewrite bind_ret].
  rewrite <- H1, <- (shedule_saved A k1 Hne). unfold mbind, cmd_bind. by destruct (proc_shedule k1).
Qed.

(** What may happen while process [A] is not the current one: instructions of the process
    that runs, ticks, processes put to sleep and woken ([A] too), and system calls that
    neither change the table of processes nor switch.  Left out are the calls into [A]
    ([proc_call]), which are meant to change its registers, and its end. *)
Inductive elsewhere (A : Z) (k : kernel) : kernel -> Prop :=
| else_user r m u : elsewhere A k (set_k_user (set_k_mach (set_curregs k r) m) u)
| else_tick k' : proc_shedule k = Ret tt k' -> proc_current k' <> A -> elsewhere A k k'
| else_sleep p r k' : proc_sleep p k = Ret r k' -> proc_current k' <> A -> elsewhere A k k'
| else_wake p r k' : proc_wake p k = Ret r k' -> elsewhere A k k'
| else_call {B} (c : cmd kernel B) r k' :
    keeps k_procs c -> keeps proc_current c -> c k = Ret r k' -> elsewhere A k k'.

Lemma state_of_Ret {B} (c : cmd kernel B) r k k' : c k = Ret r k' -> state_of (c k) = k'.
Proof. by intros ->. Qed.

Lemma wake_current p k : proc_current (state_of (proc_wake p k)) = proc_current k.
Proof.
  revert k. match goal with |- forall k, proc_current (state_of (?c k)) = _ => change (keeps proc_current c) end.
  unfold proc_wake, upd_proc, proc_at. keeps_solve.
Qed.

Lemma elsewhere_saved A k k' : elsewhere A k k' -> proc_current k <> A -> proc_current k' <> A /\ saved A k' = saved A k.
Proof.
  intros H Hne. destruct H as [r m u|k' E H|p r k' E H|p r k' E|B c r k' Hp Hc E]; [done|..];
    apply state_of_Ret in E; subst k'.
  - split; [done|]. by apply shedule_saved.
  - split; [done|]. by apply sleep_saved.
  - rewrite wake_current. split; [done|]. apply wake_saved.
  - rewrite Hc. split; [done|]. unfold saved. by rewrite Hp.
Qed.

(** C22: A context switch and back restores the user context: when the current process is
    switched out, and after any number of ticks, sleeps, wake-ups, instructions of other
    processes and system calls that do not touch the table of processes a schedule
    picks it again, the registers it resumes with are those it was interrupted with. *)
Theorem context_switch_roundtrip k k1 k2 k3 :
  ready k -> proc_current k <> NULL -> proc_shedule k = Ret tt k1 -> proc_current k1 <> proc_current k ->
  rtc (elsewhere (proc_current k)) k1 k2 ->
  ready k2 -> proc_shedule k2 = Ret tt k3 -> proc_current k3 = proc_current k ->
  curregs k3 = curregs k.
Proof.
  intros Hr Hn E1 Hne Hsteps Hr2 E2 Hback.
  destruct (shedule_scheduled k Hr) as (k1' & E1' & Hs1). rewrite E1 in E1'. injection E1' as <-.
  destruct (shedule_scheduled k2 Hr2) as (k3' & E2' & Hs2). rewrite E2 in E2'. injection E2' as <-.
  destruct (sd_saved _ _ Hs1 Hn (not_eq_sym Hne)) as (y & Hy & Hreg).
  assert (H : proc_current k2 <> proc_current k /\ saved (proc_current k) k2 = saved (proc_current k) k1).
  { clear - Hsteps Hne. revert Hsteps Hne. generalize (proc_current k). intros A Hsteps Hne. induction Hsteps as [|a b c H _ IH]; [done|].
    destruct (elsewhere_saved A a b H Hne) as [Hb E]. destruct (IH Hb) as [Hc Ec]. by rewrite Ec, E. }
  destruct H as [Hne2 Hsv].
  destruct (sd_loaded _ _ Hs2) as (x & a & Hx & _ & Hc & _); [by rewrite Hback|].
  rewrite Hback in Hx. unfold saved in Hsv. rewrite Hx, Hy in Hsv. injection Hsv as Hsv. by rewrite Hc, Hsv.
Qed.

(** ** Fairness *)

Lemma shedule_ready k k' : ready k -> proc_shedule k = Ret tt k' -> ready k'.
Proof.
  intros Hr E. pose proof (shedule_fields k k' Hr E) as (Hc & H1 & _ & _ & Hsp & Hp).
  destruct (shedule_scheduled k Hr) as (k1 & E1 & Hs). rewrite E in E1. injection E1 as <-.
  pose proof Hr as [Ha Hb Hlive Hd].
  assert (Hl : forall p, p ∈ proc_running k -> exists x a, k_procs k' !! p = Some x /\ k_spaces k' !! addrspace x = Some a).
  { intros p Hin. destruct (Hlive p Hin) as (x & a & Hx & Hxa). rewrite Hsp.
    destruct (sched_filled_lookup k p x Hx) as (y & Hy & (E1 & _)%same_but_ticks_fields).
    rewrite Hp. destruct (Z.eqb_spec (proc_current k) (sched_next k)); [exists y, a; by rewrite E1|].
    destruct (decide (p = proc_current k)) as [->|]; [|rewrite save_context_lookup by done; exists y, a; by rewrite E1].
    assert (Hn : proc_current k <> NULL) by (intros E0; rewrite E0 in Hin; done).
    destruct (save_context_old k _ _ y Hn Hy) as (z & Hz & _ & E2 & _). exists z, a. by rewrite E2, E1. }
  constructor; rewrite ?H1; auto. right. destruct (Hl _ (sd_current _ _ Hs)) as (x & _ & Hx & _). by exists x.
Qed.

Lemma last_with_time_none m xs d : (forall p, p ∈ xs -> has_time m p = false) -> last_with_time m xs d = d.
Proof.
  intros H. destruct (last_with_time_cases m xs d) as [?|[Hin Ht]]; [done|]. by rewrite H in Ht.
Qed.

Lemma last_with_time_app m xs p ys d : has_time m p = true ->
  (forall q, q ∈ ys -> has_time m q = false) -> last_with_time m (xs ++ p :: ys) d = p.
Proof.
  intros Hp Hys. unfold last_with_time. rewrite foldl_app. cbn [foldl]. rewrite Hp.
  by apply last_with_time_none.
Qed.

Definition ticks_of (m : procs) (p : Z) : Z := match m !! p with Some x => ticks_rem x | None => 0 end.

Lemma has_time_ticks m p : has_time m p = (0 <? ticks_of m p).
Proof. unfold has_time, ticks_of. by destruct (m !! p). Qed.

(** Round [i] of a turn over the list [r]: the processes at the positions
    [1 .. n-i-1] still have to run. *)
Definition turn (n i : nat) : nat := ((n - i) mod n)%nat.

Record in_turn (r : list Z) (i : nat) (k : kernel) : Prop := {
  it_ready : ready k;
  it_list : proc_running k = r;
  it_nodup : NoDup r;
  it_round : (i < length r)%nat;
  it_current : r !! turn (length r) i = Some (proc_current k);
  it_ticks : forall j p, r !! j = Some p -> ticks_of (k_procs k) p =
    if decide (j = turn (length r) i \/ (1 <= j < length r - i)%nat) then 1 else 0;
}.

Lemma it_index r i j k p : in_turn r i k -> r !! j = Some p ->
  (p = proc_current k <-> j = turn (length r) i).
Proof.
  intros [] Hj. split; [|intros ->; congruence]. intros ->. by eapply NoDup_lookup.
Qed.

(** After the tick exactly those still to run have time. *)
Lemma turn_time r i k j p : in_turn r i k -> r !! j = Some p ->
  has_time (sched_procs k) p = bool_decide (1 <= j < length r - i)%nat.
Proof.
  intros Hi Hj. pose proof (it_index r i j k p Hi Hj) as Hidx. destruct Hi.
  specialize (it_ticks0 j p Hj). rewrite has_time_ticks. unfold sched_procs, tick_down, ticks_of in *.
  destruct (Z.eqb_spec (proc_current k) NULL) as [E|_].
  { exfalso. apply (rd_nonnull k it_ready0). rewrite it_list0, <- E. by eapply list_elem_of_lookup_2. }
  destruct (decide (p = proc_current k)) as [->|Hne].
  - assert (j = turn (length r) i) as -> by tauto. rewrite decide_True in it_ticks0 by auto.
    rewrite lookup_alter_eq. destruct (k_procs k !! proc_current k) as [x|]; simpl; [|done].
    rewrite it_ticks0. change (0 <? w32 (1 - 1)) with false. symmetry. apply bool_decide_eq_false_2.
    unfold turn. destruct (decide (i = 0%nat)) as [->|].
    + rewrite Nat.sub_0_r, Nat.Div0.mod_same. lia.
    + rewrite Nat.mod_small by lia. lia.
  - rewrite lookup_alter_ne by done. rewrite it_ticks0. repeat case_decide; case_bool_decide; try done; tauto.
Qed.

Lemma turn_ticks_le r i k j q : in_turn r i k -> r !! j = Some q -> 0 <= ticks_of (sched_procs k) q <= 1.
Proof.
  intros Hi Hj. pose proof (it_ticks _ _ _ Hi _ _ Hj) as Hticks. pose proof (it_index _ _ _ _ _ Hi Hj) as Hidx.
  unfold sched_procs, tick_down, ticks_of in *. destruct (_ =? NULL); [case_decide; lia|].
  destruct (decide (proc_current k = q)) as [E|]; [|rewrite lookup_alter_ne by done; case_decide; lia].
  rewrite decide_True in Hticks by (left; by apply Hidx). rewrite E, lookup_alter_eq.
  destruct (k_procs k !! q); simpl in *; [rewrite Hticks; change (w32 (1 - 1)) with 0; lia|lia].
Qed.

Lemma shedule_ticks_of k k' p : ready k -> proc_shedule k = Ret tt k' ->
  ticks_of (k_procs k') p = ticks_of (sched_filled k) p.
Proof.
  intros Hr E. pose proof (shedule_fields k k' Hr E) as (_ & _ & _ & _ & _ & ->).
  destruct (_ =? sched_next k); [done|]. unfold ticks_of, save_context.
  destruct (_ =? NULL); [done|]. destruct (decide (proc_current k = p)) as [->|]; [|by rewrite lookup_alter_ne].
  rewrite lookup_alter_eq. destruct (sched_filled k !! p) as [x|]; [|done]. simpl. by destruct (is_vm86 x).
Qed.

(** Someone is left in this turn. *)
Lemma turn_step r i k k' : in_turn r i k -> (S i < length r)%nat -> proc_shedule k = Ret tt k' ->
  in_turn r (S i) k'.
Proof.
  intros Hi Hlt E. pose proof (turn_time r i k) as Htime. pose proof Hi as [Hr Hl Hnd Hrd Hcur Hticks].
  pose proof (shedule_fields k k' Hr E) as (Hc & H1 & _).
  destruct (lookup_lt_is_Some_2 r (length r - S i)%nat ltac:(lia)) as [p Hp].
  destruct (split_at _ _ _ Hp) as (l1 & l2 & Hsplit & Hlen).
  assert (Hlast : last_with_time (sched_procs k) r NULL = p).
  { rewrite Hsplit. apply last_with_time_app; [rewrite (Htime _ _ Hi Hp); apply bool_decide_eq_true_2; lia|].
    intros q [m Hm]%list_elem_of_lookup. assert (Hq : r !! (length l1 + S m)%nat = Some q)
      by (by rewrite Hsplit, lookup_app_r, Nat.add_comm, Nat.add_sub by lia).
    rewrite (Htime _ _ Hi Hq). apply bool_decide_eq_false_2. lia. }
  assert (Hpn : p <> NULL).
  { intros ->. apply (rd_nonnull k Hr). rewrite Hl. by eapply list_elem_of_lookup_2. }
  assert (Hout : sched_out_of_time k = false) by (unfold sched_out_of_time; rewrite Hl, Hlast; by apply Z.eqb_neq).
  assert (Ht : turn (length r) (S i) = (length r - S i)%nat) by (unfold turn; apply Nat.mod_small; lia).
  constructor; auto; [by eapply shedule_ready|congruence|..].
  - rewrite Ht, Hp, Hc. unfold sched_next. by rewrite Hout, Hl, Hlast.
  - intros j q Hj. rewrite (shedule_ticks_of k k' q Hr E). unfold sched_filled. rewrite Hout, Ht.
    specialize (Htime _ _ Hi Hj). rewrite has_time_ticks in Htime.
    pose proof (turn_ticks_le _ _ _ _ _ Hi Hj) as Hle. clear Hticks.
    destruct (Z.ltb_spec 0 (ticks_of (sched_procs k) q)); case_bool_decide; try done; case_decide; lia.
Qed.

(** The turn is over: everybody gets a new slice. *)
Lemma turn_wrap r i k k' : in_turn r i k -> S i = length r -> proc_shedule k = Ret tt k' ->
  in_turn r 0 k'.
Proof.
  intros Hi Hlast E. pose proof Hi as [Hr Hl Hnd Hrd Hcur Hticks].
  pose proof (shedule_fields k k' Hr E) as (Hc & H1 & _).
  assert (Hout : sched_out_of_time k = true).
  { unfold sched_out_of_time. rewrite Hl. apply Z.eqb_eq. apply last_with_time_none.
    intros q [m Hm]%list_elem_of_lookup. rewrite (turn_time _ _ _ _ _ Hi Hm).
    apply bool_decide_eq_false_2. apply lookup_lt_Some in Hm. lia. }
  assert (Ht : turn (length r) 0 = 0%nat) by (unfold turn; rewrite Nat.sub_0_r; apply Nat.Div0.mod_same).
  constructor; auto; [by eapply shedule_ready|congruence|lia|..].
  - rewrite Ht, Hc. unfold sched_next. rewrite Hout, Hl. unfold Seq.get. destruct r; [simpl in *; lia|done].
  - intros j q Hj. rewrite (shedule_ticks_of k k' q Hr E). unfold sched_filled. rewrite Hout, Ht.
    apply lookup_lt_Some in Hj as Hjl. rewrite decide_True by lia.
    assert (Hq : q ∈ proc_running k) by (rewrite Hl; by eapply list_elem_of_lookup_2).
    unfold ticks_of. rewrite refill_lookup by (by rewrite Hl). rewrite decide_True by done.
    destruct (rd_live k Hr q Hq) as (x & _ & Hx & _).
    destruct (sched_procs_lookup k q x Hx) as (y & -> & _). done.
Qed.

(** [n] clock ticks, with nothing else happening in between. *)
Fixpoint shedule_times (n : nat) : cmd kernel unit :=
  match n with
  | O => mret tt
  | S n => shedule_times n;; proc_shedule
  end.

Lemma turns_go_on r k t :
  in_turn r 0 k ->
  exists k', shedule_times t k = Ret tt k' /\ in_turn r (t mod length r) k' /\
    r !! turn (length r) (t mod length r) = Some (proc_current k').
Proof.
  intros H0. assert (Hn : length r <> 0%nat) by (pose proof (it_round _ _ _ H0); lia).
  induction t as [|t (k1 & E1 & Hi & _)]; cbn [shedule_times].
  - rewrite Nat.Div0.mod_0_l. exists k. split; [done|]. split; [done|apply (it_current _ _ _ H0)].
  - cstep E1. destruct (shedule_scheduled k1 (it_ready _ _ _ Hi)) as (k2 & E2 & _). exists k2.
    split; [done|]. assert (H2 : in_turn r (S t mod length r) k2); [|split; [done|apply (it_current _ _ _ H2)]].
    pose proof (it_round _ _ _ Hi) as Hlt. rewrite <- Nat.add_1_r, <- Nat.Div0.add_mod_idemp_l, Nat.add_1_r.
    destruct (decide (S (t mod length r) = length r)) as [E|].
    + rewrite E, Nat.Div0.mod_same. by apply (turn_wrap r (t mod length r) k1).
    + rewrite Nat.mod_small by lia. apply (turn_step r _ k1); auto; lia.
Qed.

(** C23: scheduling is round robin: from a fresh turn over the [n] running
    processes, after [t] clock ticks the process at position
    [-t mod n] of the running list runs; so every process runs exactly once
    in any [n] ticks, forever. *)
Theorem round_robin r k t :
  in_turn r 0 k ->
  exists k', shedule_times t k = Ret tt k' /\ in_turn r (t mod length r) k' /\
    r !! turn (length r) (t mod length r) = Some (proc_current k').
Proof. apply turns_go_on. Qed.

(** ** Sleeping and waking *)

Lemma drop_elem_perm xs p : NoDup xs -> NULL ∉ xs -> p ∈ xs -> p :: Seq.drop_elem xs p ≡ₚ xs.
Proof.
  intros Hnd Hnn Hin. destruct (NoDup_remove_elem xs p Hnd Hin) as (k1 & k2 & -> & H1 & H2 & _).
  rewrite drop_elem_in; [by rewrite Permutation_middle| |set_solver|done].
  intros ->. set_solver.
Qed.

Definition to_sleep (k : kernel) (p : Z) (x : proc_t) : kernel :=
  set_k_procs (set_proc_sleeping (set_proc_running k (Seq.drop_elem (proc_running k) p))
    (p :: proc_sleeping k)) (<[p := set_is_sleeping x true]> (k_procs k)).

Definition to_run (k : kernel) (p : Z) (x : proc_t) : kernel :=
  set_k_procs (set_proc_running (set_proc_sleeping k (Seq.drop_elem (proc_sleeping k) p))
    (p :: proc_running k)) (<[p := set_is_sleeping x false]> (k_procs k)).

Lemma lists_ok_perm k run slp m :
  lists_ok k -> run ++ slp ≡ₚ proc_running k ++ proc_sleeping k ->
  (forall p, p ∈ run -> exists x, m !! p = Some x /\ is_sleeping x = false) ->
  (forall p, p ∈ slp -> exists x, m !! p = Some x /\ is_sleeping x = true) ->
  lists_ok (set_k_procs (set_proc_sleeping (set_proc_running k run) slp) m).
Proof.
  intros [] E Hr Hs. constructor; cbn [proc_running proc_sleeping k_procs set_k_procs set_proc_sleeping set_proc_running];
    rewrite ?E; auto.
Qed.

Lemma to_sleep_ok k p x : lists_ok k -> p ∈ proc_running k -> k_procs k !! p = Some x ->
  lists_ok (to_sleep k p x) /\ p :: proc_running (to_sleep k p x) ≡ₚ proc_running k.
Proof.
  intros Hl Hin Hx. pose proof Hl as [Hnd Hnn Hlen Hr Hs].
  apply NoDup_app in Hnd as (Hnd1 & Hdis & Hnd2).
  assert (Hp : p :: Seq.drop_elem (proc_running k) p ≡ₚ proc_running k) by (apply drop_elem_perm; set_solver).
  split; [|done]. apply lists_ok_perm; [done| | |].
  - rewrite <- Permutation_middle. exact (Permutation_app_tail (proc_sleeping k) Hp).
  - intros q Hq. assert (Hqr : q ∈ proc_running k) by (rewrite <- Hp; set_solver).
    assert (Hne : q <> p).
    { intros ->. rewrite <- Hp in Hnd1. apply NoDup_cons in Hnd1 as [? _]. done. }
    rewrite lookup_insert_ne by done. by apply Hr.
  - intros q [->|Hq]%elem_of_cons; [rewrite lookup_insert_eq; eauto|].
    rewrite lookup_insert_ne; [by apply Hs|]. intros ->. by apply (Hdis q).
Qed.

Lemma to_run_ok k p x : lists_ok k -> p ∈ proc_sleeping k -> k_procs k !! p = Some x ->
  lists_ok (to_run k p x) /\ p :: proc_sleeping (to_run k p x) ≡ₚ proc_sleeping k.
Proof.
  intros Hl Hin Hx. pose proof Hl as [Hnd Hnn Hlen Hr Hs].
  apply NoDup_app in Hnd as (Hnd1 & Hdis & Hnd2).
  assert (Hp : p :: Seq.drop_elem (proc_sleeping k) p ≡ₚ proc_sleeping k) by (apply drop_elem_perm; set_solver).
  split; [|done].
  change (lists_ok (set_k_procs (set_proc_sleeping (set_proc_running k (p :: proc_running k))
    (Seq.drop_elem (proc_sleeping k) p)) (<[p := set_is_sleeping x false]> (k_procs k)))).
  apply lists_ok_perm; [done| | |].
  - cbn [app]. rewrite Permutation_middle. exact (Permutation_app_head (proc_running k) Hp).
  - intros q [->|Hq]%elem_of_cons; [rewrite lookup_insert_eq; eauto|].
    rewrite lookup_insert_ne; [by apply Hr|]. intros ->. by apply (Hdis q).
  - intros q Hq. assert (Hqr : q ∈ proc_sleeping k) by (rewrite <- Hp; set_solver).
    assert (Hne : q <> p).
    { intros ->. rewrite <- Hp in Hnd2. apply NoDup_cons in Hnd2 as [? _]. done. }
    rewrite lookup_insert_ne by done. by apply Hs.
Qed.

Lemma proc_sleep_exact k p x : k_procs k !! p = Some x ->
  proc_sleep p k =
    if is_sleeping x then Ret 0 k
    else ((if p =? proc_current k then proc_shedule else mret tt);; mret 0) (to_sleep k p x).
Proof.
  intros Hx. unfold proc_sleep, proc_at. cstep (fetch_Some k_procs _ _ _ Hx).
  destruct (is_sleeping x); [done|]. cbn [negb].
  rewrite (bind_Ret (modify _) _ k tt _ eq_refl), (bind_Ret (modify _) _ _ tt _ eq_refl).
  by match goal with |- context [(upd_proc p ?f ≫= _) ?s] => cstep (upd_proc_Some p f x s Hx) end.
Qed.

Lemma proc_wake_exact k p x : k_procs k !! p = Some x ->
  proc_wake p k = Ret 0 (if is_sleeping x then to_run k p x else k).
Proof.
  intros Hx. unfold proc_wake, proc_at. cstep (fetch_Some k_procs _ _ _ Hx).
  destruct (is_sleeping x); [|done].
  rewrite (bind_Ret (modify _) _ k tt _ eq_refl), (bind_Ret (modify _) _ _ tt _ eq_refl).
  by match goal with |- context [(upd_proc p ?f ≫= _) ?s] => cstep (upd_proc_Some p f x s Hx) end.
Qed.

(** putting a process that is not the current one to sleep moves it from
    the running to the sleeping list, waking it moves it back, both keep the
    list invariant and touch no other process; on a process already in the
    requested state they do nothing. *)
Theorem sleep_wake_correct k p :
  lists_ok k -> p ∈ proc_running k -> p <> proc_current k ->
  exists k1 k2, proc_sleep p k = Ret 0 k1 /\ lists_ok k1 /\ p ∈ proc_sleeping k1 /\ p ∉ proc_running k1 /\
    proc_sleep p k1 = Ret 0 k1 /\
    proc_wake p k1 = Ret 0 k2 /\ lists_ok k2 /\ proc_running k2 ≡ₚ proc_running k /\
    proc_sleeping k2 ≡ₚ proc_sleeping k /\ k_procs k2 = k_procs k /\ proc_wake p k2 = Ret 0 k2.
Proof.
  intros Hl Hin Hne. destruct (lo_running k Hl p Hin) as (x & Hx & Hf).
  destruct (to_sleep_ok k p x Hl Hin Hx) as [Hl1 Hp1].
  set (k1 := to_sleep k p x) in *. assert (Hx1 : k_procs k1 !! p = Some (set_is_sleeping x true)) by apply lookup_insert_eq.
  assert (Hin1 : p ∈ proc_sleeping k1) by (cbn; set_solver).
  destruct (to_run_ok k1 p _ Hl1 Hin1 Hx1) as [Hl2 Hp2].
  set (k2 := to_run k1 p (set_is_sleeping x true)) in *.
  assert (Hp3 : k_procs k2 = k_procs k).
  { cbn. rewrite insert_insert_eq. destruct x. cbn in *. subst. by rewrite insert_id. }
  exists k1, k2. rewrite (proc_sleep_exact k p x Hx), Hf.
  rewrite (proj2 (Z.eqb_neq _ _) Hne), bind_ret.
  rewrite (proc_sleep_exact k1 p _ Hx1), (proc_wake_exact k1 p _ Hx1).
  assert (Hx2 : k_procs k2 !! p = Some x) by (by rewrite Hp3).
  rewrite (proc_wake_exact k2 p x Hx2), Hf. do 3 (split; [done|]). split.
  { intros Hin2. pose proof (lo_nodup k1 Hl1) as Hnd. apply NoDup_app in Hnd as (_ & Hd & _). by apply (Hd p). }
  do 3 (split; [done|]). split; [done|]. split; [|done].
  by apply (Permutation_cons_inv (a := p)).
Qed.

(** ** The current process goes to sleep *)

Lemma shedule_flags k k' p : ready k -> proc_shedule k = Ret tt k' ->
  is_sleeping <$> k_procs k' !! p = is_sleeping <$> k_procs k !! p.
Proof.
  intros Hr E. pose proof (shedule_fields k k' Hr E) as (_ & _ & _ & _ & _ & ->).
  assert (Hf : is_sleeping <$> sched_filled k !! p = is_sleeping <$> k_procs k !! p).
  { destruct (k_procs k !! p) as [x|] eqn:Hx.
    - destruct (sched_filled_lookup k p x Hx) as (y & -> & (_ & _ & Ef)%same_but_ticks_fields).
      simpl. by rewrite Ef.
    - assert (Hs : sched_procs k !! p = None).
      { unfold sched_procs, tick_down. destruct (_ =? NULL); [done|].
        destruct (decide (proc_current k = p)) as [->|]; [by rewrite lookup_alter_eq, Hx|by rewrite lookup_alter_ne]. }
      unfold sched_filled. destruct (sched_out_of_time k); [|by rewrite Hs].
      destruct (refill _ _ !! p) as [y|] eqn:Hy; [|done]. exfalso.
      destruct (proj1 (refill_live (proc_running k) (sched_procs k) p) (mk_is_Some _ _ Hy)) as [z Hz]. congruence. }
  destruct (_ =? sched_next k); [done|]. rewrite <- Hf. unfold save_context. destruct (_ =? NULL); [done|].
  destruct (decide (proc_current k = p)) as [->|]; [|by rewrite lookup_alter_ne].
  rewrite lookup_alter_eq. destruct (sched_filled k !! p) as [x|]; [|done]. simpl. by destruct (is_vm86 x).
Qed.

Lemma shedule_lists k k' : ready k -> lists_ok k -> proc_shedule k = Ret tt k' -> lists_ok k'.
Proof.
  intros Hr [] E. pose proof (shedule_fields k k' Hr E) as (_ & H1 & H2 & _).
  assert (Hf : forall p b, (exists x, k_procs k !! p = Some x /\ is_sleeping x = b) ->
    exists x, k_procs k' !! p = Some x /\ is_sleeping x = b).
  { intros p b (x & Hx & Hb). pose proof (shedule_flags k k' p Hr E) as F. rewrite Hx in F. simpl in F.
    apply fmap_Some in F as (y & Hy & Ey). exists y. split; [done|congruence]. }
  constructor; rewrite ?H1, ?H2; auto.
Qed.

(** The records a switch away from the current process needs. *)
Record switchable (k : kernel) : Prop := {
  sw_lists : lists_ok k;
  sw_current : proc_current k ∈ proc_running k;
  sw_spaces : forall p x, p ∈ proc_running k -> k_procs k !! p = Some x ->
    is_Some (k_spaces k !! addrspace x);
}.

Lemma sleep_ready k x : switchable k -> k_procs k !! proc_current k = Some x ->
  proc_running (to_sleep k (proc_current k) x) <> [] -> ready (to_sleep k (proc_current k) x).
Proof.
  intros [Hl Hc Hsp] Hx Hne. destruct (to_sleep_ok k _ x Hl Hc Hx) as [Hl1 Hp].
  set (k1 := to_sleep k (proc_current k) x) in *.
  constructor; [done|pose proof (lo_nonnull _ Hl1); set_solver| |right; eexists; apply lookup_insert_eq].
  intros p Hin. destruct (lo_running _ Hl1 p Hin) as (y & Hy & Hf).
  assert (Hpr : p ∈ proc_running k) by (rewrite <- Hp; set_solver).
  assert (Hpc : p <> proc_current k).
  { intros ->. pose proof (lo_nodup _ Hl) as (Hnd & _)%NoDup_app. rewrite <- Hp in Hnd.
    apply NoDup_cons in Hnd as [? _]. done. }
  assert (Hyk : k_procs k !! p = Some y) by (unfold k1, to_sleep in Hy; cbn in Hy; by rewrite lookup_insert_ne in Hy).
  destruct (Hsp p y Hpr Hyk) as [a Ha]. by exists y, a.
Qed.

(** Nothing can run: the context is saved and the processor halts. *)
Lemma shedule_idle k : proc_running k = [] -> proc_sleeping k <> [] -> proc_current k <> NULL ->
  is_Some (k_procs k !! proc_current k) ->
  proc_shedule k = Stop Idle
    (set_proc_current (set_k_procs k (save_context k (proc_current k) (k_procs k))) NULL).
Proof.
  intros Hr Hs Hn Hx. unfold proc_shedule.
  rewrite (bind_Ret (gets proc_current) _ k _ k eq_refl), (bind_Ret (gets proc_running) _ k _ k eq_refl).
  rewrite (bind_Ret (gets proc_sleeping) _ k _ k eq_refl).
  rewrite bool_decide_true, bool_decide_false by done. unfold mbind at 1, cmd_bind at 1.
  by cstep (regs_save_ok _ _ Hx Hn).
Qed.

Lemma save_context_lists k old : lists_ok k ->
  lists_ok (set_proc_current (set_k_procs k (save_context k old (k_procs k))) NULL).
Proof.
  intros []. assert (Hf : forall p b, (exists x, k_procs k !! p = Some x /\ is_sleeping x = b) ->
    exists x, save_context k old (k_procs k) !! p = Some x /\ is_sleeping x = b).
  { intros p b (x & Hx & Hb). unfold save_context. destruct (_ =? NULL); [by exists x|].
    destruct (decide (old = p)) as [->|]; [|rewrite lookup_alter_ne by done; by exists x].
    rewrite lookup_alter_eq, Hx. simpl. by destruct (is_vm86 x); eexists. }
  constructor; auto.
Qed.

(** when the current process goes to sleep and others are running, its
    context is saved and another running process continues; when it was the
    only one, its context is saved and the processor halts with no current
    process.  The list invariant holds either way. *)
Theorem sleep_current_correct k x :
  switchable k -> k_procs k !! proc_current k = Some x ->
  exists k', lists_ok k' /\ proc_current k ∈ proc_sleeping k' /\ proc_current k ∉ proc_running k' /\
    (exists y, k_procs k' !! proc_current k = Some y /\ registers y = curregs k) /\
    ((proc_running k <> [proc_current k] /\ proc_sleep (proc_current k) k = Ret 0 k' /\
        proc_current k' ∈ proc_running k') \/
     (proc_running k = [proc_current k] /\ proc_sleep (proc_current k) k = Stop Idle k' /\
        proc_current k' = NULL)).
Proof.
  intros Hsw Hx. pose proof Hsw as [Hl Hc _]. destruct (to_sleep_ok k _ x Hl Hc Hx) as [Hl1 Hp].
  assert (Hf : is_sleeping x = false) by (destruct (lo_running k Hl _ Hc) as (y & Hy & ?); congruence).
  assert (Hcn : proc_current k <> NULL) by (intros E; apply (lo_nonnull k Hl); rewrite <- E; set_solver).
  pose proof (sleep_ready k x Hsw Hx) as Hready.
  rewrite (proc_sleep_exact k _ x Hx), Hf, Z.eqb_refl. set (k1 := to_sleep k (proc_current k) x) in *.
  assert (Hni : proc_current k ∉ proc_running k1).
  { intros Hin. pose proof (lo_nodup _ Hl1) as (_ & Hd & _)%NoDup_app. apply (Hd _ Hin). cbn. set_solver. }
  destruct (decide (proc_running k1 = [])) as [Hrun|Hrun].
  - rewrite Hrun in Hp. apply Permutation_singleton_l in Hp.
    exists (set_proc_current (set_k_procs k1 (save_context k1 (proc_current k1) (k_procs k1))) NULL).
    destruct (save_context_old k1 (proc_current k) (k_procs k1) (set_is_sleeping x true) Hcn
      (lookup_insert_eq _ _ _)) as (y & Hy & Hyr & _).
    split; [by apply save_context_lists|]. split; [cbn; set_solver|]. split; [done|]. split; [by exists y|].
    right. split; [done|]. split; [|done]. unfold mbind, cmd_bind. rewrite shedule_idle; [done|done|done|done|].
    eexists. apply lookup_insert_eq.
  - destruct (shedule_scheduled k1 (Hready Hrun)) as (k' & E & Hs). exists k'.
    pose proof (sd_lists _ _ Hs) as (E1 & E2 & _). pose proof (sd_current _ _ Hs) as Hin.
    split; [by apply (shedule_lists k1); auto|]. rewrite E1, E2. split; [cbn; set_solver|]. split; [done|].
    split; [apply (sd_saved _ _ Hs Hcn); intros Ec; apply Hni; by rewrite <- Ec in Hin|].
    left. split; [|split; [by cstep E|done]]. intros Er. rewrite Er in Hp.
    apply Permutation_length in Hp. destruct (proc_running k1); [done|simpl in Hp; lia].
Qed.

(** ** Calls into a process *)

Fixpoint push_words (pd sp : Z) (vs : list Z) (u : gmap (Z * Z) Z) : Z * gmap (Z * Z) Z :=
  match vs with
  | [] => (sp, u)
  | v :: vs => let sp := w32 (sp - 4) in push_words pd sp vs (put_word pd sp v u)
  end.

(** The words from [sp] on. *)
Definition stack_frame (u : gmap (Z * Z) Z) (pd sp : Z) (vs : list Z) : Prop :=
  forall i v, vs !! i = Some v -> word_at u pd (sp + 4 * Z.of_nat i) = w32 v.

Lemma push_frame u pd sp v vs : 4 * Z.of_nat (length vs) + 8 < 4294967296 ->
  stack_frame u pd sp vs -> stack_frame (put_word pd (w32 (sp - 4)) v u) pd (w32 (sp - 4)) (v :: vs).
Proof.
  intros Hl Hf [|i] w Hi.
  - injection Hi as ->. rewrite Z.add_0_r. apply word_at_put.
  - assert (E : forall u, word_at u pd (w32 (sp - 4) + 4 * Z.of_nat (S i)) = word_at u pd (sp + 4 * Z.of_nat i)).
    { intros u'. rewrite <- word_at_w32, w32_w32_add, word_at_w32. f_equal. lia. }
    rewrite E, word_at_put_ne; [by apply Hf|]. right. intros a b Ha Hb Heq.
    apply lookup_lt_Some in Hi. simpl in Hi. rewrite w32_w32_add in Heq.
    replace (sp + 4 * Z.of_nat i + b) with (sp - 4 + (4 * Z.of_nat i + b + 4)) in Heq by lia.
    apply w32_shift in Heq; lia.
Qed.

Lemma push_words_frame pd vs : forall sp u ws,
  4 * Z.of_nat (length vs + length ws) + 4 < 4294967296 -> stack_frame u pd sp ws ->
  stack_frame (push_words pd sp vs u).2 pd (push_words pd sp vs u).1 (rev vs ++ ws).
Proof.
  induction vs as [|v vs IH]; intros sp u ws Hl Hf; [done|]. cbn [push_words rev] in *. cbv zeta.
  simpl in Hl. rewrite <- app_assoc. apply IH; [simpl; lia|]. apply push_frame; [lia|done].
Qed.

(** The state after pushing on the stack of a process that is not current. *)
Definition pushed (k : kernel) (p : Z) (x : proc_t) (s : Z * gmap (Z * Z) Z) : kernel :=
  set_k_user (set_k_procs k (<[p := set_registers x (set_esp (registers x) s.1)]> (k_procs k))) s.2.

Lemma proc_push_ok k p x v : p <> proc_current k -> k_procs k !! p = Some x ->
  proc_push p v k = Ret tt (pushed k p x (push_words (paging_curpd (k_mach k)) (esp (registers x)) [v] (k_user k))).
Proof.
  intros Hne Hx. unfold proc_push, upd_regs, regs_of.
  rewrite bind_assoc, (bind_Ret (gets proc_current) _ k _ k eq_refl).
  assert (E : (proc_current k =? p) = false) by (apply Z.eqb_neq; congruence). rewrite E.
  cstep (upd_proc_Some p (fun x => set_registers x (set_esp (registers x) (w32 (esp (registers x) - 4)))) x k Hx).
  set (k1 := set_k_procs k _). rewrite bind_assoc, (bind_Ret (gets proc_current) _ k1 (proc_current k) k1 eq_refl), E.
  unfold proc_at. rewrite bind_assoc. rewrite (bind_Ret _ _ k1 _ k1 (fetch_Some k_procs p _ k1 (lookup_insert_eq _ _ _))).
  by rewrite bind_ret, user_store_ok.
Qed.

Lemma push_all_ok p vs : forall k x, p <> proc_current k -> k_procs k !! p = Some x ->
  for_each vs (proc_push p) k =
    Ret tt (pushed k p x (push_words (paging_curpd (k_mach k)) (esp (registers x)) vs (k_user k))).
Proof.
  induction vs as [|v vs IH]; intros k x Hne Hx; cbn [for_each].
  - unfold mret, cmd_ret, pushed. cbn [push_words fst snd]. f_equal.
    rewrite insert_id; [by destruct k|]. rewrite Hx. by destruct x as [? ? ? ? ? ? ? ? ? ? ? []].
  - cstep (proc_push_ok k p x v Hne Hx). cbn [push_words].
    set (k1 := pushed k p x _). rewrite (IH k1 (set_registers x (set_esp (registers x) (w32 (esp (registers x) - 4)))));
      [|done|apply lookup_insert_eq].
    unfold mret, cmd_ret. f_equal. unfold pushed, k1. cbn. by rewrite insert_insert_eq.
Qed.

(** [proc_call] builds a call frame on the stack of the process: below the
    old stack pointer lie the return address, which is where the process was,
    and the arguments in order; the process resumes at the function, is
    running, and the current address space is loaded again. *)
Theorem proc_call_frame k p x a c ca func args :
  k_procs k !! p = Some x -> k_spaces k !! addrspace x = Some a -> defunc x = false ->
  p <> proc_current k -> k_procs k !! proc_current k = Some c -> proc_current k <> NULL ->
  k_spaces k !! addrspace c = Some ca -> 4 * Z.of_nat (length args) + 8 < 4294967296 ->
  exists k' y, proc_call p func args k = Ret tt k' /\ k_procs k' !! p = Some y /\
    eip (registers y) = func /\ is_sleeping y = false /\
    stack_frame (k_user k') (pagedir a) (esp (registers y)) (eip (registers x) :: args) /\
    paging_curpd (k_mach k') = pagedir ca.
Proof.
  intros Hx Ha Hd Hne Hc Hcn Hca Hlen. unfold proc_call, proc_at. cstep (fetch_Some k_procs _ _ _ Hx).
  rewrite Hd. cbn [negb]. cstep (load_addrspace_ok _ _ _ Ha). set (k1 := set_k_mach k _).
  cstep (push_all_ok p (rev args) k1 x Hne Hx).
  set (s := push_words _ _ (rev args) _). set (x2 := set_registers x (set_esp (registers x) s.1)).
  set (k2 := pushed k1 p x s). assert (Hx2 : k_procs k2 !! p = Some x2) by apply lookup_insert_eq.
  assert (Ec : (proc_current k2 =? p) = false) by (apply Z.eqb_neq; cbn; congruence).
  unfold regs_of. rewrite bind_assoc, (bind_Ret (gets proc_current) _ k2 _ k2 eq_refl), Ec. unfold proc_at.
  rewrite bind_assoc. cstep (fetch_Some k_procs _ _ _ Hx2). rewrite bind_ret.
  cstep (proc_push_ok k2 p x2 (eip (registers x2)) Hne Hx2).
  set (k3 := pushed k2 p x2 _). rewrite (bind_Ret (gets proc_current) _ k3 (proc_current k) k3 eq_refl).
  rewrite (proj2 (Z.eqb_neq _ _) Hcn). cbn [negb].
  assert (Hc3 : k_procs k3 !! proc_current k = Some c) by (cbn; by rewrite !lookup_insert_ne).
  rewrite bind_assoc. cstep (fetch_Some k_procs _ _ _ Hc3). rewrite bind_assoc.
  cstep (load_addrspace_ok (addrspace c) ca k3 Hca). rewrite bind_ret. set (k4 := set_k_mach k3 _).
  unfold upd_regs. rewrite bind_assoc, (bind_Ret (gets proc_current) _ k4 (proc_current k) k4 eq_refl).
  change (proc_current k2) with (proc_current k) in Ec. rewrite Ec.
  set (x3 := set_registers x2 (set_esp (registers x2) (w32 (esp (registers x2) - 4)))).
  assert (Hx4 : k_procs k4 !! p = Some x3) by apply lookup_insert_eq.
  cstep (upd_proc_Some p (fun x => set_registers x (set_eip (registers x) func)) x3 k4 Hx4).
  set (x5 := set_registers x3 (set_eip (registers x3) func)). set (k5 := set_k_procs k4 _).
  cstep (proc_wake_exact k5 p x5 (lookup_insert_eq _ _ _)).
  assert (Hframe : stack_frame (k_user k3) (pagedir a) (esp (registers x3)) (eip (registers x) :: args)).
  { change (stack_frame (push_words (pagedir a) s.1 [eip (registers x)] s.2).2 (pagedir a)
      (push_words (pagedir a) s.1 [eip (registers x)] s.2).1 (rev [eip (registers x)] ++ args)).
    apply push_words_frame; [simpl; lia|]. rewrite <- (rev_involutive args), <- (app_nil_r (rev (rev args))).
    apply push_words_frame; [rewrite length_rev; simpl; lia|]. intros i v Hi. by rewrite lookup_nil in Hi. }
  destruct (is_sleeping x5) eqn:Hsl.
  - exists (to_run k5 p x5), (set_is_sleeping x5 false). split; [done|].
    split; [cbn; apply lookup_insert_eq|]. done.
  - exists k5, x5. split; [done|]. split; [apply lookup_insert_eq|]. done.
Qed.

(** ** Exit and wait *)

(** What a waiting parent sees when its child is gone. *)
Record reaped (k k' : kernel) (cur : Z) (x y : proc_t) (pd r : Z) : Prop := {
  rp_current : proc_current k' = NULL;
  rp_parent : exists y', k_procs k' !! parent x = Some y' /\ eax (registers y') = w32 (pid x) /\
    wait y' = false /\ is_sleeping y' = false;
  rp_status : word_at (k_user k') pd (wait_stat y) = w32 r;
  rp_child : exists x', k_procs k' !! cur = Some x' /\ defunc x' = true /\ ret x' = r;
  rp_lists : parent x ∈ proc_running k' /\ cur ∉ proc_running k' /\ cur ∉ proc_sleeping k';
}.

(** The first half of [proc_exit]: the parent is told and woken. *)
Definition notified (k : kernel) (x y : proc_t) (pd xpd r : Z) : kernel :=
  let y1 := set_registers y (set_eax (registers y) (w32 (pid x))) in
  to_run (set_k_procs (set_k_mach (set_k_user k (put_word pd (wait_stat y) r (k_user k)))
      (set_curpd (k_mach k) xpd))
    (<[parent x := set_wait y1 false]> (k_procs k))) (parent x) (set_wait y1 false).

Lemma proc_exit_notifies k x y a xa r :
  k_procs k !! proc_current k = Some x -> k_procs k !! parent x = Some y -> parent x <> NULL ->
  wait y = true -> waits_for y x = true -> wait_stat y <> NULL -> is_sleeping y = true ->
  k_spaces k !! addrspace y = Some a -> k_spaces k !! addrspace x = Some xa ->
  proc_exit r k = (upd_proc (proc_current k) (fun x => set_defunc (set_ret x r) true);;
    modify (fun k' => set_proc_running k' (Seq.drop_elem (proc_running k') (proc_current k)));;
    modify (fun k => set_proc_current k NULL);; proc_idle) (notified k x y (pagedir a) (pagedir xa) r).
Proof.
  intros Hx Hy Hpn Hw Hwf Hst Hsl Ha Hxa. unfold proc_exit.
  rewrite (bind_Ret (gets proc_current) _ k _ k eq_refl). unfold proc_at.
  cstep (fetch_Some k_procs _ _ _ Hx). rewrite (proj2 (Z.eqb_neq _ _) Hpn). cbn [negb].
  unfold mbind at 1, cmd_bind at 1.
  rewrite (bind_Ret _ _ k y k (fetch_Some k_procs _ _ _ Hy)), Hw, Hwf. cbn [andb].
  cstep (upd_proc_Some (parent x) (fun y => set_registers y (set_eax (registers y) (w32 (pid x)))) y k Hy).
  rewrite (proj2 (Z.eqb_neq _ _) Hst). cbn [negb]. set (k1 := set_k_procs k _).
  rewrite bind_assoc. cstep (load_addrspace_ok (addrspace y) a k1 Ha). rewrite bind_assoc.
  set (k2 := set_k_mach k1 _). cstep (user_store_ok (wait_stat y) r k2). set (k3 := set_k_user k2 _).
  rewrite bind_assoc. cstep (load_addrspace_ok (addrspace x) xa k3 Hxa). rewrite bind_ret.
  set (k4 := set_k_mach k3 _). set (y1 := set_registers y (set_eax (registers y) (w32 (pid x)))) in *.
  assert (Hy4 : k_procs k4 !! parent x = Some y1) by apply lookup_insert_eq.
  cstep (upd_proc_Some (parent x) (fun y => set_wait y false) y1 k4 Hy4).
  set (k5 := set_k_procs k4 _). assert (Hy5 : k_procs k5 !! parent x = Some (set_wait y1 false)) by apply lookup_insert_eq.
  rewrite (bind_Ret _ _ _ _ _ (proc_wake_exact k5 _ _ Hy5)).
  change (is_sleeping (set_wait y1 false)) with (is_sleeping y). rewrite Hsl. unfold mret, cmd_ret.
  assert (E : to_run k5 (parent x) (set_wait y1 false) = notified k x y (pagedir a) (pagedir xa) r); [|by rewrite E].
  unfold notified, to_run, k5, k4, k3, k2, k1. cbn. by rewrite !insert_insert_eq.
Qed.

(** exit wakes the parent that waits for the process: it finds the exit
    status in its memory and the pid in its return register, is running and no
    longer waiting; the process itself is defunct, on no list, and the
    processor goes idle. *)
Theorem proc_exit_wakes_parent k x y a xa r :
  lists_ok k -> proc_current k ∈ proc_running k -> parent x ∈ proc_sleeping k ->
  k_procs k !! proc_current k = Some x -> k_procs k !! parent x = Some y -> parent x <> NULL ->
  wait y = true -> waits_for y x = true -> wait_stat y <> NULL ->
  k_spaces k !! addrspace y = Some a -> k_spaces k !! addrspace x = Some xa ->
  exists k', proc_exit r k = Stop Idle k' /\ reaped k k' (proc_current k) x y (pagedir a) r.
Proof.
  intros Hl Hcr Hps Hx Hy Hpn Hw Hwf Hst Ha Hxa.
  assert (Hsl : is_sleeping y = true) by (destruct (lo_sleeping k Hl _ Hps) as (? & ? & ?); congruence).
  assert (Hne : parent x <> proc_current k).
  { intros E. pose proof (lo_nodup k Hl) as (_ & Hd & _)%NoDup_app. apply (Hd _ Hcr). by rewrite <- E. }
  rewrite (proc_exit_notifies k x y a xa r Hx Hy Hpn Hw Hwf Hst Hsl Ha Hxa).
  set (k1 := notified k x y (pagedir a) (pagedir xa) r).
  assert (Hx1 : k_procs k1 !! proc_current k = Some x) by (cbn; by rewrite !lookup_insert_ne).
  cstep (upd_proc_Some (proc_current k) (fun x => set_defunc (set_ret x r) true) x k1 Hx1).
  eexists. split; [reflexivity|]. constructor.
  - done.
  - eexists. split; [cbn; rewrite lookup_insert_ne by done; apply lookup_insert_eq|]. done.
  - cbn. apply word_at_put.
  - eexists. split; [apply lookup_insert_eq|]. done.
  - pose proof (lo_nodup k Hl) as (Hn1 & Hd & Hn2)%NoDup_app. pose proof (lo_nonnull k Hl) as Hnn.
    pose proof (lo_length k Hl) as Hlen. rewrite length_app in Hlen.
    assert (Hlp : (0 < length (proc_sleeping k))%nat) by (destruct (proc_sleeping k); [set_solver|simpl; lia]).
    destruct (drop_elem_NoDup (parent x :: proc_running k) (proc_current k)) as (_ & Hm & _).
    { apply NoDup_cons. split; [|done]. intros Hin. by apply (Hd _ Hin). }
    { set_solver. }
    { simpl. lia. }
    cbn. rewrite !Hm. split; [set_solver|]. split; [tauto|]. intros Hin.
    destruct (drop_elem_NoDup (proc_sleeping k) (parent x)) as (_ & Hm2 & _); [done|set_solver|lia|].
    apply Hm2 in Hin as [Hin _]. by apply (Hd _ Hcr).
Qed.

(** ** Concrete instances *)

(** Three processes at 100, 101, 102 in the loaded space, 103 asleep. *)
Definition trio : kernel :=
  set_proc_sleeping (set_proc_running (set_proc_current (set_k_spaces (set_k_procs (empty_kernel demo)
    {[100 := plain_proc 1 200; 101 := plain_proc 2 200; 102 := plain_proc 3 201;
      103 := set_is_sleeping (plain_proc 4 200) true]})
    {[200 := demo_space; 201 := AddrSpace 102 [] [] [] 8192 0]}) 100) [100; 101; 102]) [103].

Lemma trio_cases p : p ∈ [100; 101; 102] -> p = 100 \/ p = 101 \/ p = 102.
Proof. set_solver. Qed.

Lemma trio_ready : ready trio.
Proof.
  constructor.
  - discriminate.
  - vm_compute. intros H. set_solver.
  - intros p [->|[->| ->]]%trio_cases; by repeat eexists.
  - right. by eexists.
Qed.

Lemma trio_procs p x : k_procs trio !! p = Some x ->
  (p, x) ∈ [(100, plain_proc 1 200); (101, plain_proc 2 200); (102, plain_proc 3 201);
            (103, set_is_sleeping (plain_proc 4 200) true)].
Proof.
  cbn. intros H. repeat (apply lookup_insert_Some in H as [[<- <-]|[_ H]]; [set_solver|]).
  apply lookup_singleton_Some in H as [<- <-]. set_solver.
Qed.

Lemma trio_ticks : ticks_ok trio.
Proof.
  split.
  - intros p x H%trio_procs. repeat (apply elem_of_cons in H as [E|H]; [injection E as -> ->; cbn; lia|]). set_solver.
  - intros _. exists (plain_proc 1 200). split; [done|]. cbn. lia.
Qed.

Lemma trio_lists : lists_ok trio.
Proof.
  constructor.
  - cbn. repeat (apply NoDup_cons; split; [set_solver|]). apply NoDup_nil. done.
  - cbn. set_solver.
  - cbn. lia.
  - intros p [->|[->| ->]]%trio_cases; by eexists.
  - intros p Hp. assert (p = 103) as -> by set_solver. by eexists.
Qed.

Lemma trio_turn : in_turn [100; 101; 102] 0 trio.
Proof.
  constructor; [exact trio_ready|done| |simpl; lia|done|].
  - pose proof (lo_nodup _ trio_lists) as (? & _)%NoDup_app. done.
  - intros j p Hj. rewrite decide_True; [|apply lookup_lt_Some in Hj; simpl in *; unfold turn; simpl; lia].
    apply list_elem_of_lookup_2, trio_cases in Hj as [->|[->| ->]]; done.
Qed.

Lemma proc_shedule_correct_witness :
  exists k', proc_shedule trio = Ret tt k' /\ scheduled trio k' /\ ticks_ok k'.
Proof.
  apply (proc_shedule_correct trio trio_ready trio_ticks). apply (it_nodup _ _ _ trio_turn).
Defined.

Lemma context_switch_roundtrip_witness : exists k1 k2 k3,
  proc_shedule trio = Ret tt k1 /\ proc_current k1 = 102 /\ shedule_times 2 trio = Ret tt k2 /\
  proc_shedule k2 = Ret tt k3 /\ proc_current k3 = 100 /\ curregs k3 = curregs trio.
Proof.
  destruct (proc_shedule trio) as [[] k1|] eqn:E1; [|vm_compute in E1; discriminate].
  destruct (shedule_times 2 trio) as [[] k2|] eqn:E2; [|vm_compute in E2; discriminate].
  destruct (proc_shedule k2) as [[] k3|] eqn:E3;
    [|vm_compute in E2; injection E2 as <-; vm_compute in E3; discriminate].
  assert (H1 : proc_current k1 = 102) by (vm_compute in E1; injection E1 as <-; reflexivity).
  assert (H3 : proc_current k3 = 100)
    by (vm_compute in E2; injection E2 as <-; vm_compute in E3; injection E3 as <-; reflexivity).
  exists k1, k2, k3. do 5 (split; [assumption || reflexivity|]).
  apply (context_switch_roundtrip trio k1 k2 k3); [exact trio_ready|discriminate|exact E1|rewrite H1; discriminate| | |exact E3|exact H3].
  - apply rtc_once, else_tick; vm_compute in E1, E2; injection E1 as <-; injection E2 as <-;
      [vm_compute; reflexivity|vm_compute; discriminate].
  - destruct (turns_go_on [100; 101; 102] trio 2 trio_turn) as (k2' & E2' & [] & _).
    rewrite E2 in E2'. injection E2' as <-. assumption.
Defined.

Lemma round_robin_witness : exists k', shedule_times 5 trio = Ret tt k' /\
  in_turn [100; 101; 102] 2 k' /\ [100; 101; 102] !! 1%nat = Some (proc_current k').
Proof. apply (round_robin [100; 101; 102] trio 5 trio_turn). Defined.

Lemma sleep_wake_correct_witness :
  exists k1 k2, proc_sleep 101 trio = Ret 0 k1 /\ lists_ok k1 /\ 101 ∈ proc_sleeping k1 /\ 101 ∉ proc_running k1 /\
    proc_sleep 101 k1 = Ret 0 k1 /\
    proc_wake 101 k1 = Ret 0 k2 /\ lists_ok k2 /\ proc_running k2 ≡ₚ [100; 101; 102] /\
    proc_sleeping k2 ≡ₚ [103] /\ k_procs k2 = k_procs trio /\ proc_wake 101 k2 = Ret 0 k2.
Proof. apply (sleep_wake_correct trio 101 trio_lists); [cbn; set_solver|discriminate]. Defined.

Lemma sleep_current_correct_witness : exists k', lists_ok k' /\ 100 ∈ proc_sleeping k' /\ 100 ∉ proc_running k' /\
    (exists y, k_procs k' !! 100 = Some y /\ registers y = curregs trio) /\
    (([100; 101; 102] <> [100] /\ proc_sleep 100 trio = Ret 0 k' /\ proc_current k' ∈ proc_running k') \/
     ([100; 101; 102] = [100] /\ proc_sleep 100 trio = Stop Idle k' /\ proc_current k' = NULL)).
Proof.
  apply (sleep_current_correct trio (plain_proc 1 200)); [|reflexivity].
  constructor; [exact trio_lists|cbn; set_solver|].
  intros p x [->|[->| ->]]%trio_cases Hx; vm_compute in Hx; injection Hx as <-; by eexists.
Defined.

Lemma proc_call_frame_witness :
  exists k' y, proc_call 102 777 [5; 6] trio = Ret tt k' /\ k_procs k' !! 102 = Some y /\
    eip (registers y) = 777 /\ is_sleeping y = false /\
    stack_frame (k_user k') 8192 (esp (registers y)) [0; 5; 6] /\ paging_curpd (k_mach k') = 4096.
Proof.
  apply (proc_call_frame trio 102 (plain_proc 3 201) (AddrSpace 102 [] [] [] 8192 0) (plain_proc 1 200) demo_space);
    (reflexivity || discriminate || (cbn; lia)).
Defined.

(** Process 100 is the child of 103, which waits for any child. *)
Definition family : kernel :=
  set_k_procs trio (<[103 := set_wait_stat (set_wait_pid (set_wait (set_is_sleeping (plain_proc 4 200) true) true) (-1)) 4096]>
    (<[100 := set_parent (plain_proc 1 201) 103]> (k_procs trio))).

Lemma proc_exit_wakes_parent_witness :
  exists k', proc_exit 42 family = Stop Idle k' /\
    reaped family k' 100 (set_parent (plain_proc 1 201) 103)
      (set_wait_stat (set_wait_pid (set_wait (set_is_sleeping (plain_proc 4 200) true) true) (-1)) 4096) 4096 42.
Proof.
  apply (proc_exit_wakes_parent family _ _ demo_space (AddrSpace 102 [] [] [] 8192 0));
    try (reflexivity || discriminate || (cbn; set_solver)).
  destruct trio_lists. constructor; auto.
  - intros p [->|[->| ->]]%trio_cases; by eexists.
  - intros p Hp. assert (p = 103) as -> by set_solver. by eexists.
Defined.

(** ** What process operations leave alone *)

Section keeps_proc.
Context {B : Type} (f : kernel -> B).
Hypothesis f_procs : forall k m, f (set_k_procs k m) = f k.
Hypothesis f_run : forall k l, f (set_proc_running k l) = f k.
Hypothesis f_sleep : forall k l, f (set_proc_sleeping k l) = f k.
Hypothesis f_cur : forall k p, f (set_proc_current k p) = f k.
Hypothesis f_regs : forall k r, f (set_curregs k r) = f k.
Hypothesis f_vm : forall k r, f (set_vm86_curregs k r) = f k.
Hypothesis f_mach : forall k m, f (set_k_mach k m) = f k.

Ltac pstep :=
  first [ keeps_step | apply keeps_modify; intros; by auto | apply keeps_on_mach; intros; by auto
        | progress unfold upd_proc, proc_at, space_at, proc_idle, cpu_shutdown, vm86_save_segregs,
            vm86_load_segregs, proc_regs_save, proc_regs_load, memuser_load_addrspace ].

Lemma keeps_pick xs : forall c, keeps f (pick xs c).
Proof. induction xs as [|p xs IH]; intros c; cbn [pick]; repeat pstep. Qed.

Lemma keeps_shedule : keeps f proc_shedule.
Proof. unfold proc_shedule. repeat (apply keeps_pick || pstep). Qed.

Lemma keeps_wake p : keeps f (proc_wake p).
Proof. unfold proc_wake. repeat pstep. Qed.

Lemma keeps_sleep p : keeps f (proc_sleep p).
Proof. unfold proc_sleep. repeat (apply keeps_shedule || pstep). Qed.
End keeps_proc.
