(* ===== verification/Ipc.v ===== *)
(** * Inter-process communication (lib/libmeinos/perm.c, kernel2/ipc.c, msg.c,
    sem.c, shm.c)

    Permission checks, message queues, semaphore sets and shared memory.  The
    objects of all three kinds are on the list [ipc_objects] and share the
    counter for identifiers.  Message data is copied, so a message carries its
    bytes; semaphore operations are read from user memory one at a time. *)

From S2P Require Import Prelude LList Machine Paging Kernel Memory Proc.

(** ** Permissions (perm.h, perm.c) *)

Definition PERM_R : Z := 1.
Definition PERM_W : Z := 2.
Definition PERM_X : Z := 3.
Definition PERM_ROOTUID : Z := 1.
Definition PERM_ROOTGID : Z := 1.

(** The masks are the octal 0444, 0222, 0111, 0700, 0070 and 0007. *)
Definition perm_opmode (mode op : Z) : Z :=
  let opmode := 0 in
  let opmode := if op =? PERM_R then Z.land mode 292 else opmode in
  let opmode := if op =? PERM_W then Z.land mode 146 else opmode in
  if op =? PERM_X then Z.land mode 73 else opmode.

Definition perm_check (owner_uid owner_gid access_uid access_gid mode op : Z) : bool :=
  if (access_uid =? PERM_ROOTUID) || (access_gid =? PERM_ROOTGID) then true else
  let opmode := perm_opmode mode op in
  if (access_uid =? owner_uid) && negb (Z.land opmode 448 =? 0) then true else
  if (access_gid =? owner_gid) && negb (Z.land opmode 56 =? 0) then true else
  if negb (Z.land opmode 7 =? 0) then true else false.

(** ** Objects (ipc.h, ipc.c) *)

Definition IPC_PRIVATE : Z := 0.
Definition IPC_MSG : Z := 2.
Definition IPC_SEM : Z := 3.
Definition IPC_SHM : Z := 4.
Definition IPC_NOWAIT : Z := 515.
Definition SHM_RDONLY : Z := 90112.

Fixpoint find_obj (key id type : Z) (xs : list Z) : cmd kernel Z :=
  match xs with
  | [] => mret NULL
  | p :: xs =>
      o ← fetch k_ipc p;
      let h := ipc_hdr o in
      if (obj_type h =? type) && (((obj_key h =? key) || (key =? -1)) && ((obj_id h =? id) || (id =? -1)))
      then mret p else find_obj key id type xs
  end.

Definition ipc_find (key id type : Z) : cmd kernel Z :=
  objs ← gets ipc_objects; find_obj key id type (Seq.scan objs).

(** An object is read with the type its finder asked for. *)
Definition msg_at (p : Z) : cmd kernel ipc_msg_t :=
  o ← fetch k_ipc p; match o with IsMsg x => mret x | _ => stop_with OutOfBounds end.
Definition sem_at (p : Z) : cmd kernel ipc_sem_t :=
  o ← fetch k_ipc p; match o with IsSem x => mret x | _ => stop_with OutOfBounds end.
Definition shm_at (p : Z) : cmd kernel ipc_shm_t :=
  o ← fetch k_ipc p; match o with IsShm x => mret x | _ => stop_with OutOfBounds end.

Definition put_ipc (p : Z) (o : ipc_any) : cmd kernel unit :=
  modify (fun k => set_k_ipc k (<[p := o]> (k_ipc k))).

Definition upd_msg (p : Z) (f : ipc_msg_t -> ipc_msg_t) : cmd kernel unit :=
  x ← msg_at p; put_ipc p (IsMsg (f x)).
Definition upd_sem (p : Z) (f : ipc_sem_t -> ipc_sem_t) : cmd kernel unit :=
  x ← sem_at p; put_ipc p (IsSem (f x)).
Definition upd_shm (p : Z) (f : ipc_shm_t -> ipc_shm_t) : cmd kernel unit :=
  x ← shm_at p; put_ipc p (IsShm (f x)).

(** [free(obj)] and its removal from the list. *)
Definition drop_ipc (p : Z) : cmd kernel unit :=
  modify (fun k => set_ipc_objects k (Seq.drop_elem (ipc_objects k) p));;
  modify (fun k => set_k_ipc k (delete p (k_ipc k)));;
  kfree p.

Definition next_id : cmd kernel Z := fun k =>
  Ret (ipc_lastid k) (set_ipc_lastid k (s32 (ipc_lastid k + 1))).

Definition wake_all (ps : list Z) : cmd kernel unit := for_each ps (fun p => proc_wake p;; mret tt).

(** ** Message queues (msg.c) *)

Definition set_msgs (x : ipc_msg_t) (l : list Z) : ipc_msg_t :=
  Msq (msg_ipc x) l (waiting x) (msg_mode x) (lrpid x) (lspid x) (stime x) (rtime x) (msg_ctime x).
Definition set_waiting (x : ipc_msg_t) (l : list Z) : ipc_msg_t :=
  Msq (msg_ipc x) (msgs x) l (msg_mode x) (lrpid x) (lspid x) (stime x) (rtime x) (msg_ctime x).
Definition set_received (x : ipc_msg_t) (p t : Z) : ipc_msg_t :=
  Msq (msg_ipc x) (msgs x) (waiting x) (msg_mode x) p (lspid x) (stime x) t (msg_ctime x).
Definition set_sent (x : ipc_msg_t) (p t : Z) : ipc_msg_t :=
  Msq (msg_ipc x) (msgs x) (waiting x) (msg_mode x) (lrpid x) p t (rtime x) (msg_ctime x).
Definition set_msg_mode (x : ipc_msg_t) (m t : Z) : ipc_msg_t :=
  Msq (msg_ipc x) (msgs x) (waiting x) m (lrpid x) (lspid x) (stime x) (rtime x) t.

Section ipc.
Context `{Malloc}.

Definition ipc_msg_get (key : Z) : cmd kernel Z :=
  p ← ipc_find key (-1) IPC_MSG;
  if p =? NULL then mret (-1) else x ← msg_at p; mret (obj_id (msg_ipc x)).

(** [memset] clears the queue's own [mode]; the argument goes to the header. *)
Definition ipc_msg_create (key mode time : Z) : cmd kernel Z :=
  p ← (if negb (key =? IPC_PRIVATE) then ipc_find key (-1) IPC_MSG else mret NULL);
  if p =? NULL then
    new ← kmalloc;
    if negb (new =? NULL) then
      cur ← gets proc_current;
      id ← next_id;
      put_ipc new (IsMsg (Msq (Obj IPC_MSG id key cur cur mode) [] [] 0 0 0 0 0 time));;
      modify (fun k => set_ipc_objects k (new :: ipc_objects k));;
      mret id
    else mret (- EINVAL)
  else mret (- EINVAL).

(** [perm_check(proc_current->pid,proc_current->gid,owner->uid,owner->gid,msq->mode,op)] *)
Definition msg_permcheck (x : ipc_msg_t) (op : Z) : cmd kernel bool :=
  c ← current; o ← proc_at (owner (msg_ipc x));
  mret (perm_check (pid c) (gid c) (uid o) (gid o) (msg_mode x) op).

Definition free_msg (m : Z) : cmd kernel unit :=
  modify (fun k => set_k_msgs k (delete m (k_msgs k)));; kfree m.

Definition ipc_msg_destroy (id : Z) : cmd kernel Z :=
  p ← ipc_find (-1) id IPC_MSG;
  if negb (p =? NULL) then
    x ← msg_at p;
    ok ← msg_permcheck x PERM_W;
    if ok : bool then
      for_each (Seq.drain (msgs x)).1 (fun m =>
        y ← fetch k_msgs m;
        (if negb (Z.land (mm_flags y) IPC_NOWAIT =? mm_flags y) then proc_wake (mm_sender y);; mret tt else mret tt);;
        free_msg m);;
      wake_all (Seq.drain (waiting x)).1;;
      drop_ipc p;;
      mret 0
    else mret (- EACCES)
  else mret (- EINVAL).

Definition ipc_msg_send (id data msgsz type flags time : Z) : cmd kernel Z :=
  p ← ipc_find (-1) id IPC_MSG;
  if negb (p =? NULL) then
    x ← msg_at p;
    ok ← msg_permcheck x PERM_W;
    if ok : bool then
      new ← kmalloc;
      bytes ← user_load_bytes (Z.to_nat msgsz) data;
      cur ← gets proc_current; c ← proc_at cur;
      modify (fun k => set_k_msgs k (<[new := Message p bytes msgsz type flags cur]> (k_msgs k)));;
      upd_msg p (fun x => set_sent x (pid c) time);;
      upd_msg p (fun x => set_msgs x (new :: msgs x));;
      upd_msg p (fun x => set_waiting x (Seq.drain (waiting x)).2);;
      wake_all (Seq.drain (waiting x)).1;;
      (if negb (Z.land flags IPC_NOWAIT =? flags) then proc_sleep cur;; mret tt else mret tt);;
      mret 0
    else mret (- EACCES)
  else mret (- EINVAL).

Definition msg_matches (type : Z) (y : ipc_msg_msg_t) : bool :=
  (mm_type y =? type) || (type =? 0) || ((type <? 0) && (mm_type y <=? - type)).

(** The first message of the list that matches; freed ones are still on it. *)
Fixpoint find_msg (type : Z) (ms : list Z) : cmd kernel Z :=
  match ms with
  | [] => mret NULL
  | m :: ms => y ← fetch k_msgs m; if msg_matches type y then mret m else find_msg type ms
  end.

(** The message is freed but not taken off the list. *)
Definition ipc_msg_recv (id data msgsz type flags time : Z) : cmd kernel Z :=
  p ← ipc_find (-1) id IPC_MSG;
  if negb (p =? NULL) then
    x ← msg_at p;
    ok ← msg_permcheck x PERM_R;
    if ok : bool then
      m ← find_msg type (Seq.scan (msgs x));
      cur ← gets proc_current;
      if negb (m =? NULL) then
        y ← fetch k_msgs m;
        let count := if mm_size y <? msgsz then mm_size y else msgsz in
        user_store_bytes data (take (Z.to_nat count) (mm_data y));;
        (if Z.land (mm_flags y) IPC_NOWAIT =? flags then proc_wake (mm_sender y);; mret tt else mret tt);;
        c ← proc_at cur;
        upd_msg p (fun x => set_received x (pid c) time);;
        free_msg m;;
        mret count
      else if Z.land flags IPC_NOWAIT =? 0 then
        upd_msg p (fun x => set_waiting x (cur :: waiting x));;
        proc_sleep cur;;
        mret 0
      else mret (- ENOMSG)
    else mret (- EACCES)
  else mret (- EINVAL).

(** [*ptr = value] for each of the pairs. *)
Definition store_all (ps : list (Z * Z)) : cmd kernel unit :=
  for_each ps (fun '(a, v) => user_store a v).

Definition msg_stat (id puid pgid pcuid pcgid pmode pnum plspid plrpid pstime prtime pctime : Z)
    : cmd kernel Z :=
  p ← ipc_find (-1) id IPC_MSG;
  if negb (p =? NULL) then
    x ← msg_at p; o ← proc_at (owner (msg_ipc x)); c ← proc_at (creator (msg_ipc x));
    store_all [(puid, uid o); (pgid, gid o); (pcuid, uid c); (pcgid, gid c); (pmode, msg_mode x);
      (pnum, Z.of_nat (length (msgs x))); (plspid, lspid x); (plrpid, lrpid x); (pstime, stime x);
      (prtime, rtime x); (pctime, msg_ctime x)];;
    mret 0
  else mret (- EINVAL).

Definition msg_set (id mode time : Z) : cmd kernel Z :=
  p ← ipc_find (-1) id IPC_MSG;
  if negb (p =? NULL) then
    x ← msg_at p;
    ok ← msg_permcheck x PERM_W;
    cur ← gets proc_current;
    (if ok || (cur =? creator (msg_ipc x)) then upd_msg p (fun x => set_msg_mode x mode time) else mret tt);;
    mret 0
  else mret (- EINVAL).

(** ** Semaphores (sem.c) *)

Definition set_val (s : ipc_sem_sem_t) (v : Z) : ipc_sem_sem_t := Sem v (sem_lopid s) (waitn s) (waitz s).
Definition set_sem_lopid (s : ipc_sem_sem_t) (p : Z) : ipc_sem_sem_t := Sem (val s) p (waitn s) (waitz s).
Definition set_waitn (s : ipc_sem_sem_t) (l : list Z) : ipc_sem_sem_t := Sem (val s) (sem_lopid s) l (waitz s).
Definition set_waitz (s : ipc_sem_sem_t) (l : list Z) : ipc_sem_sem_t := Sem (val s) (sem_lopid s) (waitn s) l.

Definition set_sems (x : ipc_sem_t) (l : list ipc_sem_sem_t) : ipc_sem_t :=
  SemSet (sem_ipc x) (num x) l (otime x) (sem_ctime x).
Definition set_otime (x : ipc_sem_t) (t : Z) : ipc_sem_t := SemSet (sem_ipc x) (num x) (sems x) t (sem_ctime x).
Definition set_sem_ctime (x : ipc_sem_t) (t : Z) : ipc_sem_t := SemSet (sem_ipc x) (num x) (sems x) (otime x) t.
Definition set_obj_mode (h : ipc_obj_t) (m : Z) : ipc_obj_t :=
  Obj (obj_type h) (obj_id h) (obj_key h) (owner h) (creator h) m.
Definition set_sem_mode (x : ipc_sem_t) (m : Z) : ipc_sem_t :=
  SemSet (set_obj_mode (sem_ipc x) m) (num x) (sems x) (otime x) (sem_ctime x).

(** [ipc_sem_permcheck], [ipc_shm_permcheck]: the pid of the owner is passed
    where its uid is expected; the creator's user always passes. *)
Definition ipc_permcheck (h : ipc_obj_t) (op : Z) : cmd kernel bool :=
  c ← current; o ← proc_at (owner h); r ← proc_at (creator h);
  mret (perm_check (pid o) (gid o) (uid c) (gid c) (obj_mode h) op || (uid c =? uid r)).

Definition ipc_sem_get (key : Z) : cmd kernel Z :=
  p ← ipc_find key (-1) IPC_SEM;
  if p =? NULL then mret (- EINVAL) else x ← sem_at p; mret (obj_id (sem_ipc x)).

Definition ipc_sem_create (key nsems mode time : Z) : cmd kernel Z :=
  p ← (if negb (key =? IPC_PRIVATE) then ipc_find key (-1) IPC_SEM else mret NULL);
  if p =? NULL then
    new ← kmalloc;
    if negb (new =? NULL) then
      cur ← gets proc_current;
      id ← next_id;
      put_ipc new (IsSem (SemSet (Obj IPC_SEM id key cur cur mode) nsems
        (replicate (Z.to_nat nsems) (Sem 0 0 [] [])) 0 time));;
      modify (fun k => set_ipc_objects k (new :: ipc_objects k));;
      mret id
    else mret (- ENOSPC)
  else mret (- EEXIST).

(** The semaphore [n] of the set at [p]. *)
Definition get_sem (p n : Z) : cmd kernel ipc_sem_sem_t :=
  x ← sem_at p;
  match sems x !! Z.to_nat n with Some s => mret s | None => stop_with OutOfBounds end.
Definition upd_one (p n : Z) (f : ipc_sem_sem_t -> ipc_sem_sem_t) : cmd kernel unit :=
  upd_sem p (fun x => set_sems x (alter f (Z.to_nat n) (sems x))).

(** [while ((sleepn = llist_pop(waitn))) if (sleepn->val<val) { free(sleepn);
    proc_wake(sleepn->proc); }]: the entry is read after it is freed, when its
    contents are still there; the entries not woken are gone from the list. *)
Definition wake_waitn (p n : Z) : cmd kernel unit :=
  s ← get_sem p n;
  upd_one p n (fun s => set_waitn s (Seq.drain (waitn s)).2);;
  for_each (Seq.drain (waitn s)).1 (fun e =>
    y ← fetch k_sleepns e;
    if sn_val y <? val s then
      modify (fun k => set_k_sleepns k (delete e (k_sleepns k)));; kfree e;;
      proc_wake (sn_proc y);; mret tt
    else mret tt).

Definition wake_waitz (p n : Z) : cmd kernel unit :=
  s ← get_sem p n;
  upd_one p n (fun s => set_waitz s (Seq.drain (waitz s)).2);;
  wake_all (Seq.drain (waitz s)).1.

(** One operation: [Some r] is a return from the loop. *)
Definition sem_op_one (id i n op flags time : Z) : cmd kernel (option Z) :=
  p ← ipc_find (-1) id IPC_SEM;
  if p =? NULL then mret (Some (- EINVAL)) else
  x ← sem_at p;
  if num x <=? n then mret (Some (-1)) else
  cur ← gets proc_current; c ← proc_at cur;
  upd_one p n (fun s => set_sem_lopid s (pid c));;
  upd_sem p (fun x => set_otime x time);;
  s ← get_sem p n;
  stop ← (if op <? 0 then
      if - op <=? val s then upd_one p n (fun s => set_val s (s32 (val s + op)));; mret None
      else if negb (Z.land flags IPC_NOWAIT =? 0) then mret (Some 0)
      else
        e ← kmalloc;
        modify (fun k => set_k_sleepns k (<[e := SleepN (- op) cur]> (k_sleepns k)));;
        upd_one p n (fun s => set_waitn s (e :: waitn s));;
        proc_sleep cur;;
        mret (Some i)
    else if 0 <? op then upd_one p n (fun s => set_val s (s32 (val s + op)));; mret None
    else
      upd_one p n (fun s => set_waitz s (cur :: waitz s));;
      proc_sleep cur;;
      mret None);
  match stop with
  | Some r => mret (Some r)
  | None =>
      s ← get_sem p n;
      (if val s =? 0 then wake_waitz p n else if 0 <? val s then wake_waitn p n else mret tt);;
      mret None
  end.

(** The operations are read from user memory: number, operation and flags, 16
    bits each. *)
Fixpoint sem_op_loop (fuel : nat) (id ops i time : Z) : cmd kernel Z :=
  match fuel with
  | O => mret 0
  | S fuel =>
      n ← user_load16 (ops + 6 * i);
      op ← user_load16 (ops + 6 * i + 2);
      fl ← user_load16 (ops + 6 * i + 4);
      r ← sem_op_one id i n (s16 op) (s16 fl) time;
      match r with Some r => mret r | None => sem_op_loop fuel id ops (i + 1) time end
  end.

Definition ipc_sem_op (id ops nops time : Z) : cmd kernel Z := sem_op_loop (Z.to_nat nops) id ops 0 time.

(** Find the set, check the index and the permission, then [body]. *)
Definition with_sem (id n op : Z) (body : Z -> ipc_sem_t -> cmd kernel Z) : cmd kernel Z :=
  p ← ipc_find (-1) id IPC_SEM;
  if negb (p =? NULL) then
    x ← sem_at p;
    if n <? num x then
      ok ← ipc_permcheck (sem_ipc x) op;
      if ok : bool then body p x else mret (- EACCES)
    else mret (- EINVAL)
  else mret (- EINVAL).

Definition with_semset (id op : Z) (body : Z -> ipc_sem_t -> cmd kernel Z) : cmd kernel Z :=
  p ← ipc_find (-1) id IPC_SEM;
  if negb (p =? NULL) then
    x ← sem_at p;
    ok ← ipc_permcheck (sem_ipc x) op;
    if ok : bool then body p x else mret (- EACCES)
  else mret (- EINVAL).

Definition ipc_sem_getval (id n : Z) : cmd kernel Z :=
  with_sem id n PERM_R (fun p x => s ← get_sem p n; mret (val s)).

Definition ipc_sem_setval (id n v time : Z) : cmd kernel Z :=
  with_sem id n PERM_W (fun p x =>
    upd_one p n (fun s => set_val s v);; upd_sem p (fun x => set_sem_ctime x time);; mret 0).

Definition ipc_sem_getpid (id n : Z) : cmd kernel Z :=
  with_sem id n PERM_R (fun p x => s ← get_sem p n; mret (sem_lopid s)).

(** 'z' is 122; the result is a [size_t]. *)
Definition ipc_sem_getcnt (id n type : Z) : cmd kernel Z :=
  r ← with_sem id n PERM_R (fun p x =>
    s ← get_sem p n; mret (Z.of_nat (length (if type =? 122 then waitz s else waitn s))));
  mret (w32 r).

(** [short] elements *)
Definition ipc_sem_getall (id buf : Z) : cmd kernel Z :=
  with_semset id PERM_R (fun p x =>
    for_from (Z.to_nat (num x)) 0 (fun i =>
      s ← get_sem p i;
      user_store_bytes (buf + 2 * i) [w8 (w16 (val s)); w8 (w16 (val s) / 256)]);;
    mret 0).

Definition ipc_sem_setall (id buf time : Z) : cmd kernel Z :=
  with_semset id PERM_W (fun p x =>
    for_from (Z.to_nat (num x)) 0 (fun i =>
      v ← user_load16 (buf + 2 * i); upd_one p i (fun s => set_val s (s16 v)));;
    upd_sem p (fun x => set_sem_ctime x time);;
    mret 0).

Definition ipc_sem_stat (id puid pgid pcuid pcgid pmode pnsems potime pctime : Z) : cmd kernel Z :=
  with_semset id PERM_R (fun p x =>
    o ← proc_at (owner (sem_ipc x)); c ← proc_at (creator (sem_ipc x));
    store_all [(puid, uid o); (pgid, gid o); (pcuid, uid c); (pcgid, gid c); (pmode, obj_mode (sem_ipc x));
      (pnsems, num x); (potime, otime x); (pctime, sem_ctime x)];;
    mret 0).

Definition ipc_sem_set (id mode time : Z) : cmd kernel Z :=
  with_semset id PERM_W (fun p x =>
    upd_sem p (fun x => set_sem_ctime (set_sem_mode x mode) time);; mret 0).

(** There is no return in the branch that destroys the set. *)
Definition ipc_sem_destroy (id : Z) : cmd kernel Z :=
  with_semset id PERM_W (fun p x =>
    for_from (Z.to_nat (num x)) 0 (fun i => wake_waitz p i;; wake_waitn p i);;
    drop_ipc p;;
    mret (- EINVAL)).

(** ** Shared memory (shm.c) *)

Definition set_atts (x : ipc_shm_t) (l : list Z) : ipc_shm_t :=
  Shm (shm_ipc x) (shm_size x) (num_pages x) (shm_phys x) l (shm_lopid x) (atime x) (dtime x) (shm_ctime x).
Definition set_used (x : ipc_shm_t) (p t : Z) : ipc_shm_t :=
  Shm (shm_ipc x) (shm_size x) (num_pages x) (shm_phys x) (atts x) p t (dtime x) (shm_ctime x).
Definition set_shm_mode (x : ipc_shm_t) (m t : Z) : ipc_shm_t :=
  Shm (set_obj_mode (shm_ipc x) m) (shm_size x) (num_pages x) (shm_phys x) (atts x) (shm_lopid x) (atime x)
    (dtime x) t.

Definition ipc_shm_get (key : Z) : cmd kernel Z :=
  p ← ipc_find key (-1) IPC_SHM;
  if p =? NULL then mret (- EINVAL) else x ← shm_at p; mret (obj_id (shm_ipc x)).

Fixpoint pop_frames (n : nat) : cmd mach (list Z) :=
  match n with
  | O => mret []
  | S n => f ← memphys_pop; fs ← pop_frames n; mret (f :: fs)
  end.

(** [flags&0777] *)
Definition ipc_shm_create (key size flags time : Z) : cmd kernel Z :=
  p ← (if negb (key =? IPC_PRIVATE) then ipc_find key (-1) IPC_SHM else mret NULL);
  if p =? NULL then
    new ← kmalloc;
    if negb (new =? NULL) then
      cur ← gets proc_current;
      id ← next_id;
      let n := ADDR2PAGE (PAGEUP size) in
      frames ← on_mach (pop_frames (Z.to_nat n));
      c ← proc_at cur;
      put_ipc new (IsShm (Shm (Obj IPC_SHM id key cur cur (Z.land flags 511)) size n frames [] (pid c) 0 0 0));;
      modify (fun k => set_ipc_objects k (new :: ipc_objects k));;
      mret id
    else mret (- ENOSPC)
  else mret (- EEXIST).

(** Map the frames one after the other from [virt] on. *)
Fixpoint map_frames (virt : Z) (fs : list Z) (writable : bool) : cmd mach unit :=
  match fs with
  | [] => mret tt
  | f :: fs => paging_map virt f true writable;; map_frames (virt + PAGE_SIZE) fs writable
  end.

Definition unmap_pages (virt n : Z) : cmd kernel unit :=
  for_from (Z.to_nat n) 0 (fun i => on_mach (paging_unmap (virt + i * PAGE_SIZE));; mret tt).

Definition ipc_shm_attach (id addr flags time : Z) : cmd kernel Z :=
  virt ← user_load addr;
  if (USERDATA_ADDRESS <=? virt) || (virt =? NULL) then
    p ← ipc_find (-1) id IPC_SHM;
    if negb (p =? NULL) then
      new ← kmalloc;
      if negb (new =? NULL) then
        x ← shm_at p; cur ← gets proc_current; c ← proc_at cur;
        at_ ← (if virt =? NULL then memuser_findvirt (addrspace c) (num_pages x) else mret virt);
        let readonly := Z.land flags SHM_RDONLY in
        modify (fun k => set_k_atts k (<[new := Att p cur at_ readonly]> (k_atts k)));;
        virt ← (if virt =? NULL then memuser_findvirt (addrspace c) (num_pages x) else mret virt);
        on_mach (map_frames at_ (shm_phys x) (readonly =? 0));;
        upd_shm p (fun x => set_used (set_atts x (new :: atts x)) (pid c) time);;
        user_store addr virt;;
        mret 0
      else mret (- ENOSPC)
    else mret (- EINVAL)
  else mret (- EINVAL).

(** The index of the attachment of [cur] at [virt]. *)
Fixpoint find_att (cur virt i : Z) (xs : list Z) : cmd kernel (option (Z * Z)) :=
  match xs with
  | [] => mret None
  | e :: xs =>
      a ← fetch k_atts e;
      if (att_proc a =? cur) && (att_virt a =? virt) then mret (Some (i, e)) else find_att cur virt (i + 1) xs
  end.

Fixpoint detach_from (cur virt time : Z) (objs : list Z) : cmd kernel Z :=
  match objs with
  | [] => mret (- EINVAL)
  | p :: objs =>
      o ← fetch k_ipc p;
      if obj_type (ipc_hdr o) =? IPC_SHM then
        x ← shm_at p;
        r ← find_att cur virt 0 (Seq.scan (atts x));
        match r with
        | Some (j, e) =>
            unmap_pages virt (num_pages x);;
            upd_shm p (fun x => set_atts x (Seq.remove (atts x) j).2);;
            modify (fun k => set_k_atts k (delete e (k_atts k)));; kfree e;;
            c ← proc_at cur;
            upd_shm p (fun x => set_used x (pid c) time);;
            mret 0
        | None => detach_from cur virt time objs
        end
      else detach_from cur virt time objs
  end.

Definition ipc_shm_detach (virt time : Z) : cmd kernel Z :=
  if virt <? USERDATA_ADDRESS then mret (-1) else
  cur ← gets proc_current; objs ← gets ipc_objects;
  detach_from cur virt time (Seq.scan objs).

Definition ipc_shm_stat (id puid pgid pcuid pcgid pmode psegsz plpid pcpid pnattch patime pdtime pctime : Z)
    : cmd kernel Z :=
  p ← ipc_find (-1) id IPC_SHM;
  if negb (p =? NULL) then
    x ← shm_at p;
    ok ← ipc_permcheck (shm_ipc x) PERM_R;
    if ok : bool then
      o ← proc_at (owner (shm_ipc x)); c ← proc_at (creator (shm_ipc x));
      store_all [(puid, uid o); (pgid, gid o); (pcuid, uid c); (pcgid, gid c); (pcpid, pid c);
        (pmode, obj_mode (shm_ipc x)); (psegsz, shm_size x); (plpid, shm_lopid x);
        (pnattch, Z.of_nat (length (atts x))); (patime, atime x); (pdtime, dtime x); (pctime, shm_ctime x)];;
      mret 0
    else mret (- EACCES)
  else mret (- EINVAL).

Definition ipc_shm_set (id mode time : Z) : cmd kernel Z :=
  p ← ipc_find (-1) id IPC_SHM;
  if negb (p =? NULL) then
    x ← shm_at p;
    ok ← ipc_permcheck (shm_ipc x) PERM_W;
    if ok : bool then upd_shm p (fun x => set_shm_mode x mode time);; mret 0 else mret (- EACCES)
  else mret (- EINVAL).

(** No permission check; the pages are unmapped from the loaded address space
    only. *)
Definition ipc_shm_destroy (id : Z) : cmd kernel Z :=
  p ← ipc_find (-1) id IPC_SHM;
  if negb (p =? NULL) then
    x ← shm_at p;
    for_each (Seq.drain (atts x)).1 (fun e =>
      a ← fetch k_atts e;
      unmap_pages (att_virt a) (num_pages x);;
      modify (fun k => set_k_atts k (delete e (k_atts k)));; kfree e);;
    on_mach (for_each (shm_phys x) memphys_push);;
    drop_ipc p;;
    mret 0
  else mret (-1).

End ipc.

(** ** Permissions *)

(** The permission bits: read, write, execute for others at 2, 1, 0, for the
    group three higher, for the owner six higher. *)
Definition op_bit (op : Z) : Z := if op =? PERM_R then 2 else if op =? PERM_W then 1 else 0.

Lemma land_pow2 x n : 0 <= n -> negb (Z.land x (2 ^ n) =? 0) = Z.testbit x n.
Proof.
  intros Hn. destruct (Z.testbit x n) eqn:E.
  - apply negb_true_iff, Z.eqb_neq. intros H0. pose proof (Z.land_spec x (2 ^ n) n) as L.
    rewrite H0, Z.bits_0, E, Z.pow2_bits_true in L by done. done.
  - apply negb_false_iff, Z.eqb_eq. apply Z.bits_inj'. intros m Hm.
    rewrite Z.land_spec, Z.bits_0. destruct (decide (n = m)) as [<-|]; [by rewrite E|].
    by rewrite Z.pow2_bits_false, andb_false_r.
Qed.

Lemma opmode_class mode op c : In op [PERM_R; PERM_W; PERM_X] -> In c [0; 3; 6] ->
  negb (Z.land (perm_opmode mode op) (7 * 2 ^ c) =? 0) = Z.testbit mode (c + op_bit op).
Proof.
  intros Hop Hc. rewrite <- land_pow2 by (destruct Hc as [<-|[<-|[<-|[]]]], Hop as [<-|[<-|[<-|[]]]]; cbn; lia).
  destruct Hop as [<-|[<-|[<-|[]]]], Hc as [<-|[<-|[<-|[]]]]; unfold perm_opmode; cbn;
    by rewrite <- Z.land_assoc.
Qed.

(** [perm_check] is the Unix rule on the nine permission bits: the
    administrator passes, otherwise the bit of the operation must be set for
    the owner's class if the user owns the object, for the group's class if
    the group does, or for everybody. *)
Theorem perm_check_bits ou og au ag mode op :
  In op [PERM_R; PERM_W; PERM_X] ->
  perm_check ou og au ag mode op =
    (au =? PERM_ROOTUID) || (ag =? PERM_ROOTGID) ||
    ((au =? ou) && Z.testbit mode (6 + op_bit op)) ||
    ((ag =? og) && Z.testbit mode (3 + op_bit op)) || Z.testbit mode (op_bit op).
Proof.
  intros Hop. unfold perm_check.
  pose proof (opmode_class mode op 6 Hop ltac:(simpl; auto)) as H6. change (7 * 2 ^ 6) with 448 in H6.
  pose proof (opmode_class mode op 3 Hop ltac:(simpl; auto)) as H3. change (7 * 2 ^ 3) with 56 in H3.
  pose proof (opmode_class mode op 0 Hop ltac:(simpl; auto)) as H0. change (7 * 2 ^ 0) with 7 in H0.
  rewrite H6, H3, H0, Z.add_0_l.
  by repeat destruct (_ =? _); repeat destruct (Z.testbit _ _).
Qed.

(** ** Finding objects *)

(** The search on the heap alone; [None] when a listed object is gone. *)
Fixpoint find_in (m : gmap Z ipc_any) (key id type : Z) (xs : list Z) : option Z :=
  match xs with
  | [] => Some NULL
  | p :: xs =>
      o ← m !! p;
      let h := ipc_hdr o in
      if (obj_type h =? type) && (((obj_key h =? key) || (key =? -1)) && ((obj_id h =? id) || (id =? -1)))
      then Some p else find_in m key id type xs
  end.

Lemma find_obj_ok key id type xs : forall k r, find_in (k_ipc k) key id type xs = Some r ->
  find_obj key id type xs k = Ret r k.
Proof.
  induction xs as [|p xs IH]; intros k r E; cbn [find_in find_obj] in *; [by injection E as <-|].
  destruct (k_ipc k !! p) as [o|] eqn:Ho; [|done]. cbn [mbind option_bind] in E.
  cstep (fetch_Some k_ipc _ _ _ Ho). cbv zeta in *. destruct (_ && _); [by injection E as <-|by apply IH].
Qed.

(** Only the headers matter. *)
Lemma find_in_hdr m m' key id type xs : (forall q, ipc_hdr <$> m !! q = ipc_hdr <$> m' !! q) ->
  find_in m key id type xs = find_in m' key id type xs.
Proof.
  intros E. induction xs as [|p xs IH]; [done|]. cbn [find_in]. specialize (E p).
  destruct (m !! p) as [o|], (m' !! p) as [o'|]; simplify_eq/=; [|done].
  rewrite E. destruct (_ && _); [done|apply IH].
Qed.

Definition found (k : kernel) (key id type p : Z) : Prop :=
  find_in (k_ipc k) key id type (Seq.scan (ipc_objects k)) = Some p.

Lemma ipc_find_ok k key id type p : found k key id type p -> ipc_find key id type k = Ret p k.
Proof.
  intros E. unfold ipc_find. rewrite (bind_Ret (gets ipc_objects) _ k _ k eq_refl). by apply find_obj_ok.
Qed.

(** Replacing an object by one with the same header keeps every search. *)
Lemma found_put k key id type r p o o' : k_ipc k !! p = Some o -> ipc_hdr o' = ipc_hdr o ->
  find_in (<[p := o']> (k_ipc k)) key id type (Seq.scan (ipc_objects k)) = Some r <-> found k key id type r.
Proof.
  intros Ho E. unfold found. rewrite (find_in_hdr (<[p := o']> (k_ipc k)) (k_ipc k)); [done|].
  intros q. destruct (decide (p = q)) as [<-|]; [by rewrite lookup_insert_eq, Ho; cbn; rewrite E|].
  by rewrite lookup_insert_ne.
Qed.

Section ipc_facts.
Context `{Malloc}.

Lemma scan_cons p xs : p <> NULL -> Seq.scan (p :: xs) = p :: Seq.scan xs.
Proof. intros Hp. cbn. by rewrite (proj2 (Z.eqb_neq _ _) Hp). Qed.

Lemma find_in_fresh m p o key id type xs : p ∉ xs -> find_in (<[p := o]> m) key id type xs = find_in m key id type xs.
Proof.
  induction xs as [|q xs IH]; intros Hn; [done|]. cbn [find_in].
  rewrite lookup_insert_ne by set_solver. destruct (m !! q); [|done]. cbn.
  destruct (_ && _); [done|]. apply IH. set_solver.
Qed.

(** The kernel's view of a list of live objects. *)
Definition objects_live (k : kernel) : Prop := forall p, p ∈ ipc_objects k -> p ∈ k_live k.

Lemma scan_subset (xs : list Z) : forall p, p ∈ Seq.scan xs -> p ∈ xs.
Proof.
  induction xs as [|x xs IH]; intros p; cbn; [done|]. destruct (x =? NULL); [set_solver|].
  intros [->|Hp]%elem_of_cons; [set_solver|]. apply elem_of_cons. right. by apply IH.
Qed.

(** creating a message queue for a key without one succeeds with the next
    identifier; from then on the key leads to that identifier, the identifier
    to that queue, creating the key again fails with EINVAL, and searches for
    other keys give what they gave before. *)
Theorem ipc_msg_create_correct k key mode time :
  objects_live k -> key <> IPC_PRIVATE -> key <> -1 -> ipc_lastid k <> -1 -> found k key (-1) IPC_MSG NULL ->
  exists k', ipc_msg_create key mode time k = Ret (ipc_lastid k) k' /\
    ipc_msg_get key k' = Ret (ipc_lastid k) k' /\
    (exists p x, ipc_find (-1) (ipc_lastid k) IPC_MSG k' = Ret p k' /\ k_ipc k' !! p = Some (IsMsg x) /\
       owner (msg_ipc x) = proc_current k /\ msgs x = [] /\ p ∉ ipc_objects k) /\
    ipc_msg_create key mode time k' = Ret (- EINVAL) k' /\
    (forall key' r, key' <> key -> key' <> -1 -> found k key' (-1) IPC_MSG r -> found k' key' (-1) IPC_MSG r).
Proof.
  intros Hlive Hk Hk1 Hid Hf. unfold ipc_msg_create at 1.
  rewrite (proj2 (Z.eqb_neq _ _) Hk). cbn [negb]. cstep (ipc_find_ok _ _ _ _ _ Hf). rewrite Z.eqb_refl.
  set (p := malloc (k_live k)). assert (Hp : p <> NULL) by apply malloc_nonnull.
  assert (Hpo : p ∉ ipc_objects k) by (intros Hin; by apply (malloc_fresh (k_live k)), Hlive).
  rewrite (bind_Ret kmalloc _ k p (set_k_live k ({[p]} ∪ k_live k)) eq_refl).
  rewrite (proj2 (Z.eqb_neq _ _) Hp). cbn [negb].
  set (x := Msq (Obj IPC_MSG (ipc_lastid k) key (proc_current k) (proc_current k) mode) [] [] 0 0 0 0 0 time).
  eexists. split; [reflexivity|]. set (k' := set_ipc_objects _ _).
  assert (Hx : k_ipc k' !! p = Some (IsMsg x)) by apply lookup_insert_eq.
  assert (Hfind : forall ky i, (ky = key \/ ky = -1) -> (i = ipc_lastid k \/ i = -1) -> found k' ky i IPC_MSG p).
  { intros ky i Hky Hi. unfold found, k'. cbn [ipc_objects set_ipc_objects]. rewrite scan_cons by done.
    cbn [find_in]. change (k_ipc (set_ipc_objects _ _)) with (k_ipc k').
    rewrite Hx. cbn. destruct Hky as [->| ->], Hi as [->| ->]; rewrite ?Z.eqb_refl, ?orb_true_r; done. }
  assert (Hget : ipc_msg_get key k' = Ret (ipc_lastid k) k').
  { unfold ipc_msg_get. cstep (ipc_find_ok _ _ _ _ _ (Hfind key (-1) (or_introl eq_refl) (or_intror eq_refl))).
    rewrite (proj2 (Z.eqb_neq _ _) Hp). unfold msg_at. rewrite bind_assoc. by cstep (fetch_Some k_ipc _ _ _ Hx). }
  split; [done|]. split; [|split].
  - exists p, x. split; [by apply ipc_find_ok, Hfind; auto|]. done.
  - unfold ipc_msg_create. rewrite (proj2 (Z.eqb_neq _ _) Hk). cbn [negb].
    cstep (ipc_find_ok _ _ _ _ _ (Hfind key (-1) (or_introl eq_refl) (or_intror eq_refl))).
    by rewrite (proj2 (Z.eqb_neq _ _) Hp).
  - intros key' r Hne Hne1 Hr. unfold found, k'. cbn [ipc_objects set_ipc_objects]. rewrite scan_cons by done.
    cbn [find_in]. change (k_ipc (set_ipc_objects _ _)) with (<[p := IsMsg x]> (k_ipc k)).
    rewrite lookup_insert_eq. cbn. rewrite (proj2 (Z.eqb_neq key key')) by done.
    rewrite (proj2 (Z.eqb_neq key' (-1))) by done. cbn. rewrite find_in_fresh; [done|].
    intros Hin. by apply Hpo, scan_subset.
Qed.

(** ** Message passing *)

Lemma msg_at_ok k p x : k_ipc k !! p = Some (IsMsg x) -> msg_at p k = Ret x k.
Proof. intros Hx. unfold msg_at. by cstep (fetch_Some k_ipc _ _ _ Hx). Qed.

Lemma upd_msg_ok k p x f : k_ipc k !! p = Some (IsMsg x) ->
  upd_msg p f k = Ret tt (set_k_ipc k (<[p := IsMsg (f x)]> (k_ipc k))).
Proof. intros Hx. unfold upd_msg. by cstep (msg_at_ok _ _ _ Hx). Qed.

(** The bytes of user memory from [a] on. *)
Fixpoint get_bytes (u : gmap (Z * Z) Z) (pd a : Z) (n : nat) : list Z :=
  match n with O => [] | S n => byte_at u pd a :: get_bytes u pd (a + 1) n end.

Lemma user_load_bytes_ok n : forall a k,
  user_load_bytes n a k = Ret (get_bytes (k_user k) (paging_curpd (k_mach k)) a n) k.
Proof.
  induction n as [|n IH]; intros a k; [done|]. cbn [user_load_bytes get_bytes].
  rewrite (bind_Ret (user_load8 a) _ k (byte_at (k_user k) (paging_curpd (k_mach k)) a) k eq_refl).
  by rewrite (bind_Ret _ _ _ _ _ (IH (a + 1) k)).
Qed.

Lemma length_get_bytes u pd n : forall a, length (get_bytes u pd a n) = n.
Proof. induction n; intros; cbn; auto. Qed.

(** A queue the current process may use for [op]. *)
Record queue (k : kernel) (id p : Z) (x : ipc_msg_t) (op : Z) : Prop := {
  q_found : found k (-1) id IPC_MSG p;
  q_nonnull : p <> NULL;
  q_obj : k_ipc k !! p = Some (IsMsg x);
  q_allowed : exists c o, k_procs k !! proc_current k = Some c /\ is_sleeping c = false /\
    k_procs k !! owner (msg_ipc x) = Some o /\
    perm_check (pid c) (gid c) (uid o) (gid o) (msg_mode x) op = true;
}.

Lemma permcheck_ok k id p x op : queue k id p x op -> msg_permcheck x op k = Ret true k.
Proof.
  intros [_ _ _ (c & o & Hc & _ & Ho & Hp)]. unfold msg_permcheck, current, proc_at.
  rewrite bind_assoc, (bind_Ret (gets proc_current) _ k _ k eq_refl).
  cstep (fetch_Some k_procs _ _ _ Hc). cstep (fetch_Some k_procs _ _ _ Ho). by rewrite <- Hp.
Qed.

(** The queue after a send without waiting. *)
Definition sent (k : kernel) (p : Z) (x : ipc_msg_t) (c : proc_t) (bytes : list Z) (msgsz type time : Z) : kernel :=
  let new := malloc (k_live k) in
  let k := set_k_live k ({[new]} ∪ k_live k) in
  let k := set_k_msgs k (<[new := Message p bytes msgsz type IPC_NOWAIT (proc_current k)]> (k_msgs k)) in
  set_k_ipc k (<[p := IsMsg (set_waiting (set_msgs (set_sent x (pid c) time) (new :: msgs x)) [])]> (k_ipc k)).

Lemma msg_send_exact k id p x c data msgsz type time :
  queue k id p x PERM_W -> waiting x = [] -> k_procs k !! proc_current k = Some c ->
  ipc_msg_send id data msgsz type IPC_NOWAIT time k =
    Ret 0 (sent k p x c (get_bytes (k_user k) (paging_curpd (k_mach k)) data (Z.to_nat msgsz)) msgsz type time).
Proof.
  intros Hq Hw Hc. pose proof Hq as [Hf Hp Ho _]. unfold ipc_msg_send.
  cstep (ipc_find_ok _ _ _ _ _ Hf). rewrite (proj2 (Z.eqb_neq _ _) Hp). cbn [negb].
  cstep (msg_at_ok _ _ _ Ho). cstep (permcheck_ok _ _ _ _ _ Hq).
  set (new := malloc (k_live k)). set (k1 := set_k_live k ({[new]} ∪ k_live k)).
  rewrite (bind_Ret kmalloc _ k new k1 eq_refl).
  cstep (user_load_bytes_ok (Z.to_nat msgsz) data k1).
  rewrite (bind_Ret (gets proc_current) _ k1 (proc_current k) k1 eq_refl). unfold proc_at.
  cstep (fetch_Some k_procs _ _ k1 Hc).
  rewrite (bind_Ret (modify _) _ k1 tt _ eq_refl). set (k2 := set_k_msgs k1 _).
  cstep (upd_msg_ok k2 p x (fun x => set_sent x (pid c) time) Ho). set (k3 := set_k_ipc k2 _).
  cstep (upd_msg_ok k3 p _ (fun x => set_msgs x (new :: msgs x)) (lookup_insert_eq _ _ _)). set (k4 := set_k_ipc k3 _).
  cstep (upd_msg_ok k4 p _ (fun x => set_waiting x (Seq.drain (waiting x)).2) (lookup_insert_eq _ _ _)).
  rewrite Hw. cbn. rewrite !insert_insert_eq. by rewrite Hw.
Qed.

(** The newest message is at the front, so it is the one an unrestricted
    receive finds. *)
Lemma msg_recv_exact k id p x m y ms c buf msgsz type time :
  queue k id p x PERM_R -> msgs x = m :: ms -> m <> NULL -> k_msgs k !! m = Some y ->
  msg_matches type y = true -> k_procs k !! proc_current k = Some c ->
  mm_flags y = IPC_NOWAIT -> k_procs k !! mm_sender y = Some c -> is_sleeping c = false ->
  ipc_msg_recv id buf msgsz type IPC_NOWAIT time k =
    Ret (Z.min (mm_size y) msgsz)
      (set_k_live (set_k_msgs (set_k_ipc
         (set_k_user k (put_bytes (paging_curpd (k_mach k)) buf
            (take (Z.to_nat (Z.min (mm_size y) msgsz)) (mm_data y)) (k_user k)))
         (<[p := IsMsg (set_received x (pid c) time)]> (k_ipc k)))
         (delete m (k_msgs k))) (k_live k ∖ {[m]})).
Proof.
  intros Hq Hms Hm Hy Hmt Hc Hfl Hsd Hsl. pose proof Hq as [Hf Hp Ho _]. unfold ipc_msg_recv.
  cstep (ipc_find_ok _ _ _ _ _ Hf). rewrite (proj2 (Z.eqb_neq _ _) Hp). cbn [negb].
  cstep (msg_at_ok _ _ _ Ho). cstep (permcheck_ok _ _ _ _ _ Hq). rewrite Hms, scan_cons by done.
  assert (Hfind : find_msg type (m :: Seq.scan ms) k = Ret m k).
  { cbn [find_msg]. cstep (fetch_Some k_msgs _ _ _ Hy). by rewrite Hmt. }
  cstep Hfind. rewrite (bind_Ret (gets proc_current) _ k _ k eq_refl).
  rewrite (proj2 (Z.eqb_neq _ _) Hm). cbn [negb]. cstep (fetch_Some k_msgs _ _ _ Hy).
  assert (Emin : (if mm_size y <? msgsz then mm_size y else msgsz) = Z.min (mm_size y) msgsz).
  { destruct (Z.ltb_spec (mm_size y) msgsz); lia. }
  rewrite Emin. cbv zeta. cstep (user_store_bytes_ok (take (Z.to_nat (Z.min (mm_size y) msgsz)) (mm_data y)) buf k).
  set (k1 := set_k_user k _). rewrite Hfl. change (Z.land IPC_NOWAIT IPC_NOWAIT =? IPC_NOWAIT) with true. cbv iota.
  rewrite bind_assoc. cstep (proc_wake_exact k1 _ c Hsd). rewrite Hsl, bind_ret. unfold proc_at.
  cstep (fetch_Some k_procs _ _ k1 Hc). by cstep (upd_msg_ok k1 p x (fun x => set_received x (pid c) time) Ho).
Qed.

(** C28: a message that is sent is what the next receive of its type (or of any
    type) delivers: the bytes of the sender's buffer, cut to the size of the
    receiver's.  But the freed message stays on the queue: the receive after
    that one reads freed memory, whatever it asks for. *)
Theorem msg_send_recv k id p x c data msgsz type time buf bufsz rtype rtime :
  queue k id p x PERM_W -> queue k id p x PERM_R -> waiting x = [] ->
  k_procs k !! proc_current k = Some c -> is_sleeping c = false -> (rtype = type \/ rtype = 0) ->
  exists k1 k2, ipc_msg_send id data msgsz type IPC_NOWAIT time k = Ret 0 k1 /\
    ipc_msg_recv id buf bufsz rtype IPC_NOWAIT rtime k1 = Ret (Z.min msgsz bufsz) k2 /\
    (let pd := paging_curpd (k_mach k) in
     k_user k2 = put_bytes pd buf (take (Z.to_nat (Z.min msgsz bufsz))
       (get_bytes (k_user k) pd data (Z.to_nat msgsz))) (k_user k)) /\
    (forall t fl time', ipc_msg_recv id buf bufsz t fl time' k2 = Stop UseAfterFree k2).
Proof.
  intros Hqw Hqr Hw Hc Hsl Ht. pose proof Hqw as [Hf Hp Ho (c' & o & Hc' & _ & Howner & Hperm)].
  set (bytes := get_bytes (k_user k) (paging_curpd (k_mach k)) data (Z.to_nat msgsz)).
  set (k1 := sent k p x c bytes msgsz type time). set (m := malloc (k_live k)).
  assert (Hm : m <> NULL) by apply malloc_nonnull.
  set (x1 := set_waiting (set_msgs (set_sent x (pid c) time) (m :: msgs x)) []).
  assert (Hq1 : queue k1 id p x1 PERM_R).
  { constructor; [|done|apply lookup_insert_eq|].
    - apply (found_put k (-1) id IPC_MSG p p (IsMsg x)); [exact Ho|done|exact Hf].
    - exact (q_allowed _ _ _ _ _ Hqr). }
  pose proof (msg_recv_exact k1 id p x1 m (Message p bytes msgsz type IPC_NOWAIT (proc_current k)) (msgs x) c
    buf bufsz rtype rtime Hq1 eq_refl Hm (lookup_insert_eq _ _ _)) as Hrecv.
  eexists k1, _. split; [by apply msg_send_exact|]. split; [apply Hrecv; auto|split; [reflexivity|]].
  - unfold msg_matches. cbn. destruct Ht as [->| ->]; [by rewrite Z.eqb_refl|]. by rewrite orb_true_r.
  - intros t fl time'. set (k2 := set_k_live _ _).
    assert (Hq2 : queue k2 id p (set_received x1 (pid c) rtime) PERM_R).
    { constructor; [|done|apply lookup_insert_eq|exact (q_allowed _ _ _ _ _ Hqr)].
      apply (found_put k1 (-1) id IPC_MSG p p (IsMsg x1)); [apply lookup_insert_eq|done|exact (q_found _ _ _ _ _ Hq1)]. }
    unfold ipc_msg_recv. cstep (ipc_find_ok _ _ _ _ _ (q_found _ _ _ _ _ Hq2)).
    rewrite (proj2 (Z.eqb_neq _ _) Hp). cbn [negb]. cstep (msg_at_ok _ _ _ (q_obj _ _ _ _ _ Hq2)).
    cstep (permcheck_ok _ _ _ _ _ Hq2). cbn [msgs set_received x1 set_waiting set_msgs].
    rewrite scan_cons by done. cbn [find_msg]. unfold mbind, cmd_bind.
    rewrite (fetch_None k_msgs m k2) by apply lookup_delete_eq.
    unfold dangling. by rewrite (proj2 (Z.eqb_neq _ _) Hm).
Qed.

(** ** Semaphore values *)

(** Every semaphore value is between 0 and [B]. *)
Definition sem_bounded (B : Z) (k : kernel) : Prop :=
  forall p x s, k_ipc k !! p = Some (IsSem x) -> s ∈ sems x -> 0 <= val s <= B.

(** The property [I] holds in the state after [c], whatever the outcome. *)
Definition after {A} (I : kernel -> Prop) (c : cmd kernel A) (k : kernel) : Prop := I (state_of (c k)).

(** A step after which the stronger [J] holds, then the rest. *)
Lemma after_bind {A C} (J I : kernel -> Prop) (c : cmd kernel A) (d : A -> cmd kernel C) k :
  (forall k, J k -> I k) -> after J c k -> (forall a k', c k = Ret a k' -> J k' -> after I (d a) k') ->
  after I (c ≫= d) k.
Proof.
  unfold after, mbind, cmd_bind. intros HJ Hc Hd. destruct (c k) as [a k'|w k'] eqn:E; [|by apply HJ].
  by apply Hd.
Qed.

Lemma after_keeps {A} B (c : cmd kernel A) k : keeps k_ipc c -> sem_bounded B k -> after (sem_bounded B) c k.
Proof. intros Hk Hb p x s. unfold after. rewrite (Hk k). apply Hb. Qed.

Lemma keeps_find key id type xs : keeps k_ipc (find_obj key id type xs).
Proof. induction xs; cbn [find_obj]; keeps_solve. Qed.

Lemma keeps_ipc_find key id type : keeps k_ipc (ipc_find key id type).
Proof. unfold ipc_find. keeps_solve. apply keeps_find. Qed.

Lemma keeps_ipc_sleep p : keeps k_ipc (proc_sleep p).
Proof. by apply keeps_sleep. Qed.

Lemma keeps_ipc_wake p : keeps k_ipc (proc_wake p).
Proof. by apply keeps_wake. Qed.

Lemma keeps_sem_at p : keeps k_ipc (sem_at p).
Proof. unfold sem_at. keeps_solve. Qed.

Lemma keeps_get_sem p n : keeps k_ipc (get_sem p n).
Proof. unfold get_sem. repeat (apply keeps_sem_at || keeps_step). Qed.

Lemma keeps_kmalloc : keeps k_ipc kmalloc.
Proof. done. Qed.

Hint Resolve keeps_ipc_find keeps_ipc_sleep keeps_ipc_wake keeps_sem_at keeps_get_sem keeps_kmalloc : mein.

Lemma elem_of_alter (f : ipc_sem_sem_t -> ipc_sem_sem_t) (n : nat) (l : list ipc_sem_sem_t) s :
  s ∈ alter f n l -> s ∈ l \/ exists s0, l !! n = Some s0 /\ s = f s0.
Proof.
  intros [i Hi]%list_elem_of_lookup. destruct (decide (i = n)) as [->|].
  - rewrite list_lookup_alter_eq in Hi. apply fmap_Some in Hi as (s0 & H0 & ->). right. eauto.
  - rewrite list_lookup_alter_ne in Hi by done. left. by eapply list_elem_of_lookup_2.
Qed.

Lemma sem_at_inv p x k k' : sem_at p k = Ret x k' -> k' = k /\ k_ipc k !! p = Some (IsSem x).
Proof.
  unfold sem_at, fetch, mbind, cmd_bind. destruct (k_ipc k !! p) as [[]|]; try done.
  intros E. injection E as -> ->. done.
Qed.

Lemma get_sem_inv p n s k k' : get_sem p n k = Ret s k' ->
  k' = k /\ exists x, k_ipc k !! p = Some (IsSem x) /\ sems x !! Z.to_nat n = Some s.
Proof.
  unfold get_sem. intros E. apply bind_Ret_inv in E as (x & k1 & [-> Hx]%sem_at_inv & E).
  destruct (sems x !! Z.to_nat n) eqn:Hs; [|done]. injection E as <- <-. eauto.
Qed.

(** An update of one semaphore that puts its value in the new bounds. *)
Lemma upd_one_bounded B B' p n f k : B <= B' -> sem_bounded B k ->
  (forall x s, k_ipc k !! p = Some (IsSem x) -> sems x !! Z.to_nat n = Some s -> 0 <= val (f s) <= B') ->
  after (sem_bounded B') (upd_one p n f) k.
Proof.
  intros HB Hb Hf. unfold after, upd_one, upd_sem.
  assert (Hb' : sem_bounded B' k) by (intros q y s Hy Hs; specialize (Hb q y s Hy Hs); lia).
  unfold mbind, cmd_bind. pose proof (keeps_sem_at p k) as Hk. destruct (sem_at p k) as [x k1|w k1] eqn:E.
  - apply sem_at_inv in E as [-> Hx]. intros q y s. cbn. destruct (decide (p = q)) as [<-|].
    + rewrite lookup_insert_eq. intros Ey. injection Ey as <-. cbn.
      intros [Hs|(s0 & Hs & ->)]%elem_of_alter; [by apply (Hb' p x)|by apply (Hf x)].
    + rewrite lookup_insert_ne by done. apply Hb'.
  - intros q y s. cbn in *. rewrite Hk. apply Hb'.
Qed.

Lemma upd_one_same B p n f k : (forall s, val (f s) = val s) -> sem_bounded B k ->
  after (sem_bounded B) (upd_one p n f) k.
Proof.
  intros Hf Hb. apply (upd_one_bounded B); [lia|done|]. intros x s Hx Hs. rewrite Hf.
  apply (Hb p x); [done|]. by eapply list_elem_of_lookup_2.
Qed.

Lemma upd_sem_same B p f k : (forall x, sems (f x) = sems x) -> sem_bounded B k ->
  after (sem_bounded B) (upd_sem p f) k.
Proof.
  intros Hf Hb. unfold after, upd_sem, mbind, cmd_bind. pose proof (keeps_sem_at p k) as Hk.
  destruct (sem_at p k) as [x k1|w k1] eqn:E; [|intros q y s; cbn in *; rewrite Hk; apply Hb].
  apply sem_at_inv in E as [-> Hx]. intros q y s. cbn. destruct (decide (p = q)) as [<-|].
  - rewrite lookup_insert_eq. intros Ey. injection Ey as <-. rewrite Hf. intros Hs. by apply (Hb p x).
  - rewrite lookup_insert_ne by done. apply Hb.
Qed.

Lemma wake_bounded B p n k : sem_bounded B k ->
  after (sem_bounded B) (wake_waitn p n) k /\ after (sem_bounded B) (wake_waitz p n) k.
Proof.
  intros Hb. split; unfold wake_waitn, wake_waitz;
    (apply (after_bind (sem_bounded B)); [done|apply after_keeps; auto with mein|intros s k1 _ Hb1]);
    (apply (after_bind (sem_bounded B)); [done|by apply upd_one_same|intros u k2 _ Hb2]); apply after_keeps; auto.
  - unfold kfree. keeps_solve.
  - unfold wake_all. keeps_solve.
Qed.

(** The value of the semaphore an operation works on. *)
Lemma sem_val_branch B p n s op k : 0 <= B -> B + 32767 < 2147483648 -> -32768 <= op <= 32767 ->
  sem_bounded B k -> get_sem p n k = Ret s k -> (op <? 0) = false \/ (- op <=? val s) = true ->
  after (sem_bounded (B + 32767)) (upd_one p n (fun s => set_val s (s32 (val s + op)))) k.
Proof.
  intros HB HB2 Hop Hb Hg Hcase. apply get_sem_inv in Hg as (_ & x & Hx & Hs).
  apply (upd_one_bounded B); [lia|done|]. intros x' s' Hx' Hs'.
  assert (x' = x) as -> by congruence. assert (s' = s) as -> by congruence.
  pose proof (Hb p x s Hx ltac:(by eapply list_elem_of_lookup_2)) as Hv.
  assert (0 <= val s + op) by (destruct Hcase as [?%Z.ltb_ge|?%Z.leb_le]; lia).
  cbn. rewrite s32_small; lia.
Qed.

Lemma sem_bounded_mono B B' k : B <= B' -> sem_bounded B k -> sem_bounded B' k.
Proof. intros HB Hb p x s Hx Hs. specialize (Hb p x s Hx Hs). lia. Qed.

(** The step that changes the value or blocks. *)
Lemma sem_change_bounded B p n i s op flags cur k :
  0 <= B -> B + 32767 < 2147483648 -> -32768 <= op <= 32767 -> sem_bounded B k -> get_sem p n k = Ret s k ->
  after (sem_bounded (B + 32767)) (if op <? 0 then
      if - op <=? val s then upd_one p n (fun s => set_val s (s32 (val s + op)));; mret None
      else if negb (Z.land flags IPC_NOWAIT =? 0) then mret (Some 0)
      else
        e ← kmalloc;
        modify (fun k => set_k_sleepns k (<[e := SleepN (- op) cur]> (k_sleepns k)));;
        upd_one p n (fun s => set_waitn s (e :: waitn s));;
        proc_sleep cur;;
        mret (Some i)
    else if 0 <? op then upd_one p n (fun s => set_val s (s32 (val s + op)));; mret None
    else
      upd_one p n (fun s => set_waitz s (cur :: waitz s));;
      proc_sleep cur;;
      mret None) k.
Proof.
  intros HB HB2 Hop Hb Hg.
  assert (Hmono : forall k, sem_bounded B k -> sem_bounded (B + 32767) k) by (intros; eapply sem_bounded_mono; [|done]; lia).
  assert (Hsleep : forall A (a : A) k, sem_bounded B k -> after (sem_bounded (B + 32767)) (proc_sleep cur;; mret a) k).
  { intros A a k1 Hb1. apply (after_bind (sem_bounded B)); [done|apply after_keeps; auto with mein|].
    intros u k2 _ Hb2. by apply Hmono. }
  destruct (op <? 0) eqn:Eop; [destruct (- op <=? val s) eqn:Ev;
      [|destruct (negb _); [by apply Hmono|]]|destruct (0 <? op)].
  - apply (after_bind (sem_bounded (B + 32767))); [done|by apply (sem_val_branch B p n s); auto|done].
  - apply (after_bind (sem_bounded B)); [done|by apply after_keeps; auto with mein|]. intros e k1 _ Hb1.
    apply (after_bind (sem_bounded B)); [done|by apply after_keeps; keeps_solve|]. intros u k2 _ Hb2.
    apply (after_bind (sem_bounded B)); [done|by apply upd_one_same|]. intros u3 k3 _ Hb3. by apply Hsleep.
  - apply (after_bind (sem_bounded (B + 32767))); [done|by apply (sem_val_branch B p n s); auto|done].
  - apply (after_bind (sem_bounded B)); [done|by apply upd_one_same|]. intros u3 k3 _ Hb3. by apply Hsleep.
Qed.

(** Whatever one operation does: pass, fail, put the caller to sleep, wake waiters, stop. *)
Lemma sem_op_one_bounded B id i n op flags time k :
  0 <= B -> B + 32767 < 2147483648 -> -32768 <= op <= 32767 -> sem_bounded B k ->
  after (sem_bounded (B + 32767)) (sem_op_one id i n op flags time) k.
Proof.
  intros HB HB2 Hop Hb.
  assert (Hmono : forall k, sem_bounded B k -> sem_bounded (B + 32767) k) by (intros; eapply sem_bounded_mono; [|done]; lia).
  unfold sem_op_one.
  apply (after_bind (sem_bounded B)); [done|apply after_keeps; auto with mein|]. intros p k1 _ Hb1.
  destruct (p =? NULL); [by apply Hmono|].
  apply (after_bind (sem_bounded B)); [done|apply after_keeps; auto with mein|]. intros x k2 _ Hb2.
  destruct (num x <=? n); [by apply Hmono|].
  apply (after_bind (sem_bounded B)); [done|apply after_keeps; auto with mein|]. intros cur k3 _ Hb3.
  apply (after_bind (sem_bounded B)); [done|apply after_keeps; [apply keeps_fetch|done]|]. intros c k4 _ Hb4.
  apply (after_bind (sem_bounded B)); [done|by apply upd_one_same|]. intros u5 k5 _ Hb5.
  apply (after_bind (sem_bounded B)); [done|by apply upd_sem_same|]. intros u6 k6 _ Hb6.
  apply (after_bind (sem_bounded B)); [done|apply after_keeps; auto with mein|]. intros s k7 Hg Hb7.
  apply get_sem_inv in Hg as Hg'. destruct Hg' as [-> _].
  apply (after_bind (sem_bounded (B + 32767))); [done|by apply sem_change_bounded|]. intros [r|] k8 _ Hb8; [done|].
  apply (after_bind (sem_bounded (B + 32767))); [done|apply after_keeps; auto with mein|]. intros s9 k9 _ Hb9.
  apply (after_bind (sem_bounded (B + 32767))); [done| |done].
  destruct (val s9 =? 0); [by apply wake_bounded|]. destruct (0 <? val s9); [by apply wake_bounded|done].
Qed.

Lemma keeps_user_load16 a : keeps k_ipc (user_load16 a).
Proof. unfold user_load16, user_load_bytes. keeps_solve. Qed.

Lemma s16_range v : -32768 <= s16 v <= 32767.
Proof. unfold s16, w16. pose proof (Z.mod_pos_bound v 65536 ltac:(lia)). case_match; zbool; lia. Qed.

Lemma sem_op_loop_bounded fuel : forall B id ops i time k,
  0 <= B -> B + 32767 * Z.of_nat fuel < 2147483648 -> sem_bounded B k ->
  after (sem_bounded (B + 32767 * Z.of_nat fuel)) (sem_op_loop fuel id ops i time) k.
Proof.
  induction fuel as [|fuel IH]; intros B id ops i time k HB Hlt Hb; cbn [sem_op_loop].
  { eapply sem_bounded_mono; [|exact Hb]. lia. }
  assert (Hmono : forall C k, C <= B + 32767 -> sem_bounded C k -> sem_bounded (B + 32767 * Z.of_nat (S fuel)) k)
    by (intros C k' HC; apply sem_bounded_mono; lia).
  do 3 (apply (after_bind (sem_bounded B)); [intros; eapply Hmono; [|done]; lia|apply after_keeps; [apply keeps_user_load16|done]|];
    clear Hb; intros ? ? _ Hb).
  apply (after_bind (sem_bounded (B + 32767))); [intros; eapply Hmono; [|done]; lia| |].
  { apply sem_op_one_bounded; [done|lia|apply s16_range|done]. }
  clear Hb. intros [r|] ? _ Hb; [by eapply Hmono|].
  replace (B + 32767 * Z.of_nat (S fuel)) with (B + 32767 + 32767 * Z.of_nat fuel) by lia. apply IH; [lia|lia|done].
Qed.

(** C29: A call of [ipc_sem_op] makes no semaphore value negative: from values between 0 and
    [B], whatever its operations do (pass, fail, put the caller to sleep, wake waiters,
    stop), every value of every set is afterwards between 0 and [B] plus 32767 for each
    operation, provided that this sum is below 2^31.  Beyond, the addition is not
    guarded and wraps around ([sem_op_wraps]). *)
Theorem sem_op_bounds B id ops nops time k :
  0 <= B -> 0 <= nops -> B + 32767 * nops < 2147483648 -> sem_bounded B k ->
  after (sem_bounded (B + 32767 * nops)) (ipc_sem_op id ops nops time) k.
Proof.
  intros HB Hn Hlt Hb. unfold ipc_sem_op. rewrite <- (Z2Nat.id nops) at 1 by done.
  apply sem_op_loop_bounded; rewrite ?Z2Nat.id; done.
Qed.

End ipc_facts.

(** ** Lost wake-ups *)

Lemma drain_nonnull xs : NULL ∉ xs -> Seq.drain xs = (xs, []).
Proof.
  induction xs as [|x xs IH]; intros Hn; cbn; [done|].
  rewrite (proj2 (Z.eqb_neq x NULL)) by set_solver. by rewrite IH by set_solver.
Qed.

(** a process that waits for a semaphore to reach [v] is forgotten when it
    reaches exactly [v] (or less): all such waiters are taken off the list and
    none is woken, so nobody will wake them through this semaphore again. *)
Theorem sem_lost_wakeup k p n x s :
  k_ipc k !! p = Some (IsSem x) -> sems x !! Z.to_nat n = Some s -> NULL ∉ waitn s ->
  (forall e, e ∈ waitn s -> exists y, k_sleepns k !! e = Some y /\ val s <= sn_val y) ->
  exists k', wake_waitn p n k = Ret tt k' /\ k_procs k' = k_procs k /\
    proc_running k' = proc_running k /\ proc_sleeping k' = proc_sleeping k /\
    exists s', get_sem p n k' = Ret s' k' /\ waitn s' = [].
Proof.
  intros Hx Hs Hn Hall. unfold wake_waitn.
  assert (Hg : get_sem p n k = Ret s k).
  { unfold get_sem, sem_at. rewrite bind_assoc. cstep (fetch_Some k_ipc _ _ _ Hx). by rewrite bind_ret, Hs. }
  cstep Hg. rewrite drain_nonnull by done. cbn [fst].
  set (x' := set_sems x (alter (fun s => set_waitn s (Seq.drain (waitn s)).2) (Z.to_nat n) (sems x))).
  set (k1 := set_k_ipc k (<[p := IsSem x']> (k_ipc k))).
  assert (Hu : upd_one p n (fun s => set_waitn s (Seq.drain (waitn s)).2) k = Ret tt k1).
  { unfold upd_one, upd_sem, sem_at. rewrite bind_assoc. by cstep (fetch_Some k_ipc _ _ _ Hx). }
  cstep Hu. exists k1. split; [|split; [done|split; [done|split; [done|]]]].
  - clear Hn Hg Hu. assert (Hall1 : forall e, e ∈ waitn s -> exists y, k_sleepns k1 !! e = Some y /\ val s <= sn_val y) by done.
    clear Hall. generalize dependent k1. induction (waitn s) as [|e es IH]; intros k1 Hall1; [done|].
    cbn [for_each]. destruct (Hall1 e ltac:(set_solver)) as (y & Hy & Hle).
    assert (E : (y ← fetch k_sleepns e; if sn_val y <? val s then
        modify (fun k => set_k_sleepns k (delete e (k_sleepns k)));; kfree e;; proc_wake (sn_proc y);; mret tt
      else mret tt) k1 = Ret tt k1).
    { cstep (fetch_Some k_sleepns _ _ _ Hy). by rewrite (proj2 (Z.ltb_ge _ _) Hle). }
    cstep E. apply IH. set_solver.
  - exists (set_waitn s []). split; [|done]. unfold get_sem, sem_at. rewrite bind_assoc.
    rewrite (bind_Ret _ _ k1 (IsSem x') k1) by (apply fetch_Some; apply lookup_insert_eq).
    rewrite bind_ret. cbn. rewrite list_lookup_alter_eq, Hs. cbn. by rewrite drain_nonnull.
Qed.

(** ** Shared frames *)

(** The tables for the [n] pages from [virt] on exist. *)
Definition tables_for (m : mach) (virt : Z) (n : nat) : Prop :=
  forall i, 0 <= i < Z.of_nat n -> below_tables (virt + i * PAGE_SIZE) /\
    pde_exists (pde_at m ((virt + i * PAGE_SIZE) / 4194304)) = true.

Lemma tables_for_write m virt n v w : selfmap m -> separate m -> below_tables v ->
  pde_exists (pde_at m (v / 4194304)) = true -> tables_for m virt n ->
  tables_for (set_phys m (<[pte_word m v := w]> (phys m))) virt n.
Proof.
  intros Hs Hsep Hv Hx Ht i Hi. destruct (Ht i Hi) as [Hb Hp]. split; [done|].
  pose proof (below_pde _ Hb) as [_ Hd]. rewrite pde_at_pte_write; auto. lia.
Qed.

Lemma page_index virt i o : virt mod 4096 = 0 -> 0 <= o < 4096 -> (virt + i * 4096 + o) / 4096 = virt / 4096 + i.
Proof.
  intros Hv Ho. pose proof (Z.div_mod virt 4096 ltac:(lia)). symmetry.
  apply (Z.div_unique _ _ _ o); lia.
Qed.

(** attaching shared memory maps its frames in order: the [i]-th page from
    the attach address is translated to the [i]-th frame of the object, pages
    outside the range keep their translation, so two processes attached to
    the same object reach the same frames. *)
Theorem map_frames_correct fs : forall m virt w,
  selfmap m -> separate m -> virt mod PAGE_SIZE = 0 -> tables_for m virt (length fs) -> Forall addr32 fs ->
  exists m', map_frames virt fs w m = Ret tt m' /\ selfmap m' /\ separate m' /\
    (forall i f o, fs !! i = Some f -> 0 <= o < PAGE_SIZE ->
       translate (phys m') (paging_curpd m') (virt + Z.of_nat i * PAGE_SIZE + o) = Some (f / 4096 * 4096 + o)) /\
    (forall x, below_tables x -> (x < virt \/ virt + Z.of_nat (length fs) * PAGE_SIZE <= x) ->
       translate (phys m') (paging_curpd m') x = translate (phys m) (paging_curpd m) x).
Proof.
  induction fs as [|f fs IH]; intros m virt w Hs Hsep Hv Ht Hfs; cbn [map_frames length] in *.
  - exists m. split; [done|]. split; [done|]. split; [done|]. split; [|done]. intros i f o Hi. by rewrite lookup_nil in Hi.
  - apply Forall_cons in Hfs as [Hf Hfs]. destruct (Ht 0 ltac:(lia)) as [Hb Hx]. rewrite Z.add_0_r in Hb, Hx.
    unfold paging_map. rewrite (bind_Ret _ _ _ _ _ (map_exact m virt f true w false false Hs Hb Hx)).
    set (m1 := set_phys m _).
    destruct (set_pte_selfmap m virt (enc_pte (new_pte f true w false false)) Hs Hsep Hb Hx) as [Hs1 Hsep1].
    fold m1 in Hs1, Hsep1.
    assert (Htr : forall x, below_tables x -> translate (phys m1) (paging_curpd m1) x =
      if decide (x / 4096 = virt / 4096) then Some (f / 4096 * 4096 + x mod 4096)
      else translate (phys m) (paging_curpd m) x) by (intros x Hxb; exact (map_translates m virt f true w false false x Hs Hsep Hb Hf Hxb Hx)).
    assert (Ht1 : tables_for m1 (virt + 4096) (length fs)).
    { apply tables_for_write; auto. intros i Hi. replace (virt + 4096 + i * 4096) with (virt + (i + 1) * 4096) by lia.
      apply Ht. lia. }
    destruct (IH m1 (virt + 4096) w Hs1 Hsep1) as (m' & E & Hs' & Hsep' & Hin & Hout); auto.
    { rewrite <- Zplus_mod_idemp_l, Hv. done. }
    exists m'. split; [done|]. split; [done|]. split; [done|]. split.
    + intros [|i] g o Hi Ho.
      * injection Hi as ->. rewrite Z.mul_0_l, Z.add_0_r. pose proof (Z.div_mod virt 4096 ltac:(lia)).
        assert (Hbo : below_tables (virt + o)).
        { unfold below_tables, PAGETABLES_ADDRESS in *. lia. }
        rewrite Hout, Htr by (auto; lia). pose proof (page_index virt 0 o Hv Ho) as P. rewrite Z.add_0_r in P.
        rewrite decide_True by (rewrite P; lia). do 2 f_equal.
        rewrite <- Zplus_mod_idemp_l, Hv. by apply Z.mod_small.
      * rewrite <- (Hin i g o Hi Ho). f_equal. lia.
    + intros x Hxb Hx'. rewrite Hout by (auto; lia). rewrite Htr by done. rewrite decide_False; [done|].
      pose proof (Z.div_mod virt 4096 ltac:(lia)). pose proof (Z.div_mod x 4096 ltac:(lia)).
      pose proof (Z.mod_pos_bound x 4096 ltac:(lia)). lia.
Qed.

(** ** Concrete instances *)

Lemma perm_check_bits_witness :
  perm_check 5 6 5 7 256 PERM_R = true /\ perm_check 5 6 7 7 256 PERM_R = false.
Proof.
  split; rewrite perm_check_bits; try (vm_compute; reflexivity); simpl; auto.
Defined.

Lemma ipc_msg_create_correct_witness : exists k', ipc_msg_create 77 511 9 trio = Ret 0 k' /\
    ipc_msg_get 77 k' = Ret 0 k' /\
    (exists p x, ipc_find (-1) 0 IPC_MSG k' = Ret p k' /\ k_ipc k' !! p = Some (IsMsg x) /\
       owner (msg_ipc x) = 100 /\ msgs x = [] /\ p ∉ @nil Z) /\
    ipc_msg_create 77 511 9 k' = Ret (- EINVAL) k' /\
    (forall key' r, key' <> 77 -> key' <> -1 -> found trio key' (-1) IPC_MSG r -> found k' key' (-1) IPC_MSG r).
Proof.
  apply (ipc_msg_create_correct trio 77 511 9); try discriminate; [|reflexivity].
  intros p Hp. apply elem_of_nil in Hp. destruct Hp.
Defined.

(** A queue of the administrator, at address 300. *)
Definition mailbox : ipc_msg_t := Msq (Obj IPC_MSG 4 77 100 100 511) [] [] 0 0 0 0 0 0.
Definition office : kernel :=
  set_k_procs (set_ipc_objects (set_k_ipc trio {[300 := IsMsg mailbox]}) [300])
    (<[100 := set_uid (plain_proc 1 200) 1]> (k_procs trio)).

Lemma office_queue op : op = PERM_R \/ op = PERM_W -> queue office 4 300 mailbox op.
Proof.
  intros Hop. constructor; [reflexivity|discriminate|reflexivity|].
  exists (set_uid (plain_proc 1 200) 1), (set_uid (plain_proc 1 200) 1).
  destruct Hop as [->| ->]; repeat split; reflexivity.
Qed.

Lemma msg_send_recv_witness : exists k1 k2,
  ipc_msg_send 4 4096 8 3 IPC_NOWAIT 10 office = Ret 0 k1 /\
  ipc_msg_recv 4 8192 100 0 IPC_NOWAIT 11 k1 = Ret 8 k2 /\
  k_user k2 = put_bytes 4096 8192 (take 8 (get_bytes ∅ 4096 4096 8)) ∅ /\
  (forall t fl time', ipc_msg_recv 4 8192 100 t fl time' k2 = Stop UseAfterFree k2).
Proof.
  apply (msg_send_recv office 4 300 mailbox (set_uid (plain_proc 1 200) 1)).
  - apply office_queue. right. reflexivity.
  - apply office_queue. left. reflexivity.
  - reflexivity.
  - reflexivity.
  - reflexivity.
  - right. reflexivity.
Defined.

(** A set with one semaphore of value 2 on which process 103 waits for 2. *)
Definition semset : ipc_sem_t := SemSet (Obj IPC_SEM 5 78 100 100 511) 1 [Sem 2 0 [400] []] 0 0.
Definition bench : kernel :=
  set_k_sleepns (set_ipc_objects (set_k_ipc trio {[301 := IsSem semset]}) [301]) {[400 := SleepN 2 103]}.

Lemma sem_op_bounds_witness :
  sem_bounded 2 bench /\ after (sem_bounded (2 + 32767 * 3)) (ipc_sem_op 5 4096 3 9) bench.
Proof.
  assert (Hb : sem_bounded 2 bench).
  { intros p x s Hx Hs. change (({[301 := IsSem semset]} : gmap Z ipc_any) !! p = Some (IsSem x)) in Hx.
    apply lookup_singleton_Some in Hx as [_ E]. injection E as <-.
    apply elem_of_cons in Hs as [->|Hs]; [cbn; lia|]. apply elem_of_nil in Hs. destruct Hs. }
  split; [exact Hb|]. apply (sem_op_bounds 2 5 4096 3 9 bench); [lia|lia|lia|exact Hb].
Defined.

(** What the code does when the largest value is increased by one, which is not what it
    means to do: the value becomes negative. *)
Definition full_set : ipc_sem_t := SemSet (Obj IPC_SEM 5 78 100 100 511) 1 [Sem 2147483647 0 [] []] 0 0.
Definition full_bench : kernel := set_ipc_objects (set_k_ipc trio {[301 := IsSem full_set]}) [301].

Example sem_op_wraps :
  match (sem_op_one 5 0 0 1 0 9;; get_sem 301 0) full_bench with
  | Ret s _ => val s = -2147483648
  | Stop _ _ => False
  end.
Proof. vm_compute. reflexivity. Qed.

Lemma sem_lost_wakeup_witness : exists k', wake_waitn 301 0 bench = Ret tt k' /\ k_procs k' = k_procs bench /\
    proc_running k' = [100; 101; 102] /\ proc_sleeping k' = [103] /\
    exists s', get_sem 301 0 k' = Ret s' k' /\ waitn s' = [].
Proof.
  apply (sem_lost_wakeup bench 301 0 semset (Sem 2 0 [400] [])); [reflexivity|reflexivity| |].
  - cbn. intros [E|E]%elem_of_cons; [discriminate E|]. apply elem_of_nil in E. destruct E.
  - intros e [->|He]%elem_of_cons; [exists (SleepN 2 103); split; [reflexivity|cbn; lia]|].
    apply elem_of_nil in He. destruct He.
Defined.

Lemma map_frames_correct_witness : exists m', map_frames 8192 [20480; 40960] true demo = Ret tt m' /\
    selfmap m' /\ separate m' /\
    (forall i f o, [20480; 40960] !! i = Some f -> 0 <= o < PAGE_SIZE ->
       translate (phys m') (paging_curpd m') (8192 + Z.of_nat i * PAGE_SIZE + o) = Some (f / 4096 * 4096 + o)) /\
    (forall x, below_tables x -> (x < 8192 \/ 8192 + Z.of_nat 2 * PAGE_SIZE <= x) ->
       translate (phys m') (paging_curpd m') x = translate (phys demo) (paging_curpd demo) x).
Proof.
  apply (map_frames_correct [20480; 40960] demo 8192 true demo_selfmap demo_separate); [reflexivity| |].
  - intros i Hi. cbn in Hi. split; [apply demo_below; lia|].
    assert (E : (8192 + i * 4096) / 4194304 = 0) by (apply Z.div_small; lia). rewrite E. vm_compute. reflexivity.
  - repeat constructor; unfold addr32; lia.
Defined.
