(* ===== verification/Rpc.v ===== *)
(** * Remote procedure calls (kernel2/rpc.c)

    A process offers a function; a caller's parameters are copied into a call
    record on the function's list and the caller sleeps; the owner polls for
    calls and returns a result, which the kernel writes into the caller's
    address space before it wakes the caller. *)

From S2P Require Import Prelude LList Machine Paging Kernel Memory Proc Ipc.

Definition func_at (p : Z) : cmd kernel rpc_function_t := fetch k_rpcs p.
Definition call_at (p : Z) : cmd kernel rpc_call_t := fetch k_calls p.

Definition upd_func (p : Z) (f : rpc_function_t -> rpc_function_t) : cmd kernel unit :=
  x ← func_at p; modify (fun k => set_k_rpcs k (<[p := f x]> (k_rpcs k))).

Definition set_calls (x : rpc_function_t) (l : list Z) : rpc_function_t :=
  RpcFunction (rpc_id x) (rpc_name x) (func x) (synopsis x) (params_size x) (rpc_owner x) l (rpc_current x).
Definition set_rpc_current (x : rpc_function_t) (c : Z) : rpc_function_t :=
  RpcFunction (rpc_id x) (rpc_name x) (func x) (synopsis x) (params_size x) (rpc_owner x) (calls x) c.

(** ** Finding functions *)

(** The pid of the owner is read only when it is asked for. *)
Fixpoint find_func (id : Z) (nm : option (list Z)) (own n : Z) (has_calls : bool) (xs : list Z) : cmd kernel Z :=
  match xs with
  | [] => mret NULL
  | p :: xs =>
      x ← func_at p;
      if ((id =? -1) || (id =? rpc_id x)) && from_option (fun s => bool_decide (s = rpc_name x)) true nm &&
         ((own =? NULL) || (own =? rpc_owner x)) then
        ok ← (if n =? 0 then mret true else o ← proc_at (rpc_owner x); mret (n =? pid o));
        if ok && (negb has_calls || negb (bool_decide (calls x = []))) then mret p
        else find_func id nm own n has_calls xs
      else find_func id nm own n has_calls xs
  end.

Definition rpc_find (id : Z) (nm : option (list Z)) (own n : Z) (has_calls : bool) : cmd kernel Z :=
  fs ← gets rpc_functions; find_func id nm own n has_calls (Seq.scan fs).

Section rpc.
Context `{Malloc}.

(** [junk]: the member [current] is not initialised. *)
Definition rpc_function_create (junk : Z) (nm : list Z) (f : Z) (syn : list Z) (size : Z) : cmd kernel Z :=
  new ← kmalloc;
  id ← gets rpc_lastid;
  modify (fun k => set_rpc_lastid k (s32 (rpc_lastid k + 1)));;
  cur ← gets proc_current;
  modify (fun k => set_k_rpcs k (<[new := RpcFunction id nm f syn size cur [] junk]> (k_rpcs k)));;
  modify (fun k => set_rpc_functions k (new :: rpc_functions k));;
  mret id.

Definition rpc_call_destroy (c : Z) : cmd kernel Z :=
  modify (fun k => set_k_calls k (delete c (k_calls k)));; kfree c;; mret 0.

(** The function stays on the list (its strings are freed). *)
Definition rpc_function_destroy (id : Z) : cmd kernel Z :=
  p ← rpc_find id None NULL 0 false;
  if negb (p =? NULL) then
    x ← func_at p; cur ← gets proc_current;
    if rpc_owner x =? cur then
      upd_func p (fun x => set_calls x (Seq.drain (calls x)).2);;
      for_each (Seq.drain (calls x)).1 (fun c => rpc_call_destroy c;; mret tt);;
      mret 0
    else mret (- EACCES)
  else mret (- EINVAL).

Definition rpc_function_getinfo (id : Z) (nm : option (list Z)) (n has_calls psize syn maxlen sleep : Z)
    : cmd kernel Z :=
  p ← rpc_find id nm NULL n (negb (has_calls =? 0));
  if negb (p =? NULL) then
    x ← func_at p;
    user_strncpy syn (synopsis x) maxlen;;
    user_store psize (params_size x);;
    mret (rpc_id x)
  else
    blocks ← (if negb (sleep =? 0) && negb (has_calls =? 0) then c ← current; mret (n =? pid c) else mret false);
    if blocks : bool then
      modify (fun k => set_curregs k (set_eax (curregs k) (w32 (-1))));;
      cur ← gets proc_current;
      proc_sleep cur;;
      mret (-1)
    else mret (- EINVAL).

Definition rpc_function_call (id pars pret pret_params perror : Z) : cmd kernel Z :=
  p ← rpc_find id None NULL 0 false;
  if negb (p =? NULL) then
    x ← func_at p;
    new ← kmalloc;
    cur ← gets proc_current;
    bytes ← user_load_bytes (Z.to_nat (params_size x)) pars;
    modify (fun k => set_k_calls k (<[new := RpcCall cur bytes pret pret_params perror]> (k_calls k)));;
    upd_func p (fun x => set_calls x (new :: calls x));;
    (if negb (perror =? NULL) then user_store perror 1 else mret tt);;
    proc_wake (rpc_owner x);;
    modify (fun k => set_curregs k (set_eax (curregs k) 0));;
    proc_sleep cur;;
    mret 0
  else mret (- EINVAL).

(** The argument [id] is not used. *)
Definition rpc_call_poll (id pfunc pars pcaller : Z) : cmd kernel Z :=
  cur ← gets proc_current;
  p ← rpc_find (-1) None cur 0 true;
  if negb (p =? NULL) then
    x ← func_at p;
    let '(c, rest) := Seq.pop (calls x) in
    upd_func p (fun x => set_rpc_current (set_calls x rest) c);;
    user_store pfunc (func x);;
    y ← call_at c;
    o ← proc_at (caller y);
    user_store pcaller (pid o);;
    user_store_bytes pars (params y);;
    mret 0
  else mret (- EINVAL).

Definition rpc_call_return (id r pret_params : Z) : cmd kernel Z :=
  cur ← gets proc_current;
  p ← rpc_find id None cur 0 false;
  if negb (p =? NULL) then
    x ← func_at p;
    let c := rpc_current x in
    if negb (c =? NULL) then
      y ← call_at c;
      (if negb (ret_params y =? NULL) then
         buf ← user_load_bytes (Z.to_nat (params_size x)) pret_params;
         o ← proc_at (caller y);
         memuser_load_addrspace (addrspace o);;
         user_store_bytes (ret_params y) buf
       else o ← proc_at (caller y); memuser_load_addrspace (addrspace o);; mret tt);;
      (if negb (ret_ptr y =? NULL) then user_store (ret_ptr y) r else mret tt);;
      (if negb (error_ptr y =? NULL) then user_store (error_ptr y) 0 else mret tt);;
      load_current;;
      proc_wake (caller y);;
      rpc_call_destroy c;;
      upd_func p (fun x => set_rpc_current x NULL);;
      mret 0
    else mret (- EINVAL)
  else mret (- EINVAL).

Definition rpc_list (i buf bufsize : Z) : cmd kernel Z :=
  fs ← gets rpc_functions;
  let p := Seq.get fs i in
  if negb (p =? NULL) then
    x ← func_at p;
    if (buf =? NULL) || (bufsize =? 0) then mret (Z.of_nat (length (rpc_name x)) + 1)
    else
      user_strncpy buf (rpc_name x) bufsize;;
      mret (Z.min (Z.of_nat (length (rpc_name x)) + 1) bufsize)
  else mret 0.

(** ** Properties *)

Lemma upd_func_ok k p x f : k_rpcs k !! p = Some x ->
  upd_func p f k = Ret tt (set_k_rpcs k (<[p := f x]> (k_rpcs k))).
Proof. intros Hx. unfold upd_func, func_at. by cstep (fetch_Some k_rpcs _ _ _ Hx). Qed.

(** The search without name and pid, on the heap alone. *)
Fixpoint find_func_in (m : gmap Z rpc_function_t) (id own : Z) (has_calls : bool) (xs : list Z) : option Z :=
  match xs with
  | [] => Some NULL
  | p :: xs =>
      x ← m !! p;
      if ((id =? -1) || (id =? rpc_id x)) && ((own =? NULL) || (own =? rpc_owner x)) &&
         (negb has_calls || negb (bool_decide (calls x = [])))
      then Some p else find_func_in m id own has_calls xs
  end.

Lemma find_func_ok id own hc xs : forall k r, find_func_in (k_rpcs k) id own hc xs = Some r ->
  find_func id None own 0 hc xs k = Ret r k.
Proof.
  induction xs as [|p xs IH]; intros k r E; cbn [find_func_in find_func] in *; [by injection E as <-|].
  destruct (k_rpcs k !! p) as [x|] eqn:Hx; [|done]. cbn [mbind option_bind] in E. unfold func_at.
  cstep (fetch_Some k_rpcs _ _ _ Hx). cbn [from_option]. rewrite andb_true_r.
  destruct (((id =? -1) || (id =? rpc_id x)) && ((own =? NULL) || (own =? rpc_owner x))); cbn [andb] in E;
    [|by apply IH]. rewrite Z.eqb_refl, bind_ret. cbn [andb].
  destruct (negb hc || _); [by injection E as <-|by apply IH].
Qed.

(** Without the test for calls only identifier and owner matter. *)
Lemma find_func_put m p x x' id own xs : m !! p = Some x -> rpc_id x' = rpc_id x -> rpc_owner x' = rpc_owner x ->
  find_func_in (<[p := x']> m) id own false xs = find_func_in m id own false xs.
Proof.
  intros Hx E1 E2. induction xs as [|q xs IH]; [done|]. cbn [find_func_in].
  destruct (decide (p = q)) as [<-|]; [rewrite lookup_insert_eq, Hx|rewrite lookup_insert_ne by done; by rewrite IH].
  cbn [mbind option_bind]. by rewrite E1, E2, IH.
Qed.

Definition offers (k : kernel) (id own : Z) (hc : bool) (p : Z) (x : rpc_function_t) : Prop :=
  find_func_in (k_rpcs k) id own hc (Seq.scan (rpc_functions k)) = Some p /\ p <> NULL /\ k_rpcs k !! p = Some x.

Lemma rpc_find_ok k id own hc p x : offers k id own hc p x -> rpc_find id None own 0 hc k = Ret p k.
Proof.
  intros (Hf & _). unfold rpc_find. rewrite (bind_Ret (gets rpc_functions) _ k _ k eq_refl). by apply find_func_ok.
Qed.

(** The caller and the current process with their address spaces. *)
Record answering (k : kernel) (c : Z) (y : rpc_call_t) (o : proc_t) (oa : addrspace_t) (s : proc_t) (sa : addrspace_t)
    : Prop := {
  an_call : k_calls k !! c = Some y;
  an_caller : k_procs k !! caller y = Some o;
  an_caller_space : k_spaces k !! addrspace o = Some oa;
  an_server : k_procs k !! proc_current k = Some s;
  an_server_space : k_spaces k !! addrspace s = Some sa;
}.

(** The state in which the caller is woken: the results are in its memory. *)
Definition answered (k : kernel) (y : rpc_call_t) (oa sa : addrspace_t) (r : Z) : kernel :=
  let u := k_user k in
  let u := if ret_ptr y =? NULL then u else put_word (pagedir oa) (ret_ptr y) r u in
  let u := if error_ptr y =? NULL then u else put_word (pagedir oa) (error_ptr y) 0 u in
  set_k_user (set_k_mach k (set_curpd (k_mach k) (pagedir sa))) u.

Lemma store_results k y oa sa s r (d : cmd kernel Z) :
  k_procs k !! proc_current k = Some s -> k_spaces k !! addrspace s = Some sa ->
  ((if negb (ret_ptr y =? NULL) then user_store (ret_ptr y) r else mret tt);;
   (if negb (error_ptr y =? NULL) then user_store (error_ptr y) 0 else mret tt);;
   load_current;; d) (set_k_mach k (set_curpd (k_mach k) (pagedir oa))) = d (answered k y oa sa r).
Proof.
  intros Hs Hsa. set (k1 := set_k_mach k _).
  set (u1 := if ret_ptr y =? NULL then k_user k else put_word (pagedir oa) (ret_ptr y) r (k_user k)).
  rewrite (bind_Ret _ _ k1 tt (set_k_user k1 u1)).
  2:{ unfold u1. destruct (ret_ptr y =? NULL); cbn [negb]; [by destruct k|by rewrite user_store_ok]. }
  set (u2 := if error_ptr y =? NULL then u1 else put_word (pagedir oa) (error_ptr y) 0 u1).
  rewrite (bind_Ret _ _ (set_k_user k1 u1) tt (set_k_user k1 u2)).
  2:{ unfold u2. destruct (error_ptr y =? NULL); cbn [negb]; [done|by rewrite user_store_ok]. }
  unfold load_current, current, proc_at. rewrite !bind_assoc.
  rewrite (bind_Ret (gets proc_current) _ (set_k_user k1 u2) (proc_current k) (set_k_user k1 u2) eq_refl).
  cstep (fetch_Some k_procs (proc_current k) s (set_k_user k1 u2) Hs). rewrite bind_assoc.
  by cstep (load_addrspace_ok (addrspace s) sa (set_k_user k1 u2) Hsa).
Qed.

(** returning from a remote call completes it: the caller finds the result
    and a cleared error word in its own address space, is running again, the
    server's address space is loaded, the call is gone, and returning a second
    time is refused. *)
Theorem rpc_return_correct k id p x y o oa s sa r rp :
  offers k id (proc_current k) false p x -> rpc_current x <> NULL ->
  answering k (rpc_current x) y o oa s sa -> ret_params y = NULL ->
  ret_ptr y <> NULL -> error_ptr y <> NULL ->
  (forall i j, 0 <= i < 4 -> 0 <= j < 4 -> w32 (error_ptr y + i) <> w32 (ret_ptr y + j)) ->
  exists k', rpc_call_return id r rp k = Ret 0 k' /\
    word_at (k_user k') (pagedir oa) (ret_ptr y) = w32 r /\
    word_at (k_user k') (pagedir oa) (error_ptr y) = 0 /\
    (exists o', k_procs k' !! caller y = Some o' /\ is_sleeping o' = false) /\
    paging_curpd (k_mach k') = pagedir sa /\ k_calls k' !! rpc_current x = None /\
    rpc_call_return id r rp k' = Ret (- EINVAL) k'.
Proof.
  intros Hof Hc [Hy Ho Hoa Hs Hsa] Hrp Hr He Hsep. pose proof Hof as (Hf & Hp & Hx).
  unfold rpc_call_return at 1. rewrite (bind_Ret (gets proc_current) _ k _ k eq_refl).
  cstep (rpc_find_ok _ _ _ _ _ _ Hof). rewrite (proj2 (Z.eqb_neq _ _) Hp). cbn [negb]. unfold func_at.
  cstep (fetch_Some k_rpcs _ _ _ Hx). cbv zeta. rewrite (proj2 (Z.eqb_neq _ _) Hc). cbn [negb]. unfold call_at.
  cstep (fetch_Some k_calls _ _ _ Hy). rewrite Hrp, Z.eqb_refl. cbn [negb]. unfold proc_at at 1.
  rewrite bind_assoc. cstep (fetch_Some k_procs _ _ _ Ho). rewrite bind_assoc. cstep (load_addrspace_ok _ _ _ Hoa).
  rewrite bind_ret, (store_results k y oa sa s r _ Hs Hsa). set (k1 := answered k y oa sa r).
  cstep (proc_wake_exact k1 (caller y) o Ho). set (k2 := if is_sleeping o then _ else k1).
  rewrite (bind_Ret (rpc_call_destroy (rpc_current x)) _ k2 0
    (set_k_live (set_k_calls k2 (delete (rpc_current x) (k_calls k2))) (k_live k2 ∖ {[rpc_current x]})) eq_refl).
  set (k3 := set_k_live _ _). assert (Hrp3 : k_rpcs k3 = k_rpcs k) by (unfold k3, k2; by destruct (is_sleeping o)).
  assert (Hx3 : k_rpcs k3 !! p = Some x) by (by rewrite Hrp3).
  cstep (upd_func_ok k3 p x (fun x => set_rpc_current x NULL) Hx3). set (k4 := set_k_rpcs k3 _).
  assert (Hu : k_user k4 = put_word (pagedir oa) (error_ptr y) 0 (put_word (pagedir oa) (ret_ptr y) r (k_user k))).
  { unfold k4, k3, k2, k1, answered. apply Z.eqb_neq in Hr as ->, He as ->. by destruct (is_sleeping o). }
  exists k4. split; [done|]. rewrite Hu. split; [rewrite word_at_put_ne by auto; apply word_at_put|].
  split; [by rewrite word_at_put|]. split; [|split; [unfold k4, k3, k2; by destruct (is_sleeping o)|split]].
  - unfold k4, k3, k2. destruct (is_sleeping o) eqn:Hsl; [exists (set_is_sleeping o false)|exists o]; split; auto.
    apply lookup_insert_eq.
  - apply lookup_delete_eq.
  - assert (Hcur4 : proc_current k4 = proc_current k) by (unfold k4, k3, k2; by destruct (is_sleeping o)).
    assert (Hfn4 : rpc_functions k4 = rpc_functions k) by (unfold k4, k3, k2; by destruct (is_sleeping o)).
    assert (Hof4 : offers k4 id (proc_current k) false p (set_rpc_current x NULL)).
    { split; [|split; [done|apply lookup_insert_eq]]. rewrite Hfn4, <- Hf. unfold k4. cbn [k_rpcs set_k_rpcs].
      rewrite Hrp3. by apply (find_func_put _ _ x). }
    unfold rpc_call_return. rewrite (bind_Ret (gets proc_current) _ k4 _ k4 eq_refl), Hcur4.
    cstep (rpc_find_ok _ _ _ _ _ _ Hof4). rewrite (proj2 (Z.eqb_neq _ _) Hp). cbn [negb]. unfold func_at.
    by rewrite (bind_Ret _ _ _ _ _ (fetch_Some k_rpcs _ _ _ (lookup_insert_eq _ _ _))).
Qed.

(** a destroyed function is still offered: after the owner destroyed it
    (and its pending calls are dropped), a search by its identifier finds the
    same function. *)
Theorem rpc_destroy_still_found k id p x :
  offers k id NULL false p x -> rpc_owner x = proc_current k -> NULL ∉ calls x ->
  exists k', rpc_function_destroy id k = Ret 0 k' /\ rpc_find id None NULL 0 false k' = Ret p k' /\
    k_rpcs k' !! p = Some (set_calls x []).
Proof.
  intros Hof Hown Hn. pose proof Hof as (Hf & Hp & Hx). unfold rpc_function_destroy.
  cstep (rpc_find_ok _ _ _ _ _ _ Hof). rewrite (proj2 (Z.eqb_neq _ _) Hp). cbn [negb]. unfold func_at.
  cstep (fetch_Some k_rpcs _ _ _ Hx). rewrite (bind_Ret (gets proc_current) _ k _ k eq_refl), Hown, Z.eqb_refl.
  cstep (upd_func_ok k p x (fun x => set_calls x (Seq.drain (calls x)).2) Hx). rewrite drain_nonnull by done.
  set (k1 := set_k_rpcs k _). cbn [fst].
  assert (Hloop : exists k', for_each (calls x) (fun c => rpc_call_destroy c;; mret tt) k1 = Ret tt k' /\
    k_rpcs k' = k_rpcs k1 /\ rpc_functions k' = rpc_functions k1).
  { generalize k1. induction (calls x) as [|c cs IH]; intros k2; cbn [for_each]; [by exists k2|].
    edestruct IH as (k' & E & E1 & E2); [set_solver|]. exists k'. split; [by rewrite bind_assoc; apply E|]. done. }
  destruct Hloop as (k' & E & E1 & E2). exists k'. split; [by cstep E|]. rewrite E1.
  assert (Hx1 : k_rpcs k1 !! p = Some (set_calls x [])) by apply lookup_insert_eq.
  split; [|done]. apply (rpc_find_ok k' id NULL false p (set_calls x [])). split; [|by rewrite E1].
  rewrite E1, E2, <- Hf. by apply (find_func_put _ _ x).
Qed.

End rpc.

(** ** Concrete instances *)

(** Process 100 serves a call of the sleeping process 103. *)
Definition service : kernel :=
  set_k_calls (set_rpc_functions (set_k_rpcs trio
    {[500 := RpcFunction 7 [97] 4711 [] 0 100 [] 600]}) [500]) {[600 := RpcCall 103 [] 8192 NULL 8196]}.

Lemma rpc_return_correct_witness : exists k', rpc_call_return 7 42 0 service = Ret 0 k' /\
    word_at (k_user k') 4096 8192 = w32 42 /\ word_at (k_user k') 4096 8196 = 0 /\
    (exists o', k_procs k' !! 103 = Some o' /\ is_sleeping o' = false) /\
    paging_curpd (k_mach k') = 4096 /\ k_calls k' !! 600 = None /\
    rpc_call_return 7 42 0 k' = Ret (- EINVAL) k'.
Proof.
  apply (rpc_return_correct service 7 500 (RpcFunction 7 [97] 4711 [] 0 100 [] 600) (RpcCall 103 [] 8192 NULL 8196)
    (set_is_sleeping (plain_proc 4 200) true) demo_space (plain_proc 1 200) demo_space).
  - split; [reflexivity|split; [discriminate|reflexivity]].
  - discriminate.
  - constructor; reflexivity.
  - reflexivity.
  - discriminate.
  - discriminate.
  - intros i j Hi Hj. cbn. rewrite !w32_small by lia. lia.
Defined.

Lemma rpc_destroy_still_found_witness : exists k', rpc_function_destroy 7 service = Ret 0 k' /\
  rpc_find 7 None NULL 0 false k' = Ret 500 k' /\
  k_rpcs k' !! 500 = Some (RpcFunction 7 [97] 4711 [] 0 100 [] 600).
Proof.
  apply (rpc_destroy_still_found service 7 500 (RpcFunction 7 [97] 4711 [] 0 100 [] 600)).
  - split; [reflexivity|split; [discriminate|reflexivity]].
  - reflexivity.
  - cbn. intros E. apply elem_of_nil in E. destruct E.
Defined.
