(* ===== verification/Irq.v ===== *)
(** * Interrupts, timers, signals and system calls (kernel2/interrupt.c,
    signal.c, syscall.c, biosint.c)

    The entry points of the kernel.  The interrupt frame on the kernel stack
    is the list of words the assembler stubs and the processor push; the
    functions behind the system call numbers are reached through a table of
    pointers, so the dispatcher takes the meaning of a function pointer as an
    argument.  End-of-interrupt commands to the interrupt controllers and the
    text output of the exception handler are not modelled. *)

From S2P Require Import Prelude LList Machine Paging Kernel Memory Proc Ipc.

(** ** The interrupt frame *)

(** The words from the stack pointer of [isr.asm] on: the general registers
    in the order of [pusha], the data segments, the error code, what the
    processor pushed, and the segments of virtual 8086 mode. *)
Definition interrupt_save_stack (stack : list Z) : option (proc_registers * Z * vm86_segmentregs) :=
  match stack with
  | edi :: esi :: ebp :: _ :: ebx :: edx :: ecx :: eax :: ds :: es :: fs :: gs :: err ::
    eip :: cs :: efl :: esp :: ss :: ves :: vds :: vfs :: vgs :: _ =>
      Some (Regs eax ebx ecx edx esi edi ebp esp eip efl cs ds es fs gs ss, err, SegRegs ves vds vfs vgs)
  | _ => None
  end.

(** What the frame holds after stores through the saved pointers. *)
Definition interrupt_write_stack (stack : list Z) (r : proc_registers) (v : vm86_segmentregs) : list Z :=
  match stack with
  | _ :: _ :: _ :: esp0 :: _ :: _ :: _ :: _ :: _ :: _ :: _ :: _ :: err ::
    _ :: _ :: _ :: _ :: _ :: _ :: _ :: _ :: _ :: rest =>
      edi r :: esi r :: ebp r :: esp0 :: ebx r :: edx r :: ecx r :: eax r :: ds r :: es r :: fs r :: gs r ::
      err :: eip r :: cs r :: efl r :: esp r :: ss r :: vm_es v :: vm_ds v :: vm_fs v :: vm_gs v :: rest
  | _ => stack
  end.

(** ** Signals (signal.h, signal.c) *)

Definition SIGCONT : Z := 18.
Definition SIGSYS : Z := 31.

Definition signal_setup (handler : Z) : cmd kernel unit :=
  cur ← gets proc_current; upd_proc cur (fun x => set_signal x handler).

Definition signal_send (p sig : Z) : cmd kernel unit :=
  (if sig =? SIGCONT then proc_wake p;; mret tt else mret tt);;
  x ← proc_at p;
  if negb (signal x =? NULL) then proc_call p (signal x) [sig] else mret tt.

Definition signal_send_syscall (n sig : Z) : cmd kernel unit :=
  p ← proc_find n;
  if negb (p =? NULL) then
    x ← proc_at p; c ← current;
    if (uid x =? uid c) || (gid x =? gid c) || (uid c =? PERM_ROOTUID) || (gid c =? PERM_ROOTGID)
    then signal_send p sig else mret tt
  else mret tt.

(** ** Sleeping for a time *)

Definition TIME_SLEEP : Z := 0.

(** The loop [for (i=0;(sleep = llist_get(l,i));i++)] whose body removes the
    entry at [i] and steps back: [before] are the entries before [i]. *)
Fixpoint time_loop (usec : Z) (before todo : list Z) : cmd kernel unit :=
  match todo with
  | [] => mret tt
  | p :: rest =>
      if p =? NULL then mret tt else
      s ← fetch k_sleeps p;
      if sl_usec s <=? usec then
        (if sl_type s =? TIME_SLEEP then proc_wake (sl_proc s);; mret tt else mret tt);;
        modify (fun k => set_interrupt_sleep k (before ++ rest));;
        time_loop usec before rest
      else
        modify (fun k => set_k_sleeps k
          (<[p := TimeSleep (sl_type s) (w64 (sl_usec s - usec)) (sl_proc s)]> (k_sleeps k)));;
        time_loop usec (before ++ [p]) rest
  end.

Definition interrupt_time_check (usec : Z) : cmd kernel unit :=
  l ← gets interrupt_sleep; time_loop usec [] l.

Section irq.
Context `{Malloc}.

Definition interrupt_time_usleep (usec : Z) : cmd kernel Z :=
  new ← kmalloc;
  cur ← gets proc_current;
  modify (fun k => set_k_sleeps k (<[new := TimeSleep TIME_SLEEP usec cur]> (k_sleeps k)));;
  modify (fun k => set_interrupt_sleep k (new :: interrupt_sleep k));;
  proc_sleep cur;;
  mret 0.

(** The product is computed in 32 bits. *)
Definition interrupt_time_sleep (sec : Z) : cmd kernel Z := interrupt_time_usleep (w32 (sec * 1000000)).

Definition interrupt_time_getticks : cmd kernel Z := gets cpu_ticks.

(** ** Interrupt requests *)

Definition upd_irq (irq : Z) (f : list Z -> list Z) : cmd kernel unit :=
  modify (fun k => set_interrupt_irq k (alter f (Z.to_nat irq) (interrupt_irq k))).

Definition irq_register (irq : Z) (handler : bool) (func : Z) : cmd kernel Z :=
  if irq <? 16 then
    new ← kmalloc;
    cur ← gets proc_current;
    modify (fun k => set_k_irqs k (<[new := Irq handler cur func]> (k_irqs k)));;
    upd_irq irq (cons new);;
    mret 0
  else mret (-1).

Definition interrupt_irq_reghandler (irq func : Z) : cmd kernel Z := irq_register irq true func.

(** The caller is put on the list but not to sleep; [func] is not set. *)
Definition interrupt_irq_sleep (junk irq : Z) : cmd kernel Z := irq_register irq false junk.

Fixpoint irq_loop (irq : Z) (before todo : list Z) : cmd kernel unit :=
  match todo with
  | [] => mret tt
  | p :: rest =>
      if p =? NULL then mret tt else
      o ← fetch k_irqs p;
      if negb (irq_handler o) then
        proc_wake (irq_proc o);;
        modify (fun k => set_k_irqs k (delete p (k_irqs k)));; kfree p;;
        upd_irq irq (fun _ => before ++ rest);;
        irq_loop irq before rest
      else
        proc_call (irq_proc o) (irq_func o) [irq];;
        irq_loop irq (before ++ [p]) rest
  end.

Definition interrupt_irq_check (irq : Z) : cmd kernel unit :=
  ls ← gets interrupt_irq;
  match ls !! Z.to_nat irq with Some l => irq_loop irq [] l | None => stop_with OutOfBounds end.

(** ** The dispatcher *)

Definition interrupt_timer : cmd kernel unit :=
  modify (fun k => set_cpu_ticks k (w32 (cpu_ticks k + 1)));;
  n ← gets cpu_interval;
  interrupt_time_check (w32 (n * 1000));;
  proc_shedule.

Definition interrupt_irq_handler (irq : Z) : cmd kernel unit :=
  if irq =? 0 then interrupt_timer else interrupt_irq_check irq.

Definition interrupt_lapic_handler (interrupt : Z) : cmd kernel unit :=
  if interrupt =? 48 then interrupt_timer else mret tt.

Definition INTERRUPT_EXCEPTION_PAGE_FAULT : Z := 14.

(** A page fault that is resolved returns; anything else is reported and the
    processor halts inside the handler. *)
Definition interrupt_exception_handler (exception cr2 : Z) : cmd kernel unit :=
  if exception =? INTERRUPT_EXCEPTION_PAGE_FAULT then
    r ← memuser_pagefault cr2;
    if r =? 0 then mret tt else stop_with Panic
  else stop_with Panic.

(** The last condition of the third test contradicts the others. *)
Definition interrupt_handler (uselapic : bool) (interrupt cr2 : Z) : cmd kernel unit :=
  (if (interrupt <? 32) && negb (interrupt =? 15) then interrupt_exception_handler interrupt cr2 else mret tt);;
  (if (31 <? interrupt) && (interrupt <? 48) then interrupt_irq_handler (interrupt - 32) else mret tt);;
  (if negb uselapic && (interrupt =? 48) then interrupt_irq_handler 0 else mret tt);;
  (if uselapic && (47 <? interrupt) && (interrupt <? 55) && (interrupt =? 15)
   then interrupt_lapic_handler interrupt else mret tt);;
  cur ← gets proc_current;
  if cur =? NULL then proc_shedule else mret tt.

(** biosint.c: the process is prepared but never run; the caller sleeps. *)
Definition biosint_call (junk : proc_t) (ip cs_ ax bx cx dx si di ds_ es_ : Z) : cmd kernel Z :=
  cur ← gets proc_current; c ← proc_at cur;
  p ← vm86_proc_create junk [98; 105; 111; 115; 95; 105; 110; 116] (uid c) (gid c) cur;
  upd_proc p (fun x => let r := registers x in
    set_registers x (Regs ax bx cx dx si di (ebp r) (esp r) ip (efl r) cs_ ds_ es_ (fs r) (gs r) (ss r)));;
  proc_sleep cur;;
  mret (w16 (-1)).

End irq.

(** ** System calls (syscalls.h, syscall.c) *)

Definition SYSCALL_MAXNUM : Z := 83.

Record syscall := Syscall { sc_func : Z; sc_numparams : Z }.

Definition syscall_init : list syscall := replicate (Z.to_nat SYSCALL_MAXNUM) (Syscall NULL 0).

(** [syscalls[cmd]], with nothing before and behind the array. *)
Definition syscall_slot (t : list syscall) (c : Z) : option syscall :=
  if c <? 0 then None else t !! Z.to_nat c.

Definition syscall_create (c func numparams : Z) : cmd (list syscall) Z := fun t =>
  if SYSCALL_MAXNUM <? c then Ret (-1) t else
  match syscall_slot t c with
  | None => Stop OutOfBounds t
  | Some s =>
      if negb (sc_func s =? NULL) then Ret (-1) t
      else Ret 0 (<[Z.to_nat c := Syscall func numparams]> t)
  end.

Definition syscall_destroy (c : Z) : cmd (list syscall) unit := fun t =>
  if c <? SYSCALL_MAXNUM then
    match syscall_slot t c with
    | None => Stop OutOfBounds t
    | Some s => Ret tt (<[Z.to_nat c := Syscall NULL (sc_numparams s)]> t)
    end
  else Ret tt t.

(** The parameters [dyn_call] pushes. *)
Fixpoint load_params (n : nat) (a : Z) : cmd kernel (list Z) :=
  match n with
  | O => mret []
  | S n => v ← user_load a; vs ← load_params n (a + 4); mret (v :: vs)
  end.

Section syscall_handler.
(** The functions behind the pointers of the table. *)
Variable dyn_call : Z -> list Z -> cmd kernel Z.

Definition syscall_handler (t : list syscall) : cmd kernel unit :=
  caller ← gets proc_current;
  r ← gets curregs;
  c ← user_load (esp r);
  ps ← user_load (esp r + 4);
  res ← (if s32 c <=? SYSCALL_MAXNUM then
      match syscall_slot t (s32 c) with
      | None => stop_with OutOfBounds
      | Some s =>
          if negb (sc_func s =? NULL) then
            args ← load_params (Z.to_nat (sc_numparams s)) ps; dyn_call (sc_func s) args
          else signal_send caller SIGSYS;; mret (-1)
      end
    else mret (-1));
  cur ← gets proc_current;
  if cur =? caller then modify (fun k => set_curregs k (set_eax (curregs k) (w32 res))) else mret tt.
End syscall_handler.

(** ** Properties of the frame *)

(** the saved context is the interrupt frame: registers stored through the
    pointers into the frame are what the processor and the stub restore, and
    neither the error code nor the words behind the frame change. *)
Theorem interrupt_frame_roundtrip stack r0 err v0 r v :
  interrupt_save_stack stack = Some (r0, err, v0) ->
  interrupt_save_stack (interrupt_write_stack stack r v) = Some (r, err, v) /\
  interrupt_write_stack (interrupt_write_stack stack r v) r0 v0 = stack /\
  drop 22 (interrupt_write_stack stack r v) = drop 22 stack.
Proof.
  unfold interrupt_save_stack. intros E. repeat (destruct stack as [|? stack]; [done|]).
  injection E as <- <- <-. by destruct r, v.
Qed.

(** ** Timers *)

Definition awake (k : kernel) (p : Z) : Prop := exists x, k_procs k !! p = Some x /\ is_sleeping x = false.

Lemma wake_flags k p x : k_procs k !! p = Some x -> exists k', proc_wake p k = Ret 0 k' /\ awake k' p /\
  (forall q, awake k q -> awake k' q) /\ (forall q, q <> p -> k_procs k' !! q = k_procs k !! q) /\
  (forall q, is_Some (k_procs k !! q) -> is_Some (k_procs k' !! q)) /\
  k_sleeps k' = k_sleeps k /\ interrupt_sleep k' = interrupt_sleep k.
Proof.
  intros Hx. rewrite (proc_wake_exact k p x Hx). eexists. split; [reflexivity|].
  destruct (is_sleeping x) eqn:E; [|by repeat split; auto; exists x].
  split; [exists (set_is_sleeping x false); split; [apply lookup_insert_eq|done]|]. cbn.
  split; [|split; [|split; [|done]]].
  - intros q (y & Hy & Hs). destruct (decide (q = p)) as [->|];
      [exists (set_is_sleeping x false); split; [apply lookup_insert_eq|done]|].
    exists y. split; [cbn; by rewrite lookup_insert_ne|done].
  - intros q Hq. by rewrite lookup_insert_ne.
  - intros q Hq. destruct (decide (q = p)) as [->|]; [rewrite lookup_insert_eq; eauto|by rewrite lookup_insert_ne].
Qed.

(** A timer in [k] with its time, for a live process. *)
Definition timer (k : kernel) (p usec q : Z) : Prop :=
  k_sleeps k !! p = Some (TimeSleep TIME_SLEEP usec q) /\ is_Some (k_procs k !! q).

Definition usec_of (m : gmap Z interrupt_sleep_t) (p : Z) : Z :=
  match m !! p with Some s => sl_usec s | None => 0 end.

(** The entries of [todo] that have not run out, in order. *)
Definition left_over (m : gmap Z interrupt_sleep_t) (usec : Z) (todo : list Z) : list Z :=
  filter (fun p => usec < usec_of m p) todo.

Record checked (usec : Z) (before todo : list Z) (k k' : kernel) : Prop := {
  ck_list : interrupt_sleep k' = before ++ left_over (k_sleeps k) usec todo;
  ck_expired : forall p t q, p ∈ todo -> timer k p t q -> t <= usec -> awake k' q;
  ck_running : forall p t q, p ∈ todo -> timer k p t q -> usec < t ->
    k_sleeps k' !! p = Some (TimeSleep TIME_SLEEP (t - usec) q);
  ck_awake : forall q, awake k q -> awake k' q;
  ck_untouched : forall q, (forall p t, p ∈ todo -> timer k p t q -> usec < t) ->
    k_procs k' !! q = k_procs k !! q;
  ck_others : forall p, p ∉ todo -> k_sleeps k' !! p = k_sleeps k !! p;
  ck_live : forall q, is_Some (k_procs k !! q) -> is_Some (k_procs k' !! q);
}.

Lemma left_over_ext m m' usec xs : (forall p, p ∈ xs -> m !! p = m' !! p) -> left_over m usec xs = left_over m' usec xs.
Proof.
  unfold left_over. induction xs as [|p xs IH]; intros E; [done|]. rewrite !filter_cons.
  rewrite IH by set_solver. unfold usec_of. by rewrite (E p) by set_solver.
Qed.

(** One entry has run out: its process was woken in [k1]. *)
Lemma checked_expired usec before p t q todo k k1 k' :
  NoDup (p :: todo) -> timer k p t q -> t <= usec -> awake k1 q ->
  (forall r, awake k r -> awake k1 r) -> (forall r, r <> q -> k_procs k1 !! r = k_procs k !! r) ->
  (forall r, is_Some (k_procs k !! r) -> is_Some (k_procs k1 !! r)) -> k_sleeps k1 = k_sleeps k ->
  checked usec before todo k1 k' -> checked usec before (p :: todo) k k'.
Proof.
  intros Hnd [Hp Hq] Ht Ha Hm Hr Hl Hs []. apply NoDup_cons in Hnd as [Hn Hnd].
  assert (Htm : forall p t r, timer k p t r -> timer k1 p t r) by (intros ??? [? ?]; split; [by rewrite Hs|auto]).
  constructor; auto.
  - rewrite ck_list0, Hs. f_equal. unfold left_over. rewrite filter_cons_False; [done|].
    unfold usec_of. rewrite Hp. simpl. lia.
  - intros p' t' r [->|Hin]%elem_of_cons Htr Hle; [|by apply (ck_expired0 p' t'); auto].
    destruct Htr as [Hp' _]. rewrite Hp in Hp'. injection Hp' as -> ->. auto.
  - intros p' t' r [->|Hin]%elem_of_cons Htr Hlt; [|by apply ck_running0; auto].
    destruct Htr as [Hp' _]. rewrite Hp in Hp'. injection Hp' as -> ->. lia.
  - intros r Hall. assert (r <> q) by (intros ->; specialize (Hall p t ltac:(set_solver) (conj Hp Hq)); lia).
    rewrite ck_untouched0, Hr; [done|done|]. intros p' t' Hin [H1 H2]. apply (Hall p'); [set_solver|].
    split; [by rewrite <- Hs|]. rewrite Hr in H2; done.
  - intros p' Hn'. rewrite ck_others0 by set_solver. by rewrite Hs.
Qed.

(** One entry stays, with less time. *)
Lemma checked_stays usec before p t q todo k k' :
  NoDup (p :: todo) -> timer k p t q -> usec < t ->
  checked usec (before ++ [p]) todo (set_k_sleeps k (<[p := TimeSleep TIME_SLEEP (t - usec) q]> (k_sleeps k))) k' ->
  checked usec before (p :: todo) k k'.
Proof.
  intros Hnd [Hp Hq] Ht []. apply NoDup_cons in Hnd as [Hn Hnd]. cbn in *.
  assert (Hne : forall p', p' ∈ todo -> <[p := TimeSleep TIME_SLEEP (t - usec) q]> (k_sleeps k) !! p' = k_sleeps k !! p').
  { intros p' Hin. rewrite lookup_insert_ne; [done|]. intros ->. done. }
  set (k1 := set_k_sleeps k _) in *.
  assert (Htm : forall p' t r, p' ∈ todo -> timer k p' t r <-> timer k1 p' t r).
  { intros p' t' r Hin. unfold timer. cbn. by rewrite Hne. }
  constructor; auto.
  - rewrite ck_list0, <- app_assoc. f_equal. unfold left_over. rewrite filter_cons_True by (unfold usec_of; rewrite Hp; simpl; lia).
    cbn. f_equal. by apply left_over_ext.
  - intros p' t' r [->|Hin]%elem_of_cons Htr Hle; [|apply (ck_expired0 p' t'); auto; by apply Htm].
    destruct Htr as [Hp' _]. rewrite Hp in Hp'. injection Hp' as -> ->. lia.
  - intros p' t' r [->|Hin]%elem_of_cons Htr Hlt; [|apply ck_running0; auto; by apply Htm].
    destruct Htr as [Hp' _]. rewrite Hp in Hp'. injection Hp' as -> ->.
    rewrite ck_others0 by done. apply lookup_insert_eq.
  - intros r Hall. apply ck_untouched0. intros p' t' Hin Htr. apply (Hall p'); [set_solver|]. by apply Htm.
  - intros p' Hn'. rewrite ck_others0 by set_solver. rewrite lookup_insert_ne; [done|set_solver].
Qed.

Lemma time_loop_ok usec todo : forall before k, 0 <= usec -> NULL ∉ todo -> NoDup todo ->
  interrupt_sleep k = before ++ todo ->
  (forall p, p ∈ todo -> exists t q, timer k p t q /\ 0 <= t < 18446744073709551616) ->
  exists k', time_loop usec before todo k = Ret tt k' /\ checked usec before todo k k'.
Proof.
  induction todo as [|p todo IH]; intros before k Hu Hn Hnd Hl Htm; cbn [time_loop].
  - exists k. split; [done|]. constructor; auto; by set_solver.
  - destruct (Htm p ltac:(set_solver)) as (t & q & Ht & Hr). pose proof Ht as [Hp [x Hq]].
    rewrite (proj2 (Z.eqb_neq p NULL)) by set_solver. cstep (fetch_Some k_sleeps _ _ _ Hp). cbn [sl_usec sl_type sl_proc].
    pose proof Hnd as [Hni Hnd']%NoDup_cons.
    destruct (Z.leb_spec t usec).
    + rewrite Z.eqb_refl, bind_assoc. destruct (wake_flags k q x Hq) as (k1 & E & H1 & H2 & H3 & H4 & H5 & H6).
      cstep E. rewrite bind_ret, (bind_Ret (modify _) _ k1 tt (set_interrupt_sleep k1 (before ++ todo)) eq_refl).
      edestruct (IH before (set_interrupt_sleep k1 (before ++ todo))) as (k' & E' & Hc); [done|set_solver|done|done| |].
      { intros p' Hin. destruct (Htm p' ltac:(set_solver)) as (t' & q' & [Hp' Hq'] & Hr').
        exists t', q'. split; [|done]. split; [cbn; by rewrite H5|cbn; auto]. }
      exists k'. split; [done|]. apply (checked_expired usec before p t q todo k (set_interrupt_sleep k1 (before ++ todo))); auto.
    + unfold w64. rewrite Z.mod_small by lia.
      rewrite (bind_Ret (modify _) _ k tt _ eq_refl).
      edestruct (IH (before ++ [p])) as (k' & E' & Hc); [done|set_solver|done| | |].
      3:{ exists k'. split; [exact E'|]. by apply (checked_stays usec before p t q todo k). }
      * cbn. by rewrite Hl, <- app_assoc.
      * intros p' Hin. destruct (Htm p' ltac:(set_solver)) as (t' & q' & [Hp' Hq'] & Hr').
        exists t', q'. split; [|done]. split; [cbn; rewrite lookup_insert_ne; [done|intros ->; done]|done].
Qed.

(** a timer check wakes exactly the sleepers whose time has run out: they
    are awake afterwards and off the list, the others stay on it in order with
    the elapsed time taken off, a process none of whose timers ran out is not
    touched, and nobody is put to sleep. *)
Theorem interrupt_time_check_correct usec k :
  0 <= usec -> NULL ∉ interrupt_sleep k -> NoDup (interrupt_sleep k) ->
  (forall p, p ∈ interrupt_sleep k -> exists t q, timer k p t q /\ 0 <= t < 18446744073709551616) ->
  exists k', interrupt_time_check usec k = Ret tt k' /\ checked usec [] (interrupt_sleep k) k k'.
Proof.
  intros Hu Hn Hnd Htm. unfold interrupt_time_check.
  rewrite (bind_Ret (gets interrupt_sleep) _ k _ k eq_refl). by apply time_loop_ok.
Qed.

(** ** The system call table *)

(** the system call table: a free number takes one registration, a second
    one is refused, removing it frees the number again, other numbers are not
    affected; but the number just behind the table passes the range check and
    reaches behind the array, in registration and in dispatch. *)
Theorem syscall_table_correct t c f n :
  length t = Z.to_nat SYSCALL_MAXNUM -> 0 <= c < SYSCALL_MAXNUM -> f <> NULL ->
  syscall_slot t c = Some (Syscall NULL 0) ->
  exists t1 t2, syscall_create c f n t = Ret 0 t1 /\ syscall_slot t1 c = Some (Syscall f n) /\
    (forall g m, syscall_create c g m t1 = Ret (-1) t1) /\
    (forall c', c' <> c -> 0 <= c' -> syscall_slot t1 c' = syscall_slot t c') /\
    syscall_destroy c t1 = Ret tt t2 /\ syscall_slot t2 c = Some (Syscall NULL n) /\
    (forall g m, syscall_create SYSCALL_MAXNUM g m t = Stop OutOfBounds t).
Proof.
  intros Hlen Hc Hf Hs. assert (Hslot : forall t, syscall_slot t c = t !! Z.to_nat c).
  { intros. unfold syscall_slot. destruct (Z.ltb_spec c 0); [lia|done]. }
  assert (Hlt : (Z.to_nat c < length t)%nat) by (rewrite Hlen; lia).
  assert (Hmax : (SYSCALL_MAXNUM <? c) = false) by (apply Z.ltb_ge; lia).
  eexists. eexists. unfold syscall_create at 1. rewrite Hmax, Hs. cbn [sc_func negb]. rewrite Z.eqb_refl.
  split; [reflexivity|]. assert (H1 : syscall_slot (<[Z.to_nat c := Syscall f n]> t) c = Some (Syscall f n)).
  { by rewrite Hslot, list_lookup_insert_eq. }
  split; [done|]. split; [|split; [|split; [|split]]].
  - intros g m. unfold syscall_create. rewrite Hmax, H1. cbn [sc_func]. by rewrite (proj2 (Z.eqb_neq _ _) Hf).
  - intros c' Hne H0. unfold syscall_slot. destruct (Z.ltb_spec c' 0); [done|].
    rewrite list_lookup_insert_ne; [done|lia].
  - unfold syscall_destroy. rewrite (proj2 (Z.ltb_lt _ _)) by lia. rewrite H1. reflexivity.
  - rewrite Hslot, list_lookup_insert_eq; [done|]. by rewrite length_insert.
  - intros g m. unfold syscall_create, syscall_slot. rewrite Z.ltb_irrefl.
    change (SYSCALL_MAXNUM <? 0) with false. cbv iota. by rewrite lookup_ge_None_2 by (rewrite Hlen; lia).
Qed.

(** ** Concrete instances *)

Lemma interrupt_frame_roundtrip_witness : let st := Z.of_nat <$> seq 0 24 in
  interrupt_save_stack (interrupt_write_stack st regs0 (SegRegs 0 0 0 0)) = Some (regs0, 12, SegRegs 0 0 0 0) /\
  interrupt_write_stack (interrupt_write_stack st regs0 (SegRegs 0 0 0 0))
    (Regs 7 4 6 5 1 0 2 16 13 15 14 8 9 10 11 17) (SegRegs 18 19 20 21) = st /\
  drop 22 (interrupt_write_stack st regs0 (SegRegs 0 0 0 0)) = [22; 23].
Proof. intros st. apply (interrupt_frame_roundtrip st). reflexivity. Defined.

(** Process 103 sleeps for 5 ms, process 102 for 50 ms. *)
Definition clock : kernel :=
  set_interrupt_sleep (set_k_sleeps trio {[700 := TimeSleep 0 5000 103; 701 := TimeSleep 0 50000 102]}) [700; 701].

Lemma interrupt_time_check_correct_witness :
  exists k', interrupt_time_check 10000 clock = Ret tt k' /\ checked 10000 [] [700; 701] clock k'.
Proof.
  apply (interrupt_time_check_correct 10000 clock); [lia| | |].
  - cbn. intros H. repeat (apply elem_of_cons in H as [E|H]; [discriminate E|]). apply elem_of_nil in H. destruct H.
  - apply (bool_decide_unpack (NoDup [700; 701])). vm_compute. exact I.
  - intros p H. apply elem_of_cons in H as [->|H]; [exists 5000, 103; repeat split; (reflexivity || lia || (eexists; reflexivity))|].
    apply elem_of_cons in H as [->|H]; [exists 50000, 102; repeat split; (reflexivity || lia || (eexists; reflexivity))|].
    apply elem_of_nil in H. destruct H.
Defined.

Lemma syscall_table_correct_witness :
  exists t1 t2, syscall_create 7 99 2 syscall_init = Ret 0 t1 /\ syscall_slot t1 7 = Some (Syscall 99 2) /\
    (forall g m, syscall_create 7 g m t1 = Ret (-1) t1) /\
    (forall c', c' <> 7 -> 0 <= c' -> syscall_slot t1 c' = syscall_slot syscall_init c') /\
    syscall_destroy 7 t1 = Ret tt t2 /\ syscall_slot t2 7 = Some (Syscall NULL 2) /\
    (forall g m, syscall_create SYSCALL_MAXNUM g m syscall_init = Stop OutOfBounds syscall_init).
Proof.
  apply (syscall_table_correct syscall_init 7 99 2); [reflexivity|unfold SYSCALL_MAXNUM; lia|discriminate|reflexivity].
Defined.

(** Sleeping for 4295 seconds ends after 33 milliseconds. *)
Example time_sleep_wraps k : interrupt_time_sleep 4295 k = interrupt_time_usleep 32704 k.
Proof. reflexivity. Qed.
