(* ===== verification/Boot.v ===== *)
(** * Starting the first programs (main.c, multiboot.c, elf.c)

    The record of the boot loader, the ELF loader, and the loop of [main] that makes a
    process of every module.  Memory is that of Machine, addressed here by bytes.  The
    calls of [main] before the loop only initialise the other components; what [kprintf]
    prints is not modelled. *)

From S2P Require Import Prelude LList Machine Paging Kernel Memory Space Proc Ipc.

(** ** Bytes of the machine *)

Definition byte_of (w : Z) (i : Z) : Z := w / 256 ^ i mod 256.

Definition with_byte (w i c : Z) : Z := w + (c - byte_of w i) * 256 ^ i.

Definition load8 (a : Z) : cmd mach Z := w ← vload (a - a mod 4); mret (byte_of w (a mod 4)).

Definition store8 (a c : Z) : cmd mach unit := w ← vload (a - a mod 4); vstore (a - a mod 4) (with_byte w (a mod 4) c).

Definition load16 (a : Z) : cmd mach Z := x ← load8 a; y ← load8 (a + 1); mret (x + 256 * y).

Definition load32 (a : Z) : cmd mach Z := x ← load16 a; y ← load16 (a + 2); mret (x + 65536 * y).

(** [memset] with zero. *)
Definition clear_bytes (a n : Z) : cmd mach unit := for_from (Z.to_nat n) 0 (fun i => store8 (a + i) 0).

(** The string at [a]. *)
Fixpoint load_string (fuel : nat) (a : Z) : cmd mach (list Z) :=
  match fuel with
  | O => stop_with Hang
  | S fuel => c ← load8 a; if c =? 0 then mret [] else r ← load_string fuel (w32 (a + 1)); mret (c :: r)
  end.

(** ** The record of the boot loader (multiboot.h, multiboot.c); [mbi] is
    [multiboot_info], which [multiboot_init] sets *)

Definition MULTIBOOT_MAGIC : Z := 732803074.
Definition MULTIBOOT_FREE : Z := 1.

Section multiboot.
Variable mbi : Z.

Definition multiboot_get_memlower : cmd mach Z := x ← load32 (mbi + 4); mret (w32 (x * KBYTES)).
Definition multiboot_get_memupper : cmd mach Z := x ← load32 (mbi + 8); mret (w32 (x * KBYTES)).
Definition multiboot_get_bootdev : cmd mach Z := x ← load32 (mbi + 12); mret (s32 x).
Definition multiboot_get_cmdline : cmd mach Z := load32 (mbi + 16).
Definition multiboot_get_bootloader : cmd mach Z := load32 (mbi + 64).

(** Start, name and size of a module; [None] is NULL, behind the last one. *)
Definition multiboot_get_mod (i : Z) : cmd mach (option (Z * Z * Z)) :=
  count ← load32 (mbi + 20);
  if count <=? i then mret None
  else
    mods ← load32 (mbi + 24);
    let mod_ := w32 (mods + 16 * i) in
    start ← load32 mod_; end_ ← load32 (mod_ + 4); name ← load32 (mod_ + 8);
    mret (Some (start, name, w32 (end_ - start))).

(** Base, length and type of an entry; the upper halves are cut off. *)
Fixpoint mmap_loop (fuel : nat) (end_ mmap i item : Z) : cmd mach (option (Z * Z * Z)) :=
  if mmap <? end_ then
    match fuel with
    | O => stop_with Hang
    | S fuel =>
        if i =? item then
          b ← load32 (mmap + 4); l ← load32 (mmap + 12); t ← load32 (mmap + 20); mret (Some (b, l, t))
        else size ← load32 mmap; mmap_loop fuel end_ (w32 (mmap + size + 4)) (i + 1) item
    end
  else mret None.

Definition multiboot_get_mmap (item : Z) : cmd mach (option (Z * Z * Z)) :=
  flags ← load32 mbi;
  if negb (Z.testbit flags 6) then mret None
  else
    len ← load32 (mbi + 44); addr ← load32 (mbi + 48);
    mmap_loop (Z.to_nat len) (w32 (addr + len)) addr 0 item.
End multiboot.

(** ** ELF files (elf.h, elf.c) *)

Definition EM_386 : Z := 3.
Definition PT_LOAD : Z := 1.
Definition PF_W : Z := 2.

Definition elf_validate (header : Z) : cmd mach Z :=
  m0 ← load8 header; m1 ← load8 (header + 1); m2 ← load8 (header + 2); m3 ← load8 (header + 3);
  if negb (m0 =? 127) || negb (m1 =? 69) || negb (m2 =? 76) || negb (m3 =? 70) then mret (-1)
  else
    machine ← load16 (header + 18);
    if negb (machine =? EM_386) then mret (-1)
    else
      class ← load8 (header + 4);
      if negb (class =? 1) then mret (-1)
      else
        data ← load8 (header + 5);
        if negb (data =? 1) then mret (-1)
        else
          v ← load8 (header + 6); version ← load32 (header + 20);
          if negb (v =? version) then mret (-1) else mret 0.

Section elf.
Context `{Malloc}.

(** The loop of [elf_loadseg]. *)
Fixpoint seg_loop (fuel : nat) (memaddr memsize fileaddr filesize addrspace : Z) (writable : bool) (i : Z)
    : cmd kernel Z :=
  if i <? memsize then
    match fuel with
    | O => stop_with Hang
    | S fuel =>
        phys ← (if i <? filesize then on_mach (paging_getphysaddr (w32 (fileaddr + i))) else mret NULL);
        r ← memuser_alloc_at addrspace (w32 (memaddr + i)) phys writable;
        if r =? -1 then mret (-1)
        else seg_loop fuel memaddr memsize fileaddr filesize addrspace writable (w32 (i + PAGE_SIZE))
    end
  else mret 0.

Definition elf_loadseg (memaddr memsize fileaddr filesize addrspace : Z) (writable : bool) : cmd kernel Z :=
  if memaddr <? USERDATA_ADDRESS then mret (-1)
  else
    r ← memuser_load_addrspace addrspace;
    if r =? -1 then mret (-1)
    else
      r ← seg_loop (Z.to_nat (memsize / PAGE_SIZE + 1)) memaddr memsize fileaddr filesize addrspace writable 0;
      if r =? -1 then mret (-1)
      else
        (if filesize <? memsize
         then on_mach (clear_bytes (w32 (memaddr + filesize)) (memsize - filesize)) else mret tt);;
        mret 0.

(** The program headers from the [i]-th on, which is at [ph]; [false] if a segment cannot be
    loaded.  The number of headers, 16 bits, is read in each round. *)
Fixpoint phdr_loop (fuel : nat) (addrspace file ph i : Z) : cmd kernel bool :=
  match fuel with
  | O => stop_with Hang
  | S fuel =>
      phnum ← on_mach (load16 (file + 44));
      if i <? phnum then
        type ← on_mach (load32 ph);
        ok ← (if type =? PT_LOAD then
                offset ← on_mach (load32 (ph + 4)); vaddr ← on_mach (load32 (ph + 8));
                filesz ← on_mach (load32 (ph + 16)); memsz ← on_mach (load32 (ph + 20));
                flags ← on_mach (load32 (ph + 24));
                r ← elf_loadseg vaddr memsz (w32 (file + offset)) filesz addrspace (Z.land flags PF_W =? PF_W);
                mret (negb (r =? -1))
              else mret true);
        if ok : bool then phdr_loop fuel addrspace file (w32 (ph + 32)) (i + 1) else mret false
      else mret true
  end.

Definition elf_load (addrspace file filesize : Z) : cmd kernel Z :=
  r ← on_mach (elf_validate file);
  if r =? -1 then mret NULL
  else
    entry ← on_mach (load32 (file + 24)); phoff ← on_mach (load32 (file + 28));
    ok ← phdr_loop (Z.to_nat 65536) addrspace file (w32 (file + phoff)) 0;
    mret (if ok : bool then entry else NULL).

(** ** The first programs (main.c) *)

Fixpoint base_loop (base path : list Z) : list Z :=
  match path with
  | [] => base
  | c :: rest => base_loop (if c =? 47 then path else base) rest
  end.

(** What follows the last slash; without one, what follows the first character. *)
Definition basename (path : list Z) : list Z :=
  match base_loop path path with [] => [] | _ :: r => r end.

(** The loop over the modules; [junk] is what the memory of a new process holds. *)
Fixpoint load_loop (fuel : nat) (junk : proc_t) (mbi i proc_init : Z) : cmd kernel unit :=
  match fuel with
  | O => stop_with Hang
  | S fuel =>
      m ← on_mach (multiboot_get_mod mbi i);
      match m with
      | None => mret tt
      | Some (addr, file, size) =>
          if addr =? NULL then mret tt
          else
            name ← on_mach (load_string (Z.to_nat 65536) file);
            if KERNELCODE_ADDRESS + KERNELCODE_SIZE <? w32 (addr + size) then stop_with Panic
            else
              new ← proc_create junk (basename name) PERM_ROOTUID PERM_ROOTGID (if i =? 0 then NULL else proc_init)
                (i =? 0) (Z.b2z (i =? 0));
              (if negb (new =? NULL) then
                 x ← proc_at new;
                 entry ← elf_load (addrspace x) addr size;
                 if negb (entry =? NULL) then
                   upd_proc new (fun x => set_registers x (set_eip (registers x) entry));;
                   esp ← memuser_create_stack (addrspace x);
                   upd_proc new (fun x => set_registers x (set_esp (registers x) esp))
                 else proc_destroy new;; mret tt
               else mret tt);;
              load_loop fuel junk mbi (i + 1) (if i =? 0 then new else proc_init)
      end
  end.

(** [main] after the initialisation of the other components. *)
Definition start_programs (fuel : nat) (junk : proc_t) (magic mbi proc_init : Z) : cmd kernel unit :=
  if negb (magic =? MULTIBOOT_MAGIC) then stop_with Panic
  else load_loop fuel junk mbi 0 proc_init;; proc_idle.
End elf.

(** ** Bytes and words *)

#[local] Abbreviation tr m v := (translate (phys m) (paging_curpd m) v).
#[local] Abbreviation frame p := (p / 4096 * 4096).

Lemma byte_range w i : 0 <= byte_of w i < 256.
Proof. apply Z.mod_pos_bound. lia. Qed.

Lemma with_byte_same w i c : 0 <= i -> 0 <= c < 256 -> byte_of (with_byte w i c) i = c.
Proof.
  intros Hi Hc. unfold with_byte, byte_of. assert (0 < 256 ^ i) by (apply Z.pow_pos_nonneg; lia).
  rewrite Z.div_add by lia. set (x := w / 256 ^ i). pose proof (Z.div_mod x 256 ltac:(lia)).
  symmetry. apply (Z.mod_unique _ _ (x / 256)); lia.
Qed.

Lemma with_byte_other w i j c : 0 <= i -> 0 <= j -> i <> j -> 0 <= c < 256 -> byte_of (with_byte w i c) j = byte_of w j.
Proof.
  intros Hi Hj Hne Hc. unfold with_byte, byte_of. pose proof (byte_range w i) as Hb. fold (byte_of w i).
  assert (Hpi : 0 < 256 ^ i) by (apply Z.pow_pos_nonneg; lia). assert (Hpj : 0 < 256 ^ j) by (apply Z.pow_pos_nonneg; lia).
  destruct (Z.lt_ge_cases j i).
  - assert (Ep : 256 ^ i = 256 ^ (i - j - 1) * 256 * 256 ^ j).
    { rewrite <- (Z.pow_1_r 256) at 3. rewrite <- !Z.pow_add_r by lia. f_equal. lia. }
    rewrite Ep. rewrite !Z.mul_assoc, Z.div_add, Z.mod_add by lia. done.
  - f_equal. assert (Ej : 256 ^ j = 256 ^ i * 256 * 256 ^ (j - i - 1)).
    { rewrite <- (Z.pow_1_r 256) at 3. rewrite <- !Z.pow_add_r by lia. f_equal. lia. }
    assert (0 < 256 ^ (j - i - 1)) by (apply Z.pow_pos_nonneg; lia).
    rewrite Ej. rewrite <- !(Z.div_div _ (256 ^ i * 256)), <- !(Z.div_div _ (256 ^ i)) by lia. f_equal.
    rewrite Z.div_add by lia. unfold byte_of in *. set (x := w / 256 ^ i) in *.
    pose proof (Z.div_mod x 256 ltac:(lia)). symmetry. apply (Z.div_unique _ _ _ c); lia.
Qed.

(** The byte at a virtual address. *)
Definition word_of (a : Z) : Z := a - a mod 4.

Definition vbyte (m : mach) (a : Z) : option Z :=
  p ← tr m (word_of a); Some (byte_of (rd (phys m) p) (a mod 4)).

Lemma load8_ok m a b : paging_enabled m = true -> vbyte m a = Some b -> load8 a m = Ret b m.
Proof.
  intros He Hb. unfold vbyte, word_of in Hb. destruct (tr m _) as [p|] eqn:E; [|done]. simpl in Hb. simplify_eq.
  unfold load8. rewrite (bind_Ret _ _ m (rd (phys m) p) m); [done|]. unfold vload, resolve. by rewrite He, E.
Qed.

Lemma store8_ok m fl a c p : layout m fl -> buffer_ok m -> tr m (word_of a) = Some p -> data m fl p ->
  let m' := set_phys m (<[p := with_byte (rd (phys m) p) (a mod 4) c]> (phys m)) in
  store8 a c m = Ret tt m' /\ evolves nothing (eq p) m fl m' fl /\
  rd (phys m') p = with_byte (rd (phys m) p) (a mod 4) c /\ forall x, below_tables x -> tr m' x = tr m x.
Proof.
  intros Hl Hb Ht Hd m'. destruct (write_data m fl (word_of a) p (with_byte (rd (phys m) p) (a mod 4) c) Hl Hb Ht Hd)
    as (E & Hev & Hrd & Hpt). split; [|split_and!; [done|done|intros x Hx; by apply hw_tr, Hpt]]. unfold store8. fold (word_of a). rewrite (bind_Ret _ _ m (rd (phys m) p) m); [exact E|].
  unfold vload, resolve. by rewrite (proj1 (lo_self _ _ Hl)), Ht.
Qed.

(** Clearing bytes: those behind the cleared addresses are zero, all others stay. *)
Lemma clear_bytes_ok n a i m fl : layout m fl -> buffer_ok m -> 0 <= i ->
  (forall j, i <= j < i + Z.of_nat n -> below_tables (word_of (a + j)) /\
     exists p, tr m (word_of (a + j)) = Some p /\ data m fl p) ->
  exists m', for_from n i (fun j => store8 (a + j) 0) m = Ret tt m' /\
    evolves nothing (fun p => exists j, i <= j < i + Z.of_nat n /\ tr m (word_of (a + j)) = Some p) m fl m' fl /\
    (forall x, below_tables x -> tr m' x = tr m x) /\
    (forall j p, i <= j < i + Z.of_nat n -> tr m (word_of (a + j)) = Some p -> byte_of (rd (phys m') p) ((a + j) mod 4) = 0) /\
    (forall p b, data m fl p -> 0 <= b ->
       (forall j, i <= j < i + Z.of_nat n -> tr m (word_of (a + j)) = Some p -> (a + j) mod 4 <> b) ->
       byte_of (rd (phys m') p) b = byte_of (rd (phys m) p) b) /\
    (forall p b, data m fl p -> 0 <= b -> byte_of (rd (phys m) p) b = 0 -> byte_of (rd (phys m') p) b = 0).
Proof.
  revert m i. induction n as [|n IH]; intros m i Hl Hb Hi Hr.
  { exists m. split; [done|]. split; [by apply evolves_refl|]. split_and!; try done. intros j p Hj. lia. }
  destruct (Hr i ltac:(lia)) as (Hbl & p & Ht & Hd). pose proof (Z.mod_pos_bound (a + i) 4 ltac:(lia)) as Hm4.
  destruct (store8_ok m fl (a + i) 0 p Hl Hb Ht Hd) as (E & Hev & Hw & Htr). set (m1 := set_phys m _) in *.
  pose proof Hev as [Hl1 Hb1 _ _ _ _ Hd1].
  destruct (IH m1 (i + 1) Hl1 Hb1 ltac:(lia)) as (m' & E' & Hev' & Htr' & Hz' & Hk' & Hs').
  { intros j Hj. destruct (Hr j ltac:(lia)) as (Hbj & q & Hq & Hdq). split; [done|]. exists q. rewrite Htr by done.
    split; [done|]. by apply Hd1. }
  assert (Hb1' : forall q b, 0 <= b -> ~ (q = p /\ b = (a + i) mod 4) -> byte_of (rd (phys m1) q) b = byte_of (rd (phys m) q) b).
  { intros q b Hbb Hne. destruct (decide (q = p)) as [->|Hqp].
    - rewrite Hw. apply with_byte_other; [lia|done| |lia]. intros <-. by apply Hne.
    - unfold m1. cbn [phys set_phys]. by rewrite rd_insert, decide_False. }
  exists m'. split_and!.
  - cbn [for_from]. by rewrite (bind_Ret _ _ _ _ _ E).
  - apply evolves_trans with m1 fl.
    + apply (evolves_weaken nothing (eq p)); [done| |done]. intros x <-. exists i. split; [lia|done].
    + eapply evolves_weaken; [done| |exact Hev']. intros x (j & Hj & Hx). exists j. split; [lia|].
      destruct (Hr j ltac:(lia)) as (Hbj & _). by rewrite <- (Htr _ Hbj).
  - intros x Hx. by rewrite Htr', Htr.
  - intros j q Hj Hq. destruct (Hr j ltac:(lia)) as (Hbj & _).
    destruct (decide (j = i)) as [->|].
    + rewrite Ht in Hq. simplify_eq. apply Hs'; [by apply Hd1|lia|]. rewrite Hw. apply with_byte_same; lia.
    + apply Hz'; [lia|]. by rewrite Htr.
  - intros q b Hdq Hbb Hno. rewrite Hk'; [|by apply Hd1|done|].
    + apply Hb1'; [done|]. intros [-> ->]. by apply (Hno i ltac:(lia) Ht).
    + intros j Hj Hq. destruct (Hr j ltac:(lia)) as (Hbj & _). apply Hno; [lia|]. by rewrite <- Htr.
  - intros q b Hdq Hbb Hz. apply Hs'; [by apply Hd1|done|].
    destruct (decide (q = p /\ b = (a + i) mod 4)) as [[-> ->]|Hne].
    + rewrite Hw. apply with_byte_same; lia.
    + by rewrite Hb1'.
Qed.

(** ** Loading a segment *)

(** A segment of whole pages: user addresses, filled from kernel addresses. *)
Record segment_ok (va memsz fa filesz : Z) : Prop := {
  sg_va : va mod 4096 = 0;
  sg_fa : fa mod 4096 = 0;
  sg_user : USERDATA_ADDRESS <= va;
  sg_end : va + memsz <= BUFPAGE_ADDRESS;
  sg_kernel : 0 <= fa /\ fa + filesz <= USERDATA_ADDRESS;
  sg_size : 0 <= filesz <= memsz;
}.

(** The pages of the file are in memory, each in a frame of its own that is neither free
    nor used by the machine. *)
Record file_ok (m : mach) (fl : list Z) (fa filesz : Z) : Prop := {
  fo_page : forall t, 0 <= t -> 4096 * t < filesz -> pte_exists (hw_pte m (fa + 4096 * t)) = true /\
    exists q, tr m (fa + 4096 * t) = Some q /\ q <> NULL /\ addr32 q /\ data m fl q;
  fo_distinct : forall t u q, 0 <= t -> 4096 * t < filesz -> 0 <= u -> 4096 * u < filesz ->
    tr m (fa + 4096 * t) = Some q -> tr m (fa + 4096 * u) = Some q -> t = u;
}.

(** The file stays where it is while other pages are mapped. *)
Lemma file_ok_evolves P Q m fl m' fl' fa filesz :
  file_ok m fl fa filesz -> evolves P Q m fl m' fl' ->
  (forall t, 0 <= t -> 4096 * t < filesz -> below_tables (fa + 4096 * t) /\ ~ P ((fa + 4096 * t) / 4096) /\
     (fa + 4096 * t) / 4096 <> BUFPAGE_ADDRESS / 4096) ->
  file_ok m' fl' fa filesz.
Proof.
  intros [Hp Hd] Hev Hk.
  assert (Hsame : forall t, 0 <= t -> 4096 * t < filesz -> hw_pte m' (fa + 4096 * t) = hw_pte m (fa + 4096 * t)).
  { intros t Ht Hlt. destruct (Hk t Ht Hlt) as (H1 & H2 & H3). by apply (ev_pte _ _ _ _ _ _ Hev). }
  split.
  - intros t Ht Hlt. destruct (Hp t Ht Hlt) as (Hx & q & Hq & Hn & Ha & Hdq). rewrite Hsame by done. split; [done|].
    exists q. rewrite (hw_tr m m') by (by apply Hsame). split_and!; try done. by apply (ev_data _ _ _ _ _ _ Hev).
  - intros t u q Ht1 Ht2 Hu1 Hu2. rewrite !(hw_tr m m') by (by apply Hsame). by apply Hd.
Qed.

Section segment.
Context `{Malloc} {va memsz fa filesz : Z}.
Hypothesis Hseg : segment_ok va memsz fa filesz.

Definition in_segment (pg : Z) : Prop := va / 4096 <= pg < (va + memsz + 4095) / 4096.

Lemma file_page_kernel t : 0 <= t -> 4096 * t < filesz ->
  below_tables (fa + 4096 * t) /\ ~ in_segment ((fa + 4096 * t) / 4096) /\
  (fa + 4096 * t) / 4096 <> BUFPAGE_ADDRESS / 4096.
Proof.
  intros Ht Hlt. destruct Hseg as [H1 H2 H3 H4 H5 H6]. change (BUFPAGE_ADDRESS / 4096) with 1047551.
  unfold below_tables, in_segment, USERDATA_ADDRESS, PAGETABLES_ADDRESS in *.
  pose proof (Z.div_lt_upper_bound (fa + 4096 * t) 4096 262144 ltac:(lia) ltac:(lia)).
  pose proof (Z.div_le_lower_bound va 4096 262144 ltac:(lia) ltac:(lia)). lia.
Qed.

(** [n] pages of the segment are there, in the frames [qs]. *)
Record loaded_pages (m0 : mach) (fl0 : list Z) (m : mach) (fl : list Z) (qs : list Z) : Prop := {
  lp_page : forall t q, qs !! t = Some q -> maps_page m (va + 4096 * Z.of_nat t) q /\ data m fl q /\ frame q = q /\
    if 4096 * Z.of_nat t <? filesz then tr m0 (fa + 4096 * Z.of_nat t) = Some q else q ∈ fl0;
  lp_nodup : NoDup qs;
}.

(** The frame of the file that goes behind the next page, if there is one. *)
Lemma file_frame k fl i : layout (k_mach k) fl -> file_ok (k_mach k) fl fa filesz -> 0 <= i -> i mod 4096 = 0 ->
  exists p, (if i <? filesz then on_mach (paging_getphysaddr (w32 (fa + i))) else mret NULL) k = Ret p k /\
    (p <> NULL -> addr32 p /\ data (k_mach k) fl p) /\
    (if i <? filesz then p <> NULL /\ tr (k_mach k) (fa + i) = Some p /\ frame p = p else p = NULL).
Proof.
  intros Hl [Hp _] Hi Hm. destruct (Z.ltb_spec i filesz) as [Hlt|]; [|by exists NULL].
  pose proof (Z.div_mod i 4096 ltac:(lia)) as Ei. rewrite Hm, Z.add_0_r in Ei.
  destruct (Hp (i / 4096)) as (Hx & p & Ht & Hn & Ha & Hd); [apply Z.div_pos; lia|lia|]. rewrite <- Ei in *.
  destruct Hseg as [_ Hfa _ _ Hk _]. unfold USERDATA_ADDRESS in Hk.
  assert (H32 : addr32 (fa + i)) by (unfold addr32; lia).
  assert (Hmod : (fa + i) mod 4096 = 0) by (rewrite Z.add_mod, Hfa, Hm by lia; done).
  pose proof Ht as Ht'. rewrite translate_hw in Ht'. destruct (in_memory (hw_pte _ _)); [|done].
  rewrite Hmod, Z.add_0_r in Ht'. injection Ht' as Ep. rewrite (w32_small (fa + i)) by done.
  exists p. split; [|split; [by intros _|split; [done|split; [done|rewrite <- Ep; by rewrite Z.div_mul by lia]]]].
  rewrite (on_mach_Ret _ _ _ _ (getphysaddr_ok (k_mach k) (fa + i) (lo_self _ _ Hl) H32 Hx ltac:(unfold addr32 in *; lia))).
  rewrite Ht. by destruct k.
Qed.

Lemma segment_page t : 0 <= t -> 4096 * t < memsz ->
  let v := va + 4096 * t in
  w32 v = v /\ below_tables v /\ USERDATA_ADDRESS <= v /\ v / 4096 = va / 4096 + t /\ in_segment (v / 4096) /\
  v / 4096 <> BUFPAGE_ADDRESS / 4096.
Proof.
  intros Ht Hlt v. destruct Hseg as [H1 _ H3 H4 _ _]. unfold in_segment.
  assert (Ev : v / 4096 = va / 4096 + t) by (unfold v; rewrite Z.mul_comm, Z.div_add by lia; done).
  change (BUFPAGE_ADDRESS / 4096) with 1047551.
  unfold below_tables, USERDATA_ADDRESS, PAGETABLES_ADDRESS, BUFPAGE_ADDRESS in *.
  assert (v / 4096 < 1047551) by (apply Z.div_lt_upper_bound; lia).
  assert (v / 4096 < (va + memsz + 4095) / 4096).
  { apply Z.lt_le_trans with (v / 4096 + 1); [lia|]. apply Z.div_le_lower_bound; [lia|].
    pose proof (Z.div_mod va 4096 ltac:(lia)). lia. }
  rewrite w32_small by lia. split_and!; lia.
Qed.

Lemma maps_page_evolves P Q m fl m' fl' v q : maps_page m v q -> evolves P Q m fl m' fl' -> below_tables v ->
  ~ P (v / 4096) -> v / 4096 <> BUFPAGE_ADDRESS / 4096 -> maps_page m' v q.
Proof.
  intros Hm Hev Hv HP Hn x Hx. rewrite <- (Hm x Hx). rewrite <- Hx in HP, Hn. apply (ev_tr _ _ _ _ _ _ _ Hev); try done.
  unfold below_tables, PAGETABLES_ADDRESS in *. pose proof (Z.div_mod x 4096 ltac:(lia)).
  pose proof (Z.mod_pos_bound x 4096 ltac:(lia)). pose proof (Z.div_pos v 4096 ltac:(lia) ltac:(lia)).
  pose proof (Z.div_lt_upper_bound v 4096 1047552 ltac:(lia) ltac:(lia)). lia.
Qed.

Lemma data_free m fl p : data m fl p -> frame p ∉ fl. Proof. by intros (_ & ? & _). Qed.

(** One page more. *)
Lemma seg_step k a sp w m0 fl0 f g fl qs :
  k_spaces k !! sp = Some a -> pagedir a = paging_curpd (k_mach k) -> file_ok m0 fl0 fa filesz ->
  evolves in_segment nothing m0 fl0 (k_mach k) (f :: g :: fl) -> loaded_pages m0 fl0 (k_mach k) (f :: g :: fl) qs ->
  let i := 4096 * Z.of_nat (length qs) in i < memsz ->
  exists m' fl' q p,
    (if i <? filesz then on_mach (paging_getphysaddr (w32 (fa + i))) else mret NULL) k = Ret p k /\
    memuser_alloc_at sp (w32 (va + i)) p w k =
      Ret 0 (set_k_spaces (set_k_mach k m') (<[sp := set_pages_loaded a (va + i :: pages_loaded a)]> (k_spaces k))) /\
    evolves in_segment nothing m0 fl0 m' fl' /\ (length fl <= length fl')%nat /\ loaded_pages m0 fl0 m' fl' (qs ++ [q]).
Proof.
  intros Ha Hpd Hf0 Hev [Hqs Hnd] i Hi. pose proof (ev_layout _ _ _ _ _ _ Hev) as Hl.
  pose proof (file_ok_evolves _ _ _ _ _ _ _ _ Hf0 Hev (fun t H1 H2 => file_page_kernel t H1 H2)) as Hf.
  destruct (file_frame k (f :: g :: fl) i Hl Hf ltac:(lia) ltac:(unfold i; rewrite Z.mul_comm; apply Z.mod_mul; lia))
    as (p & Ep & Hp & Hpf).
  destruct (segment_page (Z.of_nat (length qs)) ltac:(lia) Hi) as (Hw & Hv & Hu & Hpg & Hin & Hnb). fold i in Hw, Hv, Hu, Hpg, Hin, Hnb.
  destruct (alloc_at_ok k sp a (va + i) p w f g fl Ha Hpd Hl (ev_buffer _ _ _ _ _ _ Hev) Hv Hu Hnb Hp)
    as (m' & fl' & q & E & Hev' & Hlen & Hmap & Hdq & _ & Hfq & Hq).
  exists m', fl', q, p. rewrite Hw. split_and!; try done.
  { apply evolves_trans with (k_mach k) (f :: g :: fl); [done|]. by apply (evolves_weaken (eq ((va + i) / 4096)) nothing); [intros x <-| |]. }
  split.
  - intros t r. rewrite lookup_app. destruct (qs !! t) as [r'|] eqn:Et.
    + intros [= <-]. destruct (Hqs t r' Et) as (H1 & H2 & H3 & H4). pose proof (lookup_lt_Some _ _ _ Et) as Hlt.
      split_and!; [|by apply (ev_data _ _ _ _ _ _ Hev')|done|done].
      destruct (segment_page (Z.of_nat t) ltac:(lia) ltac:(lia)) as (_ & Hvt & _ & Hpt & _ & Hnt).
      apply (maps_page_evolves _ _ _ _ _ _ _ _ H1 Hev'); try done. rewrite Hpt, Hpg. lia.
    + intros Hr. apply lookup_ge_None in Et. destruct (t - length qs)%nat as [|n] eqn:En; [|by destruct n].
      simpl in Hr. injection Hr as <-. replace t with (length qs) by lia. fold i. split_and!; try done.
      destruct (Z.ltb_spec i filesz) as [Hlt|Hge].
      2:{ subst p. destruct (ev_suffix _ _ _ _ _ _ Hev) as [l0 ->]. apply elem_of_app. by right. }
      destruct Hpf as (Hn & Ht & Hfp). rewrite (proj2 (Z.eqb_neq _ _) Hn), Hfp in Hq. subst q.
      destruct (file_page_kernel (Z.of_nat (length qs)) ltac:(lia) Hlt) as (B1 & B2 & B3). fold i in B1, B2, B3.
      by rewrite <- (ev_tr _ _ _ _ _ _ _ Hev B1 B2 B3).
  - apply NoDup_app. split; [done|]. split; [|apply NoDup_singleton]. intros r Hr%list_elem_of_lookup_1 Hrq%list_elem_of_singleton.
    subst r. destruct Hr as [t Ht]. destruct (Hqs t q Ht) as (H1 & H2 & H3 & H4). pose proof (lookup_lt_Some _ _ _ Ht) as Hlt.
    destruct (Z.ltb_spec i filesz) as [Hif|Hif].
    + destruct Hpf as (Hn & Htp & Hfp). rewrite (proj2 (Z.eqb_neq _ _) Hn), Hfp in Hq. subst q.
      destruct (file_page_kernel (Z.of_nat (length qs)) ltac:(lia) Hif) as (B1 & B2 & B3). fold i in B1, B2, B3.
      rewrite (ev_tr _ _ _ _ _ _ _ Hev B1 B2 B3) in Htp.
      assert (Z.of_nat t = Z.of_nat (length qs)); [|lia]. rewrite (proj2 (Z.ltb_lt _ _)) in H4 by lia.
      apply (fo_distinct _ _ _ _ Hf0 _ _ p); try lia; done.
    + subst p. simpl in Hq. apply data_free in H2. rewrite H3 in H2. done.
Qed.

Lemma seg_loop_ok fuel k a sp w m0 fl0 fl qs :
  k_spaces k !! sp = Some a -> pagedir a = paging_curpd (k_mach k) -> file_ok m0 fl0 fa filesz ->
  evolves in_segment nothing m0 fl0 (k_mach k) fl -> loaded_pages m0 fl0 (k_mach k) fl qs ->
  4096 * Z.of_nat (length qs) < memsz + 4096 ->
  (2 * Z.to_nat ((memsz + 4095) / 4096 - Z.of_nat (length qs)) <= length fl)%nat ->
  (Z.to_nat ((memsz + 4095) / 4096 - Z.of_nat (length qs)) <= fuel)%nat ->
  exists m' fl' qs' a', seg_loop fuel va memsz fa filesz sp w (4096 * Z.of_nat (length qs)) k =
      Ret 0 (set_k_spaces (set_k_mach k m') (<[sp := a']> (k_spaces k))) /\ pagedir a' = pagedir a /\
    evolves in_segment nothing m0 fl0 m' fl' /\ loaded_pages m0 fl0 m' fl' qs' /\
    memsz <= 4096 * Z.of_nat (length qs') < memsz + 4096 /\
    (length fl <= length fl' + 2 * Z.to_nat ((memsz + 4095) / 4096 - Z.of_nat (length qs)))%nat.
Proof.
  intros Ha Hpd Hf0 Hev Hqs Hle Hfl Hfuel. revert k a fl qs Ha Hpd Hev Hqs Hle Hfl Hfuel.
  assert (Hpages : forall n, n * 4096 < memsz -> n < (memsz + 4095) / 4096).
  { intros n Hn. apply Z.lt_le_trans with (n + 1); [lia|]. apply Z.div_le_lower_bound; lia. }
  assert (Hsz : 0 <= memsz < 4294967296 - 4096).
  { destruct Hseg as [_ _ H3 H4 _ H6]. unfold USERDATA_ADDRESS, BUFPAGE_ADDRESS in *. lia. }
  induction fuel as [|fuel IH]; intros k a fl qs Ha Hpd Hev Hqs Hle Hfl Hfuel; cbn [seg_loop];
    (destruct (Z.ltb_spec (4096 * Z.of_nat (length qs)) memsz) as [Hi|Hi];
     [specialize (Hpages (Z.of_nat (length qs)) ltac:(lia))|exists (k_mach k), fl, qs, a; split_and!; try done; [rewrite insert_id by done; by destruct k|lia]]).
  - lia.
  - destruct fl as [|f [|g fl]]; [simpl in Hfl; lia..|].
    destruct (seg_step k a sp w m0 fl0 f g fl qs Ha Hpd Hf0 Hev Hqs Hi) as (m1 & fl1 & q & p & E1 & E2 & Hev1 & Hl1 & Hqs1).
    rewrite (bind_Ret _ _ _ _ _ E1), (bind_Ret _ _ _ _ _ E2). set (k1 := set_k_spaces _ _).
    change (0 =? -1) with false. cbv iota. rewrite w32_small by lia.
    replace (4096 * Z.of_nat (length qs) + PAGE_SIZE) with (4096 * Z.of_nat (length (qs ++ [q])))
      by (rewrite length_app; cbn [length]; lia).
    destruct (IH k1 (set_pages_loaded a (va + 4096 * Z.of_nat (length qs) :: pages_loaded a)) fl1 (qs ++ [q]))
      as (m2 & fl2 & qs2 & a2 & E3 & Hpd2 & Hev2 & Hqs2 & Hlen2 & Hcnt2); try done.
    + apply lookup_insert_eq.
    + cbn. rewrite Hpd. by rewrite (ev_pd _ _ _ _ _ _ Hev1), (ev_pd _ _ _ _ _ _ Hev).
    + rewrite length_app. simpl length. lia.
    + rewrite length_app. cbn [length] in *. lia.
    + rewrite length_app. simpl length. lia.
    + exists m2, fl2, qs2, a2. split; [rewrite E3; unfold k1; cbn; by rewrite insert_insert_eq|]. split_and!; try done; [lia..|].
      rewrite length_app in Hcnt2. cbn [length] in *. lia.
Qed.

(** Where a byte of a page-aligned range lies. *)
Lemma word_split b j : b mod 4096 = 0 -> 0 <= j ->
  word_of (b + j) = b + 4096 * (j / 4096) + word_of (j mod 4096) /\ (b + j) mod 4 = j mod 4 /\
  0 <= word_of (j mod 4096) < 4096 /\ word_of (j mod 4096) + j mod 4 = j mod 4096.
Proof.
  intros Hb Hj. unfold word_of. pose proof (Z.div_mod j 4096 ltac:(lia)). pose proof (Z.mod_pos_bound j 4096 ltac:(lia)).
  assert (E1 : (j mod 4096) mod 4 = j mod 4).
  { rewrite <- (Znumtheory.Zmod_div_mod 4 4096 j); [done|lia|lia|]. by exists 1024. }
  assert (E2 : (b + j) mod 4 = j mod 4).
  { rewrite Z.add_mod by lia. replace (b mod 4) with 0; [by rewrite Z.add_0_l, Z.mod_mod by lia|].
    symmetry. apply Z.mod_divide; [lia|]. apply Z.mod_divide in Hb as [c Hb]; [|lia]. exists (c * 1024). lia. }
  pose proof (Z.mod_pos_bound j 4 ltac:(lia)). rewrite E1, E2. pose proof (Z.mod_le (j mod 4096) 4 ltac:(lia) ltac:(lia)). lia.
Qed.

(** The bytes of the loaded pages. *)
Lemma loaded_byte m0 fl0 m fl qs j : loaded_pages m0 fl0 m fl qs -> 0 <= j < memsz -> memsz <= 4096 * Z.of_nat (length qs) ->
  exists q, qs !! Z.to_nat (j / 4096) = Some q /\ below_tables (word_of (va + j)) /\
    tr m (word_of (va + j)) = Some (q + word_of (j mod 4096)) /\ data m fl (q + word_of (j mod 4096)) /\
    (q + word_of (j mod 4096)) / 4096 = q / 4096 /\ frame q = q /\
    if 4096 * (j / 4096) <? filesz then tr m0 (fa + 4096 * (j / 4096)) = Some q else q ∈ fl0.
Proof.
  intros [Hqs _] Hj Hlen. destruct Hseg as [Hva _ _ _ _ _]. destruct (word_split va j Hva ltac:(lia)) as (Ew & Em & Hr & _).
  pose proof (Z.div_pos j 4096 ltac:(lia) ltac:(lia)) as Hd. pose proof (Z.div_mod j 4096 ltac:(lia)) as Ej.
  pose proof (Z.mod_pos_bound j 4096 ltac:(lia)) as Hmj.
  assert (Hlt : (Z.to_nat (j / 4096) < length qs)%nat).
  { apply Nat2Z.inj_lt. rewrite Z2Nat.id by lia. apply Z.div_lt_upper_bound; lia. }
  destruct (lookup_lt_is_Some_2 qs _ Hlt) as [q Hq]. destruct (Hqs _ q Hq) as (H1 & H2 & H3 & H4).
  rewrite Z2Nat.id in H1, H4 by lia. exists q. pose proof (in_frame q (word_of (j mod 4096)) H3 Hr) as Hfr.
  destruct (segment_page (j / 4096) Hd ltac:(lia)) as (_ & Hb & _ & Hpg & _ & Hnb).
  assert (Hp : word_of (va + j) / 4096 = (va + 4096 * (j / 4096)) / 4096).
  { rewrite Ew. apply in_frame; [|lia]. rewrite Hpg. pose proof (Z.div_mod va 4096 ltac:(lia)). lia. }
  split_and!; try done.
  - unfold below_tables, PAGETABLES_ADDRESS in *. destruct Hseg as [_ _ H5 H6 _ _].
    unfold BUFPAGE_ADDRESS, USERDATA_ADDRESS in *. rewrite Ew. lia.
  - rewrite (H1 _ Hp). do 2 f_equal. rewrite Ew. rewrite <- Z.add_mod_idemp_l by lia.
    replace ((va + 4096 * (j / 4096)) mod 4096) with 0; [by rewrite Z.add_0_l, Z.mod_small by lia|].
    rewrite (Z.mul_comm 4096), Z.mod_add by lia. done.
  - apply data_page with q; [done|done|]. apply data_not_null in H2. lia.
Qed.

(** Different bytes of the segment lie at different places. *)
Lemma bytes_distinct m0 fl0 m fl qs i j p : loaded_pages m0 fl0 m fl qs -> memsz <= 4096 * Z.of_nat (length qs) ->
  0 <= i < memsz -> 0 <= j < memsz ->
  tr m (word_of (va + i)) = Some p -> tr m (word_of (va + j)) = Some p -> (va + i) mod 4 = (va + j) mod 4 -> i = j.
Proof.
  intros Hl Hlen Hi Hj Hpi Hpj Hm. destruct (loaded_byte _ _ _ _ _ i Hl Hi Hlen) as (q & Hq & _ & Hti & _ & Hfi & Fi & _).
  destruct (loaded_byte _ _ _ _ _ j Hl Hj Hlen) as (r & Hr & _ & Htj & _ & Hfj & Fj & _).
  destruct Hseg as [Hva _ _ _ _ _]. destruct (word_split va i Hva ltac:(lia)) as (_ & Mi & Ri & Si).
  destruct (word_split va j Hva ltac:(lia)) as (_ & Mj & Rj & Sj).
  rewrite Hti in Hpi. rewrite Htj in Hpj. injection Hpi as Ei. injection Hpj as Ej.
  assert (q = r) as <- by (rewrite <- Fi, <- Fj, <- Hfi, <- Hfj; congruence).
  pose proof (NoDup_lookup _ _ _ _ (lp_nodup _ _ _ _ _ Hl) Hq Hr) as Ed.
  pose proof (Z.div_pos i 4096 ltac:(lia) ltac:(lia)). pose proof (Z.div_pos j 4096 ltac:(lia) ltac:(lia)).
  apply Z2Nat.inj in Ed; [|done..]. pose proof (Z.div_mod i 4096 ltac:(lia)). pose proof (Z.div_mod j 4096 ltac:(lia)).
  assert (i mod 4096 = j mod 4096) by lia. lia.
Qed.

(** Addresses in the page of the file that is cleared from the end of the segment on. *)
Definition tail (m0 : mach) (p : Z) : Prop :=
  filesz < memsz /\ filesz mod 4096 <> 0 /\ tr m0 (fa + 4096 * (filesz / 4096)) = Some (frame p).

(** The image of the segment: behind each address lies data, with the byte of the file or
    zero, in a frame of the file or one that was free. *)
Definition image (m0 : mach) (fl0 : list Z) (m : mach) (fl : list Z) : Prop :=
  forall j, 0 <= j < memsz -> below_tables (word_of (va + j)) /\ exists p,
    tr m (word_of (va + j)) = Some p /\ data m fl p /\
    let b := byte_of (rd (phys m) p) ((va + j) mod 4) in
    (if j <? filesz then vbyte m0 (fa + j) = Some b else b = 0) /\
    (frame p ∈ fl0 \/ exists t, 0 <= t /\ 4096 * t < filesz /\ tr m0 (fa + 4096 * t) = Some (frame p)).

(** A byte of the file in the frame that it shares with the segment. *)
Lemma file_byte m0 fl0 m fl q j : file_ok m0 fl0 fa filesz -> evolves in_segment nothing m0 fl0 m fl ->
  0 <= j < filesz -> tr m0 (fa + 4096 * (j / 4096)) = Some q -> frame q = q ->
  vbyte m0 (fa + j) = Some (byte_of (rd (phys m) (q + word_of (j mod 4096))) ((va + j) mod 4)).
Proof.
  intros Hf Hev Hj Hq Hfq. destruct Hseg as [Hva Hfa _ _ _ _].
  destruct (word_split fa j Hfa ltac:(lia)) as (Ew & Em & Hr & _). destruct (word_split va j Hva ltac:(lia)) as (_ & Em' & _).
  pose proof (Z.div_pos j 4096 ltac:(lia) ltac:(lia)) as Hd. pose proof (Z.div_mod j 4096 ltac:(lia)) as Ej.
  pose proof (Z.mod_pos_bound j 4096 ltac:(lia)).
  destruct (fo_page _ _ _ _ Hf (j / 4096) Hd ltac:(lia)) as (_ & q' & Hq' & _ & _ & Hdq). rewrite Hq in Hq'. injection Hq' as <-.
  assert (Hdp : data m0 fl0 (q + word_of (j mod 4096)))
    by (apply data_page with q; [done|by apply in_frame|apply data_not_null in Hdq; lia]).
  unfold vbyte. rewrite Ew, translate_offset, Hq by (try done; rewrite (Z.mul_comm 4096), Z.mod_add by lia; done).
  cbn. rewrite Em, Em'. by rewrite (proj2 (ev_data _ _ _ _ _ _ Hev _ Hdp)) by (by intros []).
Qed.

(** The rest of the segment is cleared; the bytes of the file stay. *)
Lemma clear_tail m0 fl0 m fl qs : file_ok m0 fl0 fa filesz -> evolves in_segment nothing m0 fl0 m fl ->
  loaded_pages m0 fl0 m fl qs -> memsz <= 4096 * Z.of_nat (length qs) ->
  exists m', (if filesz <? memsz then clear_bytes (w32 (va + filesz)) (memsz - filesz) else mret tt) m = Ret tt m' /\
    evolves in_segment (tail m0) m0 fl0 m' fl /\ image m0 fl0 m' fl.
Proof.
  intros Hf Hev Hqs Hlen. pose proof (ev_layout _ _ _ _ _ _ Hev) as Hl. pose proof (ev_buffer _ _ _ _ _ _ Hev) as Hb.
  pose proof Hseg as [_ _ Hu Hend _ Hsz].
  assert (Hw : w32 (va + filesz) = va + filesz) by (apply w32_small; unfold USERDATA_ADDRESS, BUFPAGE_ADDRESS in *; lia).
  set (n := Z.to_nat (memsz - filesz)).
  destruct (clear_bytes_ok n (va + filesz) 0 m fl Hl Hb ltac:(lia)) as (m' & E & Hev' & Htr & Hz & Hkeep & _).
  { intros j Hj. rewrite <- Z.add_assoc. destruct (loaded_byte _ _ _ _ _ (filesz + j) Hqs ltac:(lia) Hlen) as (q & _ & B & T & D & _).
    eauto. }
  exists m'. split; [|split].
  - rewrite Hw. destruct (Z.ltb_spec filesz memsz) as [Hlt|Hge]; [exact E|].
    assert (Hn : n = 0%nat) by (unfold n; lia). rewrite Hn in E. exact E.
  - destruct Hev as [_ _ S1 C1 E1 T1 D1]. destruct Hev' as [L B S2 C2 E2 T2 D2].
    split; [done|done|done|congruence| | |].
    + intros d Hd HP. by rewrite E2, E1 by (done || by intros ? []).
    + intros x Hx HP Hn. by rewrite T2, T1 by (done || by intros []).
    + intros p Hp. destruct (D1 p Hp) as [Hp1 R1]. destruct (D2 p Hp1) as [Hp2 R2]. split; [done|].
      intros Hnt. rewrite R2, R1; [done|by intros []|]. intros (j & Hj & Hpj). apply Hnt. rewrite <- Z.add_assoc in Hpj.
      destruct (loaded_byte _ _ _ _ _ (filesz + j) Hqs ltac:(lia) Hlen) as (q & _ & _ & T & _ & Fp & Fq & Hq).
      rewrite T in Hpj. injection Hpj as <-. unfold tail. rewrite Fp, Fq.
      destruct (Z.ltb_spec (4096 * ((filesz + j) / 4096)) filesz) as [Hlt|Hge].
      * assert (Et : (filesz + j) / 4096 = filesz / 4096).
        { apply Z.le_antisymm; [|apply Z.div_le_mono; lia]. apply Z.div_le_lower_bound; lia. }
        rewrite <- Et. split_and!; [lia| |done]. intros E0. apply Z.mod_divide in E0 as [c Ec]; [|lia].
        rewrite Et, Ec, Z.div_mul in Hlt by lia. lia.
      * destruct Hp as (_ & Hn & _). rewrite Fp, Fq in Hn. done.
  - intros j Hj. destruct (loaded_byte _ _ _ _ _ j Hqs Hj Hlen) as (q & Hq & B & T & D & Hfr & Ff & Hfile).
    split; [done|]. exists (q + word_of (j mod 4096)). rewrite Htr, T by done. split; [done|].
    split; [by apply (ev_data _ _ _ _ _ _ Hev')|]. rewrite Hfr, Ff.
    pose proof (Z.div_pos j 4096 ltac:(lia) ltac:(lia)). pose proof (Z.div_mod j 4096 ltac:(lia)).
    pose proof (Z.mod_pos_bound j 4096 ltac:(lia)). split.
    + destruct (Z.ltb_spec j filesz) as [Hjf|Hjf].
      * rewrite (proj2 (Z.ltb_lt _ _)) in Hfile by lia.
        pose proof (Z.mod_pos_bound (va + j) 4 ltac:(lia)) as Hm4. rewrite Hkeep; [apply (file_byte m0 fl0 m fl); (done || lia)|done|lia|].
        intros i Hi Ht Em. rewrite <- Z.add_assoc in Ht, Em.
        pose proof (bytes_distinct m0 fl0 m fl qs (filesz + i) j _ Hqs Hlen ltac:(lia) ltac:(lia) Ht T Em). lia.
      * replace (va + j) with (va + filesz + (j - filesz)) by lia. apply Hz; [lia|].
        replace (va + filesz + (j - filesz)) with (va + j) by lia. done.
    + destruct (Z.ltb_spec (4096 * (j / 4096)) filesz); [right; by exists (j / 4096)|by left].
Qed.

Lemma elf_loadseg_ok k sp a w fl :
  k_spaces k !! sp = Some a ->
  let m0 := set_curpd (k_mach k) (pagedir a) in
  layout m0 fl -> buffer_ok m0 -> file_ok m0 fl fa filesz ->
  (2 * Z.to_nat ((memsz + 4095) / 4096) <= length fl)%nat ->
  exists m' fl' a', elf_loadseg va memsz fa filesz sp w k =
      Ret 0 (set_k_spaces (set_k_mach k m') (<[sp := a']> (k_spaces k))) /\ pagedir a' = pagedir a /\
    evolves in_segment (tail m0) m0 fl m' fl' /\ image m0 fl m' fl' /\
    (length fl <= length fl' + 2 * Z.to_nat ((memsz + 4095) / 4096))%nat.
Proof.
  intros Ha m0 Hl Hb Hf Hfl. pose proof Hseg as [_ _ Hu _ _ Hsz]. unfold elf_loadseg.
  rewrite (proj2 (Z.ltb_ge va USERDATA_ADDRESS)) by done.
  rewrite (bind_Ret _ _ _ _ _ (load_addrspace_ok sp a k Ha)). fold m0. change (0 =? -1) with false. cbv iota.
  destruct (seg_loop_ok (Z.to_nat (memsz / PAGE_SIZE + 1)) (set_k_mach k m0) a sp w m0 fl fl [])
    as (m1 & fl1 & qs & a1 & E1 & Hpd1 & Hev1 & Hqs1 & Hlen1 & Hcnt); try done.
  - split; [done|apply NoDup_nil_2].
  - simpl. lia.
  - by rewrite Z.sub_0_r.
  - rewrite Z.sub_0_r. apply Z2Nat.inj_le; [apply Z.div_pos; lia|pose proof (Z.div_pos memsz 4096); lia|].
    replace (memsz / 4096 + 1) with ((memsz + 1 * 4096) / 4096) by (apply Z.div_add; lia). apply Z.div_le_mono; lia.
  - change (4096 * Z.of_nat (length [])) with 0 in E1. rewrite (bind_Ret _ _ _ _ _ E1). change (0 =? -1) with false. cbv iota.
    destruct (clear_tail m0 fl m1 fl1 qs Hf Hev1 Hqs1 ltac:(lia)) as (m2 & E2 & Hev2 & Hbytes).
    set (k1 := set_k_spaces _ _).
    assert (E2' : (if filesz <? memsz then on_mach (clear_bytes (w32 (va + filesz)) (memsz - filesz)) else mret tt) k1 =
      Ret tt (set_k_mach k1 m2)).
    { destruct (filesz <? memsz); [by apply on_mach_Ret|]. injection E2 as <-. done. }
    rewrite (bind_Ret _ _ _ _ _ E2'). exists m2, fl1, a1. rewrite Z.sub_0_r in Hcnt. done.
Qed.
End segment.

(** ** Loading a program *)

(** A program header as it lies in memory. *)
Record phdr := Phdr { p_type : Z; p_offset : Z; p_vaddr : Z; p_filesz : Z; p_memsz : Z; p_flags : Z }.

Definition read16 (m : mach) (a : Z) : option Z := x ← vbyte m a; y ← vbyte m (a + 1); Some (x + 256 * y).

Definition read32 (m : mach) (a : Z) : option Z := x ← read16 m a; y ← read16 m (a + 2); Some (x + 65536 * y).

Definition read_phdr (m : mach) (a : Z) : option phdr :=
  t ← read32 m a; o ← read32 m (a + 4); v ← read32 m (a + 8); f ← read32 m (a + 16); n ← read32 m (a + 20);
  g ← read32 m (a + 24); Some (Phdr t o v f n g).

Lemma load16_ok m a v : paging_enabled m = true -> read16 m a = Some v -> load16 a m = Ret v m.
Proof.
  intros He H. unfold read16 in H. destruct (vbyte m a) as [x|] eqn:E1; [|done]. destruct (vbyte m (a + 1)) as [y|] eqn:E2; [|done].
  simpl in H. simplify_eq. unfold load16. by rewrite (bind_Ret _ _ _ _ _ (load8_ok m a x He E1)), (bind_Ret _ _ _ _ _ (load8_ok m _ y He E2)).
Qed.

Lemma load32_ok m a v : paging_enabled m = true -> read32 m a = Some v -> load32 a m = Ret v m.
Proof.
  intros He H. unfold read32 in H. destruct (read16 m a) as [x|] eqn:E1; [|done]. destruct (read16 m (a + 2)) as [y|] eqn:E2; [|done].
  simpl in H. simplify_eq. unfold load32. by rewrite (bind_Ret _ _ _ _ _ (load16_ok m a x He E1)), (bind_Ret _ _ _ _ _ (load16_ok m _ y He E2)).
Qed.

Lemma read32_same m m' a : (forall x, a <= x < a + 4 -> vbyte m' x = vbyte m x) -> read32 m' a = read32 m a.
Proof. intros H. unfold read32, read16. by rewrite !H by lia. Qed.

Lemma read16_bound m a v : read16 m a = Some v -> 0 <= v < 65536.
Proof.
  unfold read16, vbyte. intros H. destruct (tr m (word_of a)) as [x|]; [|done]. destruct (tr m (word_of (a + 1))) as [y|]; [|done].
  simpl in H. injection H as <-. unfold byte_of.
  pose proof (Z.mod_pos_bound (rd (phys m) x / 256 ^ (a mod 4)) 256 ltac:(lia)).
  pose proof (Z.mod_pos_bound (rd (phys m) y / 256 ^ ((a + 1) mod 4)) 256 ltac:(lia)). lia.
Qed.

Lemma read16_same m m' a : (forall x, a <= x < a + 2 -> vbyte m' x = vbyte m x) -> read16 m' a = read16 m a.
Proof. intros H. unfold read16. by rewrite !H by lia. Qed.

Lemma read_phdr_same m m' a : (forall x, a <= x < a + 32 -> vbyte m' x = vbyte m x) -> read_phdr m' a = read_phdr m a.
Proof.
  intros H. unfold read_phdr. by rewrite !(read32_same m m') by (intros; apply H; lia).
Qed.

Lemma read_phdr_inv m a h : read_phdr m a = Some h ->
  read32 m a = Some (p_type h) /\ read32 m (a + 4) = Some (p_offset h) /\ read32 m (a + 8) = Some (p_vaddr h) /\
  read32 m (a + 16) = Some (p_filesz h) /\ read32 m (a + 20) = Some (p_memsz h) /\ read32 m (a + 24) = Some (p_flags h).
Proof.
  unfold read_phdr. intros H. repeat (match type of H with (?x ≫= _) = _ => destruct x eqn:?; [|done]; simpl in H end).
  by simplify_eq.
Qed.

Definition pages_of (h : phdr) : Z := (p_memsz h + 4095) / 4096.
Definition is_load (h : phdr) : Prop := p_type h = PT_LOAD.

Definition frames_for (phs : list phdr) : nat :=
  sum_list ((fun h => if p_type h =? PT_LOAD then (2 * Z.to_nat (pages_of h))%nat else 0%nat) <$> phs).

Lemma frames_for_cons h l :
  frames_for (h :: l) = ((if (p_type h =? PT_LOAD)%Z then 2 * Z.to_nat (pages_of h) else 0) + frames_for l)%nat.
Proof. done. Qed.

(** The page of the file whose end is cleared for [h]. *)
Definition tail_page (h : phdr) : Z := (p_offset h + p_filesz h) / 4096.
Definition has_tail (h : phdr) : Prop := p_filesz h < p_memsz h /\ p_filesz h mod 4096 <> 0.

(** A program that can be loaded: its pages are in memory, its segments are made of whole
    pages and do not overlap, and a page that is cleared in part belongs to one segment
    only; the first [hs] bytes hold the headers. *)
Record program_ok (m : mach) (fl : list Z) (file size hs : Z) (phs : list phdr) : Prop := {
  po_place : file mod 4096 = 0 /\ 0 <= file /\ file + size <= USERDATA_ADDRESS;
  po_file : file_ok m fl file size;
  po_headers : hs <= size;
  po_segment : forall h, h ∈ phs -> is_load h ->
    segment_ok (p_vaddr h) (p_memsz h) (file + p_offset h) (p_filesz h) /\ 0 <= p_offset h /\ p_offset h + p_filesz h <= size;
  po_apart : forall i j h h', phs !! i = Some h -> phs !! j = Some h' -> (i < j)%nat -> is_load h -> is_load h' ->
    (p_vaddr h + p_memsz h + 4095) / 4096 <= p_vaddr h' / 4096 \/ (p_vaddr h' + p_memsz h' + 4095) / 4096 <= p_vaddr h / 4096;
  po_tail : forall i h, phs !! i = Some h -> is_load h -> has_tail h -> hs <= 4096 * tail_page h /\
    forall j h', phs !! j = Some h' -> j <> i -> is_load h' ->
      tail_page h < p_offset h' / 4096 \/ p_offset h' + p_filesz h' <= 4096 * tail_page h;
  po_free : (frames_for phs <= length fl)%nat;
}.

Lemma file_ok_sub m fl file size off n : file_ok m fl file size -> off mod 4096 = 0 -> 0 <= off -> off + n <= size ->
  file_ok m fl (file + off) n.
Proof.
  intros [Hp Hd] Hm Ho Hn. pose proof (Z.div_mod off 4096 ltac:(lia)) as E. rewrite Hm, Z.add_0_r in E.
  pose proof (Z.div_pos off 4096 ltac:(lia) ltac:(lia)).
  assert (Ht : forall t, file + off + 4096 * t = file + 4096 * (off / 4096 + t)) by lia.
  split.
  - intros t Ht0 Hlt. rewrite !Ht. apply Hp; lia.
  - intros t u q Ht1 Ht2 Hu1 Hu2. rewrite !Ht. intros Hq Hq'. pose proof (Hd (off / 4096 + t) (off / 4096 + u) q ltac:(lia) ltac:(lia) ltac:(lia) ltac:(lia) Hq Hq'). lia.
Qed.

Section program.
Context `{Malloc} {m0 : mach} {fl0 : list Z} {file size hs : Z} {phs : list phdr}.
Hypothesis Hprog : program_ok m0 fl0 file size hs phs.

Definition seg_pages (h : phdr) : Z -> Prop := in_segment (va := p_vaddr h) (memsz := p_memsz h).
Definition seg_tail (h : phdr) : Z -> Prop :=
  tail (memsz := p_memsz h) (fa := file + p_offset h) (filesz := p_filesz h) m0.
Definition seg_image (h : phdr) (m : mach) (fl : list Z) : Prop :=
  image (va := p_vaddr h) (memsz := p_memsz h) (fa := file + p_offset h) (filesz := p_filesz h) m0 fl0 m fl.

(** What the first [n] headers may have mapped and cleared. *)
Definition done_pages (n : nat) (pg : Z) : Prop := exists i h, (i < n)%nat /\ phs !! i = Some h /\ is_load h /\ seg_pages h pg.
Definition done_tails (n : nat) (p : Z) : Prop := exists i h, (i < n)%nat /\ phs !! i = Some h /\ is_load h /\ seg_tail h p.

Lemma file_kernel n t : 0 <= t -> 4096 * t < size ->
  below_tables (file + 4096 * t) /\ ~ done_pages n ((file + 4096 * t) / 4096) /\
  (file + 4096 * t) / 4096 <> BUFPAGE_ADDRESS / 4096.
Proof.
  intros Ht Hlt. destruct (po_place _ _ _ _ _ _ Hprog) as (Hm & Hf & Hs).
  change (BUFPAGE_ADDRESS / 4096) with 1047551. unfold below_tables, USERDATA_ADDRESS, PAGETABLES_ADDRESS in *.
  pose proof (Z.div_lt_upper_bound (file + 4096 * t) 4096 262144 ltac:(lia) ltac:(lia)).
  split; [lia|]. split; [|lia]. intros (i & h & _ & Hh & Hld & Hpg).
  destruct (po_segment _ _ _ _ _ _ Hprog h (list_elem_of_lookup_2 _ _ _ Hh) Hld) as ([_ _ Hu _ _ _] & _).
  unfold USERDATA_ADDRESS in Hu. unfold seg_pages, in_segment in Hpg.
  pose proof (Z.div_le_lower_bound (p_vaddr h) 4096 262144 ltac:(lia) ltac:(lia)). lia.
Qed.

Lemma offset_aligned h : h ∈ phs -> is_load h -> p_offset h mod 4096 = 0.
Proof.
  intros Hh Hld. destruct (po_segment _ _ _ _ _ _ Hprog h Hh Hld) as ([_ Hfa _ _ _ _] & _).
  destruct (po_place _ _ _ _ _ _ Hprog) as (Hm & _). rewrite Z.add_mod, Hm, Z.add_0_l, Z.mod_mod in Hfa by lia. done.
Qed.

Lemma tail_pos h : h ∈ phs -> is_load h -> p_offset h + 4096 * (p_filesz h / 4096) = 4096 * tail_page h.
Proof.
  intros Hh Hld. pose proof (offset_aligned h Hh Hld) as Ho. unfold tail_page.
  pose proof (Z.div_mod (p_offset h) 4096 ltac:(lia)) as E. rewrite Ho, Z.add_0_r in E.
  rewrite E at 2. rewrite (Z.mul_comm 4096 (p_offset h / 4096)), Z.div_add_l by lia. lia.
Qed.

(** A tail lies in the frame of its page of the file. *)
Lemma seg_tail_frame h p t q : h ∈ phs -> is_load h -> seg_tail h p -> 0 <= t -> 4096 * t < size ->
  tr m0 (file + 4096 * t) = Some q -> frame p = q -> has_tail h /\ t = tail_page h.
Proof.
  intros Hh Hld (H1 & H2 & H3) Ht Hlt Hq <-. split; [done|]. rewrite <- Z.add_assoc, tail_pos in H3 by done.
  destruct (po_segment _ _ _ _ _ _ Hprog h Hh Hld) as ([_ _ _ _ _ Hsz] & Ho & Hend). pose proof (tail_pos h Hh Hld) as Htp.
  pose proof (Z.div_mod (p_filesz h) 4096 ltac:(lia)). pose proof (Z.mod_pos_bound (p_filesz h) 4096 ltac:(lia)).
  pose proof (Z.div_pos (p_filesz h) 4096 ltac:(lia) ltac:(lia)).
  apply (fo_distinct _ _ _ _ (po_file _ _ _ _ _ _ Hprog) _ _ (frame p)); try done; lia.
Qed.

(** A byte of the file that no tail took is still there. *)
Lemma file_bytes_same n m fl x : evolves (done_pages n) (done_tails n) m0 fl0 m fl -> 0 <= x < size ->
  (forall i h, (i < n)%nat -> phs !! i = Some h -> is_load h -> has_tail h -> x / 4096 <> tail_page h) ->
  vbyte m (file + x) = vbyte m0 (file + x).
Proof.
  intros Hev Hx Hno. destruct (po_place _ _ _ _ _ _ Hprog) as (Hm & _). destruct (word_split file x Hm ltac:(lia)) as (Ew & _ & Hr & _).
  pose proof (Z.div_pos x 4096 ltac:(lia) ltac:(lia)) as Hd. pose proof (Z.div_mod x 4096 ltac:(lia)). pose proof (Z.mod_pos_bound x 4096 ltac:(lia)).
  assert (Hlt : 4096 * (x / 4096) < size) by lia.
  destruct (fo_page _ _ _ _ (po_file _ _ _ _ _ _ Hprog) _ Hd Hlt) as (_ & q & Hq & _ & _ & Hdq).
  destruct (file_kernel n _ Hd Hlt) as (B1 & B2 & B3). pose proof (ev_tr _ _ _ _ _ _ _ Hev B1 B2 B3) as Htr.
  assert (Hal : (file + 4096 * (x / 4096)) mod 4096 = 0) by (rewrite (Z.mul_comm 4096), Z.mod_add by lia; done).
  unfold vbyte. rewrite Ew, (translate_offset (phys m)), (translate_offset (phys m0)), Htr, Hq by done.
  enough (E : rd (phys m) (q + word_of (x mod 4096)) = rd (phys m0) (q + word_of (x mod 4096))) by (simpl; by rewrite E).
  assert (Hfq : frame q = q).
  { rewrite translate_hw, Hal, Z.add_0_r in Hq. destruct (in_memory _); [|done]. injection Hq as <-. by rewrite Z.div_mul by lia. }
  pose proof (in_frame q (word_of (x mod 4096)) Hfq Hr) as Hfr.
  apply (ev_data _ _ _ _ _ _ Hev); [apply data_page with q; [done|done|apply data_not_null in Hdq; lia]|].
  intros (i & h & Hi & Hh & Hld & Htl). destruct (seg_tail_frame h _ (x / 4096) q (list_elem_of_lookup_2 _ _ _ Hh) Hld Htl Hd Hlt Hq) as [Ht1 Ht2].
  { by rewrite Hfr. }
  by apply (Hno i h Hi Hh Hld Ht1).
Qed.

(** After [n] headers. *)
Record progress (sp pd : Z) (n : nat) (k : kernel) (fl : list Z) : Prop := {
  pr_space : exists a, k_spaces k !! sp = Some a /\ pagedir a = pd;
  pr_on : paging_enabled (k_mach k) = true;
  pr_headers : forall x, 0 <= x < hs -> vbyte (k_mach k) (file + x) = vbyte m0 (file + x);
  pr_evolves : evolves (done_pages n) (done_tails n) m0 fl0 (set_curpd (k_mach k) pd) fl;
  pr_images : forall i h, (i < n)%nat -> phs !! i = Some h -> is_load h -> seg_image h (set_curpd (k_mach k) pd) fl;
  pr_free : (frames_for (drop n phs) <= length fl)%nat;
}.

Lemma done_pages_S n pg : done_pages (S n) pg <-> done_pages n pg \/ exists h, phs !! n = Some h /\ is_load h /\ seg_pages h pg.
Proof.
  split.
  - intros (i & h & Hi & Hh). destruct (decide (i = n)) as [->|]; [right; eauto|left]. exists i, h. split; [lia|done].
  - intros [(i & h & Hi & Hh)|(h & Hh)]; [exists i, h; split; [lia|done]|exists n, h; split; [lia|done]].
Qed.

Lemma done_tails_S n p : done_tails (S n) p <-> done_tails n p \/ exists h, phs !! n = Some h /\ is_load h /\ seg_tail h p.
Proof.
  split.
  - intros (i & h & Hi & Hh). destruct (decide (i = n)) as [->|]; [right; eauto|left]. exists i, h. split; [lia|done].
  - intros [(i & h & Hi & Hh)|(h & Hh)]; [exists i, h; split; [lia|done]|exists n, h; split; [lia|done]].
Qed.

(** The tail of [h] as the machine [m] sees it. *)
Lemma tail_same n m fl h p : h ∈ phs -> is_load h -> evolves (done_pages n) (done_tails n) m0 fl0 m fl ->
  tail (memsz := p_memsz h) (fa := file + p_offset h) (filesz := p_filesz h) m p <-> seg_tail h p.
Proof.
  intros Hh Hld Hev. unfold seg_tail, tail. split; intros (H1 & H2 & H3); split_and!; try done;
    rewrite <- Z.add_assoc, tail_pos in H3 |- * by done;
    destruct (po_segment _ _ _ _ _ _ Hprog h Hh Hld) as ([_ _ _ _ _ Hsz] & Ho & Hend); pose proof (tail_pos h Hh Hld) as Htp;
    pose proof (Z.div_mod (p_filesz h) 4096 ltac:(lia)); pose proof (Z.mod_pos_bound (p_filesz h) 4096 ltac:(lia));
    pose proof (Z.div_pos (p_filesz h) 4096 ltac:(lia) ltac:(lia));
    destruct (file_kernel n (tail_page h) ltac:(lia) ltac:(lia)) as (B1 & B2 & B3);
    by rewrite (ev_tr _ _ _ _ _ _ _ Hev B1 B2 B3) in *.
Qed.

(** An image stays while another segment is loaded. *)
Lemma image_kept n i h h' m fl m' fl' : (i < n)%nat -> phs !! i = Some h' -> is_load h' -> phs !! n = Some h -> is_load h ->
  evolves (done_pages n) (done_tails n) m0 fl0 m fl -> evolves (seg_pages h) (seg_tail h) m fl m' fl' ->
  seg_image h' m fl -> seg_image h' m' fl'.
Proof.
  intros Hi Hh' Hld' Hh Hld Hev0 Hev Him j Hj. destruct (Him j Hj) as (B & p & Ht & Hd & Hb & Hfr). split; [done|].
  pose proof (list_elem_of_lookup_2 _ _ _ Hh') as Hin'. pose proof (list_elem_of_lookup_2 _ _ _ Hh) as Hin.
  destruct (po_segment _ _ _ _ _ _ Hprog h' Hin' Hld') as (Hseg' & Ho' & Hend').
  assert (Hnt : ~ seg_tail h p).
  { intros Htl. pose proof Htl as (T1 & T2 & T3). rewrite <- Z.add_assoc, tail_pos in T3 by done.
    destruct (po_segment _ _ _ _ _ _ Hprog h Hin Hld) as ([_ _ _ _ _ Hsz] & Ho & Hend). pose proof (tail_pos h Hin Hld) as Htp.
    pose proof (Z.div_mod (p_filesz h) 4096 ltac:(lia)). pose proof (Z.mod_pos_bound (p_filesz h) 4096 ltac:(lia)).
    pose proof (Z.div_pos (p_filesz h) 4096 ltac:(lia) ltac:(lia)).
    destruct Hfr as [Hfr|(t & Ht0 & Htl' & Htf)].
    - destruct (fo_page _ _ _ _ (po_file _ _ _ _ _ _ Hprog) (tail_page h) ltac:(lia) ltac:(lia)) as (_ & q & Hq & _ & _ & Hdq).
      rewrite T3 in Hq. injection Hq as <-. apply data_free in Hdq. rewrite Z.div_mul in Hdq by lia. done.
    - pose proof (offset_aligned h' Hin' Hld') as Ha. pose proof (Z.div_mod (p_offset h') 4096 ltac:(lia)) as Eo.
      rewrite Ha, Z.add_0_r in Eo. pose proof (Z.div_pos (p_offset h') 4096 ltac:(lia) ltac:(lia)).
      replace (file + p_offset h' + 4096 * t) with (file + 4096 * (p_offset h' / 4096 + t)) in Htf by lia.
      destruct (seg_tail_frame h p (p_offset h' / 4096 + t) _ Hin Hld Htl ltac:(lia) ltac:(lia) Htf eq_refl) as [Hht Et].
      destruct (po_tail _ _ _ _ _ _ Hprog n h Hh Hld Hht) as [_ Hno].
      specialize (Hno i h' Hh' ltac:(lia) Hld'). lia. }
  exists p. destruct (ev_data _ _ _ _ _ _ Hev p Hd) as [Hd' Hrd]. rewrite (Hrd Hnt). split_and!; try done.
  rewrite <- Ht. destruct (word_split (p_vaddr h') j (sg_va _ _ _ _ Hseg') ltac:(lia)) as (Ew & _ & Hr & _).
  pose proof (Z.div_pos j 4096 ltac:(lia) ltac:(lia)). pose proof (Z.div_mod j 4096 ltac:(lia)). pose proof (Z.mod_pos_bound j 4096 ltac:(lia)).
  destruct (segment_page Hseg' (j / 4096) ltac:(lia) ltac:(lia)) as (_ & _ & _ & Hpg & Hinp & Hnb).
  assert (Hp : word_of (p_vaddr h' + j) / 4096 = (p_vaddr h' + 4096 * (j / 4096)) / 4096).
  { rewrite Ew. apply in_frame; [|lia]. rewrite Hpg. pose proof (Z.div_mod (p_vaddr h') 4096 ltac:(lia)). pose proof (sg_va _ _ _ _ Hseg'). lia. }
  apply (ev_tr _ _ _ _ _ _ _ Hev B); rewrite Hp; [|done]. unfold seg_pages, in_segment in *.
  destruct (po_apart _ _ _ _ _ _ Hprog i n h' h Hh' Hh Hi Hld' Hld); lia.
Qed.

(** The image of a segment that was just loaded, in terms of the machine at the start. *)
Lemma image_new n h m fl m' fl' : phs !! n = Some h -> is_load h -> evolves (done_pages n) (done_tails n) m0 fl0 m fl ->
  image (va := p_vaddr h) (memsz := p_memsz h) (fa := file + p_offset h) (filesz := p_filesz h) m fl m' fl' ->
  seg_image h m' fl'.
Proof.
  intros Hh Hld Hev Him j Hj. destruct (Him j Hj) as (B & p & Ht & Hd & Hb & Hfr). split; [done|]. exists p.
  pose proof (list_elem_of_lookup_2 _ _ _ Hh) as Hin. pose proof (offset_aligned h Hin Hld) as Ha.
  destruct (po_segment _ _ _ _ _ _ Hprog h Hin Hld) as (_ & Ho & Hend).
  pose proof (Z.div_mod (p_offset h) 4096 ltac:(lia)) as Eo. rewrite Ha, Z.add_0_r in Eo.
  pose proof (Z.div_pos (p_offset h) 4096 ltac:(lia) ltac:(lia)).
  split; [done|]. split; [done|]. split.
  - destruct (Z.ltb_spec j (p_filesz h)) as [Hjf|]; [|done]. rewrite <- Hb. rewrite <- !Z.add_assoc. symmetry.
    apply (file_bytes_same n m fl); [done|lia|]. intros i h' Hi Hh' Hld' Hht E.
    destruct (po_tail _ _ _ _ _ _ Hprog i h' Hh' Hld' Hht) as [_ Hno]. specialize (Hno n h Hh ltac:(lia) Hld).
    pose proof (Z.div_mod (p_offset h + j) 4096 ltac:(lia)). pose proof (Z.mod_pos_bound (p_offset h + j) 4096 ltac:(lia)). lia.
  - destruct Hfr as [Hfr|(t & Ht0 & Htl & Htf)].
    + left. destruct (ev_suffix _ _ _ _ _ _ Hev) as [l ->]. apply elem_of_app. by right.
    + right. exists t. split_and!; try done. rewrite <- Htf.
      replace (file + p_offset h + 4096 * t) with (file + 4096 * (p_offset h / 4096 + t)) by lia.
      destruct (file_kernel n (p_offset h / 4096 + t) ltac:(lia) ltac:(lia)) as (B1 & B2 & B3).
      symmetry. by apply (ev_tr _ _ _ _ _ _ _ Hev).
Qed.

(** One segment more. *)
Lemma program_step sp pd n k fl h w : progress sp pd n k fl -> phs !! n = Some h -> is_load h ->
  exists k' fl', elf_loadseg (p_vaddr h) (p_memsz h) (file + p_offset h) (p_filesz h) sp w k = Ret 0 k' /\
    progress sp pd (S n) k' fl' /\ paging_curpd (k_mach k') = pd /\ set_k_spaces (set_k_mach k (k_mach k')) (k_spaces k') = k'.
Proof.
  intros [(a & Ha & Hpd) Hon Hhd Hev Him Hfree] Hh Hld. pose proof (list_elem_of_lookup_2 _ _ _ Hh) as Hin.
  destruct (po_segment _ _ _ _ _ _ Hprog h Hin Hld) as (Hseg & Ho & Hend). set (m := set_curpd (k_mach k) pd) in *.
  pose proof (ev_layout _ _ _ _ _ _ Hev) as Hl. pose proof (ev_buffer _ _ _ _ _ _ Hev) as Hb.
  assert (Hf : file_ok m fl (file + p_offset h) (p_filesz h)).
  { apply file_ok_sub with size; [|by apply offset_aligned|done|done].
    apply (file_ok_evolves _ _ _ _ _ _ _ _ (po_file _ _ _ _ _ _ Hprog) Hev). intros t. apply file_kernel. }
  rewrite (drop_S phs h n Hh) in Hfree. rewrite frames_for_cons, (proj2 (Z.eqb_eq _ _) Hld) in Hfree.
  unfold pages_of in Hfree.
  destruct (elf_loadseg_ok Hseg k sp a w fl Ha) as (m' & fl' & a' & E & Hpd' & Hev' & Him' & Hcnt);
    rewrite ?Hpd; try done; [lia|]. rewrite Hpd in Hev', Him'. fold m in Hev', Him'.
  assert (Hcur : paging_curpd m' = pd) by (rewrite (ev_pd _ _ _ _ _ _ Hev'); done).
  assert (Hm' : set_curpd m' pd = m') by (rewrite <- Hcur; by destruct m').
  assert (Hevh : evolves (seg_pages h) (seg_tail h) m fl m' fl').
  { eapply evolves_weaken; [| |exact Hev']; [done|]. intros p. by apply (tail_same n m fl). }
  assert (HevS : evolves (done_pages (S n)) (done_tails (S n)) m0 fl0 m' fl').
  { apply evolves_trans with m fl.
    - eapply evolves_weaken; [| |exact Hev]; intros x Hx; [apply done_pages_S|apply done_tails_S]; by left.
    - eapply evolves_weaken; [| |exact Hevh]; intros x Hx; [apply done_pages_S|apply done_tails_S]; right; eauto. }
  eexists. exists fl'. split; [exact E|]. cbn [k_mach set_k_spaces set_k_mach k_spaces]. split; [|done]. split.
  - exists a'. cbn [k_spaces set_k_spaces set_k_mach]. rewrite lookup_insert_eq. split; [done|congruence].
  - apply (lo_self _ _ (ev_layout _ _ _ _ _ _ Hev')).
  - intros x Hx. cbn [k_mach set_k_spaces set_k_mach].
    assert (Hall : forall i h', phs !! i = Some h' -> is_load h' -> has_tail h' -> x / 4096 <> tail_page h').
    { intros i h' Hh' Hld' Hht E'. destruct (po_tail _ _ _ _ _ _ Hprog i h' Hh' Hld' Hht) as [Hge _].
      pose proof (Z.div_mod x 4096 ltac:(lia)). pose proof (Z.mod_pos_bound x 4096 ltac:(lia)). lia. }
    apply (file_bytes_same (S n) m' fl'); [done|pose proof (po_headers _ _ _ _ _ _ Hprog); lia|]. intros i h' _. apply Hall.
  - cbn [k_mach set_k_spaces set_k_mach]. by rewrite Hm'.
  - cbn [k_mach set_k_spaces set_k_mach]. rewrite Hm'. intros i h' Hi Hh' Hld'. destruct (decide (i = n)) as [->|].
    + rewrite Hh in Hh'. injection Hh' as <-. by apply (image_new n h m fl).
    + apply (image_kept n i h h' m fl); try done; [lia|]. apply Him with i; [lia|done|done].
  - lia.
Qed.

Lemma progress_skip sp pd n k fl h : progress sp pd n k fl -> phs !! n = Some h -> ~ is_load h -> progress sp pd (S n) k fl.
Proof.
  intros [Hs Hon Hhd Hev Him Hfree] Hh Hn. split; try done.
  - eapply evolves_weaken; [| |exact Hev]; intros x Hx; [apply done_pages_S|apply done_tails_S]; by left.
  - intros i h' Hi Hh' Hld. destruct (decide (i = n)) as [->|]; [|apply Him with i; [lia|done|done]].
    rewrite Hh in Hh'. injection Hh' as <-. done.
  - rewrite (drop_S phs h n Hh), frames_for_cons in Hfree. lia.
Qed.

(** Only the machine and the address spaces change. *)
Definition only_memory (k k' : kernel) : Prop := set_k_spaces (set_k_mach k (k_mach k')) (k_spaces k') = k'.

Lemma only_memory_trans k1 k2 k3 : only_memory k1 k2 -> only_memory k2 k3 -> only_memory k1 k3.
Proof. unfold only_memory. intros <- <-. done. Qed.

Lemma on_load32 k a v : paging_enabled (k_mach k) = true -> read32 (k_mach k) a = Some v -> on_mach (load32 a) k = Ret v k.
Proof. intros He Hr. rewrite (on_mach_Ret _ _ _ _ (load32_ok _ _ _ He Hr)). by destruct k. Qed.

Lemma phdr_loop_ok sp pd phoff cnt fuel n k fl : progress sp pd n k fl -> (n + cnt = length phs)%nat -> (cnt < fuel)%nat ->
  52 <= hs -> read16 m0 (file + 44) = Some (Z.of_nat (length phs)) ->
  0 <= phoff -> phoff + 32 * Z.of_nat (length phs) <= hs ->
  (forall i h, phs !! i = Some h -> read_phdr m0 (file + phoff + 32 * Z.of_nat i) = Some h) ->
  exists k' fl', phdr_loop fuel sp file (file + phoff + 32 * Z.of_nat n) (Z.of_nat n) k = Ret true k' /\
    progress sp pd (length phs) k' fl' /\ only_memory k k'.
Proof.
  intros Hpr Hcnt Hfuel H52 Hnum Hph Hend Hrd. revert fuel n k fl Hpr Hcnt Hfuel.
  destruct (po_place _ _ _ _ _ _ Hprog) as (_ & Hf0 & Hfe).
  pose proof (po_headers _ _ _ _ _ _ Hprog) as Hhs. unfold USERDATA_ADDRESS in Hfe.
  assert (Hn : forall n k fl, progress sp pd n k fl -> on_mach (load16 (file + 44)) k = Ret (Z.of_nat (length phs)) k).
  { intros n k fl Hpr. rewrite (on_mach_Ret _ _ (Z.of_nat (length phs)) (k_mach k)); [by destruct k|].
    apply load16_ok; [apply (pr_on _ _ _ _ _ Hpr)|]. rewrite <- Hnum. apply read16_same. intros x Hx.
    replace x with (file + (x - file)) by lia. apply (pr_headers _ _ _ _ _ Hpr). lia. }
  induction cnt as [|cnt IH]; intros [|fuel] n k fl Hpr Hcnt Hfuel; [lia| |lia|]; cbn [phdr_loop];
    rewrite (bind_Ret _ _ _ _ _ (Hn _ _ _ Hpr)).
  { rewrite (proj2 (Z.ltb_ge _ _)) by lia.
    exists k, fl. replace (length phs) with n by lia. split; [done|]. split; [done|]. by destruct k. }
  rewrite (proj2 (Z.ltb_lt _ _)) by lia.
  destruct (lookup_lt_is_Some_2 phs n ltac:(lia)) as [h Hh]. pose proof (list_elem_of_lookup_2 _ _ _ Hh) as Hin.
  set (ph := file + phoff + 32 * Z.of_nat n) in *.
  assert (Hh' : read_phdr (k_mach k) ph = Some h).
  { rewrite <- (Hrd n h Hh). apply read_phdr_same. intros x Hx. replace x with (file + (x - file)) by lia.
    apply (pr_headers _ _ _ _ _ Hpr). unfold ph in Hx. lia. }
  destruct (read_phdr_inv _ _ _ Hh') as (R1 & R2 & R3 & R4 & R5 & R6). pose proof (pr_on _ _ _ _ _ Hpr) as Hon.
  assert (Hnext : w32 (ph + 32) = file + phoff + 32 * Z.of_nat (S n)) by (unfold ph; rewrite w32_small; lia).
  replace (Z.of_nat n + 1) with (Z.of_nat (S n)) by lia. rewrite (bind_Ret _ _ _ _ _ (on_load32 k _ _ Hon R1)), Hnext.
  destruct (Z.eqb_spec (p_type h) PT_LOAD) as [Hld|Hld].
  - destruct (po_segment _ _ _ _ _ _ Hprog h Hin Hld) as ([_ _ _ _ _ Hsz] & Ho & Hoe).
    destruct (program_step sp pd n k fl h (Z.land (p_flags h) PF_W =? PF_W) Hpr Hh Hld) as (k1 & fl1 & E1 & Hpr1 & _ & Hom).
    rewrite bind_assoc, (bind_Ret _ _ _ _ _ (on_load32 k _ _ Hon R2)), bind_assoc, (bind_Ret _ _ _ _ _ (on_load32 k _ _ Hon R3)).
    rewrite bind_assoc, (bind_Ret _ _ _ _ _ (on_load32 k _ _ Hon R4)), bind_assoc, (bind_Ret _ _ _ _ _ (on_load32 k _ _ Hon R5)).
    rewrite bind_assoc, (bind_Ret _ _ _ _ _ (on_load32 k _ _ Hon R6)), (w32_small (file + p_offset h)) by lia.
    rewrite bind_assoc, (bind_Ret _ _ _ _ _ E1), bind_ret. change (negb (0 =? -1)) with true. cbv iota.
    destruct (IH fuel (S n) k1 fl1 Hpr1 ltac:(lia) ltac:(lia)) as (k2 & fl2 & E2 & Hpr2 & Hom2). exists k2, fl2. split_and!; try done.
    by apply only_memory_trans with k1.
  - rewrite bind_ret. cbv iota. apply IH with fl; [|lia|lia]. by apply progress_skip with h.
Qed.

End program.

(** A header that [elf_validate] accepts, with the entry point and the place and number of
    the program headers. *)
Record valid_header (m : mach) (file entry phoff n : Z) : Prop := {
  vh_magic : vbyte m file = Some 127 /\ vbyte m (file + 1) = Some 69 /\ vbyte m (file + 2) = Some 76 /\
    vbyte m (file + 3) = Some 70;
  vh_machine : read16 m (file + 18) = Some EM_386;
  vh_class : vbyte m (file + 4) = Some 1 /\ vbyte m (file + 5) = Some 1;
  vh_version : exists v, vbyte m (file + 6) = Some v /\ read32 m (file + 20) = Some v;
  vh_entry : read32 m (file + 24) = Some entry;
  vh_phoff : read32 m (file + 28) = Some phoff;
  vh_phnum : read16 m (file + 44) = Some n;
}.

Lemma elf_validate_ok m file entry phoff n : paging_enabled m = true -> valid_header m file entry phoff n ->
  elf_validate file m = Ret 0 m.
Proof.
  intros He [(M0 & M1 & M2 & M3) Hm [C1 C2] (v & V1 & V2) _ _ _]. unfold elf_validate.
  rewrite (bind_Ret _ _ _ _ _ (load8_ok _ _ _ He M0)), (bind_Ret _ _ _ _ _ (load8_ok _ _ _ He M1)).
  rewrite (bind_Ret _ _ _ _ _ (load8_ok _ _ _ He M2)), (bind_Ret _ _ _ _ _ (load8_ok _ _ _ He M3)). cbn [negb orb Z.eqb Pos.eqb].
  rewrite (bind_Ret _ _ _ _ _ (load16_ok _ _ _ He Hm)). cbn [negb Z.eqb Pos.eqb EM_386].
  rewrite (bind_Ret _ _ _ _ _ (load8_ok _ _ _ He C1)). cbn [negb Z.eqb Pos.eqb].
  rewrite (bind_Ret _ _ _ _ _ (load8_ok _ _ _ He C2)). cbn [negb Z.eqb Pos.eqb].
  rewrite (bind_Ret _ _ _ _ _ (load8_ok _ _ _ He V1)), (bind_Ret _ _ _ _ _ (load32_ok _ _ _ He V2)). by rewrite Z.eqb_refl.
Qed.

(** C6: Loading a program: for an ELF file that [elf_validate] accepts, that lies in whole
    pages of kernel memory, and whose loadable segments start at page boundaries in memory and in
    the file, share no page with each other (nor, where a segment ends with zeros, the last
    page of its part of the file) and find enough free frames, the loader answers the
    entry point, and in the address space it was loaded into every byte of every loadable
    segment reads as the byte of the file, or as zero behind the part that the file
    has; of the kernel only the machine and the address spaces change.  Tables are made and
    frames taken from the stack of free pages as needed.  ([unaligned_segment_incomplete]
    is what happens to a segment that does not start at a page boundary.) *)
Theorem elf_load_correct `{Malloc} k sp a file size hs entry phoff phs fl :
  k_spaces k !! sp = Some a ->
  let m0 := set_curpd (k_mach k) (pagedir a) in
  layout m0 fl -> buffer_ok m0 -> program_ok m0 fl file size hs phs ->
  (forall x, 0 <= x < hs -> vbyte (k_mach k) (file + x) = vbyte m0 (file + x)) ->
  valid_header (k_mach k) file entry phoff (Z.of_nat (length phs)) ->
  52 <= hs -> 0 <= phoff -> phoff + 32 * Z.of_nat (length phs) <= hs ->
  (forall i h, phs !! i = Some h -> read_phdr m0 (file + phoff + 32 * Z.of_nat i) = Some h) ->
  exists k', elf_load sp file size k = Ret entry k' /\ only_memory k k' /\
    let m' := set_curpd (k_mach k') (pagedir a) in
    forall h j, h ∈ phs -> p_type h = PT_LOAD -> 0 <= j < p_memsz h ->
      exists b, load8 (p_vaddr h + j) m' = Ret b m' /\
        if j <? p_filesz h then load8 (file + p_offset h + j) m0 = Ret b m0 else b = 0.
Proof.
  intros Ha m0 Hl Hb Hprog Hsame Hvh H52 Hph Hend Hrd. pose proof (proj1 (lo_self _ _ Hl)) as Hon.
  assert (Hnum : read16 m0 (file + 44) = Some (Z.of_nat (length phs))).
  { rewrite <- (vh_phnum _ _ _ _ _ Hvh). apply read16_same. intros x Hx. symmetry. replace x with (file + (x - file)) by lia.
    apply Hsame. lia. }
  pose proof (read16_bound _ _ _ Hnum) as Hlen.
  assert (Hstart : progress (m0 := m0) (fl0 := fl) (file := file) (hs := hs) (phs := phs) sp (pagedir a) 0 k fl).
  { split; [by exists a|exact Hon|exact Hsame|by apply evolves_refl|intros i h Hi; lia|]. apply (po_free _ _ _ _ _ _ Hprog). }
  destruct (phdr_loop_ok Hprog sp (pagedir a) phoff (length phs) (Z.to_nat 65536) 0 k fl Hstart) as (k' & fl' & E & Hpr & Hom); try done; [lia|].
  exists k'. split; [|split; [done|]].
  - unfold elf_load. pose proof Hvh as [_ _ _ _ He Hp Hn]. cbn [m0 set_curpd paging_enabled] in Hon.
    rewrite (bind_Ret _ _ _ _ _ (on_mach_Ret _ k _ _ (elf_validate_ok _ _ _ _ _ Hon Hvh))).
    replace (set_k_mach k (k_mach k)) with k by (by destruct k). change (0 =? -1) with false. cbv iota.
    rewrite (bind_Ret _ _ _ _ _ (on_load32 k _ _ Hon He)), (bind_Ret _ _ _ _ _ (on_load32 k _ _ Hon Hp)).
    destruct (po_place _ _ _ _ _ _ Hprog) as (_ & Hf0 & Hfe). unfold USERDATA_ADDRESS in Hfe.
    pose proof (po_headers _ _ _ _ _ _ Hprog). rewrite w32_small by lia.
    rewrite Z.add_0_r in E. by rewrite (bind_Ret _ _ _ _ _ E).
  - intros m' h j Hh Hld Hj. apply list_elem_of_lookup_1 in Hh as [i Hi]. pose proof (lookup_lt_Some _ _ _ Hi).
    pose proof (pr_images _ _ _ _ _ Hpr i h ltac:(lia) Hi Hld j Hj) as (_ & p & Ht & _ & Hbyte & _).
    pose proof (proj1 (lo_self _ _ (ev_layout _ _ _ _ _ _ (pr_evolves _ _ _ _ _ Hpr)))) as Hon'.
    exists (byte_of (rd (phys m') p) ((p_vaddr h + j) mod 4)). split.
    + apply load8_ok; [exact Hon'|]. unfold vbyte. fold m' in Ht. by rewrite Ht.
    + destruct (j <? p_filesz h); [|done]. apply load8_ok; [exact Hon|done].
Qed.

(** [basename] gives what follows the last slash. *)
Lemma base_loop_none base path : 47 ∉ path -> base_loop base path = base.
Proof.
  induction path as [|c path IH] in base |- *; [done|]. intros Hn. cbn [base_loop].
  rewrite (proj2 (Z.eqb_neq c 47)) by (intros ->; apply Hn; left). apply IH. intros Hin. apply Hn. by right.
Qed.

Lemma base_loop_last base pre name : 47 ∉ name -> base_loop base (pre ++ 47 :: name) = 47 :: name.
Proof.
  intros Hn. induction pre as [|c pre IH] in base |- *; cbn [app base_loop]; [by apply base_loop_none|]. apply IH.
Qed.

Lemma basename_correct dir name : 47 ∉ name -> basename (dir ++ 47 :: name) = name.
Proof. intros Hn. unfold basename. by rewrite base_loop_last. Qed.

(** ** A small machine

    The directory in frame 1, tables in frames 2 and 3, the stack of free pages in frame
    4, a file of two pages in frames 5 and 6, and the free frames 7 to 10. *)
Module Tiny.

Definition free : list Z := [28672; 32768; 36864; 40960].

Definition words : list (Z * Z) :=
  [(8188, enc_pde (new_pde 1)); (4096, enc_pde (new_pde 2)); (8184, enc_pde (new_pde 3));
   (8192, enc_pte (new_pte 16384 false true false false)); (8196, enc_pte (new_pte 20480 false true false false));
   (8200, enc_pte (new_pte 24576 false true false false));
   (16396, 28672); (16392, 32768); (16388, 36864); (16384, 40960);
   (20480, 1179403647); (20484, 65793); (20496, 196610); (20500, 1); (20504, 1073741824); (20508, 52); (20524, 1);
   (20532, 1); (20536, 4096); (20540, 1073741824); (20548, 5); (20552, 4100); (20556, 7); (20560, 4096);
   (24576, 1819043144); (24580, 555819375)].

Definition machine : mach := Mach (list_to_map words) true 4096 4096 0 0 0 4096 16 [].

Definition space : addrspace_t := AddrSpace 100 [] [] [] 4096 4290768896.
Definition kernel0 : kernel := set_k_spaces (empty_kernel machine) {[200 := space]}.

Definition program : list phdr := [Phdr 1 4096 1073741824 5 4100 7].

Lemma machine_pde d : 0 <= d < 1024 -> pde_at machine d =
  if decide (d = 1023) then new_pde 1 else if decide (d = 0) then new_pde 2 else if decide (d = 1022) then new_pde 3 else pde0.
Proof.
  intros Hd. destruct (decide (d = 1023)) as [->|]; [vm_compute; reflexivity|].
  destruct (decide (d = 0)) as [->|]; [vm_compute; reflexivity|].
  destruct (decide (d = 1022)) as [->|]; [vm_compute; reflexivity|].
  unfold pde_at. change (paging_curpd machine) with 4096. change (phys machine) with (list_to_map words : gmap Z Z).
  unfold words, list_to_map. cbn [foldr uncurry fst snd]. by rewrite !rd_insert, !decide_False by lia.
Qed.

Lemma machine_selfmap : selfmap machine.
Proof. unfold selfmap. rewrite machine_pde by lia. repeat split; vm_compute; congruence. Qed.

Lemma machine_pages d : 0 <= d < 1023 -> pde_exists (pde_at machine d) = true -> pde_page (pde_at machine d) = 2 /\ d = 0 \/
  pde_page (pde_at machine d) = 3 /\ d = 1022.
Proof.
  intros Hd. rewrite machine_pde, (decide_False (P := d = 1023)) by lia.
  case_decide; [by left|]. case_decide; [by right|done].
Qed.

Lemma machine_separate : separate machine.
Proof.
  split.
  - intros d Hd Hx. destruct (machine_pages d Hd Hx) as [[-> _]|[-> _]]; done.
  - intros d d' Hd Hd' Hne Hx Hx'. destruct (machine_pages d Hd Hx) as [[-> ?]|[-> ?]], (machine_pages d' Hd' Hx') as [[-> ?]|[-> ?]]; lia.
Qed.

Lemma machine_frame p : 0 <= p -> 4 <= p / 4096 -> data_frame machine p.
Proof.
  intros Hp Hf. split; [done|]. split; [change (paging_curpd machine) with 4096; lia|].
  intros d Hd Hx. destruct (machine_pages d Hd Hx) as [[-> _]|[-> _]]; lia.
Qed.

Lemma machine_slot i f : free !! i = Some f -> translate (phys machine) 4096 (slot machine i) = Some (16396 - 4 * Z.of_nat i) /\
  rd (phys machine) (16396 - 4 * Z.of_nat i) = f.
Proof. intros Hi. do 4 (destruct i as [|i]; [injection Hi as <-; vm_compute; done|]). done. Qed.

Lemma machine_layout : layout machine free.
Proof.
  split.
  - exact machine_selfmap.
  - exact machine_separate.
  - vm_compute. reflexivity.
  - unfold stack_ok. simpl. lia.
  - reflexivity.
  - vm_compute. split; congruence.
  - intros i f Hi. destruct (machine_slot i f Hi) as [H1 H2]. pose proof (lookup_lt_Some _ _ _ Hi) as Hlt. simpl in Hlt.
    exists (16396 - 4 * Z.of_nat i). assert (E : (16396 - 4 * Z.of_nat i) / 4096 = 4) by (symmetry; apply (Z.div_unique _ _ _ (12 - 4 * Z.of_nat i)); lia).
    split_and!; [done|done|apply machine_frame; lia|]. rewrite E. by apply (bool_decide_unpack _).
  - by apply (bool_decide_unpack _).
  - intros f Hf. apply list_elem_of_lookup_1 in Hf as [i Hi]. unfold addr32.
    do 4 (destruct i as [|i]; [injection Hi as <-; split_and!; try done; apply machine_frame; done|]). done.
Qed.

Lemma machine_data t : t = 5 \/ t = 6 -> data machine free (4096 * t).
Proof.
  intros Ht. assert (E : 4096 * t / 4096 = t) by (rewrite Z.mul_comm; apply Z.div_mul; lia). split; [apply machine_frame; lia|].
  rewrite E. split; [destruct Ht as [->| ->]; by apply (bool_decide_unpack _)|].
  intros i q Hi Hq. destruct (lookup_lt_is_Some_2 free i Hi) as [f Hf]. destruct (machine_slot i f Hf) as [H1 _].
  simpl in Hi. change (paging_curpd machine) with 4096 in Hq. rewrite H1 in Hq. injection Hq as <-.
  assert ((16396 - 4 * Z.of_nat i) / 4096 = 4) as -> by (symmetry; apply (Z.div_unique _ _ _ (12 - 4 * Z.of_nat i)); lia). lia.
Qed.

Lemma machine_file : file_ok machine free 4096 8192.
Proof.
  split.
  - intros t H0 Ht. assert (t = 0 \/ t = 1) as [->| ->] by lia; (split; [vm_compute; reflexivity|]).
    + exists 20480. split_and!; [vm_compute; reflexivity|done|by unfold addr32|apply (machine_data 5); lia].
    + exists 24576. split_and!; [vm_compute; reflexivity|done|by unfold addr32|apply (machine_data 6); lia].
  - intros t u q H0 Ht H1 Hu. assert (t = 0 \/ t = 1) as [->| ->] by lia; assert (u = 0 \/ u = 1) as [->| ->] by lia; try done;
      vm_compute; congruence.
Qed.

Lemma machine_program : program_ok machine free 4096 8192 84 program.
Proof.
  split.
  - vm_compute. split_and!; congruence.
  - exact machine_file.
  - done.
  - intros h ->%list_elem_of_singleton _. split; [split; vm_compute; try split; congruence|vm_compute; split; congruence].
  - intros i j h h' Hi Hj Hlt. apply lookup_lt_Some in Hi, Hj. simpl in Hi, Hj. lia.
  - intros i h Hi _ _. pose proof (lookup_lt_Some _ _ _ Hi) as Hlt. simpl in Hlt. assert (i = 0%nat) as -> by lia.
    injection Hi as <-. split; [vm_compute; congruence|]. intros j h' Hj Hne. apply lookup_lt_Some in Hj. simpl in Hj. lia.
  - vm_compute. lia.
Qed.


Lemma elf_load_correct_witness :
  exists k', elf_load 200 4096 8192 kernel0 = Ret 1073741824 k' /\
    let m' := set_curpd (k_mach k') 4096 in
    forall j, 0 <= j < 4100 -> exists b, load8 (1073741824 + j) m' = Ret b m' /\
      if j <? 5 then load8 (8192 + j) machine = Ret b machine else b = 0.
Proof.
  destruct (elf_load_correct kernel0 200 space 4096 8192 84 1073741824 52 program free) as (k' & E & _ & Hb).
  - reflexivity.
  - exact machine_layout.
  - intros Hpd. vm_compute in Hpd. congruence.
  - exact machine_program.
  - intros x _. reflexivity.
  - split; try (vm_compute; reflexivity).
    + vm_compute. split_and!; reflexivity.
    + vm_compute. split; reflexivity.
    + exists 1. vm_compute. split; reflexivity.
  - lia.
  - lia.
  - simpl. lia.
  - intros i h Hi. pose proof (lookup_lt_Some _ _ _ Hi) as Hlt. simpl in Hlt. assert (i = 0%nat) as -> by lia.
    injection Hi as <-. vm_compute. reflexivity.
  - exists k'. split; [exact E|]. intros m' j Hj. exact (Hb (Phdr 1 4096 1073741824 5 4100 7) j ltac:(left) eq_refl Hj).
Defined.

(** What the code does not do right.  A segment that starts inside a page and crosses into
    the next one: the second page is never mapped. *)
Example unaligned_segment_incomplete :
  match elf_loadseg (1073741824 + 4080) 32 8192 32 200 true kernel0 with
  | Ret r k' => (r =? 0) && bool_decide (translate (phys (k_mach k')) 4096 (1073741824 + 4096) = None)
  | Stop _ _ => false
  end = true.
Proof. vm_compute. reflexivity. Qed.

(** A module whose name has no slash loses its first letter. *)
Example basename_init : basename [105; 110; 105; 116] = [110; 105; 116].
Proof. reflexivity. Qed.

Lemma alloc_at_correct_witness :
  exists m' fl' q, memuser_alloc_at 200 1073741824 NULL true kernel0 =
      Ret 0 (set_k_spaces (set_k_mach kernel0 m') {[200 := AddrSpace 100 [1073741824] [] [] 4096 4290768896]}) /\
    layout m' fl' /\ q ∈ free /\ translate (phys m') (paging_curpd m') 1073741827 = Some (q + 3).
Proof.
  destruct (alloc_at_correct kernel0 200 space 1073741824 NULL true 28672 32768 [36864; 40960]) as (m' & fl' & q & E & Hl & _ & _ & Hm & Hq & _).
  - reflexivity.
  - reflexivity.
  - exact machine_layout.
  - intros Hpd. vm_compute in Hpd. congruence.
  - vm_compute. split; congruence.
  - done.
  - exists m', fl', q. split; [exact E|]. split; [exact Hl|]. split; [exact Hq|]. exact (Hm 1073741827 eq_refl).
Defined.

End Tiny.
