(* ===== verification/CString.v ===== *)
(** * C strings and memory blocks (lib/stdlibc/string.c, strings.c, ctype.c)

    Memory is a finite map from addresses to bytes; an access outside it is a
    page fault.  [char] is signed, as gcc has it on IA-32.  Loops that end at
    a NUL byte or at the end of the memory get the number of mapped bytes plus
    one as fuel: a walk over that many consecutive addresses leaves the mapped
    ones, so the branch without fuel is never reached on a string. *)

From S2P Require Import Prelude Machine.

Abbreviation bytes := (gmap Z Z).

(** ** Bytes and words *)

Definition ld (a : Z) : cmd bytes Z := fun m =>
  match m !! a with Some b => Ret b m | None => Stop (PageFault a) m end.

Definition st (a v : Z) : cmd bytes unit := fun m =>
  match m !! a with Some _ => Ret tt (<[a := w8 v]> m) | None => Stop (PageFault a) m end.

(** The value of a [char]. *)
Definition ldc (a : Z) : cmd bytes Z := b ← ld a; mret (s8 b).

(** An [int] as its four bytes. *)
Fixpoint ldn (n : nat) (a : Z) : cmd bytes (list Z) :=
  match n with O => mret [] | S n => b ← ld a; bs ← ldn n (a + 1); mret (b :: bs) end.
Fixpoint stn (a : Z) (bs : list Z) : cmd bytes unit :=
  match bs with [] => mret tt | b :: bs => st a b;; stn (a + 1) bs end.

Definition le32 (bs : list Z) : Z := foldr (fun b r => b + 256 * r) 0 bs.
Definition ldi (a : Z) : cmd bytes Z := bs ← ldn 4 a; mret (s32 (le32 bs)).

(** [dest[i] = src[i]] for an element of [n] bytes at offset [k] *)
Definition copy_unit (n : nat) (dest src k : Z) : cmd bytes unit :=
  bs ← ldn n (src + k); stn (dest + k) bs.

(** [for (i=n;i>0;i--) body(i-1)] *)
Fixpoint for_down {S} (n : nat) (body : Z -> cmd S unit) : cmd S unit :=
  match n with O => mret tt | S n => body (Z.of_nat n);; for_down n body end.

Definition scan_fuel (m : bytes) : nat := S (size m).

(** ** Memory blocks *)

Fixpoint memccpy_loop (n : nat) (dest src c i : Z) : cmd bytes unit :=
  match n with
  | O => mret tt
  | S n =>
      b ← ld (src + i); st (dest + i) b;;
      x ← ld (src + i);
      if x =? w8 c then mret tt else memccpy_loop n dest src c (i + 1)
  end.
Definition memccpy (dest src c n : Z) : cmd bytes Z := memccpy_loop (Z.to_nat n) dest src c 0;; mret dest.

Fixpoint memchr_loop (n : nat) (src c i : Z) : cmd bytes Z :=
  match n with
  | O => mret NULL
  | S n => b ← ld (src + i); if b =? w8 c then mret (src + i) else memchr_loop n src c (i + 1)
  end.
Definition memchr (src c n : Z) : cmd bytes Z := memchr_loop (Z.to_nat n) src c 0.

(** [load] reads an element, [step] is its size; 0 when all are equal. *)
Fixpoint cmp_loop (load : Z -> cmd bytes Z) (step : Z) (n : nat) (a b : Z) : cmd bytes Z :=
  match n with
  | O => mret 0
  | S n =>
      x ← load a; y ← load b;
      if negb (x =? y) then mret (s32 (x - y)) else cmp_loop load step n (a + step) (b + step)
  end.
Definition memcmp (srca srcb n : Z) : cmd bytes Z :=
  if srca =? srcb then mret 0 else
  let fast := n / 4 in
  r ← cmp_loop ldi 4 (Z.to_nat fast) srca srcb;
  if negb (r =? 0) then mret r
  else cmp_loop ld 1 (Z.to_nat (n mod 4)) (srca + fast * 4) (srcb + fast * 4).

Definition copy_forward (dest src n : Z) : cmd bytes unit :=
  let fast := n / 4 in
  for_from (Z.to_nat fast) 0 (fun i => copy_unit 4 dest src (4 * i));;
  for_from (Z.to_nat (n mod 4)) 0 (fun i => copy_unit 1 dest src (fast * 4 + i)).

Definition copy_backward (dest src n : Z) : cmd bytes unit :=
  let fast := n / 4 in
  for_down (Z.to_nat (n mod 4)) (fun i => copy_unit 1 dest src (fast * 4 + i));;
  for_down (Z.to_nat fast) (fun i => copy_unit 4 dest src (4 * i)).

Definition memcpy (dest src n : Z) : cmd bytes Z :=
  if dest =? src then mret dest else copy_forward dest src n;; mret dest.

Definition memmove (dest src n : Z) : cmd bytes Z :=
  if dest =? src then mret dest else
  (if dest <? src then copy_forward dest src n else copy_backward dest src n);; mret dest.

Definition memset (dest val n : Z) : cmd bytes Z :=
  for_from (Z.to_nat n) 0 (fun i => st (dest + i) val);; mret dest.

Definition mempcpy (dest src n : Z) : cmd bytes Z := memcpy dest src n;; mret (dest + n).

Definition memswap (m1 m2 n : Z) : cmd bytes unit :=
  for_from (Z.to_nat n) 0 (fun i =>
    x ← ld (m1 + i); y ← ld (m2 + i); st (m1 + i) y;; st (m2 + i) x).

(** ** Strings *)

(** [for (i=0;str[i];i++)] *)
Fixpoint strlen_loop (fuel : nat) (str i : Z) : cmd bytes Z :=
  match fuel with
  | O => stop_with (PageFault (str + i))
  | S fuel => b ← ld (str + i); if b =? 0 then mret i else strlen_loop fuel str (i + 1)
  end.
Definition strlen (str : Z) : cmd bytes Z := fun m =>
  if str =? NULL then Ret 0 m else strlen_loop (scan_fuel m) str 0 m.

Fixpoint strcpy_loop (fuel : nat) (dest src i : Z) : cmd bytes Z :=
  match fuel with
  | O => stop_with (PageFault (src + i))
  | S fuel => b ← ld (src + i); if b =? 0 then mret i else st (dest + i) b;; strcpy_loop fuel dest src (i + 1)
  end.
Definition strcpy (dest src : Z) : cmd bytes Z := fun m =>
  (i ← strcpy_loop (scan_fuel m) dest src 0; st (dest + i) 0;; mret dest) m.

(** The end is not terminated. *)
Definition stpcpy (dest src : Z) : cmd bytes Z := fun m =>
  (i ← strcpy_loop (scan_fuel m) dest src 0; mret (dest + i)) m.

(** The address of the appended part is returned. *)
Definition strcat (str1 str2 : Z) : cmd bytes Z := n ← strlen str1; strcpy (str1 + n) str2.

Fixpoint strchr_loop (fuel : nat) (str chr i : Z) : cmd bytes Z :=
  match fuel with
  | O => stop_with (PageFault (str + i))
  | S fuel =>
      c ← ldc (str + i);
      if negb (c =? 0) && negb (c =? s8 chr) then strchr_loop fuel str chr (i + 1)
      else mret (if c =? chr then str + i else NULL)
  end.
Definition strchr (str chr : Z) : cmd bytes Z := fun m => strchr_loop (scan_fuel m) str chr 0 m.

Fixpoint strrchr_loop (fuel : nat) (s c i l : Z) : cmd bytes Z :=
  match fuel with
  | O => stop_with (PageFault (s + i))
  | S fuel =>
      x ← ldc (s + i);
      if x =? 0 then mret l else strrchr_loop fuel s c (i + 1) (if x =? c then s + i else l)
  end.
Definition strrchr (s c : Z) : cmd bytes Z := fun m => strrchr_loop (scan_fuel m) s c 0 NULL m.

(** Both strings, at most [lim] characters when there is a limit. *)
Fixpoint strcmp_loop (fuel : nat) (a b i : Z) (lim : option Z) : cmd bytes Z :=
  match fuel with
  | O => stop_with (PageFault (a + i))
  | S fuel =>
      x ← ldc (a + i); y ← ldc (b + i);
      if (negb (x =? 0) || negb (y =? 0)) && from_option (fun n => i <? n) true lim then
        if negb (x =? y) then mret (x - y) else strcmp_loop fuel a b (i + 1) lim
      else mret 0
  end.
Definition strcmp (a b : Z) : cmd bytes Z := fun m =>
  if a =? b then Ret 0 m else strcmp_loop (scan_fuel m) a b 0 None m.
Definition strncmp (a b n : Z) : cmd bytes Z := fun m =>
  if a =? b then Ret 0 m else strcmp_loop (scan_fuel m) a b 0 (Some n) m.

(** strings.c: characters are compared as they are, and only while neither
    string has ended. *)
Fixpoint strcasecmp_loop (fuel : nat) (a b i : Z) (lim : option Z) : cmd bytes Z :=
  match fuel with
  | O => stop_with (PageFault (a + i))
  | S fuel =>
      x ← ldc (a + i); y ← ldc (b + i);
      if (negb (x =? 0) && negb (y =? 0)) && from_option (fun n => i <? n) true lim then
        if negb (x =? y) then mret (x - y) else strcasecmp_loop fuel a b (i + 1) lim
      else mret 0
  end.
Definition strcasecmp (a b : Z) : cmd bytes Z := fun m => strcasecmp_loop (scan_fuel m) a b 0 None m.
Definition strncasecmp (a b n : Z) : cmd bytes Z := fun m => strcasecmp_loop (scan_fuel m) a b 0 (Some n) m.

Definition strncat (src1 src2 n : Z) : cmd bytes Z :=
  len2 ← strlen src2;
  let src2len := if n <? len2 then n else len2 in
  src1len ← strlen src1;
  for_from (Z.to_nat src2len) 0 (fun i => b ← ld (src2 + i); st (src1 + src1len + i) b);;
  st (src1 + src1len + src2len) 0;;
  mret src1.

(** [size_t]: with [n] 0 the length is 2^32-1. *)
Definition strncpy (dest src n : Z) : cmd bytes Z :=
  l ← strlen src;
  let len := if n <? l + 1 then n else l + 1 in
  memcpy dest src (w32 (len - 1));;
  st (dest + w32 (len - 1)) 0;;
  mret dest.

(** ** Spans and tokens *)

(** The set of characters of a string, as the table [matchmap]. *)
Fixpoint read_map (fuel : nat) (map : Z) (acc : list Z) : cmd bytes (list Z) :=
  match fuel with
  | O => stop_with (PageFault map)
  | S fuel => b ← ld map; if b =? 0 then mret acc else read_map fuel (map + 1) (b :: acc)
  end.

(** [matchmap[0] = parity], then [while (matchmap[*s++]^parity) n++] *)
Fixpoint span_loop (fuel : nat) (set : list Z) (parity : bool) (s n : Z) : cmd bytes Z :=
  match fuel with
  | O => stop_with (PageFault s)
  | S fuel =>
      b ← ld s;
      let entry := if b =? 0 then parity else bool_decide (b ∈ set) in
      if xorb entry parity then span_loop fuel set parity (s + 1) (n + 1) else mret n
  end.
Definition strxspn (s map : Z) (parity : bool) : cmd bytes Z := fun m =>
  (set ← read_map (scan_fuel m) map []; span_loop (scan_fuel m) set parity s 0) m.

Definition strspn (s accept : Z) : cmd bytes Z := strxspn s accept false.
Definition strcspn (s reject : Z) : cmd bytes Z := strxspn s reject true.

Definition strpbrk (s accept : Z) : cmd bytes Z :=
  n ← strxspn s accept true; b ← ld (s + n); mret (if b =? 0 then NULL else s + n).

(** The token and the new value of [*stringp]. *)
Definition strsep (s delim : Z) : cmd bytes (Z * Z) :=
  if s =? NULL then mret (NULL, s) else
  e ← strpbrk s delim;
  if negb (e =? NULL) then st e 0;; mret (s, e + 1) else mret (s, NULL).

(** [holder] is the static variable; the result and its new value. *)
Fixpoint strtok_loop (fuel : nat) (holder delim : Z) : cmd bytes (Z * Z) :=
  match fuel with
  | O => stop_with (PageFault holder)
  | S fuel =>
      '(s, holder) ← strsep holder delim;
      if s =? NULL then mret (s, holder) else
      b ← ld s; if b =? 0 then strtok_loop fuel holder delim else mret (s, holder)
  end.
Definition strtok (holder s delim : Z) : cmd bytes (Z * Z) := fun m =>
  strtok_loop (scan_fuel m) (if negb (s =? NULL) then s else holder) delim m.

(** ** Searching *)

(** [while (j<=n-m)]; [fuel] positions are left. *)
Fixpoint memmem_loop (fuel : nat) (y n x m k l j : Z) : cmd bytes Z :=
  match fuel with
  | O => mret NULL
  | S fuel =>
      if j <=? n - m then
        x1 ← ld (x + 1); y1 ← ld (y + j + 1);
        if negb (x1 =? y1) then memmem_loop fuel y n x m k l (j + k)
        else
          r ← memcmp (x + 2) (y + j + 2) (m - 2);
          ok ← (if r =? 0 then x0 ← ld x; y0 ← ld (y + j); mret (x0 =? y0) else mret false);
          if ok : bool then mret (y + j) else memmem_loop fuel y n x m k l (j + l)
      else mret NULL
  end.

Fixpoint memmem_one (n : nat) (y x : Z) : cmd bytes Z :=
  match n with
  | O => mret NULL
  | S n => a ← ld y; b ← ld x; if a =? b then mret y else memmem_one n (y + 1) x
  end.

Definition memmem (haystack n needle m : Z) : cmd bytes Z :=
  if (n <? m) || (m =? 0) || (n =? 0) then mret NULL else
  if negb (m =? 1) then
    x0 ← ld needle; x1 ← ld (needle + 1);
    let '(k, l) := if x0 =? x1 then (2, 1) else (1, 2) in
    memmem_loop (Z.to_nat (n + 1)) haystack n needle m k l 0
  else memmem_one (Z.to_nat n) haystack needle.

Definition strstr (haystack needle : Z) : cmd bytes Z :=
  n ← strlen haystack; m ← strlen needle; memmem haystack n needle m.

(** ** Character classes (ctype.c) *)

Definition iscntrl (c : Z) : bool := c <? 32.
Definition isdigit (c : Z) : bool := (48 <=? c) && (c <=? 57).
Definition islower (c : Z) : bool := (97 <=? c) && (c <=? 122).
Definition isprint (c : Z) : bool := 32 <=? c.
Definition isspace (c : Z) : bool :=
  (c =? 32) || (c =? 12) || (c =? 10) || (c =? 13) || (c =? 9) || (c =? 11).
Definition isblank (c : Z) : bool := isspace c.
Definition isupper (c : Z) : bool := (65 <=? c) && (c <=? 90).
Definition isxdigit (c : Z) : bool := isdigit c || ((65 <=? c) && (c <=? 70)) || ((97 <=? c) && (c <=? 102)).
Definition isalpha (c : Z) : bool := isupper c || islower c.
Definition isalnum (c : Z) : bool := isalpha c || isdigit c.
Definition isgraph (c : Z) : bool := isalnum c && negb (c =? 32).
Definition ispunct (c : Z) : bool := isprint c && negb (isalnum c).
Definition tolower (c : Z) : Z := s8 (if isupper c then c + 32 else c).
Definition toupper (c : Z) : Z := s8 (if islower c then c - 32 else c).

(** strings.c: the lowest bit that is set, counted from 1. *)
Fixpoint ffs_loop (n : nat) (x i : Z) : Z :=
  match n with O => 0 | S n => if Z.testbit x i then i + 1 else ffs_loop n x (i + 1) end.
Definition ffs (x : Z) : Z := ffs_loop 32 x 0.

(** ** Numbers *)

Definition digitval (ch : Z) : Z :=
  if (48 <=? ch) && (ch <=? 57) then ch - 48
  else if (65 <=? ch) && (ch <=? 90) then ch - 65 + 10
  else if (97 <=? ch) && (ch <=? 122) then ch - 97 + 10
  else -1.

Fixpoint skip_space (fuel : nat) (p n : Z) : cmd bytes (Z * Z) :=
  match fuel with
  | O => stop_with (PageFault p)
  | S fuel =>
      if n =? 0 then mret (p, n) else
      b ← ld p; if isspace b then skip_space fuel (p + 1) (n - 1) else mret (p, n)
  end.

(** [n>=2 && nptr[0]=='0' && (nptr[1]=='x' || nptr[1]=='X')] *)
Definition hex_prefix (p n : Z) : cmd bytes bool :=
  if n <? 2 then mret false else
  a ← ld p; if negb (a =? 48) then mret false else
  b ← ld (p + 1); mret ((b =? 120) || (b =? 88)).

Definition read_base (base p n : Z) : cmd bytes (Z * Z * Z) :=
  if base =? 0 then
    h ← hex_prefix p n;
    if h : bool then mret (16, p + 2, n - 2)
    else if n <? 1 then mret (10, p, n)
    else a ← ld p; mret (if a =? 48 then (8, p + 1, n - 1) else (10, p, n))
  else if base =? 16 then
    h ← hex_prefix p n; mret (if h : bool then (16, p + 2, n - 2) else (16, p, n))
  else mret (base, p, n).

Fixpoint digits_loop (fuel : nat) (base p n v : Z) : cmd bytes (Z * Z) :=
  match fuel with
  | O => stop_with (PageFault p)
  | S fuel =>
      if n =? 0 then mret (v, p) else
      c ← ldc p;
      let d := digitval c in
      if (0 <=? d) && (d <? base) then digits_loop fuel base (p + 1) (n - 1) (w64 (v * base + d)) else mret (v, p)
  end.

(** The value and the end pointer. *)
Definition strntoumax (p base n : Z) : cmd bytes (Z * Z) := fun m =>
  ('(p, n) ← skip_space (scan_fuel m) p n;
   '(minus, p, n) ← (if n =? 0 then mret (false, p, n) else
      c ← ldc p; mret (if (c =? 45) || (c =? 43) then (c =? 45, p + 1, n - 1) else (false, p, n)));
   '(base, p, n) ← read_base base p n;
   '(v, p) ← digits_loop (scan_fuel m) base p n 0;
   mret (if minus : bool then w64 (- v) else v, p)) m.

(** [intmax_t] is 64 bits wide, [~(size_t)0] is 2^32-1. *)
Definition s64 (x : Z) : Z := let y := w64 x in if y <? 9223372036854775808 then y else y - 18446744073709551616.
Definition strntoimax (p base n : Z) : cmd bytes (Z * Z) := '(v, e) ← strntoumax p base n; mret (s64 v, e).
Definition strtoumax (p base : Z) : cmd bytes (Z * Z) := strntoumax p base 4294967295.
Definition strtoimax (p base : Z) : cmd bytes (Z * Z) := '(v, e) ← strntoumax p base 4294967295; mret (s64 v, e).

(** * Specification

    [block m a bs]: the bytes [bs] lie at [a]; [put a bs m]: the memory after
    [bs] has been written at [a]; [cstr m a s]: a NUL-terminated string. *)

Definition block (m : bytes) (a : Z) (bs : list Z) : Prop :=
  forall i b, bs !! i = Some b -> m !! (a + Z.of_nat i) = Some b.

Definition mapped (m : bytes) (a n : Z) : Prop :=
  forall i, 0 <= i < n -> is_Some (m !! (a + i)).

Definition is_byte (b : Z) : Prop := 0 <= b < 256.

Definition cstr (m : bytes) (a : Z) (s : list Z) : Prop :=
  block m a (s ++ [0]) /\ Forall (fun b => 0 < b < 256) s.

Fixpoint put (a : Z) (bs : list Z) (m : bytes) : bytes :=
  match bs with [] => m | b :: bs => put (a + 1) bs (<[a := b]> m) end.

(** ** Blocks *)

Lemma block_cons m a b bs : block m a (b :: bs) <-> m !! a = Some b /\ block m (a + 1) bs.
Proof.
  split.
  - intros H. split.
    + specialize (H 0%nat b eq_refl). by rewrite Z.add_0_r in H.
    + intros i x Hx. specialize (H (S i) x Hx). by replace (a + 1 + Z.of_nat i) with (a + Z.of_nat (S i)) by lia.
  - intros [H1 H2] [|i] x Hx; simpl in Hx; simplify_eq.
    + by rewrite Z.add_0_r.
    + specialize (H2 i x Hx). by replace (a + Z.of_nat (S i)) with (a + 1 + Z.of_nat i) by lia.
Qed.

Lemma block_app m a l k :
  block m a (l ++ k) <-> block m a l /\ block m (a + Z.of_nat (length l)) k.
Proof.
  revert a. induction l as [|b l IH]; intros a; simpl.
  - rewrite Z.add_0_r. split; [intros H; split; [by intros ? ?|done] | by intros [_ H]].
  - rewrite !block_cons, IH. replace (a + 1 + Z.of_nat (length l)) with (a + Z.of_nat (S (length l))) by lia.
    tauto.
Qed.

(** Consecutive addresses are distinct, so a block is no longer than the memory. *)
Lemma block_size m a bs : block m a bs -> (length bs <= size m)%nat.
Proof.
  revert m a. induction bs as [|b bs IH]; intros m a H; [simpl; lia|].
  apply block_cons in H as [H1 H2]. simpl.
  rewrite <- (insert_delete_id m a b H1), map_size_insert_None by apply lookup_delete_eq.
  apply le_n_S, (IH _ (a + 1)). intros i x Hx.
  rewrite lookup_delete_ne by lia. by apply H2.
Qed.

Lemma block_ext m a bs cs : length bs = length cs -> block m a bs -> block m a cs -> bs = cs.
Proof.
  revert a cs. induction bs as [|b bs IH]; intros a [|c cs] Hl Hb Hc; simpl in Hl; try lia; [done|].
  apply block_cons in Hb as [Hb1 Hb2]. apply block_cons in Hc as [Hc1 Hc2].
  rewrite Hb1 in Hc1. simplify_eq. f_equal. by apply (IH (a + 1)); [lia|..].
Qed.

Lemma put_lookup_out a bs m x : x < a \/ a + Z.of_nat (length bs) <= x -> put a bs m !! x = m !! x.
Proof.
  revert a m. induction bs as [|b bs IH]; intros a m H; [done|]. cbn [put length] in *.
  rewrite IH by lia. apply lookup_insert_ne. lia.
Qed.

Lemma put_block a bs m : block (put a bs m) a bs.
Proof.
  revert a m. induction bs as [|b bs IH]; intros a m; [by intros ? ?|].
  apply block_cons. split; [|apply IH].
  simpl. rewrite put_lookup_out by lia. apply lookup_insert_eq.
Qed.

Lemma put_app a l k m : put a (l ++ k) m = put (a + Z.of_nat (length l)) k (put a l m).
Proof.
  revert a m. induction l as [|b l IH]; intros a m; simpl; [by rewrite Z.add_0_r|].
  rewrite IH. f_equal. lia.
Qed.

Lemma put_mapped a bs m b n : mapped m b n -> mapped (put a bs m) b n.
Proof.
  revert a m. induction bs as [|c bs IH]; intros a m H; [done|]. simpl. apply IH.
  intros i Hi. destruct (decide (a = b + i)) as [->|].
  - rewrite lookup_insert_eq. by eexists.
  - rewrite lookup_insert_ne by done. by apply H.
Qed.

Lemma put_comm a b bs cs m :
  a + Z.of_nat (length bs) <= b \/ b + Z.of_nat (length cs) <= a -> put a bs (put b cs m) = put b cs (put a bs m).
Proof.
  intros Hd. apply map_eq. intros x.
  destruct (decide (a <= x < a + Z.of_nat (length bs))) as [Ha|Ha].
  - rewrite (put_lookup_out b cs _ x) by lia.
    destruct (lookup_lt_is_Some_2 bs (Z.to_nat (x - a))) as [v Hv]; [lia|].
    pose proof (put_block a bs (put b cs m) _ _ Hv) as H1.
    pose proof (put_block a bs m _ _ Hv) as H2.
    rewrite Z2Nat.id in H1, H2 by lia. replace (a + (x - a)) with x in H1, H2 by lia. by rewrite H1, H2.
  - rewrite (put_lookup_out a bs _ x) by lia.
    destruct (decide (b <= x < b + Z.of_nat (length cs))) as [Hb|Hb].
    + destruct (lookup_lt_is_Some_2 cs (Z.to_nat (x - b))) as [v Hv]; [lia|].
      pose proof (put_block b cs m _ _ Hv) as H1.
      pose proof (put_block b cs (put a bs m) _ _ Hv) as H2.
      rewrite Z2Nat.id in H1, H2 by lia. replace (b + (x - b)) with x in H1, H2 by lia. by rewrite H1, H2.
    + by rewrite !put_lookup_out by lia.
Qed.

(** ** Element accesses *)

Lemma ldn_block n a bs m : length bs = n -> block m a bs -> ldn n a m = Ret bs m.
Proof.
  revert a bs. induction n as [|n IH]; intros a [|b bs] Hl Hb; simpl in Hl; try lia; [done|].
  apply block_cons in Hb as [H1 H2]. cbn [ldn].
  rewrite (bind_Ret (ld a) _ m b m) by (unfold ld; by rewrite H1).
  by rewrite (bind_Ret _ _ m bs m (IH (a + 1) bs ltac:(lia) H2)).
Qed.

Lemma st_ok a v m : is_byte v -> is_Some (m !! a) -> st a v m = Ret tt (<[a := v]> m).
Proof. unfold st. intros Hv [x ->]. by rewrite w8_small. Qed.

Lemma ld_ok a b m : m !! a = Some b -> ld a m = Ret b m.
Proof. unfold ld. by intros ->. Qed.

Lemma stn_put a bs m :
  Forall is_byte bs -> mapped m a (Z.of_nat (length bs)) -> stn a bs m = Ret tt (put a bs m).
Proof.
  revert a m. induction bs as [|b bs IH]; intros a m Hf Hm; [done|]. cbn [stn].
  apply Forall_cons in Hf as [Hb Hf]. cbn [length] in Hm.
  rewrite (bind_Ret _ _ m tt (<[a := b]> m)).
  - apply IH; [done|]. intros i Hi.
    destruct (decide (a = a + 1 + i)) as [|]; [lia|].
    rewrite lookup_insert_ne by done. replace (a + 1 + i) with (a + (1 + i)) by lia. apply Hm. lia.
  - apply st_ok; [done|]. specialize (Hm 0). rewrite Z.add_0_r in Hm. apply Hm. lia.
Qed.

(** ** Copies

    [bs] are the [n] bytes at [src], and [dest] has room for them.  After [k]
    bytes a forward copy has put [take k bs]; a backward copy has put
    [drop k bs] when it is down to offset [k].  What is still to be read is
    untouched, since the destination lies on the side already passed. *)

Lemma copy_unit_ok u dest src k cs m :
  length cs = u -> Forall is_byte cs -> block m (src + k) cs -> mapped m (dest + k) (Z.of_nat u) ->
  copy_unit u dest src k m = Ret tt (put (dest + k) cs m).
Proof.
  intros Hl Hf Hb Hm. unfold copy_unit. rewrite (bind_Ret _ _ _ _ _ (ldn_block u _ cs m Hl Hb)).
  subst u. by apply stn_put.
Qed.

Section copies.
Context (m : bytes) (bs : list Z) (dest src : Z).
Hypothesis bytes_src : Forall is_byte bs.
Hypothesis at_src : block m src bs.
Hypothesis room : mapped m dest (Z.of_nat (length bs)).

Definition fwd (k : nat) : bytes := put dest (take k bs) m.
Definition bwd (k : nat) : bytes := put (dest + Z.of_nat k) (drop k bs) m.

Lemma src_at k u : (k + u <= length bs)%nat ->
  block m (src + Z.of_nat k) (take u (drop k bs)) /\ length (take u (drop k bs)) = u.
Proof.
  intros Hk. split; [|rewrite length_take, length_drop; lia].
  intros i b Hi. apply lookup_take_Some in Hi as [Hi _]. rewrite lookup_drop in Hi.
  rewrite <- Z.add_assoc, <- Nat2Z.inj_add. by apply at_src.
Qed.

Lemma unit_bytes k u : Forall is_byte (take u (drop k bs)).
Proof. by apply Forall_take, Forall_drop. Qed.

Lemma room_at a cs k u : (k + u <= length bs)%nat -> mapped (put a cs m) (dest + Z.of_nat k) (Z.of_nat u).
Proof. intros Hk. apply put_mapped. intros i Hi. rewrite <- Z.add_assoc. apply room. lia. Qed.

Lemma fwd_step u k : dest < src \/ src + Z.of_nat (length bs) <= dest -> (k + u <= length bs)%nat ->
  copy_unit u dest src (Z.of_nat k) (fwd k) = Ret tt (fwd (k + u)).
Proof.
  intros Hd Hk. destruct (src_at k u Hk) as [Hb Hl].
  rewrite (copy_unit_ok u _ _ _ (take u (drop k bs))); [|done|apply unit_bytes| |by apply room_at].
  - unfold fwd. rewrite <- (take_take_drop bs k u).
    rewrite put_app, length_take. by replace (Nat.min k (length bs)) with k by lia.
  - intros i b Hi. unfold fwd. rewrite put_lookup_out; [by apply Hb|].
    rewrite length_take. apply lookup_lt_Some in Hi. lia.
Qed.

Lemma bwd_step u k : src < dest -> (k + u <= length bs)%nat ->
  copy_unit u dest src (Z.of_nat k) (bwd (k + u)) = Ret tt (bwd k).
Proof.
  intros Hd Hk. destruct (src_at k u Hk) as [Hb Hl].
  rewrite (copy_unit_ok u _ _ _ (take u (drop k bs))); [|done|apply unit_bytes| |by apply room_at].
  - unfold bwd. rewrite put_comm by lia. f_equal.
    rewrite <- (take_drop u (drop k bs)) at 2. rewrite put_app, Hl, drop_drop. f_equal. lia.
  - intros i b Hi. unfold bwd. rewrite put_lookup_out; [by apply Hb|].
    apply lookup_lt_Some in Hi. lia.
Qed.

Lemma fwd_loop u o f c i : dest < src \/ src + Z.of_nat (length bs) <= dest ->
  (forall j : nat, f (Z.of_nat j) = copy_unit u dest src (Z.of_nat (o + u * j))) ->
  (o + u * (i + c) <= length bs)%nat ->
  for_from c (Z.of_nat i) f (fwd (o + u * i)) = Ret tt (fwd (o + u * (i + c))).
Proof.
  intros Hd Hf. revert i. induction c as [|c IH]; intros i Hc; [by rewrite Nat.add_0_r|].
  cbn [for_from]. rewrite (bind_Ret _ _ _ tt (fwd (o + u * i + u))).
  - replace (Z.of_nat i + 1) with (Z.of_nat (S i)) by lia.
    replace (o + u * i + u)%nat with (o + u * S i)%nat by lia. rewrite IH by lia. do 2 f_equal. lia.
  - rewrite Hf. apply fwd_step; [done|lia].
Qed.

Lemma bwd_loop u o f c : src < dest ->
  (forall j : nat, f (Z.of_nat j) = copy_unit u dest src (Z.of_nat (o + u * j))) ->
  (o + u * c <= length bs)%nat -> for_down c f (bwd (o + u * c)) = Ret tt (bwd o).
Proof.
  intros Hd Hf. induction c as [|c IH]; intros Hc; [by rewrite Nat.mul_0_r, Nat.add_0_r|].
  cbn [for_down]. rewrite (bind_Ret _ _ _ tt (bwd (o + u * c))); [apply IH; lia|].
  rewrite Hf. replace (o + u * S c)%nat with (o + u * c + u)%nat by lia. apply bwd_step; [done|lia].
Qed.

Definition word_count : nat := (length bs / 4)%nat.
Definition byte_count : nat := (length bs mod 4)%nat.

Lemma counts : Z.to_nat (Z.of_nat (length bs) / 4) = word_count /\ Z.to_nat (Z.of_nat (length bs) mod 4) = byte_count /\
  Z.of_nat (length bs) / 4 = Z.of_nat word_count /\ length bs = (4 * word_count + byte_count)%nat.
Proof.
  unfold word_count, byte_count. rewrite <- (Nat2Z.inj_div _ 4), <- (Nat2Z.inj_mod _ 4), !Nat2Z.id.
  repeat split. apply Nat.div_mod_eq.
Qed.

Lemma copy_forward_ok : dest < src \/ src + Z.of_nat (length bs) <= dest ->
  copy_forward dest src (Z.of_nat (length bs)) m = Ret tt (put dest bs m).
Proof.
  intros Hd. destruct counts as (E1 & E2 & E3 & E4). unfold copy_forward. rewrite E1, E2, E3.
  rewrite (bind_Ret _ _ m tt (fwd (0 + 4 * (0 + word_count)))).
  - replace (put dest bs m) with (fwd (4 * word_count + 1 * (0 + byte_count))).
    + pose proof (fwd_loop 1 (4 * word_count)
        (fun i => copy_unit 1 dest src (Z.of_nat word_count * 4 + i)) byte_count 0 Hd) as H.
      rewrite Nat.mul_0_r, Nat.add_0_r in H. apply H; [|lia]. intros j. f_equal. lia.
    + unfold fwd. rewrite take_ge by lia. done.
  - apply (fwd_loop 4 0 (fun i => copy_unit 4 dest src (4 * i)) word_count 0 Hd); [|lia].
    intros j. f_equal. lia.
Qed.

Lemma copy_backward_ok : src < dest ->
  copy_backward dest src (Z.of_nat (length bs)) m = Ret tt (put dest bs m).
Proof.
  intros Hd. destruct counts as (E1 & E2 & E3 & E4). unfold copy_backward. rewrite E1, E2, E3.
  rewrite (bind_Ret _ _ m tt (bwd (4 * word_count))).
  - pose proof (bwd_loop 4 0 (fun i => copy_unit 4 dest src (4 * i)) word_count Hd) as H.
    cbn [Nat.add] in H. rewrite H; [|intros j; f_equal; lia|lia]. unfold bwd. by rewrite Z.add_0_r, drop_0.
  - pose proof (bwd_loop 1 (4 * word_count)
      (fun i => copy_unit 1 dest src (Z.of_nat word_count * 4 + i)) byte_count Hd) as H.
    rewrite <- H; [|intros j; f_equal; lia|lia].
    replace (4 * word_count + 1 * byte_count)%nat with (length bs) by lia.
    unfold bwd. by rewrite drop_ge by lia.
Qed.
End copies.

(** Rewriting what is there changes nothing. *)
Lemma put_same m a bs : block m a bs -> put a bs m = m.
Proof.
  intros Hb. apply map_eq. intros x.
  destruct (decide (a <= x < a + Z.of_nat (length bs))); [|rewrite put_lookup_out; [done|lia]].
  destruct (lookup_lt_is_Some_2 bs (Z.to_nat (x - a))) as [v Hv]; [lia|].
  pose proof (put_block a bs m _ _ Hv) as H1. pose proof (Hb _ _ Hv) as H2.
  replace (a + Z.of_nat (Z.to_nat (x - a))) with x in H1, H2 by lia. congruence.
Qed.

(** [memcpy] between places that do not overlap (or downwards). *)
Lemma memcpy_ok m dest src bs n :
  n = Z.of_nat (length bs) -> Forall is_byte bs -> block m src bs -> mapped m dest n ->
  dest <= src \/ src + n <= dest -> memcpy dest src n m = Ret dest (put dest bs m).
Proof.
  intros -> Hf Hb Hm Hd. unfold memcpy. destruct (Z.eqb_spec dest src) as [->|].
  - by rewrite put_same.
  - erewrite bind_Ret; [done|]. apply copy_forward_ok; [done..|lia].
Qed.

Lemma block_put_out m a bs b cs :
  b + Z.of_nat (length cs) <= a \/ a + Z.of_nat (length bs) <= b -> block m a bs -> block (put b cs m) a bs.
Proof.
  intros Hd H i x Hi. rewrite put_lookup_out; [by apply H|]. apply lookup_lt_Some in Hi. lia.
Qed.

(** ** Comparisons *)

Lemma s32_zero x : -4294967296 < x < 4294967296 -> s32 x = 0 <-> x = 0.
Proof.
  intros Hx. split; [|by intros ->]. unfold s32. destruct (decide (0 <= x)).
  - rewrite w32_small by lia. destruct (Z.ltb_spec x 2147483648); lia.
  - rewrite w32_neg by lia. destruct (Z.ltb_spec (x + 4294967296) 2147483648); lia.
Qed.

Section compare.
Context (u : nat) (load : Z -> cmd bytes Z) (val : list Z -> Z) (m : bytes).
Hypothesis load_ok : forall a cs, length cs = u -> Forall is_byte cs -> block m a cs -> load a m = Ret (val cs) m.
Hypothesis val_inj : forall cs ds, length cs = u -> length ds = u -> Forall is_byte cs -> Forall is_byte ds ->
  -4294967296 < val cs - val ds < 4294967296 /\ (val cs = val ds -> cs = ds).

Lemma cmp_loop_ok n a b xs ys :
  length xs = (u * n)%nat -> length ys = (u * n)%nat -> Forall is_byte xs -> Forall is_byte ys ->
  block m a xs -> block m b ys ->
  exists r, cmp_loop load (Z.of_nat u) n a b m = Ret r m /\ (r = 0 <-> xs = ys).
Proof.
  revert a b xs ys. induction n as [|n IH]; intros a b xs ys Hx Hy Fx Fy Bx By.
  { exists 0. split; [done|]. destruct xs, ys; simpl in *; try lia; done. }
  rewrite <- (take_drop u xs) in Bx, Fx |- *. rewrite <- (take_drop u ys) in By, Fy |- *.
  assert (Lx : length (take u xs) = u) by (rewrite length_take; lia).
  assert (Ly : length (take u ys) = u) by (rewrite length_take; lia).
  assert (Dx : length (drop u xs) = (u * n)%nat) by (rewrite length_drop; lia).
  assert (Dy : length (drop u ys) = (u * n)%nat) by (rewrite length_drop; lia).
  revert Lx Ly Dx Dy Fx Fy Bx By.
  generalize (take u xs) (drop u xs) (take u ys) (drop u ys). clear Hx Hy xs ys.
  intros x xs y ys Lx Ly Dx Dy [Fx Fxs]%Forall_app [Fy Fys]%Forall_app [Bx Bxs]%block_app [By Bys]%block_app.
  rewrite Lx in Bxs. rewrite Ly in Bys. cbn [cmp_loop].
  rewrite (bind_Ret _ _ _ _ _ (load_ok a x Lx Fx Bx)), (bind_Ret _ _ _ _ _ (load_ok b y Ly Fy By)).
  destruct (val_inj x y Lx Ly Fx Fy) as [Hr Hinj].
  destruct (Z.eqb_spec (val x) (val y)) as [E|E]; cbn [negb].
  - rewrite (Hinj E). destruct (IH _ _ xs ys Dx Dy Fxs Fys Bxs Bys) as (r & -> & Hr').
    exists r. split; [done|]. rewrite Hr'. split; [by intros ->|apply app_inv_head].
  - eexists. split; [done|]. rewrite s32_zero by done. split; [lia|].
    intros Hxy. apply app_inj_1 in Hxy as [-> _]; [|lia]. done.
Qed.
End compare.

Lemma le32_bound bs : Forall is_byte bs -> 0 <= le32 bs < 256 ^ Z.of_nat (length bs).
Proof.
  induction 1 as [|b bs Hb Hf IH]; [simpl; lia|]. change (le32 (b :: bs)) with (b + 256 * le32 bs).
  cbn [length]. rewrite Nat2Z.inj_succ, Z.pow_succ_r by lia. unfold is_byte in Hb. nia.
Qed.

Lemma le32_inj bs cs : length bs = length cs -> Forall is_byte bs -> Forall is_byte cs -> le32 bs = le32 cs -> bs = cs.
Proof.
  revert cs. induction bs as [|b bs IH]; intros [|c cs] Hl Fb Fc E; simpl in Hl; try lia; [done|].
  apply Forall_cons in Fb as [Hb Fb]. apply Forall_cons in Fc as [Hc Fc].
  change (b + 256 * le32 bs = c + 256 * le32 cs) in E. unfold is_byte in *.
  f_equal; [lia|]. apply IH; [lia|done..|lia].
Qed.

Lemma s32_inj x y : 0 <= x < 4294967296 -> 0 <= y < 4294967296 -> s32 x = s32 y -> x = y.
Proof. intros Hx Hy. unfold s32. rewrite !w32_small by lia. btests. Qed.

Lemma cmp_words m n a b xs ys :
  length xs = (4 * n)%nat -> length ys = (4 * n)%nat -> Forall is_byte xs -> Forall is_byte ys ->
  block m a xs -> block m b ys -> exists r, cmp_loop ldi 4 n a b m = Ret r m /\ (r = 0 <-> xs = ys).
Proof.
  apply (cmp_loop_ok 4 ldi (fun cs => s32 (le32 cs))).
  - intros a' cs Hl _ Hb. unfold ldi. by rewrite (bind_Ret _ _ _ _ _ (ldn_block 4 a' cs m Hl Hb)).
  - intros cs ds Lc Ld Fc Fd. pose proof (s32_range (le32 cs)). pose proof (s32_range (le32 ds)).
    pose proof (le32_bound cs Fc) as Bc. pose proof (le32_bound ds Fd) as Bd. rewrite Lc in Bc. rewrite Ld in Bd.
    split; [lia|]. intros E. apply le32_inj; [lia|done..|]. by apply s32_inj.
Qed.

Lemma cmp_bytes m n a b xs ys :
  length xs = n -> length ys = n -> Forall is_byte xs -> Forall is_byte ys ->
  block m a xs -> block m b ys -> exists r, cmp_loop ld 1 n a b m = Ret r m /\ (r = 0 <-> xs = ys).
Proof.
  intros Lx Ly. apply (cmp_loop_ok 1 ld (fun cs => hd 0 cs)); [| |lia|lia].
  - intros a' [|c [|? ?]] Hl _ Hb; simpl in Hl; try lia. apply block_cons in Hb as [Hb _]. by apply ld_ok.
  - intros [|c [|? ?]] [|d [|? ?]] Lc Ld Fc Fd; simpl in Lc, Ld; try lia.
    apply Forall_cons in Fc as [Hc _]. apply Forall_cons in Fd as [Hd _]. unfold is_byte in *.
    cbn. split; [lia|by intros ->].
Qed.

Lemma memcmp_ok m a b n xs ys :
  Z.of_nat (length xs) = n -> Z.of_nat (length ys) = n -> Forall is_byte xs -> Forall is_byte ys ->
  block m a xs -> block m b ys -> exists r, memcmp a b n m = Ret r m /\ (r = 0 <-> xs = ys).
Proof.
  intros Lx Ly Fx Fy Bx By. unfold memcmp. destruct (Z.eqb_spec a b) as [->|_].
  { exists 0. split; [done|]. split; [|done]. intros _. by apply (block_ext m b); [lia|..]. }
  destruct (counts xs) as (E1 & E2 & E3 & E4). rewrite Lx in E1, E2, E3. rewrite E1, E2, E3.
  set (w := word_count xs) in *. set (k := byte_count xs) in *.
  assert (Hw : length ys = (4 * w + k)%nat) by lia. revert E4 Hw Fx Fy Bx By. clear.
  rewrite <- (take_drop (4 * w) xs), <- (take_drop (4 * w) ys).
  intros Lx Ly. rewrite !length_app, !length_take, !length_drop in Lx, Ly.
  assert (L1 : length (take (4 * w) xs) = (4 * w)%nat) by (rewrite length_take; lia).
  assert (L2 : length (take (4 * w) ys) = (4 * w)%nat) by (rewrite length_take; lia).
  assert (L3 : length (drop (4 * w) xs) = k) by (rewrite length_drop; lia).
  assert (L4 : length (drop (4 * w) ys) = k) by (rewrite length_drop; lia).
  intros [F1 F2]%Forall_app [F3 F4]%Forall_app [B1 B2]%block_app [B3 B4]%block_app.
  rewrite L1 in B2. rewrite L2 in B4. rewrite Nat2Z.inj_mul in B2, B4.
  destruct (cmp_words m w a b _ _ L1 L2 F1 F3 B1 B3) as (r & Hr & Hr0).
  rewrite (bind_Ret _ _ _ _ _ Hr). destruct (Z.eqb_spec r 0) as [->|Hn]; cbn [negb].
  - rewrite (Z.mul_comm (Z.of_nat w) 4).
    destruct (cmp_bytes m k (a + 4 * Z.of_nat w) (b + 4 * Z.of_nat w) _ _ L3 L4 F2 F4 B2 B4) as (q & -> & Hq).
    exists q. split; [done|]. rewrite Hq, (proj1 Hr0 eq_refl). split; [by intros ->|apply app_inv_head].
  - exists r. split; [done|]. split; [done|]. intros E. apply Hr0.
    apply app_inj_1 in E as [-> _]; [done|lia].
Qed.

(** ** Searching *)

(** The needle [xs] stands in [ys] at position [j]. *)
Definition occurs (xs ys : list Z) (j : nat) : Prop :=
  forall i b, xs !! i = Some b -> ys !! (j + i)%nat = Some b.

Lemma occurs_cons x xs ys j : occurs (x :: xs) ys j <-> ys !! j = Some x /\ occurs xs ys (S j).
Proof.
  split.
  - intros H. split; [by rewrite <- (H 0%nat x eq_refl), Nat.add_0_r|].
    intros i b Hi. rewrite <- (H (S i) b Hi). f_equal. lia.
  - intros [H1 H2] [|i] b Hi; simpl in Hi; simplify_eq; [by rewrite Nat.add_0_r|].
    rewrite <- (H2 i b Hi). f_equal. lia.
Qed.

Lemma occurs_take xs ys j : (j + length xs <= length ys)%nat -> occurs xs ys j <-> xs = take (length xs) (drop j ys).
Proof.
  intros Hj. split.
  - intros H. assert (length (take (length xs) (drop j ys)) = length xs) by (rewrite length_take, length_drop; lia).
    apply (list_eq_same_length _ _ (length xs)); [done|done|].
    intros i x y Hi Hx Hy. apply lookup_take_Some in Hy as [Hy _]. rewrite lookup_drop in Hy.
    rewrite (H i x Hx) in Hy. by simplify_eq.
  - intros -> i b Hi. apply lookup_take_Some in Hi as [Hi _]. by rewrite lookup_drop in Hi.
Qed.

Lemma occurs_fits xs ys j : xs <> [] -> occurs xs ys j -> (j + length xs <= length ys)%nat.
Proof.
  intros Hn H. destruct (exists_last Hn) as (xs' & x & ->). rewrite length_app. simpl.
  specialize (H (length xs') x (lookup_snoc_eq xs' x)). apply lookup_lt_Some in H. lia.
Qed.

(** What a search that starts at [j] may return. *)
Definition first_from (y : Z) (xs ys : list Z) (j : nat) (r : Z) : Prop :=
  (exists i, (j <= i)%nat /\ r = y + Z.of_nat i /\ occurs xs ys i /\
             forall i', (j <= i' < i)%nat -> ~ occurs xs ys i') \/
  (r = NULL /\ forall i, (j <= i)%nat -> ~ occurs xs ys i).

Lemma first_from_skip y xs ys j k r : (forall i, (j <= i < j + k)%nat -> ~ occurs xs ys i) ->
  first_from y xs ys (j + k) r -> first_from y xs ys j r.
Proof.
  intros Hs [(i & Hi & -> & Ho & Hf)|[-> Hf]]; [left; exists i|right]; repeat split; auto; try lia.
  - intros i' Hi'. destruct (decide (i' < j + k)%nat); [apply Hs|apply Hf]; lia.
  - intros i Hi. destruct (decide (i < j + k)%nat); [apply Hs|apply Hf]; lia.
Qed.

Section search.
Context (m : bytes) (y x : Z) (ys : list Z).
Hypothesis at_y : block m y ys.
Hypothesis bytes_y : Forall is_byte ys.

Lemma ld_y j b : ys !! j = Some b -> ld (y + Z.of_nat j) m = Ret b m.
Proof. intros H. apply ld_ok, (at_y j b H). Qed.

Section two.
Context (x0 x1 : Z) (xt : list Z).
Let xs := x0 :: x1 :: xt.
Hypothesis at_x : block m x xs.
Hypothesis bytes_x : Forall is_byte xs.

(** The skips of [memmem]: when the second character differs, a needle that
    starts with a pair of equal ones cannot stand at the next position; when
    it agrees, one that starts with two different ones cannot. *)
Definition skip_mismatch : nat := if x0 =? x1 then 2 else 1.
Definition skip_match : nat := if x0 =? x1 then 1 else 2.

Lemma skip_mismatch_ok j b : ys !! S j = Some b -> x1 <> b ->
  forall i, (j <= i < j + skip_mismatch)%nat -> ~ occurs xs ys i.
Proof.
  unfold skip_mismatch. intros Hb Hne i Hi (H0 & [H1 _]%occurs_cons)%occurs_cons.
  destruct (Z.eqb_spec x0 x1) as [->|]; assert (i = j \/ i = S j) as [-> | ->] by lia; try lia; congruence.
Qed.

Lemma skip_match_ok j : ys !! S j = Some x1 -> ~ occurs xs ys j ->
  forall i, (j <= i < j + skip_match)%nat -> ~ occurs xs ys i.
Proof.
  unfold skip_match. intros Hb Hn i Hi. destruct (decide (i = j)) as [->|]; [done|].
  destruct (Z.eqb_spec x0 x1) as [->|]; [lia|].
  intros [H0 _]%occurs_cons. assert (i = S j) as -> by lia. congruence.
Qed.

(** The test at a position whose second character agrees. *)
Lemma test_ok j : (j + length xs <= length ys)%nat -> ys !! S j = Some x1 ->
  exists r, memcmp (x + 2) (y + Z.of_nat j + 2) (Z.of_nat (length xs) - 2) m = Ret r m /\
    exists b, (if r =? 0 then a ← ld x; c ← ld (y + Z.of_nat j); mret (a =? c) else mret false) m = Ret b m /\
    (b = true <-> occurs xs ys j).
Proof.
  intros Hj H1. cbn [xs length] in Hj.
  destruct (lookup_lt_is_Some_2 ys j ltac:(lia)) as [b0 H0].
  pose proof at_x as (Ax & [A1 At]%block_cons)%block_cons.
  pose proof bytes_x as (_ & [_ Ft]%Forall_cons)%Forall_cons.
  replace (x + 1 + 1) with (x + 2) in At by lia.
  destruct (src_at m ys y at_y (S (S j)) (length xt) ltac:(lia)) as [By Ly].
  replace (y + Z.of_nat (S (S j))) with (y + Z.of_nat j + 2) in By by lia.
  destruct (memcmp_ok m (x + 2) (y + Z.of_nat j + 2) (Z.of_nat (length xs) - 2) xt
    (take (length xt) (drop (S (S j)) ys))) as (r & Hr & Hr0);
    [cbn [xs length]; lia | rewrite Ly; cbn [xs length]; lia | done | by apply unit_bytes | done | done |].
  exists r. split; [done|].
  assert (Hxs : occurs xs ys j <-> b0 = x0 /\ r = 0).
  { unfold xs. rewrite !occurs_cons, H0, H1, occurs_take, Hr0 by lia. split; [intros (? & _ & ?)|intros [-> ?]]; simplify_eq; auto. }
  destruct (Z.eqb_spec r 0) as [->|Hn].
  - rewrite (bind_Ret _ _ _ _ _ (ld_ok x x0 m Ax)), (bind_Ret _ _ _ _ _ (ld_y j b0 H0)).
    eexists. split; [done|]. rewrite Hxs, Z.eqb_eq. naive_solver.
  - exists false. split; [done|]. rewrite Hxs. naive_solver.
Qed.

Lemma memmem_loop_ok fuel j :
  (length ys < length xs + j + fuel)%nat -> (length xs <= length ys)%nat ->
  exists r, memmem_loop fuel y (Z.of_nat (length ys)) x (Z.of_nat (length xs))
              (Z.of_nat skip_mismatch) (Z.of_nat skip_match) (Z.of_nat j) m = Ret r m /\ first_from y xs ys j r.
Proof.
  intros Hf Hl. revert j Hf. induction fuel as [|fuel IH]; intros j Hf; cbn [memmem_loop].
  { exists NULL. split; [done|]. right. split; [done|]. intros i Hi Ho.
    apply occurs_fits in Ho; [lia|done]. }
  destruct (Z.leb_spec (Z.of_nat j) (Z.of_nat (length ys) - Z.of_nat (length xs))) as [Hj|Hj].
  2: { exists NULL. split; [done|]. right. split; [done|]. intros i Hi Ho. apply occurs_fits in Ho; [lia|done]. }
  pose proof at_x as (_ & [A1 _]%block_cons)%block_cons.
  assert (Hl2 : (2 <= length xs)%nat) by (simpl; lia).
  destruct (lookup_lt_is_Some_2 ys (S j) ltac:(lia)) as [b1 H1].
  rewrite (bind_Ret _ _ _ _ _ (ld_ok _ _ _ A1)).
  replace (y + Z.of_nat j + 1) with (y + Z.of_nat (S j)) by lia.
  rewrite (bind_Ret _ _ _ _ _ (ld_y _ _ H1)).
  destruct (Z.eqb_spec x1 b1) as [<-|Hne]; cbn [negb].
  - destruct (test_ok j ltac:(lia) H1) as (r & Hr & b & Hb & Ho).
    rewrite (bind_Ret _ _ _ _ _ Hr), (bind_Ret _ _ _ _ _ Hb). destruct b.
    + exists (y + Z.of_nat j). split; [done|]. left. exists j. split; [lia|]. split; [done|].
      split; [by apply Ho|]. intros; lia.
    + rewrite <- Nat2Z.inj_add. assert (0 < skip_match)%nat by (unfold skip_match; destruct (x0 =? x1); lia).
      destruct (IH (j + skip_match)%nat ltac:(lia)) as (q & Hq & Hfirst).
      exists q. split; [done|]. apply (first_from_skip y xs ys j skip_match); [|done].
      apply skip_match_ok; [done|]. by intros ?%Ho.
  - rewrite <- Nat2Z.inj_add. assert (0 < skip_mismatch)%nat by (unfold skip_mismatch; destruct (x0 =? x1); lia).
    destruct (IH (j + skip_mismatch)%nat ltac:(lia)) as (q & Hq & Hfirst).
    exists q. split; [done|]. apply (first_from_skip y xs ys j skip_mismatch); [|done].
    by apply (skip_mismatch_ok j b1).
Qed.
End two.

Lemma memmem_one_ok n x0 j : m !! x = Some x0 -> (j + n = length ys)%nat ->
  exists r, memmem_one n (y + Z.of_nat j) x m = Ret r m /\ first_from y [x0] ys j r.
Proof.
  intros Hx. revert j. induction n as [|n IH]; intros j Hj; cbn [memmem_one].
  { exists NULL. split; [done|]. right. split; [done|]. intros i Hi Ho. apply occurs_fits in Ho; simpl in *; [lia|done]. }
  destruct (lookup_lt_is_Some_2 ys j ltac:(lia)) as [b Hb].
  rewrite (bind_Ret _ _ _ _ _ (ld_y _ _ Hb)), (bind_Ret _ _ _ _ _ (ld_ok _ _ _ Hx)).
  destruct (Z.eqb_spec b x0) as [->|Hne].
  - exists (y + Z.of_nat j). split; [done|]. left. exists j. repeat split; [lia| |lia].
    apply occurs_cons. split; [done|]. by intros ? ?.
  - replace (y + Z.of_nat j + 1) with (y + Z.of_nat (j + 1)) by lia.
    destruct (IH (j + 1)%nat ltac:(lia)) as (r & Hr & Hf). exists r. split; [done|].
    apply (first_from_skip y [x0] ys j 1); [|done]. intros i Hi [H0 _]%occurs_cons.
    assert (i = j) as -> by lia. congruence.
Qed.
End search.

(** ** Strings *)

Lemma cstr_bytes s : Forall (fun b => 0 < b < 256) s -> Forall is_byte (s ++ [0]).
Proof.
  intros H. apply Forall_app. split; [|by repeat constructor].
  eapply Forall_impl; [exact H|]. unfold is_byte. simpl. intros. lia.
Qed.

Lemma scan_fuel_ok m a s : block m a (s ++ [0]) -> (length s < scan_fuel m)%nat.
Proof. intros H%block_size. rewrite length_app in H. simpl in H. unfold scan_fuel. lia. Qed.

Lemma strlen_loop_ok fuel str i s m :
  block m (str + i) (s ++ [0]) -> Forall (fun b => 0 < b < 256) s -> (length s < fuel)%nat ->
  strlen_loop fuel str i m = Ret (i + Z.of_nat (length s)) m.
Proof.
  revert i s. induction fuel as [|fuel IH]; intros i s Hb Hf Hl; [lia|]. cbn [strlen_loop].
  destruct s as [|b s]; apply block_cons in Hb as [H0 Hb]; rewrite (bind_Ret _ _ _ _ _ (ld_ok _ _ _ H0)).
  - simpl. by rewrite Z.add_0_r.
  - apply Forall_cons in Hf as [Hb0 Hf]. cbn [length] in *. destruct (Z.eqb_spec b 0); [lia|].
    rewrite (IH (i + 1) s); [|by rewrite Z.add_assoc|done|lia]. f_equal. lia.
Qed.

Lemma strlen_ok m a s : a <> NULL -> cstr m a s -> strlen a m = Ret (Z.of_nat (length s)) m.
Proof.
  intros Ha [Hb Hf]. unfold strlen. destruct (Z.eqb_spec a NULL); [done|].
  rewrite (strlen_loop_ok _ a 0 s); [by rewrite Z.add_0_l|by rewrite Z.add_0_r|done|].
  by apply (scan_fuel_ok m a).
Qed.

(** The difference of the first two characters that differ. *)
Fixpoint str_diff (s t : list Z) : Z :=
  match s, t with
  | [], [] => 0
  | [], y :: _ => s8 0 - s8 y
  | x :: _, [] => s8 x - s8 0
  | x :: s, y :: t => if x =? y then str_diff s t else s8 x - s8 y
  end.

Lemma s8_inj x y : is_byte x -> is_byte y -> s8 x = s8 y -> x = y.
Proof. unfold is_byte, s8. intros Hx Hy. rewrite !w8_small by lia. btests. Qed.

Lemma s8_zero x : is_byte x -> (s8 x =? 0) = (x =? 0).
Proof.
  intros Hx. destruct (Z.eqb_spec x 0) as [->|Hn]; [done|]. apply Z.eqb_neq. intros E.
  apply Hn, s8_inj; [done|done|]. by rewrite E.
Qed.

Lemma s8_eqb x y : is_byte x -> is_byte y -> (s8 x =? s8 y) = (x =? y).
Proof.
  intros Hx Hy. destruct (Z.eqb_spec x y) as [->|Hn]; [apply Z.eqb_refl|].
  apply Z.eqb_neq. by intros ?%s8_inj.
Qed.

Lemma w8_s8 b : is_byte b -> w8 (s8 b) = b.
Proof.
  unfold is_byte, s8. intros Hb. rewrite (w8_small b) by lia. destruct (Z.ltb_spec b 128); [by rewrite w8_small by lia|].
  unfold w8. symmetry. apply (Z.mod_unique _ _ (-1)); lia.
Qed.

Lemma ldc_ok a b m : m !! a = Some b -> ldc a m = Ret (s8 b) m.
Proof. intros H. unfold ldc. by rewrite (bind_Ret _ _ _ _ _ (ld_ok a b m H)). Qed.

Lemma strcmp_loop_ok fuel a b i s t m :
  block m (a + i) (s ++ [0]) -> block m (b + i) (t ++ [0]) ->
  Forall (fun c => 0 < c < 256) s -> Forall (fun c => 0 < c < 256) t -> (length s < fuel)%nat ->
  strcmp_loop fuel a b i None m = Ret (str_diff s t) m.
Proof.
  revert i s t. induction fuel as [|fuel IH]; intros i s t Ha Hb Fs Ft Hl; [lia|]. cbn [strcmp_loop].
  assert (B0 : is_byte 0) by (unfold is_byte; lia).
  destruct s as [|x s], t as [|y t]; apply block_cons in Ha as [Ax Ha]; apply block_cons in Hb as [By Hb];
    rewrite (bind_Ret _ _ _ _ _ (ldc_ok _ _ _ Ax)), (bind_Ret _ _ _ _ _ (ldc_ok _ _ _ By)); [done|..];
    try (apply Forall_cons in Fs as [Bx Fs]; assert (is_byte x) by (unfold is_byte; lia));
    try (apply Forall_cons in Ft as [Byy Ft]; assert (is_byte y) by (unfold is_byte; lia));
    rewrite !s8_eqb, !s8_zero by done; cbn [from_option str_diff].
  - destruct (Z.eqb_spec y 0); [lia|]. destruct (Z.eqb_spec 0 y); [lia|done].
  - destruct (Z.eqb_spec x 0); [lia|done].
  - destruct (Z.eqb_spec x 0); [lia|]. destruct (Z.eqb_spec x y) as [->|]; [|done]. simpl.
    apply IH; [by rewrite Z.add_assoc|by rewrite Z.add_assoc|done|done|simpl in Hl; lia].
Qed.

Lemma str_diff_zero s t : Forall (fun c => 0 < c < 256) s -> Forall (fun c => 0 < c < 256) t ->
  str_diff s t = 0 <-> s = t.
Proof.
  intros Fs. revert t. assert (B0 : is_byte 0) by (unfold is_byte; lia).
  induction Fs as [|x s Hx Fs IH]; intros [|y t] Ft; cbn [str_diff]; [done|..];
    try (assert (Bx : is_byte x) by (unfold is_byte; lia));
    try (apply Forall_cons in Ft as [Hy Ft]; assert (By : is_byte y) by (unfold is_byte; lia)).
  - split; [|done]. intros E. assert (0 = y) by (apply s8_inj; [done|done|lia]). lia.
  - split; [|done]. intros E. assert (x = 0) by (apply s8_inj; [done|done|lia]). lia.
  - destruct (Z.eqb_spec x y) as [->|Hn].
    + rewrite IH by done. split; [by intros ->|by intros [= ->]].
    + split; [|intros; simplify_eq]. intros E. assert (x = y) by (apply s8_inj; [done|done|lia]). done.
Qed.

Lemma strcmp_ok m a b s t : cstr m a s -> cstr m b t -> exists r, strcmp a b m = Ret r m /\ r = str_diff s t.
Proof.
  intros [Ha Fs] [Hb Ft]. unfold strcmp. destruct (Z.eqb_spec a b) as [->|_].
  - exists 0. split; [done|]. symmetry. apply str_diff_zero; [done..|].
    revert b s t Ha Hb Fs Ft. fix IH 2. intros b [|x s] [|y t] Ha Hb Fs Ft; [done|..];
      apply block_cons in Ha as [Ax Ha]; apply block_cons in Hb as [By Hb]; rewrite Ax in By; simplify_eq;
      try (apply Forall_cons in Fs as [Bx Fs]); try (apply Forall_cons in Ft as [Byy Ft]); try lia.
    f_equal. by apply (IH (b + 1)).
  - eexists. split; [|done]. apply strcmp_loop_ok; rewrite ?Z.add_0_r; try done. by apply (scan_fuel_ok m a).
Qed.

(** The copying loop: [k] characters have been copied. *)
Lemma strcpy_loop_ok m s dest src fuel k :
  cstr m src s -> mapped m dest (Z.of_nat (length (s ++ [0]))) ->
  dest < src \/ src + Z.of_nat (length (s ++ [0])) <= dest ->
  (k <= length s)%nat -> (length s < k + fuel)%nat ->
  strcpy_loop fuel dest src (Z.of_nat k) (fwd m (s ++ [0]) dest k) =
  Ret (Z.of_nat (length s)) (fwd m (s ++ [0]) dest (length s)).
Proof.
  intros [Hb Hs] Hm Hd. pose proof (cstr_bytes s Hs) as Hby. revert k.
  induction fuel as [|fuel IH]; intros k Hk Hf; [lia|]. cbn [strcpy_loop].
  assert (Hlen : length (s ++ [0]) = S (length s)) by (rewrite length_app; simpl; lia).
  destruct (lookup_lt_is_Some_2 (s ++ [0]) k ltac:(lia)) as [b Hk0].
  assert (Hld : fwd m (s ++ [0]) dest k !! (src + Z.of_nat k) = Some b).
  { unfold fwd. rewrite put_lookup_out; [by apply Hb|]. rewrite length_take. lia. }
  rewrite (bind_Ret _ _ _ _ _ (ld_ok _ _ _ Hld)).
  destruct (decide (k = length s)) as [->|].
  { rewrite lookup_snoc_eq in Hk0. simplify_eq. done. }
  rewrite lookup_app_l in Hk0 by lia. pose proof (proj1 (Forall_lookup _ s) Hs k b Hk0) as Hb0. simpl in Hb0.
  destruct (Z.eqb_spec b 0); [lia|].
  rewrite (bind_Ret _ _ _ tt (fwd m (s ++ [0]) dest (S k))).
  - replace (Z.of_nat k + 1) with (Z.of_nat (S k)) by lia. apply IH; lia.
  - rewrite st_ok; [|unfold is_byte; lia|].
    + unfold fwd. rewrite (take_S_r _ k b) by (rewrite lookup_app_l; [done|lia]).
      rewrite put_app, length_take. replace (Nat.min k (length (s ++ [0]))) with k by lia. done.
    + apply (put_mapped _ _ _ dest (Z.of_nat (length (s ++ [0])))); [done|lia].
Qed.

(** * The theorems *)

(** C25: [memmove] moves a block of any length between any two mapped places,
    however they overlap: afterwards the destination holds the bytes the source
    had, every other byte is unchanged, and the destination is returned. *)
Theorem memmove_correct m dest src bs :
  Forall is_byte bs -> block m src bs -> mapped m dest (Z.of_nat (length bs)) ->
  memmove dest src (Z.of_nat (length bs)) m = Ret dest (put dest bs m) /\
  block (put dest bs m) dest bs /\
  (forall a, a < dest \/ dest + Z.of_nat (length bs) <= a -> put dest bs m !! a = m !! a).
Proof.
  intros Hf Hb Hm. split_and!; [|apply put_block|intros a; apply put_lookup_out].
  unfold memmove. destruct (Z.eqb_spec dest src) as [->|Hne].
  - by rewrite put_same.
  - destruct (Z.ltb_spec dest src).
    + erewrite bind_Ret; [done|]. by apply copy_forward_ok; auto.
    + erewrite bind_Ret; [done|]. apply copy_backward_ok; [done|done|done|lia].
Qed.

(** Six bytes at 100 and two after them. *)
Definition sample : bytes := put 100 [1; 2; 3; 4; 5; 6; 7; 8] ∅.

Lemma sample_mapped a n : 100 <= a -> 0 <= n -> a + n <= 108 -> mapped sample a n.
Proof.
  intros Ha Hn Hs i Hi.
  destruct (lookup_lt_is_Some_2 [1; 2; 3; 4; 5; 6; 7; 8] (Z.to_nat (a + i - 100))) as [v Hv]; [simpl; lia|].
  exists v. pose proof (put_block 100 [1; 2; 3; 4; 5; 6; 7; 8] ∅ _ _ Hv) as H.
  by replace (100 + Z.of_nat (Z.to_nat (a + i - 100))) with (a + i) in H by lia.
Qed.

Lemma memmove_correct_witness :
  memmove 102 100 6 sample = Ret 102 (put 102 [1; 2; 3; 4; 5; 6] sample).
Proof.
  apply (memmove_correct sample 102 100 [1; 2; 3; 4; 5; 6]).
  - repeat constructor; lia.
  - apply (block_app sample 100 [1; 2; 3; 4; 5; 6] [7; 8]), put_block.
  - apply sample_mapped; simpl; lia.
Defined.

(** C26: [memmem] returns the address of the first occurrence of the needle, and
    NULL when there is none or the needle is empty: the positions its two skip
    distances pass over are never occurrences. *)
Theorem memmem_first m y x ys xs :
  Forall is_byte ys -> Forall is_byte xs -> block m y ys -> block m x xs ->
  exists r, memmem y (Z.of_nat (length ys)) x (Z.of_nat (length xs)) m = Ret r m /\
    if decide (xs = []) then r = NULL else first_from y xs ys 0 r.
Proof.
  intros Fy Fx Hy Hx. unfold memmem.
  destruct (Z.ltb_spec (Z.of_nat (length ys)) (Z.of_nat (length xs))) as [Hs|Hs]; cbn [orb].
  { exists NULL. split; [done|]. case_decide; [done|]. right. split; [done|].
    intros i _ Ho. apply occurs_fits in Ho; [lia|done]. }
  destruct xs as [|x0 [|x1 xt]]; [by exists NULL|..].
  - destruct (Z.eqb_spec (Z.of_nat (length ys)) 0) as [E|E]; [simpl in Hs; lia|].
    rewrite Nat2Z.id. apply block_cons in Hx as [Hx _]. cbn [negb Z.eqb orb length Z.of_nat Pos.of_succ_nat Pos.eqb].
    pose proof (memmem_one_ok m y x ys Hy (length ys) x0 0 Hx eq_refl) as H. rewrite Z.add_0_r in H. destruct H as (r & Hr & Hfirst). exists r. done.
  - pose proof Hx as (A0 & [A1 _]%block_cons)%block_cons.
    assert (E0 : (Z.of_nat (length (x0 :: x1 :: xt)) =? 0) = false) by (apply Z.eqb_neq; simpl; lia).
    assert (E1 : (Z.of_nat (length (x0 :: x1 :: xt)) =? 1) = false) by (apply Z.eqb_neq; simpl; lia).
    assert (E2 : (Z.of_nat (length ys) =? 0) = false) by (apply Z.eqb_neq; simpl in Hs; lia).
    rewrite E0, E1, E2. cbn [orb negb].
    rewrite (bind_Ret _ _ _ _ _ (ld_ok _ _ _ A0)), (bind_Ret _ _ _ _ _ (ld_ok _ _ _ A1)).
    pose proof (memmem_loop_ok m y x ys Hy Fy x0 x1 xt Hx Fx (Z.to_nat (Z.of_nat (length ys) + 1)) 0) as H.
    unfold skip_mismatch, skip_match in H. destruct (x0 =? x1); apply H; simpl in *; lia.
Qed.

Lemma memmem_first_witness :
  exists r, memmem 100 8 103 3 sample = Ret r sample /\ first_from 100 [4; 5; 6] [1; 2; 3; 4; 5; 6; 7; 8] 0 r.
Proof.
  apply (memmem_first sample 100 103 [1; 2; 3; 4; 5; 6; 7; 8] [4; 5; 6]).
  - repeat constructor; lia.
  - repeat constructor; lia.
  - apply put_block.
  - apply (block_app sample 103 [4; 5; 6] [7; 8]).
    apply (block_app sample 100 [1; 2; 3] [4; 5; 6; 7; 8]), put_block.
Defined.

(** [strcmp] on two strings returns the difference of the first characters
    that differ (as signed characters), and 0 exactly when the strings are equal. *)
Theorem strcmp_correct m a b s t :
  cstr m a s -> cstr m b t ->
  exists r, strcmp a b m = Ret r m /\ r = str_diff s t /\ (r = 0 <-> s = t).
Proof.
  intros Ha Hb. destruct (strcmp_ok m a b s t Ha Hb) as (r & Hr & ->).
  exists (str_diff s t). split; [done|]. split; [done|]. apply str_diff_zero; [apply Ha|apply Hb].
Qed.

(** Two strings, "AB" at 200 and "AC" at 300, and six free bytes at 400. *)
Definition strings : bytes := put 400 [9; 9; 9; 9; 9; 9] (put 300 [65; 67; 0] (put 200 [65; 66; 0] ∅)).

Lemma strings_ab : cstr strings 200 [65; 66].
Proof.
  split; [|repeat constructor; lia]. intros i b Hi. unfold strings.
  apply lookup_lt_Some in Hi as Hl. simpl in Hl. rewrite !put_lookup_out by (simpl; lia). by apply put_block.
Qed.

Lemma strings_ac : cstr strings 300 [65; 67].
Proof.
  split; [|repeat constructor; lia]. intros i b Hi. unfold strings.
  apply lookup_lt_Some in Hi as Hl. simpl in Hl. rewrite put_lookup_out by (simpl; lia). by apply put_block.
Qed.

Lemma strcmp_correct_witness : exists r, strcmp 200 300 strings = Ret r strings /\ r = -1 /\ (r = 0 <-> [65; 66] = [65; 67]).
Proof. apply (strcmp_correct strings 200 300 [65; 66] [65; 67]); [apply strings_ab|apply strings_ac]. Defined.

(** [strcpy] into room that does not lie behind the start of the source
    inside it writes the string with its terminator and nothing else; the copy is
    a string equal to the source's, with the length [strlen] then reports. *)
Theorem strcpy_correct m dest src s :
  cstr m src s -> dest <> NULL -> mapped m dest (Z.of_nat (length s) + 1) ->
  dest < src \/ src + Z.of_nat (length s) + 1 <= dest ->
  let m' := put dest (s ++ [0]) m in
  strcpy dest src m = Ret dest m' /\ cstr m' dest s /\ strlen dest m' = Ret (Z.of_nat (length s)) m' /\
  (forall a, a < dest \/ dest + Z.of_nat (length s) < a -> m' !! a = m !! a).
Proof.
  intros Hs Hnn Hm Hd m'.
  assert (Hlen : Z.of_nat (length (s ++ [0])) = Z.of_nat (length s) + 1) by (rewrite length_app; simpl; lia).
  assert (Hc : cstr m' dest s) by (split; [apply put_block|apply Hs]).
  split_and!; [|done|by apply strlen_ok|intros a Ha; apply put_lookup_out; lia].
  unfold strcpy. rewrite <- Hlen in Hm.
  pose proof (strcpy_loop_ok m s dest src (scan_fuel m) 0 Hs Hm ltac:(lia) ltac:(lia)
    (scan_fuel_ok m src s (proj1 Hs))) as H.
  rewrite (bind_Ret _ _ m _ _ H), (bind_Ret _ _ _ tt m'); [done|].
  rewrite st_ok; [|unfold is_byte; lia|].
  - unfold fwd, m'. rewrite take_app_length, put_app. done.
  - apply (put_mapped _ _ _ dest (Z.of_nat (length (s ++ [0])))); [done|lia].
Qed.

Lemma strcpy_correct_witness :
  let m' := put 400 [65; 66; 0] strings in
  strcpy 400 200 strings = Ret 400 m' /\ cstr m' 400 [65; 66] /\ strlen 400 m' = Ret 2 m' /\
  (forall a, a < 400 \/ 400 + 2 < a -> m' !! a = strings !! a).
Proof.
  apply (strcpy_correct strings 400 200 [65; 66]); [apply strings_ab|done| |simpl; lia].
  intros i Hi. destruct (lookup_lt_is_Some_2 [9; 9; 9; 9; 9; 9] (Z.to_nat i)) as [v Hv]; [simpl in *; lia|].
  exists v. replace i with (Z.of_nat (Z.to_nat i)) by lia. by apply put_block.
Defined.

(** [strcat] returns the address of the appended part, not of the string. *)
Example strcat_returns_end : exists m', strcat 200 204 (put 200 [65; 0; 0; 0; 66; 0] ∅) = Ret 201 m'.
Proof. eexists. vm_compute. reflexivity. Qed.

(** [strcasecmp] distinguishes case, and a prefix equals the whole string. *)
Example strcasecmp_case :
  exists m', strcasecmp 200 202 (put 200 [65; 0; 97; 0] ∅) = Ret (-32) m'.
Proof. eexists. vm_compute. reflexivity. Qed.
Example strcasecmp_prefix :
  exists m', strcasecmp 200 202 (put 200 [65; 0; 65; 66; 0] ∅) = Ret 0 m'.
Proof. eexists. vm_compute. reflexivity. Qed.
