(* ===== verification/KMalloc.v ===== *)
(** * The kernel's memory allocator (kernel2/malloc.c)

    A free list of blocks in ascending order of addresses; a block starts with
    its header (flags, size including the header, next free block), and the
    list is threaded through the memory it manages.  Memory is the byte memory
    of CString.v, so a header that is written into a block in use would
    show up in its contents.  The page allocator behind the function pointers
    of [malloc_init] is a parameter. *)

From Stdlib Require Import Sorting.Sorted.
From S2P Require Import Prelude Machine CString.

Record kheap := KHeap { firstfree : Z; kmem : bytes }.

Definition on_mem {A} (c : cmd bytes A) : cmd kheap A := fun h =>
  match c (kmem h) with
  | Ret a m => Ret a (KHeap (firstfree h) m)
  | Stop w m => Stop w (KHeap (firstfree h) m)
  end.

(** A 32-bit word, least significant byte first. *)
Definition enc32 (v : Z) : list Z :=
  [w8 v; w8 (v / 256); w8 (v / 65536); w8 (v / 16777216)].
Definition ld32 (a : Z) : cmd kheap Z := on_mem (bs ← ldn 4 a; mret (le32 bs)).
Definition st32 (a v : Z) : cmd kheap unit := on_mem (stn a (enc32 v)).

(** [struct _malloc_header] *)
Definition HEADER : Z := 12.
Definition get_flags (h : Z) : cmd kheap Z := ld32 h.
Definition get_size (h : Z) : cmd kheap Z := ld32 (h + 4).
Definition get_nextfree (h : Z) : cmd kheap Z := ld32 (h + 8).
Definition set_flags (h v : Z) : cmd kheap unit := st32 h v.
Definition set_size (h v : Z) : cmd kheap unit := st32 (h + 4) v.
Definition set_nextfree (h v : Z) : cmd kheap unit := st32 (h + 8) v.
Definition set_firstfree (v : Z) : cmd kheap unit := fun h => Ret tt (KHeap v (kmem h)).

(** Enough steps for any list without a cycle. *)
Definition walk_fuel (h : kheap) : nat := scan_fuel (kmem h).

(** ** The free list *)

(** The block before [header], and the link or the join with it. *)
Fixpoint insert_walk (fuel : nat) (cur header : Z) : cmd kheap unit :=
  match fuel with
  | O => stop_with Hang
  | S fuel =>
      if cur =? NULL then mret tt else
      next ← get_nextfree cur;
      if (cur <? header) && ((header <? next) || (next =? NULL)) then
        size ← get_size cur;
        if w32 (cur + size) =? header then
          hsize ← get_size header; set_size cur (w32 (size + hsize))
        else set_nextfree header next;; set_nextfree cur header
      else insert_walk fuel next header
  end.

(** The join with the block behind [header]. *)
Definition join_next (header : Z) : cmd kheap unit :=
  size ← get_size header; next ← get_nextfree header;
  if w32 (header + size) =? next then
    nsize ← get_size next;
    set_size header (w32 (size + nsize));;
    next ← get_nextfree header; nnext ← get_nextfree next;
    set_nextfree header nnext
  else mret tt.

Definition _malloc_insertlist (header : Z) : cmd kheap unit := fun h =>
  (first ← gets firstfree;
   (if first =? NULL then set_firstfree header;; set_nextfree header NULL
    else if header <? first then set_nextfree header first;; set_firstfree header
    else insert_walk (walk_fuel h) first header);;
   join_next header) h.

Definition malloc_donatemem (addr size : Z) : cmd kheap unit :=
  if negb (addr =? NULL) then
    set_flags addr 0;; set_size addr size;; _malloc_insertlist addr
  else mret tt.

(** [if (last==NULL) _malloc_firstfree = next; else last->nextfree = next;] *)
Definition link_from (last next : Z) : cmd kheap unit :=
  if last =? NULL then set_firstfree next else set_nextfree last next.

(** The first block that fits exactly or can be split; NULL at the end. *)
Fixpoint getfree_walk (fuel : nat) (size last cur : Z) : cmd kheap Z :=
  match fuel with
  | O => stop_with Hang
  | S fuel =>
      if cur =? NULL then mret NULL else
      csize ← get_size cur;
      if size =? csize then
        flags ← get_flags cur; set_flags cur (Z.lor flags 1);;
        next ← get_nextfree cur; link_from last next;;
        mret cur
      else if w32 (size + HEADER) <=? csize then
        let new := w32 (cur + size) in
        set_flags new 0;;
        csize ← get_size cur; set_size new (w32 (csize - size));;
        next ← get_nextfree cur; set_nextfree new next;;
        set_size cur size;;
        flags ← get_flags cur; set_flags cur (Z.lor flags 1);;
        link_from last new;;
        mret cur
      else next ← get_nextfree cur; getfree_walk fuel size cur next
  end.

Section allocator.
Context (getpage : Z -> cmd kheap Z) (freepage : Z -> cmd kheap unit).

Definition _malloc_getmem : cmd kheap Z :=
  addr ← getpage PAGE_SIZE; malloc_donatemem addr PAGE_SIZE;; mret addr.

(** [while (1)]: a page is added after every walk without a result. *)
Fixpoint _malloc_getfree (rounds : nat) (size : Z) : cmd kheap Z := fun h =>
  match rounds with
  | O => Stop Hang h
  | S rounds =>
      (cur ← getfree_walk (walk_fuel h) size NULL (firstfree h);
       if negb (cur =? NULL) then mret cur else _malloc_getmem;; _malloc_getfree rounds size) h
  end.

Definition malloc (rounds : nat) (size : Z) : cmd kheap Z :=
  mem ← _malloc_getfree rounds (w32 (size + HEADER));
  mret (if mem =? NULL then NULL else mem + HEADER).

Definition free (address : Z) : cmd kheap unit :=
  let header := address - HEADER in set_flags header 0;; _malloc_insertlist header.

Fixpoint checkforfree_walk (fuel : nat) (last cur : Z) : cmd kheap unit :=
  match fuel with
  | O => stop_with Hang
  | S fuel =>
      if cur =? NULL then mret tt else
      size ← get_size cur;
      (if (size =? PAGE_SIZE) && (cur mod PAGE_SIZE =? 0) then
         next ← get_nextfree cur; link_from last next;; freepage cur
       else if (PAGE_SIZE <=? w32 (size - cur mod PAGE_SIZE)) && (HEADER <=? cur mod PAGE_SIZE) then
         set_size cur (w32 (size - PAGE_SIZE));; freepage NULL
       else mret tt);;
      next ← get_nextfree cur; checkforfree_walk fuel cur next
  end.
Definition _malloc_checkforfree : cmd kheap unit := fun h =>
  checkforfree_walk (walk_fuel h) NULL (firstfree h) h.

(** A block to be split off at [new], [size] bytes long. *)
Definition split_off (new size : Z) : cmd kheap unit :=
  set_flags new 0;; set_size new size;; _malloc_insertlist new.

(** [header+header->size] counts headers, not bytes. *)
Fixpoint realloc_walk (fuel : nat) (cur header size : Z) : cmd kheap unit :=
  match fuel with
  | O => stop_with Hang
  | S fuel =>
      if cur =? NULL then mret tt else
      hsize ← get_size header;
      fits ← (if cur =? w32 (header + HEADER * hsize) then
                csize ← get_size cur; mret (w32 (size - hsize) <=? csize)
              else mret false);
      if fits : bool then
        csize ← get_size cur;
        if w32 (csize - (size - hsize)) <? HEADER then mret tt
        else split_off (w32 (cur + size - hsize)) (w32 (csize - (size - hsize)));; set_size header size
      else next ← get_nextfree cur; realloc_walk fuel next header size
  end.

Definition realloc (rounds : nat) (address size : Z) : cmd kheap Z := fun h =>
  (let header := address - HEADER in
   if size =? 0 then free address;; mret NULL else
   hsize ← get_size header;
   if size <? hsize then
     if w32 (hsize - size) <? HEADER then mret address
     else split_off (w32 (header + size)) (w32 (hsize - size));; set_size header size;; mret address
   else if hsize <? size then
     first ← gets firstfree; realloc_walk (walk_fuel h) first header size;;
     hsize ← get_size header;
     if negb (hsize =? size) then
       new ← malloc rounds size; hsize ← get_size header;
       on_mem (memcpy new address hsize);; free address;; mret new
     else mret address
   else mret address) h.

Definition calloc (rounds : nat) (n elsize : Z) : cmd kheap Z :=
  if (n =? 0) || (elsize =? 0) then mret NULL else
  mem ← malloc rounds (w32 (n * elsize));
  on_mem (memset mem 0 (w32 (n * elsize)));; mret mem.
End allocator.

(** [malloc_init]: the page allocator is the parameter of the functions above. *)
Definition malloc_init (m : bytes) : kheap := KHeap NULL m.

(** * Specification

    The heap is described by two lists of blocks (address, size): the free
    blocks [F], in the order of the chain, and the blocks [U] in use. *)

Definition word (m : bytes) (a v : Z) : Prop := block m a (enc32 v) /\ 0 <= v < 4294967296.

(** A header with its fields, and the memory of its block. *)
Definition hdr (m : bytes) (h s n : Z) : Prop := word m (h + 4) s /\ word m (h + 8) n /\ mapped m h s.

(** The chain of free blocks from [p] up to [q]. *)
Fixpoint lseg (m : bytes) (p : Z) (F : list (Z * Z)) (q : Z) : Prop :=
  match F with
  | [] => p = q
  | (h, s) :: F => p = h /\ exists n, hdr m h s n /\ lseg m n F q
  end.

Definition good (b : Z * Z) : Prop := 0 < b.1 /\ HEADER <= b.2 /\ b.1 + b.2 < 4294967296.
Definition before (b c : Z * Z) : Prop := b.1 + b.2 <= c.1.
Definition disj (b c : Z * Z) : Prop := before b c \/ before c b.

(** A block in use keeps the link it had in the free list. *)
Definition in_use (m : bytes) (b : Z * Z) : Prop :=
  exists n, hdr m b.1 b.2 n /\ (b.1 + b.2 = n -> mapped m n HEADER).

Record heap_ok (st : kheap) (F U : list (Z * Z)) : Prop := {
  ok_chain : lseg (kmem st) (firstfree st) F NULL;
  ok_used : Forall (in_use (kmem st)) U;
  ok_good : Forall good F /\ Forall good U;
  ok_sorted : StronglySorted before F;
  ok_apart : forall b c, b ∈ F -> c ∈ U -> disj b c;
  ok_distinct : ForallOrdPairs disj U }.

Definition inside (b : Z * Z) (a : Z) : Prop := b.1 <= a < b.1 + b.2.
Definition covered (F : list (Z * Z)) (a : Z) : Prop := exists b, b ∈ F /\ inside b a.

(** Only addresses in [R] have been written, and nothing was unmapped. *)
Definition writes (R : Z -> Prop) (m m' : bytes) : Prop :=
  (forall a, ~ R a -> m' !! a = m !! a) /\ (forall a, is_Some (m !! a) -> is_Some (m' !! a)).

(** ** Words *)

Lemma writes_refl R m : writes R m m.
Proof. by split. Qed.

Lemma writes_trans R m1 m2 m3 : writes R m1 m2 -> writes R m2 m3 -> writes R m1 m3.
Proof. intros [A1 A2] [B1 B2]. split; [|auto]. intros a Ha. rewrite B1 by done. by apply A1. Qed.

Lemma writes_weaken (R R' : Z -> Prop) m m' : (forall a, R a -> R' a) -> writes R m m' -> writes R' m m'.
Proof. intros Hr [A1 A2]. split; [|done]. intros a Ha. apply A1. auto. Qed.

Lemma enc32_bytes v : Forall is_byte (enc32 v).
Proof. repeat constructor; unfold w8; apply Z.mod_pos_bound; lia. Qed.

Lemma le32_enc32 v : 0 <= v < 4294967296 -> le32 (enc32 v) = v.
Proof. intros Hv. unfold le32, enc32, w8. cbn [foldr]. Z.to_euclidean_division_equations. lia. Qed.

(** One word written. *)
Definition wr (a v : Z) (m : bytes) : bytes := put a (enc32 v) m.

Lemma wr_writes a v m : writes (fun x => a <= x < a + 4) m (wr a v m).
Proof.
  split.
  - intros x Hx. apply put_lookup_out. change (Z.of_nat (length (enc32 v))) with 4. lia.
  - intros x Hx. assert (mapped m x 1) as Hm by (intros i Hi; replace (x + i) with x by lia; done).
    apply (put_mapped a (enc32 v)) in Hm. specialize (Hm 0 ltac:(lia)). by rewrite Z.add_0_r in Hm.
Qed.

Lemma mapped_writes R m m' a n : writes R m m' -> mapped m a n -> mapped m' a n.
Proof. intros [_ H] Hm i Hi. by apply H, Hm. Qed.

Lemma word_writes R m m' a v : writes R m m' -> (forall x, a <= x < a + 4 -> ~ R x) -> word m a v -> word m' a v.
Proof.
  intros [H _] HR [Hb Hv]. split; [|done]. intros i b Hi. apply lookup_lt_Some in Hi as Hl. simpl in Hl.
  rewrite H; [by apply Hb|]. apply HR. lia.
Qed.

Lemma word_wr m a v : 0 <= v < 4294967296 -> word (wr a v m) a v.
Proof. intros Hv. split; [apply put_block|done]. Qed.

Lemma word_wr_ne m a v b w : a + 4 <= b \/ b + 4 <= a -> word m b w -> word (wr a v m) b w.
Proof. intros Hd. apply (word_writes _ _ _ _ _ (wr_writes a v m)). intros x Hx. lia. Qed.

Lemma mapped_wr m a v b n : mapped m b n -> mapped (wr a v m) b n.
Proof. apply (mapped_writes _ _ _ _ _ (wr_writes a v m)). Qed.

Lemma mapped_sub m a n b k : mapped m a n -> a <= b -> b + k <= a + n -> mapped m b k.
Proof. intros H H1 H2 i Hi. replace (b + i) with (a + (b + i - a)) by lia. apply H. lia. Qed.

Lemma ld32_word h a v : word (kmem h) a v -> ld32 a h = Ret v h.
Proof.
  intros [Hb Hv]. unfold ld32, on_mem. rewrite (bind_Ret _ _ _ _ _ (ldn_block 4 a (enc32 v) _ eq_refl Hb)).
  rewrite le32_enc32 by done. by destruct h.
Qed.

Lemma mapped_block m a n : mapped m a (Z.of_nat n) -> exists bs, length bs = n /\ block m a bs.
Proof.
  revert a. induction n as [|n IH]; intros a Hm; [exists []; split; [done|by intros ? ?]|].
  destruct (Hm 0 ltac:(lia)) as [b Hb]. rewrite Z.add_0_r in Hb.
  destruct (IH (a + 1)) as (bs & Hl & Hbs).
  - intros i Hi. replace (a + 1 + i) with (a + (i + 1)) by lia. apply Hm. lia.
  - exists (b :: bs). split; [simpl; lia|]. by apply block_cons.
Qed.

Lemma ld32_mapped h a : mapped (kmem h) a 4 -> exists v, ld32 a h = Ret v h.
Proof.
  intros Hm. destruct (mapped_block (kmem h) a 4 Hm) as (bs & Hl & Hb). exists (le32 bs).
  unfold ld32, on_mem. rewrite (bind_Ret _ _ _ _ _ (ldn_block 4 a bs _ Hl Hb)). by destruct h.
Qed.

Lemma st32_wr f m a v : mapped m a 4 -> st32 a v (KHeap f m) = Ret tt (KHeap f (wr a v m)).
Proof. intros Hm. unfold st32, on_mem. cbn [kmem]. by rewrite (stn_put a (enc32 v) m (enc32_bytes v) Hm). Qed.

(** ** Headers and chains *)

Lemma hdr_writes R m m' h s n :
  writes R m m' -> (forall x, h <= x < h + HEADER -> ~ R x) -> hdr m h s n -> hdr m' h s n.
Proof.
  unfold HEADER. intros Hw HR (H1 & H2 & H3). split_and!.
  - eapply word_writes; [done| |done]. intros x Hx. apply HR. lia.
  - eapply word_writes; [done| |done]. intros x Hx. apply HR. lia.
  - by eapply mapped_writes.
Qed.

Lemma lseg_writes R m m' p F q :
  writes R m m' -> (forall b x, b ∈ F -> b.1 <= x < b.1 + HEADER -> ~ R x) -> lseg m p F q -> lseg m' p F q.
Proof.
  intros Hw. revert p. induction F as [|[h s] F IH]; intros p HR; [done|].
  intros (-> & n & Hh & Hl). split; [done|]. exists n. split.
  - eapply hdr_writes; [done| |done]. intros x. apply (HR (h, s)). set_solver.
  - apply IH; [|done]. intros b x Hb. apply HR. set_solver.
Qed.

Lemma lseg_app m p F G q : lseg m p (F ++ G) q <-> exists r, lseg m p F r /\ lseg m r G q.
Proof.
  revert p. induction F as [|[h s] F IH]; intros p; simpl; [naive_solver|].
  setoid_rewrite IH. naive_solver.
Qed.

Lemma lseg_zero m p F q : lseg m p F q -> Forall good F -> p = NULL -> q <> NULL \/ F = [].
Proof.
  destruct F as [|[h s] F]; [by right|]. intros (-> & _) [[Hg _] _]%Forall_cons. simpl in Hg. unfold NULL. lia.
Qed.

(** A chain that ends starts at NULL exactly when it is empty. *)
Lemma lseg_head m p F : lseg m p F NULL -> Forall good F ->
  p = match F with [] => NULL | b :: _ => b.1 end /\ 0 <= p < 4294967296.
Proof.
  destruct F as [|[h s] F]; simpl; [intros ->; unfold NULL; intros; split; [done|lia]|].
  intros (-> & _) [(? & ? & ?) _]%Forall_cons. simpl in *. unfold HEADER in *. split; [done|lia].
Qed.

Lemma in_use_writes R m m' b :
  writes R m m' -> (forall x, b.1 <= x < b.1 + HEADER -> ~ R x) -> in_use m b -> in_use m' b.
Proof.
  intros Hw HR (n & Hh & Hn). exists n. split; [by eapply hdr_writes|].
  intros E. eapply mapped_writes; [done|auto].
Qed.

Lemma get_size_hdr st h s n : hdr (kmem st) h s n -> get_size h st = Ret s st.
Proof. intros (H & _). by apply ld32_word. Qed.

Lemma get_nextfree_hdr st h s n : hdr (kmem st) h s n -> get_nextfree h st = Ret n st.
Proof. intros (_ & H & _). by apply ld32_word. Qed.

Lemma hdr_set_size m h s n s' : 0 <= s' < 4294967296 -> mapped m h s' -> hdr m h s n -> hdr (wr (h + 4) s' m) h s' n.
Proof.
  intros Hs Hm (H1 & H2 & H3). split_and!; [by apply word_wr| |by apply mapped_wr].
  apply word_wr_ne; [lia|done].
Qed.

Lemma hdr_set_next m h s n n' : 0 <= n' < 4294967296 -> hdr m h s n -> hdr (wr (h + 8) n' m) h s n'.
Proof.
  intros Hn (H1 & H2 & H3). split_and!; [|by apply word_wr|by apply mapped_wr].
  apply word_wr_ne; [lia|done].
Qed.

Lemma hdr_set_flags m h s n v : hdr m h s n -> hdr (wr h v m) h s n.
Proof.
  intros (H1 & H2 & H3). split_and!; [apply word_wr_ne; [lia|done]..|by apply mapped_wr].
Qed.

Lemma hdr_other m h s n a v : h + HEADER <= a \/ a + 4 <= h + 4 -> hdr m h s n -> hdr (wr a v m) h s n.
Proof.
  unfold HEADER. intros Hd (H1 & H2 & H3). split_and!; [apply word_wr_ne; [lia|done]..|by apply mapped_wr].
Qed.

(** ** Order *)

Lemma blocks_sorted_app F G : StronglySorted before (F ++ G) <->
  StronglySorted before F /\ StronglySorted before G /\ (forall b c, b ∈ F -> c ∈ G -> before b c).
Proof.
  induction F as [|x F IH]; simpl.
  - split; [intros H; split_and!; [constructor|done|set_solver]|tauto].
  - split.
    + intros [H1 H2]%StronglySorted_inv. apply IH in H1 as (H3 & H4 & H5).
      rewrite Forall_app in H2. destruct H2 as [H2 H6]. split_and!; [by constructor|done|].
      intros b c [->|Hb]%elem_of_cons Hc; [|auto]. rewrite Forall_forall in H6. auto.
    + intros ([H1 H2]%StronglySorted_inv & H3 & H4). constructor.
      * apply IH. split_and!; [done..|]. intros b c Hb. apply H4. set_solver.
      * apply Forall_app. split; [done|]. apply Forall_forall. intros c Hc. apply H4; [set_solver|done].
Qed.

Lemma sorted_one b : StronglySorted before [b].
Proof. repeat constructor. Qed.

(** The blocks of a chain have different, mapped addresses. *)
Lemma free_chain_length m p F q : lseg m p F q -> Forall good F -> StronglySorted before F ->
  (length F <= size m)%nat.
Proof.
  intros Hl Hg Hs. rewrite <- size_dom. rewrite <- (length_fmap fst F).
  assert (Hnd : NoDup (fst <$> F)).
  { clear Hl. induction F as [|b F IH]; [constructor|]. apply Forall_cons in Hg as [Hb Hg].
    apply StronglySorted_inv in Hs as [Hs Hf]. rewrite fmap_cons. constructor; [|by apply IH].
    rewrite list_elem_of_fmap. intros (c & E & Hc). rewrite Forall_forall in Hf. specialize (Hf c Hc).
    unfold before, good, HEADER in *. lia. }
  rewrite <- (size_list_to_set (C:=gset Z) _ Hnd). apply subseteq_size.
  intros x. rewrite elem_of_list_to_set, list_elem_of_fmap, elem_of_dom. intros (b & -> & Hb).
  clear Hs Hnd. revert p Hl. induction F as [|[h s] F IH]; intros p Hl; [set_solver|].
  apply Forall_cons in Hg as [Hb0 Hg]. destruct Hl as (-> & n & (_ & _ & Hm) & Hl).
  apply elem_of_cons in Hb as [->|Hb]; [|by apply (IH Hg Hb n)].
  destruct Hb0 as (_ & Hb0 & _). unfold HEADER in Hb0. simpl in *.
  specialize (Hm 0 ltac:(lia)). by rewrite Z.add_0_r in Hm.
Qed.

Lemma walk_fuel_ok f m p F q : lseg m p F q -> Forall good F -> StronglySorted before F ->
  (length F < walk_fuel (KHeap f m))%nat.
Proof. intros. unfold walk_fuel, scan_fuel. simpl. apply le_n_S. by eapply free_chain_length. Qed.

(** ** Taking a block *)

Definition last_addr (F : list (Z * Z)) : Z := match last F with Some b => b.1 | None => NULL end.

Lemma covered_app F G a : covered (F ++ G) a <-> covered F a \/ covered G a.
Proof. unfold covered. setoid_rewrite elem_of_app. naive_solver. Qed.

Lemma covered_one b a : covered [b] a <-> inside b a.
Proof. unfold covered. setoid_rewrite list_elem_of_singleton. naive_solver. Qed.

Lemma not_covered F b x : (forall c, c ∈ F -> disj c b) -> b.1 <= x < b.1 + b.2 -> ~ covered F x.
Proof.
  intros Hd Hx (c & Hc & Hin). destruct (Hd c Hc) as [H|H]; unfold before, inside in *; lia.
Qed.

Lemma not_covered_hdr F b x : good b -> (forall c, c ∈ F -> disj c b) -> b.1 <= x < b.1 + HEADER -> ~ covered F x.
Proof. intros (_ & Hs & _) Hd Hx. apply (not_covered F b); [done|lia]. Qed.

Lemma link_ok m p F q q' :
  lseg m p F q -> Forall good F -> StronglySorted before F -> 0 <= q' < 4294967296 ->
  exists p' m', link_from (last_addr F) q' (KHeap p m) = Ret tt (KHeap p' m') /\
    lseg m' p' F q' /\ writes (covered F) m m'.
Proof.
  intros Hl Hg Hs Hq. unfold link_from, last_addr.
  destruct F as [|[l s] F _] using rev_ind.
  { exists q', m. split_and!; [done|done|apply writes_refl]. }
  rewrite last_snoc. cbn [fst].
  apply Forall_app in Hg as [Hg [(G1 & G2 & G3) _]%Forall_cons]. cbn [fst snd] in *. unfold HEADER in G2.
  destruct (Z.eqb_spec l NULL) as [E|_]; [unfold NULL in E; lia|].
  apply blocks_sorted_app in Hs as (Hs & _ & Hb). apply lseg_app in Hl as (r & Hl & -> & n & Hh & ->).
  exists p, (wr (l + 8) q' m). unfold set_nextfree.
  assert (Hw : writes (inside (l, s)) m (wr (l + 8) q' m)).
  { eapply writes_weaken; [|apply wr_writes]. unfold inside. simpl. lia. }
  rewrite st32_wr by (eapply mapped_sub; [apply Hh|lia..]). split; [done|]. split.
  - apply lseg_app. exists l. split.
    + eapply lseg_writes; [exact Hw| |done]. intros b x Hbf Hx Hin.
      rewrite Forall_forall in Hg. destruct (Hg b Hbf) as (_ & ? & _).
      specialize (Hb b (l, s) Hbf ltac:(set_solver)). unfold before, inside in *. simpl in *. lia.
    + split; [done|]. exists q'. split; [by eapply hdr_set_next|done].
  - eapply writes_weaken; [|exact Hw]. intros x Hx. rewrite covered_app, covered_one. by right.
Qed.

(** The block of [s] bytes found for a request: exact, or to be split. *)
Definition fits (req s : Z) : bool := (req =? s) || (req + HEADER <=? s).
Definition remainder (req : Z) (b : Z * Z) : list (Z * Z) :=
  if req =? b.2 then [] else [(b.1 + req, b.2 - req)].

(** The splitting of a block: what is written, and the headers it leaves. *)
Lemma split_ok m p h s n req :
  hdr m h s n -> good (h, s) -> HEADER <= req -> req + HEADER <= s ->
  exists m',
    (set_flags (w32 (h + req)) 0;; csize ← get_size h; set_size (w32 (h + req)) (w32 (csize - req));;
     next ← get_nextfree h; set_nextfree (w32 (h + req)) next;; set_size h req;;
     flags ← get_flags h; set_flags h (Z.lor flags 1)) (KHeap p m) = Ret tt (KHeap p m') /\
    hdr m' h req n /\ hdr m' (h + req) (s - req) n /\ writes (inside (h, s)) m m'.
Proof.
  intros Hh (G1 & G2 & G3) Hr Hs. unfold HEADER in *. simpl in *. pose proof Hh as (Hz & Hn & Hm).
  rewrite (w32_small (h + req)) by lia. unfold set_flags, set_size, set_nextfree, get_flags.
  set (m1 := wr (h + req) 0 m). set (m2 := wr (h + req + 4) (s - req) m1).
  set (m3 := wr (h + req + 8) n m2). set (m4 := wr (h + 4) req m3).
  assert (M : forall a v x, mapped x h s -> mapped (wr a v x) h s) by (intros; by apply mapped_wr).
  assert (M1 : mapped m1 h s) by (apply M, Hm). assert (M2 : mapped m2 h s) by (apply M, M1).
  assert (M3 : mapped m3 h s) by (apply M, M2). assert (M4 : mapped m4 h s) by (apply M, M3).
  assert (H1 : hdr m1 h s n) by (apply hdr_other; [unfold HEADER; lia|done]).
  assert (H2 : hdr m2 h s n) by (apply hdr_other; [unfold HEADER; lia|done]).
  assert (H3 : hdr m3 h s n) by (apply hdr_other; [unfold HEADER; lia|done]).
  destruct (ld32_mapped (KHeap p m4) h) as [fl4 Hfl4]; [eapply mapped_sub; [exact M4|lia..]|].
  exists (wr h (Z.lor fl4 1) m4). split_and!.
  - rewrite (bind_Ret _ _ _ _ _ (st32_wr p m (h + req) 0 ltac:(eapply mapped_sub; [exact Hm|lia..]))).
    fold m1. rewrite (bind_Ret _ _ _ _ _ (get_size_hdr (KHeap p m1) h s n H1)), (w32_small (s - req)) by lia.
    rewrite (bind_Ret _ _ _ _ _ (st32_wr p m1 (h + req + 4) _ ltac:(eapply mapped_sub; [exact M1|lia..]))).
    fold m2. rewrite (bind_Ret _ _ _ _ _ (get_nextfree_hdr (KHeap p m2) h s n H2)).
    rewrite (bind_Ret _ _ _ _ _ (st32_wr p m2 (h + req + 8) n ltac:(eapply mapped_sub; [exact M2|lia..]))).
    fold m3. rewrite (bind_Ret _ _ _ _ _ (st32_wr p m3 (h + 4) req ltac:(eapply mapped_sub; [exact M3|lia..]))).
    fold m4. rewrite (bind_Ret _ _ _ _ _ Hfl4). apply st32_wr. eapply mapped_sub; [exact M4|lia..].
  - apply hdr_set_flags, (hdr_set_size m3 h s n req); [lia|eapply mapped_sub; [exact M3|lia..]|done].
  - apply hdr_other; [unfold HEADER; lia|]. apply hdr_other; [unfold HEADER; lia|]. split_and!.
    + apply word_wr_ne; [lia|]. apply word_wr. lia.
    + apply word_wr. apply Hn.
    + eapply mapped_sub; [exact M3|lia..].
  - repeat (eapply writes_trans; [|eapply writes_weaken; [|apply wr_writes]; unfold inside; simpl; lia]).
    apply writes_refl.
Qed.

(** A sequence that has been run as a whole is run inside a longer one. *)
Ltac run_prefix H :=
  unfold mbind, cmd_bind in H |- *;
  repeat match type of H with
  | context [match ?c with Ret _ _ => _ | Stop _ _ => _ end] => destruct c eqn:?; [|discriminate H]
  end.

Section take.
Context (m : bytes) (p : Z) (F1 : list (Z * Z)) (h s : Z) (F2 : list (Z * Z)) (n : Z).
Hypothesis chain1 : lseg m p F1 h.
Hypothesis block_h : hdr m h s n.
Hypothesis chain2 : lseg m n F2 NULL.
Hypothesis all_good : Forall good (F1 ++ (h, s) :: F2).
Hypothesis sorted : StronglySorted before (F1 ++ (h, s) :: F2).

Lemma good_parts : Forall good F1 /\ good (h, s) /\ Forall good F2.
Proof using all_good. apply Forall_app in all_good as [G1 [Gh G2]%Forall_cons]. auto. Qed.

Lemma sorted_parts : StronglySorted before F1 /\ (forall b, b ∈ F1 -> before b (h, s)) /\
  (forall b, b ∈ F2 -> before (h, s) b) /\ (forall b c, b ∈ F1 -> c ∈ F2 -> before b c).
Proof using sorted.
  clear chain1 block_h chain2 all_good.
  apply blocks_sorted_app in sorted as (S1 & [S2 Sh]%StronglySorted_inv & S3). rewrite Forall_forall in Sh.
  split_and!; [done| |auto|]; intros; apply S3; set_solver.
Qed.

(** The three parts do not touch each other's headers. *)
Lemma frame_block b x : b ∈ F1 \/ b ∈ F2 -> b.1 <= x < b.1 + HEADER -> ~ inside (h, s) x.
Proof using all_good sorted.
  destruct sorted_parts as (_ & S1 & S2 & _). destruct good_parts as (G1 & _ & _).
  rewrite Forall_forall in G1. unfold inside. simpl. intros [Hb|Hb] Hx.
  - specialize (S1 b Hb). destruct (G1 b Hb) as (_ & ? & _). unfold before in *. simpl in *. lia.
  - specialize (S2 b Hb). unfold before in *. simpl in *. lia.
Qed.

Lemma frame_first x : inside (h, s) x -> ~ covered F1 x.
Proof using sorted.
  destruct sorted_parts as (_ & S1 & _). apply (not_covered F1 (h, s)). intros c Hc. left. auto.
Qed.

Lemma frame_second b x : b ∈ F2 -> b.1 <= x < b.1 + HEADER -> ~ covered F1 x.
Proof using all_good sorted.
  destruct sorted_parts as (_ & _ & _ & S3). destruct good_parts as (_ & _ & G2). rewrite Forall_forall in G2.
  intros Hb. apply (not_covered_hdr F1 b); [auto|]. intros c Hc. left. auto.
Qed.

(** Linking around a block that was changed within its bounds. *)
Lemma relink m1 q : writes (inside (h, s)) m m1 -> 0 <= q < 4294967296 ->
  exists p' m', link_from (last_addr F1) q (KHeap p m1) = Ret tt (KHeap p' m') /\
    lseg m' p' F1 q /\ lseg m' n F2 NULL /\
    (forall h' s' n', h <= h' -> h' + HEADER <= h + s -> hdr m1 h' s' n' -> hdr m' h' s' n') /\
    writes (covered (F1 ++ [(h, s)])) m m'.
Proof.
  intros W1 Hq. destruct good_parts as (G1 & _ & _). destruct sorted_parts as (S1 & _ & _ & _).
  destruct (link_ok m1 p F1 h q) as (p' & m' & Hlk & L' & W'); [|done..|].
  { eapply lseg_writes; [exact W1| |done]. intros b x Hb. apply frame_block. auto. }
  exists p', m'. split_and!; [done..| | |].
  - eapply lseg_writes; [exact W'|exact frame_second|]. eapply lseg_writes; [exact W1| |done].
    intros b x Hb. apply frame_block. auto.
  - intros h' s' n' H1 H2. apply (hdr_writes _ _ _ _ _ _ W'). intros x Hx. apply frame_first.
    unfold inside. simpl. lia.
  - eapply writes_trans; eapply writes_weaken; [|exact W1| |exact W']; intros x; rewrite covered_app, covered_one; auto.
Qed.

Lemma take_exact fuel :
  exists p' m', getfree_walk (S fuel) s (last_addr F1) h (KHeap p m) = Ret h (KHeap p' m') /\
    lseg m' p' (F1 ++ F2) NULL /\ hdr m' h s n /\ writes (covered (F1 ++ [(h, s)])) m m'.
Proof.
  destruct good_parts as (_ & (G1 & G2 & G3) & GF2). cbn [fst snd] in *. unfold HEADER in G2.
  pose proof (lseg_head _ _ _ chain2 GF2) as [_ Hn].
  destruct (ld32_mapped (KHeap p m) h) as [fl Hfl]; [eapply mapped_sub; [apply block_h|lia..]|].
  set (m1 := wr h (Z.lor fl 1) m).
  assert (W1 : writes (inside (h, s)) m m1).
  { eapply writes_weaken; [|apply wr_writes]. unfold inside. simpl. lia. }
  assert (H1 : hdr m1 h s n) by by apply hdr_set_flags.
  destruct (relink m1 n W1 Hn) as (p' & m' & Hlk & L1 & L2 & Hh & W'). exists p', m'.
  split_and!; [|apply lseg_app; by exists n|apply Hh; [lia|unfold HEADER; lia|done]|done].
  cbn [getfree_walk]. destruct (Z.eqb_spec h NULL) as [E|_]; [unfold NULL in E; lia|].
  rewrite (bind_Ret _ _ _ _ _ (get_size_hdr (KHeap p m) h s n block_h)), Z.eqb_refl.
  rewrite (bind_Ret _ _ _ _ _ Hfl). unfold set_flags.
  rewrite (bind_Ret _ _ _ _ _ (st32_wr p m h _ ltac:(eapply mapped_sub; [apply block_h|lia..]))).
  rewrite (bind_Ret _ _ _ _ _ (get_nextfree_hdr (KHeap p m1) h s n H1)).
  by rewrite (bind_Ret _ _ _ _ _ Hlk).
Qed.

Lemma take_split req fuel : HEADER <= req -> req + HEADER <= s ->
  exists p' m', getfree_walk (S fuel) req (last_addr F1) h (KHeap p m) = Ret h (KHeap p' m') /\
    lseg m' p' (F1 ++ (h + req, s - req) :: F2) NULL /\ hdr m' h req n /\ writes (covered (F1 ++ [(h, s)])) m m'.
Proof.
  intros Hr Hf. destruct good_parts as (_ & Gh & _). pose proof Gh as (G1 & G2 & G3). cbn [fst snd] in *.
  destruct (split_ok m p h s n req block_h Gh Hr Hf) as (m1 & Hrun & H1 & H2 & W1).
  unfold HEADER in *. assert (Hnew : w32 (h + req) = h + req) by (apply w32_small; lia).
  destruct (relink m1 (h + req) W1 ltac:(lia)) as (p' & m' & Hlk & L1 & L2 & Hh & W'). exists p', m'.
  split_and!; [| |apply Hh; [lia|unfold HEADER; lia|done]|done].
  - cbn [getfree_walk]. destruct (Z.eqb_spec h NULL) as [E|_]; [unfold NULL in E; lia|].
    rewrite (bind_Ret _ _ _ _ _ (get_size_hdr (KHeap p m) h s n block_h)).
    destruct (Z.eqb_spec req s); [lia|]. change HEADER with 12. rewrite (w32_small (req + 12)) by lia.
    destruct (Z.leb_spec (req + 12) s); [|lia]. run_prefix Hrun. rewrite Hrun, Hnew, Hlk. done.
  - apply lseg_app. exists (h + req). split; [done|]. split; [done|]. exists n. split; [|done].
    apply Hh; [lia|unfold HEADER; lia|done].
Qed.
End take.

(** Both cases: the block is taken, the remainder stays in its place. *)
Lemma take_ok m p F1 h s F2 req fuel :
  lseg m p (F1 ++ (h, s) :: F2) NULL -> Forall good (F1 ++ (h, s) :: F2) ->
  StronglySorted before (F1 ++ (h, s) :: F2) -> HEADER <= req -> fits req s = true ->
  exists p' m' n, getfree_walk (S fuel) req (last_addr F1) h (KHeap p m) = Ret h (KHeap p' m') /\
    lseg m' p' (F1 ++ remainder req (h, s) ++ F2) NULL /\ hdr m' h req n /\
    lseg m n F2 NULL /\ writes (covered (F1 ++ [(h, s)])) m m'.
Proof.
  intros Hl Hg Hs Hr Hf. apply lseg_app in Hl as (r & L1 & -> & n & Hh & L2).
  unfold fits, remainder in *. cbn [fst snd]. destruct (Z.eqb_spec req s) as [->|Hne].
  - destruct (take_exact m p F1 h s F2 n L1 Hh L2 Hg Hs fuel) as (p' & m' & H). exists p', m', n. naive_solver.
  - apply Z.leb_le in Hf.
    destruct (take_split m p F1 h s F2 n L1 Hh L2 Hg Hs req fuel Hr Hf) as (p' & m' & H).
    exists p', m', n. naive_solver.
Qed.

(** Blocks that do not fit are passed over. *)
Lemma walk_past st F1 G p q req fuel :
  lseg (kmem st) p G q -> Forall good G -> 0 <= req -> req + HEADER < 4294967296 ->
  Forall (fun b => fits req b.2 = false) G ->
  getfree_walk (length G + fuel) req (last_addr F1) p st =
  getfree_walk fuel req (last_addr (F1 ++ G)) q st.
Proof.
  intros Hl Hg H0 Hr. revert F1 p Hl Hg. induction G as [|[h s] G IH]; intros F1 p Hl Hg Hf.
  { simpl in *. subst q. by rewrite app_nil_r. }
  destruct Hl as (-> & n & Hh & Hl). apply Forall_cons in Hg as [(G1 & _) Hg]. apply Forall_cons in Hf as [Hf0 Hf].
  cbn [length Nat.add getfree_walk fst snd] in *.
  destruct (Z.eqb_spec h NULL) as [E|_]; [unfold NULL in E; lia|].
  rewrite (bind_Ret _ _ _ _ _ (get_size_hdr st h s n Hh)).
  unfold fits in Hf0. apply orb_false_iff in Hf0 as [E1 E2]. rewrite E1, w32_small by (unfold HEADER in *; lia).
  rewrite E2, (bind_Ret _ _ _ _ _ (get_nextfree_hdr st h s n Hh)).
  replace (F1 ++ (h, s) :: G) with ((F1 ++ [(h, s)]) ++ G) by by rewrite <- app_assoc.
  rewrite <- (IH (F1 ++ [(h, s)]) n Hl Hg Hf). f_equal. unfold last_addr. by rewrite last_snoc.
Qed.

(** The blocks in use keep their contents. *)
Definition kept (U : list (Z * Z)) (st st' : kheap) : Prop :=
  forall b a, b ∈ U -> inside b a -> kmem st' !! a = kmem st !! a.

Lemma used_writes F U m m' :
  writes (covered F) m m' -> Forall good U -> (forall b c, b ∈ F -> c ∈ U -> disj b c) ->
  Forall (in_use m) U ->
  Forall (in_use m') U /\ (forall b a, b ∈ U -> inside b a -> m' !! a = m !! a).
Proof.
  intros Hw Hg Hd Hu. rewrite !Forall_forall in *. split.
  - intros b Hb. eapply in_use_writes; [exact Hw| |auto]. intros x. apply not_covered_hdr; auto.
  - intros b a Hb Ha. apply Hw. apply (not_covered F b); [auto|done].
Qed.

Lemma remainder_ok req h s b : good (h, s) -> HEADER <= req -> fits req s = true -> b ∈ remainder req (h, s) ->
  good b /\ h + req <= b.1 /\ b.1 + b.2 = h + s.
Proof.
  unfold fits, remainder, good, HEADER. cbn [fst snd]. intros Hg Hr Hf.
  destruct (Z.eqb_spec req s); [set_solver|]. cbn [orb] in Hf. apply Z.leb_le in Hf.
  intros ->%list_elem_of_singleton. simpl. lia.
Qed.

Lemma fits_le req s : 0 <= s -> fits req s = true -> req <= s.
Proof. unfold fits, HEADER. destruct (Z.eqb_spec req s); simpl; [lia|]. intros _ ?%Z.leb_le. lia. Qed.

Lemma take_heap_ok p m p' m' F1 h s F2 U req n :
  heap_ok (KHeap p m) (F1 ++ (h, s) :: F2) U -> HEADER <= req -> fits req s = true ->
  lseg m' p' (F1 ++ remainder req (h, s) ++ F2) NULL -> hdr m' h req n -> lseg m n F2 NULL ->
  writes (covered (F1 ++ [(h, s)])) m m' ->
  heap_ok (KHeap p' m') (F1 ++ remainder req (h, s) ++ F2) ((h, req) :: U) /\ kept U (KHeap p m) (KHeap p' m').
Proof.
  intros [Hc Hu [Hg Hgu] Hs Ha Hd] Hr Hf L Hh L2 Hw. cbn [firstfree kmem] in *.
  pose proof (remainder_ok req h s) as Hrem.
  apply Forall_app in Hg as [G1 [Gh G2]%Forall_cons]. pose proof (fits_le req s ltac:(destruct Gh as (_ & ? & _); simpl in *; unfold HEADER in *; lia) Hf) as Hle.
  destruct (used_writes (F1 ++ [(h, s)]) U m m' Hw Hgu) as [Hu' Hk]; [|done|].
  { intros b c Hb. apply Ha. set_solver. }
  apply blocks_sorted_app in Hs as (S1 & [S2 Sh]%StronglySorted_inv & S3). rewrite Forall_forall in Sh.
  split; [split; cbn [firstfree kmem]|]; [done| | | | | |exact Hk].
  - constructor; [|done]. exists n. split; [done|]. cbn [fst snd]. intros E.
    pose proof (lseg_head _ _ _ L2 G2) as [En _]. destruct F2 as [|[h2 s2] F2]; [destruct Gh; simpl in *; unfold NULL, HEADER in *; lia|].
    destruct L2 as (-> & n2 & (_ & _ & Hm2) & _). apply Forall_cons in G2 as [(_ & ? & _) _]. simpl in *.
    eapply mapped_writes; [exact Hw|]. eapply mapped_sub; [exact Hm2|lia..].
  - split; [|constructor; [|done]].
    + rewrite !Forall_app. split_and!; [done| |done]. apply Forall_forall. intros b Hb. by apply Hrem.
    + destruct Gh as (? & ? & ?). simpl in *. split_and!; simpl; lia.
  - rewrite !blocks_sorted_app. split_and!; [done| |done| |].
    + unfold remainder. destruct (req =? _); [constructor|apply sorted_one].
    + intros b c Hb Hc2. destruct (Hrem b Gh Hr Hf Hb) as (_ & _ & E). specialize (Sh c Hc2). unfold before in *. simpl in *. lia.
    + intros b c Hb [Hc2|Hc2]%elem_of_app; [|apply S3; set_solver].
      destruct (Hrem c Gh Hr Hf Hc2) as (_ & ? & _). specialize (S3 b (h, s) Hb ltac:(set_solver)).
      unfold before in *. simpl in *. unfold HEADER in *. lia.
  - intros b c Hb [->|Hcu]%elem_of_cons; rewrite !elem_of_app in Hb; destruct Hb as [Hb|[Hb|Hb]].
    + left. specialize (S3 b (h, s) Hb ltac:(set_solver)). done.
    + right. destruct (Hrem b Gh Hr Hf Hb) as (_ & ? & _). unfold before. simpl. lia.
    + right. specialize (Sh b Hb). unfold before in *. simpl in *. lia.
    + apply Ha; set_solver.
    + destruct (Hrem b Gh Hr Hf Hb) as (_ & ? & E).
      destruct (Ha (h, s) c ltac:(set_solver) Hcu); unfold disj, before in *; simpl in *; unfold HEADER in *; lia.
    + apply Ha; set_solver.
  - constructor; [|done]. apply Forall_forall. intros c Hcu.
    destruct (Ha (h, s) c ltac:(set_solver) Hcu); unfold disj, before in *; simpl in *; lia.
Qed.

Lemma getfree_walk_ok st F1 h s F2 U req :
  heap_ok st (F1 ++ (h, s) :: F2) U -> HEADER <= req -> req + HEADER < 4294967296 ->
  Forall (fun b => fits req b.2 = false) F1 -> fits req s = true ->
  exists st', getfree_walk (walk_fuel st) req NULL (firstfree st) st = Ret h st' /\
    heap_ok st' (F1 ++ remainder req (h, s) ++ F2) ((h, req) :: U) /\ kept U st st'.
Proof.
  destruct st as [p m]. intros Hok Hr Hr2 Hn Hf. pose proof Hok as [Hc _ [Hg _] Hs _ _]. cbn [firstfree kmem] in *.
  pose proof (walk_fuel_ok p m p _ _ Hc Hg Hs) as Hfuel. rewrite length_app in Hfuel. simpl in Hfuel.
  pose proof Hc as (q & L1 & Ehq & _)%lseg_app. subst q.
  destruct (walk_fuel (KHeap p m) - length F1)%nat as [|fuel] eqn:Ef; [lia|].
  replace (walk_fuel (KHeap p m)) with (length F1 + S fuel)%nat by lia.
  pose proof (walk_past (KHeap p m) [] F1 p h req (S fuel) L1
    ltac:(by apply Forall_app in Hg as [? _]) ltac:(unfold HEADER in *; lia) Hr2 Hn) as Hw.
  rewrite app_nil_l in Hw. unfold last_addr at 1 in Hw. simpl last in Hw. rewrite Hw.
  destruct (take_ok m p F1 h s F2 req fuel Hc Hg Hs Hr Hf) as (p' & m' & n & Hrun & L & Hh & L2 & Hwr).
  exists (KHeap p' m'). split; [done|]. by eapply take_heap_ok.
Qed.

(** ** Giving a block back *)

(** [b] in front of [F], joined with the next block when they touch. *)
Definition joined (b : Z * Z) (F : list (Z * Z)) : list (Z * Z) :=
  match F with
  | c :: G => if b.1 + b.2 =? c.1 then (b.1, b.2 + c.2) :: G else b :: F
  | [] => [b]
  end.

Lemma mapped_join m a n k : mapped m a n -> mapped m (a + n) k -> mapped m a (n + k).
Proof.
  intros H1 H2 i Hi. destruct (decide (i < n)); [apply H1; lia|].
  replace (a + i) with (a + n + (i - n)) by lia. apply H2. lia.
Qed.

(** Whatever the link of the block is, only its own header is written. *)
Lemma join_stale p m h s n :
  hdr m h s n -> good (h, s) -> (h + s = n -> mapped m n HEADER) ->
  exists m', join_next h (KHeap p m) = Ret tt (KHeap p m') /\ writes (inside (h, s)) m m'.
Proof.
  intros Hh (G1 & G2 & G3) Hm. cbn [fst snd] in *. unfold HEADER in *. unfold join_next.
  rewrite (bind_Ret _ _ _ _ _ (get_size_hdr (KHeap p m) h s n Hh)).
  rewrite (bind_Ret _ _ _ _ _ (get_nextfree_hdr (KHeap p m) h s n Hh)), w32_small by lia.
  destruct (Z.eqb_spec (h + s) n) as [E|]; [|exists m; split; [done|apply writes_refl]].
  specialize (Hm E). destruct (ld32_mapped (KHeap p m) (n + 4)) as [ns Hns]; [eapply mapped_sub; [exact Hm|lia..]|].
  unfold get_size at 1. rewrite (bind_Ret _ _ _ _ _ Hns).
  set (m1 := wr (h + 4) (w32 (s + ns)) m). unfold set_size.
  rewrite (bind_Ret _ _ _ _ _ (st32_wr p m (h + 4) _ ltac:(eapply mapped_sub; [apply Hh|lia..]))). fold m1.
  assert (Hw : word m1 (h + 8) n) by (apply word_wr_ne; [lia|apply Hh]).
  unfold get_nextfree. rewrite (bind_Ret _ _ _ _ _ (ld32_word (KHeap p m1) (h + 8) n Hw)).
  destruct (ld32_mapped (KHeap p m1) (n + 8)) as [nn Hnn]; [apply mapped_wr; eapply mapped_sub; [exact Hm|lia..]|].
  rewrite (bind_Ret _ _ _ _ _ Hnn). exists (wr (h + 8) nn m1). split.
  - apply st32_wr. apply mapped_wr. eapply mapped_sub; [apply Hh|lia..].
  - eapply writes_trans; (eapply writes_weaken; [|apply wr_writes]); unfold inside; simpl; lia.
Qed.

Lemma join_merge m p F1 h s d ds F3 :
  lseg m p F1 h -> hdr m h s d -> lseg m d ((d, ds) :: F3) NULL ->
  Forall good (F1 ++ (h, s) :: (d, ds) :: F3) -> StronglySorted before (F1 ++ (h, s) :: (d, ds) :: F3) ->
  h + s = d ->
  exists m', join_next h (KHeap p m) = Ret tt (KHeap p m') /\
    lseg m' p (F1 ++ (h, s + ds) :: F3) NULL /\ writes (inside (h, s)) m m'.
Proof.
  intros L1 Hh (_ & nn & Hd & L3) Hg Hs E.
  pose proof (frame_block F1 h s _ Hg Hs) as Hfr. pose proof (lseg_head m nn F3 L3) as Hnn.
  apply Forall_app in Hg as [_ [(G1 & G2 & G3) [(D1 & D2 & D3) GF3]%Forall_cons]%Forall_cons].
  specialize (Hnn GF3) as [_ Hnn]. cbn [fst snd] in *. unfold HEADER in *. unfold join_next.
  rewrite (bind_Ret _ _ _ _ _ (get_size_hdr (KHeap p m) h s d Hh)).
  rewrite (bind_Ret _ _ _ _ _ (get_nextfree_hdr (KHeap p m) h s d Hh)), w32_small by lia.
  destruct (Z.eqb_spec (h + s) d) as [_|]; [|done].
  rewrite (bind_Ret _ _ _ _ _ (get_size_hdr (KHeap p m) d ds nn Hd)), w32_small by lia.
  set (m1 := wr (h + 4) (s + ds) m). set (m2 := wr (h + 8) nn m1). unfold set_size.
  rewrite (bind_Ret _ _ _ _ _ (st32_wr p m (h + 4) _ ltac:(eapply mapped_sub; [apply Hh|lia..]))). fold m1.
  assert (Hh1 : hdr m1 h (s + ds) d).
  { eapply hdr_set_size; [lia| |exact Hh]. apply mapped_join; [apply Hh|rewrite E; apply Hd]. }
  assert (Hd1 : hdr m1 d ds nn) by (apply hdr_other; [lia|done]).
  rewrite (bind_Ret _ _ _ _ _ (get_nextfree_hdr (KHeap p m1) h _ d Hh1)).
  rewrite (bind_Ret _ _ _ _ _ (get_nextfree_hdr (KHeap p m1) d ds nn Hd1)).
  assert (W : writes (inside (h, s)) m m2).
  { eapply writes_trans; (eapply writes_weaken; [|apply wr_writes]); unfold inside; simpl; lia. }
  exists m2. split_and!; [|..|done].
  - apply st32_wr. eapply mapped_sub; [apply Hh1|lia..].
  - apply lseg_app. exists h. split; [eapply lseg_writes; [exact W|intros b x Hb; apply Hfr; auto|done]|].
    split; [done|]. exists nn. split; [by eapply hdr_set_next|].
    eapply lseg_writes; [exact W| |done]. intros b x Hb. apply Hfr. set_solver.
Qed.

Lemma join_next_ok m p F1 h s F2 n :
  lseg m p F1 h -> hdr m h s n -> lseg m n F2 NULL ->
  Forall good (F1 ++ (h, s) :: F2) -> StronglySorted before (F1 ++ (h, s) :: F2) ->
  exists m', join_next h (KHeap p m) = Ret tt (KHeap p m') /\
    lseg m' p (F1 ++ joined (h, s) F2) NULL /\ writes (inside (h, s)) m m'.
Proof.
  intros L1 Hh L2 Hg Hs.
  assert (Hskip : h + s <> n -> exists m', join_next h (KHeap p m) = Ret tt (KHeap p m') /\
    lseg m' p (F1 ++ (h, s) :: F2) NULL /\ writes (inside (h, s)) m m').
  { intros Hne. exists m. split_and!; [|apply lseg_app; exists h; naive_solver|apply writes_refl].
    unfold join_next. rewrite (bind_Ret _ _ _ _ _ (get_size_hdr (KHeap p m) h s n Hh)).
    rewrite (bind_Ret _ _ _ _ _ (get_nextfree_hdr (KHeap p m) h s n Hh)), w32_small.
    - by destruct (Z.eqb_spec (h + s) n).
    - apply Forall_app in Hg as [_ [(? & ? & ?) _]%Forall_cons]. simpl in *. unfold HEADER in *. lia. }
  destruct F2 as [|[d ds] F3]; cbn [joined fst snd].
  - apply Hskip. apply Forall_app in Hg as [_ [(? & ? & ?) _]%Forall_cons]. simpl in *. unfold NULL, HEADER in *. lia.
  - pose proof L2 as [-> _]. destruct (Z.eqb_spec (h + s) d); [|auto]. by apply (join_merge m p F1 h s d).
Qed.

(** Two blocks that touch are one. *)
Lemma merge_ok G a x y H :
  Forall good (G ++ (a, x) :: (a + x, y) :: H) -> StronglySorted before (G ++ (a, x) :: (a + x, y) :: H) ->
  Forall good (G ++ (a, x + y) :: H) /\ StronglySorted before (G ++ (a, x + y) :: H) /\
  (forall z, covered (G ++ (a, x + y) :: H) z <-> covered (G ++ (a, x) :: (a + x, y) :: H) z).
Proof.
  intros [G1 [(A1 & A2 & A3) [(B1 & B2 & B3) G2]%Forall_cons]%Forall_cons]%Forall_app.
  intros (S1 & [[S2 SB]%StronglySorted_inv SA]%StronglySorted_inv & S3)%blocks_sorted_app.
  cbn [fst snd] in *. unfold HEADER in *. split_and!.
  - apply Forall_app. split; [done|]. constructor; [|done]. split_and!; simpl; unfold HEADER; lia.
  - apply blocks_sorted_app. split_and!; [done| |].
    + constructor; [done|]. eapply Forall_impl; [exact SB|]. unfold before. simpl. lia.
    + intros b c Hb [->|Hc]%elem_of_cons; [|apply S3; set_solver].
      apply (S3 b (a, x) Hb). set_solver.
  - intros z. rewrite !covered_app. change (covered ((a, x + y) :: H)) with (covered ([(a, x + y)] ++ H)).
    change (covered ((a, x) :: (a + x, y) :: H)) with (covered ([(a, x)] ++ [(a + x, y)] ++ H)).
    rewrite !covered_app, !covered_one. unfold inside. simpl. assert (a <= z < a + (x + y) <-> a <= z < a + x \/ a + x <= z < a + x + y) by lia. tauto.
Qed.

(** The block [(h, s)] lies within one of the blocks of [F]. *)
Definition holds (F : list (Z * Z)) (h s : Z) : Prop := exists c, c ∈ F /\ c.1 <= h /\ h + s <= c.1 + c.2.

Lemma joined_ok F1 h s F2 :
  Forall good (F1 ++ (h, s) :: F2) -> StronglySorted before (F1 ++ (h, s) :: F2) ->
  Forall good (F1 ++ joined (h, s) F2) /\ StronglySorted before (F1 ++ joined (h, s) F2) /\
  (forall z, covered (F1 ++ joined (h, s) F2) z <-> covered (F1 ++ (h, s) :: F2) z) /\
  holds (F1 ++ joined (h, s) F2) h s.
Proof.
  intros Hg Hs. assert (H0 : holds (F1 ++ (h, s) :: F2) h s).
  { exists (h, s). split; [set_solver|simpl; lia]. }
  destruct F2 as [|[d ds] F3]; cbn [joined fst snd]; [done|].
  destruct (Z.eqb_spec (h + s) d) as [<-|]; [|done].
  destruct (merge_ok F1 h s ds F3 Hg Hs) as (? & ? & ?). split_and!; [done..|].
  exists (h, s + ds). split; [set_solver|]. simpl.
  apply Forall_app in Hg as [_ [_ [(_ & ? & _) _]%Forall_cons]%Forall_cons]. simpl in *. unfold HEADER in *. lia.
Qed.

(** The walk passes the blocks whose successor is still below [h]. *)
Lemma insert_past st G p c h fuel :
  lseg (kmem st) p G c -> Forall (fun b => 0 < b.1 < h) G -> 0 < c < h ->
  insert_walk (length G + fuel) p h st = insert_walk fuel c h st.
Proof.
  intros Hl Hf Hc. revert p Hl Hf. induction G as [|[g gs] G IH]; intros p Hl Hf; [by simpl in *; subst|].
  destruct Hl as (-> & n & Hh & Hl). apply Forall_cons in Hf as [Hg Hf]. cbn [length Nat.add insert_walk fst] in *.
  destruct (Z.eqb_spec g NULL) as [E|_]; [unfold NULL in E; lia|].
  rewrite (bind_Ret _ _ _ _ _ (get_nextfree_hdr st g gs n Hh)).
  assert (Hn : 0 < n < h).
  { destruct G as [|[g' gs'] G]; [by simpl in *; subst|]. destruct Hl as (-> & _).
    apply Forall_cons in Hf as [Hg' _]. done. }
  destruct (Z.ltb_spec h n), (Z.eqb_spec n NULL) as [E|_]; try (unfold NULL in E); try lia.
  rewrite andb_false_r. by apply IH.
Qed.

Section insert.
Context (m : bytes) (p : Z) (G : list (Z * Z)) (c cs h s : Z) (F2 : list (Z * Z)) (n0 : Z).
Hypothesis chain : lseg m p (G ++ (c, cs) :: F2) NULL.
Hypothesis block_h : hdr m h s n0.
Hypothesis all_good : Forall good (G ++ (c, cs) :: (h, s) :: F2).
Hypothesis sorted : StronglySorted before (G ++ (c, cs) :: (h, s) :: F2).

Lemma insert_facts : good (c, cs) /\ good (h, s) /\ Forall good F2 /\ c + cs <= h /\
  (forall b, b ∈ F2 -> h + s <= b.1) /\ (forall b, b ∈ G -> b.1 + b.2 <= c /\ good b).
Proof using all_good sorted.
  clear chain block_h.
  apply Forall_app in all_good as [G1 [Gc [Gh G2]%Forall_cons]%Forall_cons].
  apply blocks_sorted_app in sorted as (_ & [[_ Sh]%StronglySorted_inv Sc]%StronglySorted_inv & S3).
  rewrite Forall_forall in G1, Sh. apply Forall_cons in Sc as [Sc _]. split_and!; [done..|].
  intros b Hb. split; [|auto]. apply (S3 b (c, cs) Hb). set_solver.
Qed.

(** The walk ends at [c] and links or joins the block. *)
Lemma insert_reaches :
  exists n, hdr m c cs n /\ lseg m p G c /\ lseg m n F2 NULL /\ 0 <= n < 4294967296 /\
  insert_walk (walk_fuel (KHeap p m)) p h (KHeap p m) =
  (if w32 (c + cs) =? h then hsize ← get_size h; set_size c (w32 (cs + hsize))
   else set_nextfree h n;; set_nextfree c h) (KHeap p m).
Proof.
  destruct insert_facts as ((C1 & C2 & C3) & (H1 & H2 & H3) & G2 & Hch & S2 & SG). cbn [fst snd] in *.
  pose proof chain as (q & L1 & Eq & n & Hc & L2)%lseg_app. subst q. exists n.
  pose proof (lseg_head _ _ _ L2 G2) as [En Hn]. split_and!; [done|done|done|lia|lia|].
  assert (Hfuel : (length G + 1 <= walk_fuel (KHeap p m))%nat).
  { assert (length (G ++ (c, cs) :: F2) < walk_fuel (KHeap p m))%nat as Hlt.
    - apply (walk_fuel_ok p m p _ NULL chain).
      + apply Forall_app in all_good as [? [? [_ ?]%Forall_cons]%Forall_cons]. apply Forall_app. auto.
      + pose proof sorted as (S1 & [[S3 _]%StronglySorted_inv [_ Sc]%Forall_cons]%StronglySorted_inv & S4)%blocks_sorted_app.
        apply blocks_sorted_app. split_and!; [done|by constructor|]. intros b d Hb Hd. apply S4; [done|set_solver].
    - rewrite length_app in Hlt. simpl in Hlt. lia. }
  replace (walk_fuel (KHeap p m)) with (length G + S (walk_fuel (KHeap p m) - length G - 1))%nat by lia.
  rewrite (insert_past (KHeap p m) G p c h); [|done| |unfold HEADER in *; lia].
  2: { apply Forall_forall. intros b Hb. destruct (SG b Hb) as (? & ? & ? & ?). unfold HEADER in *. lia. }
  cbn [insert_walk]. destruct (Z.eqb_spec c NULL) as [E|_]; [unfold NULL in E; lia|].
  rewrite (bind_Ret _ _ _ _ _ (get_nextfree_hdr (KHeap p m) c cs n Hc)).
  replace ((c <? h) && ((h <? n) || (n =? NULL))) with true.
  - by rewrite (bind_Ret _ _ _ _ _ (get_size_hdr (KHeap p m) c cs n Hc)).
  - symmetry. apply andb_true_iff. split; [apply Z.ltb_lt; unfold HEADER in *; lia|]. apply orb_true_iff.
    destruct F2 as [|b F2']; [right; by apply Z.eqb_eq|left; apply Z.ltb_lt].
    specialize (S2 b ltac:(set_solver)). unfold HEADER in *. lia.
Qed.

Lemma frames b x : b ∈ G \/ b ∈ F2 -> b.1 <= x < b.1 + HEADER -> ~ inside (c, cs) x /\ ~ inside (h, s) x.
Proof using all_good sorted.
  destruct insert_facts as ((C1 & C2 & C3) & (H1 & H2 & H3) & G2 & Hch & S2 & SG). unfold inside. cbn [fst snd] in *.
  intros [Hb|Hb] Hx.
  - destruct (SG b Hb) as (? & ? & ? & ?). lia.
  - specialize (S2 b Hb). lia.
Qed.

Let Fall := G ++ (c, cs) :: (h, s) :: F2.

Lemma inside_all x : inside (c, cs) x \/ inside (h, s) x -> covered Fall x.
Proof. intros [H|H]; eexists; (split; [|exact H]); unfold Fall; clear; set_solver. Qed.

Lemma insert_join : c + cs = h -> (h + s = n0 -> mapped m n0 HEADER) ->
  exists m', (insert_walk (walk_fuel (KHeap p m)) p h;; join_next h) (KHeap p m) = Ret tt (KHeap p m') /\
    lseg m' p (G ++ (c, cs + s) :: F2) NULL /\ writes (covered Fall) m m'.
Proof.
  intros E Hst. destruct insert_reaches as (n & Hc & L1 & L2 & Hn & Hrun).
  pose proof frames as Hfr.
  destruct insert_facts as ((C1 & C2 & C3) & Gh & _ & Hch & _ & _). pose proof Gh as (H1 & H2 & H3).
  cbn [fst snd] in *. unfold HEADER in *.
  rewrite (w32_small (c + cs)), (proj2 (Z.eqb_eq _ _) E) in Hrun by lia.
  rewrite (bind_Ret _ _ _ _ _ (get_size_hdr (KHeap p m) h s n0 block_h)), w32_small in Hrun by lia.
  set (m1 := wr (c + 4) (cs + s) m). unfold set_size in Hrun.
  rewrite (st32_wr p m (c + 4)) in Hrun by (eapply mapped_sub; [apply Hc|lia..]). fold m1 in Hrun.
  assert (W1 : writes (inside (c, cs)) m m1).
  { eapply writes_weaken; [|apply wr_writes]. unfold inside. simpl. lia. }
  assert (Hc1 : hdr m1 c (cs + s) n).
  { eapply hdr_set_size; [lia| |exact Hc]. apply mapped_join; [apply Hc|rewrite E; apply block_h]. }
  assert (Hh1 : hdr m1 h s n0) by (apply hdr_other; [unfold HEADER; lia|done]).
  destruct (join_stale p m1 h s n0 Hh1 Gh) as (m2 & Hj & W2).
  { intros E'. eapply mapped_writes; [exact W1|auto]. }
  exists m2. split_and!.
  - by rewrite (bind_Ret _ _ _ _ _ Hrun).
  - apply lseg_app. exists c. split.
    + eapply lseg_writes; [exact W2|intros b x Hb Hx; by apply (Hfr b x (or_introl Hb))|].
      eapply lseg_writes; [exact W1|intros b x Hb Hx; by apply (Hfr b x (or_introl Hb))|done].
    + split; [done|]. exists n. split.
      * eapply hdr_writes; [exact W2| |done]. unfold inside, HEADER. simpl. lia.
      * eapply lseg_writes; [exact W2|intros b x Hb Hx; by apply (Hfr b x (or_intror Hb))|].
        eapply lseg_writes; [exact W1|intros b x Hb Hx; by apply (Hfr b x (or_intror Hb))|done].
  - eapply writes_trans; eapply writes_weaken; [|exact W1| |exact W2]; intros x Hx; apply inside_all; auto.
Qed.

Lemma insert_link : c + cs <> h ->
  exists m', (insert_walk (walk_fuel (KHeap p m)) p h;; join_next h) (KHeap p m) = Ret tt (KHeap p m') /\
    lseg m' p ((G ++ [(c, cs)]) ++ joined (h, s) F2) NULL /\ writes (covered Fall) m m'.
Proof.
  intros E. destruct insert_reaches as (n & Hc & L1 & L2 & Hn & Hrun).
  pose proof frames as Hfr.
  destruct insert_facts as ((C1 & C2 & C3) & (H1 & H2 & H3) & _ & Hch & _ & _). cbn [fst snd] in *. unfold HEADER in *.
  rewrite (w32_small (c + cs)), (proj2 (Z.eqb_neq _ _) E) in Hrun by lia. unfold set_nextfree in Hrun.
  rewrite (bind_Ret _ _ _ _ _ (st32_wr p m (h + 8) n ltac:(eapply mapped_sub; [apply block_h|lia..]))) in Hrun.
  set (m1 := wr (h + 8) n m) in *. set (m2 := wr (c + 8) h m1).
  rewrite (st32_wr p m1 (c + 8)) in Hrun by (apply mapped_wr; eapply mapped_sub; [apply Hc|lia..]). fold m2 in Hrun.
  assert (W1 : writes (inside (h, s)) m m1).
  { eapply writes_weaken; [|apply wr_writes]. unfold inside. simpl. lia. }
  assert (W2 : writes (inside (c, cs)) m1 m2).
  { eapply writes_weaken; [|apply wr_writes]. unfold inside. simpl. lia. }
  assert (Hall : G ++ (c, cs) :: (h, s) :: F2 = (G ++ [(c, cs)]) ++ (h, s) :: F2) by by rewrite <- app_assoc.
  destruct (join_next_ok m2 p (G ++ [(c, cs)]) h s F2 n) as (m3 & Hj & L3 & W3).
  - apply lseg_app. exists c. split.
    + eapply lseg_writes; [exact W2|intros b x Hb Hx; by apply (Hfr b x (or_introl Hb))|].
      eapply lseg_writes; [exact W1|intros b x Hb Hx; by apply (Hfr b x (or_introl Hb))|done].
    + split; [done|]. exists h. split; [|done]. eapply hdr_set_next; [lia|].
      eapply hdr_writes; [exact W1| |exact Hc]. unfold inside, HEADER. simpl. lia.
  - eapply hdr_writes; [exact W2|unfold inside, HEADER; simpl; lia|]. by eapply hdr_set_next.
  - eapply lseg_writes; [exact W2|intros b x Hb Hx; by apply (Hfr b x (or_intror Hb))|].
    eapply lseg_writes; [exact W1|intros b x Hb Hx; by apply (Hfr b x (or_intror Hb))|done].
  - by rewrite <- Hall.
  - by rewrite <- Hall.
  - exists m3. split_and!; [by rewrite (bind_Ret _ _ _ _ _ Hrun)|done|].
    eapply writes_trans; [eapply writes_trans|]; eapply writes_weaken;
      [|exact W1| |exact W2| |exact W3]; intros x Hx; apply inside_all; auto.
Qed.
End insert.

(** The block comes first: it becomes the head of the list. *)
Lemma insert_front m p h s n0 F2 :
  lseg m p F2 NULL -> hdr m h s n0 -> Forall good ((h, s) :: F2) -> StronglySorted before ((h, s) :: F2) ->
  exists m', _malloc_insertlist h (KHeap p m) = Ret tt (KHeap h m') /\
    lseg m' h (joined (h, s) F2) NULL /\ writes (inside (h, s)) m m'.
Proof.
  intros L Hh Hg Hs. pose proof Hg as [Gh GF]%Forall_cons. pose proof Gh as (G1 & G2 & G3). cbn [fst snd] in *.
  pose proof (lseg_head _ _ _ L GF) as [Hp Hpr]. set (m1 := wr (h + 8) p m). unfold HEADER in *.
  assert (W1 : writes (inside (h, s)) m m1).
  { eapply writes_weaken; [|apply wr_writes]. unfold inside. simpl. lia. }
  pose proof (frame_block [] h s F2 Hg Hs) as Hfr.
  destruct (join_next_ok m1 h [] h s F2 p) as (m2 & Hj & L2 & W2); [done| | |done..|].
  { by eapply hdr_set_next. }
  { eapply lseg_writes; [exact W1| |done]. intros b x Hb. apply Hfr. auto. }
  exists m2. split_and!; [|done|by eapply writes_trans].
  unfold _malloc_insertlist. rewrite (bind_Ret (gets firstfree) _ (KHeap p m) p (KHeap p m) eq_refl).
  assert (St : forall f v, st32 (h + 8) v (KHeap f m) = Ret tt (KHeap f (wr (h + 8) v m))).
  { intros f v. apply st32_wr. eapply mapped_sub; [apply Hh|lia..]. }
  rewrite (bind_Ret _ _ _ tt (KHeap h m1)); [exact Hj|].
  destruct (Z.eqb_spec p NULL) as [E|E].
  - unfold m1. rewrite E. rewrite (bind_Ret (set_firstfree h) _ (KHeap NULL m) tt (KHeap h m) eq_refl). apply St.
  - destruct F2 as [|b F2]; [done|]. apply StronglySorted_inv in Hs as [_ [Sb _]%Forall_cons].
    unfold before in Sb. simpl in Sb. destruct (Z.ltb_spec h p); [|lia].
    by rewrite (bind_Ret _ _ _ _ _ (St p p)).
Qed.

(** [_malloc_insertlist]: the free list stays a sorted chain, covers exactly
    the old blocks and the new one, and only free memory is written. *)
Lemma insertlist_ok m p F1 F2 h s n0 :
  lseg m p (F1 ++ F2) NULL -> hdr m h s n0 -> (h + s = n0 -> mapped m n0 HEADER) ->
  Forall good (F1 ++ (h, s) :: F2) -> StronglySorted before (F1 ++ (h, s) :: F2) ->
  exists p' m' F', _malloc_insertlist h (KHeap p m) = Ret tt (KHeap p' m') /\
    lseg m' p' F' NULL /\ Forall good F' /\ StronglySorted before F' /\
    (forall a, covered F' a <-> covered (F1 ++ (h, s) :: F2) a) /\ holds F' h s /\
    writes (covered (F1 ++ (h, s) :: F2)) m m'.
Proof.
  intros L Hh Hst Hg Hs. destruct F1 as [|[c cs] G _] using rev_ind.
  { destruct (insert_front m p h s n0 F2 L Hh Hg Hs) as (m' & Hrun & L' & W).
    destruct (joined_ok [] h s F2 Hg Hs) as (? & ? & ? & ?). exists h, m', (joined (h, s) F2).
    split_and!; [done..|]. eapply writes_weaken; [|exact W]. intros x Hx. exists (h, s). split; [left|done]. }
  rewrite <- app_assoc in L. rewrite <- app_assoc in Hg, Hs |- *. simpl app in *.
  destruct (insert_facts G c cs h s F2 Hg Hs) as ((C1 & C2 & C3) & (H1 & H2 & H3) & _ & Hch & _ & SG).
  cbn [fst snd] in *. unfold HEADER in *.
  assert (Hp : 0 < p <= c).
  { destruct G as [|[g gs] G]; destruct L as (-> & _); [lia|].
    destruct (SG (g, gs) ltac:(clear; set_solver)) as (? & ? & ? & ?). simpl in *. unfold HEADER in *. lia. }
  assert (Hrun : _malloc_insertlist h (KHeap p m) =
    (insert_walk (walk_fuel (KHeap p m)) p h;; join_next h) (KHeap p m)).
  { unfold _malloc_insertlist. rewrite (bind_Ret (gets firstfree) _ (KHeap p m) p (KHeap p m) eq_refl).
    destruct (Z.eqb_spec p NULL) as [E|_]; [unfold NULL in E; lia|]. destruct (Z.ltb_spec h p); [lia|done]. }
  destruct (decide (c + cs = h)) as [E|E].
  - destruct (insert_join m p G c cs h s F2 n0 L Hh Hg Hs E Hst) as (m' & Hr & L' & W).
    rewrite <- E in Hg, Hs. destruct (merge_ok G c cs s F2 Hg Hs) as (M1 & M2 & M3).
    exists p, m', (G ++ (c, cs + s) :: F2). rewrite Hrun.
    split_and!; [done..|by rewrite <- E|exists (c, cs + s); simpl; split; [clear; set_solver|lia]|done].
  - destruct (insert_link m p G c cs h s F2 n0 L Hh Hg Hs E) as (m' & Hr & L' & W).
    destruct (joined_ok (G ++ [(c, cs)]) h s F2) as (J1 & J2 & J3 & J4); [by rewrite <- app_assoc..|].
    exists p, m', ((G ++ [(c, cs)]) ++ joined (h, s) F2). rewrite Hrun.
    rewrite <- (app_assoc G [(c, cs)] ((h, s) :: F2)) in J3. by split_and!.
Qed.

Lemma split_around F b : StronglySorted before F -> Forall good F -> good b -> (forall c, c ∈ F -> disj c b) ->
  exists F1 F2, F = F1 ++ F2 /\ StronglySorted before (F1 ++ b :: F2).
Proof.
  intros Hs Hg Hb. induction F as [|c F IH]; intros Hd.
  { exists [], []. split; [done|apply sorted_one]. }
  apply StronglySorted_inv in Hs as [Hs Hc]. apply Forall_cons in Hg as [Gc Hg].
  destruct (Hd c ltac:(set_solver)) as [Hcb|Hbc].
  - destruct (IH Hs Hg) as (F1 & F2 & -> & Hs'); [intros; apply Hd; set_solver|].
    exists (c :: F1), F2. split; [done|]. simpl. constructor; [done|].
    apply Forall_app in Hc as [Hc1 Hc2]. apply Forall_app. split; [done|]. by constructor.
  - exists [], (c :: F). split; [done|]. simpl. constructor; [by constructor|].
    constructor; [done|]. eapply Forall_impl; [exact Hc|]. intros d Hd'.
    destruct Gc as (_ & ? & _). unfold before, HEADER in *. lia.
Qed.

(** A block apart from all others may be written. *)
Lemma heap_ok_frame p m m1 F U b :
  heap_ok (KHeap p m) F U -> good b -> (forall c, c ∈ F ++ U -> disj c b) -> writes (inside b) m m1 ->
  heap_ok (KHeap p m1) F U /\ kept U (KHeap p m) (KHeap p m1).
Proof.
  intros [L Hu [Hg Hgu] Hs Ha Hd] Gb Hb Hw. cbn [firstfree kmem] in *.
  assert (Hw' : writes (covered [b]) m m1) by (eapply writes_weaken; [|exact Hw]; intros x; by rewrite covered_one).
  destruct (used_writes [b] U m m1 Hw' Hgu) as [Hu' Hk]; [|done|].
  { intros d c ->%list_elem_of_singleton Hc. destruct (Hb c ltac:(set_solver)); unfold disj; auto. }
  split; [split; cbn [firstfree kmem]; try done|exact Hk].
  eapply lseg_writes; [exact Hw'| |done]. intros c x Hc. rewrite Forall_forall in Hg.
  apply not_covered_hdr; [auto|]. intros d ->%list_elem_of_singleton. destruct (Hb c ltac:(set_solver)); unfold disj; auto.
Qed.

Lemma disj_points b c : good b -> good c -> (forall a, inside b a -> ~ inside c a) -> disj b c.
Proof.
  intros (_ & Hb & _) (_ & Hc & _) H. unfold disj, before, inside, HEADER in *.
  destruct (decide (b.1 + b.2 <= c.1)); [by left|]. destruct (decide (c.1 + c.2 <= b.1)); [by right|].
  exfalso. apply (H (Z.max b.1 c.1)); lia.
Qed.

Lemma disj_no_point b c a : disj b c -> inside b a -> ~ inside c a.
Proof. unfold disj, before, inside. lia. Qed.

Lemma covered_middle F1 b F2 a : covered (F1 ++ b :: F2) a <-> covered (F1 ++ F2) a \/ inside b a.
Proof.
  change (F1 ++ b :: F2) with (F1 ++ [b] ++ F2). rewrite !covered_app, covered_one. tauto.
Qed.

Lemma give_back p m F U h s n0 :
  heap_ok (KHeap p m) F U -> good (h, s) -> (forall c, c ∈ F ++ U -> disj c (h, s)) ->
  hdr m h s n0 -> (h + s = n0 -> mapped m n0 HEADER) ->
  exists st' F', _malloc_insertlist h (KHeap p m) = Ret tt st' /\ heap_ok st' F' U /\
    kept U (KHeap p m) st' /\ (forall a, covered F' a <-> covered F a \/ inside (h, s) a) /\ holds F' h s.
Proof.
  intros [L Hu [Hg Hgu] Hs Ha Hd] Gh Hdis Hh Hst. cbn [firstfree kmem] in *.
  destruct (split_around F (h, s) Hs Hg Gh) as (F1 & F2 & -> & Hs'); [intros; apply Hdis; set_solver|].
  assert (Hg' : Forall good (F1 ++ (h, s) :: F2)).
  { apply Forall_app in Hg as [? ?]. apply Forall_app. split; [done|]. by constructor. }
  destruct (insertlist_ok m p F1 F2 h s n0 L Hh Hst Hg' Hs') as (p' & m' & F' & Hrun & L' & G' & S' & C' & Ho & W).
  assert (Hda : forall b c, b ∈ F1 ++ (h, s) :: F2 -> c ∈ U -> disj b c).
  { intros b c Hb Hc. rewrite elem_of_app, elem_of_cons in Hb.
    destruct Hb as [Hb|[->|Hb]]; [apply Ha; set_solver| |apply Ha; set_solver].
    destruct (Hdis c ltac:(set_solver)); unfold disj; auto. }
  destruct (used_writes _ U m m' W Hgu Hda Hu) as [Hu' Hk].
  exists (KHeap p' m'), F'. split_and!; [done| |exact Hk| |done].
  - split; cbn [firstfree kmem]; try done. intros b c Hb Hc. rewrite Forall_forall in G', Hgu.
    apply disj_points; [auto..|]. intros a Hin.
    assert (covered F' a) as (d & Hd' & Hin')%C' by (by exists b).
    eapply disj_no_point; [|exact Hin']. by apply Hda.
  - intros a. rewrite C'. apply covered_middle.
Qed.

(** ** New pages *)

Lemma lseg_mapped m p F q b : lseg m p F q -> b ∈ F -> mapped m b.1 b.2.
Proof.
  revert p. induction F as [|[h s] F IH]; intros p L Hb; [set_solver|].
  destruct L as (-> & n & (_ & _ & Hm) & L). apply elem_of_cons in Hb as [->|Hb]; [done|by eapply IH].
Qed.

Lemma mapped_known m b x : mapped m b.1 b.2 -> good b -> b.1 <= x < b.1 + HEADER -> ~ m !! x = None.
Proof.
  intros Hm (_ & Hs & _) Hx E. destruct (Hm (x - b.1) ltac:(lia)) as [v Hv].
  replace (b.1 + (x - b.1)) with x in Hv by lia. congruence.
Qed.

(** More memory does not disturb the heap. *)
Lemma heap_ok_more p m m' F U : heap_ok (KHeap p m) F U -> m ⊆ m' ->
  heap_ok (KHeap p m') F U /\ kept U (KHeap p m) (KHeap p m').
Proof.
  intros [L Hu [Hg Hgu] Hs Ha Hd] Hsub. cbn [firstfree kmem] in *.
  assert (W : writes (fun a => m !! a = None) m m').
  { split; [|intros a [v Hv]; exists v; by eapply lookup_weaken].
    intros a Hn. destruct (m !! a) as [v|] eqn:E; [by eapply lookup_weaken|done]. }
  rewrite Forall_forall in Hg, Hgu, Hu.
  assert (Mu : forall b, b ∈ U -> mapped m b.1 b.2) by (intros b Hb; by destruct (Hu b Hb) as (n & (_ & _ & ?) & _)).
  split; [split; cbn [firstfree kmem]; rewrite ?Forall_forall; try done|].
  - eapply lseg_writes; [exact W| |done]. intros b x Hb. apply mapped_known; [by eapply lseg_mapped|auto].
  - intros b Hb. eapply in_use_writes; [exact W| |auto]. intros x. apply mapped_known; auto.
  - intros b a Hb Hin. cbn [kmem]. destruct (Mu b Hb (a - b.1)) as [v Hv]; [unfold inside in Hin; lia|].
    replace (b.1 + (a - b.1)) with a in Hv by lia. rewrite Hv. by eapply lookup_weaken.
Qed.

(** What the allocator relies on when it asks for a page: one that lies apart
    from all its blocks, with the rest of the memory unchanged. *)
Definition page_given (getpage : Z -> cmd kheap Z) (st : kheap) (F U : list (Z * Z)) : Prop :=
  exists pg m', getpage PAGE_SIZE st = Ret pg (KHeap (firstfree st) m') /\ kmem st ⊆ m' /\
    good (pg, PAGE_SIZE) /\ (forall c, c ∈ F ++ U -> disj c (pg, PAGE_SIZE)) /\ mapped m' pg PAGE_SIZE /\
    exists n, word m' (pg + 8) n /\ (pg + PAGE_SIZE = n -> mapped m' n HEADER).

Lemma kept_trans U st1 st2 st3 : kept U st1 st2 -> kept U st2 st3 -> kept U st1 st3.
Proof. intros H1 H2 b a Hb Ha. rewrite (H2 b a Hb Ha). by apply (H1 b a). Qed.

Lemma getmem_ok getpage st F U : heap_ok st F U -> page_given getpage st F U ->
  exists pg st' F', _malloc_getmem getpage st = Ret pg st' /\ heap_ok st' F' U /\ kept U st st' /\
    (forall a, covered F' a <-> covered F a \/ inside (pg, PAGE_SIZE) a) /\ holds F' pg PAGE_SIZE.
Proof.
  destruct st as [p m]. intros Hok (pg & m' & Hget & Hsub & Gp & Hdis & Hm & n & Hn & Hst). cbn [firstfree kmem] in *.
  destruct (heap_ok_more p m m' F U Hok Hsub) as [Hok1 K1]. pose proof Gp as (P1 & P2 & P3). cbn [fst snd] in *.
  set (m1 := wr pg 0 m'). set (m2 := wr (pg + 4) PAGE_SIZE m1).
  assert (W : writes (inside (pg, PAGE_SIZE)) m' m2).
  { eapply writes_trans; (eapply writes_weaken; [|apply wr_writes]); unfold inside; simpl; lia. }
  destruct (heap_ok_frame p m' m2 F U _ Hok1 Gp Hdis W) as [Hok2 K2].
  assert (Hh : hdr m2 pg PAGE_SIZE n).
  { split_and!; [apply word_wr; lia| |by eapply mapped_writes].
    apply word_wr_ne; [lia|]. apply word_wr_ne; [lia|done]. }
  destruct (give_back p m2 F U pg PAGE_SIZE n Hok2 Gp Hdis Hh) as (st' & F' & Hrun & Hok' & K' & C' & Ho).
  { intros E. eapply mapped_writes; [exact W|auto]. }
  exists pg, st', F'. split_and!; [|done|exact (kept_trans _ _ _ _ K1 (kept_trans _ _ _ _ K2 K'))|exact C'|exact Ho].
  unfold _malloc_getmem. rewrite (bind_Ret _ _ _ _ _ Hget). unfold malloc_donatemem.
  destruct (Z.eqb_spec pg NULL) as [E|_]; [unfold NULL in E; lia|]. cbn [negb]. unfold set_flags, set_size.
  rewrite (bind_Ret _ _ _ tt st'); [done|].
  rewrite (bind_Ret _ _ _ _ _ (st32_wr p m' pg 0 ltac:(eapply mapped_sub; [exact Hm|lia..]))).
  rewrite (bind_Ret _ _ _ _ _ (st32_wr p m1 (pg + 4) _ ltac:(apply mapped_wr; eapply mapped_sub; [exact Hm|lia..]))).
  exact Hrun.
Qed.

Lemma pairs_remove (U1 : list (Z * Z)) b U2 : ForallOrdPairs disj (U1 ++ b :: U2) ->
  ForallOrdPairs disj (U1 ++ U2) /\ forall c, c ∈ U1 ++ U2 -> disj c b.
Proof.
  induction U1 as [|x U1 IH]; simpl; intros H; inversion H as [|? ? Hf Hp]; subst.
  - split; [done|]. intros c Hc. rewrite Forall_forall in Hf. destruct (Hf c Hc); unfold disj; auto.
  - destruct (IH Hp) as [H1 H2]. apply Forall_app in Hf as [Hf1 [Hx Hf2]%Forall_cons]. split.
    + constructor; [by apply Forall_app|done].
    + intros c [->|Hc]%elem_of_cons; [done|auto].
Qed.

(** A block in use, and the heap without it. *)
Lemma release_ok p m F U1 h s U2 :
  heap_ok (KHeap p m) F (U1 ++ (h, s) :: U2) ->
  exists n, heap_ok (KHeap p m) F (U1 ++ U2) /\ good (h, s) /\ (forall c, c ∈ F ++ U1 ++ U2 -> disj c (h, s)) /\
    hdr m h s n /\ (h + s = n -> mapped m n HEADER).
Proof.
  intros [L Hu [Hg Hgu] Hs Ha Hd]. cbn [firstfree kmem] in *.
  apply Forall_app in Hu as [Hu1 [(n & Hh & Hst) Hu2]%Forall_cons].
  apply Forall_app in Hgu as [G1 [Gh G2]%Forall_cons].
  destruct (pairs_remove U1 (h, s) U2 Hd) as [Hd' Hdis]. exists n. split_and!; [|done| |done..].
  - split; cbn [firstfree kmem]; [done|by apply Forall_app|split; [done|by apply Forall_app]|done| |done].
    intros b c Hb Hc. apply Ha; [done|set_solver].
  - intros c [Hc|Hc]%elem_of_app; [apply Ha; set_solver|auto].
Qed.

(** * The theorems *)

Definition has_fit (req : Z) (F : list (Z * Z)) : bool := existsb (fun b => fits req b.2) F.

Lemma first_fit req F : has_fit req F = true ->
  exists F1 h s F2, F = F1 ++ (h, s) :: F2 /\ Forall (fun b => fits req b.2 = false) F1 /\ fits req s = true.
Proof.
  induction F as [|[h s] F IH]; [done|]. unfold has_fit. cbn [existsb snd]. destruct (fits req s) eqn:E.
  - intros _. exists [], h, s, F. auto.
  - intros (F1 & h' & s' & F2 & -> & H1 & H2)%IH. exists ((h, s) :: F1), h', s', F2. split_and!; [done| |done].
    by constructor.
Qed.

Lemma no_fit req F : has_fit req F = false -> Forall (fun b => fits req b.2 = false) F.
Proof.
  induction F as [|[h s] F IH]; [constructor|]. unfold has_fit. cbn [existsb snd].
  intros [E H]%orb_false_iff. constructor; [done|]. by apply IH.
Qed.

(** A walk without a result leaves the heap as it is. *)
Lemma getfree_walk_none st F U req :
  heap_ok st F U -> 0 <= req -> req + HEADER < 4294967296 -> has_fit req F = false ->
  getfree_walk (walk_fuel st) req NULL (firstfree st) st = Ret NULL st.
Proof.
  destruct st as [p m]. intros [L _ [Hg _] Hs _ _] H0 Hr Hn. cbn [firstfree kmem] in *.
  pose proof (walk_fuel_ok p m p _ _ L Hg Hs) as Hfuel.
  replace (walk_fuel (KHeap p m)) with (length F + S (walk_fuel (KHeap p m) - length F - 1))%nat by lia.
  pose proof (walk_past (KHeap p m) [] F p NULL req (S (walk_fuel (KHeap p m) - length F - 1)) L Hg H0 Hr (no_fit _ _ Hn)) as H.
  unfold last_addr at 1 in H. simpl last in H. rewrite H. done.
Qed.

Lemma covered_take F1 h s F2 req a : 0 <= req -> fits req s = true ->
  covered (F1 ++ remainder req (h, s) ++ F2) a \/ inside (h, req) a <-> covered (F1 ++ (h, s) :: F2) a.
Proof.
  intros Hr Hf. rewrite covered_middle, !covered_app. unfold fits, remainder in *. cbn [fst snd] in *.
  destruct (Z.eqb_spec req s) as [->|]; cbn [orb] in Hf.
  - assert (covered [] a <-> False) by (unfold covered; set_solver). tauto.
  - apply Z.leb_le in Hf. rewrite covered_one. unfold inside, HEADER in *. simpl.
    assert (h + req <= a < h + req + (s - req) \/ h <= a < h + req <-> h <= a < h + s) by lia. tauto.
Qed.

(** One round, when a block fits. *)
Lemma getfree_fit getpage rounds st F U req :
  heap_ok st F U -> HEADER <= req -> req + HEADER < 4294967296 -> has_fit req F = true ->
  exists h st' F', _malloc_getfree getpage (S rounds) req st = Ret h st' /\ heap_ok st' F' ((h, req) :: U) /\
    kept U st st' /\ (forall a, covered F' a \/ inside (h, req) a <-> covered F a).
Proof.
  intros Hok Hr Hr2 (F1 & h & s & F2 & -> & Hn & Hf)%first_fit.
  destruct (getfree_walk_ok st F1 h s F2 U req Hok Hr Hr2 Hn Hf) as (st' & Hrun & Hok' & K).
  exists h, st', (F1 ++ remainder req (h, s) ++ F2). split_and!; [|done..|].
  - cbn [_malloc_getfree]. rewrite (bind_Ret _ _ _ _ _ Hrun).
    pose proof (ok_good _ _ _ Hok') as [_ [(Hh & _) _]%Forall_cons]. simpl in Hh.
    destruct (Z.eqb_spec h NULL) as [E|_]; [unfold NULL in E; lia|done].
  - intros a. apply covered_take; [unfold HEADER in *; lia|done].
Qed.

Lemma holds_fit F h s req : holds F h s -> req + HEADER <= s -> has_fit req F = true.
Proof.
  intros (c & Hc & H1 & H2) Hs. unfold has_fit. apply existsb_exists. exists c. split; [by apply list_elem_of_In|].
  unfold fits. apply orb_true_iff. right. apply Z.leb_le. lia.
Qed.

(** C2: [malloc] returns for every request that fits a free block, and for every
    request of at most 4072 bytes when the page allocator delivers a page: the
    block it returns lies apart from all blocks in use, whose contents it does not
    change, and the free list stays a sorted chain of the remaining free blocks;
    without a new page, those and the block are exactly the memory that was free. *)
Theorem malloc_correct getpage rounds st F U size :
  heap_ok st F U -> 0 <= size -> size + 2 * HEADER < 4294967296 ->
  (has_fit (size + HEADER) F = false -> size + 2 * HEADER <= PAGE_SIZE /\ page_given getpage st F U) ->
  exists h st' F',
    malloc getpage (S (S rounds)) size st = Ret (h + HEADER) st' /\
    heap_ok st' F' ((h, size + HEADER) :: U) /\ kept U st st' /\
    (forall a, covered F a -> covered F' a \/ inside (h, size + HEADER) a) /\
    (has_fit (size + HEADER) F = true -> forall a, covered F' a \/ inside (h, size + HEADER) a -> covered F a).
Proof.
  intros Hok H0 Hs Hpage. unfold malloc. rewrite (w32_small (size + HEADER)) by (unfold HEADER in *; lia).
  assert (Hret : forall h st' F', heap_ok st' F' ((h, size + HEADER) :: U) ->
    (mret (if h =? NULL then NULL else h + HEADER) : cmd kheap Z) st' = Ret (h + HEADER) st').
  { intros h st' F' Hok'. pose proof (ok_good _ _ _ Hok') as [_ [(Hh & _) _]%Forall_cons]. simpl in Hh.
    destruct (Z.eqb_spec h NULL) as [E|_]; [unfold NULL in E; lia|done]. }
  destruct (has_fit (size + HEADER) F) eqn:Ef.
  - destruct (getfree_fit getpage (S rounds) st F U (size + HEADER)) as (h & st' & F' & Hrun & Hok' & K & C);
      [done|unfold HEADER in *; lia..|done|].
    exists h, st', F'. rewrite (bind_Ret _ _ _ _ _ Hrun). split_and!; [by eapply Hret|done|done| |]; intros; by apply C.
  - destruct (Hpage eq_refl) as [Hle Hpg].
    destruct (getmem_ok getpage st F U Hok Hpg) as (pg & st1 & F1 & Hget & Hok1 & K1 & C1 & Ho).
    destruct (getfree_fit getpage rounds st1 F1 U (size + HEADER)) as (h & st' & F' & Hrun & Hok' & K & C);
      [done|unfold HEADER in *; lia..|eapply holds_fit; [exact Ho|unfold HEADER in *; lia]|].
    exists h, st', F'. rewrite (bind_Ret _ _ _ h st').
    + split_and!; [by eapply Hret|done|by eapply kept_trans| |done].
      intros a Ha. apply C, C1. by left.
    + cbn [_malloc_getfree].
      rewrite (bind_Ret _ _ _ _ _ (getfree_walk_none st F U (size + HEADER) Hok ltac:(unfold HEADER; lia) ltac:(unfold HEADER in *; lia) Ef)).
      cbn [negb]. change (NULL =? NULL) with true. cbn [negb]. by rewrite (bind_Ret _ _ _ _ _ Hget).
Qed.

(** A page allocator with one page of zeros. *)
Definition zero_page (size : Z) : cmd kheap Z := fun st =>
  Ret 8192 (KHeap (firstfree st) (put 8192 (replicate (Z.to_nat size) 0) (kmem st))).

Lemma heap_ok_init : heap_ok (malloc_init ∅) [] [].
Proof. split; [done|constructor|split; constructor|constructor|set_solver|constructor]. Qed.

Lemma zeros_at i : 0 <= i < 4096 -> put 8192 (replicate (Z.to_nat 4096) 0) ∅ !! (8192 + i) = Some 0.
Proof.
  intros Hi. pose proof (put_block 8192 (replicate (Z.to_nat 4096) 0) ∅ (Z.to_nat i) 0) as H.
  rewrite Z2Nat.id in H by lia. apply H, lookup_replicate. split; [done|lia].
Qed.

Lemma page_given_init : page_given zero_page (malloc_init ∅) [] [].
Proof.
  exists 8192, (put 8192 (replicate (Z.to_nat 4096) 0) ∅). split; [done|]. split; [apply map_empty_subseteq|].
  split; [split_and!; unfold HEADER; simpl; lia|]. split; [set_solver|]. split.
  - intros i Hi. rewrite zeros_at by done. by eexists.
  - exists 0. split; [split; [|lia]|lia]. intros i b Hi. assert (Hb : b = 0 /\ (i < 4)%nat).
    { split; [|by apply lookup_lt_Some in Hi]. destruct i as [|[|[|[|i]]]]; by inversion Hi. }
    destruct Hb as [-> Hb]. replace (8192 + 8 + Z.of_nat i) with (8192 + (8 + Z.of_nat i)) by lia.
    apply zeros_at. lia.
Qed.

Lemma malloc_correct_witness :
  exists h st' F', malloc zero_page 2 100 (malloc_init ∅) = Ret (h + 12) st' /\ heap_ok st' F' [(h, 112)].
Proof.
  destruct (malloc_correct zero_page 0 (malloc_init ∅) [] [] 100) as (h & st' & F' & H1 & H2 & _).
  - exact heap_ok_init.
  - lia.
  - unfold HEADER. lia.
  - intros _. split; [unfold HEADER; lia|exact page_given_init].
  - exists h, st', F'. exact (conj H1 H2).
Defined.

(** C18: [free] of any block in use takes it out of use and adds exactly its bytes
    to the free memory, joining neighbours; the chain stays sorted and the other
    blocks in use keep their contents. *)
Theorem free_correct st F U1 h s U2 :
  heap_ok st F (U1 ++ (h, s) :: U2) ->
  exists st' F', free (h + HEADER) st = Ret tt st' /\ heap_ok st' F' (U1 ++ U2) /\ kept (U1 ++ U2) st st' /\
    (forall a, covered F' a <-> covered F a \/ inside (h, s) a) /\ holds F' h s.
Proof.
  destruct st as [p m]. intros Hok.
  destruct (release_ok p m F U1 h s U2 Hok) as (n & Hok0 & Gh & Hdis & Hh & Hst).
  pose proof Gh as (G1 & G2 & G3). cbn [fst snd] in *. unfold HEADER in *.
  set (m1 := wr h 0 m).
  assert (W : writes (inside (h, s)) m m1).
  { eapply writes_weaken; [|apply wr_writes]. unfold inside. simpl. lia. }
  destruct (heap_ok_frame p m m1 F _ _ Hok0 Gh Hdis W) as [Hok1 K1].
  destruct (give_back p m1 F (U1 ++ U2) h s n Hok1 Gh Hdis (hdr_set_flags m h s n 0 Hh)) as (st' & F' & Hrun & Hok' & K & C & Ho).
  { intros E. eapply mapped_writes; [exact W|auto]. }
  exists st', F'. split_and!; [|done|by eapply kept_trans|done..].
  unfold free. replace (h + 12 - HEADER) with h by (unfold HEADER; lia). unfold set_flags.
  rewrite (bind_Ret _ _ _ _ _ (st32_wr p m h 0 ltac:(eapply mapped_sub; [apply Hh|lia..]))). exact Hrun.
Qed.

(** A heap with a block of 20 bytes in use and nothing free. *)
Definition one_used : kheap := KHeap NULL (put 100 (enc32 1 ++ enc32 20 ++ enc32 0 ++ [7; 7; 7; 7; 7; 7; 7; 7]) ∅).

Lemma one_used_ok : heap_ok one_used [] [(100, 20)].
Proof.
  pose proof (put_block 100 (enc32 1 ++ enc32 20 ++ enc32 0 ++ [7; 7; 7; 7; 7; 7; 7; 7]) ∅) as H.
  change (block (kmem one_used) 100 (enc32 1 ++ enc32 20 ++ enc32 0 ++ [7; 7; 7; 7; 7; 7; 7; 7])) in H.
  split; [done| |split; repeat constructor; simpl; unfold HEADER; lia|constructor|set_solver|repeat constructor].
  constructor; [|constructor]. exists 0. cbn [fst snd]. split; [|lia]. split_and!.
  - apply block_app in H as [_ [H _]%block_app]. split; [exact H|lia].
  - apply block_app in H as [_ [_ [H _]%block_app]%block_app]. split; [exact H|lia].
  - intros i Hi. destruct (lookup_lt_is_Some_2 (enc32 1 ++ enc32 20 ++ enc32 0 ++ [7; 7; 7; 7; 7; 7; 7; 7]) (Z.to_nat i)) as [v Hv].
    + simpl. lia.
    + exists v. pose proof (H _ _ Hv) as Hv'. by rewrite Z2Nat.id in Hv' by lia.
Qed.

Lemma free_correct_witness :
  exists st' F', free 112 one_used = Ret tt st' /\ heap_ok st' F' [] /\ holds F' 100 20.
Proof.
  destruct (free_correct one_used [] [] 100 20 [] one_used_ok) as (st' & F' & H1 & H2 & _ & _ & H3).
  exists st', F'. exact (conj H1 (conj H2 H3)).
Defined.

(** [realloc] to fewer bytes cuts the block at [header+size]: of 50 bytes the
    last twelve belong to a free block then. *)
Example realloc_shrinks_short :
  match malloc zero_page 2 100 (malloc_init ∅) with
  | Ret p st => match realloc zero_page 2 p 50 st with
                | Ret q st' => (p, q, firstfree st')
                | Stop _ _ => (0, 0, 0)
                end
  | Stop _ _ => (0, 0, 0)
  end = (8204, 8204, 8242).
Proof. vm_compute. reflexivity. Qed.

(** When nothing fits and the page allocator fails, [malloc] does not return
    NULL: it asks again for ever. *)
Lemma malloc_without_pages rounds st F U size :
  heap_ok st F U -> 0 <= size -> size + 2 * HEADER < 4294967296 -> has_fit (size + HEADER) F = false ->
  malloc (fun _ => mret NULL) rounds size st = Stop Hang st.
Proof.
  intros Hok H0 Hs Hn. unfold malloc. rewrite w32_small by (unfold HEADER in *; lia).
  unfold mbind at 1, cmd_bind at 1. replace (_malloc_getfree _ rounds _ st) with (Stop (A:=Z) Hang st); [done|].
  symmetry. induction rounds as [|rounds IH]; [done|]. cbn [_malloc_getfree].
  rewrite (bind_Ret _ _ _ _ _ (getfree_walk_none st F U (size + HEADER) Hok ltac:(unfold HEADER; lia) ltac:(unfold HEADER in *; lia) Hn)).
  change (negb (NULL =? NULL)) with false. cbv beta iota. by rewrite (bind_Ret _ _ _ NULL st).
Qed.

(** The promise of class [Malloc] in LList.v, on which the kernel components
    rely: the address is not NULL and not that of another block in use. *)
Lemma malloc_promise st F h s U : heap_ok st F ((h, s) :: U) ->
  h + HEADER <> NULL /\ h + HEADER ∉ (fun b => b.1 + HEADER) <$> U.
Proof.
  intros Hok. destruct st as [p m].
  destruct (release_ok p m F [] h s U Hok) as (_ & _ & (G1 & G2 & _) & Hdis & _). cbn [fst snd] in *.
  pose proof (ok_good _ _ _ Hok) as [_ [_ Hg]%Forall_cons]. rewrite Forall_forall in Hg.
  unfold NULL, HEADER in *. split; [lia|]. rewrite list_elem_of_fmap. intros (b & E & Hb).
  destruct (Hg b Hb) as (_ & ? & _). destruct (Hdis b ltac:(set_solver)); unfold before, HEADER in *; simpl in *; lia.
Qed.
