(* ===== verification/Path.v ===== *)
(** * Paths (apps/lib/libmeinos/path.c, apps/include/path.h)

    A path is a string cut into its parts.  The parts point into one copy of
    the string, each ended by the NUL that replaced a slash, so they are
    separate strings and the model keeps them as a list; [num_parts] is its
    length.  Clearing a part ([memset] over its length, or a NUL in front)
    makes it the empty string. *)

From S2P Require Import Prelude.

Abbreviation str := (list Z).

Definition SLASH : Z := 47.
Definition DOT : str := [46].
Definition DOTDOT : str := [46; 46].

Record path_t := Path { root : bool; parts : list str }.

(** [path_parse]: the number of parts, then one part per round. *)
Definition count_slashes (s : str) : nat := length (filter (fun c => c = SLASH) s).

Fixpoint next_part (s : str) : str * str :=
  match s with
  | [] => ([], [])
  | c :: s => if c =? SLASH then ([], s) else let '(a, b) := next_part s in (c :: a, b)
  end.

Fixpoint cut_parts (n : nat) (s : str) : list str :=
  match n with
  | O => []
  | S n => let '(a, b) := next_part s in a :: cut_parts n b
  end.

Definition path_parse (path : option str) : option path_t :=
  s ← path;
  Some (Path (match s with c :: _ => c =? SLASH | [] => false end) (cut_parts (1 + count_slashes s) s)).

Definition is_empty (p : str) : bool := match p with [] => true | _ => false end.

(** [for (j=i-1;j>=0;j--)]: the last part in front that is not empty. *)
Fixpoint clear_previous (j : nat) (ps : list str) : list str :=
  match j with
  | O => ps
  | S j => if is_empty (ps !!! j) then clear_previous j ps else <[j := []]> ps
  end.

Fixpoint reject_loop (n i : nat) (ps : list str) : list str :=
  match n with
  | O => ps
  | S n =>
      let p := ps !!! i in
      let ps' :=
        if bool_decide (p = DOT) then <[i := []]> ps
        else if bool_decide (p = DOTDOT) then clear_previous i (<[i := []]> ps)
        else ps in
      reject_loop n (i + 1) ps'
  end.

Definition path_reject_dots (path : path_t) : path_t :=
  Path (root path) (reject_loop (length (parts path)) 0 (parts path)).

(** The parts with a slash in front of those that are not empty. *)
Fixpoint output_loop (ps : list str) : str :=
  match ps with
  | [] => []
  | p :: rest =>
      p ++ (match rest with q :: _ => if is_empty q then [] else [SLASH] | [] => [] end) ++ output_loop rest
  end.

Definition real_parts (ps : list str) : nat := length (filter (fun p => is_empty p = false) ps).

Definition path_output (path : path_t) : str :=
  if (0 <? real_parts (parts path))%nat then
    (if root path && negb (is_empty (parts path !!! 0%nat)) then [SLASH] else []) ++ output_loop (parts path)
  else [SLASH].

(** The size of the buffer [path_output] allocates. *)
Definition output_size (path : path_t) : nat :=
  if (0 <? real_parts (parts path))%nat
  then foldr (fun p r => length p + r)%nat (length (parts path) + 1 + (if root path then 1 else 0))%nat (parts path)
  else 2.

(** Fuel: one round per part of either path. *)
Fixpoint compare_loop (fuel : nat) (ps qs : list str) (i : nat) : nat :=
  match fuel with
  | O => i
  | S fuel =>
      match ps, qs with
      | p :: ps', q :: qs' =>
          if is_empty p then compare_loop fuel ps' qs i
          else if is_empty q then compare_loop fuel ps qs' i
          else if bool_decide (p = q) then compare_loop fuel ps' qs' (i + 1) else i
      | _, _ => i
      end
  end.

Definition path_compare (path1 path2 : path_t) : nat :=
  if negb (eqb (root path1) (root path2)) then 0
  else compare_loop (length (parts path1) + length (parts path2)) (parts path1) (parts path2) 0.

Definition path_cat (path1 path2 : path_t) : path_t := Path (root path1) (parts path1 ++ parts path2).

Definition path_parent (path : path_t) : path_t :=
  if (0 <? length (parts path))%nat
  then Path (root path) (<[(length (parts path) - 1)%nat := []]> (parts path)) else path.

(** * Specification *)

(** The parts with a slash between any two. *)
Fixpoint join (ps : list str) : str :=
  match ps with
  | [] => []
  | [p] => p
  | p :: ps => p ++ SLASH :: join ps
  end.

(** The directories a path names one after the other: empty parts and single
    dots are no step, two dots go back. *)
Definition step (st : list str) (p : str) : list str :=
  if is_empty p || bool_decide (p = DOT) then st
  else if bool_decide (p = DOTDOT) then take (length st - 1) st
  else st ++ [p].

Definition resolve (ps : list str) : list str := foldl step [] ps.

Definition steps (ps : list str) : list str := filter (fun p => is_empty p = false) ps.

Fixpoint common (ps qs : list str) : nat :=
  match ps, qs with
  | p :: ps, q :: qs => if bool_decide (p = q) then S (common ps qs) else 0
  | _, _ => 0
  end.

(** ** Cutting and joining *)

Lemma next_part_app p s : SLASH ∉ p -> next_part (p ++ SLASH :: s) = (p, s).
Proof.
  induction p as [|c p IH]; intros Hn; simpl; [done|].
  destruct (Z.eqb_spec c SLASH) as [->|_]; [set_solver|]. rewrite IH by set_solver. done.
Qed.

Lemma next_part_end p : SLASH ∉ p -> next_part p = (p, []).
Proof.
  induction p as [|c p IH]; intros Hn; simpl; [done|].
  destruct (Z.eqb_spec c SLASH) as [->|_]; [set_solver|]. rewrite IH by set_solver. done.
Qed.

Lemma count_join p ps : Forall (fun p => SLASH ∉ p) (p :: ps) -> count_slashes (join (p :: ps)) = length ps.
Proof.
  assert (Hno : forall p, SLASH ∉ p -> count_slashes p = 0%nat).
  { intros q Hq. unfold count_slashes. induction q as [|c q IH]; [done|]. rewrite filter_cons_False by set_solver.
    apply IH. set_solver. }
  revert p. induction ps as [|q ps IH]; intros p [Hp Hf]%Forall_cons; [by apply Hno|].
  change (join (p :: q :: ps)) with (p ++ SLASH :: join (q :: ps)). unfold count_slashes.
  rewrite filter_app, length_app, filter_cons_True by done. cbn [length].
  specialize (Hno p Hp). unfold count_slashes in Hno. rewrite Hno.
  specialize (IH q Hf). unfold count_slashes in IH. rewrite IH. lia.
Qed.

Lemma cut_join ps : forall p, Forall (fun p => SLASH ∉ p) (p :: ps) ->
  cut_parts (1 + length ps) (join (p :: ps)) = p :: ps.
Proof.
  induction ps as [|q ps IH]; intros p [Hp Hf]%Forall_cons.
  - cbn. by rewrite next_part_end.
  - change (join (p :: q :: ps)) with (p ++ SLASH :: join (q :: ps)).
    change (1 + length (q :: ps))%nat with (S (1 + length ps)). cbn [cut_parts].
    rewrite next_part_app by done. f_equal. by apply IH.
Qed.

Lemma cut_slash_free n : forall s, Forall (fun p => SLASH ∉ p) (cut_parts n s).
Proof.
  induction n as [|n IH]; intros s; [constructor|]. cbn [cut_parts].
  assert (H : forall s, SLASH ∉ (next_part s).1).
  { induction s0 as [|c s0 IHs]; simpl; [set_solver|]. destruct (Z.eqb_spec c SLASH); [set_solver|].
    destruct (next_part s0). set_solver. }
  specialize (H s). destruct (next_part s) as [a b]. by constructor.
Qed.

Lemma join_cut s : forall n, n = (1 + count_slashes s)%nat -> join (cut_parts n s) = s.
Proof.
  induction s as [|c s IH]; intros n ->; [done|].
  unfold count_slashes. destruct (decide (c = SLASH)) as [->|Hc].
  - rewrite filter_cons_True by done. cbn [length cut_parts next_part Nat.add].
    rewrite Z.eqb_refl. specialize (IH _ eq_refl). unfold count_slashes in IH. cbn [Nat.add] in IH.
    cbn [cut_parts] in IH |- *. destruct (next_part s). simpl. by f_equal.
  - rewrite filter_cons_False by done. specialize (IH _ eq_refl). unfold count_slashes in IH.
    cbn [Nat.add cut_parts next_part] in *. destruct (Z.eqb_spec c SLASH); [done|].
    destruct (next_part s) as [a b]. destruct (cut_parts _ b); simpl in *; by f_equal.
Qed.

(** ** Output *)

Lemma output_join ps : forall p, Forall (fun q => is_empty q = false) ps -> output_loop (p :: ps) = join (p :: ps).
Proof.
  induction ps as [|q ps IH]; intros p Hf; [simpl; by rewrite app_nil_r|].
  apply Forall_cons in Hf as [Hq Hf]. cbn [output_loop] in *. rewrite Hq.
  change (join (p :: q :: ps)) with (p ++ SLASH :: join (q :: ps)). rewrite <- (IH q Hf). done.
Qed.

Lemma output_length ps : (length (output_loop ps) <= foldr (fun p r => length p + r) (length ps) ps)%nat.
Proof.
  assert (Hadd : forall ps k l, (k <= l -> foldr (fun (p : str) r => length p + r) k ps <= foldr (fun (p : str) r => length p + r) l ps)%nat).
  { clear. induction ps as [|p ps IH]; intros k l H; simpl; [done|]. specialize (IH k l H). lia. }
  assert (Hs : forall ps k, foldr (fun (p : str) r => length p + r)%nat (S k) ps = S (foldr (fun (p : str) r => length p + r)%nat k ps)).
  { clear. induction ps as [|p ps IH]; intros k; simpl; [done|]. rewrite IH. lia. }
  induction ps as [|p ps IH]; [done|]. cbn [output_loop foldr length]. rewrite Hs, !length_app.
  destruct ps as [|q ps]; simpl; [lia|]. destruct (is_empty q); simpl in *; lia.
Qed.

(** ** Dots *)

Lemma steps_app ps qs : steps (ps ++ qs) = steps ps ++ steps qs.
Proof. apply filter_app. Qed.

Lemma is_empty_nil p : is_empty p = true <-> p = [].
Proof. destruct p; simpl; naive_solver. Qed.

Lemma drop_eq {A} (l k : list A) j : drop j l = drop j k -> l !! j = k !! j /\ drop (S j) l = drop (S j) k.
Proof.
  intros H. split.
  - assert (E : l !! (j + 0)%nat = k !! (j + 0)%nat) by (rewrite <- !lookup_drop; by rewrite H).
    by rewrite Nat.add_0_r in E.
  - replace (S j) with (j + 1)%nat by lia. rewrite <- !drop_drop. by rewrite H.
Qed.

(** [clear_previous] removes the last step of the parts in front of [j]. *)
Lemma clear_previous_ok j : forall ps, (j <= length ps)%nat ->
  length (clear_previous j ps) = length ps /\ drop j (clear_previous j ps) = drop j ps /\
  steps (take j (clear_previous j ps)) = take (length (steps (take j ps)) - 1) (steps (take j ps)).
Proof.
  induction j as [|j IH]; intros ps Hj; [done|]. cbn [clear_previous].
  destruct (lookup_lt_is_Some_2 ps j ltac:(lia)) as [p Hp]. rewrite (list_lookup_total_correct _ _ _ Hp).
  destruct (is_empty p) eqn:E.
  - apply is_empty_nil in E as ->. destruct (IH ps ltac:(lia)) as (H1 & H2 & H3). split; [done|].
    destruct (drop_eq _ _ _ H2) as [Hj' Hd]. rewrite Hp in Hj'. split; [done|].
    rewrite (take_S_r _ _ _ Hp), (take_S_r _ _ _ Hj'), !steps_app, H3. change (steps [[]]) with ([] : list str).
    by rewrite !app_nil_r.
  - rewrite length_insert. split; [done|]. split; [rewrite drop_insert_lt by lia; done|].
    assert (Hi : <[j := []]> ps !! j = Some []) by (apply list_lookup_insert_eq; lia).
    rewrite (take_S_r _ _ _ Hi), take_insert_ge, (take_S_r _ _ _ Hp), !steps_app by lia.
    change (steps [[]]) with ([] : list str). rewrite app_nil_r.
    assert (steps [p] = [p]) as -> by (unfold steps; by rewrite filter_cons_True).
    rewrite length_app. cbn [length]. replace (length (steps (take j ps)) + 1 - 1)%nat with (length (steps (take j ps))) by lia.
    by rewrite take_app_length.
Qed.

Lemma foldl_snoc {A B} (f : A -> B -> A) a l x : foldl f a (l ++ [x]) = f (foldl f a l) x.
Proof. by rewrite foldl_app. Qed.

(** One round keeps the parts behind and makes the next step in front. *)
Lemma reject_round i ps p : ps !! i = Some p ->
  let ps' := if bool_decide (p = DOT) then <[i := []]> ps
             else if bool_decide (p = DOTDOT) then clear_previous i (<[i := []]> ps) else ps in
  length ps' = length ps /\ drop (S i) ps' = drop (S i) ps /\
  steps (take (S i) ps') = step (steps (take i ps)) p.
Proof.
  intros Hp ps'. pose proof (lookup_lt_Some _ _ _ Hp) as Hlt. unfold ps', step. clear ps'.
  assert (Hi : <[i := []]> ps !! i = Some []) by (by apply list_lookup_insert_eq).
  assert (Hti : steps (take (S i) (<[i := []]> ps)) = steps (take i ps)).
  { rewrite (take_S_r _ _ _ Hi), take_insert_ge, steps_app by lia. change (steps [[]]) with ([] : list str). apply app_nil_r. }
  destruct (bool_decide (p = DOT)) eqn:Ed.
  { rewrite orb_true_r, length_insert, drop_insert_lt by lia. auto. }
  rewrite orb_false_r. destruct (bool_decide (p = DOTDOT)) eqn:Edd.
  - apply bool_decide_eq_true in Edd as ->. cbn [is_empty DOTDOT].
    destruct (clear_previous_ok i (<[i := []]> ps)) as (H1 & H2 & H3); [rewrite length_insert; lia|].
    rewrite length_insert in H1. split; [done|].
    destruct (drop_eq _ _ _ H2) as [Hc Hd]. rewrite Hi in Hc. split.
    + rewrite Hd. by rewrite drop_insert_lt by lia.
    + rewrite (take_S_r _ _ _ Hc), steps_app, H3, take_insert_ge by lia. change (steps [[]]) with ([] : list str).
      apply app_nil_r.
  - split; [done|]. split; [done|]. rewrite (take_S_r _ _ _ Hp), steps_app.
    destruct (is_empty p) eqn:E.
    + apply is_empty_nil in E as ->. apply app_nil_r.
    + unfold steps at 2. by rewrite filter_cons_True.
Qed.

Lemma reject_loop_ok n : forall i ps, (i + n = length ps)%nat ->
  length (reject_loop n i ps) = length ps /\
  steps (reject_loop n i ps) = foldl step (steps (take i ps)) (drop i ps).
Proof.
  induction n as [|n IH]; intros i ps Hn; cbn [reject_loop].
  { rewrite take_ge, drop_ge by lia. done. }
  destruct (lookup_lt_is_Some_2 ps i ltac:(lia)) as [p Hp]. rewrite (list_lookup_total_correct _ _ _ Hp).
  destruct (reject_round i ps p Hp) as (H1 & H2 & H3).
  set (ps' := if bool_decide (p = DOT) then _ else _) in *.
  destruct (IH (i + 1)%nat ps' ltac:(lia)) as [H4 H5]. split; [lia|].
  rewrite H5, (drop_S _ _ _ Hp). cbn [foldl]. replace (i + 1)%nat with (S i) by lia. by rewrite H2, H3.
Qed.

(** ** Comparison *)

Lemma compare_loop_ok fuel : forall ps qs i, (length ps + length qs <= fuel)%nat ->
  compare_loop fuel ps qs i = (i + common (steps ps) (steps qs))%nat.
Proof.
  induction fuel as [|fuel IH]; intros ps qs i Hf.
  { destruct ps; simpl in *; [lia|lia]. }
  cbn [compare_loop]. destruct ps as [|p ps]; [simpl; lia|].
  destruct qs as [|q qs]; [destruct (steps (p :: ps)); simpl; lia|]. simpl in Hf.
  destruct (is_empty p) eqn:Ep.
  { rewrite IH by (simpl; lia). do 2 f_equal. unfold steps at 2. rewrite filter_cons_False; [done|by rewrite Ep]. }
  destruct (is_empty q) eqn:Eq.
  { rewrite IH by (simpl; lia). do 2 f_equal. unfold steps at 2. rewrite filter_cons_False; [done|by rewrite Eq]. }
  unfold steps. rewrite !filter_cons_True by done. cbn [common].
  destruct (bool_decide (p = q)); [|lia]. rewrite IH by lia. unfold steps. lia.
Qed.

(** * The theorems *)

(** parsing and printing are inverse: any list of parts without slashes is
    what its joined form is cut into, any string is the join of its parts, and a
    path without empty parts (but the one in front of a leading slash) is printed
    as it was read; the allocated buffer is always long enough. *)
Theorem path_roundtrip :
  (forall p ps, Forall (fun p => SLASH ∉ p) (p :: ps) ->
     parts <$> path_parse (Some (join (p :: ps))) = Some (p :: ps)) /\
  (forall s path, path_parse (Some s) = Some path ->
     join (parts path) = s /\
     (forall p ps, parts path = p :: ps -> Forall (fun q => is_empty q = false) ps ->
        (is_empty p = false /\ root path = false) \/ (p = [] /\ ps <> []) ->
        path_output path = s)) /\
  (forall path, (length (path_output path) + 1 <= output_size path)%nat).
Proof.
  split_and!.
  - intros p ps Hf. cbn [path_parse mbind option_bind fmap option_fmap option_map parts]. f_equal.
    rewrite count_join by done. by apply cut_join.
  - intros s path Hpath.
    assert (Hj : join (parts path) = s) by (injection Hpath as <-; exact (join_cut s _ eq_refl)). split; [done|].
    intros p ps E Hne Hp. rewrite E in Hj. transitivity (join (p :: ps)); [|exact Hj].
    unfold path_output. rewrite E.
    assert (Hreal : (0 < real_parts (p :: ps))%nat).
    { unfold real_parts. destruct Hp as [[Hp _]|[-> Hps]]; [rewrite filter_cons_True by done; simpl; lia|].
      destruct ps as [|q ps]; [done|]. apply Forall_cons in Hne as [Hq _].
      rewrite filter_cons_False, filter_cons_True by done. simpl. lia. }
    rewrite (proj2 (Nat.ltb_lt _ _) Hreal). rewrite output_join by done.
    destruct Hp as [[_ Hr]|[-> _]]; [by rewrite Hr|]. by rewrite andb_false_r.
  - intros path. unfold path_output, output_size. destruct (0 <? real_parts (parts path))%nat; [|simpl; lia].
    rewrite length_app. pose proof (output_length (parts path)) as Hl.
    assert (Hs : forall (ps : list str) (k l : nat), foldr (fun p r => length p + r)%nat (k + l)%nat ps = (foldr (fun p r => length p + r) k ps + l)%nat).
    { clear. induction ps as [|p ps IH]; intros k l; simpl; [done|]. rewrite IH. lia. }
    rewrite <- (Nat.add_assoc (length (parts path))), Hs.
    destruct (root path); cbn [andb]; [destruct (is_empty _)|]; cbn [negb length]; lia.
Qed.

Lemma path_roundtrip_witness :
  exists path, path_parse (Some [47; 97; 47; 98]) = Some path /\ path_output path = [47; 97; 47; 98].
Proof.
  exists (Path true [[]; [97]; [98]]). split; [reflexivity|].
  apply (proj2 (proj1 (proj2 path_roundtrip) [47; 97; 47; 98] (Path true [[]; [97]; [98]]) eq_refl) [] [[97]; [98]] eq_refl).
  - repeat constructor.
  - right. split; [reflexivity|discriminate].
Defined.

(** [path_reject_dots] leaves exactly the steps of the path: dots are
    dropped and two dots take back the last step that is left, at the root
    nothing; the number of parts stays. *)
Theorem path_reject_dots_correct path :
  steps (parts (path_reject_dots path)) = resolve (parts path) /\
  length (parts (path_reject_dots path)) = length (parts path) /\
  root (path_reject_dots path) = root path.
Proof.
  destruct (reject_loop_ok (length (parts path)) 0 (parts path) eq_refl) as [H1 H2].
  cbn [path_reject_dots parts root]. split_and!; [|done..]. rewrite H2. by rewrite drop_0.
Qed.

(** [path_compare] counts the leading steps two paths have in common. *)
Theorem path_compare_correct path1 path2 :
  path_compare path1 path2 =
    if eqb (root path1) (root path2) then common (steps (parts path1)) (steps (parts path2)) else 0%nat.
Proof. unfold path_compare. destruct (eqb _ _); [|done]. simpl. by rewrite compare_loop_ok. Qed.

(** The printed form of an absolute path with the given steps. *)
Definition absolute (ss : list str) : str := match ss with [] => [SLASH] | _ => SLASH :: join ss end.

Lemma real_parts_steps ps : real_parts ps = length (steps ps).
Proof. done. Qed.

Lemma steps_cons p ps : steps (p :: ps) = (if is_empty p then [] else [p]) ++ steps ps.
Proof. by destruct p. Qed.

Lemma steps_all ps : Forall (fun p => is_empty p = false) ps -> steps ps = ps.
Proof. induction 1 as [|p ps Hp _ IH]; [done|]. by rewrite steps_cons, Hp, IH. Qed.

Lemma output_loop_join rest : forall p, output_loop (p :: rest) = join (p :: steps rest).
Proof.
  induction rest as [|q rest IH]; intros p; [simpl; by rewrite app_nil_r|].
  change (output_loop (p :: q :: rest)) with (p ++ (if is_empty q then [] else [SLASH]) ++ output_loop (q :: rest)).
  rewrite IH. destruct q as [|c q]; simpl is_empty; cbv iota.
  - rewrite (steps_cons []). cbn [is_empty app]. destruct (steps rest); simpl; by rewrite ?app_nil_r.
  - rewrite (steps_cons (c :: q)). done.
Qed.

(** What is printed for an absolute path depends on its steps only. *)
Lemma path_output_root path : root path = true -> path_output path = absolute (steps (parts path)).
Proof.
  intros Hr. unfold path_output. rewrite real_parts_steps, Hr. destruct (parts path) as [|p ps]; [done|].
  rewrite output_loop_join, steps_cons. destruct p as [|c p]; simpl lookup_total; simpl is_empty; cbv iota; cbn [negb andb app].
  - destruct (steps ps); done.
  - done.
Qed.

(** Reading what was printed gives the steps back. *)
Lemma parse_absolute ss : Forall (fun p => SLASH ∉ p) ss -> Forall (fun p => is_empty p = false) ss ->
  exists path, path_parse (Some (absolute ss)) = Some path /\ root path = true /\ steps (parts path) = ss.
Proof.
  intros Hs Hn. destruct ss as [|s ss]; [by eexists|]. eexists. split; [reflexivity|]. split; [done|].
  change (absolute (s :: ss)) with (join ([] :: s :: ss)). cbn [parts].
  rewrite count_join by (constructor; [apply not_elem_of_nil|done]).
  rewrite cut_join by (constructor; [apply not_elem_of_nil|done]).
  rewrite steps_cons. cbn [is_empty app]. by apply steps_all.
Qed.

(** A relative path that starts with a dot is printed as an absolute one. *)
Example relative_becomes_absolute :
  (fun p => path_output (path_reject_dots p)) <$> path_parse (Some [46; 47; 97]) = Some [47; 97].
Proof. reflexivity. Qed.
