(* ===== verification/RingBuf.v ===== *)
(** * Ring buffers (apps/lib/libmeinos/ringbuf.c, apps/include/ringbuf.h) *)

From S2P Require Import Prelude Machine CString.

Record ringbuf_t := RingBuf { buf : Z; size : Z; rpos : Z; wpos : Z }.

(** [buffer] is the address [malloc] returned. *)
Definition ringbuf_create (buffer size : Z) : ringbuf_t := RingBuf buffer size 0 0.

Definition ringbuf_read (rb : ringbuf_t) (dest n : Z) : cmd bytes (Z * ringbuf_t) :=
  let size_free := if rpos rb <=? wpos rb then wpos rb - rpos rb else w32 (wpos rb + size rb - rpos rb) in
  let n := if size_free <? n then size_free else n in
  if n =? 0 then mret (0, rb) else
  (if w32 (rpos rb + n) <? size rb then memcpy dest (buf rb + rpos rb) n;; mret tt
   else
     let part1 := w32 (size rb - rpos rb) in
     let part2 := w32 (n - part1) in
     memcpy dest (buf rb + rpos rb) part1;;
     memcpy (dest + part1) (buf rb) part2;; mret tt);;
  mret (n, RingBuf (buf rb) (size rb) (w32 (rpos rb + n) mod size rb) (wpos rb)).

(** The free size and the test for the wrap-around use [rpos] where the other
    branch uses [wpos]. *)
Definition ringbuf_write (rb : ringbuf_t) (src n : Z) : cmd bytes (Z * ringbuf_t) :=
  let size_free := if wpos rb <? rpos rb then rpos rb - wpos rb else w32 (rpos rb + size rb - rpos rb) in
  let n := if size_free <? n then size_free else n in
  if n =? 0 then mret (0, rb) else
  (if w32 (rpos rb + n) <? size rb then memcpy (buf rb + wpos rb) src n;; mret tt
   else
     let part1 := w32 (size rb - wpos rb) in
     let part2 := w32 (n - part1) in
     memcpy (buf rb + wpos rb) src part1;;
     memcpy (buf rb) (src + part1) part2;; mret tt);;
  mret (n, RingBuf (buf rb) (size rb) (rpos rb) (w32 (wpos rb + n) mod size rb)).

(** * Properties *)

(** The contents of the buffer from position [r] on, wrapped around. *)
Definition wrapped (m : bytes) (b sz r : Z) (ds : list Z) : Prop :=
  forall i d, ds !! i = Some d -> m !! (b + (r + Z.of_nat i) mod sz) = Some d.

Definition apart (a n b k : Z) : Prop := a + n <= b \/ b + k <= a.

(** Both copies of a wrapped transfer, as one. *)
Lemma wrap_index r i sz : 0 <= r < sz -> 0 <= i < sz ->
  (r + i) mod sz = if decide (r + i < sz) then r + i else r + i - sz.
Proof.
  intros Hr Hi. case_decide; [by apply Z.mod_small; lia|].
  symmetry. apply (Z.mod_unique _ _ 1); lia.
Qed.

Section transfer.
Context (m : bytes) (b sz r : Z) (ds : list Z).
Hypothesis small : sz < 2147483648.
Hypothesis position : 0 <= r < sz.
Hypothesis length_ds : 0 < Z.of_nat (length ds) < sz.
Hypothesis bytes_ds : Forall is_byte ds.
Hypothesis buffer : mapped m b sz.

Let k := Z.of_nat (length ds).
Let ds1 := take (Z.to_nat (sz - r)) ds.
Let ds2 := drop (Z.to_nat (sz - r)) ds.

Lemma parts_length : r + k < sz \/
  (sz <= r + k /\ Z.of_nat (length ds1) = sz - r /\ Z.of_nat (length ds2) = k - (sz - r)).
Proof.
  destruct (decide (r + k < sz)); [by left|right].
  unfold ds1, ds2, k in *. rewrite length_take, length_drop. lia.
Qed.

(** Writing into an empty buffer. *)
Lemma write_ok src : block m src ds -> apart src k b sz ->
  exists m', ringbuf_write (RingBuf b sz r r) src k m = Ret (k, RingBuf b sz r ((r + k) mod sz)) m' /\
    wrapped m' b sz r ds /\ (forall a, a < b \/ b + sz <= a -> m' !! a = m !! a) /\
    (forall a n, mapped m a n -> mapped m' a n).
Proof.
  intros Hsrc Hap. unfold ringbuf_write. cbn [buf size rpos wpos]. fold k in length_ds.
  cbv zeta. rewrite Z.ltb_irrefl, (w32_small (r + sz - r)) by lia. replace (r + sz - r) with sz by lia.
  destruct (Z.ltb_spec sz k); [lia|]. destruct (Z.eqb_spec k 0); [lia|]. rewrite (w32_small (r + k)) by lia.
  unfold apart in Hap. destruct parts_length as [Hw|(Hw & L1 & L2)].
  - destruct (Z.ltb_spec (r + k) sz); [|lia].
    assert (Hm : mapped m (b + r) k) by (intros i Hi; rewrite <- Z.add_assoc; apply buffer; lia).
    pose proof (memcpy_ok m (b + r) src ds k eq_refl bytes_ds Hsrc Hm ltac:(lia)) as E.
    exists (put (b + r) ds m). rewrite (bind_Ret _ _ m tt (put (b + r) ds m)) by by rewrite (bind_Ret _ _ _ _ _ E).
    split_and!; [done| |intros a Ha; apply put_lookup_out; fold k; lia|intros; by apply put_mapped].
    intros i d Hi. apply lookup_lt_Some in Hi as Hl. rewrite wrap_index, decide_True by lia.
    rewrite Z.add_assoc. by apply put_block.
  - destruct (Z.ltb_spec (r + k) sz); [lia|]. rewrite (w32_small (sz - r)), (w32_small (k - _)) by lia.
    rewrite <- (take_drop (Z.to_nat (sz - r)) ds) in Hsrc, bytes_ds. fold ds1 ds2 in Hsrc, bytes_ds.
    apply block_app in Hsrc as [S1 S2]. apply Forall_app in bytes_ds as [B1 B2]. rewrite L1 in S2.
    assert (M1 : mapped m (b + r) (sz - r)) by (intros i Hi; rewrite <- Z.add_assoc; apply buffer; lia).
    pose proof (memcpy_ok m (b + r) src ds1 (sz - r) (eq_sym L1) B1 S1 M1 ltac:(lia)) as E1.
    set (m1 := put (b + r) ds1 m).
    assert (S2' : block m1 (src + (sz - r)) ds2) by (apply block_put_out; [lia|done]).
    assert (M2 : mapped m1 b (k - (sz - r))) by (apply put_mapped; intros i Hi; apply buffer; lia).
    pose proof (memcpy_ok m1 b (src + (sz - r)) ds2 (k - (sz - r)) (eq_sym L2) B2 S2' M2 ltac:(lia)) as E2.
    exists (put b ds2 m1). rewrite (bind_Ret _ _ m tt (put b ds2 m1)).
    + split_and!; [done| | |intros; by apply put_mapped, put_mapped].
      * intros i d Hi. apply lookup_lt_Some in Hi as Hl. rewrite wrap_index by lia. case_decide.
        -- rewrite put_lookup_out by lia. rewrite Z.add_assoc. apply put_block. unfold ds1.
           rewrite lookup_take_lt by lia. done.
        -- replace (b + (r + Z.of_nat i - sz)) with (b + Z.of_nat (i - Z.to_nat (sz - r))) by lia.
           apply put_block. unfold ds2. rewrite lookup_drop. by replace (Z.to_nat (sz - r) + (i - Z.to_nat (sz - r)))%nat with i by lia.
      * intros a Ha. rewrite put_lookup_out by lia. apply put_lookup_out. lia.
    + rewrite (bind_Ret _ _ _ _ _ E1). by rewrite (bind_Ret _ _ _ _ _ E2).
Qed.

(** The two pieces of wrapped contents. *)
Lemma wrapped_one : wrapped m b sz r ds -> r + k < sz -> block m (b + r) ds.
Proof.
  intros Hw Hk i d Hi. apply lookup_lt_Some in Hi as Hl. rewrite <- (Hw i d Hi). f_equal.
  rewrite wrap_index, decide_True by lia. lia.
Qed.

Lemma wrapped_two : wrapped m b sz r ds -> sz <= r + k -> block m (b + r) ds1 /\ block m b ds2.
Proof.
  intros Hw Hk. fold k in length_ds. split; intros i d Hi.
  - unfold ds1 in Hi. apply lookup_take_Some in Hi as [Hi Hl]. apply lookup_lt_Some in Hi as Hl'.
    rewrite <- (Hw i d Hi). f_equal. rewrite wrap_index, decide_True by lia. lia.
  - unfold ds2 in Hi. rewrite lookup_drop in Hi. apply lookup_lt_Some in Hi as Hl'.
    rewrite <- (Hw _ d Hi). f_equal. rewrite wrap_index, decide_False by lia. lia.
Qed.

(** Reading everything the buffer holds. *)
Lemma read_ok dest n : wrapped m b sz r ds -> apart dest k b sz -> mapped m dest k -> k <= n ->
  ringbuf_read (RingBuf b sz r ((r + k) mod sz)) dest n m =
    Ret (k, RingBuf b sz ((r + k) mod sz) ((r + k) mod sz)) (put dest ds m).
Proof.
  intros Hw Hap Hm Hn. unfold ringbuf_read. cbn [buf size rpos wpos]. cbv zeta. fold k in length_ds.
  assert (Hfree : (if r <=? (r + k) mod sz then (r + k) mod sz - r else w32 ((r + k) mod sz + sz - r)) = k).
  { rewrite wrap_index by lia. case_decide.
    - destruct (Z.leb_spec r (r + k)); lia.
    - destruct (Z.leb_spec r (r + k - sz)); [lia|]. rewrite w32_small by lia. lia. }
  rewrite Hfree. replace (if k <? n then k else n) with k by (destruct (Z.ltb_spec k n); lia).
  destruct (Z.eqb_spec k 0); [lia|]. rewrite (w32_small (r + k)) by lia. unfold apart in Hap.
  rewrite (bind_Ret _ _ m tt (put dest ds m)); [done|].
  destruct parts_length as [Hk|(Hk & L1 & L2)].
  - destruct (Z.ltb_spec (r + k) sz); [|lia].
    by rewrite (bind_Ret _ _ _ _ _ (memcpy_ok m dest (b + r) ds k eq_refl bytes_ds (wrapped_one Hw Hk) Hm ltac:(lia))).
  - destruct (Z.ltb_spec (r + k) sz); [lia|]. rewrite (w32_small (sz - r)), (w32_small (k - _)) by lia.
    destruct (wrapped_two Hw Hk) as [B1 B2]. assert (E : ds = ds1 ++ ds2) by (symmetry; apply take_drop).
    pose proof bytes_ds as Hby. rewrite E in Hby. apply Forall_app in Hby as [F1 F2].
    assert (M1 : mapped m dest (sz - r)) by (intros i Hi; apply Hm; lia).
    rewrite (bind_Ret _ _ _ _ _ (memcpy_ok m dest (b + r) ds1 (sz - r) (eq_sym L1) F1 B1 M1 ltac:(lia))).
    assert (M2 : mapped (put dest ds1 m) (dest + (sz - r)) (k - (sz - r))).
    { apply put_mapped. intros i Hi. rewrite <- Z.add_assoc. apply Hm. lia. }
    assert (B2' : block (put dest ds1 m) b ds2) by (apply block_put_out; [lia|done]).
    rewrite (bind_Ret _ _ _ _ _ (memcpy_ok _ (dest + (sz - r)) b ds2 (k - (sz - r)) (eq_sym L2) F2 B2' M2 ltac:(lia))).
    unfold mret, cmd_ret. f_equal. transitivity (put dest (ds1 ++ ds2) m); [|by rewrite <- E].
    by rewrite put_app, L1.
Qed.
End transfer.

(** what is written into an empty ring buffer, at any position and around
    its end, is what is read from it: the bytes arrive unchanged and in order,
    the buffer is empty again, and the writer touches only the buffer. *)
Theorem ringbuf_roundtrip m b sz r ds src dest n :
  sz < 2147483648 -> 0 <= r < sz -> 0 < Z.of_nat (length ds) < sz -> Forall is_byte ds ->
  mapped m b sz -> block m src ds -> mapped m dest (Z.of_nat (length ds)) -> Z.of_nat (length ds) <= n ->
  apart src (Z.of_nat (length ds)) b sz -> apart dest (Z.of_nat (length ds)) b sz ->
  let k := Z.of_nat (length ds) in
  exists m1 m2,
    ringbuf_write (RingBuf b sz r r) src k m = Ret (k, RingBuf b sz r ((r + k) mod sz)) m1 /\
    ringbuf_read (RingBuf b sz r ((r + k) mod sz)) dest n m1 =
      Ret (k, RingBuf b sz ((r + k) mod sz) ((r + k) mod sz)) m2 /\
    block m2 dest ds /\ (forall a, a < b \/ b + sz <= a -> m1 !! a = m !! a).
Proof.
  intros Hsz Hr Hl Hf Hb Hsrc Hd Hn Hap Hap' k.
  destruct (write_ok m b sz r ds Hsz Hr Hl Hf Hb src Hsrc Hap) as (m1 & H1 & H2 & H3 & H4).
  exists m1, (put dest ds m1). split_and!; [done| |apply put_block|done].
  by apply (read_ok m1 b sz r ds Hsz Hr Hl Hf); auto.
Qed.

(** A buffer of 5 bytes at 100, data at 200, room at 300. *)
Definition ring_memory : bytes := put 300 [0; 0; 0] (put 200 [11; 12; 13] (put 100 [0; 0; 0; 0; 0] ∅)).

Lemma put_is_mapped a bs m n : n = Z.of_nat (length bs) -> mapped (put a bs m) a n.
Proof.
  intros -> i Hi. destruct (lookup_lt_is_Some_2 bs (Z.to_nat i)) as [v Hv]; [lia|]. exists v.
  replace i with (Z.of_nat (Z.to_nat i)) by lia. by apply put_block.
Qed.

Lemma ringbuf_roundtrip_witness :
  exists m1 m2,
    ringbuf_write (RingBuf 100 5 3 3) 200 3 ring_memory = Ret (3, RingBuf 100 5 3 1) m1 /\
    ringbuf_read (RingBuf 100 5 3 1) 300 3 m1 = Ret (3, RingBuf 100 5 1 1) m2 /\
    block m2 300 [11; 12; 13] /\ (forall a, a < 100 \/ 100 + 5 <= a -> m1 !! a = ring_memory !! a).
Proof.
  apply (ringbuf_roundtrip ring_memory 100 5 3 [11; 12; 13] 200 300 3); try (simpl; unfold apart; lia).
  - repeat constructor; lia.
  - apply put_mapped, put_mapped, put_is_mapped. reflexivity.
  - apply block_put_out; [simpl; lia|]. apply put_block.
  - apply put_is_mapped. reflexivity.
Defined.

(** The free size is wrong when nothing has been wrapped: three bytes are
    written over two that have not been read, and the third lies behind the end
    of the buffer. *)
Example ringbuf_write_overruns :
  ringbuf_write (RingBuf 100 5 0 4) 200 3 ring_memory = Stop (PageFault 105) (<[104 := 11]> ring_memory).
Proof. vm_compute. reflexivity. Qed.
