(* ===== verification/Pack.v ===== *)
(** * Packed data (lib/libmeinos/pack.c, include/pack.h)

    Values of different types written one after the other into a buffer, and
    read back in the same order.  [packg] and [unpackg] are macros over a type;
    the model takes the number of its bytes. *)

From S2P Require Import Prelude Machine CString.

Record pack_t := Pack { cur : Z; pbuf : Z }.

Definition pack_create (buf : Z) : pack_t := Pack buf buf.
Definition pack_reset (p : pack_t) : pack_t := Pack (pbuf p) (pbuf p).
Definition pack_sizeof (p : pack_t) : Z := cur p - pbuf p.
Definition advance (p : pack_t) (n : Z) : pack_t := Pack (cur p + n) (pbuf p).

(** The [n] bytes of an unsigned value. *)
Fixpoint le_bytes (n : nat) (v : Z) : list Z :=
  match n with O => [] | S n => w8 v :: le_bytes n (v / 256) end.

Definition packg (n : nat) (v : Z) (p : pack_t) : cmd bytes pack_t :=
  stn (cur p) (le_bytes n v);; mret (advance p (Z.of_nat n)).

Definition packstr (s : Z) (p : pack_t) : cmd bytes pack_t :=
  strcpy (cur p) s;; n ← strlen s; mret (advance p (n + 1)).

Definition packnstr (s maxlen : Z) (p : pack_t) : cmd bytes pack_t :=
  strncpy (cur p) s maxlen;; n ← strlen (cur p); mret (advance p (n + 1)).

Definition packdata (data size : Z) (p : pack_t) : cmd bytes pack_t :=
  p ← packg 4 size p; memcpy (cur p) data size;; mret (advance p size).

Definition unpackg (n : nat) (p : pack_t) : cmd bytes (Z * pack_t) :=
  bs ← ldn n (cur p); mret (le32 bs, advance p (Z.of_nat n)).

Definition unpackstr (p : pack_t) : cmd bytes (Z * pack_t) :=
  n ← strlen (cur p); mret (cur p, advance p (n + 1)).

Definition unpackdata (data : Z) (p : pack_t) : cmd bytes pack_t :=
  '(size, p) ← unpackg 4 p; memcpy data (cur p) size;; mret (advance p size).

(** * Properties *)

(** What can be packed: a value of [n] bytes, the string at an address, the
    bytes at an address. *)
Inductive item := Int (n : nat) (v : Z) | Str (a : Z) (s : list Z) | Data (a : Z) (bs : list Z).

Definition pack_item (it : item) : pack_t -> cmd bytes pack_t :=
  match it with Int n v => packg n v | Str a _ => packstr a | Data a bs => packdata a (Z.of_nat (length bs)) end.

Fixpoint pack_items (its : list item) (p : pack_t) : cmd bytes pack_t :=
  match its with [] => mret p | it :: its => p ← pack_item it p; pack_items its p end.

Definition item_bytes (it : item) : list Z :=
  match it with
  | Int n v => le_bytes n v
  | Str _ s => s ++ [0]
  | Data _ bs => le_bytes 4 (Z.of_nat (length bs)) ++ bs
  end.

Definition all_bytes (its : list item) : list Z := concat (item_bytes <$> its).
Definition len (bs : list Z) : Z := Z.of_nat (length bs).

(** The item is in memory, outside the buffer [b], [b]+[n]. *)
Definition item_ok (m : bytes) (b n : Z) (it : item) : Prop :=
  match it with
  | Int k v => 0 <= v < 256 ^ Z.of_nat k
  | Str a s => cstr m a s /\ a <> NULL /\ (a + len (s ++ [0]) <= b \/ b + n <= a)
  | Data a bs => block m a bs /\ Forall is_byte bs /\ len bs < 4294967296 /\ (a + len bs <= b \/ b + n <= a)
  end.

Lemma le_bytes_length n v : length (le_bytes n v) = n.
Proof. revert v. induction n as [|n IH]; intros v; simpl; [done|]. by rewrite IH. Qed.

Lemma le_bytes_byte n v : Forall is_byte (le_bytes n v).
Proof. revert v. induction n as [|n IH]; intros v; simpl; constructor; [apply w8_range|apply IH]. Qed.

Lemma le_bytes_value n v : 0 <= v < 256 ^ Z.of_nat n -> le32 (le_bytes n v) = v.
Proof.
  revert v. induction n as [|n IH]; intros v Hv; [simpl in *; lia|].
  rewrite Nat2Z.inj_succ, Z.pow_succ_r in Hv by lia.
  change (le32 (le_bytes (S n) v)) with (w8 v + 256 * le32 (le_bytes n (v / 256))). rewrite IH.
  - unfold w8. pose proof (Z.div_mod v 256 ltac:(lia)). lia.
  - split; [apply Z.div_pos; lia|]. apply Z.div_lt_upper_bound; lia.
Qed.

(** ** Packing one item *)

Lemma stn_block_put a bs m n : n = len bs -> Forall is_byte bs -> mapped m a n -> stn a bs m = Ret tt (put a bs m).
Proof. intros -> Hf Hm. by apply stn_put. Qed.

Lemma strcpy_put m dest src s :
  cstr m src s -> mapped m dest (len (s ++ [0])) -> dest < src \/ src + len (s ++ [0]) <= dest ->
  strcpy dest src m = Ret dest (put dest (s ++ [0]) m).
Proof.
  intros Hs Hm Hd. unfold strcpy.
  pose proof (strcpy_loop_ok m s dest src (scan_fuel m) 0 Hs Hm Hd ltac:(lia)
    (scan_fuel_ok m src s (proj1 Hs))) as H.
  rewrite (bind_Ret _ _ m _ _ H), (bind_Ret _ _ _ tt (put dest (s ++ [0]) m)); [done|].
  rewrite st_ok; [|unfold is_byte; lia|].
  - unfold fwd. by rewrite take_app_length, put_app.
  - apply (put_mapped _ _ _ dest (len (s ++ [0]))); [done|]. unfold len. rewrite length_app. simpl. lia.
Qed.

Lemma pack_item_ok m it p b n :
  item_ok m b n it -> mapped m (cur p) (len (item_bytes it)) ->
  b <= cur p -> cur p + len (item_bytes it) <= b + n ->
  pack_item it p m = Ret (advance p (len (item_bytes it))) (put (cur p) (item_bytes it) m).
Proof.
  intros Hit Hm Hb Hn. destruct it as [k v|a s|a bs]; cbn [pack_item item_bytes item_ok] in *.
  - unfold packg. rewrite (bind_Ret _ _ _ _ _ (stn_block_put _ _ _ _ eq_refl (le_bytes_byte k v) Hm)).
    unfold len. by rewrite le_bytes_length.
  - destruct Hit as (Hc & Hnn & Hd). unfold packstr.
    rewrite (bind_Ret _ _ _ _ _ (strcpy_put m (cur p) a s Hc Hm ltac:(unfold len in *; lia))).
    assert (Hc' : cstr (put (cur p) (s ++ [0]) m) a s).
    { split; [|apply Hc]. apply block_put_out; [unfold len in *; lia|apply Hc]. }
    rewrite (bind_Ret _ _ _ _ _ (strlen_ok _ a s Hnn Hc')). unfold len. rewrite length_app. simpl.
    unfold mret, cmd_ret. do 2 f_equal. lia.
  - destruct Hit as (Hbs & Hf & Hlt & Hd). unfold packdata, packg.
    set (hb := le_bytes 4 (Z.of_nat (length bs))) in *.
    assert (Lh : len hb = 4) by done.
    assert (La : len (hb ++ bs) = 4 + len bs) by (unfold len; rewrite length_app, Nat2Z.inj_add; done).
    rewrite La in *. rewrite bind_assoc.
    rewrite (bind_Ret _ _ m tt (put (cur p) hb m)).
    2: { apply (stn_block_put _ _ _ 4); [done|apply le_bytes_byte|]. intros i Hi. apply Hm. unfold len. lia. }
    rewrite bind_ret. cbn [cur advance].
    rewrite (bind_Ret _ _ _ _ _ (memcpy_ok (put (cur p) hb m) (cur p + Z.of_nat 4) a bs (Z.of_nat (length bs)) eq_refl Hf
      ltac:(apply block_put_out; [unfold len in *; lia|done])
      ltac:(apply put_mapped; intros i Hi; rewrite <- Z.add_assoc; apply Hm; unfold len; lia) ltac:(unfold len in *; lia))).
    rewrite put_app. unfold mret, cmd_ret, advance. cbn [cur pbuf]. f_equal. f_equal. unfold len. lia.
Qed.

(** ** All items *)

Lemma item_ok_put m b n c bs it :
  b <= c -> c + len bs <= b + n -> item_ok m b n it -> item_ok (put c bs m) b n it.
Proof.
  intros Hb Hn. unfold len in *. destruct it as [k v|a s|a ds]; cbn [item_ok]; [done|..].
  - intros ([Hc Hf] & Hnn & Hd). unfold len in *. split_and!; [split; [|done]|done..].
    apply block_put_out; [lia|done].
  - intros (Hbs & Hf & Hlt & Hd). unfold len in *. split_and!; [|done..]. apply block_put_out; [lia|done].
Qed.

Lemma pack_items_ok its : forall m p b n,
  Forall (item_ok m b n) its -> mapped m b n -> b <= cur p -> cur p + len (all_bytes its) <= b + n ->
  pack_items its p m = Ret (advance p (len (all_bytes its))) (put (cur p) (all_bytes its) m).
Proof.
  induction its as [|it its IH]; intros m p b n Hok Hm Hb Hn; cbn [pack_items].
  { unfold mret, cmd_ret, advance. destruct p. simpl. by rewrite Z.add_0_r. }
  apply Forall_cons in Hok as [Hit Hok].
  change (all_bytes (it :: its)) with (item_bytes it ++ all_bytes its) in *.
  assert (La : len (item_bytes it ++ all_bytes its) = len (item_bytes it) + len (all_bytes its))
    by (unfold len; rewrite length_app; lia).
  rewrite La in *. assert (0 <= len (all_bytes its)) by (unfold len; lia).
  assert (0 <= len (item_bytes it)) by (unfold len; lia).
  rewrite (bind_Ret _ _ _ _ _ (pack_item_ok m it p b n Hit ltac:(intros i Hi; replace (cur p + i) with (b + (cur p - b + i)) by lia; apply Hm; lia) Hb ltac:(lia))).
  rewrite (IH _ (advance p (len (item_bytes it))) b n); cbn [advance cur].
  - rewrite put_app. unfold advance. cbn [cur pbuf]. do 2 f_equal. lia.
  - eapply Forall_impl; [exact Hok|]. intros it'. apply item_ok_put; [done|lia].
  - by apply put_mapped.
  - lia.
  - lia.
Qed.

(** Reading one item back at its place. *)
Definition unpacks (b n : Z) (q : pack_t) (m : bytes) (it : item) : Prop :=
  let q' := advance q (len (item_bytes it)) in
  match it with
  | Int k v => unpackg k q m = Ret (v, q') m
  | Str _ s => unpackstr q m = Ret (cur q, q') m /\ cstr m (cur q) s
  | Data _ bs => forall dst, mapped m dst (len bs) -> dst + len bs <= b \/ b + n <= dst ->
      unpackdata dst q m = Ret q' (put dst bs m)
  end.

Lemma unpack_ok m0 m b n q it :
  item_ok m0 b n it -> block m (cur q) (item_bytes it) -> 0 < b <= cur q ->
  cur q + len (item_bytes it) <= b + n -> unpacks b n q m it.
Proof.
  intros Hit Hb Hq Hn. unfold unpacks. destruct it as [k v|a s|a bs]; cbn [item_bytes item_ok] in *.
  - unfold unpackg. rewrite (bind_Ret _ _ _ _ _ (ldn_block k _ _ m (le_bytes_length k v) Hb)).
    unfold len. by rewrite le_bytes_value, le_bytes_length.
  - destruct Hit as ([_ Hf] & _). assert (Hc : cstr m (cur q) s) by by split. split; [|done].
    unfold unpackstr. rewrite (bind_Ret _ _ _ _ _ (strlen_ok m (cur q) s ltac:(unfold NULL; lia) Hc)).
    unfold len. rewrite length_app. simpl. unfold mret, cmd_ret. do 3 f_equal. lia.
  - intros dst Hd Hap. destruct Hit as (_ & Hf & Hlt & _). unfold unpackdata, unpackg.
    apply block_app in Hb as [B1 B2]. rewrite le_bytes_length in B2. rewrite bind_assoc.
    rewrite (bind_Ret _ _ _ _ _ (ldn_block 4 _ _ m (le_bytes_length 4 _) B1)), bind_ret. cbn [advance cur pbuf].
    rewrite le_bytes_value by (unfold len in *; lia). unfold len in *. rewrite length_app, le_bytes_length in *.
    rewrite (bind_Ret _ _ _ _ _ (memcpy_ok m dst (cur q + Z.of_nat 4) bs _ eq_refl Hf B2 Hd ltac:(lia))).
    unfold mret, cmd_ret, advance. cbn [cur pbuf]. do 2 f_equal. lia.
Qed.

(** packing and unpacking are inverse: after packing any items into a buffer
    with room for them, each item is read back at its place in the order of
    packing, and reading moves on to the next one; nothing outside the packed
    bytes is written. *)
Theorem pack_roundtrip m b n pre it post :
  Forall (item_ok m b n) (pre ++ it :: post) -> mapped m b n -> 0 < b ->
  len (all_bytes (pre ++ it :: post)) <= n ->
  exists m', pack_items (pre ++ it :: post) (pack_create b) m =
      Ret (Pack (b + len (all_bytes (pre ++ it :: post))) b) m' /\
    unpacks b n (Pack (b + len (all_bytes pre)) b) m' it /\
    (forall a, a < b \/ b + len (all_bytes (pre ++ it :: post)) <= a -> m' !! a = m !! a).
Proof.
  intros Hok Hm Hb Hn. eexists. split; [|split].
  - apply (pack_items_ok _ m (pack_create b) b n Hok Hm); simpl; lia.
  - assert (E : all_bytes (pre ++ it :: post) = all_bytes pre ++ item_bytes it ++ all_bytes post).
    { unfold all_bytes. by rewrite fmap_app, concat_app. }
    apply Forall_app in Hok as [_ [Hit _]%Forall_cons]. rewrite E in *. unfold len in Hn. rewrite !length_app in Hn.
    apply (unpack_ok m _ b n _ it Hit); cbn [cur]; unfold len; [|lia|lia].
    pose proof (put_block b (all_bytes pre ++ item_bytes it ++ all_bytes post) m) as H.
    apply block_app in H as [_ [H _]%block_app]. exact H.
  - intros a Ha. apply put_lookup_out. exact Ha.
Qed.

(** A number, the string "AB" at 200 and another number, packed at 100. *)
Definition pack_memory : bytes := put 200 [65; 66; 0] (put 100 [0; 0; 0; 0; 0; 0; 0; 0; 0; 0] ∅).

Lemma pack_roundtrip_witness :
  exists m', pack_items [Int 4 1000; Str 200 [65; 66]; Int 2 7] (pack_create 100) pack_memory = Ret (Pack 109 100) m' /\
    unpacks 100 10 (Pack 104 100) m' (Str 200 [65; 66]) /\
    (forall a, a < 100 \/ 100 + 9 <= a -> m' !! a = pack_memory !! a).
Proof.
  apply (pack_roundtrip pack_memory 100 10 [Int 4 1000] (Str 200 [65; 66]) [Int 2 7]).
  - constructor; [split; vm_compute; [discriminate|reflexivity]|].
    constructor; [|constructor; [split; vm_compute; [discriminate|reflexivity]|constructor]].
    split; [split; [apply put_block|repeat constructor; lia]|]. split; [unfold NULL; lia|].
    right. unfold len. simpl. lia.
  - apply put_mapped. intros i Hi.
    destruct (lookup_lt_is_Some_2 [0; 0; 0; 0; 0; 0; 0; 0; 0; 0] (Z.to_nat i)) as [v Hv]; [simpl; lia|].
    exists v. replace i with (Z.of_nat (Z.to_nat i)) by lia. by apply put_block.
  - lia.
  - vm_compute. discriminate.
Defined.
