(* ===== verification/AppStd.v ===== *)
(** * General utilities for applications (apps/lib/stdlibc/stdlib.c)

    [qsort] is a comb sort.  The array is the list of its elements: [memswap]
    exchanges the bytes of two of them, and the comparison function behind the
    pointer is a parameter. *)

From Stdlib Require Import Sorting.Sorted.
From S2P Require Import Prelude Machine CString.

(** ** Numbers *)

Fixpoint atoi_loop (n : nat) (str i num : Z) (sign : bool) : cmd bytes (Z * bool) :=
  match n with
  | O => mret (num, sign)
  | S n =>
      c ← ldc (str + i);
      if c =? 43 then atoi_loop n str (i + 1) num false
      else if c =? 45 then atoi_loop n str (i + 1) num true
      else atoi_loop n str (i + 1) (s32 (num * 10 + c - 48)) sign
  end.

Definition atoi (str : Z) : cmd bytes Z :=
  len ← strlen str;
  '(num, sign) ← atoi_loop (Z.to_nat len) str 0 0 false;
  mret (if sign : bool then s32 (- num) else num).

Definition abs (num : Z) : Z := if num <? 0 then s32 (- num) else num.

(** Quotient and remainder, truncated; division by zero faults. *)
Definition div (numer denom : Z) : option (Z * Z) :=
  if denom =? 0 then None else Some (Z.quot numer denom, Z.rem numer denom).

(** ** Sorting *)

Definition newgap (gap : Z) : Z :=
  let gap := w32 (gap * 10) / 13 in
  let gap := if (gap =? 9) || (gap =? 10) then 11 else gap in
  if gap <? 1 then 1 else gap.

Section qsort.
Context {A : Type} (compar : A -> A -> Z).

(** One pass over the pairs [gap] apart; whether any was exchanged. *)
Fixpoint pass (n i gap : nat) (l : list A) (swapped : bool) : list A * bool :=
  match n with
  | O => (l, swapped)
  | S n =>
      match l !! i, l !! (i + gap)%nat with
      | Some x, Some y =>
          if 0 <? compar x y then pass n (i + 1) gap (<[(i + gap)%nat := x]> (<[i := y]> l)) true
          else pass n (i + 1) gap l swapped
      | _, _ => (l, swapped)
      end
  end.

(** [do ... while (gap>1 || swapped)]; [None]: more rounds are needed. *)
Fixpoint qsort_loop (fuel : nat) (gap : Z) (l : list A) : option (list A) :=
  match fuel with
  | O => None
  | S fuel =>
      let gap := newgap gap in
      let '(l', swapped) := pass (Z.to_nat (Z.of_nat (length l) - gap)) 0 (Z.to_nat gap) l false in
      if (1 <? gap) || swapped then qsort_loop fuel gap l' else Some l'
  end.

Definition qsort (fuel : nat) (l : list A) : option (list A) :=
  match l with [] => Some [] | _ => qsort_loop fuel (Z.of_nat (length l)) l end.
End qsort.

(** * Properties *)

Lemma newgap_bounds gap : 1 <= gap < 429496729 ->
  1 <= newgap gap <= gap /\ (2 <= gap -> newgap gap < gap).
Proof.
  intros Hg. unfold newgap. rewrite w32_small by lia.
  pose proof (Z.div_mod (gap * 10) 13 ltac:(lia)). pose proof (Z.mod_pos_bound (gap * 10) 13 ltac:(lia)).
  destruct (Z.eqb_spec (gap * 10 / 13) 9); cbn [orb]; [change (11 <? 1) with false; cbv iota; lia|].
  destruct (Z.eqb_spec (gap * 10 / 13) 10); [change (11 <? 1) with false; cbv iota; lia|].
  destruct (Z.ltb_spec (gap * 10 / 13) 1); lia.
Qed.

Section qsort_facts.
Context {A : Type} (compar : A -> A -> Z).
Definition le (x y : A) : Prop := compar x y <= 0.
Hypothesis le_total : forall x y, 0 < compar x y -> le y x.
Hypothesis le_trans : forall x y z, le x y -> le y z -> le x z.

Lemma pass_perm n : forall i gap l s, (fst (pass compar n i gap l s)) ≡ₚ l.
Proof.
  induction n as [|n IH]; intros i gap l s; simpl; [done|].
  destruct (l !! i) as [x|] eqn:Hx; [|done]. destruct (l !! (i + gap)%nat) as [y|] eqn:Hy; [|done].
  destruct (0 <? compar x y); [|apply IH]. rewrite IH. by apply Permutation_insert_swap.
Qed.

(** ** The last phase: neighbours *)

Fixpoint bubble (x : A) (l : list A) : list A * bool :=
  match l with
  | [] => ([x], false)
  | y :: l =>
      if 0 <? compar x y then (y :: (bubble x l).1, true)
      else (x :: (bubble y l).1, (bubble y l).2)
  end.

Lemma pass_bubble l : forall x pre s,
  pass compar (length l) (length pre) 1 (pre ++ x :: l) s = (pre ++ (bubble x l).1, s || (bubble x l).2).
Proof.
  induction l as [|y l IH]; intros x pre s; cbn [pass length bubble]; [by rewrite orb_false_r|].
  rewrite (lookup_app_r pre) by lia. rewrite Nat.sub_diag. cbn [lookup list_lookup].
  rewrite (lookup_app_r pre) by lia. replace (length pre + 1 - length pre)%nat with 1%nat by lia. cbn [lookup list_lookup].
  replace (length pre + 1)%nat with (length (pre ++ [y])) by (rewrite length_app; simpl; lia).
  destruct (0 <? compar x y); cbn [fst snd].
  - assert (E : <[length (pre ++ [y]) := x]> (<[length pre := y]> (pre ++ x :: y :: l)) = (pre ++ [y]) ++ x :: l).
    { rewrite insert_app_r_alt, Nat.sub_diag by lia. cbn [insert list_insert].
      replace (pre ++ y :: y :: l) with ((pre ++ [y]) ++ y :: l) by (by rewrite <- app_assoc).
      rewrite insert_app_r_alt, Nat.sub_diag by lia. done. }
    rewrite E, IH, <- app_assoc, orb_true_l, orb_true_r. done.
  - replace (length (pre ++ [y])) with (length (pre ++ [x])) by (by rewrite !length_app).
    replace (pre ++ x :: y :: l) with ((pre ++ [x]) ++ y :: l) by (by rewrite <- app_assoc).
    rewrite IH, <- app_assoc. done.
Qed.

Lemma bubble_perm l : forall x, (bubble x l).1 ≡ₚ x :: l.
Proof.
  induction l as [|y l IH]; intros x; simpl; [done|]. destruct (0 <? compar x y); simpl.
  - rewrite IH. apply Permutation_swap.
  - by rewrite IH.
Qed.

(** Inversions *)
Definition above (x : A) (l : list A) : nat := length (filter (fun y => 0 < compar x y) l).
Fixpoint inversions (l : list A) : nat :=
  match l with [] => 0 | x :: l => above x l + inversions l end.

Lemma above_perm x l k : l ≡ₚ k -> above x l = above x k.
Proof. intros H. unfold above. by rewrite H. Qed.

Lemma above_cons x y l : above x (y :: l) = ((if decide (0 < compar x y)%Z then 1 else 0) + above x l)%nat.
Proof. unfold above. rewrite filter_cons. by case_decide. Qed.

(** A round that exchanges something removes inversions; one that does not
    has found the list in order. *)
Lemma bubble_inversions l : forall x,
  if (bubble x l).2 then (inversions (bubble x l).1 < inversions (x :: l))%nat
  else (bubble x l).1 = x :: l /\ Sorted le (x :: l).
Proof.
  assert (Hle : forall l x, (inversions (bubble x l).1 <= inversions (x :: l))%nat).
  { clear l. induction l as [|y l IH]; intros x; simpl; [lia|]. destruct (Z.ltb_spec 0 (compar x y)) as [Hxy|Hxy]; cbn [fst inversions].
    - rewrite (above_perm y _ _ (bubble_perm l x)), !above_cons. specialize (IH x). cbn [inversions] in IH.
      specialize (le_total _ _ Hxy). unfold le in le_total. repeat case_decide; lia.
    - rewrite (above_perm x _ _ (bubble_perm l y)). specialize (IH y). cbn [inversions] in IH. lia. }
  induction l as [|y l IH]; intros x; simpl; [by repeat constructor|].
  destruct (Z.ltb_spec 0 (compar x y)) as [Hxy|Hxy]; cbn [fst snd inversions].
  - rewrite (above_perm y _ _ (bubble_perm l x)), !above_cons. specialize (Hle l x). cbn [inversions] in Hle.
    specialize (le_total _ _ Hxy). unfold le in le_total. repeat case_decide; lia.
  - specialize (IH y). destruct (bubble y l).2.
    + rewrite (above_perm x _ _ (bubble_perm l y)). cbn [inversions] in IH. lia.
    + destruct IH as [-> Hs]. split; [done|]. constructor; [done|]. constructor. exact Hxy.
Qed.

Lemma inversions_bound l : (inversions l <= length l * length l)%nat.
Proof.
  induction l as [|x l IH]; simpl; [lia|]. assert (above x l <= length l)%nat by apply length_filter. lia.
Qed.

Lemma newgap_one : newgap 1 = 1.
Proof. reflexivity. Qed.

Lemma qsort_last fuel : forall l, l <> [] -> (inversions l < fuel)%nat ->
  exists l', qsort_loop compar fuel 1 l = Some l' /\ l' ≡ₚ l /\ StronglySorted le l'.
Proof.
  induction fuel as [|fuel IH]; intros l Hne Hf; [lia|]. destruct l as [|x l]; [done|].
  cbn [qsort_loop]. rewrite newgap_one. replace (Z.to_nat (Z.of_nat (length (x :: l)) - 1)) with (length l) by (simpl; lia).
  change (Z.to_nat 1) with 1%nat. pose proof (pass_bubble l x [] false) as Hp. cbn [app length] in Hp. rewrite Hp.
  cbn [orb]. change (1 <? 1) with false. cbn [orb].
  pose proof (bubble_inversions l x) as Hi. destruct (bubble x l).2.
  - destruct (IH (bubble x l).1) as (l' & H1 & H2 & H3); [|lia|].
    + intros E. pose proof (bubble_perm l x) as Hb. rewrite E in Hb. by apply Permutation_nil_cons in Hb.
    + exists l'. split_and!; [done| |done]. by rewrite H2, bubble_perm.
  - destruct Hi as [-> Hs]. exists (x :: l). split_and!; [done|done|]. by apply Sorted_StronglySorted.
Qed.

(** The gap shrinks in every round until it is 1. *)
Lemma qsort_rounds fuel : forall gap l, l <> [] -> 1 <= gap < 429496729 ->
  (Z.to_nat gap + length l * length l < fuel)%nat ->
  exists l', qsort_loop compar fuel gap l = Some l' /\ l' ≡ₚ l /\ StronglySorted le l'.
Proof.
  induction fuel as [|fuel IH]; intros gap l Hne Hg Hf; [lia|].
  destruct (newgap_bounds gap Hg) as [Hn Hlt]. destruct (decide (newgap gap = 1)) as [E|E].
  - replace (qsort_loop compar (S fuel) gap l) with (qsort_loop compar (S fuel) 1 l)
      by (cbn [qsort_loop]; by rewrite E, newgap_one).
    apply qsort_last; [done|]. pose proof (inversions_bound l). lia.
  - cbn [qsort_loop]. pose proof (pass_perm (Z.to_nat (Z.of_nat (length l) - newgap gap)) 0 (Z.to_nat (newgap gap)) l false) as Hp.
    destruct (pass compar _ 0 _ l false) as [l1 sw]. cbn [fst] in Hp.
    destruct (Z.ltb_spec 1 (newgap gap)); [|lia]. cbn [orb].
    pose proof (Permutation_length Hp) as Hl.
    assert (Hgt : newgap gap < gap) by (apply Hlt; destruct (decide (gap = 1)) as [->|]; [done|lia]).
    destruct (IH (newgap gap) l1) as (l' & H1 & H2 & H3).
    + intros ->. by apply Permutation_nil in Hp.
    + lia.
    + rewrite Hl. lia.
    + exists l'. split_and!; [done| |done]. by rewrite H2.
Qed.
End qsort_facts.

(** C32: [qsort] terminates, after at most [n + n*n + 1] rounds for [n] elements,
    for any comparison function that is a total preorder; the result is a
    permutation of the array and in ascending order. *)
Theorem qsort_terminates_sorted {A} (compar : A -> A -> Z) l fuel :
  (forall x y, 0 < compar x y -> le compar y x) ->
  (forall x y z, le compar x y -> le compar y z -> le compar x z) ->
  Z.of_nat (length l) < 429496729 -> (length l + length l * length l < fuel)%nat ->
  exists l', qsort compar fuel l = Some l' /\ l' ≡ₚ l /\ StronglySorted (le compar) l'.
Proof.
  intros Ht Htr Hn Hf. destruct l as [|x l]; [exists []; split_and!; [done|done|constructor]|].
  unfold qsort. apply qsort_rounds; [done..|cbn [length] in *; lia|]. by rewrite Nat2Z.id.
Qed.

Lemma qsort_terminates_sorted_witness :
  exists l', qsort Z.sub 21 [3; 1; 4; 2] = Some l' /\ l' ≡ₚ [3; 1; 4; 2] /\ StronglySorted (le Z.sub) l'.
Proof.
  apply (qsort_terminates_sorted Z.sub [3; 1; 4; 2] 21).
  - unfold le. lia.
  - unfold le. lia.
  - simpl. lia.
  - simpl. lia.
Defined.
