(* ===== verification/Cache.v ===== *)
(** * The block cache of the driver interface (apps/lib/libcdi/cache.c)

    A cache keeps copies of blocks of a device: a search tree by block number
    (tree.c), a doubly linked list in the order of last use, a ring of hints and
    a read-ahead buffer.  The blocks are a heap from addresses to records, so that
    the tree, the list and the hints share them by address; a block that was freed
    is not on the heap, and looking at it is [UseAfterFree].

    The device is the pair of callbacks given to [cdi_cache_create], an interface
    ([Device]) whose documented behaviour is the class [DeviceLaws]. *)

From Stdlib Require Import Sorted.
From S2P Require Import Prelude LList Tree Machine.

(** ** The interfaces *)

(** [read_block] gives the number of blocks read and the bytes it stored;
    [write_block] gives the number of blocks written. *)
Class Device (D : Type) := {
  read_block : D -> Z -> Z -> Z * list Z * D;
  write_block : D -> Z -> Z -> list Z -> Z * D;
}.

(** What memory from [malloc] holds. *)
Class Garbage := {
  garbage : Z -> list Z;
  garbage_length : forall n, length (garbage n) = Z.to_nat n;
}.

(** ** Data *)

(** [struct block]; [cdi.number], [cdi.data] and [cdi.private] are the first
    three fields, the last two as the memory they point to. *)
Record block := Block {
  number : Z;
  data : list Z;
  private : list Z;
  ref_count : Z;
  dirty : Z;
  lru_next : Z;
  lru_prev : Z;
}.

Definition set_number (v : Z) (b : block) : block :=
  Block v (data b) (private b) (ref_count b) (dirty b) (lru_next b) (lru_prev b).
Definition set_data (v : list Z) (b : block) : block :=
  Block (number b) v (private b) (ref_count b) (dirty b) (lru_next b) (lru_prev b).
Definition set_ref_count (v : Z) (b : block) : block :=
  Block (number b) (data b) (private b) v (dirty b) (lru_next b) (lru_prev b).
Definition set_dirty (v : Z) (b : block) : block :=
  Block (number b) (data b) (private b) (ref_count b) v (lru_next b) (lru_prev b).
Definition set_lru_next (v : Z) (b : block) : block :=
  Block (number b) (data b) (private b) (ref_count b) (dirty b) v (lru_prev b).
Definition set_lru_prev (v : Z) (b : block) : block :=
  Block (number b) (data b) (private b) (ref_count b) (dirty b) (lru_next b) v.

(** [struct cache]; the callbacks are those of class [Device]. *)
Record cache := Cache {
  block_size : Z;
  private_len : Z;
  block_count : Z;
  blocks_used : Z;
  tree : Tree.tree;
  lru_first : Z;
  lru_last : Z;
  read_buffer : list Z;
  read_buffer_block : Z;
  read_buffer_cnt : Z;
  hints : list Z;
  prev_hint : Z;
}.

Definition set_blocks_used (v : Z) (c : cache) : cache :=
  Cache (block_size c) (private_len c) (block_count c) v (tree c) (lru_first c) (lru_last c)
    (read_buffer c) (read_buffer_block c) (read_buffer_cnt c) (hints c) (prev_hint c).
Definition set_tree (v : Tree.tree) (c : cache) : cache :=
  Cache (block_size c) (private_len c) (block_count c) (blocks_used c) v (lru_first c) (lru_last c)
    (read_buffer c) (read_buffer_block c) (read_buffer_cnt c) (hints c) (prev_hint c).
Definition set_lru_first (v : Z) (c : cache) : cache :=
  Cache (block_size c) (private_len c) (block_count c) (blocks_used c) (tree c) v (lru_last c)
    (read_buffer c) (read_buffer_block c) (read_buffer_cnt c) (hints c) (prev_hint c).
Definition set_lru_last (v : Z) (c : cache) : cache :=
  Cache (block_size c) (private_len c) (block_count c) (blocks_used c) (tree c) (lru_first c) v
    (read_buffer c) (read_buffer_block c) (read_buffer_cnt c) (hints c) (prev_hint c).
Definition set_read_buffer (bytes : list Z) (first cnt : Z) (c : cache) : cache :=
  Cache (block_size c) (private_len c) (block_count c) (blocks_used c) (tree c) (lru_first c)
    (lru_last c) bytes first cnt (hints c) (prev_hint c).
Definition set_hints (hs : list Z) (prev : Z) (c : cache) : cache :=
  Cache (block_size c) (private_len c) (block_count c) (blocks_used c) (tree c) (lru_first c)
    (lru_last c) (read_buffer c) (read_buffer_block c) (read_buffer_cnt c) hs prev.

(** The cache, the blocks on the heap and the device. *)
Record state (D : Type) := State { self : cache; blocks : gmap Z block; dev : D }.
Arguments State {D}.
Arguments self {D}.
Arguments blocks {D}.
Arguments dev {D}.

Definition INVBLKNUM : Z := 18446744073709551615.
Definition READBUF_SZ : Z := 4.
Definition HINTCNT : Z := 8.

(** ** Memory *)

Definition subrange (l : list Z) (off len : Z) : list Z :=
  take (Z.to_nat len) (drop (Z.to_nat off) l).

Definition splice (l : list Z) (off : Z) (bytes : list Z) : list Z :=
  take (Z.to_nat off) l ++ bytes ++ drop (Z.to_nat off + length bytes) l.

(** Position of an item in the tree: the [tree_item] inside the object. *)
Fixpoint locate (t : Tree.tree) (obj : Z) (p : Tree.path) : option (Tree.tree * Tree.path) :=
  match t with
  | Null => None
  | Item l k o b r =>
      if obj =? o then Some (t, p)
      else match locate l obj (LeftOf k o b r :: p) with
           | Some x => Some x
           | None => locate r obj (RightOf l k o b :: p)
           end
  end.

Fixpoint tree_size (t : Tree.tree) : nat :=
  match t with
  | Null => 0
  | Item l _ _ _ r => S (tree_size l + tree_size r)
  end.

Section code.
Context {D : Type} `{Device D} `{Malloc} `{Garbage}.

Definition deref (a : Z) : cmd (state D) block := fun s =>
  if a =? NULL then Stop NullDeref s
  else match blocks s !! a with Some b => Ret b s | None => Stop UseAfterFree s end.

Definition update (a : Z) (f : block -> block) : cmd (state D) unit :=
  b ← deref a; modify (fun s => State (self s) (<[a := f b]> (blocks s)) (dev s)).

Definition free (a : Z) : cmd (state D) unit :=
  deref a;; modify (fun s => State (self s) (delete a (blocks s)) (dev s)).

Definition set_self (f : cache -> cache) : cmd (state D) unit :=
  modify (fun s => State (f (self s)) (blocks s) (dev s)).

(** The items of the tree live inside the blocks: a tree that holds a freed block
    must not be used any more. *)
Definition use_tree : cmd (state D) Tree.tree := fun s =>
  if forallb (fun x => bool_decide (is_Some (blocks s !! snd x))) (inorder (tree (self s)))
  then Ret (tree (self s)) s else Stop UseAfterFree s.

Definition from_tree {A} (x : option A) : cmd (state D) A :=
  match x with Some a => mret a | None => stop_with NullDeref end.

Definition insert_block (a : Z) : cmd (state D) unit :=
  t ← use_tree; b ← deref a; t' ← from_tree (Tree.tree_insert t (number b) a);
  set_self (set_tree t').

Definition remove_block (a : Z) : cmd (state D) unit :=
  t ← use_tree; x ← from_tree (locate t a []); t' ← from_tree (Tree.tree_remove x.1 x.2);
  set_self (set_tree t').

(** [tree_prev (c->tree, b)], with NULL for the end. *)
Definition prev_block (a : Z) : cmd (state D) Z :=
  t ← use_tree;
  if a =? NULL then mret (default NULL (snd <$> tree_prev_null t))
  else x ← from_tree (locate t a []); mret (default NULL (snd <$> Tree.tree_prev x.1 x.2)).

(** ** The functions *)

Definition cdi_cache_create (bs blkpriv_len : Z) (d : D) : state D :=
  State (Cache bs blkpriv_len 256 0 Null NULL NULL (garbage (w32 (bs * READBUF_SZ))) INVBLKNUM 0
           (replicate (Z.to_nat HINTCNT) NULL) 0) ∅ d.

(** Copy the data of a block into the read buffer if the buffer holds it. *)
Definition refresh_read_buffer (b : block) : cmd (state D) unit :=
  c ← gets self;
  if negb (read_buffer_block c =? INVBLKNUM) && (read_buffer_block c <=? number b)
     && (number b <? w64 (read_buffer_block c + read_buffer_cnt c)) then
    let off := (number b - read_buffer_block c) * block_size c in
    if off + block_size c <=? Z.of_nat (length (read_buffer c)) then
      set_self (set_read_buffer (splice (read_buffer c) off (take (Z.to_nat (block_size c)) (data b)))
                  (read_buffer_block c) (read_buffer_cnt c))
    else stop_with OutOfBounds
  else mret tt.

Definition device_write (n count : Z) (bytes : list Z) : cmd (state D) Z := fun s =>
  let '(r, d) := write_block (dev s) n count bytes in Ret r (State (self s) (blocks s) d).

Definition device_read (n count : Z) : cmd (state D) (Z * list Z) := fun s =>
  let '(r, bytes, d) := read_block (dev s) n count in Ret (r, bytes) (State (self s) (blocks s) d).

Definition cache_sync_block (a : Z) : cmd (state D) Z :=
  b ← deref a;
  if dirty b =? 0 then mret 1
  else
    refresh_read_buffer b;;
    r ← device_write (number b) 1 (data b);
    if r =? 0 then mret 0
    else update a (set_dirty 0);; mret 1.

Fixpoint sync_loop (fuel : nat) (a : Z) : cmd (state D) unit :=
  match fuel with
  | O => stop_with Hang
  | S fuel =>
      a' ← prev_block a;
      if a' =? NULL then mret tt else cache_sync_block a';; sync_loop fuel a'
  end.

Definition cdi_cache_sync : cmd (state D) Z :=
  t ← gets (fun s => tree (self s)); sync_loop (S (tree_size t)) NULL;; mret 1.

(** [while (b && b->ref_count) b = b->lru_prev] *)
Fixpoint find_unused (fuel : nat) (a : Z) : cmd (state D) Z :=
  match fuel with
  | O => stop_with Hang
  | S fuel =>
      if a =? NULL then mret NULL
      else b ← deref a; if ref_count b =? 0 then mret a else find_unused fuel (lru_prev b)
  end.

Definition find_replaceable : cmd (state D) Z :=
  s ← gets id;
  a ← find_unused (S (size (blocks s))) (lru_first (self s));
  (if a =? NULL then mret tt
   else b ← deref a; if dirty b =? 0 then mret tt else cdi_cache_sync;; mret tt);;
  mret a.

Fixpoint hint_loop (hs : list Z) (n : Z) : cmd (state D) Z :=
  match hs with
  | [] => mret NULL
  | h :: hs =>
      if h =? NULL then hint_loop hs n
      else b ← deref h; if number b =? n then mret h else hint_loop hs n
  end.

Definition get_hint (n : Z) : cmd (state D) Z := c ← gets self; hint_loop (hints c) n.

Definition put_hint (a : Z) : cmd (state D) unit :=
  set_self (fun c =>
    let p := Z.rem (w8 (prev_hint c + 1)) HINTCNT in
    set_hints (<[Z.to_nat p := a]> (hints c)) p c).

Definition load_block (a : Z) : cmd (state D) Z :=
  b ← deref a;
  c ← gets self;
  ok ← (if (read_buffer_block c =? INVBLKNUM) || (number b <? read_buffer_block c)
           || (w64 (read_buffer_block c + read_buffer_cnt c) <=? number b) then
          x ← device_read (number b) READBUF_SZ;
          set_self (set_read_buffer (splice (read_buffer c) 0 x.2) (number b) (w32 x.1));;
          mret (negb (w32 x.1 =? 0))
        else mret true);
  if ok : bool then
    c ← gets self;
    let off := (number b - read_buffer_block c) * block_size c in
    if off + block_size c <=? Z.of_nat (length (read_buffer c)) then
      update a (set_data (subrange (read_buffer c) off (block_size c)));; mret 1
    else stop_with OutOfBounds
  else mret 0.

(** Take a block out of the list of last use. *)
Definition lru_unlink (a : Z) : cmd (state D) unit :=
  b ← deref a;
  (if lru_next b =? NULL then mret tt else update (lru_next b) (set_lru_prev (lru_prev b)));;
  (if lru_prev b =? NULL then mret tt else update (lru_prev b) (set_lru_next (lru_next b)));;
  c ← gets self;
  if lru_first c =? a then set_self (set_lru_first (lru_prev b)) else mret tt.

(** Put it at the end, the place of the block used last. *)
Definition lru_append (a : Z) : cmd (state D) unit :=
  c ← gets self;
  update a (set_lru_next (lru_last c));;
  update a (set_lru_prev NULL);;
  (if lru_last c =? NULL then set_self (set_lru_first a)
   else update (lru_last c) (set_lru_prev a));;
  set_self (set_lru_last a).

(** The block for a number that is not cached: a new one, or one to replace. *)
Definition new_block (n : Z) : cmd (state D) Z :=
  s ← gets id;
  let a := malloc (dom (blocks s)) in
  modify (fun s => State (self s)
    (<[a := Block n (garbage (block_size (self s))) (garbage (private_len (self s))) 0 0 NULL NULL]>
       (blocks s)) (dev s));;
  insert_block a;;
  set_self (fun c => set_blocks_used (blocks_used c + 1) c);;
  mret a.

Definition replace_block (n : Z) : cmd (state D) Z :=
  a ← find_replaceable;
  if a =? NULL then mret NULL
  else remove_block a;; update a (set_number n);; insert_block a;; mret a.

Definition obtain_block (n noread : Z) : cmd (state D) Z :=
  c ← gets self;
  let in_tree := negb (blocks_used c <? block_count c) in
  a ← (if in_tree then replace_block n else new_block n);
  if a =? NULL then mret NULL
  else
    ok ← (if noread =? 0 then r ← load_block a; mret (negb (r =? 0)) else mret true);
    if ok : bool then mret a
    else
      (if in_tree then remove_block a else mret tt);;
      set_self (fun c => set_blocks_used (w32 (blocks_used c - 1)) c);;
      free a;; mret NULL.

(** A block is handed out. *)
Definition touch_block (a : Z) : cmd (state D) Z :=
  put_hint a;;
  update a (fun b => set_ref_count (w16 (ref_count b + 1)) b);;
  c ← gets self;
  if a =? lru_last c then mret a
  else lru_unlink a;; lru_append a;; mret a.

Definition cdi_cache_block_get (n noread : Z) : cmd (state D) Z :=
  h ← get_hint n;
  f ← (if h =? NULL then t ← use_tree; mret (default NULL (Tree.tree_search t n)) else mret h);
  a ← (if f =? NULL then obtain_block n noread else mret f);
  if a =? NULL then mret NULL else touch_block a.

Definition cdi_cache_block_release (a : Z) : cmd (state D) unit :=
  update a (fun b => set_ref_count (w16 (ref_count b - 1)) b).

Definition cdi_cache_block_dirty (a : Z) : cmd (state D) unit := update a (set_dirty 1).

Fixpoint destroy_loop (fuel : nat) : cmd (state D) unit :=
  match fuel with
  | O => stop_with Hang
  | S fuel =>
      t ← use_tree;
      match tree_next_null t with
      | None => mret tt
      | Some (_, a) => remove_block a;; free a;; destroy_loop fuel
      end
  end.

Definition cdi_cache_destroy : cmd (state D) unit :=
  cdi_cache_sync;; t ← gets (fun s => tree (self s)); destroy_loop (S (tree_size t)).

End code.

(** ** What a device promises

    Blocks below [capacity] can be read and written; a read delivers at least the
    first block asked for; blocks from [capacity] on (with numbers for which the
    position in bytes fits into 64 bits) cannot be read. *)
Class DeviceLaws (D : Type) `{Device D} (bs capacity : Z) := {
  contents : D -> Z -> list Z;
  capacity_small : 0 < bs /\ bs * 4 < 4294967296 /\ capacity < INVBLKNUM - 4;
  contents_length : forall d n, 0 <= n < capacity -> length (contents d n) = Z.to_nat bs;
  read_block_ok : forall d n count, 0 <= n < capacity -> 0 < count <= READBUF_SZ ->
    exists r d', read_block d n count = (r, concat (contents d <$> seqZ n r), d') /\
      0 < r <= count /\ n + r <= capacity /\ forall m, contents d' m = contents d m;
  read_block_fails : forall d n count, capacity <= n < 281474976710656 -> 0 < count <= READBUF_SZ ->
    exists d', read_block d n count = (0, [], d') /\ forall m, contents d' m = contents d m;
  write_block_ok : forall d n bytes, 0 <= n < capacity -> length bytes = Z.to_nat bs ->
    exists r d', write_block d n 1 bytes = (r, d') /\ r <> 0 /\
      forall m, contents d' m = if decide (m = n) then bytes else contents d m;
}.

(** ** Overwriting a part of a list *)

Lemma splice_nil c p : 0 <= p <= Z.of_nat (length c) -> splice c p [] = c.
Proof. intros Hp. unfold splice. simpl. rewrite Nat.add_0_r. apply take_drop. Qed.

Lemma splice_app c p (x y : list Z) : 0 <= p <= Z.of_nat (length c) ->
  splice (splice c p x) (p + Z.of_nat (length x)) y = splice c p (x ++ y).
Proof.
  intros Hp. unfold splice. replace (Z.to_nat (p + Z.of_nat (length x))) with (Z.to_nat p + length x)%nat by lia.
  assert (Ht : length (take (Z.to_nat p) c) = Z.to_nat p) by (rewrite length_take; lia).
  set (h := take (Z.to_nat p) c) in *. rewrite !(assoc_L (++) h).
  assert (Hl : length (h ++ x) = (Z.to_nat p + length x)%nat) by (rewrite length_app; lia).
  rewrite take_app_length' by done. rewrite <- (assoc_L (++) (h ++ x)), <- Nat.add_assoc. f_equal. f_equal.
  rewrite drop_app_ge by lia. rewrite Hl, drop_drop, length_app. f_equal. lia.
Qed.

(** ** Lists of last use *)

(** [seg m older l newer]: the blocks [l], from the oldest to the newest, are
    linked to each other and at the ends to [older] and [newer]. *)
Fixpoint seg (m : gmap Z block) (older : Z) (l : list Z) (newer : Z) : Prop :=
  match l with
  | [] => True
  | a :: l => (exists b, m !! a = Some b /\ lru_next b = older /\ lru_prev b = hd newer l) /\
              seg m a l newer
  end.

Lemma seg_app m x l1 l2 y :
  seg m x (l1 ++ l2) y <-> seg m x l1 (hd y l2) /\ seg m (default x (last l1)) l2 y.
Proof.
  revert x. induction l1 as [|a l1 IH]; intros x; [naive_solver|].
  cbn [app seg]. rewrite IH. rewrite last_cons.
  assert (E : hd y (l1 ++ l2) = hd (hd y l2) l1) by by destruct l1. rewrite E.
  assert (E2 : default x (match last l1 with Some z => Some z | None => Some a end) =
    default a (last l1)) by by destruct (last l1).
  rewrite E2. tauto.
Qed.

(** The links of a list only depend on the link fields of its blocks. *)
Lemma seg_frame m m' x l y :
  (forall a b, a ∈ l -> m !! a = Some b ->
     exists b', m' !! a = Some b' /\ lru_next b' = lru_next b /\ lru_prev b' = lru_prev b) ->
  seg m x l y -> seg m' x l y.
Proof.
  revert x. induction l as [|a l IH]; intros x Hm; [done|]. cbn.
  intros ((b & Hb & <- & <-) & Hs). split; [|apply IH; [set_solver|done]].
  destruct (Hm a b ltac:(set_solver) Hb) as (b' & ? & ? & ?). eauto.
Qed.

Lemma seg_insert_notin m x l y a b : a ∉ l -> seg m x l y -> seg (<[a := b]> m) x l y.
Proof.
  intros Hn. apply seg_frame. intros a' b' Ha' Hb'. exists b'.
  rewrite lookup_insert_ne by set_solver. done.
Qed.

Lemma seg_delete_notin m x l y a : a ∉ l -> seg m x l y -> seg (delete a m) x l y.
Proof.
  intros Hn. apply seg_frame. intros a' b' Ha' Hb'. exists b'.
  rewrite lookup_delete_ne by set_solver. done.
Qed.

(** Relinking the ends. *)
Lemma seg_set_older m x x' a b l y :
  a ∉ l -> m !! a = Some b -> seg m x (a :: l) y -> seg (<[a := set_lru_next x' b]> m) x' (a :: l) y.
Proof.
  intros Hn Hb ((b' & Hb' & Hx & Hy) & Hs). simplify_eq. split.
  - eexists. rewrite lookup_insert_eq. split; [done|]. simpl. auto.
  - by apply seg_insert_notin.
Qed.

Lemma seg_set_newer m x a b l y y' :
  a ∉ l -> m !! a = Some b -> seg m x (l ++ [a]) y -> seg (<[a := set_lru_prev y' b]> m) x (l ++ [a]) y'.
Proof.
  intros Hn Hb Hs. apply seg_app in Hs as (H1 & (b' & Hb' & Hx & Hy) & _). simplify_eq.
  apply seg_app. split; [by apply seg_insert_notin|]. split; [|done].
  eexists. rewrite lookup_insert_eq. split; [done|]. simpl. auto.
Qed.

(** ** The tree of blocks *)

Lemma locate_some t o p t' p' :
  locate t o p = Some (t', p') ->
  exists l k b r, t' = Item l k o b r /\ plug t' p' = plug t p.
Proof.
  revert p. induction t as [|l IHl k o' b r IHr]; intros p; simpl; [done|].
  destruct (Z.eqb_spec o o') as [->|].
  { intros [= <- <-]. eauto 10. }
  destruct (locate l o _) as [[t1 p1]|] eqn:El; intros E; simplify_eq.
  - apply IHl in El as (? & ? & ? & ? & -> & ->). eauto 10.
  - apply IHr in E as (? & ? & ? & ? & -> & ->). eauto 10.
Qed.

Lemma locate_none t o p : locate t o p = None -> o ∉ (inorder t).*2.
Proof.
  revert p. induction t as [|l IHl k o' b r IHr]; intros p; simpl; [set_solver|].
  destruct (Z.eqb_spec o o') as [->|]; [done|].
  destruct (locate l o _) as [x|] eqn:El; [done|]. intros Er.
  apply IHl in El. apply IHr in Er. rewrite fmap_app. set_solver.
Qed.

Lemma locate_ok t k o :
  (k, o) ∈ inorder t -> exists l k' b r p, locate t o [] = Some (Item l k' o b r, p) /\
    plug (Item l k' o b r) p = t.
Proof.
  intros Hin. destruct (locate t o []) as [[t' p']|] eqn:E.
  - apply locate_some in E as (l & k' & b & r & -> & Hp). eauto 10.
  - apply locate_none in E. destruct E. by apply (list_elem_of_fmap_2 snd) in Hin.
Qed.

Lemma tree_size_length t : tree_size t = length (inorder t).
Proof. induction t; simpl; [done|]. rewrite length_app. simpl. lia. Qed.

(** ** The invariant *)

Section proofs.
Context {D : Type} `{DD : Device D} `{MM : Malloc} `{GG : Garbage} {bs capacity : Z} `{LL : !DeviceLaws D bs capacity}.
Implicit Types (s : state D) (X : gset Z).

(** [X] are the blocks whose data the user may have changed without marking them
    yet, or has not filled yet. *)
Definition block_ok (X : gset Z) (d : D) (a : Z) (b : block) : Prop :=
  a <> NULL /\ 0 <= number b < capacity /\ length (data b) = Z.to_nat bs /\
  0 <= ref_count b < 65536 /\ (a ∉ X -> dirty b = 0 -> data b = contents d (number b)).

(** The read buffer holds what is on the device. *)
Definition buffer_ok (c : cache) (d : D) : Prop :=
  Z.of_nat (length (read_buffer c)) = bs * READBUF_SZ /\
  0 <= read_buffer_cnt c <= READBUF_SZ /\
  (read_buffer_block c <> INVBLKNUM -> 0 <= read_buffer_block c < INVBLKNUM - 4) /\
  forall i, read_buffer_block c <> INVBLKNUM -> 0 <= i < read_buffer_cnt c ->
    read_buffer_block c + i < capacity /\
    subrange (read_buffer c) (i * bs) bs = contents d (read_buffer_block c + i).

(** The tree holds the blocks of the heap under their numbers. *)
Definition tree_ok (t : Tree.tree) (m : gmap Z block) : Prop :=
  avl t /\ bst t /\
  forall n a, (n, a) ∈ inorder t <-> exists b, m !! a = Some b /\ number b = n.

Definition hints_ok (c : cache) (m : gmap Z block) : Prop :=
  length (hints c) = Z.to_nat HINTCNT /\ 0 <= prev_hint c < HINTCNT /\
  forall h, h ∈ hints c -> h = NULL \/ is_Some (m !! h).

Record core (X : gset Z) (s : state D) : Prop := {
  core_bs : block_size (self s) = bs;
  core_tree : tree_ok (tree (self s)) (blocks s);
  core_block : forall a b, blocks s !! a = Some b -> block_ok X (dev s) a b;
  core_buffer : buffer_ok (self s) (dev s);
  core_hints : hints_ok (self s) (blocks s);
  core_used : blocks_used (self s) = Z.of_nat (size (blocks s));
  core_count : blocks_used (self s) <= block_count (self s) < 4294967296;
}.

Definition lru_ok (l : list Z) (s : state D) : Prop :=
  seg (blocks s) NULL l NULL /\ NoDup l /\
  lru_first (self s) = hd NULL l /\ lru_last (self s) = default NULL (last l).

(** [l] is the order of last use. *)
Record inv (X : gset Z) (l : list Z) (s : state D) : Prop := {
  inv_core : core X s;
  inv_lru : lru_ok l s;
  inv_dom : forall a, a ∈ l <-> is_Some (blocks s !! a);
  inv_held : forall a b, a ∈ X -> blocks s !! a = Some b -> ref_count b <> 0;
}.

Definition cached (s : state D) (n : Z) : Prop := exists a b, blocks s !! a = Some b /\ number b = n.

(** What the user of the cache sees as block [n]. *)
Definition view (s : state D) (n : Z) : list Z :=
  match Tree.tree_search (tree (self s)) n with
  | Some a => match blocks s !! a with Some b => data b | None => [] end
  | None => contents (dev s) n
  end.

Lemma search_block X s a b :
  core X s -> blocks s !! a = Some b -> Tree.tree_search (tree (self s)) (number b) = Some a.
Proof.
  intros Hc Hb. destruct (core_tree _ _ Hc) as (_ & Hbst & Ht).
  apply tree_search_spec; [done|]. apply Ht. eauto.
Qed.

Lemma search_none X s n :
  core X s -> Tree.tree_search (tree (self s)) n = None <-> ~ cached s n.
Proof.
  intros Hc. split.
  - intros E (a & b & Hb & <-). erewrite search_block in E by done. done.
  - intros Hn. destruct (Tree.tree_search _ n) as [a|] eqn:E; [|done]. destruct Hn.
    destruct (core_tree _ _ Hc) as (_ & Hbst & Ht).
    apply tree_search_spec, Ht in E; [|done]. destruct E as (b & ? & ?). by exists a, b.
Qed.

Lemma view_cached X s a b : core X s -> blocks s !! a = Some b -> view s (number b) = data b.
Proof. intros Hc Hb. unfold view. erewrite search_block by done. by rewrite Hb. Qed.

Lemma view_uncached X s n : core X s -> ~ cached s n -> view s n = contents (dev s) n.
Proof. intros Hc Hn. unfold view. by rewrite (proj2 (search_none X s n Hc)). Qed.

Lemma number_inj X s a b a' b' :
  core X s -> blocks s !! a = Some b -> blocks s !! a' = Some b' -> number b = number b' -> a = a'.
Proof.
  intros Hc Hb Hb' E. pose proof (search_block _ _ _ _ Hc Hb) as E1.
  rewrite E, (search_block _ _ _ _ Hc Hb') in E1. congruence.
Qed.

(** ** Commands on the heap *)

Lemma deref_ok s a b : a <> NULL -> blocks s !! a = Some b -> deref a s = Ret b s.
Proof. intros Ha Hb. unfold deref. rewrite (proj2 (Z.eqb_neq a NULL)) by done. by rewrite Hb. Qed.

Lemma update_ok s a b f : a <> NULL -> blocks s !! a = Some b ->
  update a f s = Ret tt (State (self s) (<[a := f b]> (blocks s)) (dev s)).
Proof. intros Ha Hb. unfold update. by rewrite (bind_Ret _ _ _ _ _ (deref_ok s a b Ha Hb)). Qed.

Lemma free_ok s a b : a <> NULL -> blocks s !! a = Some b ->
  free a s = Ret tt (State (self s) (delete a (blocks s)) (dev s)).
Proof. intros Ha Hb. unfold free. by rewrite (bind_Ret _ _ _ _ _ (deref_ok s a b Ha Hb)). Qed.

Lemma use_tree_ok s :
  (forall n a, (n, a) ∈ inorder (tree (self s)) -> is_Some (blocks s !! a)) ->
  use_tree s = Ret (tree (self s)) s.
Proof.
  intros Hl. unfold use_tree. rewrite (proj2 (forallb_forall _ _)); [done|].
  intros [n a] Hin. apply bool_decide_eq_true. apply (Hl n). by apply list_elem_of_In.
Qed.

Lemma tree_ok_live t m n a : tree_ok t m -> (n, a) ∈ inorder t -> is_Some (m !! a).
Proof. intros (_ & _ & Ht) Hin. apply Ht in Hin as (b & -> & _). eauto. Qed.

(** Adding a block to the tree, taking one out. *)
Lemma insert_block_ok s a b :
  avl (tree (self s)) -> bst (tree (self s)) -> a <> NULL -> blocks s !! a = Some b ->
  (forall n a', (n, a') ∈ inorder (tree (self s)) <->
     exists b', blocks s !! a' = Some b' /\ number b' = n /\ a' <> a) ->
  (forall a' b', blocks s !! a' = Some b' -> number b' = number b -> a' = a) ->
  exists t', insert_block a s = Ret tt (State (set_tree t' (self s)) (blocks s) (dev s)) /\
    tree_ok t' (blocks s).
Proof.
  intros Ha Hb Hn Hbl Ht Hu. destruct (tree_insert_spec _ (number b) a Ha Hb)
    as (t' & E & Ha' & Hb' & Hx).
  exists t'. unfold insert_block. rewrite (bind_Ret _ _ _ _ _ (use_tree_ok s ltac:(naive_solver))).
  rewrite (bind_Ret _ _ _ _ _ (deref_ok s a b Hn Hbl)), E. split; [done|].
  split_and!; auto. intros n a'. rewrite Hx, Ht. split.
  - naive_solver.
  - intros (b' & Hb1 & Hb2). destruct (decide (a' = a)) as [->|]; [|naive_solver].
    right. simplify_eq. split; [done|]. intros (x & Hx1 & Hx2)%list_elem_of_fmap.
    destruct x as [n x]. apply Ht in Hx2 as (b' & ? & ? & ?). simpl in Hx1. subst n.
    destruct (Hu x b'); auto.
Qed.

Lemma remove_block_ok s a b :
  tree_ok (tree (self s)) (blocks s) -> blocks s !! a = Some b ->
  exists t', remove_block a s = Ret tt (State (set_tree t' (self s)) (blocks s) (dev s)) /\
    avl t' /\ bst t' /\
    (forall n a', (n, a') ∈ inorder t' <->
       exists b', blocks s !! a' = Some b' /\ number b' = n /\ a' <> a).
Proof.
  intros Hok Hb. pose proof Hok as (Ha & Hbst & Ht).
  assert (Hin : (number b, a) ∈ inorder (tree (self s))) by (apply Ht; eauto).
  destruct (locate_ok _ _ _ Hin) as (l & k & ba & r & p & El & Hp).
  assert (k = number b) as ->.
  { assert (Hin' : (k, a) ∈ inorder (tree (self s))).
    { rewrite <- Hp, inorder_plug. simpl. set_solver. }
    apply Ht in Hin' as (b' & ? & ?). congruence. }
  rewrite <- Hp in Ha, Hbst. destruct (tree_remove_elems _ _ _ _ _ _ Ha Hbst) as (t' & E & Ha' & Hb' & Hx).
  rewrite Hp in Hx. exists t'. unfold remove_block.
  rewrite (bind_Ret _ _ _ _ _ (use_tree_ok s (fun n x => tree_ok_live _ _ n x Hok))), El.
  cbn [from_tree fst snd]. rewrite bind_ret. cbn [fst snd]. rewrite E. split; [done|].
  split_and!; auto. intros n a'. rewrite Hx, Ht. cbn. split.
  - intros ((b' & ? & ?) & ?). exists b'. split_and!; auto. naive_solver.
  - intros (b' & ? & ? & ?). split; [eauto|]. intros ->.
    assert ((number b, a') ∈ inorder (tree (self s))) by (apply Ht; eauto).
    rewrite Hp in Hbst. match goal with H : a' <> a |- _ => apply H end. eauto using bst_unique.
Qed.

(** ** Writing back *)

(** What [cdi_cache_sync] may change: the read buffer, the marks, and on the device
    the blocks that are cached. *)
Definition synced (s s' : state D) : Prop :=
  (exists buf, self s' = set_read_buffer buf (read_buffer_block (self s)) (read_buffer_cnt (self s)) (self s)) /\
  (forall a, blocks s' !! a = blocks s !! a \/
     exists b, blocks s !! a = Some b /\ blocks s' !! a = Some (set_dirty 0 b)) /\
  (forall n, ~ cached s n -> contents (dev s') n = contents (dev s) n).

Lemma synced_refl s : synced s s.
Proof. split_and!; eauto. exists (read_buffer (self s)). by destruct (self s). Qed.

Lemma synced_lookup s s' a b : synced s s' -> blocks s !! a = Some b ->
  blocks s' !! a = Some b \/ blocks s' !! a = Some (set_dirty 0 b).
Proof. intros (_ & Hb & _) E. destruct (Hb a) as [->|(b' & ? & ->)]; naive_solver. Qed.

Lemma synced_lookup_inv s s' a b' : synced s s' -> blocks s' !! a = Some b' ->
  exists b, blocks s !! a = Some b /\ (b' = b \/ b' = set_dirty 0 b).
Proof. intros (_ & Hb & _) E. destruct (Hb a) as [E'|(b & ? & E')]; rewrite E in E'; naive_solver. Qed.

Lemma synced_cached s s' n : synced s s' -> cached s' n <-> cached s n.
Proof.
  intros Hs. split.
  - intros (a & b' & Hb & <-). apply (synced_lookup_inv _ _ _ _ Hs) in Hb as (b & ? & [->| ->]); by exists a, b.
  - intros (a & b & Hb & <-). apply (synced_lookup _ _ _ _ Hs) in Hb as [?|?]; [by exists a, b|].
    by exists a, (set_dirty 0 b).
Qed.

Lemma synced_trans s1 s2 s3 : synced s1 s2 -> synced s2 s3 -> synced s1 s3.
Proof.
  intros H1 H2. pose proof H1 as ((b1 & E1) & _ & Hc1). pose proof H2 as ((b2 & E2) & _ & Hc2).
  split_and!.
  - exists b2. rewrite E2, E1. done.
  - intros a. destruct (blocks s3 !! a) as [b|] eqn:E.
    + apply (synced_lookup_inv _ _ _ _ H2) in E as Hx. destruct Hx as (b' & Hb' & Hx).
      apply (synced_lookup_inv _ _ _ _ H1) in Hb' as (b0 & -> & Hy).
      destruct Hx as [->| ->], Hy as [->| ->]; eauto.
    + destruct (blocks s1 !! a) eqn:E1'; [|auto].
      apply (synced_lookup _ _ _ _ H1) in E1' as [E1'|E1'];
      apply (synced_lookup _ _ _ _ H2) in E1' as [E1'|E1']; congruence.
  - intros n Hn. rewrite Hc2, Hc1; auto. by rewrite (synced_cached _ _ _ H1).
Qed.

Lemma synced_view X X' s s' n : core X s -> core X' s' -> synced s s' -> view s' n = view s n.
Proof.
  intros Hc Hc' Hs. destruct (Tree.tree_search (tree (self s)) n) as [a|] eqn:E.
  - destruct (core_tree _ _ Hc) as (_ & Hbst & Ht). apply tree_search_spec, Ht in E; [|done].
    destruct E as (b & Hb & <-). rewrite (view_cached _ _ _ _ Hc Hb).
    destruct (synced_lookup _ _ _ _ Hs Hb) as [Hb'|Hb'];
      [exact (view_cached _ _ _ _ Hc' Hb')|exact (view_cached _ _ _ _ Hc' Hb')].
  - apply (search_none _ _ _ Hc) in E. rewrite (view_uncached _ _ _ Hc E).
    destruct Hs as (Hs1 & Hs2 & Hs3). rewrite (view_uncached X'); [auto|done|].
    by rewrite (synced_cached s s').
Qed.

(** Bytes of one block inside the buffer. *)
Lemma subrange_splice_same (l : list Z) off bytes :
  0 <= off -> off + Z.of_nat (length bytes) <= Z.of_nat (length l) ->
  subrange (splice l off bytes) off (Z.of_nat (length bytes)) = bytes.
Proof.
  intros H1 H2. unfold subrange, splice. rewrite drop_app_length' by (rewrite length_take; lia).
  by rewrite take_app_length' by lia.
Qed.

Lemma subrange_splice_other (l : list Z) off bytes off' len :
  0 <= off -> 0 <= off' -> 0 <= len -> off + Z.of_nat (length bytes) <= Z.of_nat (length l) ->
  off' + len <= off \/ off + Z.of_nat (length bytes) <= off' ->
  subrange (splice l off bytes) off' len = subrange l off' len.
Proof.
  intros ???? Hd. unfold subrange, splice. apply list_eq. intros i.
  destruct (decide (i < Z.to_nat len)%nat); [|by rewrite !lookup_take_ge by lia].
  rewrite !lookup_take_lt by lia. rewrite !lookup_drop. destruct Hd.
  - rewrite lookup_app_l by (rewrite length_take; lia). by rewrite lookup_take_lt by lia.
  - rewrite lookup_app_r by (rewrite length_take; lia). rewrite length_take.
    rewrite lookup_app_r by lia. rewrite lookup_drop. f_equal. lia.
Qed.

Lemma length_splice (l : list Z) off bytes :
  0 <= off -> off + Z.of_nat (length bytes) <= Z.of_nat (length l) ->
  length (splice l off bytes) = length l.
Proof. intros. unfold splice. rewrite !length_app, length_take, length_drop. lia. Qed.

Lemma buffer_block_range c d n : buffer_ok c d -> 0 <= n < capacity ->
  negb (read_buffer_block c =? INVBLKNUM) && (read_buffer_block c <=? n) &&
    (n <? w64 (read_buffer_block c + read_buffer_cnt c)) = true <->
  read_buffer_block c <> INVBLKNUM /\ 0 <= n - read_buffer_block c < read_buffer_cnt c.
Proof.
  intros (_ & Hc & Hr & _) Hn. rewrite !andb_true_iff, negb_true_iff, Z.eqb_neq, Z.leb_le, Z.ltb_lt.
  destruct (decide (read_buffer_block c = INVBLKNUM)); [naive_solver|].
  unfold w64, INVBLKNUM, READBUF_SZ in *. rewrite Z.mod_small by lia. naive_solver lia.
Qed.

(** The buffer takes over the data that goes to the device. *)
Lemma refresh_ok X s a b d' :
  core X s -> blocks s !! a = Some b ->
  (forall m, contents d' m = if decide (m = number b) then data b else contents (dev s) m) ->
  exists buf, let c' := set_read_buffer buf (read_buffer_block (self s)) (read_buffer_cnt (self s)) (self s) in
    refresh_read_buffer b s = Ret tt (State c' (blocks s) (dev s)) /\ buffer_ok c' d'.
Proof.
  intros Hc Hb Hd. destruct (core_block _ _ Hc _ _ Hb) as (Ha & Hn & Hl & _).
  pose proof (core_buffer _ _ Hc) as Hbuf. pose proof (core_bs _ _ Hc) as Hbs.
  pose proof (buffer_block_range _ _ (number b) Hbuf Hn) as Hr.
  pose proof Hbuf as (Hlen & Hcnt & Hrb & Hs). pose proof capacity_small as (Hbs0 & _ & Hcap).
  unfold refresh_read_buffer. rewrite bind_gets, Hbs.
  destruct (_ && _ && _) eqn:E.
  - destruct (proj1 Hr eq_refl) as (Hrb0 & Hi). clear Hr E. unfold READBUF_SZ in *.
    rewrite (proj2 (Z.leb_le _ _)) by nia. rewrite take_ge by lia.
    set (off := (number b - read_buffer_block (self s)) * bs).
    exists (splice (read_buffer (self s)) off (data b)). split; [done|].
    assert (0 <= off /\ off + Z.of_nat (length (data b)) <= Z.of_nat (length (read_buffer (self s)))).
    { unfold off. rewrite Hl, Hlen. nia. }
    split; [simpl; rewrite length_splice by tauto; unfold READBUF_SZ; lia|]. split; [done|]. split; [done|].
    simpl.
    intros i Hi0 Hir. destruct (Hs i Hi0 Hir) as (Hcp & Hsub). split; [done|]. rewrite Hd.
    destruct (decide (_ = _)) as [Heq|Hne].
    + replace (i * bs) with off by (unfold off; nia).
      rewrite <- (Z2Nat.id bs) at 1 by lia. rewrite <- Hl. apply subrange_splice_same; lia.
    + assert (i < number b - read_buffer_block (self s) \/ number b - read_buffer_block (self s) < i) by lia.
      rewrite subrange_splice_other; [done|tauto|nia|lia|tauto|].
      unfold off. rewrite Hl, Z2Nat.id by lia. nia.
  - exists (read_buffer (self s)). split; [by destruct s as [[] ? ?]|].
    do 3 (split; [done|]). simpl. intros i Hi0 Hir. destruct (Hs i Hi0 Hir) as (? & ->). split; [done|].
    rewrite Hd. destruct (decide (_ = _)) as [Heq|Hne]; [|done].
    destruct Hr as [_ Hr]. discriminate Hr. split; [done|lia].
Qed.

(** The invariant after a block went to the device. *)
Lemma core_sync X s buf a b d' :
  core X s -> blocks s !! a = Some b ->
  (forall m, contents d' m = if decide (m = number b) then data b else contents (dev s) m) ->
  buffer_ok (set_read_buffer buf (read_buffer_block (self s)) (read_buffer_cnt (self s)) (self s)) d' ->
  core X (State (set_read_buffer buf (read_buffer_block (self s)) (read_buffer_cnt (self s)) (self s))
            (<[a := set_dirty 0 b]> (blocks s)) d').
Proof.
  intros Hc Hb Hd Hbuf. pose proof (core_tree _ _ Hc) as (Ht1 & Ht2 & Ht3). split; simpl.
  - apply Hc.
  - split_and!; auto. intros n a'. rewrite Ht3. destruct (decide (a' = a)) as [->|].
    + rewrite lookup_insert_eq, Hb. naive_solver.
    + by rewrite lookup_insert_ne.
  - intros a' b' Hb'. destruct (decide (a' = a)) as [->|].
    + rewrite lookup_insert_eq in Hb'. simplify_eq.
      destruct (core_block _ _ Hc _ _ Hb) as (? & ? & ? & ? & ?). split_and!; auto; simpl; try lia.
      intros _ _. rewrite Hd. by rewrite decide_True.
    + rewrite lookup_insert_ne in Hb' by done.
      destruct (core_block _ _ Hc _ _ Hb') as (? & ? & ? & ? & ?). split_and!; auto; simpl; try lia.
      intros Hx Hdirty. rewrite Hd. rewrite decide_False; [auto|]. intros E.
      by assert (a' = a) by eauto using number_inj.
  - done.
  - destruct (core_hints _ _ Hc) as (? & ? & Hh). do 2 (split; [done|]).
    intros h Hin. simpl in Hin. destruct (Hh h Hin) as [->|Hs]; [auto|]. right.
    destruct (decide (h = a)) as [->|]; [rewrite lookup_insert_eq; eauto|by rewrite lookup_insert_ne].
  - rewrite (core_used _ _ Hc). rewrite map_size_insert_Some by eauto. done.
  - apply Hc.
Qed.

Lemma cache_sync_block_ok X s a b :
  core X s -> blocks s !! a = Some b ->
  exists s', cache_sync_block a s = Ret 1 s' /\ core X s' /\ synced s s' /\
    blocks s' = <[a := set_dirty 0 b]> (blocks s).
Proof.
  intros Hc Hb. destruct (core_block _ _ Hc _ _ Hb) as (Ha & Hn & Hl & Hrc & Hco).
  unfold cache_sync_block. rewrite (bind_Ret _ _ _ _ _ (deref_ok s a b Ha Hb)).
  destruct (Z.eqb_spec (dirty b) 0) as [Hd|Hd].
  { exists s. split_and!; auto using synced_refl. rewrite insert_id; [done|].
    rewrite Hb. destruct b; simpl in *. by subst. }
  destruct (write_block_ok (dev s) (number b) (data b) Hn Hl) as (r & d' & Ew & Hr & Hd').
  destruct (refresh_ok X s a b d' Hc Hb Hd') as (buf & Er & Hbuf). simpl in Er.
  rewrite (bind_Ret _ _ _ _ _ Er). unfold device_write at 1. unfold mbind, cmd_bind. simpl. rewrite Ew.
  rewrite (proj2 (Z.eqb_neq r 0)) by done. simpl.
  erewrite update_ok by done. eexists. split; [done|]. simpl. split; [by eapply core_sync|]. split; [|done].
  split_and!; simpl.
  - eauto.
  - intros a'. destruct (decide (a' = a)) as [->|].
    + right. exists b. by rewrite lookup_insert_eq.
    + left. by rewrite lookup_insert_ne.
  - intros n Hnc. rewrite Hd', decide_False; [done|]. intros ->. apply Hnc. by exists a, b.
Qed.

(** [tree_prev] walks the blocks downwards. *)
Lemma split_unique (xs ys xs' ys' : list (Z * Z)) x :
  NoDup (xs ++ x :: ys) -> (xs ++ x :: ys) = (xs' ++ x :: ys') -> xs = xs'.
Proof.
  revert xs'. induction xs as [|z xs IH]; intros [|z' xs'] Hnd E; simpl in *; simplify_eq; auto.
  - apply NoDup_cons in Hnd as (Hn & _). set_solver.
  - apply NoDup_cons in Hnd as (Hn & _). set_solver.
  - f_equal. apply NoDup_cons in Hnd as (_ & Hnd). eauto.
Qed.

Lemma bst_nodup t : bst t -> NoDup (inorder t).
Proof.
  unfold bst, keys. induction (inorder t) as [|x xs IH]; [constructor|]. simpl.
  intros (Hs & Hf)%StronglySorted_inv. constructor; [|auto]. intros Hin.
  rewrite Forall_forall in Hf. apply (list_elem_of_fmap_2 fst) in Hin. specialize (Hf _ Hin). lia.
Qed.

Lemma prev_block_ok s n a before after :
  tree_ok (tree (self s)) (blocks s) -> a <> NULL ->
  inorder (tree (self s)) = (before ++ (n, a) :: after) ->
  prev_block a s = Ret (default NULL (snd <$> last before)) s.
Proof.
  intros Hok Ha Hi. pose proof Hok as (_ & Hbst & Ht).
  assert (Hin : (n, a) ∈ inorder (tree (self s))) by (rewrite Hi; set_solver).
  destruct (locate_ok _ _ _ Hin) as (l & k & ba & r & p & El & Hp).
  assert (k = n) as ->.
  { assert (Hin' : (k, a) ∈ inorder (tree (self s))).
    { rewrite <- Hp, inorder_plug. simpl. set_solver. }
    apply Ht in Hin' as (b & ? & ?). apply Ht in Hin as (b' & ? & ?). congruence. }
  unfold prev_block.
  rewrite (bind_Ret _ _ _ _ _ (use_tree_ok s (fun n x => tree_ok_live _ _ n x Hok))).
  rewrite (proj2 (Z.eqb_neq a NULL)) by done. rewrite El. simpl. rewrite bind_ret. cbn [fst snd].
  destruct (tree_neighbours l n a ba r p _ _ eq_refl eq_refl) as (Ei & _ & Ep).
  rewrite Ep. rewrite Hp, Hi in Ei. apply bst_nodup in Hbst. rewrite Hi in Hbst.
  by apply split_unique in Ei as ->.
Qed.

Lemma prev_null_ok s :
  tree_ok (tree (self s)) (blocks s) ->
  prev_block NULL s = Ret (default NULL (snd <$> last (inorder (tree (self s))))) s.
Proof.
  intros Hok. unfold prev_block.
  rewrite (bind_Ret _ _ _ _ _ (use_tree_ok s (fun n x => tree_ok_live _ _ n x Hok))).
  unfold tree_prev_null. by rewrite rightmost_last.
Qed.

Lemma synced_tree s s' : synced s s' -> tree (self s') = tree (self s).
Proof. intros ((buf & ->) & _). done. Qed.

Definition clean (s : state D) (a : Z) : Prop := forall b, blocks s !! a = Some b -> dirty b = 0.

Lemma synced_clean s s' a : synced s s' -> clean s a -> clean s' a.
Proof.
  intros Hs Hc b' Hb'. apply (synced_lookup_inv _ _ _ _ Hs) in Hb' as (b & Hb & [->| ->]); [eauto|done].
Qed.

Lemma sync_loop_ok X fuel s before after a :
  core X s -> inorder (tree (self s)) = (before ++ after) ->
  prev_block a s = Ret (default NULL (snd <$> last before)) s -> (length before < fuel)%nat ->
  exists s', sync_loop fuel a s = Ret tt s' /\ core X s' /\ synced s s' /\
    forall a', a' ∈ before.*2 -> clean s' a'.
Proof.
  revert s before after a. induction fuel as [|fuel IH]; intros s before after a Hc Hi Hp Hf; [lia|].
  cbn [sync_loop]. rewrite (bind_Ret _ _ _ _ _ Hp).
  destruct before as [|[n a'] before _] using rev_ind.
  { exists s. split; [done|]. split; [done|]. split; [apply synced_refl|]. set_solver. }
  rewrite last_snoc. simpl.
  assert (Hin : (n, a') ∈ inorder (tree (self s))) by (rewrite Hi; set_solver).
  destruct (core_tree _ _ Hc) as (_ & _ & Ht). apply Ht in Hin as (b & Hb & Hn).
  destruct (core_block _ _ Hc _ _ Hb) as (Hnull & _).
  rewrite (proj2 (Z.eqb_neq a' NULL)) by done.
  destruct (cache_sync_block_ok X s a' b Hc Hb) as (s1 & E1 & Hc1 & Hs1 & Hb1).
  rewrite (bind_Ret _ _ _ _ _ E1). rewrite length_app in Hf. simpl in Hf.
  pose proof (synced_tree _ _ Hs1) as Et. rewrite <- (assoc_L (++)) in Hi. simpl in Hi.
  destruct (IH s1 before ((n, a') :: after) a') as (s2 & E2 & Hc2 & Hs2 & Hcl); auto.
  - by rewrite Et.
  - eapply prev_block_ok; [apply Hc1|done|]. by rewrite Et.
  - lia.
  - exists s2. split_and!; eauto using synced_trans. intros x.
    rewrite fmap_app, elem_of_app. intros [Hx|Hx]; [auto|]. apply list_elem_of_singleton in Hx as ->.
    simpl. apply (synced_clean s1); [done|]. intros b'. rewrite Hb1, lookup_insert_eq. by intros [= <-].
Qed.

Lemma cdi_cache_sync_ok X s :
  core X s -> exists s', cdi_cache_sync s = Ret 1 s' /\ core X s' /\ synced s s' /\
    forall a, clean s' a.
Proof.
  intros Hc. unfold cdi_cache_sync. rewrite bind_gets.
  destruct (sync_loop_ok X (S (tree_size (tree (self s)))) s (inorder (tree (self s))) [] NULL)
    as (s' & E & Hc' & Hs & Hcl); auto.
  - by rewrite app_nil_r.
  - apply prev_null_ok, Hc.
  - rewrite tree_size_length. lia.
  - rewrite (bind_Ret _ _ _ _ _ E). exists s'. split_and!; auto. intros a b Hb.
    apply (synced_lookup_inv _ _ _ _ Hs) in Hb as Hx. destruct Hx as (b0 & Hb0 & _).
    eapply Hcl; [|done]. destruct (core_tree _ _ Hc) as (_ & _ & Ht).
    apply (list_elem_of_fmap_2 snd (inorder (tree (self s))) (number b0, a)). apply Ht. eauto.
Qed.

(** Writing back clean blocks does nothing. *)
Lemma sync_loop_clean X fuel s before after a :
  core X s -> (forall x, clean s x) -> inorder (tree (self s)) = (before ++ after) ->
  prev_block a s = Ret (default NULL (snd <$> last before)) s -> (length before < fuel)%nat ->
  sync_loop fuel a s = Ret tt s.
Proof.
  intros Hc Hcl. revert before after a. induction fuel as [|fuel IH]; intros before after a Hi Hp Hf; [lia|].
  cbn [sync_loop]. rewrite (bind_Ret _ _ _ _ _ Hp).
  destruct before as [|[n a'] before _] using rev_ind; [done|]. rewrite last_snoc. simpl.
  assert (Hin : (n, a') ∈ inorder (tree (self s))) by (rewrite Hi; set_solver).
  destruct (core_tree _ _ Hc) as (_ & _ & Ht). apply Ht in Hin as (b & Hb & Hn).
  destruct (core_block _ _ Hc _ _ Hb) as (Hnull & _).
  rewrite (proj2 (Z.eqb_neq a' NULL)) by done.
  assert (E : cache_sync_block a' s = Ret 1 s).
  { unfold cache_sync_block. rewrite (bind_Ret _ _ _ _ _ (deref_ok s a' b Hnull Hb)). by rewrite (Hcl a' b Hb). }
  rewrite (bind_Ret _ _ _ _ _ E). rewrite length_app in Hf. simpl in Hf.
  rewrite <- (assoc_L (++)) in Hi. apply (IH before ((n, a') :: after)); [done| |lia].
  by eapply prev_block_ok; [apply Hc|..].
Qed.

Lemma cdi_cache_sync_clean X s : core X s -> (forall x, clean s x) -> cdi_cache_sync s = Ret 1 s.
Proof.
  intros Hc Hcl. unfold cdi_cache_sync. rewrite bind_gets.
  rewrite (bind_Ret _ _ _ _ _ (sync_loop_clean X (S (tree_size (tree (self s)))) s (inorder (tree (self s))) [] NULL Hc Hcl
    ltac:(by rewrite app_nil_r) (prev_null_ok s (core_tree _ _ Hc))
    ltac:(rewrite tree_size_length; lia))). done.
Qed.

(** ** Replacing blocks *)

(** The block to replace: the one unused for the longest time that nobody holds. *)
Fixpoint victim (m : gmap Z block) (l : list Z) : Z :=
  match l with
  | [] => NULL
  | a :: l =>
      match m !! a with
      | Some b => if ref_count b =? 0 then a else victim m l
      | None => NULL
      end
  end.

Lemma find_unused_ok s x l fuel :
  seg (blocks s) x l NULL -> Forall (fun a => a <> NULL) l -> (length l < fuel)%nat ->
  find_unused fuel (hd NULL l) s = Ret (victim (blocks s) l) s.
Proof.
  revert x fuel. induction l as [|a l IH]; intros x [|fuel] Hs Hn Hf; simpl in Hf; try lia; [done|].
  apply Forall_cons in Hn as (Ha & Hn). destruct Hs as ((b & Hb & _ & Hp) & Hs).
  cbn [find_unused hd victim]. rewrite (proj2 (Z.eqb_neq a NULL)) by done.
  rewrite (bind_Ret _ _ _ _ _ (deref_ok s a b Ha Hb)), Hb.
  destruct (ref_count b =? 0); [done|]. rewrite Hp. apply (IH a); [done|done|lia].
Qed.

Lemma inv_length X l s : inv X l s -> (length l <= size (blocks s))%nat.
Proof.
  intros Hi. destruct (inv_lru _ _ _ Hi) as (_ & Hnd & _).
  transitivity (size (list_to_set l : gset Z)); [rewrite size_list_to_set by done; done|].
  rewrite <- size_dom. apply subseteq_size. intros a Ha. apply elem_of_dom, (inv_dom _ _ _ Hi).
  by apply elem_of_list_to_set in Ha.
Qed.

Lemma inv_nonnull X l s : inv X l s -> Forall (fun a => a <> NULL) l.
Proof.
  intros Hi. apply Forall_forall. intros a Ha. apply (inv_dom _ _ _ Hi) in Ha as (b & Hb).
  by destruct (core_block _ _ (inv_core _ _ _ Hi) _ _ Hb).
Qed.

Lemma victim_in m l : victim m l <> NULL ->
  victim m l ∈ l /\ exists b, m !! victim m l = Some b /\ ref_count b = 0.
Proof.
  induction l as [|a l IH]; simpl; [done|]. destruct (m !! a) as [b|] eqn:E; [|done].
  destruct (Z.eqb_spec (ref_count b) 0); [intros; split; [set_solver|eauto]|].
  intros (? & ?)%IH. split; [set_solver|done].
Qed.

Lemma synced_lru l s s' : synced s s' -> lru_ok l s -> lru_ok l s'.
Proof.
  intros Hs (H1 & H2 & H3 & H4). pose proof Hs as ((buf & E) & _). split_and!; auto.
  - eapply seg_frame; [|exact H1]. intros a b _ Hb.
    destruct (synced_lookup _ _ _ _ Hs Hb); eauto.
  - by rewrite E.
  - by rewrite E.
Qed.

Lemma synced_inv X l s s' : inv X l s -> synced s s' -> core X s' -> inv X l s'.
Proof.
  intros Hi Hs Hc. split; [done|eapply synced_lru; [done|apply Hi]| |].
  - intros a. rewrite (inv_dom _ _ _ Hi). split.
    + intros (b & Hb). destruct (synced_lookup _ _ _ _ Hs Hb); eauto.
    + intros (b & Hb). destruct (synced_lookup_inv _ _ _ _ Hs Hb) as (? & ? & _); eauto.
  - intros a b' Ha Hb'. destruct (synced_lookup_inv _ _ _ _ Hs Hb') as (b & Hb & [->| ->]);
      exact (inv_held _ _ _ Hi a b Ha Hb).
Qed.

Lemma find_replaceable_ok X l s :
  inv X l s ->
  exists s', find_replaceable s = Ret (victim (blocks s) l) s' /\ inv X l s' /\ synced s s' /\
    (victim (blocks s) l = NULL -> s' = s) /\ clean s' (victim (blocks s) l).
Proof.
  intros Hi. pose proof (inv_core _ _ _ Hi) as Hc. destruct (inv_lru _ _ _ Hi) as (H1 & H2 & H3 & H4).
  unfold find_replaceable. rewrite bind_gets. cbn [id].
  rewrite H3. rewrite (bind_Ret _ _ _ _ _ (find_unused_ok s NULL l _ H1 (inv_nonnull _ _ _ Hi)
    (proj2 (Nat.lt_succ_r _ _) (inv_length _ _ _ Hi)))).
  set (v := victim (blocks s) l). destruct (Z.eqb_spec v NULL) as [Hv|Hv].
  { exists s. rewrite bind_ret. split_and!; auto using synced_refl. intros b Hb.
    destruct (core_block _ _ Hc _ _ Hb) as (? & _). done. }
  destruct (victim_in (blocks s) l Hv) as (Hvl & b & Hb & Hr). fold v in Hvl, Hb.
  rewrite bind_assoc. rewrite (bind_Ret _ _ _ _ _ (deref_ok s v b Hv Hb)).
  destruct (Z.eqb_spec (dirty b) 0) as [Hd|Hd].
  - exists s. rewrite bind_ret. split_and!; auto using synced_refl. intros b' Hb'. congruence.
  - destruct (cdi_cache_sync_ok X s Hc) as (s' & E & Hc' & Hs & Hcl).
    rewrite bind_assoc, (bind_Ret _ _ _ _ _ E). exists s'. split_and!; eauto using synced_inv; done.
Qed.

(** What holds when a block has been found for the number [n], before its data
    is read. *)
Record obtained (X : gset Z) (l : list Z) (s : state D) (n a : Z) (s' : state D) : Prop := {
  ob_core : core (X ∪ {[a]}) s';
  ob_lru : lru_ok l s';
  ob_dom : forall x, is_Some (blocks s' !! x) <-> x ∈ l \/ x = a;
  ob_block : exists b, blocks s' !! a = Some b /\ number b = n /\ ref_count b = 0 /\ dirty b = 0 /\
    (a ∉ l -> lru_next b = NULL /\ lru_prev b = NULL);
  ob_others : forall x b, x <> a -> blocks s' !! x = Some b ->
    exists b0, blocks s !! x = Some b0 /\ ref_count b = ref_count b0 /\ (dirty b0 = 0 -> dirty b = 0);
  ob_view : forall m, m <> n -> view s' m = view s m;
  ob_device : contents (dev s') n = contents (dev s) n;
}.

Lemma block_ok_mono X X' d a b : X ⊆ X' -> block_ok X d a b -> block_ok X' d a b.
Proof. intros HX (? & ? & ? & ? & ?). split_and!; auto; try lia. Qed.

Lemma hints_ok_mono c c' m m' :
  hints c' = hints c -> prev_hint c' = prev_hint c ->
  (forall a, is_Some (m !! a) -> is_Some (m' !! a)) -> hints_ok c m -> hints_ok c' m'.
Proof. intros E1 E2 Hm (H1 & H2 & H3). unfold hints_ok. rewrite E1, E2. naive_solver. Qed.

Lemma is_Some_insert (m : gmap Z block) a b x : is_Some (<[a := b]> m !! x) <-> is_Some (m !! x) \/ x = a.
Proof.
  destruct (decide (x = a)) as [->|]; [rewrite lookup_insert_eq|rewrite lookup_insert_ne by done];
    naive_solver eauto.
Qed.

Lemma fresh_block (m : gmap Z block) : malloc (dom m) <> NULL /\ m !! malloc (dom m) = None.
Proof.
  split; [apply malloc_nonnull|]. apply not_elem_of_dom. apply malloc_fresh.
Qed.

Lemma new_block_run X s n :
  core X s -> ~ cached s n ->
  let a := malloc (dom (blocks s)) in
  let m := <[a := Block n (garbage bs) (garbage (private_len (self s))) 0 0 NULL NULL]> (blocks s) in
  exists t', new_block n s =
      Ret a (State (set_blocks_used (blocks_used (self s) + 1) (set_tree t' (self s))) m (dev s)) /\
    tree_ok t' m.
Proof.
  intros Hc Hn a m. destruct (fresh_block (blocks s)) as (Ha & Hfresh). fold a in Ha, Hfresh.
  set (s1 := State (self s) m (dev s)). destruct (core_tree _ _ Hc) as (Ht1 & Ht2 & Ht3).
  destruct (insert_block_ok s1 a (Block n (garbage bs) (garbage (private_len (self s))) 0 0 NULL NULL) Ht1 Ht2 Ha)
    as (t' & Et & Htok).
  { apply lookup_insert_eq. }
  { unfold s1, m. simpl. intros k a'. rewrite Ht3. destruct (decide (a' = a)) as [->|].
    - rewrite Hfresh. naive_solver.
    - rewrite lookup_insert_ne by done. naive_solver. }
  { unfold s1, m. simpl. intros a' b' Hb' E. destruct (decide (a' = a)) as [->|]; [done|].
    rewrite lookup_insert_ne in Hb' by done. destruct Hn. by exists a', b'. }
  exists t'. split; [|done]. unfold new_block. rewrite bind_gets. cbn [id]. fold a.
  rewrite bind_modify. rewrite (core_bs _ _ Hc). fold m. fold s1. by rewrite (bind_Ret _ _ _ _ _ Et).
Qed.

Lemma new_block_ok X l s n :
  inv X l s -> ~ cached s n -> 0 <= n < capacity -> blocks_used (self s) < block_count (self s) ->
  exists a s', new_block n s = Ret a s' /\ a <> NULL /\ a ∉ l /\ obtained X l s n a s'.
Proof.
  intros Hi Hn Hr Hroom. pose proof (inv_core _ _ _ Hi) as Hc.
  destruct (new_block_run X s n Hc Hn) as (t' & Erun & Htok).
  set (a := malloc (dom (blocks s))) in *.
  destruct (fresh_block (blocks s)) as (Ha & Hfresh). fold a in Ha, Hfresh.
  set (b := Block n (garbage bs) (garbage (private_len (self s))) 0 0 NULL NULL) in *.
  destruct (core_tree _ _ Hc) as (Ht1 & Ht2 & Ht3).
  assert (Hal : a ∉ l). { intros Hin. apply (inv_dom _ _ _ Hi) in Hin as (? & ?). congruence. }
  eexists a, _. split; [exact Erun|]. split; [done|]. split; [done|].
  destruct (inv_lru _ _ _ Hi) as (Hs1 & Hs2 & Hs3 & Hs4).
  assert (Hcore : core (X ∪ {[a]}) (State (set_blocks_used (blocks_used (self s) + 1)
    (set_tree t' (self s))) (<[a := b]> (blocks s)) (dev s))).
  { split; simpl; try apply Hc; auto.
    - intros a' b' Hb'. destruct (decide (a' = a)) as [->|].
      + rewrite lookup_insert_eq in Hb'. simplify_eq. split_and!; simpl; auto; try lia.
        * apply garbage_length.
        * set_solver.
      + rewrite lookup_insert_ne in Hb' by done. eapply block_ok_mono; [|by apply Hc]. set_solver.
    - eapply hints_ok_mono; [..|apply Hc]; [done|done|]. intros x. rewrite is_Some_insert. auto.
    - rewrite (core_used _ _ Hc), map_size_insert_None by done. lia.
    - destruct (core_count _ _ Hc). lia. }
  split; auto; simpl.
  - split_and!; auto. simpl. by apply seg_insert_notin.
  - intros x. rewrite is_Some_insert, <- (inv_dom _ _ _ Hi). done.
  - exists b. by rewrite lookup_insert_eq.
  - intros x bx Hx. rewrite lookup_insert_ne by done. eauto.
  - intros m Hm. destruct (Tree.tree_search (tree (self s)) m) as [a'|] eqn:E.
    + apply tree_search_spec, Ht3 in E as (b' & Hb' & <-); [|done].
      rewrite (view_cached _ _ _ _ Hc Hb'). eapply (view_cached _ _ a'); [exact Hcore|].
      simpl. rewrite lookup_insert_ne; [done|]. congruence.
    + apply (search_none _ _ _ Hc) in E. rewrite (view_uncached _ _ _ Hc E).
      rewrite (view_uncached _ _ _ Hcore); [done|]. intros (a' & b' & Hb' & <-). simpl in Hb'.
      destruct (decide (a' = a)) as [->|]; [rewrite lookup_insert_eq in Hb'; by simplify_eq|].
      rewrite lookup_insert_ne in Hb' by done. apply E. by exists a', b'.
Qed.

(** Renumbering a clean block that nobody holds. *)
Lemma renumber_ok X l s n a b :
  inv X l s -> blocks s !! a = Some b -> ref_count b = 0 -> dirty b = 0 ->
  ~ cached s n -> 0 <= n < capacity ->
  exists s', (remove_block a;; update a (set_number n);; insert_block a;; mret a) s = Ret a s' /\
    obtained X l s n a s'.
Proof.
  intros Hi Hb Hrc Hd Hn Hr. pose proof (inv_core _ _ _ Hi) as Hc.
  destruct (core_block _ _ Hc _ _ Hb) as (Ha & Hnum & Hlen & Href & Hco).
  destruct (remove_block_ok s a b (core_tree _ _ Hc) Hb) as (t1 & E1 & Ht1 & Ht2 & Ht3).
  set (s1 := State (set_tree t1 (self s)) (blocks s) (dev s)) in *.
  set (s2 := State (set_tree t1 (self s)) (<[a := set_number n b]> (blocks s)) (dev s)).
  assert (E2 : update a (set_number n) s1 = Ret tt s2) by exact (update_ok s1 a b (set_number n) Ha Hb).
  destruct (insert_block_ok s2 a (set_number n b) Ht1 Ht2 Ha) as (t' & Et & Htok).
  { apply lookup_insert_eq. }
  { simpl. intros m a'. rewrite Ht3. destruct (decide (a' = a)) as [->|]; [naive_solver|].
    by rewrite lookup_insert_ne. }
  { simpl. intros a' b' Hb' E. destruct (decide (a' = a)) as [->|]; [done|].
    rewrite lookup_insert_ne in Hb' by done. destruct Hn. by exists a', b'. }
  eexists. split.
  { by rewrite (bind_Ret _ _ _ _ _ E1), (bind_Ret _ _ _ _ _ E2), (bind_Ret _ _ _ _ _ Et). }
  assert (HaX : a ∉ X) by (intros HX; by destruct (inv_held _ _ _ Hi a b HX Hb)).
  assert (Hal : a ∈ l) by (apply (inv_dom _ _ _ Hi); eauto).
  destruct (inv_lru _ _ _ Hi) as (Hs1 & Hs2 & Hs3 & Hs4).
  assert (Hcore : core (X ∪ {[a]}) (State (set_tree t' (self s)) (<[a := set_number n b]> (blocks s)) (dev s))).
  { split; simpl; try apply Hc; auto.
    - intros a' b' Hb'. destruct (decide (a' = a)) as [->|].
      + rewrite lookup_insert_eq in Hb'. simplify_eq. split_and!; simpl; auto; try lia. set_solver.
      + rewrite lookup_insert_ne in Hb' by done. eapply block_ok_mono; [|by apply Hc]. set_solver.
    - eapply hints_ok_mono; [..|apply Hc]; [done|done|]. intros x. rewrite is_Some_insert. auto.
    - rewrite (core_used _ _ Hc), map_size_insert_Some by eauto. lia. }
  split; auto; simpl.
  - split_and!; auto. simpl. eapply seg_frame; [|exact Hs1]. intros x bx Hx Hbx.
    destruct (decide (x = a)) as [->|].
    + exists (set_number n b). rewrite lookup_insert_eq. by simplify_eq.
    + exists bx. by rewrite lookup_insert_ne.
  - intros x. rewrite is_Some_insert, <- (inv_dom _ _ _ Hi). done.
  - exists (set_number n b). by rewrite lookup_insert_eq.
  - intros x bx Hx. rewrite lookup_insert_ne by done. eauto.
  - intros m Hm. destruct (decide (m = number b)) as [->|Hmb].
    + rewrite (view_cached _ _ _ _ Hc Hb), Hco by done.
      rewrite (view_uncached _ _ _ Hcore); [done|]. intros (a' & b' & Hb' & E). simpl in Hb'.
      destruct (decide (a' = a)) as [->|]; [rewrite lookup_insert_eq in Hb'; by simplify_eq|].
      rewrite lookup_insert_ne in Hb' by done. by assert (a' = a) by eauto using number_inj.
    + destruct (Tree.tree_search (tree (self s)) m) as [a'|] eqn:E.
      * destruct (core_tree _ _ Hc) as (_ & Hbst & Ht). apply tree_search_spec, Ht in E as (b' & Hb' & <-); [|done].
        rewrite (view_cached _ _ _ _ Hc Hb'). eapply (view_cached _ _ a'); [exact Hcore|].
        simpl. rewrite lookup_insert_ne; [done|]. congruence.
      * apply (search_none _ _ _ Hc) in E. rewrite (view_uncached _ _ _ Hc E).
        rewrite (view_uncached _ _ _ Hcore); [done|]. intros (a' & b' & Hb' & <-). simpl in Hb'.
        destruct (decide (a' = a)) as [->|]; [rewrite lookup_insert_eq in Hb'; by simplify_eq|].
        rewrite lookup_insert_ne in Hb' by done. apply E. by exists a', b'.
Qed.

Lemma victim_synced s s' l : synced s s' -> victim (blocks s') l = victim (blocks s) l.
Proof.
  intros Hs. induction l as [|a l IH]; [done|]. simpl. rewrite IH.
  destruct (blocks s !! a) as [b|] eqn:E.
  - destruct (synced_lookup _ _ _ _ Hs E) as [-> | ->]; done.
  - destruct (blocks s' !! a) as [b|] eqn:E'; [|done].
    apply (synced_lookup_inv _ _ _ _ Hs) in E' as (? & ? & _). congruence.
Qed.

Lemma replace_block_ok X l s n :
  inv X l s -> ~ cached s n -> 0 <= n < capacity ->
  if decide (victim (blocks s) l = NULL) then replace_block n s = Ret NULL s
  else exists s', replace_block n s = Ret (victim (blocks s) l) s' /\
    obtained X l s n (victim (blocks s) l) s'.
Proof.
  intros Hi Hn Hr. destruct (find_replaceable_ok X l s Hi) as (s1 & E1 & Hi1 & Hs & Hnull & Hcl).
  unfold replace_block. rewrite (bind_Ret _ _ _ _ _ E1). set (v := victim (blocks s) l) in *.
  destruct (decide (v = NULL)) as [Hv|Hv]; [by rewrite Hv, Hnull|].
  rewrite (proj2 (Z.eqb_neq v NULL)) by done.
  destruct (victim_in (blocks s) l Hv) as (Hvl & b0 & Hb0 & Hr0). fold v in Hvl, Hb0.
  assert (exists b, blocks s1 !! v = Some b /\ ref_count b = 0) as (b & Hb & Hrc).
  { destruct (synced_lookup _ _ _ _ Hs Hb0) as [?|?]; eauto. }
  assert (Hn1 : ~ cached s1 n) by by rewrite (synced_cached s s1).
  destruct (renumber_ok X l s1 n v b Hi1 Hb Hrc (Hcl b Hb) Hn1 Hr) as (s' & E & Hob).
  exists s'. split; [done|]. destruct Hob as [? ? ? ? Ho Hvw Hdv]. split; auto.
  - intros x bx Hx Hbx. destruct (Ho x bx Hx Hbx) as (b1 & Hb1 & -> & Hd).
    apply (synced_lookup_inv _ _ _ _ Hs) in Hb1 as (b2 & Hb2 & [->| ->]); eauto.
  - intros m Hm. rewrite Hvw by done. eapply synced_view; [apply Hi|apply Hi1|done].
  - rewrite Hdv. by apply Hs.
Qed.

(** ** Reading *)

Lemma concat_blocks_length (f : Z -> list Z) n r :
  (forall m, n <= m < n + r -> length (f m) = Z.to_nat bs) -> 0 <= r ->
  length (concat (f <$> seqZ n r)) = Z.to_nat (r * bs).
Proof.
  intros Hf Hr. pose proof capacity_small as (Hb & _).
  assert (exists k, r = Z.of_nat k) as (k & ->) by (exists (Z.to_nat r); lia). clear Hr.
  induction k as [|k IH] in Hf |- *; [done|].
  rewrite seqZ_S, fmap_app, concat_app, length_app, IH by (intros; apply Hf; lia).
  cbn [fmap list_fmap concat]. rewrite app_nil_r, Hf by lia. rewrite <- Z2Nat.inj_add by nia. f_equal. lia.
Qed.

Lemma concat_blocks_sub (f : Z -> list Z) n r i :
  (forall m, n <= m < n + r -> length (f m) = Z.to_nat bs) -> 0 <= i < r ->
  subrange (concat (f <$> seqZ n r)) (i * bs) bs = f (n + i).
Proof.
  intros Hf Hi. pose proof capacity_small as (Hb & _).
  replace r with (i + (r - i)) by lia. rewrite seqZ_app, (seqZ_cons (n + i)) by lia.
  rewrite fmap_app, concat_app. simpl. unfold subrange.
  rewrite drop_app_length'.
  2:{ rewrite concat_blocks_length; [done|intros; apply Hf; lia|lia]. }
  rewrite take_app_length'; [done|]. rewrite Hf; lia.
Qed.

Lemma subrange_app_l (l k : list Z) off len :
  0 <= off -> 0 <= len -> off + len <= Z.of_nat (length l) -> subrange (l ++ k) off len = subrange l off len.
Proof.
  intros. unfold subrange. rewrite drop_app_le by lia. rewrite take_app_le; [done|].
  rewrite length_drop. lia.
Qed.

(** The buffer after blocks were read into it. *)
Lemma filled_buffer_ok c d d' n r :
  buffer_ok c d -> 0 <= n < capacity -> 0 < r <= READBUF_SZ -> n + r <= capacity ->
  (forall m, contents d' m = contents d m) ->
  buffer_ok (set_read_buffer (splice (read_buffer c) 0 (concat (contents d <$> seqZ n r))) n r c) d'.
Proof.
  intros (Hl & _) Hn Hr Hnr Hd. pose proof capacity_small as (Hb & _ & Hcap).
  assert (Hlen : length (concat (contents d <$> seqZ n r)) = Z.to_nat (r * bs)).
  { apply concat_blocks_length; [|lia]. intros. apply contents_length. lia. }
  unfold READBUF_SZ in *.
  split; [|split; [|split]]; simpl.
  - rewrite length_splice; [done|lia|]. rewrite Hlen. nia.
  - unfold READBUF_SZ. lia.
  - lia.
  - intros i _ Hi. split; [lia|]. unfold splice. simpl.
    rewrite subrange_app_l by (rewrite ?Hlen; nia).
    rewrite concat_blocks_sub; [by rewrite Hd| |lia]. intros. apply contents_length. lia.
Qed.

Lemma core_load X s a b buf n cnt d' :
  core (X ∪ {[a]}) s -> blocks s !! a = Some b ->
  (forall m, contents d' m = contents (dev s) m) -> buffer_ok (set_read_buffer buf n cnt (self s)) d' ->
  core X (State (set_read_buffer buf n cnt (self s))
    (<[a := set_data (contents (dev s) (number b)) b]> (blocks s)) d').
Proof.
  intros Hc Hb Hd Hbuf. destruct (core_tree _ _ Hc) as (Ht1 & Ht2 & Ht3). split; simpl; try apply Hc; auto.
  - split_and!; auto. intros m a'. rewrite Ht3. destruct (decide (a' = a)) as [->|].
    + rewrite lookup_insert_eq, Hb. naive_solver.
    + by rewrite lookup_insert_ne.
  - intros a' b' Hb'. destruct (decide (a' = a)) as [->|].
    + rewrite lookup_insert_eq in Hb'. simplify_eq.
      destruct (core_block _ _ Hc _ _ Hb) as (? & ? & ? & ? & ?). split_and!; simpl; auto; try lia.
      by apply contents_length.
    + rewrite lookup_insert_ne in Hb' by done.
      destruct (core_block _ _ Hc _ _ Hb') as (? & ? & ? & ? & ?). split_and!; auto; try lia.
      rewrite Hd. set_solver.
  - eapply hints_ok_mono; [..|apply Hc]; [done|done|]. intros x. rewrite is_Some_insert. auto.
  - rewrite (core_used _ _ Hc), map_size_insert_Some by eauto. lia.
Qed.

Lemma device_read_ok s n count r bytes d' :
  read_block (dev s) n count = (r, bytes, d') ->
  device_read n count s = Ret (r, bytes) (State (self s) (blocks s) d').
Proof. unfold device_read. by intros ->. Qed.

Lemma load_block_ok X s a b :
  core (X ∪ {[a]}) s -> blocks s !! a = Some b ->
  exists s', load_block a s = Ret 1 s' /\ core X s' /\
    (exists buf n cnt, self s' = set_read_buffer buf n cnt (self s)) /\
    (forall m, contents (dev s') m = contents (dev s) m) /\
    blocks s' = <[a := set_data (contents (dev s) (number b)) b]> (blocks s).
Proof.
  intros Hc Hb. destruct (core_block _ _ Hc _ _ Hb) as (Ha & Hn & Hl & Hrc & _).
  pose proof (core_buffer _ _ Hc) as Hbuf. pose proof (core_bs _ _ Hc) as Hbs.
  pose proof Hbuf as (Hlen & Hcnt & Hrb & Hs). pose proof capacity_small as (Hbs0 & _ & Hcap).
  pose proof (buffer_block_range _ _ (number b) Hbuf Hn) as Hr.
  unfold load_block. rewrite (bind_Ret _ _ _ _ _ (deref_ok s a b Ha Hb)), bind_gets.
  destruct (_ || _ || _) eqn:E.
  - destruct (read_block_ok (dev s) (number b) READBUF_SZ Hn ltac:(done)) as (r & d' & Er & Hr1 & Hr2 & Hd).
    pose proof (filled_buffer_ok _ _ _ _ _ Hbuf Hn Hr1 Hr2 Hd) as Hbuf'.
    rewrite bind_assoc. rewrite (bind_Ret _ _ _ _ _ (device_read_ok _ _ _ _ _ _ Er)). cbn [fst snd].
    rewrite (w32_small r) by (unfold READBUF_SZ in *; lia). rewrite (proj2 (Z.eqb_neq r 0)) by lia.
    unfold set_self. rewrite bind_assoc, bind_modify, bind_ret. cbn [negb]. rewrite bind_gets. cbn [self dev blocks].
    set (c' := set_read_buffer _ (number b) r (self s)) in *. rewrite Z.sub_diag.
    replace (block_size c') with bs. pose proof Hbuf' as (Hlen' & _ & _ & Hs').
    rewrite (proj2 (Z.leb_le _ _)) by (rewrite Hlen'; unfold READBUF_SZ; lia).
    destruct (Hs' 0) as (_ & ->); [subst c'; simpl; unfold INVBLKNUM in *; lia|simpl; lia|].
    replace (read_buffer_block c' + 0) with (number b) by (simpl; lia). rewrite Hd.
    erewrite bind_Ret by by apply update_ok. cbn [self blocks dev].
    eexists. split; [done|]. split_and!; simpl; eauto. subst c'. by apply core_load.
  - rewrite bind_ret, bind_gets, Hbs.
    assert (0 <= number b - read_buffer_block (self s) < read_buffer_cnt (self s) /\
      read_buffer_block (self s) <> INVBLKNUM) as (Hi & Hrb0).
    { rewrite !orb_false_iff in E. destruct E as ((E1 & E2) & E3).
      destruct Hr as [Hr _]. rewrite !andb_true_iff, negb_true_iff in Hr.
      zbool. split; [|done]. apply Hr. split_and!; [by apply Z.eqb_neq|by apply Z.leb_le|by apply Z.ltb_lt]. }
    rewrite (proj2 (Z.leb_le _ _)) by (rewrite Hlen; unfold READBUF_SZ in *; nia).
    destruct (Hs _ Hrb0 Hi) as (_ & ->).
    replace (read_buffer_block (self s) + _) with (number b) by lia.
    erewrite bind_Ret by by apply update_ok. eexists. split; [done|].
    assert (Eself : self s = set_read_buffer (read_buffer (self s)) (read_buffer_block (self s))
      (read_buffer_cnt (self s)) (self s)) by by destruct (self s).
    split_and!; simpl; eauto. rewrite Eself. apply core_load; auto.
Qed.

(** ** The order of last use *)

(** Only links change. *)
Definition relinked (s s' : state D) : Prop :=
  dev s' = dev s /\ (exists f l, self s' = set_lru_last l (set_lru_first f (self s))) /\
  forall x, (exists b nx pv, blocks s !! x = Some b /\
               blocks s' !! x = Some (set_lru_prev pv (set_lru_next nx b))) \/
            (blocks s !! x = None /\ blocks s' !! x = None).

Lemma relinked_refl s : relinked s s.
Proof.
  split; [done|]. split; [exists (lru_first (self s)), (lru_last (self s)); by destruct (self s)|].
  intros x. destruct (blocks s !! x) as [b|] eqn:E; [left|by right].
  exists b, (lru_next b), (lru_prev b). by destruct b.
Qed.

Lemma relinked_trans s1 s2 s3 : relinked s1 s2 -> relinked s2 s3 -> relinked s1 s3.
Proof.
  intros (E1 & (f1 & l1 & F1) & H1) (E2 & (f2 & l2 & F2) & H2). split; [congruence|]. split.
  - exists f2, l2. by rewrite F2, F1.
  - intros x. destruct (H1 x) as [(b & nx & pv & Hb & Hb')|(? & ?)], (H2 x) as [(b2 & nx2 & pv2 & ? & ?)|(? & ?)];
      simplify_eq; [left|right]; eauto 10. by exists b, nx2, pv2.
Qed.

Lemma relinked_update s a b b' nx pv :
  blocks s !! a = Some b -> b' = set_lru_prev pv (set_lru_next nx b) ->
  relinked s (State (self s) (<[a := b']> (blocks s)) (dev s)).
Proof.
  intros Hb ->. destruct (relinked_refl s) as (_ & H2 & H3). split; [done|]. split; [done|]. simpl.
  intros x. destruct (decide (x = a)) as [->|]; [rewrite lookup_insert_eq; left; eauto 10|].
  rewrite lookup_insert_ne by done. apply H3.
Qed.

Lemma relinked_self s f l :
  relinked s (State (set_lru_last l (set_lru_first f (self s))) (blocks s) (dev s)).
Proof. destruct (relinked_refl s) as (_ & _ & H3). split; [done|]. split; [eauto|done]. Qed.

Lemma relinked_lookup s s' x b' : relinked s s' -> blocks s' !! x = Some b' ->
  exists b nx pv, blocks s !! x = Some b /\ b' = set_lru_prev pv (set_lru_next nx b).
Proof. intros (_ & _ & Hx) E. destruct (Hx x) as [(b & nx & pv & ? & ?)|(? & ?)]; naive_solver. Qed.

Lemma relinked_lookup' s s' x b : relinked s s' -> blocks s !! x = Some b ->
  exists nx pv, blocks s' !! x = Some (set_lru_prev pv (set_lru_next nx b)).
Proof. intros (_ & _ & Hx) E. destruct (Hx x) as [(b' & nx & pv & ? & ?)|(? & ?)]; naive_solver. Qed.

Lemma relinked_dom s s' : relinked s s' -> dom (blocks s') = dom (blocks s).
Proof.
  intros Hr. apply set_eq. intros x. rewrite !elem_of_dom. split.
  - intros (b & Hb). apply (relinked_lookup _ _ _ _ Hr) in Hb as (? & ? & ? & ? & _). eauto.
  - intros (b & Hb). apply (relinked_lookup' _ _ _ _ Hr) in Hb as (? & ? & ?). eauto.
Qed.

Lemma relinked_core X s s' : relinked s s' -> core X s -> core X s'.
Proof.
  intros Hr Hc. pose proof Hr as (Ed & (f & l & Es) & Hx).
  destruct (core_tree _ _ Hc) as (Ht1 & Ht2 & Ht3). split; rewrite ?Es; simpl; try apply Hc.
  - split_and!; auto. intros n a. rewrite Ht3. destruct (Hx a) as [(b & nx & pv & -> & ->)|(-> & ->)]; naive_solver.
  - intros a b' Hb'. apply (relinked_lookup _ _ _ _ Hr) in Hb' as (b & nx & pv & Hb & ->).
    rewrite Ed. exact (core_block _ _ Hc a b Hb).
  - rewrite Ed. apply Hc.
  - eapply hints_ok_mono; [..|apply Hc]; [done|done|]. intros a. rewrite <- !elem_of_dom.
    by rewrite (relinked_dom _ _ Hr).
  - rewrite (core_used _ _ Hc). by rewrite <- !size_dom, (relinked_dom _ _ Hr).
Qed.

Lemma relinked_view s s' n : relinked s s' -> view s' n = view s n.
Proof.
  intros (Ed & (f & l & Es) & Hx). unfold view. rewrite Es, Ed. simpl.
  destruct (Tree.tree_search _ n) as [a|]; [|done].
  destruct (Hx a) as [(b & nx & pv & -> & ->)|(-> & ->)]; done.
Qed.

(** The links of a list, and where the list starts and ends. *)
Definition linked (l : list Z) (s : state D) : Prop :=
  seg (blocks s) NULL l NULL /\ lru_first (self s) = hd NULL l.

Lemma unlink_older s a b l1 y y' :
  seg (blocks s) NULL l1 y -> NoDup l1 -> Forall (fun x => x <> NULL) l1 ->
  exists s', (if default NULL (last l1) =? NULL then mret tt
              else update (default NULL (last l1)) (set_lru_prev y')) s = Ret tt s' /\
    seg (blocks s') NULL l1 y' /\ relinked s s' /\ self s' = self s /\
    (a ∉ l1 -> blocks s !! a = Some b -> blocks s' !! a = Some b) /\
    forall l2 x z, (forall c, c ∈ l2 -> c ∉ l1) -> seg (blocks s) x l2 z -> seg (blocks s') x l2 z.
Proof.
  intros Hs Hnd Hnn. destruct l1 as [|p l1 _] using rev_ind.
  { exists s. split_and!; auto using relinked_refl. }
  rewrite last_snoc. simpl. apply Forall_app in Hnn as (_ & Hp). rewrite Forall_singleton in Hp.
  rewrite (proj2 (Z.eqb_neq p NULL) Hp).
  assert (exists bp, blocks s !! p = Some bp) as (bp & Hbp).
  { apply seg_app in Hs as (_ & (bp & ? & _) & _). eauto. }
  assert (Hpn : p ∉ l1) by (apply NoDup_app in Hnd as (_ & Hnd & _); set_solver).
  erewrite update_ok by done. eexists. split; [done|]. simpl. split_and!.
  - by eapply seg_set_newer.
  - apply (relinked_update _ _ bp _ (lru_next bp) y'); [done|by destruct bp].
  - done.
  - intros Ha Hb. rewrite lookup_insert_ne; [done|]. set_solver.
  - intros l2 x z Hd. apply seg_insert_notin. set_solver.
Qed.

Lemma filter_notin (a : Z) (l : list Z) : a ∉ l -> filter (fun x => x <> a) l = l.
Proof.
  induction l as [|x l IH]; intros Hn; [done|]. rewrite filter_cons_True by set_solver.
  f_equal. apply IH. set_solver.
Qed.

(** The list without a block that is not its end. *)
Lemma lru_unlink_ok s l a b :
  linked l s -> NoDup l -> Forall (fun x => x <> NULL) l -> a <> NULL -> blocks s !! a = Some b ->
  (a ∉ l -> lru_next b = NULL /\ lru_prev b = NULL) -> last l <> Some a ->
  exists s', lru_unlink a s = Ret tt s' /\ linked (filter (fun x => x <> a) l) s' /\ relinked s s' /\
    lru_last (self s') = lru_last (self s).
Proof.
  intros (Hs & Hfst) Hnd Hnn Ha Hb Hnew Hlast. unfold lru_unlink.
  rewrite (bind_Ret _ _ _ _ _ (deref_ok s a b Ha Hb)).
  destruct (decide (a ∈ l)) as [Hin|Hout].
  - destruct (NoDup_remove_elem l a Hnd Hin) as (l1 & l2 & -> & Hn1 & Hn2 & Hnd').
    assert (filter (fun x => x <> a) (l1 ++ a :: l2) = (l1 ++ l2)) as ->.
    { rewrite filter_app, filter_cons_False by naive_solver.
      by rewrite !filter_notin. }
    destruct l2 as [|a2 l2]; [by rewrite last_snoc in Hlast|].
    apply seg_app in Hs as (Hs1 & (b' & Hb' & Hnx & Hpv) & Hs2). rewrite Hb in Hb'. injection Hb' as <-.
    apply Forall_app in Hnn as (Hnn1 & Hnn2). apply Forall_cons in Hnn2 as (_ & Hnn2).
    apply Forall_cons in Hnn2 as (Ha2 & Hnn2). apply NoDup_app in Hnd' as (Hnd1 & Hdis & Hnd2).
    destruct (unlink_older s a b l1 _ a2 Hs1 Hnd1 Hnn1) as (s1 & E1 & Hs1' & Hr1 & Es1 & Hb1 & Hf1).
    simpl in Hpv. rewrite Hnx, Hpv. rewrite (bind_Ret _ _ _ _ _ E1).
    rewrite (proj2 (Z.eqb_neq a2 NULL)) by done.
    assert (Hs2' : seg (blocks s1) a (a2 :: l2) NULL) by (apply Hf1; [set_solver|done]).
    pose proof Hs2' as ((b2 & Hb2 & _) & _).
    erewrite bind_Ret by by apply update_ok. rewrite bind_gets. cbn [self]. rewrite Es1, Hfst.
    apply NoDup_cons in Hnd2 as (Ha2n & Hnd2).
    assert (Hseg : seg (<[a2 := set_lru_next (default NULL (last l1)) b2]> (blocks s1)) NULL (l1 ++ a2 :: l2) NULL).
    { apply seg_app. split; [apply seg_insert_notin; [set_solver|done]|]. by eapply seg_set_older. }
    assert (Hr2 : relinked s (State (self s1) (<[a2 := set_lru_next (default NULL (last l1)) b2]> (blocks s1)) (dev s1))).
    { eapply relinked_trans; [exact Hr1|].
      apply (relinked_update _ _ b2 _ (default NULL (last l1)) (lru_prev b2)); [done|by destruct b2]. }
    rewrite Es1 in *. destruct l1 as [|x l1]; simpl.
    + rewrite Z.eqb_refl. eexists. split; [done|]. split; [split; [exact Hseg|done]|]. split; [|done].
      eapply relinked_trans; [exact Hr2|].
      apply (relinked_self (State (self s) _ (dev s1)) a2 (lru_last (self s))).
    + rewrite (proj2 (Z.eqb_neq x a)) by set_solver. eexists. split; [done|]. split; [by split|done].
  - destruct (Hnew Hout) as (-> & ->). rewrite Z.eqb_refl, !bind_ret, bind_gets, Hfst.
    rewrite filter_notin by done.
    exists s. destruct l as [|x l]; cbn [hd].
    + rewrite (proj2 (Z.eqb_neq NULL a)) by done. split_and!; auto using relinked_refl. by split.
    + rewrite (proj2 (Z.eqb_neq x a)) by set_solver. split_and!; auto using relinked_refl. by split.
Qed.

(** The block becomes the one used last. *)
Lemma lru_append_ok s l a b :
  linked l s -> lru_last (self s) = default NULL (last l) -> NoDup l -> Forall (fun x => x <> NULL) l ->
  a ∉ l -> a <> NULL -> blocks s !! a = Some b ->
  exists s', lru_append a s = Ret tt s' /\ lru_ok (l ++ [a]) s' /\ relinked s s'.
Proof.
  intros (Hs & Hfst) Hlast Hnd Hnn Hout Ha Hb. unfold lru_append. rewrite bind_gets, Hlast.
  erewrite bind_Ret by by apply update_ok. cbn [self blocks dev].
  erewrite bind_Ret by (apply update_ok; [done|apply lookup_insert_eq]). cbn [self blocks dev].
  rewrite insert_insert_eq. set (b1 := set_lru_prev NULL _).
  set (s1 := State (self s) (<[a := b1]> (blocks s)) (dev s)).
  assert (Hr1 : relinked s s1) by (apply (relinked_update _ _ b _ (default NULL (last l)) NULL); done).
  assert (Hs1 : seg (blocks s1) NULL l NULL) by by apply seg_insert_notin.
  destruct (unlink_older s1 a b1 l NULL a Hs1 Hnd Hnn) as (s2 & E2 & Hs2 & Hr2 & Es2 & Hb2 & _).
  assert (Hnd' : NoDup (l ++ [a])).
  { apply NoDup_app. split_and!; [done| |apply NoDup_singleton]. set_solver. }
  assert (Hseg : seg (blocks s2) NULL (l ++ [a]) NULL).
  { apply seg_app. split; [done|]. split; [|done]. exists b1. split; [|done]. apply Hb2; [done|].
    apply lookup_insert_eq. }
  destruct l as [|x l _] using rev_ind.
  - simpl in *. unfold set_self. rewrite bind_modify. cbn [self blocks dev].
    eexists. split; [done|]. injection E2 as <-. split; [by split|].
    eapply relinked_trans; [exact Hr1|]. apply (relinked_self s1 a a).
  - rewrite last_snoc in *. simpl in *. apply Forall_app in Hnn as (_ & Hx). rewrite Forall_singleton in Hx.
    rewrite (proj2 (Z.eqb_neq x NULL)) in E2 |- * by done.
    rewrite (bind_Ret _ _ _ _ _ E2). eexists. split; [done|]. split.
    + split; [done|]. split; [done|]. simpl. rewrite Es2, last_snoc, Hfst. by destruct l.
    + eapply relinked_trans; [exact Hr1|]. eapply relinked_trans; [exact Hr2|].
      apply (relinked_self s2 (lru_first (self s2)) a).
Qed.

(** ** Getting a block *)

Lemma hint_loop_ok X s hs n :
  core X s -> (forall h, h ∈ hs -> h = NULL \/ is_Some (blocks s !! h)) ->
  exists a, hint_loop hs n s = Ret a s /\
    (a <> NULL -> exists b, blocks s !! a = Some b /\ number b = n).
Proof.
  intros Hc. induction hs as [|h hs IH]; intros Hh; [by exists NULL|]. cbn [hint_loop].
  destruct IH as (a & E & Ha); [set_solver|].
  destruct (Z.eqb_spec h NULL) as [|Hn]; [eauto|].
  destruct (Hh h ltac:(set_solver)) as [|(b & Hb)]; [done|].
  rewrite (bind_Ret _ _ _ _ _ (deref_ok s h b Hn Hb)).
  destruct (Z.eqb_spec (number b) n); eauto.
Qed.

(** Hints and tree together find the block of a number. *)
Lemma lookup_ok X s n :
  core X s ->
  exists h, get_hint n s = Ret h s /\
  exists f, (if h =? NULL then t ← use_tree; mret (default NULL (Tree.tree_search t n)) else mret h) s = Ret f s /\
    (f = NULL <-> ~ cached s n) /\ (f <> NULL -> exists b, blocks s !! f = Some b /\ number b = n).
Proof.
  intros Hc. destruct (core_hints _ _ Hc) as (_ & _ & Hh).
  destruct (hint_loop_ok X s (hints (self s)) n Hc Hh) as (h & E & Hb). exists h. split; [done|].
  destruct (Z.eqb_spec h NULL) as [->|Hn].
  - rewrite (bind_Ret _ _ _ _ _ (use_tree_ok s (fun n x => tree_ok_live _ _ n x (core_tree _ _ Hc)))).
    eexists. split; [done|]. destruct (Tree.tree_search _ n) as [a|] eqn:Es; simpl.
    + destruct (core_tree _ _ Hc) as (_ & Hbst & Ht). apply tree_search_spec, Ht in Es as (b & Hb' & <-); [|done].
      destruct (core_block _ _ Hc _ _ Hb') as (Ha & _). split; [|eauto]. split; [done|].
      intros Hn. destruct Hn. by exists a, b.
    + split; [|done]. split; [|done]. intros _. by apply (search_none X).
  - exists h. split; [done|]. split; [|auto]. split; [done|]. intros Hnc. destruct Hnc.
    destruct (Hb Hn) as (b & ? & ?). by exists h, b.
Qed.

(** A block with a reference more. *)
Lemma core_ref X s a b v hs p :
  core X s -> blocks s !! a = Some b -> 0 <= v < 65536 -> 
  length hs = Z.to_nat HINTCNT -> 0 <= p < HINTCNT -> (forall h, h ∈ hs -> h = NULL \/ is_Some (blocks s !! h)) ->
  core X (State (set_hints hs p (self s)) (<[a := set_ref_count v b]> (blocks s)) (dev s)).
Proof.
  intros Hc Hb Hv Hl Hp Hh. destruct (core_tree _ _ Hc) as (Ht1 & Ht2 & Ht3). split; simpl; try apply Hc.
  - split_and!; auto. intros m a'. rewrite Ht3. destruct (decide (a' = a)) as [->|].
    + rewrite lookup_insert_eq, Hb. naive_solver.
    + by rewrite lookup_insert_ne.
  - intros a' b' Hb'. destruct (decide (a' = a)) as [->|].
    + rewrite lookup_insert_eq in Hb'. simplify_eq.
      destruct (core_block _ _ Hc _ _ Hb) as (? & ? & ? & ? & ?). by split_and!; simpl; auto; try lia.
    + rewrite lookup_insert_ne in Hb' by done. by apply Hc.
  - do 2 (split; [done|]). intros h Hin. rewrite is_Some_insert. destruct (Hh h Hin); auto.
  - rewrite (core_used _ _ Hc), map_size_insert_Some by eauto. lia.
Qed.

(** Counting references does not change what the user sees. *)
Lemma view_ref s a b v c : blocks s !! a = Some b -> tree c = tree (self s) ->
  forall m, view (State c (<[a := set_ref_count v b]> (blocks s)) (dev s)) m = view s m.
Proof.
  intros Hb Et m. unfold view. simpl. rewrite Et. destruct (Tree.tree_search _ m) as [x|]; [|done].
  destruct (decide (x = a)) as [->|]; [by rewrite lookup_insert_eq, Hb|by rewrite lookup_insert_ne].
Qed.

Lemma filter_last (a : Z) (l : list Z) :
  NoDup l -> last l = Some a -> (filter (fun x => x <> a) l ++ [a]) = l.
Proof.
  intros Hnd Hl. destruct l as [|x l _] using rev_ind; [done|]. rewrite last_snoc in Hl. simplify_eq.
  apply NoDup_app in Hnd as (_ & Hd & _). rewrite filter_app, filter_notin by set_solver.
  by rewrite filter_cons_False, filter_nil, app_nil_r by naive_solver.
Qed.

(** What handing out a block does to the state. *)
Lemma touch_block_ok X l s a b :
  core X s -> lru_ok l s -> Forall (fun x => x <> NULL) l -> blocks s !! a = Some b ->
  (a ∉ l -> lru_next b = NULL /\ lru_prev b = NULL) -> ref_count b < 65535 ->
  exists s', touch_block a s = Ret a s' /\ core X s' /\ lru_ok (filter (fun x => x <> a) l ++ [a]) s' /\
    (forall m, view s' m = view s m) /\ (forall x, is_Some (blocks s' !! x) <-> is_Some (blocks s !! x)) /\
    (forall x b', blocks s' !! x = Some b' -> exists b0, blocks s !! x = Some b0 /\
       number b' = number b0 /\ data b' = data b0 /\ dirty b' = dirty b0 /\
       ref_count b' = if decide (x = a) then ref_count b0 + 1 else ref_count b0).
Proof.
  intros Hc (Hs1 & Hs2 & Hs3 & Hs4) Hnn Hb Hnew Hrc.
  destruct (core_block _ _ Hc _ _ Hb) as (Ha & _ & _ & Hr & _).
  destruct (core_hints _ _ Hc) as (Hh1 & Hh2 & Hh3).
  unfold touch_block, put_hint, set_self. rewrite bind_modify. cbn [self blocks dev].
  erewrite bind_Ret by by apply update_ok. cbn [self blocks dev].
  unfold w16. rewrite Z.mod_small by lia. set (p := Z.rem _ _). set (b1 := set_ref_count _ b).
  set (c1 := set_hints _ p (self s)). set (s1 := State c1 (<[a := b1]> (blocks s)) (dev s)).
  assert (Hp : 0 <= p < HINTCNT).
  { unfold p, HINTCNT. pose proof (w8_range (prev_hint (self s) + 1)).
    rewrite Z.rem_mod_nonneg by lia. apply Z.mod_pos_bound. lia. }
  assert (Hc1 : core X s1).
  { apply core_ref; auto; try lia; [by rewrite length_insert|].
    intros h (i & Hin)%list_elem_of_lookup. destruct (decide (i = Z.to_nat p)) as [->|].
    - apply list_lookup_insert_Some in Hin as [(_ & <- & _)|(? & _)]; [right; eauto|done].
    - rewrite list_lookup_insert_ne in Hin by done. apply Hh3. by eapply list_elem_of_lookup_2. }
  assert (Hv1 : forall m, view s1 m = view s m) by (intros; by apply view_ref).
  assert (Hseg1 : seg (blocks s1) NULL l NULL).
  { eapply seg_frame; [|exact Hs1]. intros x bx _ Hx. simpl. destruct (decide (x = a)) as [->|].
    - exists b1. rewrite lookup_insert_eq. by simplify_eq.
    - exists bx. by rewrite lookup_insert_ne. }
  assert (Hd1 : forall x, is_Some (blocks s1 !! x) <-> is_Some (blocks s !! x)).
  { intros x. simpl. rewrite is_Some_insert. naive_solver eauto. }
  assert (Ho1 : forall x b', blocks s1 !! x = Some b' -> exists b0, blocks s !! x = Some b0 /\
       number b' = number b0 /\ data b' = data b0 /\ dirty b' = dirty b0 /\
       ref_count b' = if decide (x = a) then ref_count b0 + 1 else ref_count b0).
  { intros x b' Hx. simpl in Hx. destruct (decide (x = a)) as [->|].
    - rewrite lookup_insert_eq in Hx. simplify_eq. exists b. done.
    - rewrite lookup_insert_ne in Hx by done. eauto 10. }
  rewrite bind_gets. change (lru_last (self s1)) with (lru_last (self s)).
  destruct (Z.eqb_spec a (lru_last (self s))) as [El|El].
  - exists s1. rewrite Hs4 in El. assert (last l = Some a) by (destruct (last l); simpl in El; by subst).
    rewrite filter_last by done. by split_and!.
  - assert (Hlast : last l <> Some a) by (intros E; by rewrite Hs4, E in El).
    destruct (lru_unlink_ok s1 l a b1) as (s2 & E2 & Hl2 & Hr2 & Hla2); auto.
    { by split. }
    { apply lookup_insert_eq. }
    rewrite (bind_Ret _ _ _ _ _ E2).
    destruct (relinked_lookup' s1 s2 a b1 Hr2) as (nx & pv & Hb2); [apply lookup_insert_eq|].
    destruct (lru_append_ok s2 (filter (fun x => x <> a) l) a (set_lru_prev pv (set_lru_next nx b1)) Hl2) as (s3 & E3 & Hl3 & Hr3).
    { rewrite Hla2. simpl. rewrite Hs4. destruct (decide (a ∈ l)) as [Hin|]; [|by rewrite filter_notin].
      destruct (NoDup_remove_elem l a Hs2 Hin) as (l1 & l2 & -> & Hn1 & Hn2 & _).
      rewrite filter_app, filter_cons_False, !filter_notin by naive_solver.
      destruct l2 as [|z l2 _] using rev_ind; [by rewrite last_snoc in Hlast|].
      by rewrite app_comm_cons, !(assoc_L (++)), !last_snoc. }
    { by apply NoDup_filter. }
    { apply Forall_forall. intros x. rewrite list_elem_of_filter. rewrite Forall_forall in Hnn. naive_solver. }
    { rewrite list_elem_of_filter. naive_solver. }
    { done. }
    { done. }
    rewrite (bind_Ret _ _ _ _ _ E3). exists s3. pose proof (relinked_trans _ _ _ Hr2 Hr3) as Hr13.
    split; [done|]. split; [by eapply relinked_core|]. split; [done|].
    split; [intros; by rewrite (relinked_view s1 s3)|]. split.
    + intros x. rewrite <- Hd1, <- !elem_of_dom. by rewrite (relinked_dom s1 s3).
    + intros x b' Hx. apply (relinked_lookup _ _ _ _ Hr13) in Hx as (b0 & nx' & pv' & Hx & ->).
      exact (Ho1 x b0 Hx).
Qed.

(** What holds when a block for the number [n] is ready to be handed out; the data
    is known if it was read. *)
Definition ready (X : gset Z) (l : list Z) (s : state D) (n noread a : Z) (s' : state D) : Prop :=
  core (if noread =? 0 then X else X ∪ {[a]}) s' /\ lru_ok l s' /\
  (forall x, is_Some (blocks s' !! x) <-> x ∈ l \/ x = a) /\
  (exists b, blocks s' !! a = Some b /\ number b = n /\ ref_count b = 0 /\ dirty b = 0 /\
     (a ∉ l -> lru_next b = NULL /\ lru_prev b = NULL)) /\
  (forall x b, x <> a -> blocks s' !! x = Some b ->
     exists b0, blocks s !! x = Some b0 /\ ref_count b = ref_count b0 /\ (dirty b0 = 0 -> dirty b = 0)) /\
  (forall m, m <> n \/ noread = 0 -> view s' m = view s m).

Lemma obtained_load X l s n a s1 :
  core X s -> ~ cached s n -> obtained X l s n a s1 ->
  exists s2, load_block a s1 = Ret 1 s2 /\ ready X l s n 0 a s2.
Proof.
  intros Hc Hn [Hc1 Hl1 Hd1 (b & Hb & Hbn & Hbr & Hbd & Hbl) Ho Hv Hdv].
  destruct (load_block_ok X s1 a b Hc1 Hb) as (s2 & E2 & Hc2 & (buf & n0 & cnt & Es2) & Hd2 & Eb2).
  exists s2. split; [done|]. destruct Hl1 as (Hs1 & Hs2 & Hs3 & Hs4).
  assert (Hlook : forall x, x <> a -> blocks s2 !! x = blocks s1 !! x).
  { intros x Hx. by rewrite Eb2, lookup_insert_ne. }
  assert (Hlooka : blocks s2 !! a = Some (set_data (contents (dev s1) (number b)) b)).
  { by rewrite Eb2, lookup_insert_eq. }
  split; [done|]. split; [|split; [|split; [|split]]].
  - split_and!; auto; rewrite ?Es2; auto. eapply seg_frame; [|exact Hs1]. intros x bx _ Hx.
    destruct (decide (x = a)) as [->|]; [|exists bx; by rewrite Hlook].
    simplify_eq. eexists. by rewrite Hlooka.
  - intros x. rewrite <- Hd1, Eb2, is_Some_insert. naive_solver eauto.
  - eexists. split; [exact Hlooka|]. by split_and!.
  - intros x bx Hx. rewrite Hlook by done. auto.
  - intros m _. destruct (decide (m = n)) as [->|Hm].
    + pose proof (view_cached X s2 a _ Hc2 Hlooka) as Hva. cbn [number set_data data] in Hva.
      rewrite <- Hbn, Hva, Hbn, Hdv. by rewrite (view_uncached X s n Hc Hn).
    + rewrite <- Hv by done. unfold view. rewrite Es2. cbn [set_read_buffer tree].
      destruct (Tree.tree_search (tree (self s1)) m) as [x|] eqn:Ex; [|apply Hd2].
      destruct (decide (x = a)) as [->|]; [|by rewrite Hlook].
      destruct (core_tree _ _ Hc1) as (_ & Hbst & Ht). apply tree_search_spec, Ht in Ex as (b' & ? & <-); [|done].
      congruence.
Qed.

(** A block for a number that is not cached, read from the device unless the user
    will fill it. *)
Lemma obtain_block_ok X l s n noread :
  inv X l s -> ~ cached s n -> 0 <= n < capacity ->
  if decide (blocks_used (self s) < block_count (self s) \/ victim (blocks s) l <> NULL) then
    exists a s', obtain_block n noread s = Ret a s' /\ a <> NULL /\
      (block_count (self s) <= blocks_used (self s) -> a = victim (blocks s) l) /\
      ready X l s n noread a s'
  else obtain_block n noread s = Ret NULL s.
Proof.
  intros Hi Hn Hr. unfold obtain_block. rewrite bind_gets.
  pose proof (replace_block_ok X l s n Hi Hn Hr) as Hrep.
  assert (Hob : blocks_used (self s) < block_count (self s) \/ victim (blocks s) l <> NULL ->
    exists a s1, (if negb (blocks_used (self s) <? block_count (self s)) then replace_block n else new_block n) s
      = Ret a s1 /\ a <> NULL /\ (block_count (self s) <= blocks_used (self s) -> a = victim (blocks s) l) /\
      obtained X l s n a s1).
  { intros Hroom. destruct (Z.ltb_spec (blocks_used (self s)) (block_count (self s))); simpl.
    - destruct (new_block_ok X l s n) as (a & s1 & E & Ha & _ & Hob); auto. exists a, s1. split_and!; auto. lia.
    - destruct Hroom as [|Hvic]; [lia|]. rewrite decide_False in Hrep by done.
      destruct Hrep as (s1 & E & Hob). by exists (victim (blocks s) l), s1. }
  destruct (decide (_ \/ _)) as [Hroom|Hroom].
  2:{ rewrite (proj2 (Z.ltb_ge (blocks_used (self s)) (block_count (self s)))) by (apply Z.nlt_ge; tauto).
      rewrite decide_True in Hrep by (destruct (decide (victim (blocks s) l = NULL)); tauto).
      by rewrite (bind_Ret _ _ _ _ _ Hrep). }
  destruct (Hob Hroom) as (a & s1 & E & Ha & Hvic & Hobt).
  rewrite (bind_Ret _ _ _ _ _ E), (proj2 (Z.eqb_neq a NULL)) by done.
  destruct (Z.eqb_spec noread 0) as [->|Hnr].
  - destruct (obtained_load X l s n a s1 (inv_core _ _ _ Hi) Hn Hobt) as (s2 & E2 & Hready).
    rewrite bind_assoc, (bind_Ret _ _ _ _ _ E2). by exists a, s2.
  - rewrite bind_ret. exists a, s1. split_and!; auto. destruct Hobt as [? ? ? (b & ? & ? & ? & ? & ?) ? ? ?].
    unfold ready. rewrite (proj2 (Z.eqb_neq noread 0)) by done. split_and!; eauto 10. naive_solver.
Qed.

(** The state after [cdi_cache_block_get] gave the block at [a]. *)
Record got (X : gset Z) (l : list Z) (s : state D) (n noread a : Z) (b : block) (s' : state D) : Prop := {
  got_inv : inv (if (noread =? 0) || bool_decide (Tree.tree_search (tree (self s)) n <> None) then X
                 else X ∪ {[a]}) (filter (fun x => x <> a) l ++ [a]) s';
  got_block : blocks s' !! a = Some b;
  got_number : number b = n;
  got_victim : ~ cached s n -> block_count (self s) <= blocks_used (self s) -> a = victim (blocks s) l;
  got_count : ref_count b =
    default 0 (a' ← Tree.tree_search (tree (self s)) n; ref_count <$> blocks s !! a') + 1;
  got_others : forall x b', x <> a -> blocks s' !! x = Some b' ->
    exists b0, blocks s !! x = Some b0 /\ ref_count b' = ref_count b0;
  got_clean : (forall x, clean s x) -> forall x, clean s' x;
  got_view : forall m, m <> n \/ noread = 0 \/ cached s n -> view s' m = view s m;
}.

Lemma touch_ready X l s n noread a s1 :
  inv X l s -> ~ cached s n ->
  (block_count (self s) <= blocks_used (self s) -> a = victim (blocks s) l) ->
  ready X l s n noread a s1 ->
  exists b s', touch_block a s1 = Ret a s' /\ got X l s n noread a b s'.
Proof.
  intros Hi Hn Hvic (Hc1 & Hl1 & Hd1 & (b & Hb & Hbn & Hbr & Hbd & Hbl) & Ho & Hv).
  pose proof (proj2 (search_none X s n (inv_core _ _ _ Hi)) Hn) as Es.
  destruct (touch_block_ok _ l s1 a b Hc1 Hl1 (inv_nonnull _ _ _ Hi) Hb Hbl) as
    (s' & E' & Hc' & Hl' & Hv' & Hd' & Ho'); [lia|].
  destruct (proj2 (Hd' a)) as (b' & Hb'); [eauto|].
  destruct (Ho' a b' Hb') as (b0 & Hb0 & Hn0 & _ & _ & Hr0). rewrite decide_True in Hr0 by done. simplify_eq.
  exists b', s'. split; [done|]. split; rewrite ?Es; auto.
  - rewrite bool_decide_eq_false_2, orb_false_r by tauto. split; auto.
    + intros x. rewrite Hd', Hd1, elem_of_app, list_elem_of_filter, list_elem_of_singleton.
      destruct (decide (x = a)); naive_solver.
    + intros x bx Hx Hbx. destruct (Ho' x bx Hbx) as (b1 & Hb1 & _ & _ & _ & ->).
      destruct (decide (x = a)) as [->|Hxa]; [simplify_eq; lia|].
      destruct (Ho x b1 Hxa Hb1) as (b2 & Hb2 & -> & _). apply (inv_held _ _ _ Hi x b2); [|done].
      destruct (noread =? 0); set_solver.
  - simpl. lia.
  - intros x bx Hxa Hbx. destruct (Ho' x bx Hbx) as (b1 & Hb1 & _ & _ & _ & ->).
    rewrite decide_False by done. destruct (Ho x b1 Hxa Hb1) as (b2 & ? & ? & _). eauto.
  - intros Hcl x bx Hbx. destruct (Ho' x bx Hbx) as (b1 & Hb1 & _ & _ & -> & _).
    destruct (decide (x = a)) as [->|Hxa]; [congruence|].
    destruct (Ho x b1 Hxa Hb1) as (b2 & Hb2 & _ & Hd). apply Hd. by apply (Hcl x).
  - intros m Hm. rewrite Hv'. apply Hv. tauto.
Qed.

Lemma touch_cached X l s noread a b :
  inv X l s -> blocks s !! a = Some b -> ref_count b < 65535 ->
  exists b' s', touch_block a s = Ret a s' /\ got X l s (number b) noread a b' s'.
Proof.
  intros Hi Hb Hrc. pose proof (inv_core _ _ _ Hi) as Hc.
  assert (Hal : a ∈ l) by (apply (inv_dom _ _ _ Hi); eauto).
  destruct (touch_block_ok X l s a b Hc (inv_lru _ _ _ Hi) (inv_nonnull _ _ _ Hi) Hb) as
    (s' & E' & Hc' & Hl' & Hv' & Hd' & Ho'); [done|done|].
  destruct (proj2 (Hd' a)) as (b' & Hb'); [eauto|].
  destruct (Ho' a b' Hb') as (b0 & Hb0 & Hn0 & _ & _ & Hr0). rewrite decide_True in Hr0 by done.
  rewrite Hb in Hb0. injection Hb0 as <-. exists b', s'. split; [done|].
  split; rewrite ?(search_block X s a b Hc Hb); auto.
  - rewrite bool_decide_eq_true_2, orb_true_r by done. split; auto.
    + intros x. rewrite Hd', <- (inv_dom _ _ _ Hi), elem_of_app, list_elem_of_filter, list_elem_of_singleton.
      destruct (decide (x = a)); naive_solver.
    + intros x bx Hx Hbx. destruct (Ho' x bx Hbx) as (b1 & Hb1 & _ & _ & _ & ->).
      pose proof (inv_held _ _ _ Hi x b1 Hx Hb1) as Hne.
      destruct (core_block _ _ Hc _ _ Hb1) as (_ & _ & _ & ? & _).
      destruct (decide (x = a)); lia.
  - intros Hnc. destruct Hnc. by exists a, b.
  - simpl. by rewrite Hb.
  - intros x bx Hxa Hbx. destruct (Ho' x bx Hbx) as (b1 & Hb1 & _ & _ & _ & ->).
    rewrite decide_False by done. eauto.
  - intros Hcl x bx Hbx. destruct (Ho' x bx Hbx) as (b1 & Hb1 & _ & _ & -> & _). by apply (Hcl x).
Qed.

(** The outcome of [cdi_cache_block_get]. *)
Lemma block_get_ok X l s n noread :
  inv X l s -> 0 <= n < capacity ->
  (forall a b, blocks s !! a = Some b -> number b = n -> ref_count b < 65535) ->
  if decide (Tree.tree_search (tree (self s)) n <> None \/ blocks_used (self s) < block_count (self s) \/
             victim (blocks s) l <> NULL) then
    exists a b s', cdi_cache_block_get n noread s = Ret a s' /\ got X l s n noread a b s'
  else cdi_cache_block_get n noread s = Ret NULL s.
Proof.
  intros Hi Hr Hrc. pose proof (inv_core _ _ _ Hi) as Hc. pose proof (search_none X s n Hc) as Hsn.
  destruct (lookup_ok X s n Hc) as (h & Eh & f & Ef & Hf & Hfb).
  assert (Hget : cdi_cache_block_get n noread s = (a ← (if f =? NULL then obtain_block n noread else mret f);
    if a =? NULL then mret NULL else touch_block a) s).
  { unfold cdi_cache_block_get. by rewrite (bind_Ret _ _ _ _ _ Eh), (bind_Ret _ _ _ _ _ Ef). }
  rewrite Hget. clear Hget Eh Ef h. destruct (Z.eqb_spec f NULL) as [Hfn|Hfn].
  - apply Hf in Hfn. rewrite (proj2 Hsn Hfn). pose proof (obtain_block_ok X l s n noread Hi Hfn Hr) as Hob.
    destruct (decide (blocks_used (self s) < _ \/ _)) as [Hroom|Hroom].
    2:{ rewrite decide_False by tauto. by rewrite (bind_Ret _ _ _ _ _ Hob). }
    rewrite decide_True by tauto. destruct Hob as (a & s1 & E & Ha & Hvic & Hready).
    destruct (touch_ready X l s n noread a s1 Hi Hfn Hvic Hready) as (b & s' & E' & Hgot).
    exists a, b, s'. by rewrite (bind_Ret _ _ _ _ _ E), (proj2 (Z.eqb_neq a NULL)) by done.
  - destruct (Hfb Hfn) as (b & Hb & <-). rewrite decide_True by (left; by rewrite (search_block X s f b Hc Hb)).
    destruct (touch_cached X l s noread f b Hi Hb (Hrc f b Hb eq_refl)) as (b' & s' & E' & Hgot).
    exists f, b', s'. by rewrite bind_ret, (proj2 (Z.eqb_neq f NULL)) by done.
Qed.

(** ** Using a block *)

(** A change of one block that keeps its number and its place in the list. *)
Lemma inv_change X X' l s a b b' :
  inv X l s -> blocks s !! a = Some b ->
  number b' = number b -> lru_next b' = lru_next b -> lru_prev b' = lru_prev b ->
  block_ok X' (dev s) a b' -> (a ∈ X' -> ref_count b' <> 0) -> X ∖ {[a]} ⊆ X' -> X' ⊆ X ∪ {[a]} ->
  inv X' l (State (self s) (<[a := b']> (blocks s)) (dev s)).
Proof.
  intros Hi Hb En Enx Epv Hok Hheld HX HX'. pose proof (inv_core _ _ _ Hi) as Hc.
  destruct (core_tree _ _ Hc) as (Ht1 & Ht2 & Ht3). destruct (inv_lru _ _ _ Hi) as (Hs1 & Hs2 & Hs3 & Hs4).
  assert (Hne : forall x bx, x <> a -> <[a := b']> (blocks s) !! x = Some bx -> blocks s !! x = Some bx).
  { intros x bx Hx. by rewrite lookup_insert_ne. }
  split; [split|split|..]; simpl; try apply Hc; auto.
  - split_and!; auto. intros m x. rewrite Ht3. destruct (decide (x = a)) as [->|].
    + rewrite lookup_insert_eq, Hb. naive_solver.
    + by rewrite lookup_insert_ne.
  - intros x bx Hx. destruct (decide (x = a)) as [->|Hxa]; [rewrite lookup_insert_eq in Hx; by simplify_eq|].
    apply Hne in Hx; [|done]. destruct (core_block _ _ Hc x bx Hx) as (? & ? & ? & ? & Hco).
    split_and!; auto; try lia. intros HxX. apply Hco. set_solver.
  - eapply hints_ok_mono; [..|apply Hc]; [done|done|]. intros x. rewrite is_Some_insert. auto.
  - rewrite (core_used _ _ Hc), map_size_insert_Some by eauto. lia.
  - eapply seg_frame; [|exact Hs1]. intros x bx _ Hx. destruct (decide (x = a)) as [->|].
    + exists b'. rewrite lookup_insert_eq. by simplify_eq.
    + exists bx. by rewrite lookup_insert_ne.
  - intros x. rewrite (inv_dom _ _ _ Hi), is_Some_insert. naive_solver eauto.
  - intros x bx HxX Hx. destruct (decide (x = a)) as [->|Hxa]; [rewrite lookup_insert_eq in Hx; simplify_eq; auto|].
    apply Hne in Hx; [|done]. eapply (inv_held _ _ _ Hi x); [set_solver|done].
Qed.

Lemma view_change X s a b b' : core X s -> blocks s !! a = Some b ->
  forall m, view (State (self s) (<[a := b']> (blocks s)) (dev s)) m =
    if decide (m = number b) then data b' else view s m.
Proof.
  intros Hc Hb m. destruct (core_tree _ _ Hc) as (_ & Hbst & Ht). unfold view. simpl.
  destruct (decide (m = number b)) as [->|Hm].
  - by rewrite (search_block X s a b Hc Hb), lookup_insert_eq.
  - destruct (Tree.tree_search _ m) as [x|] eqn:E; [|done].
    apply tree_search_spec, Ht in E as (bx & Hx & <-); [|done].
    rewrite lookup_insert_ne; [done|]. congruence.
Qed.

(** How drivers use the cache: get a block, copy its data, release it; or get it
    without reading, fill it, mark it, release it. *)
Inductive request :=
| Read (n : Z)
| Write (n : Z) (bytes : list Z)
| Sync.

Definition serve (r : request) : cmd (state D) (list Z) :=
  match r with
  | Read n =>
      a ← cdi_cache_block_get n 0; b ← deref a; cdi_cache_block_release a;; mret (data b)
  | Write n bytes =>
      a ← cdi_cache_block_get n 1; update a (set_data bytes);; cdi_cache_block_dirty a;;
      cdi_cache_block_release a;; mret []
  | Sync => cdi_cache_sync;; mret []
  end.

Fixpoint serve_all (rs : list request) : cmd (state D) (list (list Z)) :=
  match rs with
  | [] => mret []
  | r :: rs => x ← serve r; xs ← serve_all rs; mret (x :: xs)
  end.

(** The abstract device: a function from numbers to contents. *)
Definition spec_serve (r : request) (store : Z -> list Z) : list Z * (Z -> list Z) :=
  match r with
  | Read n => (store n, store)
  | Write n bytes => ([], fun m => if decide (m = n) then bytes else store m)
  | Sync => ([], store)
  end.

Fixpoint spec_serve_all (rs : list request) (store : Z -> list Z) : list (list Z) * (Z -> list Z) :=
  match rs with
  | [] => ([], store)
  | r :: rs =>
      let '(x, store) := spec_serve r store in
      let '(xs, store) := spec_serve_all rs store in (x :: xs, store)
  end.

Definition valid (r : request) : Prop :=
  match r with
  | Read n => 0 <= n < capacity
  | Write n bytes => 0 <= n < capacity /\ length bytes = Z.to_nat bs
  | Sync => True
  end.

(** Between requests nobody holds a block. *)
Definition idle (l : list Z) (s : state D) : Prop :=
  inv ∅ l s /\ (forall a b, blocks s !! a = Some b -> ref_count b = 0) /\ 0 < block_count (self s).

Lemma victim_idle l s : idle l s -> l <> [] -> victim (blocks s) l <> NULL.
Proof.
  intros (Hi & Hz & _) Hl. destruct l as [|a l]; [done|]. simpl.
  destruct (proj1 (inv_dom _ _ _ Hi a) ltac:(set_solver)) as (b & Hb). rewrite Hb, (Hz a b Hb). simpl.
  by destruct (core_block _ _ (inv_core _ _ _ Hi) _ _ Hb).
Qed.

Lemma idle_room l s : idle l s ->
  blocks_used (self s) < block_count (self s) \/ victim (blocks s) l <> NULL.
Proof.
  intros Hid. pose proof Hid as (Hi & _ & Hcnt). destruct l as [|a l]; [left|right; by apply victim_idle].
  rewrite (core_used _ _ (inv_core _ _ _ Hi)). replace (size (blocks s)) with O; [lia|].
  symmetry. apply map_size_empty_iff. apply map_empty. intros x.
  destruct (blocks s !! x) eqn:E; [|done]. assert (Hx : x ∈ []) by (apply (inv_dom _ _ _ Hi); eauto). set_solver.
Qed.

(** Getting a block while nobody holds one. *)
Lemma idle_get l s n noread :
  idle l s -> 0 <= n < capacity ->
  exists a b s' l' X, cdi_cache_block_get n noread s = Ret a s' /\ inv X l' s' /\ X ⊆ {[a]} /\
    (noread = 0 -> X = ∅) /\ blocks s' !! a = Some b /\ number b = n /\ ref_count b = 1 /\
    (forall x b', x <> a -> blocks s' !! x = Some b' -> ref_count b' = 0) /\
    ((forall x, clean s x) -> forall x, clean s' x) /\
    (forall m, m <> n \/ noread = 0 -> view s' m = view s m).
Proof.
  intros Hid Hr. pose proof Hid as (Hi & Hz & _).
  pose proof (block_get_ok ∅ l s n noread Hi Hr) as Hg.
  rewrite decide_True in Hg by (right; by apply idle_room).
  destruct Hg as (a & b & s' & E & [Hi' Hb Hn _ Hrc Ho Hcl Hv]).
  { intros a b Hb _. rewrite (Hz a b Hb). lia. }
  eexists a, b, s', _, _. split; [done|]. split; [done|]. split; [destruct (_ || _); set_solver|].
  split; [by intros ->|]. split; [done|]. split; [done|]. split.
  - rewrite Hrc. destruct (Tree.tree_search _ n) as [a'|]; [|done]. simpl.
    destruct (blocks s !! a') as [b'|] eqn:Eb; [|done]. simpl. rewrite (Hz a' b' Eb). done.
  - split; [|split; [done|naive_solver]]. intros x b' Hx Hbx. destruct (Ho x b' Hx Hbx) as (b0 & Hb0 & ->). eauto.
Qed.

(** Releasing the only block that is held. *)
Lemma idle_release l s a b :
  inv ∅ l s -> blocks s !! a = Some b -> ref_count b = 1 ->
  (forall x b', x <> a -> blocks s !! x = Some b' -> ref_count b' = 0) ->
  exists s', cdi_cache_block_release a s = Ret tt s' /\ idle l s' /\ forall m, view s' m = view s m.
Proof.
  intros Hi Hb Hrc Hz. pose proof (inv_core _ _ _ Hi) as Hc.
  destruct (core_block _ _ Hc _ _ Hb) as (Ha & Hn & Hl & _ & Hco).
  unfold cdi_cache_block_release. erewrite update_ok by done. eexists. split; [done|].
  rewrite Hrc. simpl. split.
  - split; [|split].
    + eapply inv_change; [exact Hi|exact Hb|..]; try done; try set_solver.
    + simpl. intros x b' Hx. destruct (decide (x = a)) as [->|Hxa].
      * rewrite lookup_insert_eq in Hx. by simplify_eq.
      * rewrite lookup_insert_ne in Hx by done. eauto.
    + simpl. pose proof (core_count _ _ Hc) as Hcnt. pose proof (core_used _ _ Hc) as Hu.
      assert (size (blocks s) <> 0%nat); [|lia]. intros E. apply map_size_empty_inv in E.
      rewrite E in Hb. by rewrite lookup_empty in Hb.
  - intros m. rewrite (view_change ∅ s a b _ Hc Hb). destruct (decide _) as [->|]; [|done].
    simpl. by rewrite (view_cached ∅ s a b Hc Hb).
Qed.

(** Reading a block. *)
Lemma idle_read l s n :
  idle l s -> 0 <= n < capacity ->
  exists a b s1 s2 l', cdi_cache_block_get n 0 s = Ret a s1 /\ deref a s1 = Ret b s1 /\
    cdi_cache_block_release a s1 = Ret tt s2 /\ idle l' s2 /\ data b = view s n /\
    forall m, view s2 m = view s m.
Proof.
  intros Hid Hn. destruct (idle_get l s n 0 Hid Hn)
    as (a & b & s1 & l1 & X & E & Hi1 & _ & HX & Hb & Hbn & Hrc & Ho & _ & Hv).
  rewrite HX in Hi1 by done. destruct (core_block _ _ (inv_core _ _ _ Hi1) _ _ Hb) as (Ha & _).
  destruct (idle_release l1 s1 a b Hi1 Hb Hrc Ho) as (s2 & E2 & Hid2 & Hv2).
  exists a, b, s1, s2, l1. split_and!; auto using deref_ok.
  - rewrite <- Hv by auto. by rewrite <- Hbn, (view_cached ∅ s1 a b (inv_core _ _ _ Hi1) Hb).
  - intros m. rewrite Hv2. auto.
Qed.

(** Each request does on the cache what it does on the abstract device. *)
Lemma serve_ok l s r :
  idle l s -> valid r ->
  exists x s' l', serve r s = Ret x s' /\ idle l' s' /\ x = (spec_serve r (view s)).1 /\
    forall m, view s' m = (spec_serve r (view s)).2 m.
Proof.
  intros Hid Hval. pose proof Hid as (Hi & Hz & Hcnt). destruct r as [n|n bytes|]; cbn [serve spec_serve].
  - destruct (idle_read l s n Hid Hval) as (a & b & s1 & s2 & l1 & E & Ed & E2 & Hid2 & Hdata & Hv).
    rewrite (bind_Ret _ _ _ _ _ E), (bind_Ret _ _ _ _ _ Ed), (bind_Ret _ _ _ _ _ E2).
    by exists (data b), s2, l1.
  - destruct Hval as (Hval & Hlen).
    destruct (idle_get l s n 1 Hid Hval) as (a & b & s1 & l1 & X & E & Hi1 & HX & _ & Hb & Hn & Hrc & Ho & _ & Hv).
    pose proof (inv_core _ _ _ Hi1) as Hc1. destruct (core_block _ _ Hc1 _ _ Hb) as (Ha & Hnr & _ & _).
    rewrite (bind_Ret _ _ _ _ _ E). erewrite bind_Ret by by apply update_ok.
    unfold cdi_cache_block_dirty. erewrite bind_Ret by (apply update_ok; [done|apply lookup_insert_eq]).
    cbn [self blocks dev]. rewrite insert_insert_eq.
    set (b2 := set_dirty 1 (set_data bytes b)).
    set (s2 := State (self s1) (<[a := b2]> (blocks s1)) (dev s1)).
    assert (Hi2 : inv ∅ l1 s2).
    { eapply inv_change; [exact Hi1|exact Hb|..]; try done; try set_solver.
      split_and!; simpl; auto; try lia. }
    destruct (idle_release l1 s2 a b2 Hi2) as (s3 & E3 & Hid3 & Hv3).
    { apply lookup_insert_eq. }
    { done. }
    { intros x b' Hx. simpl. rewrite lookup_insert_ne by done. eauto. }
    rewrite (bind_Ret _ _ _ _ _ E3). exists [], s3, l1. split; [done|]. split; [done|]. split; [done|].
    intros m. rewrite Hv3. unfold s2. rewrite (view_change X s1 a b _ Hc1 Hb). simpl. rewrite Hn.
    destruct (decide (m = n)); [done|]. auto.
  - destruct (cdi_cache_sync_ok ∅ s (inv_core _ _ _ Hi)) as (s' & E & Hc' & Hs & _).
    rewrite (bind_Ret _ _ _ _ _ E). exists [], s', l. split; [done|]. split; [|split; [done|]].
    + split; [by eapply synced_inv|]. split.
      * intros a b Hb. apply (synced_lookup_inv _ _ _ _ Hs) in Hb as (b0 & Hb0 & [->| ->]); exact (Hz a b0 Hb0).
      * destruct Hs as ((buf & ->) & _). done.
    + intros m. simpl. eapply synced_view; [apply Hi|exact Hc'|done].
Qed.

Lemma spec_serve_ext r st st' : (forall m, st m = st' m) ->
  (spec_serve r st).1 = (spec_serve r st').1 /\ forall m, (spec_serve r st).2 m = (spec_serve r st').2 m.
Proof. intros E. destruct r; simpl; split; auto. intros m. by destruct (decide _). Qed.

Lemma serve_all_ok rs l s store :
  idle l s -> Forall valid rs -> (forall m, store m = view s m) ->
  exists s' l', serve_all rs s = Ret (spec_serve_all rs store).1 s' /\ idle l' s' /\
    forall m, view s' m = (spec_serve_all rs store).2 m.
Proof.
  revert l s store. induction rs as [|r rs IH]; intros l s store Hid Hval Hst.
  { exists s, l. simpl. by split_and!. }
  apply Forall_cons in Hval as (Hr & Hval).
  destruct (serve_ok l s r Hid Hr) as (x & s1 & l1 & E & Hid1 & Hx & Hv).
  destruct (spec_serve_ext r store (view s) Hst) as (Hx' & Hst').
  destruct (spec_serve r store) as [x' store'] eqn:Er. simpl in Hx', Hst'.
  destruct (IH l1 s1 store' Hid1 Hval) as (s2 & l2 & E2 & Hid2 & Hv2).
  { intros m. by rewrite Hst', Hv. }
  exists s2, l2. cbn [serve_all spec_serve_all]. rewrite Er.
  rewrite (bind_Ret _ _ _ _ _ E), (bind_Ret _ _ _ _ _ E2).
  destruct (spec_serve_all rs store'). simpl in *. subst. by split_and!.
Qed.

(** ** Creating and destroying a cache *)

Lemma create_idle plen d : idle [] (cdi_cache_create bs plen d).
Proof.
  pose proof capacity_small as (Hb & Hb4 & _).
  assert (Hnone : forall a b, (∅ : gmap Z block) !! a = Some b -> False).
  { intros a b. by rewrite lookup_empty. }
  unfold cdi_cache_create. split; [|split]; simpl; [|naive_solver|lia].
  split; [split|split|..]; simpl; auto.
  - split_and!; simpl; auto; [constructor|]. intros n a. split; [set_solver|]. intros (b & Hb' & _). by destruct (Hnone a b).
  - intros a b Hab. by destruct (Hnone a b).
  - split; [|split; [|split]]; simpl; try done.
    rewrite garbage_length, w32_small; unfold READBUF_SZ; lia.
  - split; [done|]. split; [done|]. intros h Hh. left. by apply (elem_of_replicate 8) in Hh as (-> & _).
  - lia.
  - split; [constructor|done].
  - intros a. split; [set_solver|]. intros (b & Hab). by destruct (Hnone a b).
Qed.

Lemma view_create plen d m : view (cdi_cache_create bs plen d) m = contents d m.
Proof. done. Qed.

(** Once written back, the device holds what the user sees. *)
Lemma synced_contents s : core ∅ s -> (forall a, clean s a) -> forall m, contents (dev s) m = view s m.
Proof.
  intros Hc Hcl m. destruct (Tree.tree_search (tree (self s)) m) as [a|] eqn:E.
  - destruct (core_tree _ _ Hc) as (_ & Hbst & Ht). apply tree_search_spec, Ht in E as (b & Hb & <-); [|done].
    rewrite (view_cached ∅ s a b Hc Hb). destruct (core_block _ _ Hc _ _ Hb) as (_ & _ & _ & _ & Hco).
    symmetry. apply Hco; [set_solver|]. by apply (Hcl a).
  - symmetry. apply (view_uncached ∅); [done|]. by apply (search_none ∅).
Qed.

(** The blocks that are left while the cache is destroyed. *)
Lemma destroy_loop_ok fuel s :
  tree_ok (tree (self s)) (blocks s) -> (forall a b, blocks s !! a = Some b -> a <> NULL) ->
  (length (inorder (tree (self s))) < fuel)%nat ->
  exists s', destroy_loop fuel s = Ret tt s' /\ blocks s' = ∅ /\ dev s' = dev s.
Proof.
  revert s. induction fuel as [|fuel IH]; intros s Hok Hnn Hf; [lia|]. cbn [destroy_loop].
  rewrite (bind_Ret _ _ _ _ _ (use_tree_ok s (fun n x => tree_ok_live _ _ n x Hok))).
  unfold tree_next_null. rewrite leftmost_head. pose proof Hok as (_ & Hbst & Ht).
  destruct (inorder (tree (self s))) as [|[n a] xs] eqn:Ei; simpl in *.
  - exists s. split; [done|]. split; [|done]. apply map_empty. intros a.
    destruct (blocks s !! a) as [b|] eqn:E; [|done]. assert (Hin : (number b, a) ∈ []) by (apply Ht; eauto). set_solver.
  - destruct (proj1 (Ht n a) ltac:(set_solver)) as (b & Hb & Hbn).
    destruct (remove_block_ok s a b Hok Hb) as (t' & E & Ha' & Hb' & Hx).
    rewrite (bind_Ret _ _ _ _ _ E). 
    rewrite (bind_Ret _ _ _ _ _ (free_ok (State (set_tree t' (self s)) (blocks s) (dev s)) a b (Hnn a b Hb) Hb)).
    set (s1 := State (set_tree t' (self s)) (delete a (blocks s)) (dev s)).
    destruct (IH s1) as (s2 & E2 & ? & ?); simpl.
    + split_and!; auto. intros m x. rewrite Hx. destruct (decide (x = a)) as [->|].
      * rewrite lookup_delete_eq. naive_solver.
      * rewrite lookup_delete_ne by done. naive_solver.
    + intros x bx. rewrite lookup_delete_Some. intros (_ & ?). eauto.
    + pose proof (bst_nodup _ Hbst) as Hnd. pose proof (bst_nodup _ Hb') as Hnd'. rewrite Ei in Hnd.
      apply NoDup_cons in Hnd as (Hnin & Hnd).
      assert (Hlen : (length (inorder t') <= length xs)%nat); [|lia].
      apply submseteq_length, NoDup_submseteq; [done|]. intros [m x] Hin. apply Hx in Hin as (bx & Hbx & Hm & Hxa).
      assert (Hin : (m, x) ∈ ((n, a) :: xs)) by (apply Ht; eauto).
      apply elem_of_cons in Hin as [[= -> ->]|]; done.
    + exists s2. by split_and!.
Qed.

Lemma serve_all_app rs1 rs2 s :
  serve_all (rs1 ++ rs2) s = (xs ← serve_all rs1; ys ← serve_all rs2; mret (xs ++ ys)) s.
Proof.
  revert s. induction rs1 as [|r rs1 IH]; intros s; cbn [app serve_all]; unfold mbind, cmd_bind in *; simpl.
  - by destruct (serve_all rs2 s).
  - destruct (serve r s) as [x s1|]; [|done]. rewrite IH. destruct (serve_all rs1 s1) as [xs s2|]; [|done].
    simpl. by destruct (serve_all rs2 s2).
Qed.

(** ** Theorems *)

(** C3: The cache is transparent: whatever blocks are read and written through a new
    cache of any device, reads give what was written last (or what was on the
    device), and after writing back the device holds exactly the abstract result;
    blocks may be replaced in between as often as it takes. *)
Theorem cache_refines plen d rs :
  Forall valid rs ->
  exists s, serve_all (rs ++ [Sync]) (cdi_cache_create bs plen d) =
      Ret ((spec_serve_all rs (contents d)).1 ++ [[]]) s /\
    forall m, contents (dev s) m = (spec_serve_all rs (contents d)).2 m.
Proof.
  intros Hval. destruct (serve_all_ok rs [] (cdi_cache_create bs plen d) (contents d) (create_idle plen d) Hval)
    as (s1 & l1 & E1 & ((Hi1 & _) & Hv1)); [done|].
  destruct (cdi_cache_sync_ok ∅ s1 (inv_core _ _ _ Hi1)) as (s2 & E2 & Hc2 & Hs2 & Hcl2).
  exists s2. rewrite serve_all_app, (bind_Ret _ _ _ _ _ E1). split.
  - cbn [serve_all serve]. unfold mbind, cmd_bind. by rewrite E2.
  - intros m. rewrite (synced_contents s2 Hc2 Hcl2), <- Hv1.
    exact (synced_view ∅ ∅ s1 s2 m (inv_core _ _ _ Hi1) Hc2 Hs2).
Qed.

(** Replacement is by last use: when the cache is full and the block is not in it,
    [cdi_cache_block_get] replaces the block that nobody holds and that was not
    used for the longest time, and the block becomes the one used last; when every
    block is held it gives NULL and changes nothing. *)
Theorem block_get_replaces_lru X l s n :
  inv X l s -> 0 <= n < capacity -> ~ cached s n -> block_count (self s) <= blocks_used (self s) ->
  if decide (victim (blocks s) l = NULL) then
    cdi_cache_block_get n 0 s = Ret NULL s /\ forall a b, blocks s !! a = Some b -> ref_count b <> 0
  else exists b s', cdi_cache_block_get n 0 s = Ret (victim (blocks s) l) s' /\
    inv X (filter (fun x => x <> victim (blocks s) l) l ++ [victim (blocks s) l]) s' /\
    blocks s' !! victim (blocks s) l = Some b /\ number b = n /\ data b = contents (dev s) n /\
    ref_count b = 1 /\ forall m, view s' m = view s m.
Proof.
  intros Hi Hr Hn Hfull. pose proof (inv_core _ _ _ Hi) as Hc.
  pose proof (block_get_ok X l s n 0 Hi Hr) as Hg. rewrite (proj2 (search_none X s n Hc) Hn) in Hg.
  destruct (decide (victim (blocks s) l = NULL)) as [Hv|Hv].
  - rewrite decide_False in Hg by (intros [?|[?|?]]; [done|lia|done]). split.
    + apply Hg. intros a b Hb Hbn. destruct Hn. by exists a, b.
    + intros a b Hb Hz. assert (Hin : a ∈ l) by (apply (inv_dom _ _ _ Hi); eauto).
      assert (Hall : forall x, x ∈ l -> is_Some (blocks s !! x)) by (intros x; apply (inv_dom _ _ _ Hi)).
      pose proof (inv_nonnull _ _ _ Hi) as Hnn. clear -Hv Hb Hz Hin Hall Hnn.
      induction l as [|x l IH]; [set_solver|]. simpl in Hv. apply Forall_cons in Hnn as (Hx & Hnn).
      destruct (Hall x ltac:(set_solver)) as (bx & Ebx). rewrite Ebx in Hv.
      destruct (Z.eqb_spec (ref_count bx) 0); [done|]. apply elem_of_cons in Hin as [->|Hin]; [congruence|].
      apply IH; auto. set_solver.
  - rewrite decide_True in Hg by tauto.
    destruct Hg as (a & b & s' & E & [Hi' Hb Hbn Hvic Hrc _ _ Hview]).
    { intros a b Hb Hbn. destruct Hn. by exists a, b. }
    rewrite (proj2 (search_none X s n Hc) Hn) in Hrc.
    rewrite (Hvic Hn Hfull) in *. exists b, s'. split; [done|]. split; [done|]. split; [done|]. split; [done|].
    split; [|split; [exact Hrc|intros; apply Hview; auto]].
    rewrite <- (view_cached X s' _ b (inv_core _ _ _ Hi') Hb), Hbn, Hview by auto.
    by rewrite (view_uncached X s n Hc Hn).
Qed.

(** [cdi_cache_destroy] of a cache whose blocks nobody is changing writes back all
    data and frees every block. *)
Theorem destroy_writes_and_frees l s :
  inv ∅ l s ->
  exists s', cdi_cache_destroy s = Ret tt s' /\ blocks s' = ∅ /\
    forall m, contents (dev s') m = view s m.
Proof.
  intros Hi. pose proof (inv_core _ _ _ Hi) as Hc.
  destruct (cdi_cache_sync_ok ∅ s Hc) as (s1 & E1 & Hc1 & Hs1 & Hcl1).
  unfold cdi_cache_destroy. rewrite (bind_Ret _ _ _ _ _ E1), bind_gets.
  destruct (destroy_loop_ok (S (tree_size (tree (self s1)))) s1) as (s2 & E2 & Hb2 & Hd2).
  - apply Hc1.
  - intros a b Hb. by destruct (core_block _ _ Hc1 _ _ Hb).
  - rewrite tree_size_length. lia.
  - exists s2. split_and!; auto. intros m. rewrite Hd2, (synced_contents s1 Hc1 Hcl1).
    exact (synced_view ∅ ∅ s s1 m Hc Hc1 Hs1).
Qed.

Lemma load_block_fails X s s1 a b :
  core X s -> a <> NULL -> blocks s1 !! a = Some b ->
  (read_buffer_block (self s1), read_buffer_cnt (self s1), dev s1) =
    (read_buffer_block (self s), read_buffer_cnt (self s), dev s) ->
  capacity <= number b < 281474976710656 ->
  exists s2, load_block a s1 = Ret 0 s2 /\ tree (self s2) = tree (self s1) /\ blocks s2 = blocks s1.
Proof.
  intros Hc Ha Hb E Hn. injection E as E1 E2 E3. unfold load_block.
  rewrite (bind_Ret _ _ _ _ _ (deref_ok s1 a b Ha Hb)), bind_gets, E1, E2.
  destruct (core_buffer _ _ Hc) as (_ & Hcnt & Hrb & Hs).
  assert (Hcond : (read_buffer_block (self s) =? INVBLKNUM) || (number b <? read_buffer_block (self s))
    || (w64 (read_buffer_block (self s) + read_buffer_cnt (self s)) <=? number b) = true).
  { rewrite !orb_true_iff, Z.eqb_eq, Z.ltb_lt, Z.leb_le.
    destruct (decide (read_buffer_block (self s) = INVBLKNUM)); [auto|].
    specialize (Hrb ltac:(done)). unfold w64, INVBLKNUM, READBUF_SZ in *. rewrite Z.mod_small by lia.
    destruct (decide (read_buffer_cnt (self s) = 0)); [lia|].
    destruct (Hs (read_buffer_cnt (self s) - 1)); [done|lia|]. lia. }
  rewrite Hcond. destruct (read_block_fails (dev s1) (number b) READBUF_SZ) as (d' & Er & _); [lia|done|].
  rewrite bind_assoc, (bind_Ret _ _ _ _ _ (device_read_ok _ _ _ _ _ _ Er)). cbn [fst snd].
  unfold set_self. rewrite bind_assoc, bind_modify, bind_ret. eexists. split; [done|]. done.
Qed.

(** What the code does when reading fails, which is not what it means to do: the
    new block is freed but stays in the tree, so that the next use of the tree
    looks at freed memory. *)
Theorem failed_read_dangles X l s n :
  inv X l s -> capacity <= n < 281474976710656 -> ~ cached s n -> blocks_used (self s) < block_count (self s) ->
  exists s', cdi_cache_block_get n 0 s = Ret NULL s' /\
    (exists a, (n, a) ∈ inorder (tree (self s')) /\ blocks s' !! a = None) /\
    use_tree s' = Stop UseAfterFree s'.
Proof.
  intros Hi Hn Hnc Hroom. pose proof (inv_core _ _ _ Hi) as Hc.
  destruct (lookup_ok X s n Hc) as (h & Eh & f & Ef & Hf & _). apply Hf in Hnc as Hfn. subst f.
  destruct (new_block_run X s n Hc Hnc) as (t' & Erun & Htok).
  destruct (fresh_block (blocks s)) as (Ha & _). set (a := malloc (dom (blocks s))) in *.
  set (b := Block n (garbage bs) (garbage (private_len (self s))) 0 0 NULL NULL) in *.
  set (s1 := State _ _ _) in Erun. assert (Hb : blocks s1 !! a = Some b) by apply lookup_insert_eq.
  destruct (load_block_fails X s s1 a b Hc Ha Hb eq_refl) as (s2 & E2 & Et2 & Eb2); [done|].
  unfold cdi_cache_block_get. rewrite (bind_Ret _ _ _ _ _ Eh), (bind_Ret _ _ _ _ _ Ef), Z.eqb_refl.
  unfold obtain_block. rewrite bind_assoc, bind_gets.
  rewrite (proj2 (Z.ltb_lt (blocks_used (self s)) (block_count (self s)))) by done. cbn [negb].
  rewrite bind_assoc, (bind_Ret _ _ _ _ _ Erun), (proj2 (Z.eqb_neq a NULL)) by done. rewrite Z.eqb_refl.
  rewrite !bind_assoc, (bind_Ret _ _ _ _ _ E2). cbn [negb Z.eqb]. rewrite bind_ret.
  unfold set_self. rewrite !bind_assoc, bind_ret, bind_assoc, bind_modify.
  rewrite !bind_assoc. erewrite bind_Ret by (apply (free_ok _ a b); [done|cbn [blocks]; by rewrite Eb2]).
  rewrite bind_ret. cbn [self blocks dev]. eexists. split; [done|].
  assert (Hin : (n, a) ∈ inorder (tree (self s2))).
  { rewrite Et2. apply Htok. exists b. split; [exact Hb|done]. }
  split.
  - exists a. split; [exact Hin|]. cbn. apply lookup_delete_eq.
  - unfold use_tree. cbn [self blocks set_blocks_used tree].
    destruct (forallb _ _) eqn:Efa; [|done]. exfalso. rewrite forallb_forall in Efa.
    specialize (Efa (n, a) (proj1 (list_elem_of_In _ _) Hin)). apply bool_decide_eq_true in Efa as (? & Hx).
    simpl in Hx. by rewrite lookup_delete_eq in Hx.
Qed.

End proofs.

(** ** A device *)

(** A small disk in memory: eight blocks of two bytes. *)
Module Disk.

Record disk := { store : gmap Z (Z * Z) }.

Definition get (d : disk) (n : Z) : list Z := let '(x, y) := default (0, 0) (store d !! n) in [x; y].

Definition blocks_from (n count : Z) : Z := Z.max 0 (Z.min count (8 - n)).

#[export] Instance disk_device : Device disk := {|
  read_block d n count :=
    (blocks_from n count, concat (get d <$> seqZ n (blocks_from n count)), d);
  write_block d n count bytes :=
    match bytes with
    | x :: y :: _ =>
        if (0 <=? n) && (n <? 8) then (1, {| store := <[n := (x, y)]> (store d) |}) else (0, d)
    | _ => (0, d)
    end;
|}.

#[export, program] Instance disk_laws : DeviceLaws disk 2 8 := {| contents := get |}.
Next Obligation. unfold INVBLKNUM. lia. Qed.
Next Obligation. intros d n _. unfold get. by destruct (default _ _). Qed.
Next Obligation.
  intros d n count Hn Hc. exists (blocks_from n count), d. unfold blocks_from. split; [done|].
  split; [lia|]. split; [lia|done].
Qed.
Next Obligation.
  intros d n count Hn _. exists d. simpl. replace (blocks_from n count) with 0; [done|].
  unfold blocks_from. lia.
Qed.
Next Obligation.
  intros d n [|x [|y [|z bytes]]] Hn Hl; try done. simpl.
  rewrite (proj2 (Z.leb_le 0 n)), (proj2 (Z.ltb_lt n 8)) by lia. do 2 eexists. split; [done|].
  split; [done|]. intros m. unfold get. simpl. destruct (decide (m = n)) as [->|].
  - by rewrite lookup_insert_eq.
  - by rewrite lookup_insert_ne.
Qed.

#[export, program] Instance zero_garbage : Garbage := {| garbage n := replicate (Z.to_nat n) 0 |}.
Next Obligation. intros n. apply length_replicate. Qed.

Definition empty : disk := {| store := ∅ |}.

(** A full cache of one block that nobody holds. *)
Definition full : state disk :=
  match (a ← cdi_cache_block_get 0 0; cdi_cache_block_release a) (cdi_cache_create 2 0 empty) with
  | Ret _ s => State (Cache 2 0 1 1 (tree (self s)) (lru_first (self s)) (lru_last (self s))
      (read_buffer (self s)) (read_buffer_block (self s)) (read_buffer_cnt (self s)) (hints (self s))
      (prev_hint (self s))) (blocks s) (dev s)
  | Stop _ s => s
  end.

Lemma full_shape : full = State
  (Cache 2 0 1 1 (Item Null 0 1 0 Null) 1 1 (replicate 8 0) 0 4 [0; 1; 0; 0; 0; 0; 0; 0] 1)
  {[1 := Block 0 [0; 0] [] 0 0 0 0]} empty.
Proof. vm_compute. reflexivity. Qed.

Lemma full_inv : inv (bs := 2) (capacity := 8) ∅ [1] full.
Proof.
  rewrite full_shape.
  assert (Hone : forall a b, ({[1 := Block 0 [0; 0] [] 0 0 0 0]} : gmap Z block) !! a = Some b ->
    a = 1 /\ b = Block 0 [0; 0] [] 0 0 0 0) by (intros a b; rewrite lookup_singleton_Some; naive_solver).
  split; [split|split|..]; simpl; auto.
  - split; [simpl; lia|]. split; [unfold bst; vm_compute; repeat constructor|].
    intros n a. simpl. rewrite list_elem_of_singleton. split.
    + intros [= -> ->]. eexists. by rewrite lookup_singleton_eq.
    + intros (b & (-> & ->)%Hone & <-). done.
  - intros a b (-> & ->)%Hone. split_and!; simpl; auto; lia.
  - split; [done|]. split; [done|]. split; [done|]. simpl. intros i _ Hi. split; [lia|].
    assert (i = 0 \/ i = 1 \/ i = 2 \/ i = 3) as [->|[->|[->| ->]]] by lia; done.
  - split; [done|]. split; [done|]. simpl. intros h Hh.
    assert (h = 0 \/ h = 1) as [->| ->] by set_solver; [by left|right]. exists (Block 0 [0; 0] [] 0 0 0 0). apply lookup_singleton_eq.
  - lia.
  - split; [|done]. eexists. by rewrite lookup_singleton_eq.
  - split; [apply NoDup_singleton|done].
  - intros a. rewrite list_elem_of_singleton. split.
    + intros ->. exists (Block 0 [0; 0] [] 0 0 0 0). apply lookup_singleton_eq.
    + by intros (b & (-> & _)%Hone).
Qed.

Lemma cache_refines_witness :
  Forall (valid (bs := 2) (capacity := 8)) [Write 3 [7; 8]; Read 3; Read 5; Write 3 [9; 9]] /\
  exists s, serve_all ([Write 3 [7; 8]; Read 3; Read 5; Write 3 [9; 9]] ++ [Sync]) (cdi_cache_create 2 0 empty) =
      Ret [[]; [7; 8]; [0; 0]; []; []] s /\ get (dev s) 3 = [9; 9].
Proof.
  assert (Hv : Forall (valid (bs := 2) (capacity := 8)) [Write 3 [7; 8]; Read 3; Read 5; Write 3 [9; 9]]).
  { repeat constructor; simpl; lia. }
  split; [exact Hv|].
  destruct (cache_refines (bs := 2) (capacity := 8) 0 empty _ Hv) as (s & E & Hs).
  exists s. split; [exact E|exact (Hs 3)].
Defined.

Lemma block_get_replaces_lru_witness :
  exists b s', cdi_cache_block_get 5 0 full = Ret 1 s' /\
    inv (bs := 2) (capacity := 8) ∅ [1] s' /\ blocks s' !! 1 = Some b /\ number b = 5 /\ data b = get (dev full) 5 /\
    ref_count b = 1 /\ forall m, view (capacity := 8) s' m = view (capacity := 8) full m.
Proof.
  assert (Hn : ~ cached full 5).
  { intros (a & b & Hb & E). rewrite full_shape in Hb. simpl in Hb.
    apply lookup_singleton_Some in Hb as (_ & <-). discriminate E. }
  apply (block_get_replaces_lru (bs := 2) (capacity := 8) ∅ [1] full 5 full_inv); [lia|exact Hn|].
  rewrite full_shape. simpl. lia.
Defined.

Lemma destroy_writes_and_frees_witness :
  exists s', cdi_cache_destroy full = Ret tt s' /\ blocks s' = ∅ /\
    forall m, get (dev s') m = view (capacity := 8) full m.
Proof. apply (destroy_writes_and_frees (bs := 2) (capacity := 8) [1] full full_inv). Defined.

Lemma failed_read_dangles_witness :
  exists s', cdi_cache_block_get 8 0 (cdi_cache_create 2 0 empty) = Ret NULL s' /\
    (exists a, (8, a) ∈ inorder (tree (self s')) /\ blocks s' !! a = None) /\
    use_tree s' = Stop UseAfterFree s'.
Proof.
  apply (failed_read_dangles (bs := 2) (capacity := 8) ∅ [] (cdi_cache_create 2 0 empty) 8).
  - apply create_idle.
  - unfold INVBLKNUM. lia.
  - intros (a & b & Hb & _). simpl in Hb. by rewrite lookup_empty in Hb.
  - simpl. lia.
Defined.

End Disk.
