(* ===== verification/Fat.v ===== *)
(** * The FAT file system driver (apps/fat)

    The driver on the block cache: sectors (sector.c), cluster chains (cluster.c),
    the boot sector and mounting (bootsector.c, init.c), directories (dir.c), files
    (file.c) and resources (res.c).  The volume is the byte device below the cache
    ([cdi_fs_data_read] and [cdi_fs_data_write] of libcdi), an interface.

    A buffer that a function fills is passed with its old contents and returned
    with the new ones, so that what is left unwritten is visible. *)

From S2P Require Import Prelude LList Tree Machine CString Cache.

(** [cdi_fs_data_read] and [cdi_fs_data_write]: the bytes read, the number of bytes
    written. *)
Class Volume (V : Type) := {
  data_read : V -> Z -> Z -> list Z * V;
  data_write : V -> Z -> list Z -> Z * V;
}.

(** ** Boot sector (bootsector.h, bootsector.c, init.c) *)

Inductive fat_type_t := FAT12 | FAT16 | FAT32.

#[export] Instance fat_type_eq_dec : EqDecision fat_type_t.
Proof. solve_decision. Defined.

(** The fields the driver uses. *)
Record fat_bootsector := Bootsector {
  sector_size : Z;
  cluster_size : Z;
  reserved_sectors : Z;
  num_fats : Z;
  rootdir_max_ent : Z;
  num_sectors_small : Z;
  fat_size_small : Z;
  num_sectors : Z;
  fat_type_name : list Z;
  fat32_fat_size : Z;
  fat32_root_cluster : Z;
}.

(** A little-endian field of a packed structure. *)
Definition field (bytes : list Z) (off len : Z) : Z := le32 (subrange bytes off len).

Definition parse_bootsector (bytes : list Z) : fat_bootsector :=
  Bootsector (field bytes 11 2) (field bytes 13 1) (field bytes 14 2) (field bytes 16 1)
    (field bytes 17 2) (field bytes 19 2) (field bytes 22 2) (field bytes 32 4)
    (subrange bytes 54 8) (field bytes 36 4) (field bytes 44 4).

Definition fat_bootsector_load {V} `{Volume V} (v : V) : option fat_bootsector * V :=
  let '(bytes, v) := data_read v 0 512 in
  (if Z.of_nat (length bytes) =? 512 then Some (parse_bootsector bytes) else None, v).

Definition fat_num_sectors (bs : fat_bootsector) : Z :=
  if num_sectors_small bs =? 0 then num_sectors bs else num_sectors_small bs.

Definition fat_fat_sectors (bs : fat_bootsector) : Z :=
  if fat_size_small bs =? 0 then fat32_fat_size bs else fat_size_small bs.

Definition fat_fat_size (bs : fat_bootsector) : Z := w64 (fat_fat_sectors bs * sector_size bs).

Definition fat_fat_start (bs : fat_bootsector) (n : Z) : Z :=
  w64 (reserved_sectors bs * sector_size bs + fat_fat_size bs * n).

Definition fat_type (bs : fat_bootsector) : fat_type_t :=
  if rootdir_max_ent bs =? 0 then FAT32
  else if bool_decide (fat_type_name bs = [70; 65; 84; 49; 54; 32; 32; 32]) then FAT16
  else FAT12.

Record fat_fs_filesystem := FatFs {
  bootsector : fat_bootsector;
  type : fat_type_t;
  data_area : Z;
}.

(** ** Sectors (sector.c) *)

(** The callbacks of the cache. *)
Definition fat_sector_read_cache {V} `{Volume V} (bs : fat_bootsector) (v : V) (block count : Z) : Z * list Z * V :=
  let '(bytes, v) := data_read v (w64 (block * sector_size bs)) (w32 (count * sector_size bs)) in
  (Z.of_nat (length bytes) / sector_size bs, bytes, v).

Definition fat_sector_write_cache {V} `{Volume V} (bs : fat_bootsector) (v : V) (block count : Z) (bytes : list Z) : Z * V :=
  let '(n, v) := data_write v (w64 (block * sector_size bs)) (take (Z.to_nat (w32 (count * sector_size bs))) bytes) in
  (n / sector_size bs, v).

Section driver.
Context {D : Type} `{DD : Device D} `{MM : Malloc} `{GG : Garbage}.

Fixpoint read_loop (fuel : nat) (ss block offset rem_size : Z) : cmd (state D) (list Z) :=
  match fuel with
  | O => if rem_size =? 0 then mret [] else stop_with Hang
  | S fuel =>
      if rem_size =? 0 then mret []
      else
        a ← cdi_cache_block_get block 0;
        b ← deref a;
        let cur_size := if ss <? rem_size then ss else rem_size in
        if offset + cur_size <=? Z.of_nat (length (data b)) then
          cdi_cache_block_release a;;
          rest ← read_loop fuel ss (w32 (block + 1)) 0 (rem_size - cur_size);
          mret (subrange (data b) offset cur_size ++ rest)
        else stop_with OutOfBounds
  end.

(** The number of bytes read, and the buffer. *)
Definition fat_read (fs : fat_fs_filesystem) (pos size : Z) (buffer : list Z) : cmd (state D) (Z * list Z) :=
  let ss := sector_size (bootsector fs) in
  if ss =? 0 then stop_with Panic
  else
    let block := w32 (pos / ss) in
    if fat_num_sectors (bootsector fs) <=? block then mret (0, buffer)
    else bytes ← read_loop (Z.to_nat size) ss block (pos mod ss) size; mret (size, bytes).

Fixpoint write_loop (fuel : nat) (ss block offset : Z) (buffer : list Z) : cmd (state D) unit :=
  match fuel with
  | O => if Z.of_nat (length buffer) =? 0 then mret tt else stop_with Hang
  | S fuel =>
      let rem_size := Z.of_nat (length buffer) in
      if rem_size =? 0 then mret tt
      else
        a ← cdi_cache_block_get block 0;
        b ← deref a;
        let cur_size := if ss <? rem_size then ss else rem_size in
        if offset + cur_size <=? Z.of_nat (length (data b)) then
          update a (set_data (splice (data b) offset (take (Z.to_nat cur_size) buffer)));;
          cdi_cache_block_release a;;
          write_loop fuel ss (w32 (block + 1)) 0 (drop (Z.to_nat cur_size) buffer)
        else stop_with OutOfBounds
  end.

Definition fat_write (fs : fat_fs_filesystem) (pos : Z) (buffer : list Z) : cmd (state D) Z :=
  let ss := sector_size (bootsector fs) in
  if ss =? 0 then stop_with Panic
  else
    let block := w32 (pos / ss) in
    if fat_num_sectors (bootsector fs) <=? block then mret 0
    else write_loop (length buffer) ss block (pos mod ss) buffer;; mret (Z.of_nat (length buffer)).

(** ** Clusters (cluster.c) *)

(** The entry of the allocation table for a cluster; [ent] is not initialised when
    nothing is read. *)
Definition fat_entry (fs : fat_fs_filesystem) (cluster : Z) : cmd (state D) Z :=
  let start := fat_fat_start (bootsector fs) 0 in
  match type fs with
  | FAT12 =>
      x ← fat_read fs (w64 (start + w32 (cluster * 3) / 2)) 2 (garbage 2);
      let ent := le32 x.2 in
      mret (Z.land (if cluster mod 2 =? 1 then Z.shiftr ent 4 else ent) 4095)
  | FAT16 =>
      x ← fat_read fs (w64 (start + w32 (cluster * 2))) 2 (garbage 2); mret (le32 x.2)
  | FAT32 =>
      x ← fat_read fs (w64 (start + w32 (cluster * 4))) 4 (garbage 4); mret (Z.land (le32 x.2) 268435455)
  end.

Definition entry_is_last (t : fat_type_t) (ent : Z) : bool :=
  (ent <? 3) ||
  match t with FAT12 => 4087 <? ent | FAT16 => 65527 <? ent | FAT32 => 268435447 <? ent end.

(** Where a cluster lies on the volume. *)
Definition cluster_pos (fs : fat_fs_filesystem) (cluster : Z) : Z :=
  w64 (data_area fs + (cluster - 2) * cluster_size (bootsector fs) * sector_size (bootsector fs)).

Fixpoint clchain_loop (fuel : nat) (fs : fat_fs_filesystem) (cluster : Z) : cmd (state D) (list Z) :=
  match fuel with
  | O => stop_with Hang
  | S fuel =>
      ent ← fat_entry fs cluster;
      rest ← (if entry_is_last (type fs) ent then mret [] else clchain_loop fuel fs ent);
      mret (cluster_pos fs cluster :: rest)
  end.

(** A chain without a cycle has at most as many clusters as an entry has values; on
    a cycle the loop does not end. *)
Definition max_clusters (t : fat_type_t) : nat :=
  Z.to_nat (match t with FAT12 => 4096 | FAT16 => 65536 | FAT32 => 268435456 end).

Definition fat_clchain_create (fs : fat_fs_filesystem) (first_cluster : Z) : cmd (state D) (list Z) :=
  clchain_loop (S (max_clusters (type fs))) fs first_cluster.

Definition bytes_per_cluster (fs : fat_fs_filesystem) : Z :=
  cluster_size (bootsector fs) * sector_size (bootsector fs).

Fixpoint cluster_read_loop (fuel : nat) (fs : fat_fs_filesystem) (clusters : list Z)
    (cluster_num offset rem_size : Z) (buf : list Z) : cmd (state D) (list Z) :=
  match fuel with
  | O => if rem_size =? 0 then mret [] else stop_with Hang
  | S fuel =>
      if rem_size =? 0 then mret []
      else
        let cur_size := Z.min (bytes_per_cluster fs - offset) rem_size in
        match clusters !! Z.to_nat cluster_num with
        | None => stop_with OutOfBounds
        | Some pos =>
            x ← fat_read fs (w64 (pos + offset)) cur_size (take (Z.to_nat cur_size) buf);
            rest ← cluster_read_loop fuel fs clusters (cluster_num + 1) 0 (rem_size - cur_size)
                     (drop (Z.to_nat cur_size) buf);
            mret (x.2 ++ rest)
        end
  end.

Definition fat_cluster_read (fs : fat_fs_filesystem) (clusters : list Z) (start size : Z) (buf : list Z)
    : cmd (state D) (Z * list Z) :=
  let cs := bytes_per_cluster fs in
  if cs =? 0 then stop_with Panic
  else
    bytes ← cluster_read_loop (Z.to_nat size) fs clusters (w32 (start / cs)) (start mod cs) size buf;
    mret (size, bytes).

Fixpoint cluster_write_loop (fuel : nat) (fs : fat_fs_filesystem) (clusters : list Z)
    (cluster_num offset : Z) (buf : list Z) : cmd (state D) unit :=
  match fuel with
  | O => if Z.of_nat (length buf) =? 0 then mret tt else stop_with Hang
  | S fuel =>
      if Z.of_nat (length buf) =? 0 then mret tt
      else
        let cur_size := Z.min (bytes_per_cluster fs - offset) (Z.of_nat (length buf)) in
        match clusters !! Z.to_nat cluster_num with
        | None => stop_with OutOfBounds
        | Some pos =>
            fat_write fs (w64 (pos + offset)) (take (Z.to_nat cur_size) buf);;
            cluster_write_loop fuel fs clusters (cluster_num + 1) 0 (drop (Z.to_nat cur_size) buf)
        end
  end.

Definition fat_cluster_write (fs : fat_fs_filesystem) (clusters : list Z) (start : Z) (buf : list Z)
    : cmd (state D) Z :=
  let cs := bytes_per_cluster fs in
  if cs =? 0 then stop_with Panic
  else
    cluster_write_loop (length buf) fs clusters (w32 (start / cs)) (start mod cs) buf;;
    mret (Z.of_nat (length buf)).

(** ** Directory entries (dirent.h, dir.c) *)

Definition SPACE : Z := 32.

Definition illegal : list Z :=
  [34; 42; 43; 44; 46; 47; 58; 59; 60; 61; 62; 63; 91; 92; 93; 124].

(** [name] is a [char*] to the eleven bytes of name and extension. *)
Definition check_filename (name : list Z) : bool :=
  negb (s8 (name !!! O) =? SPACE) &&
  forallb (fun c => negb (s8 c <? SPACE) && negb (bool_decide (s8 c ∈ illegal))) (take 11 name).

(** The length without the spaces at the end. *)
Fixpoint used_length (i len : nat) (s : list Z) : nat :=
  match s with
  | [] => len
  | c :: s => used_length (S i) (if c =? SPACE then len else S i) s
  end.

(** [for (i=0;i<filename[i];i++)], the index compared with the character. *)
Fixpoint lower_loop (i : Z) (s : list Z) : list Z :=
  match s with
  | [] => []
  | c :: s' => if i <? w32 (s8 c) then w8 (tolower (s8 c)) :: lower_loop (i + 1) s' else s
  end.

Definition parse_name (name ext : list Z) : list Z :=
  let name_len := used_length 0 0 name in
  let ext_len := used_length 0 0 ext in
  lower_loop 0 (take name_len name ++ if (0 <? ext_len)%nat then 46 :: take ext_len ext else []).

(** [n] elements of two bytes from [off] on. *)
Definition ucs2toutf8 (bytes : list Z) (off : Z) (n : nat) : list Z :=
  (fun i => Z.land (field bytes (off + 2 * Z.of_nat i) 2) 255) <$> seq 0 n.

Definition long_part (e : list Z) : list Z :=
  ucs2toutf8 e 1 5 ++ ucs2toutf8 e 14 6 ++ ucs2toutf8 e 28 2.

(** What [strdup] copies. *)
Fixpoint cut_string (s : list Z) : list Z :=
  match s with
  | [] => []
  | c :: s => if c =? 0 then [] else c :: cut_string s
  end.

Inductive res_class := CLASS_FILE | CLASS_DIR.

(** [struct fat_fs_res]; the file system is an argument of the functions. *)
Inductive fat_fs_res := Res {
  name : list Z;
  class : res_class;
  ext_data : Z;
  filesize : Z;
  readonly : bool;
  clusters : list Z;
  loaded : bool;
  children : option (list fat_fs_res);
}.

Definition fat_fs_res_create (name : list Z) (class : res_class) : fat_fs_res :=
  Res (cut_string name) class 0 0 false [] false None.

(** The driver's state: the cache and the static [long_dirents]. *)
Record driver := Driver { fcache : state D; long_dirents : option (list (list Z)) }.

Definition on_cache {A} (c : cmd (state D) A) : cmd driver A := fun st =>
  match c (fcache st) with
  | Ret a s => Ret a (Driver s (long_dirents st))
  | Stop w s => Stop w (Driver s (long_dirents st))
  end.

Definition attr (dirent : list Z) (i : Z) : bool := Z.testbit (dirent !!! 11%nat) i.

(** The name of a short entry, if it is a legal one. *)
Definition short_name (dirent : list Z) : option (list Z) :=
  if check_filename dirent then Some (parse_name (take 8 dirent) (subrange dirent 8 3)) else None.

Definition fat32_first_cluster (dirent : list Z) : Z :=
  Z.lor (w32 (Z.shiftl (field dirent 20 2) 16)) (field dirent 26 2).

Definition fat_dirent_load (fs : fat_fs_filesystem) (dirent : list Z) : cmd driver (option fat_fs_res) :=
  if attr dirent 1 && attr dirent 2 && attr dirent 3 && attr dirent 0 && (dirent !!! 12%nat =? 0) then
    modify (fun st => Driver (fcache st) (Some (dirent :: default [] (long_dirents st))));; mret None
  else if negb (attr dirent 3) && negb (attr dirent 2) && negb (attr dirent 1) && negb (dirent !!! O =? 46) then
    ld ← gets long_dirents;
    fname ← (match ld with
            | None => mret (short_name dirent)
            | Some l =>
                modify (fun st => Driver (fcache st) None);;
                mret (Some (concat (long_part <$> l)))
            end);
    match fname with
    | None => mret None
    | Some fname =>
        cl ← on_cache (fat_clchain_create fs
               (match type fs with FAT32 => fat32_first_cluster dirent | _ => field dirent 26 2 end));
        let r := fat_fs_res_create fname (if attr dirent 4 then CLASS_DIR else CLASS_FILE) in
        mret (Some (Res (name r) (class r) (ext_data r) (field dirent 28 4) (attr dirent 0) cl
          (loaded r) (children r)))
    end
  else mret None.

(** One directory after another entry; [read i] fetches entry [i]. *)
Fixpoint dir_loop (fuel : nat) (fs : fat_fs_filesystem) (read : Z -> cmd (state D) (Z * list Z))
    (i : Z) (dirlist : list fat_fs_res) : cmd driver (list fat_fs_res) :=
  match fuel with
  | O => stop_with Hang
  | S fuel =>
      x ← on_cache (read i);
      let first := x.2 !!! O in
      if first =? 229 then dir_loop fuel fs read (i + 1) dirlist
      else if first =? 0 then mret dirlist
      else
        r ← fat_dirent_load fs (if first =? 5 then <[O := 229]> x.2 else x.2);
        dir_loop fuel fs read (i + 1) (match r with Some r => r :: dirlist | None => dirlist end)
  end.

(** Entries until the end of the volume. *)
Definition entries_on_volume (fs : fat_fs_filesystem) : nat :=
  S (S (Z.to_nat (fat_num_sectors (bootsector fs) * sector_size (bootsector fs) / 32))).

Definition fat12_16_rootdir_load (fs : fat_fs_filesystem) (root : fat_fs_res) : cmd driver (list fat_fs_res) :=
  dir_loop (entries_on_volume fs) fs
    (fun i => fat_read fs (w64 (ext_data root + w32 (i * 32))) 32 (garbage 32)) 0 [].

Definition fat_dir_load (fs : fat_fs_filesystem) (is_root : bool) (r : fat_fs_res) : cmd driver (list fat_fs_res) :=
  if is_root && bool_decide (type fs <> FAT32) then fat12_16_rootdir_load fs r
  else
    dir_loop (S (Z.to_nat (Z.of_nat (length (clusters r)) * bytes_per_cluster fs / 32))) fs
      (fun i => fat_cluster_read fs (clusters r) (w32 (i * 32)) 32 (garbage 32)) 0 [].

(** ** Files and resources (file.c, res.c) *)

Definition fat_fs_file_read (fs : fat_fs_filesystem) (r : fat_fs_res) (start size : Z) (buffer : list Z)
    : cmd (state D) (Z * list Z) :=
  if filesize r <? start then mret (0, buffer)
  else
    let size := if filesize r <? w64 (start + size) then w32 (filesize r - start) else size in
    x ← fat_cluster_read fs (clusters r) start size buffer; mret (size, x.2).

Definition fat_fs_file_write (read_only : bool) (fs : fat_fs_filesystem) (r : fat_fs_res) (start : Z)
    (buffer : list Z) : cmd (state D) Z :=
  if read_only then mret 0
  else if filesize r <? w64 (start + Z.of_nat (length buffer)) then mret 0
  else fat_cluster_write fs (clusters r) start buffer;; mret (Z.of_nat (length buffer)).

Definition set_children (c : option (list fat_fs_res)) (l : bool) (r : fat_fs_res) : fat_fs_res :=
  Res (name r) (class r) (ext_data r) (filesize r) (readonly r) (clusters r) l c.

Definition fat_fs_res_load (fs : fat_fs_filesystem) (is_root : bool) (r : fat_fs_res) : cmd driver fat_fs_res :=
  if loaded r then mret r
  else
    ch ← (match class r with CLASS_DIR => fat_dir_load fs is_root r | CLASS_FILE => mret [] end);
    mret (set_children (Some ch) true r).

Definition fat_fs_res_unload (r : fat_fs_res) : cmd driver fat_fs_res :=
  if loaded r then on_cache cdi_cache_sync;; mret (set_children None false r) else mret r.

Inductive meta := META_SIZE | META_USEDBLOCKS | META_BESTBLOCKSZ | META_BLOCKSZ | META_CREATETIME
| META_ACCESSTIME | META_CHANGETIME.

Definition fat_fs_res_meta_read (fs : fat_fs_filesystem) (r : fat_fs_res) (m : meta) : Z :=
  match m with
  | META_SIZE => filesize r
  | META_USEDBLOCKS =>
      w32 (w32 (filesize r - 1) / sector_size (bootsector fs) * cluster_size (bootsector fs))
  | META_BESTBLOCKSZ | META_BLOCKSZ => bytes_per_cluster fs
  | _ => 0
  end.

(** [fat_fs_dir_list]: the children as they were loaded. *)
Definition fat_fs_dir_list (r : fat_fs_res) : option (list fat_fs_res) := children r.

End driver.

(** ** Mounting (init.c) *)

Section mount.
Context {V : Type} `{VV : Volume V} `{MM : Malloc} `{GG : Garbage}.

(** The device given to [cdi_cache_create]. *)
Definition fat_device (bs : fat_bootsector) : Device V :=
  {| read_block := fat_sector_read_cache bs; write_block := fat_sector_write_cache bs |}.

Definition root_of (ext : Z) (cl : list Z) : fat_fs_res :=
  let r := fat_fs_res_create [47] CLASS_DIR in
  Res (name r) (class r) ext 0 (readonly r) cl (loaded r) (children r).

(** [fat_fs_init]: nothing when the boot sector cannot be read; else the file
    system and its root, with the new cache. *)
Definition fat_fs_init (v : V) : option (outcome (state V) (fat_fs_filesystem * fat_fs_res)) :=
  let '(b, v) := fat_bootsector_load v in
  match b with
  | None => None
  | Some bs =>
      let s := cdi_cache_create (sector_size bs) 0 v in
      let after_fats := fat_fat_start bs (num_fats bs) in
      Some (match fat_type bs with
            | FAT32 =>
                let fs := FatFs bs FAT32 after_fats in
                (cl ← fat_clchain_create (DD := fat_device bs) fs (fat32_root_cluster bs);
                 mret (fs, root_of 0 cl)) s
            | t =>
                Ret (FatFs bs t (w64 (after_fats + rootdir_max_ent bs * 32)), root_of after_fats []) s
            end)
  end.
End mount.

(** ** Correctness *)

Section proofs.
Context {D : Type} `{DD : Device D} `{MM : Malloc} `{GG : Garbage} {ss capacity : Z}
  `{LL : !DeviceLaws D ss capacity}.
Implicit Types s : state D.

(** The volume as the driver sees it through the cache. *)
Definition byte_at (s : state D) (p : Z) : Z := view (capacity := capacity) s (p / ss) !!! Z.to_nat (p mod ss).

Definition volume (s : state D) (pos size : Z) : list Z := byte_at s <$> seqZ pos size.

Definition same_view (s s' : state D) : Prop :=
  forall m, view (capacity := capacity) s' m = view (capacity := capacity) s m.

Lemma same_view_volume s s' pos size : same_view s s' -> volume s' pos size = volume s pos size.
Proof. intros Hv. apply list_fmap_ext. intros i p _. unfold byte_at. by rewrite Hv. Qed.

Lemma same_view_trans s1 s2 s3 : same_view s1 s2 -> same_view s2 s3 -> same_view s1 s3.
Proof. intros H1 H2 m. by rewrite H2. Qed.

Lemma length_volume s pos size : 0 <= size -> length (volume s pos size) = Z.to_nat size.
Proof. intros. unfold volume. rewrite length_fmap, length_seqZ. done. Qed.

Lemma volume_app s pos n k : 0 <= n -> 0 <= k ->
  volume s pos (n + k) = (volume s pos n ++ volume s (pos + n) k).
Proof. intros. unfold volume. by rewrite seqZ_app, fmap_app by lia. Qed.

Lemma view_length X s n : core (bs := ss) (capacity := capacity) X s -> 0 <= n < capacity ->
  length (view (capacity := capacity) s n) = Z.to_nat ss.
Proof.
  intros Hc Hn. destruct (Tree.tree_search (tree (self s)) n) as [a|] eqn:E.
  - destruct (core_tree _ _ Hc) as (_ & Hbst & Ht). apply tree_search_spec, Ht in E as (b & Hb & <-); [|done].
    rewrite (view_cached X s a b Hc Hb). by destruct (core_block _ _ Hc _ _ Hb) as (_ & _ & ? & _).
  - rewrite (view_uncached X); [by apply contents_length|done|]. by apply (search_none X).
Qed.

(** Bytes of one sector. *)
Lemma sector_bytes X s n off len :
  core (bs := ss) (capacity := capacity) X s -> 0 <= n < capacity -> 0 <= off -> 0 <= len -> off + len <= ss ->
  subrange (view (capacity := capacity) s n) off len = volume s (n * ss + off) len.
Proof.
  intros Hc Hn Ho Hl Hle. pose proof (view_length X s n Hc Hn) as Hlen.
  pose proof (capacity_small (D := D) (bs := ss) (capacity := capacity)) as (Hss & _).
  apply list_eq_same_length with (length (volume s (n * ss + off) len)).
  - done.
  - unfold subrange. rewrite length_take, length_drop, length_volume by lia. lia.
  - intros i x y Hi Hx Hy. unfold subrange in Hx.
    apply lookup_take_Some in Hx as (Hx & Hil). rewrite lookup_drop in Hx.
    unfold volume in Hy. rewrite list_lookup_fmap in Hy.
    destruct (seqZ _ _ !! i) as [p|] eqn:Ep; [|done]. simpl in Hy. simplify_eq.
    apply lookup_seqZ in Ep as (-> & _). unfold byte_at.
    replace ((n * ss + off + Z.of_nat i) / ss) with n by (apply (Z.div_unique _ _ _ (off + Z.of_nat i)); lia).
    replace ((n * ss + off + Z.of_nat i) mod ss) with (off + Z.of_nat i)
      by (apply (Z.mod_unique _ _ n); lia).
    symmetry. apply list_lookup_total_correct. rewrite <- Hx. f_equal. lia.
Qed.

(** A request that starts at a sector or stays inside of one. *)
Definition aligned (pos size : Z) : Prop := pos mod ss = 0 \/ pos mod ss + size <= ss.

Lemma read_loop_ok fuel l s block off rem :
  idle (bs := ss) (capacity := capacity) l s -> 0 <= block -> 0 <= off < ss -> 0 <= rem ->
  (off = 0 \/ off + rem <= ss) -> block * ss + off + rem <= capacity * ss -> capacity < 4294967296 ->
  (Z.to_nat rem <= fuel)%nat ->
  exists s' l', read_loop fuel ss block off rem s = Ret (volume s (block * ss + off) rem) s' /\
    idle (bs := ss) (capacity := capacity) l' s' /\ same_view s s'.
Proof.
  revert l s block off rem. induction fuel as [|fuel IH]; intros l s block off rem Hid Hb Ho Hr Hal Hend Hcap Hf;
    cbn [read_loop].
  { assert (rem = 0) as -> by lia. exists s, l. by split_and!. }
  destruct (Z.eqb_spec rem 0) as [->|Hr0]; [exists s, l; by split_and!|].
  assert (Hbc : 0 <= block < capacity) by nia.
  destruct (idle_read l s block Hid Hbc) as (a & b & s1 & s2 & l1 & E & Ed & E2 & Hid2 & Hdata & Hv).
  rewrite (bind_Ret _ _ _ _ _ E), (bind_Ret _ _ _ _ _ Ed).
  pose proof (inv_core _ _ _ (proj1 Hid)) as Hc. pose proof (view_length ∅ s block Hc Hbc) as Hlen.
  set (cur := if ss <? rem then ss else rem).
  assert (Hcur : 0 < cur <= rem /\ off + cur <= ss /\ (cur < rem -> off + cur = ss)).
  { unfold cur. destruct (Z.ltb_spec ss rem); lia. }
  rewrite Hdata, (proj2 (Z.leb_le _ _)) by lia.
  rewrite (bind_Ret _ _ _ _ _ E2). rewrite (sector_bytes ∅) by (done || lia).
  destruct (decide (cur = rem)) as [Ec|Ec].
  - rewrite Ec, Z.sub_diag. exists s2, l1. split_and!; auto.
    destruct fuel; cbn [read_loop]; rewrite Z.eqb_refl, bind_ret; by rewrite app_nil_r.
  - rewrite w32_small by lia.
    destruct (IH l1 s2 (block + 1) 0 (rem - cur)) as (s3 & l3 & E3 & Hid3 & Hv3); auto; try lia.
    rewrite (bind_Ret _ _ _ _ _ E3). exists s3, l3. split; [|split; [done|by eapply same_view_trans]].
    rewrite (same_view_volume s s2) by done.
    replace rem with (cur + (rem - cur)) at 2 by lia. rewrite (volume_app s _ cur) by lia.
    replace ((block + 1) * ss + 0) with (block * ss + off + cur) by lia. done.
Qed.

(** A file system whose sectors are on the device. *)
Record mounted (fs : fat_fs_filesystem) : Prop := {
  m_sector : sector_size (bootsector fs) = ss;
  m_size : 0 < fat_num_sectors (bootsector fs) <= capacity;
  m_capacity : capacity < 4294967296;
  m_cluster : 0 < cluster_size (bootsector fs) < 256;
  m_bytes : capacity * ss < 18446744073709551616;
}.

Definition on_volume (fs : fat_fs_filesystem) (pos size : Z) : Prop :=
  0 <= pos /\ 0 < size /\ pos + size <= fat_num_sectors (bootsector fs) * ss.

Lemma fat_read_ok fs l s pos size buffer :
  mounted fs -> idle (bs := ss) (capacity := capacity) l s -> on_volume fs pos size -> aligned pos size ->
  exists s' l', fat_read fs pos size buffer s = Ret (size, volume s pos size) s' /\
    idle (bs := ss) (capacity := capacity) l' s' /\ same_view s s'.
Proof.
  intros [Hss Hn Hcap _ _] Hid (Hp & Hs & Hend) Hal.
  pose proof (capacity_small (D := D) (bs := ss) (capacity := capacity)) as (Hss0 & _).
  unfold fat_read. rewrite Hss, (proj2 (Z.eqb_neq ss 0)) by lia.
  pose proof (Z.div_mod pos ss ltac:(lia)) as Edm. pose proof (Z.mod_pos_bound pos ss Hss0) as Hm.
  assert (Hblk : 0 <= pos / ss < fat_num_sectors (bootsector fs)) by nia.
  rewrite w32_small by lia. rewrite (proj2 (Z.leb_gt _ _)) by lia.
  destruct (read_loop_ok (Z.to_nat size) l s (pos / ss) (pos mod ss) size) as (s' & l' & E & Hid' & Hv); auto; try lia.
  { nia. }
  rewrite (bind_Ret _ _ _ _ _ E). exists s', l'. split; [|done].
  by replace (pos / ss * ss + pos mod ss) with pos by lia.
Qed.

(** ** Cluster chains *)

(** Where the table entry of a cluster lies, and how many bytes it takes. *)
Definition entry_pos (fs : fat_fs_filesystem) (cluster : Z) : Z :=
  fat_fat_start (bootsector fs) 0 +
  match type fs with FAT12 => cluster * 3 / 2 | FAT16 => cluster * 2 | FAT32 => cluster * 4 end.

Definition entry_size (t : fat_type_t) : Z := match t with FAT32 => 4 | _ => 2 end.

(** The table as it is on the volume. *)
Definition entry (s : state D) (fs : fat_fs_filesystem) (cluster : Z) : Z :=
  let ent := le32 (volume s (entry_pos fs cluster) (entry_size (type fs))) in
  match type fs with
  | FAT12 => Z.land (if cluster mod 2 =? 1 then Z.shiftr ent 4 else ent) 4095
  | FAT16 => ent
  | FAT32 => Z.land ent 268435455
  end.

(** The entry can be read at once: it is on the volume and inside one sector. *)
Definition readable (fs : fat_fs_filesystem) (cluster : Z) : Prop :=
  0 <= cluster < 268435456 /\ on_volume fs (entry_pos fs cluster) (entry_size (type fs)) /\
  aligned (entry_pos fs cluster) (entry_size (type fs)).

Lemma fat_entry_ok fs l s cluster :
  mounted fs -> idle (bs := ss) (capacity := capacity) l s -> readable fs cluster ->
  exists s' l', fat_entry fs cluster s = Ret (entry s fs cluster) s' /\
    idle (bs := ss) (capacity := capacity) l' s' /\ same_view s s'.
Proof.
  intros Hm Hid (Hc & Hon & Hal). pose proof Hm as [_ Hn _ _ Hb].
  pose proof (capacity_small (D := D) (bs := ss) (capacity := capacity)) as (Hss0 & _).
  destruct (fat_read_ok fs l s _ _ (garbage (entry_size (type fs))) Hm Hid Hon Hal) as (s' & l' & E & Hid' & Hv).
  exists s', l'. split; [|done]. destruct Hon as (H1 & H2 & H3).
  assert (Hw : w64 (entry_pos fs cluster) = entry_pos fs cluster).
  { unfold w64. apply Z.mod_small. nia. }
  unfold fat_entry, entry, entry_pos, entry_size in *. destruct (type fs);
    rewrite w32_small by lia; rewrite Hw; by rewrite (bind_Ret _ _ _ _ _ E).
Qed.

(** The clusters that the loop visits, from one on. *)
Inductive walk (s : state D) (fs : fat_fs_filesystem) : Z -> list Z -> Prop :=
| walk_last c : entry_is_last (type fs) (entry s fs c) = true -> walk s fs c [c]
| walk_next c cs : entry_is_last (type fs) (entry s fs c) = false ->
    walk s fs (entry s fs c) cs -> walk s fs c (c :: cs).

Lemma clusters_fun s fs c cs cs' : walk s fs c cs -> walk s fs c cs' -> cs = cs'.
Proof.
  intros Hc. revert cs'. induction Hc as [c Hl|c cs Hl Hc IH]; intros cs' Hc'; inversion Hc'; subst;
    try congruence. f_equal. auto.
Qed.

Lemma walk_suffix s fs c cs x : walk s fs c cs -> x ∈ cs ->
  exists cs', walk s fs x cs' /\ (length cs' <= length cs)%nat.
Proof.
  intros Hc. induction Hc as [c Hl|c cs Hl Hc IH]; intros Hx.
  - apply list_elem_of_singleton in Hx as ->. exists [c]. split; [by constructor|done].
  - apply elem_of_cons in Hx as [->|Hx].
    + exists (c :: cs). split; [by constructor|done].
    + destruct (IH Hx) as (cs' & Hc' & Hle). exists cs'. split; [done|simpl; lia].
Qed.

Lemma walk_nodup s fs c cs : walk s fs c cs -> NoDup cs.
Proof.
  induction 1 as [c Hl|c cs Hl Hc IH]; [apply NoDup_singleton|]. constructor; [|done]. intros Hin.
  destruct (walk_suffix _ _ _ _ _ Hc Hin) as (cs' & Hc' & Hle).
  assert (E : cs' = c :: cs) by (eapply clusters_fun; [exact Hc'|by constructor]). subst. simpl in Hle. lia.
Qed.

Lemma entry_small s fs c : entry_is_last (type fs) (entry s fs c) = false ->
  0 <= entry s fs c < Z.of_nat (max_clusters (type fs)).
Proof.
  unfold entry_is_last, max_clusters. intros Hl. apply orb_false_iff in Hl as (H1 & H2).
  apply Z.ltb_ge in H1. destruct (type fs); apply Z.ltb_ge in H2; lia.
Qed.

(** A chain has at most one cluster more than there are entries. *)
Lemma clusters_length s fs c cs : walk s fs c cs -> (length cs <= S (max_clusters (type fs)))%nat.
Proof.
  intros Hc. pose proof (walk_nodup _ _ _ _ Hc) as Hnd.
  assert (Hin : forall x, x ∈ tail cs -> 0 <= x < Z.of_nat (max_clusters (type fs))).
  { clear Hnd. induction Hc as [c Hl|c cs Hl Hc IH]; [set_solver|]. intros x Hx. simpl in Hx.
    inversion Hc as [c' Hl'|c' cs' Hl' Hc']; subst; simpl in *.
    - apply list_elem_of_singleton in Hx as ->. by apply entry_small.
    - apply elem_of_cons in Hx as [->|Hx]; [by apply entry_small|auto]. }
  destruct cs as [|c0 cs]; simpl in *; [lia|]. apply NoDup_cons in Hnd as (_ & Hnd).
  apply le_n_S. pose proof (submseteq_length cs (seqZ 0 (Z.of_nat (max_clusters (type fs))))) as Hs.
  rewrite length_seqZ, Nat2Z.id in Hs. apply Hs. apply NoDup_submseteq; [done|].
  intros x Hx. apply elem_of_seqZ. specialize (Hin x Hx). lia.
Qed.

Lemma same_view_entry s s' fs c : same_view s s' -> entry s' fs c = entry s fs c.
Proof. intros Hv. unfold entry. by rewrite (same_view_volume s s'). Qed.

Lemma same_view_walk s s' fs c cs : same_view s s' -> walk s fs c cs -> walk s' fs c cs.
Proof.
  intros Hv. induction 1 as [c Hl|c cs Hl Hc IH].
  - constructor. by rewrite (same_view_entry s s').
  - apply walk_next; by rewrite (same_view_entry s s').
Qed.

Lemma clchain_loop_ok fuel fs l s c cs :
  mounted fs -> idle (bs := ss) (capacity := capacity) l s -> walk s fs c cs -> Forall (readable fs) cs ->
  (length cs <= fuel)%nat ->
  exists s' l', clchain_loop fuel fs c s = Ret (cluster_pos fs <$> cs) s' /\
    idle (bs := ss) (capacity := capacity) l' s' /\ same_view s s'.
Proof.
  intros Hm. revert l s c cs. induction fuel as [|fuel IH]; intros l s c cs Hid Hc Hr Hf.
  { destruct Hc; simpl in Hf; lia. }
  cbn [clchain_loop]. inversion Hc as [c' Hl|c' cs' Hl Hc']; subst; apply Forall_cons in Hr as (Hr & Hrs);
    destruct (fat_entry_ok fs l s c Hm Hid Hr) as (s1 & l1 & E & Hid1 & Hv1); rewrite (bind_Ret _ _ _ _ _ E), Hl.
  - exists s1, l1. by split_and!.
  - destruct (IH l1 s1 (entry s fs c) cs') as (s2 & l2 & E2 & Hid2 & Hv2); auto.
    + by eapply same_view_walk.
    + simpl in Hf. lia.
    + rewrite (bind_Ret _ _ _ _ _ E2). exists s2, l2. split_and!; auto. by eapply same_view_trans.
Qed.

(** [fat_clchain_create] ends for every chain that the table describes, however
    long, with the positions of its clusters in order. *)
Lemma fat_clchain_create_ok fs l s c cs :
  mounted fs -> idle (bs := ss) (capacity := capacity) l s -> walk s fs c cs -> Forall (readable fs) cs ->
  exists s' l', fat_clchain_create fs c s = Ret (cluster_pos fs <$> cs) s' /\
    idle (bs := ss) (capacity := capacity) l' s' /\ same_view s s'.
Proof. intros Hm Hid Hc Hr. eapply clchain_loop_ok; eauto. by eapply clusters_length. Qed.

(** ** Files *)

(** A file is the bytes of its clusters one after the other. *)
Definition file_byte (s : state D) (fs : fat_fs_filesystem) (cl : list Z) (i : Z) : Z :=
  byte_at s (cl !!! Z.to_nat (i / bytes_per_cluster fs) + i mod bytes_per_cluster fs).

Definition file (s : state D) (fs : fat_fs_filesystem) (cl : list Z) (start size : Z) : list Z :=
  file_byte s fs cl <$> seqZ start size.

(** A cluster starts at a sector and is on the volume. *)
Definition cluster_ok (fs : fat_fs_filesystem) (pos : Z) : Prop :=
  pos mod ss = 0 /\ on_volume fs pos (bytes_per_cluster fs).

Lemma file_app s fs cl start n k : 0 <= n -> 0 <= k ->
  file s fs cl start (n + k) = (file s fs cl start n ++ file s fs cl (start + n) k).
Proof. intros. unfold file. by rewrite seqZ_app, fmap_app by lia. Qed.

Lemma same_view_file s s' fs cl start n : same_view s s' -> file s' fs cl start n = file s fs cl start n.
Proof. intros Hv. apply list_fmap_ext. intros i p _. unfold file_byte, byte_at. by rewrite Hv. Qed.

(** Inside a cluster the file is a piece of the volume. *)
Lemma file_in_cluster s fs cl k pos off n :
  0 < bytes_per_cluster fs -> 0 <= k -> cl !! Z.to_nat k = Some pos -> 0 <= off -> off + n <= bytes_per_cluster fs ->
  file s fs cl (k * bytes_per_cluster fs + off) n = volume s (pos + off) n.
Proof.
  intros Hb Hk Hcl Ho Hn. apply list_eq. intros i. unfold file, volume. rewrite !list_lookup_fmap.
  destruct (decide (Z.of_nat i < n)) as [Hi|Hi].
  - rewrite !lookup_seqZ_lt by lia. simpl. f_equal. unfold file_byte.
    replace ((k * bytes_per_cluster fs + off + Z.of_nat i) / bytes_per_cluster fs) with k
      by (apply (Z.div_unique _ _ _ (off + Z.of_nat i)); lia).
    replace ((k * bytes_per_cluster fs + off + Z.of_nat i) mod bytes_per_cluster fs) with (off + Z.of_nat i)
      by (apply (Z.mod_unique _ _ k); lia).
    rewrite (list_lookup_total_correct _ _ _ Hcl). f_equal. lia.
  - by rewrite !lookup_seqZ_ge by lia.
Qed.

Lemma bytes_per_cluster_sectors fs : mounted fs -> 0 < ss ->
  0 < bytes_per_cluster fs /\ bytes_per_cluster fs = cluster_size (bootsector fs) * ss.
Proof. intros [Hss _ _ Hc _] H0. unfold bytes_per_cluster. rewrite Hss. split; [nia|done]. Qed.

Lemma aligned_in_cluster fs pos off n start :
  mounted fs -> 0 < ss -> cluster_ok fs pos -> start mod bytes_per_cluster fs = off -> 0 <= start ->
  aligned start n -> aligned (pos + off) n.
Proof.
  intros Hm H0 (Hp & _) <- Hs. destruct (bytes_per_cluster_sectors fs Hm H0) as (Hb & Eb).
  assert (E : (pos + start mod bytes_per_cluster fs) mod ss = start mod ss); [|unfold aligned; by rewrite E].
  rewrite Z.add_mod, Hp, Z.add_0_l, Z.mod_mod by lia. rewrite Eb.
  rewrite (Z.mul_comm (cluster_size _) ss), Z.rem_mul_r by nia.
  rewrite Z.mul_comm, Z_mod_plus_full. by apply Z.mod_mod; lia.
Qed.

Lemma cluster_read_loop_ok fuel fs l s cl k off rem buf :
  mounted fs -> idle (bs := ss) (capacity := capacity) l s -> Forall (cluster_ok fs) cl ->
  0 <= k -> 0 <= off < bytes_per_cluster fs -> 0 <= rem ->
  aligned (k * bytes_per_cluster fs + off) rem ->
  k * bytes_per_cluster fs + off + rem <= Z.of_nat (length cl) * bytes_per_cluster fs ->
  (Z.to_nat rem <= fuel)%nat ->
  exists s' l', cluster_read_loop fuel fs cl k off rem buf s =
      Ret (file s fs cl (k * bytes_per_cluster fs + off) rem) s' /\
    idle (bs := ss) (capacity := capacity) l' s' /\ same_view s s'.
Proof.
  intros Hm. pose proof (capacity_small (D := D) (bs := ss) (capacity := capacity)) as (Hss0 & _).
  destruct (bytes_per_cluster_sectors fs Hm Hss0) as (Hb & Eb). pose proof (m_bytes _ Hm) as Hbytes.
  pose proof (m_size _ Hm) as Hsz.
  revert l s k off rem buf. induction fuel as [|fuel IH];
    intros l s k off rem buf Hid Hcl Hk Ho Hr Hal Hend Hf; cbn [cluster_read_loop].
  { assert (rem = 0) as -> by lia. exists s, l. by split_and!. }
  destruct (Z.eqb_spec rem 0) as [->|Hr0]; [exists s, l; by split_and!|].
  assert (Hlt : (Z.to_nat k < length cl)%nat) by nia.
  destruct (lookup_lt_is_Some_2 cl (Z.to_nat k) Hlt) as (pos & Hpos). rewrite Hpos.
  rewrite Forall_lookup in Hcl. pose proof (Hcl _ _ Hpos) as Hok. pose proof Hok as (Hp0 & (Hp1 & _ & Hp2)).
  set (cur := Z.min (bytes_per_cluster fs - off) rem).
  assert (Hcur : 0 < cur <= rem /\ off + cur <= bytes_per_cluster fs) by lia.
  assert (Hw : w64 (pos + off) = pos + off) by (unfold w64; apply Z.mod_small; nia). rewrite Hw.
  assert (Hpal : aligned (pos + off) cur).
  { eapply (aligned_in_cluster fs pos off cur (k * bytes_per_cluster fs + off)); auto.
    - rewrite Z.add_comm, Z_mod_plus_full. by apply Z.mod_small.
    - nia.
    - destruct Hal as [?|?]; [by left|right; lia]. }
  destruct (fat_read_ok fs l s (pos + off) cur (take (Z.to_nat cur) buf) Hm Hid) as (s1 & l1 & E & Hid1 & Hv1);
    [split; lia|done|].
  rewrite (bind_Ret _ _ _ _ _ E). cbn [snd].
  destruct (decide (cur = rem)) as [Ec|Ec].
  - rewrite Ec, Z.sub_diag. exists s1, l1. split_and!; auto.
    rewrite (file_in_cluster s fs cl k pos off rem) by (auto; lia).
    destruct fuel; cbn [cluster_read_loop]; rewrite Z.eqb_refl, bind_ret; by rewrite app_nil_r.
  - assert (Ecur : cur = bytes_per_cluster fs - off) by lia.
    destruct (IH l1 s1 (k + 1) 0 (rem - cur) (drop (Z.to_nat cur) buf)) as (s2 & l2 & E2 & Hid2 & Hv2); auto; try lia.
    { by rewrite Forall_lookup. }
    { left. rewrite Z.add_0_r, Eb, Z.mul_assoc. by apply Z_mod_mult. }
    rewrite (bind_Ret _ _ _ _ _ E2). exists s2, l2. split; [|split; [done|by eapply same_view_trans]].
    rewrite (same_view_file s s1) by done.
    replace rem with (cur + (rem - cur)) at 2 by lia. rewrite file_app by lia.
    rewrite (file_in_cluster s fs cl k pos off cur) by (auto; lia).
    by replace ((k + 1) * bytes_per_cluster fs + 0) with (k * bytes_per_cluster fs + off + cur) by lia.
Qed.

Lemma fat_cluster_read_ok fs l s cl start size buf :
  mounted fs -> idle (bs := ss) (capacity := capacity) l s -> Forall (cluster_ok fs) cl ->
  0 <= start -> 0 <= size -> start < 4294967296 -> aligned start size ->
  start + size <= Z.of_nat (length cl) * bytes_per_cluster fs ->
  exists s' l', fat_cluster_read fs cl start size buf s = Ret (size, file s fs cl start size) s' /\
    idle (bs := ss) (capacity := capacity) l' s' /\ same_view s s'.
Proof.
  intros Hm Hid Hcl Hst Hsz Hlt Hal Hend.
  pose proof (capacity_small (D := D) (bs := ss) (capacity := capacity)) as (Hss0 & _).
  destruct (bytes_per_cluster_sectors fs Hm Hss0) as (Hb & _).
  unfold fat_cluster_read. rewrite (proj2 (Z.eqb_neq _ 0)) by lia.
  pose proof (Z.div_mod start (bytes_per_cluster fs) ltac:(lia)) as Edm.
  pose proof (Z.mod_pos_bound start (bytes_per_cluster fs) Hb) as Hmod.
  assert (Hq : 0 <= start / bytes_per_cluster fs <= start) by (split; [apply Z.div_pos; lia|apply Z.div_le_upper_bound; nia]).
  rewrite w32_small by lia.
  assert (Est : start / bytes_per_cluster fs * bytes_per_cluster fs + start mod bytes_per_cluster fs = start) by lia.
  destruct (cluster_read_loop_ok (Z.to_nat size) fs l s cl (start / bytes_per_cluster fs)
    (start mod bytes_per_cluster fs) size buf) as (s' & l' & E & Hid' & Hv); rewrite ?Est; auto; try lia.
  rewrite Est in E. rewrite (bind_Ret _ _ _ _ _ E). by exists s', l'.
Qed.

(** ** What the format says

    The areas of a volume, its table and its chains as the format defines them, without
    the driver's functions. *)

(** Bits from one entry to the next, and how many of them count. *)
Definition stride (t : fat_type_t) : Z := match t with FAT12 => 12 | FAT16 => 16 | FAT32 => 32 end.
Definition entry_bits (t : fat_type_t) : Z := match t with FAT12 => 12 | FAT16 => 16 | FAT32 => 28 end.

(** 0xFF7, 0xFFF7 or 0x0FFFFFF7 marks a bad cluster, what is above it the end of a chain. *)
Definition bad_mark (t : fat_type_t) : Z := 2 ^ entry_bits t - 9.

(** The reserved sectors come first, then the tables, the root directory in whole sectors,
    and the clusters, counted from 2. *)
Definition table_start (fs : fat_fs_filesystem) : Z := reserved_sectors (bootsector fs) * ss.

Definition first_data_sector (bs : fat_bootsector) : Z :=
  reserved_sectors bs + num_fats bs * (if decide (fat_size_small bs = 0) then fat32_fat_size bs else fat_size_small bs) +
  (rootdir_max_ent bs * 32 + ss - 1) / ss.

Definition cluster_at (fs : fat_fs_filesystem) (c : Z) : Z :=
  (first_data_sector (bootsector fs) + (c - 2) * cluster_size (bootsector fs)) * ss.

Definition table_bit (s : state D) (fs : fat_fs_filesystem) (k : Z) : bool :=
  Z.testbit (byte_at s (table_start fs + k / 8)) (k mod 8).

(** The entry of cluster [c] is [v]. *)
Definition is_entry (s : state D) (fs : fat_fs_filesystem) (c v : Z) : Prop :=
  0 <= v < 2 ^ entry_bits (type fs) /\
  Forall (fun j => Z.testbit v j = table_bit s fs (stride (type fs) * c + j)) (seqZ 0 (entry_bits (type fs))).

(** The clusters of a file, from one on. *)
Inductive chain (s : state D) (fs : fat_fs_filesystem) : Z -> list Z -> Prop :=
| chain_last c v : is_entry s fs c v -> bad_mark (type fs) < v -> chain s fs c [c]
| chain_next c v cs : is_entry s fs c v -> 2 <= v < bad_mark (type fs) -> chain s fs v cs -> chain s fs c (c :: cs).

(** The bytes of the clusters one after the other, from [start] on. *)
Definition file_contents (s : state D) (fs : fat_fs_filesystem) (cs : list Z) (start n : Z) : list Z :=
  let size := cluster_size (bootsector fs) * ss in
  (fun i => byte_at s (cluster_at fs (cs !!! Z.to_nat (i / size)) + i mod size)) <$> seqZ start n.

(** The driver's data area is that of the format; sectors are multiples of four bytes. *)
Record geometry (fs : fat_fs_filesystem) : Prop := {
  g_sector : ss mod 4 = 0;
  g_reserved : 0 <= reserved_sectors (bootsector fs);
  g_data : data_area fs = first_data_sector (bootsector fs) * ss;
  g_data_pos : 0 <= first_data_sector (bootsector fs);
}.

(** The entry of a cluster is on the volume, and one of 12 bits does not cross the end of a
    sector. *)
Definition entry_readable (fs : fat_fs_filesystem) (c : Z) : Prop :=
  let first := table_start fs + stride (type fs) * c / 8 in
  0 <= c < 268435456 /\ first + entry_size (type fs) <= fat_num_sectors (bootsector fs) * ss /\
  (type fs = FAT12 -> first mod ss <> ss - 1).

(** A cluster lies on the volume. *)
Definition cluster_readable (fs : fat_fs_filesystem) (c : Z) : Prop :=
  2 <= c /\ cluster_at fs c + cluster_size (bootsector fs) * ss <= fat_num_sectors (bootsector fs) * ss.

(** *** The driver follows the format *)

Lemma le32_testbit bs i : Forall is_byte bs -> 0 <= i < 8 * Z.of_nat (length bs) ->
  Z.testbit (le32 bs) i = Z.testbit (bs !!! Z.to_nat (i / 8)) (i mod 8).
Proof.
  intros Hb. revert i. induction Hb as [|b bs Hb Hbs IH]; intros i Hi; [simpl in Hi; lia|].
  change (le32 (b :: bs)) with (b + 256 * le32 bs). cbn [length] in Hi. unfold is_byte in Hb.
  destruct (decide (i < 8)) as [Hlt|Hge].
  - rewrite Z.div_small, (Z.mod_small i) by lia. simpl. rewrite <- (Z.mod_pow2_bits_low _ 8) by lia.
    change (2 ^ 8) with 256. rewrite (Z.mul_comm 256), Z_mod_plus_full, Z.mod_small by lia. done.
  - replace i with (i - 8 + 8) at 1 by lia. rewrite <- Z.div_pow2_bits by lia. change (2 ^ 8) with 256.
    rewrite (Z.mul_comm 256), Z.div_add, Z.div_small, Z.add_0_l, IH by lia.
    replace (i / 8) with ((i - 8) / 8 + 1) by (Z.div_mod_to_equations; lia).
    replace (i mod 8) with ((i - 8) mod 8) by (Z.div_mod_to_equations; lia).
    rewrite Z2Nat.inj_add by (try apply Z.div_pos; lia). by rewrite Nat.add_comm.
Qed.

Lemma eq_by_bits n a b : 0 <= n -> 0 <= a < 2 ^ n -> 0 <= b < 2 ^ n ->
  (forall j, 0 <= j < n -> Z.testbit a j = Z.testbit b j) -> a = b.
Proof.
  intros Hn Ha Hb H. apply Z.bits_inj'. intros j Hj. destruct (decide (j < n)); [apply H; lia|].
  rewrite <- (Z.mod_small a (2 ^ n)), <- (Z.mod_small b (2 ^ n)) by done. by rewrite !Z.mod_pow2_bits_high by lia.
Qed.

Lemma lookup_volume s pos n (k : nat) : (Z.of_nat k < n) -> volume s pos n !!! k = byte_at s (pos + Z.of_nat k).
Proof.
  intros Hk. apply list_lookup_total_correct. unfold volume. rewrite list_lookup_fmap, lookup_seqZ_lt by lia. done.
Qed.

(** Bit [j] of the bytes from [pos] on. *)
Lemma volume_bit s pos n j : Forall is_byte (volume s pos n) -> 0 <= j < 8 * n ->
  Z.testbit (le32 (volume s pos n)) j = Z.testbit (byte_at s (pos + j / 8)) (j mod 8).
Proof.
  intros Hb Hj. rewrite le32_testbit by (done || rewrite length_volume; lia).
  rewrite lookup_volume by (Z.div_mod_to_equations; lia). do 2 f_equal. Z.div_mod_to_equations. lia.
Qed.

Lemma entry_pos_eq fs c : mounted fs -> geometry fs -> entry_readable fs c ->
  entry_pos fs c = table_start fs + stride (type fs) * c / 8.
Proof.
  intros [Hss Hn _ _ Hb] [_ Hr _ _] (Hc & Hend & _). unfold entry_pos, fat_fat_start.
  rewrite Z.mul_0_r, Z.add_0_r, Hss. unfold table_start in *.
  pose proof (capacity_small (D := D) (bs := ss) (capacity := capacity)) as (Hss0 & _).
  assert (0 <= stride (type fs) * c / 8) by (apply Z.div_pos; destruct (type fs); simpl; lia).
  assert (0 < entry_size (type fs)) by (destruct (type fs); simpl; lia).
  unfold w64. rewrite Z.mod_small by nia. f_equal. clear. destruct (type fs); simpl; Z.div_mod_to_equations; lia.
Qed.

Lemma readable_ok fs c : mounted fs -> geometry fs -> entry_readable fs c -> readable fs c.
Proof.
  intros Hm Hg Hr. pose proof (entry_pos_eq fs c Hm Hg Hr) as E. pose proof Hr as (Hc & Hend & Hx).
  pose proof (capacity_small (D := D) (bs := ss) (capacity := capacity)) as (Hss0 & _).
  assert (0 <= stride (type fs) * c / 8) by (apply Z.div_pos; destruct (type fs); simpl; lia).
  assert (0 <= table_start fs) by (unfold table_start; pose proof (g_reserved _ Hg); nia).
  split; [lia|]. rewrite E. split; [split; [lia|]; split; [destruct (type fs); simpl; lia|lia]|].
  pose proof (Z.mod_pos_bound (table_start fs + stride (type fs) * c / 8) ss Hss0) as Hb.
  right. unfold entry_size. destruct (type fs) eqn:Ht; [specialize (Hx eq_refl); lia|..];
    (assert (Em : (table_start fs + stride (type fs) * c / 8) mod ss = (stride (type fs) * c / 8) mod ss)
       by (unfold table_start; rewrite Z.add_comm, Z_mod_plus_full; done));
    rewrite Ht in Em; rewrite Em in *; simpl in *; pose proof (g_sector _ Hg) as H4;
    clear - H4 Hb Hss0; set (x := _ * c / 8) in *;
    assert (Hdiv : x mod 2 = 0) by (unfold x; Z.div_mod_to_equations; lia);
    pose proof (Z.div_mod x ss ltac:(lia)); pose proof (Z.div_mod ss 4 ltac:(lia)).
  - assert (Hm2 : (x mod ss) mod 2 = 0) by (replace ss with (2 * (ss / 2)) by (Z.div_mod_to_equations; lia);
      rewrite Z.rem_mul_r by (Z.div_mod_to_equations; lia); rewrite Hdiv; Z.div_mod_to_equations; lia).
    Z.div_mod_to_equations. lia.
  - assert (H4' : x mod 4 = 0) by (unfold x; Z.div_mod_to_equations; lia).
    assert (Hm4 : (x mod ss) mod 4 = 0) by (replace ss with (4 * (ss / 4)) by (Z.div_mod_to_equations; lia);
      rewrite Z.rem_mul_r by (Z.div_mod_to_equations; lia); rewrite H4'; Z.div_mod_to_equations; lia).
    Z.div_mod_to_equations. lia.
Qed.

Lemma volume_bytes s pos n k m : Forall is_byte (volume s 0 n) -> 0 <= pos -> pos + k <= n -> m = k -> 0 <= k ->
  Forall is_byte (volume s pos m).
Proof.
  intros Hb Hp Hk -> H0. replace n with (pos + (k + (n - pos - k))) in Hb by lia.
  rewrite !volume_app in Hb by lia. by apply Forall_app in Hb as [_ [Hb _]%Forall_app].
Qed.

(** The driver's arithmetic gives the entry. *)
Lemma entry_unique s fs c v : mounted fs -> geometry fs ->
  Forall is_byte (volume s 0 (fat_num_sectors (bootsector fs) * ss)) -> entry_readable fs c ->
  is_entry s fs c v -> entry s fs c = v.
Proof.
  intros Hm Hg Hby Hr (Hv & Hbits). pose proof (readable_ok fs c Hm Hg Hr) as (Hc & (H0 & Hsz & Hend) & _).
  pose proof (entry_pos_eq fs c Hm Hg Hr) as Ep.
  assert (Hvb : Forall is_byte (volume s (entry_pos fs c) (entry_size (type fs)))).
  { eapply volume_bytes; [exact Hby|exact H0|exact Hend|done|lia]. }
  pose proof (le32_bound _ Hvb) as Hle. rewrite length_volume in Hle by lia.
  assert (Hbit : forall j sh, 0 <= j -> 0 <= sh -> j + sh < 8 * entry_size (type fs) ->
    stride (type fs) * c / 8 * 8 + sh = stride (type fs) * c ->
    Z.testbit (le32 (volume s (entry_pos fs c) (entry_size (type fs)))) (j + sh) = table_bit s fs (stride (type fs) * c + j)).
  { intros j sh Hj Hs Hjs E. rewrite volume_bit by (done || lia). unfold table_bit. rewrite Ep, <- Z.add_assoc.
    f_equal; [f_equal; f_equal|]; Z.div_mod_to_equations; lia. }
  apply (eq_by_bits (entry_bits (type fs))); [destruct (type fs); simpl; lia| |done|].
  - unfold entry. destruct (type fs); cbn [entry_bits entry_size] in *.
    + change 4095 with (Z.ones 12). rewrite Z.land_ones by lia. apply Z.mod_pos_bound. lia.
    + exact Hle.
    + change 268435455 with (Z.ones 28). rewrite Z.land_ones by lia. apply Z.mod_pos_bound. lia.
  - intros j Hj. rewrite Forall_forall in Hbits. rewrite (Hbits j) by (apply elem_of_seqZ; lia).
    unfold entry. destruct (type fs) eqn:Ht; cbn [entry_bits entry_size stride] in *.
    + change 4095 with (Z.ones 12). rewrite Z.land_spec, Z.ones_spec_low, andb_true_r by lia.
      destruct (Z.eqb_spec (c mod 2) 1) as [Ho|Ho].
      * rewrite Z.shiftr_spec by lia. apply Hbit; [lia..|]. Z.div_mod_to_equations. lia.
      * rewrite <- (Z.add_0_r j) at 1. apply Hbit; [lia..|]. Z.div_mod_to_equations. lia.
    + rewrite <- (Z.add_0_r j) at 1. apply Hbit; [lia..|]. Z.div_mod_to_equations. lia.
    + change 268435455 with (Z.ones 28). rewrite Z.land_spec, Z.ones_spec_low, andb_true_r by lia.
      rewrite <- (Z.add_0_r j) at 1. apply Hbit; [lia..|]. Z.div_mod_to_equations. lia.
Qed.

Lemma chain_head s fs c cs : chain s fs c cs -> exists cs', cs = c :: cs'.
Proof. destruct 1; eauto. Qed.

(** The loop visits the chain, unless cluster 2 comes behind another one: the driver takes
    its number for an end. *)
Lemma chain_walk s fs c cs : mounted fs -> geometry fs ->
  Forall is_byte (volume s 0 (fat_num_sectors (bootsector fs) * ss)) ->
  chain s fs c cs -> Forall (entry_readable fs) cs -> 2 ∉ tail cs -> walk s fs c cs.
Proof.
  intros Hm Hg Hby. induction 1 as [c v He Hv|c v cs He Hv Hc IH]; intros Hr H2; apply Forall_cons in Hr as (Hr & Hrs);
    pose proof (entry_unique s fs c v Hm Hg Hby Hr He) as Ev; unfold bad_mark in Hv.
  - apply walk_last. rewrite Ev. unfold entry_is_last. apply orb_true_intro. right.
    destruct (type fs); cbn in Hv; apply Z.ltb_lt; lia.
  - destruct (chain_head _ _ _ _ Hc) as [cs' ->]. cbn [tail] in H2.
    assert (v <> 2) by (intros ->; apply H2; left). apply walk_next; rewrite Ev.
    + unfold entry_is_last. rewrite (proj2 (Z.ltb_ge v 3)) by lia. destruct (type fs); cbn in Hv; apply Z.ltb_ge; lia.
    + apply IH; [done|]. intros Hin. apply H2. by right.
Qed.

Lemma cluster_pos_eq fs c : mounted fs -> geometry fs -> cluster_readable fs c ->
  cluster_pos fs c = cluster_at fs c /\ cluster_ok fs (cluster_at fs c).
Proof.
  intros Hm Hg (Hc & Hend). pose proof Hm as [Hss Hn _ Hcs Hb].
  pose proof (capacity_small (D := D) (bs := ss) (capacity := capacity)) as (Hss0 & _).
  pose proof (g_data_pos _ Hg) as Hd. assert (H0 : 0 <= cluster_at fs c) by (unfold cluster_at; nia).
  split.
  - unfold cluster_pos. rewrite (g_data _ Hg), Hss.
    replace (first_data_sector (bootsector fs) * ss + (c - 2) * cluster_size (bootsector fs) * ss) with (cluster_at fs c)
      by (unfold cluster_at; lia). unfold w64. apply Z.mod_small. nia.
  - split; [apply Z_mod_mult|]. unfold on_volume, bytes_per_cluster. rewrite Hss. split; [done|]. split; [nia|lia].
Qed.

Lemma file_is_contents s fs cs start n : mounted fs -> geometry fs -> Forall (cluster_readable fs) cs ->
  0 <= start -> start + n <= Z.of_nat (length cs) * (cluster_size (bootsector fs) * ss) ->
  file s fs (cluster_pos fs <$> cs) start n = file_contents s fs cs start n.
Proof.
  intros Hm Hg Hr Hs Hn. pose proof Hm as [Hss _ _ Hcs _].
  pose proof (capacity_small (D := D) (bs := ss) (capacity := capacity)) as (Hss0 & _).
  unfold file, file_contents. apply list_fmap_ext. intros i p Hp. apply lookup_seqZ in Hp as (-> & Hi).
  unfold file_byte, bytes_per_cluster. rewrite Hss. f_equal. f_equal. set (size := cluster_size _ * ss) in *.
  assert (0 < size) by (unfold size; nia). set (p := start + Z.of_nat i). assert (Hp : 0 <= p < Z.of_nat (length cs) * size) by lia.
  assert (Hlt : (Z.to_nat (p / size) < length cs)%nat).
  { pose proof (Z.div_lt_upper_bound p size (Z.of_nat (length cs)) ltac:(lia) ltac:(lia)).
    pose proof (Z.div_pos p size ltac:(lia) ltac:(lia)). lia. }
  destruct (lookup_lt_is_Some_2 cs _ Hlt) as [c Hc]. rewrite (list_lookup_total_correct cs _ c) by done.
  rewrite (list_lookup_total_correct _ _ (cluster_pos fs c)) by (rewrite list_lookup_fmap, Hc; done).
  rewrite Forall_lookup in Hr. by apply (cluster_pos_eq fs c Hm Hg), (Hr _ _ Hc).
Qed.

(** ** Theorems *)

(** C9: Opening and reading a file of a volume laid out as the format says: the chain of
    clusters that the table describes, up to its end mark, is followed, and reading from a
    sector boundary (or inside one sector) gives exactly the bytes of those clusters in
    order, cut off at the size of the file; behind the end nothing is read and the buffer
    stays.  The chain must not lead to cluster 2 except as its first, and no
    12-bit entry of it may cross the end of a sector: there the driver cuts the chain
    ([cluster_two_ends_chain]) or reads behind its block ([fat_read_crossing_overruns]). *)
Theorem fat_file_read_correct fs l s first cs r start size buffer :
  mounted fs -> geometry fs -> idle (bs := ss) (capacity := capacity) l s ->
  Forall is_byte (volume s 0 (fat_num_sectors (bootsector fs) * ss)) ->
  chain s fs first cs -> 2 ∉ tail cs -> Forall (entry_readable fs) cs -> Forall (cluster_readable fs) cs ->
  0 <= filesize r < 4294967296 -> filesize r <= Z.of_nat (length cs) * (cluster_size (bootsector fs) * ss) ->
  0 <= start < 18446744073709551616 - 4294967296 -> 0 <= size < 4294967296 -> aligned start size ->
  let n := if filesize r <? start then 0 else Z.min size (filesize r - start) in
  exists s' l',
    (cl ← fat_clchain_create fs first;
     fat_fs_file_read fs (Res (name r) (class r) (ext_data r) (filesize r) (readonly r) cl true (children r))
       start size buffer) s =
    Ret (n, if filesize r <? start then buffer else file_contents s fs cs start n) s' /\
    idle (bs := ss) (capacity := capacity) l' s' /\ same_view s s'.
Proof.
  intros Hm Hg Hid Hby Hch H2 Her Hcr Hfs Hlen Hst Hsz Hal n.
  assert (Eb : bytes_per_cluster fs = cluster_size (bootsector fs) * ss) by (unfold bytes_per_cluster; by rewrite (m_sector _ Hm)).
  pose proof (chain_walk s fs first cs Hm Hg Hby Hch Her H2) as Hw.
  assert (Hrd : Forall (readable fs) cs) by (eapply Forall_impl; [exact Her|intros; by apply readable_ok]).
  assert (Hcl : Forall (cluster_ok fs) (cluster_pos fs <$> cs)).
  { apply Forall_fmap. eapply Forall_impl; [exact Hcr|]. intros c Hc. simpl.
    destruct (cluster_pos_eq fs c Hm Hg Hc) as [-> ?]. done. }
  destruct (fat_clchain_create_ok fs l s first cs Hm Hid Hw Hrd) as (s1 & l1 & E1 & Hid1 & Hv1).
  rewrite (bind_Ret _ _ _ _ _ E1). unfold fat_fs_file_read. cbn [filesize clusters]. subst n.
  destruct (Z.ltb_spec (filesize r) start) as [Hgt|Hle]; [exists s1, l1; by split_and!|].
  assert (En : (if filesize r <? w64 (start + size) then w32 (filesize r - start) else size) =
    Z.min size (filesize r - start)).
  { unfold w64. rewrite Z.mod_small by lia. destruct (Z.ltb_spec (filesize r) (start + size)).
    - rewrite w32_small by lia. lia.
    - lia. }
  rewrite En. set (n := Z.min size (filesize r - start)) in *.
  destruct (fat_cluster_read_ok fs l1 s1 (cluster_pos fs <$> cs) start n buffer) as (s2 & l2 & E2 & Hid2 & Hv2);
    auto; try lia.
  { destruct Hal; [by left|right; lia]. }
  { rewrite length_fmap, Eb. lia. }
  rewrite (bind_Ret _ _ _ _ _ E2). exists s2, l2. split; [|split; [done|by eapply same_view_trans]].
  cbn [snd]. rewrite (same_view_file s s1) by done. by rewrite file_is_contents by (done || lia).
Qed.

(** What the code does on a request that starts inside a sector and leaves it, which
    is not what it means to do: it copies from behind the end of the cached block. *)
Theorem fat_read_crossing_overruns fs l s pos size buffer :
  mounted fs -> idle (bs := ss) (capacity := capacity) l s -> on_volume fs pos size -> ~ aligned pos size ->
  exists s', fat_read fs pos size buffer s = Stop OutOfBounds s'.
Proof.
  intros [Hss Hn Hcap _ _] Hid (Hp & Hs & Hend) Hal.
  pose proof (capacity_small (D := D) (bs := ss) (capacity := capacity)) as (Hss0 & _).
  unfold fat_read. rewrite Hss, (proj2 (Z.eqb_neq ss 0)) by lia.
  pose proof (Z.div_mod pos ss ltac:(lia)) as Edm. pose proof (Z.mod_pos_bound pos ss Hss0) as Hmb.
  assert (Hblk : 0 <= pos / ss < fat_num_sectors (bootsector fs)) by nia.
  rewrite w32_small by lia. rewrite (proj2 (Z.leb_gt _ _)) by lia.
  destruct (Z.to_nat size) as [|fuel] eqn:Ef; [lia|]. cbn [read_loop].
  rewrite (proj2 (Z.eqb_neq size 0)) by lia.
  destruct (idle_read l s (pos / ss) Hid ltac:(lia)) as (a & b & s1 & s2 & l1 & E & Ed & _ & _ & Hdata & _).
  rewrite bind_assoc, (bind_Ret _ _ _ _ _ E), bind_assoc, (bind_Ret _ _ _ _ _ Ed).
  rewrite Hdata, (view_length ∅) by (apply Hid || lia). rewrite Z2Nat.id by lia.
  exists s1. unfold aligned in Hal.
  rewrite (proj2 (Z.leb_gt _ _)); [done|]. destruct (Z.ltb_spec ss size); lia.
Qed.

(** Writing inside one sector. *)
Lemma write_sector fs l s pos bytes :
  mounted fs -> idle (bs := ss) (capacity := capacity) l s -> on_volume fs pos (Z.of_nat (length bytes)) ->
  pos mod ss + Z.of_nat (length bytes) <= ss ->
  exists a b s1 l1, inv (bs := ss) (capacity := capacity) ∅ l1 s1 /\ blocks s1 !! a = Some b /\
    number b = pos / ss /\ ((forall x, clean s x) -> forall x, clean s1 x) /\ same_view s s1 /\
    fat_write fs pos bytes s = Ret (Z.of_nat (length bytes))
      (State (self s1) (<[a := set_ref_count 0 (set_data (splice (data b) (pos mod ss) bytes) b)]> (blocks s1)) (dev s1)).
Proof.
  intros [Hss Hn Hcap _ _] Hid (Hp & Hs & Hend) Hal.
  pose proof (capacity_small (D := D) (bs := ss) (capacity := capacity)) as (Hss0 & _).
  pose proof (Z.div_mod pos ss ltac:(lia)) as Edm. pose proof (Z.mod_pos_bound pos ss Hss0) as Hmb.
  assert (Hblk : 0 <= pos / ss < fat_num_sectors (bootsector fs)) by nia.
  destruct (idle_get l s (pos / ss) 0 Hid ltac:(lia))
    as (a & b & s1 & l1 & X & E & Hi1 & _ & HX & Hb & Hbn & Hrc & _ & Hcl & Hv).
  rewrite HX in Hi1 by done. destruct (core_block _ _ (inv_core _ _ _ Hi1) _ _ Hb) as (Ha & _ & Hlen & _).
  exists a, b, s1, l1. split_and!; auto. { intros m. auto. }
  unfold fat_write. rewrite Hss, (proj2 (Z.eqb_neq ss 0)) by lia. rewrite w32_small by lia.
  rewrite (proj2 (Z.leb_gt _ _)) by lia. destruct (length bytes) as [|fuel] eqn:El; [lia|].
  cbn [write_loop]. rewrite El, (proj2 (Z.eqb_neq (Z.of_nat (S fuel)) 0)) by lia.
  rewrite bind_assoc, (bind_Ret _ _ _ _ _ E), bind_assoc, (bind_Ret _ _ _ _ _ (deref_ok s1 a b Ha Hb)).
  rewrite (proj2 (Z.ltb_ge ss _)) by lia. rewrite Hlen, (proj2 (Z.leb_le _ _)) by lia.
  rewrite Nat2Z.id, <- El, firstn_all, skipn_all.
  rewrite bind_assoc. erewrite bind_Ret by by apply update_ok.
  rewrite bind_assoc. unfold cdi_cache_block_release.
  erewrite bind_Ret by (apply update_ok; [done|apply lookup_insert_eq]).
  cbn [self blocks dev ref_count set_data]. rewrite insert_insert_eq, Hrc.
  by destruct fuel; cbn [write_loop length].
Qed.

(** What writing does, which is not what it means to do: the sector in the cache
    changes, but as it is not marked nothing is ever written to the device, not even
    by [cdi_cache_sync]. *)
Theorem fat_write_never_reaches_device fs l s pos bytes :
  mounted fs -> idle (bs := ss) (capacity := capacity) l s -> (forall a, clean s a) ->
  on_volume fs pos (Z.of_nat (length bytes)) -> pos mod ss + Z.of_nat (length bytes) <= ss ->
  exists s', fat_write fs pos bytes s = Ret (Z.of_nat (length bytes)) s' /\
    subrange (view (capacity := capacity) s' (pos / ss)) (pos mod ss) (Z.of_nat (length bytes)) = bytes /\
    cdi_cache_sync s' = Ret 1 s' /\
    forall m, contents (capacity := capacity) (dev s') m = contents (capacity := capacity) (dev s) m.
Proof.
  intros Hm Hid Hcl Hon Hal.
  destruct (write_sector fs l s pos bytes Hm Hid Hon Hal) as (a & b & s1 & l1 & Hi1 & Hb & Hbn & Hcl1 & Hv1 & E).
  pose proof (capacity_small (D := D) (bs := ss) (capacity := capacity)) as (Hss0 & _).
  pose proof (Z.mod_pos_bound pos ss Hss0) as Hmb. pose proof (inv_core _ _ _ Hi1) as Hc1.
  destruct (core_block _ _ Hc1 _ _ Hb) as (Ha & Hnr & Hlen & _ & _).
  eexists. split; [exact E|]. set (b' := set_ref_count 0 _).
  assert (Hc' : core (bs := ss) (capacity := capacity) {[a]} (State (self s1) (<[a := b']> (blocks s1)) (dev s1))).
  { assert (Hi' : inv (bs := ss) (capacity := capacity) {[a]} l1
      (State (self s1) (<[a := set_ref_count 1 b']> (blocks s1)) (dev s1))).
    { eapply inv_change; [exact Hi1|exact Hb|..]; try done; try set_solver.
      split_and!; simpl; auto; try lia; [|set_solver]. rewrite length_splice; lia. }
    pose proof (core_ref {[a]} _ a _ 0 (hints (self s1)) (prev_hint (self s1)) (inv_core _ _ _ Hi')
      (lookup_insert_eq _ _ _) ltac:(lia)) as Hcr. simpl in Hcr. rewrite insert_insert_eq in Hcr.
    destruct (core_hints _ _ (inv_core _ _ _ Hi')) as (? & ? & ?).
    assert (Es : set_hints (hints (self s1)) (prev_hint (self s1)) (self s1) = self s1) by by destruct (self s1).
    rewrite Es in Hcr. by apply Hcr. }
  assert (Hcl' : forall x, clean (State (self s1) (<[a := b']> (blocks s1)) (dev s1)) x).
  { intros x bx. simpl. destruct (decide (x = a)) as [->|].
    - rewrite lookup_insert_eq. intros [= <-]. exact (Hcl1 Hcl a b Hb).
    - rewrite lookup_insert_ne by done. apply (Hcl1 Hcl). }
  split; [|split].
  - rewrite (view_change ∅ s1 a b b' Hc1 Hb), Hbn, decide_True by done. simpl. apply subrange_splice_same; lia.
  - by eapply cdi_cache_sync_clean.
  - intros m. simpl. rewrite (synced_contents s1 Hc1 (Hcl1 Hcl)), Hv1.
    symmetry. apply synced_contents; [apply Hid|done].
Qed.

End proofs.

(** ** Names *)

(** Without the spaces at the end. *)
Fixpoint rstrip (s : list Z) : list Z :=
  match s with
  | [] => []
  | c :: s => match rstrip s with [] => if c =? SPACE then [] else [c] | r => c :: r end
  end.

Lemma used_length_rstrip i len s :
  used_length i len s = match rstrip s with [] => len | r => (i + length r)%nat end.
Proof.
  revert i len. induction s as [|c s IH]; intros i len; [done|]. cbn [used_length rstrip]. rewrite IH.
  destruct (rstrip s) as [|d r]; [|simpl; lia]. destruct (c =? SPACE); simpl; lia.
Qed.

Lemma take_rstrip s : take (used_length 0 0 s) s = rstrip s.
Proof.
  rewrite used_length_rstrip.
  assert (H : take (length (rstrip s)) s = rstrip s).
  { induction s as [|c s IH]; [done|]. simpl. destruct (rstrip s) as [|d r]; [by destruct (c =? SPACE)|].
    simpl in *. f_equal. done. }
  by destruct (rstrip s).
Qed.

Lemma rstrip_sublist s : forall c, c ∈ rstrip s -> c ∈ s.
Proof. intros c. rewrite <- take_rstrip. intros Hc. rewrite <- (take_drop (used_length 0 0 s) s). set_solver. Qed.

Lemma rstrip_length s : (length (rstrip s) <= length s)%nat.
Proof. rewrite <- take_rstrip, length_take. lia. Qed.

Definition lower (c : Z) : Z := w8 (tolower (s8 c)).

(** The odd condition of the loop does no harm on legal names. *)
Lemma lower_loop_all i s : 0 <= i -> i + Z.of_nat (length s) <= 32 -> Forall (fun c => 32 <= s8 c) s ->
  lower_loop i s = lower <$> s.
Proof.
  revert i. induction s as [|c s IH]; intros i Hi Hl Hf; [done|]. apply Forall_cons in Hf as (Hc & Hf).
  cbn [length] in Hl. cbn [lower_loop]. assert (s8 c < 128) by (unfold s8, w8; pose proof (Z.mod_pos_bound c 256); destruct (Z.ltb_spec (c mod 256) 128); lia).
  rewrite w32_small by lia. rewrite (proj2 (Z.ltb_lt _ _)) by lia. rewrite fmap_cons. f_equal. apply IH; [lia|lia|done].
Qed.

(** The name of a short entry that passes the check is its name without the spaces
    at the end, followed by a dot and the extension if there is one, in lower case;
    a byte from 128 on (as the first byte of a name that starts with 0xE5) never
    passes. *)
Theorem short_name_correct dirent name :
  (32 <= length dirent)%nat -> short_name dirent = Some name ->
  let base := rstrip (take 8 dirent) in let ext := rstrip (subrange dirent 8 3) in
  name = lower <$> (base ++ match ext with [] => [] | _ => 46 :: ext end) /\
  forall c, c ∈ take 11 dirent -> 32 <= s8 c < 128 /\ s8 c ∉ illegal.
Proof.
  intros Hlen Hs base ext. unfold short_name in Hs. destruct (check_filename dirent) eqn:E; [|done].
  injection Hs as <-. unfold check_filename in E. apply andb_true_iff in E as (_ & E).
  assert (Hall : forall c, c ∈ take 11 dirent -> 32 <= s8 c < 128 /\ s8 c ∉ illegal).
  { intros c Hc. rewrite forallb_forall in E. specialize (E c (proj1 (list_elem_of_In _ _) Hc)).
    zbool. unfold SPACE in *. assert (s8 c < 128) by (unfold s8, w8; pose proof (Z.mod_pos_bound c 256); destruct (Z.ltb_spec (c mod 256) 128); lia).
    split; [lia|]. by apply bool_decide_eq_false in H0. }
  split; [|done]. unfold parse_name. rewrite !take_rstrip. fold base ext.
  assert (E1 : (0 <? used_length 0 0 (subrange dirent 8 3))%nat = match ext with [] => false | _ => true end).
  { rewrite used_length_rstrip. fold ext. by destruct ext. }
  rewrite E1. assert (E2 : (if match ext with [] => false | _ => true end then 46 :: ext else []) =
    match ext with [] => [] | _ => 46 :: ext end) by by destruct ext. rewrite E2.
  apply lower_loop_all; [lia| |].
  - pose proof (rstrip_length (take 8 dirent)) as H1. pose proof (rstrip_length (subrange dirent 8 3)) as H2.
    fold base in H1. fold ext in H2. unfold subrange in H2. rewrite length_take in H1, H2.
    rewrite length_app. clear E1 E2. clearbody base ext. destruct ext as [|x xs]; cbn [length] in *; lia.
  - apply Forall_forall. intros c Hc. apply elem_of_app in Hc as [Hc|Hc].
    + apply rstrip_sublist in Hc. apply Hall. rewrite <- (take_drop 8 (take 11 dirent)), take_take. set_solver.
    + assert (Hc' : c = 46 \/ c ∈ ext) by (destruct ext; set_solver). destruct Hc' as [->|Hx]; [done|].
      apply rstrip_sublist in Hx. apply Hall. unfold subrange in Hx. rewrite take_drop_commute in Hx.
      rewrite <- (take_drop 8 (take 11 dirent)). set_solver.
Qed.

Example short_name_readme : short_name ([82; 69; 65; 68; 77; 69; 32; 32; 84; 88; 84] ++ replicate 21 0) =
  Some [114; 101; 97; 100; 109; 101; 46; 116; 120; 116].
Proof. reflexivity. Qed.

(** ** The volume below the cache

    What reading and writing a file or block device promises: as many bytes as there
    are from the position on. *)
Class VolumeLaws (V : Type) `{Volume V} (size : Z) := {
  bytes_of : V -> list Z;
  bytes_length : forall v, Z.of_nat (length (bytes_of v)) = size;
  data_read_ok : forall v start n, 0 <= start -> 0 <= n ->
    exists v', data_read v start n = (subrange (bytes_of v) start n, v') /\ bytes_of v' = bytes_of v;
  data_write_ok : forall v start bytes, 0 <= start -> start + Z.of_nat (length bytes) <= size ->
    exists v', data_write v start bytes = (Z.of_nat (length bytes), v') /\
      bytes_of v' = splice (bytes_of v) start bytes;
}.

Section volume_device.
Context {V : Type} `{VV : Volume V} {bs : fat_bootsector} {capacity : Z}
  `{VL : !VolumeLaws V (capacity * sector_size bs)}.

Lemma length_subrange (l : list Z) off n : 0 <= off -> 0 <= n -> off + n <= Z.of_nat (length l) ->
  length (subrange l off n) = Z.to_nat n.
Proof. intros. unfold subrange. rewrite length_take, length_drop. lia. Qed.

Lemma subrange_short (l : list Z) off n : 0 <= off -> Z.of_nat (length l) - off <= n ->
  subrange l off n = subrange l off (Z.of_nat (length l) - off).
Proof.
  intros. unfold subrange. rewrite !take_ge; [done|..]; rewrite length_drop; lia.
Qed.

Lemma subrange_split (l : list Z) off n k : 0 <= off -> 0 <= n -> 0 <= k ->
  subrange l off (n + k) = (subrange l off n ++ subrange l (off + n) k).
Proof.
  intros. unfold subrange. rewrite !Z2Nat.inj_add by lia. rewrite <- drop_drop.
  set (m := drop (Z.to_nat off) l). rewrite <- (take_drop (Z.to_nat n) m) at 1.
  destruct (decide (Z.to_nat n <= length m)%nat).
  - rewrite take_app_ge by (rewrite length_take; lia). rewrite length_take. do 2 f_equal. lia.
  - rewrite (drop_ge m (Z.to_nat n)) by lia. rewrite take_nil, !app_nil_r.
    rewrite take_ge; [done|]. rewrite length_take. lia.
Qed.

Lemma subrange_blocks (l : list Z) ss n (r : nat) : 0 < ss -> 0 <= n ->
  subrange l (n * ss) (Z.of_nat r * ss) =
    concat ((fun m => subrange l (m * ss) ss) <$> seqZ n (Z.of_nat r)).
Proof.
  intros Hss Hn. induction r as [|r IH]; [done|].
  rewrite seqZ_S, fmap_app, concat_app. simpl. rewrite app_nil_r, <- IH.
  replace (Z.of_nat (S r) * ss) with (Z.of_nat r * ss + ss) by lia.
  rewrite subrange_split by lia. do 2 f_equal. lia.
Qed.

Hypothesis sector_pos : 0 < sector_size bs < 65536.
Hypothesis capacity_ok : 0 <= capacity < 4294967296.

(** The device that the driver gives to its cache keeps the promises the cache relies
    on. *)
#[local, program] Instance fat_device_laws :
  DeviceLaws (H := fat_device bs) V (sector_size bs) capacity :=
  {| contents v n := if n <? 0 then [] else subrange (bytes_of v) (n * sector_size bs) (sector_size bs) |}.
Next Obligation. unfold INVBLKNUM. lia. Qed.
Next Obligation.
  intros v n Hn. simpl. rewrite (proj2 (Z.ltb_ge n 0)) by lia. apply length_subrange; try nia.
  rewrite bytes_length. nia.
Qed.
Next Obligation.
  intros v n count Hn Hc. simpl. unfold fat_sector_read_cache, READBUF_SZ in *.
  unfold w64. rewrite Z.mod_small by nia. rewrite w32_small by nia.
  destruct (data_read_ok v (n * sector_size bs) (count * sector_size bs)) as (v' & E & Hb); [nia|nia|].
  rewrite E. set (r := Z.min count (capacity - n)). pose proof (bytes_length v) as Hl.
  assert (Es : subrange (bytes_of v) (n * sector_size bs) (count * sector_size bs) =
    subrange (bytes_of v) (n * sector_size bs) (r * sector_size bs)).
  { unfold r. destruct (Z.min_spec count (capacity - n)) as [(? & ->)|(? & ->)]; [done|].
    rewrite subrange_short by (rewrite ?Hl; nia). f_equal. rewrite Hl. lia. }
  rewrite Es, length_subrange by (rewrite ?Hl; nia). rewrite Z2Nat.id, Z.div_mul by nia.
  exists r, v'. split_and!; try lia; [|by intros m; rewrite Hb].
  f_equal. f_equal. pose proof (subrange_blocks (bytes_of v) (sector_size bs) n (Z.to_nat r)) as Hc'.
  rewrite Z2Nat.id in Hc' by lia. rewrite Hc' by lia. f_equal. apply list_fmap_ext.
  intros i m Hm. apply lookup_seqZ in Hm as (-> & _). by rewrite (proj2 (Z.ltb_ge _ 0)) by lia.
Qed.
Next Obligation.
  intros v n count Hn Hc. simpl. unfold fat_sector_read_cache, READBUF_SZ in *.
  unfold w64. rewrite Z.mod_small by nia. rewrite w32_small by nia.
  destruct (data_read_ok v (n * sector_size bs) (count * sector_size bs)) as (v' & E & Hb); [nia|nia|].
  rewrite E. exists v'. pose proof (bytes_length v) as Hl. unfold subrange. rewrite drop_ge by nia.
  rewrite take_nil. split; [done|]. intros m. by rewrite Hb.
Qed.
Next Obligation.
  intros v n bytes Hn Hlen. simpl. unfold fat_sector_write_cache.
  unfold w64. rewrite Z.mod_small by nia. rewrite w32_small by lia. rewrite take_ge by lia.
  pose proof (bytes_length v) as Hl.
  destruct (data_write_ok v (n * sector_size bs) bytes) as (v' & E & Hb); [nia|nia|].
  rewrite E, Hlen, Z2Nat.id, Z.div_same by lia. exists 1, v'. split; [done|]. split; [done|].
  intros m. rewrite Hb. destruct (decide (m = n)) as [->|Hne].
  - rewrite (proj2 (Z.ltb_ge n 0)) by lia. pose proof (subrange_splice_same (bytes_of v) (n * sector_size bs) bytes) as Hsame.
    rewrite Hlen, Z2Nat.id in Hsame by lia. apply Hsame; nia.
  - destruct (Z.ltb_spec m 0); [done|]. rewrite subrange_splice_other; [done|nia|nia|lia|nia|].
    rewrite Hlen, Z2Nat.id by lia. assert (m < n \/ n < m) as [?|?] by lia; nia.
Qed.

Context `{MM : Malloc} `{GG : Garbage}.

(** Mounting a volume with a table of 12- or 16-bit entries: the root directory
    follows the tables and the data follows the root directory, and through the new
    cache the driver sees the volume's sectors. *)
Theorem fat_fs_init_correct v :
  parse_bootsector (subrange (bytes_of v) 0 512) = bs -> 512 <= capacity * sector_size bs ->
  fat_type bs <> FAT32 -> 0 <= reserved_sectors bs < 65536 -> 0 <= fat_fat_sectors bs < 4294967296 ->
  0 <= num_fats bs < 256 -> 0 <= rootdir_max_ent bs < 65536 ->
  let root := (reserved_sectors bs + num_fats bs * fat_fat_sectors bs) * sector_size bs in
  exists s, fat_fs_init v = Some (Ret (FatFs bs (fat_type bs) (root + rootdir_max_ent bs * 32), root_of root []) s) /\
    idle (DD := fat_device bs) (bs := sector_size bs) (capacity := capacity) [] s /\
    forall n, 0 <= n < capacity ->
      view (DD := fat_device bs) (bs := sector_size bs) (capacity := capacity) s n =
        subrange (bytes_of v) (n * sector_size bs) (sector_size bs).
Proof.
  intros Hbs Hsz Hty Hr Hf Hn Hm root. pose proof (bytes_length v) as Hl.
  destruct (data_read_ok v 0 512) as (v' & E & Hv'); [lia|lia|].
  unfold fat_fs_init, fat_bootsector_load. rewrite E, length_subrange, Hbs by lia. simpl.
  assert (H1 : 0 <= fat_fat_sectors bs * sector_size bs < 281474976710656) by nia.
  assert (H2 : 0 <= fat_fat_sectors bs * sector_size bs * num_fats bs < 72057594037927936) by nia.
  assert (H3 : 0 <= reserved_sectors bs * sector_size bs < 4294967296) by nia.
  assert (Hroot : root = reserved_sectors bs * sector_size bs + fat_fat_sectors bs * sector_size bs * num_fats bs)
    by (unfold root; lia).
  assert (Hst : fat_fat_start bs (num_fats bs) = root).
  { unfold fat_fat_start, fat_fat_size, w64. rewrite (Z.mod_small (fat_fat_sectors bs * _)) by lia.
    rewrite Z.mod_small; lia. }
  assert (Hda : w64 (root + rootdir_max_ent bs * 32) = root + rootdir_max_ent bs * 32).
  { unfold w64. apply Z.mod_small. lia. }
  eexists. split; [|split].
  - destruct (fat_type bs); [| |done]; rewrite Hst, Hda; reflexivity.
  - apply create_idle.
  - intros n Hn'. rewrite view_create. simpl. rewrite (proj2 (Z.ltb_ge n 0)) by lia. by rewrite Hv'.
Qed.

(** The data area it finds is that of the format if the root directory fills its sectors;
    the size is not rounded up. *)
Lemma fat_fs_init_geometry t : rootdir_max_ent bs * 32 mod sector_size bs = 0 ->
  data_area (FatFs bs t ((reserved_sectors bs + num_fats bs * fat_fat_sectors bs) * sector_size bs + rootdir_max_ent bs * 32)) =
  first_data_sector (ss := sector_size bs) bs * sector_size bs.
Proof.
  intros Hr. cbn [data_area]. unfold first_data_sector, fat_fat_sectors.
  assert (Hs : (if fat_size_small bs =? 0 then fat32_fat_size bs else fat_size_small bs) =
    (if decide (fat_size_small bs = 0) then fat32_fat_size bs else fat_size_small bs)).
  { destruct (Z.eqb_spec (fat_size_small bs) 0), (decide (fat_size_small bs = 0)); done. }
  rewrite Hs. replace ((rootdir_max_ent bs * 32 + sector_size bs - 1) / sector_size bs) with (rootdir_max_ent bs * 32 / sector_size bs).
  - pose proof (Z.div_mod (rootdir_max_ent bs * 32) (sector_size bs) ltac:(lia)). lia.
  - pose proof (Z.div_mod (rootdir_max_ent bs * 32) (sector_size bs) ltac:(lia)) as E. rewrite Hr, Z.add_0_r in E.
    apply (Z.div_unique _ _ _ (sector_size bs - 1)); lia.
Qed.

Theorem fat_fs_init_short v : capacity * sector_size bs < 512 -> fat_fs_init v = None.
Proof.
  intros Hsz. pose proof (bytes_length v) as Hl. destruct (data_read_ok v 0 512) as (v' & E & _); [lia|lia|].
  unfold fat_fs_init, fat_bootsector_load. rewrite E.
  rewrite (proj2 (Z.eqb_neq _ 512)); [done|]. unfold subrange. rewrite length_take, length_drop. lia.
Qed.

End volume_device.

(** ** Images *)

Module Image.
(** An image of [n] bytes, the missing ones zero. *)
Record image := Image { store : list Z }.

Definition bytes (n : nat) (v : image) : list Z := take n (store v ++ replicate n 0).

Lemma bytes_len n v : length (bytes n v) = n.
Proof. unfold bytes. rewrite length_take, length_app, length_replicate. lia. Qed.

Definition on_image (n : nat) : Volume image := {|
  data_read v start k := (subrange (bytes n v) start k, v);
  data_write v start b := (Z.of_nat (length b), Image (splice (bytes n v) start b));
|}.

#[program] Definition on_image_laws (n : nat) : VolumeLaws (H := on_image n) image (Z.of_nat n) :=
  {| bytes_of := bytes n |}.
Next Obligation. intros n v. by rewrite bytes_len. Qed.
Next Obligation. intros n v start k _ _. by exists v. Qed.
Next Obligation.
  intros n v start b Hs He. eexists. split; [done|]. unfold bytes at 1. cbn [store].
  apply take_app_length'. unfold splice. rewrite !length_app, length_take, length_drop, bytes_len. lia.
Qed.
End Image.

(** ** A floppy disk

    Six sectors of 32 bytes: the boot sector, a table of 12-bit entries, the root directory
    and three clusters of one sector; a file of the clusters 3 and 4. *)
Module Floppy.
Import Image.
#[local] Existing Instance Disk.zero_garbage.

Definition boot : fat_bootsector := Bootsector 32 1 1 1 1 6 1 0 [] 0 0.
Definition fs : fat_fs_filesystem := FatFs boot FAT12 96.

(** The entries: 0xFF8, 0xFFF, then 0 for cluster 2, 4 for cluster 3 and 0xFFF for
    cluster 4. *)
Definition disk0 : image :=
  Image (replicate 32 0 ++ [248; 255; 255; 0; 64; 0; 255; 15] ++ replicate 24 0 ++ replicate 32 0 ++
    replicate 32 1 ++ replicate 31 65 ++ [66; 67; 68]).

#[local] Instance floppy_volume : Volume image := on_image 192.
#[local] Instance floppy_device : Device image := fat_device boot.
#[local] Instance floppy_laws : DeviceLaws image 32 6 :=
  fat_device_laws (bs := boot) (capacity := 6) (VL := on_image_laws 192) ltac:(simpl; lia) ltac:(lia).

Definition start0 : state image := cdi_cache_create 32 0 disk0.
Definition res0 : fat_fs_res := Res [102] CLASS_FILE 0 34 false [] false None.

Lemma floppy_chain : chain (ss := 32) (capacity := 6) start0 fs 3 [3; 4].
Proof.
  apply chain_next with 4; [split; [vm_compute; split; congruence|]|vm_compute; split; congruence|].
  - apply (bool_decide_unpack _). vm_compute. exact I.
  - apply chain_last with 4095; [split; [vm_compute; split; congruence|]|vm_compute; reflexivity].
    apply (bool_decide_unpack _). vm_compute. exact I.
Qed.

(** Both clusters are read, up to the size of the file. *)
Lemma fat_file_read_correct_witness :
  exists s' l',
    (cl ← fat_clchain_create fs 3;
     fat_fs_file_read fs (Res [102] CLASS_FILE 0 34 false cl true None) 0 100 (replicate 100 0)) start0 =
    Ret (34, replicate 31 65 ++ [66; 67; 68]) s' /\
    idle (bs := 32) (capacity := 6) l' s' /\ same_view (capacity := 6) start0 s'.
Proof.
  destruct (fat_file_read_correct (ss := 32) (capacity := 6) fs [] start0 3 [3; 4] res0 0 100 (replicate 100 0))
    as (s' & l' & E & H).
  - split; vm_compute; try done; split; done.
  - split; vm_compute; congruence.
  - apply create_idle.
  - apply (bool_decide_unpack _). vm_compute. exact I.
  - exact floppy_chain.
  - intros Hin. vm_compute in Hin. apply elem_of_cons in Hin as [Hin|Hin]; [discriminate Hin|]. apply elem_of_nil in Hin. destruct Hin.
  - repeat constructor; vm_compute; congruence.
  - repeat constructor; vm_compute; congruence.
  - simpl. lia.
  - vm_compute. congruence.
  - lia.
  - lia.
  - left. done.
  - exists s', l'. split; [|exact H].
    match type of E with _ = Ret ?p _ => replace p with (34, replicate 31 65 ++ [66; 67; 68]) in E by (vm_compute; reflexivity) end.
    exact E.
Defined.

(** What the driver does with a chain from cluster 3 to cluster 2, which is not what it
    means to do: it takes the 2 for the end. *)
Example cluster_two_ends_chain :
  match fat_clchain_create fs 3 (cdi_cache_create 32 0 (Image (replicate 32 0 ++ [248; 255; 255; 255; 47; 0]))) with
  | Ret cl _ => cl = [128]
  | Stop _ _ => False
  end.
Proof. vm_compute. reflexivity. Qed.
End Floppy.

(** ** A small volume

    Eight sectors of two bytes with a table of 16-bit entries in the first four. *)
Module Small.
Import Disk.

Definition boot : fat_bootsector := Bootsector 2 1 0 1 1 8 4 0 [] 0 0.
Definition fs : fat_fs_filesystem := FatFs boot FAT16 8.
Definition volume0 : Disk.disk :=
  {| Disk.store := {[2 := (3, 0); 3 := (255, 255); 4 := (65, 66); 5 := (67, 68)]} |}.
Definition start0 : state Disk.disk := cdi_cache_create 2 0 volume0.

Lemma fs_mounted : mounted (ss := 2) (capacity := 8) fs.
Proof. split; vm_compute; try done; split; done. Qed.

Lemma fat_read_crossing_overruns_witness :
  exists s', fat_read fs 9 2 [0; 0] start0 = Stop OutOfBounds s'.
Proof.
  apply (fat_read_crossing_overruns (ss := 2) (capacity := 8) fs [] start0 9 2 [0; 0]).
  - exact fs_mounted.
  - apply create_idle.
  - vm_compute. done.
  - intros [E|E]; vm_compute in E; done.
Defined.

Lemma fat_write_never_reaches_device_witness :
  exists s', fat_write fs 8 [1; 2] start0 = Ret 2 s' /\
    subrange (view (capacity := 8) s' 4) 0 2 = [1; 2] /\ cdi_cache_sync s' = Ret 1 s' /\
    forall m, Disk.get (dev s') m = Disk.get volume0 m.
Proof.
  destruct (fat_write_never_reaches_device (ss := 2) (capacity := 8) fs [] start0 8 [1; 2])
    as (s' & E & Hv & Hs & Hd).
  - exact fs_mounted.
  - apply create_idle.
  - intros a b Hb. simpl in Hb. by rewrite lookup_empty in Hb.
  - vm_compute. done.
  - vm_compute. done.
  - exists s'. split; [exact E|]. split; [exact Hv|]. split; [exact Hs|exact Hd].
Defined.

(** What becomes of the long name of a hidden file: the entries are kept and name
    the next file that is listed. *)
Definition long_x : list Z := [65; 120; 0] ++ replicate 8 255 ++ [15; 0; 0] ++ replicate 12 255 ++ [0; 0] ++ replicate 4 255.
Definition hidden_x : list Z := [88] ++ replicate 10 32 ++ [2] ++ replicate 14 0 ++ [3; 0; 0; 0; 0; 0].
Definition visible_a : list Z := [65] ++ replicate 10 32 ++ [0] ++ replicate 14 0 ++ [3; 0; 1; 0; 0; 0].

Example hidden_name_leaks :
  match (fat_dirent_load fs long_x;; fat_dirent_load fs hidden_x;; fat_dirent_load fs visible_a)
          (Driver start0 None) with
  | Ret r _ => take 1 <$> (name <$> r) = Some [120]
  | Stop _ _ => False
  end.
Proof. vm_compute. reflexivity. Qed.

Example visible_name :
  match fat_dirent_load fs visible_a (Driver start0 None) with
  | Ret r _ => name <$> r = Some [97]
  | Stop _ _ => False
  end.
Proof. vm_compute. reflexivity. Qed.

(** A chain that leads back to itself is followed for ever. *)
Example cyclic_chain_hangs :
  match fat_clchain_create (FatFs boot FAT12 8) 0 (cdi_cache_create 2 0
          {| store := {[0 := (4, 0); 1 := (0, 0); 3 := (4, 0)]} |}) with
  | Stop w _ => w = Hang
  | Ret _ _ => False
  end.
Proof. vm_compute. reflexivity. Qed.

End Small.
