(* ===== verification/Storage.v ===== *)
(** * Storage devices of the driver interface (apps/lib/libcdi/storage.c)

    Reading and writing bytes of a block device through a buffer of one block.  The
    driver below ([read_blocks], [write_blocks]) is an interface; a position is a
    byte, a block number is a position divided by the block size. *)

From S2P Require Import Prelude Machine Cache.

(** [read_blocks] gives nothing on an error (-1), [write_blocks] a flag. *)
Class Driver (D : Type) := {
  read_blocks : D -> Z -> Z -> option (list Z) * D;
  write_blocks : D -> Z -> Z -> list Z -> bool * D;
}.

(** The fields of [struct cdi_storage_device] for the buffer; [buffer] is NULL before
    the first use. *)
Record storage (D : Type) := Storage {
  block_size : Z;
  buffer : option (list Z);
  buffer_curblock : Z;
  buffer_loaded : bool;
  buffer_dirty : bool;
  drv : D;
}.
Arguments Storage {D}.
Arguments block_size {D}.
Arguments buffer {D}.
Arguments buffer_curblock {D}.
Arguments buffer_loaded {D}.
Arguments buffer_dirty {D}.
Arguments drv {D}.

Section code.
Context {D : Type} `{DD : Driver D} `{GG : Garbage}.
Implicit Types d : storage D.

(** The allocated buffer. *)
Definition buf d : list Z := default (garbage (block_size d)) (buffer d).

(** Write the old block, read the new one. *)
Definition cdi_storage_swapbuffer (newpos : Z) : cmd (storage D) Z := fun d =>
  let bs := block_size d in
  let d := Storage bs (Some (buf d)) (buffer_curblock d) (buffer_loaded d) (buffer_dirty d) (drv d) in
  if negb (buffer_curblock d =? newpos / bs) || negb (buffer_loaded d) then
    let '(ok, d) :=
      if buffer_loaded d && buffer_dirty d then
        let '(ok, dv) := write_blocks (drv d) (buffer_curblock d / bs) 1 (buf d) in
        (ok, Storage bs (buffer d) (buffer_curblock d) (buffer_loaded d) (buffer_dirty d) dv)
      else (true, d) in
    if negb ok then Ret (-1) d
    else
      let '(r, dv) := read_blocks (drv d) (newpos / bs) 1 in
      match r with
      | None => Ret (-1) (Storage bs (buffer d) (buffer_curblock d) (buffer_loaded d) (buffer_dirty d) dv)
      | Some bytes => Ret 0 (Storage bs (Some (splice (buf d) 0 bytes)) (newpos / bs) true false dv)
      end
  else Ret 0 d.

(** [memcpy (dest+at, src+off, n)] with both ends checked. *)
Definition memcpy_at (dest : list Z) (at_ : Z) (src : list Z) (off n : Z) : cmd (storage D) (list Z) :=
  if (at_ + n <=? Z.of_nat (length dest)) && (off + n <=? Z.of_nat (length src))
  then mret (splice dest at_ (subrange src off n)) else stop_with OutOfBounds.

(** The loop of reading and of writing: [i] counts the blocks, [count] is never
    reduced.  Writing only marks the buffer. *)
Fixpoint copy_loop (n : nat) (i : Z) (mark : bool) (count blockpos offset : Z) (user : list Z)
    : cmd (storage D) (list Z) :=
  match n with
  | O => mret user
  | S n =>
      bs ← gets block_size;
      let count_cur := if count <? bs - offset then count else bs - offset in
      cdi_storage_swapbuffer blockpos;;
      b ← gets buf;
      user ← memcpy_at user (i * bs) b offset count_cur;
      (if mark then modify (fun d => Storage (block_size d) (buffer d) (buffer_curblock d) (buffer_loaded d) true (drv d))
       else mret tt);;
      copy_loop n (i + 1) mark count (w64 (blockpos + bs)) 0 user
  end.

Definition copy (mark : bool) (user : list Z) (pos : Z) : cmd (storage D) (Z * list Z) :=
  let count := Z.of_nat (length user) in
  bs ← gets block_size;
  let offset := pos mod bs in
  let blocks := w32 (w64 (count + offset - 1) / bs + 1) in
  user ← copy_loop (Z.to_nat blocks) 0 mark count (pos - offset) offset user;
  mret (count, user).

(** The number of bytes and the user's buffer afterwards. *)
Definition cdi_storage_read (user : list Z) (pos : Z) : cmd (storage D) (Z * list Z) := copy false user pos.

Definition cdi_storage_write (user : list Z) (pos : Z) : cmd (storage D) (Z * list Z) := copy true user pos.

End code.

(** What a driver promises for the blocks the device has. *)
Class DriverLaws (D : Type) `{Driver D} (bs capacity : Z) := {
  sectors : D -> Z -> list Z;
  bs_pos : 0 < bs < 4294967296;
  sectors_length : forall d n, length (sectors d n) = Z.to_nat bs;
  read_blocks_ok : forall d n, 0 <= n < capacity ->
    exists d', read_blocks d n 1 = (Some (sectors d n), d') /\ forall m, sectors d' m = sectors d m;
  write_blocks_ok : forall d n bytes, 0 <= n < capacity -> length bytes = Z.to_nat bs ->
    exists d', write_blocks d n 1 bytes = (true, d') /\
      forall m, sectors d' m = if decide (m = n) then bytes else sectors d m;
}.

Section proofs.
Context {D : Type} `{DD : Driver D} `{GG : Garbage} {bs capacity : Z} `{LL : !DriverLaws D bs capacity}.
Implicit Types d : storage D.

(** The buffer, once loaded, holds its block; nothing waits to be written. *)
Record ok d : Prop := {
  ok_bs : block_size d = bs;
  ok_len : length (buf d) = Z.to_nat bs;
  ok_clean : buffer_dirty d = false;
  ok_loaded : buffer_loaded d = true -> buf d = sectors (capacity := capacity) (drv d) (buffer_curblock d);
}.

Definition disk_byte (dv : D) (p : Z) : Z := sectors (capacity := capacity) dv (p / bs) !!! Z.to_nat (p mod bs).
Definition disk (dv : D) (pos n : Z) : list Z := disk_byte dv <$> seqZ pos n.

Lemma disk_ext dv dv' pos n :
  (forall m, sectors (capacity := capacity) dv' m = sectors (capacity := capacity) dv m) ->
  disk dv' pos n = disk dv pos n.
Proof. intros E. apply list_fmap_ext. intros i p _. unfold disk_byte. by rewrite E. Qed.

Lemma disk_app dv pos n k : 0 <= n -> 0 <= k -> disk dv pos (n + k) = (disk dv pos n ++ disk dv (pos + n) k).
Proof. intros. unfold disk. by rewrite seqZ_app, fmap_app by lia. Qed.

Lemma length_disk dv pos n : length (disk dv pos n) = Z.to_nat n.
Proof. unfold disk. by rewrite length_fmap, length_seqZ. Qed.

(** A piece of one block. *)
Lemma block_piece dv k off n : 0 <= off -> 0 <= n -> off + n <= bs -> 
  subrange (sectors (capacity := capacity) dv k) off n = disk dv (k * bs + off) n.
Proof.
  intros Ho Hn Hle. pose proof (sectors_length (capacity := capacity) dv k) as Hlen.
  pose proof (bs_pos (D := D) (bs := bs) (capacity := capacity)) as Hbs.
  apply list_eq. intros i. destruct (decide (Z.of_nat i < n)) as [Hi|Hi].
  - unfold subrange, disk. rewrite list_lookup_fmap, lookup_seqZ_lt by lia. simpl.
    rewrite lookup_take_lt, lookup_drop by lia. unfold disk_byte.
    replace ((k * bs + off + Z.of_nat i) / bs) with k by (apply (Z.div_unique _ _ _ (off + Z.of_nat i)); lia).
    replace ((k * bs + off + Z.of_nat i) mod bs) with (off + Z.of_nat i) by (apply (Z.mod_unique _ _ k); lia).
    rewrite <- list_lookup_lookup_total_lt by lia. f_equal. lia.
  - rewrite !lookup_ge_None_2; [done| |].
    + rewrite length_disk. lia.
    + unfold subrange. rewrite length_take. lia.
Qed.

Lemma swapbuffer_ok d k :
  ok d -> 0 <= k < capacity ->
  exists d', cdi_storage_swapbuffer (k * bs) d = Ret 0 d' /\ ok d' /\
    (forall m, sectors (capacity := capacity) (drv d') m = sectors (capacity := capacity) (drv d) m) /\
    buf d' = sectors (capacity := capacity) (drv d) k.
Proof.
  intros [Hbs Hlen Hcl Hld] Hk. pose proof (bs_pos (D := D) (bs := bs) (capacity := capacity)) as Hpos.
  unfold cdi_storage_swapbuffer. rewrite Hbs, Z.div_mul by lia. cbn [buffer_curblock buffer_loaded buffer_dirty].
  destruct (negb (buffer_curblock d =? k) || negb (buffer_loaded d)) eqn:E.
  - rewrite Hcl, andb_false_r. cbn [negb drv].
    destruct (read_blocks_ok (drv d) k Hk) as (dv & Er & Hdv). rewrite Er.
    eexists. split; [done|]. cbn. unfold buf at 1 2. simpl.
    assert (Hs : splice (buf d) 0 (sectors (capacity := capacity) (drv d) k) = sectors (capacity := capacity) (drv d) k).
    { unfold splice. simpl. rewrite drop_ge; [by rewrite app_nil_r|].
      rewrite (sectors_length (drv d) k). lia. }
    unfold buf in Hs. rewrite Hs. split; [|done]. split; simpl; auto. apply sectors_length.
  - rewrite orb_false_iff, !negb_false_iff in E. destruct E as (E1 & E2). apply Z.eqb_eq in E1.
    eexists. split; [done|]. split; [|split]; simpl.
    + split; simpl; auto.
    + done.
    + rewrite <- E1. by apply Hld.
Qed.

(** Reading whole blocks from a block boundary. *)
Lemma copy_blocks n i d count pos user k :
  ok d -> 0 <= i -> pos = k * bs -> 0 <= k -> (k + i + Z.of_nat n) <= capacity -> bs <= count ->
  capacity * bs < 18446744073709551616 -> length user = Z.to_nat ((i + Z.of_nat n) * bs) ->
  exists d', copy_loop n i false count ((k + i) * bs) 0 user d =
      Ret (take (Z.to_nat (i * bs)) user ++ disk (drv d) ((k + i) * bs) (Z.of_nat n * bs)) d' /\ ok d' /\
    forall m, sectors (capacity := capacity) (drv d') m = sectors (capacity := capacity) (drv d) m.
Proof.
  intros Hok Hi -> Hk Hend Hc Hcap Hlen. pose proof (bs_pos (D := D) (bs := bs) (capacity := capacity)) as Hpos.
  revert i d user Hok Hi Hend Hlen. induction n as [|n IH]; intros i d user Hok Hi Hend Hlen; cbn [copy_loop].
  { exists d. split; [|done]. unfold disk. rewrite app_nil_r, take_ge by (rewrite Hlen; lia). done. }
  rewrite bind_gets, (ok_bs _ Hok), Z.sub_0_r. rewrite (proj2 (Z.ltb_ge count bs)) by lia.
  destruct (swapbuffer_ok d (k + i) Hok ltac:(lia)) as (d1 & E1 & Hok1 & Hd1 & Hb1).
  rewrite (bind_Ret _ _ _ _ _ E1), bind_gets, Hb1. unfold memcpy_at.
  rewrite sectors_length, Hlen. rewrite !(proj2 (Z.leb_le _ _)) by nia. cbn [andb].
  rewrite !bind_ret. unfold w64. rewrite Z.mod_small by nia.
  replace ((k + i) * bs + bs) with ((k + (i + 1)) * bs) by lia.
  assert (Hpl : length (subrange (sectors (capacity := capacity) (drv d) (k + i)) 0 bs) = Z.to_nat bs).
  { unfold subrange. rewrite length_take, length_drop, sectors_length. lia. }
  destruct (IH (i + 1) d1 (splice user (i * bs) (subrange (sectors (capacity := capacity) (drv d) (k + i)) 0 bs)))
    as (d2 & E2 & Hok2 & Hd2); auto; try lia.
  { rewrite length_splice by (rewrite ?Hpl, ?Hlen; nia). rewrite Hlen. f_equal. lia. }
  exists d2. rewrite E2. split; [|split; [done|intros m; by rewrite Hd2]]. f_equal.
  rewrite (disk_ext (drv d) (drv d1)) by done.
  unfold splice. rewrite (assoc_L (++)), take_app_length'.
  2:{ rewrite length_app, length_take, Hpl, Hlen. rewrite <- Z2Nat.inj_min, <- Z2Nat.inj_add by nia. f_equal. nia. }
  rewrite <- (assoc_L (++)). f_equal. rewrite block_piece by lia. rewrite Z.add_0_r.
  replace (Z.of_nat (S n) * bs) with (bs + Z.of_nat n * bs) by lia. rewrite disk_app by nia. do 2 f_equal. lia.
Qed.

(** A request that goes on behind the first block and does not consist of whole
    blocks runs over the end of the user's buffer. *)
Lemma copy_overruns n i d mark count blockpos off user :
  block_size d = bs -> (1 <= n)%nat -> 0 <= i -> 0 <= off < bs -> 0 < count -> (2 <= Z.of_nat n \/ (1 <= i /\ off = 0)) ->
  Z.of_nat (length user) = count -> count < (i + Z.of_nat n - 1) * bs + Z.min bs count ->
  exists d', copy_loop n i mark count blockpos off user d = Stop OutOfBounds d'.
Proof.
  pose proof (bs_pos (D := D) (bs := bs) (capacity := capacity)) as Hpos.
  revert i d blockpos off user. induction n as [|n IH]; intros i d blockpos off user Hbs Hn Hi Ho Hc Hor Hlen Hover; [lia|].
  cbn [copy_loop]. rewrite bind_gets, Hbs.
  set (cur := if count <? bs - off then count else bs - off).
  assert (Hsw : exists r d1, cdi_storage_swapbuffer blockpos d = Ret r d1 /\ block_size d1 = bs).
  { unfold cdi_storage_swapbuffer. rewrite Hbs. repeat case_match; simplify_eq; eauto. }
  destruct Hsw as (r & d1 & E & Hbs1). rewrite (bind_Ret _ _ _ _ _ E), bind_gets. unfold memcpy_at.
  destruct (_ && _) eqn:Efit; [|eexists; reflexivity].
  apply andb_true_iff in Efit as (Efit & _). apply Z.leb_le in Efit.
  assert (Hcur : 0 < cur /\ cur <= count /\ (off = 0 -> cur = Z.min bs count)).
  { unfold cur. destruct (Z.ltb_spec count (bs - off)); lia. }
  destruct (decide (n = O)) as [->|Hn0]; [exfalso; destruct Hor as [?|(? & ?)]; nia|].
  rewrite bind_ret.
  assert (Hlen' : Z.of_nat (length (splice user (i * bs) (subrange (buf d1) off cur))) = count).
  { rewrite length_splice; [done|nia|]. unfold subrange. rewrite length_take. lia. }
  assert (Hnext : forall d2, block_size d2 = bs ->
    exists d', copy_loop n (i + 1) mark count (w64 (blockpos + bs)) 0
      (splice user (i * bs) (subrange (buf d1) off cur)) d2 = Stop OutOfBounds d').
  { intros d2 Hd2. apply IH; auto; try lia. }
  destruct mark; [rewrite bind_modify; by apply Hnext|rewrite bind_ret; by apply Hnext].
Qed.

(** [cdi_storage_read] gives the bytes of the device for requests inside one block
    and for whole blocks; for every other request it runs over the end of the buffer
    it fills. *)
Theorem storage_read_correct d pos user :
  ok d -> 0 <= pos -> 0 < Z.of_nat (length user) < 4294967296 -> capacity * bs < 4294967296 ->
  pos + Z.of_nat (length user) <= capacity * bs ->
  let count := Z.of_nat (length user) in
  if decide (pos mod bs + count <= bs \/ (pos mod bs = 0 /\ count mod bs = 0)) then
    exists d', cdi_storage_read user pos d = Ret (count, disk (drv d) pos count) d' /\ ok d' /\
      forall m, sectors (capacity := capacity) (drv d') m = sectors (capacity := capacity) (drv d) m
  else exists d', cdi_storage_read user pos d = Stop OutOfBounds d'.
Proof.
  intros Hok Hp Hlen Hcap Hend count. pose proof (bs_pos (D := D) (bs := bs) (capacity := capacity)) as Hpos.
  pose proof (Z.div_mod pos bs ltac:(lia)) as Edm. pose proof (Z.mod_pos_bound pos bs ltac:(lia)) as Hm.
  pose proof (Z.div_mod (count + pos mod bs - 1) bs ltac:(lia)) as Edb.
  pose proof (Z.mod_pos_bound (count + pos mod bs - 1) bs ltac:(lia)) as Hmb.
  set (q := (count + pos mod bs - 1) / bs) in *.
  assert (Hk : 0 <= pos / bs) by (apply Z.div_pos; lia). assert (Hk' : 0 <= bs * (pos / bs)) by nia.
  assert (Hq0 : 0 <= q) by (apply Z.div_pos; lia).
  assert (Hq : q < capacity) by (assert (bs * q < capacity * bs) by lia; nia).
  assert (Hblocks : w32 (w64 (count + pos mod bs - 1) / bs + 1) = q + 1).
  { unfold w64. rewrite (Z.mod_small (count + _ - 1)) by lia. fold q. rewrite w32_small by nia. done. }
  unfold cdi_storage_read, copy. fold count. rewrite !bind_gets, (ok_bs _ Hok), Hblocks.
  replace (pos - pos mod bs) with (pos / bs * bs) by lia.
  destruct (decide _) as [[Hin|(H0 & Hmul)]|Hno].
  - assert (Hqz : q = 0) by nia. rewrite Hqz. cbn [Z.add Z.to_nat Pos.to_nat Pos.iter_op Nat.add copy_loop].
    change (Z.to_nat (0 + 1)) with 1%nat. cbn [copy_loop].
    destruct (swapbuffer_ok d (pos / bs) Hok ltac:(nia)) as (d1 & E1 & Hok1 & Hd1 & Hb1).
    rewrite bind_assoc, bind_gets, (ok_bs _ Hok).
    assert (Hcur : (if count <? bs - pos mod bs then count else bs - pos mod bs) = count).
    { destruct (Z.ltb_spec count (bs - pos mod bs)); lia. }
    rewrite Hcur. rewrite bind_assoc, (bind_Ret _ _ _ _ _ E1), bind_assoc, bind_gets, Hb1.
    unfold memcpy_at. rewrite sectors_length. rewrite !(proj2 (Z.leb_le _ _)) by lia. cbn [andb].
    rewrite bind_assoc, !bind_ret. exists d1. split; [|done]. unfold mret, cmd_ret. do 2 f_equal.
    rewrite block_piece by lia. replace (pos / bs * bs + pos mod bs) with pos by lia.
    unfold splice. cbn [Z.mul Z.to_nat take app].
    rewrite drop_ge by (rewrite length_disk; lia). by rewrite app_nil_r.
  - assert (Hc : exists n : nat, count = Z.of_nat n * bs /\ q + 1 = Z.of_nat n).
    { exists (Z.to_nat (count / bs)). pose proof (Z.div_mod count bs ltac:(lia)). rewrite Hmul in *.
      assert (0 <= count / bs) by (apply Z.div_pos; lia). rewrite Z2Nat.id by lia. nia. }
    destruct Hc as (n & Hcn & Hqn). rewrite Hqn, Nat2Z.id, H0.
    destruct (copy_blocks n 0 d count (pos / bs * bs) user (pos / bs) Hok) as (d' & E & Hok' & Hd'); auto; try nia.
    rewrite Z.add_0_r in E. rewrite (bind_Ret _ _ _ _ _ E). exists d'. split; [|done].
    cbn [Z.mul Z.to_nat take app]. rewrite <- Hcn. by replace (pos / bs * bs) with pos by lia.
  - assert (Hbig : bs < pos mod bs + count) by (apply Z.nle_gt; tauto).
    assert (Hqn : 1 <= q) by nia.
    destruct (copy_overruns (Z.to_nat (q + 1)) 0 d false count (pos / bs * bs) (pos mod bs) user) as (d' & E);
      try apply Hok; auto; try lia.
    + rewrite Z2Nat.id by lia. destruct (Z.min_spec bs count) as [(? & ->)|(? & ->)]; [|nia].
      assert (Hne : q * bs + bs <> count); [|nia]. intros E. apply Hno. right.
      assert (pos mod bs = 0) by nia. split; [done|]. rewrite <- E. replace (q * bs + bs) with ((q + 1) * bs) by lia.
      by apply Z_mod_mult.
    + exists d'. by apply bind_Stop.
Qed.

(** What [cdi_storage_write] does, which is not what it means to do: it copies from
    the device into the user's data, and marks the buffer. *)
Theorem storage_write_reads d pos user :
  ok d -> 0 <= pos -> 0 < Z.of_nat (length user) < 4294967296 -> pos mod bs + Z.of_nat (length user) <= bs ->
  pos + Z.of_nat (length user) <= capacity * bs ->
  exists d', cdi_storage_write user pos d = Ret (Z.of_nat (length user), disk (drv d) pos (Z.of_nat (length user))) d' /\
    buffer_dirty d' = true /\
    forall m, sectors (capacity := capacity) (drv d') m = sectors (capacity := capacity) (drv d) m.
Proof.
  intros Hok Hp Hlen Hin Hend. pose proof (bs_pos (D := D) (bs := bs) (capacity := capacity)) as Hpos.
  set (count := Z.of_nat (length user)) in *.
  pose proof (Z.div_mod pos bs ltac:(lia)) as Edm. pose proof (Z.mod_pos_bound pos bs ltac:(lia)) as Hm.
  assert (Hblocks : w32 (w64 (count + pos mod bs - 1) / bs + 1) = 1).
  { unfold w64. rewrite Z.mod_small, Z.div_small by lia. done. }
  unfold cdi_storage_write, copy. fold count. rewrite !bind_gets, (ok_bs _ Hok), Hblocks.
  replace (pos - pos mod bs) with (pos / bs * bs) by lia. change (Z.to_nat 1) with 1%nat. cbn [copy_loop].
  destruct (swapbuffer_ok d (pos / bs) Hok) as (d1 & E1 & Hok1 & Hd1 & Hb1).
  { split; [apply Z.div_pos; lia|]. apply Z.div_lt_upper_bound; lia. }
  rewrite bind_assoc, bind_gets, (ok_bs _ Hok).
  assert (Hcur : (if count <? bs - pos mod bs then count else bs - pos mod bs) = count).
  { destruct (Z.ltb_spec count (bs - pos mod bs)); lia. }
  rewrite Hcur. rewrite bind_assoc, (bind_Ret _ _ _ _ _ E1), bind_assoc, bind_gets, Hb1.
  unfold memcpy_at. rewrite sectors_length. rewrite !(proj2 (Z.leb_le _ _)) by lia. cbn [andb].
  rewrite bind_assoc, bind_ret, bind_assoc, bind_modify, bind_ret.
  rewrite block_piece by lia. replace (pos / bs * bs + pos mod bs) with pos by lia.
  unfold splice. cbn [Z.mul Z.to_nat take app]. rewrite drop_ge by (rewrite length_disk; lia). rewrite app_nil_r.
  eexists. split; [reflexivity|]. by split.
Qed.

End proofs.

(** ** A driver *)

(** Eight blocks of two bytes in memory. *)
Module Ram.
Import Disk.

#[export] Instance ram_driver : Driver disk := {|
  read_blocks d n count := (Some (get d n), d);
  write_blocks d n count bytes :=
    match bytes with
    | x :: y :: _ => (true, {| store := <[n := (x, y)]> (store d) |})
    | _ => (false, d)
    end;
|}.

#[export, program] Instance ram_laws : DriverLaws disk 2 8 := {| sectors := get |}.
Next Obligation. lia. Qed.
Next Obligation. intros d n. unfold get. by destruct (default _ _). Qed.
Next Obligation. intros d n _. by exists d. Qed.
Next Obligation.
  intros d n [|x [|y [|z bytes]]] Hn Hl; try done. simpl. eexists. split; [done|].
  intros m. unfold get. simpl. destruct (decide (m = n)) as [->|].
  - by rewrite lookup_insert_eq.
  - by rewrite lookup_insert_ne.
Qed.

Definition disk0 : disk := {| store := {[0 := (10, 11); 1 := (12, 13); 2 := (14, 15); 3 := (16, 17)]} |}.
Definition start : storage disk := Storage 2 None 0 false false disk0.

Lemma start_ok : ok (bs := 2) (capacity := 8) start.
Proof. split; done. Qed.

Lemma storage_read_correct_witness :
  (exists d', cdi_storage_read [0; 0; 0; 0] 2 start = Ret (4, [12; 13; 14; 15]) d') /\
  (exists d', cdi_storage_read [0; 0] 1 start = Stop OutOfBounds d').
Proof.
  split.
  - destruct (storage_read_correct (bs := 2) (capacity := 8) start 2 [0; 0; 0; 0] start_ok
      ltac:(lia) ltac:(simpl; lia) ltac:(lia) ltac:(simpl; lia)) as (d' & E & _).
    exists d'. exact E.
  - exact (storage_read_correct (bs := 2) (capacity := 8) start 1 [0; 0] start_ok
      ltac:(lia) ltac:(simpl; lia) ltac:(lia) ltac:(simpl; lia)).
Defined.

(** Writing to block 2 and then reading block 0 puts the old contents of block 2
    into block 1. *)
Example write_corrupts :
  match (cdi_storage_write [1; 2] 4;; cdi_storage_read [0; 0] 0) start with
  | Ret _ d => get (drv d) 1 = [14; 15] /\ get (drv d) 2 = [14; 15]
  | Stop _ _ => False
  end.
Proof. vm_compute. done. Qed.
End Ram.
