(* ===== verification/Vfs.v ===== *)
(** * The virtual file system server (apps/vfs/vfs.c)

    The list of mounted file systems, and the search for the one a file is on.  The
    list is a list of pointers (llist.c) to records on a heap, so that [root_fs],
    which is one more pointer to such a record, can be left behind.  Paths are those
    of path.c. *)

From S2P Require Import Prelude LList Machine Path.

Record fslist_item := Fs {
  fsid : Z;
  fs_name : str;
  mountpoint : str;
  mp_path : path_t;
  pid : Z;
}.

(** The globals of vfs.c, the heap, and the process that calls. *)
Record vfs := Vfs {
  items : gmap Z fslist_item;
  fslist : list Z;
  root_fs : Z;
  nextfsid : Z;
  rpc_curpid : Z;
}.

Section code.
Context `{MM : Malloc}.

Definition item (a : Z) : cmd vfs fslist_item := fun s =>
  if a =? NULL then Stop NullDeref s
  else match items s !! a with Some i => Ret i s | None => Stop UseAfterFree s end.

Definition parse (s : str) : path_t := default (Path false []) (path_parse (Some s)).

(** [getlid_fsid] *)
Fixpoint lid_from (xs : list Z) (i id : Z) : cmd vfs Z :=
  match xs with
  | [] => mret (-1)
  | a :: xs => fs ← item a; if fsid fs =? id then mret i else lid_from xs (i + 1) id
  end.

Definition getlid_fsid (id : Z) : cmd vfs Z := s ← gets Datatypes.id; lid_from (Seq.scan (fslist s)) 0 id.

(** A slash at the end of a mountpoint is cut off. *)
Definition cut_slash (mp : str) : str :=
  if bool_decide (last mp = Some SLASH) && (1 <? length mp)%nat then take (length mp - 1) mp else mp.

Definition vfs_regfs (name mp : str) : cmd vfs Z := fun s =>
  match mp with
  | [] => Stop OutOfBounds s
  | _ =>
      let a := malloc (dom (items s)) in
      let mp := cut_slash mp in
      Ret (nextfsid s)
        (Vfs (<[a := Fs (nextfsid s) name mp (parse mp) (rpc_curpid s)]> (items s)) (a :: fslist s)
           (if bool_decide (mp = [SLASH]) then a else root_fs s) (s32 (nextfsid s + 1)) (rpc_curpid s))
  end.

Definition vfs_remfs (id : Z) : cmd vfs Z :=
  lid ← getlid_fsid id;
  s ← gets Datatypes.id;
  let rem := Seq.get (fslist s) (w32 lid) in
  fs ← item rem;
  if pid fs =? rpc_curpid s then
    modify (fun s => Vfs (delete rem (items s)) (Seq.remove (fslist s) (w32 lid)).2 (root_fs s) (nextfsid s) (rpc_curpid s));;
    mret 0
  else mret (-1).

(** The item whose mountpoint has most leading steps in common, the first of
    several; [maxfs] at first is the root. *)
Fixpoint best_loop (path : path_t) (xs : list Z) (maxcmp : nat) (maxfs : Z) : cmd vfs Z :=
  match xs with
  | [] => mret maxfs
  | a :: xs =>
      fs ← item a;
      let curcmp := path_compare path (mp_path fs) in
      if (maxcmp <? curcmp)%nat then best_loop path xs curcmp a else best_loop path xs maxcmp maxfs
  end.

(** [memmove (file, file+strlen(mountpoint), strlen(file)-strlen(mountpoint)+1)]:
    the size is unsigned, so that a mountpoint longer than the file name gives a size
    far behind the end. *)
Definition strip (file mp : str) : cmd vfs str :=
  if (length mp <=? length file)%nat then
    mret (match drop (length mp) file with [] => [SLASH] | r => r end)
  else if (length mp =? length file + 1)%nat then mret (match file with [] => [SLASH] | r => r end)
  else stop_with OutOfBounds.

Definition ENOENT : Z := 45.
Definition EINVAL : Z := 28.

(** The id and the name of the file on its file system. *)
Definition vfs_getfsid (file : str) (parent : bool) : cmd vfs (Z * str) :=
  let path := if parent then path_parent (parse file) else parse file in
  s ← gets Datatypes.id;
  maxfs ← best_loop path (Seq.scan (fslist s)) 0 (root_fs s);
  if maxfs =? NULL then mret (- ENOENT, file)
  else fs ← item maxfs; file' ← strip file (mountpoint fs); mret (fsid fs, file').

Definition vfs_getpid (id : Z) : cmd vfs Z :=
  lid ← getlid_fsid id;
  s ← gets Datatypes.id;
  let a := Seq.get (fslist s) (w32 lid) in
  if a =? NULL then mret (- EINVAL) else fs ← item a; mret (pid fs).
End code.

(** [main] *)
Definition vfs_start (curpid : Z) : vfs := Vfs ∅ [] NULL 1 curpid.

(** ** Correctness *)

(** Pointers in use are valid, ids are unique and were given out. *)
Record wf (s : vfs) : Prop := {
  wf_live : forall a, a ∈ fslist s -> a <> NULL /\ is_Some (items s !! a);
  wf_nodup : NoDup (fslist s);
  wf_ids : forall a b x y, a ∈ fslist s -> b ∈ fslist s -> items s !! a = Some x -> items s !! b = Some y ->
    fsid x = fsid y -> a = b;
  wf_next : forall a x, a ∈ fslist s -> items s !! a = Some x -> 1 <= fsid x < nextfsid s;
  wf_path : forall a x, a ∈ fslist s -> items s !! a = Some x -> mp_path x = parse (mountpoint x);
}.

Lemma scan_live xs : (forall a, a ∈ xs -> a <> NULL) -> Seq.scan xs = xs.
Proof.
  induction xs as [|a xs IH]; intros Hn; [done|]. cbn.
  rewrite (proj2 (Z.eqb_neq a NULL)) by (apply Hn; set_solver). f_equal. apply IH. set_solver.
Qed.

Lemma item_ok s a x : a <> NULL -> items s !! a = Some x -> item a s = Ret x s.
Proof. intros Ha Hx. unfold item. rewrite (proj2 (Z.eqb_neq a NULL)) by done. by rewrite Hx. Qed.

(** The steps a path has in common with the mountpoint of an item. *)
Definition score (s : vfs) (path : path_t) (a : Z) : nat :=
  match items s !! a with Some x => path_compare path (mp_path x) | None => 0 end.

Lemma best_loop_ok s path xs maxcmp maxfs :
  (forall a, a ∈ xs -> a <> NULL /\ is_Some (items s !! a)) ->
  exists r, best_loop path xs maxcmp maxfs s = Ret r s /\
    ((r = maxfs /\ forall a, a ∈ xs -> (score s path a <= maxcmp)%nat) \/
     (r ∈ xs /\ (maxcmp < score s path r)%nat /\ forall b, b ∈ xs -> (score s path b <= score s path r)%nat)).
Proof.
  revert maxcmp maxfs. induction xs as [|a xs IH]; intros maxcmp maxfs Hl.
  { exists maxfs. split; [done|]. left. set_solver. }
  destruct (Hl a ltac:(set_solver)) as (Ha & x & Hx). cbn [best_loop].
  rewrite (bind_Ret _ _ _ _ _ (item_ok s a x Ha Hx)).
  assert (Hs : score s path a = path_compare path (mp_path x)) by (unfold score; by rewrite Hx).
  rewrite <- Hs. destruct (Nat.ltb_spec maxcmp (score s path a)) as [Hlt|Hge].
  - destruct (IH (score s path a) a ltac:(set_solver)) as (r & E & [(-> & Hr)|(Hin & Hlt' & Hr)]).
    + exists a. split; [done|]. right. split; [set_solver|]. split; [done|]. intros b Hb.
      apply elem_of_cons in Hb as [->|Hb]; auto.
    + exists r. split; [done|]. right. split; [set_solver|]. split; [lia|]. intros b Hb.
      apply elem_of_cons in Hb as [->|Hb]; [lia|auto].
  - destruct (IH maxcmp maxfs ltac:(set_solver)) as (r & E & [(-> & Hr)|(Hin & Hlt' & Hr)]).
    + exists maxfs. split; [done|]. left. split; [done|]. intros b Hb. apply elem_of_cons in Hb as [->|Hb]; auto.
    + exists r. split; [done|]. right. split; [set_solver|]. split; [done|]. intros b Hb.
      apply elem_of_cons in Hb as [->|Hb]; [lia|auto].
Qed.

(** A file is looked for on the file system whose mountpoint has more leading steps
    in common with its path than every other, and is named there by what follows the
    mountpoint (a slash if nothing follows); a file that shares no step with any
    mountpoint is on the root. *)
Theorem vfs_getfsid_correct s a x file :
  wf s -> a <> NULL -> items s !! a = Some x -> (length (mountpoint x) <= length file)%nat ->
  (a ∈ fslist s /\ (0 < score s (parse file) a)%nat /\
   (forall b, b ∈ fslist s -> b <> a -> (score s (parse file) b < score s (parse file) a)%nat)) \/
  (a = root_fs s /\ forall b, b ∈ fslist s -> score s (parse file) b = 0%nat) ->
  vfs_getfsid file false s =
    Ret (fsid x, match drop (length (mountpoint x)) file with [] => [SLASH] | r => r end) s.
Proof.
  intros Hwf Ha Hx Hlen Hbest. unfold vfs_getfsid. rewrite bind_gets. cbn [Datatypes.id].
  rewrite scan_live by (intros b Hb; by apply (wf_live _ Hwf)).
  destruct (best_loop_ok s (parse file) (fslist s) 0 (root_fs s) (wf_live _ Hwf)) as (r & E & Hr).
  assert (r = a) as ->.
  { destruct Hbest as [(Hin & Hpos & Hmax)|(-> & Hz)], Hr as [(-> & Hall)|(Hin' & Hpos' & Hall)]; auto.
    - specialize (Hall a Hin). lia.
    - destruct (decide (r = a)) as [|Hne]; [done|]. specialize (Hall a Hin). specialize (Hmax r Hin' Hne). lia.
    - specialize (Hz r Hin'). lia. }
  rewrite (bind_Ret _ _ _ _ _ E), (proj2 (Z.eqb_neq a NULL)) by done.
  rewrite (bind_Ret _ _ _ _ _ (item_ok s a x Ha Hx)). unfold strip.
  rewrite (proj2 (Nat.leb_le _ _)) by done. by rewrite bind_ret.
Qed.

Section registry.
Context `{MM : Malloc}.

(** Registering keeps the table well formed and gives a new id. *)
Lemma regfs_wf s name mp id s' :
  wf s -> 1 <= nextfsid s < 2147483647 -> vfs_regfs name mp s = Ret id s' -> wf s' /\ id = nextfsid s.
Proof.
  intros [Hl Hn Hu Hx Hp] Hid. unfold vfs_regfs. destruct mp as [|c mp]; [done|]. intros [= <- <-].
  split; [|done]. set (a := malloc (dom (items s))).
  assert (Hfresh : items s !! a = None) by (apply not_elem_of_dom, malloc_fresh).
  assert (Hnl : a ∉ fslist s) by (intros Hin; destruct (Hl a Hin) as (_ & y & ?); congruence).
  assert (Hlook : forall b, b ∈ fslist s -> forall y, <[a := y]> (items s) !! b = items s !! b).
  { intros b Hb y. rewrite lookup_insert_ne; [done|]. intros ->. done. }
  split; simpl.
  - intros b Hb. apply elem_of_cons in Hb as [->|Hb].
    + split; [apply malloc_nonnull|]. rewrite lookup_insert_eq. eauto.
    + destruct (Hl b Hb) as (? & ?). split; [done|]. by rewrite Hlook.
  - by constructor.
  - intros b1 b2 x y H1 H2 E1 E2 E. apply elem_of_cons in H1 as [->|H1], H2 as [->|H2]; auto.
    + rewrite lookup_insert_eq in E1. rewrite Hlook in E2 by done. simplify_eq. simpl in E.
      specialize (Hx b2 y H2 E2). lia.
    + rewrite lookup_insert_eq in E2. rewrite Hlook in E1 by done. simplify_eq. simpl in E.
      specialize (Hx b1 x H1 E1). lia.
    + rewrite Hlook in E1, E2 by done. eapply Hu; eauto.
  - intros b x Hb Eb. rewrite s32_small by lia. apply elem_of_cons in Hb as [->|Hb].
    + rewrite lookup_insert_eq in Eb. simplify_eq. simpl. lia.
    + rewrite Hlook in Eb by done. specialize (Hx b x Hb Eb). lia.
  - intros b x Hb Eb. apply elem_of_cons in Hb as [->|Hb].
    + rewrite lookup_insert_eq in Eb. by simplify_eq.
    + rewrite Hlook in Eb by done. eauto.
Qed.

Lemma lid_from_ok s xs i j a x :
  (forall b, b ∈ xs -> b <> NULL /\ is_Some (items s !! b)) -> xs !! j = Some a -> items s !! a = Some x ->
  (forall k b y, xs !! k = Some b -> items s !! b = Some y -> fsid y = fsid x -> k = j) ->
  lid_from xs i (fsid x) s = Ret (i + Z.of_nat j) s.
Proof.
  revert i j. induction xs as [|b xs IH]; intros i j Hl Hj Hx Hu; [done|].
  destruct (Hl b ltac:(set_solver)) as (Hb & y & Hy). cbn [lid_from].
  rewrite (bind_Ret _ _ _ _ _ (item_ok s b y Hb Hy)). destruct (Z.eqb_spec (fsid y) (fsid x)) as [E|E].
  - specialize (Hu O b y eq_refl Hy E). subst j. by rewrite Z.add_0_r.
  - destruct j as [|j]; [simpl in Hj; congruence|]. simpl in Hj.
    rewrite (IH (i + 1) j); auto; [f_equal; lia|set_solver|].
    intros k c z Hk Hz Ez. specialize (Hu (S k) c z Hk Hz Ez). lia.
Qed.

(** The process of every file system in the table is found by its id. *)
Theorem vfs_getpid_correct s a x :
  wf s -> a ∈ fslist s -> items s !! a = Some x -> Z.of_nat (length (fslist s)) < 4294967296 ->
  vfs_getpid (fsid x) s = Ret (pid x) s.
Proof.
  intros Hwf Hin Hx Hlen. destruct (wf_live _ Hwf a Hin) as (Ha & _).
  apply list_elem_of_lookup in Hin as (j & Hj).
  assert (Hlid : getlid_fsid (fsid x) s = Ret (Z.of_nat j) s).
  { unfold getlid_fsid. rewrite bind_gets. cbn [Datatypes.id].
    rewrite scan_live by (intros b Hb; by apply (wf_live _ Hwf)).
    rewrite (lid_from_ok s (fslist s) 0 j a x (wf_live _ Hwf) Hj Hx); [done|].
    intros k b y Hk Hy E. eapply NoDup_lookup; [apply Hwf|exact Hk|].
    replace b with a; [done|]. eapply (wf_ids _ Hwf a b x y); eauto using list_elem_of_lookup_2. }
  unfold vfs_getpid. rewrite (bind_Ret _ _ _ _ _ Hlid), bind_gets. cbn [Datatypes.id].
  apply lookup_lt_Some in Hj as Hlt. rewrite w32_small by lia.
  unfold Seq.get. rewrite (proj2 (Z.ltb_ge _ _)) by lia. rewrite Nat2Z.id, Hj. change (default NULL (Some a)) with a.
  rewrite (proj2 (Z.eqb_neq a NULL)) by done. by rewrite (bind_Ret _ _ _ _ _ (item_ok s a x Ha Hx)).
Qed.
End registry.

(** ** Examples *)

Definition str_mnt : str := [47; 109; 110; 116].
Definition str_cd : str := str_mnt ++ [47; 99; 100].

Definition example : vfs :=
  match (vfs_regfs [114] [SLASH];; vfs_regfs [99] (str_cd ++ [SLASH])) (vfs_start 7) with
  | Ret _ s => s
  | Stop _ s => s
  end.

Lemma example_wf : wf example.
Proof.
  assert (H0 : wf (vfs_start 7)).
  { assert (Hno : forall a : Z, a ∈ [] -> False) by (intros a; apply not_elem_of_nil).
    split; simpl; [naive_solver|constructor|naive_solver..]. }
  destruct (regfs_wf (vfs_start 7) [114] [SLASH] _ _ H0 ltac:(simpl; lia) eq_refl) as (H1 & _).
  exact (proj1 (regfs_wf _ [99] (str_cd ++ [SLASH]) _ _ H1 ltac:(simpl; rewrite s32_small; lia) eq_refl)).
Qed.

Lemma vfs_getfsid_correct_witness :
  vfs_getfsid (str_cd ++ [47; 97]) false example = Ret (2, [47; 97]) example.
Proof.
  apply (vfs_getfsid_correct example 2 (Fs 2 [99] str_cd (parse str_cd) 7) (str_cd ++ [47; 97])).
  - exact example_wf.
  - done.
  - vm_compute. reflexivity.
  - simpl. lia.
  - left. split; [vm_compute; left|]. split; [vm_compute; lia|].
    intros b Hb Hne. assert (b = 2 \/ b = 1) as [->| ->] by (vm_compute in Hb; set_solver); [done|].
    vm_compute. lia.
Defined.

(** What the search does, which is not what it means to do: a file above or next to a
    mountpoint shares a step with it and is looked for on that file system; the name
    is shorter than the mountpoint, so that the copy runs over its end. *)
Example sibling_of_mountpoint :
  match vfs_getfsid str_mnt false example with
  | Ret _ _ => False
  | Stop w _ => w = OutOfBounds
  end.
Proof. vm_compute. reflexivity. Qed.

Example sibling_on_wrong_fs :
  match vfs_getfsid (str_mnt ++ [47; 102; 111; 111; 98; 97; 114]) false example with
  | Ret x _ => x = (2, [111; 98; 97; 114])
  | Stop _ _ => False
  end.
Proof. vm_compute. reflexivity. Qed.

(** The root stays the root after it was removed. *)
Example removed_root_is_used :
  match (vfs_remfs 1;; vfs_getfsid [47; 97] false) example with
  | Ret _ _ => False
  | Stop w _ => w = UseAfterFree
  end.
Proof. vm_compute. reflexivity. Qed.
