(* ===== verification/Ramdisk.v ===== *)
(** * The RAM disk file system (apps/ramdisk)

    Files, directories and links in memory: resources (res.c, dir.c, link.c, init.c)
    are records on a heap that know their parent and their children; the data of a
    file is a buffer (file.c).  [buffer] is the memory that is allocated, [size] the
    size of the file.  Memory is always found; a function that sets the error of its
    stream gives it instead of a result. *)

From S2P Require Import Prelude LList Machine Cache.

Record res := Res {
  name : list Z;
  loaded : bool;
  is_file : bool;
  is_dir : bool;
  is_link : bool;
  is_special : bool;
  parent : Z;
  children : list Z;
  link_path : option (list Z);
  buffer : list Z;
  size : Z;
  creation_time : Z;
  access_time : Z;
  modification_time : Z;
  type : Z;
}.

(** The four class pointers of a resource. *)
Definition set_class (f d l s : bool) (r : res) : res :=
  Res (name r) (loaded r) f d l s (parent r) (children r) (link_path r) (buffer r) (size r)
    (creation_time r) (access_time r) (modification_time r) (type r).
Definition set_data (b : list Z) (n : Z) (r : res) : res :=
  Res (name r) (loaded r) (is_file r) (is_dir r) (is_link r) (is_special r) (parent r) (children r)
    (link_path r) b n (creation_time r) (access_time r) (modification_time r) (type r).
Definition set_children (c : list Z) (r : res) : res :=
  Res (name r) (loaded r) (is_file r) (is_dir r) (is_link r) (is_special r) (parent r) c
    (link_path r) (buffer r) (size r) (creation_time r) (access_time r) (modification_time r) (type r).
Definition set_info (n : list Z) (l : bool) (lp : option (list Z)) (acc modi : Z) (r : res) : res :=
  Res n l (is_file r) (is_dir r) (is_link r) (is_special r) (parent r) (children r)
    lp (buffer r) (size r) (creation_time r) acc modi (type r).

Record disk := Disk { nodes : gmap Z res; root_res : Z }.

Inductive class := FILE | DIR | LINK | SPECIAL.
Inductive error := ERROR_ONS.
Inductive meta := META_SIZE | META_USEDBLOCKS | META_BESTBLOCKSZ | META_BLOCKSZ | META_CREATETIME
| META_ACCESSTIME | META_CHANGETIME.

Section code.
Context `{MM : Malloc} `{GG : Garbage}.

Definition deref (a : Z) : cmd disk res := fun s =>
  if a =? NULL then Stop NullDeref s
  else match nodes s !! a with Some r => Ret r s | None => Stop UseAfterFree s end.

Definition update (a : Z) (f : res -> res) : cmd disk unit :=
  r ← deref a; modify (fun s => Disk (<[a := f r]> (nodes s)) (root_res s)).

(** ** file.c *)

Definition ramdisk_fs_file_read (a start count : Z) : cmd disk (list Z) :=
  r ← deref a;
  let n := if w64 (size r - start) <? count then w32 (size r - start) else count in
  if start + n <=? Z.of_nat (length (buffer r)) then mret (subrange (buffer r) start n)
  else stop_with OutOfBounds.

(** [realloc]: the old bytes as far as they fit, then whatever is there. *)
Definition realloc (b : list Z) (n : Z) : list Z :=
  take (Z.to_nat n) b ++ garbage (n - Z.of_nat (length (take (Z.to_nat n) b))).

Definition ramdisk_fs_file_write (a start : Z) (data : list Z) : cmd disk Z :=
  r ← deref a;
  let n := Z.of_nat (length data) in
  let r' := if w64 (size r - start) <? n
            then set_data (realloc (buffer r) (w32 (start + n))) (w32 (start + n)) r else r in
  if start + n <=? Z.of_nat (length (buffer r')) then
    update a (fun _ => set_data (splice (buffer r') start data) (size r') r');; mret n
  else stop_with OutOfBounds.

Definition ramdisk_fs_file_truncate (a n : Z) : cmd disk Z :=
  r ← deref a;
  if n =? size r then mret 1
  else
    let b := realloc (buffer r) (w32 n) in
    if size r <? n then
      if n <=? Z.of_nat (length b) then
        update a (set_data (splice b (size r) (replicate (Z.to_nat (n - size r)) 0)) (w32 n));; mret 1
      else stop_with OutOfBounds
    else update a (set_data b (w32 n));; mret 1.

(** ** res.c *)

(** The loop that takes a resource out of the children of its parent; it ends at the
    first null pointer. *)
Fixpoint unlink (l : list Z) (a : Z) : list Z :=
  match l with
  | [] => []
  | x :: k => if x =? NULL then l else if x =? a then k else x :: unlink k a
  end.

Definition ramdisk_fs_res_load (a : Z) : cmd disk Z :=
  r ← deref a;
  if loaded r then mret 0
  else update a (fun r => set_info (name r) true (link_path r) (access_time r) (modification_time r) r);; mret 1.

Definition ramdisk_fs_res_unload (a : Z) : cmd disk Z :=
  r ← deref a;
  if loaded r then
    update a (fun r => set_info (name r) false (link_path r) (access_time r) (modification_time r) r);; mret 1
  else mret 0.

Definition ramdisk_fs_res_meta_read (a : Z) (m : meta) : cmd disk Z :=
  r ← deref a;
  mret (match m with
        | META_SIZE | META_BLOCKSZ | META_BESTBLOCKSZ => size r
        | META_USEDBLOCKS => 1
        | META_CREATETIME => creation_time r
        | META_ACCESSTIME => access_time r
        | META_CHANGETIME => modification_time r
        end).

Definition ramdisk_fs_res_meta_write (a : Z) (m : meta) (value : Z) : cmd disk Z :=
  deref a;;
  match m with
  | META_ACCESSTIME =>
      update a (fun r => set_info (name r) (loaded r) (link_path r) value (modification_time r) r);; mret 1
  | META_CHANGETIME =>
      update a (fun r => set_info (name r) (loaded r) (link_path r) (access_time r) value r);; mret 1
  | _ => mret 0
  end.

Definition ramdisk_fs_res_assign_class (a : Z) (c : class) : cmd disk (error + Z) :=
  r ← deref a;
  if is_file r || is_dir r || is_link r || is_special r then mret (inl ERROR_ONS)
  else
    update a (fun r =>
      match c with
      | FILE => set_class true (is_dir r) (is_link r) (is_special r) r
      | DIR => set_class (is_file r) true (is_link r) (is_special r) r
      | LINK => set_class (is_file r) (is_dir r) true (is_special r) r
      | SPECIAL => set_class (is_file r) (is_dir r) (is_link r) true r
      end);;
    mret (inr 1).

Definition ramdisk_fs_res_remove_class (a : Z) (c : class) : cmd disk Z :=
  update a (fun r =>
    match c with
    | FILE => set_class false (is_dir r) (is_link r) (is_special r) (set_data (buffer r) 0 r)
    | DIR => set_class (is_file r) false (is_link r) (is_special r) r
    | LINK => set_class (is_file r) (is_dir r) false (is_special r) r
    | SPECIAL => set_class (is_file r) (is_dir r) (is_link r) false r
    end);;
  mret 1.

Definition ramdisk_fs_res_rename (a : Z) (n : list Z) : cmd disk Z :=
  update a (fun r => set_info n (loaded r) (link_path r) (access_time r) (modification_time r) r);; mret 1.

Definition ramdisk_fs_res_destroy (a : Z) : cmd disk Z :=
  r ← deref a;
  if (0 <? length (children r))%nat then mret 0
  else modify (fun s => Disk (delete a (nodes s)) (root_res s));; mret 1.

Definition ramdisk_fs_res_remove (a : Z) : cmd disk (error + Z) :=
  r ← deref a;
  if is_file r || is_dir r || is_link r || is_special r then mret (inl ERROR_ONS)
  else
    p ← deref (parent r);
    update (parent r) (set_children (unlink (children p) a));;
    x ← ramdisk_fs_res_destroy a; mret (inr x).

(** ** dir.c, link.c, init.c *)

Definition ramdisk_fs_dir_list (a : Z) : cmd disk (list Z) := r ← deref a; mret (children r).

(** The new resource. *)
Definition ramdisk_fs_dir_create_child (n : list Z) (p : Z) : cmd disk Z :=
  s ← gets id;
  let a := malloc (dom (nodes s)) in
  modify (fun s => Disk (<[a := Res n true false false false false p [] None [] 0 0 0 0 0]> (nodes s)) (root_res s));;
  update p (fun r => set_children (a :: children r) r);;
  mret a.

Definition ramdisk_fs_link_read (a : Z) : cmd disk (option (list Z)) := r ← deref a; mret (link_path r).

Definition ramdisk_fs_link_write (a : Z) (path : list Z) : cmd disk Z :=
  update a (fun r => set_info (name r) (loaded r) (Some path) (access_time r) (modification_time r) r);; mret 1.

Definition ramdisk_fs_init : disk :=
  let a := malloc ∅ in
  Disk {[a := Res [47] true false true false false NULL [] None [] 0 0 0 0 0]} a.

(** The children are popped and destroyed one after the other, then the resource is. *)
Fixpoint destroy_res (fuel : nat) (a : Z) : cmd disk unit :=
  match fuel with
  | O => stop_with Hang
  | S fuel =>
      r ← deref a;
      match children r with
      | [] => ramdisk_fs_res_destroy a;; mret tt
      | c :: k =>
          update a (set_children k);;
          if c =? NULL then ramdisk_fs_res_destroy a;; mret tt
          else destroy_res fuel c;; destroy_res fuel a
      end
  end.

Definition ramdisk_fs_destroy (fuel : nat) : cmd disk Z :=
  a ← gets root_res; destroy_res fuel a;; mret 0.

End code.

(** ** Invariant *)

Section proofs.
Context `{MM : Malloc} `{GG : Garbage}.

(** A resource belongs to at most one class, and its data is allocated. *)
Definition classes (r : res) : nat := length (filter (fun b => b = true) [is_file r; is_dir r; is_link r; is_special r]).

Record node_ok (r : res) : Prop := {
  ok_class : (classes r <= 1)%nat;
  ok_size : 0 <= size r <= Z.of_nat (length (buffer r));
  ok_width : size r < 4294967296;
  ok_children : NoDup (children r);
}.

Definition child (s : disk) (p c : Z) : Prop := exists r, nodes s !! p = Some r /\ c ∈ children r.

(** The resources form a forest. *)
Record forest (s : disk) : Prop := {
  inv_null : nodes s !! NULL = None;
  inv_node : forall a r, nodes s !! a = Some r -> node_ok r;
  inv_tree : forall p c, child s p c -> exists rc, nodes s !! c = Some rc /\ parent rc = p;
  inv_rank : exists rank : Z -> nat, forall p c, child s p c -> (rank p < rank c)%nat;
}.

Record inv (s : disk) : Prop := {
  inv_forest : forest s;
  inv_root : exists r, nodes s !! root_res s = Some r /\ parent r = NULL;
}.

(** The operations, called for resources that exist. *)
Inductive step (s : disk) : disk -> Prop :=
| step_write a start data x s' : 0 <= start -> ramdisk_fs_file_write a start data s = Ret x s' -> step s s'
| step_truncate a n x s' : 0 <= n -> ramdisk_fs_file_truncate a n s = Ret x s' -> step s s'
| step_load a x s' : ramdisk_fs_res_load a s = Ret x s' -> step s s'
| step_unload a x s' : ramdisk_fs_res_unload a s = Ret x s' -> step s s'
| step_meta a m v x s' : ramdisk_fs_res_meta_write a m v s = Ret x s' -> step s s'
| step_assign a c x s' : ramdisk_fs_res_assign_class a c s = Ret x s' -> step s s'
| step_unassign a c x s' : ramdisk_fs_res_remove_class a c s = Ret x s' -> step s s'
| step_rename a n x s' : ramdisk_fs_res_rename a n s = Ret x s' -> step s s'
| step_remove a x s' : ramdisk_fs_res_remove a s = Ret x s' -> step s s'
| step_create n p x s' : is_Some (nodes s !! p) -> ramdisk_fs_dir_create_child n p s = Ret x s' -> step s s'
| step_link a p x s' : ramdisk_fs_link_write a p s = Ret x s' -> step s s'.

(** *** Reading commands backwards *)

Lemma deref_inv a s r s' : deref a s = Ret r s' -> s' = s /\ nodes s !! a = Some r /\ a <> NULL.
Proof.
  unfold deref. destruct (Z.eqb_spec a NULL); [done|]. destruct (nodes s !! a); [|done]. naive_solver.
Qed.

Lemma res_deref a s r : nodes s !! NULL = None -> nodes s !! a = Some r -> deref a s = Ret r s.
Proof.
  intros Hn E. unfold deref. destruct (Z.eqb_spec a NULL) as [->|]; [congruence|]. by rewrite E.
Qed.

Lemma update_inv a f s x s' : update a f s = Ret x s' ->
  exists r, nodes s !! a = Some r /\ s' = Disk (<[a := f r]> (nodes s)) (root_res s).
Proof.
  unfold update, mbind, cmd_bind. destruct (deref a s) as [r s1|] eqn:E; [|done].
  apply deref_inv in E as (-> & E & _). simpl. intros [= _ <-]. eauto.
Qed.

Lemma res_update a f s r : nodes s !! NULL = None -> nodes s !! a = Some r ->
  update a f s = Ret tt (Disk (<[a := f r]> (nodes s)) (root_res s)).
Proof. intros Ha E. unfold update. by rewrite (bind_Ret _ _ _ _ _ (res_deref a s r Ha E)). Qed.

Lemma run_inv {A B} (c : cmd disk A) (f : A -> cmd disk B) s x s' :
  (c ≫= f) s = Ret x s' -> exists y s1, c s = Ret y s1 /\ f y s1 = Ret x s'.
Proof. unfold mbind, cmd_bind. destruct (c s) as [y s1|]; [eauto|done]. Qed.

(** Resources go or stay where they are, and lose children that go. *)
Lemma forest_sub s s' :
  forest s ->
  (forall a r', nodes s' !! a = Some r' ->
    node_ok r' /\ exists r, nodes s !! a = Some r /\ parent r' = parent r /\ children r' ⊆ children r) ->
  (forall p c, child s' p c -> is_Some (nodes s' !! c)) ->
  forest s'.
Proof.
  intros [Hn Hk Ht [rank Hr]] Hsub Hc.
  assert (Hch : forall p c, child s' p c -> child s p c).
  { intros p c (r' & Hp & Hin). destruct (Hsub p r' Hp) as (_ & r & Hr0 & _ & Hss). exists r. auto. }
  split.
  - destruct (nodes s' !! NULL) as [r'|] eqn:E; [|done]. destruct (Hsub NULL r' E) as (_ & r & ? & _). congruence.
  - intros a r' Ha. by apply Hsub in Ha as [? _].
  - intros p c Hpc. destruct (Hc p c Hpc) as (rc' & Hrc'). destruct (Hsub c rc' Hrc') as (_ & rc & Hrc & Hp & _).
    exists rc'. split; [done|]. destruct (Ht p c (Hch p c Hpc)) as (rc0 & ? & ?). congruence.
  - exists rank. auto.
Qed.

(** A resource is changed: it may lose children. *)
Lemma forest_change s a r r' :
  forest s -> nodes s !! a = Some r -> node_ok r' -> parent r' = parent r -> children r' ⊆ children r ->
  forest (Disk (<[a := r']> (nodes s)) (root_res s)).
Proof.
  intros Hf Ha Hok Hp Hc. apply (forest_sub s); [done|..]; simpl.
  - intros b rb Hb. apply lookup_insert_Some in Hb as [(<- & <-)|(Hne & Hb)]; [eauto|].
    split; [by eapply inv_node|eauto].
  - intros p c (rp & Hrp & Hin). simpl in Hrp. assert (Hpc : child s p c).
    { apply lookup_insert_Some in Hrp as [(<- & <-)|(Hne & Hb)]; [|by exists rp]. exists r. auto. }
    destruct (inv_tree _ Hf _ _ Hpc) as (rc & Hrc & _). simpl. destruct (decide (c = a)) as [->|].
    + rewrite lookup_insert_eq. eauto.
    + rewrite lookup_insert_ne by done. eauto.
Qed.

(** A resource is freed that is nobody's child. *)
Lemma forest_delete s a :
  forest s -> (forall p, ~ child s p a) -> forest (Disk (delete a (nodes s)) (root_res s)).
Proof.
  intros Hf Ha. apply (forest_sub s); [done|..]; simpl.
  - intros b rb Hb. apply lookup_delete_Some in Hb as (Hne & Hb). split; [by eapply inv_node|eauto].
  - intros p c (rp & Hrp & Hin). simpl in Hrp. apply lookup_delete_Some in Hrp as (Hne & Hrp).
    assert (Hpc : child s p c) by (exists rp; auto).
    destruct (inv_tree _ Hf _ _ Hpc) as (rc & Hrc & _).
    simpl. rewrite lookup_delete_ne; [eauto|]. intros ->. by apply (Ha p).
Qed.

Lemma res_change s a r r' :
  inv s -> nodes s !! a = Some r -> node_ok r' -> parent r' = parent r -> children r' ⊆ children r ->
  inv (Disk (<[a := r']> (nodes s)) (root_res s)).
Proof.
  intros [Hf (r0 & H0 & Hp0)] Ha Hok Hp Hc. split; [by eapply forest_change|]. simpl.
  destruct (decide (root_res s = a)) as [<-|].
  - rewrite lookup_insert_eq. exists r'. split; [done|]. congruence.
  - rewrite lookup_insert_ne by done. eauto.
Qed.

Lemma update_step s a f s' x :
  inv s -> update a f s = Ret x s' ->
  (forall r, node_ok r -> node_ok (f r)) -> (forall r, parent (f r) = parent r) ->
  (forall r, children (f r) = children r) -> inv s'.
Proof.
  intros Hi E Hok Hp Hc. apply update_inv in E as (r & Hr & ->).
  eapply res_change; eauto; [|by rewrite Hc]. apply Hok. eapply inv_node; eauto. apply Hi.
Qed.

Lemma update_then s a f (c : Z) s' x :
  inv s -> (update a f;; mret c) s = Ret x s' ->
  (forall r, node_ok r -> node_ok (f r)) -> (forall r, parent (f r) = parent r) ->
  (forall r, children (f r) = children r) -> inv s'.
Proof. intros Hi E. apply run_inv in E as (y & s1 & E & [= _ <-]). by eapply update_step. Qed.

Lemma length_realloc b n : 0 <= n -> Z.of_nat (length (realloc b n)) = n.
Proof. intros. unfold realloc. rewrite length_app, garbage_length, length_take. lia. Qed.

Lemma set_data_ok b n r :
  node_ok r -> 0 <= n <= Z.of_nat (length b) -> n < 4294967296 -> node_ok (set_data b n r).
Proof. intros [H1 H2 H3 H4]. by split. Qed.

Lemma write_inv s a start data x s' :
  inv s -> 0 <= start -> ramdisk_fs_file_write a start data s = Ret x s' -> inv s'.
Proof.
  intros Hi Hs E. unfold ramdisk_fs_file_write in E.
  apply run_inv in E as (r & s1 & E1 & E). apply deref_inv in E1 as (-> & Hr & Ha).
  pose proof (inv_node _ (inv_forest _ Hi) _ _ Hr) as Hok.
  pose proof (w32_range (start + Z.of_nat (length data))) as Hw.
  set (r' := if _ : bool then _ else r) in E.
  assert (Hr' : node_ok r' /\ parent r' = parent r /\ children r' = children r).
  { unfold r'. destruct (_ <? _); [|done]. split; [|done].
    apply set_data_ok; auto; [|lia]. rewrite length_realloc; lia. }
  destruct Hr' as (Hok' & Kp & Kc). destruct (ok_size _ Hok'), (ok_width _ Hok').
  destruct (Z.leb_spec (start + Z.of_nat (length data)) (Z.of_nat (length (buffer r')))) as [Hle|]; [|done].
  apply run_inv in E as (y & s2 & E & [= _ <-]). apply update_inv in E as (r0 & Hr0 & ->).
  rewrite Hr in Hr0. injection Hr0 as <-. eapply res_change; eauto; [|simpl; by rewrite Kc].
  apply set_data_ok; auto; [|apply ok_width, Hok']. rewrite length_splice; lia.
Qed.

Lemma truncate_inv s a n x s' :
  inv s -> 0 <= n -> ramdisk_fs_file_truncate a n s = Ret x s' -> inv s'.
Proof.
  intros Hi Hn E. unfold ramdisk_fs_file_truncate in E.
  apply run_inv in E as (r & s1 & E1 & E). apply deref_inv in E1 as (-> & Hr & Ha).
  pose proof (inv_node _ (inv_forest _ Hi) _ _ Hr) as Hok. destruct (ok_size _ Hok).
  pose proof (w32_range n) as Hw.
  destruct (Z.eqb_spec n (size r)); [by injection E as _ <-|].
  assert (Hb : Z.of_nat (length (realloc (buffer r) (w32 n))) = w32 n) by (apply length_realloc; lia).
  destruct (Z.ltb_spec (size r) n).
  - destruct (Z.leb_spec n (Z.of_nat (length (realloc (buffer r) (w32 n))))); [|done].
    apply run_inv in E as (y & s2 & E & [= _ <-]). apply update_inv in E as (r0 & Hr0 & ->).
    rewrite Hr in Hr0. injection Hr0 as <-. eapply res_change; eauto.
    apply set_data_ok; auto; [|lia]. rewrite length_splice by (rewrite ?length_replicate; lia). lia.
  - apply run_inv in E as (y & s2 & E & [= _ <-]). apply update_inv in E as (r0 & Hr0 & ->).
    rewrite Hr in Hr0. injection Hr0 as <-. eapply res_change; eauto. apply set_data_ok; auto; lia.
Qed.

Lemma unlink_sub l a : unlink l a ⊆ l.
Proof. induction l as [|x l IH]; simpl; [done|]. repeat case_match; set_solver. Qed.

Lemma unlink_NoDup l a : NULL ∉ l -> NoDup l -> NoDup (unlink l a) /\ a ∉ unlink l a.
Proof.
  intros H0 Hd. induction Hd as [|x l Hx Hd IH]; simpl; [split; [constructor|set_solver]|].
  destruct (Z.eqb_spec x NULL) as [->|]; [set_solver|]. destruct (Z.eqb_spec x a) as [->|]; [done|].
  destruct IH as [IH1 IH2]; [set_solver|]. pose proof (unlink_sub l a). split; [constructor; set_solver|set_solver].
Qed.

Lemma children_nonnull s p r : forest s -> nodes s !! p = Some r -> NULL ∉ children r.
Proof.
  intros Hf Hp Hin. destruct (inv_tree _ Hf p NULL) as (rc & Hrc & _); [by exists r|].
  rewrite (inv_null _ Hf) in Hrc. done.
Qed.

(** Only the parent has the resource as a child. *)
Lemma child_parent s p a r : forest s -> nodes s !! a = Some r -> child s p a -> p = parent r.
Proof. intros Hf Ha Hc. destruct (inv_tree _ Hf p a Hc) as (rc & Hrc & Hp). congruence. Qed.

Lemma remove_inv s a x s' : inv s -> ramdisk_fs_res_remove a s = Ret x s' -> inv s'.
Proof.
  intros Hi E. pose proof (inv_forest _ Hi) as Hf. unfold ramdisk_fs_res_remove in E.
  apply run_inv in E as (r & s1 & E1 & E). apply deref_inv in E1 as (-> & Hr & Ha).
  destruct (_ || _); [by injection E as _ <-|].
  apply run_inv in E as (p & s1 & E1 & E). apply deref_inv in E1 as (-> & Hp & Hpn).
  apply run_inv in E as (y & s1 & E1 & E). apply update_inv in E1 as (p0 & Hp0 & ->).
  rewrite Hp in Hp0. injection Hp0 as <-.
  destruct (unlink_NoDup (children p) a (children_nonnull _ _ _ Hf Hp)) as [Hnd Hni].
  { eapply ok_children, inv_node; eauto. }
  assert (Hi1 : inv (Disk (<[parent r := set_children (unlink (children p) a) p]> (nodes s)) (root_res s))).
  { eapply res_change; eauto; [|apply unlink_sub].
    destruct (inv_node _ Hf _ _ Hp). by split. }
  apply run_inv in E as (z & s1 & E & [= _ <-]). unfold ramdisk_fs_res_destroy in E.
  apply run_inv in E as (r1 & s2 & E1 & E). apply deref_inv in E1 as (-> & Hr1 & _).
  destruct (_ <? _)%nat; [by injection E as _ <-|]. rewrite bind_modify in E. injection E as _ <-.
  split.
  - apply (forest_delete _ a (inv_forest _ Hi1)). intros q Hq.
    assert (Hq1 : q = parent r).
    { rewrite (child_parent _ q a r1 (inv_forest _ Hi1) Hr1 Hq). simpl in Hr1.
      apply lookup_insert_Some in Hr1 as [(Hpa & <-)|(_ & Hr1)]; [simpl|]; congruence. }
    destruct Hq as (rq & Hrq & Hin). simpl in Hrq. subst q. rewrite lookup_insert_eq in Hrq. by simplify_eq.
  - destruct (inv_root _ Hi1) as (r0 & H0 & Hp0). simpl in *. exists r0. split; [|done].
    rewrite lookup_delete_ne; [done|]. intros ->. apply Hpn.
    destruct (inv_root _ Hi) as (r2 & H2 & ?). congruence.
Qed.

Lemma create_inv s n p x s' :
  inv s -> is_Some (nodes s !! p) -> ramdisk_fs_dir_create_child n p s = Ret x s' -> inv s'.
Proof.
  intros [[Hn Hk Ht [rank Hrk]] (r0 & H0 & Hp0)] (rp & Hp) E. unfold ramdisk_fs_dir_create_child in E.
  rewrite bind_gets, bind_modify in E. cbn [id] in E.
  set (a := malloc (dom (nodes s))) in E. set (r := Res n _ _ _ _ _ p _ _ _ _ _ _ _ _) in E.
  assert (Hfresh : nodes s !! a = None) by (apply not_elem_of_dom, malloc_fresh).
  assert (Hap : a <> p) by congruence.
  assert (Hchild : forall q c, child s q c -> c <> a) by (intros q c Hq ->; destruct (Ht q a Hq) as (? & ? & _); congruence).
  apply run_inv in E as (y & s2 & E & [= _ <-]). apply update_inv in E as (rp0 & Hr0 & ->). simpl in *.
  rewrite lookup_insert_ne in Hr0 by done. rewrite Hp in Hr0. injection Hr0 as <-.
  set (s' := Disk _ _).
  assert (Hold : forall q c, child s' q c -> (q = p /\ c = a) \/ child s q c).
  { intros q c (rq & Hq & Hin). simpl in Hq. apply lookup_insert_Some in Hq as [(<- & <-)|(Hqp & Hq)].
    - apply elem_of_cons in Hin as [->|Hin]; [auto|]. right. by exists rp.
    - apply lookup_insert_Some in Hq as [(<- & <-)|(Hqa & Hq)]; [simpl in Hin; set_solver|]. right. by exists rq. }
  split; [split|].
  - simpl. rewrite !lookup_insert_ne; [done|..].
    + pose proof (malloc_nonnull (dom (nodes s))). done.
    + intros ->. congruence.
  - intros b rb Hb. simpl in Hb. apply lookup_insert_Some in Hb as [(<- & <-)|(Hbp & Hb)].
    + destruct (Hk p rp Hp) as [? ? ? Hnd]. split; auto. simpl. constructor; [|done].
      intros Hin. by apply (Hchild p a); [exists rp|].
    + apply lookup_insert_Some in Hb as [(<- & <-)|(Hba & Hb)]; [|eauto].
      split; simpl; try lia; [vm_compute; lia|constructor].
  - intros q c Hq. simpl. destruct (Hold q c Hq) as [(-> & ->)|Hqc].
    + rewrite lookup_insert_ne, lookup_insert_eq by done. eexists. by split.
    + destruct (Ht q c Hqc) as (rc & Hrc & Hpar).
      destruct (decide (c = p)) as [->|]; [rewrite lookup_insert_eq; eexists; split; [done|]; simpl; congruence|].
      rewrite !lookup_insert_ne by (by try apply not_eq_sym, (Hchild q)). eauto.
  - exists (fun b => if decide (b = a) then S (rank p) else rank b). intros q c Hq.
    destruct (Hold q c Hq) as [(-> & ->)|Hqc].
    + rewrite decide_False, decide_True by done. lia.
    + rewrite (decide_False (P := c = a)) by (by apply (Hchild q)). rewrite decide_False; [auto|].
      intros ->. destruct Hqc as (? & ? & _). congruence.
  - simpl. destruct (decide (root_res s = p)) as [Hrp|].
    + rewrite Hrp, lookup_insert_eq. eexists. split; [done|]. simpl. congruence.
    + rewrite !lookup_insert_ne by congruence. eauto.
Qed.

Lemma assign_ok r c :
  is_file r || is_dir r || is_link r || is_special r = false -> node_ok r ->
  node_ok (match c with
           | FILE => set_class true (is_dir r) (is_link r) (is_special r) r
           | DIR => set_class (is_file r) true (is_link r) (is_special r) r
           | LINK => set_class (is_file r) (is_dir r) true (is_special r) r
           | SPECIAL => set_class (is_file r) (is_dir r) (is_link r) true r
           end).
Proof.
  intros Hc [H1 H2 H3 H4]. unfold classes in H1. destruct r as [? ? f d l sp]; simpl in *.
  destruct f, d, l, sp; try done; destruct c; split; simpl in *; auto; vm_compute; lia.
Qed.

Lemma unassign_ok r c :
  node_ok r ->
  node_ok (match c with
           | FILE => set_class false (is_dir r) (is_link r) (is_special r) (set_data (buffer r) 0 r)
           | DIR => set_class (is_file r) false (is_link r) (is_special r) r
           | LINK => set_class (is_file r) (is_dir r) false (is_special r) r
           | SPECIAL => set_class (is_file r) (is_dir r) (is_link r) false r
           end).
Proof.
  intros [H1 H2 H3 H4]. unfold classes in H1. destruct r as [? ? f d l sp]; simpl in *.
  destruct f, d, l, sp; vm_compute in H1; try lia; destruct c; split; simpl in *; auto;
    first [vm_compute; lia | lia].
Qed.

Lemma assign_inv s a c x s' : inv s -> ramdisk_fs_res_assign_class a c s = Ret x s' -> inv s'.
Proof.
  intros Hi E. unfold ramdisk_fs_res_assign_class in E.
  apply run_inv in E as (r & s1 & E1 & E). apply deref_inv in E1 as (-> & Hr & Ha).
  destruct (_ || is_special r) eqn:Hc; [by injection E as _ <-|].
  apply run_inv in E as (y & s1 & E & [= _ <-]). apply update_inv in E as (r0 & Hr0 & ->).
  rewrite Hr in Hr0. injection Hr0 as <-. eapply res_change; eauto; try (by destruct c).
  apply assign_ok; [done|]. eapply inv_node; eauto. apply Hi.
Qed.

Lemma set_info_ok n l lp acc modi r : node_ok r -> node_ok (set_info n l lp acc modi r).
Proof. intros [H1 H2 H3 H4]. by split. Qed.

Lemma step_inv s s' : inv s -> step s s' -> inv s'.
Proof.
  intros Hi Hs. destruct Hs; eauto using write_inv, truncate_inv, assign_inv, remove_inv, create_inv.
  - unfold ramdisk_fs_res_load in H. apply run_inv in H as (r & s1 & E1 & E).
    apply deref_inv in E1 as (-> & _). destruct (loaded r); [by injection E as _ <-|].
    by eapply (update_then _ _ _ _ _ _ Hi E); [intros; apply set_info_ok|..].
  - unfold ramdisk_fs_res_unload in H. apply run_inv in H as (r & s1 & E1 & E).
    apply deref_inv in E1 as (-> & _). destruct (loaded r); [|by injection E as _ <-].
    by eapply (update_then _ _ _ _ _ _ Hi E); [intros; apply set_info_ok|..].
  - unfold ramdisk_fs_res_meta_write in H. apply run_inv in H as (r & s1 & E1 & E).
    apply deref_inv in E1 as (-> & _). destruct m; try (by injection E as _ <-);
      by eapply (update_then _ _ _ _ _ _ Hi E); [intros; apply set_info_ok|..].
  - unfold ramdisk_fs_res_remove_class in H. eapply (update_then _ _ _ _ _ _ Hi H); intros; try (by destruct c).
    by apply unassign_ok.
  - by eapply (update_then _ _ _ _ _ _ Hi H); [intros; apply set_info_ok|..].
  - by eapply (update_then _ _ _ _ _ _ Hi H); [intros; apply set_info_ok|..].
Qed.

Lemma init_inv : inv ramdisk_fs_init.
Proof.
  assert (Hc : forall p c, ~ child ramdisk_fs_init p c).
  { intros p c (r & Hr & Hin). simpl in Hr. apply lookup_singleton_Some in Hr as [_ <-]. simpl in Hin. set_solver. }
  split; [split|].
  - apply lookup_singleton_ne. apply malloc_nonnull.
  - intros a r Hr. simpl in Hr. apply lookup_singleton_Some in Hr as [_ <-].
    split; simpl; try lia; [vm_compute; lia|constructor].
  - intros p c Hpc. by apply Hc in Hpc.
  - exists (fun _ => O). intros p c Hpc. by apply Hc in Hpc.
  - eexists. simpl. by rewrite lookup_singleton_eq.
Qed.

Lemma reachable_inv s : rtc step ramdisk_fs_init s -> inv s.
Proof. revert s. apply rtc_ind_r; [apply init_inv|]. intros y z _ Hyz Hy. by eapply step_inv. Qed.

(** C33: Whatever the requests, a resource belongs to at most one class, its data is
    allocated, the children of a resource are different and know it as their parent,
    and the root directory stays. *)
Theorem ramdisk_types s :
  rtc step ramdisk_fs_init s ->
  (forall a r, nodes s !! a = Some r ->
     (classes r <= 1)%nat /\ 0 <= size r <= Z.of_nat (length (buffer r)) /\ NoDup (children r) /\
     Forall (fun c => exists rc, nodes s !! c = Some rc /\ parent rc = a) (children r)) /\
  is_Some (nodes s !! root_res s).
Proof.
  intros Hs. destruct (reachable_inv s Hs) as [Hf (r0 & H0 & _)]. split; [|eauto].
  intros a r Ha. destruct (inv_node _ Hf a r Ha) as [H1 H2 H3 H4]. do 3 (split; [done|]).
  apply Forall_forall. intros c Hc. apply (inv_tree _ Hf). by exists r.
Qed.

(** *** Destroying the file system *)

(** Resources and links, the measure of [destroy_res]. *)
Definition weight (s : disk) : nat := map_fold (fun _ r n => S (length (children r)) + n)%nat O (nodes s).

Lemma weight_delete s a r : nodes s !! a = Some r ->
  weight s = (S (length (children r)) + weight (Disk (delete a (nodes s)) (root_res s)))%nat.
Proof. intros Ha. unfold weight. rewrite (map_fold_delete_L _ _ a r (nodes s)); [done| |done]. intros. lia. Qed.

Lemma weight_insert s a r r' : nodes s !! a = Some r ->
  (weight (Disk (<[a := r']> (nodes s)) (root_res s)) + length (children r) = weight s + length (children r'))%nat.
Proof.
  intros Ha. rewrite (weight_delete s a r Ha).
  rewrite (weight_delete (Disk (<[a := r']> (nodes s)) (root_res s)) a r') by apply lookup_insert_eq.
  simpl. rewrite delete_insert_eq. lia.
Qed.

(** What destroying a subtree does to the others: [s'] has lost [a], everything below
    what it lost, nothing of a lower rank, and nothing that is not below [a]. *)
Record pruned (rank : Z -> nat) (s : disk) (a : Z) (s' : disk) : Prop := {
  pr_forest : forest s';
  pr_gone : nodes s' !! a = None;
  pr_same b : nodes s' !! b = None \/ nodes s' !! b = nodes s !! b;
  pr_low b : (rank b < rank a)%nat -> nodes s' !! b = nodes s !! b;
  pr_below p c : child s p c -> nodes s' !! p = None -> nodes s' !! c = None;
  pr_only b : ~ rtc (child s) a b -> nodes s' !! b = nodes s !! b;
  pr_weight : (weight s' < weight s)%nat;
}.

Lemma pruned_child rank s a s' p c : pruned rank s a s' -> child s' p c -> child s p c.
Proof. intros H (r & Hr & Hin). destruct (pr_same _ _ _ _ H p) as [E|E]; [congruence|]. exists r. by rewrite <- E. Qed.

Lemma destroy_leaf rank s a r :
  forest s -> nodes s !! a = Some r -> children r = [] -> (forall p, ~ child s p a) ->
  exists s', ramdisk_fs_res_destroy a s = Ret 1 s' /\ pruned rank s a s'.
Proof.
  intros Hf Ha Hc Hno. unfold ramdisk_fs_res_destroy. rewrite (bind_Ret _ _ _ _ _ (res_deref a s r (inv_null _ Hf) Ha)).
  rewrite Hc. simpl. rewrite bind_modify. eexists. split; [done|]. split; simpl.
  - by apply forest_delete.
  - apply lookup_delete_eq.
  - intros b. destruct (decide (b = a)) as [->|]; [left; apply lookup_delete_eq|right; by apply lookup_delete_ne].
  - intros b Hb. apply lookup_delete_ne. intros ->. lia.
  - intros p c (rp & Hp & Hin) Hd. apply lookup_delete_None in Hd as [<-|Hd]; [|congruence].
    rewrite Ha in Hp. injection Hp as <-. rewrite Hc in Hin. set_solver.
  - intros b Hb. apply lookup_delete_ne. intros ->. by apply Hb.
  - rewrite (weight_delete s a r Ha). lia.
Qed.

Lemma rtc_sub (R R' : Z -> Z -> Prop) x y : (forall p d, R p d -> R' p d) -> rtc R x y -> rtc R' x y.
Proof. intros H. induction 1 as [|x y z Hxy _ IH]; [done|]. eapply rtc_l; eauto. Qed.

(** Popping the first child [c] of [a] and destroying it, then destroying the rest of [a]. *)
Lemma pruned_trans rank s a r c k s2 s3 :
  nodes s !! a = Some r -> children r = c :: k -> (rank a < rank c)%nat ->
  pruned rank (Disk (<[a := set_children k r]> (nodes s)) (root_res s)) c s2 ->
  pruned rank s2 a s3 -> pruned rank s a s3.
Proof.
  intros Ha Hc Hrk P2 P3. set (s1 := Disk _ _) in P2.
  assert (Hs1 : forall b, b <> a -> nodes s1 !! b = nodes s !! b) by (intros; by apply lookup_insert_ne).
  assert (Ha2 : nodes s2 !! a = nodes s1 !! a) by (by apply (pr_low _ _ _ _ P2)).
  assert (Hmono : forall b, nodes s2 !! b = None -> nodes s3 !! b = None).
  { intros b Hb. destruct (pr_same _ _ _ _ P3 b) as [|E]; [done|]. by rewrite E. }
  split.
  - apply P3.
  - apply P3.
  - intros b. destruct (decide (b = a)) as [->|Hb]; [left; apply P3|].
    destruct (pr_same _ _ _ _ P3 b) as [|E3]; [auto|]. destruct (pr_same _ _ _ _ P2 b) as [E2|E2].
    + left. by rewrite E3.
    + right. by rewrite E3, E2, Hs1.
  - intros b Hb. rewrite (pr_low _ _ _ _ P3), (pr_low _ _ _ _ P2), Hs1 by (lia || (intros ->; lia)). done.
  - intros p d (rp & Hp & Hin) Hgone. destruct (decide (d = c /\ p = a)) as [[-> ->]|Hdc].
    { apply Hmono, P2. }
    assert (Hpd : child s1 p d).
    { destruct (decide (p = a)) as [->|Hpa]; [|exists rp; by rewrite Hs1].
      rewrite Ha in Hp. injection Hp as <-. rewrite Hc in Hin. exists (set_children k r).
      split; [apply lookup_insert_eq|]. simpl. set_solver. }
    destruct (nodes s2 !! p) as [rp2|] eqn:E2; [|apply Hmono; by eapply (pr_below _ _ _ _ P2)].
    apply (pr_below _ _ _ _ P3 p); [|done]. destruct (pr_same _ _ _ _ P2 p) as [|E]; [congruence|].
    destruct Hpd as (rp1 & Hp1 & Hin1). exists rp1. by rewrite E.
  - intros b Hb. assert (Hac : child s a c) by (exists r; rewrite Hc; set_solver).
    assert (Hsub : forall p d, child s1 p d -> child s p d).
    { intros p d (rp & Hp & Hin). destruct (decide (p = a)) as [->|Hpa]; [|exists rp; by rewrite <- Hs1].
      simpl in Hp. rewrite lookup_insert_eq in Hp. injection Hp as <-. exists r. rewrite Hc. set_solver. }
    rewrite (pr_only _ _ _ _ P3), (pr_only _ _ _ _ P2).
    + apply Hs1. intros ->. by apply Hb.
    + intros H. apply Hb. eapply rtc_l; [exact Hac|]. by eapply rtc_sub.
    + intros H. apply Hb. eapply rtc_sub; [|exact H]. intros p d Hp. by apply Hsub, (pruned_child _ _ _ _ _ _ P2).
  - pose proof (weight_insert s a r (set_children k r) Ha) as Hw. rewrite Hc in Hw. simpl in Hw.
    pose proof (pr_weight _ _ _ _ P2). pose proof (pr_weight _ _ _ _ P3). unfold s1 in *. lia.
Qed.

Lemma destroy_res_ok rank fuel : forall s a r,
  forest s -> (forall p c, child s p c -> (rank p < rank c)%nat) ->
  nodes s !! a = Some r -> (forall p, ~ child s p a) -> (weight s < fuel)%nat ->
  exists s', destroy_res fuel a s = Ret tt s' /\ pruned rank s a s'.
Proof.
  induction fuel as [|fuel IH]; intros s a r Hf Hrk Ha Hno Hw; [lia|]. cbn [destroy_res].
  rewrite (bind_Ret _ _ _ _ _ (res_deref a s r (inv_null _ Hf) Ha)).
  destruct (children r) as [|c k] eqn:Hc.
  { destruct (destroy_leaf rank s a r Hf Ha Hc Hno) as (s' & E & P). exists s'. by rewrite (bind_Ret _ _ _ _ _ E). }
  rewrite (bind_Ret _ _ _ _ _ (res_update a _ s r (inv_null _ Hf) Ha)). set (s1 := Disk _ _).
  pose proof (inv_node _ Hf _ _ Ha) as Hok. pose proof (ok_children _ Hok) as Hnd. rewrite Hc in Hnd.
  apply NoDup_cons in Hnd as [Hck Hnd].
  assert (Hac : child s a c) by (exists r; rewrite Hc; set_solver).
  assert (Hf1 : forest s1) by (eapply forest_change; eauto; [by destruct Hok|simpl; rewrite Hc; set_solver]).
  assert (H1 : forall p d, child s1 p d -> child s p d /\ ~ (p = a /\ d = c)).
  { intros p d (rp & Hp & Hin). simpl in Hp. apply lookup_insert_Some in Hp as [(<- & <-)|(Hne & Hp)].
    - simpl in Hin. split; [exists r; split; [done|rewrite Hc; set_solver]|]. by intros [_ ->].
    - split; [by exists rp|]. by intros [-> _]. }
  destruct (inv_tree _ Hf a c Hac) as (rc & Hrc & Hpar). pose proof (Hrk a c Hac) as Hlt.
  assert (Hrc1 : nodes s1 !! c = Some rc) by (simpl; rewrite lookup_insert_ne; [done|intros ->; lia]).
  rewrite (proj2 (Z.eqb_neq c NULL)) by (intros ->; rewrite (inv_null _ Hf) in Hrc; done).
  pose proof (weight_insert s a r (set_children k r) Ha) as Hw1. rewrite Hc in Hw1. simpl in Hw1. fold s1 in Hw1.
  destruct (IH s1 c rc Hf1) as (s2 & E2 & P2); [intros p d Hpd; by apply Hrk, H1|done| |lia|].
  { intros p Hp. apply H1 in Hp as [Hp Hn]. apply Hn. split; [|done].
    rewrite (child_parent s p c rc Hf Hrc Hp). done. }
  rewrite (bind_Ret _ _ _ _ _ E2).
  assert (Hsub : forall p d, child s2 p d -> child s p d) by (intros p d Hp; by apply H1, (pruned_child _ _ _ _ _ _ P2)).
  pose proof (pr_weight _ _ _ _ P2) as Hw2.
  destruct (IH s2 a (set_children k r)) as (s3 & E3 & P3); [apply P2|auto| | |lia|].
  - rewrite (pr_low _ _ _ _ P2) by done. apply lookup_insert_eq.
  - intros p Hp. by apply (Hno p), Hsub.
  - exists s3. split; [done|]. by eapply pruned_trans.
Qed.

(** C34: Destroying the file system ends after as many steps as there are resources and
    links; it gives 0, frees the root and all that hangs below it, and every resource that
    does not hang below the root stays as it is. *)
Theorem ramdisk_destroy_frees s fuel :
  rtc step ramdisk_fs_init s -> (weight s < fuel)%nat ->
  exists s', ramdisk_fs_destroy fuel s = Ret 0 s' /\
    (forall b, rtc (child s) (root_res s) b -> nodes s' !! b = None) /\
    (forall b, ~ rtc (child s) (root_res s) b -> nodes s' !! b = nodes s !! b).
Proof.
  intros Hs Hw. destruct (reachable_inv s Hs) as [Hf (r & Hr & Hp)]. destruct (inv_rank _ Hf) as [rank Hrk].
  destruct (destroy_res_ok rank fuel s (root_res s) r Hf Hrk Hr) as (s' & E & P); [|done|].
  { intros p Hpc. pose proof (child_parent s p _ r Hf Hr Hpc) as ->. rewrite Hp in Hpc.
    destruct Hpc as (r0 & H0 & _). rewrite (inv_null _ Hf) in H0. done. }
  exists s'. unfold ramdisk_fs_destroy. rewrite bind_gets, (bind_Ret _ _ _ _ _ E). split_and!; [done| |apply (pr_only _ _ _ _ P)].
  intros b Hb. pose proof (pr_gone _ _ _ _ P) as Hg. pose proof (pr_below _ _ _ _ P) as Hbe. clear - Hb Hg Hbe. revert Hg.
  induction Hb as [x|x y z Hxy _ IH]; intros Hx; [done|]. apply IH. by apply (Hbe x).
Qed.

(** *** The data of a file *)

Definition contents (r : res) : list Z := take (Z.to_nat (size r)) (buffer r).

Lemma w64_small z : 0 <= z < 18446744073709551616 -> w64 z = z.
Proof. apply Z.mod_small. Qed.

Lemma read_spec s a r start n :
  inv s -> nodes s !! a = Some r -> 0 <= start <= size r -> 0 <= n ->
  ramdisk_fs_file_read a start n s = Ret (take (Z.to_nat n) (drop (Z.to_nat start) (contents r))) s.
Proof.
  intros [Hf _] Hr Hs Hn. destruct (inv_node _ Hf _ _ Hr) as [H1 H2 H3 H4].
  unfold ramdisk_fs_file_read. rewrite (bind_Ret _ _ _ _ _ (res_deref a s r (inv_null _ Hf) Hr)).
  rewrite w64_small by lia. rewrite (w32_small (size r - start)) by lia.
  set (m := if size r - start <? n then _ else _). assert (Hm : m = Z.min (size r - start) n) by (unfold m; case_match; lia).
  rewrite (proj2 (Z.leb_le (start + m) _)) by lia. unfold mret, cmd_ret. f_equal.
  unfold subrange, contents. rewrite skipn_firstn_comm, take_take. f_equal. lia.
Qed.

Lemma write_spec s a r start data :
  inv s -> nodes s !! a = Some r -> 0 <= start <= size r -> start + Z.of_nat (length data) < 4294967296 ->
  exists r', ramdisk_fs_file_write a start data s =
    Ret (Z.of_nat (length data)) (Disk (<[a := r']> (nodes s)) (root_res s)) /\
  size r' = Z.max (size r) (start + Z.of_nat (length data)) /\
  contents r' = splice (contents r) start data /\ exists b n, r' = set_data b n r.
Proof.
  intros [Hf _] Hr Hs Hd. destruct (inv_node _ Hf _ _ Hr) as [H1 H2 H3 H4].
  unfold ramdisk_fs_file_write. rewrite (bind_Ret _ _ _ _ _ (res_deref a s r (inv_null _ Hf) Hr)).
  rewrite w64_small by lia. rewrite (w32_small (start + _)) by lia.
  set (n := Z.of_nat (length data)) in *. set (r' := if _ : bool then _ else r).
  assert (Hr' : size r' = Z.max (size r) (start + n) /\ size r' <= Z.of_nat (length (buffer r')) /\
    take (Z.to_nat start) (buffer r') = take (Z.to_nat start) (buffer r) /\
    (start + n < size r -> buffer r' = buffer r)).
  { unfold r'. destruct (Z.ltb_spec (size r - start) n) as [Hlt|Hge]; simpl.
    - rewrite length_realloc by lia. split_and!; try lia.
      unfold realloc. rewrite take_app_le by (rewrite length_take; lia). rewrite take_take. f_equal. lia.
    - split_and!; auto; lia. }
  destruct Hr' as (K1 & K2 & K3 & K4). rewrite (proj2 (Z.leb_le (start + n) _)) by lia.
  rewrite (bind_Ret _ _ _ _ _ (res_update a _ s r (inv_null _ Hf) Hr)). eexists. split; [done|]. simpl.
  split; [done|]. split.
  2: { unfold r'. destruct (_ <? _); eauto. }
  unfold contents. cbn [size buffer set_data]. rewrite K1.
  assert (Ht : take (Z.to_nat start) (take (Z.to_nat (size r)) (buffer r)) = take (Z.to_nat start) (buffer r'))
    by (rewrite take_take, K3; f_equal; lia).
  unfold splice. rewrite Ht. assert (Hl : length (take (Z.to_nat start) (buffer r')) = Z.to_nat start)
    by (rewrite length_take; lia).
  rewrite take_app_ge by lia. rewrite Hl. f_equal. rewrite take_app_ge by lia. f_equal.
  rewrite skipn_firstn_comm. destruct (decide (start + n < size r)) as [Hlt|Hge].
  - rewrite (K4 Hlt). f_equal. lia.
  - replace (Z.to_nat (Z.max (size r) (start + n)) - Z.to_nat start - length data)%nat with O by lia.
    replace (Z.to_nat (size r) - (Z.to_nat start + length data))%nat with O by lia. done.
Qed.

(** Writing inside or at the end of a file gives the number of bytes written; the data
    replaces what was there, the file grows if it has to, and nothing else changes.
    Reading then gives what the file holds, at most up to its end. *)
Theorem ramdisk_write_read s a r start data off n :
  rtc step ramdisk_fs_init s -> nodes s !! a = Some r ->
  0 <= start <= size r -> start + Z.of_nat (length data) < 4294967296 ->
  0 <= off <= Z.max (size r) (start + Z.of_nat (length data)) -> 0 <= n ->
  exists s', ramdisk_fs_file_write a start data s = Ret (Z.of_nat (length data)) s' /\
    ramdisk_fs_file_read a off n s' =
      Ret (take (Z.to_nat n) (drop (Z.to_nat off) (splice (contents r) start data))) s' /\
    ramdisk_fs_file_read a start (Z.of_nat (length data)) s' = Ret data s' /\
    forall b, b <> a -> nodes s' !! b = nodes s !! b.
Proof.
  intros Hs Ha Hst Hd Hoff Hn. pose proof (reachable_inv s Hs) as Hi.
  destruct (write_spec s a r start data Hi Ha Hst Hd) as (r' & E & Hsz & Hc & _).
  pose proof (write_inv s a start data _ _ Hi (proj1 Hst) E) as Hi'.
  eexists. split; [exact E|]. set (s' := Disk _ _) in *.
  assert (Ha' : nodes s' !! a = Some r') by apply lookup_insert_eq.
  rewrite (read_spec s' a r' off n Hi' Ha') by lia. rewrite (read_spec s' a r' start _ Hi' Ha') by lia.
  rewrite Hc. split; [done|]. split; [|intros; by apply lookup_insert_ne].
  f_equal. destruct (inv_node _ (inv_forest _ Hi) _ _ Ha) as [_ H2 _ _].
  unfold splice. rewrite drop_app_length' by (unfold contents; rewrite !length_take; lia).
  by rewrite take_app_length' by lia.
Qed.

(** The rest of the file is computed without a sign: past the end of a file the
    requested bytes are copied all the same, from and to memory after its data. *)
Theorem ramdisk_past_end_overruns s a r start data n :
  rtc step ramdisk_fs_init s -> nodes s !! a = Some r ->
  size r < start < 4294967296 -> 0 < n < 4294967296 -> Z.of_nat (length data) < 4294967296 ->
  Z.of_nat (length (buffer r)) < start + n -> Z.of_nat (length (buffer r)) < start + Z.of_nat (length data) ->
  ramdisk_fs_file_read a start n s = Stop OutOfBounds s /\
  ramdisk_fs_file_write a start data s = Stop OutOfBounds s.
Proof.
  intros Hs Ha Hst Hn Hd Hb Hb'. destruct (reachable_inv s Hs) as [Hf _].
  destruct (inv_node _ Hf _ _ Ha) as [_ H2 _ _].
  assert (Hw : w64 (size r - start) = size r - start + 18446744073709551616).
  { unfold w64. rewrite <- (Z.mod_add _ 1) by lia. apply Z.mod_small. lia. }
  unfold ramdisk_fs_file_read, ramdisk_fs_file_write.
  rewrite !(bind_Ret _ _ _ _ _ (res_deref a s r (inv_null _ Hf) Ha)), Hw.
  rewrite !(proj2 (Z.ltb_ge _ _)) by lia. rewrite !(proj2 (Z.leb_gt _ _)) by lia. done.
Qed.

End proofs.

(** ** A small disk *)

Module Small.
#[local] Existing Instance Cache.Disk.zero_garbage.

Definition run {A} (c : cmd disk A) (s : disk) : disk := match c s with Ret _ s' => s' | Stop _ s' => s' end.

Definition d0 : disk := ramdisk_fs_init.
Definition a0 : Z := root_res d0.
Definition d1 : disk := run (ramdisk_fs_dir_create_child [102] a0) d0.
Definition a1 : Z := malloc (dom (nodes d0)).
Definition d2 : disk := run (ramdisk_fs_res_assign_class a1 FILE) d1.
Definition d3 : disk := run (ramdisk_fs_file_write a1 0 [1; 2; 3]) d2.

(** The file "f" with three bytes. *)
Lemma d3_reachable : rtc step d0 d3.
Proof.
  eapply rtc_l; [apply (step_create d0 [102] a0 a1 d1); [by eexists|reflexivity]|].
  eapply rtc_l; [apply (step_assign d1 a1 FILE (inr 1) d2); reflexivity|].
  eapply rtc_l; [apply (step_write d2 a1 0 [1; 2; 3] 3 d3); [done|reflexivity]|]. apply rtc_refl.
Qed.

Lemma ramdisk_types_witness :
  rtc step d0 d3 /\ is_Some (nodes d3 !! root_res d3).
Proof. split; [apply d3_reachable|]. apply (ramdisk_types d3). apply d3_reachable. Defined.

Lemma ramdisk_destroy_frees_witness :
  exists s', ramdisk_fs_destroy 4 d3 = Ret 0 s' /\ nodes s' !! a1 = None /\ nodes s' !! a0 = None.
Proof.
  destruct (ramdisk_destroy_frees d3 4 d3_reachable) as (s' & E & Hg & _); [vm_compute; lia|].
  exists s'. split; [exact E|]. split; apply Hg; [|apply rtc_refl].
  apply rtc_once. eexists. split; [reflexivity|]. apply list_elem_of_singleton. reflexivity.
Defined.

Lemma ramdisk_write_read_witness :
  exists s', ramdisk_fs_file_write a1 2 [7; 8; 9] d3 = Ret 3 s' /\
    ramdisk_fs_file_read a1 1 10 s' = Ret [2; 7; 8; 9] s'.
Proof.
  destruct (nodes d3 !! a1) as [r|] eqn:Hr; [|vm_compute in Hr; done].
  destruct (ramdisk_write_read d3 a1 r 2 [7; 8; 9] 1 10 d3_reachable Hr) as (s' & E & E' & _);
    try (vm_compute in Hr; injection Hr as <-; simpl; lia).
  exists s'. split; [exact E|]. rewrite E'. vm_compute in Hr. injection Hr as <-. reflexivity.
Defined.

Lemma ramdisk_past_end_overruns_witness :
  ramdisk_fs_file_read a1 4 1 d3 = Stop OutOfBounds d3 /\
  ramdisk_fs_file_write a1 4 [7] d3 = Stop OutOfBounds d3.
Proof.
  destruct (nodes d3 !! a1) as [r|] eqn:Hr; [|vm_compute in Hr; done].
  apply (ramdisk_past_end_overruns d3 a1 r 4 [7] 1 d3_reachable Hr);
    vm_compute in Hr; injection Hr as <-; simpl; lia.
Defined.

(** A directory that loses its class can be removed while it has children: it stays in
    memory, but no path leads to it any more. *)
Example removed_directory_leaks :
  let d4 := run (ramdisk_fs_res_assign_class a1 DIR) d1 in
  let d5 := run (ramdisk_fs_dir_create_child [103] a1) d4 in
  let d6 := run (ramdisk_fs_res_remove_class a1 DIR) d5 in
  exists d7, ramdisk_fs_res_remove a1 d6 = Ret (inr 0) d7 /\
    (children <$> nodes d7 !! a0) = Some [] /\ is_Some (nodes d7 !! a1).
Proof. eexists. split; [reflexivity|]. split; [reflexivity|]. by eexists. Qed.

End Small.
