(* ===== verification/Fs.v ===== *)
(** * File system servers (apps/lib/libcdi/fs.c, apps/include/cdi/fs.h)

    The part of a file system server that is the same for all drivers: it finds
    resources by path, keeps the open files and FIFOs of its clients and answers their
    calls.  The tables of function pointers of a driver are the class [Filesystem];
    what a driver promises of them is the class [FilesystemLaws].

    Data passes between a client and the server through shared memory; a segment is
    known by its identifier, which also stands for the address it is attached at.  A
    stream is its resource; the functions of a driver give the error they leave in it
    with their result. *)

From S2P Require Import Prelude LList Machine Path Cache.

(** ** Resources and drivers *)

(** The fields of [struct cdi_fs_res] the server looks at; a class is a pointer that may
    be null. *)
Record res := Res {
  name : str;
  loaded : bool;
  children : list Z;
  file : bool;
  dir : bool;
  link : bool;
  special : bool;
  type : Z;
}.

Inductive class := CLASS_FILE | CLASS_DIR | CLASS_LINK | CLASS_SPECIAL.
Inductive meta := META_SIZE | META_USEDBLOCKS | META_BESTBLOCKSZ | META_BLOCKSZ | META_CREATETIME
| META_ACCESSTIME | META_CHANGETIME.

(** [cdi_fs_res_type_t] *)
Definition FS_BLOCK : Z := 0.
Definition FS_CHAR : Z := 1.
Definition FS_FIFO : Z := 2.
Definition FS_SOCKET : Z := 3.

(** [cdi_fs_error_t] *)
Inductive error := ERROR_NONE | ERROR_IO | ERROR_ONS | ERROR_RNF | ERROR_EOF | ERROR_RO | ERROR_INTERNAL
| ERROR_NOT_IMPLEMENTED | ERROR_UNKNOWN.

(** The functions of a driver on its state [S]; [None] is a null pointer.  A list is
    known by a pointer, too, because a directory that is read shares it. *)
Class Filesystem (S : Type) := {
  root_res : S -> Z;
  resource : S -> Z -> option res;
  set_type : Z -> Z -> S -> S;
  list_at : S -> Z -> option (list Z);
  res_load : Z -> cmd S (Z * error);
  res_unload : Z -> cmd S (Z * error);
  res_remove : Z -> cmd S (Z * error);
  assign_class : Z -> class -> cmd S (Z * error);
  remove_class : Z -> class -> cmd S (Z * error);
  meta_read : option (Z -> meta -> cmd S Z);
  meta_write : Z -> meta -> Z -> cmd S Z;
  file_read : option (Z -> Z -> Z -> cmd S (list Z * error));
  file_write : option (Z -> Z -> list Z -> cmd S (Z * error));
  file_truncate : Z -> Z -> cmd S (Z * error);
  dir_list : Z -> cmd S Z;
  create_child : str -> Z -> cmd S (option Z * error);
  read_link : Z -> cmd S (option str);
  write_link : Z -> str -> cmd S (Z * error);
  fs_sync_fn : option (cmd S (Z * error));
  fs_destroy : cmd S Z;
}.

(** ** State of the server *)

Inductive ftype := FILE_REG | FILE_DIR | FILE_FIFO | FILE_LINK.

(** [struct cdi_fs_file]; a FIFO's list is uninitialised in other files. *)
Record cdi_fs_file := File {
  f_res : Z;
  fh : Z;
  f_type : ftype;
  pos : Z;
  shmbuf : Z;
  dirlist : Z;
  buffer : list Z;
  posr : Z;
  posw : Z;
  fifo_list : option Z;
}.

Record cdi_fs_filesystem (S : Type) := Fs {
  drv : S;
  fsid : Z;
  last_fh : Z;
  files : list Z;
}.
Arguments Fs {S}.
Arguments drv {S}.
Arguments fsid {S}.
Arguments last_fh {S}.
Arguments files {S}.

(** A segment of shared memory and how often the server has attached it. *)
Record segment := Segment { bytes : list Z; nattch : Z }.

Record server (S : Type) := Server {
  filesystems : list (cdi_fs_filesystem S);
  handles : gmap Z cdi_fs_file;
  fifos : gmap Z (list Z);
  shm : gmap Z segment;
}.
Arguments Server {S}.
Arguments filesystems {S}.
Arguments handles {S}.
Arguments fifos {S}.
Arguments shm {S}.

Definition EBADF : Z := 8.
Definition EEXIST : Z := 20.
Definition EINVAL : Z := 28.
Definition EIO : Z := 29.
Definition ENOENT : Z := 45.
Definition ENOLINK : Z := 48.
Definition ENOSYS : Z := 55.
Definition ENOTDIR : Z := 57.
Definition ENOTSUP : Z := 60.
Definition EROFS : Z := 71.
Definition EOF : Z := -1.
Definition O_APPEND : Z := 64.
Definition CDI_FS_FIFOBUF_SIZE : Z := 4096.

Definition cdi_fs_error2errno (e : error) : Z :=
  match e with
  | ERROR_NONE => 0
  | ERROR_IO => EIO
  | ERROR_ONS => ENOSYS
  | ERROR_RNF => ENOENT
  | ERROR_EOF => EOF
  | ERROR_RO => EROFS
  | ERROR_INTERNAL => -1
  | ERROR_NOT_IMPLEMENTED => ENOTSUP
  | ERROR_UNKNOWN => -1
  end.

(** The kind of a file in a POSIX mode ([S_IFMT]), in the order of the tests. *)
Definition S_IFMT : Z := 61440.
Definition S_IFSOCK : Z := 49152.
Definition S_IFLNK : Z := 40960.
Definition S_IFREG : Z := 32768.
Definition S_IFBLK : Z := 24576.
Definition S_IFDIR : Z := 16384.
Definition S_IFCHR : Z := 8192.
Definition S_IFIFO : Z := 4096.

(** The class, and the type of special file if one is set. *)
Definition cdi_fs_mode2class (mode : Z) : class * option Z :=
  let k := Z.land mode S_IFMT in
  if k =? S_IFREG then (CLASS_FILE, None)
  else if k =? S_IFDIR then (CLASS_DIR, None)
  else if k =? S_IFLNK then (CLASS_LINK, None)
  else if k =? S_IFCHR then (CLASS_SPECIAL, Some FS_CHAR)
  else if k =? S_IFBLK then (CLASS_SPECIAL, Some FS_BLOCK)
  else if k =? S_IFIFO then (CLASS_SPECIAL, Some FS_FIFO)
  else if k =? S_IFSOCK then (CLASS_SPECIAL, Some FS_SOCKET)
  else (CLASS_FILE, None).

Definition cdi_fs_class2mode (r : res) : Z :=
  let mode := if file r then S_IFREG else 0 in
  let mode := if dir r then Z.lor mode S_IFDIR else mode in
  let mode := if link r then Z.lor mode S_IFLNK else mode in
  if special r then
    if type r =? FS_CHAR then Z.lor mode S_IFCHR
    else if type r =? FS_BLOCK then Z.lor mode S_IFBLK
    else if type r =? FS_FIFO then Z.lor mode S_IFIFO
    else if type r =? FS_SOCKET then Z.lor mode S_IFSOCK
    else mode
  else mode.

Section code.
Context {S : Type} `{DD : Filesystem S} `{MM : Malloc} `{GG : Garbage}.
Implicit Types s : server S.
Abbreviation M A := (cmd (server S) A).

(** ** Access to the state *)

Definition filesystem (i : nat) : M (cdi_fs_filesystem S) := fun s =>
  match filesystems s !! i with Some f => Ret f s | None => Stop UseAfterFree s end.

Definition set_filesystem (i : nat) (f : cdi_fs_filesystem S) (s : server S) : server S :=
  Server (<[i := f]> (filesystems s)) (handles s) (fifos s) (shm s).

(** Call a function of the driver. *)
Definition call {A} (i : nat) (c : cmd S A) : M A := fun s =>
  match filesystems s !! i with
  | None => Stop UseAfterFree s
  | Some f =>
      match c (drv f) with
      | Ret x d => Ret x (set_filesystem i (Fs d (fsid f) (last_fh f) (files f)) s)
      | Stop w d => Stop w (set_filesystem i (Fs d (fsid f) (last_fh f) (files f)) s)
      end
  end.

Definition res_at (i : nat) (a : Z) : M res :=
  if a =? NULL then stop_with NullDeref
  else f ← filesystem i; match resource (drv f) a with Some r => mret r | None => stop_with UseAfterFree end.

Definition handle (h : Z) : M cdi_fs_file := fun s =>
  if h =? NULL then Stop NullDeref s
  else match handles s !! h with Some f => Ret f s | None => Stop UseAfterFree s end.

Definition set_handle (h : Z) (f : cdi_fs_file) : M unit :=
  modify (fun s => Server (filesystems s) (<[h := f]> (handles s)) (fifos s) (shm s)).

Definition set_pos (p : Z) (f : cdi_fs_file) : cdi_fs_file :=
  File (f_res f) (fh f) (f_type f) p (shmbuf f) (dirlist f) (buffer f) (posr f) (posw f) (fifo_list f).

Definition set_dirlist (l : Z) (f : cdi_fs_file) : cdi_fs_file :=
  File (f_res f) (fh f) (f_type f) (pos f) (shmbuf f) l (buffer f) (posr f) (posw f) (fifo_list f).

Definition set_fifo (b : list Z) (r w : Z) (f : cdi_fs_file) : cdi_fs_file :=
  File (f_res f) (fh f) (f_type f) (pos f) (shmbuf f) (dirlist f) b r w (fifo_list f).

(** [shmat] (false: it gives NULL) and [shmdt]. *)
Definition shmat (id : Z) : M bool := fun s =>
  match shm s !! id with
  | Some g => Ret true (Server (filesystems s) (handles s) (fifos s) (<[id := Segment (bytes g) (nattch g + 1)]> (shm s)))
  | None => Ret false s
  end.

Definition shmdt (id : Z) : M unit :=
  modify (fun s =>
    Server (filesystems s) (handles s) (fifos s)
      (alter (fun g => Segment (bytes g) (nattch g - 1)) id (shm s))).

(** [n] bytes of a segment. *)
Definition shm_read (id off n : Z) : M (list Z) := fun s =>
  match shm s !! id with
  | Some g => if off + n <=? Z.of_nat (length (bytes g)) then Ret (subrange (bytes g) off n) s else Stop OutOfBounds s
  | None => Stop UseAfterFree s
  end.

Definition shm_write (id off : Z) (x : list Z) : M unit := fun s =>
  match shm s !! id with
  | Some g =>
      if off + Z.of_nat (length x) <=? Z.of_nat (length (bytes g)) then
        Ret tt (Server (filesystems s) (handles s) (fifos s)
                  (<[id := Segment (splice (bytes g) off x) (nattch g)]> (shm s)))
      else Stop OutOfBounds s
  | None => Stop UseAfterFree s
  end.

(** The string a segment starts with. *)
Fixpoint cstring (l : list Z) : option str :=
  match l with
  | [] => None
  | c :: l => if c =? 0 then Some [] else x ← cstring l; Some (c :: x)
  end.

Definition shm_string (id : Z) : M str := fun s =>
  match shm s !! id with
  | Some g => match cstring (bytes g) with Some x => Ret x s | None => Stop OutOfBounds s end
  | None => Stop UseAfterFree s
  end.

Definition shm_strcpy (id : Z) (x : str) : M unit := shm_write id 0 (x ++ [0]).

(** ** Finding things *)

Fixpoint find_fsid (fs : list (cdi_fs_filesystem S)) (i : nat) (id : Z) : option nat :=
  match fs with
  | [] => None
  | f :: fs => if fsid f =? id then Some i else find_fsid fs (Datatypes.S i) id
  end.

Definition cdi_fs_find (id : Z) : M (option nat) := s ← gets Datatypes.id; mret (find_fsid (filesystems s) 0 id).

Fixpoint find_handle (hs : list Z) (n : Z) : M Z :=
  match hs with
  | [] => mret NULL
  | h :: hs => f ← handle h; if fh f =? n then mret h else find_handle hs n
  end.

Definition cdi_fs_file_find (i : nat) (n : Z) : M Z := f ← filesystem i; find_handle (Seq.scan (files f)) n.

(** 0 or -1, and the error of the stream. *)
Definition cdi_fs_loadres (i : nat) (a : Z) : M (Z * error) :=
  r ← res_at i a;
  if loaded r then mret (0, ERROR_NONE)
  else x ← call i (res_load a); mret (if x.1 =? 0 then -1 else 0, x.2).

Definition cdi_fs_unloadres (i : nat) (a : Z) : M (Z * error) :=
  r ← res_at i a;
  if loaded r then x ← call i (res_load a); mret (if x.1 =? 0 then -1 else 0, x.2)
  else mret (0, ERROR_NONE).

(** The first of the resources with the name. *)
Fixpoint find_child (i : nat) (cs : list Z) (n : str) : M Z :=
  match cs with
  | [] => mret NULL
  | c :: cs => r ← res_at i c; if bool_decide (name r = n) then mret c else find_child i cs n
  end.

(** The loop over the parts of a path, from resource [a]. *)
Fixpoint walk (i : nat) (ps : list str) (a : Z) : M Z :=
  match ps with
  | [] => mret a
  | p :: ps =>
      if is_empty p then walk i ps a
      else
        cdi_fs_loadres i a;;
        r ← res_at i a;
        c ← find_child i (Seq.scan (children r)) p;
        if c =? NULL then mret NULL else walk i ps c
  end.

Definition parse (x : str) : list str := parts (default (Path false []) (path_parse (Some x))).

Definition cdi_fs_path2res (i : nat) (path : str) : M Z :=
  f ← filesystem i; walk i (parse path) (root_res (drv f)).

(** The last part that is not empty, and the parts before it. *)
Fixpoint split_last (ps : list str) : option (list str * str) :=
  match ps with
  | [] => None
  | p :: ps =>
      match split_last ps with
      | Some (init, l) => Some (p :: init, l)
      | None => if is_empty p then None else Some ([], p)
      end
  end.

(** The resource of the directory and the name in it. *)
Definition cdi_fs_parentres (i : nat) (path : str) : M (Z * str) :=
  f ← filesystem i;
  match split_last (parse path) with
  | None => mret (root_res (drv f), [SLASH])
  | Some (init, l) => a ← walk i init (root_res (drv f)); mret (a, l)
  end.

Definition cdi_fs_filesize (i : nat) (a : Z) : M Z :=
  res_at i a;;
  match meta_read with
  | Some f => x ← call i (f a META_SIZE); mret (w32 x)
  | None => mret 0
  end.

(** ** FIFOs *)

Definition fifo_at (l : Z) : M (list Z) := fun s =>
  match fifos s !! l with Some hs => Ret hs s | None => Stop UseAfterFree s end.

Definition set_fifos (f : gmap Z (list Z) -> gmap Z (list Z)) : M unit :=
  modify (fun s => Server (filesystems s) (handles s) (f (fifos s)) (shm s)).

(** The list of the first open file of the same resource. *)
Fixpoint find_fifo (hs : list Z) (a : Z) : M (option Z) :=
  match hs with
  | [] => mret None
  | h :: hs =>
      f ← handle h;
      if f_res f =? a then
        match fifo_list f with Some l => mret (Some l) | None => stop_with Uninitialized end
      else find_fifo hs a
  end.

Definition fs_fifo_open (i : nat) (h : Z) : M unit :=
  f ← handle h;
  fs ← filesystem i;
  found ← find_fifo (Seq.scan (files fs)) (f_res f);
  s ← gets Datatypes.id;
  let l := match found with Some l => l | None => malloc (dom (fifos s)) end in
  old ← (match found with Some l => fifo_at l | None => mret [] end);
  set_handle h (File (f_res f) (fh f) FILE_FIFO (pos f) (shmbuf f) (dirlist f) (garbage CDI_FS_FIFOBUF_SIZE) 0 0 (Some l));;
  set_fifos <[l := h :: old]>.

Definition fs_fifo_close (h : Z) : M unit :=
  f ← handle h;
  match fifo_list f with
  | None => stop_with Uninitialized
  | Some l =>
      hs ← fifo_at l;
      if Z.of_nat (length hs) =? 1 then set_fifos (delete l) else set_fifos <[l := Seq.drop_elem hs h]>
  end.

(** [memcpy] from and to the buffer of a FIFO. *)
Definition fifo_get (b : list Z) (off n : Z) : M (list Z) :=
  if off + n <=? CDI_FS_FIFOBUF_SIZE then mret (subrange b off n) else stop_with OutOfBounds.
Definition fifo_put (b : list Z) (off : Z) (x : list Z) : M (list Z) :=
  if off + Z.of_nat (length x) <=? CDI_FS_FIFOBUF_SIZE then mret (splice b off x) else stop_with OutOfBounds.

Definition fs_fifo_read (h size : Z) : M Z :=
  f ← handle h;
  if size =? 0 then mret 0
  else
    let size_free := if posr f <=? posw f then posw f - posr f else posw f + CDI_FS_FIFOBUF_SIZE - posr f in
    let size := if size_free <? size then size_free else size in
    if size =? 0 then mret 0
    else
      (if posr f <? (posr f + size) mod CDI_FS_FIFOBUF_SIZE then
         x ← fifo_get (buffer f) (posr f) size; shm_write (shmbuf f) 0 x
       else
         let part1 := CDI_FS_FIFOBUF_SIZE - posr f in
         let part2 := posw f in
         x ← fifo_get (buffer f) (posr f) part1; shm_write (shmbuf f) 0 x;;
         y ← fifo_get (buffer f) 0 part2; shm_write (shmbuf f) part1 y);;
      set_handle h (set_fifo (buffer f) ((posr f + size) mod CDI_FS_FIFOBUF_SIZE) (posw f) f);;
      mret size.

(** The space the writer [f] computes, once per other file. *)
Fixpoint fifo_space (f : cdi_fs_file) (h : Z) (hs : list Z) (free : Z) : Z :=
  match hs with
  | [] => free
  | d :: hs =>
      if d =? h then fifo_space f h hs free
      else
        let here := if posw f <? posr f then posr f - posw f else posr f + CDI_FS_FIFOBUF_SIZE - posw f in
        fifo_space f h hs (if here <? free then here else free)
  end.

(** Copy into the buffers of the other files. *)
Fixpoint fifo_deliver (f : cdi_fs_file) (h : Z) (hs : list Z) (size : Z) : M unit :=
  match hs with
  | [] => mret tt
  | d :: hs =>
      (if d =? h then mret tt
       else
         g ← handle d;
         b ← (if posw g <? (posr g + size) mod CDI_FS_FIFOBUF_SIZE then
                x ← shm_read (shmbuf f) 0 size; fifo_put (buffer g) (posw g) x
              else
                let part1 := CDI_FS_FIFOBUF_SIZE - posw g in
                let part2 := posr g in
                x ← shm_read (shmbuf f) 0 part1; b ← fifo_put (buffer g) (posw g) x;
                y ← shm_read (shmbuf f) part1 part2; fifo_put b 0 y);
         set_handle d (set_fifo b (posr g) ((posw g + size) mod CDI_FS_FIFOBUF_SIZE) g));;
      fifo_deliver f h hs size
  end.

Definition fs_fifo_write (h size : Z) : M Z :=
  f ← handle h;
  match fifo_list f with
  | None => stop_with Uninitialized
  | Some l =>
      hs ← fifo_at l;
      if (size =? 0) || (Z.of_nat (length hs) =? 1) then mret 0
      else
        let size_free := fifo_space f h (Seq.scan hs) 4294967295 in
        let size := if size_free <? size then size_free else size in
        if size =? 0 then mret 0
        else fifo_deliver f h (Seq.scan hs) size;; mret size
  end.

(** ** The calls of clients *)

(** Every call starts with the file system, and most with an open file. *)
Definition with_fs (id : Z) (c : nat -> M Z) : M Z :=
  o ← cdi_fs_find id; match o with Some i => c i | None => mret (- EINVAL) end.

Definition with_file (id n : Z) (c : nat -> Z -> M Z) : M Z :=
  with_fs id (fun i => h ← cdi_fs_file_find i n; if h =? NULL then mret (- EBADF) else c i h).

(** An attached segment and the resource whose path it holds. *)
Definition with_path (id shmid : Z) (c : nat -> Z -> M Z) : M Z :=
  with_fs id (fun i =>
    ok ← shmat shmid;
    if ok : bool then
      path ← shm_string shmid;
      a ← cdi_fs_path2res i path;
      if a =? NULL then shmdt shmid;; mret (- ENOENT) else c i a
    else mret (- EINVAL)).

Definition fs_is_char (r : res) : bool := special r && (type r =? FS_CHAR).
Definition fs_is_block (r : res) : bool := special r && (type r =? FS_BLOCK).
Definition fs_is_fifo (r : res) : bool := special r && (type r =? FS_FIFO).

(** A new [struct cdi_fs_file] with the next number. *)
Definition new_file (i : nat) (mk : Z -> cdi_fs_file) : M Z :=
  f ← filesystem i;
  s ← gets Datatypes.id;
  let h := malloc (dom (handles s)) in
  modify (set_filesystem i (Fs (drv f) (fsid f) (s32 (last_fh f + 1)) (files f)));;
  set_handle h (mk (last_fh f));;
  mret h.

Definition push_file (i : nat) (h : Z) : M unit :=
  f ← filesystem i; modify (set_filesystem i (Fs (drv f) (fsid f) (last_fh f) (h :: files f))).

Definition drop_file (i : nat) (h : Z) : M unit :=
  f ← filesystem i;
  modify (set_filesystem i (Fs (drv f) (fsid f) (last_fh f) (Seq.drop_elem (files f) h)));;
  modify (fun s => Server (filesystems s) (delete h (handles s)) (fifos s) (shm s)).

Definition fs_open (id oflag shmid : Z) : M Z :=
  with_path id shmid (fun i a =>
    r ← res_at i a;
    if file r || fs_is_char r || fs_is_block r || fs_is_fifo r || link r then
      x ← cdi_fs_loadres i a;
      if x.1 =? 0 then
        r ← res_at i a;
        h ← new_file i (fun n => File a n (if link r then FILE_LINK else FILE_REG) 0 shmid NULL [] 0 0 None);
        (if file r || fs_is_char r || fs_is_block r then
           size ← (if Z.land oflag O_APPEND =? 0 then mret 0 else cdi_fs_filesize i a);
           f ← handle h;
           set_handle h (File (f_res f) (fh f) FILE_REG size (shmbuf f) (dirlist f) [] 0 0 None)
         else if link r then mret tt
         else if fs_is_fifo r then fs_fifo_open i h
         else mret tt);;
        push_file i h;;
        f ← handle h; mret (fh f)
      else shmdt shmid;; mret (- cdi_fs_error2errno x.2)
    else shmdt shmid;; mret (- ENOENT)).

Definition fs_close (id n : Z) : M Z :=
  with_file id n (fun i h =>
    f ← handle h;
    match f_type f with
    | FILE_REG | FILE_FIFO =>
        res_at i (f_res f);;
        x ← call i (res_unload (f_res f));
        if x.1 =? 0 then mret (- ENOSYS)
        else
          (match f_type f with FILE_FIFO => fs_fifo_close h | _ => mret tt end);;
          shmdt (shmbuf f);;
          drop_file i h;;
          mret 0
    | _ => mret (- EBADF)
    end).

Definition fs_read (id n count : Z) : M Z :=
  with_file id n (fun i h =>
    f ← handle h;
    match f_type f with
    | FILE_REG =>
        r ← res_at i (f_res f);
        if negb (file r) then stop_with NullDeref
        else
          match file_read with
          | Some g =>
              x ← call i (g (f_res f) (pos f) count);
              shm_write (shmbuf f) 0 x.1;;
              let ret := s32 (Z.of_nat (length x.1)) in
              (if 0 <? ret then set_handle h (set_pos (w64 (pos f + ret)) f) else mret tt);;
              mret (if 0 <=? ret then ret else - cdi_fs_error2errno x.2)
          | None => mret (- ENOSYS)
          end
    | FILE_FIFO => fs_fifo_read h count
    | _ => mret (- EBADF)
    end).

Definition fs_write (id n count : Z) : M Z :=
  with_file id n (fun i h =>
    f ← handle h;
    match f_type f with
    | FILE_REG =>
        r ← res_at i (f_res f);
        if negb (file r) then stop_with NullDeref
        else
          match file_write with
          | Some g =>
              data ← shm_read (shmbuf f) 0 count;
              x ← call i (g (f_res f) (pos f) data);
              let ret := s32 x.1 in
              (if 0 <? ret then set_handle h (set_pos (w64 (pos f + ret)) f) else mret tt);;
              mret (if 0 <=? ret then ret else - cdi_fs_error2errno x.2)
          | None => mret (- ENOSYS)
          end
    | FILE_FIFO => fs_fifo_write h count
    | _ => mret (- EBADF)
    end).

Definition SEEK_SET : Z := 0.
Definition SEEK_CUR : Z := 1.
Definition SEEK_END : Z := 2.

Definition fs_seek (id n off whence : Z) : M Z :=
  with_file id n (fun i h =>
    f ← handle h;
    match f_type f with
    | FILE_REG =>
        p ← (if whence =? SEEK_SET then mret (Some (w64 off))
             else if whence =? SEEK_CUR then mret (Some (w64 (pos f + off)))
             else if whence =? SEEK_END then size ← cdi_fs_filesize i (f_res f); mret (Some (w32 (size + off)))
             else mret None);
        match p with
        | Some p => set_handle h (set_pos p f);; mret (s32 p)
        | None => mret (- EINVAL)
        end
    | _ => mret (- EBADF)
    end).

(** The fields of [struct stat] that are set. *)
Record stat := Stat {
  st_size : Z;
  st_atime : Z;
  st_mtime : Z;
  st_ctime : Z;
  st_blksize : Z;
  st_blocks : Z;
  st_mode : Z;
}.

Definition meta_of (i : nat) (a : Z) (m : meta) : M Z :=
  match meta_read with Some f => call i (f a m) | None => stop_with NullDeref end.

(** 0 and the record written to the segment, or an error. *)
Definition fs_fstat (id n : Z) : M (Z * option stat) :=
  o ← cdi_fs_find id;
  match o with
  | None => mret (- EINVAL, None)
  | Some i =>
      h ← cdi_fs_file_find i n;
      if h =? NULL then mret (- EBADF, None)
      else
        f ← handle h;
        r ← res_at i (f_res f);
        size ← meta_of i (f_res f) META_SIZE;
        at_ ← meta_of i (f_res f) META_ACCESSTIME;
        mt ← meta_of i (f_res f) META_CHANGETIME;
        ct ← meta_of i (f_res f) META_CREATETIME;
        bs ← meta_of i (f_res f) META_BLOCKSZ;
        bn ← meta_of i (f_res f) META_USEDBLOCKS;
        mret (0, Some (Stat size at_ mt ct bs bn (Z.lor (cdi_fs_class2mode r) 493)))
  end.

(** Take the class away if the resource has it; the error if that fails. *)
Definition strip_class (i : nat) (a : Z) (has : res -> bool) (c : class) : M (option error) :=
  r ← res_at i a;
  if has r then x ← call i (remove_class a c); mret (if x.1 =? 0 then Some x.2 else None)
  else mret None.

Fixpoint strip_classes (i : nat) (a : Z) (cs : list ((res -> bool) * class)) : M (option error) :=
  match cs with
  | [] => mret None
  | (has, c) :: cs =>
      e ← strip_class i a has c; match e with Some e => mret (Some e) | None => strip_classes i a cs end
  end.

Definition fs_unlink (id : Z) (path : str) : M Z :=
  with_fs id (fun i =>
    a ← cdi_fs_path2res i path;
    if a =? NULL then mret (- ENOENT)
    else
      e ← strip_classes i a [(file, CLASS_FILE); (dir, CLASS_DIR); (link, CLASS_LINK); (special, CLASS_SPECIAL)];
      match e with
      | Some e => mret (- cdi_fs_error2errno e)
      | None => x ← call i (res_remove a); mret (if x.1 =? 0 then - cdi_fs_error2errno x.2 else 0)
      end).

Definition fs_rmdir (id : Z) (path : str) : M Z := fs_unlink id path.

Definition fs_ftruncate (id n newsize : Z) : M Z :=
  with_file id n (fun i h =>
    f ← handle h;
    r ← res_at i (f_res f);
    if file r && match f_type f with FILE_REG => true | _ => false end then
      x ← call i (file_truncate (f_res f) (w64 newsize));
      mret (if x.1 =? 0 then - cdi_fs_error2errno x.2 else 0)
    else mret (- ENOENT)).

Definition fs_opendir (id shmid : Z) : M Z :=
  with_path id shmid (fun i a =>
    r ← res_at i a;
    if dir r then
      x ← cdi_fs_loadres i a;
      if x.1 =? 0 then
        h ← new_file i (fun n => File a n FILE_DIR 0 shmid NULL [] 0 0 None);
        push_file i h;;
        f ← handle h; mret (fh f)
      else shmdt shmid;; mret (- cdi_fs_error2errno x.2)
    else shmdt shmid;; mret (- ENOTDIR)).

Definition list_of (i : nat) (l : Z) : M (list Z) :=
  f ← filesystem i; match list_at (drv f) l with Some x => mret x | None => stop_with UseAfterFree end.

Definition fs_readdir (id n : Z) : M Z :=
  with_file id n (fun i h =>
    f ← handle h;
    match f_type f with
    | FILE_DIR =>
        if pos f <? 2 then
          set_handle h (set_pos (pos f + 1) f);;
          shm_strcpy (shmbuf f) (if pos f =? 0 then DOT else DOTDOT);; mret 0
        else
          l ← (if dirlist f =? NULL then
                 cdi_fs_loadres i (f_res f);;
                 r ← res_at i (f_res f);
                 if dir r then l ← call i (dir_list (f_res f)); set_handle h (set_dirlist l f);; mret (Some l)
                 else mret None
               else mret (Some (dirlist f)));
          match l with
          | None => mret (- ENOTDIR)
          | Some l =>
              xs ← list_of i l;
              f ← handle h;
              set_handle h (set_pos (w64 (pos f + 1)) f);;
              let c := Seq.get xs (w32 (pos f - 2)) in
              if c =? NULL then mret (- ENOENT)
              else r ← res_at i c; shm_strcpy (shmbuf f) (name r);; mret 0
          end
    | _ => mret (- ENOTDIR)
    end).

Definition fs_closedir (id n : Z) : M Z :=
  with_file id n (fun i h =>
    f ← handle h;
    match f_type f with
    | FILE_DIR => shmdt (shmbuf f);; drop_file i h;; mret 0
    | _ => mret (- ENOTDIR)
    end).

Definition fs_seekdir (id n off : Z) : M Z :=
  with_file id n (fun i h =>
    f ← handle h;
    match f_type f with
    | FILE_DIR =>
        if off =? -1 then mret (s32 (pos f))
        else set_handle h (set_pos (w64 off) f);; mret (s32 (w64 off))
    | _ => mret (- ENOTDIR)
    end).

(** The end of creating a resource: load it, give it a class, continue with [k]. *)
Definition create (i : nat) (p : Z) (n : str) (c : class) (t : option Z) (k : Z -> M (option error)) : M Z :=
  r ← res_at i p;
  if dir r then
    x ← call i (create_child n p);
    match x.1 with
    | None => mret (- cdi_fs_error2errno x.2)
    | Some a =>
        y ← cdi_fs_loadres i a;
        if y.1 =? -1 then mret (- cdi_fs_error2errno y.2)
        else
          call i (fun d => Ret tt (set_type a (default 0 t) d));;
          z ← call i (assign_class a c);
          if z.1 =? 0 then mret (- cdi_fs_error2errno z.2)
          else
            e ← k a;
            match e with
            | Some e => mret (- cdi_fs_error2errno e)
            | None => u ← cdi_fs_unloadres i a; mret (if u.1 =? 0 then 0 else - cdi_fs_error2errno u.2)
            end
    end
  else mret (- ENOTDIR).

Definition fs_mknod (id : Z) (path : str) (mode : Z) : M Z :=
  with_fs id (fun i =>
    a ← cdi_fs_path2res i path;
    if a =? NULL then
      p ← cdi_fs_parentres i path;
      if p.1 =? NULL then mret (- ENOENT)
      else
        let '(c, t) := cdi_fs_mode2class mode in
        create i p.1 p.2 c t (fun _ => mret None)
    else mret (- EEXIST)).

Definition fs_readlink (id shmid : Z) : M Z :=
  with_path id shmid (fun i a =>
    r ← res_at i a;
    if link r then
      x ← call i (read_link a);
      n ← (match x with
           | Some x => shm_strcpy shmid x;; mret (Z.of_nat (length x))
           | None => mret 0
           end);
      shmdt shmid;; mret n
    else shmdt shmid;; mret (- ENOLINK)).

Definition fs_symlink (id : Z) (src dest : str) : M Z :=
  with_fs id (fun i =>
    p ← cdi_fs_parentres i src;
    if p.1 =? NULL then mret (- ENOENT)
    else
      create i p.1 p.2 CLASS_LINK None (fun a =>
        r ← res_at i a;
        if link r then x ← call i (write_link a dest); mret (if x.1 =? 0 then Some x.2 else None)
        else stop_with NullDeref)).

(** The new file is put nowhere, and its resource is not set. *)
Definition fs_dup (id n shmid : Z) : M Z :=
  with_file id n (fun i h =>
    ok ← shmat shmid;
    if ok : bool then
      h' ← new_file i (fun n => File NULL n FILE_REG 0 shmid NULL [] 0 0 None);
      f ← handle h'; mret (fh f)
    else mret (- EINVAL)).

(** The two times behind the path, four bytes each. *)
Definition le4 (x : list Z) : Z := foldr (fun b r => b + 256 * r) 0 x.

Definition fs_utime (id shmid : Z) : M Z :=
  with_path id shmid (fun i a =>
    path ← shm_string shmid;
    let off := Z.of_nat (length path) + 1 in
    at_ ← shm_read shmid off 4;
    call i (meta_write a META_ACCESSTIME (le4 at_));;
    mt ← shm_read shmid (off + 4) 4;
    call i (meta_write a META_CHANGETIME (le4 mt));;
    shmdt shmid;; mret 0).

(** [struct statvfs] has eleven words; they are cleared. *)
Definition fs_statvfs (id shmid : Z) : M Z :=
  with_fs id (fun i =>
    ok ← shmat shmid;
    if ok : bool then shm_write shmid 0 (replicate 44 0);; shmdt shmid;; mret 0 else mret (- EINVAL)).

Definition fs_sync (id : Z) : M Z :=
  with_fs id (fun i =>
    match fs_sync_fn with
    | Some c => x ← call i c; mret (if x.1 =? 0 then - cdi_fs_error2errno x.2 else 0)
    | None => mret (- ENOSYS)
    end).

(** Mounting: the number the virtual file system gave and the new state of the driver,
    if it could be set up. *)
Definition cdi_fs_mount (id : Z) (init : option S) : M Z :=
  if id =? -1 then mret (- EIO)
  else
    match init with
    | None => mret (- EIO)
    | Some d => modify (fun s => Server (Fs d id 0 [] :: filesystems s) (handles s) (fifos s) (shm s));; mret 0
    end.

Definition cdi_fs_unmount (i : nat) : M Z :=
  x ← call i fs_destroy; mret (if x =? 0 then -1 else 0).

End code.

(** ** What a driver promises *)

(** A resource as it is after loading: [view].  Loading gives it and changes no other
    resource and no data; [data] is the contents of a file. *)
Definition kept (r v : res) : Prop :=
  name v = name r /\ file v = file r /\ dir v = dir r /\ link v = link r /\ special v = special r /\ type v = type r.

Class FilesystemLaws (S : Type) `{DD : Filesystem S} := {
  fs_ok : S -> Prop;
  view : S -> Z -> option res;
  data : S -> Z -> option (list Z);
  law_null : forall d, fs_ok d -> resource d NULL = None;
  law_root : forall d, fs_ok d -> is_Some (resource d (root_res d));
  law_children : forall d a r, fs_ok d -> resource d a = Some r -> loaded r = true ->
    Forall (fun c => is_Some (resource d c)) (children r);
  law_loaded : forall d a r, fs_ok d -> resource d a = Some r -> loaded r = true -> view d a = Some r;
  law_kept : forall d a r, fs_ok d -> resource d a = Some r -> exists v, view d a = Some v /\ kept r v;
  law_file : forall d a r, fs_ok d -> resource d a = Some r -> file r = true -> is_Some (data d a);
  law_load : forall d a r, fs_ok d -> resource d a = Some r -> loaded r = false ->
    exists d' r', res_load a d = Ret (1, ERROR_NONE) d' /\ fs_ok d' /\ root_res d' = root_res d /\
      resource d' a = Some r' /\ loaded r' = true /\
      (forall b, view d' b = view d b) /\ (forall b, data d' b = data d b) /\
      (forall b, is_Some (resource d b) -> is_Some (resource d' b));
  law_read : exists g, file_read = Some g /\
    forall d a r c start n, fs_ok d -> resource d a = Some r -> file r = true -> data d a = Some c ->
      0 <= start <= Z.of_nat (length c) -> 0 <= n ->
      g a start n d = Ret (take (Z.to_nat n) (drop (Z.to_nat start) c), ERROR_NONE) d;
  law_write : exists g, file_write = Some g /\
    forall d a r c start x, fs_ok d -> resource d a = Some r -> file r = true -> data d a = Some c ->
      0 <= start <= Z.of_nat (length c) -> start + Z.of_nat (length x) < 2147483648 ->
      exists d', g a start x d = Ret (Z.of_nat (length x), ERROR_NONE) d' /\ fs_ok d' /\ root_res d' = root_res d /\
        (forall b, resource d' b = resource d b) /\ (forall b, view d' b = view d b) /\
        (forall b, data d' b = if decide (b = a) then Some (splice c start x) else data d b);
  law_size : exists g, meta_read = Some g /\
    forall d a r c, fs_ok d -> resource d a = Some r -> file r = true -> data d a = Some c ->
      g a META_SIZE d = Ret (Z.of_nat (length c)) d;
}.

(** ** The meaning of the calls *)

Section spec.
Context {S : Type} `{LL : FilesystemLaws S}.
Implicit Types s : server S.

(** The child with a name, and the resource a path leads to. *)
Definition child_named (d : S) (a : Z) (n : str) : option Z :=
  r ← view d a; list_find (fun c => name <$> view d c = Some n) (children r) ≫= fun p => Some p.2.

Fixpoint resolve (d : S) (ps : list str) (a : Z) : option Z :=
  match ps with
  | [] => Some a
  | p :: ps => c ← child_named d a p; resolve d ps c
  end.

(** What a client does: it puts a path or data into its segment, calls, and takes the
    data out. *)
Inductive request :=
| Open (path : str) (oflag shmid : Z)
| Read (n count shmid : Z)
| Write (n : Z) (x : list Z) (shmid : Z)
| Seek (n off whence : Z).

Context `{MM : Malloc} `{GG : Garbage}.

Definition serve (id : Z) (q : request) : cmd (server S) (Z * list Z) :=
  match q with
  | Open path oflag shmid => shm_strcpy shmid path;; x ← fs_open id oflag shmid; mret (x, [])
  | Read n count shmid =>
      x ← fs_read id n count;
      y ← (if 0 <=? x then shm_read shmid 0 x else mret []); mret (x, y)
  | Write n x shmid => shm_write shmid 0 x;; r ← fs_write id n (Z.of_nat (length x)); mret (r, [])
  | Seek n off whence => x ← fs_seek id n off whence; mret (x, [])
  end.

Fixpoint serve_all (id : Z) (qs : list request) : cmd (server S) (list (Z * list Z)) :=
  match qs with
  | [] => mret []
  | q :: qs => x ← serve id q; xs ← serve_all id qs; mret (x :: xs)
  end.

(** The files of a mounted file system as a client thinks of them: for each number a
    resource, a position and a segment; the contents of the resources; the next number. *)
Record desk := Desk {
  table : gmap Z (Z * Z * Z);
  store : Z -> option (list Z);
  next : Z;
}.

(** A call is defined if the client's segment is one of [segs], it is large enough and the file does not
    grow over 2 GB; reading and writing are defined up to the end of a file. *)
Definition spec (d0 : S) (segs : gset Z) (bufsz : Z) (q : request) (t : desk) : option (Z * list Z * desk) :=
  match q with
  | Open path oflag shmid =>
      if decide (shmid ∈ segs /\ Forall (fun c => c <> 0) path /\ Z.of_nat (length path) < bufsz) then
        match resolve d0 (steps (parse path)) (root_res d0) with
        | None => Some (- ENOENT, [], t)
        | Some a =>
            r ← view d0 a;
            c ← store t a;
            if file r && (next t <? 2147483647) && (Z.of_nat (length c) <? 2147483648) then
              let p := if Z.land oflag O_APPEND =? 0 then 0 else Z.of_nat (length c) in
              Some (next t, [], Desk (<[next t := (a, p, shmid)]> (table t)) (store t) (next t + 1))
            else None
        end
      else None
  | Read n count shmid =>
      match table t !! n with
      | None => Some (- EBADF, [], t)
      | Some (a, p, g) =>
          c ← store t a;
          if (g =? shmid) && (0 <=? count) && (count <=? bufsz) && (p <=? Z.of_nat (length c)) &&
             (Z.of_nat (length c) <? 2147483648) then
            let x := take (Z.to_nat count) (drop (Z.to_nat p) c) in
            let k := Z.of_nat (length x) in
            Some (k, x, Desk (<[n := (a, p + k, g)]> (table t)) (store t) (next t))
          else None
      end
  | Write n x shmid =>
      let k := Z.of_nat (length x) in
      if decide (shmid ∈ segs /\ k <= bufsz) then
        match table t !! n with
        | None => Some (- EBADF, [], t)
        | Some (a, p, g) =>
            c ← store t a;
            if (g =? shmid) && (p <=? Z.of_nat (length c)) && (p + k <? 2147483648) then
              Some (k, [], Desk (<[n := (a, p + k, g)]> (table t))
                             (fun b => if decide (b = a) then Some (splice c p x) else store t b) (next t))
            else None
        end
      else None
  | Seek n off whence =>
      match table t !! n with
      | None => Some (- EBADF, [], t)
      | Some (a, p, g) =>
          c ← store t a;
          let to p' :=
            if (0 <=? p') && (p' <? 2147483648)
            then Some (p', [], Desk (<[n := (a, p', g)]> (table t)) (store t) (next t)) else None in
          if whence =? SEEK_SET then to off
          else if whence =? SEEK_CUR then to (p + off)
          else if whence =? SEEK_END then to (Z.of_nat (length c) + off)
          else Some (- EINVAL, [], t)
      end
  end.

Fixpoint spec_all (d0 : S) (segs : gset Z) (bufsz : Z) (qs : list request) (t : desk) : option (list (Z * list Z)) :=
  match qs with
  | [] => Some []
  | q :: qs => '(x, y, t') ← spec d0 segs bufsz q t; xs ← spec_all d0 segs bufsz qs t'; Some ((x, y) :: xs)
  end.

(** ** Steps of the server *)

Lemma filesystem_ok (i : nat) (f : cdi_fs_filesystem S) s : filesystems s !! i = Some f -> filesystem i s = Ret f s.
Proof. intros E. unfold filesystem. by rewrite E. Qed.

Lemma call_ok {A} (i : nat) (c : cmd S A) f x d s : filesystems s !! i = Some f -> c (drv f) = Ret x d ->
  call i c s = Ret x (set_filesystem i (Fs d (fsid f) (last_fh f) (files f)) s).
Proof. intros E Ec. unfold call. by rewrite E, Ec. Qed.

Lemma set_filesystem_same (i : nat) f s : filesystems s !! i = Some f ->
  set_filesystem i (Fs (drv f) (fsid f) (last_fh f) (files f)) s = s.
Proof. intros E. unfold set_filesystem. destruct s, f; simpl in *. by rewrite list_insert_id. Qed.

Lemma call_pure {A} (i : nat) (c : cmd S A) f x s : filesystems s !! i = Some f -> c (drv f) = Ret x (drv f) ->
  call i c s = Ret x s.
Proof. intros E Ec. rewrite (call_ok i c f x (drv f) s E Ec). by rewrite set_filesystem_same. Qed.

Lemma res_at_ok (i : nat) a f r s : filesystems s !! i = Some f -> fs_ok (drv f) -> resource (drv f) a = Some r ->
  res_at i a s = Ret r s.
Proof.
  intros E Hok Hr. unfold res_at. destruct (Z.eqb_spec a NULL) as [->|]; [rewrite law_null in Hr; done|].
  rewrite (bind_Ret _ _ _ _ _ (filesystem_ok i f s E)). by rewrite Hr.
Qed.

Lemma set_filesystem_lookup (i : nat) f f' s : filesystems s !! i = Some f ->
  filesystems (set_filesystem i f' s) !! i = Some f'.
Proof. intros E. apply list_lookup_insert_eq. by apply lookup_lt_Some in E. Qed.

Lemma set_filesystem_twice (i : nat) f f' s : set_filesystem i f (set_filesystem i f' s) = set_filesystem i f s.
Proof. unfold set_filesystem. simpl. by rewrite list_insert_insert_eq. Qed.

(** The driver has only loaded resources. *)
Record loads (d d' : S) : Prop := {
  lo_ok : fs_ok d';
  lo_root : root_res d' = root_res d;
  lo_view b : view d' b = view d b;
  lo_data b : data d' b = data d b;
  lo_live b : is_Some (resource d b) -> is_Some (resource d' b);
}.

Lemma loads_refl d : fs_ok d -> loads d d.
Proof. by split. Qed.

Lemma loads_trans d1 d2 d3 : loads d1 d2 -> loads d2 d3 -> loads d1 d3.
Proof. intros [] []. split; auto; congruence. Qed.

(** The server's state with another state of the driver. *)
Definition with_drv (i : nat) (f : cdi_fs_filesystem S) (d : S) s : server S :=
  set_filesystem i (Fs d (fsid f) (last_fh f) (files f)) s.

Lemma loadres_ok (i : nat) a f s : filesystems s !! i = Some f -> fs_ok (drv f) -> is_Some (resource (drv f) a) ->
  exists d r, cdi_fs_loadres i a s = Ret (0, ERROR_NONE) (with_drv i f d s) /\ loads (drv f) d /\
    resource d a = Some r /\ loaded r = true.
Proof.
  intros E Hok (r & Hr). unfold cdi_fs_loadres. rewrite (bind_Ret _ _ _ _ _ (res_at_ok i a f r s E Hok Hr)).
  destruct (loaded r) eqn:Hl.
  - exists (drv f), r. unfold with_drv. rewrite set_filesystem_same by done. by repeat split.
  - destruct (law_load (drv f) a r Hok Hr Hl) as (d' & r' & El & Hok' & Hroot & Hr' & Hl' & Hv & Hd & Hlive).
    rewrite (bind_Ret _ _ _ _ _ (call_ok i _ f _ _ s E El)). exists d', r'. by repeat split.
Qed.

Lemma find_child_ok (i : nat) n f s : filesystems s !! i = Some f -> fs_ok (drv f) -> forall cs,
  Forall (fun c => is_Some (resource (drv f) c)) cs ->
  find_child i cs n s = Ret (default NULL (list_find (fun c => name <$> view (drv f) c = Some n) cs ≫= fun p => Some p.2)) s.
Proof.
  intros E Hok. induction cs as [|c cs IH]; intros Hcs; [done|]. apply Forall_cons in Hcs as [(r & Hr) Hcs].
  cbn [find_child]. rewrite (bind_Ret _ _ _ _ _ (res_at_ok i c f r s E Hok Hr)).
  destruct (law_kept (drv f) c r Hok Hr) as (v & Hv & Hk). simpl. rewrite Hv. simpl.
  destruct Hk as (Hname & _). rewrite Hname. destruct (decide (name r = n)) as [He|Hne].
  - rewrite bool_decide_true by done. rewrite decide_True by (by rewrite He). done.
  - rewrite bool_decide_false by done. rewrite decide_False by congruence. rewrite (IH Hcs).
    by destruct (list_find _ cs) as [[k x]|].
Qed.

Lemma find_In (P : Z -> Prop) `{forall x, Decision (P x)} cs c :
  (list_find P cs ≫= fun p => Some p.2) = Some c -> c ∈ cs.
Proof.
  destruct (list_find P cs) as [[k x]|] eqn:E; [|done]. simpl. intros [= <-].
  apply list_find_Some in E as (E & _). by eapply list_elem_of_lookup_2.
Qed.

Lemma resolve_ext d d' ps : (forall b, view d' b = view d b) -> forall a, resolve d' ps a = resolve d ps a.
Proof.
  intros Hv. induction ps as [|p ps IH]; intros a; [done|]. simpl. unfold child_named. rewrite Hv.
  destruct (view d a) as [r|]; [|done]. simpl.
  assert (list_find (fun c => name <$> view d' c = Some p) (children r) =
          list_find (fun c => name <$> view d c = Some p) (children r)) as ->.
  { apply list_find_ext. intros c. by rewrite Hv. }
  destruct (list_find _ _) as [[k x]|]; [|done]. simpl. apply IH.
Qed.

Lemma scan_all (cs : list Z) : NULL ∉ cs -> Seq.scan cs = cs.
Proof. apply scan_nonnull. Qed.

Lemma walk_ok (i : nat) ps : forall a f s, filesystems s !! i = Some f -> fs_ok (drv f) ->
  is_Some (resource (drv f) a) ->
  exists d, walk i ps a s = Ret (default NULL (resolve (drv f) (steps ps) a)) (with_drv i f d s) /\ loads (drv f) d /\
    (forall c, resolve (drv f) (steps ps) a = Some c -> is_Some (resource d c)).
Proof.
  induction ps as [|p ps IH]; intros a f s E Hok Ha.
  { exists (drv f). unfold with_drv. rewrite set_filesystem_same by done.
    split; [done|]. split; [by apply loads_refl|]. by intros c [= <-]. }
  cbn [walk]. unfold steps. rewrite filter_cons. destruct (is_empty p) eqn:Hp.
  { rewrite decide_False by done. by apply IH. }
  rewrite decide_True by done. fold (steps ps).
  destruct (loadres_ok i a f s E Hok Ha) as (d & r & El & Hl & Hr & Hld). rewrite (bind_Ret _ _ _ _ _ El).
  set (f1 := Fs d (fsid f) (last_fh f) (files f)).
  assert (E1 : filesystems (with_drv i f d s) !! i = Some f1) by (by apply (set_filesystem_lookup i f)).
  pose proof (lo_ok _ _ Hl) as Hok1.
  rewrite (bind_Ret _ _ _ _ _ (res_at_ok i a f1 r _ E1 Hok1 Hr)).
  pose proof (law_children d a r Hok1 Hr Hld) as Hcs.
  rewrite scan_all by (intros Hin; rewrite Forall_forall in Hcs; destruct (Hcs _ Hin) as (? & Hx); rewrite law_null in Hx; done).
  rewrite (bind_Ret _ _ _ _ _ (find_child_ok i p f1 _ E1 Hok1 _ Hcs)). simpl (drv f1).
  cbn [resolve]. unfold child_named. rewrite <- (lo_view _ _ Hl a), (law_loaded d a r Hok1 Hr Hld). simpl.
  assert (list_find (fun c => name <$> view (drv f) c = Some p) (children r) =
          list_find (fun c => name <$> view d c = Some p) (children r)) as ->.
  { apply list_find_ext. intros c. by rewrite (lo_view _ _ Hl). }
  destruct (list_find _ (children r) ≫= _) as [c|] eqn:Ec; simpl.
  - apply find_In in Ec. rewrite Forall_forall in Hcs. destruct (Hcs _ Ec) as (rc & Hrc).
    rewrite (proj2 (Z.eqb_neq c NULL)) by (intros ->; rewrite law_null in Hrc; done).
    destruct (IH c f1 _ E1 Hok1) as (d2 & Ew & Hl2 & Hres); [by exists rc|]. exists d2. simpl (drv f1) in *.
    rewrite Ew. unfold with_drv. rewrite set_filesystem_twice.
    rewrite (resolve_ext (drv f) d) in * by apply Hl. split; [done|]. split; [by eapply loads_trans|done].
  - exists d. done.
Qed.

(** Looking up a path gives the resource that its steps lead to, and NULL if there is
    none; resources on the way are loaded, nothing else changes. *)
Theorem path2res_correct (i : nat) path f s :
  filesystems s !! i = Some f -> fs_ok (drv f) ->
  exists d, cdi_fs_path2res i path s =
      Ret (default NULL (resolve (drv f) (steps (parse path)) (root_res (drv f)))) (with_drv i f d s) /\ loads (drv f) d.
Proof.
  intros E Hok. unfold cdi_fs_path2res. rewrite (bind_Ret _ _ _ _ _ (filesystem_ok i f s E)).
  destruct (walk_ok i (parse path) (root_res (drv f)) f s E Hok (law_root _ Hok)) as (d & Ew & Hl & _). eauto.
Qed.

(** ** Open files *)

Abbreviation table_of_handles := (gmap Z cdi_fs_file).

Definition entry (x : cdi_fs_file) : Z * Z * Z := (f_res x, pos x, shmbuf x).

(** Handle [h] of the file system is the open file [x]. *)
Definition opened (f : cdi_fs_filesystem S) (H : table_of_handles) (h : Z) (x : cdi_fs_file) : Prop :=
  h ∈ files f /\ H !! h = Some x.

Definition is_regular (d : S) (a : Z) : Prop := exists r, resource d a = Some r /\ file r = true.

Definition file_ok (segs : gset Z) (d : S) (x : cdi_fs_file) : Prop :=
  f_type x = FILE_REG /\ is_regular d (f_res x) /\ 0 <= pos x < 2147483648 /\ shmbuf x ∈ segs.

(** File system [f] with the handles [H] is the desk [t]. *)
Record serving (d0 : S) (segs : gset Z) (f : cdi_fs_filesystem S) (H : table_of_handles) (t : desk) : Prop := {
  se_ok : fs_ok (drv f);
  se_root : root_res (drv f) = root_res d0;
  se_view b : view (drv f) b = view d0 b;
  se_store b : store t b = data (drv f) b;
  se_next : next t = last_fh f;
  se_nonneg : 0 <= next t;
  se_live h : h ∈ files f -> h <> NULL /\ is_Some (H !! h);
  se_file h x : opened f H h x -> file_ok segs (drv f) x /\ fh x < next t /\ table t !! fh x = Some (entry x);
  se_table n e : table t !! n = Some e -> exists h x, opened f H h x /\ fh x = n;
  se_uniq h h' x x' : opened f H h x -> opened f H h' x' -> fh x = fh x' -> h = h';
}.

Record rep (d0 : S) (segs : gset Z) (bufsz id : Z) (i : nat) s (t : desk) : Prop := {
  rep_id : find_fsid (filesystems s) 0 id = Some i;
  rep_segs g : g ∈ segs -> exists sg, shm s !! g = Some sg /\ bufsz <= Z.of_nat (length (bytes sg));
  rep_fs : exists f, filesystems s !! i = Some f /\ serving d0 segs f (handles s) t;
}.

Lemma find_fsid_ge (l : list (cdi_fs_filesystem S)) id : forall k i, find_fsid l k id = Some i -> (k <= i)%nat.
Proof.
  induction l as [|g l IH]; intros k i E; simpl in E; [done|].
  destruct (_ =? _); [injection E as <-; lia|]. apply IH in E. lia.
Qed.

Lemma find_fsid_set (l : list (cdi_fs_filesystem S)) f f' : forall k i id,
  find_fsid l k id = Some (k + i)%nat -> l !! i = Some f -> fsid f' = fsid f ->
  find_fsid (<[i := f']> l) k id = Some (k + i)%nat.
Proof.
  induction l as [|g l IH]; intros k i id Hf Hi Hid; [done|]. simpl in Hf.
  destruct i as [|i]; simpl in Hi |- *.
  - injection Hi as ->. rewrite Hid. destruct (fsid f =? id); [done|].
    apply find_fsid_ge in Hf. lia.
  - destruct (fsid g =? id); [injection Hf as Hf; lia|].
    replace (k + Datatypes.S i)%nat with (Datatypes.S k + i)%nat in * by lia. by apply IH.
Qed.

(** Replacing the file system and the handles. *)
Lemma rep_change d0 segs bufsz id i s t f f' H' t' :
  rep d0 segs bufsz id i s t -> filesystems s !! i = Some f -> fsid f' = fsid f -> serving d0 segs f' H' t' ->
  rep d0 segs bufsz id i (Server (<[i := f']> (filesystems s)) H' (fifos s) (shm s)) t'.
Proof.
  intros [H1 H2 _] Hf Hid Hs. split; simpl.
  - by apply (find_fsid_set _ f f' 0 i id).
  - done.
  - exists f'. split; [|done]. apply list_lookup_insert_eq. by apply lookup_lt_Some in Hf.
Qed.

Lemma rep_handles d0 segs bufsz id i s t f H' t' :
  rep d0 segs bufsz id i s t -> filesystems s !! i = Some f -> serving d0 segs f H' t' ->
  rep d0 segs bufsz id i (Server (filesystems s) H' (fifos s) (shm s)) t'.
Proof. intros [H1 H2 _] Hf Hs. split; simpl; eauto. Qed.

Lemma find_handle_ok s n : forall hs, Forall (fun h => h <> NULL /\ is_Some (handles s !! h)) hs ->
  (exists h x, find_handle hs n s = Ret h s /\ h <> NULL /\ h ∈ hs /\ handles s !! h = Some x /\ fh x = n) \/
  (find_handle hs n s = Ret NULL s /\ forall h x, h ∈ hs -> handles s !! h = Some x -> fh x <> n).
Proof.
  induction hs as [|h hs IH]; intros Hl; [right; split; [done|set_solver]|].
  apply Forall_cons in Hl as [[Hn (x & Hx)] Hl]. cbn [find_handle].
  assert (Eh : handle h s = Ret x s) by (unfold handle; by rewrite (proj2 (Z.eqb_neq h NULL)), Hx).
  rewrite (bind_Ret _ _ _ _ _ Eh). destruct (Z.eqb_spec (fh x) n) as [He|Hne].
  - left. exists h, x. repeat split; auto. set_solver.
  - destruct (IH Hl) as [(h' & x' & E & ? & ? & ? & ?)|[E Hno]].
    + left. exists h', x'. repeat split; auto. set_solver.
    + right. split; [done|]. intros h' x' Hin Hx'. apply elem_of_cons in Hin as [->|Hin]; [congruence|eauto].
Qed.

(** A call with the number of an open file gets that file. *)
Lemma with_file_ok d0 segs bufsz id i s t n e c :
  rep d0 segs bufsz id i s t -> table t !! n = Some e ->
  exists h f x, with_file id n c s = c i h s /\ filesystems s !! i = Some f /\ serving d0 segs f (handles s) t /\
    opened f (handles s) h x /\ handle h s = Ret x s /\ fh x = n /\ e = entry x.
Proof.
  intros [H1 H2 (f & Hf & Hs)] He. unfold with_file, with_fs, cdi_fs_find. rewrite bind_assoc, bind_gets, bind_ret.
  cbn [Datatypes.id]. rewrite H1. unfold cdi_fs_file_find.
  rewrite bind_assoc, (bind_Ret _ _ _ _ _ (filesystem_ok i f s Hf)).
  rewrite scan_all by (intros Hin; by apply (se_live _ _ _ _ _ Hs) in Hin as [? _]).
  destruct (se_table _ _ _ _ _ Hs n e He) as (h & x & Ho & Hx).
  destruct (find_handle_ok s n (files f)) as [(h' & x' & E & Hn & Hin & Hx' & Hfh)|[_ Hno]].
  - apply Forall_forall. apply Hs.
  - rewrite (bind_Ret _ _ _ _ _ E), (proj2 (Z.eqb_neq h' NULL)) by done. exists h', f, x'.
    pose proof (se_file _ _ _ _ _ Hs h' x' (conj Hin Hx')) as (_ & _ & Ht). rewrite Hfh in Ht.
    do 4 (split; [done|]). split; [unfold handle; by rewrite (proj2 (Z.eqb_neq h' NULL)), Hx'|]. split; [done|congruence].
  - exfalso. destruct Ho as [Hin Hh]. by apply (Hno h x Hin Hh).
Qed.

Lemma with_file_bad d0 segs bufsz id i s t n c :
  rep d0 segs bufsz id i s t -> table t !! n = None -> with_file id n c s = Ret (- EBADF) s.
Proof.
  intros [H1 H2 (f & Hf & Hs)] He. unfold with_file, with_fs, cdi_fs_find. rewrite bind_assoc, bind_gets, bind_ret.
  cbn [Datatypes.id]. rewrite H1. unfold cdi_fs_file_find.
  rewrite bind_assoc, (bind_Ret _ _ _ _ _ (filesystem_ok i f s Hf)).
  rewrite scan_all by (intros Hin; by apply (se_live _ _ _ _ _ Hs) in Hin as [? _]).
  destruct (find_handle_ok s n (files f)) as [(h' & x' & _ & _ & Hin & Hx' & Hfh)|[E _]].
  - apply Forall_forall. apply Hs.
  - exfalso. destruct (se_file _ _ _ _ _ Hs h' x' (conj Hin Hx')) as (_ & _ & Ht). congruence.
  - by rewrite (bind_Ret _ _ _ _ _ E).
Qed.

(** Moving the position of a file. *)
Lemma serving_pos d0 segs f H t h x p :
  serving d0 segs f H t -> opened f H h x -> 0 <= p < 2147483648 ->
  serving d0 segs f (<[h := set_pos p x]> H)
    (Desk (<[fh x := (f_res x, p, shmbuf x)]> (table t)) (store t) (next t)).
Proof.
  intros Hs Ho Hp. destruct (se_file _ _ _ _ _ Hs h x Ho) as ((Ht & Hr & _ & Hg) & Hlt & _).
  assert (Hback : forall h' x', opened f (<[h := set_pos p x]> H) h' x' ->
    exists x0, opened f H h' x0 /\ fh x' = fh x0 /\ (h' = h /\ x' = set_pos p x \/ h' <> h /\ x' = x0)).
  { intros h' x' [Hin E]. apply lookup_insert_Some in E as [(<- & <-)|(Hne & E)].
    - exists x. split; [done|]. auto.
    - exists x'. split; [done|]. auto. }
  split; simpl; try apply Hs.
  - intros h' Hin. destruct (se_live _ _ _ _ _ Hs h' Hin) as [? (y & Hy)]. split; [done|].
    destruct (decide (h' = h)) as [->|]; [rewrite lookup_insert_eq|rewrite lookup_insert_ne by done]; eauto.
  - intros h' x' Ho'. destruct (Hback h' x' Ho') as (x0 & Hx0 & Hfh & [[-> ->]|[Hne ->]]).
    + split; [done|]. split; [done|]. apply lookup_insert_eq.
    + destruct (se_file _ _ _ _ _ Hs h' x0 Hx0) as (? & ? & ?). repeat split; auto; try apply H0.
      rewrite lookup_insert_ne; [done|]. intros Heq. apply Hne. by eapply se_uniq.
  - intros n e He. apply lookup_insert_Some in He as [(<- & _)|(Hne & He)].
    + exists h, (set_pos p x). split; [|done]. split; [apply Ho|apply lookup_insert_eq].
    + destruct (se_table _ _ _ _ _ Hs n e He) as (h' & x' & [Hin Hx'] & Hn). exists h', x'. split; [|done].
      split; [done|]. rewrite lookup_insert_ne; [done|]. intros ->. destruct Ho as [_ Ho]. congruence.
  - intros h1 h2 x1 x2 Ho1 Ho2 Heq. apply Hback in Ho1 as (y1 & Hy1 & E1 & _). apply Hback in Ho2 as (y2 & Hy2 & E2 & _).
    eapply (se_uniq _ _ _ _ _ Hs); eauto. congruence.
Qed.

(** The driver loads resources: files stay files. *)
Lemma loads_regular d d' a : fs_ok d -> loads d d' -> is_regular d a -> is_regular d' a.
Proof.
  intros Hok Hl (r & Hr & Hf). destruct (lo_live _ _ Hl a) as (r' & Hr'); [eauto|].
  destruct (law_kept d a r Hok Hr) as (v & Hv & _ & Hvf & _).
  destruct (law_kept d' a r' (lo_ok _ _ Hl) Hr') as (v' & Hv' & _ & Hvf' & _).
  rewrite (lo_view _ _ Hl), Hv in Hv'. injection Hv' as <-. exists r'. split; congruence.
Qed.

Lemma serving_load d0 segs f H t d' :
  serving d0 segs f H t -> loads (drv f) d' ->
  serving d0 segs (Fs d' (fsid f) (last_fh f) (files f)) H t.
Proof.
  intros [Ho Hr Hv Hd Hn Hnn Hl Hf Ht Hu] Hlo. split; simpl; auto.
  - apply Hlo.
  - rewrite <- Hr. apply Hlo.
  - intros b. rewrite <- Hv. apply Hlo.
  - intros b. rewrite Hd. symmetry. apply Hlo.
  - intros h x Hx. destruct (Hf h x Hx) as ((Hty & Hreg & Hp & Hg) & Hlt & Htab).
    split; [|done]. split; [done|]. split; [|done]. by eapply loads_regular.
Qed.

(** The driver changes the contents of a file. *)
Lemma serving_data d0 segs f H t d' a c :
  serving d0 segs f H t -> fs_ok d' -> root_res d' = root_res (drv f) ->
  (forall b, resource d' b = resource (drv f) b) -> (forall b, view d' b = view (drv f) b) ->
  (forall b, data d' b = if decide (b = a) then Some c else data (drv f) b) ->
  serving d0 segs (Fs d' (fsid f) (last_fh f) (files f)) H
    (Desk (table t) (fun b => if decide (b = a) then Some c else store t b) (next t)).
Proof.
  intros [Ho Hr Hv Hd Hn Hnn Hl Hf Ht Hu] Hok Hroot Hres Hview Hdata. split; simpl; auto.
  - congruence.
  - intros b. by rewrite Hview.
  - intros b. rewrite Hdata. case_decide; auto.
  - intros h x Hx. destruct (Hf h x Hx) as ((Hty & (r & Hreg & Hfile) & Hp & Hg) & Hlt & Htab).
    split; [|done]. split; [done|]. split; [|done]. exists r. by rewrite Hres.
Qed.

(** A new file gets the next number. *)
Lemma serving_open d0 segs f H t h a p g :
  serving d0 segs f H t -> h <> NULL -> H !! h = None -> is_regular (drv f) a -> 0 <= p < 2147483648 -> g ∈ segs ->
  serving d0 segs (Fs (drv f) (fsid f) (last_fh f + 1) (h :: files f))
    (<[h := File a (next t) FILE_REG p g NULL [] 0 0 None]> H)
    (Desk (<[next t := (a, p, g)]> (table t)) (store t) (next t + 1)).
Proof.
  intros Hs Hn Hfresh Hreg Hp Hg. set (x := File _ _ _ _ _ _ _ _ _ _). set (f' := Fs _ _ _ _).
  assert (Hback : forall h' x', opened f' (<[h := x]> H) h' x' ->
    (h' = h /\ x' = x) \/ (h' <> h /\ opened f H h' x')).
  { intros h' x' [Hin E]. apply lookup_insert_Some in E as [(<- & <-)|(Hne & E)]; [auto|]. right. split; [done|].
    split; [|done]. simpl in Hin. set_solver. }
  assert (Hold : forall h' x', opened f H h' x' -> h' <> h /\ opened f' (<[h := x]> H) h' x').
  { intros h' x' [Hin E]. assert (h' <> h) by congruence. split; [done|]. split; [simpl; set_solver|].
    by rewrite lookup_insert_ne. }
  pose proof (se_nonneg _ _ _ _ _ Hs) as Hnn.
  split; try apply Hs; simpl.
  - by rewrite (se_next _ _ _ _ _ Hs).
  - lia.
  - intros h' Hin. apply elem_of_cons in Hin as [->|Hin]; [rewrite lookup_insert_eq; eauto|].
    destruct (se_live _ _ _ _ _ Hs h' Hin) as [? (y & Hy)]. split; [done|].
    rewrite lookup_insert_ne by congruence. eauto.
  - intros h' x' Ho. apply Hback in Ho as [[-> ->]|[Hne Ho]].
    + split; [done|]. split; [simpl; lia|]. apply lookup_insert_eq.
    + destruct (se_file _ _ _ _ _ Hs h' x' Ho) as (? & ? & ?). split; [done|]. split; [lia|].
      rewrite lookup_insert_ne by lia. done.
  - intros n e He. apply lookup_insert_Some in He as [(<- & _)|(Hne & He)].
    + exists h, x. split; [|done]. split; [simpl; set_solver|apply lookup_insert_eq].
    + destruct (se_table _ _ _ _ _ Hs n e He) as (h' & x' & Ho & Hfh). exists h', x'. split; [|done]. by apply Hold.
  - intros h1 h2 x1 x2 Ho1 Ho2 Heq.
    apply Hback in Ho1 as [[-> ->]|[Hn1 Ho1]]; apply Hback in Ho2 as [[-> ->]|[Hn2 Ho2]]; auto.
    + exfalso. destruct (se_file _ _ _ _ _ Hs h2 x2 Ho2) as (_ & ? & _). simpl in Heq. lia.
    + exfalso. destruct (se_file _ _ _ _ _ Hs h1 x1 Ho1) as (_ & ? & _). simpl in Heq. lia.
    + by eapply (se_uniq _ _ _ _ _ Hs).
Qed.

(** *** Shared memory *)

Definition with_shm (m : gmap Z segment) s : server S := Server (filesystems s) (handles s) (fifos s) m.

Lemma shm_write_ok d0 segs bufsz id i s t g x :
  rep d0 segs bufsz id i s t -> g ∈ segs -> Z.of_nat (length x) <= bufsz ->
  exists sg, shm s !! g = Some sg /\ bufsz <= Z.of_nat (length (bytes sg)) /\
    let s' := with_shm (<[g := Segment (splice (bytes sg) 0 x) (nattch sg)]> (shm s)) s in
    shm_write g 0 x s = Ret tt s' /\ rep d0 segs bufsz id i s' t.
Proof.
  intros [H1 H2 H3] Hg Hx. destruct (H2 g Hg) as (sg & Hsg & Hl). exists sg. split; [done|]. split; [done|]. split.
  - unfold shm_write. rewrite Hsg, (proj2 (Z.leb_le _ _)) by lia. done.
  - split; simpl; auto. intros g' Hg'. destruct (decide (g' = g)) as [->|].
    + rewrite lookup_insert_eq. eexists. split; [done|]. simpl. rewrite length_splice; lia.
    + rewrite lookup_insert_ne by done. auto.
Qed.

(** Attaching and detaching. *)
Lemma rep_attach d0 segs bufsz id i s t g sg k :
  rep d0 segs bufsz id i s t -> shm s !! g = Some sg ->
  rep d0 segs bufsz id i (with_shm (<[g := Segment (bytes sg) k]> (shm s)) s) t.
Proof.
  intros [H1 H2 H3] Hsg. split; simpl; auto. intros g' Hg'. destruct (decide (g' = g)) as [->|].
  - rewrite lookup_insert_eq. destruct (H2 g Hg') as (sg' & Hsg' & Hl). eexists. split; [done|]. simpl. congruence.
  - rewrite lookup_insert_ne by done. auto.
Qed.

(** *** The calls, one by one *)

(** The file [h] moves to [p] in the state [s]. *)
Lemma move_ok d0 segs bufsz id i s t f h x p :
  rep d0 segs bufsz id i s t -> filesystems s !! i = Some f -> serving d0 segs f (handles s) t ->
  opened f (handles s) h x -> 0 <= p < 2147483648 ->
  exists s', set_handle h (set_pos p x) s = Ret tt s' /\
    rep d0 segs bufsz id i s' (Desk (<[fh x := (f_res x, p, shmbuf x)]> (table t)) (store t) (next t)).
Proof. intros Hrep Hf Hs Ho Hp. eexists. split; [done|]. eapply rep_handles; eauto. by apply serving_pos. Qed.

(** If nothing is read or written the position is not set; it is the same. *)
Lemma stay_ok d0 segs bufsz id i s t f h x :
  rep d0 segs bufsz id i s t -> filesystems s !! i = Some f -> serving d0 segs f (handles s) t ->
  opened f (handles s) h x ->
  rep d0 segs bufsz id i s (Desk (<[fh x := (f_res x, pos x, shmbuf x)]> (table t)) (store t) (next t)).
Proof.
  intros Hrep Hf Hs Ho. destruct (se_file _ _ _ _ _ Hs h x Ho) as (_ & _ & Ht).
  rewrite insert_id by exact Ht. by destruct t.
Qed.

Lemma filesize_ok i s f a : filesystems s !! i = Some f -> fs_ok (drv f) -> is_regular (drv f) a ->
  exists c, data (drv f) a = Some c /\ cdi_fs_filesize i a s = Ret (w32 (Z.of_nat (length c))) s.
Proof.
  intros Hf Hok (r & Hr & Hfile). destruct (law_file _ _ _ Hok Hr Hfile) as (c & Hc). exists c. split; [done|].
  unfold cdi_fs_filesize. rewrite (bind_Ret _ _ _ _ _ (res_at_ok i a f r s Hf Hok Hr)).
  destruct law_size as (g & -> & Hg). by rewrite (bind_Ret _ _ _ _ _ (call_pure i _ f _ s Hf (Hg _ _ _ _ Hok Hr Hfile Hc))).
Qed.

Lemma w32_add a b : w32 (w32 a + b) = w32 (a + b).
Proof. unfold w32. apply Zplus_mod_idemp_l. Qed.

Lemma bind_run {A B} (c c' : cmd (server S) A) (k : A -> cmd (server S) B) s : c s = c' s -> (c ≫= k) s = (c' ≫= k) s.
Proof. unfold mbind, cmd_bind. by intros ->. Qed.

(** Enter the body of a call with the open file of number [n], if there is one. *)
Ltac enter_file Hrep n He :=
  match goal with
  | |- context [with_file ?id n ?c] =>
      let e := fresh "e" in
      destruct (table _ !! n) as [e|] eqn:He;
      [ let h := fresh "h" in let f := fresh "f" in let z := fresh "z" in let E := fresh "E" in
        destruct (with_file_ok _ _ _ _ _ _ _ n e c Hrep He) as (h & f & z & E & Hf & Hs & Ho & Eh & Hn & ->);
        rewrite (bind_run _ _ _ _ E); clear E; cbn [entry] in *;
        rewrite bind_assoc, (bind_Ret _ _ _ _ _ Eh);
        destruct (se_file _ _ _ _ _ Hs h z Ho) as ((Hty & Hreg & Hpos & Hg) & Hlt & Ht); rewrite Hty;
        pose proof (se_ok _ _ _ _ _ Hs) as Hok
      | rewrite (bind_Ret _ _ _ _ _ (with_file_bad _ _ _ _ _ _ _ n c Hrep He)) ]
  end.

Lemma bad_number d0 segs bufsz id i s t x y t' :
  rep d0 segs bufsz id i s t -> Some (- EBADF, [], t) = Some (x, y, t') ->
  exists s', (mret (- EBADF, []) : cmd (server S) (Z * list Z)) s = Ret (x, y) s' /\ rep d0 segs bufsz id i s' t'.
Proof. intros Hrep [= <- <- <-]. by exists s. Qed.

Lemma client_seek d0 segs bufsz id i s t n off whence x y t' :
  rep d0 segs bufsz id i s t -> spec d0 segs bufsz (Seek n off whence) t = Some (x, y, t') ->
  exists s', serve id (Seek n off whence) s = Ret (x, y) s' /\ rep d0 segs bufsz id i s' t'.
Proof.
  intros Hrep Hsp. cbn [spec serve] in *. unfold fs_seek. enter_file Hrep n He; [|by eapply (bad_number _ _ _ _ _ _ t)].
  destruct (filesize_ok i s f (f_res z) Hf Hok Hreg) as (c & Hc & Esz).
  rewrite (se_store _ _ _ _ _ Hs), Hc in Hsp. simpl in Hsp.
  assert (Hgo : forall p, 0 <= p < 2147483648 ->
    exists s', ((set_handle h (set_pos p z);; mret (s32 p)) ≫= (fun x => mret (x, [] : list Z))) s = Ret (p, []) s' /\
      rep d0 segs bufsz id i s' (Desk (<[n := (f_res z, p, shmbuf z)]> (table t)) (store t) (next t))).
  { intros p Hp. destruct (move_ok _ _ _ _ _ _ _ _ _ _ p Hrep Hf Hs Ho Hp) as (s' & E & Hrep').
    exists s'. rewrite bind_assoc, (bind_Ret _ _ _ _ _ E), bind_ret, s32_small by lia. by rewrite <- Hn. }
  assert (Hw : forall p, 0 <= p < 2147483648 -> w64 p = p /\ w32 p = p).
  { intros p Hp. split; [apply Z.mod_small|apply w32_small]; lia. }
  rewrite bind_assoc.
  destruct (whence =? SEEK_SET); [|destruct (whence =? SEEK_CUR); [|destruct (whence =? SEEK_END)]].
  - rewrite bind_ret. case_match eqn:Hb; [|done]. injection Hsp as <- <- <-. rewrite (proj1 (Hw off ltac:(lia))).
    apply Hgo. lia.
  - rewrite bind_ret. case_match eqn:Hb; [|done]. injection Hsp as <- <- <-. rewrite (proj1 (Hw (pos z + off) ltac:(lia))).
    apply Hgo. lia.
  - rewrite bind_assoc, (bind_Ret _ _ _ _ _ Esz), bind_ret. case_match eqn:Hb; [|done]. injection Hsp as <- <- <-.
    rewrite w32_add, (proj2 (Hw (Z.of_nat (length c) + off) ltac:(lia))). apply Hgo. lia.
  - injection Hsp as <- <- <-. by exists s.
Qed.

(** Setting the position after [k] bytes; with none it stays. *)
Lemma advance_ok d0 segs bufsz id i s t f h x k :
  rep d0 segs bufsz id i s t -> filesystems s !! i = Some f -> serving d0 segs f (handles s) t ->
  opened f (handles s) h x -> 0 <= k -> pos x + k < 2147483648 ->
  exists s', (if 0 <? k then set_handle h (set_pos (w64 (pos x + k)) x) else mret tt) s = Ret tt s' /\
    shm s' = shm s /\
    rep d0 segs bufsz id i s' (Desk (<[fh x := (f_res x, pos x + k, shmbuf x)]> (table t)) (store t) (next t)).
Proof.
  intros Hrep Hf Hs Ho Hk Hlt. destruct (se_file _ _ _ _ _ Hs h x Ho) as ((_ & _ & Hp & _) & _).
  destruct (Z.ltb_spec 0 k).
  - unfold w64. rewrite Z.mod_small by lia. eexists. split; [reflexivity|]. split; [done|].
    eapply rep_handles; eauto. apply serving_pos; auto. lia.
  - exists s. split; [done|]. split; [done|]. replace (pos x + k) with (pos x) by lia. by eapply stay_ok.
Qed.

Lemma rep_same_fs d0 segs bufsz id i s t m : rep d0 segs bufsz id i (with_shm m s) t ->
  forall f, filesystems s !! i = Some f -> serving d0 segs f (handles s) t.
Proof. intros [_ _ (f' & Hf' & Hs')] f Hf. simpl in *. rewrite Hf in Hf'. by injection Hf' as <-. Qed.

Lemma client_read d0 segs bufsz id i s t n count g x y t' :
  bufsz < 2147483648 ->
  rep d0 segs bufsz id i s t -> spec d0 segs bufsz (Read n count g) t = Some (x, y, t') ->
  exists s', serve id (Read n count g) s = Ret (x, y) s' /\ rep d0 segs bufsz id i s' t'.
Proof.
  intros Hbuf Hrep Hsp. cbn [spec serve] in *. unfold fs_read. enter_file Hrep n He; [|by eapply (bad_number _ _ _ _ _ _ t)].
  destruct Hreg as (r & Hr & Hfile). destruct (law_file _ _ _ Hok Hr Hfile) as (c & Hc).
  rewrite (se_store _ _ _ _ _ Hs), Hc in Hsp. simpl in Hsp. case_match eqn:Hb; [|done].
  rewrite !andb_true_iff in Hb. destruct Hb as ((((Hb1 & Hb2) & Hb3) & Hb4) & Hb5).
  apply Z.eqb_eq in Hb1. subst g. injection Hsp as <- <- <-.
  set (out := take (Z.to_nat count) (drop (Z.to_nat (pos z)) c)).
  assert (Hout : Z.of_nat (length out) <= count /\ pos z + Z.of_nat (length out) <= Z.of_nat (length c)).
  { unfold out. rewrite length_take, length_drop. lia. }
  rewrite bind_assoc, (bind_Ret _ _ _ _ _ (res_at_ok i _ f r s Hf Hok Hr)). rewrite Hfile. cbn [negb].
  destruct law_read as (rd & -> & Hrd).
  rewrite bind_assoc, (bind_Ret _ _ _ _ _ (call_pure i _ f _ s Hf
    (Hrd _ _ _ c (pos z) count Hok Hr Hfile Hc ltac:(lia) ltac:(lia)))). fold out. cbn [fst snd].
  destruct (shm_write_ok _ _ _ _ _ _ _ (shmbuf z) out Hrep Hg ltac:(lia)) as (sg & Hsg & Hlen & Ew & Hrep1).
  rewrite bind_assoc, (bind_Ret _ _ _ _ _ Ew). rewrite s32_small by lia.
  pose proof (rep_same_fs _ _ _ _ _ _ _ _ Hrep1 f Hf) as Hs1.
  destruct (advance_ok _ _ _ _ _ _ _ f h z (Z.of_nat (length out)) Hrep1 Hf Hs1 Ho ltac:(lia) ltac:(lia))
    as (s2 & E2 & Hshm & Hrep2).
  rewrite bind_assoc, (bind_Ret _ _ _ _ _ E2), bind_ret. rewrite !(proj2 (Z.leb_le 0 _)) by lia.
  exists s2. split; [|by rewrite <- Hn].
  assert (Er : shm_read (shmbuf z) 0 (Z.of_nat (length out)) s2 = Ret out s2).
  { unfold shm_read. rewrite Hshm. simpl. rewrite lookup_insert_eq. simpl.
    rewrite length_splice by lia. rewrite (proj2 (Z.leb_le _ _)) by lia. by rewrite subrange_splice_same by lia. }
  by rewrite (bind_Ret _ _ _ _ _ Er).
Qed.

Lemma client_write d0 segs bufsz id i s t n data_ g x y t' :
  bufsz < 2147483648 ->
  rep d0 segs bufsz id i s t -> spec d0 segs bufsz (Write n data_ g) t = Some (x, y, t') ->
  exists s', serve id (Write n data_ g) s = Ret (x, y) s' /\ rep d0 segs bufsz id i s' t'.
Proof.
  intros Hbuf Hrep0 Hsp. cbn [spec serve] in *. case_decide as Hd; [|done]. destruct Hd as [Hin Hk].
  destruct (shm_write_ok _ _ _ _ _ _ _ g data_ Hrep0 Hin ltac:(lia)) as (sg & Hsg & Hlen & Ew & Hrep).
  rewrite (bind_Ret _ _ _ _ _ Ew). set (s1 := with_shm _ s) in *. unfold fs_write.
  enter_file Hrep n He; [|by eapply (bad_number _ _ _ _ _ _ t)].
  destruct Hreg as (r & Hr & Hfile). destruct (law_file _ _ _ Hok Hr Hfile) as (c & Hc).
  rewrite (se_store _ _ _ _ _ Hs), Hc in Hsp. simpl in Hsp. case_match eqn:Hb; [|done].
  rewrite !andb_true_iff in Hb. destruct Hb as ((Hb1 & Hb2) & Hb3). apply Z.eqb_eq in Hb1. subst g.
  injection Hsp as <- <- <-.
  rewrite bind_assoc, (bind_Ret _ _ _ _ _ (res_at_ok i _ f r s1 Hf Hok Hr)). rewrite Hfile. cbn [negb].
  destruct law_write as (wr & -> & Hwr).
  assert (Er : shm_read (shmbuf z) 0 (Z.of_nat (length data_)) s1 = Ret data_ s1).
  { unfold shm_read. unfold s1 at 1. simpl. rewrite lookup_insert_eq. simpl.
    rewrite length_splice by lia. rewrite (proj2 (Z.leb_le _ _)) by lia. by rewrite subrange_splice_same by lia. }
  rewrite bind_assoc, (bind_Ret _ _ _ _ _ Er).
  destruct (Hwr _ _ _ c (pos z) data_ Hok Hr Hfile Hc ltac:(lia) ltac:(lia)) as (d' & Ed & Hok' & Hroot & Hres & Hview & Hdata).
  rewrite bind_assoc, (bind_Ret _ _ _ _ _ (call_ok i _ f _ _ s1 Hf Ed)). cbn [fst snd]. rewrite s32_small by lia.
  set (f' := Fs d' (fsid f) (last_fh f) (files f)) in *.
  pose proof (serving_data _ _ _ _ _ d' (f_res z) _ Hs Hok' Hroot Hres Hview Hdata) as Hs'. fold f' in Hs'.
  pose proof (rep_change _ _ _ _ _ _ _ f f' (handles s1) _ Hrep Hf eq_refl Hs') as Hrep'.
  destruct (advance_ok _ _ _ _ _ (set_filesystem i f' s1) _ f' h z (Z.of_nat (length data_)) Hrep'
    (set_filesystem_lookup i f f' s1 Hf) Hs' Ho ltac:(lia) ltac:(lia)) as (s2 & E2 & _ & Hrep2).
  rewrite bind_assoc, (bind_Ret _ _ _ _ _ E2), bind_ret. rewrite (proj2 (Z.leb_le 0 _)) by lia.
  exists s2. split; [done|]. rewrite <- Hn. exact Hrep2.
Qed.

Lemma cstring_app (x k : list Z) : Forall (fun c => c <> 0) x -> cstring (x ++ 0 :: k) = Some x.
Proof.
  induction x as [|c x IH]; intros Hx; [done|]. apply Forall_cons in Hx as [Hc Hx]. simpl.
  by rewrite (proj2 (Z.eqb_neq c 0)), (IH Hx).
Qed.

(** A path in a segment: attached, read and looked up. *)
Lemma with_path_ok d0 segs bufsz id i s t g path c :
  rep d0 segs bufsz id i s t -> g ∈ segs -> Forall (fun c => c <> 0) path -> Z.of_nat (length path) < bufsz ->
  exists f d s1, rep d0 segs bufsz id i s1 t /\ filesystems s1 !! i = Some f /\ serving d0 segs f (handles s1) t /\
    loads (drv f) d /\ is_Some (shm s1 !! g) /\
    (shm_strcpy g path;; with_path id g c) s =
      match resolve d0 (steps (parse path)) (root_res d0) with
      | None => (shmdt g;; mret (- ENOENT)) (with_drv i f d s1)
      | Some a => c i a (with_drv i f d s1)
      end /\
    (forall a, resolve d0 (steps (parse path)) (root_res d0) = Some a -> is_Some (resource d a)).
Proof.
  intros Hrep Hg Hz Hl.
  destruct (shm_write_ok _ _ _ _ _ _ _ g (path ++ [0]) Hrep Hg) as (sg & Hsg & Hlen & Ew & Hrep1);
    [rewrite length_app; simpl; lia|].
  set (b := splice (bytes sg) 0 (path ++ [0])) in *. set (sw := with_shm _ s) in *.
  assert (Hsw : shm sw !! g = Some (Segment b (nattch sg))) by apply lookup_insert_eq.
  pose proof (rep_attach _ _ _ _ _ _ _ g _ (nattch sg + 1) Hrep1 Hsw) as Hrep2. cbn [bytes] in Hrep2.
  set (s1 := with_shm _ sw) in *. destruct (rep_fs _ _ _ _ _ _ _ Hrep2) as (f & Hf & Hs).
  pose proof (se_ok _ _ _ _ _ Hs) as Hok. exists f.
  destruct (walk_ok i (parse path) (root_res (drv f)) f s1 Hf Hok (law_root _ Hok)) as (d & Epath & Hlo & Hlive).
  rewrite (resolve_ext d0 (drv f)), (se_root _ _ _ _ _ Hs) in * by apply Hs.
  exists d, s1. do 4 (split; [done|]). split; [unfold s1; simpl; rewrite lookup_insert_eq; eauto|]. split; [|done].
  rewrite (bind_Ret _ _ _ _ _ Ew). unfold with_path, with_fs, cdi_fs_find. rewrite bind_assoc, bind_gets, bind_ret.
  cbn [Datatypes.id]. rewrite (rep_id _ _ _ _ _ _ _ Hrep1).
  assert (Ea : shmat g sw = Ret true s1) by (unfold shmat; by rewrite Hsw).
  rewrite (bind_Ret _ _ _ _ _ Ea).
  assert (Es : shm_string g s1 = Ret path s1).
  { unfold shm_string, s1. simpl. rewrite lookup_insert_eq. simpl. unfold b, splice. rewrite <- app_assoc.
    simpl. by rewrite cstring_app. }
  rewrite (bind_Ret _ _ _ _ _ Es). unfold cdi_fs_path2res.
  rewrite bind_assoc, (bind_Ret _ _ _ _ _ (filesystem_ok i f s1 Hf)).
  rewrite (se_root _ _ _ _ _ Hs), (bind_Ret _ _ _ _ _ Epath).
  destruct (resolve d0 _ _) as [a|]; simpl; [|done].
  destruct (Hlive a eq_refl) as (r & Hr).
  rewrite (proj2 (Z.eqb_neq a NULL)); [done|]. intros ->. rewrite (law_null _ (lo_ok _ _ Hlo)) in Hr. done.
Qed.

Lemma loads_view_file d0 d a r v : fs_ok d -> (forall b, view d b = view d0 b) -> resource d a = Some r ->
  view d0 a = Some v -> file r = file v.
Proof.
  intros Hok Hv Hr Hv0. destruct (law_kept d a r Hok Hr) as (v' & Hv' & _ & Hf & _).
  rewrite Hv, Hv0 in Hv'. by injection Hv' as <-.
Qed.

Lemma new_file_run i mk f s : filesystems s !! i = Some f ->
  let h := malloc (dom (handles s)) in
  new_file i mk s =
    Ret h (Server (<[i := Fs (drv f) (fsid f) (s32 (last_fh f + 1)) (files f)]> (filesystems s))
             (<[h := mk (last_fh f)]> (handles s)) (fifos s) (shm s)).
Proof. intros Hf h. unfold new_file. by rewrite (bind_Ret _ _ _ _ _ (filesystem_ok i f s Hf)). Qed.

(** A new file on resource [a], with the segment attached. *)
Lemma new_file_ok d0 segs bufsz id i s t f a g oflag c ty :
  rep d0 segs bufsz id i s t -> filesystems s !! i = Some f -> serving d0 segs f (handles s) t ->
  is_regular (drv f) a -> g ∈ segs -> store t a = Some c -> Z.of_nat (length c) < 2147483648 -> next t < 2147483647 ->
  let p := if Z.land oflag O_APPEND =? 0 then 0 else Z.of_nat (length c) in
  exists s', (h ← new_file i (fun n => File a n ty 0 g NULL [] 0 0 None);
        (size ← (if Z.land oflag O_APPEND =? 0 then mret 0 else cdi_fs_filesize i a);
         f ← handle h;
         set_handle h (File (f_res f) (fh f) FILE_REG size (shmbuf f) (dirlist f) [] 0 0 None));;
        push_file i h;;
        f ← handle h; mret (fh f)) s = Ret (next t) s' /\
    rep d0 segs bufsz id i s' (Desk (<[next t := (a, p, g)]> (table t)) (store t) (next t + 1)).
Proof.
  intros Hrep Hf Hs Hreg Hg Hc Hlen Hnext p. pose proof (se_nonneg _ _ _ _ _ Hs) as Hnn.
  pose proof (se_next _ _ _ _ _ Hs) as Hnx. rewrite (se_store _ _ _ _ _ Hs) in Hc.
  rewrite (bind_Ret _ _ _ _ _ (new_file_run i _ f s Hf)). set (h := malloc (dom (handles s))).
  rewrite <- Hnx. rewrite s32_small by lia.
  set (f1 := Fs (drv f) (fsid f) (next t + 1) (files f)). set (x0 := File a (next t) ty 0 g NULL [] 0 0 None).
  set (s1 := Server _ _ _ _).
  assert (Hf1 : filesystems s1 !! i = Some f1) by (apply (set_filesystem_lookup i f f1 s Hf)).
  assert (Hn : h <> NULL) by apply malloc_nonnull.
  assert (Hfresh : handles s !! h = None) by (apply not_elem_of_dom, malloc_fresh).
  assert (Ep : (if Z.land oflag O_APPEND =? 0 then mret 0 else cdi_fs_filesize i a) s1 = Ret p s1).
  { unfold p. destruct (Z.land oflag O_APPEND =? 0); [done|].
    destruct (filesize_ok i s1 f1 a Hf1 (se_ok _ _ _ _ _ Hs) Hreg) as (c' & Hc' & E). simpl in Hc'.
    rewrite Hc in Hc'. injection Hc' as <-. by rewrite E, w32_small by lia. }
  rewrite bind_assoc, (bind_Ret _ _ _ _ _ Ep).
  assert (Eh : handle h s1 = Ret x0 s1).
  { unfold handle, s1. simpl. by rewrite (proj2 (Z.eqb_neq h NULL)), lookup_insert_eq. }
  rewrite bind_assoc, (bind_Ret _ _ _ _ _ Eh). unfold set_handle. rewrite bind_modify.
  cbn [f_res fh shmbuf dirlist x0]. set (x1 := File a (next t) FILE_REG p g NULL [] 0 0 None). set (s2 := Server _ _ _ _).
  assert (Hf2 : filesystems s2 !! i = Some f1) by exact Hf1.
  unfold push_file. rewrite bind_assoc, (bind_Ret _ _ _ _ _ (filesystem_ok i f1 s2 Hf2)), bind_modify.
  set (s3 := set_filesystem _ _ s2).
  assert (Eh3 : handle h s3 = Ret x1 s3).
  { unfold handle, s3. simpl. by rewrite (proj2 (Z.eqb_neq h NULL)), lookup_insert_eq. }
  rewrite (bind_Ret _ _ _ _ _ Eh3). exists s3. split; [done|].
  pose proof (serving_open _ _ _ _ _ h a p g Hs Hn Hfresh Hreg) as Hs'.
  assert (Hp : 0 <= p < 2147483648) by (unfold p; case_match; lia). specialize (Hs' Hp Hg).
  rewrite <- Hnx in Hs'. pose proof (rep_change _ _ _ _ _ _ _ f (Fs (drv f) (fsid f) (next t + 1) (h :: files f)) _ _ Hrep Hf eq_refl Hs') as Hfin.
  unfold s3, s2, s1, set_filesystem, f1. simpl. rewrite list_insert_insert_eq, insert_insert_eq. exact Hfin.
Qed.

Lemma rep_load d0 segs bufsz id i s t f d :
  rep d0 segs bufsz id i s t -> filesystems s !! i = Some f -> serving d0 segs f (handles s) t -> loads (drv f) d ->
  let f' := Fs d (fsid f) (last_fh f) (files f) in
  rep d0 segs bufsz id i (with_drv i f d s) t /\ filesystems (with_drv i f d s) !! i = Some f' /\
  serving d0 segs f' (handles s) t.
Proof.
  intros Hrep Hf Hs Hl f'. pose proof (serving_load _ _ _ _ _ d Hs Hl) as Hs'. fold f' in Hs'. split; [|split].
  - by eapply (rep_change _ _ _ _ _ _ _ f f').
  - by eapply set_filesystem_lookup.
  - done.
Qed.

Lemma client_open d0 segs bufsz id i s t path oflag g x y t' :
  rep d0 segs bufsz id i s t -> spec d0 segs bufsz (Open path oflag g) t = Some (x, y, t') ->
  exists s', serve id (Open path oflag g) s = Ret (x, y) s' /\ rep d0 segs bufsz id i s' t'.
Proof.
  intros Hrep Hsp. cbn [spec serve] in *. case_decide as Hd; [|done]. destruct Hd as (Hg & Hz & Hl).
  rewrite <- bind_assoc. unfold fs_open.
  match goal with |- context [with_path id g ?c] =>
    destruct (with_path_ok _ _ _ _ _ _ _ g path c Hrep Hg Hz Hl) as (f & d & s1 & Hrep1 & Hf & Hs & Hlo & (sg & Hsg) & E & Hlive)
  end.
  rewrite (bind_run _ (fun _ => _) _ _ E). clear E.
  destruct (rep_load _ _ _ _ _ _ _ _ _ Hrep1 Hf Hs Hlo) as (Hrep2 & Hf2 & Hs2).
  set (s2 := with_drv i f d s1) in *. set (f2 := Fs d (fsid f) (last_fh f) (files f)) in *.
  destruct (resolve d0 _ _) as [a|] eqn:Hres; cycle 1.
  { injection Hsp as <- <- <-. unfold shmdt, mbind, cmd_bind, modify. cbn. eexists. split; [done|].
    pose proof (rep_attach _ _ _ _ _ s2 t g sg (nattch sg - 1) Hrep2 Hsg) as Hrep3.
    unfold with_shm in Hrep3. erewrite alter_insert_same; eauto. }
  destruct (Hlive a eq_refl) as (ra & Hra). destruct (view d0 a) as [v|] eqn:Hv; [|done]. simpl in Hsp.
  destruct (store t a) as [c|] eqn:Hc; [|done]. simpl in Hsp. case_match eqn:Hb; [|done].
  rewrite !andb_true_iff in Hb. destruct Hb as ((Hb1 & Hb2) & Hb3). injection Hsp as <- <- <-.
  pose proof (se_ok _ _ _ _ _ Hs2) as Hok2. simpl in Hok2.
  assert (Hfa : file ra = true) by (rewrite (loads_view_file d0 d a ra v); auto; apply Hs2).
  assert (E1 : res_at i a s2 = Ret ra s2) by (by apply (res_at_ok i a f2)).
  unfold mbind at 1, cmd_bind at 1. rewrite (bind_Ret _ _ _ _ _ E1). rewrite Hfa. cbn [orb].
  destruct (loadres_ok i a f2 s2 Hf2 Hok2) as (d3 & r3 & E3 & Hlo3 & Hr3 & _); [by exists ra|].
  rewrite (bind_Ret _ _ _ _ _ E3). cbn [fst Z.eqb].
  destruct (rep_load _ _ _ _ _ _ _ _ _ Hrep2 Hf2 Hs2 Hlo3) as (Hrep3 & Hf3 & Hs3).
  set (s3 := with_drv i f2 d3 s2) in *. set (f3 := Fs d3 (fsid f2) (last_fh f2) (files f2)) in *.
  pose proof (se_ok _ _ _ _ _ Hs3) as Hok3. simpl in Hok3.
  assert (Hf3' : file r3 = true) by (rewrite (loads_view_file d0 d3 a r3 v); auto; apply Hs3).
  rewrite (bind_Ret _ _ _ _ _ (res_at_ok i a f3 r3 s3 Hf3 Hok3 Hr3)). rewrite Hf3'. cbn [orb].
  destruct (new_file_ok _ _ _ _ _ s3 t f3 a g oflag c (if link r3 then FILE_LINK else FILE_REG) Hrep3 Hf3 Hs3) as (s4 & E4 & Hrep4); auto; try lia.
  { by exists r3. }
  rewrite E4. exists s4. by split.
Qed.

(** ** The refinement *)

Lemma serve_step d0 segs bufsz id i s t q x y t' :
  bufsz < 2147483648 -> rep d0 segs bufsz id i s t -> spec d0 segs bufsz q t = Some (x, y, t') ->
  exists s', serve id q s = Ret (x, y) s' /\ rep d0 segs bufsz id i s' t'.
Proof. destruct q; eauto using client_open, client_read, client_write, client_seek. Qed.

Lemma serve_all_rep d0 segs bufsz id i qs : bufsz < 2147483648 -> forall s t out,
  rep d0 segs bufsz id i s t -> spec_all d0 segs bufsz qs t = Some out ->
  exists s', serve_all id qs s = Ret out s'.
Proof.
  intros Hb. induction qs as [|q qs IH]; intros s t out Hrep Hsp; simpl in Hsp; [injection Hsp as <-; by exists s|].
  destruct (spec d0 segs bufsz q t) as [[[x y] t1]|] eqn:E; [|done]. simpl in Hsp.
  destruct (spec_all d0 segs bufsz qs t1) as [xs|] eqn:Es; [|done]. injection Hsp as <-.
  destruct (serve_step _ _ _ _ _ _ _ _ _ _ _ Hb Hrep E) as (s1 & E1 & Hrep1).
  destruct (IH s1 t1 xs Hrep1 Es) as (s2 & E2). exists s2. cbn [serve_all].
  by rewrite (bind_Ret _ _ _ _ _ E1), (bind_Ret _ _ _ _ _ E2).
Qed.

(** C4: Clients that open files by path, read, write and seek get the answers of a table of
    open files with positions over the contents of the files, for every driver that
    keeps its promise: opening gives a new number and a position at the start or the
    end, reading and writing go on at the position and move it, what one file writes
    another one reads, and a number that was not given is refused. *)
Theorem fs_refines d segs bufsz id qs s out :
  fs_ok d -> bufsz < 2147483648 ->
  (forall g, g ∈ segs -> exists sg, shm s !! g = Some sg /\ bufsz <= Z.of_nat (length (bytes sg))) ->
  id <> -1 -> spec_all d segs bufsz qs (Desk ∅ (data d) 0) = Some out ->
  exists s', (cdi_fs_mount id (Some d);; serve_all id qs) s = Ret out s'.
Proof.
  intros Hok Hb Hseg Hid Hsp. unfold cdi_fs_mount. rewrite (proj2 (Z.eqb_neq id (-1))) by done.
  rewrite bind_assoc, bind_modify, bind_ret.
  apply (serve_all_rep d segs bufsz id 0 qs Hb _ (Desk ∅ (data d) 0)); [|done]. split; simpl; auto.
  - by rewrite Z.eqb_refl.
  - eexists. split; [reflexivity|]. split; simpl; auto; try lia.
    + intros h Hh. set_solver.
    + intros h x [Hh _]. simpl in Hh. set_solver.
    + intros n e He. by rewrite lookup_empty in He.
    + intros h h' x x' [Hh _]. simpl in Hh. set_solver.
Qed.

End spec.

(** ** A FIFO with one reader *)

Section fifo.
Context {S : Type} `{DD : Filesystem S}.
Implicit Types s : server S.

Definition empty_fifo (l : Z) (x : cdi_fs_file) : Prop :=
  posr x = 0 /\ posw x = 0 /\ Z.of_nat (length (buffer x)) = CDI_FS_FIFOBUF_SIZE /\ fifo_list x = Some l.

Lemma handle_at s h x : h <> NULL -> handles s !! h = Some x -> handle h s = Ret x s.
Proof. intros Hn Hx. unfold handle. by rewrite (proj2 (Z.eqb_neq h NULL)), Hx. Qed.

Lemma fifo_space_pair (w : cdi_fs_file) h h' : h <> h' -> posr w = 0 -> posw w = 0 ->
  fifo_space w h [h'; h] 4294967295 = CDI_FS_FIFOBUF_SIZE.
Proof. intros Hne Hr Hw. simpl. rewrite Hr, Hw, Z.eqb_refl. destruct (Z.eqb_spec h' h); [congruence|]. done. Qed.

(** The writer puts [n] bytes into the buffer of the reader. *)
Lemma fifo_write_ok s h h' l w r sg data :
  h <> NULL -> h' <> NULL -> h <> h' -> handles s !! h = Some w -> handles s !! h' = Some r ->
  fifos s !! l = Some [h'; h] -> empty_fifo l w -> empty_fifo l r ->
  shm s !! shmbuf w = Some sg -> take (length data) (bytes sg) = data ->
  0 < Z.of_nat (length data) < CDI_FS_FIFOBUF_SIZE ->
  let n := Z.of_nat (length data) in
  fs_fifo_write h n s =
    Ret n (Server (filesystems s) (<[h' := set_fifo (splice (buffer r) 0 data) 0 n r]> (handles s)) (fifos s) (shm s)).
Proof.
  intros Hn Hn' Hne Hw Hr Hl (W1 & W2 & W3 & W4) (R1 & R2 & R3 & R4) Hsg Hdata Hlen n.
  unfold CDI_FS_FIFOBUF_SIZE in *.
  assert (Hsc : Seq.scan [h'; h] = [h'; h]) by (apply scan_nonnull; set_solver).
  unfold fs_fifo_write. rewrite (bind_Ret _ _ _ _ _ (handle_at s h w Hn Hw)), W4.
  assert (El : fifo_at l s = Ret [h'; h] s) by (unfold fifo_at; by rewrite Hl).
  rewrite (bind_Ret _ _ _ _ _ El), Hsc, fifo_space_pair by done. unfold CDI_FS_FIFOBUF_SIZE.
  rewrite (proj2 (Z.eqb_neq n 0)) by lia. cbn [orb length Z.of_nat Pos.of_succ_nat Pos.succ Z.eqb Pos.eqb].
  rewrite (proj2 (Z.ltb_ge 4096 n)) by lia. rewrite (proj2 (Z.eqb_neq n 0)) by lia.
  cbn [fifo_deliver]. rewrite (proj2 (Z.eqb_neq h' h)), Z.eqb_refl by done.
  change (Z.of_nat 2 =? 1) with false. cbv iota. rewrite !bind_assoc, (bind_Ret _ _ _ _ _ (handle_at s h' r Hn' Hr)), R1, R2. unfold CDI_FS_FIFOBUF_SIZE.
  rewrite Z.add_0_l, Z.mod_small by lia. rewrite (proj2 (Z.ltb_lt 0 n)) by lia.
  assert (Hlb : Z.of_nat (length data) <= Z.of_nat (length (bytes sg))).
  { rewrite <- Hdata. rewrite length_take. lia. }
  assert (Er : shm_read (shmbuf w) 0 n s = Ret data s).
  { unfold shm_read. rewrite Hsg, (proj2 (Z.leb_le _ _)) by lia. unfold subrange, n. rewrite Nat2Z.id, drop_0. by rewrite Hdata. }
  rewrite !bind_assoc, (bind_Ret _ _ _ _ _ Er). unfold fifo_put, CDI_FS_FIFOBUF_SIZE.
  rewrite (proj2 (Z.leb_le _ _)) by lia. rewrite bind_ret. unfold set_handle. rewrite bind_modify. done.
Qed.

(** The reader takes what is there. *)
Lemma fifo_read_ok s h r sg data m :
  h <> NULL -> handles s !! h = Some r -> posr r = 0 -> posw r = Z.of_nat (length data) ->
  take (length data) (buffer r) = data -> 0 < Z.of_nat (length data) < CDI_FS_FIFOBUF_SIZE ->
  shm s !! shmbuf r = Some sg -> Z.of_nat (length data) <= Z.of_nat (length (bytes sg)) -> 0 <= m ->
  exists s', fs_fifo_read h m s = Ret (Z.min m (Z.of_nat (length data))) s' /\
    exists sg', shm s' !! shmbuf r = Some sg' /\
      take (Z.to_nat (Z.min m (Z.of_nat (length data)))) (bytes sg') = take (Z.to_nat m) data.
Proof.
  intros Hn Hr R1 R2 Hd Hlen Hsg Hroom Hm. unfold CDI_FS_FIFOBUF_SIZE in *.
  unfold fs_fifo_read. rewrite (bind_Ret _ _ _ _ _ (handle_at s h r Hn Hr)), R1, R2. unfold CDI_FS_FIFOBUF_SIZE.
  destruct (Z.eqb_spec m 0) as [->|Hm0].
  { exists s. split; [by rewrite Z.min_l by lia|]. exists sg. split; [done|]. by rewrite Z.min_l by lia. }
  rewrite (proj2 (Z.leb_le 0 _)), Z.sub_0_r by lia. set (n := Z.of_nat (length data)) in *.
  assert ((if n <? m then n else m) = Z.min m n) as -> by (destruct (Z.ltb_spec n m); lia).
  rewrite (proj2 (Z.eqb_neq _ 0)), Z.add_0_l, Z.mod_small by lia. rewrite (proj2 (Z.ltb_lt 0 _)) by lia.
  unfold fifo_get, CDI_FS_FIFOBUF_SIZE. rewrite (proj2 (Z.leb_le _ _)) by lia. rewrite bind_assoc, bind_ret.
  set (x := subrange (buffer r) 0 (Z.min m n)).
  assert (Hx : x = take (Z.to_nat m) data).
  { unfold x, subrange. simpl. rewrite <- Hd, take_take. f_equal. lia. }
  assert (Hxl : length x = Z.to_nat (Z.min m n)) by (rewrite Hx, length_take; lia).
  unfold shm_write. unfold mbind at 1, cmd_bind at 1. rewrite Hsg, (proj2 (Z.leb_le _ _)) by lia.
  eexists. split; [reflexivity|]. simpl. rewrite lookup_insert_eq. eexists. split; [done|]. simpl.
  unfold splice. simpl. rewrite take_app_length' by lia. done.
Qed.

(** What one process writes into an empty FIFO (less than the buffer holds), the other
    one reads: as much as it asks for, in order. *)
Theorem fifo_roundtrip s h h' l w r sg sg' data m :
  h <> NULL -> h' <> NULL -> h <> h' -> handles s !! h = Some w -> handles s !! h' = Some r ->
  fifos s !! l = Some [h'; h] -> empty_fifo l w -> empty_fifo l r ->
  shm s !! shmbuf w = Some sg -> take (length data) (bytes sg) = data ->
  shm s !! shmbuf r = Some sg' -> Z.of_nat (length data) <= Z.of_nat (length (bytes sg')) ->
  0 < Z.of_nat (length data) < CDI_FS_FIFOBUF_SIZE -> 0 <= m ->
  exists s1 s2 out, fs_fifo_write h (Z.of_nat (length data)) s = Ret (Z.of_nat (length data)) s1 /\
    fs_fifo_read h' m s1 = Ret (Z.min m (Z.of_nat (length data))) s2 /\
    shm s2 !! shmbuf r = Some out /\
    take (Z.to_nat (Z.min m (Z.of_nat (length data)))) (bytes out) = take (Z.to_nat m) data.
Proof.
  intros Hn Hn' Hne Hw Hr Hl Ew Er Hsg Hd Hsg' Hroom Hlen Hm. pose proof Er as (_ & _ & Rl & _).
  unfold CDI_FS_FIFOBUF_SIZE in *.
  pose proof (fifo_write_ok s h h' l w r sg data Hn Hn' Hne Hw Hr Hl Ew Er Hsg Hd Hlen) as E. cbv zeta in E.
  set (s1 := Server _ _ _ _) in E. set (r1 := set_fifo _ _ _ r) in s1.
  destruct (fifo_read_ok s1 h' r1 sg' data m) as (s2 & E2 & out & Ho & Hout); auto.
  - apply lookup_insert_eq.
  - simpl. unfold splice. simpl. by rewrite take_app_length' by lia.
  - by exists s1, s2, out.
Qed.
End fifo.
