(* ===== verification/RamdiskFs.v ===== *)
(** * The RAM disk as a file system server (apps/ramdisk/resources.c, apps/ramdisk/main.c)

    The tables of functions of the RAM disk, that it keeps the promise of
    [FilesystemLaws], and what this gives for clients. *)

From S2P Require Import Prelude LList Machine Path Cache Ramdisk Fs.

Section instance.
Context `{MM : Malloc} `{GG : Garbage}.

(** The fields of [struct cdi_fs_res] of a resource. *)
Definition public (r : Ramdisk.res) : Fs.res :=
  Fs.Res (Ramdisk.name r) (Ramdisk.loaded r) (Ramdisk.children r) (is_file r) (is_dir r) (is_link r) (is_special r)
    (Ramdisk.type r).

Definition to_class (c : Fs.class) : Ramdisk.class :=
  match c with CLASS_FILE => FILE | CLASS_DIR => DIR | CLASS_LINK => LINK | CLASS_SPECIAL => SPECIAL end.

Definition to_meta (m : Fs.meta) : Ramdisk.meta :=
  match m with
  | Fs.META_SIZE => Ramdisk.META_SIZE
  | Fs.META_USEDBLOCKS => Ramdisk.META_USEDBLOCKS
  | Fs.META_BESTBLOCKSZ => Ramdisk.META_BESTBLOCKSZ
  | Fs.META_BLOCKSZ => Ramdisk.META_BLOCKSZ
  | Fs.META_CREATETIME => Ramdisk.META_CREATETIME
  | Fs.META_ACCESSTIME => Ramdisk.META_ACCESSTIME
  | Fs.META_CHANGETIME => Ramdisk.META_CHANGETIME
  end.

(** A function that sets no error, and one that may. *)
Definition no_error {A} (c : cmd disk A) : cmd disk (A * Fs.error) := x ← c; mret (x, ERROR_NONE).
Definition with_error (c : cmd disk (Ramdisk.error + Z)) : cmd disk (Z * Fs.error) :=
  x ← c; match x with inl Ramdisk.ERROR_ONS => mret (0, Fs.ERROR_ONS) | inr x => mret (x, ERROR_NONE) end.

Definition change_type (a t : Z) (s : disk) : disk :=
  Disk (alter (fun r => Ramdisk.Res (Ramdisk.name r) (Ramdisk.loaded r) (is_file r) (is_dir r) (is_link r) (is_special r)
                          (parent r) (Ramdisk.children r) (link_path r) (Ramdisk.buffer r) (size r) (creation_time r)
                          (access_time r) (modification_time r) t) a (nodes s)) (Ramdisk.root_res s).

(** A list of children is known by its owner. *)
Definition ramdisk_filesystem : Filesystem disk := {|
  Fs.root_res := Ramdisk.root_res;
  resource s a := public <$> nodes s !! a;
  set_type := change_type;
  list_at s a := Ramdisk.children <$> nodes s !! a;
  res_load a := no_error (ramdisk_fs_res_load a);
  res_unload a := no_error (ramdisk_fs_res_unload a);
  res_remove a := with_error (ramdisk_fs_res_remove a);
  assign_class a c := with_error (ramdisk_fs_res_assign_class a (to_class c));
  remove_class a c := no_error (ramdisk_fs_res_remove_class a (to_class c));
  meta_read := Some (fun a m => ramdisk_fs_res_meta_read a (to_meta m));
  meta_write a m v := ramdisk_fs_res_meta_write a (to_meta m) v;
  file_read := Some (fun a start n => no_error (ramdisk_fs_file_read a start n));
  file_write := Some (fun a start x => no_error (ramdisk_fs_file_write a start x));
  file_truncate a n := no_error (ramdisk_fs_file_truncate a n);
  dir_list a := ramdisk_fs_dir_list a;; mret a;
  create_child n p := a ← ramdisk_fs_dir_create_child n p; mret (Some a, ERROR_NONE);
  read_link := ramdisk_fs_link_read;
  write_link a x := no_error (ramdisk_fs_link_write a x);
  fs_sync_fn := None;
  fs_destroy := fun s => ramdisk_fs_destroy (S (weight s)) s;
|}.
#[export] Existing Instance ramdisk_filesystem.

(** ** The promise *)

Definition loaded_view (r : Fs.res) : Fs.res :=
  Fs.Res (Fs.name r) true (Fs.children r) (file r) (dir r) (link r) (special r) (Fs.type r).

Lemma resource_inv s a r : resource s a = Some r -> exists n, nodes s !! a = Some n /\ r = public n.
Proof. simpl. intros (n & -> & E)%fmap_Some. eauto. Qed.

Lemma no_error_ok {A} (c : cmd disk A) s x s' : c s = Ret x s' -> no_error c s = Ret (x, ERROR_NONE) s'.
Proof. intros E. unfold no_error. by rewrite (bind_Ret _ _ _ _ _ E). Qed.

(** Changing a resource so that its public fields stay. *)
Lemma fmap_insert_same {B} (g : Ramdisk.res -> B) (m : gmap Z Ramdisk.res) a n n' b :
  m !! a = Some n -> g n' = g n -> g <$> (<[a := n']> m) !! b = g <$> m !! b.
Proof.
  intros Ha Hg. destruct (decide (b = a)) as [->|]; [rewrite lookup_insert_eq, Ha; simpl; by rewrite Hg|].
  by rewrite lookup_insert_ne.
Qed.

Lemma load_law s a n :
  inv s -> nodes s !! a = Some n -> Ramdisk.loaded n = false ->
  exists n', ramdisk_fs_res_load a s = Ret 1 (Disk (<[a := n']> (nodes s)) (Ramdisk.root_res s)) /\
    inv (Disk (<[a := n']> (nodes s)) (Ramdisk.root_res s)) /\ Ramdisk.loaded n' = true /\
    loaded_view (public n') = loaded_view (public n) /\ contents n' = contents n.
Proof.
  intros Hi Ha Hl. eexists. unfold ramdisk_fs_res_load.
  pose proof (inv_null _ (inv_forest _ Hi)) as Hn.
  rewrite (bind_Ret _ _ _ _ _ (res_deref a s n Hn Ha)), Hl.
  rewrite (bind_Ret _ _ _ _ _ (res_update a _ s n Hn Ha)).
  split; [reflexivity|]. split; [|done].
  apply (step_inv s); [done|]. apply (step_load s a 1). unfold ramdisk_fs_res_load.
  rewrite (bind_Ret _ _ _ _ _ (res_deref a s n Hn Ha)), Hl.
  by rewrite (bind_Ret _ _ _ _ _ (res_update a _ s n Hn Ha)).
Qed.

#[export, program] Instance ramdisk_laws : FilesystemLaws disk := {|
  fs_ok := inv;
  view s a := loaded_view <$> resource s a;
  data s a := contents <$> nodes s !! a;
|}.
Next Obligation. intros s Hi. simpl. by rewrite (inv_null _ (inv_forest _ Hi)). Qed.
Next Obligation. intros s Hi. destruct (inv_root _ Hi) as (n & Hn & _). simpl. rewrite Hn. by eexists. Qed.
Next Obligation.
  intros s a r Hi Ha _. apply resource_inv in Ha as (n & Hn & ->). apply Forall_forall. intros c Hc.
  destruct (inv_tree _ (inv_forest _ Hi) a c) as (rc & Hrc & _); [by exists n|]. simpl. rewrite Hrc. by eexists.
Qed.
Next Obligation. intros s a r Hi Ha Hl. simpl in *. rewrite Ha. simpl. destruct r; simpl in *. by rewrite Hl. Qed.
Next Obligation. intros s a r Hi Ha. simpl in *. rewrite Ha. eexists. split; [done|]. by repeat split. Qed.
Next Obligation. intros s a r Hi Ha _. apply resource_inv in Ha as (n & Hn & ->). simpl. rewrite Hn. by eexists. Qed.
Next Obligation.
  intros s a r Hi Ha Hl. apply resource_inv in Ha as (n & Hn & ->).
  destruct (load_law s a n Hi Hn Hl) as (n' & E & Hi' & Hl' & Hv & Hd). eexists _, (public n').
  split; [by apply no_error_ok|]. split; [done|]. split; [done|].
  split; [simpl; by rewrite lookup_insert_eq|]. split; [done|].
  split; [intros b; simpl; rewrite <- !option_fmap_compose; by apply (fmap_insert_same (loaded_view ∘ public) _ _ n)|].
  split; [intros b; simpl; by apply (fmap_insert_same contents _ _ n)|].
  intros b (x & Hx). apply resource_inv in Hx as (m & Hm & _). simpl.
  destruct (decide (b = a)) as [->|]; [rewrite lookup_insert_eq|rewrite lookup_insert_ne, Hm by done]; by eexists.
Qed.
Next Obligation.
  eexists. split; [done|]. intros s a r c start n Hi Ha _ Hc Hs Hn.
  apply resource_inv in Ha as (m & Hm & ->). rewrite Hm in Hc. injection Hc as <-.
  apply no_error_ok. destruct (inv_node _ (inv_forest _ Hi) _ _ Hm) as [_ H2 _ _].
  apply read_spec; auto. revert Hs. unfold contents. rewrite length_take. lia.
Qed.
Next Obligation.
  eexists. split; [done|]. intros s a r c start x Hi Ha _ Hc Hs Hx.
  apply resource_inv in Ha as (m & Hm & ->). rewrite Hm in Hc. injection Hc as <-.
  destruct (inv_node _ (inv_forest _ Hi) _ _ Hm) as [_ H2 _ _].
  assert (Hs' : 0 <= start <= size m) by (revert Hs; unfold contents; rewrite length_take; lia).
  destruct (write_spec s a m start x Hi Hm Hs' ltac:(lia)) as (m' & E & _ & Hc & b & k & Hm').
  pose proof (write_inv s a start x _ _ Hi (proj1 Hs') E) as Hi'.
  eexists. split; [by apply no_error_ok|]. split; [done|]. split; [done|].
  assert (Hres : forall b, resource (Disk (<[a := m']> (nodes s)) (Ramdisk.root_res s)) b = resource s b).
  { intros b'. simpl. apply (fmap_insert_same public _ _ m); [done|]. by rewrite Hm'. }
  split; [done|]. split; [intros b'; by rewrite Hres|].
  intros b'. simpl. case_decide as Hb; [subst b'; by rewrite lookup_insert_eq, <- Hc|]. by rewrite lookup_insert_ne.
Qed.
Next Obligation.
  eexists. split; [done|]. intros s a r c Hi Ha _ Hc. apply resource_inv in Ha as (m & Hm & ->).
  rewrite Hm in Hc. injection Hc as <-. destruct (inv_node _ (inv_forest _ Hi) _ _ Hm) as [_ H2 _ _].
  simpl. unfold ramdisk_fs_res_meta_read.
  rewrite (bind_Ret _ _ _ _ _ (res_deref a s m (inv_null _ (inv_forest _ Hi)) Hm)). simpl.
  unfold mret, cmd_ret. f_equal. unfold contents. rewrite length_take. lia.
Qed.
End instance.

(** ** Clients of a RAM disk *)

Module Clients.
#[local] Existing Instance Cache.Disk.zero_garbage.

Definition room (n : nat) : segment := Segment (replicate n 0) 0.

(** A server with two segments of 16 bytes and no file system. *)
Definition idle : server disk := Server [] ∅ ∅ {[7 := room 16; 8 := room 16]}.

Definition run {A} (c : cmd (server disk) A) (s : server disk) : server disk :=
  match c s with Ret _ s' => s' | Stop _ s' => s' end.
Definition result {A} (c : cmd (server disk) A) (s : server disk) : A + stop :=
  match c s with Ret x _ => inl x | Stop w _ => inr w end.

(** The file "f" of the small RAM disk holds 1, 2, 3. *)
Definition str_f : str := [47; 102].

Lemma fs_refines_witness :
  exists s', (cdi_fs_mount 1 (Some Ramdisk.Small.d3);;
    serve_all 1 [Open str_f 0 7; Read 0 2 7; Write 0 [9; 9] 7; Open [102] O_APPEND 8; Write 1 [5] 8;
      Seek 0 0 SEEK_SET; Read 0 10 7; Read 5 1 7]) idle =
    Ret [(0, []); (2, [1; 2]); (2, []); (1, []); (1, []); (0, []); (5, [1; 2; 9; 9; 5]); (-8, [])] s'.
Proof.
  apply (fs_refines Ramdisk.Small.d3 {[7; 8]} 16).
  - apply reachable_inv, Ramdisk.Small.d3_reachable.
  - lia.
  - intros g Hg. exists (room 16). split; [|done]. apply elem_of_union in Hg as [->%elem_of_singleton | ->%elem_of_singleton]; reflexivity.
  - lia.
  - vm_compute. reflexivity.
Defined.

(** Looking up "f" and a file that does not exist. *)
Lemma path2res_correct_witness :
  let s := run (cdi_fs_mount 1 (Some Ramdisk.Small.d3)) idle in
  result (cdi_fs_path2res 0 str_f) s = inl Ramdisk.Small.a1 /\ result (cdi_fs_path2res 0 [103]) s = inl NULL.
Proof.
  intros s.
  assert (Hs : filesystems s !! 0%nat = Some (Fs Ramdisk.Small.d3 1 0 [])) by reflexivity.
  assert (Hi : inv Ramdisk.Small.d3) by apply reachable_inv, Ramdisk.Small.d3_reachable.
  unfold result. split.
  - destruct (path2res_correct (LL := ramdisk_laws) 0 str_f _ s Hs Hi) as (d & -> & _). vm_compute. reflexivity.
  - destruct (path2res_correct (LL := ramdisk_laws) 0 [103] _ s Hs Hi) as (d & -> & _). vm_compute. reflexivity.
Defined.

(** Two processes with the FIFO "p". *)
Definition str_p : str := [47; 112].
Definition with_fifo : server disk :=
  run (cdi_fs_mount 1 (Some ramdisk_fs_init);; fs_mknod 1 str_p S_IFIFO;;
       shm_strcpy 7 str_p;; fs_open 1 0 7;; shm_strcpy 8 str_p;; fs_open 1 0 8;; shm_write 7 0 [4; 5; 6]) idle.

Definition ready (o : option cdi_fs_file) (g : Z) : bool :=
  match o with
  | Some x => (posr x =? 0) && (posw x =? 0) && (Z.of_nat (length (Fs.buffer x)) =? CDI_FS_FIFOBUF_SIZE) &&
              bool_decide (fifo_list x = Some 1) && (shmbuf x =? g)
  | None => false
  end.

Lemma ready_empty o g : ready o g = true -> exists x, o = Some x /\ shmbuf x = g /\ empty_fifo 1 x.
Proof.
  unfold ready, empty_fifo. destruct o as [x|]; [|done]. rewrite !andb_true_iff, !Z.eqb_eq, bool_decide_eq_true.
  intros [[[[? ?] ?] ?] ?]. eauto 10.
Qed.

#[local] Opaque with_fifo.

Lemma fifo_roundtrip_witness :
  exists s1 s2 out, fs_fifo_write 1 3 with_fifo = Ret 3 s1 /\ fs_fifo_read 2 2 s1 = Ret 2 s2 /\
    shm s2 !! 8 = Some out /\ take 2 (bytes out) = [4; 5].
Proof.
  destruct (ready_empty (handles with_fifo !! 1) 7) as (w & Hw & Ew & Fw); [vm_compute; reflexivity|].
  destruct (ready_empty (handles with_fifo !! 2) 8) as (r & Hr & Er & Fr); [vm_compute; reflexivity|].
  assert (Hsg : option_map (fun g => (take 3 (bytes g), length (bytes g))) (shm with_fifo !! 7) = Some ([4; 5; 6], 16%nat))
    by (vm_compute; reflexivity).
  assert (Hsg' : option_map (fun g => length (bytes g)) (shm with_fifo !! 8) = Some 16%nat) by (vm_compute; reflexivity).
  assert (Hl : fifos with_fifo !! 1 = Some [2; 1]) by (vm_compute; reflexivity).
  destruct (shm with_fifo !! 7) as [sg|] eqn:E7; [|discriminate Hsg].
  destruct (shm with_fifo !! 8) as [sg'|] eqn:E8; [|discriminate Hsg'].
  injection Hsg as Hd _. injection Hsg' as Hlen. rewrite <- Ew in E7. rewrite <- Er in E8.
  assert (N1 : 1 <> NULL) by (clear; done). assert (N2 : 2 <> NULL) by (clear; done). assert (N12 : 1 <> 2) by (clear; lia).
  assert (Hroom : Z.of_nat (length [4; 5; 6]) <= Z.of_nat (length (bytes sg'))) by (rewrite Hlen; clear; simpl; lia).
  assert (Hsz : 0 < Z.of_nat (length [4; 5; 6]) < CDI_FS_FIFOBUF_SIZE) by (clear; unfold CDI_FS_FIFOBUF_SIZE; simpl; lia).
  assert (Hm : 0 <= 2) by (clear; lia).
  destruct (fifo_roundtrip with_fifo 1 2 1 w r sg sg' [4; 5; 6] 2 N1 N2 N12 Hw Hr Hl Fw Fr E7 Hd E8 Hroom Hsz Hm)
    as (s1 & s2 & out & E1 & E2 & Ho & Hout).
  exists s1, s2, out. rewrite Er in Ho. do 3 (split; [assumption|]). exact Hout.
Defined.

(** "f" opened twice. *)
Definition two_files : server disk :=
  run (cdi_fs_mount 1 (Some Ramdisk.Small.d3);; shm_strcpy 7 str_f;; fs_open 1 0 7;; shm_strcpy 8 str_f;; fs_open 1 0 8) idle.

(** Closing a file unloads its resource, also when it is still open elsewhere: the other
    file can not be closed any more. *)
Example second_close_fails :
  result (fs_close 1 0) two_files = inl 0 /\ result (fs_close 1 0;; fs_close 1 1) two_files = inl (- ENOSYS).
Proof. split; vm_compute; reflexivity. Qed.

(** The copy of a file is not put into the list of files. *)
Example copy_is_unknown : result (n ← fs_dup 1 0 8; fs_read 1 n 1) two_files = inl (- EBADF).
Proof. vm_compute. reflexivity. Qed.

(** An open file that is removed. *)
Example removed_file_is_used : result (fs_unlink 1 str_f;; fs_read 1 0 1) two_files = inr UseAfterFree.
Proof. vm_compute. reflexivity. Qed.

(** A device is opened as a regular file, whose functions it does not have. *)
Example device_read_faults :
  result (cdi_fs_mount 1 (Some ramdisk_fs_init);; fs_mknod 1 str_p S_IFCHR;; shm_strcpy 7 str_p;;
          n ← fs_open 1 0 7; fs_read 1 n 1) idle = inr NullDeref.
Proof. vm_compute. reflexivity. Qed.

(** A link can be opened but not closed. *)
Example link_not_closed :
  result (cdi_fs_mount 1 (Some ramdisk_fs_init);; fs_symlink 1 str_p str_f;; shm_strcpy 7 str_p;;
          n ← fs_open 1 0 7; fs_close 1 n) idle = inl (- EBADF).
Proof. vm_compute. reflexivity. Qed.

(** Unmounting destroys the files and reports a failure, and the file system stays in
    the list. *)
Example unmounted_is_used :
  result (cdi_fs_unmount 0) two_files = inl (-1) /\
  result (cdi_fs_unmount 0;; shm_strcpy 7 str_f;; fs_open 1 0 7) two_files = inr UseAfterFree.
Proof. split; vm_compute; reflexivity. Qed.

(** A directory with a file in it can be removed; the file can not be reached any more. *)
Example full_directory_removed :
  result (cdi_fs_mount 1 (Some ramdisk_fs_init);; fs_mknod 1 str_p S_IFDIR;; fs_mknod 1 (str_p ++ str_f) S_IFREG;;
          fs_rmdir 1 str_p;; cdi_fs_path2res 0 (str_p ++ str_f)) idle = inl NULL.
Proof. vm_compute. reflexivity. Qed.

(** The second message into a FIFO is not at the start of the buffer any more: the rest
    of the buffer is copied, whatever the size of the message and of the segment. *)
Example second_message_overruns : result (fs_fifo_write 1 3;; fs_fifo_write 1 2) with_fifo = inr OutOfBounds.
Proof. vm_compute. reflexivity. Qed.

End Clients.
