(* ===== verification/Iso9660.v ===== *)
(** * The ISO 9660 driver (apps/iso9660, apps/lib/libcdi/misc.c)

    The driver for CDs with Rock Ridge names, on the block cache: volume descriptors
    (volume_descriptor.c), mounting (init.c), directories (dir.c, rockridge.c), files
    (file.c, sector.c) and resources (res.c).  The volume is that of Fat; the driver has
    no function to write, and never marks a block.

    A directory record is the list of its bytes; what the code reads behind the end of
    one is memory it did not set. *)

From S2P Require Import Prelude LList Tree Machine CString Cache Fat.

Definition ISO9660_DEFAULT_SECTOR_SIZE : Z := 2048.
Definition ISO9660_FIRST_SECTOR : Z := 16.
Definition ISO9660_VOLDESC_TERM : Z := 255.
Definition ISO9660_VOLDESC_PRIM : Z := 1.

Definition or_else {A} (a b : option A) : option A := match a with Some _ => a | None => b end.

(** ** Time (misc.c, misc.h) *)

Definition is_leapyear (year : Z) : bool :=
  if year mod 400 =? 0 then true else if year mod 100 =? 0 then false else year mod 4 =? 0.

Definition days_per_month (month year : Z) : option Z :=
  d ← [31; 28; 31; 30; 31; 30; 31; 31; 30; 31; 30; 31] !! Z.to_nat month;
  Some (d + if is_leapyear year then 1 else 0).

(** The first loop sets the time to that of the last year; the second adds the same
    month each time. *)
Definition cdi_time_by_date (year month day : Z) : option Z :=
  let time := foldl (fun _ i => (if is_leapyear i then 366 else 365) * 24 * 3600) 0 (seqZ 1970 (year - 1970)) in
  time ← foldl (fun t _ => t ← t; d ← days_per_month month year; Some (w64 (t + d * 24 * 3600)))
    (Some time) (seqZ 0 month);
  Some (w64 (time + w32 (day * 3600))).

Definition cdi_time_offset (hour minute second : Z) : Z := w32 (hour * 3600 + minute * 60 + second).

(** ** Directory records (directory_record.h) *)

Definition u8 (r : list Z) (off : Z) : Z := r !!! Z.to_nat off.

Definition record_size (r : list Z) : Z := u8 r 0.
Definition data_sector_of (r : list Z) : Z := field r 2 4.
Definition data_size_of (r : list Z) : Z := field r 10 4.
Definition flags_of (r : list Z) : Z := u8 r 25.
Definition identifier_length (r : list Z) : Z := u8 r 32.
Definition IDENTIFIER : Z := 33.

(** [parse_date]: the year is counted from 1900. *)
Definition parse_date (r : list Z) : option Z :=
  t ← cdi_time_by_date (u8 r 18) (w32 (u8 r 19 - 1)) (u8 r 20);
  Some (w64 (t + cdi_time_offset (u8 r 21) (u8 r 22) (u8 r 23))).

(** The version and a dot at the end are cut; the two tests may look at the bytes in
    front of the identifier, and [None] is a length that wraps around. *)
Definition parse_name (r : list Z) : option (list Z) :=
  let len := identifier_length r in
  let len := if u8 r (IDENTIFIER + len - 2) =? 59 then len - 2 else len in
  let len := if u8 r (IDENTIFIER + len - 1) =? 46 then len - 1 else len in
  if len <? 0 then None else Some ((fun c => w8 (tolower (s8 c))) <$> subrange r IDENTIFIER len).

(** ** Rock Ridge (rockridge.h, rockridge.c) *)

Definition SIG_ST : Z := 83 + 84 * 256.
Definition SIG_RR : Z := 82 + 82 * 256.
Definition SIG_PX : Z := 80 + 88 * 256.
Definition SIG_NM : Z := 78 + 77 * 256.

Definition RS_IFMT : Z := 61440.
Definition RS_IFSOCK : Z := 49152.
Definition RS_IFLNK : Z := 40960.
Definition RS_IFREG : Z := 32768.
Definition RS_IFBLK : Z := 24576.
Definition RS_IFDIR : Z := 16384.
Definition RS_IFCHR : Z := 8192.
Definition RS_IFIFO : Z := 4096.

Inductive res_class := CLASS_FILE | CLASS_DIR | CLASS_LINK | CLASS_SPECIAL.

#[export] Instance res_class_eq_dec : EqDecision res_class.
Proof. solve_decision. Defined.

Definition FS_BLOCK : Z := 0.
Definition FS_FIFO : Z := 2.
Definition FS_SOCKET : Z := 3.

(** The class and the type of special file; character devices become block devices. *)
Definition parse_class (mode : Z) : res_class * Z :=
  let k := Z.land mode RS_IFMT in
  if k =? RS_IFBLK then (CLASS_SPECIAL, FS_BLOCK)
  else if k =? RS_IFCHR then (CLASS_SPECIAL, FS_BLOCK)
  else if k =? RS_IFIFO then (CLASS_SPECIAL, FS_FIFO)
  else if k =? RS_IFSOCK then (CLASS_SPECIAL, FS_SOCKET)
  else if k =? RS_IFREG then (CLASS_FILE, 0)
  else if k =? RS_IFDIR then (CLASS_DIR, 0)
  else if k =? RS_IFLNK then (CLASS_LINK, 0)
  else (CLASS_FILE, 0).

Section driver.
Context {D : Type} `{DD : Device D} `{MM : Malloc} `{GG : Garbage}.

(** What the scan finds: the name of a dot entry, the parts of the name, the mode. *)
Record rockridge := Rockridge { dots : option (list Z); rr_name : option (list Z); rr_mode : Z }.

(** The entry at [off] of the system use area [m]; [size] is the size of the record. *)
Fixpoint scan_loop {St} (fuel : nat) (m : list Z) (size off : Z) (x : rockridge) : cmd St rockridge :=
  match fuel with
  | O => stop_with Hang
  | S fuel =>
      let sig := field m off 2 in
      if negb (sig =? SIG_ST) && negb (sig =? 0) && (off + 4 <? size) then
        let n := u8 m (off + 2) in
        x ← (if sig =? SIG_PX then mret (Rockridge (dots x) (rr_name x) (field m (off + 4) 4))
             else if sig =? SIG_NM then
               let flags := u8 m (off + 4) in
               if Z.testbit flags 1 then mret (Rockridge (Some [46]) (rr_name x) (rr_mode x))
               else if Z.testbit flags 2 then mret (Rockridge (Some [46; 46]) (rr_name x) (rr_mode x))
               else if n <? 5 then stop_with OutOfBounds
               else mret (Rockridge (dots x) (Some (default [] (rr_name x) ++ subrange m (off + 5) (n - 5))) (rr_mode x))
             else mret x);
        scan_loop fuel m size (off + n) x
      else mret x
  end.

(** The memory from the record on.  Nothing if the area does not start with RR; a name
    that was put together replaces that of a dot entry. *)
Definition iso9660_rockridge_scan {St} (m : list Z) : cmd St (option (option (list Z) * Z)) :=
  let off := IDENTIFIER + identifier_length m in
  let off := if off mod 2 =? 1 then off + 1 else off in
  if field m off 2 =? SIG_RR then
    x ← scan_loop 256 m (record_size m) off (Rockridge None None (le32 (garbage 4)));
    mret (Some (match rr_name x with Some n => Some n | None => dots x end, rr_mode x))
  else mret None.

(** ** Resources (iso9660_cdi.h, res.c) *)

Inductive iso9660_fs_res := Res {
  name : list Z;
  class : res_class;
  type : Z;
  ctime : Z;
  atime : Z;
  mtime : Z;
  data_sector : Z;
  data_size : Z;
  loaded : bool;
  children : option (list iso9660_fs_res);
}.

(** Class and functions; times and data are set by the caller. *)
Definition iso9660_fs_res_create (name : list Z) (class : res_class) (type ctime atime mtime sector size : Z)
    : iso9660_fs_res :=
  Res (cut_string name) class type ctime atime mtime sector size false None.

(** Only directories get the functions of directories. *)
Definition has_dir (r : iso9660_fs_res) : bool := bool_decide (class r = CLASS_DIR).

Definition iso9660_dirrec_load {St} (r : list Z) : cmd St iso9660_fs_res :=
  rr ← iso9660_rockridge_scan r;
  '(n, c, t, ct) ← (match rr with
                    | Some (n, mode) => let '(c, t) := parse_class mode in mret (n, c, t, 0)
                    | None => match parse_date r with
                              | Some ct => mret (None, CLASS_FILE, 0, ct)
                              | None => stop_with OutOfBounds
                              end
                    end);
  n ← (match or_else n (parse_name r) with Some n => mret n | None => stop_with OutOfBounds end);
  let c := if bool_decide (c = CLASS_FILE) then (if Z.testbit (flags_of r) 1 then CLASS_DIR else CLASS_FILE) else c in
  mret (iso9660_fs_res_create n c t ct ct ct (data_sector_of r) (data_size_of r)).

(** ** Sectors and files (sector.c, file.c) *)

(** The loop of [iso9660_read]; the block is counted from the first sector [base]. *)
Fixpoint iso_loop (fuel : nat) (ss base block offset rem_size : Z) : cmd (state D) (list Z) :=
  match fuel with
  | O => if rem_size =? 0 then mret [] else stop_with Hang
  | S fuel =>
      if rem_size =? 0 then mret []
      else
        a ← cdi_cache_block_get (w64 (base + block)) 0;
        b ← deref a;
        let cur_size := if ss <? rem_size then ss else rem_size in
        if offset + cur_size <=? Z.of_nat (length (data b)) then
          cdi_cache_block_release a;;
          rest ← iso_loop fuel ss base (w32 (block + 1)) 0 (rem_size - cur_size);
          mret (subrange (data b) offset cur_size ++ rest)
        else stop_with OutOfBounds
  end.

Definition iso9660_read (ss base pos size : Z) : cmd (state D) (list Z) :=
  if ss =? 0 then stop_with Panic else iso_loop (Z.to_nat size) ss base (pos / ss) (pos mod ss) size.

Definition iso9660_fs_file_read (ss : Z) (r : iso9660_fs_res) (start size : Z) : cmd (state D) (list Z) :=
  if data_size r <? start then mret []
  else
    let size := if data_size r <? w64 (start + size) then w32 (data_size r - start) else size in
    iso9660_read ss (data_sector r) (w32 start) size.

(** ** Directories (dir.c) *)

(** [i] counts the records; the first two are the directory and its parent.  What lies
    behind the allocated record is memory nobody set. *)
Fixpoint dir_loop (fuel : nat) (ss base size curpos : Z) (i : nat) (out : list iso9660_fs_res)
    : cmd (state D) (list iso9660_fs_res) :=
  if size <=? curpos then mret out
  else
    match fuel with
    | O => stop_with Hang
    | S fuel =>
        b ← iso9660_read ss base curpos 1;
        let n := b !!! O in
        if n =? 0 then dir_loop fuel ss base size (w32 (curpos + 1)) i out
        else
          r ← iso9660_read ss base curpos n;
          out ← (if (1 <? i)%nat then x ← iso9660_dirrec_load (r ++ garbage 512); mret (x :: out) else mret out);
          dir_loop fuel ss base size (w32 (curpos + n)) (S i) out
    end.

Definition iso9660_dir_load (ss : Z) (r : iso9660_fs_res) : cmd (state D) (list iso9660_fs_res) :=
  dir_loop (Z.to_nat (data_size r)) ss (data_sector r) (data_size r) 0 0 [].

Definition iso9660_fs_dir_list (r : iso9660_fs_res) : option (list iso9660_fs_res) := children r.

Definition set_children (c : option (list iso9660_fs_res)) (l : bool) (r : iso9660_fs_res) : iso9660_fs_res :=
  Res (name r) (class r) (type r) (ctime r) (atime r) (mtime r) (data_sector r) (data_size r) l c.

Definition iso9660_fs_res_load (ss : Z) (r : iso9660_fs_res) : cmd (state D) iso9660_fs_res :=
  if loaded r then mret r
  else
    c ← (if bool_decide (class r = CLASS_DIR) then iso9660_dir_load ss r else mret []);
    mret (set_children (Some c) true r).

Definition iso9660_fs_res_unload (r : iso9660_fs_res) : iso9660_fs_res :=
  if loaded r then set_children None false r else r.

Inductive meta := META_SIZE | META_USEDBLOCKS | META_BESTBLOCKSZ | META_BLOCKSZ | META_CREATETIME
| META_ACCESSTIME | META_CHANGETIME.

Definition iso9660_fs_res_meta_read (ss : Z) (r : iso9660_fs_res) (m : meta) : Z :=
  match m with
  | META_SIZE => if has_dir r then 0 else data_size r
  | META_USEDBLOCKS => w32 (w32 (data_size r - 1) / ss + 1)
  | META_BESTBLOCKSZ | META_BLOCKSZ => ss
  | META_CREATETIME => ctime r
  | META_ACCESSTIME => atime r
  | META_CHANGETIME => mtime r
  end.
End driver.

(** ** Volume descriptors and mounting (volume_descriptor.c, init.c) *)

Section mount.
Context {V : Type} `{VV : Volume V} `{MM : Malloc} `{GG : Garbage}.

Definition iso9660_voldesc_checksig (header : list Z) : bool :=
  bool_decide (subrange header 1 6 = [67; 68; 48; 48; 49; 1]).

(** The type is the first byte; before the first one is read it is whatever is there. *)
Fixpoint voldesc_loop (fuel : nat) (v : V) (type i : Z) (header : list Z) : option (option (Z * list Z) * V) :=
  if (u8 header 0 =? type) || (u8 header 0 =? ISO9660_VOLDESC_TERM) then Some (Some (i, header), v)
  else
    match fuel with
    | O => None
    | S fuel =>
        let '(h, v) := data_read v (w32 (i * ISO9660_DEFAULT_SECTOR_SIZE)) 7 in
        if negb (Z.of_nat (length h) =? 7) then Some (None, v)
        else if negb (iso9660_voldesc_checksig h) then Some (None, v)
        else voldesc_loop fuel v type (i + 1) h
    end.

(** [None] if the loop does not end; otherwise the descriptor, if there is one. *)
Definition iso9660_voldesc_load (fuel : nat) (v : V) (type : Z) : option (option (list Z) * V) :=
  '(x, v) ← voldesc_loop fuel v type ISO9660_FIRST_SECTOR (garbage 7);
  match x with
  | None => Some (None, v)
  | Some (i, header) =>
      if u8 header 0 =? type then
        let '(b, v) := data_read v (w32 ((i - 1) * ISO9660_DEFAULT_SECTOR_SIZE)) 929 in
        Some (Some (b ++ drop (length b) (garbage 929)), v)
      else Some (None, v)
  end.

(** Fields of the primary descriptor. *)
Definition pv_sector_size (b : list Z) : Z := field b 128 2.
Definition pv_root_dir (b : list Z) : list Z := drop 156 b.

Definition iso9660_sector_read_cache (v : V) (block count : Z) : Z * list Z * V :=
  let '(bytes, v) := data_read v (w64 (block * ISO9660_DEFAULT_SECTOR_SIZE)) (w32 (count * ISO9660_DEFAULT_SECTOR_SIZE)) in
  (Z.of_nat (length bytes) / ISO9660_DEFAULT_SECTOR_SIZE, bytes, v).

(** The root and the sector size, with the new cache; nothing if there is no primary
    descriptor. *)
Definition iso9660_fs_init (fuel : nat) (v : V) : option (option (outcome (state V) (iso9660_fs_res * Z))) :=
  '(b, v) ← iso9660_voldesc_load fuel v ISO9660_VOLDESC_PRIM;
  match b with
  | None => Some None
  | Some b =>
      Some (Some ((r ← iso9660_dirrec_load (pv_root_dir b); mret (r, pv_sector_size b))
                    (cdi_cache_create (pv_sector_size b) 0 v)))
  end.
End mount.

(** ** Correctness: files *)

Section proofs.
Context {D : Type} `{DD : Device D} `{MM : Malloc} `{GG : Garbage} {ss capacity : Z}
  `{LL : !DeviceLaws D ss capacity}.
Implicit Types s : state D.

(** Below 2^32 sectors the loop is that of the FAT driver, from the first sector on. *)
Lemma iso_loop_eq fuel base block off rem s :
  0 < ss -> 0 <= base -> 0 <= block -> 0 <= rem -> (base + block) * ss + rem <= 4294967296 * ss ->
  iso_loop fuel ss base block off rem s = read_loop fuel ss (base + block) off rem s.
Proof.
  intros Hss Hbase. revert block off rem s.
  induction fuel as [|fuel IH]; intros block off rem s Hb Hr Hend; [done|]. cbn [iso_loop read_loop].
  destruct (Z.eqb_spec rem 0) as [|Hr0]; [done|].
  assert (base + block < 4294967296) by nia.
  replace (w64 (base + block)) with (base + block) by (unfold w64; rewrite Z.mod_small by lia; done).
  apply bind_same. intros a s1. apply bind_same. intros b s2. destruct (_ <=? _); [|done].
  apply bind_same. intros [] s3. apply bind_same_l.
  destruct (Z.ltb_spec ss rem) as [Hlt|Hge].
  - assert (base + block + 1 < 4294967296) by nia. rewrite !w32_small by lia.
    rewrite IH by lia. f_equal. lia.
  - rewrite Z.sub_diag. by destruct fuel.
Qed.

(** A resource whose data lies on the volume. *)
Definition data_on_volume (r : iso9660_fs_res) : Prop :=
  0 <= data_sector r /\ 0 <= data_size r < 4294967296 /\
  data_sector r * ss + data_size r <= capacity * ss /\ capacity < 4294967296.

Lemma iso9660_read_ok l s base pos size :
  idle (bs := ss) (capacity := capacity) l s -> 0 <= base -> 0 <= pos -> 0 <= size -> aligned (ss := ss) pos size ->
  base * ss + pos + size <= capacity * ss -> capacity < 4294967296 ->
  exists s' l', iso9660_read ss base pos size s = Ret (volume (ss := ss) (capacity := capacity) s (base * ss + pos) size) s' /\
    idle (bs := ss) (capacity := capacity) l' s' /\ same_view (capacity := capacity) s s'.
Proof.
  intros Hid Hb Hp Hs Hal Hend Hcap.
  pose proof (capacity_small (D := D) (bs := ss) (capacity := capacity)) as (Hss & _).
  pose proof (Z.div_mod pos ss ltac:(lia)) as Edm. pose proof (Z.mod_pos_bound pos ss Hss) as Hm.
  assert (Hq : 0 <= pos / ss) by (apply Z.div_pos; lia).
  unfold iso9660_read. rewrite (proj2 (Z.eqb_neq ss 0)) by lia.
  rewrite iso_loop_eq by (done || nia).
  destruct (read_loop_ok (ss := ss) (capacity := capacity) (Z.to_nat size) l s (base + pos / ss) (pos mod ss) size)
    as (s' & l' & E & H); auto; try nia.
  exists s', l'. split; [|done]. rewrite E. f_equal. f_equal. lia.
Qed.

(** Reading a file of a CD from a sector boundary (or inside one sector) gives the
    bytes of its extent, cut off at the size of the file, and nothing behind its end; the
    contents of the volume stay. *)
Theorem iso_file_read_correct l s r start size :
  idle (bs := ss) (capacity := capacity) l s -> data_on_volume r ->
  0 <= start < 18446744073709551616 - 4294967296 -> 0 <= size < 4294967296 -> aligned (ss := ss) start size ->
  exists s' l', iso9660_fs_file_read ss r start size s =
      Ret (volume (ss := ss) (capacity := capacity) s (data_sector r * ss + start)
             (Z.max 0 (Z.min size (data_size r - start)))) s' /\
    idle (bs := ss) (capacity := capacity) l' s' /\ same_view (capacity := capacity) s s'.
Proof.
  intros Hid (Hb & Hds & Hend & Hcap) Hst Hsz Hal. unfold iso9660_fs_file_read.
  destruct (Z.ltb_spec (data_size r) start) as [Hgt|Hle].
  { rewrite Z.max_l by lia. exists s, l. by split_and!. }
  assert (En : (if data_size r <? w64 (start + size) then w32 (data_size r - start) else size) =
    Z.max 0 (Z.min size (data_size r - start))).
  { unfold w64. rewrite Z.mod_small by lia.
    destruct (Z.ltb_spec (data_size r) (start + size)); [rewrite w32_small|]; lia. }
  rewrite En, (w32_small start) by lia. apply iso9660_read_ok with l; try done; try lia.
  destruct Hal; [by left|right; lia].
Qed.

(** ** Correctness: Rock Ridge *)

(** A system use entry: its signature, the version, and what follows the version. *)
Record sue := Sue { sig : Z; version : Z; payload : list Z }.

Definition enc_sue (e : sue) : list Z :=
  [sig e mod 256; sig e / 256; 4 + Z.of_nat (length (payload e)); version e] ++ payload e.

Definition enc_area (es : list sue) : list Z := concat (enc_sue <$> es).

(** Signatures are not those that end the area, and there is at least one byte, in a PX
    entry those of the mode. *)
Record sue_ok (e : sue) : Prop := {
  so_sig : 0 < sig e < 65536;
  so_st : sig e <> SIG_ST;
  so_len : (0 < length (payload e) < 252)%nat;
  so_px : sig e = SIG_PX -> (4 <= length (payload e))%nat;
}.

(** What an entry adds: the mode of PX, and a part of the name or that of a dot entry. *)
Definition see (x : rockridge) (e : sue) : rockridge :=
  if sig e =? SIG_PX then Rockridge (dots x) (rr_name x) (le32 (take 4 (payload e)))
  else if sig e =? SIG_NM then
    if Z.testbit (u8 (payload e) 0) 1 then Rockridge (Some [46]) (rr_name x) (rr_mode x)
    else if Z.testbit (u8 (payload e) 0) 2 then Rockridge (Some [46; 46]) (rr_name x) (rr_mode x)
    else Rockridge (dots x) (Some (default [] (rr_name x) ++ drop 1 (payload e))) (rr_mode x)
  else x.

Lemma enc_sue_length e : length (enc_sue e) = (4 + length (payload e))%nat.
Proof. done. Qed.

Lemma field_at m pre k off n : m = pre ++ k -> off = Z.of_nat (length pre) -> 0 <= n ->
  field m off n = le32 (take (Z.to_nat n) k).
Proof. intros -> -> Hn. unfold field, subrange. by rewrite Nat2Z.id, drop_app_length. Qed.

Lemma u8_at m pre k off i : m = pre ++ k -> off = Z.of_nat (length pre) + Z.of_nat i -> u8 m off = k !!! i.
Proof.
  intros -> ->. unfold u8. rewrite lookup_total_app_r by lia. f_equal. lia.
Qed.

Lemma sig_at m pre e k off : m = pre ++ enc_sue e ++ k -> off = Z.of_nat (length pre) -> field m off 2 = sig e.
Proof.
  intros Hm Ho. rewrite (field_at m pre _ off 2 Hm Ho) by lia. change (Z.to_nat 2) with 2%nat.
  cbn -[Z.modulo Z.div]. pose proof (Z.div_mod (sig e) 256 ltac:(lia)). lia.
Qed.

Lemma payload_at m pre e k off n : m = pre ++ enc_sue e ++ k -> off = Z.of_nat (length pre) ->
  (n <= length (payload e))%nat -> take n (drop (Z.to_nat (off + 4)) m) = take n (payload e).
Proof.
  intros -> -> Hn. rewrite Z2Nat.inj_add, Nat2Z.id by lia. rewrite <- drop_drop, drop_app_length.
  change (Z.to_nat 4) with 4%nat. unfold enc_sue. cbn -[take Z.modulo Z.div]. by apply take_app_le.
Qed.

Lemma scan_loop_ok {St} fuel pre es rest size off x (s : St) :
  Forall sue_ok es -> off = Z.of_nat (length pre) -> size = off + Z.of_nat (length (enc_area es)) ->
  (length es < fuel)%nat ->
  scan_loop fuel (pre ++ enc_area es ++ rest) size off x s = Ret (foldl see x es) s.
Proof.
  revert fuel pre off x. induction es as [|e es IH]; intros fuel pre off x Hes Ho Hsz Hf;
    (destruct fuel as [|fuel]; [simpl in Hf; lia|]); cbn [scan_loop].
  { rewrite (proj2 (Z.ltb_ge (off + 4) size)) by (simpl in Hsz; lia). by rewrite andb_false_r. }
  apply Forall_cons in Hes as [[Hsig Hst Hlen Hpx] Hes]. unfold enc_area in *. rewrite fmap_cons in *. cbn [concat] in *.
  rewrite length_app, enc_sue_length in Hsz. simpl in Hf.
  set (m := pre ++ _). assert (Hm : m = pre ++ enc_sue e ++ (concat (enc_sue <$> es) ++ rest)) by (unfold m; by rewrite <- !app_assoc).
  rewrite (sig_at m pre e _ off Hm Ho).
  rewrite (proj2 (Z.eqb_neq _ SIG_ST)), (proj2 (Z.eqb_neq _ 0)), (proj2 (Z.ltb_lt (off + 4) size)) by (done || lia).
  cbn [negb andb].
  assert (Hn : u8 m (off + 2) = 4 + Z.of_nat (length (payload e))).
  { by rewrite (u8_at m pre _ (off + 2) 2 Hm) by lia. }
  assert (Hfl : u8 m (off + 4) = u8 (payload e) 0).
  { rewrite (u8_at m pre _ (off + 4) 4 Hm) by lia. unfold enc_sue, u8. destruct (payload e); [simpl in Hlen; lia|done]. }
  assert (Hmode : sig e = SIG_PX -> field m (off + 4) 4 = le32 (take 4 (payload e))).
  { intros Hp. unfold field, subrange. change (Z.to_nat 4) with 4%nat. by rewrite (payload_at m pre e _ off 4 Hm Ho (Hpx Hp)). }
  assert (Hname : subrange m (off + 5) (4 + Z.of_nat (length (payload e)) - 5) = drop 1 (payload e)).
  { unfold subrange. replace (off + 5) with (off + 4 + 1) by lia. rewrite Z2Nat.inj_add, <- drop_drop by lia.
    replace (Z.to_nat (4 + _ - 5)) with (length (payload e) - 1)%nat by lia.
    rewrite take_drop_commute. rewrite (payload_at m pre e _ off _ Hm Ho) by lia. rewrite firstn_all2 by lia. done. }
  rewrite Hn, Hfl, Hname.
  match goal with |- (?c ≫= ?k) s = _ => assert (Hc : c s = Ret (see x e) s) end.
  { unfold see. destruct (Z.eqb_spec (sig e) SIG_PX) as [Hp|]; [by rewrite (Hmode Hp)|].
    destruct (sig e =? SIG_NM); [|done]. repeat (case_match; try done). zbool. lia. }
  rewrite (bind_Ret _ _ _ _ _ Hc).
  replace m with ((pre ++ enc_sue e) ++ concat (enc_sue <$> es) ++ rest) by (rewrite Hm; by rewrite !app_assoc).
  apply IH; [done|rewrite length_app, enc_sue_length; lia|lia|lia].
Qed.

(** What an area says, read off its entries: the mode of the last PX entry, the parts of
    the name in order, the last dot entry. *)
Definition px_of (e : sue) : option Z := if sig e =? SIG_PX then Some (le32 (take 4 (payload e))) else None.

Definition dots_of (e : sue) : option (list Z) :=
  if sig e =? SIG_NM then
    if Z.testbit (u8 (payload e) 0) 1 then Some [46]
    else if Z.testbit (u8 (payload e) 0) 2 then Some [46; 46] else None
  else None.

Definition part_of (e : sue) : option (list Z) :=
  if (sig e =? SIG_NM) && bool_decide (dots_of e = None) then Some (drop 1 (payload e)) else None.

Definition area_mode (es : list sue) : option Z := last (omap px_of es).

Definition area_name (es : list sue) : option (list Z) :=
  match omap part_of es with [] => last (omap dots_of es) | ps => Some (concat ps) end.

Definition joined (old : option (list Z)) (ps : list (list Z)) : option (list Z) :=
  match ps with [] => old | _ => Some (default [] old ++ concat ps) end.

Lemma last_cons_or {A} (x : A) l : last (x :: l) = or_else (last l) (Some x).
Proof. rewrite last_cons. by destruct (last l). Qed.

Lemma omap_cons_eq {A B} (f : A -> option B) x l :
  omap f (x :: l) = match f x with Some y => y :: omap f l | None => omap f l end.
Proof. done. Qed.

Lemma see_all x es : foldl see x es =
  Rockridge (or_else (last (omap dots_of es)) (dots x)) (joined (rr_name x) (omap part_of es))
    (default (rr_mode x) (area_mode es)).
Proof.
  unfold area_mode. revert x. induction es as [|e es IH]; intros x; [by destruct x|]. cbn [foldl]. rewrite IH.
  rewrite !omap_cons_eq.
  generalize (omap dots_of es) (omap part_of es) (omap px_of es). intros ds ps ms.
  unfold see, part_of, dots_of, px_of. assert (SIG_PX <> SIG_NM) by done.
  destruct (Z.eqb_spec (sig e) SIG_PX) as [E1|E1], (Z.eqb_spec (sig e) SIG_NM) as [E2|E2]; try congruence;
    cbn [andb dots rr_name rr_mode]; rewrite ?last_cons_or; try (by destruct (last ms)).
  destruct (Z.testbit _ 1); [|destruct (Z.testbit _ 2)]; cbn -[concat last]; rewrite ?last_cons_or;
    destruct (last ds), ps; cbn; by rewrite ?app_nil_r, <- ?app_assoc.
Qed.

(** A directory record: the header, the identifier, a byte of padding to an even offset,
    and the system use area. *)
Record dirent := Dirent { hdr : list Z; ident : list Z; area : list sue }.

Definition padding (d : dirent) : list Z := if (IDENTIFIER + Z.of_nat (length (ident d))) mod 2 =? 1 then [0] else [].

Definition enc_dirent (d : dirent) : list Z := hdr d ++ ident d ++ padding d ++ enc_area (area d).

(** A record with an area starts it with RR and has a mode; without one the record must
    have a date, and the memory behind it must not look like an area. *)
Record dirent_ok (behind : list Z) (d : dirent) : Prop := {
  do_hdr : length (hdr d) = 33%nat;
  do_size : record_size (hdr d) = Z.of_nat (length (enc_dirent d));
  do_small : Z.of_nat (length (enc_dirent d)) < 256;
  do_ident : identifier_length (hdr d) = Z.of_nat (length (ident d));
  do_area : Forall sue_ok (area d);
  do_name : area_name (area d) = None -> is_Some (parse_name (enc_dirent d));
  do_rr : match area d with
          | [] => le32 (take 2 behind) <> SIG_RR /\ is_Some (parse_date (hdr d))
          | e :: _ => sig e = SIG_RR /\ is_Some (area_mode (area d))
          end;
}.

(** The resource of a record. *)
Definition resource (d : dirent) : iso9660_fs_res :=
  let mode := area_mode (area d) in
  let ct := match mode with Some _ => 0 | None => default 0 (parse_date (hdr d)) end in
  let '(c, t) := match mode with Some mode => parse_class mode | None => (CLASS_FILE, 0) end in
  let c := if bool_decide (c = CLASS_FILE) && Z.testbit (flags_of (hdr d)) 1 then CLASS_DIR else c in
  Res (cut_string (default [] (or_else (area_name (area d)) (parse_name (enc_dirent d))))) c t ct ct ct
    (data_sector_of (hdr d)) (data_size_of (hdr d)) false None.

Lemma u8_hdr k d i : dirent_ok k d -> 0 <= i < 33 -> u8 (enc_dirent d ++ k) i = u8 (hdr d) i.
Proof.
  intros [Hh _ _ _ _ _ _] Hi. unfold u8, enc_dirent. rewrite <- app_assoc, lookup_total_app_l; [done|]. rewrite Hh. lia.
Qed.

Lemma field_hdr k d off n : dirent_ok k d -> 0 <= off -> 0 <= n -> off + n <= 33 ->
  field (enc_dirent d ++ k) off n = field (hdr d) off n.
Proof.
  intros [Hh _ _ _ _ _ _] Ho Hn Hle. unfold field, enc_dirent. rewrite <- app_assoc, subrange_app_l; [done|lia..].
Qed.

Lemma parse_date_hdr k d : dirent_ok k d -> parse_date (enc_dirent d ++ k) = parse_date (hdr d).
Proof. intros Hd. unfold parse_date. by rewrite !(u8_hdr k d) by (done || lia). Qed.

Lemma area_count es : Forall sue_ok es -> (5 * length es <= length (enc_area es))%nat.
Proof.
  induction 1 as [|e es [_ _ Hl _] _ IH]; [simpl; lia|]. unfold enc_area in *.
  rewrite fmap_cons. cbn [concat length]. rewrite length_app, enc_sue_length. lia.
Qed.

Lemma rockridge_scan_ok {St} k d (s : St) : dirent_ok k d ->
  iso9660_rockridge_scan (enc_dirent d ++ k) s =
  Ret (match area d with [] => None | es => Some (area_name es, default 0 (area_mode es)) end) s.
Proof.
  intros Hd. pose proof Hd as [Hh Hsz Hsm Hid Ha _ Hrr]. unfold iso9660_rockridge_scan, identifier_length, record_size.
  rewrite (u8_hdr k d 32), (u8_hdr k d 0) by (done || lia). fold (identifier_length (hdr d)) (record_size (hdr d)).
  rewrite Hid, Hsz. set (pre := hdr d ++ ident d ++ padding d).
  assert (Hoff : (if (IDENTIFIER + Z.of_nat (length (ident d))) mod 2 =? 1 then IDENTIFIER + Z.of_nat (length (ident d)) + 1
    else IDENTIFIER + Z.of_nat (length (ident d))) = Z.of_nat (length pre)).
  { unfold pre, padding. rewrite !length_app, Hh. unfold IDENTIFIER. destruct (_ =? 1); simpl length; lia. }
  cbv zeta. rewrite Hoff. set (off := Z.of_nat (length pre)) in *.
  assert (Hm : enc_dirent d ++ k = pre ++ enc_area (area d) ++ k)
    by (unfold enc_dirent, pre; by rewrite <- !app_assoc).
  assert (Hlen : Z.of_nat (length (enc_dirent d)) = off + Z.of_nat (length (enc_area (area d)))).
  { unfold enc_dirent, off, pre. rewrite !length_app. lia. }
  rewrite Hm, Hlen. pose proof (area_count _ Ha) as Hc.
  destruct (area d) as [|e es] eqn:Ea; destruct Hrr as [Hrr Hx].
  - rewrite (field_at _ pre (k) off 2) by (done || lia). by rewrite (proj2 (Z.eqb_neq _ SIG_RR)).
  - rewrite (sig_at _ pre e (enc_area es ++ k) off), Hrr, Z.eqb_refl;
      [|unfold enc_area; rewrite fmap_cons; cbn [concat]; by rewrite <- app_assoc|done].
    assert (Hsc := scan_loop_ok 256 pre (e :: es) (k) (off + Z.of_nat (length (enc_area (e :: es)))) off
      (Rockridge None None (le32 (garbage 4))) s Ha eq_refl eq_refl ltac:(lia)).
    rewrite (bind_Ret _ _ _ _ _ Hsc), see_all. cbn [rr_name rr_mode dots]. unfold area_name, joined, mret, cmd_ret.
    destruct Hx as [x ->]. destruct (omap part_of (e :: es)); [|done]. by destruct (last _).
Qed.

Lemma parse_name_hdr k d : dirent_ok k d -> parse_name (enc_dirent d ++ k) = parse_name (enc_dirent d).
Proof.
  intros Hd. pose proof Hd as [Hh _ _ Hid _ _ _].
  assert (Hl : 33 + Z.of_nat (length (ident d)) <= Z.of_nat (length (enc_dirent d))).
  { unfold enc_dirent. rewrite !length_app, Hh. lia. }
  assert (Hu : forall i, 0 <= i < Z.of_nat (length (enc_dirent d)) -> u8 (enc_dirent d ++ k) i = u8 (enc_dirent d) i).
  { intros i Hi. unfold u8. rewrite lookup_total_app_l; [done|lia]. }
  assert (En : identifier_length (enc_dirent d) = Z.of_nat (length (ident d))).
  { rewrite <- Hid. unfold identifier_length. by rewrite <- Hu, (u8_hdr k d 32) by (done || lia). }
  unfold parse_name, identifier_length in *. rewrite (Hu 32), En by lia. unfold IDENTIFIER in *.
  rewrite (Hu (33 + _ - 2)) by lia. set (n := if _ =? 59 then _ else _).
  assert (-2 <= n <= Z.of_nat (length (ident d))) by (unfold n; case_match; lia).
  rewrite (Hu (33 + n - 1)) by lia. set (n' := if _ =? 46 then _ else _).
  assert (n' <= Z.of_nat (length (ident d))) by (unfold n'; case_match; lia).
  destruct (Z.ltb_spec n' 0); [done|]. do 2 f_equal. apply subrange_app_l; lia.
Qed.

Lemma dirrec_load_ok {St} k d (s : St) : dirent_ok k d -> iso9660_dirrec_load (enc_dirent d ++ k) s = Ret (resource d) s.
Proof.
  intros Hd. unfold iso9660_dirrec_load. rewrite (bind_Ret _ _ _ _ _ (rockridge_scan_ok k d s Hd)).
  unfold resource, flags_of, data_sector_of, data_size_of.
  rewrite (u8_hdr k d 25), !(field_hdr k d) by (done || lia). rewrite (parse_date_hdr k d Hd), (parse_name_hdr k d Hd).
  pose proof (do_rr k d Hd) as Hrr. pose proof (do_name k d Hd) as Hn.
  destruct (area d) as [|e es] eqn:Ea.
  - destruct Hrr as [_ [ct Hct]]. destruct (Hn eq_refl) as [n ->]. cbn -[Z.testbit]. rewrite Hct. cbn -[Z.testbit].
    unfold iso9660_fs_res_create, mret, cmd_ret. by destruct (Z.testbit (u8 (hdr d) 25) 1).
  - destruct Hrr as [_ [mode Hmode]]. rewrite Hmode. cbn [default from_option]. change (id mode) with mode.
    destruct (parse_class mode) as [c t]. rewrite bind_ret. unfold iso9660_fs_res_create, mret, cmd_ret.
    destruct (area_name (e :: es)); [|destruct (Hn eq_refl) as [n ->]];
      destruct (bool_decide (c = CLASS_FILE)) eqn:E, (Z.testbit _ 1); cbn;
      try (apply bool_decide_eq_true_1 in E as ->); done.
Qed.

(** ** What the format says

    A directory of a CD as ISO 9660 and Rock Ridge define it, written down without the
    driver's functions: what a record says about a file, and the bytes of the record. *)

(** Kinds of files; character devices are left out, the driver takes them for block
    devices ([char_is_block]). *)
Inductive kind := Regular | Directory | Symlink | BlockDev | Fifo | Socket.

#[export] Instance kind_eq_dec : EqDecision kind.
Proof. solve_decision. Defined.

(** The file type of POSIX: 0100000, 0040000, 0120000, 0060000, 0010000, 0140000. *)
Definition kind_mode (k : kind) : Z :=
  match k with
  | Regular => 32768 | Directory => 16384 | Symlink => 40960
  | BlockDev => 24576 | Fifo => 4096 | Socket => 49152
  end.

(** Class and type of special file. *)
Definition kind_class (k : kind) : res_class * Z :=
  match k with
  | Regular => (CLASS_FILE, 0) | Directory => (CLASS_DIR, 0) | Symlink => (CLASS_LINK, 0)
  | BlockDev => (CLASS_SPECIAL, FS_BLOCK) | Fifo => (CLASS_SPECIAL, FS_FIFO) | Socket => (CLASS_SPECIAL, FS_SOCKET)
  end.

Record info := Info { i_name : list Z; i_kind : kind; i_sector : Z; i_size : Z }.

(** Seven bytes: years since 1900, month, day, hour, minute, second, time zone. *)
Record date := Date { year : Z; month : Z; day : Z; hour : Z; minute : Z; second : Z; zone : Z }.

(** Entries of the system use area: RR with its flags, PX with the mode (and what follows
    it), NM with a part of the name and whether another one follows, others with their two
    letters. *)
Inductive su := RR (flags : Z) | PX (mode : Z) (rest : list Z) | NM (more : bool) (part : list Z)
| Other (a b : Z) (payload : list Z).

Definition le4 (v : Z) : list Z := [v mod 256; v / 256 mod 256; v / 65536 mod 256; v / 16777216 mod 256].

Definition su_sue (x : su) : sue :=
  match x with
  | RR flags => Sue (82 + 82 * 256) 1 [flags]
  | PX mode rest => Sue (80 + 88 * 256) 1 (le4 mode ++ rest)
  | NM more part => Sue (78 + 77 * 256) 1 ((if more then 1 else 0) :: part)
  | Other a b payload => Sue (a + b * 256) 1 payload
  end.

(** Sizes fit into a byte; other entries have other letters, not those of ST and not zeros. *)
Definition su_ok (x : su) : Prop :=
  match x with
  | RR _ => True
  | PX mode rest => 0 <= mode < 4294967296 /\ (length rest < 248)%nat
  | NM _ part => (length part < 251)%nat
  | Other a b payload => 0 <= a < 256 /\ 0 <= b < 256 /\ (0 < length payload < 252)%nat /\
      (a, b) ∉ [(0, 0); (83, 84); (80, 88); (78, 77)]
  end.

Definition su_mode (x : su) : option Z := match x with PX mode _ => Some mode | _ => None end.
Definition su_part (x : su) : option (list Z) := match x with NM _ part => Some part | _ => None end.

(** The header: numbers of four bytes are there twice, least and most significant byte
    first. *)
Definition enc_header (size sector len : Z) (d : date) (dir : bool) (ident_len : Z) : list Z :=
  [size; 0] ++ le4 sector ++ rev (le4 sector) ++ le4 len ++ rev (le4 len) ++
  [year d; month d; day d; hour d; minute d; second d; zone d] ++
  [if dir then 2 else 0; 0; 0; 1; 0; 0; 1; ident_len].

Definition is_dir (i : info) : bool := bool_decide (i_kind i = Directory).

Definition record (i : info) (d : date) (id : list Z) (sus : list su) : dirent :=
  let n := Z.of_nat (length id) in
  Dirent (enc_header (33 + n + (if (33 + n) mod 2 =? 1 then 1 else 0) + Z.of_nat (length (enc_area (su_sue <$> sus))))
    (i_sector i) (i_size i) d (is_dir i) n) id (su_sue <$> sus).

(** A record for [i]: the numbers fit, and either there is an area that starts with RR and has
    one mode, that of the kind with any permissions, or there is none, and the memory
    [behind] the record does not happen to look like one; then [i] is a file or
    directory. *)
Record record_ok (behind : list Z) (i : info) (d : date) (id : list Z) (sus : list su) : Prop := {
  ro_size : Z.of_nat (length (enc_dirent (record i d id sus))) < 256;
  ro_numbers : 0 <= i_sector i < 4294967296 /\ 0 <= i_size i < 4294967296;
  ro_month : 1 <= month d <= 12;
  ro_sus : Forall su_ok sus;
  ro_area : match sus with
            | [] => le32 (take 2 behind) <> 82 + 82 * 256 /\ (i_kind i = Regular \/ i_kind i = Directory)
            | RR _ :: _ => exists perms, omap su_mode sus = [kind_mode (i_kind i) + perms] /\ 0 <= perms < 4096
            | _ => False
            end;
}.

(** Letters, digits and underscore, and the names that plain records give: of files with an
    extension and a version of one digit, of directories without. *)
Definition d_char (c : Z) : Prop := 65 <= c <= 90 \/ 48 <= c <= 57 \/ c = 95.
Definition lower_case (c : Z) : Z := if (65 <=? c) && (c <=? 90) then c + 32 else c.

Inductive plain_name : bool -> list Z -> list Z -> Prop :=
| plain_file base ext v : Forall d_char base -> Forall d_char ext -> base <> [] ->
    plain_name false (base ++ 46 :: ext ++ [59; v]) (lower_case <$> (base ++ match ext with [] => [] | _ => 46 :: ext end))
| plain_dir base : Forall d_char base -> base <> [] -> plain_name true base (lower_case <$> base).

(** The name is that of the NM entries, or else the plain one. *)
Definition named (i : info) (id : list Z) (sus : list su) : Prop :=
  match omap su_part sus with
  | [] => plain_name (is_dir i) id (i_name i)
  | ps => concat ps = i_name i /\ Forall (fun c => c <> 0) (i_name i)
  end.

(** What the driver knows of the file; nothing is said of its times. *)
Definition matches (i : info) (r : iso9660_fs_res) : Prop :=
  name r = i_name i /\ (class r, type r) = kind_class (i_kind i) /\
  data_sector r = i_sector i /\ data_size r = i_size i /\ loaded r = false /\ children r = None.

(** *** The driver follows the format *)

Lemma le32_le4 v : 0 <= v < 4294967296 -> le32 (le4 v) = v.
Proof. intros Hv. unfold le4. cbn -[Z.modulo Z.div]. Z.div_mod_to_equations. lia. Qed.

Lemma su_sue_ok x : su_ok x -> sue_ok (su_sue x).
Proof.
  destruct x as [f|mode rest|more part|a b p]; cbn [su_ok su_sue].
  - intros _. split; cbn; unfold SIG_ST, SIG_PX; lia.
  - intros (Hm & Hl). split; cbn; unfold SIG_ST, SIG_PX; lia.
  - intros Hl. split; cbn; unfold SIG_ST, SIG_PX; lia.
  - intros (Ha & Hb & Hl & Hn).
    assert (Hne : forall x y, 0 <= x < 256 -> 0 <= y < 256 -> (x, y) ∈ [(0, 0); (83, 84); (80, 88); (78, 77)] -> a + b * 256 <> x + y * 256).
    { intros x y Hx Hy Hin E. apply Hn. by replace (a, b) with (x, y) by (f_equal; lia). }
    pose proof (Hne 0 0 ltac:(lia) ltac:(lia) ltac:(set_solver)).
    pose proof (Hne 83 84 ltac:(lia) ltac:(lia) ltac:(set_solver)).
    pose proof (Hne 80 88 ltac:(lia) ltac:(lia) ltac:(set_solver)).
    split; cbn; unfold SIG_ST, SIG_PX; lia.
Qed.

Lemma su_px x : su_ok x -> px_of (su_sue x) = su_mode x.
Proof.
  destruct x as [f|mode rest|more part|a b p]; cbn [su_ok su_sue su_mode]; unfold px_of; cbn [sig payload]; intros H.
  - done.
  - rewrite Z.eqb_refl. destruct H as [H _]. change (take 4 (le4 mode ++ rest)) with (le4 mode). by rewrite le32_le4.
  - done.
  - destruct H as (Ha & Hb & _ & Hn). unfold SIG_PX. destruct (Z.eqb_spec (a + b * 256) (80 + 88 * 256)) as [E|]; [|done].
    destruct Hn. replace (a, b) with (80, 88) by (f_equal; lia). set_solver.
Qed.

Lemma su_name x : su_ok x -> dots_of (su_sue x) = None /\ part_of (su_sue x) = su_part x.
Proof.
  destruct x as [f|mode rest|more part|a b p]; cbn [su_ok su_sue su_part]; unfold part_of, dots_of; cbn [sig payload]; intros H.
  - done.
  - done.
  - rewrite Z.eqb_refl. unfold u8. cbn. by destruct more.
  - destruct H as (Ha & Hb & _ & Hn). unfold SIG_NM. destruct (Z.eqb_spec (a + b * 256) (78 + 77 * 256)) as [E|]; [|done].
    destruct Hn. replace (a, b) with (78, 77) by (f_equal; lia). set_solver.
Qed.

Lemma su_area sus : Forall su_ok sus ->
  area_mode (su_sue <$> sus) = last (omap su_mode sus) /\
  area_name (su_sue <$> sus) = match omap su_part sus with [] => None | ps => Some (concat ps) end.
Proof.
  intros H. unfold area_mode, area_name.
  assert (E : omap px_of (su_sue <$> sus) = omap su_mode sus /\ omap dots_of (su_sue <$> sus) = [] /\
    omap part_of (su_sue <$> sus) = omap su_part sus); [|destruct E as (-> & -> & ->); by destruct (omap su_part sus)].
  induction H as [|x sus Hx _ (E1 & E2 & E3)]; [done|]. rewrite fmap_cons, !omap_cons_eq.
  destruct (su_name x Hx) as [-> ->]. rewrite (su_px x Hx), E1, E2, E3. done.
Qed.

Lemma parse_class_kind k perms : 0 <= perms < 4096 -> parse_class (kind_mode k + perms) = kind_class k.
Proof.
  intros Hp. unfold parse_class.
  assert (E : Z.land (kind_mode k + perms) RS_IFMT = kind_mode k).
  { apply Z.bits_inj'. intros j Hj. rewrite Z.land_spec. change RS_IFMT with (Z.shiftl (Z.ones 4) 12).
    assert (Ek : kind_mode k = Z.shiftl (kind_mode k / 4096) 12) by (by destruct k).
    assert (E12 : (kind_mode k + perms) / 2 ^ 12 = kind_mode k / 4096)
      by (change (2 ^ 12) with 4096; destruct k; cbn [kind_mode]; Z.div_mod_to_equations; lia).
    rewrite Z.shiftl_spec by lia. destruct (decide (j < 12)) as [Hlt|Hge].
    - rewrite (Z.testbit_neg_r (Z.ones 4)), andb_false_r by lia. rewrite Ek, Z.shiftl_spec by lia.
      by rewrite Z.testbit_neg_r by lia.
    - replace (Z.testbit (kind_mode k + perms) j) with (Z.testbit (kind_mode k / 4096) (j - 12)).
      2: { rewrite <- E12, Z.div_pow2_bits by lia. f_equal. lia. }
      rewrite Ek at 2. rewrite Z.shiftl_spec by lia. rewrite Z.testbit_ones by lia.
      destruct (decide (j - 12 < 4)); [rewrite (proj2 (Z.leb_le 0 _)), (proj2 (Z.ltb_lt _ _)) by lia; by rewrite andb_true_r|].
      rewrite (proj2 (Z.ltb_ge _ _)), andb_false_r, andb_false_r by lia. symmetry.
      rewrite <- (Z.mod_small (kind_mode k / 4096) (2 ^ 4)) by (by destruct k). apply Z.mod_pow2_bits_high. lia. }
  rewrite E. by destruct k.
Qed.

Lemma lower_case_ok c : 0 <= c < 128 -> w8 (tolower (s8 c)) = lower_case c.
Proof.
  intros Hc. assert (Es : forall x, 0 <= x < 128 -> s8 x = x).
  { intros x Hx. unfold s8. rewrite w8_small by lia. by rewrite (proj2 (Z.ltb_lt x 128)) by lia. }
  unfold tolower, lower_case, isupper. rewrite (Es c Hc).
  destruct (Z.leb_spec 65 c), (Z.leb_spec c 90); cbn [andb]; rewrite Es, w8_small by lia; done.
Qed.

Lemma d_char_ascii c : d_char c -> 0 <= c < 128 /\ c <> 46 /\ c <> 59 /\ lower_case c <> 0.
Proof. unfold d_char, lower_case. intros H. split_and!; try lia. case_match; zbool; lia. Qed.

Lemma lower_case_fmap l : Forall (fun c => 0 <= c < 128) l -> (fun c => w8 (tolower (s8 c))) <$> l = lower_case <$> l.
Proof. intros H. apply list_fmap_ext. intros j c Hc. apply lower_case_ok. by eapply Forall_lookup_1 in H. Qed.

Lemma cut_string_nonzero l : Forall (fun c => c <> 0) l -> cut_string l = l.
Proof. induction 1 as [|c l Hc _ IH]; [done|]. cbn [cut_string]. rewrite (proj2 (Z.eqb_neq _ _) Hc). by rewrite IH. Qed.

Lemma d_chars_ascii l : Forall d_char l -> Forall (fun c => 0 <= c < 128) l.
Proof. intros Hl. eapply Forall_impl; [exact Hl|]. intros c Hc. by apply d_char_ascii. Qed.

Lemma d_chars_nonzero l : Forall d_char l -> Forall (fun c => c <> 0) (lower_case <$> l).
Proof. intros Hl. apply Forall_fmap. eapply Forall_impl; [exact Hl|]. intros c Hc. by apply d_char_ascii. Qed.

Section one_record.
Context (i : info) (dt : date) (id : list Z) (sus : list su).
#[local] Abbreviation d := (record i dt id sus).

Lemma header_length : length (hdr d) = 33%nat.
Proof. done. Qed.

Lemma record_length : Z.of_nat (length (enc_dirent d)) = record_size (hdr d).
Proof.
  unfold enc_dirent. rewrite !length_app, header_length.
  change (record_size (hdr d)) with (33 + Z.of_nat (length id) + (if (33 + Z.of_nat (length id)) mod 2 =? 1 then 1 else 0) +
    Z.of_nat (length (enc_area (su_sue <$> sus)))).
  unfold padding, IDENTIFIER. change (ident d) with id. change (area d) with (su_sue <$> sus).
  destruct (_ =? 1); cbn [length]; lia.
Qed.

Lemma u8_ident j : 0 <= j < Z.of_nat (length id) -> u8 (enc_dirent d) (33 + j) = id !!! Z.to_nat j.
Proof.
  intros Hj. unfold u8, enc_dirent. rewrite lookup_total_app_r by (rewrite header_length; lia).
  rewrite header_length. change (ident d) with id. rewrite lookup_total_app_l by lia. f_equal. lia.
Qed.

Lemma ident_bytes n : 0 <= n <= Z.of_nat (length id) -> subrange (enc_dirent d) 33 n = take (Z.to_nat n) id.
Proof.
  intros Hn. unfold subrange, enc_dirent. change (Z.to_nat 33) with (length (hdr d)). rewrite drop_app_length.
  change (ident d) with id. by rewrite take_app_le by lia.
Qed.

(** The name that is cut to [n] bytes by the two tests. *)
Lemma parse_name_cut n1 n : id <> [] ->
  n1 = (if u8 (enc_dirent d) (33 + Z.of_nat (length id) - 2) =? 59 then Z.of_nat (length id) - 2 else Z.of_nat (length id)) ->
  n = (if u8 (enc_dirent d) (33 + n1 - 1) =? 46 then n1 - 1 else n1) -> 0 <= n <= Z.of_nat (length id) ->
  parse_name (enc_dirent d) = Some ((fun c => w8 (tolower (s8 c))) <$> take (Z.to_nat n) id).
Proof.
  intros Hne E1 E2 Hn. unfold parse_name. change (identifier_length (enc_dirent d)) with (Z.of_nat (length id)).
  unfold IDENTIFIER. rewrite <- E1, <- E2, (proj2 (Z.ltb_ge n 0)) by lia. by rewrite ident_bytes.
Qed.

Lemma second_last : (2 <= length id)%nat ->
  u8 (enc_dirent d) (33 + Z.of_nat (length id) - 2) = id !!! (length id - 2)%nat.
Proof. intros Hl. replace (33 + _ - 2) with (33 + (Z.of_nat (length id) - 2)) by lia. rewrite u8_ident by lia. f_equal. lia. Qed.

Lemma d_char_lookup base n : Forall d_char base -> (n < length base)%nat -> d_char (base !!! n).
Proof. intros Hb Hn. destruct (lookup_lt_is_Some_2 base n Hn) as [c Hc]. rewrite (list_lookup_total_correct _ _ _ Hc). by eapply Forall_lookup_1 in Hb. Qed.

(** A name of one byte is followed by nothing to cut. *)
Lemma parse_name_single c : id = [c] -> c <> 46 -> parse_name (enc_dirent d) = Some [w8 (tolower (s8 c))].
Proof.
  intros E Hc. assert (El : Z.of_nat (length id) = 1) by (by rewrite E). rewrite (parse_name_cut 1 1).
  - by rewrite E.
  - by rewrite E.
  - rewrite El. change (u8 (enc_dirent d) (33 + 1 - 2)) with (Z.of_nat (length id)). by rewrite El.
  - change (33 + 1 - 1) with (33 + 0). rewrite u8_ident by lia. change (Z.to_nat 0) with 0%nat.
    assert (id !!! 0%nat = c) as -> by (by rewrite E). by rewrite (proj2 (Z.eqb_neq _ _) Hc).
  - lia.
Qed.

Lemma parse_name_file base ext v : id = base ++ 46 :: ext ++ [59; v] -> base <> [] -> Forall d_char ext ->
  Forall d_char base ->
  parse_name (enc_dirent d) = Some (lower_case <$> (base ++ match ext with [] => [] | _ => 46 :: ext end)).
Proof.
  intros E2 Hne Hx Hb. set (b := Z.of_nat (length base)). set (x := Z.of_nat (length ext)).
  assert (El : Z.of_nat (length id) = b + x + 3) by (rewrite E2, length_app; cbn; rewrite length_app; cbn; lia).
  assert (Hbp : 0 < b) by (destruct base; [done|cbn in b; lia]).
  assert (Es : id = (base ++ 46 :: ext) ++ [59; v]) by (rewrite E2, <- (assoc_L (++)); done).
  set (n := if decide (ext = []) then b else b + x + 1).
  rewrite (parse_name_cut (b + x + 1) n).
  - replace (take (Z.to_nat n) id) with (base ++ match ext with [] => [] | _ => 46 :: ext end).
    { f_equal. apply lower_case_fmap. apply Forall_app. split; [by apply d_chars_ascii|].
      destruct ext; [constructor|]. constructor; [lia|by apply d_chars_ascii]. }
    assert (Et : forall a e, id = a ++ e -> Z.of_nat (length a) = n -> a = take (Z.to_nat n) id).
    { intros a e -> <-. by rewrite Nat2Z.id, take_app_length. }
    unfold n, b, x in *. destruct ext as [|e ext].
    + rewrite app_nil_r. apply (Et base (46 :: [59; v])); [exact E2|by rewrite decide_True by done].
    + apply (Et (base ++ 46 :: e :: ext) [59; v]); [exact Es|].
      rewrite decide_False by done. rewrite length_app. cbn [length]. lia.
  - intros E. rewrite E in El. cbn in El. lia.
  - rewrite second_last by lia. assert (id !!! (length id - 2)%nat = 59) as ->; [|rewrite El, Z.eqb_refl; lia].
    replace (length id - 2)%nat with (length (base ++ 46%Z :: ext)) by (rewrite length_app; cbn [length]; lia).
    rewrite Es. by rewrite lookup_total_app_r, Nat.sub_diag by done.
  - replace (33 + (b + x + 1) - 1) with (33 + (b + x)) by lia. rewrite u8_ident by lia.
    replace (id !!! Z.to_nat (b + x)) with ((46 :: ext) !!! length ext).
    2: { rewrite Es, lookup_total_app_l by (rewrite length_app; cbn [length]; lia).
         rewrite lookup_total_app_r by lia. f_equal. lia. }
    unfold n. destruct ext as [|e ext]; [rewrite decide_True by done; unfold x; cbn; lia|].
    rewrite decide_False by done. change ((46 :: e :: ext) !!! length (e :: ext)) with ((e :: ext) !!! length ext).
    by rewrite (proj2 (Z.eqb_neq _ 46)) by (apply d_char_ascii, d_char_lookup; [done|cbn; lia]).
  - unfold n. destruct (decide (ext = [])); lia.
Qed.

Lemma parse_name_dir : Forall d_char id -> id <> [] -> parse_name (enc_dirent d) = Some (lower_case <$> id).
Proof.
  intros Hb Hne. set (b := Z.of_nat (length id)).
  assert (Hbp : 0 < b) by (unfold b; destruct id; [done|cbn; lia]).
  rewrite (parse_name_cut b b Hne); [| | |lia].
  - unfold b. rewrite Nat2Z.id, firstn_all. f_equal. by apply lower_case_fmap, d_chars_ascii.
  - fold b. destruct (decide (b = 1)) as [E|Hb1].
    + rewrite E. change (u8 (enc_dirent d) (33 + 1 - 2)) with b. by rewrite E.
    + unfold b. rewrite second_last by lia.
      by rewrite (proj2 (Z.eqb_neq _ 59)) by (apply d_char_ascii, d_char_lookup; [done|lia]).
  - replace (33 + b - 1) with (33 + (b - 1)) by lia. rewrite u8_ident by lia.
    by rewrite (proj2 (Z.eqb_neq _ 46)) by (apply d_char_ascii, d_char_lookup; [done|lia]).
Qed.

Lemma parse_name_plain dir nm : plain_name dir id nm ->
  parse_name (enc_dirent d) = Some nm /\ Forall (fun c => c <> 0) nm.
Proof.
  remember id as idn eqn:Eid. destruct 1 as [base ext v Hb Hx Hne|base Hb Hne]; rewrite Eid in *.
  - split; [by apply (parse_name_file base ext v)|]. rewrite fmap_app. apply Forall_app.
    split; [by apply d_chars_nonzero|]. destruct ext as [|e ext]; [constructor|].
    rewrite fmap_cons. constructor; [done|by apply d_chars_nonzero].
  - split; [by apply parse_name_dir|by apply d_chars_nonzero].
Qed.

Lemma parse_date_some : 1 <= month dt <= 12 -> is_Some (parse_date (hdr d)).
Proof.
  intros Hm. unfold parse_date. change (u8 (hdr d) 18) with (year dt). change (u8 (hdr d) 19) with (month dt).
  rewrite w32_small by lia.
  enough (H : is_Some (cdi_time_by_date (year dt) (month dt - 1) (u8 (hdr d) 20))) by (destruct H as [t ->]; by eexists).
  unfold cdi_time_by_date. set (t0 := foldl _ 0 _).
  assert (Hd : is_Some (days_per_month (month dt - 1) (year dt))).
  { unfold days_per_month. destruct (lookup_lt_is_Some_2 [31; 28; 31; 30; 31; 30; 31; 31; 30; 31; 30; 31] (Z.to_nat (month dt - 1))) as [x Hx];
      [cbn; lia|]. rewrite Hx. by eexists. }
  destruct Hd as [x Hx].
  enough (H : forall l t, is_Some (foldl (fun t _ => t ← t; d ← days_per_month (month dt - 1) (year dt); Some (w64 (t + d * 24 * 3600))) (Some t) l))
    by (destruct (H (seqZ 0 (month dt - 1)) t0) as [y ->]; by eexists).
  rewrite Hx. induction l as [|a l IH]; intros t; [by eexists|apply IH].
Qed.

Context (behind : list Z) (Hok : record_ok behind i dt id sus).

(** A record of the format is one the lemmas above are about, if its identifier gives a name
    where there is no other. *)
Lemma record_dirent : (omap su_part sus = [] -> is_Some (parse_name (enc_dirent d))) -> dirent_ok behind d.
Proof.
  intros Hn. destruct Hok as [Hs Hnum Hm Hsus Ha]. destruct (su_area sus Hsus) as [Emode Ename]. split.
  - done.
  - symmetry. apply record_length.
  - done.
  - done.
  - apply Forall_fmap. eapply Forall_impl; [exact Hsus|]. apply su_sue_ok.
  - change (area d) with (su_sue <$> sus). rewrite Ename. intros E. apply Hn. by destruct (omap su_part sus).
  - change (area d) with (su_sue <$> sus). rewrite Emode. destruct sus as [|[f| | |] sus']; cbn [fmap list_fmap]; try done.
    + split; [apply Ha|by apply parse_date_some].
    + destruct Ha as (perms & -> & _). split; [done|by eexists].
Qed.

Lemma record_matches : named i id sus -> matches i (resource d).
Proof.
  intros Hn. destruct Hok as [Hs (Hsec & Hsz) Hm Hsus Ha]. destruct (su_area sus Hsus) as [Emode Ename].
  unfold resource. change (area d) with (su_sue <$> sus). rewrite Emode, Ename.
  change (data_sector_of (hdr d)) with (le32 (le4 (i_sector i))). change (data_size_of (hdr d)) with (le32 (le4 (i_size i))).
  rewrite !le32_le4 by done. change (flags_of (hdr d)) with (if is_dir i then 2 else 0).
  assert (Hname : cut_string (default [] (or_else (match omap su_part sus with [] => None | ps => Some (concat ps) end)
    (parse_name (enc_dirent d)))) = i_name i).
  { unfold named in Hn. destruct (omap su_part sus) as [|p ps].
    - destruct (parse_name_plain _ _ Hn) as [-> Hnz]. cbn. by apply cut_string_nonzero.
    - destruct Hn as [Hc Hnz]. cbn [or_else default from_option]. change (Datatypes.id ?x) with x. rewrite Hc.
      by apply cut_string_nonzero. }
  assert (Hdir : Z.testbit (if is_dir i then 2 else 0) 1 = is_dir i) by (by destruct (is_dir i)). rewrite Hdir.
  destruct sus as [|[f| | |] sus'] eqn:Es; try done.
  - destruct Ha as [_ Hk]. cbn [omap list_omap last]. unfold matches. cbn [name class type data_sector data_size loaded children].
    split; [exact Hname|]. unfold is_dir. destruct Hk as [->| ->]; done.
  - destruct Ha as (perms & E & Hp). rewrite E. cbn [last]. rewrite parse_class_kind by done. unfold matches, is_dir.
    destruct (kind_class (i_kind i)) as [c t] eqn:Ek. cbn [name class type data_sector data_size loaded children].
    split; [exact Hname|]. split; [|done]. f_equal. destruct (i_kind i); injection Ek as <- <-; done.
Qed.
End one_record.

(** ** Correctness: directories *)

(** The bytes of a directory from [pos] on: records, none of which crosses a sector, with
    zeros between them. *)
Inductive listing (pos : Z) : list Z -> list dirent -> Prop :=
| listing_end : listing pos [] []
| listing_zero bytes ds : listing (pos + 1) bytes ds -> listing pos (0 :: bytes) ds
| listing_record d bytes ds :
    dirent_ok (garbage 512) d -> pos mod ss + Z.of_nat (length (enc_dirent d)) <= ss ->
    listing (pos + Z.of_nat (length (enc_dirent d))) bytes ds -> listing pos (enc_dirent d ++ bytes) (d :: ds).

#[local] Abbreviation vol := (volume (ss := ss) (capacity := capacity)).
#[local] Abbreviation byte := (byte_at (ss := ss) (capacity := capacity)).

Lemma volume_cons s p n : 0 < n -> vol s p n = byte s p :: vol s (p + 1) (n - 1).
Proof.
  intros. replace n with (1 + (n - 1)) at 1 by lia. rewrite volume_app by lia. unfold volume at 1.
  by rewrite seqZ_cons, seqZ_nil by lia.
Qed.

Lemma listing_inv s pos p n ds : listing pos (vol s p n) ds -> 0 < n ->
  (byte s p = 0 /\ listing (pos + 1) (vol s (p + 1) (n - 1)) ds) \/
  exists d ds', let k := Z.of_nat (length (enc_dirent d)) in
    ds = d :: ds' /\ dirent_ok (garbage 512) d /\ pos mod ss + k <= ss /\ 0 < k <= n /\ byte s p = k /\
    vol s p k = enc_dirent d /\ listing (pos + k) (vol s (p + k) (n - k)) ds'.
Proof.
  intros Hl Hn. inversion Hl as [Hb|bytes ds0 Hr Hb|d bytes ds0 Hd Hfit Hr Hb]; subst.
  - symmetry in Hb. rewrite (volume_cons s p n Hn) in Hb. done.
  - left. rewrite (volume_cons s p n Hn) in Hb. by simplify_eq.
  - right. exists d, ds0. intros k. fold k in Hfit, Hr.
    assert (Hlen : length (enc_dirent d ++ bytes) = Z.to_nat n) by (rewrite Hb; apply length_volume; lia).
    rewrite length_app in Hlen. pose proof (do_hdr _ d Hd) as Hh.
    assert (Hk : 33 <= k <= n) by (unfold k; unfold enc_dirent in *; rewrite !length_app in *; lia).
    replace n with (k + (n - k)) in Hb by lia. rewrite volume_app in Hb by lia.
    apply app_inj_1 in Hb as [Hb1 Hb2]; [|rewrite length_volume; lia]. rewrite <- Hb2.
    split_and!; auto; try lia.
    unfold k. rewrite <- (do_size _ d Hd). unfold record_size. rewrite <- (u8_hdr (garbage 512) d 0) by (done || lia).
    rewrite Hb1, volume_cons by lia. done.
Qed.

Lemma volume_nil s p n : n <= 0 -> vol s p n = [].
Proof. intros. unfold volume. by rewrite seqZ_nil. Qed.

Lemma listing_nil pos ds : listing pos [] ds -> ds = [].
Proof.
  inversion 1 as [| |d bytes ds0 Hd _ _ Hb]; [done|]. pose proof (do_hdr _ d Hd) as Hh.
  apply app_nil in Hb as [Hb _]. unfold enc_dirent in Hb. apply app_nil in Hb as [Hb _]. by rewrite Hb in Hh.
Qed.

Lemma listed i d ds (out : list iso9660_fs_res) :
  reverse (resource <$> drop (2 - S i) ds) ++ (if (1 <? i)%nat then resource d :: out else out) =
  reverse (resource <$> drop (2 - i) (d :: ds)) ++ out.
Proof.
  destruct (Nat.ltb_spec 1 i) as [Hi|Hi].
  - replace (2 - i)%nat with 0%nat by lia. replace (2 - S i)%nat with 0%nat by lia.
    cbn [drop]. by rewrite fmap_cons, reverse_cons, <- app_assoc.
  - replace (2 - i)%nat with (S (2 - S i))%nat by lia. done.
Qed.

Lemma dir_loop_ok fuel l s base size pos i out ds :
  idle (bs := ss) (capacity := capacity) l s -> listing pos (vol s (base * ss + pos) (size - pos)) ds ->
  0 <= base -> 0 <= pos <= size -> size < 4294967296 -> base * ss + size <= capacity * ss -> capacity < 4294967296 ->
  (Z.to_nat (size - pos) <= fuel)%nat ->
  exists s' l', dir_loop fuel ss base size pos i out s = Ret (reverse (resource <$> drop (2 - i) ds) ++ out) s' /\
    idle (bs := ss) (capacity := capacity) l' s' /\ same_view (capacity := capacity) s s'.
Proof.
  intros Hid Hl Hbase Hpos Hsz Hend Hcap Hf. revert l s pos i out ds Hid Hl Hpos Hf.
  pose proof (capacity_small (D := D) (bs := ss) (capacity := capacity)) as (Hss & _).
  induction fuel as [|fuel IH]; intros l s pos i out ds Hid Hl Hpos Hf; cbn [dir_loop];
    (destruct (Z.leb_spec size pos) as [Hge|Hlt];
     [rewrite volume_nil in Hl by lia; apply listing_nil in Hl as ->; exists s, l; rewrite drop_nil; by split_and!|]);
    [lia|].
  pose proof (Z.mod_pos_bound pos ss Hss) as Hm.
  destruct (iso9660_read_ok l s base pos 1 Hid) as (s1 & l1 & E1 & Hid1 & Hv1); try lia; [right; lia|].
  rewrite (bind_Ret _ _ _ _ _ E1). rewrite volume_cons by lia. cbn [lookup_total list_lookup_total].
  destruct (listing_inv s pos (base * ss + pos) (size - pos) ds Hl ltac:(lia)) as
    [(-> & Hr)|(d & ds' & -> & Hd & Hfit & Hk & -> & He & Hr)].
  - rewrite Z.eqb_refl, w32_small by lia.
    destruct (IH l1 s1 (pos + 1) i out ds) as (s2 & l2 & E2 & Hid2 & Hv2); auto; try lia.
    { rewrite (same_view_volume s s1) by done. by rewrite !Z.add_assoc, Z.sub_add_distr. }
    exists s2, l2. split_and!; [done..|by eapply same_view_trans].
  - set (k := Z.of_nat (length (enc_dirent d))) in *. rewrite (proj2 (Z.eqb_neq k 0)) by lia.
    destruct (iso9660_read_ok l1 s1 base pos k Hid1) as (s2 & l2 & E2 & Hid2 & Hv2); try lia; [right; lia|].
    rewrite (bind_Ret _ _ _ _ _ E2), (same_view_volume s s1), He by done.
    match goal with |- exists _ _, (?c ≫= _) s2 = _ /\ _ =>
      assert (Hc : c s2 = Ret (if (1 <? i)%nat then resource d :: out else out) s2) end.
    { destruct (1 <? i)%nat; [|done]. by rewrite (bind_Ret _ _ _ _ _ (dirrec_load_ok (garbage 512) d s2 Hd)). }
    rewrite (bind_Ret _ _ _ _ _ Hc), w32_small by lia. assert (Hv := same_view_trans _ _ _ Hv1 Hv2).
    destruct (IH l2 s2 (pos + k) (S i) (if (1 <? i)%nat then resource d :: out else out) ds') as (s3 & l3 & E3 & Hid3 & Hv3);
      auto; try lia.
    { rewrite (same_view_volume s s2) by done. by rewrite !Z.add_assoc, Z.sub_add_distr. }
    exists s3, l3. split_and!; [rewrite E3; f_equal|done|by eapply same_view_trans]. apply listed.
Qed.

(** The bytes of a directory from [pos] on as the format has them: first the records with
    the identifiers in [first] (0 for the directory itself, 1 for its parent), then those
    of its files; no record crosses a sector, and zeros may stand between them.  The files
    are listed in [files]. *)
Inductive directory : list Z -> Z -> list Z -> list info -> Prop :=
| directory_end pos : directory [] pos [] []
| directory_zero first pos bytes files :
    directory first (pos + 1) bytes files -> directory first pos (0 :: bytes) files
| directory_self c first pos i dt sus bytes files :
    let b := enc_dirent (record i dt [c] sus) in
    record_ok (garbage 512) i dt [c] sus -> pos mod ss + Z.of_nat (length b) <= ss ->
    directory first (pos + Z.of_nat (length b)) bytes files -> directory (c :: first) pos (b ++ bytes) files
| directory_file pos i dt id sus bytes files :
    let b := enc_dirent (record i dt id sus) in
    record_ok (garbage 512) i dt id sus -> named i id sus -> pos mod ss + Z.of_nat (length b) <= ss ->
    directory [] (pos + Z.of_nat (length b)) bytes files -> directory [] pos (b ++ bytes) (i :: files).

Lemma directory_listing first pos bytes files : directory first pos bytes files -> Forall (fun c => c <> 46) first ->
  exists ds, listing pos bytes ds /\ Forall2 (fun i d => matches i (resource d)) files (drop (length first) ds).
Proof.
  induction 1 as [pos|first pos bytes files _ IH|c first pos i dt sus bytes files b Hr Hfit _ IH|
    pos i dt id sus bytes files b Hr Hn Hfit _ IH]; intros Hf.
  - exists []. split; constructor.
  - destruct (IH Hf) as (ds & Hl & Hm). exists ds. split; [by constructor|done].
  - apply Forall_cons in Hf as [Hc Hf]. destruct (IH Hf) as (ds & Hl & Hm). exists (record i dt [c] sus :: ds).
    split; [|done]. apply listing_record; [|done..]. apply (record_dirent i dt [c] sus _ Hr).
    intros _. by rewrite (parse_name_single i dt [c] sus c).
  - destruct (IH Hf) as (ds & Hl & Hm). exists (record i dt id sus :: ds). split.
    + apply listing_record; [|done..]. apply (record_dirent i dt id sus _ Hr). intros E. unfold named in Hn.
      rewrite E in Hn. by destruct (parse_name_plain i dt id sus _ _ Hn) as [-> _].
    + constructor; [by eapply record_matches|done].
Qed.

End proofs.

(** ** Correctness: mounting *)

Section mounting.
Context {V : Type} `{VV : Volume V} {size : Z} `{VL : !VolumeLaws V size} `{MM : Malloc} `{GG : Garbage}.
Implicit Types v : V.

Definition descriptor v (i : Z) : list Z := subrange (bytes_of v) (i * ISO9660_DEFAULT_SECTOR_SIZE) 7.

(** The first primary descriptor is in sector [k]: up to there each sector starts with
    the signature of a descriptor, and none ends the list. *)
Record primary_at v (k : Z) : Prop := {
  pa_k : ISO9660_FIRST_SECTOR <= k;
  pa_fits : (k + 1) * ISO9660_DEFAULT_SECTOR_SIZE <= size < 4294967296;
  pa_sig : forall i, ISO9660_FIRST_SECTOR <= i <= k -> iso9660_voldesc_checksig (descriptor v i) = true;
  pa_other : forall i, ISO9660_FIRST_SECTOR <= i < k ->
    u8 (descriptor v i) 0 <> ISO9660_VOLDESC_PRIM /\ u8 (descriptor v i) 0 <> ISO9660_VOLDESC_TERM;
  pa_prim : u8 (descriptor v k) 0 = ISO9660_VOLDESC_PRIM;
}.

(** Reading a descriptor's bytes does not change the volume. *)
Lemma read_at v i n : 0 <= i -> 0 <= n -> i * ISO9660_DEFAULT_SECTOR_SIZE + n <= size < 4294967296 ->
  exists v', data_read v (w32 (i * ISO9660_DEFAULT_SECTOR_SIZE)) n =
      (subrange (bytes_of v) (i * ISO9660_DEFAULT_SECTOR_SIZE) n, v') /\ bytes_of v' = bytes_of v.
Proof.
  unfold ISO9660_DEFAULT_SECTOR_SIZE. intros Hi Hn Hs. rewrite w32_small by lia. apply data_read_ok; lia.
Qed.

Lemma voldesc_loop_ok fuel v k i header :
  primary_at v k -> ISO9660_FIRST_SECTOR <= i <= k ->
  u8 header 0 <> ISO9660_VOLDESC_PRIM /\ u8 header 0 <> ISO9660_VOLDESC_TERM -> (Z.to_nat (k - i) < fuel)%nat ->
  exists v', voldesc_loop fuel v ISO9660_VOLDESC_PRIM i header = Some (Some (k + 1, descriptor v k), v') /\
    bytes_of v' = bytes_of v.
Proof.
  intros Hp. revert v i header Hp. induction fuel as [|fuel IH]; intros v i header Hp Hi [Hh1 Hh2] Hf; [lia|].
  pose proof Hp as [Hk Hfit Hsig Hoth Hprim]. unfold ISO9660_FIRST_SECTOR in *.
  cbn [voldesc_loop]. rewrite (proj2 (Z.eqb_neq _ ISO9660_VOLDESC_PRIM) Hh1), (proj2 (Z.eqb_neq _ ISO9660_VOLDESC_TERM) Hh2).
  cbn [orb]. destruct (read_at v i 7) as (v' & E & Hb); [lia..|unfold ISO9660_DEFAULT_SECTOR_SIZE in *; lia|].
  rewrite E. fold (descriptor v i).
  assert (Hlen : length (descriptor v i) = 7%nat).
  { apply length_subrange; rewrite ?bytes_length; unfold ISO9660_DEFAULT_SECTOR_SIZE in *; lia. }
  rewrite Hlen, Hsig by lia. cbn [negb Z.eqb Z.of_nat].
  destruct (decide (i = k)) as [->|Hne].
  - exists v'. split; [|done]. destruct fuel; cbn [voldesc_loop]; by rewrite Hprim.
  - assert (Hd : forall j, descriptor v' j = descriptor v j) by (intros j; unfold descriptor; by rewrite Hb).
    destruct (IH v' (i + 1) (descriptor v i)) as (v2 & E2 & Hb2); [|lia|apply Hoth; lia|lia|].
    { constructor; unfold ISO9660_FIRST_SECTOR; auto; intros *; rewrite ?Hd; auto. }
    exists v2. rewrite E2, Hd. split; [done|congruence].
Qed.

(** Mounting a CD: the driver finds the first primary volume descriptor, whatever
    other descriptors come before it, makes the root from the directory record in it and
    an empty cache with the sector size it names; the volume stays. *)
Theorem iso_mount_correct fuel v k d rest :
  primary_at v k -> (Z.to_nat (k - ISO9660_FIRST_SECTOR) < fuel)%nat ->
  u8 (garbage 7) 0 <> ISO9660_VOLDESC_PRIM /\ u8 (garbage 7) 0 <> ISO9660_VOLDESC_TERM ->
  let b := subrange (bytes_of v) (k * ISO9660_DEFAULT_SECTOR_SIZE) 929 in
  pv_root_dir b = enc_dirent d ++ rest -> dirent_ok rest d ->
  exists v', iso9660_fs_init fuel v =
      Some (Some (Ret (resource d, pv_sector_size b) (cdi_cache_create (pv_sector_size b) 0 v'))) /\
    bytes_of v' = bytes_of v.
Proof.
  intros Hp Hf Hg b Hroot Hd. pose proof Hp as [Hk Hfit _ _ Hprim]. unfold ISO9660_FIRST_SECTOR in *.
  destruct (voldesc_loop_ok fuel v k 16 (garbage 7) Hp) as (v1 & E1 & Hb1); [unfold ISO9660_FIRST_SECTOR; lia|done|done|].
  unfold iso9660_fs_init, iso9660_voldesc_load. unfold ISO9660_FIRST_SECTOR. rewrite E1. cbn -[data_read Z.mul Z.add Z.eqb].
  rewrite Hprim, Z.eqb_refl. replace (k + 1 - 1) with k by lia.
  destruct (read_at v1 k 929) as (v2 & E2 & Hb2); [lia..|unfold ISO9660_DEFAULT_SECTOR_SIZE in *; lia|].
  rewrite E2, Hb1. fold b. exists v2. split; [|congruence]. cbn -[cdi_cache_create].
  assert (Hlen : length b = 929%nat).
  { apply length_subrange; rewrite ?bytes_length; unfold ISO9660_DEFAULT_SECTOR_SIZE in *; lia. }
  rewrite Hlen, (drop_ge (garbage 929)), app_nil_r, Hroot by (rewrite garbage_length; lia).
  by rewrite (bind_Ret _ _ _ _ _ (dirrec_load_ok rest d _ Hd)).
Qed.
End mounting.

(** ** A small CD *)
Module Cd.

Import Image.

(** Records: the directory, its parent, a file with a Rock Ridge name in two parts and a
    mode, and one with a plain name. *)
Definition at_2_1_1970 : date := Date 70 1 2 3 4 5 0.
Definition self : info := Info [] Directory 1 192.
Definition ab : info := Info [97; 98] Regular 6 5.
Definition b : info := Info [98] Regular 7 7.

Definition ab_entries : list su := [RR 9; NM true [97]; PX 33188 []; NM false [98]].

Definition dot : dirent := record self at_2_1_1970 [0] [].
Definition dotdot : dirent := record self at_2_1_1970 [1] [].
Definition rr_file : dirent := record ab at_2_1_1970 [65] ab_entries.
Definition plain : dirent := record b at_2_1_1970 [66; 46; 59; 49] [].

#[local] Existing Instance Disk.zero_garbage.

Lemma plain_ok i id : i = self /\ (id = [0] \/ id = [1]) \/ i = b /\ id = [66; 46; 59; 49] ->
  record_ok (garbage 512) i at_2_1_1970 id [].
Proof.
  intros H. assert (Hg : le32 (take 2 (garbage 512)) <> 82 + 82 * 256) by (vm_compute; done).
  destruct H as [(-> & [-> | ->])|(-> & ->)];
    (constructor; [by vm_compute|cbn; lia|cbn; lia|constructor|split; [exact Hg|by (left + right)]]).
Qed.

Lemma rr_ok : record_ok (garbage 512) ab at_2_1_1970 [65] ab_entries.
Proof.
  constructor; [by vm_compute|cbn; lia|cbn; lia|..].
  - repeat constructor; cbn; lia.
  - exists 420. split; [vm_compute; done|lia].
Qed.

(** Eight sectors of 64 bytes: the directory in the second, a file in the seventh. *)
Definition sector64 : fat_bootsector := Bootsector 64 1 0 0 0 8 0 0 [] 0 0.

#[local] Instance cd_volume : Volume image := on_image 512.
#[local] Instance cd_device : Device image := fat_device sector64.
#[local] Instance cd_laws : DeviceLaws image 64 8 :=
  fat_device_laws (bs := sector64) (capacity := 8) (VL := on_image_laws 512) ltac:(simpl; lia) ltac:(lia).

Definition dir_bytes : list Z :=
  enc_dirent dot ++ replicate 30 0 ++ enc_dirent dotdot ++ replicate 30 0 ++ enc_dirent rr_file ++ replicate 5 0 ++
  enc_dirent plain.

Definition start0 : state image :=
  cdi_cache_create 64 0 (Image (replicate 64 0 ++ dir_bytes ++ replicate 90 0 ++ [72; 101; 108; 108; 111])).

Definition root0 : iso9660_fs_res := Res [0] CLASS_DIR 0 0 0 0 1 230 false None.

Lemma zeros_directory first pos n bytes files : directory (ss := 64) first (pos + Z.of_nat n) bytes files ->
  directory (ss := 64) first pos (replicate n 0 ++ bytes) files.
Proof.
  revert pos. induction n as [|n IH]; intros pos H; [by rewrite Z.add_0_r in H|].
  apply directory_zero, IH. by replace (pos + 1 + Z.of_nat n) with (pos + Z.of_nat (S n)) by lia.
Qed.

Lemma dir_contents : directory (ss := 64) [0; 1] 0 dir_bytes [ab; b].
Proof.
  unfold dir_bytes. apply directory_self; [apply plain_ok; auto|vm_compute; done|]. apply zeros_directory.
  apply directory_self; [apply plain_ok; auto|vm_compute; done|]. apply zeros_directory.
  apply directory_file; [apply rr_ok| |vm_compute; done|].
  { split; [done|]. repeat constructor; done. }
  apply zeros_directory. rewrite <- (app_nil_r (enc_dirent plain)).
  apply directory_file; [apply plain_ok; auto| |vm_compute; done|constructor].
  apply (plain_file [66] [] 49); [|done..]. apply Forall_singleton. unfold d_char. lia.
Qed.


Lemma iso_file_read_correct_witness :
  exists s' l', iso9660_fs_file_read 64 (resource rr_file) 0 4096 start0 = Ret [72; 101; 108; 108; 111] s' /\
    idle (bs := 64) (capacity := 8) l' s' /\ same_view (capacity := 8) start0 s'.
Proof.
  destruct (iso_file_read_correct (ss := 64) (capacity := 8) [] start0 (resource rr_file) 0 4096) as (s' & l' & E & H).
  - apply create_idle.
  - vm_compute. repeat split; done.
  - lia.
  - lia.
  - left. done.
  - exists s', l'. split; [|exact H].
    match type of E with _ = Ret ?p _ => replace p with [72; 101; 108; 108; 111] in E by (vm_compute; reflexivity) end.
    exact E.
Defined.
(** A volume of 17 sectors whose last one is the primary descriptor. *)
Definition prim : list Z :=
  [1; 67; 68; 48; 48; 49; 1] ++ replicate 121 0 ++ [0; 8] ++ replicate 26 0 ++ enc_dirent dot.

Definition cd : image := Image (replicate 32768 0 ++ prim).

#[local] Abbreviation cd_size := (Z.to_nat 34816).

Lemma prim_dot : dirent_ok (replicate 739 0) dot.
Proof.
  constructor; try (vm_compute; done); try (vm_compute; eexists; done).
  split; [vm_compute; done|vm_compute; eexists; done].
Qed.

Lemma iso_mount_correct_witness :
  exists v', iso9660_fs_init (VV := on_image cd_size) 1 cd = Some (Some (Ret (resource dot, 2048) (cdi_cache_create 2048 0 v'))) /\
    bytes cd_size v' = bytes cd_size cd.
Proof.
  destruct (iso_mount_correct (VL := on_image_laws cd_size) 1 cd 16 dot (replicate 739 0)) as (v' & E & H).
  - constructor; [done|vm_compute; split; done|..].
    + intros i Hi. assert (i = 16) as -> by (unfold ISO9660_FIRST_SECTOR in Hi; lia). vm_compute. done.
    + intros i Hi. unfold ISO9660_FIRST_SECTOR in Hi. lia.
    + vm_compute. done.
  - vm_compute. lia.
  - vm_compute. done.
  - vm_compute. done.
  - exact prim_dot.
  - exists v'. split; [|exact H].
    match type of E with context [pv_sector_size ?b] => replace (pv_sector_size b) with 2048 in E by (vm_compute; reflexivity) end.
    exact E.
Defined.

(** What the code does not do right.  A request that starts inside a sector and leaves it
    copies from behind the cached block. *)
Example iso_read_crossing :
  match iso9660_read 64 1 60 8 start0 with Stop OutOfBounds _ => true | _ => false end = true.
Proof. vm_compute. reflexivity. Qed.

(** An entry of size zero is looked at forever. *)
Example scan_zero_entry :
  iso9660_rockridge_scan (enc_header 60 6 5 at_2_1_1970 false 1 ++ [65] ++ [82; 82; 0; 1] ++ replicate 22 0) tt = Stop Hang tt.
Proof. vm_compute. reflexivity. Qed.

(** Character devices become block devices. *)
Example char_is_block : parse_class (RS_IFCHR + 438) = parse_class (RS_IFBLK + 438).
Proof. vm_compute. reflexivity. Qed.

(** 1 March 2008 was 13939 days after the start of 1970. *)
Example time_2008_03_01 : cdi_time_by_date 2008 2 1 = Some 37069200 /\ 37069200 <> 13939 * 86400.
Proof. split; [vm_compute; reflexivity|lia]. Qed.

(** With the memory of [header] holding the type of a primary descriptor before the first
    sector is read, the sector in front of the first descriptor is taken for one. *)
Example voldesc_uninitialised (v : image) :
  voldesc_loop (VV := on_image cd_size) 1 v ISO9660_VOLDESC_PRIM ISO9660_FIRST_SECTOR [1; 0; 0; 0; 0; 0; 0] =
  Some (Some (ISO9660_FIRST_SECTOR, [1; 0; 0; 0; 0; 0; 0]), v).
Proof. reflexivity. Qed.
End Cd.
