(* ===== verification/AppIpc.v ===== *)
(** * System V inter-process communication of the C library
    (apps/lib/stdlibc/shm.c, msg.c, sem.c, ipc.c)

    The functions a process calls, on top of the system calls.  Shared memory is
    written against class [ShmCalls], the system calls a process makes, because the
    file functions use it too; messages and semaphores run on the kernel of Ipc.
    [libc] adds [errno] to the state below. *)

From S2P Require Import Prelude LList Machine Paging Kernel Memory Proc Ipc.

Record libc (W : Type) := Libc { errno : Z; world : W }.
Arguments Libc {W}.
Arguments errno {W}.
Arguments world {W}.

(** A system call. *)
Definition sys {W A} (c : cmd W A) : cmd (libc W) A := fun s =>
  match c (world s) with
  | Ret x w => Ret x (Libc (errno s) w)
  | Stop r w => Stop r (Libc (errno s) w)
  end.

Definition set_errno {W} (e : Z) : cmd (libc W) unit := modify (fun s => Libc e (world s)).

(** [errno = ret<0?-ret:0; return ret<0?-1:ret;] *)
Definition result {W} (ret : Z) : cmd (libc W) Z :=
  set_errno (if ret <? 0 then - ret else 0);; mret (if ret <? 0 then -1 else ret).

(** The same with [return ret<0?-1:0;]. *)
Definition success {W} (ret : Z) : cmd (libc W) Z := r ← result ret; mret (if r =? -1 then -1 else 0).

Definition IPC_CREAT : Z := 512.
Definition IPC_EXCL : Z := 1024.
Definition IPC_RMID : Z := 1.
Definition IPC_SET : Z := 2.
Definition IPC_STAT : Z := 3.

Definition flag (flags f : Z) : bool := negb (Z.land flags f =? 0).

(** ** Shared memory (shm.c) *)

(** The system calls of shm.c; [sys_shm_at] also gives the address, [sys_shm_stat]
    and [sys_shm_set] take the address of the [struct shmid_ds]. *)
Class ShmCalls (W : Type) := {
  sys_shm_get : Z -> cmd W Z;
  sys_shm_create : Z -> Z -> Z -> cmd W Z;
  sys_shm_at : Z -> Z -> Z -> cmd W (Z * Z);
  sys_shm_dt : Z -> cmd W Z;
  sys_shm_stat : Z -> Z -> cmd W Z;
  sys_shm_set : Z -> Z -> cmd W Z;
  sys_shm_destroy : Z -> cmd W Z;
}.

(** [junk] is what an integer holds that was not set. *)
Section shm.
Context {W : Type} `{SC : ShmCalls W} (junk : Z).

Definition shmget (key size flags : Z) : cmd (libc W) Z :=
  ret ← (if flag flags IPC_CREAT || (key =? IPC_PRIVATE) then sys (sys_shm_create key size flags) else mret junk);
  ret ← (if (negb (flag flags IPC_CREAT) || (ret <? 0)) && negb (flag flags IPC_EXCL)
         then sys (sys_shm_get key) else mret ret);
  result ret.

Definition shmat (id addr flags : Z) : cmd (libc W) Z :=
  x ← sys (sys_shm_at id addr flags);
  set_errno (if x.1 <? 0 then - x.1 else 0);;
  mret (if x.1 <? 0 then NULL else x.2).

Definition shmdt (addr : Z) : cmd (libc W) Z := ret ← sys (sys_shm_dt addr); success ret.

(** [IPC_RMID] does not set [ret]. *)
Definition shmctl (id op buf : Z) : cmd (libc W) Z :=
  ret ← (if op =? IPC_STAT then sys (sys_shm_stat id buf)
         else if op =? IPC_SET then sys (sys_shm_set id buf)
         else if op =? IPC_RMID then sys (sys_shm_destroy id);; mret junk
         else mret (- EINVAL));
  success ret.
End shm.

(** The kernel behind the calls: [now] is the time, [tmp] the place of the variable
    whose address [shmat] passes. *)
Section kernel.
Context `{MM : Malloc} (now tmp : Z).

Definition kernel_shm : ShmCalls kernel := {|
  sys_shm_get := ipc_shm_get;
  sys_shm_create key size flags := ipc_shm_create key size flags now;
  sys_shm_at id addr flags :=
    user_store tmp addr;; r ← ipc_shm_attach id tmp flags now; v ← user_load tmp; mret (r, v);
  sys_shm_dt addr := ipc_shm_detach addr now;
  sys_shm_stat id buf :=
    ipc_shm_stat id buf (buf + 4) (buf + 8) (buf + 12) (buf + 16) (buf + 20) (buf + 24) (buf + 28) (buf + 32)
      (buf + 36) (buf + 40) (buf + 44);
  sys_shm_set id buf := mode ← user_load (buf + 16); ipc_shm_set id mode now;
  sys_shm_destroy := ipc_shm_destroy;
|}.

(** ** Messages (msg.c) *)

(** The result is that of [msg_get]; what follows the first [return] is dead. *)
Definition msgget (key flags : Z) : cmd (libc kernel) Z :=
  (if flag flags IPC_CREAT || (key =? IPC_PRIVATE)
   then sys (ipc_msg_create key (Z.land flags 511) now) else mret 0);;
  sys (ipc_msg_get key).

Definition msgsnd (id msg size flags : Z) : cmd (libc kernel) Z :=
  type ← sys (user_load msg);
  ret ← sys (ipc_msg_send id msg size (s32 type) flags now);
  success ret.

Fixpoint msgrcv (fuel : nat) (id buf size type flags : Z) : cmd (libc kernel) Z :=
  match fuel with
  | O => stop_with Hang
  | S fuel =>
      ret ← sys (ipc_msg_recv id buf size type flags now);
      if ret <? 0 then set_errno (- ret);; mret (-1)
      else if ret =? 0 then msgrcv fuel id buf size type flags else mret ret
  end.

Definition msgctl (msqid op buf : Z) : cmd (libc kernel) Z :=
  ret ← (if op =? IPC_STAT then
           r ← sys (msg_stat msqid buf (buf + 4) (buf + 8) (buf + 12) (buf + 16) (buf + 20) (buf + 28) (buf + 32)
                      (buf + 36) (buf + 40) (buf + 44));
           sys (user_store (buf + 24) (w32 (-1)));; mret r
         else if op =? IPC_SET then mode ← sys (user_load (buf + 16)); sys (msg_set msqid mode now)
         else if op =? IPC_RMID then sys (ipc_msg_destroy msqid)
         else mret (- EINVAL));
  success ret.

(** ** Semaphores (sem.c) *)

Definition GETNCNT : Z := 4.
Definition GETPID : Z := 5.
Definition GETVAL : Z := 6.
Definition GETALL : Z := 7.
Definition GETZCNT : Z := 8.
Definition SETVAL : Z := 9.
Definition SETALL : Z := 10.

Definition semget (junk key nsems flags : Z) : cmd (libc kernel) Z :=
  ret ← (if flag flags IPC_CREAT || (key =? IPC_PRIVATE)
         then sys (ipc_sem_create key nsems (Z.land flags 511) now) else mret junk);
  ret ← (if negb (flag flags IPC_CREAT) || (ret <? 0) then sys (ipc_sem_get key) else mret ret);
  result ret.

(** [while (ret<nops)] compares unsigned. *)
Fixpoint semop (fuel : nat) (id ops nops : Z) : cmd (libc kernel) Z :=
  match fuel with
  | O => stop_with Hang
  | S fuel =>
      ret ← sys (ipc_sem_op id ops nops now);
      if ret <? 0 then set_errno ret;; mret (-1)
      else if w32 ret <? nops then semop fuel id ops nops
      else set_errno 0;; mret 0
  end.

(** [arg] is the optional argument. *)
Definition semctl (id n op arg : Z) : cmd (libc kernel) Z :=
  ret ← sys (
    if op =? GETVAL then ipc_sem_getval id n
    else if op =? SETVAL then ipc_sem_setval id n arg now
    else if op =? GETPID then ipc_sem_getpid id n
    else if op =? GETNCNT then ipc_sem_getcnt id n 110
    else if op =? GETZCNT then ipc_sem_getcnt id n 122
    else if op =? GETALL then ipc_sem_getall id arg
    else if op =? SETALL then ipc_sem_setall id arg now
    else if op =? IPC_STAT then
      ipc_sem_stat id arg (arg + 4) (arg + 8) (arg + 12) (arg + 16) (arg + 20) (arg + 24) (arg + 28)
    else if op =? IPC_SET then mode ← user_load (arg + 16); ipc_sem_set id mode now
    else if op =? IPC_RMID then ipc_sem_destroy id
    else mret (- EINVAL));
  success ret.

(** ** Keys (ipc.c) *)

(** [while ( *file) val = *file++]: the last character counts. *)
Definition ftok (file : list Z) (x : Z) : Z :=
  let x := Z.land x 255 in
  let v := s32 (default 0 (last file) * x) in
  let v := if v <? 0 then - v else v in
  if v =? IPC_PRIVATE then v + 1 else v.
End kernel.

(** ** What the system calls give back *)

(** Every value a command returns satisfies [P]. *)
Definition yields {S A} (P : A -> Prop) (c : cmd S A) : Prop := forall s a s', c s = Ret a s' -> P a.

Lemma yields_ret {S A} (P : A -> Prop) (a : A) : P a -> yields P (mret a : cmd S A).
Proof. intros HP s a' s' [= <- _]. done. Qed.

Lemma yields_bind {S A B} (P : B -> Prop) (c : cmd S A) (f : A -> cmd S B) :
  (forall a, yields P (f a)) -> yields P (c ≫= f).
Proof.
  intros Hf s b s' E. unfold mbind, cmd_bind in E. destruct (c s) as [a s1|w s1]; [|done]. by apply (Hf a s1 b s').
Qed.

(** When the values of [c] matter. *)
Lemma yields_bind_with {S A B} (Q : A -> Prop) (P : B -> Prop) (c : cmd S A) (f : A -> cmd S B) :
  yields Q c -> (forall a, Q a -> yields P (f a)) -> yields P (c ≫= f).
Proof.
  intros Hc Hf s b s' E. unfold mbind, cmd_bind in E. destruct (c s) as [a s1|w s1] eqn:Ec; [|done].
  by apply (Hf a (Hc s a s1 Ec) s1 b s').
Qed.

Lemma yields_sys {W A} (P : A -> Prop) (c : cmd W A) : yields P c -> yields P (sys c).
Proof.
  intros Hc s a s' E. unfold sys in E. destruct (c (world s)) as [x w|] eqn:Ec; [|done].
  injection E as -> _. by eapply Hc.
Qed.

Create HintDb yields.
#[export] Hint Resolve yields_ret yields_bind : yields.

Ltac yields_step :=
  first [ apply yields_ret; simpl; try done; try lia
        | match goal with |- yields _ (if ?b then _ else _) => destruct b end
        | match goal with |- yields _ (match ?o with Some _ => _ | None => _ end) => destruct o eqn:? end
        | apply yields_bind; intros ? ].

(** A return out of the loop of [ipc_sem_op] is an error, nothing done, or the index
    of the operation that waits. *)
Lemma sem_op_one_yields `{Malloc} id i n op flags time :
  yields (fun o => forall r, o = Some r -> r < 0 \/ r = 0 \/ r = i) (sem_op_one id i n op flags time).
Proof.
  unfold sem_op_one. apply yields_bind. intros p.
  destruct (p =? NULL). { apply yields_ret. intros r [= <-]. left. unfold EINVAL. lia. }
  apply yields_bind. intros x. destruct (num x <=? n). { apply yields_ret. intros r [= <-]. lia. }
  do 5 (apply yields_bind; intros ?).
  apply (yields_bind_with (fun o => forall r, o = Some r -> r < 0 \/ r = 0 \/ r = i)).
  - repeat yields_step; intros r [= <-]; auto.
  - intros [o|] Ho; [apply yields_ret; intros r [= <-]; by apply Ho|]. repeat yields_step.
Qed.

Lemma sem_op_loop_yields `{Malloc} fuel id ops time : forall i, 0 <= i ->
  yields (fun r => r < 0 \/ r = 0 \/ r < i + Z.of_nat fuel) (sem_op_loop fuel id ops i time).
Proof.
  induction fuel as [|fuel IH]; intros i Hi; cbn [sem_op_loop]; [apply yields_ret; lia|].
  do 3 (apply yields_bind; intros ?).
  eapply yields_bind_with; [apply sem_op_one_yields|]. intros [r|] Ho.
  - apply yields_ret. destruct (Ho r eq_refl) as [?|[?|?]]; lia.
  - intros s r s' E. specialize (IH (i + 1) ltac:(lia) s r s' E). cbv beta in IH. lia.
Qed.

(** [semop] never reports success: the system call returns 0, or the index of the
    operation it waits in, and both are below the number of operations, so that the
    library calls again and the operations are done again. *)
Theorem semop_never_succeeds `{Malloc} now fuel id ops nops :
  0 < nops < 4294967296 -> yields (fun r => r = -1) (semop now fuel id ops nops).
Proof.
  intros Hn. induction fuel as [|fuel IH]; cbn [semop]; [by intros s r s' [=]|].
  eapply yields_bind_with; [apply yields_sys, (sem_op_loop_yields (Z.to_nat nops) id ops now 0); lia|].
  intros ret Hret. cbv beta in Hret. destruct (Z.ltb_spec ret 0); [repeat yields_step|].
  rewrite w32_small by lia. by rewrite (proj2 (Z.ltb_lt ret nops)) by lia.
Qed.

(** No value of a semaphore reaches the caller of [semctl]. *)
Theorem semctl_result `{Malloc} now id n op arg : yields (fun r => r = 0 \/ r = -1) (semctl now id n op arg).
Proof.
  unfold semctl, success. apply yields_bind. intros ret. apply yields_bind. intros r.
  destruct (r =? -1); repeat yields_step; auto.
Qed.

(** ** Private segments *)

Section private.
Context `{MM : Malloc} (now tmp junk : Z).
#[local] Existing Instance kernel_shm.

(** A new segment is the first object of the list. *)
Lemma shm_create_private_ok k c size flags fs m :
  objects_live k -> k_procs k !! proc_current k = Some c ->
  pop_frames (Z.to_nat (ADDR2PAGE (PAGEUP size))) (k_mach k) = Ret fs m ->
  exists k' p x, ipc_shm_create IPC_PRIVATE size flags now k = Ret (ipc_lastid k) k' /\
    p <> NULL /\ p ∉ ipc_objects k /\ ipc_objects k' = p :: ipc_objects k /\ k_ipc k' !! p = Some (IsShm x) /\
    shm_ipc x = Obj IPC_SHM (ipc_lastid k) IPC_PRIVATE (proc_current k) (proc_current k) (Z.land flags 511) /\
    shm_phys x = fs /\ atts x = [] /\ shm_size x = size.
Proof.
  intros Hlive Hc Hfs. unfold ipc_shm_create. cbn [negb Z.eqb IPC_PRIVATE]. rewrite bind_ret, Z.eqb_refl.
  set (p := malloc (k_live k)). assert (Hp : p <> NULL) by apply malloc_nonnull.
  assert (Hpo : p ∉ ipc_objects k) by (intros Hin; by apply (malloc_fresh (k_live k)), Hlive).
  rewrite (bind_Ret kmalloc _ k p (set_k_live k ({[p]} ∪ k_live k)) eq_refl).
  rewrite (proj2 (Z.eqb_neq _ _) Hp). cbn [negb]. rewrite bind_gets.
  rewrite (bind_Ret next_id _ _ _ _ eq_refl). cbv zeta.
  erewrite bind_Ret; [|by apply on_mach_Ret, Hfs].
  erewrite bind_Ret; [|by apply (fetch_Some k_procs)].
  eexists _, p, _. split; [reflexivity|]. split; [done|]. split; [done|]. split; [done|].
  split; [apply lookup_insert_eq|]. done.
Qed.

(** [shmget(IPC_PRIVATE,size,0)] creates a segment and then asks for one with the key
    [IPC_PRIVATE].  That is the new one, as long as no other process creates one in
    between, because the kernel puts new objects in front and takes the first match:
    the result is an identifier that was not in use, and leads to a segment of fresh
    frames that nobody has attached. *)
Theorem shmget_private_correct k c e size fs m :
  objects_live k -> k_procs k !! proc_current k = Some c -> 0 <= ipc_lastid k ->
  pop_frames (Z.to_nat (ADDR2PAGE (PAGEUP size))) (k_mach k) = Ret fs m ->
  exists k' p x,
    shmget (SC := kernel_shm now tmp) junk IPC_PRIVATE size 0 (Libc e k) = Ret (ipc_lastid k) (Libc 0 k') /\
    ipc_find (-1) (ipc_lastid k) IPC_SHM k' = Ret p k' /\ p ∉ ipc_objects k /\
    k_ipc k' !! p = Some (IsShm x) /\ shm_phys x = fs /\ shm_size x = size /\ atts x = [].
Proof.
  intros Hlive Hc Hid Hfs.
  destruct (shm_create_private_ok k c size 0 fs m Hlive Hc Hfs) as (k' & p & x & E & Hp & Hpo & Hobj & Hx & Hh & Hph & Ha & Hs).
  assert (Hfind : forall ky i, ky = IPC_PRIVATE \/ ky = -1 -> i = ipc_lastid k \/ i = -1 -> found k' ky i IPC_SHM p).
  { intros ky i Hky Hi. unfold found. rewrite Hobj, scan_cons by done. cbn [find_in]. rewrite Hx. cbn. rewrite Hh. cbn.
    destruct Hky as [->| ->], Hi as [->| ->]; rewrite ?Z.eqb_refl, ?orb_true_r; done. }
  assert (Eg : ipc_shm_get IPC_PRIVATE k' = Ret (ipc_lastid k) k').
  { unfold ipc_shm_get. cstep (ipc_find_ok _ _ _ _ _ (Hfind IPC_PRIVATE (-1) (or_introl eq_refl) (or_intror eq_refl))).
    rewrite (proj2 (Z.eqb_neq _ _) Hp). unfold shm_at. rewrite bind_assoc. cstep (fetch_Some k_ipc _ _ _ Hx).
    by rewrite bind_ret, Hh. }
  exists k', p, x. split; [|split; [by apply ipc_find_ok, Hfind; auto|done]].
  unfold shmget. rewrite Z.eqb_refl, orb_true_r. change (negb (flag 0 IPC_CREAT)) with true.
  change (negb (flag 0 IPC_EXCL)) with true. cbn [orb andb].
  rewrite (bind_Ret _ _ _ (ipc_lastid k) (Libc e k')) by (unfold sys; cbn [world errno sys_shm_create kernel_shm]; by rewrite E).
  rewrite (bind_Ret _ _ _ (ipc_lastid k) (Libc e k')) by (unfold sys; cbn [world errno sys_shm_get kernel_shm]; by rewrite Eg).
  unfold result. by rewrite (proj2 (Z.ltb_ge (ipc_lastid k) 0)) by lia.
Qed.
End private.

(** ** Examples *)


(** A free frame on the page stack of the machine. *)
Definition one_frame : kernel :=
  set_k_mach trio (Machine.set_stack (set_phys demo (<[12288 + 28 := 20480]> (phys demo))) 16 32 32).

Lemma shmget_private_correct_witness : exists k' p x,
  shmget (SC := kernel_shm 9 500) 77 IPC_PRIVATE 4096 0 (Libc 5 one_frame) = Ret 0 (Libc 0 k') /\
  ipc_find (-1) 0 IPC_SHM k' = Ret p k' /\ p ∉ @nil Z /\
  k_ipc k' !! p = Some (IsShm x) /\ shm_phys x = [20480] /\ shm_size x = 4096 /\ atts x = [].
Proof.
  eapply (shmget_private_correct 9 500 77 one_frame (plain_proc 1 200) 5 4096 [20480]).
  - intros p Hp. apply elem_of_nil in Hp. destruct Hp.
  - reflexivity.
  - vm_compute. discriminate.
  - vm_compute. reflexivity.
Defined.

(** Two processes: 101 creates a private segment between the two system calls of
    100, which is given the identifier of 101's segment. *)
Example shmget_race :
  match ipc_shm_create IPC_PRIVATE 0 0 9 trio with
  | Ret mine k =>
      match ipc_shm_create IPC_PRIVATE 0 0 9 (set_proc_current k 101) with
      | Ret other k =>
          match ipc_shm_get IPC_PRIVATE (set_proc_current k 100) with
          | Ret got _ => (mine, other, got) = (0, 1, 1)
          | Stop _ _ => False
          end
      | Stop _ _ => False
      end
  | Stop _ _ => False
  end.
Proof. vm_compute. reflexivity. Qed.

(** An operation that adds one to the semaphore of [bench], at address 600. *)
Definition add_one : kernel := set_k_user bench (put_bytes 4096 600 [0; 0; 1; 0; 0; 0] ∅).

Lemma semop_never_succeeds_witness : yields (fun r => r = -1) (semop 9 3 5 600 1).
Proof. apply (semop_never_succeeds 9 3 5 600 1). lia. Defined.

(** Three rounds: the value is 2 + 3, and the library goes on. *)
Example semop_repeats :
  match semop 9 3 5 600 1 (Libc 0 add_one) with
  | Stop Hang s =>
      match sem_at 301 (world s) with Ret x _ => val <$> sems x = [5] | Stop _ _ => False end
  | _ => False
  end.
Proof. vm_compute. reflexivity. Qed.

(** Names that end in the same character have the same key. *)
Example ftok_collision : ftok [97; 98; 99] 7 = ftok [120; 99] 7.
Proof. reflexivity. Qed.
