(* ===== verification/AppEnv.v ===== *)
(** * The environment and path names of the C library
    (apps/lib/stdlibc/env.c, apps/lib/stdlibc/pathname.c)

    [environ] is a block of pointers that ends with NULL; the strings it points to are
    on the heap.  [environ] itself never changes, so what counts of the call of
    [realloc], whose result is dropped, is whether the block grows where it is. *)

From S2P Require Import Prelude LList Machine Path Cache Pack AppIpc.

(** ** The environment *)

Record env := Env {
  texts : gmap Z str;
  vec : list Z;
}.

Definition ENOENT : Z := 45.
Definition EINVAL : Z := 28.
Definition EQUALS : Z := 61.

(** [grows n]: the block has room for [n] pointers where it is; [junk] is what is
    in the new part. *)
Section env.
Context `{MM : Malloc} (grows : Z -> bool) (junk : Z).
Abbreviation M A := (cmd (libc env) A).

Definition slot (i : nat) : M Z := fun s =>
  match vec (world s) !! i with Some p => Ret p s | None => Stop OutOfBounds s end.

Definition text (p : Z) : M str := fun s =>
  match texts (world s) !! p with Some t => Ret t s | None => Stop UseAfterFree s end.

Definition set_slot (i : nat) (p : Z) : M unit := fun s =>
  if decide (i < length (vec (world s)))%nat
  then Ret tt (Libc (errno s) (Env (texts (world s)) (<[i := p]> (vec (world s)))))
  else Stop OutOfBounds s.

Definition free_text (p : Z) : M unit :=
  text p;; modify (fun s => Libc (errno s) (Env (delete p (texts (world s))) (vec (world s)))).

(** The fuel of the loops is the size of the block. *)
Fixpoint sizenv_from (fuel i : nat) : M nat :=
  match fuel with
  | O => stop_with OutOfBounds
  | S fuel => p ← slot i; if p =? NULL then mret i else sizenv_from fuel (i + 1)
  end.

Definition sizenv : M nat := s ← gets Datatypes.id; sizenv_from (length (vec (world s))) 0.

(** The index and the pointer; [strcmp] is not 0 for different strings. *)
Fixpoint findenv_from (fuel i : nat) (name : str) : M (option (nat * Z)) :=
  match fuel with
  | O => stop_with OutOfBounds
  | S fuel =>
      p ← slot i;
      if p =? NULL then mret None
      else t ← text p; if decide (t <> name) then mret (Some (i, p)) else findenv_from fuel (i + 1) name
  end.

Definition findenv (name : str) : M (option (nat * Z)) :=
  s ← gets Datatypes.id; findenv_from (length (vec (world s))) 0 name.

(** [strchr(s,'=')] and one further. *)
Fixpoint after_equals (t : str) : option str :=
  match t with
  | [] => None
  | c :: t => if c =? EQUALS then Some t else after_equals t
  end.

(** [name[0]==0 && strchr(name,'=')!=NULL] *)
Definition bad_name (name : str) : bool :=
  match name with [] => match after_equals name with Some _ => true | None => false end | _ => false end.

Definition getenv (name : option str) : M (option str) :=
  match name with
  | None => set_errno EINVAL;; mret None
  | Some name =>
      if bad_name name then set_errno EINVAL;; mret None
      else
        o ← findenv name;
        match o with
        | Some (_, p) =>
            t ← text p;
            match after_equals t with Some v => mret (Some v) | None => set_errno EINVAL;; mret None end
        | None => set_errno ENOENT;; mret None
        end
  end.

(** [realloc(environ,n*sizeof(char* ))] *)
Definition realloc_environ (n : nat) : M unit := fun s =>
  if grows (Z.of_nat n)
  then Ret tt (Libc (errno s) (Env (texts (world s)) (vec (world s) ++ repeat junk (n - length (vec (world s))))))
  else Stop UseAfterFree s.

(** [asprintf(&env,"%s=%s\n",envname,envval)] *)
Definition assignment (name value : str) : str := name ++ EQUALS :: value ++ [10].

Definition setenv (name : option str) (value : str) (overwrite : bool) : M Z :=
  match name with
  | None => set_errno EINVAL;; mret (-1)
  | Some name =>
      if bad_name name then set_errno EINVAL;; mret (-1)
      else
        o ← findenv name;
        match o, overwrite with
        | Some _, false => mret (-1)
        | _, _ =>
            i ← (match o with
                 | None => i ← sizenv; realloc_environ (i + 2);; set_slot (i + 1) NULL;; mret i
                 | Some (i, p) => free_text p;; mret i
                 end);
            s ← gets Datatypes.id;
            let p := malloc (dom (texts (world s))) in
            modify (fun s => Libc (errno s) (Env (<[p := assignment name value]> (texts (world s))) (vec (world s))));;
            set_slot i p;; mret 0
        end
  end.

(** A block of pointers as bytes. *)
Definition to_bytes (v : list Z) : list Z := concat (le_bytes 4 <$> v).

Fixpoint of_bytes (n : nat) (b : list Z) : list Z :=
  match n with
  | O => []
  | S n => foldr (fun c r => c + 256 * r) 0 (take 4 b) :: of_bytes n (drop 4 b)
  end.

(** [memmove(environ+i,environ+i+1,size-i)]: [size-i] bytes. *)
Definition unsetenv (name : option str) : M Z :=
  match name with
  | None => set_errno EINVAL;; mret (-1)
  | Some name =>
      if bad_name name then set_errno EINVAL;; mret (-1)
      else
        o ← findenv name;
        match o with
        | None => set_errno ENOENT;; mret (-1)
        | Some (i, p) =>
            free_text p;;
            size ← sizenv;
            modify (fun s =>
              let v := vec (world s) in
              let b := to_bytes v in
              let at_ := 4 * Z.of_nat i in
              Libc (errno s) (Env (texts (world s))
                (of_bytes (length v) (splice b at_ (subrange b (at_ + 4) (Z.of_nat (size - i)))))));;
            mret 0
        end
  end.
End env.

(** [environ] as [_stdlib_init] sets it up. *)
Definition env_start : env := Env ∅ [NULL].

(** ** Path names *)

(** The last part that is not empty, from the end. *)
Fixpoint last_part (ps : list str) : option str :=
  match ps with
  | [] => None
  | p :: ps => match last_part ps with Some q => Some q | None => if is_empty p then None else Some p end
  end.

Definition parse_path (s : str) : path_t := default (Path false []) (path_parse (Some s)).

Definition basename (path : option str) : str :=
  match path with
  | None | Some [] => DOT
  | Some path =>
      if decide (path = [SLASH]) then path
      else match last_part (parts (parse_path path)) with Some p => p | None => [SLASH] end
  end.

(** Clear the last part that is not empty. *)
Fixpoint clear_last (ps : list str) : list str :=
  match ps with
  | [] => []
  | p :: rest => match last_part rest with Some _ => p :: clear_last rest | None => [] :: rest end
  end.

Definition dirname (path : option str) : str :=
  match path with
  | None => DOT
  | Some path =>
      if decide (path = [SLASH]) then [SLASH]
      else if decide (SLASH ∉ path \/ path = [] \/ path = DOT \/ path = DOTDOT) then DOT
      else
        let p := parse_path path in
        path_output (if (length (parts p) <? 2)%nat then p else Path (root p) (clear_last (parts p)))
  end.

(** [cwd] is what [getcwd] puts into the buffer. *)
Definition realpath (cwd file_name : str) : str :=
  let path := path_reject_dots (parse_path file_name) in
  if root path then path_output path else cwd ++ path_output path.

(** ** Searching the environment *)

Section facts.
Context `{MM : Malloc} (grows : Z -> bool) (junk : Z).

(** The entries of an environment: live strings, then NULL. *)
Inductive entries (m : gmap Z str) : list Z -> list (Z * str) -> Prop :=
| entries_nil r : entries m (NULL :: r) []
| entries_cons p t v l : p <> NULL -> m !! p = Some t -> entries m v l -> entries m (p :: v) ((p, t) :: l).

Lemma findenv_from_ok name v l : forall pre e m, entries m v l ->
  let s := Libc e (Env m (pre ++ v)) in
  findenv_from (length v) (length pre) name s =
    Ret ((fun x => ((length pre + x.1)%nat, x.2.1)) <$> list_find (fun x => x.2 <> name) l) s.
Proof.
  intros pre e m Hv. revert pre. induction Hv as [r|p t v l Hp Ht Hv IH]; intros pre; cbn [findenv_from length].
  - erewrite bind_Ret; [|unfold slot; cbn [world vec]; rewrite list_lookup_middle; reflexivity]. by rewrite Z.eqb_refl.
  - erewrite bind_Ret; [|unfold slot; cbn [world vec]; rewrite list_lookup_middle; reflexivity].
    rewrite (proj2 (Z.eqb_neq _ _) Hp).
    erewrite bind_Ret; [|unfold text; cbn [world texts]; rewrite Ht; reflexivity].
    cbn [list_find snd]. case_decide as Hd; [cbn; by rewrite Nat.add_0_r|].
    specialize (IH (pre ++ [p])). rewrite length_app in IH. cbn [length] in IH. rewrite <- (assoc_L (++)) in IH. cbn [app] in IH.
    rewrite IH. f_equal. destruct (list_find _ l) as [[i x]|]; [|done]. cbn. by rewrite <- Nat.add_assoc.
Qed.

(** [getenv] does not look for its argument: it takes the first entry that is not
    the argument itself.  So the value given is that of the first variable, for every
    name that is not an assignment. *)
Theorem getenv_takes_first name p t l v m e :
  entries m v ((p, t) :: l) -> t <> name ->
  getenv (Some name) (Libc e (Env m v)) =
    match after_equals t with
    | Some x => Ret (Some x) (Libc e (Env m v))
    | None => Ret None (Libc EINVAL (Env m v))
    end.
Proof.
  intros Hv Hd. unfold getenv. assert (bad_name name = false) as -> by (by destruct name).
  unfold findenv. rewrite bind_assoc, bind_gets. cbn [world vec Datatypes.id].
  rewrite (bind_Ret _ _ _ _ _ (findenv_from_ok name v _ [] e m Hv)). cbn [list_find snd]. rewrite decide_True by done. cbn [fmap option_fmap option_map].
  inversion Hv as [|p' t' v' l' Hp Ht Hv']; subst.
  erewrite bind_Ret; [|unfold text; cbn [world texts fst snd]; rewrite Ht; reflexivity].
  by destruct (after_equals t).
Qed.
End facts.

(** ** Path names *)

Lemma last_part_steps ps : last_part ps = last (steps ps).
Proof.
  induction ps as [|p ps IH]; [done|]. cbn [last_part]. rewrite steps_cons, IH.
  destruct (is_empty p); cbn [app]; rewrite ?last_cons; by destruct (last (steps ps)).
Qed.

Lemma clear_last_steps ps : steps (clear_last ps) = take (length (steps ps) - 1) (steps ps).
Proof.
  induction ps as [|p ps IH]; [done|]. cbn [clear_last]. rewrite last_part_steps.
  destruct (steps ps) as [|q qs] eqn:E; cbn [last].
  - rewrite !steps_cons, E. by destruct (is_empty p).
  - assert (is_Some (last (q :: qs))) as (x & Hx) by (destruct (last (q :: qs)) eqn:El; [eauto|by apply last_None in El]).
    rewrite Hx. rewrite !steps_cons, IH, E. destruct (is_empty p); [done|]. cbn [app length].
    by replace (S (S (length qs)) - 1)%nat with (S (S (length qs) - 1)) by lia.
Qed.

Lemma cut_parts_length n : forall s, length (cut_parts n s) = n.
Proof. induction n as [|n IH]; intros s; [done|]. cbn [cut_parts]. destruct (next_part s). cbn [length]. by rewrite IH. Qed.

(** The base name is the last step of a path, and "/" if it has none. *)
Theorem basename_last c s :
  basename (Some (c :: s)) = default [SLASH] (last (steps (parts (parse_path (c :: s))))).
Proof.
  unfold basename. case_decide as Hd; [rewrite Hd; done|]. rewrite last_part_steps. by destruct (last _).
Qed.

(** The directory name of an absolute path is the path without its last step. *)
Theorem dirname_parent s :
  let path := parse_path (SLASH :: s) in
  dirname (Some (SLASH :: s)) = absolute (take (length (steps (parts path)) - 1) (steps (parts path))).
Proof.
  cbv zeta. unfold dirname. case_decide as Hd; [rewrite Hd; done|].
  rewrite decide_False by (intros [H|[H|[H|H]]]; [set_solver|done..]).
  assert (Hr : root (parse_path (SLASH :: s)) = true) by done.
  assert (Hl : (length (parts (parse_path (SLASH :: s))) <? 2)%nat = false).
  { apply Nat.ltb_ge. change (parts (parse_path (SLASH :: s))) with (cut_parts (1 + count_slashes (SLASH :: s)) (SLASH :: s)).
    rewrite cut_parts_length. unfold count_slashes. rewrite filter_cons_True by done. cbn [length]. lia. }
  rewrite Hl. rewrite path_output_root by done. cbn [parts]. by rewrite clear_last_steps.
Qed.

(** ** Examples *)

(** One variable "A=1\n": [getenv] of any name gives its value, with the newline. *)
Definition one_variable : libc env :=
  match setenv (fun _ => true) 0 (Some [65]) [49] true (Libc 0 env_start) with Ret _ s => s | Stop _ s => s end.

Lemma getenv_takes_first_witness :
  getenv (Some [80; 65; 84; 72]) one_variable = Ret (Some [49; 10]) one_variable.
Proof.
  refine (getenv_takes_first [80; 65; 84; 72] (malloc ∅) (assignment [65] [49]) [] _ _ 0 _ _).
  - apply (entries_cons _ (malloc ∅) (assignment [65] [49])); [apply malloc_nonnull|reflexivity|]. apply entries_nil.
  - discriminate.
Defined.

(** Setting a second variable replaces the first one. *)
Example setenv_replaces :
  match setenv (fun _ => true) 0 (Some [66]) [50] true one_variable with
  | Ret _ s => map_to_list (texts (world s)) ≫= (fun x => [x.2]) = [assignment [66] [50]]
  | Stop _ _ => False
  end.
Proof. vm_compute. reflexivity. Qed.

(** [unsetenv] moves bytes instead of pointers: of three pointers the first is left
    half overwritten. *)
Example unsetenv_mixes_pointers :
  match unsetenv (Some [90]) (Libc 0 (Env {[1000 := [65]; 66000 := [66]; 67000 := [67]]} [1000; 66000; 67000; 0])) with
  | Ret r s => r = 0 /\ vec (world s) = [66000; 66000; 67000; 0]
  | Stop _ _ => False
  end.
Proof. vm_compute. split; reflexivity. Qed.

(** A relative name is put behind the directory without a slash. *)
Example realpath_no_slash : realpath [47; 104] [120] = [47; 104; 120].
Proof. reflexivity. Qed.

(** The directory of "a/" is given as the root. *)
Example dirname_relative : dirname (Some [97; 47]) = [47].
Proof. reflexivity. Qed.
