(* ===== verification/Files.v ===== *)
(** * The file functions of the C library (apps/lib/stdlibc/files.c)

    What a process calls to work with files.  The library keeps a list of open files
    and directories and a list of the file systems it has met; it asks the virtual file
    system server which file system a path is on, and sends the request to the server
    of that file system by remote procedure call.  Paths and data go through a page of
    shared memory that belongs to the open file.

    The lists are lists of pointers (llist.c) to records on heaps.  [names] is the heap
    of the strings that open files point to, because [dup2] lets two of them share one
    and [_fs_unpack_filehandles] takes them out of a buffer.  Class [Servers] is what
    the process calls: the two functions of the virtual file system server, the
    functions of the file system servers, and the bytes of attached segments. *)

From S2P Require Import Prelude LList Machine Path Cache Pack Fs AppIpc AppEnv.

(** ** Data *)

Record fslist_item := FsItem {
  pid : Z;
  id : Z;
  mountpoint : path_t;
  mountpoint_str : str;
}.

(** [fs], [d_name], [path] and [shmbuf] are pointers; [type] is 0, 1 or 2 for files,
    directories and sockets. *)
Record filelist_item := FileItem {
  fs : Z;
  fs_fh : Z;
  d_name : Z;
  mode : Z;
  fh : Z;
  path : Z;
  shmid : Z;
  shmbuf : Z;
  type : Z;
  fdfl : Z;
  stfl : Z;
  isatty_ : Z;
}.

(** A string, and whether it is a block that may be freed. *)
Record cell := Cell { text : str; on_heap : bool }.

Record lib (W : Type) := Lib {
  filelist : list Z;
  fslist : list Z;
  files : gmap Z filelist_item;
  fss : gmap Z fslist_item;
  names : gmap Z cell;
  nextfh : Z;
  workdir : option (str * path_t);
  creation_mask : Z;
  environment : env;
  base : libc W;
}.
Arguments Lib {W}.
Arguments filelist {W}.
Arguments fslist {W}.
Arguments files {W}.
Arguments fss {W}.
Arguments names {W}.
Arguments nextfh {W}.
Arguments workdir {W}.
Arguments creation_mask {W}.
Arguments environment {W}.
Arguments base {W}.

(** The functions of a file system server, with the arguments of [rpc_call]. *)
Inductive call :=
| Fs_mknod (id : Z) (path : str) (mode dev : Z)
| Fs_access (id : Z) (path : str) (amode : Z)
| Fs_open (id oflag shmid : Z)
| Fs_close (id n : Z)
| Fs_dup (id n : Z)
| Fs_read (id n count : Z)
| Fs_write (id n count : Z)
| Fs_seek (id n off whence : Z)
| Fs_unlink (id : Z) (path : str)
| Fs_rmdir (id : Z) (path : str)
| Fs_rename (id : Z) (old new : str)
| Fs_ftruncate (id n len : Z)
| Fs_opendir (id shmid : Z)
| Fs_closedir (id n : Z)
| Fs_readdir (id n : Z)
| Fs_seekdir (id n loc : Z)
| Fs_fstat (id n : Z)
| Stat_vfs (id shmid : Z)
| Fs_readlink (id shmid bufsize : Z)
| Fs_symlink (id : Z) (src dest : str)
| Fs_link (id : Z) (src dest : str)
| Fs_chown (id : Z) (path : str) (uid gid : Z)
| Fs_chmod (id : Z) (path : str) (mode : Z)
| Fs_utime (id shmid : Z)
| Fs_tcgetattr (id n : Z)
| Fs_tcsetattr (id n : Z).

(** [None] is a call that fails in the remote procedure call itself. *)
Class Servers (W : Type) := {
  vfs_getfsid : str -> bool -> cmd W (option (Z * str));
  vfs_getpid : Z -> cmd W (option Z);
  fs_call : Z -> call -> cmd W (option Z);
  peek : Z -> Z -> cmd W (list Z);
  poke : Z -> list Z -> cmd W unit;
}.

Definition EBADF : Z := 8.
Definition EEXIST : Z := 20.
Definition ENOTTY : Z := 61.
Definition ERANGE : Z := 70.
Definition IPC_PRIVATE : Z := 0.
Definition SHMMEM_SIZE : Z := 4096.
Definition O_RDONLY : Z := 1.
Definition O_WRONLY : Z := 2.
Definition O_CREAT : Z := 4.
Definition O_NONBLOCK : Z := 128.
Definition F_SETFD : Z := 3.
Definition F_SETFL : Z := 5.
Definition FD_CLOEXEC : Z := 1.
Definition FL_FILE : Z := 0.
Definition FL_DIR : Z := 1.

(** Sizes of [struct stat], [statvfs], [utimbuf], [termios]. *)
Definition SIZEOF_STAT : Z := 52.
Definition SIZEOF_STATVFS : Z := 44.
Definition SIZEOF_UTIMBUF : Z := 8.
Definition SIZEOF_TERMIOS : Z := 56.

(** ** Updates *)

Section code.
Context {W : Type} `{SC : ShmCalls W} `{SV : Servers W} `{MM : Malloc}.
(** [junk] is what an integer holds that was not set, [grows] whether the block of
    the environment grows where it is. *)
Context (junk : Z) (grows : Z -> bool).
Abbreviation M A := (cmd (lib W) A).

Definition set_filelist (l : list Z) (s : lib W) : lib W :=
  Lib l (fslist s) (files s) (fss s) (names s) (nextfh s) (workdir s) (creation_mask s) (environment s) (base s).
Definition set_fslist (l : list Z) (s : lib W) : lib W :=
  Lib (filelist s) l (files s) (fss s) (names s) (nextfh s) (workdir s) (creation_mask s) (environment s) (base s).
Definition set_files (m : gmap Z filelist_item) (s : lib W) : lib W :=
  Lib (filelist s) (fslist s) m (fss s) (names s) (nextfh s) (workdir s) (creation_mask s) (environment s) (base s).
Definition set_fss (m : gmap Z fslist_item) (s : lib W) : lib W :=
  Lib (filelist s) (fslist s) (files s) m (names s) (nextfh s) (workdir s) (creation_mask s) (environment s) (base s).
Definition set_names (m : gmap Z cell) (s : lib W) : lib W :=
  Lib (filelist s) (fslist s) (files s) (fss s) m (nextfh s) (workdir s) (creation_mask s) (environment s) (base s).
Definition set_nextfh (n : Z) (s : lib W) : lib W :=
  Lib (filelist s) (fslist s) (files s) (fss s) (names s) n (workdir s) (creation_mask s) (environment s) (base s).
Definition set_workdir (d : option (str * path_t)) (s : lib W) : lib W :=
  Lib (filelist s) (fslist s) (files s) (fss s) (names s) (nextfh s) d (creation_mask s) (environment s) (base s).
Definition set_creation_mask (x : Z) (s : lib W) : lib W :=
  Lib (filelist s) (fslist s) (files s) (fss s) (names s) (nextfh s) (workdir s) x (environment s) (base s).
Definition set_environment (e : env) (s : lib W) : lib W :=
  Lib (filelist s) (fslist s) (files s) (fss s) (names s) (nextfh s) (workdir s) (creation_mask s) e (base s).
Definition set_base (b : libc W) (s : lib W) : lib W :=
  Lib (filelist s) (fslist s) (files s) (fss s) (names s) (nextfh s) (workdir s) (creation_mask s) (environment s) b.

(** Functions of the library on [errno] and the world. *)
Definition libc_do {A} (c : cmd (libc W) A) : M A := fun s =>
  match c (base s) with
  | Ret x b => Ret x (set_base b s)
  | Stop r b => Stop r (set_base b s)
  end.

Definition env_do {A} (c : cmd (libc env) A) : M A := fun s =>
  match c (Libc (errno (base s)) (environment s)) with
  | Ret x b => Ret x (set_base (Libc (errno b) (world (base s))) (set_environment (world b) s))
  | Stop r b => Stop r (set_base (Libc (errno b) (world (base s))) (set_environment (world b) s))
  end.

Definition get_errno : M Z := gets (fun s => errno (base s)).
Definition put_errno (e : Z) : M unit := libc_do (set_errno e).

(** [errno = res<0?-res:0; return res<0?-1:res;] *)
Definition finish (res : Z) : M Z := libc_do (result res).

(** [rpc_call] *)
Definition rpc (c : cmd W (option Z)) : M Z :=
  x ← libc_do (sys c);
  match x with Some r => put_errno 0;; mret r | None => put_errno EINVAL;; mret (-1) end.

(** ** Access to the heaps *)

Definition file_at (p : Z) : M filelist_item := fun s =>
  if p =? NULL then Stop NullDeref s
  else match files s !! p with Some f => Ret f s | None => Stop UseAfterFree s end.

Definition fs_at (p : Z) : M fslist_item := fun s =>
  if p =? NULL then Stop NullDeref s
  else match fss s !! p with Some f => Ret f s | None => Stop UseAfterFree s end.

Definition name_at (p : Z) : M str := fun s =>
  if p =? NULL then Stop NullDeref s
  else match names s !! p with Some c => Ret (text c) s | None => Stop UseAfterFree s end.

Definition upd_file (p : Z) (g : filelist_item -> filelist_item) : M unit :=
  f ← file_at p; modify (fun s => set_files (<[p := g f]> (files s)) s).

Definition new_item (f : filelist_item) : M Z := fun s =>
  let p := malloc (dom (files s)) in Ret p (set_files (<[p := f]> (files s)) s).

Definition strdup (x : str) : M Z := fun s =>
  let p := malloc (dom (names s)) in Ret p (set_names (<[p := Cell x true]> (names s)) s).

(** [free]: of NULL nothing; of an address that was not allocated it breaks the heap. *)
Definition free_name (p : Z) : M unit := fun s =>
  if p =? NULL then Ret tt s
  else match names s !! p with
       | None => Stop UseAfterFree s
       | Some c => if on_heap c then Ret tt (set_names (delete p (names s)) s) else Stop OutOfBounds s
       end.

Definition free_file (p : Z) : M unit :=
  file_at p;; modify (fun s => set_files (delete p (files s)) s).

Definition push_file (p : Z) : M unit := modify (fun s => set_filelist (p :: filelist s) s).

Definition getnew_fh : M Z := fun s => Ret (nextfh s) (set_nextfh (s32 (nextfh s + 1)) s).

(** The page of an open file; NULL if it is not attached. *)
Definition shm_peek (addr n : Z) : M (list Z) :=
  if addr =? NULL then stop_with NullDeref else libc_do (sys (peek addr n)).
Definition shm_poke (addr : Z) (x : list Z) : M unit :=
  if addr =? NULL then stop_with NullDeref else libc_do (sys (poke addr x)).

(** [strncpy(shmbuf,x,SHMMEM_SIZE)] *)
Definition padded (x : str) (n : nat) : list Z := take n (x ++ repeat 0 n).
Definition shm_strncpy (addr : Z) (x : str) : M unit := shm_poke addr (padded x (Z.to_nat SHMMEM_SIZE)).

Definition shmbuf_new : M (Z * Z) :=
  g ← libc_do (shmget junk IPC_PRIVATE SHMMEM_SIZE 0);
  b ← libc_do (shmat g NULL 0);
  mret (g, b).

(** [shmdt(shmbuf); shmctl(shmid,IPC_RMID,NULL);] *)
Definition shmbuf_free (g b : Z) : M unit :=
  libc_do (shmdt b);; libc_do (shmctl junk g IPC_RMID NULL);; mret tt.

(** ** File systems *)

Fixpoint fs_search (xs : list Z) (fsid : Z) : M Z :=
  match xs with
  | [] => mret NULL
  | p :: xs => f ← fs_at p; if id f =? fsid then mret p else fs_search xs fsid
  end.

Definition fsbyid (fsid : Z) : M Z := s ← gets Datatypes.id; fs_search (Seq.scan (fslist s)) fsid.

Fixpoint mp_loop (p : path_t) (xs : list Z) (maxcmp : nat) (maxfs : Z) : M Z :=
  match xs with
  | [] => mret maxfs
  | a :: xs =>
      f ← fs_at a;
      let curcmp := path_compare p (mountpoint f) in
      if (maxcmp <? curcmp)%nat then mp_loop p xs curcmp a else mp_loop p xs maxcmp maxfs
  end.

(** [memmove(file,file+strlen(mp),strlen(file)-strlen(mp)+1)] with an unsigned size. *)
Definition cut_mountpoint (file mp : str) : M str :=
  if (length mp <=? length file)%nat then mret (drop (length mp) file)
  else if (length mp =? length file + 1)%nat then mret file
  else stop_with OutOfBounds.

(** The file system and the rest of the path. *)
Definition mp_match (file : str) (parent : bool) : M (Z * str) :=
  let p := if parent then path_parent (parse_path file) else parse_path file in
  s ← gets Datatypes.id;
  maxfs ← mp_loop p (Seq.scan (fslist s)) 0 NULL;
  file ← (if negb (maxfs =? NULL) then f ← fs_at maxfs; cut_mountpoint file (mountpoint_str f) else mret file);
  mret (maxfs, match file with [] => [SLASH] | _ => file end).

(** The path is a buffer that is changed in place. *)
Definition fsbypath (path : option str) (parent : bool) : M (Z * option str) :=
  match path with
  | None | Some [] => mret (NULL, path)
  | Some path =>
      x ← mp_match path parent;
      let path := x.2 in
      if negb (x.1 =? NULL) then mret (x.1, Some path)
      else
        o ← libc_do (sys (vfs_getfsid path parent));
        match o with
        | None => put_errno EINVAL;; put_errno 1;; mret (NULL, Some path)
        | Some (i, cut) =>
            put_errno 0;;
            if (length path <? length cut)%nat then stop_with OutOfBounds
            else if i <? 0 then put_errno (- i);; mret (NULL, Some cut)
            else
              p ← rpc (vfs_getpid i);
              if p <? 0 then put_errno (- p);; mret (NULL, Some cut)
              else
                let mp := parse_path (take (length path - length cut) path) in
                s ← gets Datatypes.id;
                let a := malloc (dom (fss s)) in
                modify (fun s => set_fss (<[a := FsItem p i mp (path_output mp)]> (fss s)) s);;
                modify (fun s => set_fslist (a :: fslist s) s);;
                mret (a, Some cut)
        end
  end.

(** ** Open files *)

Fixpoint lidx_from (xs : list Z) (i n : Z) : M Z :=
  match xs with
  | [] => mret (-1)
  | p :: xs => f ← file_at p; if fh f =? n then mret i else lidx_from xs (i + 1) n
  end.

Definition lidxbyfh (n : Z) : M Z := s ← gets Datatypes.id; lidx_from (Seq.scan (filelist s)) 0 n.

Definition filebyfh (n : Z) : M Z :=
  if 0 <=? n then
    idx ← lidxbyfh n;
    if 0 <=? idx then s ← gets Datatypes.id; mret (Seq.get (filelist s) idx) else mret NULL
  else mret NULL.

(** NULL if there is no working directory yet. *)
Definition getabsolutepath (relative : str) : M (option str) :=
  let p := parse_path relative in
  s ← gets Datatypes.id;
  let p := if root p then Some p else d ← workdir s; Some (path_cat d.2 p) in
  mret ((fun p => path_output (path_reject_dots p)) <$> p).

(** A call with the number of an open file. *)
Definition file_call (f : filelist_item) (c : Z -> call) : M Z :=
  x ← fs_at (fs f); rpc (fs_call (pid x) (c (id x))).

(** A call with a path on its file system. *)
Definition path_call (path : str) (parent : bool) (c : Z -> str -> call) : M Z :=
  cpath ← getabsolutepath path;
  x ← fsbypath cpath parent;
  res ← (if negb (x.1 =? NULL) then
           f ← fs_at x.1;
           match x.2 with Some p => rpc (fs_call (pid f) (c (id f) p)) | None => stop_with NullDeref end
         else mret (- EINVAL));
  finish res.

(** The same for a file number. *)
Definition fd_call (fildes : Z) (body : Z -> filelist_item -> M Z) : M Z :=
  p ← filebyfh fildes;
  res ← (if negb (p =? NULL) then f ← file_at p; body p f else mret (- EBADF));
  finish res.

(** ** Working directory and flags *)

(** [arg] is the optional argument; other commands leave the result unset. *)
Definition fcntl (fildes op arg : Z) : M Z :=
  p ← filebyfh fildes;
  if negb (p =? NULL) then
    if op =? F_SETFD then
      upd_file p (fun f => FileItem (fs f) (fs_fh f) (d_name f) (mode f) (fh f) (path f) (shmid f) (shmbuf f) (type f)
        (Z.lor (fdfl f) arg) (stfl f) (isatty_ f));; mret 0
    else if op =? F_SETFL then
      upd_file p (fun f => FileItem (fs f) (fs_fh f) (d_name f) (mode f) (fh f) (path f) (shmid f) (shmbuf f) (type f)
        (fdfl f) (Z.lor (stfl f) arg) (isatty_ f));; mret 0
    else mret junk
  else put_errno EBADF;; mret (-1).

(** The result and what is written to the buffer: [None] is NULL; [buf] tells whether
    a buffer is given. *)
Definition getcwd (buf : bool) (size : Z) : M (option (list Z)) :=
  s ← gets Datatypes.id;
  let len := match workdir s with Some d => Z.of_nat (length d.1) | None => 0 end in
  let copy n := match workdir s with Some d => mret (Some (padded d.1 (Z.to_nat n))) | None => stop_with NullDeref end in
  if negb buf then copy (len + 1)
  else if size =? 0 then put_errno EINVAL;; mret None
  else if size <? len + 1 then put_errno ERANGE;; mret None
  else copy size.

(** ** Directories *)

Definition opendir (path : str) : M Z :=
  cpath ← getabsolutepath path;
  x ← fsbypath cpath false;
  r ← (if negb (x.1 =? NULL) then
         gb ← shmbuf_new;
         if negb (gb.2 =? NULL) then
           match x.2 with
           | None => stop_with NullDeref
           | Some cp =>
               shm_strncpy gb.2 cp;;
               f ← fs_at x.1;
               dh ← rpc (fs_call (pid f) (Fs_opendir (id f) gb.1));
               if 0 <=? dh then
                 nm ← strdup cp;
                 new ← new_item (FileItem x.1 dh NULL S_IFDIR 0 nm gb.1 gb.2 FL_FILE 0 0 0);
                 push_file new;; mret (new, 0)
               else mret (NULL, dh)
           end
         else e ← get_errno; mret (NULL, - e)
       else mret (NULL, - ENOENT));
  finish r.2;;
  mret (if r.2 <? 0 then NULL else r.1).

(** The item is freed before it is taken out of the list. *)
Definition closedir (file : Z) : M Z :=
  res ← (if negb (file =? NULL) then
           f ← file_at file;
           res ← file_call f (fun i => Fs_closedir i (fs_fh f));
           if res =? 0 then
             shmbuf_free (shmid f) (shmbuf f);;
             free_name (path f);;
             free_file file;;
             modify (fun s => set_filelist (Seq.drop_elem (filelist s) file) s);; mret 0
           else mret res
         else mret (- EBADF));
  finish res.

(** The entry; [None] at the end and on errors. *)
Definition readdir (file : Z) : M (option str) :=
  if negb (file =? NULL) then
    f ← file_at file;
    res ← file_call f (fun i => Fs_readdir i (fs_fh f));
    if 0 <=? res then
      free_name (d_name f);;
      seg ← shm_peek (shmbuf f) SHMMEM_SIZE;
      match cstring seg with
      | None => stop_with OutOfBounds
      | Some n =>
          nm ← strdup n;
          upd_file file (fun f => FileItem (fs f) (fs_fh f) nm (mode f) (fh f) (path f) (shmid f) (shmbuf f) (type f)
            (fdfl f) (stfl f) (isatty_ f));;
          put_errno 0;; mret (Some n)
      end
    else put_errno (if res =? - ENOENT then 0 else - res);; mret None
  else put_errno EBADF;; mret None.

Definition seekdir (file loc : Z) : M unit :=
  res ← (if negb (file =? NULL) then f ← file_at file; file_call f (fun i => Fs_seekdir i (fs_fh f) loc)
         else mret (- EBADF));
  finish res;; mret tt.

Definition telldir (file : Z) : M Z :=
  res ← (if negb (file =? NULL) then f ← file_at file; file_call f (fun i => Fs_seekdir i (fs_fh f) (-1))
         else mret (- EBADF));
  finish res.

Definition str_PATH : str := [80; 65; 84; 72].

Definition chdir (new : str) : M Z :=
  p ← getabsolutepath new;
  let new := default [SLASH] p in
  dir ← opendir new;
  if negb (dir =? NULL) then
    closedir dir;;
    let p := path_reject_dots (parse_path new) in
    modify (set_workdir (Some (path_output p, p)));;
    env_do (setenv grows junk (Some str_PATH) (path_output p) true);;
    mret 0
  else mret (-1).

Definition _fs_init : M Z :=
  modify (set_filelist []);; modify (set_fslist []);;
  modify (set_creation_mask 511);; modify (set_nextfh 3);;
  modify (set_workdir None);;
  chdir [SLASH].

Definition fchdir (fildes : Z) : M Z := fd_call fildes (fun _ f => n ← name_at (path f); chdir n).

(** ** Calls with a path *)

Definition mknod (path : str) (mode dev : Z) : M Z :=
  s ← gets Datatypes.id;
  path_call path true (fun i p => Fs_mknod i p (Z.land mode (w32 (Z.lnot (creation_mask s)))) dev).

Definition access (path : str) (amode : Z) : M Z := path_call path false (fun i p => Fs_access i p amode).
Definition unlink (path : str) : M Z := path_call path true Fs_unlink.
Definition rmdir (path : str) : M Z := path_call path true Fs_rmdir.
Definition chown (path : str) (uid gid : Z) : M Z := path_call path false (fun i p => Fs_chown i p uid gid).
Definition chmod (path : str) (mode : Z) : M Z := path_call path false (fun i p => Fs_chmod i p mode).

(** The paths of the caller are sent, not those of the file system. *)
Definition rename (old new : str) : M Z :=
  cold ← getabsolutepath old; cnew ← getabsolutepath new;
  x ← fsbypath cold true; y ← fsbypath cnew true;
  res ← (if negb (x.1 =? NULL) && (x.1 =? y.1) then
           f ← fs_at x.1; rpc (fs_call (pid f) (Fs_rename (id f) old new))
         else mret (- EINVAL));
  finish res.

Definition symlink (dest src : str) : M Z :=
  csrc ← getabsolutepath src; cdest ← getabsolutepath dest;
  x ← fsbypath csrc true;
  res ← (if negb (x.1 =? NULL) then
           f ← fs_at x.1;
           match x.2, cdest with
           | Some s, Some d => rpc (fs_call (pid f) (Fs_symlink (id f) s d))
           | _, _ => stop_with NullDeref
           end
         else mret (- EINVAL));
  finish res.

Definition link (src dest : str) : M Z :=
  csrc ← getabsolutepath src; cdest ← getabsolutepath dest;
  x ← fsbypath csrc true; y ← fsbypath cdest false;
  res ← (if negb (x.1 =? NULL) && (x.1 =? y.1) then
           f ← fs_at x.1; rpc (fs_call (pid f) (Fs_link (id f) src dest))
         else mret (- EINVAL));
  finish res.

(** ** Opening and closing *)

Definition str_tty : str := [47; 100; 101; 118; 47; 116; 116; 121].

(** [cmode] is the optional argument. *)
Definition open (path : str) (oflag cmode : Z) : M Z :=
  cpath ← getabsolutepath path;
  x ← fsbypath cpath false;
  e ← get_errno;
  let n := if x.1 =? NULL then - e else 0 in
  n ← (if n =? 0 then
    r ← (if flag oflag O_CREAT then
           res ← mknod path (Z.lor cmode S_IFREG) 0;
           e ← get_errno;
           mret (Z.land oflag (Z.lnot O_CREAT), if (res =? -1) && negb (e =? EEXIST) then - e else n)
         else mret (oflag, n));
    gb ← shmbuf_new;
    if negb (gb.2 =? NULL) then
      match x.2 with
      | None => stop_with NullDeref
      | Some cp =>
          shm_strncpy gb.2 cp;;
          f ← fs_at x.1;
          n ← rpc (fs_call (pid f) (Fs_open (id f) r.1 gb.1));
          if 0 <=? n then
            m ← getnew_fh;
            nm ← strdup cp;
            new ← new_item (FileItem x.1 n NULL S_IFREG m nm gb.1 gb.2 FL_FILE 0 r.1
                              (Z.b2z (bool_decide (take 8 path = str_tty))));
            push_file new;; mret m
          else mret n
      end
    else mret r.2
  else mret n);
  finish n.

Definition close (fildes : Z) : M Z :=
  fd_call fildes (fun p f =>
    res ← file_call f (fun i => Fs_close i (fs_fh f));
    if res =? 0 then
      shmbuf_free (shmid f) (shmbuf f);;
      idx ← lidxbyfh fildes;
      modify (fun s => set_filelist (Seq.remove (filelist s) (w32 idx)).2 s);;
      free_name (path f);; free_file p;; mret 0
    else mret res).

Fixpoint close_loop (fuel : nat) : M unit :=
  match fuel with
  | O => mret tt
  | S fuel =>
      s ← gets Datatypes.id;
      let '(p, rest) := Seq.pop (filelist s) in
      modify (set_filelist rest);;
      if p =? NULL then mret tt
      else
        f ← file_at p;
        (if type f =? FL_FILE then close (fh f) else if type f =? FL_DIR then closedir p else mret 0);;
        close_loop fuel
  end.

(** Every round takes one element out. *)
Definition _close_all_filehandles : M unit := s ← gets Datatypes.id; close_loop (length (filelist s) + 1).

Fixpoint cloexec_loop (fuel : nat) (i : Z) : M unit :=
  match fuel with
  | O => mret tt
  | S fuel =>
      s ← gets Datatypes.id;
      let p := Seq.get (filelist s) i in
      if p =? NULL then mret tt
      else
        f ← file_at p;
        (if type f =? FL_DIR then closedir p
         else if flag (fdfl f) FD_CLOEXEC then close (fh f) else mret 0);;
        cloexec_loop fuel (i + 1)
  end.

Definition _fs_cloexec : M unit := s ← gets Datatypes.id; cloexec_loop (length (filelist s) + 1) 0.

(** The result is that of the server. *)
Definition dup2 (fildes fildes2 : Z) : M Z :=
  p ← filebyfh fildes;
  if negb (p =? NULL) then
    f ← file_at p;
    res ← file_call f (fun i => Fs_dup i (fs_fh f));
    (if 0 <=? res then
       f ← file_at p;
       m ← (if fildes2 =? 0 then getnew_fh else close fildes2;; mret fildes2);
       gb ← shmbuf_new;
       new ← new_item (FileItem (fs f) res (d_name f) (mode f) m (path f) gb.1 gb.2 (type f) (fdfl f) (stfl f) (isatty_ f));
       push_file new
     else mret tt);;
    mret res
  else put_errno EBADF;; mret (-1).

(** The decimal digits of [printf]'s %d. *)
Fixpoint digits (fuel : nat) (n : Z) : str :=
  match fuel with
  | O => []
  | S fuel => (if n <? 10 then [] else digits fuel (n / 10)) ++ [48 + n mod 10]
  end.
Definition decimal (n : Z) : str := (if n <? 0 then [45] else []) ++ digits 10 (Z.abs n).

(** "/tmp/anonpipe_" *)
Definition str_anonpipe : str := [47; 116; 109; 112; 47; 97; 110; 111; 110; 112; 105; 112; 101; 95].

(** [clock] and [getpid] are the results of these functions. *)
Definition pipe (clock getpid : Z) : M (Z * option (Z * Z)) :=
  let path := str_anonpipe ++ decimal (s32 clock) ++ [95] ++ decimal getpid in
  r ← open path (Z.lor O_RDONLY O_CREAT) (Z.lor S_IFIFO 511);
  if r =? -1 then mret (-1, None)
  else
    w ← open path O_WRONLY 0;
    if w =? -1 then mret (-1, None)
    else fcntl r F_SETFD FD_CLOEXEC;; fcntl r F_SETFL O_NONBLOCK;; mret (0, Some (r, w)).

(** ** Reading and writing *)

(** [buf] is the buffer of the caller and [pos] the place in it; the result and what
    it holds afterwards. *)
Definition _read (f : filelist_item) (buf : list Z) (pos count : Z) : M (Z * list Z) :=
  res ← file_call f (fun i => Fs_read i (fs_fh f) count);
  if 0 <? res then
    x ← shm_peek (shmbuf f) (if SHMMEM_SIZE <? res then SHMMEM_SIZE else res);
    if pos + Z.of_nat (length x) <=? Z.of_nat (length buf) then mret (res, splice buf pos x)
    else stop_with OutOfBounds
  else mret (res, buf).

Fixpoint read_loop (fuel : nat) (f : filelist_item) (buf : list Z) (pos count : Z) : M (Z * list Z) :=
  match fuel with
  | O => stop_with Hang
  | S fuel =>
      if pos <? count then
        let cur := if count - pos <? SHMMEM_SIZE then count - pos else SHMMEM_SIZE in
        r ← _read f buf pos cur;
        let cur := w32 r.1 in
        if cur =? w32 (-1) then mret (-1, r.2)
        else if cur =? 0 then mret (s32 pos, r.2)
        else read_loop fuel f r.2 (w32 (pos + cur)) count
      else mret (s32 pos, buf)
  end.

Definition read (fuel : nat) (fildes : Z) (buf : list Z) (count : Z) : M (Z * list Z) :=
  p ← filebyfh fildes;
  if negb (p =? NULL) then f ← file_at p; read_loop fuel f buf 0 count
  else put_errno EBADF;; mret (-1, buf).

(** The bytes [off, off + count) of the data of the caller. *)
Definition _write (f : filelist_item) (data : list Z) (off count : Z) : M Z :=
  if off + count <=? Z.of_nat (length data) then
    shm_poke (shmbuf f) (subrange data off count);;
    file_call f (fun i => Fs_write i (fs_fh f) count)
  else stop_with OutOfBounds.

Fixpoint write_loop (fuel : nat) (f : filelist_item) (data : list Z) (off count count_rem : Z) : M Z :=
  match fuel with
  | O => stop_with Hang
  | S fuel =>
      if 0 <? count_rem then
        let cur := if SHMMEM_SIZE <? w32 count_rem then SHMMEM_SIZE else w32 count_rem in
        res ← _write f data off cur;
        let cur := w32 res in
        if cur =? w32 (-1) then mret (-1)
        else
          let count_rem := s32 (count_rem - cur) in
          if cur =? 0 then mret (s32 (count - count_rem))
          else write_loop fuel f data (w32 (off + cur)) count count_rem
      else mret (s32 (count - count_rem))
  end.

Definition write (fuel : nat) (fildes : Z) (data : list Z) : M Z :=
  let count := Z.of_nat (length data) in
  p ← filebyfh fildes;
  if negb (p =? NULL) then f ← file_at p; write_loop fuel f data 0 count (s32 count)
  else put_errno EBADF;; mret (-1).

Definition lseek (fildes offset whence : Z) : M Z :=
  fd_call fildes (fun _ f => file_call f (fun i => Fs_seek i (fs_fh f) offset whence)).

Definition pread (fuel : nat) (fildes : Z) (buf : list Z) (count offset : Z) : M (Z * list Z) :=
  oldoff ← lseek fildes 0 SEEK_CUR;
  lseek fildes offset SEEK_SET;;
  r ← read fuel fildes buf count;
  lseek fildes oldoff SEEK_SET;; mret r.

Definition pwrite (fuel : nat) (fildes : Z) (data : list Z) (offset : Z) : M Z :=
  oldoff ← lseek fildes 0 SEEK_CUR;
  lseek fildes offset SEEK_SET;;
  r ← write fuel fildes data;
  lseek fildes oldoff SEEK_SET;; mret r.

Definition ftruncate (fildes length : Z) : M Z :=
  fd_call fildes (fun _ f => file_call f (fun i => Fs_ftruncate i (fs_fh f) length)).

Definition truncate (path : str) (length : Z) : M Z :=
  n ← open path O_WRONLY 0;
  if negb (n =? -1) then r ← ftruncate n length; close n;; mret (if negb (r =? -1) then 0 else -1)
  else mret (-1).

(** ** Information about files *)

(** A call whose answer is in the page of the file: the result and the answer. *)
Definition fd_answer (fildes : Z) (c : filelist_item -> Z -> call) (size : Z) : M (Z * option (list Z)) :=
  p ← filebyfh fildes;
  if negb (p =? NULL) then
    f ← file_at p;
    res ← file_call f (c f);
    x ← shm_peek (shmbuf f) size;
    r ← finish res; mret (r, Some x)
  else r ← finish (- EBADF); mret (r, None).

Definition fstat (fildes : Z) : M (Z * option (list Z)) := fd_answer fildes (fun f i => Fs_fstat i (fs_fh f)) SIZEOF_STAT.

Definition stat (path : str) : M (Z * option (list Z)) :=
  n ← open path O_RDONLY 0;
  if negb (n =? -1) then r ← fstat n; close n;; mret r
  else
    dir ← opendir path;
    if negb (dir =? NULL) then f ← file_at dir; r ← fstat (fh f); closedir dir;; mret r
    else mret (-1, None).

(** A call with a page of its own that holds [x]; [use] takes the answer out. *)
Definition page_call {A} (path : str) (err : Z) (x : str -> list Z) (c : Z -> Z -> call) (use : Z -> M A)
    : M (Z * option A) :=
  cpath ← getabsolutepath path;
  y ← fsbypath cpath false;
  if negb (y.1 =? NULL) then
    gb ← shmbuf_new;
    if negb (gb.2 =? NULL) then
      match y.2 with
      | None => stop_with NullDeref
      | Some cp =>
          shm_poke gb.2 (x cp);;
          f ← fs_at y.1;
          res ← rpc (fs_call (pid f) (c (id f) gb.1));
          a ← use gb.2;
          shmbuf_free gb.1 gb.2;;
          r ← finish res; mret (r, Some a)
      end
    else e ← get_errno; r ← finish (- e); mret (r, None)
  else r ← finish (- err); mret (r, None).

Definition statvfs (path : str) : M (Z * option (list Z)) :=
  page_call path EBADF (fun cp => padded cp (Z.to_nat SHMMEM_SIZE)) Stat_vfs (fun b => shm_peek b SIZEOF_STATVFS).

(** [strncpy(buf,shmbuf,bufsize)] *)
Definition strncpy_page (b n : Z) : M (list Z) :=
  seg ← shm_peek b SHMMEM_SIZE;
  match cstring seg with
  | Some t => mret (padded t (Z.to_nat n))
  | None => if n <=? SHMMEM_SIZE then mret (take (Z.to_nat n) seg) else stop_with OutOfBounds
  end.

Definition readlink (path : str) (bufsize : Z) : M (Z * option (list Z)) :=
  page_call path EBADF (fun cp => padded cp (Z.to_nat SHMMEM_SIZE)) (fun i g => Fs_readlink i g bufsize)
    (fun b => strncpy_page b bufsize).

(** The path of the caller, not that of the file system, and behind it the times. *)
Definition utime (path : str) (times : list Z) : M Z :=
  r ← page_call path EBADF
        (fun _ => splice (padded path (Z.to_nat SHMMEM_SIZE)) (Z.of_nat (length path) + 1) times) Fs_utime (fun _ => mret tt);
  mret r.1.

Definition fchown (fildes uid gid : Z) : M Z := fd_call fildes (fun _ f => n ← name_at (path f); chown n uid gid).

Definition fchmod (fildes m : Z) : M Z :=
  fd_call fildes (fun p f =>
    n ← name_at (path f);
    res ← chmod n m;
    (if res =? 0 then
       upd_file p (fun f => FileItem (fs f) (fs_fh f) (d_name f) m (fh f) (path f) (shmid f) (shmbuf f) (type f)
         (fdfl f) (stfl f) (isatty_ f))
     else mret tt);;
    mret res).

Definition umask (cmask : Z) : M Z :=
  s ← gets Datatypes.id; modify (set_creation_mask (Z.land cmask 511));; mret (creation_mask s).

(** ** Terminals *)

Definition tcgetattr (fildes : Z) : M (Z * option (list Z)) :=
  fd_answer fildes (fun f i => Fs_tcgetattr i (fs_fh f)) SIZEOF_TERMIOS.

Definition tcsetattr (fildes : Z) (termios : list Z) : M Z :=
  fd_call fildes (fun _ f =>
    shm_poke (shmbuf f) termios;; file_call f (fun i => Fs_tcsetattr i (fs_fh f))).

Definition ttyname (fildes : Z) : M (option str) :=
  p ← filebyfh fildes;
  if negb (p =? NULL) then
    f ← file_at p;
    if negb (isatty_ f =? 0) then n ← name_at (path f); mret (Some n) else put_errno ENOTTY;; mret None
  else put_errno EBADF;; mret None.

Definition isatty (fildes : Z) : M Z :=
  p ← filebyfh fildes;
  if negb (p =? NULL) then f ← file_at p; mret (isatty_ f) else finish (- EBADF).

(** [socket] *)
Definition socket (domain type protocol : Z) : M Z := mret (-1).

(** ** Handing open files on to another process *)

Definition packi (v : Z) : list Z := le_bytes 4 (w32 v).
Definition pack_str (x : str) : list Z := x ++ [0].

Fixpoint sum_lengths (xs : list str) : Z :=
  match xs with [] => 0 | x :: xs => Z.of_nat (length x) + 1 + sum_lengths xs end.

Fixpoint all_fss (xs : list Z) : M (list fslist_item) :=
  match xs with [] => mret [] | p :: xs => f ← fs_at p; r ← all_fss xs; mret (f :: r) end.

(** The items and their paths. *)
Fixpoint all_files (xs : list Z) : M (list (filelist_item * str)) :=
  match xs with [] => mret [] | p :: xs => f ← file_at p; n ← name_at (path f); r ← all_files xs; mret ((f, n) :: r) end.

(** [_fs_pack_filehandles(NULL)]: the size that is needed. *)
Definition _fs_pack_size : M Z :=
  s ← gets Datatypes.id;
  xs ← all_fss (Seq.scan (fslist s));
  ys ← all_files (Seq.scan (filelist s));
  mret (w32 (4 + Z.of_nat (length (fslist s)) * 4 * 2 + sum_lengths (mountpoint_str <$> xs) +
             4 + Z.of_nat (length (filelist s)) * 4 * 8 + sum_lengths (snd <$> ys))).

Definition pack_fs (f : fslist_item) : list Z := packi (id f) ++ packi (pid f) ++ pack_str (mountpoint_str f).

Definition is_packed (f : filelist_item) : bool := negb (type f =? FL_DIR) && negb (flag (fdfl f) FD_CLOEXEC).

Fixpoint pack_files (ys : list (filelist_item * str)) : M (list Z) :=
  match ys with
  | [] => mret []
  | (f, n) :: ys =>
      x ← (if is_packed f then
             g ← fs_at (fs f);
             mret (packi (fh f) ++ packi (fs_fh f) ++ packi (shmid f) ++ packi (type f) ++ packi (mode f) ++
                   packi (stfl f) ++ packi (fdfl f) ++ packi (id g) ++ pack_str n)
           else mret []);
      r ← pack_files ys; mret (x ++ r)
  end.

(** The bytes that are written to the buffer. *)
Definition _fs_pack_filehandles : M (list Z) :=
  s ← gets Datatypes.id;
  xs ← all_fss (Seq.scan (fslist s));
  ys ← all_files (Seq.scan (filelist s));
  r ← pack_files ys;
  mret (packi (Z.of_nat (length (fslist s))) ++ concat (pack_fs <$> xs) ++ packi (Z.of_nat (length (filelist s))) ++ r).

(** Reading from the buffer: the value and the rest. *)
Definition unpacki (b : list Z) : M (Z * list Z) :=
  if (length b <? 4)%nat then stop_with OutOfBounds else mret (s32 (le4 (take 4 b)), drop 4 b).

Definition unpack_str (b : list Z) : M (str * list Z) :=
  match cstring b with
  | Some x => mret (x, drop (length x + 1) b)
  | None => stop_with OutOfBounds
  end.

Fixpoint unpack_fss (n : nat) (b : list Z) : M (list Z) :=
  match n with
  | O => mret b
  | S n =>
      i ← unpacki b; p ← unpacki i.2; m ← unpack_str p.2;
      s ← gets Datatypes.id;
      let a := malloc (dom (fss s)) in
      modify (fun s => set_fss (<[a := FsItem p.1 i.1 (parse_path m.1) m.1]> (fss s)) s);;
      modify (fun s => set_fslist (a :: fslist s) s);;
      unpack_fss n m.2
  end.

(** The path stays in the buffer; the entry of [readdir] and [isatty] are not set. *)
Fixpoint unpack_files (n : nat) (b : list Z) : M (list Z) :=
  match n with
  | O => mret b
  | S n =>
      a1 ← unpacki b; a2 ← unpacki a1.2; a3 ← unpacki a2.2; a4 ← unpacki a3.2; a5 ← unpacki a4.2;
      a6 ← unpacki a5.2; a7 ← unpacki a6.2; a8 ← unpacki a7.2; m ← unpack_str a8.2;
      buf ← libc_do (shmat a3.1 NULL 0);
      g ← fsbyid a8.1;
      s ← gets Datatypes.id;
      let nm := malloc (dom (names s)) in
      modify (fun s => set_names (<[nm := Cell m.1 false]> (names s)) s);;
      new ← new_item (FileItem g a2.1 junk a5.1 a1.1 nm a3.1 buf a4.1 a7.1 a6.1 junk);
      push_file new;;
      unpack_files n m.2
  end.

Definition _fs_unpack_filehandles (b : list Z) : M (list Z) :=
  n ← unpacki b;
  b ← unpack_fss (Z.to_nat (w32 n.1)) n.2;
  n ← unpacki b;
  unpack_files (Z.to_nat (w32 n.1)) n.2.
End code.
