(* ===== verification/FilesSpec.v ===== *)
(** * What the file functions of the C library promise

    A process on a single file system sees a table of file numbers, each with a file and
    a position, over the contents of the files.  [files_refines] shows that [open],
    [read], [write] and [lseek] of Files implement that table on top of any servers
    that keep the promise [RootServer]. *)

From S2P Require Import Prelude LList Machine Path Cache Pack Fs AppIpc AppEnv Files.

(** ** What the servers promise *)

(** The steps of a path: no slashes and no empty ones, no zero bytes. *)
Definition clean (ss : list str) : Prop :=
  Forall (fun p => SLASH ∉ p) ss /\ Forall (fun p => is_empty p = false) ss /\
  Forall (fun p => Forall (fun c => c <> 0) p) ss.

(** The name of a file on the file system mounted at "/". *)
Definition rel (ss : list str) : str := match ss with [] => [SLASH] | _ => join ss end.

Inductive found := Missing | Regular (a : Z) | Other.

(** [served w A t]: the file system answers like the desk [t] of Fs, and [A] gives the
    segments of the process by their addresses. *)
Class RootServer (W : Type) `{SC : ShmCalls W} `{SV : Servers W} := {
  served : W -> gmap Z Z -> desk -> Prop;
  root_id : Z;
  root_pid : Z;
  leads : list str -> found;
  rs_id : 0 <= root_id;
  rs_pid : 0 <= root_pid;
  rs_fresh w A t n e : served w A t -> table t !! n = Some e -> n < next t;
  rs_next w A t : served w A t -> 0 <= next t;
  rs_getfsid w A t ss : served w A t -> clean ss ->
    vfs_getfsid (absolute ss) false w = Ret (Some (root_id, rel ss)) w;
  rs_getpid w A t : served w A t -> vfs_getpid root_id w = Ret (Some root_pid) w;
  rs_segment w A t : served w A t ->
    exists g b w1 w2, 0 <= g /\ b <> NULL /\ A !! b = None /\
      sys_shm_create IPC_PRIVATE SHMMEM_SIZE 0 w = Ret g w1 /\ sys_shm_get IPC_PRIVATE w1 = Ret g w1 /\
      sys_shm_at g NULL 0 w1 = Ret (0, b) w2 /\ served w2 (<[b := g]> A) t;
  rs_missing w A t b g ss oflag : served w A t -> A !! b = Some g -> clean ss ->
    Z.of_nat (length (rel ss)) < SHMMEM_SIZE -> leads ss = Missing ->
    exists w1 w2, poke b (padded (rel ss) (Z.to_nat SHMMEM_SIZE)) w = Ret tt w1 /\
      fs_call root_pid (Fs_open root_id oflag g) w1 = Ret (Some (- AppEnv.ENOENT)) w2 /\ served w2 A t;
  rs_open w A t b g ss oflag a c : served w A t -> A !! b = Some g -> clean ss ->
    Z.of_nat (length (rel ss)) < SHMMEM_SIZE -> leads ss = Regular a -> store t a = Some c ->
    next t < 2147483647 -> Z.of_nat (length c) < 2147483648 ->
    exists w1 w2, poke b (padded (rel ss) (Z.to_nat SHMMEM_SIZE)) w = Ret tt w1 /\
      fs_call root_pid (Fs_open root_id oflag g) w1 = Ret (Some (next t)) w2 /\
      served w2 A (Desk (<[next t := (a, if Z.land oflag O_APPEND =? 0 then 0 else Z.of_nat (length c), g)]> (table t))
                        (store t) (next t + 1));
  rs_read w A t b g n a p c count : served w A t -> A !! b = Some g -> table t !! n = Some (a, p, g) ->
    store t a = Some c -> 0 <= count <= SHMMEM_SIZE -> 0 <= p <= Z.of_nat (length c) -> Z.of_nat (length c) < 2147483648 ->
    let x := take (Z.to_nat count) (drop (Z.to_nat p) c) in
    let k := Z.of_nat (length x) in
    exists w1, fs_call root_pid (Fs_read root_id n count) w = Ret (Some k) w1 /\ peek b k w1 = Ret x w1 /\
      served w1 A (Desk (<[n := (a, p + k, g)]> (table t)) (store t) (next t));
  rs_write w A t b g n a p c x : served w A t -> A !! b = Some g -> table t !! n = Some (a, p, g) ->
    store t a = Some c -> Z.of_nat (length x) <= SHMMEM_SIZE -> 0 <= p <= Z.of_nat (length c) ->
    p + Z.of_nat (length x) < 2147483648 ->
    let k := Z.of_nat (length x) in
    exists w1 w2, poke b x w = Ret tt w1 /\ fs_call root_pid (Fs_write root_id n k) w1 = Ret (Some k) w2 /\
      served w2 A (Desk (<[n := (a, p + k, g)]> (table t))
                        (fun b => if decide (b = a) then Some (splice c p x) else store t b) (next t));
  rs_seek w A t n a p g c off whence p' : served w A t -> table t !! n = Some (a, p, g) -> store t a = Some c ->
    (whence = SEEK_SET /\ p' = off \/ whence = SEEK_CUR /\ p' = p + off \/
     whence = SEEK_END /\ p' = Z.of_nat (length c) + off) -> 0 <= p' < 2147483648 ->
    exists w1, fs_call root_pid (Fs_seek root_id n off whence) w = Ret (Some p') w1 /\
      served w1 A (Desk (<[n := (a, p', g)]> (table t)) (store t) (next t));
}.

(** ** What a process sees *)

(** For each number a file and a position, the contents of the files, the next number. *)
Record view := View {
  fds : gmap Z (Z * Z);
  contents : Z -> option (list Z);
  next_fd : Z;
}.

Inductive request :=
| Open (path : str) (oflag : Z)
| Read (fd count : Z)
| Write (fd : Z) (data : list Z)
| Lseek (fd off whence : Z).

Section spec.
Context {W : Type} `{RS : RootServer W} `{MM : Malloc} (junk : Z) (grows : Z -> bool).

(** The steps of a path that starts in the directory with the parts [dir]. *)
Definition destination (dir : path_t) (path : str) : list str :=
  let p := parse_path path in Path.resolve (if root p then parts p else parts dir ++ parts p).

(** What a call gives back, the bytes it stores and the table afterwards.  A call is
    defined if the path fits into a page and leads to a file or nowhere, no file grows
    over 2 GB and reading and writing do not start behind the end. *)
Definition spec (dir : path_t) (q : request) (v : view) : option (Z * list Z * view) :=
  match q with
  | Open path oflag =>
      let ss := destination dir path in
      if decide (Z.of_nat (length (rel ss)) < SHMMEM_SIZE /\ Forall (fun c => c <> 0) path /\
                 flag oflag O_CREAT = false) then
        match leads ss with
        | Missing => Some (-1, [], v)
        | Regular a =>
            c ← contents v a;
            if (next_fd v <? 2147483647) && (Z.of_nat (length c) <? 2147483648) then
              let p := if Z.land oflag O_APPEND =? 0 then 0 else Z.of_nat (length c) in
              Some (next_fd v, [], View (<[next_fd v := (a, p)]> (fds v)) (contents v) (next_fd v + 1))
            else None
        | Other => None
        end
      else None
  | Read fd count =>
      if (0 <=? count) && (count <? 2147483648) then
        match fds v !! fd with
        | None => Some (-1, [], v)
        | Some (a, p) =>
            c ← contents v a;
            if (p <=? Z.of_nat (length c)) && (Z.of_nat (length c) <? 2147483648) then
              let x := take (Z.to_nat count) (drop (Z.to_nat p) c) in
              let k := Z.of_nat (length x) in
              Some (k, x, View (<[fd := (a, p + k)]> (fds v)) (contents v) (next_fd v))
            else None
        end
      else None
  | Write fd data =>
      match fds v !! fd with
      | None => Some (-1, [], v)
      | Some (a, p) =>
          c ← contents v a;
          let k := Z.of_nat (length data) in
          if (p <=? Z.of_nat (length c)) && (p + k <? 2147483648) then
            Some (k, [], View (<[fd := (a, p + k)]> (fds v))
                           (fun b => if decide (b = a) then Some (splice c p data) else contents v b) (next_fd v))
          else None
      end
  | Lseek fd off whence =>
      match fds v !! fd with
      | None => Some (-1, [], v)
      | Some (a, p) =>
          c ← contents v a;
          p' ← (if whence =? SEEK_SET then Some off
                else if whence =? SEEK_CUR then Some (p + off)
                else if whence =? SEEK_END then Some (Z.of_nat (length c) + off) else None);
          if (0 <=? p') && (p' <? 2147483648)
          then Some (p', [], View (<[fd := (a, p')]> (fds v)) (contents v) (next_fd v)) else None
      end
  end.

Fixpoint spec_all (dir : path_t) (qs : list request) (v : view) : option (list (Z * list Z)) :=
  match qs with
  | [] => Some []
  | q :: qs => '(x, y, v') ← spec dir q v; r ← spec_all dir qs v'; Some ((x, y) :: r)
  end.

(** The calls of the library: the result and, for [read], the bytes read.  The loops get
    one round per page and two more. *)
Definition rounds (n : Z) : nat := Z.to_nat (n / SHMMEM_SIZE + 2).

Definition run (q : request) : cmd (lib W) (Z * list Z) :=
  match q with
  | Open path oflag => r ← open junk path oflag 0; mret (r, [])
  | Read fd count =>
      r ← read (rounds count) fd (repeat 0 (Z.to_nat count)) count;
      mret (r.1, take (Z.to_nat r.1) r.2)
  | Write fd data => r ← write (rounds (Z.of_nat (length data))) fd data; mret (r, [])
  | Lseek fd off whence => r ← lseek fd off whence; mret (r, [])
  end.

Fixpoint run_all (qs : list request) : cmd (lib W) (list (Z * list Z)) :=
  match qs with
  | [] => mret []
  | q :: qs => x ← run q; xs ← run_all qs; mret (x :: xs)
  end.

(** ** Steps of the library *)

Implicit Types s : lib W.

Definition at_world (e : Z) (w : W) (s : lib W) : lib W := set_base (Libc e w) s.

Lemma at_world_twice e w e' w' s : at_world e w (at_world e' w' s) = at_world e w s.
Proof. done. Qed.

Lemma at_world_same s : at_world (errno (base s)) (world (base s)) s = s.
Proof. by destruct s as [? ? ? ? ? ? ? ? ? []]. Qed.

Lemma sys_ok {A} (c : cmd W A) s x w : c (world (base s)) = Ret x w ->
  libc_do (sys c) s = Ret x (at_world (errno (base s)) w s).
Proof. intros E. unfold libc_do, sys. by rewrite E. Qed.

Lemma rpc_ok c s r w : c (world (base s)) = Ret (Some r) w -> rpc c s = Ret r (at_world 0 w s).
Proof. intros E. unfold rpc. by rewrite (bind_Ret _ _ _ _ _ (sys_ok c s (Some r) w E)). Qed.

Lemma finish_ok r s : finish r s =
  Ret (if r <? 0 then -1 else r) (at_world (if r <? 0 then - r else 0) (world (base s)) s).
Proof. done. Qed.

Lemma file_at_ok p f s : p <> NULL -> files s !! p = Some f -> file_at p s = Ret f s.
Proof. intros Hp Hf. unfold file_at. by rewrite (proj2 (Z.eqb_neq _ _) Hp), Hf. Qed.

Lemma fs_at_ok p x s : p <> NULL -> fss s !! p = Some x -> fs_at p s = Ret x s.
Proof. intros Hp Hx. unfold fs_at. by rewrite (proj2 (Z.eqb_neq _ _) Hp), Hx. Qed.

Lemma shm_peek_ok b n s x w : b <> NULL -> peek b n (world (base s)) = Ret x w ->
  shm_peek b n s = Ret x (at_world (errno (base s)) w s).
Proof. intros Hb E. unfold shm_peek. rewrite (proj2 (Z.eqb_neq _ _) Hb). by apply sys_ok. Qed.

Lemma shm_poke_ok b x s w : b <> NULL -> poke b x (world (base s)) = Ret tt w ->
  shm_poke b x s = Ret tt (at_world (errno (base s)) w s).
Proof. intros Hb E. unfold shm_poke. rewrite (proj2 (Z.eqb_neq _ _) Hb). by apply sys_ok. Qed.

(** A file system item of the server. *)
Definition root_item (s : lib W) (p : Z) : Prop :=
  p <> NULL /\ exists x, fss s !! p = Some x /\ pid x = root_pid /\ id x = root_id.

Lemma file_call_ok f c s r w : root_item s (fs f) -> fs_call root_pid (c root_id) (world (base s)) = Ret (Some r) w ->
  file_call f c s = Ret r (at_world 0 w s).
Proof.
  intros (Hp & x & Hx & Hpid & Hid) E. unfold file_call. rewrite (bind_Ret _ _ _ _ _ (fs_at_ok _ _ _ Hp Hx)).
  apply rpc_ok. by rewrite Hpid, Hid.
Qed.

(** ** Reading and writing in pages *)

Lemma take_drop_split (x : list Z) (a b : nat) : (a <= b)%nat -> take b x = take a x ++ take (b - a) (drop a x).
Proof. intros H. rewrite <- (take_drop a (take b x)), take_take, skipn_firstn_comm. f_equal. f_equal. lia. Qed.

Lemma ite_same {A} (b : bool) (x : A) : (if b then x else x) = x.
Proof. by destruct b. Qed.

(** An open file [f] of the library: the file [a] of the server at position [p] with
    contents [c], and the segment of the library is the one the server writes to. *)
Record ready (s : lib W) (A : gmap Z Z) (t : desk) (f : filelist_item) (a p : Z) (c : list Z) : Prop := {
  rd_served : served (world (base s)) A t;
  rd_root : root_item s (fs f);
  rd_page : A !! shmbuf f = Some (shmid f);
  rd_buf : shmbuf f <> NULL;
  rd_table : table t !! fs_fh f = Some (a, p, shmid f);
  rd_store : store t a = Some c;
  rd_pos : 0 <= p <= Z.of_nat (length c);
}.

Definition moved (t : desk) (f : filelist_item) (a p : Z) : desk :=
  Desk (<[fs_fh f := (a, p, shmid f)]> (table t)) (store t) (next t).

Lemma moved_same s A t f a p c : ready s A t f a p c -> moved t f a p = t.
Proof. intros R. destruct t. unfold moved. simpl. by rewrite insert_id by apply R. Qed.

Lemma moved_twice t f a p q : moved (moved t f a p) f a q = moved t f a q.
Proof. unfold moved. simpl. by rewrite insert_insert_eq. Qed.

Lemma ready_moved s A t f a p c q e w : ready s A t f a p c -> served w A (moved t f a q) ->
  0 <= q <= Z.of_nat (length c) -> ready (at_world e w s) A (moved t f a q) f a q c.
Proof. intros [] Hs Hq. split; auto. simpl. apply lookup_insert_eq. Qed.

(** The first page and the rest; after a page that is not full there is none. *)
Lemma page_split (D : list Z) (m : nat) (cur : Z) :
  cur = (if Z.of_nat m <? SHMMEM_SIZE then Z.of_nat m else SHMMEM_SIZE) ->
  let y := take (Z.to_nat cur) D in
  let z := take (m - length y) (drop (length y) D) in
  take m D = y ++ z /\ (length z = 0 \/ Z.of_nat (length y) = SHMMEM_SIZE)%nat /\ Z.of_nat (length y) <= SHMMEM_SIZE.
Proof.
  intros Hcur y z. assert (Hm : (Z.to_nat cur <= m)%nat /\ cur <= SHMMEM_SIZE /\ (cur = Z.of_nat m \/ cur = SHMMEM_SIZE)).
  { unfold SHMMEM_SIZE in *. destruct (Z.ltb_spec (Z.of_nat m) 4096); lia. }
  assert (Hy : length y = (Z.to_nat cur `min` length D)%nat) by (unfold y; by rewrite length_take).
  split; [|split; [|unfold SHMMEM_SIZE in *; lia]].
  - unfold z. destruct (decide (Z.to_nat cur <= length D)%nat).
    + replace (length y) with (Z.to_nat cur) by lia. by rewrite (take_drop_split D (Z.to_nat cur) m) by lia.
    + unfold y. rewrite !(take_ge D) by lia. by rewrite drop_all, take_nil, app_nil_r.
  - unfold z. rewrite length_take, length_drop. unfold SHMMEM_SIZE in *; lia.
Qed.

(** One page. *)
Lemma _read_ok s A t f a p c buf pos count :
  ready s A t f a p c -> Z.of_nat (length c) < 2147483648 -> 0 <= pos -> 0 <= count <= SHMMEM_SIZE ->
  pos + count <= Z.of_nat (length buf) ->
  let x := take (Z.to_nat count) (drop (Z.to_nat p) c) in
  exists w, _read f buf pos count s = Ret (Z.of_nat (length x), splice buf pos x) (at_world 0 w s) /\
    served w A (moved t f a (p + Z.of_nat (length x))).
Proof.
  intros R Hc Hpos Hcount Hbuf x.
  destruct (rs_read _ _ _ (shmbuf f) _ _ _ _ _ count (rd_served _ _ _ _ _ _ _ R) (rd_page _ _ _ _ _ _ _ R)
    (rd_table _ _ _ _ _ _ _ R) (rd_store _ _ _ _ _ _ _ R) Hcount (rd_pos _ _ _ _ _ _ _ R) Hc) as (w & E & Ep & Hs).
  fold x in E, Ep, Hs. exists w. split; [|exact Hs].
  assert (Hx : Z.of_nat (length x) <= count) by (unfold x; rewrite length_take; lia).
  unfold _read. rewrite (bind_Ret _ _ _ _ _ (file_call_ok f _ s _ w (rd_root _ _ _ _ _ _ _ R) E)).
  destruct (Z.ltb_spec 0 (Z.of_nat (length x))) as [Hk|Hk].
  - rewrite (proj2 (Z.ltb_ge SHMMEM_SIZE _)) by lia.
    rewrite (bind_Ret _ _ _ _ _ (shm_peek_ok _ _ (at_world 0 w s) _ _ (rd_buf _ _ _ _ _ _ _ R) Ep)).
    by rewrite (proj2 (Z.leb_le _ _)) by lia.
  - assert (x = []) as -> by (destruct x; [done|simpl in Hk; lia]). by rewrite splice_nil by lia.
Qed.

Lemma pages_read_ok fuel : forall s A t f a p c buf pos count,
  ready s A t f a p c -> Z.of_nat (length c) < 2147483648 -> 0 <= pos <= count -> count < 2147483648 ->
  count <= Z.of_nat (length buf) ->
  let x := take (Z.to_nat (count - pos)) (drop (Z.to_nat p) c) in
  Z.of_nat (length x) <= SHMMEM_SIZE * (Z.of_nat fuel - 1) ->
  exists w, read_loop fuel f buf pos count s =
      Ret (pos + Z.of_nat (length x), splice buf pos x) (at_world (if pos <? count then 0 else errno (base s)) w s) /\
    served w A (moved t f a (p + Z.of_nat (length x))).
Proof.
  induction fuel as [|fuel IH]; intros s A t f a p c buf pos count R Hc Hpos Hcount Hbuf x Hfuel;
    [unfold SHMMEM_SIZE in Hfuel; lia|].
  cbn [read_loop]. destruct (Z.ltb_spec pos count) as [Hlt|Hge]; cycle 1.
  { exists (world (base s)). rewrite at_world_same.
    assert (x = []) as -> by (unfold x; by replace (Z.to_nat (count - pos)) with 0%nat by lia).
    simpl. rewrite splice_nil, s32_small, !Z.add_0_r by lia. split; [done|].
    rewrite (moved_same _ _ _ _ _ _ _ R). apply R. }
  set (cur := if count - pos <? SHMMEM_SIZE then count - pos else SHMMEM_SIZE).
  assert (Hcur : 0 < cur <= SHMMEM_SIZE /\ cur <= count - pos)
    by (unfold cur, SHMMEM_SIZE; destruct (Z.ltb_spec (count - pos) 4096); lia).
  destruct (_read_ok s A t f a p c buf pos cur R Hc ltac:(lia) ltac:(lia) ltac:(lia)) as (w & E & Hs).
  destruct (page_split (drop (Z.to_nat p) c) (Z.to_nat (count - pos)) cur) as (Hxy & Hz & Hy);
    [unfold cur; by rewrite Z2Nat.id by lia|]. fold x in Hxy. pose proof (rd_pos _ _ _ _ _ _ _ R) as Hp.
  assert (Hy2 : p + Z.of_nat (length (take (Z.to_nat cur) (drop (Z.to_nat p) c))) <= Z.of_nat (length c)
    /\ Z.of_nat (length (take (Z.to_nat cur) (drop (Z.to_nat p) c))) <= cur) by (rewrite length_take, length_drop; lia).
  set (y := take (Z.to_nat cur) (drop (Z.to_nat p) c)) in *. rewrite drop_drop in Hxy, Hz.
  replace (take (Z.to_nat (count - pos) - length y) (drop (Z.to_nat p + length y) c))
    with (take (Z.to_nat (count - (pos + Z.of_nat (length y)))) (drop (Z.to_nat (p + Z.of_nat (length y))) c))
    in Hxy, Hz by (f_equal; [lia|f_equal; lia]).
  rewrite (bind_Ret _ _ _ _ _ E). cbn [fst snd]. rewrite w32_small by (unfold SHMMEM_SIZE in *; lia).
  rewrite (proj2 (Z.eqb_neq _ (w32 (-1)))) by (change (w32 (-1)) with 4294967295; unfold SHMMEM_SIZE in *; lia).
  destruct (Z.eqb_spec (Z.of_nat (length y)) 0) as [H0|H0].
  - exists w. apply (f_equal length) in Hxy. rewrite length_app in Hxy.
    assert (x = []) as -> by (apply nil_length_inv; unfold SHMMEM_SIZE in *; lia).
    assert (y = []) as Hn by (apply nil_length_inv; lia). rewrite Hn in Hs |- *. simpl.
    rewrite splice_nil, s32_small by lia. by rewrite !Z.add_0_r in *.
  - rewrite w32_small by lia.
    assert (R' := ready_moved _ _ _ _ _ _ _ _ 0 w R Hs ltac:(lia)).
    specialize (IH _ _ _ _ _ _ _ (splice buf pos y) (pos + Z.of_nat (length y)) count R' Hc ltac:(lia) Hcount).
    rewrite length_splice in IH by lia. specialize (IH Hbuf). cbv zeta in IH.
    set (z := take _ (drop _ c)) in IH, Hxy, Hz. rewrite Hxy, length_app in Hfuel.
    destruct IH as (w' & E' & Hs'); [unfold SHMMEM_SIZE in *; lia|]. exists w'.
    rewrite E', Hxy, splice_app, length_app by lia. rewrite moved_twice in Hs'.
    split; [rewrite at_world_twice; cbn [at_world set_base base errno]; rewrite ite_same; f_equal; f_equal; lia|].
    by rewrite Nat2Z.inj_add, Z.add_assoc.
Qed.

(** The desk [t'] is [t] with [x] written to [f] at [p]. *)
Record written (t t' : desk) (f : filelist_item) (a p : Z) (c x : list Z) : Prop := {
  wr_table : table t' = <[fs_fh f := (a, p + Z.of_nat (length x), shmid f)]> (table t);
  wr_store b : store t' b = if decide (b = a) then Some (splice c p x) else store t b;
  wr_next : next t' = next t;
}.

Lemma written_nil s A t f a p c : ready s A t f a p c -> written t t f a p c [].
Proof.
  intros R. split; [|intros b|done].
  - simpl. rewrite Z.add_0_r. symmetry. apply insert_id, R.
  - rewrite splice_nil by apply R. case_decide as Hd; [subst; apply R|done].
Qed.

Lemma written_app t t1 t2 f a p c x y : 0 <= p <= Z.of_nat (length c) ->
  written t t1 f a p c x -> written t1 t2 f a (p + Z.of_nat (length x)) (splice c p x) y ->
  written t t2 f a p c (x ++ y).
Proof.
  intros Hp [T1 S1 N1] [T2 S2 N2]. split; [|intros b|congruence].
  - by rewrite T2, T1, insert_insert_eq, length_app, Nat2Z.inj_add, Z.add_assoc.
  - rewrite S2, S1. case_decide; [|done]. by rewrite splice_app.
Qed.

Lemma ready_written s A t t' f a p c x e w : ready s A t f a p c -> written t t' f a p c x -> served w A t' ->
  ready (at_world e w s) A t' f a (p + Z.of_nat (length x)) (splice c p x).
Proof.
  intros R [T S _] Hs. pose proof (rd_pos _ _ _ _ _ _ _ R) as Hp. split; try (by apply R); [exact Hs|..].
  - rewrite T. apply lookup_insert_eq.
  - rewrite S. by rewrite decide_True.
  - unfold splice. rewrite !length_app, length_take. lia.
Qed.

Lemma _write_ok s A t f a p c data off count :
  ready s A t f a p c -> 0 <= off -> 0 <= count <= SHMMEM_SIZE -> off + count <= Z.of_nat (length data) ->
  p + count < 2147483648 ->
  exists w t', _write f data off count s = Ret count (at_world 0 w s) /\
    served w A t' /\ written t t' f a p c (subrange data off count).
Proof.
  intros R Hoff Hcount Hdata Hp. set (x := subrange data off count).
  assert (Hx : Z.of_nat (length x) = count) by (unfold x, subrange; rewrite length_take, length_drop; lia).
  destruct (rs_write _ _ _ (shmbuf f) _ _ _ _ _ x (rd_served _ _ _ _ _ _ _ R) (rd_page _ _ _ _ _ _ _ R)
    (rd_table _ _ _ _ _ _ _ R) (rd_store _ _ _ _ _ _ _ R) ltac:(lia) (rd_pos _ _ _ _ _ _ _ R) ltac:(lia))
    as (w1 & w & Ep & E & Hs).
  eexists w, _. split; [|split; [exact Hs|done]]. unfold _write. rewrite (proj2 (Z.leb_le _ _)) by lia. fold x.
  rewrite (bind_Ret _ _ _ _ _ (shm_poke_ok _ _ s _ (rd_buf _ _ _ _ _ _ _ R) Ep)).
  rewrite Hx in E. exact (file_call_ok f (fun i => Fs_write i (fs_fh f) count) (at_world _ w1 s) _ w (rd_root _ _ _ _ _ _ _ R) E).
Qed.

Lemma pages_written_ok fuel : forall s A t f a p c data off,
  ready s A t f a p c -> 0 <= off <= Z.of_nat (length data) -> Z.of_nat (length data) < 2147483648 ->
  let rem := Z.of_nat (length data) - off in
  p + rem < 2147483648 -> rem <= SHMMEM_SIZE * (Z.of_nat fuel - 1) ->
  exists e w t', write_loop fuel f data off (Z.of_nat (length data)) rem s = Ret (Z.of_nat (length data)) (at_world e w s) /\
    served w A t' /\ written t t' f a p c (drop (Z.to_nat off) data).
Proof.
  induction fuel as [|fuel IH]; intros s A t f a p c data off R Hoff Hlen rem Hp Hfuel;
    [unfold SHMMEM_SIZE, rem in *; lia|].
  assert (Hrem : rem = Z.of_nat (length data) - off) by done. clearbody rem.
  cbn [write_loop]. destruct (Z.ltb_spec 0 rem) as [Hlt|Hge]; cycle 1.
  { exists (errno (base s)), (world (base s)), t. rewrite at_world_same, s32_small by lia.
    rewrite drop_ge by lia. split; [f_equal; lia|]. split; [apply R|by eapply written_nil]. }
  rewrite (w32_small rem) by lia. set (cur := if SHMMEM_SIZE <? rem then SHMMEM_SIZE else rem).
  assert (Hcur : 0 < cur <= SHMMEM_SIZE /\ cur <= rem /\ (cur = rem \/ cur = SHMMEM_SIZE))
    by (unfold cur, SHMMEM_SIZE; destruct (Z.ltb_spec 4096 rem); lia).
  destruct (_write_ok s A t f a p c data off cur R ltac:(lia) ltac:(lia) ltac:(lia) ltac:(lia)) as (w & t1 & E & Hs & Hw).
  rewrite (bind_Ret _ _ _ _ _ E). rewrite w32_small by (unfold SHMMEM_SIZE in *; lia).
  rewrite (proj2 (Z.eqb_neq cur (w32 (-1)))) by (change (w32 (-1)) with 4294967295; unfold SHMMEM_SIZE in *; lia).
  rewrite (proj2 (Z.eqb_neq cur 0)) by lia. rewrite (w32_small (off + cur)), s32_small by lia.
  assert (R' := ready_written _ _ _ _ _ _ _ _ _ 0 w R Hw Hs). pose proof (rd_pos _ _ _ _ _ _ _ R) as Hpos.
  assert (Hx : Z.of_nat (length (subrange data off cur)) = cur) by (unfold subrange; rewrite length_take, length_drop; lia).
  rewrite Hx in R'. replace (rem - cur) with (Z.of_nat (length data) - (off + cur)) by lia.
  destruct (IH _ _ _ _ _ _ _ data (off + cur) R' ltac:(lia) Hlen ltac:(lia)) as (e & w' & t2 & E' & Hs' & Hw');
    [unfold SHMMEM_SIZE in *; lia|].
  exists e, w', t2. rewrite E'. split; [done|]. split; [done|].
  replace (drop (Z.to_nat off) data) with (subrange data off cur ++ drop (Z.to_nat (off + cur)) data).
  - eapply written_app; [lia|exact Hw|]. by rewrite Hx.
  - unfold subrange. rewrite <- (take_drop (Z.to_nat cur) (drop (Z.to_nat off) data)) at 2.
    rewrite drop_drop. do 2 f_equal. lia.
Qed.

(** ** The table of open files *)

Definition listed (s : lib W) (p : Z) (f : filelist_item) : Prop := p ∈ filelist s /\ files s !! p = Some f.

(** The item [f] is the file [a] of the server at position [q]. *)
Record backed (s : lib W) (A : gmap Z Z) (t : desk) (f : filelist_item) (a q : Z) : Prop := {
  bk_root : root_item s (fs f);
  bk_page : A !! shmbuf f = Some (shmid f);
  bk_buf : shmbuf f <> NULL;
  bk_table : table t !! fs_fh f = Some (a, q, shmid f);
  bk_pos : 0 <= q;
}.

(** The library in state [s] with working directory [dir] shows the table [v]. *)
Record shows (dir : path_t) (A : gmap Z Z) (t : desk) (s : lib W) (v : view) : Prop := {
  sh_served : served (world (base s)) A t;
  sh_contents b : contents v b = store t b;
  sh_next : next_fd v = nextfh s /\ 0 <= nextfh s /\ next t <= nextfh s;
  sh_dir : exists d, workdir s = Some (d, dir);
  sh_fs p : p ∈ fslist s -> p <> NULL /\ exists x, fss s !! p = Some x /\ steps (parts (mountpoint x)) = [];
  sh_live p : p ∈ filelist s -> p <> NULL /\ is_Some (files s !! p);
  sh_file p f : listed s p f ->
    exists a q, backed s A t f a q /\ fds v !! fh f = Some (a, q) /\ 0 <= fh f < nextfh s;
  sh_fd n e : fds v !! n = Some e -> exists p f, listed s p f /\ fh f = n;
  sh_uniq p p' f f' : listed s p f -> listed s p' f' -> fh f = fh f' \/ fs_fh f = fs_fh f' -> p = p';
}.

Lemma lidx_from_ok s n xs : (forall p, p ∈ xs -> p <> NULL /\ is_Some (files s !! p)) -> forall i,
  lidx_from xs i n s =
    Ret (match list_find (fun p => fh <$> files s !! p = Some n) xs with Some (j, _) => i + Z.of_nat j | None => -1 end) s.
Proof.
  intros Hxs. induction xs as [|p xs IH]; intros i; cbn [lidx_from list_find]; [done|].
  destruct (Hxs p) as (Hp & f & Hf); [by left|]. rewrite (bind_Ret _ _ _ _ _ (file_at_ok _ _ _ Hp Hf)), Hf. cbn [fmap option_fmap option_map].
  destruct (Z.eqb_spec (fh f) n) as [->|Hn]; [rewrite decide_True by done; f_equal; lia|].
  rewrite decide_False by congruence. rewrite IH by (intros q Hq; apply Hxs; by right). destruct (list_find _ xs) as [[j q]|]; simpl; [|done]. f_equal. lia.
Qed.

Lemma lidxbyfh_ok dir A t s v n : shows dir A t s v ->
  lidxbyfh n s = Ret (match list_find (fun p => fh <$> files s !! p = Some n) (filelist s) with
                      | Some (j, _) => Z.of_nat j | None => -1 end) s.
Proof.
  intros R. unfold lidxbyfh. rewrite bind_gets. cbn [Datatypes.id].
  assert (Seq.scan (filelist s) = filelist s) as ->; [|by apply lidx_from_ok, R].
  apply scan_all. intros Hn. by destruct (sh_live _ _ _ _ _ R NULL Hn).
Qed.

Lemma filebyfh_ok dir A t s v n : shows dir A t s v ->
  match fds v !! n with
  | Some _ => exists p f, listed s p f /\ fh f = n /\ p <> NULL /\ filebyfh n s = Ret p s
  | None => filebyfh n s = Ret NULL s
  end.
Proof.
  intros R. assert (Hl := lidxbyfh_ok _ _ _ _ _ n R). unfold filebyfh.
  destruct (fds v !! n) as [e|] eqn:He.
  - destruct (sh_fd _ _ _ _ _ R n e He) as (p & f & Hpf & Hn).
    destruct (sh_file _ _ _ _ _ R p f Hpf) as (a & q & _ & _ & Hr).
    rewrite (proj2 (Z.leb_le 0 n)) by lia. rewrite (bind_Ret _ _ _ _ _ Hl).
    destruct (list_find _ (filelist s)) as [[j p']|] eqn:Ej.
    + apply list_find_Some in Ej as (Hj & Hfh & _). rewrite (proj2 (Z.leb_le 0 _)) by lia. rewrite bind_gets.
      destruct (sh_live _ _ _ _ _ R p') as (Hp' & f' & Hf'); [by apply list_elem_of_lookup_2 in Hj|].
      exists p', f'. rewrite Hf' in Hfh. injection Hfh as Hfh. split_and!; auto; [split; [by apply list_elem_of_lookup_2 in Hj|done]|].
      unfold Seq.get. rewrite (proj2 (Z.ltb_ge _ 0)) by lia. cbn [Datatypes.id].
      by rewrite Nat2Z.id, Hj.
    + apply list_find_None in Ej. rewrite Forall_forall in Ej. destruct Hpf as [Hp Hf].
      destruct (Ej p Hp). by rewrite Hf, <- Hn.
  - destruct (0 <=? n); [|done]. rewrite (bind_Ret _ _ _ _ _ Hl).
    destruct (list_find _ (filelist s)) as [[j p]|] eqn:Ej; [|done].
    apply list_find_Some in Ej as (Hj & Hfh & _). destruct (files s !! p) as [f|] eqn:Hf; [|done].
    injection Hfh as Hfh. destruct (sh_file _ _ _ _ _ R p f) as (a & q & _ & Hv & _).
    { split; [by apply list_elem_of_lookup_2 in Hj|done]. } congruence.
Qed.

Lemma shows_ready dir A t s v p f a q c : shows dir A t s v -> listed s p f -> fds v !! fh f = Some (a, q) ->
  contents v a = Some c -> q <= Z.of_nat (length c) -> ready s A t f a q c.
Proof.
  intros R Hf Hv Hc Hq. destruct (sh_file _ _ _ _ _ R p f Hf) as (a' & q' & B & Hv' & _).
  rewrite Hv in Hv'. injection Hv' as <- <-. destruct B. split; auto; [apply R|].
  by rewrite <- (sh_contents _ _ _ _ _ R).
Qed.

(** The server has moved the position of one open file, and perhaps changed contents. *)
Lemma shows_moved dir A t t' s v p f a q q' cs e w : shows dir A t s v -> listed s p f -> fds v !! fh f = Some (a, q) ->
  0 <= q' -> table t' = <[fs_fh f := (a, q', shmid f)]> (table t) -> next t' = next t -> (forall b, cs b = store t' b) ->
  served w A t' ->
  shows dir A t' (at_world e w s) (View (<[fh f := (a, q')]> (fds v)) cs (next_fd v)).
Proof.
  intros R Hf Hv Hq T N Hcs Hs. split; try (by apply R); auto.
  - rewrite N. apply R.
  - intros p' f' Hf'. destruct (sh_file _ _ _ _ _ R p' f' Hf') as (a1 & q1 & [B1 B2 B3 B4 B5] & Hv1 & Hr1).
    destruct (decide (p' = p)) as [->|Hne].
    + assert (f' = f) as -> by (destruct Hf, Hf'; simpl in *; congruence).
      exists a, q'. simpl. rewrite lookup_insert_eq. split; [|done]. split; auto. rewrite T. apply lookup_insert_eq.
    + exists a1, q1. simpl. rewrite lookup_insert_ne by (intros E; apply Hne; eapply (sh_uniq _ _ _ _ _ R); eauto).
      split; [|done]. split; auto. rewrite T, lookup_insert_ne; [done|].
      intros E. apply Hne. eapply (sh_uniq _ _ _ _ _ R); eauto.
  - intros n e' He. simpl in He. destruct (decide (n = fh f)) as [->|Hn]; [by exists p, f|].
    rewrite lookup_insert_ne in He by done. by apply (sh_fd _ _ _ _ _ R n e').
Qed.

(** ** The calls *)

Abbreviation answers dir q s x y v' := (exists A' t' s', run q s = Ret (x, y) s' /\ shows dir A' t' s' v').

Lemma shows_world dir A t s v e w : shows dir A t s v -> served w A t -> shows dir A t (at_world e w s) v.
Proof.
  intros R Hs. split; [exact Hs|apply R..| | |]; [|apply R|apply R]. intros p f Hf.
  destruct (sh_file _ _ _ _ _ R p f Hf) as (a & q & [] & H). exists a, q. split; [by split|done].
Qed.

Lemma shows_errno dir A t s v e : shows dir A t s v -> shows dir A t (at_world e (world (base s)) s) v.
Proof. intros R. apply shows_world; [done|apply R]. Qed.

Lemma rounds_enough n : 0 <= n -> n <= SHMMEM_SIZE * (Z.of_nat (rounds n) - 1).
Proof.
  intros Hn. unfold rounds, SHMMEM_SIZE. pose proof (Z.div_mod n 4096 ltac:(lia)). pose proof (Z.mod_pos_bound n 4096 ltac:(lia)).
  pose proof (Z.div_pos n 4096 Hn ltac:(lia)). lia.
Qed.

Lemma read_answers fuel dir A t s v fd buf count x y v' :
  shows dir A t s v -> spec dir (Read fd count) v = Some (x, y, v') -> count <= Z.of_nat (length buf) ->
  count <= SHMMEM_SIZE * (Z.of_nat fuel - 1) ->
  exists A' t' s', read fuel fd buf count s = Ret (x, splice buf 0 y) s' /\ shows dir A' t' s' v' /\
    (is_Some (fds v !! fd) -> 0 < count -> errno (base s') = 0).
Proof.
  intros R Hsp Hbuf Hfuel. cbn [spec] in *. case_match eqn:Hcount; [|done]. zbool. unfold read.
  assert (Hf := filebyfh_ok _ _ _ _ _ fd R). destruct (fds v !! fd) as [[a q]|] eqn:Hv; cycle 1.
  { injection Hsp as <- <- <-. exists A, t. eexists. rewrite (bind_Ret _ _ _ _ _ Hf), splice_nil by lia.
    rewrite Z.eqb_refl. cbn [negb]. split; [reflexivity|]. split; [by apply shows_errno|]. by intros [? ?]. }
  destruct Hf as (p & f & Hl & <- & Hp & Ef). destruct (contents v a) as [c|] eqn:Hc; [|done]. simpl in Hsp.
  case_match eqn:Hb; [|done]. zbool. injection Hsp as <- <- <-.
  assert (Hr := shows_ready _ _ _ _ _ _ _ _ _ _ R Hl Hv Hc ltac:(lia)).
  rewrite (bind_Ret _ _ _ _ _ Ef), (proj2 (Z.eqb_neq _ _) Hp). cbn [negb].
  rewrite (bind_Ret _ _ _ _ _ (file_at_ok _ _ _ Hp (proj2 Hl))).
  destruct (pages_read_ok fuel s A t f a q c buf 0 count Hr ltac:(lia) ltac:(lia) ltac:(lia) Hbuf)
    as (w & E & Hs); [rewrite Z.sub_0_r, length_take; lia|].
  rewrite Z.sub_0_r in *. set (z := take (Z.to_nat count) (drop (Z.to_nat q) c)) in *.
  rewrite E. eexists A, (moved t f a (q + Z.of_nat (length z))), _. split; [reflexivity|]. split.
  - pose proof (rd_pos _ _ _ _ _ _ _ Hr). apply (shows_moved _ _ t _ s v p f a q); auto; [lia|apply R].
  - intros _ Hlt. cbn. by rewrite (proj2 (Z.ltb_lt _ _) Hlt).
Qed.

Lemma run_read dir A t s v fd count x y v' :
  shows dir A t s v -> spec dir (Read fd count) v = Some (x, y, v') -> answers dir (Read fd count) s x y v'.
Proof.
  intros R Hsp. assert (Hy : 0 <= count /\ Z.to_nat x = length y).
  { cbn [spec] in Hsp. case_match eqn:Hc; [|done]. zbool. destruct (fds v !! fd) as [[a p]|]; [|by simplify_eq].
    destruct (contents v a); [|done]. simpl in Hsp. case_match; [|done]. injection Hsp as <- <- _. lia. }
  destruct (read_answers (rounds count) _ _ _ _ _ _ (repeat 0 (Z.to_nat count)) _ _ _ _ R Hsp) as (A' & t' & s' & E & R' & _).
  - rewrite repeat_length. lia.
  - apply rounds_enough, Hy.
  - exists A', t', s'. cbn [run]. rewrite (bind_Ret _ _ _ _ _ E). split; [|done]. cbn [fst snd]. unfold mret, cmd_ret.
    rewrite (proj2 Hy). unfold splice. simpl. by rewrite take_app_length.
Qed.

Lemma write_answers fuel dir A t s v fd data x y v' :
  shows dir A t s v -> spec dir (Write fd data) v = Some (x, y, v') ->
  Z.of_nat (length data) <= SHMMEM_SIZE * (Z.of_nat fuel - 1) ->
  y = [] /\ exists A' t' s', write fuel fd data s = Ret x s' /\ shows dir A' t' s' v'.
Proof.
  intros R Hsp Hfuel. cbn [spec] in *. unfold write. cbv zeta.
  assert (Hf := filebyfh_ok _ _ _ _ _ fd R). destruct (fds v !! fd) as [[a q]|] eqn:Hv; cycle 1.
  { injection Hsp as <- <- <-. split; [done|]. exists A, t. eexists. rewrite (bind_Ret _ _ _ _ _ Hf).
    rewrite Z.eqb_refl. cbn [negb]. split; [reflexivity|by apply shows_errno]. }
  destruct Hf as (p & f & Hl & <- & Hp & Ef). destruct (contents v a) as [c|] eqn:Hc; [|done]. simpl in Hsp.
  case_match eqn:Hb; [|done]. zbool. injection Hsp as <- <- <-. split; [done|].
  assert (Hr := shows_ready _ _ _ _ _ _ _ _ _ _ R Hl Hv Hc ltac:(lia)). pose proof (rd_pos _ _ _ _ _ _ _ Hr) as Hq.
  rewrite (bind_Ret _ _ _ _ _ Ef), (proj2 (Z.eqb_neq _ _) Hp). cbn [negb].
  rewrite (bind_Ret _ _ _ _ _ (file_at_ok _ _ _ Hp (proj2 Hl))). rewrite s32_small by lia.
  destruct (pages_written_ok fuel s A t f a q c data 0 Hr ltac:(lia) ltac:(lia) ltac:(lia))
    as (e & w & t' & E & Hs & Hw); [lia|].
  rewrite Z.sub_0_r in E. rewrite E. destruct Hw as [T S N]. rewrite drop_0 in T, S.
  eexists A, t', _. split; [reflexivity|]. apply (shows_moved _ _ t t' s v p f a q); auto; [lia|].
  intros b. rewrite S. case_decide; [done|]. apply R.
Qed.

Lemma run_write dir A t s v fd data x y v' :
  shows dir A t s v -> spec dir (Write fd data) v = Some (x, y, v') -> answers dir (Write fd data) s x y v'.
Proof.
  intros R Hsp. destruct (write_answers (rounds (Z.of_nat (length data))) _ _ _ _ _ _ _ _ _ _ R Hsp) as (-> & A' & t' & s' & E & R').
  - pose proof (rounds_enough (Z.of_nat (length data)) ltac:(lia)). lia.
  - exists A', t', s'. cbn [run]. by rewrite (bind_Ret _ _ _ _ _ E).
Qed.

Lemma run_lseek dir A t s v fd off whence x y v' :
  shows dir A t s v -> spec dir (Lseek fd off whence) v = Some (x, y, v') -> answers dir (Lseek fd off whence) s x y v'.
Proof.
  intros R Hsp. cbn [spec run] in *. unfold lseek, fd_call.
  assert (Hf := filebyfh_ok _ _ _ _ _ fd R). destruct (fds v !! fd) as [[a q]|] eqn:Hv; cycle 1.
  { injection Hsp as <- <- <-. exists A, t. eexists. rewrite bind_assoc, (bind_Ret _ _ _ _ _ Hf).
    rewrite Z.eqb_refl. cbn [negb]. split; [reflexivity|by apply shows_errno]. }
  destruct Hf as (p & f & Hl & <- & Hp & Ef). destruct (contents v a) as [c|] eqn:Hc; [|done]. simpl in Hsp.
  destruct (sh_file _ _ _ _ _ R p f Hl) as (a' & q' & B & Hv' & _). rewrite Hv in Hv'. injection Hv' as <- <-.
  rewrite bind_assoc, (bind_Ret _ _ _ _ _ Ef), (proj2 (Z.eqb_neq _ _) Hp). cbn [negb].
  rewrite !bind_assoc, (bind_Ret _ _ _ _ _ (file_at_ok _ _ _ Hp (proj2 Hl))).
  match type of Hsp with (?o ≫= _ = _) => destruct o as [p'|] eqn:Ep end; [|done]. simpl in Hsp.
  case_match eqn:Hb; [|done]. zbool. injection Hsp as <- <- <-.
  assert (Hst : store t a = Some c) by (by rewrite <- (sh_contents _ _ _ _ _ R)).
  destruct (rs_seek _ _ _ _ _ _ _ _ off whence p' (sh_served _ _ _ _ _ R) (bk_table _ _ _ _ _ _ B) Hst) as (w & E & Hs);
    [|lia|].
  { destruct (Z.eqb_spec whence SEEK_SET); [injection Ep as <-; auto|].
    destruct (Z.eqb_spec whence SEEK_CUR); [injection Ep as <-; auto|].
    destruct (Z.eqb_spec whence SEEK_END); [injection Ep as <-; auto|done]. }
  rewrite (bind_Ret _ _ _ _ _ (file_call_ok f _ s _ w (bk_root _ _ _ _ _ _ B) E)).
  rewrite (bind_Ret _ _ _ _ _ (finish_ok _ _)), (proj2 (Z.ltb_ge p' 0)) by lia.
  eexists A, (moved t f a p'), _. split; [reflexivity|]. rewrite at_world_twice.
  apply (shows_moved _ _ t (moved t f a p') s v p f a q); auto. apply R.
Qed.

(** ** Paths *)

Definition dir_ok (dir : path_t) : Prop :=
  root dir = true /\ Forall (fun p => SLASH ∉ p) (parts dir) /\ Forall (Forall (fun c => c <> 0)) (parts dir).

Lemma cut_parts_Forall (P : Z -> Prop) n : forall x, Forall P x -> Forall (Forall P) (cut_parts n x).
Proof.
  assert (Hn : forall x, Forall P x -> Forall P (next_part x).1 /\ Forall P (next_part x).2).
  { induction x as [|c x IH]; intros Hx; [done|]. apply Forall_cons in Hx as [Hc Hx]. simpl.
    destruct (c =? SLASH); [done|]. destruct (IH Hx) as [H1 H2]. destruct (next_part x). simpl in *. auto. }
  induction n as [|n IH]; intros x Hx; [constructor|]. cbn [cut_parts]. destruct (Hn x Hx) as [H1 H2].
  destruct (next_part x) as [a b]. constructor; [done|]. by apply IH.
Qed.

Lemma resolve_Forall (Q : str -> Prop) ps : Forall Q ps -> Forall Q (Path.resolve ps).
Proof.
  unfold Path.resolve. assert (H : forall st, Forall Q st -> Forall Q ps -> Forall Q (foldl Path.step st ps)); [|by auto].
  induction ps as [|p ps IH]; intros st Hst Hps; [done|]. apply Forall_cons in Hps as [Hp Hps]. simpl. apply IH; [|done].
  unfold Path.step. destruct (_ || _); [done|]. destruct (bool_decide _); [by apply Forall_take|].
  apply Forall_app. by repeat constructor.
Qed.

Lemma resolve_nonempty ps : Forall (fun p => is_empty p = false) (Path.resolve ps).
Proof.
  unfold Path.resolve.
  assert (H : forall st, Forall (fun p => is_empty p = false) st -> Forall (fun p => is_empty p = false) (foldl Path.step st ps)).
  - induction ps as [|p ps IH]; intros st Hst; [done|]. simpl. apply IH. unfold Path.step.
    destruct (is_empty p) eqn:Hp; [done|]. cbn [orb]. destruct (bool_decide (p = DOT)); [done|].
    destruct (bool_decide _); [by apply Forall_take|]. apply Forall_app. by repeat constructor.
  - by apply H.
Qed.

Lemma destination_clean dir path : dir_ok dir -> Forall (fun c => c <> 0) path -> clean (destination dir path).
Proof.
  intros (_ & Hd & Hz) Hpath. unfold destination, clean. cbv zeta. split_and!; [|apply resolve_nonempty|].
  - apply resolve_Forall. assert (Forall (fun p => SLASH ∉ p) (parts (parse_path path))) by apply cut_slash_free.
    destruct (root _); [done|by apply Forall_app].
  - apply resolve_Forall. assert (Forall (Forall (fun c => c <> 0)) (parts (parse_path path))) by (by apply cut_parts_Forall).
    destruct (root _); [done|by apply Forall_app].
Qed.

Lemma reject_output p : root p = true -> path_output (path_reject_dots p) = absolute (Path.resolve (parts p)).
Proof.
  intros Hr. rewrite path_output_root by done. f_equal.
  destruct (reject_loop_ok (length (parts p)) 0 (parts p) eq_refl) as [_ H2]. cbn [path_reject_dots parts].
  by rewrite H2, drop_0.
Qed.

Lemma getabsolutepath_ok dir A t s v path : shows dir A t s v -> dir_ok dir ->
  getabsolutepath path s = Ret (Some (absolute (destination dir path))) s.
Proof.
  intros R (Hr & _). unfold getabsolutepath. rewrite bind_gets. cbn [Datatypes.id]. destruct (sh_dir _ _ _ _ _ R) as (d & ->).
  unfold destination. cbv zeta. unfold mret, cmd_ret. repeat f_equal. destruct (root (parse_path path)) eqn:Hp.
  - cbn [fmap option_fmap option_map]. by rewrite reject_output.
  - cbn [mbind option_bind fmap option_fmap option_map snd]. by rewrite reject_output.
Qed.

Lemma mp_match_ok dir A t s v c x parent : shows dir A t s v -> mp_match (c :: x) parent s = Ret (NULL, c :: x) s.
Proof.
  intros R. unfold mp_match. rewrite bind_gets. cbn [Datatypes.id].
  assert (Seq.scan (fslist s) = fslist s) as ->.
  { apply scan_all. intros Hn. by destruct (sh_fs _ _ _ _ _ R NULL Hn). }
  assert (E : forall p xs, (forall a, a ∈ xs -> a ∈ fslist s) -> mp_loop p xs 0 NULL s = Ret NULL s).
  { intros p. induction xs as [|a xs IH]; intros Hxs; [done|]. cbn [mp_loop].
    destruct (sh_fs _ _ _ _ _ R a) as (Ha & i & Hi & Hst); [apply Hxs; by left|].
    rewrite (bind_Ret _ _ _ _ _ (fs_at_ok _ _ _ Ha Hi)).
    assert (path_compare p (mountpoint i) = 0%nat) as ->.
    { unfold path_compare. destruct (eqb _ _); [|done]. simpl. rewrite compare_loop_ok by done. rewrite Hst.
      by destruct (steps (parts p)). }
    simpl. apply IH. intros b Hb. apply Hxs. by right. }
  rewrite (bind_Ret _ _ _ _ _ (E _ _ (fun a H => H))). done.
Qed.

(** A new file system item. *)
Definition with_fs_item (a : Z) (x : fslist_item) (s : lib W) : lib W :=
  set_fslist (a :: fslist s) (set_fss (<[a := x]> (fss s)) s).

Lemma backed_more s s' A A' t t' f a q : backed s A t f a q ->
  (forall p, root_item s p -> root_item s' p) -> (forall b g, A !! b = Some g -> A' !! b = Some g) ->
  table t' !! fs_fh f = table t !! fs_fh f -> backed s' A' t' f a q.
Proof. intros [] Hroot HA Ht. split; auto. by rewrite Ht. Qed.

Lemma shows_fs_item dir A t s v a x : shows dir A t s v -> a <> NULL -> fss s !! a = None ->
  steps (parts (mountpoint x)) = [] -> shows dir A t (with_fs_item a x s) v.
Proof.
  intros R Ha Hn Hst. split; try apply R.
  - intros p [->|Hp]%elem_of_cons; [split; [done|]; exists x; split; [apply lookup_insert_eq|done]|].
    destruct (sh_fs _ _ _ _ _ R p Hp) as (Hp0 & y & Hy & Hsy). split; [done|]. exists y. split; [|done].
    simpl. rewrite lookup_insert_ne; [done|]. congruence.
  - intros p f Hf. destruct (sh_file _ _ _ _ _ R p f Hf) as (b & q & B & H). exists b, q. split; [|done].
    eapply backed_more; eauto. intros p' (Hp' & y & Hy & H'). split; [done|]. exists y. split; [|done].
    simpl. rewrite lookup_insert_ne; [done|]. congruence.
Qed.

Lemma cut_absolute ss : clean ss ->
  let cut := take (length (absolute ss) - length (rel ss)) (absolute ss) in
  steps (parts (parse_path cut)) = [] /\ (length (rel ss) <= length (absolute ss))%nat.
Proof.
  intros _. destruct ss as [|x ss]; [done|]. cbn [absolute rel length].
  replace (S (length (join (x :: ss))) - length (join (x :: ss)))%nat with 1%nat by lia. split; [done|lia].
Qed.

Lemma fsbypath_ok dir A t s v ss : shows dir A t s v -> clean ss ->
  exists a s', fsbypath (Some (absolute ss)) false s = Ret (a, Some (rel ss)) s' /\ shows dir A t s' v /\ root_item s' a /\
    errno (base s') = 0 /\ a <> NULL.
Proof.
  intros R Hc. assert (exists c x, absolute ss = c :: x) as (c & x & Hcx) by (destruct ss; by repeat eexists).
  destruct (cut_absolute ss Hc) as (Hcut & Hlen). unfold fsbypath. rewrite Hcx.
  rewrite (bind_Ret _ _ _ _ _ (mp_match_ok _ _ _ _ _ c x false R)). cbn [fst snd]. rewrite Z.eqb_refl. cbn [negb].
  rewrite <- Hcx. pose proof (rs_getfsid _ _ _ ss (sh_served _ _ _ _ _ R) Hc) as E.
  rewrite (bind_Ret _ _ _ _ _ (sys_ok _ s _ _ E)). rewrite at_world_same.
  rewrite (bind_Ret (put_errno 0) _ s tt (at_world 0 (world (base s)) s) eq_refl).
  rewrite (proj2 (Nat.ltb_ge _ _)) by lia. rewrite (proj2 (Z.ltb_ge root_id 0)) by apply rs_id.
  pose proof (rs_getpid _ _ _ (sh_served _ _ _ _ _ R)) as E2.
  rewrite (bind_Ret _ _ _ _ _ (rpc_ok _ (at_world 0 (world (base s)) s) _ _ E2)), at_world_twice.
  rewrite (proj2 (Z.ltb_ge root_pid 0)) by apply rs_pid. cbv zeta.
  rewrite bind_gets, bind_modify, bind_modify. cbn [Datatypes.id].
  set (s0 := at_world 0 (world (base s)) s). set (a := malloc (dom (fss s0))).
  set (i := FsItem root_pid root_id _ _).
  assert (Ha : a <> NULL) by apply malloc_nonnull.
  assert (Hn : fss s0 !! a = None) by (apply not_elem_of_dom, malloc_fresh).
  exists a, (with_fs_item a i s0). split; [reflexivity|]. split; [|split; [|done]].
  - apply shows_fs_item; auto. by apply shows_errno.
  - split; [done|]. exists i. split; [apply lookup_insert_eq|done].
Qed.

Lemma shmbuf_new_ok A t s : served (world (base s)) A t ->
  exists g b w, shmbuf_new junk s = Ret (g, b) (at_world 0 w s) /\ b <> NULL /\ A !! b = None /\ served w (<[b := g]> A) t.
Proof.
  intros Hs. destruct (rs_segment _ _ _ Hs) as (g & b & w1 & w2 & Hg & Hb & HA & E1 & E2 & E3 & Hs2).
  exists g, b, w2. split; [|done]. unfold shmbuf_new.
  assert (Eg : libc_do (shmget junk IPC_PRIVATE SHMMEM_SIZE 0) s = Ret g (at_world 0 w1 s)).
  { unfold libc_do, shmget. cbn [orb andb]. change (flag 0 IPC_CREAT) with false. change (flag 0 IPC_EXCL) with false.
    change (IPC_PRIVATE =? Ipc.IPC_PRIVATE) with true. cbn [orb andb negb].
    rewrite (bind_Ret _ _ _ g (Libc (errno (base s)) w1)) by (unfold sys; by rewrite E1).
    rewrite (bind_Ret _ _ _ g (Libc (errno (base s)) w1)) by (unfold sys; simpl; by rewrite E2).
    unfold result. by rewrite (proj2 (Z.ltb_ge g 0)) by lia. }
  rewrite (bind_Ret _ _ _ _ _ Eg).
  assert (Ea : libc_do (shmat g NULL 0) (at_world 0 w1 s) = Ret b (at_world 0 w2 s)).
  { unfold libc_do, shmat, sys, mbind, cmd_bind. simpl. by rewrite E3. }
  by rewrite (bind_Ret _ _ _ _ _ Ea).
Qed.

Lemma shows_attach dir A t s v b g e w : shows dir A t s v -> A !! b = None -> served w (<[b := g]> A) t ->
  shows dir (<[b := g]> A) t (at_world e w s) v.
Proof.
  intros R HA Hs. split; try apply R; [done|].
  intros p f Hf. destruct (sh_file _ _ _ _ _ R p f Hf) as (a & q & B & H). exists a, q. split; [|done].
  eapply backed_more; eauto. intros b' g' Hb'. rewrite lookup_insert_ne; [done|]. congruence.
Qed.

(** The library after a file was opened. *)
Definition with_file (p nm : Z) (f : filelist_item) (cp : str) (s : lib W) : lib W :=
  set_filelist (p :: filelist s) (set_files (<[p := f]> (files s))
    (set_names (<[nm := Cell cp true]> (names s)) (set_nextfh (nextfh s + 1) s))).

Lemma shows_opened dir A t s v p nm f cp a q e w :
  shows dir A t s v -> p <> NULL -> files s !! p = None -> fh f = nextfh s -> fs_fh f = next t ->
  root_item s (fs f) -> A !! shmbuf f = Some (shmid f) -> shmbuf f <> NULL -> 0 <= q ->
  served w A (Desk (<[next t := (a, q, shmid f)]> (table t)) (store t) (next t + 1)) ->
  shows dir A (Desk (<[next t := (a, q, shmid f)]> (table t)) (store t) (next t + 1))
    (with_file p nm f cp (at_world e w s)) (View (<[next_fd v := (a, q)]> (fds v)) (contents v) (next_fd v + 1)).
Proof.
  intros R Hp Hn Hfh Hfs Hroot HA Hb Hq Hs. destruct (sh_next _ _ _ _ _ R) as (Hnx & Hnn & Hnt).
  assert (Hnew : forall p' f', listed (with_file p nm f cp (at_world e w s)) p' f' -> p' = p /\ f' = f \/ p' <> p /\ listed s p' f').
  { intros p' f' [Hin Hl]. simpl in Hin, Hl. destruct (decide (p' = p)) as [->|Hne].
    - rewrite lookup_insert_eq in Hl. left. split; congruence.
    - rewrite lookup_insert_ne in Hl by done. right. split; [done|]. split; [|done]. by apply elem_of_cons in Hin as [?|?]. }
  assert (Hold : forall p' f', listed s p' f' -> fh f' < nextfh s /\ fs_fh f' < next t).
  { intros p' f' Hl. destruct (sh_file _ _ _ _ _ R p' f' Hl) as (a' & q' & B & _ & Hr). split; [lia|].
    eapply rs_fresh; [apply R|apply B]. }
  split; try apply R; [done|..].
  - simpl. lia.
  - intros p' [->|Hp']%elem_of_cons; [split; [done|]; simpl; rewrite lookup_insert_eq; eauto|].
    destruct (sh_live _ _ _ _ _ R p' Hp') as (H0 & f' & Hf'). split; [done|]. simpl. rewrite lookup_insert_ne; [eauto|]. congruence.
  - intros p' f' Hl. destruct (Hnew _ _ Hl) as [[-> ->]|[Hne Hl']].
    + exists a, q. rewrite Hfh, <- Hnx. simpl. rewrite lookup_insert_eq. split; [|split; [done|lia]].
      split; auto. simpl. rewrite Hfs. apply lookup_insert_eq.
    + destruct (sh_file _ _ _ _ _ R p' f' Hl') as (a' & q' & B & Hv & Hr). destruct (Hold _ _ Hl'). exists a', q'. simpl.
      rewrite lookup_insert_ne by lia. split; [|split; [done|lia]]. eapply backed_more; eauto.
      simpl. by rewrite lookup_insert_ne by lia.
  - intros n e' He. simpl in He. destruct (decide (n = next_fd v)) as [->|Hne].
    + exists p, f. split; [|lia]. split; simpl; [by left|apply lookup_insert_eq].
    + rewrite lookup_insert_ne in He by done. destruct (sh_fd _ _ _ _ _ R n e' He) as (p' & f' & [Hl1 Hl2] & H').
      exists p', f'. split; [|done]. split; simpl; [by right|]. rewrite lookup_insert_ne; [done|]. congruence.
  - intros p1 p2 f1 f2 H1 H2 E. destruct (Hnew _ _ H1) as [[-> ->]|[_ H1']], (Hnew _ _ H2) as [[-> ->]|[_ H2']]; [done|..].
    + destruct (Hold _ _ H2'). lia.
    + destruct (Hold _ _ H1'). lia.
    + by eapply (sh_uniq _ _ _ _ _ R).
Qed.

(** Sending a path. *)
Lemma send_path_ok {B C} s a b g x oflag n w1 w2 (k : Z -> cmd (lib W) B) (K : B -> cmd (lib W) C) :
  b <> NULL -> root_item s a -> poke b (padded x (Z.to_nat SHMMEM_SIZE)) (world (base s)) = Ret tt w1 ->
  fs_call root_pid (Fs_open root_id oflag g) w1 = Ret (Some n) w2 ->
  (shm_strncpy b x ≫= fun _ => (fs_at a ≫= fun f => rpc (fs_call (pid f) (Fs_open (id f) oflag g)) ≫= k) ≫= K) s =
    (k n ≫= K) (at_world 0 w2 s).
Proof.
  intros Hb (Ha & i & Hi & Hpid & Hid) Ep Eo. unfold shm_strncpy.
  rewrite (bind_Ret _ _ _ _ _ (shm_poke_ok _ _ s _ Hb Ep)).
  rewrite bind_assoc, (bind_Ret _ _ _ _ _ (fs_at_ok _ _ (at_world _ w1 s) Ha Hi)), Hpid, Hid.
  by rewrite bind_assoc, (bind_Ret _ _ _ _ _ (rpc_ok _ (at_world _ w1 s) _ _ Eo)), at_world_twice.
Qed.

Lemma run_open dir A t s v path oflag x y v' : dir_ok dir ->
  shows dir A t s v -> spec dir (Open path oflag) v = Some (x, y, v') -> answers dir (Open path oflag) s x y v'.
Proof.
  intros Hd R Hsp. cbn [spec run] in *. set (ss := destination dir path) in *.
  case_decide as Hc; [|done]. destruct Hc as (Hlen & Hz & Hcreat).
  pose proof (destination_clean dir path Hd Hz) as Hclean. fold ss in Hclean.
  unfold open. rewrite bind_assoc, (bind_Ret _ _ _ _ _ (getabsolutepath_ok _ _ _ _ _ path R Hd)). fold ss.
  destruct (fsbypath_ok _ _ _ _ _ ss R Hclean) as (a & s1 & E1 & R1 & Hroot & He & Ha).
  rewrite bind_assoc, (bind_Ret _ _ _ _ _ E1). cbn [fst snd]. unfold get_errno. rewrite bind_assoc, bind_gets, He.
  rewrite (proj2 (Z.eqb_neq _ _) Ha). cbv zeta. rewrite Z.eqb_refl, Hcreat. rewrite !bind_assoc, bind_ret. cbn [fst snd].
  destruct (shmbuf_new_ok A t s1 (sh_served _ _ _ _ _ R1)) as (g & b & w & E2 & Hb & HA & Hs2).
  rewrite !bind_assoc, (bind_Ret _ _ _ _ _ E2). cbn [fst snd]. rewrite (proj2 (Z.eqb_neq _ _) Hb). cbn [negb].
  pose proof (shows_attach _ _ _ _ _ b g 0 w R1 HA Hs2) as R2. set (s2 := at_world 0 w s1) in *. set (A2 := <[b := g]> A) in *.
  assert (HA2 : A2 !! b = Some g) by apply lookup_insert_eq.
  assert (Hr2 : root_item s2 a) by exact Hroot. destruct (leads ss) as [|k|] eqn:Hleads; [| |done].
  - injection Hsp as <- <- <-.
    destruct (rs_missing _ _ _ b g ss oflag (sh_served _ _ _ _ _ R2) HA2 Hclean Hlen Hleads) as (w1 & w2 & Ep & Eo & Hs3).
    rewrite !bind_assoc, (send_path_ok s2 a b g (rel ss) oflag _ w1 w2 _ _ Hb Hr2 Ep Eo).
    change (0 <=? - AppEnv.ENOENT) with false. cbv iota. rewrite bind_ret.
    rewrite (bind_Ret _ _ _ _ _ (finish_ok _ _)). eexists A2, t, _. split; [reflexivity|].
    rewrite at_world_twice. by apply shows_world.
  - destruct (contents v k) as [c|] eqn:Hk; [|done]. simpl in Hsp. case_match eqn:Hb2; [|done]. zbool. injection Hsp as <- <- <-.
    assert (Hst : store t k = Some c) by (by rewrite <- (sh_contents _ _ _ _ _ R)).
    destruct (sh_next _ _ _ _ _ R2) as (Hnx & Hnn & Hnt).
    destruct (rs_open _ _ _ b g ss oflag k c (sh_served _ _ _ _ _ R2) HA2 Hclean Hlen Hleads Hst ltac:(lia) ltac:(lia))
      as (w1 & w2 & Ep & Eo & Hs3).
    pose proof (rs_next _ _ _ (sh_served _ _ _ _ _ R2)) as Hn0.
    rewrite !bind_assoc, (send_path_ok s2 a b g (rel ss) oflag _ w1 w2 _ _ Hb Hr2 Ep Eo).
    rewrite (proj2 (Z.leb_le 0 (next t))) by lia.
    set (p := malloc (dom (files s2))). set (nm := malloc (dom (names s2))).
    set (f := FileItem a (next t) NULL S_IFREG (nextfh s2) nm g b FL_FILE 0 oflag (Z.b2z (bool_decide (take 8 path = str_tty)))).
    eexists A2, _, (at_world 0 w2 (with_file p nm f (rel ss) (at_world 0 w2 s2))). split.
    + unfold getnew_fh, strdup, new_item, push_file, mbind, cmd_bind, modify, mret, cmd_ret. rewrite finish_ok.
      change (nextfh (at_world 0 w2 s2)) with (nextfh s2). rewrite s32_small by lia.
      rewrite (proj2 (Z.ltb_ge (nextfh s2) 0)) by lia. rewrite Hnx. reflexivity.
    + apply shows_world; [|exact Hs3]. apply (shows_opened dir A2 t s2 v p nm f (rel ss) k _ 0 w2); auto; try done.
      * apply malloc_nonnull.
      * apply not_elem_of_dom, malloc_fresh.
      * destruct (_ =? 0); lia.
Qed.

(** ** The refinement *)

(** A process that opens files by path, reads, writes and seeks sees a table of file
    numbers: opening gives the next number from 3 on, whatever the working directory
    and the dots in the path, at the start or the end of the file the path leads to, or
    fails; reading and writing of any size go on at the position of the number and move
    it, although they are sent to the server in pages; what one number writes another
    one reads; numbers that are not open are refused.  The calls return for every
    server that keeps its promise. *)
Theorem files_refines dir A t s v qs out :
  dir_ok dir -> shows dir A t s v -> spec_all dir qs v = Some out -> exists s', run_all qs s = Ret out s'.
Proof.
  intros Hd. revert A t s v out. induction qs as [|q qs IH]; intros A t s v out R Hsp; simpl in Hsp.
  { injection Hsp as <-. by exists s. }
  destruct (spec dir q v) as [[[x y] v1]|] eqn:E; [|done]. simpl in Hsp.
  destruct (spec_all dir qs v1) as [xs|] eqn:Es; [|done]. injection Hsp as <-.
  assert (answers dir q s x y v1) as (A1 & t1 & s1 & E1 & R1)
    by (destruct q; eauto using run_open, run_read, run_write, run_lseek).
  destruct (IH _ _ _ _ _ R1 Es) as (s2 & E2). exists s2. cbn [run_all].
  by rewrite (bind_Ret _ _ _ _ _ E1), (bind_Ret _ _ _ _ _ E2).
Qed.
End spec.

(** ** Errors of the server *)

Section errors.
Context {W : Type} `{SC : ShmCalls W} `{SV : Servers W} `{MM : Malloc}.

(** Only -1 ends the loop of [write].  Any other error of the server is taken for a number
    of bytes, so that the next round starts in front of the data of the caller. *)
Theorem write_error_reads_outside s fd p f x data w1 w2 r fuel :
  filebyfh fd s = Ret p s -> p <> NULL -> files s !! p = Some f -> fs f <> NULL -> fss s !! fs f = Some x ->
  shmbuf f <> NULL -> data <> [] -> Z.of_nat (length data) < 2147479552 -> -4096 <= r < -1 ->
  let n := Z.min SHMMEM_SIZE (Z.of_nat (length data)) in
  poke (shmbuf f) (take (Z.to_nat n) data) (world (base s)) = Ret tt w1 ->
  fs_call (pid x) (Fs_write (id x) (fs_fh f) n) w1 = Ret (Some r) w2 ->
  exists s', write (S (S fuel)) fd data s = Stop OutOfBounds s'.
Proof.
  intros Ef Hp Hf Hx0 Hx Hb Hd Hl Hr n Ep Ec. assert (Hpos : 0 < Z.of_nat (length data)) by (destruct data; [done|simpl; lia]).
  unfold write. rewrite (bind_Ret _ _ _ _ _ Ef), (proj2 (Z.eqb_neq _ _) Hp). cbn [negb].
  rewrite (bind_Ret _ _ _ _ _ (file_at_ok _ _ _ Hp Hf)). cbn [write_loop]. rewrite s32_small by lia.
  rewrite (proj2 (Z.ltb_lt 0 _)) by lia. rewrite (w32_small (Z.of_nat (length data))) by lia.
  assert (Hn : (if SHMMEM_SIZE <? Z.of_nat (length data) then SHMMEM_SIZE else Z.of_nat (length data)) = n).
  { unfold n. destruct (Z.ltb_spec SHMMEM_SIZE (Z.of_nat (length data))); lia. }
  rewrite Hn. assert (Ew : _write f data 0 n s = Ret r (at_world 0 w2 s)).
  { unfold _write. rewrite (proj2 (Z.leb_le _ _)) by lia. unfold subrange. rewrite drop_0.
    rewrite (bind_Ret _ _ _ _ _ (shm_poke_ok _ _ s _ Hb Ep)). unfold file_call.
    rewrite (bind_Ret _ _ _ _ _ (fs_at_ok _ _ (at_world _ w1 s) Hx0 Hx)).
    by rewrite (rpc_ok _ (at_world _ w1 s) _ _ Ec), at_world_twice. }
  rewrite (bind_Ret _ _ _ _ _ Ew), (w32_neg r) by lia.
  rewrite (proj2 (Z.eqb_neq (r + 4294967296) (w32 (-1)))) by (change (w32 (-1)) with 4294967295; lia).
  rewrite (proj2 (Z.eqb_neq (r + 4294967296) 0)), (w32_small (0 + _)) by lia.
  assert (Hs : s32 (Z.of_nat (length data) - (r + 4294967296)) = Z.of_nat (length data) - r).
  { unfold s32. rewrite w32_neg by lia. rewrite (proj2 (Z.ltb_lt _ _)) by lia. lia. }
  rewrite Hs, (proj2 (Z.ltb_lt 0 _)) by lia.
  eexists. unfold _write at 1. rewrite (proj2 (Z.leb_gt _ _)).
  - by rewrite (bind_Stop _ _ _ _ _ eq_refl).
  - rewrite w32_small by lia. unfold SHMMEM_SIZE. clear -Hr Hl Hpos. destruct (Z.ltb_spec 4096 (Z.of_nat (length data) - r)); lia.
Qed.
End errors.

