(* ===== verification/FilesFs.v ===== *)
(** * A process, the virtual file system and a file system server

    The parts put together: the library of Files calls the server of Vfs and the server
    of Fs with any driver that keeps the promise [FilesystemLaws].  [system] is the state
    of both servers; its segments of shared memory are those of the server of Fs, which
    the process has attached too.  [root_server] shows that a system with one file
    system, mounted at "/", is what [RootServer] asks for, so that the theorem on the
    library holds for it. *)

From S2P Require Import Prelude LList Machine Path Cache Ramdisk RamdiskFs Vfs Fs AppIpc AppEnv Files FilesSpec.

(** [newest] is the last private segment that was created, [next_shm] the next
    identifier. *)
Record system (S : Type) := System {
  vfs_state : vfs;
  srv : server S;
  newest : Z;
  next_shm : Z;
}.
Arguments System {S}.
Arguments vfs_state {S}.
Arguments srv {S}.
Arguments newest {S}.
Arguments next_shm {S}.

Section system.
Context {S : Type} `{DD : Filesystem S} `{MM : Malloc} `{GG : Garbage}.
(** The process of the file system server, and what an argument holds that is not passed. *)
Context (fs_pid junk : Z).

Definition on_srv {A} (c : cmd (server S) A) : cmd (system S) A := fun w =>
  match c (srv w) with
  | Ret x s => Ret x (System (vfs_state w) s (newest w) (next_shm w))
  | Stop r s => Stop r (System (vfs_state w) s (newest w) (next_shm w))
  end.

Definition on_vfs {A} (c : cmd vfs A) : cmd (system S) A := fun w =>
  match c (vfs_state w) with
  | Ret x s => Ret x (System s (srv w) (newest w) (next_shm w))
  | Stop r s => Stop r (System s (srv w) (newest w) (next_shm w))
  end.

(** Shared memory: segments get whole pages, and the address of a segment follows from
    its identifier. *)
Definition segment_pages (size : Z) : nat := Z.to_nat ((size + 4095) / 4096 * 4096).

Definition with_shm (f : gmap Z segment -> gmap Z segment) (s : server S) : server S :=
  Server (filesystems s) (handles s) (fifos s) (f (shm s)).

#[export] Instance system_shm : ShmCalls (system S) := {|
  sys_shm_get key := fun w => Ret (if (key =? IPC_PRIVATE) && (0 <=? newest w) then newest w else - AppEnv.EINVAL) w;
  sys_shm_create key size flags := fun w =>
    let g := next_shm w in
    Ret g (System (vfs_state w) (with_shm <[g := Segment (repeat 0 (segment_pages size)) 0]> (srv w))
             (if key =? IPC_PRIVATE then g else newest w) (g + 1));
  sys_shm_at id addr flags := ok ← on_srv (Fs.shmat id); mret (if ok : bool then (0, id + 1) else (- AppEnv.EINVAL, NULL));
  sys_shm_dt addr := on_srv (Fs.shmdt (addr - 1));; mret 0;
  sys_shm_stat id buf := mret (- AppEnv.EINVAL);
  sys_shm_set id buf := mret (- AppEnv.EINVAL);
  sys_shm_destroy id := on_srv (modify (with_shm (delete id)));; mret 0;
|}.

(** The functions that [cdi_fs_init] registers, by name; the others do not exist.  The
    library does not pass the third argument of [fs_dup]. *)
Definition dispatch (c : call) : cmd (server S) (option Z) :=
  match c with
  | Fs_open id oflag g => x ← fs_open id oflag g; mret (Some x)
  | Fs_close id n => x ← fs_close id n; mret (Some x)
  | Fs_read id n count => x ← fs_read id n count; mret (Some x)
  | Fs_write id n count => x ← fs_write id n count; mret (Some x)
  | Fs_seek id n off whence => x ← fs_seek id n off whence; mret (Some x)
  | Fs_fstat id n => x ← fs_fstat id n; mret (Some x.1)
  | Fs_unlink id path => x ← fs_unlink id path; mret (Some x)
  | Fs_rmdir id path => x ← fs_rmdir id path; mret (Some x)
  | Fs_ftruncate id n len => x ← fs_ftruncate id n len; mret (Some x)
  | Fs_opendir id g => x ← fs_opendir id g; mret (Some x)
  | Fs_readdir id n => x ← fs_readdir id n; mret (Some x)
  | Fs_closedir id n => x ← fs_closedir id n; mret (Some x)
  | Fs_seekdir id n loc => x ← fs_seekdir id n loc; mret (Some x)
  | Fs_readlink id g _ => x ← fs_readlink id g; mret (Some x)
  | Fs_symlink id src dest => x ← fs_symlink id src dest; mret (Some x)
  | Fs_mknod id path mode _ => x ← fs_mknod id path mode; mret (Some x)
  | Fs_dup id n => x ← fs_dup id n junk; mret (Some x)
  | Fs_utime id g => x ← fs_utime id g; mret (Some x)
  | Stat_vfs _ _ | Fs_access _ _ _ | Fs_rename _ _ _ | Fs_link _ _ _ | Fs_chown _ _ _ _ | Fs_chmod _ _ _
  | Fs_tcgetattr _ _ | Fs_tcsetattr _ _ => mret None
  end.

#[export] Instance system_servers : Servers (system S) := {|
  vfs_getfsid path parent := x ← on_vfs (Vfs.vfs_getfsid path parent); mret (Some x);
  vfs_getpid id := x ← on_vfs (Vfs.vfs_getpid id); mret (Some x);
  fs_call p c := if p =? fs_pid then on_srv (dispatch c) else mret None;
  peek b n := on_srv (shm_read (b - 1) 0 n);
  poke b x := on_srv (shm_write (b - 1) 0 x);
|}.
End system.

(** ** One file system *)

Section root.
Context {S : Type} `{LL : FilesystemLaws S} `{MM : Malloc} `{GG : Garbage}.
Context (fs_pid junk fs_id : Z) (d0 : S).
Context (Hpid : 0 <= fs_pid) (Hid : 0 <= fs_id).

#[local] Existing Instance system_shm.
#[local] Instance servers : Servers (system S) := system_servers fs_pid junk.

(** Where a path leads on the file system. *)
Definition leads_to (ss : list str) : found :=
  match Fs.resolve d0 ss (root_res d0) with
  | None => Missing
  | Some a => match Fs.view d0 a with Some r => if file r then Regular a else Other | None => Other end
  end.

(** The mount table with the file system at "/", the desk of the server, and the
    segments of the process. *)
Record one_fs (w : system S) (A : gmap Z Z) (t : desk) : Prop := {
  of_vfs : exists a nm n c, a <> NULL /\
    vfs_state w = Vfs {[a := Vfs.Fs fs_id nm [SLASH] (Vfs.parse [SLASH]) fs_pid]} [a] a n c;
  of_rep : exists i, Fs.rep d0 (map_img A) SHMMEM_SIZE fs_id i (srv w) t;
  of_ids : 0 <= next_shm w;
  of_segs b g : A !! b = Some g -> b = g + 1 /\ 0 <= g < next_shm w;
}.

Definition with_srv (s : server S) (w : system S) : system S := System (vfs_state w) s (newest w) (next_shm w).

Lemma on_srv_ok {A} (c : cmd (server S) A) w x s : c (srv w) = Ret x s -> on_srv c w = Ret x (with_srv s w).
Proof. intros E. unfold on_srv. by rewrite E. Qed.

Lemma one_fs_srv w A t i s t' : one_fs w A t -> Fs.rep d0 (map_img A) SHMMEM_SIZE fs_id i s t' ->
  one_fs (with_srv s w) A t'.
Proof. intros [] Hr. split; try done. by exists i. Qed.

Lemma img_in (A : gmap Z Z) b g : A !! b = Some g -> g ∈ (map_img A : gset Z).
Proof. intros H. by apply (elem_of_map_img_2 (SA := gset Z) A b g). Qed.

(** More segments. *)
Lemma rep_more segs segs' i s m t : Fs.rep d0 segs SHMMEM_SIZE fs_id i s t -> segs ⊆ segs' ->
  (forall g, g ∈ segs' -> exists sg, m !! g = Some sg /\ SHMMEM_SIZE <= Z.of_nat (length (bytes sg))) ->
  Fs.rep d0 segs' SHMMEM_SIZE fs_id i (Fs.with_shm m s) t.
Proof.
  intros [Hi _ (f & Hf & [H1 H2 H3 H4 H5 H6 H7 H8 H9 H10])] Hsub Hm. split; [done|done|]. exists f. split; [done|].
  split; auto. intros h x Ho. destruct (H8 h x Ho) as ((Ha & Hb & Hc & Hd) & Hrest). split; [|done].
  repeat (split; [done|]). by apply Hsub.
Qed.

Lemma steps_rel ss : clean ss -> steps (Fs.parse (rel ss)) = ss /\ Forall (fun c => c <> 0) (rel ss).
Proof.
  intros (Hs & Hn & Hz). destruct ss as [|x ss]; [by repeat constructor|]. unfold rel, Fs.parse, path_parse.
  cbn [mbind option_bind default from_option parts]. rewrite count_join, cut_join by done. split; [by apply steps_all|].
  clear Hs Hn. revert x Hz. induction ss as [|y ss IH]; intros x Hz; apply Forall_cons in Hz as [Hx Hz]; [done|].
  change (join (x :: y :: ss)) with (x ++ SLASH :: join (y :: ss)). apply Forall_app. split; [done|].
  constructor; [done|]. by apply IH.
Qed.

Lemma vfs_root_ok w A t ss : one_fs w A t -> clean ss ->
  on_vfs (Vfs.vfs_getfsid (absolute ss) false) w = Ret (fs_id, rel ss) w /\ on_vfs (Vfs.vfs_getpid fs_id) w = Ret fs_pid w.
Proof.
  intros [(a & nm & n & c & Ha & Hv) _ _ _] (Hs & Hn & _). destruct w as [v s nw nx]. simpl in Hv. subst v.
  set (it := Vfs.Fs fs_id nm [SLASH] (Vfs.parse [SLASH]) fs_pid). set (v := Vfs {[a := it]} [a] a n c).
  assert (Hit : item a v = Ret it v) by (apply item_ok; [done|]; apply lookup_singleton_eq).
  assert (Hsc : Seq.scan [a] = [a]) by (simpl; by rewrite (proj2 (Z.eqb_neq _ _) Ha)).
  unfold on_vfs, Vfs.vfs_getfsid, Vfs.vfs_getpid, getlid_fsid. cbn [vfs_state]. split.
  - rewrite bind_gets. cbn [Datatypes.id]. change (Vfs.fslist v) with [a]. change (root_fs v) with a. rewrite Hsc. cbn [best_loop].
    assert (Hc : path_compare (Vfs.parse (absolute ss)) (mp_path it) = 0%nat).
    { unfold path_compare. destruct (eqb _ _); [|done]. simpl negb. cbv iota. rewrite compare_loop_ok by done.
      by destruct (steps (parts (Vfs.parse (absolute ss)))). }
    rewrite (bind_Ret _ _ _ a v) by (rewrite (bind_Ret _ _ _ _ _ Hit), Hc; done).
    rewrite (proj2 (Z.eqb_neq _ _) Ha), (bind_Ret _ _ _ _ _ Hit).
    destruct ss as [|x ss]; [done|]. destruct x as [|ch x]; [by apply Forall_cons in Hn as [? _]|].
    by destruct ss.
  - rewrite bind_assoc, bind_gets. cbn [Datatypes.id]. change (Vfs.fslist v) with [a]. rewrite Hsc. cbn [lid_from].
    rewrite (bind_Ret _ _ _ 0 v) by (rewrite (bind_Ret _ _ _ _ _ Hit); cbn; by rewrite Z.eqb_refl).
    rewrite bind_gets. cbn [Datatypes.id]. change (Seq.get (Vfs.fslist v) (w32 0)) with a.
    by rewrite (proj2 (Z.eqb_neq _ _) Ha), (bind_Ret _ _ _ _ _ Hit).
Qed.

Lemma segment_ok w A t : one_fs w A t ->
  let g := next_shm w in
  exists w1 w2, A !! (g + 1) = None /\ sys_shm_create IPC_PRIVATE SHMMEM_SIZE 0 w = Ret g w1 /\
    sys_shm_get IPC_PRIVATE w1 = Ret g w1 /\ sys_shm_at g NULL 0 w1 = Ret (0, g + 1) w2 /\ one_fs w2 (<[g + 1 := g]> A) t.
Proof.
  intros [Hv (i & Hr) Hids Hsegs] g.
  assert (HA : A !! (g + 1) = None).
  { destruct (A !! (g + 1)) as [g'|] eqn:E; [|done]. destruct (Hsegs _ _ E) as [E1 E2]. unfold g in *. lia. }
  set (sg := Segment (repeat 0 4096) 0).
  exists (System (vfs_state w) (with_shm <[g := sg]> (srv w)) g (g + 1)).
  exists (System (vfs_state w) (Fs.with_shm (<[g := Segment (repeat 0 4096) 1]> (shm (srv w))) (srv w)) g (g + 1)).
  split; [done|]. split; [reflexivity|]. split.
  { simpl. by rewrite (proj2 (Z.leb_le 0 g)) by (unfold g; lia). }
  split.
  { cbn [sys_shm_at system_shm]. rewrite (bind_Ret _ _ _ true (System (vfs_state w)
      (Fs.with_shm (<[g := Segment (repeat 0 4096) 1]> (shm (srv w))) (srv w)) g (g + 1))); [done|].
    apply (on_srv_ok _ (System (vfs_state w) (with_shm <[g := sg]> (srv w)) g (g + 1))).
    unfold Fs.shmat. simpl. rewrite lookup_insert_eq. simpl. unfold Fs.with_shm. by rewrite insert_insert_eq. }
  split; [done| |simpl; unfold g; lia|].
  - exists i. eapply rep_more; [exact Hr| |].
    + intros x (b & Hb)%elem_of_map_img. apply (img_in _ b). rewrite lookup_insert_ne; [done|]. congruence.
    + intros x (b & Hb)%elem_of_map_img. destruct (decide (x = g)) as [->|Hx].
      { eexists. split; [apply lookup_insert_eq|]. unfold SHMMEM_SIZE. cbn [bytes]. rewrite repeat_length. lia. }
      rewrite lookup_insert_ne by done. apply (Fs.rep_segs _ _ _ _ _ _ _ Hr). apply (img_in _ b).
      rewrite lookup_insert_ne in Hb; [done|]. intros <-. rewrite lookup_insert_eq in Hb. congruence.
  - intros b x Hb. simpl. destruct (decide (b = g + 1)) as [->|Hne].
    + rewrite lookup_insert_eq in Hb. injection Hb as <-. unfold g in *. lia.
    + rewrite lookup_insert_ne in Hb by done. destruct (Hsegs _ _ Hb). unfold g in *. lia.
Qed.

Lemma take_zeros n m : (n <= m)%nat -> take n (repeat 0 m) = repeat 0 n.
Proof. revert m. induction n as [|n IH]; intros [|m] H; try done; [lia|]. simpl. f_equal. apply IH. lia. Qed.

(** A page that holds a path: writing the path to it again changes nothing. *)
Lemma poke_path_ok segs i s t g x : Fs.rep d0 segs SHMMEM_SIZE fs_id i s t -> g ∈ segs ->
  Z.of_nat (length x) < SHMMEM_SIZE ->
  exists s1, shm_write g 0 (padded x (Z.to_nat SHMMEM_SIZE)) s = Ret tt s1 /\ Fs.rep d0 segs SHMMEM_SIZE fs_id i s1 t /\
    shm_strcpy g x s1 = Ret tt s1.
Proof.
  intros Hr Hg Hx. set (y := padded x (Z.to_nat SHMMEM_SIZE)).
  assert (Hy : y = x ++ 0 :: repeat 0 (Z.to_nat SHMMEM_SIZE - length x - 1)).
  { unfold y, padded. rewrite take_app_ge by (unfold SHMMEM_SIZE in *; lia). f_equal.
    rewrite take_zeros by lia. change (repeat 0 (Z.to_nat SHMMEM_SIZE - length x) = repeat 0 (1 + (Z.to_nat SHMMEM_SIZE - length x - 1))).
    f_equal. unfold SHMMEM_SIZE in *. lia. }
  assert (Hl : Z.of_nat (length y) = SHMMEM_SIZE).
  { rewrite Hy, length_app. simpl. rewrite repeat_length. unfold SHMMEM_SIZE in *. lia. }
  destruct (shm_write_ok _ _ _ _ _ _ _ g y Hr Hg ltac:(lia)) as (sg & Hsg & Hlen & Ew & Hr1).
  eexists. split; [exact Ew|]. split; [exact Hr1|]. unfold shm_strcpy, shm_write. simpl.
  rewrite lookup_insert_eq. cbn [bytes]. rewrite length_splice by lia. rewrite length_app. simpl length.
  rewrite (proj2 (Z.leb_le _ _)) by lia. f_equal. unfold Fs.with_shm. simpl. f_equal. rewrite insert_insert_eq. f_equal. f_equal.
  unfold splice. simpl. rewrite Hy, <- !(assoc_L (++)). simpl. f_equal. f_equal.
  rewrite length_app. simpl. rewrite drop_app_ge by lia.
  by replace (length x + 1 - length x)%nat with 1%nat by lia.
Qed.

Lemma call_reaches_server w c x s : dispatch junk c (srv w) = Ret x s -> fs_call fs_pid c w = Ret x (with_srv s w).
Proof. intros E. cbn [fs_call servers system_servers]. rewrite Z.eqb_refl. by apply on_srv_ok. Qed.

(** The answer of the server to [fs_open]. *)
Lemma open_ok w A t b g ss oflag n y t' : one_fs w A t -> A !! b = Some g -> clean ss ->
  Z.of_nat (length (rel ss)) < SHMMEM_SIZE ->
  Fs.spec d0 (map_img A) SHMMEM_SIZE (Fs.Open (rel ss) oflag g) t = Some (n, y, t') ->
  exists w1 w2, poke b (padded (rel ss) (Z.to_nat SHMMEM_SIZE)) w = Ret tt w1 /\
    fs_call fs_pid (Fs_open fs_id oflag g) w1 = Ret (Some n) w2 /\ one_fs w2 A t'.
Proof.
  intros Ho HA Hc Hl Hsp. destruct (of_rep _ _ _ Ho) as (i & Hr). destruct (of_segs _ _ _ Ho _ _ HA) as [-> _].
  destruct (poke_path_ok _ _ _ _ g (rel ss) Hr (img_in _ _ _ HA) Hl) as (s1 & Ep & Hr1 & Es).
  destruct (client_open _ _ _ _ _ _ _ _ _ _ _ _ _ Hr1 Hsp) as (s2 & E & Hr2).
  cbn [serve] in E. rewrite (bind_Ret _ _ _ _ _ Es) in E. unfold mbind, cmd_bind in E.
  destruct (fs_open fs_id oflag g s1) as [x s3|] eqn:Eo; [|done]. injection E as -> _ ->.
  exists (with_srv s1 w), (with_srv s2 w). split; [|split].
  - cbn [poke servers system_servers]. replace (g + 1 - 1) with g by lia. by apply on_srv_ok.
  - apply (call_reaches_server (with_srv s1 w)). cbn [dispatch]. by rewrite (bind_Ret _ _ _ _ _ Eo).
  - by eapply one_fs_srv.
Qed.

Lemma read_reaches_server w A t b g n a p c count : one_fs w A t -> A !! b = Some g -> table t !! n = Some (a, p, g) ->
  store t a = Some c -> 0 <= count <= SHMMEM_SIZE -> 0 <= p <= Z.of_nat (length c) -> Z.of_nat (length c) < 2147483648 ->
  let x := take (Z.to_nat count) (drop (Z.to_nat p) c) in
  let k := Z.of_nat (length x) in
  exists w1, fs_call fs_pid (Fs_read fs_id n count) w = Ret (Some k) w1 /\ peek b k w1 = Ret x w1 /\
    one_fs w1 A (Desk (<[n := (a, p + k, g)]> (table t)) (store t) (next t)).
Proof.
  intros Ho HA Ht Hs Hcount Hp Hc x k. destruct (of_rep _ _ _ Ho) as (i & Hr). destruct (of_segs _ _ _ Ho _ _ HA) as [-> _].
  assert (Hsp : Fs.spec d0 (map_img A) SHMMEM_SIZE (Fs.Read n count g) t =
    Some (k, x, Desk (<[n := (a, p + k, g)]> (table t)) (store t) (next t))).
  { cbn [Fs.spec]. rewrite Ht, Hs. cbn [mbind option_bind]. rewrite Z.eqb_refl.
    by rewrite (proj2 (Z.leb_le 0 count)), (proj2 (Z.leb_le count _)), (proj2 (Z.leb_le p _)), (proj2 (Z.ltb_lt _ 2147483648))
      by lia. }
  destruct (client_read _ _ _ _ _ _ _ _ _ _ _ _ _ (eq_refl : SHMMEM_SIZE < 2147483648) Hr Hsp) as (s2 & E & Hr2).
  cbn [serve] in E. unfold mbind, cmd_bind in E. destruct (fs_read fs_id n count (srv w)) as [m s1|] eqn:Er; [|done].
  assert ((if 0 <=? m then shm_read g 0 m else mret []) s1 = Ret x s1 /\ m = k /\ s1 = s2) as (Hm & -> & ->).
  { destruct (Z.leb_spec 0 m); [|injection E as Em _ _; lia]. unfold shm_read in *. destruct (shm s1 !! g); [|done].
    destruct (_ <=? _); [|done]. injection E as -> -> ->. done. }
  rewrite (proj2 (Z.leb_le 0 k)) in Hm by lia. exists (with_srv s2 w). split; [|split].
  - apply call_reaches_server. cbn [dispatch]. by rewrite (bind_Ret _ _ _ _ _ Er).
  - cbn [peek servers system_servers]. replace (g + 1 - 1) with g by lia. by apply (on_srv_ok _ (with_srv s2 w)).
  - by eapply one_fs_srv.
Qed.

Lemma write_reaches_server w A t b g n a p c x : one_fs w A t -> A !! b = Some g -> table t !! n = Some (a, p, g) ->
  store t a = Some c -> Z.of_nat (length x) <= SHMMEM_SIZE -> 0 <= p <= Z.of_nat (length c) ->
  p + Z.of_nat (length x) < 2147483648 ->
  let k := Z.of_nat (length x) in
  exists w1 w2, poke b x w = Ret tt w1 /\ fs_call fs_pid (Fs_write fs_id n k) w1 = Ret (Some k) w2 /\
    one_fs w2 A (Desk (<[n := (a, p + k, g)]> (table t))
                      (fun b => if decide (b = a) then Some (splice c p x) else store t b) (next t)).
Proof.
  intros Ho HA Ht Hs Hx Hp Hc k. destruct (of_rep _ _ _ Ho) as (i & Hr). destruct (of_segs _ _ _ Ho _ _ HA) as [-> _].
  pose proof (img_in _ _ _ HA) as Hg.
  assert (Hsp : Fs.spec d0 (map_img A) SHMMEM_SIZE (Fs.Write n x g) t = Some (k, [], Desk (<[n := (a, p + k, g)]> (table t))
    (fun b => if decide (b = a) then Some (splice c p x) else store t b) (next t))).
  { cbn [Fs.spec]. rewrite decide_True by done. rewrite Ht, Hs. cbn [mbind option_bind]. rewrite Z.eqb_refl.
    rewrite (proj2 (Z.leb_le _ _)), (proj2 (Z.ltb_lt _ _)) by lia. done. }
  destruct (client_write _ _ _ _ _ _ _ _ _ _ _ _ _ (eq_refl : SHMMEM_SIZE < 2147483648) Hr Hsp) as (s2 & E & Hr2).
  cbn [serve] in E. unfold mbind, cmd_bind in E. destruct (shm_write g 0 x (srv w)) as [[] s1|] eqn:Ew; [|done].
  destruct (fs_write fs_id n (Z.of_nat (length x)) s1) as [m s3|] eqn:Er; [|done]. injection E as -> ->.
  exists (with_srv s1 w), (with_srv s2 w). split; [|split].
  - cbn [poke servers system_servers]. replace (g + 1 - 1) with g by lia. by apply on_srv_ok.
  - apply (call_reaches_server (with_srv s1 w)). cbn [dispatch]. by rewrite (bind_Ret _ _ _ _ _ Er).
  - by eapply one_fs_srv.
Qed.

Lemma seek_ok w A t n a p g c off whence p' : one_fs w A t -> table t !! n = Some (a, p, g) -> store t a = Some c ->
  (whence = SEEK_SET /\ p' = off \/ whence = SEEK_CUR /\ p' = p + off \/
   whence = SEEK_END /\ p' = Z.of_nat (length c) + off) -> 0 <= p' < 2147483648 ->
  exists w1, fs_call fs_pid (Fs_seek fs_id n off whence) w = Ret (Some p') w1 /\
    one_fs w1 A (Desk (<[n := (a, p', g)]> (table t)) (store t) (next t)).
Proof.
  intros Ho Ht Hs Hw Hp'. destruct (of_rep _ _ _ Ho) as (i & Hr).
  assert (Hsp : Fs.spec d0 (map_img A) SHMMEM_SIZE (Fs.Seek n off whence) t =
    Some (p', [], Desk (<[n := (a, p', g)]> (table t)) (store t) (next t))).
  { cbn [Fs.spec]. rewrite Ht, Hs. cbn [mbind option_bind].
    destruct Hw as [[-> <-]|[[-> ->]|[-> ->]]]; cbn [Z.eqb SEEK_SET SEEK_CUR SEEK_END Pos.eqb];
      by rewrite (proj2 (Z.leb_le _ _)), (proj2 (Z.ltb_lt _ _)) by lia. }
  destruct (client_seek _ _ _ _ _ _ _ _ _ _ _ _ _ Hr Hsp) as (s2 & E & Hr2).
  cbn [serve] in E. unfold mbind, cmd_bind in E. destruct (fs_seek fs_id n off whence (srv w)) as [m s1|] eqn:Er; [|done].
  injection E as -> ->. exists (with_srv s2 w). split; [|by eapply one_fs_srv].
  apply call_reaches_server. cbn [dispatch]. by rewrite (bind_Ret _ _ _ _ _ Er).
Qed.

(** ** The promise is kept *)

Lemma desk_facts segs i s t n e : Fs.rep d0 segs SHMMEM_SIZE fs_id i s t -> 0 <= next t /\ (table t !! n = Some e -> n < next t).
Proof.
  intros [_ _ (f & _ & Hs)]. split; [apply Hs|]. intros Hn. destruct (se_table _ _ _ _ _ Hs n e Hn) as (h & x & Ho & <-).
  by destruct (se_file _ _ _ _ _ Hs h x Ho) as (_ & ? & _).
Qed.

Lemma open_spec (A : gmap Z Z) t g ss oflag : g ∈ (map_img A : gset Z) -> clean ss -> Z.of_nat (length (rel ss)) < SHMMEM_SIZE ->
  Fs.spec d0 (map_img A) SHMMEM_SIZE (Fs.Open (rel ss) oflag g) t =
    match leads_to ss with
    | Missing => Some (- AppEnv.ENOENT, [], t)
    | _ =>
        a ← Fs.resolve d0 ss (root_res d0); r ← Fs.view d0 a; c ← store t a;
        if file r && (next t <? 2147483647) && (Z.of_nat (length c) <? 2147483648) then
          Some (next t, [], Desk (<[next t := (a, if Z.land oflag O_APPEND =? 0 then 0 else Z.of_nat (length c), g)]> (table t))
                              (store t) (next t + 1))
        else None
    end.
Proof.
  intros Hg Hc Hl. destruct (steps_rel ss Hc) as [Hs Hz]. cbn [Fs.spec]. rewrite decide_True by done. rewrite Hs.
  unfold leads_to. destruct (Fs.resolve d0 ss (root_res d0)) as [a|]; [|done]. cbn [mbind option_bind].
  destruct (Fs.view d0 a) as [r|]; [|done]. cbn [mbind option_bind]. by destruct (file r).
Qed.

#[export] Instance root_server : RootServer (system S).
Proof.
  refine (Build_RootServer _ _ _ one_fs fs_id fs_pid leads_to Hid Hpid _ _ _ _ _ _ _ _ _ _).
  - intros w A t n e Ho Hn. destruct (of_rep _ _ _ Ho) as (i & Hr). by apply (desk_facts _ _ _ _ n e Hr).
  - intros w A t Ho. destruct (of_rep _ _ _ Ho) as (i & Hr). by apply (desk_facts _ _ _ _ 0 (0, 0, 0) Hr).
  - intros w A t ss Ho Hc. cbn [Files.vfs_getfsid servers system_servers].
    by rewrite (bind_Ret _ _ _ _ _ (proj1 (vfs_root_ok w A t ss Ho Hc))).
  - intros w A t Ho. cbn [Files.vfs_getpid servers system_servers].
    by rewrite (bind_Ret _ _ _ _ _ (proj2 (vfs_root_ok w A t [] Ho ltac:(repeat constructor)))).
  - intros w A t Ho. destruct (segment_ok w A t Ho) as (w1 & w2 & HA & E1 & E2 & E3 & Ho2).
    exists (next_shm w), (next_shm w + 1), w1, w2. pose proof (of_ids _ _ _ Ho) as Hi. split_and!; auto. unfold NULL. lia.
  - intros w A t b g ss oflag Ho HA Hc Hl Hm. eapply open_ok; eauto. by rewrite open_spec, Hm by eauto using img_in.
  - intros w A t b g ss oflag a c Ho HA Hc Hl Hm Hs Hn Hlen. eapply open_ok; eauto.
    rewrite open_spec, Hm by eauto using img_in. unfold leads_to in Hm.
    destruct (Fs.resolve d0 ss (root_res d0)) as [a'|]; [|done]. cbn [mbind option_bind].
    destruct (Fs.view d0 a') as [r|]; [|done]. destruct (file r) eqn:Hf; [|done]. injection Hm as ->. cbn [mbind option_bind].
    rewrite Hs, Hf. cbn [mbind option_bind].
    by rewrite (proj2 (Z.ltb_lt (next t) _)), (proj2 (Z.ltb_lt _ 2147483648)) by lia.
  - intros. by eapply read_reaches_server.
  - intros. by eapply write_reaches_server.
  - intros. by eapply seek_ok.
Defined.

(** A process whose library knows no file system yet, over a server with one mounted
    driver in state [d0]. *)
Definition boot_system (nm : str) (s : server S) : system S :=
  System (Vfs {[1 := Vfs.Fs fs_id nm [SLASH] (Vfs.parse [SLASH]) fs_pid]} [1] 1 (fs_id + 1) 0) s (-1) 0.

Definition start (w : system S) : lib (system S) :=
  Lib [] [] ∅ ∅ ∅ 3 (Some ([SLASH], Vfs.parse [SLASH])) 511 env_start (Libc 0 w).

Lemma start_shows nm s f : filesystems s !! 0%nat = Some f -> f = Fs d0 fs_id 0 [] -> fs_ok d0 ->
  shows (Vfs.parse [SLASH]) ∅ (Desk ∅ (data d0) 0) (start (boot_system nm s)) (View ∅ (data d0) 3).
Proof.
  intros Hf -> Hok. split; simpl; try done; try lia.
  - split; simpl; [by exists 1, nm, (fs_id + 1), 0|exists 0%nat|lia|done].
    split; [|intros g Hg; by apply elem_of_map_img in Hg as (? & ?)|].
    + destruct (filesystems s) as [|f fs]; [done|]. injection Hf as ->. simpl. by rewrite Z.eqb_refl.
    + eexists. split; [exact Hf|]. split; simpl; auto; try lia.
      * intros h Hh. set_solver.
      * intros h x [Hh _]. simpl in Hh. set_solver.
      * intros n e He. by rewrite lookup_empty in He.
      * intros h h' x x' [Hh _]. simpl in Hh. set_solver.
  - by eexists.
  - intros p Hp. set_solver.
  - intros p Hp. set_solver.
  - intros p f [Hp _]. simpl in Hp. set_solver.
  - intros p p' f f' [Hp _]. simpl in Hp. set_solver.
Qed.

(** C5: The library, the virtual file system and a file system server with any driver that keeps its
    promise work together: a process that starts in "/" opens, reads, writes and seeks
    in files of the mounted file system as in a table of file numbers over the contents
    the driver started with. *)
Theorem process_files nm s qs out :
  fs_ok d0 -> FilesSpec.spec_all (W := system S) (Vfs.parse [SLASH]) qs (View ∅ (data d0) 3) = Some out ->
  exists s1 s', cdi_fs_mount fs_id (Some d0) s = Ret 0 s1 /\
    run_all junk qs (start (boot_system nm s1)) = Ret out s'.
Proof.
  intros Hok Hsp. unfold cdi_fs_mount. rewrite (proj2 (Z.eqb_neq fs_id (-1))) by lia.
  set (s1 := Server (Fs d0 fs_id 0 [] :: filesystems s) (handles s) (fifos s) (shm s)). exists s1.
  assert (Hd : dir_ok (Vfs.parse [SLASH])) by (split_and!; [done|repeat constructor; set_solver|repeat constructor]).
  destruct (files_refines junk _ _ _ _ _ qs out Hd (start_shows nm s1 _ eq_refl eq_refl Hok) Hsp) as (s' & E).
  exists s'. split; [reflexivity|exact E].
Qed.
End root.

(** ** The RAM disk *)

Module Ram.
#[local] Existing Instance Cache.Disk.zero_garbage.

(** The file "f" of the small RAM disk holds 1, 2, 3.  It is opened under two names,
    5000 bytes are written to it in two pages and read back. *)
Definition session : list request :=
  [Open [47; 102] 3; Read 3 2; Write 3 (repeat 9 5000); Open [46; 47; 102] 1; Lseek 4 1 SEEK_SET; Read 4 6000;
   Open [103] 1; Read 7 1].

Lemma process_files_witness : exists s1 s',
  cdi_fs_mount 1 (Some Ramdisk.Small.d3) (Server [] ∅ ∅ ∅) = Ret 0 s1 /\
  run_all (SC := system_shm) (SV := system_servers 2 7) 7 session (start (boot_system 2 1 [] s1)) =
    Ret [(3, []); (2, [1; 2]); (5000, []); (4, []); (1, []); (5001, 2 :: repeat 9 5000); (-1, []); (-1, [])] s'.
Proof.
  apply (process_files 2 7 1 Ramdisk.Small.d3 (fun H => ltac:(discriminate H)) (fun H => ltac:(discriminate H)) [] (Server [] ∅ ∅ ∅)).
  - apply reachable_inv, Ramdisk.Small.d3_reachable.
  - vm_compute. reflexivity.
Defined.

(** ** What goes wrong *)

#[local] Existing Instance system_shm.
#[local] Instance ram_servers : Servers (system disk) := system_servers 2 7.

(** The process over the mounted RAM disk. *)
Definition process : lib (system disk) :=
  start (boot_system 2 1 [] (Server [Fs.Fs Ramdisk.Small.d3 1 0 []] ∅ ∅ ∅)).

(** What a command gives back, and [errno]. *)
Definition outcome_of {A} (c : cmd (lib (system disk)) A) (s : lib (system disk)) : (A * Z) + stop :=
  match c s with Ret x s' => inl (x, errno (base s')) | Stop r _ => inr r end.

Definition str_f : str := [47; 102].

(** Every lookup of a file on "/" makes a new item, so the two names of [rename] are
    never on the same file system. *)
Example rename_on_root_fails : outcome_of (rename str_f [47; 103]) process = inl (-1, AppEnv.EINVAL).
Proof. vm_compute. reflexivity. Qed.

(** A server that calls a missing function: [access] on any file. *)
Example access_missing : outcome_of (access str_f 0) process = inl (-1, 1).
Proof. vm_compute. reflexivity. Qed.

(** [dup2] gives the error of the server, not -1. *)
Example dup2_raw_error : outcome_of (n ← open 7 str_f 3 0; dup2 7 n 9) process = inl (- AppEnv.EINVAL, 0).
Proof. vm_compute. reflexivity. Qed.

(** The type that [pipe] asks for is a plain file. *)
Example pipe_is_no_fifo : cdi_fs_mode2class (Z.lor (Z.lor S_IFIFO 511) S_IFREG) = (CLASS_FILE, None).
Proof. reflexivity. Qed.

(** An open directory has the number 0; its server refuses to write to it, and the
    library goes on with the bytes in front of the data. *)
Example write_to_directory : outcome_of (opendir 7 [47];; write 3 0 [1; 2]) process = inr OutOfBounds.
Proof. vm_compute. reflexivity. Qed.

(** At the end of a process the files are taken out of the list before [close] looks
    for them there: the server keeps the file open. *)
Example close_all_closes_nothing :
  match (open 7 str_f 3 0;; _close_all_filehandles 7) process with
  | Ret _ s => filelist s = [] /\ is_Some (handles (srv (world (base s))) !! 1)
  | Stop _ _ => False
  end.
Proof. vm_compute. split; [reflexivity|]. by eexists. Qed.

(** "/mnt/cd" is a mountpoint.  Looking up the mountpoint itself leaves an item for
    "/mnt/c", and the next lookup cuts too little off. *)
Definition two_mounts : lib (system disk) :=
  let mp := [47; 109; 110; 116; 47; 99; 100] in
  start (System (Vfs {[1 := Vfs.Fs 1 [] [47] (Vfs.parse [47]) 2; 2 := Vfs.Fs 5 [] mp (Vfs.parse mp) 3]} [2; 1] 1 6 0)
           (Server [] ∅ ∅ ∅) (-1) 0).

Example mountpoint_cut_short :
  outcome_of (fsbypath (Some [47; 109; 110; 116; 47; 99; 100]) false;;
              x ← fsbypath (Some [47; 109; 110; 116; 47; 99; 100; 47; 102]) false; mret x.2) two_mounts =
  inl (Some [100; 47; 102], 0).
Proof. vm_compute. reflexivity. Qed.

(** Asked in the other order, the name is right. *)
Example mountpoint_cut_right :
  outcome_of (x ← fsbypath (Some [47; 109; 110; 116; 47; 99; 100; 47; 102]) false; mret x.2) two_mounts =
  inl (Some [47; 102], 0).
Proof. vm_compute. reflexivity. Qed.

(** The working directory becomes the value of PATH. *)
Example chdir_sets_path :
  match chdir 7 (fun _ => true) [47] process with
  | Ret 0 s => map_to_list (texts (environment s)) ≫= (fun x => [x.2]) = [assignment str_PATH [47]]
  | _ => False
  end.
Proof. vm_compute. reflexivity. Qed.
End Ram.
