(* ===== verification/ProcData.v ===== *)
(** * What a process hands to a new one (apps/lib/libmeinos/proc.c)

    Arguments, environment, working directory, creation mask and open files are packed
    into a segment of shared memory by the old process and unpacked by the new one,
    before [main].  The strings are left in the segment, which is then detached:
    [drop_buffer] takes them out of [names]. *)

From S2P Require Import Prelude LList Machine Path Cache Pack Ramdisk RamdiskFs Vfs Fs AppIpc AppEnv Files FilesSpec FilesFs.

Section code.
Context {W : Type} `{SC : ShmCalls W} `{SV : Servers W} `{MM : Malloc}.
(** [room n]: a block for [n] pointers has room for one more. *)
Context (junk : Z) (grows room : Z -> bool).
Abbreviation M A := (cmd (lib W) A).

(** The lengths of strings, without the zero at the end. *)
Fixpoint bare_lengths (xs : list str) : Z :=
  match xs with [] => 0 | x :: xs => Z.of_nat (length x) + bare_lengths xs end.

Definition pack_strs (xs : list str) : list Z := packi (Z.of_nat (length xs)) ++ concat (pack_str <$> xs).

(** [None] for [argv], [env] or [cwd] is NULL. *)
Definition proc_pack_procdata (argv env : option (list str)) (cwd : option str) (cmask : Z) : M Z :=
  let argv := default [] argv in
  let env := default [] env in
  let cwd := default [SLASH] cwd in
  fh_size ← _fs_pack_size;
  let size := 4 + sum_lengths argv + (4 + bare_lengths env) + (Z.of_nat (length cwd) + 1) + 4 + fh_size in
  g ← libc_do (shmget junk IPC_PRIVATE (w32 size) 0);
  if negb (g =? -1) then
    b ← libc_do (shmat g NULL 0);
    if negb (b =? NULL) then
      fhs ← _fs_pack_filehandles;
      shm_poke b (pack_strs argv ++ pack_strs env ++ pack_str cwd ++ packi cmask ++ fhs);;
      libc_do (shmdt b);;
      mret g
    else libc_do (shmctl junk g IPC_RMID NULL);; mret (-1)
  else mret (-1).

Fixpoint unpack_strs_from (n : nat) (b : list Z) : M (list str * list Z) :=
  match n with
  | O => mret ([], b)
  | S n => x ← unpack_str b; r ← unpack_strs_from n x.2; mret (x.1 :: r.1, r.2)
  end.

Definition unpack_strs (b : list Z) : M (list str * list Z) := n ← unpacki b; unpack_strs_from (Z.to_nat (w32 n.1)) n.2.

(** A pointer to a string in the buffer. *)
Definition buffer_name (x : str) : M Z := fun s =>
  let p := malloc (dom (names s)) in Ret p (set_names (<[p := Cell x false]> (names s)) s).

Fixpoint buffer_names (xs : list str) : M (list Z) :=
  match xs with [] => mret [] | x :: xs => p ← buffer_name x; r ← buffer_names xs; mret (p :: r) end.

(** The environment with copies of the strings. *)
Fixpoint env_of (xs : list str) (m : gmap Z str) : gmap Z str * list Z :=
  match xs with
  | [] => (m, [NULL])
  | x :: xs => let p := malloc (dom m) in let r := env_of xs (<[p := x]> m) in (r.1, p :: r.2)
  end.

(** The strings of the buffer are gone. *)
Definition drop_buffer : M unit := modify (fun s => set_names (filter (fun x => on_heap x.2 = true) (names s)) s).

(** [size] is the size of the segment; the result and the pointers of [argv]. *)
Definition proc_unpack_procdata (var size : Z) : M (Z * list Z) :=
  b ← libc_do (shmat var NULL 0);
  r ← (if negb (b =? NULL) then
         buf ← shm_peek b size;
         argv ← unpack_strs buf;
         ptrs ← buffer_names argv.1;
         (if room (Z.of_nat (length argv.1)) then mret tt else stop_with OutOfBounds);;
         envs ← unpack_strs argv.2;
         (if room (Z.of_nat (length envs.1)) then mret tt else stop_with OutOfBounds);;
         modify (fun s => let '(m, v) := env_of envs.1 (texts (environment s)) in set_environment (Env m v) s);;
         cwd ← unpack_str envs.2;
         chdir junk grows cwd.1;;
         cmask ← unpacki cwd.2;
         umask (w32 cmask.1);;
         _fs_unpack_filehandles junk cmask.2;;
         libc_do (shmdt b);;
         drop_buffer;;
         mret (var, ptrs)
       else mret (-1, []));
  libc_do (shmctl junk var IPC_RMID NULL);;
  mret r.
End code.

(** ** What is packed is unpacked *)

Section facts.
Context {W : Type} `{SC : ShmCalls W} `{SV : Servers W} `{MM : Malloc}.
Context (junk : Z) (addr : Z -> Z).
Implicit Types s : lib W.

Definition int_ok (v : Z) : Prop := -2147483648 <= v < 2147483648.
Definition text_ok (x : str) : Prop := Forall (fun c => c <> 0) x.

Lemma unpacki_ok v b s : int_ok v -> unpacki (packi v ++ b) s = Ret (v, b) s.
Proof.
  intros Hv. unfold unpacki, packi. rewrite length_app, le_bytes_length. cbn [Nat.add Nat.ltb Nat.leb].
  rewrite take_app_length', drop_app_length' by (by rewrite le_bytes_length).
  change (le4 (le_bytes 4 (w32 v))) with (CString.le32 (le_bytes 4 (w32 v))).
  rewrite le_bytes_value by (pose proof (w32_range v); simpl; lia).
  unfold mret, cmd_ret. repeat f_equal. unfold s32. rewrite (w32_small (w32 v)) by apply w32_range.
  unfold int_ok in Hv. destruct (decide (0 <= v)).
  - rewrite w32_small by lia. by rewrite (proj2 (Z.ltb_lt _ _)) by lia.
  - rewrite w32_neg by lia. rewrite (proj2 (Z.ltb_ge _ _)) by lia. lia.
Qed.

Lemma unpack_str_ok x b s : text_ok x -> unpack_str (pack_str x ++ b) s = Ret (x, b) s.
Proof.
  intros Hx. unfold unpack_str, pack_str. rewrite <- (assoc_L (++)). change ([0] ++ b) with (0 :: b). rewrite cstring_app by done.
  unfold mret, cmd_ret. repeat f_equal. rewrite drop_app_ge by lia. by replace (length x + 1 - length x)%nat with 1%nat by lia.
Qed.

(** Lists of strings: arguments and environment. *)
Lemma unpack_strs_ok xs b s : Forall text_ok xs -> Z.of_nat (length xs) < 2147483648 ->
  unpack_strs (pack_strs xs ++ b) s = Ret (xs, b) s.
Proof.
  intros Hxs Hl. unfold unpack_strs, pack_strs. rewrite <- (assoc_L (++)).
  rewrite (bind_Ret _ _ _ _ _ (unpacki_ok (Z.of_nat (length xs)) _ s ltac:(unfold int_ok; lia))). cbn [fst snd].
  rewrite w32_small, Nat2Z.id by lia. clear Hl. induction Hxs as [|x xs Hx Hxs IH]; [done|].
  cbn [length unpack_strs_from fmap list_fmap concat]. rewrite <- (assoc_L (++)).
  rewrite (bind_Ret _ _ _ _ _ (unpack_str_ok x _ s Hx)). cbn [fst snd].
  by rewrite (bind_Ret _ _ _ _ _ IH).
Qed.

(** An open file as it is handed on. *)
Record handed := Handed {
  h_fh : Z; h_fs_fh : Z; h_shmid : Z; h_type : Z; h_mode : Z; h_stfl : Z; h_fdfl : Z; h_id : Z; h_path : str;
}.

Definition handed_of (s : lib W) (p : Z) : option handed :=
  f ← files s !! p; g ← fss s !! fs f; n ← names s !! path f;
  Some (Handed (fh f) (fs_fh f) (shmid f) (type f) (mode f) (stfl f) (fdfl f) (id g) (text n)).

Definition handed_ok (h : handed) : Prop :=
  Forall int_ok [h_fh h; h_fs_fh h; h_shmid h; h_type h; h_mode h; h_stfl h; h_fdfl h; h_id h] /\ text_ok (h_path h).

Definition pack_handed (h : handed) : list Z :=
  packi (h_fh h) ++ packi (h_fs_fh h) ++ packi (h_shmid h) ++ packi (h_type h) ++ packi (h_mode h) ++
  packi (h_stfl h) ++ packi (h_fdfl h) ++ packi (h_id h) ++ pack_str (h_path h).

(** *** Packing *)

(** An open file that is handed on, with live pointers. *)
Definition handing (s : lib W) (p : Z) (h : handed) : Prop :=
  p <> NULL /\ handed_of s p = Some h /\ handed_ok h /\
  exists f, files s !! p = Some f /\ fs f <> NULL /\ path f <> NULL /\ is_packed f = true /\ fs f ∈ fslist s.

Lemma pack_files_ok s xs hs : Forall2 (handing s) xs hs ->
  exists ys, all_files xs s = Ret ys s /\ pack_files ys s = Ret (concat (pack_handed <$> hs)) s.
Proof.
  induction 1 as [|p h xs hs (Hp & Hh & _ & f & Hf & Hfs & Hpath & Hpk & _) _ (ys & E & Ep)]; [by exists []|].
  unfold handed_of in Hh. rewrite Hf in Hh. cbn [mbind option_bind] in Hh.
  destruct (fss s !! fs f) as [g|] eqn:Hg; [|done]. cbn [mbind option_bind] in Hh.
  destruct (names s !! path f) as [n|] eqn:Hn; [|done]. injection Hh as <-.
  exists ((f, text n) :: ys). split.
  - cbn [all_files]. unfold file_at, name_at, mbind, cmd_bind. rewrite (proj2 (Z.eqb_neq _ _) Hp), Hf.
    rewrite (proj2 (Z.eqb_neq _ _) Hpath). by rewrite Hn, E.
  - cbn [pack_files]. rewrite Hpk, bind_assoc.
    rewrite (bind_Ret (fs_at (fs f)) _ s g s) by (unfold fs_at; by rewrite (proj2 (Z.eqb_neq _ _) Hfs), Hg).
    by rewrite bind_ret, (bind_Ret _ _ _ _ _ Ep).
Qed.

Lemma all_fss_ok s xs : (forall p, p ∈ xs -> p <> NULL /\ is_Some (fss s !! p)) ->
  exists ys, all_fss xs s = Ret ys s /\ Forall2 (fun p y => fss s !! p = Some y) xs ys.
Proof.
  induction xs as [|p xs IH]; intros Hxs; [by exists []|]. destruct (Hxs p) as (Hp & y & Hy); [by left|].
  destruct IH as (ys & E & H2); [intros q Hq; apply Hxs; by right|]. exists (y :: ys). split; [|by constructor].
  cbn [all_fss]. unfold fs_at. rewrite (proj2 (Z.eqb_neq _ _) Hp). unfold mbind, cmd_bind. by rewrite Hy, E.
Qed.

(** *** Unpacking *)

(** The items of the list are live. *)
Definition fs_live (s : lib W) : Prop := forall p, p ∈ fslist s -> p <> NULL /\ is_Some (fss s !! p).
Definition has_fs (s : lib W) (i : Z) : Prop := exists p x, p ∈ fslist s /\ fss s !! p = Some x /\ id x = i.

Lemma fsbyid_ok s i : fs_live s -> has_fs s i ->
  exists g x, fsbyid i s = Ret g s /\ fss s !! g = Some x /\ id x = i.
Proof.
  intros Hl (p & x & Hp & Hx & Hi). unfold fsbyid. rewrite bind_gets. cbn [Datatypes.id].
  rewrite scan_all by (intros Hn; by destruct (Hl NULL Hn)). revert Hl Hp. unfold fs_live.
  generalize (fslist s). intros l Hl Hp. induction l as [|q l IH]; [set_solver|]. cbn [fs_search].
  destruct (Hl q) as (Hq & y & Hy); [by left|]. unfold fs_at. rewrite (proj2 (Z.eqb_neq _ _) Hq).
  unfold mbind, cmd_bind. rewrite Hy. destruct (Z.eqb_spec (id y) i) as [E|E]; [by exists q, y|].
  apply IH; [intros r Hr; apply Hl; by right|]. apply elem_of_cons in Hp as [->|Hp]; [congruence|done].
Qed.

Lemma unpack_fss_ok ys : forall s b, fs_live s ->
  Forall (fun y => int_ok (id y) /\ int_ok (pid y) /\ text_ok (mountpoint_str y)) ys ->
  exists s', unpack_fss (length ys) (concat (pack_fs <$> ys) ++ b) s = Ret b s' /\ fs_live s' /\
    files s' = files s /\ names s' = names s /\ filelist s' = filelist s /\
    (forall i, has_fs s i \/ (exists y, y ∈ ys /\ id y = i) -> has_fs s' i).
Proof.
  induction ys as [|y ys IH]; intros s b Hl Hys.
  { exists s. split; [done|]. do 4 (split; [done|]). intros i [Hi|(y & Hy & _)]; [done|set_solver]. }
  apply Forall_cons in Hys as [(Hi & Hp & Ht) Hys]. cbn [length unpack_fss fmap list_fmap concat].
  unfold pack_fs at 1. rewrite <- !(assoc_L (++)).
  rewrite (bind_Ret _ _ _ _ _ (unpacki_ok _ _ s Hi)). cbn [fst snd].
  rewrite (bind_Ret _ _ _ _ _ (unpacki_ok _ _ s Hp)). cbn [fst snd].
  rewrite (bind_Ret _ _ _ _ _ (unpack_str_ok _ _ s Ht)). cbn [fst snd]. rewrite bind_gets, !bind_modify. cbn [Datatypes.id].
  set (a := malloc (dom (fss s))). assert (Ha : a <> NULL) by apply malloc_nonnull.
  assert (Hn : fss s !! a = None) by (apply not_elem_of_dom, malloc_fresh).
  set (x := FsItem (pid y) (id y) (parse_path (mountpoint_str y)) (mountpoint_str y)).
  set (s1 := set_fslist _ _).
  destruct (IH s1 b) as (s' & E & Hl' & H1 & H2 & H3 & H4); [|done|].
  { intros p [->|Hq]%elem_of_cons; [split; [done|]; simpl; rewrite lookup_insert_eq; eauto|].
    destruct (Hl p Hq) as (Hp0 & z & Hz). split; [done|]. simpl. rewrite lookup_insert_ne by congruence. eauto. }
  exists s'. split; [exact E|]. do 4 (split; [done|]). intros i Hi'. apply H4. destruct Hi' as [(p & z & Hpl & Hz & Hzi)|(z & [->|Hz]%elem_of_cons & Hzi)].
  - left. exists p, z. split; [by right|]. split; [|done]. simpl. rewrite lookup_insert_ne; [done|congruence].
  - left. exists a, x. split; [by left|]. split; [apply lookup_insert_eq|done].
  - right. by exists z.
Qed.

(** Every segment can be attached. *)
Context (Hat : forall g w, exists w', sys_shm_at g NULL 0 w = Ret (0, addr g) w').

Lemma shmat_ok g s : exists w, libc_do (shmat g NULL 0) s = Ret (addr g) (set_base (Libc 0 w) s).
Proof.
  destruct (Hat g (world (base s))) as (w & E). exists w. unfold libc_do, shmat, sys, mbind, cmd_bind. by rewrite E.
Qed.

(** An item does not change when others are added. *)
Lemma handed_more s s' p h : handed_of s p = Some h -> files s ⊆ files s' -> fss s ⊆ fss s' -> names s ⊆ names s' ->
  handed_of s' p = Some h.
Proof.
  intros Hh Hf Hg Hn. unfold handed_of in *. destruct (files s !! p) as [f|] eqn:E1; [|done]. cbn [mbind option_bind] in *.
  destruct (fss s !! fs f) as [g|] eqn:E2; [|done]. cbn [mbind option_bind] in *.
  destruct (names s !! path f) as [n|] eqn:E3; [|done].
  by rewrite (lookup_weaken _ _ _ _ E1 Hf); cbn; rewrite (lookup_weaken _ _ _ _ E2 Hg); cbn; rewrite (lookup_weaken _ _ _ _ E3 Hn).
Qed.

Ltac unpack_int v s := rewrite (bind_Ret _ _ _ _ _ (unpacki_ok v _ s ltac:(assumption))); cbn [fst snd].

(** One file. *)
Lemma unpack_one_ok h s b n : handed_ok h -> fs_live s -> has_fs s (h_id h) ->
  exists p s1, unpack_files junk (S n) (pack_handed h ++ b) s = unpack_files junk n b s1 /\
    filelist s1 = p :: filelist s /\ handed_of s1 p = Some h /\
    files s ⊆ files s1 /\ names s ⊆ names s1 /\ fss s1 = fss s /\ fslist s1 = fslist s.
Proof.
  intros (Hi & Ht) Hl Hhas. repeat (apply Forall_cons in Hi as [? Hi]). destruct h as [h1 h2 h3 h4 h5 h6 h7 h8 hp].
  cbn [h_fh h_fs_fh h_shmid h_type h_mode h_stfl h_fdfl h_id h_path] in *.
  destruct (shmat_ok h3 s) as (w & Ea). set (s0 := set_base (Libc 0 w) s) in *.
  destruct (fsbyid_ok s0 h8 Hl Hhas) as (g & x & Eg & Hg & Hx).
  set (nm := malloc (dom (names s0))). set (p := malloc (dom (files s0))).
  set (f := FileItem g h2 junk h5 h1 nm h3 (addr h3) h4 h7 h6 junk).
  exists p, (set_filelist (p :: filelist s) (set_files (<[p := f]> (files s)) (set_names (<[nm := Cell hp false]> (names s)) s0))).
  split.
  { cbn [unpack_files]. unfold pack_handed. cbn [h_fh h_fs_fh h_shmid h_type h_mode h_stfl h_fdfl h_id h_path].
    rewrite <- !(assoc_L (++)).
    unpack_int h1 s. unpack_int h2 s. unpack_int h3 s. unpack_int h4 s. unpack_int h5 s. unpack_int h6 s.
    unpack_int h7 s. unpack_int h8 s.
    rewrite (bind_Ret _ _ _ _ _ (unpack_str_ok hp b s Ht)). cbn [fst snd].
    rewrite (bind_Ret _ _ _ _ _ Ea), (bind_Ret _ _ _ _ _ Eg). reflexivity. }
  assert (Hp : files s !! p = None) by (apply not_elem_of_dom, malloc_fresh).
  assert (Hnm : names s !! nm = None) by (apply not_elem_of_dom, malloc_fresh).
  split; [done|]. split; [|split; [by apply insert_subseteq|split; [by apply insert_subseteq|done]]].
  unfold handed_of. simpl. rewrite lookup_insert_eq. simpl. change (fss s0) with (fss s) in Hg.
  rewrite Hg. simpl. rewrite lookup_insert_eq. simpl. by rewrite Hx.
Qed.

Lemma unpack_files_ok hs : forall s b, Forall handed_ok hs -> fs_live s -> (forall h, h ∈ hs -> has_fs s (h_id h)) ->
  exists s' ps, unpack_files junk (length hs) (concat (pack_handed <$> hs) ++ b) s = Ret b s' /\
    filelist s' = ps ++ filelist s /\ handed_of s' <$> ps = Some <$> reverse hs /\
    files s ⊆ files s' /\ names s ⊆ names s' /\ fss s' = fss s.
Proof.
  induction hs as [|h hs IH]; intros s b Hok Hl Hhas; [by exists s, []|].
  apply Forall_cons in Hok as [Hh Hok]. cbn [length fmap list_fmap concat]. rewrite <- (assoc_L (++)).
  destruct (unpack_one_ok h s (concat (pack_handed <$> hs) ++ b) (length hs) Hh Hl) as (p & s1 & E & Hf & Hv & H1 & H2 & H3 & H4);
    [apply Hhas; by left|].
  destruct (IH s1 b Hok) as (s' & ps & E' & Hf' & Hv' & H1' & H2' & H3').
  - intros q Hq. rewrite H4 in Hq. rewrite H3. by apply Hl.
  - intros h' Hh'. destruct (Hhas h') as (q & x & Hq); [by right|]. exists q, x. by rewrite H4, H3.
  - exists s', (ps ++ [p]). rewrite E, E'. split; [done|]. rewrite Hf', Hf, <- (assoc_L (++)). split; [done|].
    split; [|split; [by trans (files s1)|split; [by trans (names s1)|congruence]]].
    rewrite reverse_cons, !fmap_app, Hv'. f_equal. simpl. f_equal. eapply handed_more; eauto. by rewrite H3'.
Qed.

(** C35: A process that is given the open files of another one has the same files: numbers,
    server numbers, segments, modes, flags, file systems and paths all survive packing
    and unpacking, if none of the files is a directory or to be closed on exec; only the
    order of the list is turned round. *)
Theorem filehandles_roundtrip s hs s0 b :
  Forall2 (handing s) (filelist s) hs -> fs_live s ->
  (forall p x, p ∈ fslist s -> fss s !! p = Some x -> int_ok (id x) /\ int_ok (pid x) /\ text_ok (mountpoint_str x)) ->
  Z.of_nat (length (fslist s)) < 2147483648 -> Z.of_nat (length hs) < 2147483648 ->
  filelist s0 = [] -> fs_live s0 ->
  exists bytes s', _fs_pack_filehandles s = Ret bytes s /\
    _fs_unpack_filehandles junk (bytes ++ b) s0 = Ret b s' /\
    handed_of s' <$> filelist s' = Some <$> reverse hs.
Proof.
  intros Hh Hl Hx Hn1 Hn2 H0 Hl0. pose proof (Forall2_length _ _ _ Hh) as Hlen.
  destruct (pack_files_ok s (filelist s) hs Hh) as (ys & Ey & Ep).
  destruct (all_fss_ok s (fslist s) Hl) as (xs & Ex & Hxs). pose proof (Forall2_length _ _ _ Hxs) as Hlx.
  assert (Hok : Forall (fun y => int_ok (id y) /\ int_ok (pid y) /\ text_ok (mountpoint_str y)) xs).
  { apply Forall_forall. intros y Hy. apply list_elem_of_lookup_1 in Hy as (i & Hi).
    destruct (Forall2_lookup_r _ _ _ _ _ Hxs Hi) as (p & Hp & Hpy). apply (Hx p y); [by apply list_elem_of_lookup_2 in Hp|done]. }
  destruct (unpack_fss_ok xs s0 (packi (Z.of_nat (length (filelist s))) ++ concat (pack_handed <$> hs) ++ b) Hl0 Hok)
    as (s1 & E1 & Hl1 & _ & _ & Hf1 & Hhas1).
  destruct (unpack_files_ok hs s1 b) as (s' & ps & E2 & Hf2 & Hv2 & _); [|done| |].
  - clear -Hh. induction Hh as [|p h ? ? (_ & _ & Hok & _)]; by constructor.
  - intros h Hin. apply Hhas1. right. apply list_elem_of_lookup_1 in Hin as (i & Hi).
    destruct (Forall2_lookup_r _ _ _ _ _ Hh Hi) as (p & _ & _ & Hhp & _ & f & Hf & _ & _ & _ & Hin).
    unfold handed_of in Hhp. rewrite Hf in Hhp. cbn [mbind option_bind] in Hhp.
    destruct (fss s !! fs f) as [g|] eqn:Hg; [|done]. cbn [mbind option_bind] in Hhp. destruct (names s !! path f); [|done].
    injection Hhp as <-. exists g. split; [|done]. apply list_elem_of_lookup_1 in Hin as (j & Hj).
    destruct (Forall2_lookup_l _ _ _ _ _ Hxs Hj) as (y & Hy & Hyg). apply list_elem_of_lookup_2 in Hy. congruence.
  - eexists _, s'. split; [|split].
    + unfold _fs_pack_filehandles. rewrite bind_gets. cbn [Datatypes.id].
      rewrite !scan_all by (intros Hnull; first [by destruct (Hl NULL Hnull)|apply list_elem_of_lookup_1 in Hnull as (i & Hi);
        by destruct (Forall2_lookup_l _ _ _ _ _ Hh Hi) as (? & ? & ? & _)]).
      rewrite (bind_Ret _ _ _ _ _ Ex), (bind_Ret _ _ _ _ _ Ey), (bind_Ret _ _ _ _ _ Ep). reflexivity.
    + unfold _fs_unpack_filehandles. rewrite <- !(assoc_L (++)).
      rewrite (bind_Ret _ _ _ _ _ (unpacki_ok (Z.of_nat (length (fslist s))) _ s0 ltac:(unfold int_ok; lia))). cbn [fst snd].
      rewrite w32_small, Nat2Z.id, Hlx by lia. rewrite (bind_Ret _ _ _ _ _ E1).
      rewrite (bind_Ret _ _ _ _ _ (unpacki_ok (Z.of_nat (length (filelist s))) _ s1 ltac:(unfold int_ok; lia))). cbn [fst snd].
      by rewrite w32_small, Nat2Z.id, Hlen by lia.
    + by rewrite Hf2, Hf1, H0, app_nil_r.
Qed.
End facts.

(** ** Examples *)

Module Child.

(** A kernel in which every segment can be attached, and no servers. *)
#[local] Instance every_shm : ShmCalls unit := {|
  sys_shm_get key := mret 0; sys_shm_create key size flags := mret 0;
  sys_shm_at g addr flags := mret (0, g + 1); sys_shm_dt addr := mret 0;
  sys_shm_stat g buf := mret 0; sys_shm_set g buf := mret 0; sys_shm_destroy g := mret 0;
|}.

#[local] Instance no_servers : Servers unit := {|
  Files.vfs_getfsid path parent := mret None; Files.vfs_getpid id := mret None; fs_call p c := mret None;
  peek b n := mret []; poke b x := mret tt;
|}.

(** One open file "f" with the flags [fl] on a file system at "/". *)
Definition parent (fl : Z) : lib unit :=
  Lib [10] [20] {[10 := FileItem 20 0 NULL S_IFREG 3 30 5 6 FL_FILE fl 3 0]}
    {[20 := FsItem 2 1 (parse_path [47]) [47]]} {[30 := Cell [102] true]} 4 None 511 env_start (Libc 0 tt).

Definition empty : lib unit := Lib [] [] ∅ ∅ ∅ 3 None 511 env_start (Libc 0 tt).

Definition the_file : handed := Handed 3 0 5 0 S_IFREG 3 0 1 [102].

Lemma every_at g (w : unit) : exists w', sys_shm_at g NULL 0 w = Ret (0, g + 1) w'.
Proof. by exists w. Qed.

Lemma filehandles_roundtrip_witness : exists bytes s',
  _fs_pack_filehandles (parent 0) = Ret bytes (parent 0) /\
  _fs_unpack_filehandles 0 (bytes ++ [7]) empty = Ret [7] s' /\ handed_of s' <$> filelist s' = [Some the_file].
Proof.
  apply (filehandles_roundtrip 0 (fun g => g + 1) every_at (parent 0) [the_file] empty [7]).
  - constructor; [|constructor]. split; [discriminate|]. split; [reflexivity|]. split.
    + split; [repeat constructor; discriminate|]. repeat constructor. discriminate.
    + eexists. split; [reflexivity|]. do 3 (split; [first [discriminate|reflexivity]|]). by left.
  - intros p Hp. apply elem_of_cons in Hp as [->|Hp]; [|by apply elem_of_nil in Hp]. split; [discriminate|by eexists].
  - intros p x Hp Hx. apply elem_of_cons in Hp as [->|Hp]; [|by apply elem_of_nil in Hp]. injection Hx as <-.
    split; [|split]; repeat constructor; discriminate.
  - reflexivity.
  - reflexivity.
  - reflexivity.
  - intros p Hp. by apply elem_of_nil in Hp.
Defined.

(** A file that is to be closed on exec is counted but not packed; the new process reads
    behind the end. *)
Example cloexec_counted :
  match _fs_pack_filehandles (parent FD_CLOEXEC) with
  | Ret bytes _ => match _fs_unpack_filehandles 0 bytes empty with Stop OutOfBounds _ => True | _ => False end
  | Stop _ _ => False
  end.
Proof. vm_compute. exact I. Qed.

(** The size of the environment is counted without the zeros. *)
Example environment_too_long : 4 + bare_lengths [[65; 61; 49]; [66; 61; 50]] = Z.of_nat (length (pack_strs [[65; 61; 49]; [66; 61; 50]])) - 2.
Proof. reflexivity. Qed.

(** A process hands two arguments and a variable to a child.  The child cannot read its
    arguments any more, and its environment holds the working directory instead of the
    variable. *)
#[local] Existing Instance Cache.Disk.zero_garbage.
#[local] Existing Instance system_shm.
#[local] Instance ram_servers : Servers (system disk) := system_servers 2 7.

Example arguments_dangle :
  match proc_pack_procdata 7 (Some [[97]; [98]]) (Some [[65; 61; 49]]) None 18 Ram.process with
  | Ret g s =>
      match proc_unpack_procdata 7 (fun _ => true) (fun _ => true) g 4096 (start (world (base s))) with
      | Ret (_, ps) s' =>
          (match ps with p :: _ => match name_at p s' with Stop UseAfterFree _ => True | _ => False end | [] => False end) /\
          map_to_list (texts (environment s')) ≫= (fun x => [x.2]) = [assignment str_PATH [47]] /\ creation_mask s' = 18
      | Stop _ _ => False
      end
  | Stop _ _ => False
  end.
Proof. vm_compute. split; [exact I|]. split; reflexivity. Qed.
End Child.
