(* ===== verification/AppRpc.v ===== *)
(** * Remote procedure calls of applications (apps/lib/libmeinos/rpc.c)

    A caller packs its arguments as the synopsis of the function says, one character per
    argument; the server unpacks them the same way and calls the function.  Class
    [RpcCalls] is the system calls of rpc.c of the kernel as a process sees them.

    Strings travel by value.  The function gets pointers into the buffer and may change
    them there; with [RPC_FLAG_RETPARAMS] the caller copies them back. *)

From S2P Require Import Prelude LList Machine Path Cache Pack Fs AppIpc AppEnv.

(** A machine word of [va_arg]: a number or the address of a string. *)
Inductive arg := Word (v : Z) | Text (x : str).

(** [rpc_getinfo]: the identifier or an error, the size of the buffer and the synopsis.
    [rpc_send]: what is stored to [ret] and [error], and the buffer that comes back;
    [None] if nothing is stored.  [rpc_take]: an error or the function, the buffer and the
    caller.  [rpc_function]: the function at an address; it may change its strings. *)
Class RpcCalls (W : Type) := {
  getpid : Z;
  rpc_getinfo : Z -> option str -> Z -> bool -> bool -> cmd W (Z * Z * str);
  rpc_send : Z -> list Z -> bool -> bool -> cmd W (option (Z * Z * list Z));
  rpc_take : Z -> cmd W (Z * Z * list Z * Z);
  rpc_answer : Z -> Z -> list Z -> cmd W Z;
  rpc_function : Z -> list arg -> cmd W (Z * list arg);
  rpc_create : str -> Z -> str -> Z -> cmd W Z;
  rpc_destroy : Z -> cmd W Z;
  rpc_name : Z -> cmd W (option str);
}.

Definition RPC_FLAG_RETPARAMS : Z := 1.
Definition RPC_FLAG_SENDTO : Z := 2.
Definition RPC_FLAG_NORET : Z := 4.
Definition RPC_TRIES_MAXNUM : nat := 100.

(** ** Packing *)

(** The size and whether it is signed: b, w, d, c, s, i, l. *)
Definition int_type (c : Z) : option (nat * bool) :=
  if c =? 98 then Some (1%nat, false)
  else if c =? 119 then Some (2%nat, false)
  else if c =? 100 then Some (4%nat, false)
  else if c =? 99 then Some (1%nat, true)
  else if c =? 115 then Some (2%nat, true)
  else if c =? 105 then Some (4%nat, true)
  else if c =? 108 then Some (4%nat, true)
  else None.

Definition DOLLAR : Z := 36.

Definition le_value (b : list Z) : Z := foldr (fun x r => x + 256 * r) 0 b.

Definition extend (n : nat) (signed : bool) (v : Z) : Z :=
  let m := 256 ^ Z.of_nat n in if signed && (m / 2 <=? v) then v - m else v.

Section code.
Context {W : Type} `{RC : RpcCalls W} `{GG : Garbage}.
(** [junk] is an argument that was not passed. *)
Context (junk : arg).
Abbreviation M A := (cmd (libc W) A).

(** A number where a string is expected is no address of a string, and the other way
    round the address is sent as a number that means nothing to the server. *)
Definition pack_arg (c : Z) (a : arg) : M (list Z) :=
  match int_type c, a with
  | Some (n, _), Word v => mret (le_bytes n (w32 v))
  | Some (n, _), Text _ => stop_with Uninitialized
  | None, Text x => mret (if c =? DOLLAR then x ++ [0] else [])
  | None, Word _ => if c =? DOLLAR then stop_with (PageFault 0) else mret []
  end.

(** One argument per character of the synopsis. *)
Fixpoint pack_args (syn : str) (args : list arg) : M (list Z) :=
  match syn with
  | [] => mret []
  | c :: syn =>
      let a := match args with a :: _ => a | [] => junk end in
      x ← pack_arg c a; r ← pack_args syn (tail args); mret (x ++ r)
  end.

Definition unpack_arg (c : Z) (b : list Z) : M (option arg * list Z) :=
  match int_type c with
  | Some (n, signed) =>
      if (length b <? n)%nat then stop_with OutOfBounds
      else mret (Some (Word (extend n signed (le_value (take n b)))), drop n b)
  | None =>
      if c =? DOLLAR then
        match cstring b with
        | Some x => mret (Some (Text x), drop (length x + 1) b)
        | None => stop_with OutOfBounds
        end
      else mret (None, b)
  end.

(** [None] is an element of the parameter list that is not set. *)
Fixpoint unpack_args (syn : str) (b : list Z) : M (list (option arg)) :=
  match syn with
  | [] => mret []
  | c :: syn => x ← unpack_arg c b; r ← unpack_args syn x.2; mret (x.1 :: r)
  end.

(** ** Calling *)

Definition rpc_func_create (name : str) (func : Z) (synopsis : str) (paramsz : Z) : M Z :=
  ret ← sys (rpc_create name func synopsis paramsz); result ret.

Definition rpc_func_destroy (id : Z) : M Z := ret ← sys (rpc_destroy id); result ret.

(** The tries: [ret], [error] and the buffer. *)
Fixpoint call_loop (tries : nat) (id : Z) (noret ret_params : bool) (ret error : Z) (buf : list Z) : M (Z * Z * list Z) :=
  match tries with
  | O => mret (ret, error, buf)
  | S tries =>
      if negb (error =? 0) then
        o ← sys (rpc_send id buf (negb noret) (ret_params && negb noret));
        match o with
        | Some (r, e, b) => call_loop tries id noret ret_params r e (if ret_params then b else buf)
        | None => call_loop tries id noret ret_params ret error buf
        end
      else mret (ret, error, buf)
  end.

(** [strncpy(param,str,strlen(param)+1)]: a longer string is left without an end. *)
Fixpoint copy_back (args : list arg) (back : list (option arg)) : M (list arg) :=
  match args, back with
  | Text x :: args, Some (Text y) :: back =>
      if (length x <? length y)%nat then stop_with OutOfBounds
      else r ← copy_back args back; mret (Text y :: r)
  | a :: args, _ :: back => r ← copy_back args back; mret (a :: r)
  | args, _ => mret args
  end.

(** The result and the arguments afterwards. *)
Definition rpc_vcall (name : str) (flags : Z) (args : list arg) : M (Z * list arg) :=
  let ret_params := flag flags RPC_FLAG_RETPARAMS in
  let noret := flag flags RPC_FLAG_NORET in
  let sent := flag flags RPC_FLAG_SENDTO in
  let sendto := match args with Word p :: _ => if sent then p else 0 | _ => 0 end in
  let params := if sent then tail args else args in
  info ← sys (rpc_getinfo (-1) (Some name) sendto false false);
  let '(id, paramsz, synopsis) := info in
  if 0 <=? id then
    x ← pack_args synopsis params;
    if paramsz <? Z.of_nat (length x) then stop_with OutOfBounds
    else
      r ← call_loop RPC_TRIES_MAXNUM id noret ret_params 0 1 (x ++ garbage (paramsz - Z.of_nat (length x)));
      let '(ret, error, buf) := r in
      if error =? 0 then
        params ← (if ret_params then back ← unpack_args synopsis buf; copy_back params back else mret params);
        set_errno 0;; mret (ret, if sent then firstn 1 args ++ params else params)
      else set_errno EINVAL;; mret (-1, args)
  else set_errno EINVAL;; mret (-1, args).

(** Calling a function of the own process. *)
Definition rpc_vcallself (name : str) (func : Z) (args : list arg) : M Z :=
  info ← sys (rpc_getinfo (-1) (Some name) getpid false true);
  let '(id, _, synopsis) := info in
  if 0 <=? id then r ← sys (rpc_function func (take (length synopsis) args)); mret r.1 else mret (-1).

(** ** Serving *)

(** The function writes to its strings where they are in the buffer: a shorter one is
    followed by what was there, a longer one reaches into the next argument. *)
Fixpoint write_back (syn : str) (old new : list arg) (off : Z) (b : list Z) : list Z :=
  match syn, old, new with
  | c :: syn, o :: old, n :: new =>
      match int_type c, o, n with
      | Some (k, _), _, _ => write_back syn old new (off + Z.of_nat k) b
      | None, Text x, Text y => write_back syn old new (off + Z.of_nat (length x) + 1) (splice b off (y ++ [0]))
      | None, _, _ => write_back syn old new off b
      end
  | _, _, _ => b
  end.

Fixpoint all_set (xs : list (option arg)) : M (list arg) :=
  match xs with
  | [] => mret []
  | Some x :: xs => r ← all_set xs; mret (x :: r)
  | None :: _ => stop_with Uninitialized
  end.

(** The call of the function with the arguments in the buffer: its result and the
    buffer afterwards. *)
Definition serve_call (synopsis : str) (func : Z) (buf : list Z) : M (Z * list Z) :=
  xs ← unpack_args synopsis buf;
  args ← all_set xs;
  r ← sys (rpc_function func args);
  mret (r.1, write_back synopsis args r.2 0 buf).

Definition rpc_poll (id : Z) : M Z :=
  info ← sys (rpc_getinfo id None getpid true true);
  let '(id, paramsz, synopsis) := info in
  if 0 <=? id then
    t ← sys (rpc_take id);
    let '(e, func, buf, _) := t in
    if e =? 0 then
      r ← serve_call synopsis func buf;
      a ← sys (rpc_answer id r.1 r.2);
      if a =? 0 then set_errno 0;; mret 0 else set_errno EINVAL;; mret (-1)
    else set_errno EINVAL;; mret (-1)
  else set_errno EINVAL;; mret (-1).

(** [rpc_list]: names up to the first that is missing. *)
Fixpoint rpc_list (fuel : nat) (i : Z) : M (list str) :=
  match fuel with
  | O => stop_with Hang
  | S fuel =>
      o ← sys (rpc_name i);
      match o with None => mret [] | Some n => r ← rpc_list fuel (i + 1); mret (r ++ [n]) end
  end.
End code.

(** ** Arguments survive *)

Section facts.
Context {W : Type} `{RC : RpcCalls W} `{GG : Garbage} (junk : arg).

(** The arguments fit the synopsis: numbers for its letters, strings for its dollars. *)
Inductive fits : str -> list arg -> Prop :=
| fits_nil : fits [] []
| fits_int c n sg v syn args : int_type c = Some (n, sg) -> fits syn args -> fits (c :: syn) (Word v :: args)
| fits_str x syn args : Forall (fun c => c <> 0) x -> fits syn args -> fits (DOLLAR :: syn) (Text x :: args).

(** A number as it arrives: cut to the size of its letter. *)
Definition narrow (c : Z) (a : arg) : arg :=
  match int_type c, a with
  | Some (n, sg), Word v => Word (extend n sg (w32 v mod 256 ^ Z.of_nat n))
  | _, _ => a
  end.

Lemma le_value_bytes n v : le_value (le_bytes n v) = v mod 256 ^ Z.of_nat n.
Proof.
  revert v. induction n as [|n IH]; intros v; [simpl; by rewrite Z.mod_1_r|].
  change (le_bytes (S n) v) with (w8 v :: le_bytes n (v / 256)). cbn [le_value foldr]. fold (le_value (le_bytes n (v / 256))).
  rewrite IH, Nat2Z.inj_succ, Z.pow_succ_r by lia. unfold w8.
  by rewrite Z.rem_mul_r by (try apply Z.pow_pos_nonneg; lia).
Qed.

(** The bytes of arguments that fit. *)
Fixpoint packed (syn : str) (args : list arg) : list Z :=
  match syn, args with
  | c :: syn, Word v :: args => le_bytes (match int_type c with Some (n, _) => n | None => 0 end) (w32 v) ++ packed syn args
  | _ :: syn, Text x :: args => x ++ 0 :: packed syn args
  | _, _ => []
  end.

Lemma pack_args_ok syn args (s : libc W) : fits syn args -> pack_args junk syn args s = Ret (packed syn args) s.
Proof.
  induction 1 as [|c n sg v syn args Hc _ E|x syn args Hx _ E]; [done|..]; cbn [pack_args tail packed].
  - unfold pack_arg. rewrite Hc, bind_ret, (bind_Ret _ _ _ _ _ E). done.
  - change (pack_arg DOLLAR (Text x)) with (mret (x ++ [0]) : cmd (libc W) (list Z)).
    rewrite bind_ret, (bind_Ret _ _ _ _ _ E). by rewrite <- (assoc_L (++)).
Qed.

Lemma unpack_args_ok syn args (s : libc W) : fits syn args -> forall tl,
  unpack_args syn (packed syn args ++ tl) s = Ret (Some <$> zip_with narrow syn args) s.
Proof.
  induction 1 as [|c n sg v syn args Hc _ U|x syn args Hx _ U]; intros tl; [done|..]; cbn [packed unpack_args].
  - unfold unpack_arg. rewrite Hc, <- (assoc_L (++)). rewrite length_app, le_bytes_length.
    rewrite (proj2 (Nat.ltb_ge _ _)) by lia. rewrite bind_ret. cbn [fst snd].
    rewrite take_app_length', drop_app_length' by (by rewrite le_bytes_length).
    rewrite (bind_Ret _ _ _ _ _ (U tl)), le_value_bytes. cbn [zip_with fmap list_fmap]. unfold narrow at 2. by rewrite Hc.
  - change (unpack_arg DOLLAR) with (fun b => match cstring b with
      | Some x => mret (Some (Text x), drop (length x + 1) b) | None => stop_with OutOfBounds end : cmd (libc W) (option arg * list Z)).
    cbv beta. rewrite <- (assoc_L (++)). change ((0 :: packed syn args) ++ tl) with (0 :: packed syn args ++ tl).
    rewrite cstring_app by done.
    rewrite bind_ret. cbn [fst snd]. rewrite drop_app_ge by lia. replace (length x + 1 - length x)%nat with 1%nat by lia.
    change (drop 1 (0 :: packed syn args ++ tl)) with (packed syn args ++ tl). by rewrite (bind_Ret _ _ _ _ _ (U tl)).
Qed.

Lemma all_set_ok xs (s : libc W) : all_set (Some <$> xs) s = Ret xs s.
Proof. induction xs as [|x xs IH]; [done|]. cbn [fmap list_fmap all_set]. by rewrite (bind_Ret _ _ _ _ _ IH). Qed.

(** The function keeps the kinds of its arguments and the lengths of its strings. *)
Definition in_place (old new : arg) : Prop :=
  match old, new with
  | Word _, Word _ => True
  | Text x, Text y => length y = length x /\ Forall (fun c => c <> 0) y
  | _, _ => False
  end.

(** Of what the function has done to its arguments the caller sees the strings. *)
Definition seen (old new : arg) : arg := match old with Word _ => old | Text _ => new end.

Lemma fits_seen syn args : fits syn args -> forall new, Forall2 in_place (zip_with narrow syn args) new ->
  fits syn (zip_with seen args new).
Proof.
  induction 1 as [|c n sg v syn args Hc _ IH|x syn args Hx _ IH]; intros new Hn; cbn [zip_with] in *.
  - inversion Hn. constructor.
  - inversion Hn as [|? y ? ys Hy Hys]; subst. cbn [zip_with seen]. econstructor; eauto.
  - inversion Hn as [|? y ? ys Hy Hys]; subst. cbn [zip_with seen].
    change (narrow DOLLAR (Text x)) with (Text x) in Hy. destruct y as [|y]; [done|]. destruct Hy. constructor; auto.
Qed.

Lemma write_back_ok syn args : fits syn args -> forall new pre tl, Forall2 in_place (zip_with narrow syn args) new ->
  write_back syn (zip_with narrow syn args) new (Z.of_nat (length pre)) (pre ++ packed syn args ++ tl) =
  pre ++ packed syn (zip_with seen args new) ++ tl.
Proof.
  induction 1 as [|c n sg v syn args Hc _ IH|x syn args Hx _ IH]; intros new pre tl Hn; cbn [zip_with packed] in *.
  - done.
  - inversion Hn as [|? y ? ys Hy Hys]; subst. cbn [zip_with seen write_back packed]. rewrite Hc.
    replace (Z.of_nat (length pre) + Z.of_nat n) with (Z.of_nat (length (pre ++ le_bytes n (w32 v))))
      by (rewrite length_app, le_bytes_length; lia).
    rewrite <- !(assoc_L (++)), !(assoc_L (++) pre). by apply IH.
  - inversion Hn as [|? y ? ys Hy Hys]; subst. change (narrow DOLLAR (Text x)) with (Text x) in *.
    destruct y as [|y]; [done|]. destruct Hy as [Hl Hy]. cbn [zip_with seen write_back packed].
    change (int_type DOLLAR) with (@None (nat * bool)). cbv iota.
    assert (E : splice (pre ++ (x ++ 0 :: packed syn args) ++ tl) (Z.of_nat (length pre)) (y ++ [0]) =
      (pre ++ y ++ [0]) ++ packed syn args ++ tl).
    { unfold splice. rewrite Nat2Z.id, take_app_length, drop_app_ge by lia.
      replace (x ++ 0 :: packed syn args) with ((x ++ [0]) ++ packed syn args) by (by rewrite <- (assoc_L (++))).
      rewrite <- (assoc_L (++) (x ++ [0])), drop_app_length' by (rewrite !length_app, Hl; cbn [length]; lia).
      by rewrite <- !(assoc_L (++)). }
    rewrite E. replace (Z.of_nat (length pre) + Z.of_nat (length x) + 1) with (Z.of_nat (length (pre ++ y ++ [0])))
      by (rewrite !length_app; cbn [length]; lia).
    rewrite IH by done. by rewrite <- !(assoc_L (++)).
Qed.

Lemma copy_back_ok syn args (s : libc W) : fits syn args -> forall new, Forall2 in_place (zip_with narrow syn args) new ->
  copy_back args (Some <$> zip_with narrow syn (zip_with seen args new)) s = Ret (zip_with seen args new) s.
Proof.
  induction 1 as [|c n sg v syn args Hc _ IH|x syn args Hx _ IH]; intros new Hn; cbn [zip_with] in *; [done|..];
    inversion Hn as [|? y ? ys Hy Hys]; subst; cbn [zip_with seen fmap list_fmap copy_back].
  - by rewrite (bind_Ret _ _ _ _ _ (IH _ Hys)).
  - change (narrow DOLLAR (Text x)) with (Text x) in Hy. destruct y as [|y]; [done|]. destruct Hy as [Hl Hy].
    change (narrow DOLLAR (Text y)) with (Text y). cbv iota. rewrite (proj2 (Nat.ltb_ge _ _)) by lia.
    by rewrite (bind_Ret _ _ _ _ _ (IH _ Hys)).
Qed.


(** A call without a result is never seen to be done: the library sends it a hundred
    times and reports an error. *)
Theorem noret_sends_hundredfold name args id paramsz syn b e w w1 step :
  rpc_getinfo (-1) (Some name) 0 false false w = Ret (id, paramsz, syn) w1 -> 0 <= id ->
  pack_args junk syn args (Libc e w1) = Ret b (Libc e w1) -> Z.of_nat (length b) <= paramsz ->
  (forall buf w, rpc_send id buf false false w = Ret None (step w)) ->
  rpc_vcall junk name RPC_FLAG_NORET args (Libc e w) = Ret (-1, args) (Libc EINVAL (Nat.iter 100 step w1)).
Proof.
  intros Hi Hid E Hsz Hsend. unfold rpc_vcall. cbv zeta.
  change (flag RPC_FLAG_NORET RPC_FLAG_SENDTO) with false. change (flag RPC_FLAG_NORET RPC_FLAG_NORET) with true.
  change (flag RPC_FLAG_NORET RPC_FLAG_RETPARAMS) with false. cbv iota.
  assert (sendto0 : (match args with Word _ :: _ => 0 | _ => 0 end) = 0) by (by destruct args as [|[]]). rewrite sendto0.
  rewrite (bind_Ret _ _ _ (id, paramsz, syn) (Libc e w1)) by (unfold sys; simpl; by rewrite Hi). cbv iota.
  rewrite (proj2 (Z.leb_le 0 id) Hid), (bind_Ret _ _ _ _ _ E), (proj2 (Z.ltb_ge paramsz _)) by lia.
  assert (L : forall n buf w, call_loop n id true false 0 1 buf (Libc e w) = Ret (0, 1, buf) (Libc e (Nat.iter n step w))).
  { induction n as [|n IH]; intros buf w'; [done|]. cbn [call_loop Z.eqb negb andb].
    rewrite (bind_Ret _ _ _ None (Libc e (step w'))) by (unfold sys; simpl; by rewrite Hsend).
    rewrite IH. do 2 f_equal. symmetry. apply Nat.iter_succ_r. }
  by rewrite (bind_Ret _ _ _ _ _ (L _ _ w1)).
Qed.
End facts.

(** ** A server *)

Module Demo.
#[local] Existing Instance Cache.Disk.zero_garbage.

(** The function adds its number and the length of its string, in which it replaces every
    character by "x"; the state counts calls.  Its synopsis is "b$", its buffer has eight bytes. *)
Definition add (args : list arg) : cmd Z (Z * list arg) := fun n =>
  match args with
  | [Word v; Text x] => Ret (v + Z.of_nat (length x), [Word v; Text (replicate (length x) 120)]) (n + 1)
  | _ => Ret (-1, args) (n + 1)
  end.

#[local] Instance demo : RpcCalls Z := {|
  getpid := 1;
  rpc_getinfo _ _ _ _ _ := mret (5, 8, [98; DOLLAR]);
  rpc_send _ _ _ _ := fun n => Ret None (n + 1);
  rpc_take _ := mret (-1, 0, [], 0);
  rpc_answer _ _ _ := mret 0;
  rpc_function _ := add;
  rpc_create _ _ _ _ := mret 5;
  rpc_destroy _ := mret 0;
  rpc_name _ := mret None;
|}.


(** A hundred calls. *)
Example noret_hundred : rpc_vcall (Word 0) [97] RPC_FLAG_NORET [Word 3; Text [65; 66]] (Libc 0 0) =
  Ret (-1, [Word 3; Text [65; 66]]) (Libc EINVAL 100).
Proof. vm_compute. reflexivity. Qed.

(** A string that the function has shortened is read up to its new end; what follows it
    in the buffer is taken for the next argument. *)
Example shortened_string_shifts :
  match unpack_args (W := Z) [DOLLAR; 98] (write_back [DOLLAR; 98] [Text [65; 66]; Word 7] [Text []; Word 7] 0 [65; 66; 0; 7]) (Libc 0 0) with
  | Ret xs _ => xs = [Some (Text []); Some (Word 66)]
  | Stop _ _ => False
  end.
Proof. vm_compute. reflexivity. Qed.
End Demo.
