(* ===== verification/Stdio.v ===== *)
(** * Streams (apps/lib/stdlibc/stdio.c, apps/include/stdio.h)

    A stream is a file number with a buffer of [BUFSIZ] bytes for what is to be written;
    reading is not buffered.  The streams are on a heap, the file functions below are
    those of Files.

    [stream_refines] is what a stream for writing promises: it looks like a file with a
    position, although nothing may have reached the file yet.  [fgets_reads_line] is the
    reading side. *)

From S2P Require Import Prelude LList Machine CString Path Cache Pack Ramdisk RamdiskFs Vfs Fs AppIpc AppEnv Files FilesSpec FilesFs.

(** ** Data *)

Definition BUFSIZ : Z := 2 * 1024.
Definition EOF : Z := -1.
Definition O_TRUNC : Z := 32.
Definition STDIN_FILENO : Z := 0.
Definition STDOUT_FILENO : Z := 1.
Definition STDERR_FILENO : Z := 2.

(** [buf] is the block of the buffer and [bufcur] the offset of the pointer in it. *)
Record FILE := Stream {
  fh : Z;
  error : Z;
  oflag : Z;
  eof : bool;
  buf : list Z;
  bufcur : Z;
  dobuf : bool;
}.

Record io (W : Type) := Io {
  streams : gmap Z FILE;
  stdin : Z;
  stdout : Z;
  stderr : Z;
  tmp_num : Z;
  lower : lib W;
}.
Arguments Io {W}.
Arguments streams {W}.
Arguments stdin {W}.
Arguments stdout {W}.
Arguments stderr {W}.
Arguments tmp_num {W}.
Arguments lower {W}.

Section code.
Context {W : Type} `{SC : ShmCalls W} `{SV : Servers W} `{MM : Malloc} `{GG : Garbage}.
(** What an argument holds that is not passed. *)
Context (junk : Z).
Abbreviation M A := (cmd (io W) A).

Definition set_streams (m : gmap Z FILE) (s : io W) : io W :=
  Io m (stdin s) (stdout s) (stderr s) (tmp_num s) (lower s).
Definition set_lower (l : lib W) (s : io W) : io W :=
  Io (streams s) (stdin s) (stdout s) (stderr s) (tmp_num s) l.

Definition file {A} (c : cmd (lib W) A) : M A := fun s =>
  match c (lower s) with
  | Ret x l => Ret x (set_lower l s)
  | Stop r l => Stop r (set_lower l s)
  end.

Definition stream_at (p : Z) : M FILE := fun s =>
  if p =? NULL then Stop NullDeref s
  else match streams s !! p with Some f => Ret f s | None => Stop UseAfterFree s end.

Definition put_stream (p : Z) (f : FILE) : M unit := modify (fun s => set_streams (<[p := f]> (streams s)) s).

(** [check_stream]: the macro, with the value read. *)
Definition check_stream (p : Z) : M bool :=
  if p =? NULL then mret false else f ← stream_at p; mret (0 <=? fh f).

(** The same round for every byte, and two more: a server that takes or gives at least
    one byte each time needs no more. *)
Definition turns (n : Z) : nat := Z.to_nat (n + 2).

Definition create_stream (fh oflag : Z) : M Z := fun s =>
  let p := malloc (dom (streams s)) in
  Ret p (set_streams (<[p := Stream fh 0 oflag false (garbage BUFSIZ) 0 true]> (streams s)) s).

Definition char (c : list Z) (i : nat) : Z := nth i c 0.

Definition oflag_str2num (oflag : str) : Z :=
  let m := if char oflag 0 =? 114 then O_RDONLY
           else if char oflag 0 =? 119 then Z.lor (Z.lor O_CREAT O_WRONLY) O_TRUNC
           else if char oflag 0 =? 97 then Z.lor (Z.lor O_CREAT O_APPEND) O_TRUNC
           else -1 in
  if (char oflag 1 =? 43) && negb (m =? -1) then Z.lor m (Z.lor O_RDONLY O_WRONLY) else m.

(** ** Writing *)

Definition fflush (p : Z) : M Z :=
  f ← stream_at p;
  if dobuf f then
    ret ← file (write (turns (bufcur f)) (fh f) (take (Z.to_nat (bufcur f)) (buf f)));
    let short := (0 <? ret) && (ret <? bufcur f) in
    put_stream p (Stream (fh f) (error f) (oflag f) (short || eof f) (buf f) 0 (dobuf f));;
    mret (if short then EOF else ret)
  else mret 0.

Definition has_newline (x : list Z) : bool := existsb (fun c => c =? 10) x.

(** The result is a [size_t]. *)
Definition _fwrite (ptr : list Z) (p : Z) : M Z :=
  let size := Z.of_nat (length ptr) in
  if size =? 0 then mret 0
  else
    ok ← check_stream p;
    if ok : bool then
      f ← stream_at p;
      if flag (oflag f) O_WRONLY then
        if dobuf f then
          (if BUFSIZ <? bufcur f + size then fflush p;; mret tt else mret tt);;
          let size := if BUFSIZ <? size then BUFSIZ else size in
          let data := take (Z.to_nat size) ptr in
          f ← stream_at p;
          put_stream p (Stream (fh f) (error f) (oflag f) (eof f) (splice (buf f) (bufcur f) data) (bufcur f + size) (dobuf f));;
          (if has_newline data then fflush p;; mret tt else mret tt);;
          mret size
        else
          ret ← file (write (turns size) (fh f) ptr);
          (if (0 <? ret) && (ret <? bufcur f)
           then put_stream p (Stream (fh f) (error f) (oflag f) true (buf f) (bufcur f) (dobuf f)) else mret tt);;
          mret (w32 ret)
      else
        put_stream p (Stream (fh f) (error f) (oflag f) true (buf f) (bufcur f) (dobuf f));;
        mret 0
    else file (put_errno EBADF);; mret (w32 (-1)).

Definition fputc (c p : Z) : M Z := r ← _fwrite [w8 c] p; mret (if r =? 1 then c else EOF).
Definition fputs (x : str) (p : Z) : M Z := r ← _fwrite x p; mret (s32 r).
Definition fwrite (ptr : list Z) (p : Z) : M Z := _fwrite ptr p.
Definition putchar (c : Z) : M Z := s ← Machine.gets Datatypes.id; fputc c (stdout s).

Definition puts (x : str) : M Z :=
  s ← Machine.gets Datatypes.id;
  ret ← fputs x (stdout s);
  if 0 <? ret then putchar 10;; mret (ret + 1) else mret ret.

(** ** Opening and closing *)

(** The result is -1 in every case. *)
Definition fclose (p : Z) : M Z :=
  ok ← check_stream p;
  (if ok : bool then
     r ← fflush p;
     if r =? 0 then
       f ← stream_at p;
       r ← file (close junk (fh f));
       if r =? 0 then modify (fun s => set_streams (delete p (streams s)) s) else mret tt
     else mret tt
   else file (put_errno EBADF));;
  mret (-1).

Definition fdopen (fh : Z) (oflag : str) : M Z := create_stream fh (oflag_str2num oflag).

Definition fileno (p : Z) : M Z :=
  ok ← check_stream p;
  if ok : bool then f ← stream_at p; mret (fh f) else file (put_errno EBADF);; mret 0.

Definition fopen (name oflag : str) : M Z :=
  let m := oflag_str2num oflag in
  if 0 <? m then
    n ← file (open junk name m 511);
    if 0 <=? n then
      (if flag m O_TRUNC then file (ftruncate n 0) else mret 0);;
      create_stream n m
    else mret NULL
  else mret NULL.

(** The mode is not passed to [open]. *)
Definition freopen (filename mode : str) (p : Z) : M Z :=
  ok ← check_stream p;
  if ok : bool then
    fflush p;;
    f ← stream_at p;
    file (close junk (fh f));;
    let m := oflag_str2num mode in
    n ← file (open junk filename m junk);
    f ← stream_at p;
    put_stream p (Stream n 0 m false (buf f) (bufcur f) (dobuf f));;
    mret p
  else file (put_errno EBADF);; mret NULL.

Definition stdio_exit : M unit :=
  s ← Machine.gets Datatypes.id;
  fflush (stdout s);; fflush (stderr s);;
  fclose (stdin s);; fclose (stdout s);; fclose (stderr s);; mret tt.

(** [atexit] is left out. *)
Definition _stdio_init : M unit :=
  a ← create_stream STDIN_FILENO O_RDONLY;
  b ← create_stream STDOUT_FILENO O_WRONLY;
  c ← create_stream STDERR_FILENO O_WRONLY;
  modify (fun s => Io (streams s) a b c (tmp_num s) (lower s)).

(** ** State of a stream *)

Definition clearerr (p : Z) : M unit :=
  f ← stream_at p; put_stream p (Stream (fh f) 0 (oflag f) (eof f) (buf f) (bufcur f) (dobuf f)).

Definition feof (p : Z) : M bool :=
  ok ← check_stream p;
  if ok : bool then f ← stream_at p; mret (eof f) else file (put_errno EBADF);; mret false.

Definition ferror (p : Z) : M Z :=
  ok ← check_stream p;
  if ok : bool then f ← stream_at p; mret (error f) else file (put_errno EBADF);; mret 0.

(** "/tmp/" and four hexadecimal digits at least; the counter is kept between calls. *)
Definition hex_digit (d : Z) : Z := if d <? 10 then 48 + d else 87 + d.

Fixpoint hex (n : nat) (v : Z) : str :=
  match n with O => [] | S n => hex n (v / 16) ++ [hex_digit (v mod 16)] end.

Definition P_tmpdir : str := [47; 116; 109; 112].

Definition tmpnam : M str := fun s =>
  let n := tmp_num s in
  let width := if n <? 65536 then 4%nat else if n <? 1048576 then 5%nat else if n <? 16777216 then 6%nat
               else if n <? 268435456 then 7%nat else 8%nat in
  Ret (P_tmpdir ++ [47] ++ hex width n)
      (Io (streams s) (stdin s) (stdout s) (stderr s) (w32 (n + 1)) (lower s)).

(** ** Positions *)

Definition fseeko (p offset whence : Z) : M Z :=
  fflush p;;
  f ← stream_at p;
  r ← file (lseek (fh f) offset whence);
  mret (if r =? offset then 0 else -1).
Definition fseek (p offset whence : Z) : M Z := fseeko p offset whence.
Definition ftello (p : Z) : M Z := f ← stream_at p; file (lseek (fh f) 0 SEEK_CUR).
Definition ftell (p : Z) : M Z := fflush p;; ftello p.
Definition rewind (p : Z) : M unit := fseek p 0 SEEK_SET;; mret tt.

(** The result and the position. *)
Definition fgetpos (p : Z) : M (Z * option Z) :=
  ok ← check_stream p;
  if ok : bool then r ← ftello p; mret (0, Some r) else file (put_errno EBADF);; mret (-1, None).

Definition fsetpos (p pos : Z) : M Z :=
  ok ← check_stream p;
  if ok : bool then fseeko p pos SEEK_SET;; mret 0 else file (put_errno EBADF);; mret (-1).

(** ** Reading *)

(** [ptr] is the block of the caller, [size] how much of it is wanted; the result, a
    [size_t], and the block. *)
Definition _fread (ptr : list Z) (size : Z) (p : Z) : M (Z * list Z) :=
  ok ← check_stream p;
  if ok : bool then
    f ← stream_at p;
    r ← file (read (turns size) (fh f) ptr size);
    if 0 <? r.1 then
      (if r.1 <? size then
         f ← stream_at p; put_stream p (Stream (fh f) (error f) (oflag f) true (buf f) (bufcur f) (dobuf f))
       else mret tt);;
      mret r
    else mret (w32 (-1), r.2)
  else file (put_errno EBADF);; mret (w32 (-1), ptr).

Definition fread (ptr : list Z) (size nitems p : Z) : M (Z * list Z) := _fread ptr (w32 (size * nitems)) p.

(** A [char] is signed; -1 is also what it holds if nothing was read. *)
Definition fgetc (p : Z) : M Z :=
  r ← _fread [255] 1 p;
  let c := s8 (char r.2 0) in
  (if c =? EOF then f ← stream_at p; put_stream p (Stream (fh f) (error f) (oflag f) true (buf f) (bufcur f) (dobuf f))
   else mret tt);;
  mret c.

Definition getchar : M Z := s ← Machine.gets Datatypes.id; fgetc (stdin s).

(** The loop of [fgets]; [acc] is what is in front of the place [i]. *)
Fixpoint fgets_loop (n : nat) (p : Z) (acc : str) : M (option str) :=
  match n with
  | O => mret (Some acc)
  | S n =>
      c ← fgetc p;
      if c =? EOF then mret (Some acc)
      else
        e ← file get_errno;
        if 0 <? e then
          f ← stream_at p;
          put_stream p (Stream (fh f) e (oflag f) (eof f) (buf f) (bufcur f) (dobuf f));; mret None
        else if (c =? 0) || (c =? 10) then mret (Some acc)
        else fgets_loop n p (acc ++ [w8 c])
  end.

(** The string; [None] is NULL. *)
Definition fgets (n p : Z) : M (option str) :=
  ok ← check_stream p;
  if ok : bool then fgets_loop (Z.to_nat (n - 1)) p []
  else file (put_errno EBADF);; mret None.

Definition gets : M (option str) := s ← Machine.gets Datatypes.id; fgets BUFSIZ (stdin s).

(** Not implemented in the source. *)
Definition fscanf : M Z := mret 0.
Definition ungetc (c p : Z) : M Z := mret 0.
End code.

(** ** A stream for writing *)

Inductive stream_request := Fwrite (data : list Z) | Fseek (off whence : Z) | Ftell.

(** Where a seek in contents [c] at position [q] goes. *)
Definition seek_target (off whence : Z) (c : list Z) (q : Z) : option Z :=
  if whence =? SEEK_SET then Some off
  else if whence =? SEEK_CUR then Some (q + off)
  else if whence =? SEEK_END then Some (Z.of_nat (length c) + off) else None.

(** The file with contents [c] at position [q]: the results, the contents and position
    afterwards.  It is defined for pieces of at most [BUFSIZ] bytes, seeks inside the file
    and files below 2 GB.  The result of a seek is not that of the C library: it is 0
    only if the new position is the offset that was passed. *)
Definition stream_spec (r : stream_request) (st : list Z * Z) : option (Z * (list Z * Z)) :=
  let '(c, q) := st in
  match r with
  | Fwrite data =>
      let k := Z.of_nat (length data) in
      if (k <=? BUFSIZ) && (q + k <? 2147483648) then Some (k, (splice c q data, q + k)) else None
  | Fseek off whence =>
      t ← seek_target off whence c q;
      if (0 <=? t) && (t <=? Z.of_nat (length c)) && (t <? 2147483648)
      then Some (if t =? off then 0 else -1, (c, t)) else None
  | Ftell => Some (q, (c, q))
  end.

Fixpoint stream_spec_all (rs : list stream_request) (st : list Z * Z) : option (list Z * (list Z * Z)) :=
  match rs with
  | [] => Some ([], st)
  | r :: rs => x ← stream_spec r st; y ← stream_spec_all rs x.2; Some (x.1 :: y.1, y.2)
  end.

Section write.
Context {W : Type} `{RS : RootServer W} `{MM : Malloc} `{GG : Garbage} (junk : Z).

Definition stream_run (p : Z) (r : stream_request) : cmd (io W) Z :=
  match r with
  | Fwrite data => fwrite data p
  | Fseek off whence => fseek p off whence
  | Ftell => ftell p
  end.

Fixpoint stream_run_all (p : Z) (rs : list stream_request) : cmd (io W) (list Z) :=
  match rs with
  | [] => mret []
  | r :: rs => x ← stream_run p r; xs ← stream_run_all p rs; mret (x :: xs)
  end.

Section stream.
Context (dir : path_t) (p fd a : Z) (others : Z -> option (list Z)).

(** Stream [p] with the number [fd] stands for the file [a] with contents [c] at position
    [q]: [x] is in the buffer, and file and server are at the position before it.
    [others] are the contents of the other files. *)
Record stands (s : io W) (x c : list Z) (q : Z) : Prop := Stands {
  st_ptr : p <> NULL;
  st_file : exists f, streams s !! p = Some f /\ (fh f = fd /\ 0 <= fh f) /\ flag (oflag f) O_WRONLY = true /\ dobuf f = true /\
    length (buf f) = Z.to_nat BUFSIZ /\ bufcur f = Z.of_nat (length x) /\ Z.of_nat (length x) <= BUFSIZ /\
    take (length x) (buf f) = x /\
    exists A t v q0 c0, shows dir A t (lower s) v /\ fds v !! fh f = Some (a, q0) /\ contents v a = Some c0 /\
      0 <= q0 <= Z.of_nat (length c0) /\ c = splice c0 q0 x /\ q = q0 + Z.of_nat (length x) /\ q < 2147483648 /\
      forall b, b <> a -> contents v b = others b;
}.

Lemma stream_at_ok f (s : io W) : p <> NULL -> streams s !! p = Some f -> stream_at p s = Ret f s.
Proof. intros Hp Hf. unfold stream_at. rewrite (proj2 (Z.eqb_neq _ _) Hp). by rewrite Hf. Qed.

Lemma file_ok {A} (c : cmd (lib W) A) (s : io W) x l : c (lower s) = Ret x l -> file c s = Ret x (set_lower l s).
Proof. intros E. unfold file. by rewrite E. Qed.

Lemma turns_enough n : 0 <= n -> n <= SHMMEM_SIZE * (Z.of_nat (turns n) - 1).
Proof. intros Hn. unfold turns, SHMMEM_SIZE. lia. Qed.

Lemma length_splice_end c q x : 0 <= q <= Z.of_nat (length c) -> q + Z.of_nat (length x) <= Z.of_nat (length (splice c q x)).
Proof. intros H. unfold splice. rewrite !length_app, length_take. lia. Qed.

Lemma stands_pos s x c q : stands s x c q -> 0 <= q <= Z.of_nat (length c).
Proof.
  intros [_ (f & _ & _ & _ & _ & _ & _ & _ & _ & A & t & v & q0 & c0 & _ & _ & _ & Hq & -> & -> & _)].
  pose proof (length_splice_end c0 q0 x Hq). lia.
Qed.

(** Flushing empties the buffer into the file. *)
Lemma fflush_ok s x c q : stands s x c q ->
  exists r s', fflush p s = Ret r s' /\ stands s' [] c q.
Proof.
  intros [Hp (f & Hf & (Hfd & Hfh) & Hw & Hd & Hl & Hc & Hx & Ht & A & t & v & q0 & c0 & R & Hv & Hc0 & Hq & -> & -> & Hlt & Ho)].
  unfold fflush. rewrite (bind_Ret _ _ _ _ _ (stream_at_ok _ _ Hp Hf)), Hd, Hc, Nat2Z.id, Ht.
  assert (Hsp : spec (W := W) dir (Write (fh f) x) v = Some (Z.of_nat (length x), [],
    View (<[fh f := (a, q0 + Z.of_nat (length x))]> (fds v))
      (fun b => if decide (b = a) then Some (splice c0 q0 x) else contents v b) (next_fd v))).
  { cbn [spec]. rewrite Hv, Hc0. simpl. rewrite (proj2 (Z.leb_le _ _)), (proj2 (Z.ltb_lt _ _)) by lia. done. }
  destruct (write_answers (turns (Z.of_nat (length x))) _ _ _ _ _ _ _ _ _ _ R Hsp (turns_enough _ (Nat2Z.is_nonneg _)))
    as (_ & A' & t' & l & E & R').
  rewrite (bind_Ret _ _ _ _ _ (file_ok _ _ _ _ E)), Z.ltb_irrefl, andb_false_r. unfold put_stream. rewrite bind_modify.
  eexists _, _. split; [reflexivity|]. split; [done|].
  exists (Stream (fh f) (error f) (oflag f) (eof f) (buf f) 0 true). cbn. rewrite lookup_insert_eq.
  split_and!; try done. exists A', t'. eexists _, (q0 + Z.of_nat (length x)), (splice c0 q0 x).
  pose proof (length_splice_end c0 q0 x Hq).
  split_and!; [exact R'|by cbn; rewrite lookup_insert_eq|by cbn; rewrite decide_True|lia|lia|by rewrite splice_nil by lia|cbn; lia|lia|].
  intros b Hb. cbn. rewrite decide_False by done. by apply Ho.
Qed.

(** Appending to the buffer. *)
Lemma append_ok s x c q f d : stands s x c q -> streams s !! p = Some f ->
  Z.of_nat (length x) + Z.of_nat (length d) <= BUFSIZ -> q + Z.of_nat (length d) < 2147483648 ->
  stands (set_streams (<[p := Stream (fh f) (error f) (oflag f) (eof f) (splice (buf f) (bufcur f) d)
    (bufcur f + Z.of_nat (length d)) (dobuf f)]> (streams s)) s) (x ++ d) (splice c q d) (q + Z.of_nat (length d)).
Proof.
  intros [Hp (f' & Hf & (Hfd & Hfh) & Hw & Hd & Hl & Hc & Hx & Ht & A & t & v & q0 & c0 & R & Hv & Hc0 & Hq & -> & -> & Hlt & Ho)].
  intros Hf' Hd1 Hd2. rewrite Hf in Hf'. injection Hf' as <-. split; [done|]. eexists. cbn. rewrite lookup_insert_eq.
  split; [reflexivity|]. cbn. assert (HB : BUFSIZ = 2048) by reflexivity.
  split_and!; try done.
  - rewrite length_splice by lia. done.
  - rewrite length_app. lia.
  - rewrite length_app. lia.
  - rewrite Hc. unfold splice. rewrite Nat2Z.id, Ht, (assoc_L (++)). by rewrite take_app_length.
  - exists A, t, v, q0, c0. split_and!; try done; [lia|lia|by rewrite splice_app|rewrite length_app; lia].
Qed.

Lemma _fwrite_ok s x c q data k c' q' : stands s x c q ->
  stream_spec (Fwrite data) (c, q) = Some (k, (c', q')) ->
  exists s' x', fwrite data p s = Ret k s' /\ stands s' x' c' q'.
Proof.
  intros R Hsp. cbn [stream_spec] in Hsp. case_match eqn:Hlt; [|done]. injection Hsp as <- <- <-. zbool.
  pose proof (stands_pos _ _ _ _ R) as Hq. unfold fwrite, _fwrite. cbv zeta.
  destruct (Z.eqb_spec (Z.of_nat (length data)) 0) as [Hz|Hz].
  { destruct data; [|done]. exists s, x. split; [done|]. simpl. by rewrite Z.add_0_r, splice_nil. }
  destruct (st_file _ _ _ _ R) as (f & Hf & (Hfd & Hfh) & Hw & Hd & _ & Hc & Hx & _).
  pose proof (st_ptr _ _ _ _ R) as Hp.
  rewrite (bind_Ret _ _ s true s); cycle 1.
  { unfold check_stream. rewrite (proj2 (Z.eqb_neq _ _) Hp). rewrite (bind_Ret _ _ _ _ _ (stream_at_ok _ _ Hp Hf)).
    by rewrite (proj2 (Z.leb_le _ _) Hfh). }
  rewrite (bind_Ret _ _ _ _ _ (stream_at_ok _ _ Hp Hf)), Hw, Hd, Hc.
  assert (HB : BUFSIZ = 2048) by reflexivity. rewrite (proj2 (Z.ltb_ge BUFSIZ (Z.of_nat (length data)))) by lia.
  assert (exists s1 x1, ((if BUFSIZ <? Z.of_nat (length x) + Z.of_nat (length data) then fflush p;; mret tt else mret tt) s
     = Ret tt s1) /\ stands s1 x1 c q /\ Z.of_nat (length x1) + Z.of_nat (length data) <= BUFSIZ) as (s1 & x1 & E1 & R1 & L1).
  { destruct (Z.ltb_spec BUFSIZ (Z.of_nat (length x) + Z.of_nat (length data))).
    - destruct (fflush_ok _ _ _ _ R) as (r & s1 & E & R1). exists s1, []. rewrite (bind_Ret _ _ _ _ _ E).
      split_and!; try done; cbn [length]; lia.
    - exists s, x. split_and!; try done. }
  rewrite (bind_Ret _ _ _ _ _ E1), Nat2Z.id, firstn_all. destruct (st_file _ _ _ _ R1) as (f1 & Hf1 & _).
  rewrite (bind_Ret _ _ _ _ _ (stream_at_ok _ _ Hp Hf1)). unfold put_stream. rewrite bind_modify.
  pose proof (append_ok _ _ _ _ _ data R1 Hf1 L1 ltac:(lia)) as R2.
  destruct (has_newline data); [|by eexists _, _].
  destruct (fflush_ok _ _ _ _ R2) as (r & s3 & E3 & R3). exists s3, [].
  by rewrite bind_assoc, (bind_Ret _ _ _ _ _ E3).
Qed.

Lemma lseek_ok s x c q f off whence r : stands s x c q -> x = [] -> streams s !! p = Some f ->
  seek_target off whence c q = Some r -> 0 <= r <= Z.of_nat (length c) -> r < 2147483648 ->
  exists s', file (lseek (fh f) off whence) s = Ret r s' /\ stands s' [] c r.
Proof.
  intros [Hp (f' & Hf & (Hfd & Hfh) & Hw & Hd & Hl & Hc & Hx & Ht & A & t & v & q0 & c0 & R & Hv & Hc0 & Hq & -> & -> & Hlt & Ho)] ->.
  rewrite splice_nil by done. cbn [length Z.of_nat]. rewrite !Z.add_0_r. intros Hf' Hwh Hr Hr2.
  rewrite Hf in Hf'. injection Hf' as <-.
  assert (Hsp : spec (W := W) dir (Lseek (fh f') off whence) v =
    Some (r, [], View (<[fh f' := (a, r)]> (fds v)) (contents v) (next_fd v))).
  { cbn [spec]. rewrite Hv, Hc0. unfold seek_target in Hwh. simpl.
    repeat case_match; try done; injection Hwh as ->; simpl;
      rewrite (proj2 (Z.leb_le _ _)), (proj2 (Z.ltb_lt _ _)) by lia; done. }
  destruct (run_lseek junk _ _ _ _ _ _ _ _ _ _ _ R Hsp) as (A' & t' & l & E & R').
  assert (E' : lseek (fh f') off whence (lower s) = Ret r l).
  { cbn [run] in E. unfold mbind, cmd_bind in E. destruct (lseek _ _ _ _); [|done]. injection E as -> ->. done. }
  rewrite (file_ok _ _ _ _ E'). eexists. split; [reflexivity|]. split; [done|]. exists f'. cbn. split_and!; try done.
  exists A', t'. eexists _, r, c0.
  split_and!; [exact R'|by cbn; rewrite lookup_insert_eq|done|lia|lia|by rewrite splice_nil by lia|cbn; lia|lia|done].
Qed.

Lemma stream_run_ok s x c q r k c' q' : stands s x c q ->
  stream_spec r (c, q) = Some (k, (c', q')) ->
  exists s' x', stream_run p r s = Ret k s' /\ stands s' x' c' q'.
Proof.
  intros R Hsp. destruct r as [data|off whence|]; cbn [stream_run]; [by eapply _fwrite_ok|..]; cbn [stream_spec] in Hsp.
  - destruct (seek_target off whence c q) as [r|] eqn:Er; [|done]. simpl in Hsp.
    case_match eqn:Hb; [|done]. zbool. injection Hsp as <- <- <-. unfold fseek, fseeko.
    destruct (fflush_ok _ _ _ _ R) as (n & s1 & E1 & R1).
    destruct (st_file _ _ _ _ R1) as (f & Hf & _).
    destruct (lseek_ok _ _ _ _ f off whence r R1 eq_refl Hf Er) as (s2 & E2 & R2); [lia|lia|].
    exists s2, []. rewrite (bind_Ret _ _ _ _ _ E1), (bind_Ret _ _ _ _ _ (stream_at_ok _ _ (st_ptr _ _ _ _ R1) Hf)).
    by rewrite (bind_Ret _ _ _ _ _ E2).
  - injection Hsp as <- <- <-. unfold ftell, ftello.
    destruct (fflush_ok _ _ _ _ R) as (n & s1 & E1 & R1).
    destruct (st_file _ _ _ _ R1) as (f & Hf & _).
    pose proof (stands_pos _ _ _ _ R1) as Hq.
    assert (Hlt : q < 2147483648).
    { by destruct (st_file _ _ _ _ R1) as (? & _ & _ & _ & _ & _ & _ & _ & _ & ? & ? & ? & ? & ? & _ & _ & _ & _ & _ & _ & ? & _). }
    destruct (lseek_ok _ _ _ _ f 0 SEEK_CUR q R1 eq_refl Hf) as (s2 & E2 & R2); [cbn; f_equal; lia|lia|lia|].
    exists s2, []. rewrite (bind_Ret _ _ _ _ _ E1), (bind_Ret _ _ _ _ _ (stream_at_ok _ _ (st_ptr _ _ _ _ R1) Hf)).
    by rewrite E2.
Qed.

Lemma stream_run_all_ok rs : forall s x c q out c' q', stands s x c q ->
  stream_spec_all rs (c, q) = Some (out, (c', q')) ->
  exists s' x', stream_run_all p rs s = Ret out s' /\ stands s' x' c' q'.
Proof.
  induction rs as [|r rs IH]; intros s x c q out c' q' R Hsp; cbn [stream_spec_all stream_run_all] in *.
  { injection Hsp as <- <- <-. by exists s, x. }
  destruct (stream_spec r (c, q)) as [[k [c1 q1]]|] eqn:E; [|done]. simpl in Hsp.
  destruct (stream_spec_all rs (c1, q1)) as [[ks [c2 q2]]|] eqn:Es; [|done]. simpl in Hsp. injection Hsp as <- <- <-.
  destruct (stream_run_ok _ _ _ _ _ _ _ _ R E) as (s1 & x1 & E1 & R1).
  destruct (IH _ _ _ _ _ _ _ R1 Es) as (s2 & x2 & E2 & R2). exists s2, x2.
  by rewrite (bind_Ret _ _ _ _ _ E1), (bind_Ret _ _ _ _ _ E2).
Qed.

End stream.

(** C11: A stream for writing is a file with a position: for every sequence of [fwrite] of at most
    [BUFSIZ] bytes, [fseek] from the start, the position or the end to a place inside the
    file, and [ftell], on a file below 2 GB, every byte is taken, the positions are those of
    the file, and after a last [fflush] the file holds exactly what was written, at the
    places where it was written; no other file has changed.  What has not been flushed is
    in the buffer.  ([fseek] returns -1 although it has moved the position, unless the new
    position equals the offset; [stream_spec] says so.) *)
Theorem stream_refines dir A t s v p f a q c rs out c' q' :
  p <> NULL -> streams s !! p = Some f -> 0 <= fh f -> flag (oflag f) O_WRONLY = true -> dobuf f = true ->
  length (buf f) = Z.to_nat BUFSIZ -> bufcur f = 0 ->
  shows dir A t (lower s) v -> fds v !! fh f = Some (a, q) -> contents v a = Some c ->
  0 <= q <= Z.of_nat (length c) -> q < 2147483648 ->
  stream_spec_all rs (c, q) = Some (out, (c', q')) ->
  exists s1 n s2 A' t' v', stream_run_all p rs s = Ret out s1 /\ fflush p s1 = Ret n s2 /\
    shows dir A' t' (lower s2) v' /\ contents v' a = Some c' /\ fds v' !! fh f = Some (a, q') /\
    (forall b, b <> a -> contents v' b = contents v b).
Proof.
  intros Hp Hf Hfh Hw Hd Hl Hb R Hv Hc Hq Hlt Hsp.
  assert (R0 : stands dir p (fh f) a (contents v) s [] c q).
  { split; [done|]. exists f. split_and!; try done. exists A, t, v, q, c.
    split_and!; try done; [lia|lia|by rewrite splice_nil|cbn; lia]. }
  destruct (stream_run_all_ok dir p (fh f) a (contents v) _ _ _ _ _ _ _ _ R0 Hsp) as (s1 & x & E1 & R1).
  destruct (fflush_ok _ _ _ _ _ _ _ _ _ R1) as (n & s2 & E2 & R2).
  destruct R2 as [_ (f2 & Hf2 & (<- & _) & _ & _ & _ & _ & _ & _ & A' & t' & v' & q0 & c0 & R' & Hv' & Hc' & Hq' & -> & -> & _ & Ho)].
  rewrite splice_nil by done. cbn [length Z.of_nat]. rewrite Z.add_0_r.
  exists s1, n, s2, A', t', v'. split_and!; try done.
Qed.
End write.

(** ** Reading a line *)

(** What [fgets] takes for the end of a line: a zero, a line feed, or a byte that is [EOF]. *)
Definition ends_line (c : Z) : bool := (c =? 0) || (c =? 10) || (c =? 255).

(** The line and how many bytes are read for it, if at most [n] fit. *)
Fixpoint next_line (n : nat) (rest : list Z) : str * Z :=
  match n, rest with
  | S n, c :: rest => if ends_line c then ([], 1) else let '(x, k) := next_line n rest in (c :: x, k + 1)
  | _, _ => ([], 0)
  end.

Section read.
Context {W : Type} `{RS : RootServer W} `{MM : Malloc} `{GG : Garbage}.
Context (dir : path_t) (p fd a : Z) (c : list Z) (v : view).
Context (Hp : p <> NULL) (Hfd : 0 <= fd) (Hc : contents v a = Some c) (Hlen : Z.of_nat (length c) < 2147483648)
  (Hbytes : Forall is_byte c).

(** Stream [p] reads file [a] at position [q]. *)
Definition at_position (s : io W) (q : Z) : Prop :=
  0 <= q <= Z.of_nat (length c) /\
  exists f A t, streams s !! p = Some f /\ fh f = fd /\
    shows dir A t (lower s) (View (<[fd := (a, q)]> (fds v)) (contents v) (next_fd v)).

Lemma check_stream_ok s q : at_position s q -> check_stream p s = Ret true s.
Proof.
  intros (_ & f & A & t & Hf & Hfh & _). unfold check_stream. rewrite (proj2 (Z.eqb_neq _ _) Hp).
  rewrite (bind_Ret _ _ _ _ _ (stream_at_ok p _ _ Hp Hf)), Hfh. by rewrite (proj2 (Z.leb_le _ _) Hfd).
Qed.

Lemma at_position_put s q f g : at_position s q -> streams s !! p = Some f -> fh g = fh f ->
  at_position (set_streams (<[p := g]> (streams s)) s) q.
Proof.
  intros (Hq & f' & A & t & Hf & Hfh & R) Hf' Hg. split; [done|]. exists g, A, t. cbn. rewrite lookup_insert_eq.
  split_and!; [done|congruence|done].
Qed.

(** The stream and what the file function leaves. *)
Lemma read_one s q : at_position s q ->
  exists f l, streams s !! p = Some f /\
    let x := take 1 (drop (Z.to_nat q) c) in
    file (read (turns 1) (fh f) [255] 1) s = Ret (Z.of_nat (length x), splice [255] 0 x) (set_lower l s) /\
    at_position (set_lower l s) (q + Z.of_nat (length x)) /\ errno (base l) = 0.
Proof.
  intros (Hq & f & A & t & Hf & Hfh & R). exists f. set (x := take 1 (drop (Z.to_nat q) c)).
  assert (Hx : Z.of_nat (length x) <= 1 /\ q + Z.of_nat (length x) <= Z.of_nat (length c))
    by (unfold x; rewrite length_take, length_drop; lia).
  set (v1 := View (<[fd := (a, q)]> (fds v)) (contents v) (next_fd v)) in *.
  assert (Hsp : spec (W := W) dir (Read fd 1) v1 =
    Some (Z.of_nat (length x), x, View (<[fd := (a, q + Z.of_nat (length x))]> (fds v1)) (contents v) (next_fd v))).
  { cbn [spec]. cbn [fds v1]. rewrite lookup_insert_eq. cbn [contents v1]. rewrite Hc. simpl.
    rewrite (proj2 (Z.leb_le _ _)), (proj2 (Z.ltb_lt _ _)) by lia. done. }
  destruct (read_answers (turns 1) _ _ _ _ _ _ [255] _ _ _ _ R Hsp) as (A' & t' & l & E & R' & He).
  - done.
  - by apply (turns_enough 1).
  - exists l. split; [done|]. split; [by rewrite Hfh, (file_ok _ _ _ _ E)|]. split.
    + split; [lia|]. exists f, A', t'. split_and!; [done..|]. cbn [fds v1] in R'. by rewrite insert_insert_eq in R'.
    + apply He; [cbn [fds v1]; rewrite lookup_insert_eq; by eexists|lia].
Qed.

Lemma fgetc_ok s q : at_position s q ->
  exists s', at_position s' (q + Z.of_nat (length (take 1 (drop (Z.to_nat q) c)))) /\ errno (base (lower s')) = 0 /\
    fgetc p s = Ret (match drop (Z.to_nat q) c with b :: _ => s8 b | [] => EOF end) s'.
Proof.
  intros H. destruct (read_one s q H) as (f & l & Hf & E & R & He). unfold fgetc, _fread.
  rewrite bind_assoc, (bind_Ret _ _ _ _ _ (check_stream_ok _ _ H)).
  rewrite bind_assoc, (bind_Ret _ _ _ _ _ (stream_at_ok p _ _ Hp Hf)), bind_assoc, (bind_Ret _ _ _ _ _ E).
  destruct (drop (Z.to_nat q) c) as [|b rest]; cbn [take length fst snd Z.ltb Z.compare Z.of_nat] in *.
  - change (0 <? Z.of_nat 0) with false. cbv iota. rewrite bind_ret. cbn [snd]. change (s8 (char (splice [255] 0 []) 0)) with (-1). cbn [Z.eqb EOF Pos.eqb].
    rewrite bind_assoc, (bind_Ret _ _ (set_lower l s) f (set_lower l s)) by (by apply stream_at_ok).
    eexists. split; [|split; [|reflexivity]]; [|done]. by eapply at_position_put.
  - rewrite take_0 in *. cbn [length] in *. change (Z.of_nat 1) with 1 in *. change (0 <? 1) with true.
    change (1 <? 1) with false. cbv iota. rewrite bind_assoc, !bind_ret. cbn [snd]. change (char (splice [255] 0 [b]) 0) with b.
    destruct (s8 b =? EOF); [|by eexists].
    rewrite bind_assoc, (bind_Ret _ _ (set_lower l s) f (set_lower l s)) by (by apply stream_at_ok).
    eexists. split; [|split; [|reflexivity]]; [|done]. by eapply at_position_put.
Qed.

Lemma fgets_loop_ok n : forall s q acc, at_position s q ->
  let '(x, k) := next_line n (drop (Z.to_nat q) c) in
  exists s', fgets_loop n p acc s = Ret (Some (acc ++ x)) s' /\ at_position s' (q + k).
Proof.
  induction n as [|n IH]; intros s q acc H; cbn [next_line fgets_loop].
  { exists s. by rewrite app_nil_r, Z.add_0_r. }
  destruct (fgetc_ok s q H) as (s1 & H1 & He & E). rewrite (bind_Ret _ _ _ _ _ E).
  destruct (drop (Z.to_nat q) c) as [|b rest] eqn:Hd; cbn [take length Z.of_nat] in *.
  { cbn. exists s1. by rewrite app_nil_r. }
  assert (Hb : is_byte b).
  { apply Forall_drop with (n := Z.to_nat q) in Hbytes as Hf. rewrite Hd in Hf. by inversion Hf. }
  unfold ends_line. change EOF with (s8 255). rewrite s8_eqb by (done || unfold is_byte; lia).
  change (Z.of_nat 1) with 1 in H1. destruct (Z.eqb_spec b 255) as [->|H255].
  { cbn. exists s1. by rewrite app_nil_r. }
  rewrite (bind_Ret _ _ _ 0 s1) by (unfold file, get_errno, Machine.gets; rewrite He; by destruct s1). cbn [Z.ltb Z.compare].
  change (s8 b =? 0) with (s8 b =? s8 0). change (s8 b =? 10) with (s8 b =? s8 10).
  rewrite !s8_eqb by (done || unfold is_byte; lia). rewrite orb_false_r.
  destruct ((b =? 0) || (b =? 10)); [exists s1; by rewrite app_nil_r|].
  specialize (IH s1 (q + 1) (acc ++ [b]) H1). rewrite w8_s8 by done.
  assert (Hd' : drop (Z.to_nat (q + 1)) c = rest).
  { destruct H as [Hq _]. replace (Z.to_nat (q + 1)) with (Z.to_nat q + 1)%nat by lia. by rewrite <- drop_drop, Hd. }
  rewrite Hd' in IH. destruct (next_line n rest) as [x k]. destruct IH as (s2 & E2 & H2). exists s2. rewrite E2.
  split; [by rewrite <- (assoc_L (++))|]. by replace (q + (k + 1)) with (q + 1 + k) by lia.
Qed.
End read.

(** [fgets] reads the next line of a file: what is before the next line feed or zero byte,
    or the next [n] - 1 bytes; it goes on behind the line feed, which it drops.  At the
    end of the file it gives an empty line, and not NULL. *)
Theorem fgets_reads_line {W : Type} `{RS : RootServer W} dir A t (s : io W) v p f a q c n :
  p <> NULL -> streams s !! p = Some f -> 0 <= fh f -> shows dir A t (lower s) v -> fds v !! fh f = Some (a, q) ->
  contents v a = Some c -> 0 <= q <= Z.of_nat (length c) -> Z.of_nat (length c) < 2147483648 -> Forall is_byte c ->
  let '(x, k) := next_line (Z.to_nat (n - 1)) (drop (Z.to_nat q) c) in
  exists s' A' t', fgets n p s = Ret (Some x) s' /\
    shows dir A' t' (lower s') (View (<[fh f := (a, q + k)]> (fds v)) (contents v) (next_fd v)).
Proof.
  intros Hp Hf Hfh R Hv Hc Hq Hlen Hb.
  assert (H : at_position dir p (fh f) a c v s q).
  { split; [done|]. exists f, A, t. split_and!; [done..|]. rewrite insert_id by done. by destruct v. }
  pose proof (fgets_loop_ok dir p (fh f) a c v Hp Hfh Hc Hlen Hb (Z.to_nat (n - 1)) s q [] H) as L.
  destruct (next_line _ _) as [x k]. destruct L as (s' & E & _ & f' & A' & t' & _ & Hfh' & R').
  exists s', A', t'. split; [|done]. unfold fgets. by rewrite (bind_Ret _ _ _ _ _ (check_stream_ok _ _ _ _ _ _ Hp Hfh _ _ H)).
Qed.

(** ** On the RAM disk *)

Module Ram.
#[local] Existing Instance Cache.Disk.zero_garbage.
#[local] Existing Instance system_shm.
#[local] Instance ram_servers : Servers (system disk) := system_servers 2 7.
#[local] Instance ram_root : RootServer (system disk) :=
  root_server 2 7 1 Ramdisk.Small.d3 (fun H => ltac:(discriminate H)) (fun H => ltac:(discriminate H)).

Definition slash : path_t := Vfs.parse [SLASH].
Definition one_open : view := View {[3 := (2, 0)]} (Fs.data Ramdisk.Small.d3) 4.

(** The file "f", which holds 1, 2, 3, is open under the number 3. *)
Lemma f_is_open : exists A t s, shows slash A t s one_open.
Proof.
  assert (R := start_shows 2 7 1 Ramdisk.Small.d3 (fun H => ltac:(discriminate H)) (fun H => ltac:(discriminate H)) []
    (Server [Fs.Fs Ramdisk.Small.d3 1 0 []] ∅ ∅ ∅) _ eq_refl eq_refl (reachable_inv _ Ramdisk.Small.d3_reachable)).
  assert (Hd : dir_ok slash) by (split_and!; [done|repeat constructor; set_solver|repeat constructor]).
  destruct (run_open (RS := ram_root) 7 _ _ _ _ _ FilesFs.Ram.str_f 3 3 [] one_open Hd R) as (A & t & s & _ & H); [reflexivity|].
  by exists A, t, s.
Qed.

Definition with_stream (f : FILE) (l : lib (system disk)) : io (system disk) := Io {[8 := f]} 0 0 0 0 l.
Definition stream3 : FILE := Stream 3 0 3 false (repeat 0 2048) 0 true.

(** More is written than fits into the buffer, with a line feed and a seek. *)
Lemma stream_refines_witness : exists s s1 n s2 v',
  stream_run_all 8 [Fwrite [65; 10]; Fwrite (repeat 9 2000); Fwrite (repeat 7 100); Ftell; Fseek 1 SEEK_SET; Fwrite [66]; Fseek (-1) SEEK_CUR; Ftell; Fseek (-2101) SEEK_END] s =
    Ret [2; 2000; 100; 2102; 0; 1; -1; 1; -1] s1 /\ fflush 8 s1 = Ret n s2 /\
  contents v' 2 = Some ([65; 66] ++ repeat 9 2000 ++ repeat 7 100) /\ fds v' !! 3 = Some (2, 1).
Proof.
  destruct f_is_open as (A & t & l & R).
  destruct (stream_refines 7 slash A t (with_stream stream3 l) one_open 8 stream3 2 0 [1; 2; 3]
    [Fwrite [65; 10]; Fwrite (repeat 9 2000); Fwrite (repeat 7 100); Ftell; Fseek 1 SEEK_SET; Fwrite [66]; Fseek (-1) SEEK_CUR; Ftell; Fseek (-2101) SEEK_END]
    [2; 2000; 100; 2102; 0; 1; -1; 1; -1] ([65; 66] ++ repeat 9 2000 ++ repeat 7 100) 1)
    as (s1 & n & s2 & A' & t' & v' & E1 & E2 & _ & E3 & E4 & _);
    [done|reflexivity|done|reflexivity|reflexivity|by vm_compute|reflexivity|exact R|reflexivity|vm_compute; reflexivity| | | |].
  - cbn; lia.
  - lia.
  - vm_compute. reflexivity.
  - exists (with_stream stream3 l), s1, n, s2, v'. split_and!; assumption.
Defined.

(** The file holds no line feed: all of it is one line, and then there is an empty one. *)
Lemma fgets_reads_line_witness : exists s s',
  fgets 80 8 s = Ret (Some [1; 2; 3]) s'.
Proof.
  destruct f_is_open as (A & t & l & R). exists (with_stream stream3 l).
  destruct (fgets_reads_line slash A t (with_stream stream3 l) one_open 8 stream3 2 0 [1; 2; 3] 80)
    as (s' & A' & t' & E & _); [done|reflexivity|done|exact R|reflexivity|vm_compute; reflexivity|cbn; lia|done| |].
  - repeat constructor; unfold is_byte; lia.
  - exists s'. exact E.
Defined.

(** ** What goes wrong *)

Definition on_disk : io (system disk) := Io ∅ 0 0 0 0 FilesFs.Ram.process.

Definition result_of {A} (c : cmd (io (system disk)) A) : A + stop :=
  match c on_disk with Ret x _ => inl x | Stop r _ => inr r end.

(** "r+" and "a" *)
Definition mode_rw : str := [114; 43].
Definition mode_a : str := [97].

(** A stream that has something to flush is not closed: the stream and the file are
    still there, and the result is that of a failure in any case. *)
Example fclose_keeps_open :
  match (p ← fopen 7 FilesFs.Ram.str_f mode_rw; fwrite [65] p;; r ← fclose 7 p; mret (p, r)) on_disk with
  | Ret (p, r) s => r = -1 /\ is_Some (streams s !! p)
  | Stop _ _ => False
  end.
Proof. vm_compute. split; [reflexivity|]. by eexists. Qed.

(** A stream for appending is not for writing, and the file is emptied. *)
Example append_not_writable : flag (oflag_str2num mode_a) O_WRONLY = false /\ flag (oflag_str2num mode_a) O_TRUNC = true.
Proof. split; reflexivity. Qed.

(** Reading at the end of the file gives the greatest [size_t]. *)
Example fread_at_end : result_of (p ← fopen 7 FilesFs.Ram.str_f mode_rw; fread [0; 0; 0] 1 3 p;; r ← fread [0] 1 1 p; mret r.1) =
  inl 4294967295.
Proof. vm_compute. reflexivity. Qed.

(** Seeking relative to the end succeeds and is reported as a failure. *)
Example fseek_end_fails : result_of (p ← fopen 7 FilesFs.Ram.str_f mode_rw; r ← fseek p 0 SEEK_END; q ← ftello p; mret (r, q)) =
  inl (-1, 3).
Proof. vm_compute. reflexivity. Qed.

(** What is in the buffer is not read back. *)
Example read_misses_buffer : result_of (p ← fopen 7 FilesFs.Ram.str_f mode_rw; fwrite [65] p;; r ← fread [0; 0; 0] 3 1 p; mret r) =
  inl (3, [1; 2; 3]).
Proof. vm_compute. reflexivity. Qed.
End Ram.
