(* ===== verification/Vterm.v ===== *)
(** * Virtual terminals (apps/vterm)

    The server of the terminals: the text display, the keyboard and the terminals, each
    with a buffer of characters and colours in front of the display.  Buffers are bytes
    of the memory of the server, so that what lies behind them is modelled too; terminals
    and displays are records on heaps, their lists those of llist.c.

    [term_write_refines] is what writing to a terminal promises: the text appears on a
    screen of rows and columns, and the display shows the top of it. *)

From S2P Require Import Prelude LList Machine CString RingBuf.

(** ** Data *)

(** [text]: the display is in text mode. *)
Record vt_gmode_t := Mode { w : Z; h : Z; bpx : Z; text : bool }.
Record vt_display_t := Display { buffer : Z; mode : vt_gmode_t }.

(** [layout] is the block of 0x400 characters, [None] is NULL. *)
Record vt_keyboard_t := Keyboard {
  kbuf : ringbuf_t;
  escape : bool;
  shift : bool;
  altgr : bool;
  ctrl : bool;
  alt : bool;
  layout : option (list Z);
}.

(** [sbuf], [height] and [curline] are the fields of [screenbuf]; the keyboard is the only
    one there is. *)
Record vt_term_t := Term {
  display : Z;
  cx : Z;
  cy : Z;
  sbuf : Z;
  height : Z;
  curline : Z;
  tabsize : Z;
  color : Z;
  outbuf : ringbuf_t;
  dev : Z;
}.

Record vterm := Vterm {
  mem : bytes;
  displays : gmap Z vt_display_t;
  vt_displays : list Z;
  vt_keyboard : vt_keyboard_t;
  terms : gmap Z vt_term_t;
  vt_terminals : list Z;
  vt_shortcuts : list Z;
  vt_curterm : Z;
  termid : Z;
}.

Definition VT_TERM_SCREENBUF_HEIGHT : Z := 100.
Definition VT_TERM_TABSIZE : Z := 8.
Definition VT_TERM_OUTBUF_SIZE : Z := 128.
Definition VT_KEYBOARD_BUFSZ : Z := 128.
Definition VT_ESCAPE_CHAR : Z := 27.

Section code.
Context `{MM : Malloc}.
(** [junk] is what a field holds that was not set. *)
Context (junk : Z).

Definition set_mem (m : bytes) (s : vterm) : vterm :=
  Vterm m (displays s) (vt_displays s) (vt_keyboard s) (terms s) (vt_terminals s) (vt_shortcuts s) (vt_curterm s) (termid s).
Definition set_displays (ds : gmap Z vt_display_t) (l : list Z) (s : vterm) : vterm :=
  Vterm (mem s) ds l (vt_keyboard s) (terms s) (vt_terminals s) (vt_shortcuts s) (vt_curterm s) (termid s).
Definition set_keyboard (k : vt_keyboard_t) (s : vterm) : vterm :=
  Vterm (mem s) (displays s) (vt_displays s) k (terms s) (vt_terminals s) (vt_shortcuts s) (vt_curterm s) (termid s).
Definition set_terms (ts : gmap Z vt_term_t) (s : vterm) : vterm :=
  Vterm (mem s) (displays s) (vt_displays s) (vt_keyboard s) ts (vt_terminals s) (vt_shortcuts s) (vt_curterm s) (termid s).
Definition set_terminals (l : list Z) (s : vterm) : vterm :=
  Vterm (mem s) (displays s) (vt_displays s) (vt_keyboard s) (terms s) l (vt_shortcuts s) (vt_curterm s) (termid s).
Definition set_shortcuts (l : list Z) (s : vterm) : vterm :=
  Vterm (mem s) (displays s) (vt_displays s) (vt_keyboard s) (terms s) (vt_terminals s) l (vt_curterm s) (termid s).
Definition set_curterm (p : Z) (s : vterm) : vterm :=
  Vterm (mem s) (displays s) (vt_displays s) (vt_keyboard s) (terms s) (vt_terminals s) (vt_shortcuts s) p (termid s).

Definition on_mem {A} (c : cmd bytes A) : cmd vterm A := fun s =>
  match c (mem s) with
  | Ret x m => Ret x (set_mem m s)
  | Stop r m => Stop r (set_mem m s)
  end.

Definition display_at (p : Z) : cmd vterm vt_display_t := fun s =>
  if p =? NULL then Stop NullDeref s
  else match displays s !! p with Some d => Ret d s | None => Stop UseAfterFree s end.

Definition term_at (p : Z) : cmd vterm vt_term_t := fun s =>
  if p =? NULL then Stop NullDeref s
  else match terms s !! p with Some t => Ret t s | None => Stop UseAfterFree s end.

Definition put_term (p : Z) (t : vt_term_t) : cmd vterm unit := modify (fun s => set_terms (<[p := t]> (terms s)) s).

(** A block of [n] bytes that [malloc] has put at [a]. *)
Definition new_block (a n : Z) : cmd vterm unit := modify (fun s => set_mem (put a (repeat (w8 junk) (Z.to_nat n)) (mem s)) s).

(** ** Displays (display.c) *)

Definition vt_display_init : cmd vterm Z := modify (fun s => set_displays (displays s) [] s);; mret 0.

Definition vt_display_clear (p : Z) : cmd vterm unit :=
  d ← display_at p;
  on_mem (memset (buffer d) 0 (w32 (w (mode d) * h (mode d) * bpx (mode d))));; mret tt.

Definition vt_display_create (buf : Z) : cmd vterm Z :=
  s ← gets Datatypes.id;
  let p := malloc (dom (displays s)) in
  modify (fun s => set_displays (<[p := Display buf (Mode 80 25 2 true)]> (displays s)) (p :: vt_displays s) s);;
  vt_display_clear p;; mret p.

Definition vt_display_destroy (p : Z) : cmd vterm unit :=
  modify (fun s => set_displays (displays s) (Seq.drop_elem (vt_displays s) p) s);;
  display_at p;; modify (fun s => set_displays (delete p (displays s)) (vt_displays s) s).

(** ** Escape sequences (escape.c) *)

(** The sequences and the default values of their arguments. *)
Definition vt_escape_seq : list (list Z * (Z * Z)) :=
  [([91; 99], (0, 0)); ([91; 53; 110], (0, 0)); ([91; 54; 110], (0, 0));
   ([91; 37; 59; 37; 72], (0, 0)); ([91; 37; 65], (1, 0)); ([91; 37; 66], (1, 0)); ([91; 37; 67], (1, 0));
   ([91; 37; 68], (1, 0)); ([91; 37; 59; 37; 102], (0, 0)); ([91; 115], (0, 0)); ([91; 117], (0, 0));
   ([55], (0, 0)); ([56], (0, 0)); ([91; 68], (0, 0)); ([91; 77], (0, 0)); ([91; 75], (0, 0));
   ([91; 49; 75], (0, 0)); ([91; 50; 75], (0, 0)); ([91; 74], (0, 0)); ([91; 74], (0, 0)); ([91; 74], (0, 0))].

(** Reading the sequence: the zero at its end belongs to it, behind that is something else. *)
Definition seq_at (seq : list Z) (j : Z) : cmd bytes Z :=
  if (0 <=? j) && (j <? Z.of_nat (length seq)) then mret (nth (Z.to_nat j) seq 0)
  else if j =? Z.of_nat (length seq) then mret 0 else stop_with OutOfBounds.

(** One sequence against the text at [esc]; [j] is the place in both and [argc] counts
    the arguments, for which there is room for two.  [true]: it matches. *)
Fixpoint match_seq (fuel : nat) (seq : list Z) (esc j argc : Z) : cmd bytes bool :=
  match fuel with
  | O => stop_with Hang
  | S fuel =>
      c ← seq_at seq j;
      if c =? 0 then mret true
      else if c =? 37 then
        r ← strntoumax (esc + j) 10 4294967295;
        if argc <? 2 then match_seq fuel seq esc (j + (r.2 - (esc + j)) - 1 + 1) (argc + 1) else stop_with OutOfBounds
      else
        x ← ldc (esc + j);
        if s8 c =? x then match_seq fuel seq esc (j + 1) argc else mret false
  end.

Fixpoint find_seq (seqs : list (list Z * (Z * Z))) (esc : Z) : cmd bytes unit :=
  match seqs with
  | [] => mret tt
  | (seq, _) :: seqs => r ← match_seq (length seq + 4) seq esc 0 0; if r : bool then mret tt else find_seq seqs esc
  end.

(** No operation is done: the result is 1 in every case. *)
Definition vt_escape_decode (esc : Z) : cmd bytes Z :=
  c ← ldc esc;
  if negb (c =? VT_ESCAPE_CHAR) then mret 1 else find_seq vt_escape_seq (esc + 1);; mret 1.

(** ** Terminals (term.c) *)

Definition vt_term_init : cmd vterm Z := modify (fun s => set_shortcuts (repeat NULL 12) (set_terminals [] s));; mret 0.

Definition vt_term_clearscreen (p : Z) : cmd vterm unit :=
  t ← term_at p;
  d ← display_at (display t);
  on_mem (memset (sbuf t) 0 (w32 (height t * w (mode d))));;
  put_term p (Term (display t) 0 0 (sbuf t) (height t) 0 (tabsize t) (color t) (outbuf t) (dev t)).

Definition vt_term_refresh (p : Z) : cmd vterm unit :=
  t ← term_at p;
  d ← display_at (display t);
  on_mem (memcpy (buffer d) (sbuf t) (w32 (w (mode d) * h (mode d) * bpx (mode d))));; mret tt.

(** A [uint16_t] in memory. *)
Definition cell_bytes (v : Z) : list Z := [w8 v; w8 (v / 256)].

Definition move_to (t : vt_term_t) (x y : Z) : vt_term_t :=
  Term (display t) x y (sbuf t) (height t) (curline t) (tabsize t) (color t) (outbuf t) (dev t).

(** The first part: the character itself; [chr] is a [char]. *)
Definition print_cell (p chr : Z) : cmd vterm unit :=
  t ← term_at p;
  if chr =? 8 then put_term p (move_to t (if 1 <? cx t then cx t - 1 else 0) (cy t))
  else if chr =? 9 then
    if tabsize t =? 0 then stop_with Panic
    else put_term p (move_to t (w32 (w32 (cx t / tabsize t + 1) * tabsize t)) (cy t))
  else if chr =? 10 then put_term p (move_to t 0 (w32 (cy t + 1)))
  else if chr =? 12 then vt_term_clearscreen p
  else if chr =? 13 then put_term p (move_to t 0 (cy t))
  else if 32 <=? chr then
    d ← display_at (display t);
    let pos := w32 (cy t * w (mode d) + cx t) in
    on_mem (stn (w32 (sbuf t + 2 * pos)) (cell_bytes (Z.lor (Z.shiftl (color t) 8) chr)));;
    put_term p (move_to t (w32 (cx t + 1)) (cy t))
  else mret tt.

Definition vt_term_printchar (p chr : Z) : cmd vterm unit :=
  print_cell p chr;;
  t ← term_at p;
  d ← display_at (display t);
  (if w (mode d) <=? cx t then put_term p (move_to t 0 (w32 (cy t + 1))) else mret tt);;
  t ← term_at p;
  if height t <=? cy t then put_term p (move_to t (cx t) (w32 (cy t - 1))) else mret tt.

Fixpoint find_dev (xs : list Z) (n : Z) : cmd vterm Z :=
  match xs with
  | [] => mret NULL
  | p :: xs => t ← term_at p; if dev t =? n then mret p else find_dev xs n
  end.

Definition vt_term_find_by_dev (n : Z) : cmd vterm Z :=
  s ← gets Datatypes.id; find_dev (Seq.scan (vt_terminals s)) n.

(** [vt_keyboard_read] *)
Definition vt_keyboard_read (buf n : Z) : cmd vterm Z :=
  s ← gets Datatypes.id;
  let k := vt_keyboard s in
  r ← on_mem (ringbuf_read (kbuf k) buf n);
  modify (set_keyboard (Keyboard r.2 (escape k) (shift k) (altgr k) (ctrl k) (alt k) (layout k)));;
  mret r.1.

Definition vt_term_onread (n buf size : Z) : cmd vterm Z :=
  p ← vt_term_find_by_dev n;
  if p =? NULL then mret 0
  else
    t ← term_at p;
    r ← on_mem (ringbuf_read (outbuf t) buf size);
    put_term p (Term (display t) (cx t) (cy t) (sbuf t) (height t) (curline t) (tabsize t) (color t) r.2 (dev t));;
    k ← vt_keyboard_read (buf + r.1) (w32 (size - r.1));
    mret (w32 (k + r.1)).

(** The loop of [vt_term_onwrite]; [vt_escape_decode] does not change [size], because its
    result is 1. *)
Fixpoint write_chars (fuel : nat) (p buf i size : Z) : cmd vterm Z :=
  match fuel with
  | O => stop_with Hang
  | S fuel =>
      if i <? size then
        c ← on_mem (ldc (buf + i));
        if c =? VT_ESCAPE_CHAR then
          k ← on_mem (vt_escape_decode (buf + i)); write_chars fuel p buf (i + 1) (w32 (size + k - 1))
        else if c <? 0 then mret i
        else vt_term_printchar p c;; write_chars fuel p buf (i + 1) size
      else mret i
  end.

Definition vt_term_onwrite (n buf size : Z) : cmd vterm Z :=
  p ← vt_term_find_by_dev n;
  if p =? NULL then mret 0
  else
    i ← write_chars (Z.to_nat size + 1) p buf 0 size;
    vt_term_refresh p;; mret i.

(** [blk_screen] and [blk_out] are the blocks that [malloc] gives for the buffers, [device]
    is the result of [devfs_createdev].  Position and colour are not set. *)
Definition vt_term_create (shortcut pd blk_screen blk_out device : Z) : cmd vterm Z :=
  d ← display_at pd;
  if negb (text (mode d)) then mret NULL
  else
    s ← gets Datatypes.id;
    let p := malloc (dom (terms s)) in
    let size := w32 (VT_TERM_SCREENBUF_HEIGHT * w (mode d)) in
    new_block blk_screen size;;
    new_block blk_out VT_TERM_OUTBUF_SIZE;;
    put_term p (Term pd (w32 junk) (w32 junk) blk_screen VT_TERM_SCREENBUF_HEIGHT 0 VT_TERM_TABSIZE (w8 junk)
                  (ringbuf_create blk_out VT_TERM_OUTBUF_SIZE) device);;
    modify (fun s => Vterm (mem s) (displays s) (vt_displays s) (vt_keyboard s) (terms s) (vt_terminals s)
                       (vt_shortcuts s) (vt_curterm s) (s32 (termid s + 1)));;
    (if (0 <=? shortcut) && (shortcut <? 10)
     then modify (fun s => set_shortcuts (<[Z.to_nat shortcut := p]> (vt_shortcuts s)) s) else mret tt);;
    modify (fun s => set_terminals (p :: vt_terminals s) s);;
    mret p.

(** The blocks of the terminal are freed; the device is removed by [devfs_removedev]. *)
Definition vt_term_destroy (p : Z) : cmd vterm unit :=
  term_at p;;
  modify (fun s => set_terminals (Seq.drop_elem (vt_terminals s) p) s);;
  modify (fun s => set_terms (delete p (terms s)) s).

Definition vt_term_activate (p : Z) : cmd vterm unit := modify (set_curterm p);; vt_term_refresh p.

(** ** Keyboard (keyboard.c) *)

Definition is_shift (c : Z) : bool := (c =? 42) || (c =? 54).
Definition is_altgr (c : Z) : bool := c =? 184.
Definition is_alt (c : Z) : bool := (c =? 56) || (c =? 189).
Definition is_fxx (c : Z) : bool := ((59 <=? c) && (c <? 69)) || (c =? 84) || (c =? 85).

Definition vt_keyboard_get_fxx (c : Z) : Z :=
  if (59 <=? c) && (c <? 69) then c - 58 else if c =? 84 then 11 else if c =? 85 then 12 else 0.

(** The characters of the layout, four for each key. *)
Definition vt_keyboard_scancode_to_wchar (k : vt_keyboard_t) (c : Z) : cmd vterm Z :=
  match layout k with
  | None => mret 0
  | Some l =>
      let modifier := Z.lor (Z.b2z (shift k)) (if altgr k then 2 else 0) in
      match l !! Z.to_nat (c * 4 + modifier) with Some x => mret x | None => stop_with OutOfBounds end
  end.

(** [vt_shortcuts[i]]; behind the array is [vt_terminals], which is not modelled. *)
Definition shortcut_at (i : Z) : cmd vterm Z := fun s =>
  match vt_shortcuts s !! Z.to_nat i with Some p => Ret p s | None => Stop OutOfBounds s end.

(** One round of the loop of [vt_keyboard_irqhandler] with the byte from the data port;
    [chr] is the address of the local variable. *)
Definition keyboard_byte (chr code : Z) : cmd vterm unit :=
  s ← gets Datatypes.id;
  let k := vt_keyboard s in
  let released := negb (Z.land code 128 =? 0) in
  let code := if code =? 224 then code else Z.land code 127 in
  let code := if escape k then Z.lor code 128 else code in
  let upd e sh ag al := set_keyboard (Keyboard (kbuf k) e sh ag (ctrl k) al (layout k)) in
  if code =? 224 then modify (upd true (shift k) (altgr k) (alt k))
  else
    modify (upd false (shift k) (altgr k) (alt k));;
    if is_shift code then modify (upd false (negb released) (altgr k) (alt k))
    else if is_altgr code then modify (upd false (shift k) (negb released) (alt k))
    else if is_alt code then modify (upd false (shift k) (altgr k) (negb released))
    else if is_fxx code && ctrl k && alt k then
      let fxx := vt_keyboard_get_fxx code in
      a ← shortcut_at fxx;
      if 0 <? a then b ← shortcut_at (fxx - 1); vt_term_activate b else mret tt
    else if negb released then
      c ← vt_keyboard_scancode_to_wchar (Keyboard (kbuf k) false (shift k) (altgr k) (ctrl k) (alt k) (layout k)) code;
      if 127 <? c then mret tt
      else if negb (c =? 0) then
        if ctrl k then mret tt
        else
          on_mem (st chr (w8 c));;
          r ← on_mem (ringbuf_write (kbuf k) chr 1);
          modify (set_keyboard (Keyboard r.2 false (shift k) (altgr k) (ctrl k) (alt k) (layout k)))
      else mret tt
    else mret tt.

(** The bytes that the controller has. *)
Fixpoint vt_keyboard_irqhandler (chr : Z) (codes : list Z) : cmd vterm unit :=
  match codes with
  | [] => mret tt
  | c :: codes => keyboard_byte chr c;; vt_keyboard_irqhandler chr codes
  end.

(** [ports] tells whether the two ports could be registered, [block] is the place of the
    buffer and [lay] the layout that was loaded; the interrupt handler is called once. *)
Definition vt_keyboard_init (ports : bool) (block : Z) (lay : option (list Z)) (chr : Z) (codes : list Z) : cmd vterm Z :=
  if ports then
    new_block block VT_KEYBOARD_BUFSZ;;
    s ← gets Datatypes.id;
    let k := vt_keyboard s in
    modify (set_keyboard (Keyboard (ringbuf_create block VT_KEYBOARD_BUFSZ) (escape k) (shift k) (altgr k) (ctrl k) (alt k) lay));;
    vt_keyboard_irqhandler chr codes;; mret 0
  else mret (-1).
End code.

(** ** What a screen shows *)

(** The cells of a screen row by row, each a character with a colour, and the cursor. *)
Record screen := Screen { cells : list Z; sx : Z; sy : Z }.

Section spec.
(** Width and height of the screen, width of a tab, the colour. *)
Context (W H tab col : Z).

Definition put_char (c : Z) (r : screen) : option screen :=
  if c =? 8 then Some (Screen (cells r) (Z.max 0 (sx r - 1)) (sy r))
  else if c =? 9 then Some (Screen (cells r) ((sx r / tab + 1) * tab) (sy r))
  else if c =? 10 then Some (Screen (cells r) 0 (sy r + 1))
  else if c =? 12 then Some (Screen (repeat 0 (length (cells r))) 0 0)
  else if c =? 13 then Some (Screen (cells r) 0 (sy r))
  else if 32 <=? c then
    let pos := sy r * W + sx r in
    if pos <? Z.of_nat (length (cells r))
    then Some (Screen (<[Z.to_nat pos := 256 * col + c]> (cells r)) (sx r + 1) (sy r)) else None
  else Some r.

(** A row that is full goes on in the next one; the last row is kept. *)
Definition wrap (r : screen) : screen :=
  let r := if W <=? sx r then Screen (cells r) 0 (sy r + 1) else r in
  if H <=? sy r then Screen (cells r) (sx r) (H - 1) else r.

(** [None]: a cell is needed for which there is no room. *)
Fixpoint put_text (cs : list Z) (r : screen) : option screen :=
  match cs with [] => Some r | c :: cs => r ← put_char c r; put_text cs (wrap r) end.
End spec.

Definition screen_bytes (cs : list Z) : list Z := concat (cell_bytes <$> cs).

(** * Properties *)

Lemma screen_bytes_length cs : length (screen_bytes cs) = (2 * length cs)%nat.
Proof. induction cs as [|c cs IH]; [done|]. cbn. unfold screen_bytes in IH. rewrite IH. lia. Qed.

Lemma screen_bytes_byte cs : Forall is_byte (screen_bytes cs).
Proof.
  induction cs as [|c cs IH]; [constructor|]. cbn. repeat constructor; try apply w8_range; apply IH.
Qed.

(** Storing a cell. *)
Lemma put_cell m a cs i v : (i < length cs)%nat -> block m a (screen_bytes cs) ->
  block (put (a + 2 * Z.of_nat i) (cell_bytes v) m) a (screen_bytes (<[i := v]> cs)).
Proof.
  revert a i. induction cs as [|c cs IH]; intros a i Hi Hb; [simpl in Hi; lia|].
  change (screen_bytes (c :: cs)) with (cell_bytes c ++ screen_bytes cs) in Hb. apply block_app in Hb as [H1 H2].
  change (a + Z.of_nat (length (cell_bytes c))) with (a + 2) in H2. destruct i as [|i]; cbn [insert list_insert].
  - replace (a + 2 * Z.of_nat 0) with a by lia. change (screen_bytes (v :: cs)) with (cell_bytes v ++ screen_bytes cs).
    apply block_app. split; [apply put_block|]. apply block_put_out; [cbn; lia|exact H2].
  - change (screen_bytes (c :: <[i:=v]> cs)) with (cell_bytes c ++ screen_bytes (<[i:=v]> cs)).
    apply block_app. split; [apply block_put_out; [cbn [cell_bytes length]; lia|done]|].
    change (a + Z.of_nat (length (cell_bytes c))) with (a + 2).
    replace (a + 2 * Z.of_nat (S i)) with (a + 2 + 2 * Z.of_nat i) by lia. apply IH; [simpl in Hi; lia|done].
Qed.

Lemma block_mapped m a bs n : block m a bs -> n <= Z.of_nat (length bs) -> mapped m a n.
Proof.
  intros Hb Hn i Hi. destruct (lookup_lt_is_Some_2 bs (Z.to_nat i)) as [v Hv]; [lia|]. exists v.
  replace i with (Z.of_nat (Z.to_nat i)) by lia. by apply Hb.
Qed.

Lemma memset_loop_ok v n : forall k a m, is_byte v -> mapped m a (Z.of_nat (k + n)) ->
  for_from n (Z.of_nat k) (fun i => st (a + i) v) (put a (repeat v k) m) = Ret tt (put a (repeat v (k + n)) m).
Proof.
  induction n as [|n IH]; intros k a m Hv Hm; cbn [for_from]; [by rewrite Nat.add_0_r|].
  assert (Hput : <[a + Z.of_nat k := v]> (put a (repeat v k) m) = put a (repeat v (S k)) m).
  { replace (S k) with (k + 1)%nat by lia. rewrite repeat_app, put_app, repeat_length. done. }
  rewrite (bind_Ret _ _ _ tt (put a (repeat v (S k)) m)).
  - replace (Z.of_nat k + 1) with (Z.of_nat (S k)) by lia. rewrite IH by (done || by rewrite Nat.add_succ_comm).
    by rewrite Nat.add_succ_comm.
  - rewrite st_ok; [by rewrite Hput|done|]. apply put_mapped with (n := Z.of_nat (k + S n)); [done|lia].
Qed.

Lemma memset_ok a v n m : is_byte v -> 0 <= n -> mapped m a n -> memset a v n m = Ret a (put a (repeat v (Z.to_nat n)) m).
Proof.
  intros Hv Hn Hm. unfold memset.
  by rewrite (bind_Ret _ _ _ _ _ (memset_loop_ok v (Z.to_nat n) 0 a m Hv ltac:(rewrite Nat.add_0_l, Z2Nat.id by lia; done))).
Qed.

Lemma screen_bytes_zero n : screen_bytes (repeat 0 n) = repeat 0 (2 * n).
Proof.
  induction n as [|n IH]; [done|]. replace (2 * S n)%nat with (S (S (2 * n))) by lia. cbn [repeat].
  change (screen_bytes (0 :: repeat 0 n)) with (0 :: 0 :: screen_bytes (repeat 0 n)). by rewrite IH.
Qed.

Lemma colour_char col c : 0 <= c < 256 -> Z.lor (Z.shiftl col 8) c = 256 * col + c.
Proof.
  intros Hc. assert (E : Z.land (Z.shiftl col 8) c = 0).
  { apply Z.bits_inj'. intros n Hn. rewrite Z.land_spec, Z.bits_0. destruct (Z.ltb_spec n 8).
    - by rewrite Z.shiftl_spec_low.
    - rewrite <- (Z.mod_small c (2 ^ 8)) by (simpl; lia). by rewrite Z.mod_pow2_bits_high, andb_false_r by lia. }
  rewrite <- Z.lxor_lor, <- Z.add_nocarry_lxor by done. rewrite Z.shiftl_mul_pow2 by lia. change (2 ^ 8) with 256. lia.
Qed.

Section screen.
Context (s0 : vterm) (p pd A col dv : Z) (d : vt_display_t) (ob : ringbuf_t) (N : nat).
Let W := w (mode d).
Let H := VT_TERM_SCREENBUF_HEIGHT.
(** The buffer has a byte per cell of the screen, so there is room for half of them. *)
Context (Hp : p <> NULL) (Hpd : pd <> NULL) (Hd : displays s0 !! pd = Some d)
  (HW : 0 < W < 65536) (HN : H * W = 2 * Z.of_nat N) (HA : 0 <= A /\ A + H * W <= 4294967296).

(** The server with the screen [r] on terminal [p] and memory [m]. *)
Definition shown (m : bytes) (r : screen) : vterm :=
  set_terms (<[p := Term pd (sx r) (sy r) A H 0 VT_TERM_TABSIZE col ob dv]> (terms s0)) (set_mem m s0).

Record painted (m : bytes) (r : screen) : Prop := {
  pt_block : block m A (screen_bytes (cells r));
  pt_size : length (cells r) = N;
  pt_cursor : 0 <= sx r < W /\ 0 <= sy r < H;
  pt_frame a : a < A \/ A + H * W <= a -> m !! a = mem s0 !! a;
}.

Lemma term_at_shown m r : term_at p (shown m r) = Ret (Term pd (sx r) (sy r) A H 0 VT_TERM_TABSIZE col ob dv) (shown m r).
Proof. unfold term_at, shown. rewrite (proj2 (Z.eqb_neq _ _) Hp). cbn. by rewrite lookup_insert_eq. Qed.

Lemma display_at_shown m r : display_at pd (shown m r) = Ret d (shown m r).
Proof. unfold display_at, shown. rewrite (proj2 (Z.eqb_neq _ _) Hpd). cbn. by rewrite Hd. Qed.

Lemma put_term_shown m r x y :
  put_term p (Term pd x y A H 0 VT_TERM_TABSIZE col ob dv) (shown m r) = Ret tt (shown m (Screen (cells r) x y)).
Proof. unfold put_term, modify, shown. f_equal. unfold set_terms, set_mem. cbn. by rewrite insert_insert_eq. Qed.

Lemma on_mem_shown {X} (c : cmd bytes X) m r x m' : c m = Ret x m' -> on_mem c (shown m r) = Ret x (shown m' r).
Proof. intros E. unfold on_mem, shown. cbn. by rewrite E. Qed.

Lemma shown_cells m r cs : shown m (Screen cs (sx r) (sy r)) = shown m r.
Proof. done. Qed.

Ltac rets := repeat (rewrite ?bind_assoc; first
  [ rewrite (bind_Ret _ _ _ _ _ (term_at_shown _ _)) | rewrite (bind_Ret _ _ _ _ _ (display_at_shown _ _))
  | rewrite (bind_Ret _ _ _ _ _ (put_term_shown _ _ _ _)) | rewrite bind_ret ]); cbn [display cx cy sbuf height curline tabsize color outbuf dev].

(** The character itself. *)
Lemma print_cell_ok m r c r' : painted m r -> 0 <= c < 128 -> put_char W VT_TERM_TABSIZE col c r = Some r' ->
  exists m', print_cell p c (shown m r) = Ret tt (shown m' r') /\
    block m' A (screen_bytes (cells r')) /\ length (cells r') = N /\ 0 <= sx r' /\ 0 <= sy r' <= H /\ (W <= sx r' -> sy r' < H) /\
    (forall a, a < A \/ A + H * W <= a -> m' !! a = mem s0 !! a).
Proof.
  intros [Hb Hn Hc Hf] Hr Hs. unfold print_cell, move_to. rets. unfold put_char in Hs.
  unfold VT_TERM_TABSIZE, H, VT_TERM_SCREENBUF_HEIGHT in *.
  destruct (c =? 8).
  { injection Hs as <-. exists m. rewrite put_term_shown.
    replace (if 1 <? sx r then sx r - 1 else 0) with (Z.max 0 (sx r - 1)) by (destruct (Z.ltb_spec 1 (sx r)); lia).
    cbn. split_and!; try done; lia. }
  destruct (c =? 9).
  { injection Hs as <-. exists m. cbn [Z.eqb]. pose proof (Z.div_pos (sx r) 8). pose proof (Z.mul_div_le (sx r) 8 ltac:(lia)).
    rewrite put_term_shown, (w32_small (sx r / 8 + 1)), w32_small by lia. cbn. split_and!; try done; lia. }
  destruct (c =? 10).
  { injection Hs as <-. exists m. rewrite put_term_shown, w32_small by lia. cbn. split_and!; try done; lia. }
  destruct (c =? 12).
  { injection Hs as <-. unfold vt_term_clearscreen. rets. fold W. rewrite w32_small by lia.
    assert (Hm : mapped m A (100 * W)) by (apply (block_mapped _ _ _ _ Hb); rewrite screen_bytes_length; lia).
    rewrite (bind_Ret _ _ _ _ _ (on_mem_shown _ _ _ _ _ (memset_ok A 0 (100 * W) m ltac:(unfold is_byte; lia) ltac:(lia) Hm))).
    rewrite put_term_shown. eexists. split; [reflexivity|]. cbn [cells sx sy].
    rewrite repeat_length, Hn, screen_bytes_zero. replace (Z.to_nat (100 * W)) with (2 * N)%nat by lia.
    split_and!; try lia; [apply put_block|]. intros a Ha. rewrite put_lookup_out; [by apply Hf|]. rewrite repeat_length. lia. }
  destruct (c =? 13).
  { injection Hs as <-. exists m. rewrite put_term_shown. cbn. split_and!; try done; lia. }
  destruct (32 <=? c); [|injection Hs as <-; exists m; split_and!; try done; lia].
  case_match eqn:Hpos; [|done]. injection Hs as <-. zbool. rets. fold W. rewrite (w32_small (sy r * W + sx r)) by nia.
  set (pos := sy r * W + sx r) in *. assert (0 <= pos) by (unfold pos; nia).
  rewrite (w32_small (A + 2 * pos)) by lia.
  rewrite colour_char by lia.
  assert (Hm : mapped m (A + 2 * pos) 2).
  { intros i Hi. rewrite <- Z.add_assoc. apply (block_mapped _ _ _ (100 * W) Hb); [rewrite screen_bytes_length; lia|lia]. }
  rewrite (bind_Ret _ _ _ _ _ (on_mem_shown _ _ _ _ _ (stn_put (A + 2 * pos) (cell_bytes (256 * col + c)) m
    ltac:(repeat constructor; apply w8_range) Hm))).
  rewrite put_term_shown, w32_small by lia. eexists. split; [reflexivity|]. cbn [cells sx sy].
  pose proof (put_cell m A (cells r) (Z.to_nat pos) (256 * col + c) ltac:(lia) Hb) as Hb'. rewrite Z2Nat.id in Hb' by lia.
  split_and!; [exact Hb'|by rewrite length_insert|lia..|].
  intros a Ha. rewrite put_lookup_out; [by apply Hf|]. cbn. lia.
Qed.

(** A character keeps the cursor on the screen. *)
Lemma printchar_ok m r c r' : painted m r -> 0 <= c < 128 -> put_char W VT_TERM_TABSIZE col c r = Some r' ->
  exists m', vt_term_printchar p c (shown m r) = Ret tt (shown m' (wrap W H r')) /\ painted m' (wrap W H r').
Proof.
  intros Hr Hc Hs. destruct (print_cell_ok m r c r' Hr Hc Hs) as (m' & E & Hb & Hn & Hx & Hy & Hxy & Hf). exists m'.
  unfold vt_term_printchar, move_to. rewrite (bind_Ret _ _ _ _ _ E). rets. fold W.
  set (r1 := if W <=? sx r' then Screen (cells r') 0 (sy r' + 1) else r').
  assert (H1 : block m' A (screen_bytes (cells r1)) /\ length (cells r1) = N /\ 0 <= sx r1 < W /\ 0 <= sy r1 <= H)
    by (unfold r1; destruct (Z.leb_spec W (sx r')); cbn [cells sx sy]; split_and!; try done; lia).
  rewrite (bind_Ret _ _ _ tt (shown m' r1)).
  2: { unfold r1. destruct (W <=? sx r'); [|done]. rewrite put_term_shown, w32_small; [done|].
       unfold H, VT_TERM_SCREENBUF_HEIGHT in *. lia. }
  rets. change (wrap W H r') with (if H <=? sy r1 then Screen (cells r1) (sx r1) (H - 1) else r1).
  destruct H1 as (Hb1 & Hn1 & Hx1 & Hy1). destruct (Z.leb_spec H (sy r1)).
  - rewrite put_term_shown. unfold H, VT_TERM_SCREENBUF_HEIGHT in *. rewrite w32_small by lia.
    replace (sy r1 - 1) with (100 - 1) by lia. split; [done|]. split; cbn [sx sy]; (done || lia).
  - split; [done|]. split; (done || lia).
Qed.

(** Bytes that are characters and no escape. *)
Definition plain (c : Z) : Prop := 0 <= c < 128 /\ c <> VT_ESCAPE_CHAR.

Lemma write_chars_ok fuel : forall cs m r r' buf i, painted m r -> Forall plain cs ->
  block m (buf + i) cs -> (buf + i + Z.of_nat (length cs) <= A \/ A + H * W <= buf + i) -> (length cs < fuel)%nat ->
  put_text W H VT_TERM_TABSIZE col cs r = Some r' ->
  exists m', write_chars fuel p buf i (i + Z.of_nat (length cs)) (shown m r) = Ret (i + Z.of_nat (length cs)) (shown m' r') /\
    painted m' r'.
Proof.
  induction fuel as [|fuel IH]; intros cs m r r' buf i Hr Hcs Hb Hap Hfu Hs; [lia|]. cbn [write_chars].
  destruct cs as [|c cs]; cbn [put_text length] in *.
  { injection Hs as <-. rewrite Z.add_0_r, Z.ltb_irrefl. by exists m. }
  destruct (put_char _ _ _ c r) as [r1|] eqn:E1; [|done]. simpl in Hs. apply Forall_cons in Hcs as [[Hc Hne] Hcs].
  apply block_cons in Hb as [Hb1 Hb2]. destruct (Z.ltb_spec i (i + Z.of_nat (S (length cs)))); [|lia].
  rewrite (bind_Ret _ _ _ _ _ (on_mem_shown _ _ _ _ _ (ldc_ok _ _ _ Hb1))).
  assert (s8 c = c) as -> by (unfold s8; rewrite w8_small by lia; by destruct (Z.ltb_spec c 128); [|lia]).
  rewrite (proj2 (Z.eqb_neq _ _) Hne), (proj2 (Z.ltb_ge c 0)) by lia.
  destruct (printchar_ok m r c r1 Hr Hc E1) as (m1 & Ep & Hr1). rewrite (bind_Ret _ _ _ _ _ Ep).
  destruct (IH cs m1 (wrap W H r1) r' buf (i + 1) Hr1 Hcs) as (m2 & E2 & Hr2).
  - intros k b Hk. rewrite Z.add_assoc. rewrite (pt_frame _ _ Hr1) by (apply lookup_lt_Some in Hk; lia).
    rewrite <- (pt_frame _ _ Hr) by (apply lookup_lt_Some in Hk; lia). rewrite <- Z.add_assoc. rewrite Z.add_assoc.
    specialize (Hb2 k b Hk). by replace (buf + (i + 1) + Z.of_nat k) with (buf + i + 1 + Z.of_nat k) by lia.
  - lia.
  - lia.
  - done.
  - exists m2. replace (i + 1 + Z.of_nat (length cs)) with (i + Z.of_nat (S (length cs))) in E2 by lia. done.
Qed.
End screen.

(** C12: Writing ASCII text without escape sequences to a terminal that is not scrolled, as
    long as its printed characters land in cells the terminal's buffer has.  These are the
    upper 50 of the 100 rows of the screen, since the buffer has one byte for a cell of two;
    [screen_overrun] shows what happens in the rows below.  Then the text is on the screen:
    the characters are in the cells from the cursor on, line feeds, tabs, backspaces,
    returns and form feeds move the cursor, full rows go on in the next one, the cursor
    stays on the screen, the display shows the top rows, and nothing else in memory is
    changed. *)
Theorem term_write_refines s p pd A x y col ob n d cs r r' buf :
  p <> NULL -> pd <> NULL -> displays s !! pd = Some d ->
  terms s !! p = Some (Term pd x y A VT_TERM_SCREENBUF_HEIGHT 0 VT_TERM_TABSIZE col ob n) ->
  vt_term_find_by_dev n s = Ret p s ->
  let W := w (mode d) in
  let size := VT_TERM_SCREENBUF_HEIGHT * W in
  let shown_size := W * h (mode d) * 2 in
  0 < W < 65536 -> bpx (mode d) = 2 -> 0 <= shown_size <= size -> 0 < A /\ A + size <= 4294967296 ->
  size = 2 * Z.of_nat (length (cells r)) -> block (mem s) A (screen_bytes (cells r)) ->
  sx r = x -> sy r = y -> 0 <= x < W -> 0 <= y < VT_TERM_SCREENBUF_HEIGHT ->
  Forall plain cs -> block (mem s) buf cs -> Z.of_nat (length cs) < 4294967296 ->
  apart buf (Z.of_nat (length cs)) A size ->
  mapped (mem s) (buffer d) shown_size -> apart (buffer d) shown_size A size ->
  put_text W VT_TERM_SCREENBUF_HEIGHT VT_TERM_TABSIZE col cs r = Some r' ->
  exists s' t', vt_term_onwrite n buf (Z.of_nat (length cs)) s = Ret (Z.of_nat (length cs)) s' /\
    terms s' !! p = Some t' /\ cx t' = sx r' /\ cy t' = sy r' /\
    0 <= cx t' < W /\ 0 <= cy t' < VT_TERM_SCREENBUF_HEIGHT /\
    block (mem s') A (screen_bytes (cells r')) /\
    block (mem s') (buffer d) (take (Z.to_nat shown_size) (screen_bytes (cells r'))) /\
    forall a, (a < A \/ A + size <= a) -> (a < buffer d \/ buffer d + shown_size <= a) -> mem s' !! a = mem s !! a.
Proof.
  intros Hp Hpd Hd Ht Hfind W size shown_size HW Hbpx Hsh HA HN Hb <- <- Hx Hy Hcs Hbuf Hlen Hap Hmd Hapd Hs.
  assert (E0 : shown s p pd A col n ob (mem s) r = s).
  { unfold shown, set_terms, set_mem. rewrite insert_id by done. by destruct s. }
  assert (Hr : painted s A d (length (cells r)) (mem s) r) by (by split).
  unfold apart in *.
  destruct (write_chars_ok s p pd A col n d ob (length (cells r)) Hp Hpd Hd HW HN (conj (Z.lt_le_incl _ _ (proj1 HA)) (proj2 HA)) (length cs + 1) cs (mem s) r r' buf 0 Hr Hcs)
    as (m1 & E1 & Hr1); [by rewrite Z.add_0_r|rewrite Z.add_0_r; exact Hap|lia|done|].
  rewrite E0 in E1. rewrite !Z.add_0_l in E1.
  unfold vt_term_onwrite. rewrite (bind_Ret _ _ _ _ _ Hfind), (proj2 (Z.eqb_neq _ _) Hp).
  rewrite Nat2Z.id, (bind_Ret _ _ _ _ _ E1). unfold vt_term_refresh.
  rewrite bind_assoc, (bind_Ret _ _ _ _ _ (term_at_shown s p pd A col n ob Hp m1 r')). cbn [display].
  rewrite bind_assoc, (bind_Ret _ _ _ _ _ (display_at_shown s p pd A col n d ob Hpd Hd m1 r')). cbn [sbuf].
  rewrite Hbpx. fold W shown_size. rewrite w32_small by (fold size in HA; lia).
  set (top := take (Z.to_nat shown_size) (screen_bytes (cells r'))).
  assert (Htop : Z.of_nat (length top) = shown_size).
  { unfold top. rewrite length_take, screen_bytes_length, (pt_size _ _ _ _ _ _ Hr1). lia. }
  assert (Hbt : block m1 A top).
  { pose proof (pt_block _ _ _ _ _ _ Hr1) as B. rewrite <- (take_drop (Z.to_nat shown_size) (screen_bytes (cells r'))) in B.
    by apply block_app in B as [B _]. }
  assert (Hm1 : mapped m1 (buffer d) shown_size).
  { intros i Hi. rewrite (pt_frame _ _ _ _ _ _ Hr1); [by apply Hmd|]. fold W. change (VT_TERM_SCREENBUF_HEIGHT * W) with size. lia. }
  rewrite bind_assoc, (bind_Ret _ _ _ _ _ (on_mem_shown s p pd A col n ob _ m1 r' _ _ (memcpy_ok m1 (buffer d) A top shown_size
    (eq_sym Htop) ltac:(apply Forall_take, screen_bytes_byte) Hbt Hm1 ltac:(lia)))).
  eexists _, _. split; [reflexivity|]. cbn [terms shown set_terms mem set_mem]. split; [apply lookup_insert_eq|].
  pose proof (pt_cursor _ _ _ _ _ _ Hr1) as Hcur. cbn [cx cy].
  split_and!; try done; try lia.
  - apply block_put_out; [rewrite screen_bytes_length, (pt_size _ _ _ _ _ _ Hr1); lia|apply Hr1].
  - apply put_block.
  - intros a Ha1 Ha2. rewrite put_lookup_out by lia. by apply (pt_frame _ _ _ _ _ _ Hr1).
Qed.

(** ** Escape sequences *)

(** No number: nothing is read. *)
Lemma strntoumax_none q c m : m !! q = Some c -> 0 <= c < 128 -> isspace c = false -> isdigit c = false -> c <> 43 -> c <> 45 ->
  strntoumax q 10 4294967295 m = Ret (0, q) m.
Proof.
  intros Hq Hc Hs Hd Hplus Hminus. unfold strntoumax, scan_fuel. cbn [skip_space Z.eqb].
  assert (E : s8 c = c) by (unfold s8; rewrite w8_small by lia; by destruct (Z.ltb_spec c 128); [|lia]).
  rewrite bind_assoc, (bind_Ret _ _ _ _ _ (ld_ok _ _ _ Hq)), Hs, bind_ret. cbn [Z.eqb].
  rewrite bind_assoc, (bind_Ret _ _ _ _ _ (ldc_ok _ _ _ Hq)), E, bind_ret, (proj2 (Z.eqb_neq _ _) Hminus), (proj2 (Z.eqb_neq _ _) Hplus).
  cbn [orb]. unfold read_base. cbn [Z.eqb Pos.eqb]. rewrite bind_ret. cbn [digits_loop Z.eqb].
  rewrite bind_assoc, (bind_Ret _ _ _ _ _ (ldc_ok _ _ _ Hq)), E.
  assert (Hv : (0 <=? digitval c) && (digitval c <? 10) = false).
  { unfold digitval. unfold isdigit in Hd. rewrite Hd. destruct ((65 <=? c) && (c <=? 90)) eqn:H1; zbool.
    - rewrite (proj2 (Z.ltb_ge _ 10)) by lia. by rewrite andb_false_r.
    - destruct ((97 <=? c) && (c <=? 122)) eqn:H2; [|done]. zbool. rewrite (proj2 (Z.ltb_ge _ 10)) by lia. by rewrite andb_false_r. }
  by rewrite Hv.
Qed.

Lemma match_char fuel seq esc j argc c x m : seq_at seq j m = Ret c m -> (c =? 0) = false -> (c =? 37) = false ->
  ldc (esc + j) m = Ret x m ->
  match_seq (S fuel) seq esc j argc m = (if s8 c =? x then match_seq fuel seq esc (j + 1) argc else mret false) m.
Proof. intros H1 H2 H3 H4. cbn [match_seq]. by rewrite (bind_Ret _ _ _ _ _ H1), H2, H3, (bind_Ret _ _ _ _ _ H4). Qed.

(** An argument without a number. *)
Lemma match_arg fuel seq esc j argc m : seq_at seq j m = Ret 37 m -> strntoumax (esc + j) 10 4294967295 m = Ret (0, esc + j) m ->
  match_seq (S fuel) seq esc j argc m = (if argc <? 2 then match_seq fuel seq esc j (argc + 1) else stop_with OutOfBounds) m.
Proof.
  intros H1 H2. cbn [match_seq]. rewrite (bind_Ret _ _ _ _ _ H1). cbn [Z.eqb Pos.eqb]. rewrite (bind_Ret _ _ _ _ _ H2). cbn [snd].
  by replace (j + (esc + j - (esc + j)) - 1 + 1) with j by lia.
Qed.

(** C38: An escape sequence in which no number follows the bracket, such as the one that clears
    the screen or moves the cursor by its default, overruns the array of arguments: the
    place in the sequence is not moved on, and an argument is stored for it again and
    again. *)
Theorem escape_overruns m esc c : m !! esc = Some VT_ESCAPE_CHAR -> m !! (esc + 1) = Some 91 -> m !! (esc + 2) = Some c ->
  0 <= c < 128 -> isspace c = false -> isdigit c = false -> c <> 43 -> c <> 45 -> c <> 99 ->
  vt_escape_decode esc m = Stop OutOfBounds m.
Proof.
  intros He Hb Hc Hr Hs Hd Hplus Hminus H99. unfold vt_escape_decode.
  assert (E : s8 c = c) by (unfold s8; rewrite w8_small by lia; by destruct (Z.ltb_spec c 128); [|lia]).
  rewrite (bind_Ret _ _ _ _ _ (ldc_ok _ _ _ He)). change (negb (s8 VT_ESCAPE_CHAR =? VT_ESCAPE_CHAR)) with false.
  cbv iota.
  assert (L0 : ldc (esc + 1 + 0) m = Ret 91 m) by (rewrite Z.add_0_r; by rewrite (ldc_ok _ _ _ Hb)).
  assert (L1 : ldc (esc + 1 + (0 + 1)) m = Ret c m)
    by (replace (esc + 1 + (0 + 1)) with (esc + 2) by lia; by rewrite (ldc_ok _ _ _ Hc), E).
  assert (Hn : forall x, isdigit x = true \/ x = 99 -> (x =? c) = false)
    by (intros x Hx; apply Z.eqb_neq; intros ->; destruct Hx; congruence).
  assert (L2 : strntoumax (esc + 1 + (0 + 1)) 10 4294967295 m = Ret (0, esc + 1 + (0 + 1)) m)
    by (replace (esc + 1 + (0 + 1)) with (esc + 2) by lia; by apply (strntoumax_none _ c)).
  rewrite (bind_Stop _ _ _ OutOfBounds m); [done|]. unfold vt_escape_seq. cbn [find_seq length Nat.add].
  assert (Q : forall x seq fuel, seq_at seq 0 m = Ret 91 m -> seq_at seq (0 + 1) m = Ret x m -> s8 x = x ->
    isdigit x = true \/ x = 99 -> match_seq (S (S fuel)) seq (esc + 1) 0 0 m = Ret false m).
  { intros x seq fuel S0 S1 Ex Hx. rewrite (match_char _ _ _ _ _ _ _ _ S0 eq_refl eq_refl L0). change (s8 91 =? 91) with true.
    cbv iota. rewrite (match_char _ _ _ _ _ x c _ S1); [|by apply Z.eqb_neq; intros ->; destruct Hx..|done].
    by rewrite Ex, Hn. }
  do 3 (rewrite (bind_Ret _ _ m false m); [|eapply Q; [reflexivity|reflexivity|reflexivity|by left + by right]]).
  apply bind_Stop. rewrite (match_char _ _ _ _ _ 91 91); [|reflexivity|reflexivity|reflexivity|exact L0]. change (s8 91 =? 91) with true. cbv iota.
  rewrite match_arg; [|reflexivity|exact L2]. change (0 <? 2) with true. cbv iota.
  rewrite match_arg; [|reflexivity|exact L2]. change (0 + 1 <? 2) with true. cbv iota.
  by rewrite match_arg; [|reflexivity|exact L2].
Qed.

(** ** Keyboard *)

Lemma bind_inv {S A B} (c : cmd S A) (f : A -> cmd S B) s b s' : (c ≫= f) s = Ret b s' ->
  exists a s1, c s = Ret a s1 /\ f a s1 = Ret b s'.
Proof. unfold mbind, cmd_bind. destruct (c s) as [a s1|]; [|done]. eauto. Qed.

Lemma on_mem_inv {A} (c : cmd bytes A) s x s' : on_mem c s = Ret x s' -> exists m, s' = set_mem m s.
Proof. unfold on_mem. destruct (c (mem s)) as [y m|]; [|done]. injection 1 as <- <-. by exists m. Qed.

(** What a byte of the keyboard leaves alone: the control key, and without it the terminal. *)
Definition no_switch (s s' : vterm) : Prop :=
  ctrl (vt_keyboard s') = ctrl (vt_keyboard s) /\ (ctrl (vt_keyboard s) = false -> vt_curterm s' = vt_curterm s).

Lemma no_switch_keyboard s k m : ctrl k = ctrl (vt_keyboard s) -> no_switch s (set_keyboard k (set_mem m s)).
Proof. by split. Qed.

Lemma vt_term_activate_inv p s x s' : vt_term_activate p s = Ret x s' -> vt_keyboard s' = vt_keyboard s.
Proof.
  unfold vt_term_activate, vt_term_refresh. rewrite bind_modify. intros H.
  apply bind_inv in H as (t & s1 & E1 & H). unfold term_at in E1. repeat case_match; simplify_eq/=.
  apply bind_inv in H as (d & s2 & E2 & H). unfold display_at in E2. repeat case_match; simplify_eq/=.
  apply bind_inv in H as (y & s3 & E3 & H). apply on_mem_inv in E3 as (m & ->). by injection H as <- <-.
Qed.

Lemma shortcut_at_inv i s p s' : shortcut_at i s = Ret p s' -> s' = s.
Proof. unfold shortcut_at. destruct (_ !! _); [|done]. by injection 1 as <- <-. Qed.

Lemma keyboard_byte_no_switch chr code s x s' : keyboard_byte chr code s = Ret x s' -> no_switch s s'.
Proof.
  unfold keyboard_byte. rewrite bind_gets. cbv zeta. cbn [Datatypes.id]. set (k := vt_keyboard s).
  destruct (_ =? 224); [injection 1 as <- <-; by split|]. rewrite bind_modify.
  destruct (is_shift _); [injection 1 as <- <-; by split|]. destruct (is_altgr _); [injection 1 as <- <-; by split|].
  destruct (is_alt _); [injection 1 as <- <-; by split|]. destruct (_ && ctrl k && alt k) eqn:Ef.
  { intros H. apply bind_inv in H as (a & s1 & E1 & H). apply shortcut_at_inv in E1 as ->.
    assert (Hc : ctrl k = true) by (destruct (ctrl k); [done|by rewrite andb_false_r in Ef]).
    destruct (0 <? a); [|injection H as <- <-; by split]. apply bind_inv in H as (b & s1 & E1 & H).
    apply shortcut_at_inv in E1 as ->. apply vt_term_activate_inv in H. unfold no_switch. rewrite H. split; [done|].
    fold k. by rewrite Hc. }
  destruct (negb _); [|injection 1 as <- <-; by split]. intros H. apply bind_inv in H as (c & s1 & E1 & H).
  assert (s1 = set_keyboard (Keyboard (kbuf k) false (shift k) (altgr k) (ctrl k) (alt k) (layout k)) s) as ->.
  { unfold vt_keyboard_scancode_to_wchar in E1. repeat (case_match; try done); by injection E1 as <- <-. }
  destruct (127 <? c); [injection H as <- <-; by split|]. destruct (negb (c =? 0)); [|injection H as <- <-; by split].
  destruct (ctrl k) eqn:Hc; [injection H as <- <-; by split|]. apply bind_inv in H as (y & s2 & E2 & H).
  apply on_mem_inv in E2 as (m2 & ->). apply bind_inv in H as (z & s3 & E3 & H). apply on_mem_inv in E3 as (m3 & ->).
  injection H as <- <-. split; cbn; by rewrite ?Hc.
Qed.

(** The control key is never noticed, so no key changes the terminal: whatever the
    keyboard sends, the state of the control key stays as it is, and if it is not held
    the terminal that is shown stays the same. *)
Theorem keyboard_never_switches chr codes : forall s s',
  vt_keyboard_irqhandler chr codes s = Ret tt s' ->
  ctrl (vt_keyboard s') = ctrl (vt_keyboard s) /\ (ctrl (vt_keyboard s) = false -> vt_curterm s' = vt_curterm s).
Proof.
  induction codes as [|c codes IH]; intros s s' H; cbn [vt_keyboard_irqhandler] in H; [by injection H as <-|].
  apply bind_inv in H as ([] & s1 & E1 & H). apply keyboard_byte_no_switch in E1 as [H1 H2]. apply IH in H as [H3 H4].
  rewrite H3, H1. split; [done|]. intros Hc. rewrite H4 by congruence. by apply H2.
Qed.

Lemma find_dev_frame n xs : forall s s1 p, terms s1 = terms s -> find_dev xs n s = Ret p s -> find_dev xs n s1 = Ret p s1.
Proof.
  induction xs as [|q xs IH]; intros s s1 p Ht H; cbn [find_dev] in *; [by injection H as ->|].
  apply bind_inv in H as (t & s2 & E & H). unfold term_at in E. destruct (q =? NULL) eqn:Hq; [done|].
  destruct (terms s !! q) as [t'|] eqn:Hl; [|done]. injection E as <- <-.
  rewrite (bind_Ret _ _ s1 t' s1) by (unfold term_at; by rewrite Hq, Ht, Hl).
  destruct (dev t' =? n); [by injection H as ->|]. by apply (IH s).
Qed.

Lemma ringbuf_read_empty b sz r dest n m : 0 <= n -> ringbuf_read (RingBuf b sz r r) dest n m = Ret (0, RingBuf b sz r r) m.
Proof.
  intros Hn. unfold ringbuf_read. cbn [buf size rpos wpos]. cbv zeta. rewrite Z.leb_refl, Z.sub_diag.
  destruct (Z.ltb_spec 0 n); [done|]. by replace n with 0 by lia.
Qed.

(** The code of a key that is pressed. *)
Lemma low_code code : 0 <= code < 128 -> Z.land code 128 = 0 /\ Z.land code 127 = code /\ code <> 224 /\ is_altgr code = false.
Proof.
  intros Hc. change 127 with (Z.ones 7). rewrite Z.land_ones, Z.mod_small by (simpl; lia).
  split_and!; [|done|lia|apply Z.eqb_neq; lia]. apply Z.bits_inj'. intros n Hn. rewrite Z.land_spec, Z.bits_0.
  change 128 with (2 ^ 7). rewrite Z.pow2_bits_eqb by lia. destruct (Z.eqb_spec 7 n) as [<-|]; [|by rewrite andb_false_r].
  rewrite <- (Z.mod_small code (2 ^ 7)) by (simpl; lia). by rewrite Z.mod_pow2_bits_high by lia.
Qed.

(** A key that is pressed puts its character into the empty ring buffer. *)
Lemma key_pressed s chr code l ch b r :
  let k := vt_keyboard s in
  kbuf k = RingBuf b VT_KEYBOARD_BUFSZ r r -> 0 <= r < VT_KEYBOARD_BUFSZ -> mapped (mem s) b VT_KEYBOARD_BUFSZ ->
  escape k = false -> ctrl k = false -> layout k = Some l ->
  0 <= code < 128 -> is_shift code = false -> is_alt code = false ->
  l !! Z.to_nat (code * 4 + Z.lor (Z.b2z (shift k)) (if altgr k then 2 else 0)) = Some ch -> 0 < ch < 128 ->
  is_Some (mem s !! chr) -> apart chr 1 b VT_KEYBOARD_BUFSZ ->
  exists m2, keyboard_byte chr code s = Ret tt (set_keyboard
      (Keyboard (RingBuf b 128 r ((r + 1) mod 128)) false (shift k) (altgr k) false (alt k) (Some l)) (set_mem m2 s)) /\
    wrapped m2 b 128 r [ch] /\ (forall a n, mapped (mem s) a n -> mapped m2 a n).
Proof.
  intros k Hk Hr Hm He Hc Hl Hcode Hsh Hal Hch Hch2 Hchr Hap.
  set (m1 := <[chr := ch]> (mem s)).
  assert (Hb1 : block m1 chr [ch]) by (apply block_cons; split; [apply lookup_insert_eq|by intros i x Hx]).
  assert (Hm1 : forall a x, mapped (mem s) a x -> mapped m1 a x) by (intros a x Hx; apply (put_mapped chr [ch] (mem s) a x Hx)).
  unfold VT_KEYBOARD_BUFSZ in *. assert (B1 : Forall is_byte [ch]) by (repeat constructor; unfold is_byte; lia).
  destruct (RingBuf.write_ok m1 b 128 r [ch] ltac:(lia) Hr ltac:(cbn; lia) B1 (Hm1 _ _ Hm) chr Hb1 Hap)
    as (m2 & Ew & Hw & Hf2 & Hm2). change (Z.of_nat (length [ch])) with 1 in *.
  exists m2. split; [|split; [done|by intros; apply Hm2, Hm1]].
  unfold keyboard_byte. rewrite bind_gets. cbv zeta. cbn [Datatypes.id]. fold k. rewrite He, Hc, Hl, Hk.
    destruct (low_code code Hcode) as (-> & -> & Hne & Hag). rewrite (proj2 (Z.eqb_neq code 224)) by lia. cbn [negb].
    rewrite (proj2 (Z.eqb_neq code 224)) by lia. rewrite bind_modify, Hsh, Hag, Hal, andb_false_r. cbn [andb].
    unfold vt_keyboard_scancode_to_wchar. cbn [layout shift altgr]. rewrite Hch. cbv iota.
    change (negb (negb (0 =? 0))) with true. cbv iota. rewrite bind_ret, (proj2 (Z.ltb_ge 127 ch)) by lia.
    rewrite (proj2 (Z.eqb_neq ch 0)) by lia. cbn [negb].
    rewrite w8_small by lia.
    rewrite (bind_Ret _ _ _ tt (set_mem m1 (set_keyboard (Keyboard (RingBuf b 128 r r) false (shift k) (altgr k) false (alt k) (Some l)) s))).
    - rewrite (bind_Ret _ _ _ (1, RingBuf b 128 r ((r + 1) mod 128))
        (set_mem m2 (set_keyboard (Keyboard (RingBuf b 128 r r) false (shift k) (altgr k) false (alt k) (Some l)) s))); [done|].
      unfold on_mem. cbn [mem set_mem set_keyboard]. by rewrite Ew.
    - unfold on_mem. cbn [mem set_mem set_keyboard]. by rewrite (st_ok chr ch (mem s)) by (done || unfold is_byte; lia).
Qed.

(** C37: A key reaches the reader, if no key is waiting in the keyboard's ring buffer nor any
    character in the terminal's own, Ctrl is not held, and the character that the layout
    gives for the key with Shift and AltGr as they are held is an ASCII one: then that
    character is what the next read of the terminal returns, wherever in the keyboard's
    ring buffer its empty place is.  A second key that is typed before the first is read
    may overrun ([second_key_crashes]). *)
Theorem key_reaches_reader s p t n chr code l ch b r b2 z2 r2 dest size :
  let k := vt_keyboard s in
  kbuf k = RingBuf b VT_KEYBOARD_BUFSZ r r -> 0 <= r < VT_KEYBOARD_BUFSZ -> mapped (mem s) b VT_KEYBOARD_BUFSZ ->
  escape k = false -> ctrl k = false -> layout k = Some l ->
  0 <= code < 128 -> is_shift code = false -> is_alt code = false ->
  l !! Z.to_nat (code * 4 + Z.lor (Z.b2z (shift k)) (if altgr k then 2 else 0)) = Some ch -> 0 < ch < 128 ->
  is_Some (mem s !! chr) -> apart chr 1 b VT_KEYBOARD_BUFSZ ->
  vt_term_find_by_dev n s = Ret p s -> p <> NULL -> terms s !! p = Some t -> outbuf t = RingBuf b2 z2 r2 r2 ->
  1 <= size < 4294967296 -> is_Some (mem s !! dest) -> apart dest 1 b VT_KEYBOARD_BUFSZ ->
  exists s1 s2, keyboard_byte chr code s = Ret tt s1 /\ vt_term_onread n dest size s1 = Ret 1 s2 /\ mem s2 !! dest = Some ch.
Proof.
  intros k Hk Hr Hm He Hc Hl Hcode Hsh Hal Hch Hch2 Hchr Hap Hfind Hp Ht Hob Hsize Hdest Hap2.
  destruct (key_pressed s chr code l ch b r Hk Hr Hm He Hc Hl Hcode Hsh Hal Hch Hch2 Hchr Hap) as (m2 & E1 & Hw & Hm2). fold k in E1.
  set (s1 := set_keyboard _ _) in E1. unfold VT_KEYBOARD_BUFSZ in *.
  assert (B1 : Forall is_byte [ch]) by (repeat constructor; unfold is_byte; lia).
  assert (D2 : mapped m2 dest 1) by (apply Hm2; intros i Hi; replace (dest + i) with dest by lia; done).
  pose proof (RingBuf.read_ok m2 b 128 r [ch] ltac:(lia) Hr ltac:(cbn; lia) B1 dest size Hw Hap2 D2 ltac:(cbn; lia)) as Er.
  change (Z.of_nat (length [ch])) with 1 in Er.
  set (k1 := Keyboard (RingBuf b 128 ((r + 1) mod 128) ((r + 1) mod 128)) false (shift k) (altgr k) false (alt k) (Some l)).
  exists s1, (set_keyboard k1 (set_mem (put dest [ch] m2) s1)). split; [exact E1|].
  assert (E2 : vt_term_find_by_dev n s1 = Ret p s1).
  { unfold vt_term_find_by_dev in *. rewrite bind_gets in *. by apply (find_dev_frame _ _ s). }
  assert (Et : term_at p s1 = Ret t s1) by (unfold term_at; rewrite (proj2 (Z.eqb_neq _ _) Hp); cbn; by rewrite Ht).
  assert (Eo : on_mem (ringbuf_read (outbuf t) dest size) s1 = Ret (0, outbuf t) s1).
  { unfold on_mem. rewrite Hob, ringbuf_read_empty by lia. by destruct s1. }
  assert (Ep : put_term p (Term (display t) (cx t) (cy t) (sbuf t) (height t) (curline t) (tabsize t) (color t) (outbuf t) (dev t)) s1
     = Ret tt s1).
  { unfold put_term, modify, set_terms. f_equal. cbn [terms s1 set_keyboard set_mem]. rewrite insert_id by (by rewrite Ht; destruct t). done. }
  assert (Ek : vt_keyboard_read (dest + 0) (w32 (size - 0)) s1 = Ret 1 (set_keyboard k1 (set_mem (put dest [ch] m2) s1))).
  { unfold vt_keyboard_read. rewrite bind_gets. cbn [Datatypes.id vt_keyboard s1 set_keyboard kbuf]. rewrite Z.add_0_r, Z.sub_0_r, w32_small by lia.
    rewrite (bind_Ret _ _ _ (1, RingBuf b 128 ((r + 1) mod 128) ((r + 1) mod 128)) (set_mem (put dest [ch] m2) s1)); [done|].
    unfold on_mem. cbn [mem s1 set_keyboard set_mem]. by rewrite Er. }
  split.
  - unfold vt_term_onread. rewrite (bind_Ret _ _ _ _ _ E2), (proj2 (Z.eqb_neq _ _) Hp), (bind_Ret _ _ _ _ _ Et), (bind_Ret _ _ _ _ _ Eo).
    cbn [fst snd]. by rewrite (bind_Ret _ _ _ _ _ Ep), (bind_Ret _ _ _ _ _ Ek).
  - cbn. apply lookup_insert_eq.
Qed.

(** ** A small terminal *)

Module Small.
(** Four columns, two of the rows are shown. *)
Definition small_display : vt_display_t := Display 100 (Mode 4 2 2 true).
Definition text_in : list Z := [65; 66; 67; 68; 69; 10; 70; 8; 71].
(** Every key is "a", but the control key and F1 have no character. *)
Definition lay : list Z := <[117%nat := 0]> (<[237%nat := 0]> (repeat 97 1024)).
Definition kb : vt_keyboard_t := Keyboard (RingBuf 7000 128 127 127) false true false false false (Some lay).

Definition blocks : bytes :=
  put 8000 [0; 0] (put 7000 (repeat 0 128) (put 5000 (repeat 0 400) (put 100 (repeat 0 16) (put 50 text_in ∅)))).

Definition server : vterm :=
  Vterm blocks {[1 := small_display]} [1] kb {[2 := Term 1 0 0 5000 100 0 8 7 (RingBuf 0 128 0 0) 9]} [2] (repeat NULL 12) NULL 1.

(** "ABCD" fills a row, "E" is in the next one, "G" over "F" in the third. *)
Ltac num := unfold VT_TERM_SCREENBUF_HEIGHT; cbn [w h mode small_display]; lia.

Lemma term_write_refines_witness : exists s' t',
  vt_term_onwrite 9 50 9 server = Ret 9 s' /\ terms s' !! 2 = Some t' /\ cx t' = 1 /\ cy t' = 2 /\
  block (mem s') 100 [65; 7; 66; 7; 67; 7; 68; 7; 69; 7; 0; 0; 0; 0; 0; 0].
Proof.
  destruct (term_write_refines server 2 1 5000 0 0 7 (RingBuf 0 128 0 0) 9 small_display text_in (Screen (repeat 0 200) 0 0)
    (Screen ([1857; 1858; 1859; 1860; 1861; 0; 0; 0; 1863] ++ repeat 0 191) 1 2) 50)
    as (s' & t' & E & Ht & Hx & Hy & _ & _ & _ & Hb & _);
    [discriminate|discriminate|reflexivity|reflexivity|reflexivity|cbn; lia|reflexivity|num|num|reflexivity| |
     reflexivity|reflexivity|num|num| | |cbn; lia| | | |vm_compute; reflexivity|].
  - cbn [mem server cells]. unfold blocks. rewrite screen_bytes_zero. apply block_put_out; [rewrite ?repeat_length; cbn [length]; lia|].
    apply block_put_out; [rewrite !repeat_length; lia|]. apply put_block.
  - repeat constructor; unfold VT_ESCAPE_CHAR; lia.
  - cbn [mem server]. unfold blocks. do 4 (apply block_put_out; [rewrite ?repeat_length; cbn [length text_in]; lia|]). apply put_block.
  - unfold apart, VT_TERM_SCREENBUF_HEIGHT. cbn [length text_in w mode small_display]. lia.
  - cbn [mem server]. unfold blocks. do 3 apply put_mapped. by apply put_is_mapped.
  - unfold apart, VT_TERM_SCREENBUF_HEIGHT. cbn [buffer h w mode small_display]. lia.
  - exists s', t'. split_and!; [exact E|exact Ht|exact Hx|exact Hy|exact Hb].
Defined.

(** Clearing the screen: ESC [ J *)
Lemma escape_overruns_witness :
  vt_escape_decode 10 (put 10 [27; 91; 74] ∅) = Stop OutOfBounds (put 10 [27; 91; 74] ∅).
Proof. apply (escape_overruns _ 10 74); (reflexivity || lia). Defined.

(** With control held, F1 would switch: the key is code 29, the alt key 56, F1 59. *)
Lemma keyboard_never_switches_witness :
  match vt_keyboard_irqhandler 8000 [29; 56; 59] server with Ret _ s' => vt_curterm s' = NULL | Stop _ _ => False end.
Proof.
  destruct (vt_keyboard_irqhandler 8000 [29; 56; 59] server) as [[] s'|r s'] eqn:E.
  - exact (proj2 (keyboard_never_switches 8000 [29; 56; 59] server s' E) eq_refl).
  - vm_compute in E. discriminate E.
Defined.

(** The key with code 30, at the last position of the ring buffer. *)
Lemma key_reaches_reader_witness : exists s1 s2,
  keyboard_byte 8000 30 server = Ret tt s1 /\ vt_term_onread 9 8001 5 s1 = Ret 1 s2 /\ mem s2 !! 8001 = Some 97.
Proof.
  apply (key_reaches_reader server 2 (Term 1 0 0 5000 100 0 8 7 (RingBuf 0 128 0 0) 9) 9 8000 30 lay 97 7000 127 0 128 0 8001 5);
    [reflexivity|unfold VT_KEYBOARD_BUFSZ; lia| |reflexivity|reflexivity|reflexivity|lia|reflexivity|reflexivity|reflexivity|lia|
     by vm_compute; eexists|unfold apart, VT_KEYBOARD_BUFSZ; lia|reflexivity|discriminate|reflexivity|reflexivity|lia|
     by vm_compute; eexists|unfold apart, VT_KEYBOARD_BUFSZ; lia].
  cbn [mem server]. unfold blocks. apply put_mapped. by apply put_is_mapped.
Defined.

(** ** What goes wrong *)

(** A terminal of the real size: the buffer of 8000 bytes is at 10000, and position and
    colour happen to be 0. *)
Definition real : vterm :=
  match (pd ← vt_display_create 100; vt_term_create 0 0 pd 10000 20000 9)
    (Vterm (put 100 (repeat 0 4000) (put 50 (repeat 10 50) ∅)) ∅ [] kb ∅ [] (repeat NULL 12) NULL 0) with
  | Ret _ s => s
  | Stop _ s => s
  end.

(** The buffer has a byte for each cell and a cell needs two: the first character of row
    50 is stored behind it. *)
Example screen_overrun :
  match (vt_term_onwrite 9 50 50;; p ← vt_term_find_by_dev 9; vt_term_printchar p 65) real with
  | Stop (PageFault a) _ => a = 18000
  | _ => False
  end.
Proof. vm_compute. reflexivity. Qed.

(** A new terminal has no position. *)
Example position_not_set :
  match (vt_term_create 123456789 0 1 10000 20000 4;; p ← vt_term_find_by_dev 4; vt_term_printchar p 65) server with
  | Stop (PageFault _) _ => True
  | _ => False
  end.
Proof. vm_compute. exact I. Qed.

(** Two keys are typed without being read when the reader is at the last place: the size
    of the second part of the copy is negative. *)
Example second_key_crashes :
  match vt_keyboard_irqhandler 8000 [30; 30] server with Stop (PageFault _) _ => True | _ => False end.
Proof. vm_compute. exact I. Qed.
End Small.
