(* ===== verification/Printf.v ===== *)
(** * Formatted output (apps/lib/stdlibc/vsnprintf.c and the functions built on it)

    [vsnprintf] walks over the format with a state machine and writes what fits into the
    buffer; the number of characters goes on counting.  Memory is that of CString, the
    variable arguments are the words on the stack, of which a [long long] takes two.

    [vsnprintf_correct] says what the buffer holds afterwards, for formats built from
    text and directives, whose meaning is given by [render]. *)

From S2P Require Import Prelude Machine CString Pack.

(** ** Flags *)

Definition FL_ZERO : Z := 1.
Definition FL_MINUS : Z := 2.
Definition FL_PLUS : Z := 4.
Definition FL_TICK : Z := 8.
Definition FL_SPACE : Z := 16.
Definition FL_HASH : Z := 32.
Definition FL_SIGNED : Z := 64.
Definition FL_UPPER : Z := 128.

(** [flags & x] as a condition *)
Definition has (flags x : Z) : bool := negb (Z.land flags x =? 0).

Definition rank_char : Z := -2.
Definition rank_short : Z := -1.
Definition rank_int : Z := 0.
Definition rank_long : Z := 1.
Definition rank_longlong : Z := 2.

Definition lcdigits : list Z := [48; 49; 50; 51; 52; 53; 54; 55; 56; 57; 97; 98; 99; 100; 101; 102].
Definition ucdigits : list Z := [48; 49; 50; 51; 52; 53; 54; 55; 56; 57; 65; 66; 67; 68; 69; 70].

(** ** Output *)

(** Where the next character goes and how many there have been. *)
Abbreviation cursor := (Z * Z)%type.

Definition EMIT (n x : Z) (c : cursor) : cmd bytes cursor :=
  let '(q, o) := c in
  if o <? n then st q x;; mret (q + 1, w32 (o + 1)) else mret (q, w32 (o + 1)).

(** [while (width>nchars) { EMIT(x); width--; }], with [k] rounds left *)
Fixpoint pad (k : nat) (n x : Z) (c : cursor) : cmd bytes cursor :=
  match k with O => mret c | S k => c ← EMIT n x c; pad k n x c end.

(** The loop that counts digits: a number of 64 bits has at most 64. *)
Fixpoint count_digits (fuel : nat) (tmpval base ndigits : Z) : Z :=
  match fuel with
  | O => ndigits
  | S fuel => if tmpval =? 0 then ndigits else count_digits fuel (tmpval / base) base (ndigits + 1)
  end.

(** [if (oo<n) *qq = x] *)
Definition put_at (n qq oo x : Z) : cmd bytes unit := if oo <? n then st qq x else mret tt.

(** From right to left; every round takes at least one of [ndigits]. *)
Fixpoint number_loop (fuel : nat) (n qq oo ndigits b4tick tickskip val base : Z) (digits : list Z) : cmd bytes unit :=
  match fuel with
  | O => mret tt
  | S fuel =>
      if 0 <? ndigits then
        '(qq, oo, ndigits, b4tick) ← (if b4tick =? 0 then
            put_at n (qq - 1) (w32 (oo - 1)) 95;;
            mret (qq - 1, w32 (oo - 1), ndigits - 1, tickskip - 1)
          else mret (qq, oo, ndigits, b4tick - 1));
        put_at n (qq - 1) (w32 (oo - 1)) (nth (Z.to_nat (val mod base)) digits 0);;
        number_loop fuel n (qq - 1) (w32 (oo - 1)) (ndigits - 1) b4tick tickskip (val / base) base digits
      else mret tt
  end.

(** The result is the number of characters.  A division by zero would be [Panic]. *)
Definition format_int (q n val flags base width prec : Z) : cmd bytes Z :=
  let digits := if has flags FL_UPPER then ucdigits else lcdigits in
  let minus := has flags FL_SIGNED && (s64 val <? 0) in
  let val := if minus then w64 (- s64 val) else val in
  let ndigits := count_digits 64 val base 0 in
  let prec := if has flags FL_HASH && (base =? 8) && (prec <? ndigits + 1) then ndigits + 1 else prec in
  let ndigits := if ndigits <? prec then prec else if val =? 0 then 1 else ndigits in
  let tickskip := if has flags FL_TICK then if base =? 16 then 4 else 3 else ndigits in
  if tickskip =? 0 then stop_with Panic
  else
    let ndigits := s32 (ndigits + Z.quot (ndigits - 1) tickskip) in
    let sign := minus || has flags (Z.lor FL_PLUS FL_SPACE) in
    let hex := has flags FL_HASH && (base =? 16) in
    let nchars := s32 (ndigits + (if sign then 1 else 0) + (if hex then 2 else 0)) in
    let early := negb (has flags (Z.lor FL_MINUS FL_ZERO)) in
    c ← pad (if early then Z.to_nat (width - nchars) else 0) n 32 (q, 0);
    let width := if early && (nchars <? width) then nchars else width in
    c ← (if minus then EMIT n 45 c
         else if has flags FL_PLUS then EMIT n 43 c
         else if has flags FL_SPACE then EMIT n 32 c
         else mret c);
    c ← (if hex then c ← EMIT n 48 c; EMIT n (if has flags FL_UPPER then 88 else 120) c else mret c);
    let zeros := (Z.land flags (Z.lor FL_MINUS FL_ZERO) =? FL_ZERO) && (ndigits <? width) in
    c ← pad (if zeros then Z.to_nat (width - nchars) else 0) n 48 c;
    let width := if zeros && (nchars <? width) then nchars else width in
    let q := c.1 + ndigits in
    let o := w32 (c.2 + ndigits) in
    number_loop (Z.to_nat ndigits) n q o ndigits tickskip tickskip val base digits;;
    c ← pad (if has flags FL_MINUS then Z.to_nat (width - nchars) else 0) n 32 (q, o);
    mret c.2.

(** ** Arguments *)

Definition va_word (ap : list Z) : cmd bytes (Z * list Z) :=
  match ap with x :: ap => mret (w32 x, ap) | [] => stop_with OutOfBounds end.

(** [va_arg] of an integer of the rank, converted to [uintmax_t] *)
Definition va_signed (rank : Z) (ap : list Z) : cmd bytes (Z * list Z) :=
  '(x, ap) ← va_word ap;
  if rank =? rank_char then mret (w64 (s8 x), ap)
  else if rank =? rank_short then mret (w64 (s16 x), ap)
  else if rank =? rank_longlong then '(y, ap) ← va_word ap; mret (x + 4294967296 * y, ap)
  else mret (w64 (s32 x), ap).

Definition va_unsigned (rank : Z) (ap : list Z) : cmd bytes (Z * list Z) :=
  '(x, ap) ← va_word ap;
  if rank =? rank_char then mret (w8 x, ap)
  else if rank =? rank_short then mret (w16 x, ap)
  else if rank =? rank_longlong then '(y, ap) ← va_word ap; mret (x + 4294967296 * y, ap)
  else mret (x, ap).

Definition rank_size (rank : Z) : nat :=
  if rank =? rank_char then 1 else if rank =? rank_short then 2 else if rank =? rank_longlong then 8 else 4.

(** ** The state machine *)

Inductive pstate := st_normal | st_flags | st_width | st_prec | st_modifiers.

(** The local variables. *)
Record fmt := Fmt {
  state : pstate;
  at_ : cursor;
  rank : Z;
  width : Z;
  prec : Z;
  flags : Z;
  ap : list Z;
}.

Definition set_state (s : pstate) (f : fmt) : fmt := Fmt s (at_ f) (rank f) (width f) (prec f) (flags f) (ap f).
Definition set_at (c : cursor) (f : fmt) : fmt := Fmt (state f) c (rank f) (width f) (prec f) (flags f) (ap f).
Definition set_rank (r : Z) (f : fmt) : fmt := Fmt (state f) (at_ f) r (width f) (prec f) (flags f) (ap f).
Definition set_width (w : Z) (f : fmt) : fmt := Fmt (state f) (at_ f) (rank f) w (prec f) (flags f) (ap f).
Definition set_prec (p : Z) (f : fmt) : fmt := Fmt (state f) (at_ f) (rank f) (width f) p (flags f) (ap f).
Definition add_flag (x : Z) (f : fmt) : fmt :=
  Fmt (state f) (at_ f) (rank f) (width f) (prec f) (Z.lor (flags f) x) (ap f).
Definition set_ap (a : list Z) (f : fmt) : fmt := Fmt (state f) (at_ f) (rank f) (width f) (prec f) (flags f) a.

Definition flag_of (ch : Z) : option Z :=
  if ch =? 45 then Some FL_MINUS else if ch =? 43 then Some FL_PLUS else if ch =? 39 then Some FL_TICK
  else if ch =? 32 then Some FL_SPACE else if ch =? 35 then Some FL_HASH else if ch =? 48 then Some FL_ZERO
  else None.

(** The new rank for a length modifier. *)
Definition modified (ch rank : Z) : option Z :=
  if ch =? 104 then Some (s32 (rank - 1))
  else if ch =? 108 then Some (s32 (rank + 1))
  else if ch =? 106 then Some rank_longlong
  else if ch =? 122 then Some rank_long
  else if ch =? 116 then Some rank_long
  else if (ch =? 76) || (ch =? 113) then Some (s32 (rank + 2))
  else None.

(** Canonicalize rank. *)
Definition canonical (rank : Z) : Z :=
  if rank <? rank_char then rank_char else if rank_longlong <? rank then rank_longlong else rank.

(** [is_integer] *)
Definition is_integer (n val base : Z) (f : fmt) : cmd bytes fmt :=
  let '(q, o) := at_ f in
  sz ← format_int q (if o <? n then n - o else 0) val (flags f) base (width f) (prec f);
  mret (set_at (q + sz, w32 (o + sz)) f).

Definition is_unsigned (n base : Z) (f : fmt) : cmd bytes fmt :=
  '(val, ap) ← va_unsigned (rank f) (ap f); is_integer n val base (set_ap ap f).

(** [for (i=slen;i;i--) { sch = *sarg++; EMIT(sch); }] *)
Fixpoint emit_string (k : nat) (n sarg : Z) (c : cursor) : cmd bytes cursor :=
  match k with O => mret c | S k => x ← ldc sarg; c ← EMIT n x c; emit_string k n (sarg + 1) c end.

(** The same for characters that are not in the memory of the model: the local variable of
    [%c] and the constant for NULL. *)
Fixpoint emit_chars (k : nat) (n : Z) (xs : list Z) (c : cursor) : cmd bytes cursor :=
  match k, xs with
  | O, _ => mret c
  | S k, x :: xs => c ← EMIT n x c; emit_chars k n xs c
  | S k, [] => stop_with OutOfBounds
  end.

Definition null_text : list Z := [40; 110; 117; 108; 108; 41].

(** [is_string]; [emit] writes as many characters as it is told to. *)
Definition is_string (n slen : Z) (emit : nat -> cursor -> cmd bytes cursor) (f : fmt) : cmd bytes fmt :=
  let slen := if negb (prec f =? -1) && (prec f <? slen) then prec f else slen in
  let early := (slen <? width f) && negb (has (flags f) FL_MINUS) in
  c ← pad (if early then Z.to_nat (width f - slen) else 0) n (if has (flags f) FL_ZERO then 48 else 32) (at_ f);
  let width := if early then slen else width f in
  c ← (if slen <? 0 then stop_with Hang else emit (Z.to_nat slen) c);
  c ← pad (if (slen <? width) && has (flags f) FL_MINUS then Z.to_nat (width - slen) else 0) n 32 c;
  mret (set_at c f).

(** The output modifiers. *)
Definition convert (n ch : Z) (f : fmt) : cmd bytes fmt :=
  if (ch =? 80) || (ch =? 112) then
    let f := if ch =? 80 then add_flag FL_UPPER f else f in
    '(val, ap) ← va_word (ap f); is_integer n val 16 (set_ap ap (add_flag FL_HASH (set_prec 8 f)))
  else if (ch =? 100) || (ch =? 105) then
    let f := add_flag FL_SIGNED f in
    '(val, ap) ← va_signed (rank f) (ap f); is_integer n val 10 (set_ap ap f)
  else if ch =? 111 then is_unsigned n 8 f
  else if ch =? 117 then is_unsigned n 10 f
  else if ch =? 88 then is_unsigned n 16 (add_flag FL_UPPER f)
  else if ch =? 120 then is_unsigned n 16 f
  else if ch =? 99 then
    '(x, ap) ← va_word (ap f); is_string n 1 (fun k => emit_chars k n [s8 x]) (set_ap ap f)
  else if ch =? 115 then
    '(sarg, ap) ← va_word (ap f);
    if sarg =? NULL then is_string n 6 (fun k => emit_chars k n null_text) (set_ap ap f)
    else len ← strlen sarg; is_string n (s32 len) (fun k => emit_string k n sarg) (set_ap ap f)
  else if ch =? 110 then
    '(p, ap) ← va_word (ap f); stn p (le_bytes (rank_size (rank f)) (at_ f).2);; mret (set_ap ap f)
  else c ← EMIT n ch (at_ f); mret (set_at c f).

(** One character in the present state; true: it is processed again. *)
Definition step (n ch : Z) (f : fmt) : cmd bytes (bool * fmt) :=
  match state f with
  | st_normal =>
      if ch =? 37 then mret (false, Fmt st_flags (at_ f) rank_int 0 (-1) 0 (ap f))
      else c ← EMIT n ch (at_ f); mret (false, set_at c f)
  | st_flags =>
      match flag_of ch with
      | Some x => mret (false, add_flag x f)
      | None => mret (true, set_state st_width f)
      end
  | st_width =>
      if (48 <=? ch) && (ch <=? 57) then mret (false, set_width (s32 (width f * 10 + (ch - 48))) f)
      else if ch =? 42 then
        '(x, ap) ← va_word (ap f);
        let w := s32 x in
        mret (false, if w <? 0 then add_flag FL_MINUS (set_width (s32 (- w)) (set_ap ap f)) else set_width w (set_ap ap f))
      else if ch =? 46 then mret (false, set_state st_prec (set_prec 0 f))
      else mret (true, set_state st_modifiers f)
  | st_prec =>
      if (48 <=? ch) && (ch <=? 57) then mret (false, set_prec (s32 (prec f * 10 + (ch - 48))) f)
      else if ch =? 42 then
        '(x, ap) ← va_word (ap f); mret (false, set_prec (if s32 x <? 0 then -1 else s32 x) (set_ap ap f))
      else mret (true, set_state st_modifiers f)
  | st_modifiers =>
      match modified ch (rank f) with
      | Some r => mret (false, set_rank r f)
      | None => f ← convert n ch (set_state st_normal (set_rank (canonical (rank f)) f)); mret (false, f)
      end
  end.

Fixpoint format_loop (fuel : nat) (n p : Z) (f : fmt) : cmd bytes fmt :=
  match fuel with
  | O => stop_with Hang
  | S fuel =>
      ch ← ldc p;
      if ch =? 0 then mret f
      else '(again, f) ← step n ch f; format_loop fuel n (if again : bool then p else p + 1) f
  end.

(** A character is processed at most three times. *)
Definition vsnprintf (buffer n format : Z) (ap : list Z) : cmd bytes Z := fun m =>
  (f ← format_loop (3 * scan_fuel m) n format (Fmt st_normal (buffer, 0) rank_int 0 (-1) 0 ap);
   let '(q, o) := at_ f in
   (if o <? n then st q 0 else if 0 <? n then st (buffer + n - 1) 0 else mret tt);;
   mret (s32 o)) m.

(** [~(size_t)0] *)
Definition vsprintf (buffer format : Z) (ap : list Z) : cmd bytes Z := vsnprintf buffer 4294967295 format ap.
Definition snprintf (buffer n format : Z) (ap : list Z) : cmd bytes Z := vsnprintf buffer n format ap.
Definition sprintf (buffer format : Z) (ap : list Z) : cmd bytes Z := vsnprintf buffer 4294967295 format ap.

(** [p] is what [malloc] gives for that many bytes. *)
Definition vasprintf (malloc : Z -> cmd bytes Z) (format : Z) (ap : list Z) : cmd bytes (Z * Z) :=
  len ← vsnprintf NULL 0 format ap;
  p ← malloc (w32 (len + 1));
  if p =? NULL then mret (-1, p) else r ← vsnprintf p (w32 (len + 1)) format ap; mret (r, p).

(** * Specification *)

(** The digits of a number, without leading zeros. *)
Fixpoint radix (fuel : nat) (base v : Z) : list Z :=
  match fuel with
  | O => []
  | S fuel => if v =? 0 then [] else radix fuel base (v / base) ++ [v mod base]
  end.

(** Digits with an underscore after every [skip] of them, from the last one on; the
    lists are reversed. *)
Fixpoint ticks (run skip : nat) (rs : list Z) : list Z :=
  match rs with
  | [] => []
  | r :: rs => match run with O => 95 :: r :: ticks (skip - 1) skip rs | S run => r :: ticks run skip rs end
  end.

Section text.
Variables (flags base : Z) (neg : bool) (mag width prec : Z).

Definition digit (d : Z) : Z := nth (Z.to_nat d) (if has flags FL_UPPER then ucdigits else lcdigits) 0.

Definition min_digits : Z :=
  let len := Z.of_nat (length (radix 64 base mag)) in
  Z.max 1 (if has flags FL_HASH && (base =? 8) then Z.max prec (len + 1) else prec).

Definition places : list Z :=
  let ds := radix 64 base mag in replicate (Z.to_nat min_digits - length ds) 0 ++ ds.

Definition number_body : list Z :=
  let xs := digit <$> places in
  let skip := if base =? 16 then 4%nat else 3%nat in
  if has flags FL_TICK then reverse (ticks skip skip (reverse xs)) else xs.

Definition number_sign : list Z :=
  (if neg then [45] else if has flags FL_PLUS then [43] else if has flags FL_SPACE then [32] else []) ++
  (if has flags FL_HASH && (base =? 16) then [48; if has flags FL_UPPER then 88 else 120] else []).

(** Sign, prefix and digits, filled with spaces or zeros to the width. *)
Definition number_text : list Z :=
  let fill := Z.to_nat (width - Z.of_nat (length number_sign + length number_body)) in
  if has flags FL_MINUS then number_sign ++ number_body ++ replicate fill 32
  else if has flags FL_ZERO then number_sign ++ replicate fill 48 ++ number_body
  else replicate fill 32 ++ number_sign ++ number_body.
End text.

(** ** Formats *)

(** A width or precision: digits (as numbers) or an asterisk. *)
Inductive field := Fixed (ds : list Z) | Star.

Record directive := Directive {
  d_flags : list Z;
  d_width : field;
  d_prec : option field;
  d_mods : list Z;
  d_conv : Z;
}.

Inductive item := Text (c : Z) | Conv (d : directive).

Definition show_field (x : field) : list Z := match x with Fixed ds => (fun d => 48 + d) <$> ds | Star => [42] end.

Definition show_tail (d : directive) : list Z :=
  from_option (fun x => 46 :: show_field x) [] (d_prec d) ++ d_mods d ++ [d_conv d].

Definition show_item (i : item) : list Z :=
  match i with Text c => [c] | Conv d => 37 :: d_flags d ++ show_field (d_width d) ++ show_tail d end.

Definition num (ds : list Z) : Z := fold_left (fun a d => a * 10 + d) ds 0.

(** "d i o u x X p P c s %" *)
Definition conv_chars : list Z := [100; 105; 111; 117; 120; 88; 112; 80; 99; 115; 37].
(** "h l j z t L q" *)
Definition mod_chars : list Z := [104; 108; 106; 122; 116; 76; 113].
(** "- + ' space # 0" *)
Definition flag_chars : list Z := [45; 43; 39; 32; 35; 48].

Definition ok_field (x : field) : Prop :=
  match x with Fixed ds => Forall (fun d => 0 <= d <= 9) ds /\ num ds < 2147483648 | Star => True end.

(** A width does not start with 0, which would be a flag. *)
Definition ok_item (i : item) : Prop :=
  match i with
  | Text c => 0 < c < 256 /\ c <> 37
  | Conv d => Forall (fun c => c ∈ flag_chars) (d_flags d) /\ ok_field (d_width d) /\
      (forall ds, d_width d = Fixed ds -> head ds <> Some 0) /\ from_option ok_field True (d_prec d) /\
      Forall (fun c => c ∈ mod_chars) (d_mods d) /\ d_conv d ∈ conv_chars
  end.

(** ** Their meaning *)

Definition flags_of (cs : list Z) : Z := fold_left (fun f c => Z.lor f (default 0 (flag_of c))) cs 0.
Definition rank_of (ms : list Z) : Z := canonical (fold_left (fun r c => default r (modified c r)) ms rank_int).

Definition word (ap : list Z) : option (Z * list Z) :=
  match ap with x :: ap => Some (w32 x, ap) | [] => None end.

Definition field_value (x : field) (ap : list Z) : option (Z * list Z) :=
  match x with Fixed ds => Some (num ds, ap) | Star => '(v, ap) ← word ap; Some (s32 v, ap) end.

(** The value of an integer argument. *)
Definition signed_arg (rank : Z) (ap : list Z) : option (Z * list Z) :=
  '(x, ap) ← word ap;
  if rank =? rank_char then Some (s8 x, ap)
  else if rank =? rank_short then Some (s16 x, ap)
  else if rank =? rank_longlong then '(y, ap) ← word ap; Some (s64 (x + 4294967296 * y), ap)
  else Some (s32 x, ap).

Definition unsigned_arg (rank : Z) (ap : list Z) : option (Z * list Z) :=
  '(x, ap) ← word ap;
  if rank =? rank_char then Some (w8 x, ap)
  else if rank =? rank_short then Some (w16 x, ap)
  else if rank =? rank_longlong then '(y, ap) ← word ap; Some (x + 4294967296 * y, ap)
  else Some (x, ap).

Definition unsigned_text (flags base width prec : Z) (x : Z * list Z) : list Z * list Z :=
  (number_text flags base false x.1 width prec, x.2).

(** Characters, cut at the precision and filled to the width. *)
Definition string_text (flags width prec : Z) (x : list Z) : list Z :=
  let x := if prec =? -1 then x else take (Z.to_nat prec) x in
  let fill := Z.to_nat (width - Z.of_nat (length x)) in
  if has flags FL_MINUS then x ++ replicate fill 32
  else replicate fill (if has flags FL_ZERO then 48 else 32) ++ x.

Section render.
(** The strings behind pointers. *)
Variable strs : Z -> option (list Z).

Definition conv_text (c flags rank width prec : Z) (ap : list Z) : option (list Z * list Z) :=
  if (c =? 100) || (c =? 105) then
    '(v, ap) ← signed_arg rank ap; Some (number_text flags 10 (v <? 0) (Z.abs v) width prec, ap)
  else if c =? 111 then unsigned_text flags 8 width prec <$> unsigned_arg rank ap
  else if c =? 117 then unsigned_text flags 10 width prec <$> unsigned_arg rank ap
  else if c =? 120 then unsigned_text flags 16 width prec <$> unsigned_arg rank ap
  else if c =? 88 then unsigned_text (Z.lor flags FL_UPPER) 16 width prec <$> unsigned_arg rank ap
  else if c =? 112 then unsigned_text (Z.lor flags FL_HASH) 16 width 8 <$> word ap
  else if c =? 80 then unsigned_text (Z.lor (Z.lor flags FL_UPPER) FL_HASH) 16 width 8 <$> word ap
  else if c =? 99 then '(x, ap) ← word ap; Some (string_text flags width prec [w8 x], ap)
  else if c =? 115 then
    '(a, ap) ← word ap;
    x ← (if a =? NULL then Some null_text else strs a);
    Some (string_text flags width prec x, ap)
  else Some ([c], ap).

(** A negative width from an argument is a flag and a width; a negative precision is
    none. *)
Definition render_item (i : item) (ap : list Z) : option (list Z * list Z) :=
  match i with
  | Text c => Some ([c], ap)
  | Conv d =>
      '(w, ap) ← field_value (d_width d) ap;
      if w =? -2147483648 then None
      else
        let flags := flags_of (d_flags d) in
        let flags := if w <? 0 then Z.lor flags FL_MINUS else flags in
        '(p, ap) ← (match d_prec d with None => Some (-1, ap) | Some x => field_value x ap end);
        conv_text (d_conv d) flags (rank_of (d_mods d)) (Z.abs w) (if p <? 0 then -1 else p) ap
  end.

Fixpoint render (its : list item) (ap : list Z) : option (list Z) :=
  match its with
  | [] => Some []
  | i :: its => '(x, ap) ← render_item i ap; y ← render its ap; Some (x ++ y)
  end.
End render.

(** * Properties *)

(** ** Flags *)

Lemma has_lor_l f g x : has (Z.lor f g) x = has f x || has g x.
Proof.
  unfold has. rewrite Z.land_lor_distr_l.
  destruct (Z.eqb_spec (Z.lor (Z.land f x) (Z.land g x)) 0) as [E|E].
  - apply Z.lor_eq_0_iff in E as [-> ->]. done.
  - destruct (Z.eqb_spec (Z.land f x) 0) as [E1|]; [|done]. destruct (Z.eqb_spec (Z.land g x) 0) as [E2|]; [|done].
    by rewrite E1, E2 in E.
Qed.

Lemma has_comm f x : has f x = has x f.
Proof. unfold has. by rewrite Z.land_comm. Qed.

Lemma has_lor_r f x y : has f (Z.lor x y) = has f x || has f y.
Proof. rewrite has_comm, has_lor_l, (has_comm x), (has_comm y). done. Qed.

Lemma zero_only f : (Z.land f (Z.lor FL_MINUS FL_ZERO) =? FL_ZERO) = has f FL_ZERO && negb (has f FL_MINUS).
Proof.
  unfold has. change (Z.lor FL_MINUS FL_ZERO) with (Z.ones 2). rewrite Z.land_ones by lia.
  assert (E : forall k, 0 <= k < 4 -> Z.land f k = Z.land (f mod 2 ^ 2) k).
  { intros k Hk. rewrite <- (Z.mod_small k (2 ^ 2)) at 1 by (change (2 ^ 2) with 4; lia).
    rewrite <- !Z.land_ones, (Z.land_comm k), Z.land_assoc by lia. done. }
  unfold FL_MINUS, FL_ZERO in *. rewrite !E by lia. pose proof (Z.mod_pos_bound f (2 ^ 2) ltac:(lia)) as H.
  change (2 ^ 2) with 4 in *. assert (H4 : f mod 4 = 0 \/ f mod 4 = 1 \/ f mod 4 = 2 \/ f mod 4 = 3) by lia.
  by destruct H4 as [->|[->|[->| ->]]].
Qed.

(** ** Digits *)

Lemma count_digits_ok fuel base : forall v k,
  count_digits fuel v base k = k + Z.of_nat (length (radix fuel base v)).
Proof.
  induction fuel as [|fuel IH]; intros v k; cbn [count_digits radix]; [simpl; lia|].
  destruct (v =? 0); [simpl; lia|]. rewrite IH, length_app. simpl. lia.
Qed.

(** The last [k] digits, the last one first. *)
Fixpoint rplaces (k : nat) (base v : Z) : list Z :=
  match k with O => [] | S k => v mod base :: rplaces k base (v / base) end.

Lemma rplaces_length k base : forall v, length (rplaces k base v) = k.
Proof. induction k as [|k IH]; intros v; [done|]. simpl. by rewrite IH. Qed.

Lemma rplaces_zero k base : rplaces k base 0 = replicate k 0.
Proof. induction k as [|k IH]; [done|]. simpl. by rewrite Zmod_0_l, Zdiv_0_l, IH. Qed.

Lemma radix_places fuel base j : 1 < base -> forall v, 0 <= v < base ^ Z.of_nat fuel ->
  reverse (replicate j 0 ++ radix fuel base v) = rplaces (j + length (radix fuel base v)) base v.
Proof.
  intros Hb. assert (Hz : reverse (replicate j 0 ++ []) = rplaces (j + 0) base 0).
  { by rewrite app_nil_r, Nat.add_0_r, rplaces_zero, reverse_replicate. }
  induction fuel as [|fuel IH]; intros v Hv; cbn [radix].
  { replace v with 0 by (simpl in Hv; lia). exact Hz. }
  destruct (Z.eqb_spec v 0) as [->|Hn]; [exact Hz|].
  rewrite app_assoc, reverse_app, length_app, IH.
  - cbn [length]. replace (j + (length (radix fuel base (v / base)) + 1))%nat
      with (S (j + length (radix fuel base (v / base)))) by lia. done.
  - split; [apply Z.div_pos; lia|]. apply Z.div_lt_upper_bound; [lia|].
    rewrite Nat2Z.inj_succ, Z.pow_succ_r in Hv by lia. lia.
Qed.

Lemma ticks_length skip rs : (0 < skip)%nat -> forall run, (run <= skip)%nat ->
  length (ticks run skip rs) = (length rs + (length rs + skip - 1 - run) / skip)%nat.
Proof.
  intros Hs. induction rs as [|r rs IH]; intros run Hl; cbn [ticks length].
  { by rewrite Nat.div_small by lia. }
  destruct run as [|run]; cbn [length]; rewrite IH by lia.
  - replace (length rs + skip - 1 - (skip - 1))%nat with (length rs) by lia.
    replace (S (length rs) + skip - 1 - 0)%nat with (length rs + 1 * skip)%nat by lia. rewrite Nat.div_add by lia. lia.
  - replace (length rs + skip - 1 - run)%nat with (S (length rs) + skip - 1 - S run)%nat by lia. lia.
Qed.

Lemma ticks_none skip rs : forall run, (length rs <= run)%nat -> ticks run skip rs = rs.
Proof.
  induction rs as [|r rs IH]; intros run Hl; [done|]. destruct run as [|run]; [simpl in Hl; lia|].
  cbn [ticks]. by rewrite IH by (simpl in Hl; lia).
Qed.

(** ** Writing *)

(** Below [n] characters, what has been written is in the buffer at [q0]; the rest is only
    counted, and the pointer stays behind. *)
Definition wrote (q0 n : Z) (m0 : bytes) (out : list Z) (c : cursor) (m : bytes) : Prop :=
  c.2 = Z.of_nat (length out) /\ (Z.of_nat (length out) <= n -> c.1 = q0 + Z.of_nat (length out)) /\
  m = put q0 (take (Z.to_nat n) out) m0.

Section writing.
Context (q0 n lim : Z) (m0 : bytes).
Hypothesis Hn : 0 <= n < 4294967296.
Hypothesis Hmap : mapped m0 q0 (Z.min n lim).
Hypothesis Hlim : lim < 2147483648.

Lemma wrote_nil : wrote q0 n m0 [] (q0, 0) m0.
Proof using. clear Hn Hmap Hlim lim. split_and!; cbn; [done|lia|by rewrite take_nil]. Qed.

Lemma EMIT_ok out c m x : wrote q0 n m0 out c m -> Z.of_nat (length out) + 1 <= lim ->
  exists c' m', EMIT n x c m = Ret c' m' /\ wrote q0 n m0 (out ++ [w8 x]) c' m'.
Proof.
  destruct c as [q o]. intros (Ho & Hq & ->) Hl. cbn [fst snd] in *. subst o.
  assert (Hlen : Z.of_nat (length (out ++ [w8 x])) = Z.of_nat (length out) + 1) by (rewrite length_app; simpl; lia).
  unfold EMIT. destruct (Z.ltb_spec (Z.of_nat (length out)) n) as [Hlt|Hge].
  - rewrite Hq by lia. eexists _, _. split.
    + unfold st, mbind, cmd_bind. destruct (put_mapped q0 (take (Z.to_nat n) out) _ _ _ Hmap (Z.of_nat (length out)) ltac:(lia)) as [b Hb].
      rewrite Hb. reflexivity.
    + split_and!; cbn [fst snd]; [rewrite w32_small by lia; lia|lia|].
      rewrite !take_ge by (rewrite ?length_app; simpl; lia). by rewrite put_app.
  - eexists _, _. split; [reflexivity|]. split_and!; cbn [fst snd]; [rewrite w32_small by lia; lia|lia|].
    rewrite take_app_le by lia. done.
Qed.

Lemma pad_ok k : forall out c m x, wrote q0 n m0 out c m -> Z.of_nat (length out) + Z.of_nat k <= lim ->
  exists c' m', pad k n x c m = Ret c' m' /\ wrote q0 n m0 (out ++ replicate k (w8 x)) c' m'.
Proof.
  induction k as [|k IH]; intros out c m x Hw Hl; cbn [pad replicate]; [exists c, m; by rewrite app_nil_r|].
  destruct (EMIT_ok out c m x Hw ltac:(lia)) as (c1 & m1 & E1 & W1).
  destruct (IH _ _ _ x W1) as (c2 & m2 & E2 & W2); [rewrite length_app; simpl; lia|].
  exists c2, m2. rewrite (bind_Ret _ _ _ _ _ E1). split; [done|]. by rewrite <- app_assoc in W2.
Qed.

Lemma wrote_app out c m text q' m' :
  wrote q0 n m0 out c m ->
  let n' := if c.2 <? n then n - c.2 else 0 in
  m' = put c.1 (take (Z.to_nat n') text) m ->
  (Z.of_nat (length (out ++ text)) <= n -> q' = c.1 + Z.of_nat (length text)) ->
  wrote q0 n m0 (out ++ text) (q', Z.of_nat (length (out ++ text))) m'.
Proof using Hn.
  clear Hmap Hlim lim. intros (Ho & Hq & ->) n' -> Hq'. unfold wrote. cbn [fst snd]. rewrite length_app in *. split_and!; [done| |].
  - intros Hle. rewrite Hq' by lia. rewrite Hq by lia. lia.
  - subst n'. rewrite Ho. destruct (Z.ltb_spec (Z.of_nat (length out)) n) as [Hlt|Hge].
    + rewrite Hq by lia. rewrite take_app_ge by lia. rewrite put_app, (take_ge out) by lia. f_equal. f_equal. lia.
    + rewrite (take_app_le out) by lia. by rewrite take_0.
Qed.

End writing.

(** One more character, when they are written from right to left. *)
Lemma put_rev n q0 x rs m :
  put q0 (take (Z.to_nat n) (reverse rs)) (if Z.of_nat (length rs) <? n then put (q0 + Z.of_nat (length rs)) [x] m else m) =
  put q0 (take (Z.to_nat n) (reverse (x :: rs))) m.
Proof.
  rewrite reverse_cons. destruct (Z.ltb_spec (Z.of_nat (length rs)) n).
  - rewrite !take_ge by (rewrite ?length_app, length_reverse; simpl; lia).
    rewrite put_app, length_reverse. apply put_comm. rewrite length_reverse. lia.
  - rewrite take_app_le by (rewrite length_reverse; lia). done.
Qed.

Lemma put_at_ok n q0 lo x rs m : is_byte x -> 0 <= lo -> lo + Z.of_nat (length (x :: rs)) < 4294967296 ->
  (Z.of_nat (length rs) < n - lo -> is_Some (m !! (q0 + Z.of_nat (length rs)))) ->
  put_at n (q0 + Z.of_nat (length (x :: rs)) - 1) (w32 (lo + Z.of_nat (length (x :: rs)) - 1)) x m =
  Ret tt (if Z.of_nat (length rs) <? n - lo then put (q0 + Z.of_nat (length rs)) [x] m else m).
Proof.
  intros Hx Hlo Hl Hm. cbn [length] in *. rewrite w32_small by lia. unfold put_at.
  replace (q0 + Z.of_nat (S (length rs)) - 1) with (q0 + Z.of_nat (length rs)) by lia.
  replace (lo + Z.of_nat (S (length rs)) - 1) with (lo + Z.of_nat (length rs)) by lia.
  destruct (Z.ltb_spec (Z.of_nat (length rs)) (n - lo)).
  - rewrite (proj2 (Z.ltb_lt _ _)) by lia. rewrite st_ok by (try done; apply Hm; lia). done.
  - by rewrite (proj2 (Z.ltb_ge _ _)) by lia.
Qed.

Section number.
Context (n q0 lo base : Z) (digits : list Z) (ts : nat).
Hypothesis Hd : Forall is_byte digits.
Hypothesis Hlo : 0 <= lo.
Hypothesis Hts : (0 < ts)%nat.

Definition char_of (d : Z) : Z := nth (Z.to_nat d) digits 0.

Lemma char_of_byte d : is_byte (char_of d).
Proof.
  unfold char_of. destruct (nth_in_or_default (Z.to_nat d) digits 0) as [H| ->]; [|unfold is_byte; lia].
  rewrite Forall_forall in Hd. apply Hd. by apply list_elem_of_In.
Qed.

Definition room (k : nat) (m : bytes) : Prop :=
  forall i, 0 <= i < Z.of_nat k -> i < n - lo -> is_Some (m !! (q0 + i)).

Lemma room_put k j a x m : room k m -> (j <= k)%nat -> room j (put a x m).
Proof.
  intros H Hj i Hi Hn. destruct (put_mapped a x m (q0 + i) 1) with (i := 0) as [b Hb]; [|lia|].
  - intros i' Hi'. replace (q0 + i + i') with (q0 + i) by lia. apply H; lia.
  - rewrite Z.add_0_r in Hb. by eexists.
Qed.

Lemma room_if k j (b : bool) a x m : room k m -> (j <= k)%nat -> room j (if b then put a x m else m).
Proof. intros H Hj. destruct b; [by eapply room_put|]. intros i Hi. apply H. lia. Qed.

(** The digit of a round; [T] is what the following rounds write. *)
Lemma digit_ok fuel b4 v m T (x := char_of (v mod base)) :
  lo + Z.of_nat (length (x :: T)) < 4294967296 -> room (length (x :: T)) m ->
  (forall m', room (length T) m' ->
    number_loop fuel n (q0 + Z.of_nat (length T)) (lo + Z.of_nat (length T)) (Z.of_nat (length T)) b4 (Z.of_nat ts)
      (v / base) base digits m' = Ret tt (put q0 (take (Z.to_nat (n - lo)) (reverse T)) m')) ->
  (put_at n (q0 + Z.of_nat (length (x :: T)) - 1) (w32 (lo + Z.of_nat (length (x :: T)) - 1)) x;;
   number_loop fuel n (q0 + Z.of_nat (length (x :: T)) - 1) (w32 (lo + Z.of_nat (length (x :: T)) - 1))
     (Z.of_nat (length (x :: T)) - 1) b4 (Z.of_nat ts) (v / base) base digits) m =
  Ret tt (put q0 (take (Z.to_nat (n - lo)) (reverse (x :: T))) m).
Proof.
  intros Hl Hr IH. assert (Hx : is_byte x) by apply char_of_byte.
  rewrite (bind_Ret _ _ _ _ _ (put_at_ok n q0 lo x T m Hx Hlo Hl ltac:(intros; apply Hr; cbn [length] in *; lia))).
  replace (q0 + Z.of_nat (length (x :: T)) - 1) with (q0 + Z.of_nat (length T)) by (cbn [length]; lia).
  rewrite w32_small by (cbn [length] in *; lia).
  replace (lo + Z.of_nat (length (x :: T)) - 1) with (lo + Z.of_nat (length T)) by (cbn [length]; lia).
  replace (Z.of_nat (length (x :: T)) - 1) with (Z.of_nat (length T)) by (cbn [length]; lia).
  rewrite IH by (eapply room_if; [exact Hr|cbn [length]; lia]). f_equal. apply put_rev.
Qed.

Lemma number_loop_ok fuel : forall d v b4 m,
  let T := ticks b4 ts (char_of <$> rplaces d base v) in
  (d <= fuel)%nat -> lo + Z.of_nat (length T) < 4294967296 -> room (length T) m ->
  number_loop fuel n (q0 + Z.of_nat (length T)) (lo + Z.of_nat (length T)) (Z.of_nat (length T))
    (Z.of_nat b4) (Z.of_nat ts) v base digits m =
  Ret tt (put q0 (take (Z.to_nat (n - lo)) (reverse T)) m).
Proof.
  induction fuel as [|fuel IH]; intros [|d] v b4 m T Hf Hl Hr; [by destruct (Z.to_nat (n - lo))|lia|by destruct (Z.to_nat (n - lo))|].
  cbn [number_loop]. subst T. cbn [rplaces fmap list_fmap ticks] in *.
  set (x := char_of (v mod base)) in *. destruct b4 as [|b4].
  - set (T := ticks (ts - 1) ts _) in *.
    rewrite (proj2 (Z.ltb_lt _ _)) by (cbn [length]; lia). change (Z.of_nat 0 =? 0) with true. cbv iota.
    rewrite bind_assoc. rewrite (bind_Ret _ _ _ _ _ (put_at_ok n q0 lo 95 (x :: T) m ltac:(unfold is_byte; lia) Hlo Hl
      ltac:(intros; apply Hr; cbn [length] in *; lia))).
    rewrite bind_ret. set (m1 := if _ : bool then _ else m).
    replace (q0 + Z.of_nat (length (95 :: x :: T)) - 1) with (q0 + Z.of_nat (length (x :: T))) by (cbn [length]; lia).
    rewrite (w32_small (lo + Z.of_nat (length (95 :: x :: T)) - 1)) by (cbn [length] in *; lia).
    replace (lo + Z.of_nat (length (95 :: x :: T)) - 1) with (lo + Z.of_nat (length (x :: T))) by (cbn [length]; lia).
    replace (Z.of_nat (length (95 :: x :: T)) - 1) with (Z.of_nat (length (x :: T))) by (cbn [length]; lia).
    replace (Z.of_nat ts - 1) with (Z.of_nat (ts - 1)) by lia.
    etransitivity; [apply (digit_ok fuel _ v m1 T)|subst m1; f_equal; apply put_rev];
      [cbn [length] in *; lia|eapply room_if; [exact Hr|cbn [length]; lia]|].
    intros m' Hm'. apply (IH d); [lia|fold T; cbn [length] in *; lia|done].
  - set (T := ticks b4 ts _) in *.
    rewrite (proj2 (Z.ltb_lt _ _)) by (cbn [length]; lia). rewrite (proj2 (Z.eqb_neq _ _)) by lia. cbv iota.
    rewrite bind_ret. replace (Z.of_nat (S b4) - 1) with (Z.of_nat b4) by lia.
    apply digit_ok; [done..|]. intros m' Hm'. apply (IH d); [lia|fold T; cbn [length] in *; lia|done].
Qed.
End number.

Lemma radix_nil fuel base v : radix (S fuel) base v = [] <-> v = 0.
Proof.
  cbn [radix]. destruct (Z.eqb_spec v 0) as [->|Hv]; [done|].
  split; [|done]. intros H. apply (f_equal length) in H. rewrite length_app in H. simpl in H. lia.
Qed.

Definition digits_for (flags : Z) : list Z := if has flags FL_UPPER then ucdigits else lcdigits.

Lemma digits_for_bytes flags : Forall is_byte (digits_for flags).
Proof. unfold digits_for. destruct (has flags FL_UPPER); repeat constructor; lia. Qed.

Definition tickskip_for (flags base : Z) (d : nat) : nat :=
  if has flags FL_TICK then if base =? 16 then 4%nat else 3%nat else d.

Lemma places_length flags base mag prec : 
  Z.of_nat (length (places flags base mag prec)) = Z.max (min_digits flags base mag prec) (Z.of_nat (length (radix 64 base mag))).
Proof. unfold places. rewrite length_app, length_replicate. unfold min_digits. lia. Qed.

Lemma pow_64 base v : base = 8 \/ base = 10 \/ base = 16 -> v < 18446744073709551616 -> v < base ^ Z.of_nat 64.
Proof. intros [->|[->| ->]] Hv; (eapply Z.lt_le_trans; [exact Hv|]); vm_compute; discriminate. Qed.

(** The digits, read from the right. *)
Lemma number_body_rev flags base mag prec (d := length (places flags base mag prec)) (ts := tickskip_for flags base d) :
  base = 8 \/ base = 10 \/ base = 16 -> 0 <= mag < 18446744073709551616 ->
  number_body flags base mag prec = reverse (ticks ts ts (char_of (digits_for flags) <$> rplaces d base mag)).
Proof.
  intros Hb Hm.
  assert (E : reverse (digit flags <$> places flags base mag prec) = char_of (digits_for flags) <$> rplaces d base mag).
  { rewrite <- fmap_reverse. unfold places. rewrite radix_places; [|lia|split; [lia|apply pow_64; [done|lia]]]. f_equal. f_equal.
    subst d. unfold places. by rewrite length_app, length_replicate. }
  unfold number_body. subst ts. unfold tickskip_for. destruct (has flags FL_TICK); [by rewrite E|].
  rewrite ticks_none by (by rewrite length_fmap, rplaces_length). by rewrite <- E, reverse_involutive.
Qed.

Lemma number_body_length flags base mag prec (d := length (places flags base mag prec)) (ts := tickskip_for flags base d) :
  base = 8 \/ base = 10 \/ base = 16 -> 0 <= mag < 18446744073709551616 -> (0 < ts)%nat ->
  length (number_body flags base mag prec) = (d + (d - 1) / ts)%nat.
Proof.
  intros Hb Hm Hts. rewrite number_body_rev, length_reverse by done. fold d. fold ts.
  rewrite ticks_length, length_fmap, rplaces_length by lia. f_equal. f_equal. lia.
Qed.

(** The number of digits, as the code finds it. *)
Lemma ndigits_ok flags base mag prec (L := Z.of_nat (length (radix 64 base mag)))
    (prec' := if has flags FL_HASH && (base =? 8) && (prec <? L + 1) then L + 1 else prec) :
  (if L <? prec' then prec' else if mag =? 0 then 1 else L) = Z.of_nat (length (places flags base mag prec)).
Proof.
  rewrite places_length. fold L. assert (HL : mag = 0 <-> L = 0).
  { rewrite <- (radix_nil 63 base mag). subst L. destruct (radix 64 base mag); split; intros H; [done..| |]; cbn [length] in H; [done|lia]. }
  subst prec'. unfold min_digits. fold L. assert (0 <= L) by (subst L; lia). clearbody L.
  destruct (has flags FL_HASH && (base =? 8)); cbn [andb].
  - destruct (Z.ltb_spec prec (L + 1)), (Z.eqb_spec mag 0); destruct (Z.ltb_spec L (L + 1)), (Z.ltb_spec L prec); lia.
  - destruct (Z.ltb_spec L prec), (Z.eqb_spec mag 0); lia.
Qed.

Lemma magnitude_ok flags val (neg := has flags FL_SIGNED && (s64 val <? 0)) : 0 <= val < 18446744073709551616 ->
  (if neg then w64 (- s64 val) else val) = (if neg then - s64 val else val) /\
  0 <= (if neg then - s64 val else val) < 18446744073709551616.
Proof.
  intros Hv. subst neg. unfold s64.
  assert (E : w64 val = val) by (unfold w64; apply Z.mod_small; lia). rewrite E.
  destruct (has flags FL_SIGNED); cbn [andb]; [|lia].
  destruct (Z.ltb_spec val 9223372036854775808); [rewrite (proj2 (Z.ltb_ge _ _)) by lia; lia|].
  rewrite (proj2 (Z.ltb_lt _ _)) by lia. unfold w64. rewrite Z.mod_small by lia. lia.
Qed.

Section format_int.
Context (q n lim val flags base width prec : Z) (m : bytes).
Hypothesis Hn : 0 <= n < 4294967296.
Hypothesis Hmap : mapped m q (Z.min n lim).
Hypothesis Hlim : lim < 2147483648.
Hypothesis Hval : 0 <= val < 18446744073709551616.
Hypothesis Hbase : base = 8 \/ base = 10 \/ base = 16.

Definition val_neg : bool := has flags FL_SIGNED && (s64 val <? 0).
Definition val_mag : Z := if val_neg then - s64 val else val.
Definition int_text : list Z := number_text flags base val_neg val_mag width prec.
Definition int_body : list Z := number_body flags base val_mag prec.
Definition int_sign : list Z := number_sign flags base val_neg.
Definition int_ts : nat := tickskip_for flags base (length (places flags base val_mag prec)).

Lemma int_text_length : (length int_sign + length int_body <= length int_text)%nat.
Proof.
  unfold int_text, number_text. fold int_body int_sign. destruct (has flags FL_MINUS), (has flags FL_ZERO);
    rewrite ?length_app; lia.
Qed.

Lemma places_pos : (0 < length (places flags base val_mag prec))%nat.
Proof. pose proof (places_length flags base val_mag prec). unfold min_digits in *. lia. Qed.

Lemma int_ts_pos : (0 < int_ts)%nat.
Proof. unfold int_ts, tickskip_for. pose proof places_pos. destruct (has flags FL_TICK), (base =? 16); lia. Qed.

Lemma int_body_length (d := Z.of_nat (length (places flags base val_mag prec))) :
  Z.of_nat (length int_body) = d + Z.quot (d - 1) (Z.of_nat int_ts).
Proof.
  unfold int_body. rewrite number_body_length; [|done|apply magnitude_ok; done|apply int_ts_pos].
  fold int_ts. pose proof places_pos. pose proof int_ts_pos. rewrite Z.quot_div_nonneg by lia.
  rewrite Nat2Z.inj_add, Nat2Z.inj_div, Nat2Z.inj_sub by lia. done.
Qed.

(** Sign and prefix. *)
Lemma sign_ok out c m1 : wrote q n m out c m1 -> Z.of_nat (length out) + Z.of_nat (length int_sign) <= lim ->
  exists c' m', (c ← (if val_neg then EMIT n 45 c else if has flags FL_PLUS then EMIT n 43 c
                    else if has flags FL_SPACE then EMIT n 32 c else mret c);
    (if has flags FL_HASH && (base =? 16) then c ← EMIT n 48 c; EMIT n (if has flags FL_UPPER then 88 else 120) c
     else mret c)) m1 = Ret c' m' /\ wrote q n m (out ++ int_sign) c' m'.
Proof.
  intros Hw Hl. set (s := if val_neg then [45] else if has flags FL_PLUS then [43] else if has flags FL_SPACE then [32] else []).
  assert (Hs : length int_sign = (length s + (if has flags FL_HASH && (base =? 16)%Z then 2 else 0))%nat)
    by (unfold int_sign, number_sign; rewrite length_app; by destruct (has flags FL_HASH && (base =? 16))).
  assert (H : exists c' m', (if val_neg then EMIT n 45 c else if has flags FL_PLUS then EMIT n 43 c
      else if has flags FL_SPACE then EMIT n 32 c else mret c) m1 = Ret c' m' /\ wrote q n m (out ++ s) c' m').
  { subst s. destruct val_neg; [|destruct (has flags FL_PLUS); [|destruct (has flags FL_SPACE)]]; cbn [length] in Hs;
      try (by apply (EMIT_ok q n lim); [..|lia]). exists c, m1. by rewrite app_nil_r. }
  destruct H as (c1 & m2 & E1 & W1). rewrite (bind_Ret _ _ _ _ _ E1).
  unfold int_sign, number_sign. fold s. rewrite app_assoc.
  destruct (has flags FL_HASH && (base =? 16)); [|exists c1, m2; by rewrite app_nil_r].
  destruct (EMIT_ok q n lim m Hn Hmap Hlim _ _ _ 48 W1) as (c2 & m3 & E2 & W2); [rewrite length_app; lia|].
  destruct (EMIT_ok q n lim m Hn Hmap Hlim _ _ _ (if has flags FL_UPPER then 88 else 120) W2) as (c3 & m4 & E3 & W3);
    [rewrite !length_app; simpl; lia|].
  exists c3, m4. rewrite (bind_Ret _ _ _ _ _ E2), E3. split; [done|]. rewrite <- app_assoc in W3.
  by destruct (has flags FL_UPPER).
Qed.

(** The digits, behind what has been written. *)
Lemma body_ok out c m1 : wrote q n m out c m1 -> Z.of_nat (length out) + Z.of_nat (length int_body) <= lim ->
  exists m', number_loop (length int_body) n (c.1 + Z.of_nat (length int_body)) (c.2 + Z.of_nat (length int_body))
    (Z.of_nat (length int_body)) (Z.of_nat int_ts) (Z.of_nat int_ts) val_mag base (digits_for flags) m1 = Ret tt m' /\
  wrote q n m (out ++ int_body) (c.1 + Z.of_nat (length int_body), c.2 + Z.of_nat (length int_body)) m'.
Proof.
  intros Hw Hl. pose proof Hw as (Ho & Hq & Hm1).
  assert (E : int_body = reverse (ticks int_ts int_ts (char_of (digits_for flags) <$> rplaces (length (places flags base val_mag prec)) base val_mag)))
    by (apply number_body_rev; [done|by apply magnitude_ok]).
  set (T := ticks int_ts int_ts _) in E. assert (El : length int_body = length T) by (by rewrite E, length_reverse).
  exists (put c.1 (take (Z.to_nat (n - c.2)) (reverse T)) m1). split.
  - rewrite El. apply (number_loop_ok n c.1 c.2 base (digits_for flags) int_ts (digits_for_bytes _)).
    + rewrite Ho. lia.
    + apply int_ts_pos.
    + subst T. pose proof int_ts_pos. rewrite ticks_length, length_fmap, rplaces_length by lia. lia.
    + fold T. rewrite <- El, Ho. lia.
    + intros i Hi Hin. fold T in Hi. rewrite Hq by lia. rewrite Hm1. rewrite <- Z.add_assoc. apply put_mapped with (n := Z.min n lim); [done|lia].
  - replace (c.2 + Z.of_nat (length int_body)) with (Z.of_nat (length (out ++ int_body))) by (rewrite length_app, Ho; lia).
    eapply wrote_app; [exact Hn|exact Hw| |done]. rewrite <- E. f_equal. f_equal. destruct (Z.ltb_spec c.2 n); lia.
Qed.

Lemma format_int_ok : Z.of_nat (length int_text) <= lim ->
  format_int q n val flags base width prec m = Ret (Z.of_nat (length int_text)) (put q (take (Z.to_nat n) int_text) m).
Proof.
  intros Hl. pose proof int_text_length as Hlen. pose proof places_pos as Hp. pose proof int_ts_pos as Ht.
  unfold format_int. fold val_neg. destruct (magnitude_ok flags val Hval) as [Em Hm]. fold val_neg val_mag in Em, Hm. rewrite Em.
  rewrite count_digits_ok, Z.add_0_l, ndigits_ok.
  set (d := Z.of_nat (length (places flags base val_mag prec))).
  assert (Ets : (if has flags FL_TICK then if base =? 16 then 4 else 3 else d) = Z.of_nat int_ts)
    by (unfold int_ts, tickskip_for; by destruct (has flags FL_TICK), (base =? 16)).
  rewrite Ets. rewrite (proj2 (Z.eqb_neq (Z.of_nat int_ts) 0)) by lia.
  pose proof int_body_length as Hb. cbv zeta in Hb. fold d in Hb. rewrite <- Hb, s32_small by lia.
  assert (Es : Z.of_nat (length int_sign) = (if val_neg || has flags (Z.lor FL_PLUS FL_SPACE) then 1 else 0) +
      (if has flags FL_HASH && (base =? 16) then 2 else 0)).
  { unfold int_sign, number_sign. rewrite has_lor_r, length_app.
    destruct val_neg, (has flags FL_PLUS), (has flags FL_SPACE), (has flags FL_HASH && (base =? 16)); reflexivity. }
  rewrite <- Z.add_assoc, <- Es, s32_small by lia.
  replace (Z.of_nat (length int_body) + Z.of_nat (length int_sign)) with (Z.of_nat (length int_sign + length int_body)) by lia.
  fold (digits_for flags). rewrite has_lor_r, zero_only, negb_orb. set (k := (length int_sign + length int_body)%nat) in *.
  set (fill := Z.to_nat (width - Z.of_nat k)).
  set (k1 := if negb (has flags FL_MINUS) && negb (has flags FL_ZERO) then fill else 0%nat).
  set (k2 := if has flags FL_ZERO && negb (has flags FL_MINUS) then fill else 0%nat).
  set (k3 := if has flags FL_MINUS then fill else 0%nat).
  assert (Etext : int_text = replicate k1 32 ++ int_sign ++ replicate k2 48 ++ int_body ++ replicate k3 32).
  { unfold int_text, number_text. fold int_sign int_body k fill. subst k1 k2 k3.
    destruct (has flags FL_MINUS), (has flags FL_ZERO); cbn [andb negb replicate app]; by rewrite ?app_nil_r. }
  assert (Hlt : Z.of_nat (length int_text) = Z.of_nat (k1 + k + k2 + k3))
    by (rewrite Etext, !length_app, !length_replicate; lia).
  destruct (pad_ok q n lim m Hn Hmap Hlim k1 _ _ _ 32 (wrote_nil q n m)) as (c1 & m1 & E1 & W1); [simpl; lia|].
  rewrite (bind_Ret _ _ _ _ _ E1). cbn [app] in W1.
  destruct (sign_ok _ _ _ W1) as (c2 & m2 & E2 & W2); [rewrite length_replicate; lia|].
  rewrite <- (bind_assoc (if val_neg then _ else _) (fun c => if has flags FL_HASH && (base =? 16) then _ else _)).
  rewrite (bind_Ret _ _ _ _ _ E2).
  match goal with |- context [pad ?x n 48 c2] => replace x with k2 end.
  2: { subst k1 k2 k3 fill. destruct (has flags FL_MINUS), (has flags FL_ZERO); cbn [andb negb]; try done.
       destruct (Z.ltb_spec (Z.of_nat (length int_body)) width); [done|]. lia. }
  destruct (pad_ok q n lim m Hn Hmap Hlim k2 _ _ _ 48 W2) as (c3 & m3 & E3 & W3); [rewrite length_app, length_replicate; lia|].
  rewrite (bind_Ret _ _ _ _ _ E3).
  destruct (body_ok _ _ _ W3) as (m4 & E4 & W4); [rewrite !length_app, !length_replicate; lia|].
  rewrite (w32_small (c3.2 + _)) by (destruct W3 as (-> & _); rewrite !length_app, !length_replicate; lia).
  rewrite Nat2Z.id, (bind_Ret _ _ _ _ _ E4).
  match goal with |- context [pad ?x n 32 (c3.1 + _, _)] => replace x with k3 end.
  2: { subst k1 k2 k3 fill. destruct (has flags FL_MINUS), (has flags FL_ZERO); cbn [andb negb]; done. }
  destruct (pad_ok q n lim m Hn Hmap Hlim k3 _ _ _ 32 W4) as (c5 & m5 & E5 & W5); [rewrite !length_app, !length_replicate; lia|].
  change (w8 32) with 32 in W5. change (w8 48) with 48 in W5.
  rewrite (bind_Ret _ _ _ _ _ E5). rewrite <- !app_assoc, <- Etext in W5. destruct W5 as (-> & _ & ->). done.
Qed.
End format_int.

(** ** Strings *)

(** What lies outside the buffer is not changed. *)
Lemma wrote_block q0 n lim m0 out c m a s : wrote q0 n m0 out c m -> 0 <= n -> Z.of_nat (length out) <= lim ->
  a + Z.of_nat (length s) <= q0 \/ q0 + Z.min n lim <= a -> block m0 a s -> block m a s.
Proof. intros (_ & _ & ->) Hn Hl Ha Hb. apply block_put_out; [|done]. rewrite length_take. lia. Qed.

Section strings.
Context (q0 n lim : Z) (m0 : bytes).
Hypothesis Hn : 0 <= n < 4294967296.
Hypothesis Hmap : mapped m0 q0 (Z.min n lim).
Hypothesis Hlim : lim < 2147483648.

Lemma emit_string_ok s : forall a out c m, Forall is_byte s -> wrote q0 n m0 out c m ->
  a + Z.of_nat (length s) <= q0 \/ q0 + Z.min n lim <= a -> block m0 a s -> Z.of_nat (length out) + Z.of_nat (length s) <= lim ->
  exists c' m', emit_string (length s) n a c m = Ret c' m' /\ wrote q0 n m0 (out ++ s) c' m'.
Proof.
  induction s as [|b s IH]; intros a out c m Hs Hw Ha Hb Hl; cbn [emit_string length] in *.
  { exists c, m. by rewrite app_nil_r. }
  apply Forall_cons in Hs as [Hb1 Hs]. pose proof (wrote_block q0 n lim m0 out c m a (b :: s) Hw (proj1 Hn) ltac:(lia) Ha Hb) as Hbm.
  apply block_cons in Hbm as [Hlk _]. apply block_cons in Hb as [_ Hb].
  rewrite (bind_Ret _ _ _ _ _ (ldc_ok _ _ _ Hlk)).
  destruct (EMIT_ok q0 n lim m0 Hn Hmap Hlim _ _ _ (s8 b) Hw) as (c1 & m1 & E1 & W1); [lia|]. rewrite w8_s8 in W1 by done.
  destruct (IH (a + 1) _ _ _ Hs W1) as (c2 & m2 & E2 & W2); [lia|done|rewrite length_app; simpl; lia|].
  exists c2, m2. rewrite (bind_Ret _ _ _ _ _ E1). split; [done|]. by rewrite <- app_assoc in W2.
Qed.

Lemma emit_chars_ok k : forall xs out c m, (k <= length xs)%nat -> wrote q0 n m0 out c m ->
  Z.of_nat (length out) + Z.of_nat k <= lim ->
  exists c' m', emit_chars k n xs c m = Ret c' m' /\ wrote q0 n m0 (out ++ (w8 <$> take k xs)) c' m'.
Proof.
  induction k as [|k IH]; intros xs out c m Hk Hw Hl; cbn [emit_chars].
  { exists c, m. by rewrite take_0, app_nil_r. }
  destruct xs as [|x xs]; [simpl in Hk; lia|]. cbn [length take fmap list_fmap] in *.
  destruct (EMIT_ok q0 n lim m0 Hn Hmap Hlim _ _ _ x Hw) as (c1 & m1 & E1 & W1); [lia|].
  destruct (IH xs _ _ _ ltac:(lia) W1) as (c2 & m2 & E2 & W2); [rewrite length_app; simpl; lia|].
  exists c2, m2. rewrite (bind_Ret _ _ _ _ _ E1). split; [done|]. by rewrite <- app_assoc in W2.
Qed.

(** [x] is the string, [emit] gives the part of it that is asked for. *)
Lemma is_string_ok x emit f out m : wrote q0 n m0 out (at_ f) m -> -1 <= prec f ->
  (forall k out c m, (k <= length x)%nat -> wrote q0 n m0 out c m -> Z.of_nat (length out) + Z.of_nat k <= lim ->
    exists c' m', emit k c m = Ret c' m' /\ wrote q0 n m0 (out ++ take k x) c' m') ->
  let text := string_text (flags f) (width f) (prec f) x in
  Z.of_nat (length (out ++ text)) <= lim ->
  exists c' m', is_string n (Z.of_nat (length x)) emit f m = Ret (set_at c' f) m' /\ wrote q0 n m0 (out ++ text) c' m'.
Proof.
  intros Hw Hp Hemit text Hl. unfold is_string.
  set (k := length (if prec f =? -1 then x else take (Z.to_nat (prec f)) x)).
  assert (Ek : (if negb (prec f =? -1) && (prec f <? Z.of_nat (length x)) then prec f else Z.of_nat (length x)) = Z.of_nat k).
  { subst k. destruct (Z.eqb_spec (prec f) (-1)); cbn [negb andb]; [done|].
    rewrite length_take. destruct (Z.ltb_spec (prec f) (Z.of_nat (length x))); lia. }
  assert (Hk : (if prec f =? -1 then x else take (Z.to_nat (prec f)) x) = take k x /\ (k <= length x)%nat).
  { subst k. destruct (prec f =? -1); [by rewrite take_ge|]. rewrite length_take. split; [|lia].
    destruct (Nat.le_ge_cases (Z.to_nat (prec f)) (length x)); [by rewrite Nat.min_l|].
    rewrite Nat.min_r by lia. by rewrite !take_ge. }
  destruct Hk as [Etake Hk]. rewrite Ek. rewrite (proj2 (Z.ltb_ge (Z.of_nat k) 0)) by lia. rewrite Nat2Z.id.
  set (fill := Z.to_nat (width f - Z.of_nat k)).
  set (k1 := if has (flags f) FL_MINUS then 0%nat else fill). set (k2 := if has (flags f) FL_MINUS then fill else 0%nat).
  set (ch := if has (flags f) FL_ZERO then 48 else 32).
  assert (Et : text = replicate k1 ch ++ take k x ++ replicate k2 32).
  { subst text. unfold string_text. rewrite Etake. rewrite length_take, Nat.min_l by done. fold fill.
    subst k1 k2. destruct (has (flags f) FL_MINUS); cbn [replicate app]; by rewrite ?app_nil_r. }
  rewrite Et, !length_app, !length_replicate, length_take, Nat.min_l in Hl by done.
  match goal with |- context [pad ?y n ch] => replace y with k1 end.
  2: { subst k1 fill. destruct (Z.ltb_spec (Z.of_nat k) (width f)), (has (flags f) FL_MINUS); cbn [negb andb]; lia. }
  destruct (pad_ok q0 n lim m0 Hn Hmap Hlim k1 _ _ _ ch Hw) as (c1 & m1 & E1 & W1); [lia|].
  rewrite (bind_Ret _ _ _ _ _ E1).
  destruct (Hemit k _ _ _ Hk W1) as (c2 & m2 & E2 & W2); [rewrite length_app, length_replicate; lia|].
  rewrite (bind_Ret _ _ _ _ _ E2).
  match goal with |- context [pad ?y n 32 c2] => replace y with k2 end.
  2: { subst k2 fill. destruct (Z.ltb_spec (Z.of_nat k) (width f)), (has (flags f) FL_MINUS); cbn [negb andb];
       try (rewrite (proj2 (Z.ltb_lt _ _)) by lia); try (rewrite (proj2 (Z.ltb_ge _ _)) by lia); cbn [andb]; lia. }
  destruct (pad_ok q0 n lim m0 Hn Hmap Hlim k2 _ _ _ 32 W2) as (c3 & m3 & E3 & W3);
    [rewrite !length_app, length_replicate, length_take; lia|].
  rewrite (bind_Ret _ _ _ _ _ E3). exists c3, m3. split; [done|]. rewrite Et.
  rewrite <- !app_assoc in W3. subst ch. by destruct (has (flags f) FL_ZERO).
Qed.
End strings.

(** ** Conversions *)

Lemma number_text_signed flags base neg mag width prec :
  number_text (Z.lor flags FL_SIGNED) base neg mag width prec = number_text flags base neg mag width prec.
Proof.
  assert (H : forall x, Z.land FL_SIGNED x = 0 -> has (Z.lor flags FL_SIGNED) x = has flags x).
  { intros x Hx. rewrite has_lor_l. unfold has at 2. by rewrite Hx, orb_false_r. }
  unfold number_text, number_sign, number_body, places, min_digits, digit. rewrite !H by done. done.
Qed.

Lemma w64_s64 x : 0 <= x < 18446744073709551616 -> w64 (s64 x) = x.
Proof.
  intros Hx. unfold s64. assert (E : w64 x = x) by (unfold w64; apply Z.mod_small; lia). rewrite E.
  destruct (x <? 9223372036854775808); [done|]. unfold w64. replace (x - _) with (x + (-1) * 18446744073709551616) by lia.
  rewrite Z.mod_add by lia. apply Z.mod_small. lia.
Qed.

Lemma s64_w64 v : -9223372036854775808 <= v < 9223372036854775808 -> s64 (w64 v) = v.
Proof.
  intros Hv. unfold s64. assert (E : w64 (w64 v) = w64 v) by (unfold w64; apply Z.mod_mod; lia). rewrite E. unfold w64.
  destruct (Z.le_gt_cases 0 v).
  - rewrite Z.mod_small by lia. rewrite (proj2 (Z.ltb_lt _ _)) by lia. done.
  - replace (v mod 18446744073709551616) with (v + 18446744073709551616).
    + rewrite (proj2 (Z.ltb_ge _ _)) by lia. lia.
    + rewrite <- (Z.mod_add v 1) by lia. rewrite Z.mod_small by lia. lia.
Qed.

Lemma signed_arg_ok r ap v ap' m : signed_arg r ap = Some (v, ap') ->
  va_signed r ap m = Ret (w64 v, ap') m /\ -9223372036854775808 <= v < 9223372036854775808.
Proof.
  destruct ap as [|x ap]; [done|]. unfold signed_arg, va_signed. cbn [word va_word mbind option_bind].
  rewrite bind_ret. destruct (r =? rank_char); [|destruct (r =? rank_short); [|destruct (r =? rank_longlong)]].
  - intros [= <- <-]. split; [done|]. pose proof (w8_range (w32 x)). unfold s8. destruct (_ <? 128); lia.
  - intros [= <- <-]. split; [done|]. unfold s16, w16. pose proof (Z.mod_pos_bound (w32 x) 65536 ltac:(lia)).
    destruct (_ <? 32768); lia.
  - destruct ap as [|y ap]; [done|]. cbn [word]. intros [= <- <-]. cbn [va_word]. rewrite bind_ret.
    pose proof (w32_range x). pose proof (w32_range y). rewrite w64_s64 by lia. split; [done|].
    unfold s64, w64. rewrite Z.mod_small by lia. destruct (Z.ltb_spec (w32 x + 4294967296 * w32 y) 9223372036854775808); lia.
  - intros [= <- <-]. split; [done|]. pose proof (w32_range (w32 x)). unfold s32. destruct (_ <? 2147483648); lia.
Qed.

Lemma unsigned_arg_ok r ap v ap' m : unsigned_arg r ap = Some (v, ap') ->
  va_unsigned r ap m = Ret (v, ap') m /\ 0 <= v < 18446744073709551616.
Proof.
  destruct ap as [|x ap]; [done|]. unfold unsigned_arg, va_unsigned. cbn [word va_word mbind option_bind].
  pose proof (w32_range x). rewrite bind_ret.
  destruct (r =? rank_char); [|destruct (r =? rank_short); [|destruct (r =? rank_longlong)]].
  - intros [= <- <-]. split; [done|]. pose proof (w8_range (w32 x)). lia.
  - intros [= <- <-]. split; [done|]. unfold w16. pose proof (Z.mod_pos_bound (w32 x) 65536 ltac:(lia)). lia.
  - destruct ap as [|y ap]; [done|]. cbn [word]. intros [= <- <-]. cbn [va_word]. rewrite bind_ret.
    pose proof (w32_range y). split; [done|lia].
  - intros [= <- <-]. split; [done|lia].
Qed.

Lemma word_ok ap v ap' m : word ap = Some (v, ap') -> va_word ap m = Ret (v, ap') m /\ 0 <= v < 4294967296.
Proof. destruct ap as [|x ap]; [done|]. intros [= <- <-]. split; [done|apply w32_range]. Qed.

Section convert.
Context (q0 n lim : Z) (m0 : bytes) (strs : Z -> option (list Z)).
Hypothesis Hn : 0 <= n < 4294967296.
Hypothesis Hmap : mapped m0 q0 (Z.min n lim).
Hypothesis Hlim : lim < 2147483648.
Hypothesis Hstrs : forall a s, strs a = Some s ->
  cstr m0 a s /\ (a + Z.of_nat (length s) + 1 <= q0 \/ q0 + Z.min n lim <= a) /\ Z.of_nat (length s) < 2147483648.

(** Going on with [text] and the arguments [ap']. *)
Definition converts (c : cmd bytes fmt) (f : fmt) (out text ap' : list Z) (m : bytes) : Prop :=
  exists f' m', c m = Ret f' m' /\ state f' = state f /\ ap f' = ap' /\ wrote q0 n m0 (out ++ text) (at_ f') m'.

Lemma is_integer_ok val base f out m (text := int_text val (flags f) base (width f) (prec f)) :
  wrote q0 n m0 out (at_ f) m -> 0 <= val < 18446744073709551616 -> base = 8 \/ base = 10 \/ base = 16 ->
  Z.of_nat (length (out ++ text)) <= lim -> converts (is_integer n val base f) f out text (ap f) m.
Proof.
  intros Hw Hv Hb Hl. unfold converts, is_integer. destruct (at_ f) as [q o] eqn:Ec. cbn [fst snd].
  pose proof Hw as (Ho & Hq & Hm). cbn [fst snd] in Ho, Hq.
  assert (Hn' : 0 <= (if o <? n then n - o else 0) < 4294967296) by (destruct (Z.ltb_spec o n); lia).
  rewrite length_app in Hl.
  assert (E : format_int q (if o <? n then n - o else 0) val (flags f) base (width f) (prec f) m =
    Ret (Z.of_nat (length text)) (put q (take (Z.to_nat (if o <? n then n - o else 0)) text) m)).
  { apply (format_int_ok q _ (lim - o)); [done| |lia|done|done|fold text; lia].
    cbn [fst snd] in *. destruct (Z.ltb_spec o n); [|intros i Hi; lia]. rewrite Hq by lia. rewrite Hm. intros i Hi.
    rewrite <- Z.add_assoc. apply put_mapped with (n := Z.min n lim); [done|lia]. }
  rewrite (bind_Ret _ _ _ _ _ E). eexists _, _. split; [reflexivity|]. split_and!; [done..|].
  cbn [set_at at_].
  rewrite w32_small by lia. replace (o + Z.of_nat (length text)) with (Z.of_nat (length (out ++ text))) by (rewrite length_app; lia).
  eapply wrote_app; [exact Hn|exact Hw|done|done].
Qed.

Lemma unsigned_ok x f base out m : wrote q0 n m0 out (at_ f) m -> has (flags f) FL_SIGNED = false ->
  base = 8 \/ base = 10 \/ base = 16 -> 0 <= x < 18446744073709551616 ->
  let text := number_text (flags f) base false x (width f) (prec f) in
  Z.of_nat (length (out ++ text)) <= lim -> converts (is_integer n x base f) f out text (ap f) m.
Proof.
  intros Hw Hs Hb Hx text Hl. assert (E : text = int_text x (flags f) base (width f) (prec f))
    by (unfold int_text, val_mag, val_neg; by rewrite Hs).
  rewrite E in *. by apply is_integer_ok.
Qed.

Lemma is_unsigned_ok base f out m text ap' : wrote q0 n m0 out (at_ f) m -> has (flags f) FL_SIGNED = false ->
  base = 8 \/ base = 10 \/ base = 16 ->
  unsigned_text (flags f) base (width f) (prec f) <$> unsigned_arg (rank f) (ap f) = Some (text, ap') ->
  Z.of_nat (length (out ++ text)) <= lim -> converts (is_unsigned n base f) f out text ap' m.
Proof.
  intros Hw Hs Hb He Hl. apply fmap_Some in He as ([v ap1] & He & Ht). injection Ht as -> ->.
  destruct (unsigned_arg_ok _ _ _ _ m He) as [E Hv]. unfold is_unsigned, converts. rewrite (bind_Ret _ _ _ _ _ E).
  by apply (unsigned_ok v (set_ap ap1 f)).
Qed.

Lemma signed_ok f out m text ap' : wrote q0 n m0 out (at_ f) m ->
  ('(v, ap) ← signed_arg (rank f) (ap f); Some (number_text (flags f) 10 (v <? 0) (Z.abs v) (width f) (prec f), ap)) = Some (text, ap') ->
  Z.of_nat (length (out ++ text)) <= lim ->
  converts ('(val, ap) ← va_signed (rank f) (ap f); is_integer n val 10 (set_ap ap (add_flag FL_SIGNED f))) f out text ap' m.
Proof.
  intros Hw He Hl. destruct (signed_arg (rank f) (ap f)) as [[v ap1]|] eqn:Ha; [|done].
  cbn [mbind option_bind] in He. injection He as <- <-.
  destruct (signed_arg_ok _ _ _ _ m Ha) as [E Hv]. unfold converts. rewrite (bind_Ret _ _ _ _ _ E).
  set (f1 := set_ap ap1 (add_flag FL_SIGNED f)).
  assert (Et : number_text (flags f) 10 (v <? 0) (Z.abs v) (width f) (prec f) = int_text (w64 v) (flags f1) 10 (width f1) (prec f1)).
  { unfold int_text, val_mag, val_neg. rewrite s64_w64 by done. subst f1. cbn [flags width prec set_ap add_flag].
    rewrite number_text_signed, has_lor_l. change (has FL_SIGNED FL_SIGNED) with true. rewrite orb_true_r. cbn [andb]. f_equal.
    destruct (Z.ltb_spec v 0); [lia|]. unfold w64. rewrite Z.mod_small by lia. lia. }
  rewrite Et in *. apply (is_integer_ok (w64 v) 10 f1); [done|apply Z.mod_pos_bound; lia|by right; left|done].
Qed.

Lemma chars_ok xs f out m : Forall is_byte xs -> wrote q0 n m0 out (at_ f) m -> -1 <= prec f ->
  let text := string_text (flags f) (width f) (prec f) xs in
  Z.of_nat (length (out ++ text)) <= lim ->
  forall ys, (w8 <$> ys) = xs ->
  converts (is_string n (Z.of_nat (length xs)) (fun k => emit_chars k n ys) f) f out text (ap f) m.
Proof.
  intros Hx Hw Hp text Hl ys <-. destruct (is_string_ok q0 n lim m0 Hn Hmap Hlim (w8 <$> ys) (fun k => emit_chars k n ys) f out m Hw Hp) as (c' & m' & E & W).
  - intros k out1 c1 m1 Hk W Hl1. rewrite length_fmap in Hk. destruct (emit_chars_ok q0 n lim m0 Hn Hmap Hlim k ys _ _ _ Hk W Hl1) as (c2 & m2 & E2 & W2).
    exists c2, m2. by rewrite <- fmap_take.
  - fold text. lia.
  - exists (set_at c' f), m'. done.
Qed.

Lemma string_ok f out m text ap' : wrote q0 n m0 out (at_ f) m -> -1 <= prec f ->
  ('(a, ap) ← word (ap f); x ← (if a =? NULL then Some null_text else strs a);
   Some (string_text (flags f) (width f) (prec f) x, ap)) = Some (text, ap') ->
  Z.of_nat (length (out ++ text)) <= lim ->
  converts ('(sarg, ap) ← va_word (ap f);
    if sarg =? NULL then is_string n 6 (fun k => emit_chars k n null_text) (set_ap ap f)
    else len ← strlen sarg; is_string n (s32 len) (fun k => emit_string k n sarg) (set_ap ap f)) f out text ap' m.
Proof.
  intros Hw Hp He Hl. destruct (word (ap f)) as [[a ap1]|] eqn:Ha; [|done]. cbn [mbind option_bind] in He.
  destruct (word_ok _ _ _ m Ha) as [E Hv]. unfold converts. rewrite (bind_Ret _ _ _ _ _ E).
  destruct (Z.eqb_spec a NULL) as [_|Hne].
  - cbn [mbind option_bind] in He. injection He as <- <-. apply (chars_ok null_text (set_ap ap1 f)); [|done..].
    repeat constructor; lia.
  - destruct (strs a) as [x|] eqn:Hs; [|done]. cbn [mbind option_bind] in He. injection He as <- <-.
    destruct (Hstrs a x Hs) as ((Hb & Hx) & Hap & Hlen).
    assert (Hby : Forall is_byte x) by (eapply Forall_impl; [exact Hx|]; unfold is_byte; intros; lia).
    assert (Hlb : Z.of_nat (length (x ++ [0])) = Z.of_nat (length x) + 1) by (rewrite length_app; simpl; lia).
    rewrite (bind_Ret _ _ _ _ _ (strlen_ok m a x Hne (conj (wrote_block q0 n lim m0 out (at_ f) m a (x ++ [0]) Hw (proj1 Hn) ltac:(rewrite length_app in Hl; lia) ltac:(rewrite Hlb; lia) Hb) Hx))).
    rewrite s32_small by lia.
    destruct (is_string_ok q0 n lim m0 Hn Hmap Hlim x (fun k => emit_string k n a) (set_ap ap1 f) out m Hw Hp) as (c' & m' & E2 & W).
    + intros k out1 c1 m1 Hk W Hl1. apply block_app in Hb as [Hb _]. rewrite <- (take_drop k x) in Hb. apply block_app in Hb as [Hb _].
      destruct (emit_string_ok q0 n lim m0 Hn Hmap Hlim (take k x) a out1 c1 m1) as (c2 & m2 & E2 & W2);
        [by apply Forall_take|done| |done| |]; rewrite ?length_take, ?Nat.min_l by lia; [lia..|].
      rewrite length_take, Nat.min_l in E2 by lia. by exists c2, m2.
    + cbn [flags width prec set_ap]. lia.
    + exists (set_at c' (set_ap ap1 f)), m'. done.
Qed.

Lemma convert_ok c f out m text ap' : c ∈ conv_chars -> wrote q0 n m0 out (at_ f) m -> -1 <= prec f ->
  has (flags f) FL_SIGNED = false ->
  conv_text strs c (flags f) (rank f) (width f) (prec f) (ap f) = Some (text, ap') ->
  Z.of_nat (length (out ++ text)) <= lim -> converts (convert n c f) f out text ap' m.
Proof.
  intros Hc Hw Hp Hs He Hl. unfold conv_chars in Hc.
  assert (Hup : forall x, Z.land x FL_SIGNED = 0 -> has (Z.lor (flags f) x) FL_SIGNED = false).
  { intros x Hx. rewrite has_lor_l, Hs. unfold has. by rewrite Hx. }
  rewrite !elem_of_cons in Hc.
  destruct Hc as [->|[->|[->|[->|[->|[->|[->|[->|[->|[->|[->|Hc]]]]]]]]]]]; [..|by apply not_elem_of_nil in Hc];
    unfold convert, conv_text in *; cbn [Z.eqb Pos.eqb orb] in *.
  - by apply (signed_ok f).
  - by apply (signed_ok f).
  - apply is_unsigned_ok; try done. lia.
  - apply is_unsigned_ok; try done. lia.
  - apply is_unsigned_ok; try done. lia.
  - apply (is_unsigned_ok 16 (add_flag FL_UPPER f)); try done; [by apply Hup|lia].
  - apply fmap_Some in He as ([v ap1] & He & Ht). injection Ht as -> ->. destruct (word_ok _ _ _ m He) as [E Hv].
    unfold converts. rewrite (bind_Ret _ _ _ _ _ E). apply (unsigned_ok v (set_ap ap1 (add_flag FL_HASH (set_prec 8 f)))); try done; [by apply Hup|lia..].
  - apply fmap_Some in He as ([v ap1] & He & Ht). injection Ht as -> ->. destruct (word_ok _ _ _ m He) as [E Hv].
    unfold converts. cbn [ap add_flag]. rewrite (bind_Ret _ _ _ _ _ E).
    apply (unsigned_ok v (set_ap ap1 (add_flag FL_HASH (set_prec 8 (add_flag FL_UPPER f))))); try done; [|lia..].
    cbn [flags set_ap add_flag set_prec]. rewrite <- Z.lor_assoc. by apply Hup.
  - destruct (word (ap f)) as [[x ap1]|] eqn:Ha; [|done]. cbn [mbind option_bind] in He. injection He as <- <-.
    destruct (word_ok _ _ _ m Ha) as [E Hv]. unfold converts. rewrite (bind_Ret _ _ _ _ _ E).
    apply (chars_ok [w8 x] (set_ap ap1 f)); try done; [repeat constructor; apply w8_range|].
    cbn. f_equal. unfold s8. pose proof (w8_range x). destruct (w8 x <? 128); unfold w8 in *; [by rewrite Z.mod_mod|].
    replace (x mod 256 - 256) with (x mod 256 + (-1) * 256) by lia. by rewrite Z.mod_add, Z.mod_mod by lia.
  - by apply string_ok.
  - injection He as <- <-. rewrite length_app in Hl. cbn [length] in Hl.
    destruct (EMIT_ok q0 n lim m0 Hn Hmap Hlim _ _ _ 37 Hw) as (c' & m' & E & W); [lia|].
    exists (set_at c' f), m'. by rewrite (bind_Ret _ _ _ _ _ E).
Qed.
End convert.

(** ** The state machine *)

(** After [k] rounds the loop is at [p'] with [f']. *)
Definition runs (n : Z) (k : nat) (p : Z) (f : fmt) (m : bytes) (p' : Z) (f' : fmt) (m' : bytes) : Prop :=
  forall fuel, format_loop (k + fuel) n p f m = format_loop fuel n p' f' m'.

Lemma runs_trans n k k' p f m p1 f1 m1 p2 f2 m2 :
  runs n k p f m p1 f1 m1 -> runs n k' p1 f1 m1 p2 f2 m2 -> runs n (k + k') p f m p2 f2 m2.
Proof. intros H1 H2 fuel. by rewrite <- Nat.add_assoc, H1, H2. Qed.

Lemma runs_step n p f m b again f' m' : m !! p = Some b -> 0 < b < 256 -> step n (s8 b) f m = Ret (again, f') m' ->
  runs n 1 p f m (if again : bool then p else p + 1) f' m'.
Proof.
  intros Hb Hr E fuel. cbn [Nat.add format_loop]. rewrite (bind_Ret _ _ _ _ _ (ldc_ok _ _ _ Hb)).
  rewrite s8_zero by (unfold is_byte; lia). rewrite (proj2 (Z.eqb_neq b 0)) by lia.
  by rewrite (bind_Ret _ _ _ _ _ E).
Qed.

Lemma s8_ascii b : 0 < b < 128 -> s8 b = b.
Proof. intros Hb. unfold s8, w8. rewrite Z.mod_small by lia. by rewrite (proj2 (Z.ltb_lt b 128)) by lia. Qed.

(** Characters that are dealt with one by one. *)
Lemma runs_list n (I : fmt -> Prop) (g : fmt -> Z -> fmt) m cs :
  (forall f c, I f -> c ∈ cs -> 0 < c < 128 /\ step n c f m = Ret (false, g f c) m /\ I (g f c)) ->
  forall p f, I f -> block m p cs -> runs n (length cs) p f m (p + Z.of_nat (length cs)) (fold_left g cs f) m.
Proof.
  induction cs as [|c cs IH]; intros Hg p f Hf Hb; [intros fuel; by rewrite Z.add_0_r|].
  apply block_cons in Hb as [Hc Hb]. destruct (Hg f c Hf) as (Hr & E & Hi); [by left|].
  change (length (c :: cs)) with (1 + length cs)%nat. eapply runs_trans.
  - eapply runs_step; [exact Hc|lia|]. rewrite s8_ascii by lia. exact E.
  - cbn [fold_left]. replace (p + Z.of_nat (1 + length cs)) with (p + 1 + Z.of_nat (length cs)) by lia.
    apply IH; [|done|done]. intros f' c' Hf' Hc'. apply Hg; [done|by right].
Qed.

Lemma fold_flags cs : forall f, state f = st_flags -> 
  fold_left (fun f c => add_flag (default 0 (flag_of c)) f) cs f =
  Fmt st_flags (at_ f) (rank f) (width f) (prec f) (fold_left (fun f c => Z.lor f (default 0 (flag_of c))) cs (flags f)) (ap f).
Proof. induction cs as [|c cs IH]; intros f Hs; [by destruct f; cbn in *; subst|]. cbn [fold_left]. by rewrite IH. Qed.

Lemma fold_mods cs : forall f, state f = st_modifiers ->
  fold_left (fun f c => set_rank (default (rank f) (modified c (rank f))) f) cs f =
  Fmt st_modifiers (at_ f) (fold_left (fun r c => default r (modified c r)) cs (rank f)) (width f) (prec f) (flags f) (ap f).
Proof. induction cs as [|c cs IH]; intros f Hs; [by destruct f; cbn in *; subst|]. cbn [fold_left]. by rewrite IH. Qed.

(** Numbers that are small enough do not overflow on the way. *)
Lemma num_mono ds : forall a, Forall (fun d => 0 <= d <= 9) ds -> 0 <= a -> a <= fold_left (fun a d => a * 10 + d) ds a.
Proof.
  induction ds as [|d ds IH]; intros a Hd Ha; [done|]. apply Forall_cons in Hd as [Hd1 Hd]. cbn [fold_left].
  etransitivity; [|apply IH; [done|lia]]. lia.
Qed.

Lemma num_s32 ds : forall a, Forall (fun d => 0 <= d <= 9) ds -> 0 <= a ->
  fold_left (fun a d => a * 10 + d) ds a < 2147483648 ->
  fold_left (fun a c => s32 (a * 10 + (c - 48))) ((fun d => 48 + d) <$> ds) a = fold_left (fun a d => a * 10 + d) ds a.
Proof.
  induction ds as [|d ds IH]; intros a Hd Ha Hb; [done|]. apply Forall_cons in Hd as [Hd1 Hd]. cbn [fold_left fmap list_fmap] in *.
  pose proof (num_mono ds (a * 10 + d) Hd ltac:(lia)). replace (48 + d - 48) with d by lia. rewrite s32_small by lia. apply IH; [done|lia|done].
Qed.

Lemma fold_width cs : forall f,
  fold_left (fun f c => set_width (s32 (width f * 10 + (c - 48))) f) cs f =
  set_width (fold_left (fun a c => s32 (a * 10 + (c - 48))) cs (width f)) f.
Proof. induction cs as [|c cs IH]; intros f; [by destruct f|]. cbn [fold_left]. by rewrite IH. Qed.

Lemma fold_prec cs : forall f,
  fold_left (fun f c => set_prec (s32 (prec f * 10 + (c - 48))) f) cs f =
  set_prec (fold_left (fun a c => s32 (a * 10 + (c - 48))) cs (prec f)) f.
Proof. induction cs as [|c cs IH]; intros f; [by destruct f|]. cbn [fold_left]. by rewrite IH. Qed.

Lemma digit_chars ds c : Forall (fun d => 0 <= d <= 9) ds -> c ∈ ((fun d => 48 + d) <$> ds) -> 48 <= c <= 57.
Proof. intros Hd Hc. apply list_elem_of_fmap in Hc as (d & -> & Hin). rewrite Forall_forall in Hd. specialize (Hd d Hin). cbn in Hd. lia. Qed.

Lemma runs_flags n m p f cs : state f = st_flags -> Forall (fun c => c ∈ flag_chars) cs -> block m p cs ->
  runs n (length cs) p f m (p + Z.of_nat (length cs))
    (Fmt st_flags (at_ f) (rank f) (width f) (prec f) (fold_left (fun f c => Z.lor f (default 0 (flag_of c))) cs (flags f)) (ap f)) m.
Proof.
  intros Hs Hc Hb. rewrite <- fold_flags by done.
  apply (runs_list n (fun f => state f = st_flags)); [|done|done].
  intros f1 c Hf1 Hin. rewrite Forall_forall in Hc. specialize (Hc c Hin). cbn in Hc. unfold flag_chars in Hc. rewrite !elem_of_cons in Hc.
  unfold step. rewrite Hf1.
  destruct Hc as [->|[->|[->|[->|[->|[->|Hc]]]]]]; [..|by apply not_elem_of_nil in Hc]; (split_and!; [lia..|reflexivity|exact Hf1]).
Qed.

Lemma runs_mods n m p f cs : state f = st_modifiers -> Forall (fun c => c ∈ mod_chars) cs -> block m p cs ->
  runs n (length cs) p f m (p + Z.of_nat (length cs))
    (Fmt st_modifiers (at_ f) (fold_left (fun r c => default r (modified c r)) cs (rank f)) (width f) (prec f) (flags f) (ap f)) m.
Proof.
  intros Hs Hc Hb. rewrite <- fold_mods by done.
  apply (runs_list n (fun f => state f = st_modifiers)); [|done|done].
  intros f1 c Hf1 Hin. rewrite Forall_forall in Hc. specialize (Hc c Hin). cbn in Hc. unfold mod_chars in Hc. rewrite !elem_of_cons in Hc.
  unfold step. rewrite Hf1.
  destruct Hc as [->|[->|[->|[->|[->|[->|[->|Hc]]]]]]]; [..|by apply not_elem_of_nil in Hc]; (split_and!; [lia..|reflexivity|exact Hf1]).
Qed.

(** A width: the flags may get a minus. *)
Lemma runs_width n m p f x w ap' : state f = st_width -> width f = 0 -> ok_field x ->
  block m p (show_field x) -> field_value x (ap f) = Some (w, ap') -> w <> -2147483648 ->
  runs n (length (show_field x)) p f m (p + Z.of_nat (length (show_field x)))
    (Fmt st_width (at_ f) (rank f) (Z.abs w) (prec f) (if w <? 0 then Z.lor (flags f) FL_MINUS else flags f) ap') m.
Proof.
  intros Hs Hw0 Hx Hb He Hw. destruct x as [ds|]; cbn [show_field ok_field field_value] in *.
  - destruct Hx as [Hd Hlt]. injection He as <- <-.
    pose proof (num_mono ds 0 Hd ltac:(lia)) as Hpos. fold (num ds) in Hpos.
    assert (E : fold_left (fun f c => set_width (s32 (width f * 10 + (c - 48))) f) ((fun d => 48 + d) <$> ds) f =
      Fmt st_width (at_ f) (rank f) (Z.abs (num ds)) (prec f) (if num ds <? 0 then Z.lor (flags f) FL_MINUS else flags f) (ap f)).
    { rewrite fold_width, Hw0, num_s32 by (try done; lia). fold (num ds). rewrite Z.abs_eq by done.
      rewrite (proj2 (Z.ltb_ge (num ds) 0)) by done. destruct f; cbn in *; by subst. }
    rewrite <- E. apply (runs_list n (fun f => state f = st_width)); [|done|done].
    intros f1 c Hf1 Hin. pose proof (digit_chars ds c Hd Hin). unfold step. rewrite Hf1.
    rewrite (proj2 (Z.leb_le 48 c)), (proj2 (Z.leb_le c 57)) by lia. split_and!; [lia..|done|done].
  - destruct (word (ap f)) as [[v ap1]|] eqn:Ha; [|done]. cbn [mbind option_bind] in He. injection He as <- <-.
    destruct (word_ok _ _ _ m Ha) as [E Hv]. apply block_cons in Hb as [Hb _].
    change (p + Z.of_nat (length [42])) with (if false then p else p + 1).
    eapply runs_step; [exact Hb|lia|]. change (s8 42) with 42. unfold step. rewrite Hs. cbn [Z.leb Z.compare Pos.compare Pos.compare_cont andb Z.eqb Pos.eqb].
    rewrite (bind_Ret _ _ _ _ _ E). destruct f; cbn in *; subst. unfold mret, cmd_ret. f_equal. f_equal.
    assert (-2147483648 <= s32 v < 2147483648) by (unfold s32; pose proof (w32_range v); destruct (w32 v <? 2147483648) eqn:?; lia).
    destruct (Z.ltb_spec (s32 v) 0); cbn; [rewrite s32_small by lia; by rewrite Z.abs_neq by lia|by rewrite Z.abs_eq by lia].
Qed.

Lemma runs_prec n m p f x v ap' : state f = st_width -> ok_field x ->
  block m p (46 :: show_field x) -> field_value x (ap f) = Some (v, ap') ->
  runs n (1 + length (show_field x)) p f m (p + 1 + Z.of_nat (length (show_field x)))
    (Fmt st_prec (at_ f) (rank f) (width f) (if v <? 0 then -1 else v) (flags f) ap') m.
Proof.
  intros Hs Hx Hb He. apply block_cons in Hb as [Hb1 Hb]. eapply runs_trans.
  { eapply runs_step; [exact Hb1|lia|]. change (s8 46) with 46. unfold step. by rewrite Hs. }
  destruct x as [ds|]; cbn [show_field ok_field field_value] in *.
  - destruct Hx as [Hd Hlt]. injection He as <- <-.
    pose proof (num_mono ds 0 Hd ltac:(lia)) as Hpos. fold (num ds) in Hpos.
    set (f1 := set_state st_prec (set_prec 0 f)).
    assert (E : fold_left (fun f c => set_prec (s32 (prec f * 10 + (c - 48))) f) ((fun d => 48 + d) <$> ds) f1 =
      Fmt st_prec (at_ f) (rank f) (width f) (if num ds <? 0 then -1 else num ds) (flags f) (ap f)).
    { rewrite fold_prec, num_s32 by (try done; lia). rewrite (proj2 (Z.ltb_ge (num ds) 0)) by done. done. }
    rewrite <- E. apply (runs_list n (fun f => state f = st_prec)); [|done|done].
    intros f2 c Hf2 Hin. pose proof (digit_chars ds c Hd Hin). unfold step. rewrite Hf2.
    rewrite (proj2 (Z.leb_le 48 c)), (proj2 (Z.leb_le c 57)) by lia. split_and!; [lia..|done|done].
  - destruct (word (ap f)) as [[x ap1]|] eqn:Ha; [|done]. cbn [mbind option_bind] in He. injection He as <- <-.
    destruct (word_ok _ _ _ m Ha) as [E Hv]. apply block_cons in Hb as [Hb _].
    change (p + 1 + Z.of_nat (length [42])) with (if false then p + 1 else p + 1 + 1).
    eapply runs_step; [exact Hb|lia|]. change (s8 42) with 42. unfold step.
    cbn [state set_state Z.leb Z.compare Pos.compare Pos.compare_cont andb Z.eqb Pos.eqb ap set_prec].
    by rewrite (bind_Ret _ _ _ _ _ E).
Qed.

Lemma modifier_next ms c : Forall (fun c => c ∈ mod_chars) ms -> c ∈ conv_chars ->
  exists b rest, ms ++ [c] = b :: rest /\ b ∈ mod_chars ++ conv_chars.
Proof.
  intros Hm Hc. destruct ms as [|b ms]; [exists c, []|exists b, (ms ++ [c])]; (split; [done|]); apply elem_of_app; [by right|].
  apply Forall_cons in Hm as [Hm _]. by left.
Qed.

(** The characters behind flags, width and precision end them. *)
Lemma runs_modifiers n m p f b : state f = st_width \/ state f = st_prec -> m !! p = Some b ->
  b ∈ mod_chars ++ conv_chars -> runs n 1 p f m p (set_state st_modifiers f) m.
Proof.
  intros Hs Hb Hin.
  assert (Hr : 0 < b < 128 /\ (48 <=? b) && (b <=? 57) = false /\ (b =? 42) = false /\ (b =? 46) = false).
  { unfold mod_chars, conv_chars in Hin. cbn [app] in Hin. rewrite !elem_of_cons in Hin. repeat destruct Hin as [->|Hin]; [..|by apply not_elem_of_nil in Hin]; (split_and!; [lia..|done|done|done]). }
  destruct Hr as (Hr & H1 & H2 & H3). apply (runs_step n p f m b true); [exact Hb|lia|]. rewrite s8_ascii by lia.
  unfold step. by destruct Hs as [-> | ->]; rewrite H1, H2, ?H3.
Qed.

Lemma runs_width_state n m p f b : state f = st_flags -> m !! p = Some b ->
  b ∈ 42 :: 46 :: mod_chars ++ conv_chars \/ 49 <= b <= 57 -> runs n 1 p f m p (set_state st_width f) m.
Proof.
  intros Hs Hb Hin.
  assert (Hr : 0 < b < 128 /\ flag_of b = None).
  { destruct Hin as [Hin|Hin].
    - unfold mod_chars, conv_chars in Hin. cbn [app] in Hin. rewrite !elem_of_cons in Hin. repeat destruct Hin as [->|Hin]; [..|by apply not_elem_of_nil in Hin]; (split; [lia|done]).
    - split; [lia|]. unfold flag_of. by rewrite !(proj2 (Z.eqb_neq _ _)) by lia. }
  destruct Hr as (Hr & H1). apply (runs_step n p f m b true); [exact Hb|lia|]. rewrite s8_ascii by lia. unfold step. by rewrite Hs, H1.
Qed.

(** What follows the flags of a directive. *)
Lemma width_next d : ok_item (Conv d) ->
  exists b rest, show_field (d_width d) ++ show_tail d = b :: rest /\ (b ∈ 42 :: 46 :: mod_chars ++ conv_chars \/ 49 <= b <= 57).
Proof.
  intros (_ & Hw & Hh & _ & Hm & Hc). destruct (d_width d) as [[|x ds]|]; cbn [show_field fmap list_fmap app].
  - unfold show_tail. destruct (d_prec d) as [x|]; cbn [from_option app].
    + eexists 46, _. split; [done|]. left. set_solver.
    + destruct (modifier_next _ _ Hm Hc) as (b & rest & -> & Hb). exists b, rest. split; [done|]. left. by right; right.
  - eexists _, _. split; [done|]. right. destruct Hw as [Hw _]. apply Forall_cons in Hw as [Hx _].
    specialize (Hh _ eq_refl). cbn in Hh. assert (x <> 0) by congruence. lia.
  - eexists 42, _. split; [done|]. left. set_solver.
Qed.

Lemma flags_unsigned cs : forall f, Forall (fun c => c ∈ flag_chars) cs -> has f FL_SIGNED = false ->
  has (fold_left (fun f c => Z.lor f (default 0 (flag_of c))) cs f) FL_SIGNED = false.
Proof.
  induction cs as [|c cs IH]; intros f Hc Hf; [done|]. apply Forall_cons in Hc as [Hc1 Hc]. cbn [fold_left]. apply IH; [done|].
  rewrite has_lor_l, Hf. unfold flag_chars in Hc1. rewrite !elem_of_cons in Hc1.
  by repeat destruct Hc1 as [->|Hc1]; [..|by apply not_elem_of_nil in Hc1].
Qed.

Section items.
Context (q0 n lim : Z) (m0 : bytes) (strs : Z -> option (list Z)).
Hypothesis Hn : 0 <= n < 4294967296.
Hypothesis Hmap : mapped m0 q0 (Z.min n lim).
Hypothesis Hlim : lim < 2147483648.
Hypothesis Hstrs : forall a s, strs a = Some s ->
  cstr m0 a s /\ (a + Z.of_nat (length s) + 1 <= q0 \/ q0 + Z.min n lim <= a) /\ Z.of_nat (length s) < 2147483648.

(** Precision, length and conversion. *)
Lemma tail_ok d f out m p v ap1 text ap' : ok_item (Conv d) -> state f = st_width -> prec f = -1 -> rank f = rank_int ->
  has (flags f) FL_SIGNED = false -> wrote q0 n m0 out (at_ f) m -> block m p (show_tail d) ->
  (match d_prec d with None => Some (-1, ap f) | Some x => field_value x (ap f) end) = Some (v, ap1) ->
  conv_text strs (d_conv d) (flags f) (rank_of (d_mods d)) (width f) (if v <? 0 then -1 else v) ap1 = Some (text, ap') ->
  Z.of_nat (length (out ++ text)) <= lim ->
  exists f' m', runs n (S (length (show_tail d))) p f m (p + Z.of_nat (length (show_tail d))) f' m' /\
    state f' = st_normal /\ ap f' = ap' /\ wrote q0 n m0 (out ++ text) (at_ f') m'.
Proof.
  intros (_ & _ & _ & Hp & Hm & Hc) Hs Hpr Hr Hsg Hw Hb Hv He Hl.
  set (pre := from_option (fun x => 46 :: show_field x) [] (d_prec d)).
  set (v' := if v <? 0 then -1 else v) in *.
  apply block_app in Hb as [Hb1 Hb2]. fold pre in Hb1, Hb2. set (p1 := p + Z.of_nat (length pre)) in *.
  assert (H1 : exists s, (s = st_width \/ s = st_prec) /\
    runs n (length pre) p f m p1 (Fmt s (at_ f) (rank f) (width f) v' (flags f) ap1) m).
  { subst pre p1 v'. destruct (d_prec d) as [x|]; cbn [from_option] in *.
    - exists st_prec. split; [by right|]. cbn [length].
      replace (p + Z.of_nat (S (length (show_field x)))) with (p + 1 + Z.of_nat (length (show_field x))) by lia.
      by apply (runs_prec n m p f x).
    - injection Hv as <- <-. exists st_width. split; [by left|]. rewrite Z.add_0_r. intros fuel. cbn. rewrite <- Hpr. by destruct f; cbn in *; subst. }
  destruct H1 as (s & Hst & H1). destruct (modifier_next _ _ Hm Hc) as (b & rest & Eb & Hbin).
  assert (H2 := runs_modifiers n m p1 (Fmt s (at_ f) (rank f) (width f) v' (flags f) ap1) b Hst
    (proj1 (proj1 (block_cons _ _ _ _) ltac:(rewrite <- Eb; exact Hb2))) Hbin).
  apply block_app in Hb2 as [Hb2 Hb3]. set (f1 := set_state st_modifiers _) in H2.
  assert (H3 := runs_mods n m p1 f1 (d_mods d) eq_refl Hm Hb2). set (p2 := p1 + Z.of_nat (length (d_mods d))) in *.
  set (f2 := Fmt st_modifiers _ _ _ _ _ _) in H3.
  apply block_cons in Hb3 as [Hb3 _].
  set (f3 := set_state st_normal (set_rank (canonical (rank f2)) f2)).
  destruct (convert_ok q0 n lim m0 strs Hn Hmap Hlim Hstrs (d_conv d) f3 out m text ap' Hc Hw) as (f' & m' & Ec & Hs' & Ha' & W');
    [subst f3 f2 v'; cbn; destruct (Z.ltb_spec v 0); lia|done| |done|].
  { subst f3 f2 f1. cbn. rewrite Hr. exact He. }
  assert (Hcr : 0 < d_conv d < 128 /\ modified (d_conv d) (rank f2) = None).
  { unfold conv_chars in Hc. rewrite !elem_of_cons in Hc. repeat destruct Hc as [->|Hc]; [..|by apply not_elem_of_nil in Hc]; (split; [lia|done]). }
  destruct Hcr as [Hcr Hmod].
  assert (H4 : runs n 1 p2 f2 m (p2 + 1) f' m').
  { apply (runs_step n p2 f2 m _ false) with (1 := Hb3); [lia|]. rewrite s8_ascii by lia. unfold step. cbn [state f2].
    rewrite Hmod. by rewrite (bind_Ret _ _ _ _ _ Ec). }
  exists f', m'. split_and!; [|done..].
  assert (El : S (length (show_tail d)) = (length pre + (1 + (length (d_mods d) + 1)))%nat)
    by (unfold show_tail; fold pre; rewrite !length_app; simpl; lia).
  rewrite El. replace (p + Z.of_nat (length (show_tail d))) with (p2 + 1) by (subst p2 p1; lia).
  eapply runs_trans; [exact H1|]. eapply runs_trans; [exact H2|]. eapply runs_trans; [exact H3|]. exact H4.
Qed.

Lemma fmt_item_ok i f out m p text ap' : ok_item i -> state f = st_normal -> wrote q0 n m0 out (at_ f) m ->
  block m p (show_item i) -> render_item strs i (ap f) = Some (text, ap') -> Z.of_nat (length (out ++ text)) <= lim ->
  exists k f' m', (k <= 3 * length (show_item i))%nat /\ runs n k p f m (p + Z.of_nat (length (show_item i))) f' m' /\
    state f' = st_normal /\ ap f' = ap' /\ wrote q0 n m0 (out ++ text) (at_ f') m'.
Proof.
  intros Hi Hs Hw Hb He Hl. destruct i as [c|d]; cbn [show_item render_item] in *.
  - injection He as <- <-. destruct Hi as [Hc Hne]. apply block_cons in Hb as [Hb _].
    rewrite length_app in Hl. cbn [length] in *.
    destruct (EMIT_ok q0 n lim m0 Hn Hmap Hlim _ _ _ (s8 c) Hw) as (c' & m' & E & W); [lia|].
    exists 1%nat, (set_at c' f), m'. split_and!; [lia| |done|done|by rewrite w8_s8 in W by (unfold is_byte; lia)].
    apply (runs_step n p f m c false); [done|lia|]. unfold step. rewrite Hs.
    change 37 with (s8 37). rewrite s8_eqb by (unfold is_byte; lia). rewrite (proj2 (Z.eqb_neq c 37)) by done.
    by rewrite (bind_Ret _ _ _ _ _ E).
  - pose proof Hi as (Hf & Hwd & Hh & Hp & Hm & Hc).
    destruct (field_value (d_width d) (ap f)) as [[w ap1]|] eqn:Ew; [|done]. cbn [mbind option_bind] in He.
    destruct (Z.eqb_spec w (-2147483648)) as [|Hw0]; [done|].
    destruct (match d_prec d with None => Some (-1, ap1) | Some x => field_value x ap1 end) as [[v ap2]|] eqn:Ep; [|done].
    cbn [mbind option_bind] in He.
    apply block_cons in Hb as [Hb0 Hb]. apply block_app in Hb as [Hb1 Hb].
    set (f1 := Fmt st_flags (at_ f) rank_int 0 (-1) 0 (ap f)).
    assert (H1 : runs n 1 p f m (p + 1) f1 m).
    { apply (runs_step n p f m 37 false); [done|lia|]. unfold step. by rewrite Hs. }
    assert (H2 := runs_flags n m (p + 1) f1 (d_flags d) eq_refl Hf Hb1). set (p1 := p + 1 + Z.of_nat (length (d_flags d))) in *.
    set (f2 := Fmt st_flags _ _ _ _ _ _) in H2.
    destruct (width_next d Hi) as (b & rest & Eb & Hbin).
    assert (H3 := runs_width_state n m p1 f2 b eq_refl (proj1 (proj1 (block_cons _ _ _ _) ltac:(rewrite <- Eb; exact Hb))) Hbin).
    apply block_app in Hb as [Hb2 Hb3].
    assert (H4 := runs_width n m p1 (set_state st_width f2) (d_width d) w ap1 eq_refl eq_refl Hwd Hb2 Ew Hw0).
    set (p2 := p1 + Z.of_nat (length (show_field (d_width d)))) in *. set (f4 := Fmt st_width _ _ _ _ _ _) in H4.
    destruct (tail_ok d f4 out m p2 v ap2 text ap' Hi eq_refl eq_refl eq_refl) as (f' & m' & H5 & Hs' & Ha' & W');
      [|done|done|done|done|done|].
    { subst f4 f2. cbn. pose proof (flags_unsigned _ 0 Hf eq_refl) as Hu. destruct (w <? 0); [by rewrite has_lor_l, Hu|done]. }
    exists (1 + (length (d_flags d) + (1 + (length (show_field (d_width d)) + S (length (show_tail d))))))%nat, f', m'.
    split_and!; [cbn [length]; rewrite !length_app; lia| |done..].
    replace (p + Z.of_nat (length (37 :: d_flags d ++ show_field (d_width d) ++ show_tail d))) with (p2 + Z.of_nat (length (show_tail d)))
      by (subst p2 p1; cbn [length]; rewrite !length_app; lia).
    eapply runs_trans; [exact H1|]. eapply runs_trans; [exact H2|]. eapply runs_trans; [exact H3|]. eapply runs_trans; [exact H4|]. exact H5.
Qed.

Lemma items_ok its : forall f out m p text fuel, Forall ok_item its -> state f = st_normal -> wrote q0 n m0 out (at_ f) m ->
  let fs := concat (show_item <$> its) ++ [0] in
  block m0 p fs -> p + Z.of_nat (length fs) <= q0 \/ q0 + Z.min n lim <= p ->
  render strs its (ap f) = Some text -> Z.of_nat (length (out ++ text)) <= lim -> (3 * length fs <= fuel)%nat ->
  exists f' m', format_loop fuel n p f m = Ret f' m' /\ wrote q0 n m0 (out ++ text) (at_ f') m'.
Proof.
  induction its as [|i its IH]; intros f out m p text fuel Hok Hs Hw fs Hb Hap Hr Hl Hf; cbn [render] in Hr.
  - injection Hr as <-. exists f, m. rewrite app_nil_r in *. split; [|done].
    pose proof (wrote_block q0 n lim m0 _ _ _ p fs Hw (proj1 Hn) Hl Hap Hb) as Hbm.
    apply block_cons in Hbm as [Hbm _]. destruct fuel as [|fuel]; [simpl in Hf; lia|]. cbn [format_loop].
    by rewrite (bind_Ret _ _ _ _ _ (ldc_ok _ _ _ Hbm)).
  - destruct (render_item strs i (ap f)) as [[x ap1]|] eqn:Ei; [|done]. cbn [mbind option_bind] in Hr.
    destruct (render strs its ap1) as [y|] eqn:Ey; [|done]. injection Hr as <-.
    apply Forall_cons in Hok as [Hi Hok]. rewrite !app_assoc in Hl.
    assert (Hlx : Z.of_nat (length (out ++ x)) <= lim) by (rewrite length_app in Hl; lia).
    subst fs. cbn [fmap list_fmap concat] in *. rewrite <- app_assoc in *.
    pose proof (wrote_block q0 n lim m0 _ _ _ p _ Hw (proj1 Hn) ltac:(rewrite length_app in Hlx; lia) Hap Hb) as Hbm.
    apply block_app in Hbm as [Hbi _]. apply block_app in Hb as [_ Hb]. rewrite length_app in Hap, Hf.
    destruct (fmt_item_ok i f out m p x ap1 Hi Hs Hw Hbi Ei Hlx) as (k & f1 & m1 & Hk & Hrun & Hs1 & <- & W1).
    destruct (IH f1 (out ++ x) m1 (p + Z.of_nat (length (show_item i))) y (fuel - k)%nat) as (f2 & m2 & E2 & W2);
      [done|done|done|done|lia|done|by rewrite <- app_assoc|lia|].
    exists f2, m2. rewrite <- app_assoc in W2. split; [|done]. rewrite <- E2, <- Hrun. f_equal. lia.
Qed.
End items.

(** [f] is a zero-terminated format outside the buffer. *)
Definition format_at (m : bytes) (p : Z) (its : list item) (b k : Z) : Prop :=
  let fs := concat (show_item <$> its) ++ [0] in
  Forall ok_item its /\ block m p fs /\ (p + Z.of_nat (length fs) <= b \/ b + k <= p).

(** What is left in a buffer of [n] bytes. *)
Definition cut (n : Z) (out : list Z) : list Z := if n =? 0 then [] else take (Z.to_nat (n - 1)) out ++ [0].

Lemma terminate_ok q0 n m0 out c m : 0 <= n < 4294967296 -> mapped m0 q0 (Z.min n (Z.of_nat (length out) + 1)) ->
  wrote q0 n m0 out c m ->
  (if c.2 <? n then st c.1 0 else if 0 <? n then st (q0 + n - 1) 0 else mret tt) m = Ret tt (put q0 (cut n out) m0).
Proof.
  intros Hn Hmap (Ho & Hq & ->). rewrite Ho. unfold cut.
  destruct (Z.ltb_spec (Z.of_nat (length out)) n) as [Hlt|Hge].
  - rewrite (proj2 (Z.eqb_neq n 0)), Hq by lia. rewrite (take_ge out) by lia.
    rewrite st_ok; [|unfold is_byte; lia|apply (put_mapped q0 _ m0 _ _ Hmap); lia]. f_equal. rewrite put_app, take_ge by lia. done.
  - destruct (Z.ltb_spec 0 n) as [Hpos|]; [|replace n with 0 by lia; done].
    rewrite (proj2 (Z.eqb_neq n 0)) by lia. replace (q0 + n - 1) with (q0 + (n - 1)) by lia.
    rewrite st_ok; [|unfold is_byte; lia|apply (put_mapped q0 _ m0 _ _ Hmap); lia]. f_equal.
    destruct (lookup_lt_is_Some_2 out (Z.to_nat (n - 1))) as [x Hx]; [lia|].
    replace (Z.to_nat n) with (S (Z.to_nat (n - 1))) by lia. rewrite (take_S_r _ _ _ Hx), !put_app.
    rewrite length_take, Nat.min_l by lia. rewrite Z2Nat.id by lia. cbn [put]. by rewrite insert_insert_eq.
Qed.

Lemma vsnprintf_text m buffer n format its ap strs out :
  0 <= n < 4294967296 -> Z.of_nat (length out) < 2147483647 ->
  let k := Z.min n (Z.of_nat (length out) + 1) in
  mapped m buffer k -> format_at m format its buffer k ->
  (forall a s, strs a = Some s -> cstr m a s /\ (a + Z.of_nat (length s) + 1 <= buffer \/ buffer + k <= a) /\
    Z.of_nat (length s) < 2147483648) ->
  render strs its ap = Some out ->
  vsnprintf buffer n format ap m = Ret (Z.of_nat (length out)) (put buffer (cut n out) m).
Proof.
  intros Hn Hl k Hmap (Hok & Hb & Hap) Hstrs Hr. unfold vsnprintf.
  set (f := Fmt st_normal (buffer, 0) rank_int 0 (-1) 0 ap).
  destruct (items_ok buffer n (Z.of_nat (length out) + 1) m strs Hn Hmap ltac:(lia) Hstrs its f [] m format out (3 * scan_fuel m))
    as (f' & m' & E & W); [exact Hok|reflexivity|apply wrote_nil|exact Hb|exact Hap|exact Hr|simpl; lia| |].
  { pose proof (block_size _ _ _ Hb). unfold scan_fuel. lia. }
  rewrite (bind_Ret _ _ _ _ _ E). cbn [app] in W. destruct (at_ f') as [q o] eqn:Ec.
  rewrite (bind_Ret _ _ _ _ _ (terminate_ok _ _ _ _ _ _ Hn Hmap W)).
  destruct W as (Ho & _). cbn [snd] in Ho. rewrite Ho, s32_small by lia. done.
Qed.

(** Without a limit the whole text is written. *)
Lemma sprintf_text m buffer format its ap strs out (k := Z.of_nat (length out) + 1) :
  k < 2147483648 -> mapped m buffer k -> format_at m format its buffer k ->
  (forall a s, strs a = Some s -> cstr m a s /\ (a + Z.of_nat (length s) + 1 <= buffer \/ buffer + k <= a) /\
    Z.of_nat (length s) < 2147483648) ->
  render strs its ap = Some out -> sprintf buffer format ap m = Ret (Z.of_nat (length out)) (put buffer (out ++ [0]) m).
Proof.
  intros Hl Hmap Hf Hs Hr.
  assert (H : forall n, n = 4294967295 -> vsnprintf buffer n format ap m = Ret (Z.of_nat (length out)) (put buffer (out ++ [0]) m)).
  { intros n Hn. rewrite (vsnprintf_text m buffer n format its ap strs out); [|lia|lia|rewrite Z.min_r by lia; done..|done].
    unfold cut. rewrite (proj2 (Z.eqb_neq n 0)), take_ge by lia. done. }
  by apply H.
Qed.

(** C13: [vsnprintf] writes the text of the format: the buffer gets as many characters of it as
    there is room for and a zero byte, nothing else in memory changes, and the result
    is the number of characters the whole text has.  The loop ends for every format. *)
Theorem vsnprintf_correct m buffer n format its ap strs out :
  0 <= n < 4294967296 -> Z.of_nat (length out) < 2147483647 ->
  let k := Z.min n (Z.of_nat (length out) + 1) in
  mapped m buffer k -> format_at m format its buffer k ->
  (forall a s, strs a = Some s -> cstr m a s /\ (a + Z.of_nat (length s) + 1 <= buffer \/ buffer + k <= a) /\
    Z.of_nat (length s) < 2147483648) ->
  render strs its ap = Some out ->
  vsnprintf buffer n format ap m = Ret (Z.of_nat (length out)) (put buffer (cut n out) m).
Proof. apply vsnprintf_text. Qed.

Module Sample.
(** "n=%+05d s=%-6s|%.*x" *)
Definition items : list item :=
  [Text 110; Text 61; Conv (Directive [43; 48] (Fixed [5]) None [] 100); Text 32; Text 115; Text 61;
   Conv (Directive [45] (Fixed [6]) None [] 115); Text 124; Conv (Directive [] (Fixed []) (Some Star) [108] 120)].
Definition hi : list Z := [104; 105].
Definition memory : bytes := put 100 (repeat 255 16) (put 300 (concat (show_item <$> items) ++ [0]) (put 200 (hi ++ [0]) ∅)).
Definition strings (a : Z) : option (list Z) := if a =? 200 then Some hi else None.

(** "n=+0042 s=hi    |00ff": of 21 characters 15 fit. *)
Lemma vsnprintf_correct_witness :
  vsnprintf 100 16 300 [42; 200; 4; 255] memory =
  Ret 21 (put 100 [110; 61; 43; 48; 48; 52; 50; 32; 115; 61; 104; 105; 32; 32; 32; 0] memory).
Proof.
  apply (vsnprintf_correct memory 100 16 300 items [42; 200; 4; 255] strings
    [110; 61; 43; 48; 48; 52; 50; 32; 115; 61; 104; 105; 32; 32; 32; 32; 124; 48; 48; 102; 102]); [lia|cbn; lia|..].
  - intros i Hi. destruct (lookup_lt_is_Some_2 (repeat 255 16) (Z.to_nat i)) as [x Hx]; [cbn in *; lia|].
    eexists. rewrite <- (Z2Nat.id i) by lia. exact (put_block 100 _ _ _ _ Hx).
  - split_and!; [|apply block_put_out; [cbn; lia|apply put_block]|cbn; lia].
    repeat constructor; cbn; try lia; try set_solver.
  - intros a s Hs. unfold strings in Hs. destruct (Z.eqb_spec a 200) as [->|]; [|done]. injection Hs as <-.
    split_and!; [|cbn; lia..]. split; [|repeat constructor; lia].
    apply block_put_out; [cbn; lia|]. apply block_put_out; [cbn; lia|]. apply put_block.
  - reflexivity.
Defined.

(** Precision 0 does not suppress the digit of zero. *)
Example zero_printed : render strings [Conv (Directive [] (Fixed []) (Some (Fixed [])) [] 100)] [0] = Some [48].
Proof. reflexivity. Qed.
End Sample.
