(* ===== verification/Scanf.v ===== *)
(** * Formatted input (apps/lib/stdlibc/vsscanf.c, sscanf.c) and network addresses (inet.c)

    [vsscanf] walks over format and input with a state machine, like [vsnprintf], and
    stores what it reads through the pointers among its arguments.

    [vsscanf_correct] is for formats of text and numbers; with Printf it gives the round
    trip of network addresses. *)

From S2P Require Import Prelude Machine CString Pack Printf.

Definition FL_SPLAT : Z := 1.
Definition FL_INV : Z := 2.
Definition FL_WIDTH : Z := 4.

(** [INT_MAX], for pointers *)
Definition rank_ptr : Z := 2147483647.

Inductive bail_t := bail_none | bail_eof | bail_err.

Inductive sstate := ss_normal | ss_flags | ss_width | ss_modifiers | ss_match_init | ss_match | ss_match_range.

(** The local variables; [matchmap] is the bit map as a number. *)
Record scan := Scan {
  s_state : sstate;
  s_q : Z;
  s_rank : Z;
  s_width : Z;
  s_flags : Z;
  s_sarg : Z;
  bail : bail_t;
  converted : Z;
  matchmap : Z;
  matchinv : bool;
  range_start : Z;
  s_ap : list Z;
}.

Definition at_state (s : sstate) (x : scan) : scan :=
  Scan s (s_q x) (s_rank x) (s_width x) (s_flags x) (s_sarg x) (bail x) (converted x) (matchmap x) (matchinv x) (range_start x) (s_ap x).
Definition at_q (q : Z) (x : scan) : scan :=
  Scan (s_state x) q (s_rank x) (s_width x) (s_flags x) (s_sarg x) (bail x) (converted x) (matchmap x) (matchinv x) (range_start x) (s_ap x).
Definition with_rank (r : Z) (x : scan) : scan :=
  Scan (s_state x) (s_q x) r (s_width x) (s_flags x) (s_sarg x) (bail x) (converted x) (matchmap x) (matchinv x) (range_start x) (s_ap x).
Definition with_width (w f : Z) (x : scan) : scan :=
  Scan (s_state x) (s_q x) (s_rank x) w f (s_sarg x) (bail x) (converted x) (matchmap x) (matchinv x) (range_start x) (s_ap x).
Definition with_bail (b : bail_t) (x : scan) : scan :=
  Scan (s_state x) (s_q x) (s_rank x) (s_width x) (s_flags x) (s_sarg x) b (converted x) (matchmap x) (matchinv x) (range_start x) (s_ap x).
Definition one_more (x : scan) : scan :=
  Scan (s_state x) (s_q x) (s_rank x) (s_width x) (s_flags x) (s_sarg x) (bail x) (s32 (converted x + 1)) (matchmap x) (matchinv x)
    (range_start x) (s_ap x).
Definition with_map (mm : Z) (inv : bool) (x : scan) : scan :=
  Scan (s_state x) (s_q x) (s_rank x) (s_width x) (s_flags x) (s_sarg x) (bail x) (converted x) mm inv (range_start x) (s_ap x).
Definition with_range (r : Z) (x : scan) : scan :=
  Scan (s_state x) (s_q x) (s_rank x) (s_width x) (s_flags x) (s_sarg x) (bail x) (converted x) (matchmap x) (matchinv x) r (s_ap x).
Definition with_arg (a : Z) (ap : list Z) (x : scan) : scan :=
  Scan (s_state x) (s_q x) (s_rank x) (s_width x) (s_flags x) a (bail x) (converted x) (matchmap x) (matchinv x) (range_start x) ap.

Definition splat (x : scan) : bool := has (s_flags x) FL_SPLAT.

Fixpoint skipspace_loop (fuel : nat) (p : Z) : cmd bytes Z :=
  match fuel with
  | O => stop_with (PageFault p)
  | S fuel => b ← ld p; if isspace b then skipspace_loop fuel (p + 1) else mret p
  end.
Definition skipspace (p : Z) : cmd bytes Z := fun m => skipspace_loop (scan_fuel m) p m.

Definition set_bit (bitmap bit : Z) : Z := Z.lor bitmap (Z.shiftl 1 bit).
Definition test_bit (bitmap bit : Z) : bool := Z.testbit bitmap bit.

(** The size of what the pointer of the rank points to. *)
Definition store_size (rank : Z) : nat := if rank =? rank_ptr then 4 else rank_size rank.

(** [set_integer] *)
Definition set_integer (val : Z) (x : scan) : cmd bytes scan :=
  if splat x then mret x
  else
    '(p, ap) ← va_word (s_ap x);
    stn p (le_bytes (store_size (s_rank x)) val);;
    mret (with_arg (s_sarg x) ap x).

(** [scan_int] *)
Definition scan_int (base : Z) (x : scan) : cmd bytes scan :=
  q ← skipspace (s_q x);
  b ← ld q;
  if b =? 0 then mret (with_bail bail_eof (at_q q x))
  else
    '(val, qq) ← strntoumax q base (s_width x);
    if qq =? q then mret (with_bail bail_err (at_q q x))
    else set_integer val (let x := at_q qq x in if splat x then x else one_more x).

(** [while (width--) { if (!*q) { bail = bail_eof; break; } }]: nothing is read. *)
Fixpoint splat_chars (n : nat) (x : scan) : cmd bytes scan :=
  match n with
  | O => mret x
  | S n => b ← ld (s_q x); if b =? 0 then mret (with_bail bail_eof x) else splat_chars n x
  end.

Fixpoint copy_chars (n : nat) (sarg : Z) (x : scan) : cmd bytes scan :=
  match n with
  | O => mret x
  | S n =>
      b ← ld (s_q x);
      if b =? 0 then mret (with_bail bail_eof x) else st sarg b;; copy_chars n (sarg + 1) (at_q (s_q x + 1) x)
  end.

(** The loops of [%s] and [%[]: characters for which [ok] holds, at most [width] of them if
    there is a limit; they are copied unless [sp] is [None].  The new pointers and the
    last character looked at, 1 when none was. *)
Fixpoint take_chars (fuel : nat) (limit : option Z) (ok : Z -> bool) (q : Z) (sp : option Z) (uc : Z) :
    cmd bytes (Z * option Z * Z) :=
  match fuel with
  | O => stop_with (PageFault q)
  | S fuel =>
      if bool_decide (limit = Some 0) then mret (q, sp, uc)
      else
        uc ← ld q;
        if negb (uc =? 0) && ok uc then
          (match sp with Some a => st a uc | None => mret tt end);;
          take_chars fuel ((fun w => w - 1) <$> limit) ok (q + 1) ((fun a => a + 1) <$> sp) uc
        else mret (q, sp, uc)
  end.

Definition scan_string (x : scan) : cmd bytes scan := fun m =>
  ((if splat x then
      '(q, _, uc) ← take_chars (scan_fuel m) (Some (s_width x)) (fun c => negb (isspace c)) (s_q x) None 1;
      mret (if uc =? 0 then with_bail bail_eof (at_q q x) else at_q q x)
    else
      '(sarg, ap) ← va_word (s_ap x);
      '(q, sp, uc) ← take_chars (scan_fuel m) (Some (s_width x)) (fun c => negb (isspace c)) (s_q x) (Some sarg) 1;
      let sp := default sarg sp in
      let x := with_arg sarg ap (at_q q x) in
      x ← (if negb (sarg =? sp) then st sp 0;; mret (one_more x) else mret x);
      mret (if uc =? 0 then with_bail bail_eof x else x))) m.

(** [match_run]; the state stays [st_match], and the width is not counted down. *)
Definition match_run (x : scan) : cmd bytes scan := fun m =>
  (let limit := if s_width x =? 0 then Some 0 else None in
   let sp := if s_sarg x =? NULL then None else Some (s_sarg x) in
   '(q, sp, uc) ← take_chars (scan_fuel m) limit (fun c => xorb (test_bit (matchmap x) c) (matchinv x)) (s_q x) sp 1;
   x' ← (if negb (q =? s_q x) && negb (s_sarg x =? NULL) then
           let a := default NULL sp in
           st a 0;; mret (one_more (with_arg a (s_ap x) (at_q q x)))
         else mret (with_bail bail_err (at_q q x)));
   mret (if uc =? 0 then with_bail bail_eof x' else x')) m.

Definition modified_scan (ch rank : Z) : option Z :=
  if ch =? 104 then Some (s32 (rank - 1))
  else if ch =? 108 then Some (s32 (rank + 1))
  else if ch =? 106 then Some rank_longlong
  else if ch =? 122 then Some rank_long
  else if ch =? 116 then Some rank_long
  else if (ch =? 76) || (ch =? 113) then Some rank_longlong
  else None.

(** The output modifiers; [buffer] is the start of the input. *)
Definition scan_convert (buffer ch : Z) (x : scan) : cmd bytes scan :=
  if (ch =? 80) || (ch =? 112) then scan_int 0 (with_rank rank_ptr x)
  else if ch =? 105 then scan_int 0 x
  else if ch =? 100 then scan_int 10 x
  else if ch =? 111 then scan_int 8 x
  else if ch =? 117 then scan_int 10 x
  else if (ch =? 120) || (ch =? 88) then scan_int 16 x
  else if ch =? 110 then set_integer (s_q x - buffer) x
  else if ch =? 99 then
    let width := if has (s_flags x) FL_WIDTH then s_width x else 1 in
    if splat x then splat_chars (Z.to_nat width) x
    else
      '(sarg, ap) ← va_word (s_ap x);
      x ← copy_chars (Z.to_nat width) sarg (with_arg sarg ap x);
      mret (match bail x with bail_none => one_more x | _ => x end)
  else if ch =? 115 then scan_string x
  else if ch =? 91 then
    let y := at_state ss_match_init (with_map 0 false x) in
    if splat x then mret (with_arg NULL (s_ap x) y) else '(sarg, ap) ← va_word (s_ap x); mret (with_arg sarg ap y)
  else if ch =? 37 then
    c ← ldc (s_q x); mret (if c =? 37 then at_q (s_q x + 1) x else with_bail bail_err x)
  else mret (with_bail bail_err x).

(** [for (i=range_start;i<(unsigned char)ch;i++) set_bit(matchmap,i)] *)
Definition set_range (from upto map : Z) : Z := fold_left set_bit (seqZ from (upto - from)) map.

Definition scan_step (buffer ch : Z) (x : scan) : cmd bytes (bool * scan) :=
  match s_state x with
  | ss_normal =>
      if ch =? 37 then mret (false, at_state ss_flags (with_rank rank_int (with_width 4294967295 0 x)))
      else if isspace (w8 ch) then q ← skipspace (s_q x); mret (false, at_q q x)
      else c ← ldc (s_q x); mret (false, if c =? ch then at_q (s_q x + 1) x else with_bail bail_err x)
  | ss_flags =>
      if ch =? 42 then mret (false, with_width (s_width x) (Z.lor (s_flags x) FL_SPLAT) x)
      else if (48 <=? ch) && (ch <=? 57) then
        mret (false, at_state ss_width (with_width (ch - 48) (Z.lor (s_flags x) FL_WIDTH) x))
      else mret (true, at_state ss_modifiers x)
  | ss_width =>
      if (48 <=? ch) && (ch <=? 57) then mret (false, with_width (w32 (s_width x * 10 + (ch - 48))) (s_flags x) x)
      else mret (true, at_state ss_modifiers x)
  | ss_modifiers =>
      match modified_scan ch (s_rank x) with
      | Some r => mret (false, with_rank r x)
      | None => x ← scan_convert buffer ch (at_state ss_normal (with_rank (canonical (s_rank x)) x)); mret (false, x)
      end
  | ss_match_init =>
      if (ch =? 94) && negb (has (s_flags x) FL_INV) then mret (false, with_map (matchmap x) true x)
      else mret (false, at_state ss_match (with_map (set_bit (matchmap x) (w8 ch)) (matchinv x) x))
  | ss_match =>
      if ch =? 93 then x ← match_run x; mret (false, x)
      else if ch =? 45 then mret (false, at_state ss_match_range (with_range (w8 ch) x))
      else mret (false, with_map (set_bit (matchmap x) (w8 ch)) (matchinv x) x)
  | ss_match_range =>
      if ch =? 93 then x ← match_run (with_map (set_bit (matchmap x) 45) (matchinv x) x); mret (false, x)
      else mret (false, at_state ss_match (with_map (set_range (range_start x) (w8 ch) (matchmap x)) (matchinv x) x))
  end.

(** [while ((ch = *p++) && !bail)] *)
Fixpoint scan_loop (fuel : nat) (buffer p : Z) (x : scan) : cmd bytes scan :=
  match fuel with
  | O => stop_with Hang
  | S fuel =>
      ch ← ldc p;
      match bail x with
      | bail_none =>
          if ch =? 0 then mret x
          else '(again, x) ← scan_step buffer ch x; scan_loop fuel buffer (if again : bool then p else p + 1) x
      | _ => mret x
      end
  end.

(** [EOF] when the input ends before the first conversion *)
Definition vsscanf (buffer format : Z) (ap : list Z) : cmd bytes Z := fun m =>
  (x ← scan_loop (3 * scan_fuel m) buffer format
         (Scan ss_normal buffer rank_int 4294967295 0 NULL bail_none 0 0 false 0 ap);
   mret (match bail x with bail_eof => if converted x =? 0 then -1 else converted x | _ => converted x end)) m.

Definition sscanf (str format : Z) (ap : list Z) : cmd bytes Z := vsscanf str format ap.

(** * Specification *)

(** Text and numbers: [%u] with length modifiers. *)
Inductive sitem := Lit (c : Z) | Unsigned (mods : list Z).

Definition show_sitem (i : sitem) : list Z := match i with Lit c => [c] | Unsigned ms => 37 :: ms ++ [117] end.

Definition decimal (v : Z) : list Z := if v =? 0 then [48] else (fun d => 48 + d) <$> radix 64 10 v.

(** The input that the items stand for, with the values of the numbers. *)
Fixpoint input (its : list sitem) (vs : list Z) : list Z :=
  match its, vs with
  | Lit c :: its, vs => c :: input its vs
  | Unsigned _ :: its, v :: vs => decimal v ++ input its vs
  | _, _ => []
  end.

(** What is stored where. *)
Fixpoint stores (its : list sitem) (vs ps : list Z) : list (Z * list Z) :=
  match its, vs, ps with
  | Lit c :: its, vs, ps => stores its vs ps
  | Unsigned ms :: its, v :: vs, p :: ps =>
      (p, le_bytes (rank_size (canonical (fold_left (fun r c => default r (modified_scan c r)) ms rank_int))) v) ::
      stores its vs ps
  | _, _, _ => []
  end.

Definition store_all (ws : list (Z * list Z)) (m : bytes) : bytes := fold_left (fun m w => put w.1 w.2 m) ws m.

Definition isdig (c : Z) : bool := (48 <=? c) && (c <=? 57).

(** A number is followed by something that is not a digit. *)
Fixpoint ok_sitems (its : list sitem) : Prop :=
  match its with
  | [] => True
  | Lit c :: its => 0 < c < 256 /\ c <> 37 /\ isspace c = false /\ ok_sitems its
  | Unsigned ms :: its =>
      Forall (fun c => c ∈ mod_chars) ms /\ ok_sitems its /\
      match its with [] => True | Lit c :: _ => isdig c = false | Unsigned _ :: _ => False end
  end.

Fixpoint numbers (its : list sitem) : nat :=
  match its with [] => 0 | Lit _ :: its => numbers its | Unsigned _ :: its => S (numbers its) end.

(** * Properties *)

(** ** Numbers *)

Lemma num_app ds d : num (ds ++ [d]) = num ds * 10 + d.
Proof. unfold num. by rewrite fold_left_app. Qed.

Lemma num_radix fuel : forall v, 0 <= v < 10 ^ Z.of_nat fuel -> num (radix fuel 10 v) = v.
Proof.
  induction fuel as [|fuel IH]; intros v Hv; cbn [radix].
  { replace v with 0 by (simpl in Hv; lia). done. }
  destruct (Z.eqb_spec v 0) as [->|Hn]; [done|]. rewrite num_app, IH.
  - pose proof (Z.div_mod v 10 ltac:(lia)). lia.
  - split; [apply Z.div_pos; lia|]. apply Z.div_lt_upper_bound; [lia|].
    rewrite Nat2Z.inj_succ, Z.pow_succ_r in Hv by lia. lia.
Qed.

Lemma radix_digits fuel base : 1 < base -> forall v, 0 <= v -> Forall (fun d => 0 <= d < base) (radix fuel base v).
Proof.
  intros Hb. induction fuel as [|fuel IH]; intros v Hv; cbn [radix]; [constructor|]. destruct (v =? 0); [constructor|].
  apply Forall_app. split; [apply IH; apply Z.div_pos; lia|]. repeat constructor; apply Z.mod_pos_bound; lia.
Qed.

(** The digits of [decimal], as numbers. *)
Definition dec_digits (v : Z) : list Z := if v =? 0 then [0] else radix 64 10 v.

Lemma decimal_digits v : decimal v = (fun d => 48 + d) <$> dec_digits v.
Proof. unfold decimal, dec_digits. by destruct (v =? 0). Qed.

Lemma dec_digits_ok v : 0 <= v < 18446744073709551616 ->
  num (dec_digits v) = v /\ Forall (fun d => 0 <= d <= 9) (dec_digits v) /\ dec_digits v <> [].
Proof.
  intros Hv. unfold dec_digits. destruct (Z.eqb_spec v 0) as [->|Hn]; [split_and!; [done|repeat constructor; lia|done]|].
  split_and!.
  - apply num_radix. split; [lia|]. apply pow_64; [by right; left|lia].
  - eapply Forall_impl; [apply (radix_digits 64 10); lia|]. cbn. lia.
  - intros E. apply (radix_nil 63 10 v) in E. done.
Qed.

Lemma not_digit c : is_byte c -> isdig c = false -> (0 <=? digitval (s8 c)) && (digitval (s8 c) <? 10) = false.
Proof.
  intros Hb Hc. apply not_true_iff_false. intros [H1 H2]%andb_true_iff. apply Z.leb_le in H1. apply Z.ltb_lt in H2.
  unfold isdig in Hc. unfold digitval, s8, w8, is_byte in *. rewrite (Z.mod_small c) in * by lia.
  destruct (Z.ltb_spec c 128).
  - rewrite Hc in *. destruct ((65 <=? c) && (c <=? 90)) eqn:E1; [|destruct ((97 <=? c) && (c <=? 122)) eqn:E2; [|lia]];
      repeat match goal with H : (_ && _) = true |- _ => apply andb_true_iff in H as [?%Z.leb_le ?%Z.leb_le] end; lia.
  - rewrite !(proj2 (Z.leb_gt _ (c - 256))) in * by lia. cbn [andb] in *. lia.
Qed.

Lemma digits_loop_ok ds : forall fuel p n v m c,
  Forall (fun d => 0 <= d <= 9) ds -> block m p (((fun d => 48 + d) <$> ds) ++ [c]) -> isdig c = false -> is_byte c ->
  (length ds < fuel)%nat -> Z.of_nat (length ds) < n -> 0 <= v -> fold_left (fun a d => a * 10 + d) ds v < 18446744073709551616 ->
  digits_loop fuel 10 p n v m = Ret (fold_left (fun a d => a * 10 + d) ds v, p + Z.of_nat (length ds)) m.
Proof.
  induction ds as [|d ds IH]; intros fuel p n v m c Hd Hb Hc Hby Hf Hn Hv Hlt;
    (destruct fuel as [|fuel]; [simpl in Hf; lia|]); cbn [digits_loop fmap list_fmap app length] in *;
    apply block_cons in Hb as [Hb1 Hb]; rewrite (proj2 (Z.eqb_neq n 0)) by lia; rewrite (bind_Ret _ _ _ _ _ (ldc_ok _ _ _ Hb1)).
  - assert (E : (0 <=? digitval (s8 c)) && (digitval (s8 c) <? 10) = false).
    { by apply not_digit. }
    rewrite E. by rewrite Z.add_0_r.
  - apply Forall_cons in Hd as [Hd1 Hd]. cbn [fold_left] in *.
    pose proof (num_mono ds (v * 10 + d) Hd ltac:(lia)).
    rewrite s8_ascii by lia. assert (E : digitval (48 + d) = d).
    { unfold digitval. rewrite (proj2 (Z.leb_le 48 _)), (proj2 (Z.leb_le _ 57)) by lia. cbn [andb]. lia. }
    rewrite E. rewrite (proj2 (Z.leb_le 0 d)), (proj2 (Z.ltb_lt d 10)) by lia. cbn [andb].
    assert (Ew : w64 (v * 10 + d) = v * 10 + d) by (unfold w64; apply Z.mod_small; lia). rewrite Ew.
    rewrite (IH fuel (p + 1) (n - 1) (v * 10 + d) m c) by (done || lia). f_equal. f_equal. lia.
Qed.

Lemma isspace_digit d : 0 <= d <= 9 -> isspace (48 + d) = false.
Proof. intros Hd. assert (H : d = 0 \/ d = 1 \/ d = 2 \/ d = 3 \/ d = 4 \/ d = 5 \/ d = 6 \/ d = 7 \/ d = 8 \/ d = 9) by lia.
  by repeat destruct H as [->|H]; [..|subst]. Qed.

(** A decimal number is read up to its end. *)
Lemma strntoumax_decimal m p v c : 0 <= v < 18446744073709551616 ->
  block m p (decimal v ++ [c]) -> is_byte c -> isdig c = false -> Z.of_nat (length (decimal v)) < 4294967295 ->
  strntoumax p 10 4294967295 m = Ret (v, p + Z.of_nat (length (decimal v))) m.
Proof.
  intros Hv Hb Hc Hnd Hl. destruct (dec_digits_ok v Hv) as (En & Hd & Hne). rewrite decimal_digits in *.
  destruct (dec_digits v) as [|d ds] eqn:Ed; [done|]. cbn [fmap list_fmap app] in Hb.
  pose proof Hb as Hb'. apply block_cons in Hb' as [Hb1 _]. apply Forall_cons in Hd as Hd2. destruct Hd2 as [Hd1 _].
  unfold strntoumax. assert (Ef : exists f, scan_fuel m = S f) by (by exists (size m)). destruct Ef as [f Ef].
  assert (E1 : skip_space (scan_fuel m) p 4294967295 m = Ret (p, 4294967295) m).
  { rewrite Ef. cbn [skip_space]. change (4294967295 =? 0) with false. cbv iota.
    rewrite (bind_Ret _ _ _ _ _ (ld_ok _ _ _ Hb1)). by rewrite isspace_digit. }
  rewrite (bind_Ret _ _ _ _ _ E1). cbn [fst snd]. change (4294967295 =? 0) with false. cbv iota. rewrite bind_assoc.
  rewrite (bind_Ret _ _ _ _ _ (ldc_ok _ _ _ Hb1)), s8_ascii, bind_ret by lia.
  rewrite (proj2 (Z.eqb_neq (48 + d) 45)), (proj2 (Z.eqb_neq (48 + d) 43)) by lia. cbn [orb].
  unfold read_base. change (10 =? 0) with false. change (10 =? 16) with false. cbv iota. rewrite bind_ret.
  pose proof (block_size _ _ _ Hb) as Hs. cbn [length] in Hs. rewrite length_app, length_fmap in Hs. cbn [length fmap list_fmap] in *. rewrite length_fmap in *.
  rewrite (bind_Ret _ _ _ _ _ (digits_loop_ok (d :: ds) (scan_fuel m) p 4294967295 0 m c Hd Hb Hnd Hc
    ltac:(unfold scan_fuel; cbn [length] in *; lia) ltac:(cbn [length]; lia) ltac:(lia) ltac:(change (num (d :: ds) < 18446744073709551616); rewrite En; lia))).
  change (fold_left (fun a d => a * 10 + d) (d :: ds) 0) with (num (d :: ds)). rewrite En. done.
Qed.

(** ** The state machine *)

Definition sruns (buffer : Z) (k : nat) (p : Z) (x : scan) (m : bytes) (p' : Z) (x' : scan) (m' : bytes) : Prop :=
  forall fuel, scan_loop (k + fuel) buffer p x m = scan_loop fuel buffer p' x' m'.

Lemma sruns_trans b k k' p x m p1 x1 m1 p2 x2 m2 :
  sruns b k p x m p1 x1 m1 -> sruns b k' p1 x1 m1 p2 x2 m2 -> sruns b (k + k') p x m p2 x2 m2.
Proof. intros H1 H2 fuel. by rewrite <- Nat.add_assoc, H1, H2. Qed.

Lemma sruns_step bf p x m b again x' m' : m !! p = Some b -> 0 < b < 256 -> bail x = bail_none ->
  scan_step bf (s8 b) x m = Ret (again, x') m' -> sruns bf 1 p x m (if again : bool then p else p + 1) x' m'.
Proof.
  intros Hb Hr Hx E fuel. cbn [Nat.add scan_loop]. rewrite (bind_Ret _ _ _ _ _ (ldc_ok _ _ _ Hb)), Hx.
  rewrite s8_zero by (unfold is_byte; lia). rewrite (proj2 (Z.eqb_neq b 0)) by lia.
  by rewrite (bind_Ret _ _ _ _ _ E).
Qed.

Lemma mod_char_ok c r : c ∈ mod_chars -> 0 < c < 128 /\ is_Some (modified_scan c r) /\ c <> 42 /\ (48 <=? c) && (c <=? 57) = false.
Proof.
  intros Hc. unfold mod_chars in Hc. rewrite !elem_of_cons in Hc.
  repeat destruct Hc as [->|Hc]; [..|by apply not_elem_of_nil in Hc]; (split_and!; [lia..|by eexists|lia|done]).
Qed.

Lemma sruns_mods bf m cs : forall p x, s_state x = ss_modifiers -> bail x = bail_none -> Forall (fun c => c ∈ mod_chars) cs ->
  block m p cs -> sruns bf (length cs) p x m (p + Z.of_nat (length cs))
    (with_rank (fold_left (fun r c => default r (modified_scan c r)) cs (s_rank x)) x) m.
Proof.
  induction cs as [|c cs IH]; intros p x Hs Hx Hc Hb; [intros fuel; rewrite Z.add_0_r; by destruct x|].
  apply Forall_cons in Hc as [Hc1 Hc]. apply block_cons in Hb as [Hb1 Hb].
  destruct (mod_char_ok c (s_rank x) Hc1) as (Hr & [r Er] & _ & _).
  change (length (c :: cs)) with (1 + length cs)%nat. eapply sruns_trans.
  - apply (sruns_step bf p x m c false); [done|lia|done|]. rewrite s8_ascii by lia. unfold scan_step. by rewrite Hs, Er.
  - cbn [fold_left]. rewrite Er. cbn [default]. replace (p + Z.of_nat (1 + length cs)) with (p + 1 + Z.of_nat (length cs)) by lia.
    apply (IH (p + 1) (with_rank r x)); done.
Qed.

Lemma canonical_not_ptr r : store_size (canonical r) = rank_size (canonical r).
Proof.
  unfold store_size. assert (canonical r <> rank_ptr).
  { unfold canonical, rank_ptr, rank_char, rank_longlong. destruct (Z.ltb_spec r (-2)), (Z.ltb_spec 2 r); lia. }
  by rewrite (proj2 (Z.eqb_neq _ _)).
Qed.

Lemma skipspace_stays m q b : m !! q = Some b -> isspace b = false -> skipspace q m = Ret q m.
Proof.
  intros Hb Hs. unfold skipspace. assert (Ef : scan_fuel m = S (size m)) by done. rewrite Ef. cbn [skipspace_loop].
  by rewrite (bind_Ret _ _ _ _ _ (ld_ok _ _ _ Hb)), Hs.
Qed.

(** A number is stored; [c] follows it. *)
Lemma scan_int_ok x m v c p ps : 0 <= v < 18446744073709551616 -> block m (s_q x) (decimal v ++ [c]) -> is_byte c ->
  isdig c = false -> Z.of_nat (length (decimal v)) < 4294967295 -> splat x = false -> s_width x = 4294967295 -> s_ap x = p :: ps -> 0 <= p < 4294967296 ->
  mapped m p (Z.of_nat (store_size (s_rank x))) ->
  scan_int 10 x m = Ret (with_arg (s_sarg x) ps (one_more (at_q (s_q x + Z.of_nat (length (decimal v))) x)))
    (put p (le_bytes (store_size (s_rank x)) v) m).
Proof.
  intros Hv Hb Hc Hnd Hl Hsp Hw Hap Hp Hmap. pose proof Hb as Hb'. destruct (dec_digits_ok v Hv) as (_ & Hd & Hne).
  rewrite decimal_digits in Hb'. destruct (dec_digits v) as [|d ds] eqn:Ed; [done|]. apply block_cons in Hb' as [Hb1 _].
  apply Forall_cons in Hd as [Hd1 _]. unfold scan_int.
  rewrite (bind_Ret _ _ _ _ _ (skipspace_stays m (s_q x) _ Hb1 (isspace_digit d Hd1))).
  rewrite (bind_Ret _ _ _ _ _ (ld_ok _ _ _ Hb1)). rewrite (proj2 (Z.eqb_neq (48 + d) 0)) by lia. rewrite Hw.
  rewrite (bind_Ret _ _ _ _ _ (strntoumax_decimal m (s_q x) v c Hv Hb Hc Hnd Hl)).
  assert (Hlen : 0 < Z.of_nat (length (decimal v))) by (rewrite decimal_digits, Ed; simpl; lia).
  rewrite (proj2 (Z.eqb_neq (s_q x + Z.of_nat (length (decimal v))) (s_q x))) by lia.
  change (splat (at_q (s_q x + Z.of_nat (length (decimal v))) x)) with (splat x). rewrite Hsp. unfold set_integer.
  change (splat (one_more (at_q (s_q x + Z.of_nat (length (decimal v))) x))) with (splat x). rewrite Hsp.
  cbn [s_ap one_more at_q]. rewrite Hap. cbn [va_word]. rewrite bind_ret, w32_small by done.
  erewrite bind_Ret; [reflexivity|]. apply stn_put; [apply le_bytes_byte|by rewrite le_bytes_length].
Qed.

Lemma decimal_length v : Z.of_nat (length (decimal v)) < 4294967295.
Proof.
  unfold decimal. destruct (v =? 0); [simpl; lia|]. rewrite length_fmap.
  assert (H : forall fuel v, (length (radix fuel 10 v) <= fuel)%nat).
  { induction fuel as [|fuel IH]; intros u; cbn [radix]; [done|]. destruct (u =? 0); [simpl; lia|]. rewrite length_app.
    specialize (IH (u / 10)). simpl. lia. }
  specialize (H 64%nat v). lia.
Qed.

Definition away (w : Z * list Z) (a : Z) (k : nat) : Prop :=
  w.1 + Z.of_nat (length w.2) <= a \/ a + Z.of_nat k <= w.1.

(** The directive of a number. *)
Lemma directive_ok bf m p x ms v c q ps : Forall (fun c => c ∈ mod_chars) ms ->
  s_state x = ss_normal -> bail x = bail_none -> s_ap x = q :: ps -> 0 <= q < 4294967296 ->
  block m p (37 :: ms ++ [117]) -> 0 <= v < 18446744073709551616 -> block m (s_q x) (decimal v ++ [c]) -> is_byte c -> isdig c = false ->
  let r := canonical (fold_left (fun r c => default r (modified_scan c r)) ms rank_int) in
  mapped m q (Z.of_nat (rank_size r)) ->
  exists x', sruns bf (3 + length ms) p x m (p + Z.of_nat (2 + length ms)) x' (put q (le_bytes (rank_size r) v) m) /\
    s_state x' = ss_normal /\ bail x' = bail_none /\ s_ap x' = ps /\ s_q x' = s_q x + Z.of_nat (length (decimal v)) /\
    converted x' = s32 (converted x + 1).
Proof.
  intros Hms Hs Hx Hap Hq Hb Hv Hin Hc Hnd r Hmap. apply block_cons in Hb as [Hb0 Hb].
  set (x1 := at_state ss_flags (with_rank rank_int (with_width 4294967295 0 x))).
  assert (H1 : sruns bf 1 p x m (p + 1) x1 m).
  { apply (sruns_step bf p x m 37 false); [done|lia|done|]. unfold scan_step. by rewrite Hs. }
  assert (H2 : sruns bf 1 (p + 1) x1 m (p + 1) (at_state ss_modifiers x1) m).
  { assert (Hh : exists b rest, ms ++ [117] = b :: rest /\ 0 < b < 128 /\ b <> 42 /\ (48 <=? b) && (b <=? 57) = false).
    { destruct ms as [|b ms]; [exists 117, []; split_and!; (done || lia)|]. exists b, (ms ++ [117]).
      apply Forall_cons in Hms as [Hm _]. destruct (mod_char_ok b 0 Hm) as (? & _ & ? & ?). done. }
    destruct Hh as (b & rest & Eb & Hr & Hn & Hd). rewrite Eb in Hb. apply block_cons in Hb as [Hb _].
    apply (sruns_step bf (p + 1) x1 m b true); [done|lia|done|]. rewrite s8_ascii by lia. unfold scan_step. cbn [s_state at_state x1].
    by rewrite (proj2 (Z.eqb_neq b 42)), Hd by done. }
  apply block_app in Hb as [Hb1 Hb2]. apply block_cons in Hb2 as [Hb2 _].
  assert (H3 := sruns_mods bf m ms (p + 1) (at_state ss_modifiers x1) eq_refl Hx Hms Hb1).
  set (x3 := with_rank _ _) in H3. set (p3 := p + 1 + Z.of_nat (length ms)) in *.
  set (x4 := at_state ss_normal (with_rank (canonical (s_rank x3)) x3)).
  assert (Er : store_size (s_rank x4) = rank_size r) by apply canonical_not_ptr.
  assert (Ei := scan_int_ok x4 m v c q ps Hv Hin Hc Hnd (decimal_length v) eq_refl eq_refl Hap Hq ltac:(rewrite Er; exact Hmap)).
  rewrite Er in Ei. eexists. split.
  - replace (3 + length ms)%nat with (1 + (1 + (length ms + 1)))%nat by lia.
    replace (p + Z.of_nat (2 + length ms)) with (p3 + 1) by (subst p3; lia).
    eapply sruns_trans; [exact H1|]. eapply sruns_trans; [exact H2|]. eapply sruns_trans; [exact H3|].
    apply (sruns_step bf p3 x3 m 117 false); [done|lia|done|]. unfold scan_step. change (s_state x3) with ss_modifiers. cbv iota.
    change (modified_scan (s8 117) (s_rank x3)) with (@None Z). cbv iota. fold x4.
    change (scan_convert bf (s8 117) x4) with (scan_int 10 x4). rewrite (bind_Ret _ _ _ _ _ Ei). reflexivity.
  - split_and!; done.
Qed.

(** The pointers are good: the places are mapped, and away from input and format. *)
Definition places_ok (m : bytes) (ws : list (Z * list Z)) (a : Z) (k : nat) (b : Z) (j : nat) : Prop :=
  Forall (fun w => 0 <= w.1 < 4294967296 /\ mapped m w.1 (Z.of_nat (length w.2)) /\ away w a k /\ away w b j) ws.

Lemma places_ok_put m ws a k b j q x : places_ok m ws a k b j -> places_ok (put q x m) ws a k b j.
Proof.
  intros H. eapply Forall_impl; [exact H|]. intros w (? & ? & ? & ?). split_and!; [lia..|by apply put_mapped|done|done].
Qed.

Lemma places_ok_suffix m ws a k a' k' b j b' j' : a <= a' -> a' + Z.of_nat k' <= a + Z.of_nat k ->
  b <= b' -> b' + Z.of_nat j' <= b + Z.of_nat j -> places_ok m ws a k b j -> places_ok m ws a' k' b' j'.
Proof.
  intros H1 H2 H3 H4 H. eapply Forall_impl; [exact H|]. unfold away. intros w (? & ? & ? & ?). split_and!; [lia..|done|lia|lia].
Qed.

Lemma sitems_ok its : forall vs ps x m bf p fuel (fs := concat (show_sitem <$> its) ++ [0]) (text := input its vs ++ [0]),
  ok_sitems its -> length vs = numbers its -> length ps = numbers its -> Forall (fun v => 0 <= v < 18446744073709551616) vs ->
  s_state x = ss_normal -> bail x = bail_none -> s_ap x = ps -> block m p fs -> block m (s_q x) text ->
  places_ok m (stores its vs ps) p (length fs) (s_q x) (length text) -> (3 * length fs <= fuel)%nat ->
  0 <= converted x -> converted x + Z.of_nat (numbers its) < 2147483648 ->
  exists x', scan_loop fuel bf p x m = Ret x' (store_all (stores its vs ps) m) /\ bail x' = bail_none /\
    converted x' = converted x + Z.of_nat (numbers its).
Proof.
  induction its as [|i its IH]; intros vs ps x m bf p fuel fs text Hok Hvs Hps Hv Hs Hx Hap Hbf Hbt Hw Hf Hc0 Hc.
  { exists x. apply block_cons in Hbf as [Hbf _]. destruct fuel as [|fuel]; [simpl in Hf; lia|]. cbn [scan_loop].
    rewrite (bind_Ret _ _ _ _ _ (ldc_ok _ _ _ Hbf)), Hx. cbn [numbers]. split_and!; [done|done|lia]. }
  subst fs text. cbn [fmap list_fmap concat] in *. rewrite <- app_assoc in *. set (fs := concat (show_sitem <$> its) ++ [0]) in *.
  destruct i as [c|ms]; cbn [show_sitem ok_sitems numbers input stores] in *.
  - destruct Hok as (Hc1 & Hne & Hsp & Hok). set (text := input its vs ++ [0]) in *. cbn [app length] in *.
    apply block_cons in Hbf as [Hb1 Hbf]. apply block_cons in Hbt as [Hb2 Hbt].
    destruct (IH vs ps (at_q (s_q x + 1) x) m bf (p + 1) (fuel - 1)%nat) as (x' & E & Hb' & Hc');
      [done|done|done|done|done|done|done|done|done| |fold fs in Hf |- *; lia|done|done|].
    { eapply places_ok_suffix; [..|exact Hw]; fold fs text; cbn [s_q at_q]; lia. }
    exists x'. split_and!; [|done|exact Hc']. rewrite <- E. replace fuel with (1 + (fuel - 1))%nat at 1 by lia.
    apply (sruns_step bf p x m c false); [done|lia|done|]. unfold scan_step. rewrite Hs.
    change 37 with (s8 37) at 1. rewrite s8_eqb, (proj2 (Z.eqb_neq c 37)) by (try done; unfold is_byte; lia).
    rewrite w8_s8, Hsp by (unfold is_byte; lia). rewrite (bind_Ret _ _ _ _ _ (ldc_ok _ _ _ Hb2)), Z.eqb_refl. done.
  - destruct Hok as (Hms & Hok & Hnext). destruct vs as [|v vs]; [done|]. destruct ps as [|q ps]; [done|].
    cbn [stores input] in *. injection Hvs as Hvs. injection Hps as Hps. apply Forall_cons in Hv as [Hv1 Hv].
    rewrite <- app_assoc in *. set (text := input its vs ++ [0]) in *.
    assert (Hh : exists c rest, text = c :: rest /\ is_byte c /\ isdig c = false).
    { subst text. destruct its as [|[c|]]; [exists 0, []|exists c, (input its vs ++ [0])|done]; (split_and!; [done|..]);
        [unfold is_byte; lia|done|destruct Hok; unfold is_byte; lia|done]. }
    destruct Hh as (c & rest & Et & Hcb & Hnd).
    apply Forall_cons in Hw as [(Hq & Hmq & Haf & Hat) Hw]. cbn [fst snd] in Hq, Hmq. rewrite le_bytes_length in Hmq.
    apply block_app in Hbf as [Hb1 Hbf].
    assert (Hbn : block m (s_q x) (decimal v ++ [c]))
      by (rewrite Et in Hbt; change (c :: rest) with ([c] ++ rest) in Hbt; rewrite app_assoc in Hbt; by apply block_app in Hbt as [Hbt _]).
    destruct (directive_ok bf m p x ms v c q ps Hms Hs Hx Hap Hq Hb1 Hv1 Hbn Hcb Hnd Hmq) as (x1 & Hrun & Hs1 & Hx1 & Hap1 & Hq1 & Hc1).
    set (r := rank_size _) in *. rewrite s32_small in Hc1 by lia. apply block_app in Hbt as [_ Hbt].
    assert (El : length (37 :: ms ++ [117]) = (2 + length ms)%nat) by (cbn [length]; rewrite length_app; simpl; lia).
    unfold away in Haf, Hat. cbn [fst snd] in Haf, Hat. rewrite !length_app, El in *. rewrite le_bytes_length in Haf, Hat. fold fs text in Hbf, Hbt.
    destruct (IH vs ps x1 (put q (le_bytes r v) m) bf (p + Z.of_nat (2 + length ms)) (fuel - (3 + length ms))%nat) as (x' & E & Hb' & Hc');
      [done|done|done|done|done|done|done|apply block_put_out; [rewrite le_bytes_length; fold fs; lia|exact Hbf]| | |fold fs; lia|lia|lia|].
    { rewrite Hq1. apply block_put_out; [|exact Hbt]. rewrite le_bytes_length. fold text. lia. }
    { apply places_ok_put. eapply places_ok_suffix; [..|exact Hw]; rewrite ?Hq1; fold fs text; lia. }
    exists x'. split_and!; [|done|lia]. cbn [store_all fold_left fst snd]. unfold store_all in E. rewrite <- E.
    replace fuel with (3 + length ms + (fuel - (3 + length ms)))%nat at 1 by lia. apply Hrun.
Qed.

Lemma vsscanf_numbers m buffer format its vs ps :
  ok_sitems its -> length vs = numbers its -> length ps = numbers its -> Z.of_nat (numbers its) < 2147483648 ->
  Forall (fun v => 0 <= v < 18446744073709551616) vs ->
  let fs := concat (show_sitem <$> its) ++ [0] in
  let text := input its vs ++ [0] in
  block m format fs -> block m buffer text -> places_ok m (stores its vs ps) format (length fs) buffer (length text) ->
  vsscanf buffer format ps m = Ret (Z.of_nat (numbers its)) (store_all (stores its vs ps) m).
Proof.
  intros Hok Hvs Hps Hn Hv fs text Hbf Hbt Hw. unfold vsscanf.
  destruct (sitems_ok its vs ps (Scan ss_normal buffer rank_int 4294967295 0 NULL bail_none 0 0 false 0 ps) m buffer format (3 * scan_fuel m))
    as (x' & E & Hb & Hc); [done..| |done|done|].
  { fold fs. pose proof (block_size _ _ _ Hbf). unfold scan_fuel. lia. }
  rewrite (bind_Ret _ _ _ _ _ E), Hb, Hc. done.
Qed.

(** C39: [vsscanf] reads numbers back: on an input that is what the format of text and [%u]
    directives stands for, it stores every number through its pointer, in as many bytes as
    the length modifiers say, changes nothing else and returns how many there were. *)
Theorem vsscanf_correct m buffer format its vs ps :
  ok_sitems its -> length vs = numbers its -> length ps = numbers its -> Z.of_nat (numbers its) < 2147483648 ->
  Forall (fun v => 0 <= v < 18446744073709551616) vs ->
  let fs := concat (show_sitem <$> its) ++ [0] in
  let text := input its vs ++ [0] in
  block m format fs -> block m buffer text -> places_ok m (stores its vs ps) format (length fs) buffer (length text) ->
  vsscanf buffer format ps m = Ret (Z.of_nat (numbers its)) (store_all (stores its vs ps) m).
Proof. apply vsscanf_numbers. Qed.

Module Sample.
(** "%hu:%u" on "513:70000" *)
Definition items : list sitem := [Unsigned [104]; Lit 58; Unsigned []].
Definition text : list Z := [53; 49; 51; 58; 55; 48; 48; 48; 48; 0].
Definition memory : bytes :=
  put 400 (repeat 9 8) (put 200 text (put 100 (concat (show_sitem <$> items) ++ [0]) ∅)).

Lemma vsscanf_correct_witness :
  vsscanf 200 100 [400; 404] memory = Ret 2 (put 404 [112; 17; 1; 0] (put 400 [1; 2] memory)).
Proof.
  assert (Et : input items [513; 70000] ++ [0] = text) by (vm_compute; reflexivity).
  apply (vsscanf_correct memory 200 100 items [513; 70000] [400; 404]).
  - cbn. unfold mod_chars. split_and!; try done; try lia; repeat constructor.
  - reflexivity.
  - reflexivity.
  - cbn. lia.
  - repeat constructor; lia.
  - do 2 (apply block_put_out; [cbn; lia|]). apply put_block.
  - rewrite Et. apply block_put_out; [cbn; lia|]. apply put_block.
  - assert (Hm : forall i, 0 <= i < 8 -> is_Some (memory !! (400 + i))).
    { intros i Hi. destruct (lookup_lt_is_Some_2 (repeat 9 8) (Z.to_nat i)) as [x Hx]; [cbn; lia|].
      exists x. rewrite <- (Z2Nat.id i) by lia. exact (put_block 400 _ _ _ _ Hx). }
    assert (Es : stores items [513; 70000] [400; 404] = [(400, [1; 2]); (404, [112; 17; 1; 0])]) by (vm_compute; reflexivity).
    rewrite Et, Es. unfold places_ok, away. rewrite !Forall_cons, Forall_nil. cbn [fst snd]. split_and!; cbn; try lia; try done.
    + intros i Hi. apply Hm. cbn in Hi. lia.
    + intros i Hi. replace (404 + i) with (400 + (4 + i)) by lia. apply Hm. cbn in Hi. lia.
Defined.

(** The result and the first bytes stored at 400. *)
Definition run (format text : list Z) (k : nat) : option (Z * list Z) :=
  match vsscanf 200 100 [400; 450] (put 450 (repeat 9 8) (put 400 (repeat 9 8) (put 200 (text ++ [0]) (put 100 (format ++ [0]) ∅)))) with
  | Ret r m => match ldn k 400 m with Ret bs _ => Some (r, bs) | Stop _ _ => None end
  | Stop _ _ => None
  end.

(** "%*c%u" on "x5": the suppressed character is not skipped. *)
Example splat_reads_nothing : run [37; 42; 99; 37; 117] [120; 53] 1 = Some (0, [9]).
Proof. vm_compute. reflexivity. Qed.

(** "%[a-c]" on "bb": a range starts at the minus sign, not at the character before it. *)
Example range_from_minus : run [37; 91; 97; 45; 99; 93] [98; 98] 3 = Some (1, [98; 98; 0]) /\
  run [37; 91; 97; 45; 99; 93] [48; 48] 3 = Some (1, [48; 48; 0]) /\ run [37; 91; 97; 45; 99; 93] [99] 1 = Some (0, [9]).
Proof. split_and!; vm_compute; reflexivity. Qed.

(** "%[a]%u" on "a5": after a set the machine stays in the set, and the number is not read. *)
Example set_does_not_end : run [37; 91; 97; 93; 37; 117] [97; 53] 3 = Some (1, [97; 0; 9]).
Proof. vm_compute. reflexivity. Qed.

(** "%2[a]" on "aaaa": the width of a set is not counted. *)
Example set_width_ignored : run [37; 50; 91; 97; 93] [97; 97; 97; 97] 5 = Some (1, [97; 97; 97; 97; 0]).
Proof. vm_compute. reflexivity. Qed.

(** "%s" on " a": white space is not skipped, nothing is read and nothing reported. *)
Example string_at_space : run [37; 115] [32; 97] 2 = Some (0, [9; 9]).
Proof. vm_compute. reflexivity. Qed.
End Sample.
