(* ===== verification/Inet.v ===== *)
(** * Network addresses (apps/lib/stdlibc/inet.c, apps/include/arpa/inet.h, swab of unistd.c)

    Addresses are printed with Printf and read with Scanf.  Format strings, local
    variables and the static buffer are addresses of the memory, given as arguments.

    [inet_roundtrip]: an IPv4 address that is printed is read back. *)

From S2P Require Import Prelude Machine CString Pack Printf Scanf.

Definition AF_INET : Z := 1.
Definition AF_INET6 : Z := 2.
Definition INADDR_NONE : Z := 4294967295.
Definition INET_ADDRSTRLEN : Z := 16.
Definition EAFNOSUPPORT : Z := 5.
Definition ENOSPC : Z := 52.

(** ** Byte order *)

(** [dest] gets the bytes in reverse order. *)
Definition swab (src dest size : Z) : cmd bytes unit :=
  let size := size - Z.rem size 2 in
  if 0 <? size then for_from (Z.to_nat size) 0 (fun i => b ← ld (src + i); st (dest + size - i - 1) b) else mret tt.

(** [swab] on the bytes of a local variable *)
Definition htonl (v : Z) : Z := le32 (reverse (le_bytes 4 v)).
Definition htons (v : Z) : Z := le32 (reverse (le_bytes 2 v)).
Definition ntohl (v : Z) : Z := le32 (reverse (le_bytes 4 v)).
Definition ntohs (v : Z) : Z := le32 (reverse (le_bytes 2 v)).

(** ** IPv4 *)

(** [fmt] is "%hhu.%hhu.%hhu.%hhu", [a] the local union. *)
Definition inet_aton (fmt a str addr : Z) : cmd bytes Z :=
  r ← sscanf str fmt [a; a + 1; a + 2; a + 3];
  if r =? 4 then bs ← ldn 4 a; stn addr bs;; mret 1 else mret 0.

(** [loc] is the local variable. *)
Definition inet_addr (fmt a loc str : Z) : cmd bytes Z :=
  rv ← inet_aton fmt a str loc;
  if negb (rv =? 0) then mret INADDR_NONE else bs ← ldn 4 loc; mret (le32 bs).

(** [fmt] is "%u.%u.%u.%u". *)
Definition inet_ntoa (fmt name s_addr : Z) : cmd bytes Z := sprintf name fmt (le_bytes 4 s_addr);; mret name.

(** ** Both families *)

(** The 16-bit words of an array of bytes. *)
Fixpoint words16 (bs : list Z) : list Z :=
  match bs with x :: y :: bs => le32 [x; y] :: words16 bs | _ => [] end.

(** The result and the new value of [errno], if it is set. *)
Definition inet_ntop (fmt4 fmt6 af cp buf len : Z) : cmd bytes (Z * option Z) :=
  if (af =? AF_INET) || (af =? AF_INET6) then
    xlen ← (if af =? AF_INET then bs ← ldn 4 cp; snprintf buf len fmt4 bs
            else bs ← ldn 16 cp; x ← snprintf buf len fmt6 (ntohs <$> words16 bs); memcpy cp cp 4;; mret x);
    mret (if len <? w32 xlen then (NULL, Some ENOSPC) else (buf, None))
  else mret (NULL, Some EAFNOSUPPORT).

Definition hexval (ch : Z) : Z :=
  if (48 <=? ch) && (ch <=? 57) then ch - 48
  else if (65 <=? ch) && (ch <=? 70) then ch - 65 + 10
  else if (97 <=? ch) && (ch <=? 102) then ch - 97 + 10
  else -1.

(** The number of colons and of double colons; [None]: a character that is neither a colon
    nor a digit. *)
Fixpoint count_colons (fuel : nat) (p colons dcolons : Z) : cmd bytes (option (Z * Z)) :=
  match fuel with
  | O => stop_with (PageFault p)
  | S fuel =>
      c ← ldc p;
      if c =? 0 then mret (Some (colons, dcolons))
      else if c =? 58 then
        c1 ← ldc (p + 1); count_colons fuel (p + 1) (colons + 1) (if c1 =? 58 then dcolons + 1 else dcolons)
      else if isxdigit c then count_colons fuel (p + 1) colons dcolons
      else mret None
  end.

Fixpoint fill_words (fuel : nat) (d p i colons : Z) : cmd bytes unit :=
  match fuel with
  | O => stop_with (PageFault p)
  | S fuel =>
      c ← ldc p;
      if c =? 0 then mret tt
      else if c =? 58 then c1 ← ldc (p + 1); fill_words fuel d (p + 1) (if c1 =? 58 then i + (8 - colons) else i + 1) colons
      else
        bs ← ldn 2 (d + 2 * i);
        stn (d + 2 * i) (le_bytes 2 (htons (w16 (Z.shiftl (ntohs (le32 bs)) 4 + hexval c))));;
        fill_words fuel d (p + 1) i colons
  end.

(** Both loops start at [dst]. *)
Definition inet_pton (fmt a af src dst : Z) : cmd bytes (Z * option Z) := fun m =>
  (if af =? AF_INET then r ← inet_aton fmt a src dst; mret (r, None)
   else if af =? AF_INET6 then
     r ← count_colons (scan_fuel m) dst 0 0;
     match r with
     | None => mret (0, None)
     | Some (colons, dcolons) =>
         if (7 <? colons) || (1 <? dcolons) || ((dcolons =? 0) && negb (colons =? 7)) then mret (0, None)
         else memset dst 0 16;; fill_words (scan_fuel m) dst dst 0 colons;; mret (1, None)
     end
   else mret (-1, Some EAFNOSUPPORT)) m.

(** * Properties *)

(** ** Printing *)

Lemma digit_char d : 0 <= d <= 9 -> digit 0 d = 48 + d.
Proof.
  intros Hd. assert (H : d = 0 \/ d = 1 \/ d = 2 \/ d = 3 \/ d = 4 \/ d = 5 \/ d = 6 \/ d = 7 \/ d = 8 \/ d = 9) by lia.
  by repeat destruct H as [->|H]; [..|subst].
Qed.

Lemma number_text_decimal v : 0 <= v < 18446744073709551616 -> number_text 0 10 false v 0 (-1) = decimal v.
Proof.
  intros Hv. unfold number_text. change (has 0 FL_MINUS) with false. change (has 0 FL_ZERO) with false. cbv iota.
  replace (Z.to_nat (0 - _)) with 0%nat by lia. change (number_sign 0 10 false) with (@nil Z). cbn [replicate app].
  unfold number_body. change (has 0 FL_TICK) with false. cbv iota. rewrite decimal_digits.
  assert (E : places 0 10 v (-1) = dec_digits v).
  { unfold places, min_digits, dec_digits. change (has 0 FL_HASH) with false. cbn [andb].
    destruct (Z.eqb_spec v 0) as [->|Hn]; [done|]. destruct (radix 64 10 v) as [|d ds] eqn:Er.
    - by apply (radix_nil 63) in Er.
    - by replace (Z.to_nat (Z.max 1 (-1)) - length (d :: ds))%nat with 0%nat by (simpl; lia). }
  rewrite E. apply list_fmap_ext. intros i d Hd. apply digit_char.
  destruct (dec_digits_ok v Hv) as (_ & Hf & _). rewrite Forall_forall in Hf. apply Hf. by eapply list_elem_of_lookup_2.
Qed.

Lemma decimal_byte v : 0 <= v < 256 -> (length (decimal v) <= 3)%nat.
Proof.
  intros Hv. assert (H : Forall (fun v => (length (decimal v) <= 3)%nat) (seqZ 0 256)) by (apply (bool_decide_unpack _); vm_compute; exact I).
  rewrite Forall_forall in H. apply H. apply elem_of_seqZ. lia.
Qed.

Definition pU : item := Conv (Directive [] (Fixed []) None [] 117).
(** "%u.%u.%u.%u" *)
Definition ntoa_items : list item := [pU; Text 46; pU; Text 46; pU; Text 46; pU].
Definition sU : sitem := Unsigned [104; 104].
(** "%hhu.%hhu.%hhu.%hhu" *)
Definition aton_items : list sitem := [sU; Lit 46; sU; Lit 46; sU; Lit 46; sU].

Definition ntoa_format : list Z := concat (show_item <$> ntoa_items) ++ [0].
Definition aton_format : list Z := concat (show_sitem <$> aton_items) ++ [0].

(** The address with dots. *)
Definition dotted (bs : list Z) : list Z := input aton_items bs.

Lemma render_dotted b0 b1 b2 b3 : Forall is_byte [b0; b1; b2; b3] ->
  render (fun _ => None) ntoa_items [b0; b1; b2; b3] = Some (dotted [b0; b1; b2; b3]).
Proof.
  intros H. assert (E : forall b ap, is_byte b -> render_item (fun _ => None) pU (b :: ap) = Some (decimal b, ap)).
  { intros b ap Hb. unfold is_byte in Hb. unfold pU, render_item. cbn [d_width d_prec d_flags d_mods d_conv field_value mbind option_bind].
    change (num []) with 0. cbn [Z.eqb Z.ltb Z.compare Z.abs]. unfold conv_text. cbn [Z.eqb Pos.eqb orb].
    change (rank_of []) with 0. change (flags_of []) with 0. unfold unsigned_arg. cbn [word mbind option_bind].
    rewrite w32_small by lia. cbn [Z.eqb rank_char rank_short rank_longlong fmap option_fmap option_map]. unfold unsigned_text. cbn [fst snd].
    by rewrite number_text_decimal by lia. }
  repeat (apply Forall_cons in H as [? H]). unfold ntoa_items. cbn [render].
  repeat (rewrite E by done; cbn [mbind option_bind render_item]). unfold dotted, aton_items. cbn [input]. 
  by rewrite ?app_nil_r, <- ?app_assoc.
Qed.

(** ** Round trip *)

(** The memory of the calls: format strings, static buffer, local union and the result. *)
Record net_memory (m : bytes) (fp fs name a addr : Z) : Prop := {
  nm_fp : block m fp ntoa_format;
  nm_fs : block m fs aton_format;
  nm_name : mapped m name INET_ADDRSTRLEN;
  nm_a : mapped m a 4;
  nm_addr : mapped m addr 4;
  nm_range : 0 <= a /\ a + 4 <= 4294967296;
  nm_apart : (fp + Z.of_nat (length ntoa_format) <= name \/ name + INET_ADDRSTRLEN <= fp) /\
    (fs + Z.of_nat (length aton_format) <= name \/ name + INET_ADDRSTRLEN <= fs) /\
    (fs + Z.of_nat (length aton_format) <= a \/ a + 4 <= fs) /\ (a + 4 <= name \/ name + INET_ADDRSTRLEN <= a);
}.

Lemma dotted_length b0 b1 b2 b3 : Forall is_byte [b0; b1; b2; b3] -> (length (dotted [b0; b1; b2; b3]) <= 15)%nat.
Proof.
  intros H. repeat (apply Forall_cons in H as [? H]). unfold dotted, aton_items, sU. cbn [input].
  repeat (rewrite ?length_app; cbn [length]).
  pose proof (decimal_byte b0 ltac:(done)). pose proof (decimal_byte b1 ltac:(done)).
  pose proof (decimal_byte b2 ltac:(done)). pose proof (decimal_byte b3 ltac:(done)). lia.
Qed.

Lemma inet_ntoa_ok m fp fs name a addr s_addr : net_memory m fp fs name a addr ->
  inet_ntoa fp name s_addr m = Ret name (put name (dotted (le_bytes 4 s_addr) ++ [0]) m).
Proof.
  intros H. unfold inet_ntoa. assert (Hb := le_bytes_byte 4 s_addr). set (bs := le_bytes 4 s_addr) in *.
  assert (Hl : (length (dotted bs) <= 15)%nat) by exact (dotted_length _ _ _ _ Hb).
  assert (Hr : render (fun _ => None) ntoa_items bs = Some (dotted bs)) by exact (render_dotted _ _ _ _ Hb). clearbody bs.
  destruct (nm_apart _ _ _ _ _ _ H) as (Ha & _). unfold INET_ADDRSTRLEN in *.
  erewrite bind_Ret; [reflexivity|]. apply (sprintf_text m name fp ntoa_items bs (fun _ => None)); [lia|..].
  - intros i Hi. apply (nm_name _ _ _ _ _ _ H). unfold INET_ADDRSTRLEN. lia.
  - split_and!; [|exact (nm_fp _ _ _ _ _ _ H)|fold ntoa_format; lia]. repeat constructor; cbn; (lia || set_solver || done).
  - done.
  - done.
Qed.

Lemma inet_aton_ok m fs a str addr b0 b1 b2 b3 (text := dotted [b0; b1; b2; b3] ++ [0]) : Forall is_byte [b0; b1; b2; b3] ->
  block m fs aton_format -> block m str text -> mapped m a 4 -> mapped m addr 4 -> 0 <= a /\ a + 4 <= 4294967296 ->
  (fs + Z.of_nat (length aton_format) <= a \/ a + 4 <= fs) -> (str + Z.of_nat (length text) <= a \/ a + 4 <= str) ->
  inet_aton fs a str addr m = Ret 1 (put addr [b0; b1; b2; b3] (put a [b0; b1; b2; b3] m)).
Proof.
  intros Hb Hf Hs Ha Haddr Hr H1 H2. unfold inet_aton, sscanf.
  assert (Est : stores aton_items [b0; b1; b2; b3] [a; a + 1; a + 2; a + 3] = [(a, [b0]); (a + 1, [b1]); (a + 2, [b2]); (a + 3, [b3])]).
  { repeat (apply Forall_cons in Hb as [? Hb]). unfold is_byte in *. unfold aton_items, sU. cbn [stores].
    change (canonical _) with (-2). cbn. unfold w8. by rewrite !Z.mod_small by lia. }
  rewrite (bind_Ret _ _ m 4 (put a [b0; b1; b2; b3] m)).
  - change (4 =? 4) with true. cbv iota.
    rewrite (bind_Ret _ _ _ _ _ (ldn_block 4 a [b0; b1; b2; b3] _ eq_refl (put_block a _ m))).
    erewrite bind_Ret; [reflexivity|]. apply stn_put; [done|]. by apply put_mapped.
  - rewrite (vsscanf_numbers m str fs aton_items [b0; b1; b2; b3] [a; a + 1; a + 2; a + 3]); [|..].
    + rewrite Est. cbn [store_all fold_left put fst snd]. replace (a + 2) with (a + 1 + 1) by lia. by replace (a + 3) with (a + 1 + 1 + 1) by lia.
    + cbn. unfold mod_chars. split_and!; try done; try lia; repeat constructor.
    + done.
    + done.
    + done.
    + eapply Forall_impl; [exact Hb|]. unfold is_byte. intros; lia.
    + exact Hf.
    + exact Hs.
    + rewrite Est. fold aton_format. change (input aton_items [b0; b1; b2; b3] ++ [0]) with text. unfold places_ok, away. cbn [fst snd length].
      assert (Hm : forall i, 0 <= i < 4 -> mapped m (a + i) (Z.of_nat 1)).
      { intros i Hi j Hj. rewrite <- Z.add_assoc. apply Ha. lia. }
      assert (Hm0 : mapped m a (Z.of_nat 1)) by (rewrite <- (Z.add_0_r a); apply Hm; lia).
      rewrite !Forall_cons, Forall_nil. cbn [fst snd length]. split_and!; first [done|exact Hm0|apply Hm; lia|lia].
Qed.

(** C14: An IPv4 address survives being printed and read: [inet_aton] on what [inet_ntoa] has
    left in its static buffer accepts it and stores the address that was printed. *)
Theorem inet_roundtrip m fp fs name a addr s_addr : net_memory m fp fs name a addr ->
  exists m1 m2, inet_ntoa fp name s_addr m = Ret name m1 /\ inet_aton fs a name addr m1 = Ret 1 m2 /\
    block m2 addr (le_bytes 4 s_addr) /\
    (forall x, ~ (name <= x < name + INET_ADDRSTRLEN) -> ~ (a <= x < a + 4) -> ~ (addr <= x < addr + 4) -> m2 !! x = m !! x).
Proof.
  intros H. eexists _, _. split; [by eapply inet_ntoa_ok|]. set (bs := le_bytes 4 s_addr).
  assert (Hb : Forall is_byte bs) by apply le_bytes_byte.
  assert (Hl : (length (dotted bs ++ [0%Z]) <= 16)%nat) by (rewrite length_app; assert ((length (dotted bs) <= 15)%nat) by exact (dotted_length _ _ _ _ Hb); cbn [length]; lia).
  destruct (nm_apart _ _ _ _ _ _ H) as (_ & Hfs & Hfa & Han). unfold INET_ADDRSTRLEN in *. split_and!.
  - apply (inet_aton_ok _ fs a name addr (w8 s_addr)); [exact Hb| |apply put_block|by apply put_mapped, (nm_a _ _ _ _ _ _ H)|
      by apply put_mapped, (nm_addr _ _ _ _ _ _ H)|exact (nm_range _ _ _ _ _ _ H)|exact Hfa|].
    + apply block_put_out; [fold bs; lia|exact (nm_fs _ _ _ _ _ _ H)].
    + change (name + Z.of_nat (length (dotted bs ++ [0])) <= a \/ a + 4 <= name). lia.
  - apply put_block.
  - intros x H1 H2 H3. rewrite !put_lookup_out; [done|..]; cbn [length]; fold bs; lia.
Qed.

Module Sample.
(** Formats at 100 and 200, the static buffer at 300, the union at 400, the result at 500. *)
Definition memory : bytes :=
  put 500 [9; 9; 9; 9] (put 400 [8; 8; 8; 8] (put 300 (repeat 7 16) (put 200 aton_format (put 100 ntoa_format ∅)))).

Lemma memory_ok : net_memory memory 100 200 300 400 500.
Proof.
  assert (Hm : forall m a bs n, n = Z.of_nat (length bs) -> block m a bs -> mapped m a n).
  { intros m a bs n -> Hb i Hi. destruct (lookup_lt_is_Some_2 bs (Z.to_nat i)) as [x Hx]; [lia|].
    exists x. rewrite <- (Z2Nat.id i) by lia. by apply Hb. }
  constructor.
  - do 4 (apply block_put_out; [cbn; lia|]). apply put_block.
  - do 3 (apply block_put_out; [cbn; lia|]). apply put_block.
  - apply (Hm _ _ (repeat 7 16)); [done|]. do 2 (apply block_put_out; [cbn; lia|]). apply put_block.
  - apply (Hm _ _ [8; 8; 8; 8]); [done|]. apply block_put_out; [cbn; lia|]. apply put_block.
  - apply (Hm _ _ [9; 9; 9; 9]); [done|]. apply put_block.
  - lia.
  - cbn. unfold INET_ADDRSTRLEN. lia.
Qed.

(** 192.168.0.1 *)
Lemma inet_roundtrip_witness : exists m1 m2,
  inet_ntoa 100 300 16820416 memory = Ret 300 m1 /\ inet_aton 200 400 300 500 m1 = Ret 1 m2 /\ block m2 500 [192; 168; 0; 1].
Proof.
  destruct (inet_roundtrip memory 100 200 300 400 500 16820416 memory_ok) as (m1 & m2 & E1 & E2 & Hb & _).
  exists m1, m2. split_and!; [exact E1|exact E2|exact Hb].
Defined.

(** "1.2.3.4" is a good address, for which [inet_addr] returns the value for a bad one; for
    "x" it returns what the local variable happens to hold. *)
Definition run_addr (s : list Z) : option Z :=
  match inet_addr 200 400 500 600 (put 600 (s ++ [0]) memory) with Ret v _ => Some v | Stop _ _ => None end.

Example inet_addr_inverted : run_addr [49; 46; 50; 46; 51; 46; 52] = Some INADDR_NONE /\ run_addr [120] = Some 151587081.
Proof. split; vm_compute; reflexivity. Qed.

(** [inet_pton] for IPv6 reads the address from where it should write it: with "::" there
    the result is 1 and the zero address, whatever the text was. *)
Definition run_pton6 (src dst : list Z) : option (Z * list Z) :=
  match inet_pton 200 400 AF_INET6 600 700 (put 700 dst (put 600 (src ++ [0]) memory)) with
  | Ret (r, _) m => match ldn 16 700 m with Ret bs _ => Some (r, bs) | Stop _ _ => None end
  | Stop _ _ => None
  end.

Example inet_pton_ignores_text :
  run_pton6 [49; 58; 58; 50] ([58; 58] ++ repeat 0 14) = Some (1, repeat 0 16) /\
  run_pton6 [49; 58; 58; 50] (repeat 0 16) = Some (0, repeat 0 16).
Proof. split; vm_compute; reflexivity. Qed.

(** A text of as many characters as the buffer has bytes is cut, but accepted. *)
Example inet_ntop_cuts :
  match inet_ntop 100 100 AF_INET 400 300 7 (put 400 [1; 2; 3; 4] memory) with
  | Ret r m => r = (300, None) /\ ldn 7 300 m = Ret [49; 46; 50; 46; 51; 46; 0] m
  | Stop _ _ => False
  end.
Proof. vm_compute. split; reflexivity. Qed.
End Sample.
