(* ===== verification/Fuse.v ===== *)
(** * File system servers of libfuse (apps/lib/libfuse/fuse_lowlevel.c, fuse_new.c, fuse_fs_new.c,
      fuse_destroy.c)

    The other library for file system servers: a table of functions per file system, the
    open files of its clients, and the calls of clients, which pass data in shared memory.

    Files, their [fuse_file_info] and the lists of directory entries are on heaps, so that
    the use of something freed shows.  A segment of shared memory is known by its
    identifier, which also stands for the address it is attached at.  The records [stat] and
    the like are passed as values. *)

From S2P Require Import Prelude LList Machine Path Cache.

(** ** Data *)

(** The fields of [struct fuse_file_info] that are used. *)
Record fuse_file_info := Info { flags : Z; fh : Z }.

Inductive ftype := REG | DIR.

(** A pointer to a list that may never have been set. *)
Inductive dirptr := Unset | Dir (p : Z).

Record fuse_file := File {
  file_info : Z;
  shmid : Z;
  shmbuf : Z;
  filename : str;
  off : Z;
  type : ftype;
  dir : dirptr;
}.

(** [struct fuse_readdir]: a pointer to the name. *)
Record fuse_readdir := Entry { e_name : Z; e_next : Z }.

Record fuse_context := Context_ { c_pid : Z; c_uid : Z; c_gid : Z }.

(** A segment and how often it is attached. *)
Record segment := Segment { bytes : list Z; nattch : Z }.

Record stat := Stat { st_mode : Z; st_nlink : Z; st_size : Z }.

(** What the functions of a file system see: its own state, the segments, and who calls. *)
Record env (D : Type) := Env { drv : D; shm : gmap Z segment; caller : fuse_context }.
Arguments Env {D}.
Arguments drv {D}.
Arguments shm {D}.
Arguments caller {D}.

(** [struct fuse_operations]; [None] is a null pointer.  A function that gets a
    [fuse_file_info] may change it. *)
Class Operations (D : Type) := {
  op_getattr : option (str -> cmd (env D) (Z * stat));
  op_fgetattr : option (str -> fuse_file_info -> cmd (env D) (Z * stat));
  op_readlink : option (str -> Z -> Z -> cmd (env D) Z);
  op_mknod : option (str -> Z -> Z -> cmd (env D) Z);
  op_mkdir : option (str -> Z -> cmd (env D) Z);
  op_unlink : option (str -> cmd (env D) Z);
  op_rmdir : option (str -> cmd (env D) Z);
  op_symlink : option (str -> str -> cmd (env D) Z);
  op_rename : option (str -> str -> cmd (env D) Z);
  op_link : option (str -> str -> cmd (env D) Z);
  op_chmod : option (str -> Z -> cmd (env D) Z);
  op_chown : option (str -> Z -> Z -> cmd (env D) Z);
  op_truncate : option (str -> Z -> cmd (env D) Z);
  op_ftruncate : option (str -> Z -> fuse_file_info -> cmd (env D) (Z * fuse_file_info));
  (** The times are a place in a segment. *)
  op_utime : option (str -> Z -> Z -> cmd (env D) Z);
  op_open : option (str -> fuse_file_info -> cmd (env D) (Z * fuse_file_info));
  op_read : option (str -> Z -> Z -> Z -> fuse_file_info -> cmd (env D) (Z * fuse_file_info));
  op_write : option (str -> Z -> Z -> Z -> fuse_file_info -> cmd (env D) (Z * fuse_file_info));
  op_release : option (str -> fuse_file_info -> cmd (env D) (Z * fuse_file_info));
  op_statfs : option (str -> Z -> cmd (env D) Z);
  op_opendir : option (str -> fuse_file_info -> cmd (env D) (Z * fuse_file_info));
  (** The entries are those the function hands to the filler, in order. *)
  op_readdir : option (str -> Z -> fuse_file_info -> cmd (env D) (Z * list fuse_readdir * fuse_file_info));
  op_releasedir : option (str -> fuse_file_info -> cmd (env D) (Z * fuse_file_info));
  op_access : option (str -> Z -> cmd (env D) Z);
  op_init : option (cmd (env D) Z);
  op_destroy : option (Z -> cmd (env D) unit);
  (** The string a pointer of the file system points to. *)
  string_at : D -> Z -> option str;
}.

(** [struct fuse]; the record of the channel is its [fsid]. *)
Record fuse := Fuse {
  fsid : Z;
  context : fuse_context;
  private_data : Z;
  files : list Z;
  exited : Z;
}.

(** [None] in the list is a record that has been freed. *)
Record server (D : Type) := Server {
  world : env D;
  fslist : list (option fuse);
  handles : gmap Z fuse_file;
  infos : gmap Z fuse_file_info;
  dirs : gmap Z (list fuse_readdir);
  fs_file_lastfh : Z;
  fuse_current_context : option nat;
}.
Arguments Server {D}.
Arguments world {D}.
Arguments fslist {D}.
Arguments handles {D}.
Arguments infos {D}.
Arguments dirs {D}.
Arguments fs_file_lastfh {D}.
Arguments fuse_current_context {D}.

Definition EBADF : Z := 8.
Definition ENOENT : Z := 45.
Definition ENOSYS : Z := 55.
Definition SEEK_SET : Z := 0.
Definition SEEK_CUR : Z := 1.
Definition SEEK_END : Z := 2.

Section code.
Context {D : Type} `{OO : Operations D} `{MM : Malloc}.
Implicit Types s : server D.
Abbreviation M A := (cmd (server D) A).

(** ** Access to the state *)

Definition set_world (w : env D) (s : server D) : server D :=
  Server w (fslist s) (handles s) (infos s) (dirs s) (fs_file_lastfh s) (fuse_current_context s).
Definition set_fslist (l : list (option fuse)) (s : server D) : server D :=
  Server (world s) l (handles s) (infos s) (dirs s) (fs_file_lastfh s) (fuse_current_context s).
Definition set_handles (h : gmap Z fuse_file) (s : server D) : server D :=
  Server (world s) (fslist s) h (infos s) (dirs s) (fs_file_lastfh s) (fuse_current_context s).
Definition set_infos (i : gmap Z fuse_file_info) (s : server D) : server D :=
  Server (world s) (fslist s) (handles s) i (dirs s) (fs_file_lastfh s) (fuse_current_context s).
Definition set_dirs (d : gmap Z (list fuse_readdir)) (s : server D) : server D :=
  Server (world s) (fslist s) (handles s) (infos s) d (fs_file_lastfh s) (fuse_current_context s).

(** Call a function of the file system. *)
Definition call {A} (c : cmd (env D) A) : M A := fun s =>
  match c (world s) with
  | Ret x w => Ret x (set_world w s)
  | Stop r w => Stop r (set_world w s)
  end.

Definition file_at (p : Z) : M fuse_file := fun s =>
  if p =? NULL then Stop NullDeref s
  else match handles s !! p with Some f => Ret f s | None => Stop UseAfterFree s end.

Definition info_at (p : Z) : M fuse_file_info := fun s =>
  if p =? NULL then Stop NullDeref s
  else match infos s !! p with Some f => Ret f s | None => Stop UseAfterFree s end.

Definition fuse_at (i : nat) : M fuse := fun s =>
  match fslist s !! i with Some (Some f) => Ret f s | _ => Stop UseAfterFree s end.

Definition put_file (p : Z) (f : fuse_file) : M unit := modify (fun s => set_handles (<[p := f]> (handles s)) s).
Definition put_info (p : Z) (x : fuse_file_info) : M unit := modify (fun s => set_infos (<[p := x]> (infos s)) s).
Definition put_fuse (i : nat) (f : fuse) : M unit := modify (fun s => set_fslist (<[i := Some f]> (fslist s)) s).

Definition set_off (o : Z) (f : fuse_file) : fuse_file :=
  File (file_info f) (shmid f) (shmbuf f) (filename f) o (type f) (dir f).

(** [shmat] (NULL when there is no such segment) and [shmdt]; both also serve the functions
    of a file system. *)
Definition env_shmat (id : Z) : cmd (env D) Z := fun w =>
  match shm w !! id with
  | Some g => Ret id (Env (drv w) (<[id := Segment (bytes g) (nattch g + 1)]> (shm w)) (caller w))
  | None => Ret NULL w
  end.

Definition env_shmdt (id : Z) : cmd (env D) unit :=
  modify (fun w => Env (drv w) (alter (fun g => Segment (bytes g) (nattch g - 1)) id (shm w)) (caller w)).

Definition env_write (id o : Z) (x : list Z) : cmd (env D) unit := fun w =>
  if id =? NULL then Stop NullDeref w
  else match shm w !! id with
  | Some g =>
      if (0 <=? o) && (o + Z.of_nat (length x) <=? Z.of_nat (length (bytes g))) then
        Ret tt (Env (drv w) (<[id := Segment (splice (bytes g) o x) (nattch g)]> (shm w)) (caller w))
      else Stop OutOfBounds w
  | None => Stop UseAfterFree w
  end.

Definition env_read (id o n : Z) : cmd (env D) (list Z) := fun w =>
  if id =? NULL then Stop NullDeref w
  else match shm w !! id with
  | Some g => if (0 <=? o) && (o + n <=? Z.of_nat (length (bytes g))) then Ret (subrange (bytes g) o n) w else Stop OutOfBounds w
  | None => Stop UseAfterFree w
  end.

(** The string a segment starts with. *)
Fixpoint cstring (l : list Z) : option str :=
  match l with
  | [] => None
  | c :: l => if c =? 0 then Some [] else x ← cstring l; Some (c :: x)
  end.

Definition shm_string (id : Z) : M str := fun s =>
  if id =? NULL then Stop NullDeref s
  else match shm (world s) !! id with
  | Some g => match cstring (bytes g) with Some x => Ret x s | None => Stop OutOfBounds s end
  | None => Stop UseAfterFree s
  end.

(** ** Finding things *)

Fixpoint find_fs (fs : list (option fuse)) (i : nat) (id : Z) : M (option nat) :=
  match fs with
  | [] => mret None
  | None :: _ => stop_with UseAfterFree
  | Some f :: fs => if fsid f =? id then mret (Some i) else find_fs fs (S i) id
  end.

Definition fuse_find (id : Z) : M (option nat) := s ← gets Datatypes.id; find_fs (fslist s) 0 id.

(** A file without [file_info] is passed over. *)
Fixpoint find_file (ps : list Z) (n : Z) : M Z :=
  match ps with
  | [] => mret NULL
  | p :: ps =>
      f ← file_at p;
      if file_info f =? NULL then find_file ps n
      else x ← info_at (file_info f); if fh x =? w64 n then mret p else find_file ps n
  end.

Definition fuse_file_find (i : nat) (n : Z) : M Z := f ← fuse_at i; find_file (Seq.scan (files f)) n.

(** The answers of the kernel for [rpc_curpid] are part of the caller. *)
Definition fuse_set_context (i : nat) : M unit :=
  f ← fuse_at i;
  s ← gets Datatypes.id;
  put_fuse i (Fuse (fsid f) (caller (world s)) (private_data f) (files f) (exited f));;
  modify (fun s => Server (world s) (fslist s) (handles s) (infos s) (dirs s) (fs_file_lastfh s) (Some i)).

(** The frame of all calls: find the file system, set the context. *)
Definition with_fs (id : Z) (body : nat -> M Z) : M Z :=
  o ← fuse_find id;
  match o with None => mret (- EBADF) | Some i => fuse_set_context i;; body i end.

(** ... and of those on an open file. *)
Definition with_file (id n : Z) (body : nat -> Z -> M Z) : M Z :=
  with_fs id (fun i => p ← fuse_file_find i n; if p =? NULL then mret (- EBADF) else body i p).

(** A function that may be missing. *)
Definition optional {A} (o : option A) (body : A -> M Z) : M Z :=
  match o with Some f => body f | None => mret (- ENOSYS) end.

(** Call a function with the [file_info] of a file. *)
Definition call_info {A} (p : Z) (c : fuse_file_info -> cmd (env D) (A * fuse_file_info)) : M A :=
  f ← file_at p;
  x ← info_at (file_info f);
  r ← call (c x);
  put_info (file_info f) r.2;;
  mret r.1.

Definition push_file (i : nat) (p : Z) : M unit :=
  f ← fuse_at i; put_fuse i (Fuse (fsid f) (context f) (private_data f) (p :: files f) (exited f)).

(** [shmdt(file->shmbuf); free(file->file_info); free(file);] *)
Definition free_file (p : Z) : M unit :=
  f ← file_at p;
  call (env_shmdt (shmbuf f));;
  modify (fun s => set_infos (delete (file_info f) (infos s)) s);;
  modify (fun s => set_handles (delete p (handles s)) s).

(** A new file on the segment, with a new number; [flags] are not set for directories. *)
Definition new_file (id oflag : Z) (t : ftype) (d : dirptr) : M Z :=
  a ← call (env_shmat id);
  name ← shm_string a;
  s ← gets Datatypes.id;
  let p := malloc (dom (handles s)) in
  let q := malloc (dom (infos s)) in
  put_info q (Info oflag (fs_file_lastfh s));;
  put_file p (File q id a name 0 t d);;
  modify (fun s => Server (world s) (fslist s) (handles s) (infos s) (dirs s) (w64 (fs_file_lastfh s + 1)) (fuse_current_context s));;
  mret p.

(** The number of a file, as an [int]. *)
Definition number (p : Z) : M Z := f ← file_at p; x ← info_at (file_info f); mret (s32 (fh x)).

(** ** Calls of clients *)

Definition fs_open (id oflag shmid : Z) : M Z :=
  with_fs id (fun i => optional op_open (fun op =>
    p ← new_file shmid oflag REG Unset;
    f ← file_at p;
    ret ← call_info p (op (filename f));
    if 0 <=? ret then push_file i p;; number p else free_file p;; mret ret)).

(** The file is freed, but stays in the list of open files. *)
Definition fs_close (id n : Z) : M Z :=
  with_file id n (fun i p => optional op_release (fun op =>
    f ← file_at p;
    ret ← call_info p (op (filename f));
    if 0 <=? ret then free_file p;; mret 0 else mret ret)).

Definition transfer (op : str -> Z -> Z -> Z -> fuse_file_info -> cmd (env D) (Z * fuse_file_info)) (p count : Z) : M Z :=
  f ← file_at p;
  res ← call_info p (op (filename f) (shmbuf f) count (off f));
  (if 0 <? res then f ← file_at p; put_file p (set_off (s32 (off f + res)) f) else mret tt);;
  mret res.

Definition fs_read (id n count : Z) : M Z := with_file id n (fun i p => optional op_read (fun op => transfer op p (w32 count))).
Definition fs_write (id n count : Z) : M Z := with_file id n (fun i p => optional op_write (fun op => transfer op p (w32 count))).

(** [-errno] when [shmat] fails; [e] is the value of [errno] then. *)
Definition with_segment (shmid e : Z) (body : Z -> str -> M Z) : M Z :=
  a ← call (env_shmat shmid);
  if a =? NULL then mret (- e)
  else name ← shm_string a; r ← body a name; call (env_shmdt a);; mret r.

Definition fs_readlink (id shmid bufsize e : Z) : M Z :=
  with_fs id (fun i => optional op_readlink (fun op => with_segment shmid e (fun a name => call (op name a bufsize)))).
Definition fs_symlink (id : Z) (src dest : str) : M Z := with_fs id (fun i => optional op_symlink (fun op => call (op src dest))).
Definition fs_link (id : Z) (src dest : str) : M Z := with_fs id (fun i => optional op_link (fun op => call (op src dest))).

(** The end of the file is taken to be its start. *)
Definition fs_seek (id n o whence : Z) : M Z :=
  with_file id n (fun i p =>
    f ← file_at p;
    let o' := if whence =? SEEK_SET then o else if whence =? SEEK_CUR then s32 (off f + o)
              else if whence =? SEEK_END then 0 else off f in
    put_file p (set_off o' f);; mret o').

(** The result and the record in the segment. *)
Definition fs_fstat (id n : Z) : M (Z * option stat) :=
  o ← fuse_find id;
  match o with
  | None => mret (- EBADF, None)
  | Some i =>
      fuse_set_context i;;
      p ← fuse_file_find i n;
      if p =? NULL then mret (- EBADF, None)
      else
        f ← file_at p;
        match op_getattr, op_fgetattr with
        | Some op, _ => r ← call (op (filename f)); mret (r.1, Some r.2)
        | None, Some op => x ← info_at (file_info f); r ← call (op (filename f) x); mret (r.1, Some r.2)
        | None, None => mret (- ENOSYS, None)
        end
  end.

Definition fs_unlink (id : Z) (path : str) : M Z := with_fs id (fun i => optional op_unlink (fun op => call (op path))).
Definition fs_rmdir (id : Z) (path : str) : M Z := with_fs id (fun i => optional op_rmdir (fun op => call (op path))).
Definition fs_rename (id : Z) (old new : str) : M Z := with_fs id (fun i => optional op_rename (fun op => call (op old new))).

Definition fs_ftruncate (id n length : Z) : M Z :=
  with_file id n (fun i p =>
    f ← file_at p;
    match op_truncate, op_ftruncate with
    | Some op, _ => call (op (filename f) length)
    | None, Some op => call_info p (op (filename f) length)
    | None, None => mret (- ENOSYS)
    end).

Definition new_dir : M Z :=
  s ← gets Datatypes.id;
  let d := malloc (dom (dirs s)) in
  modify (set_dirs (<[d := []]> (dirs s)));; mret d.

Definition dir_at (d : dirptr) : M (list fuse_readdir) := fun s =>
  match d with
  | Unset => Stop Uninitialized s
  | Dir p => if p =? NULL then Stop NullDeref s
             else match dirs s !! p with Some l => Ret l s | None => Stop UseAfterFree s end
  end.

Definition put_dir (d : dirptr) (l : list fuse_readdir) : M unit :=
  match d with Dir p => modify (fun s => set_dirs (<[p := l]> (dirs s)) s) | Unset => stop_with Uninitialized end.

(** The flags of the [file_info] are not set. *)
Definition fs_opendir (id shmid junk : Z) : M Z :=
  with_fs id (fun i =>
    d ← new_dir;
    p ← new_file shmid junk DIR (Dir d);
    f ← file_at p;
    ret ← (match op_opendir with Some op => call_info p (op (filename f)) | None => mret 0 end);
    if ret =? 0 then push_file i p;; number p else free_file p;; mret ret).

(** The names are copied when they are asked for; the list keeps the pointers. *)
Definition fs_readdir (id n : Z) : M Z :=
  with_file id n (fun i p =>
    f ← file_at p;
    l ← dir_at (dir f);
    ret ← (if (length l =? 0)%nat then
             optional op_readdir (fun op =>
               x ← info_at (file_info f);
               r ← call (op (filename f) (off f) x);
               put_info (file_info f) r.2;;
               put_dir (dir f) r.1.2;; mret r.1.1)
           else mret 0);
    if (length l =? 0)%nat && bool_decide (op_readdir = None) then mret ret
    else if 0 <=? ret then
      l ← dir_at (dir f);
      if Z.of_nat (length l) <=? w32 (off f) then mret (- ENOENT)
      else
        match l !! Z.to_nat (w32 (off f)) with
        | None => stop_with NullDeref
        | Some e =>
            s ← gets Datatypes.id;
            match string_at (drv (world s)) (e_name e) with
            | None => stop_with UseAfterFree
            | Some name =>
                call (env_write (shmbuf f) 0 (name ++ [0]));;
                put_file p (set_off (s32 (off f + 1)) f);; mret ret
            end
        end
    else mret ret).

Definition fs_closedir (id n : Z) : M Z :=
  with_file id n (fun i p =>
    f ← file_at p;
    ret ← (match op_releasedir with Some op => call_info p (op (filename f)) | None => mret 0 end);
    if 0 <=? ret then
      dir_at (dir f);;
      (match dir f with Dir d => modify (fun s => set_dirs (delete d (dirs s)) s) | Unset => mret tt end);;
      free_file p;; mret 0
    else mret ret).

Definition fs_seekdir (id n o : Z) : M Z :=
  with_file id n (fun i p =>
    f ← file_at p;
    let o' := if 0 <? o then o else off f in
    put_file p (set_off o' f);; mret o').

Definition fs_statvfs (id shmid e : Z) : M Z :=
  with_fs id (fun i => optional op_statfs (fun op => with_segment shmid e (fun a name => call (op name a)))).

(** [S_ISDIR] *)
Definition S_ISDIR (mode : Z) : bool := Z.land mode 61440 =? 16384.

(** For a directory [mkdir] is tested and [mknod] called. *)
Definition fs_mknod (id : Z) (path : str) (mode dev : Z) : M Z :=
  with_fs id (fun i =>
    if S_ISDIR mode then
      match op_mkdir, op_mknod with
      | Some _, Some op => call (op path mode dev)
      | Some _, None => stop_with NullDeref
      | None, _ => mret (- ENOSYS)
      end
    else optional op_mknod (fun op => call (op path mode dev))).

(** The new file is not put into the list. *)
Definition fs_dup (id n shmid : Z) : M Z :=
  with_file id n (fun i p =>
    f ← file_at p;
    x ← info_at (file_info f);
    a ← call (env_shmat shmid);
    s ← gets Datatypes.id;
    let q := malloc (dom (handles s)) in
    let qi := malloc (dom (infos s)) in
    put_info qi (Info (flags x) (fs_file_lastfh s));;
    modify (fun s => Server (world s) (fslist s) (handles s) (infos s) (dirs s) (w64 (fs_file_lastfh s + 1)) (fuse_current_context s));;
    (match dir f with
     | Unset => stop_with Uninitialized
     | Dir d => if d =? NULL then put_file q (File qi shmid a (filename f) (off f) (type f) (Dir NULL))
                else d' ← new_dir; put_file q (File qi shmid a (filename f) (off f) (type f) (Dir d'))
     end);;
    mret (s32 (fs_file_lastfh s))).

Definition fs_chown (id : Z) (path : str) (uid gid : Z) : M Z := with_fs id (fun i => optional op_chown (fun op => call (op path uid gid))).
Definition fs_chmod (id : Z) (path : str) (mode : Z) : M Z := with_fs id (fun i => optional op_chmod (fun op => call (op path mode))).
Definition fs_access (id : Z) (path : str) (amode : Z) : M Z := with_fs id (fun i => optional op_access (fun op => call (op path amode))).

(** The times are in the segment, behind the path. *)
Definition fs_utime (id shmid e : Z) : M Z :=
  with_fs id (fun i => optional op_utime (fun op =>
    with_segment shmid e (fun a name => call (op name a (Z.of_nat (length name) + 1))))).

(** ** Setting up *)

(** [fuse_new] with [fuse_fs_new] and [_fuse_add]; the list exists from the first call on. *)
Definition fuse_new (chan : Z) : M unit :=
  modify (fun s => set_fslist (Some (Fuse chan (Context_ 0 0 0) 0 [] 0) :: fslist s) s);;
  match op_init with
  | Some op =>
      d ← call op;
      f ← fuse_at 0; put_fuse 0 (Fuse (fsid f) (context f) d (files f) (exited f))
  | None => mret tt
  end.

(** The record is freed but stays in the list. *)
Definition fuse_destroy (i : nat) : M unit :=
  f ← fuse_at i;
  (match op_destroy with Some op => call (op (private_data f)) | None => mret tt end);;
  modify (fun s => set_fslist (<[i := None]> (fslist s)) s).
End code.

(** * Properties *)

Section facts.
Context {D : Type} `{OO : Operations D} `{MM : Malloc}.
Implicit Types s : server D.

(** A file with another number, or of which only the number is asked. *)
Definition live s (n q : Z) : Prop :=
  q <> NULL /\ exists f x, handles s !! q = Some f /\ file_info f <> NULL /\ infos s !! file_info f = Some x /\ fh x <> w64 n.

Lemma handle_at_ok s p f : p <> NULL -> handles s !! p = Some f -> file_at p s = Ret f s.
Proof. intros Hp Hf. unfold file_at. by rewrite (proj2 (Z.eqb_neq _ _)), Hf. Qed.

Lemma info_at_ok s p x : p <> NULL -> infos s !! p = Some x -> info_at p s = Ret x s.
Proof. intros Hp Hf. unfold info_at. by rewrite (proj2 (Z.eqb_neq _ _)), Hf. Qed.

Lemma fuse_at_ok s i f : fslist s !! i = Some (Some f) -> fuse_at i s = Ret f s.
Proof. intros Hf. unfold fuse_at. by rewrite Hf. Qed.

Lemma find_file_app s n l1 l2 : Forall (live s n) l1 -> find_file (l1 ++ l2) n s = find_file l2 n s.
Proof.
  induction 1 as [|q l1 (Hq & f & x & Hf & Hi & Hx & Hn) _ IH]; [done|]. cbn [find_file app].
  rewrite (bind_Ret _ _ _ _ _ (handle_at_ok s q f Hq Hf)), (proj2 (Z.eqb_neq _ _) Hi).
  rewrite (bind_Ret _ _ _ _ _ (info_at_ok s _ x Hi Hx)), (proj2 (Z.eqb_neq _ _) Hn). exact IH.
Qed.

Lemma find_file_here s n p f x l2 : p <> NULL -> handles s !! p = Some f -> file_info f <> NULL ->
  infos s !! file_info f = Some x -> fh x = w64 n -> find_file (p :: l2) n s = Ret p s.
Proof.
  intros Hp Hf Hi Hx Hn. cbn [find_file].
  rewrite (bind_Ret _ _ _ _ _ (handle_at_ok s p f Hp Hf)), (proj2 (Z.eqb_neq _ _) Hi).
  by rewrite (bind_Ret _ _ _ _ _ (info_at_ok s _ x Hi Hx)), Hn, Z.eqb_refl.
Qed.

Lemma find_file_freed s n p l2 : p <> NULL -> handles s !! p = None -> find_file (p :: l2) n s = Stop UseAfterFree s.
Proof.
  intros Hp Hf. cbn [find_file]. apply bind_Stop. unfold file_at. by rewrite (proj2 (Z.eqb_neq _ _)), Hf.
Qed.

(** The file system [id] is the [i]-th, with the open files [ps]. *)
Definition serves s (id : Z) (i : nat) (ps : list Z) : Prop :=
  find_fs (fslist s) 0 id s = Ret (Some i) s /\ NULL ∉ ps /\ exists f, fslist s !! i = Some (Some f) /\ files f = ps.

(** The state after the context has been set. *)
Definition in_context (i : nat) (f : fuse) s : server D :=
  Server (world s) (<[i := Some (Fuse (fsid f) (caller (world s)) (private_data f) (files f) (exited f))]> (fslist s))
    (handles s) (infos s) (dirs s) (fs_file_lastfh s) (Some i).

Lemma with_fs_ok s id i ps f body : serves s id i ps -> fslist s !! i = Some (Some f) ->
  with_fs id body s = body i (in_context i f s).
Proof.
  intros (Hf & _ & _) Hi. unfold with_fs, fuse_find. rewrite bind_assoc, bind_gets. rewrite (bind_Ret _ _ _ _ _ Hf).
  unfold fuse_set_context. rewrite bind_assoc, (bind_Ret _ _ _ _ _ (fuse_at_ok s i f Hi)). reflexivity.
Qed.

Lemma find_fs_state s s' id r l : forall k, find_fs l k id s = Ret r s -> find_fs l k id s' = Ret r s'.
Proof.
  induction l as [|[g|] l IH]; intros k; cbn [find_fs]; [by intros [= ->]| |done].
  destruct (fsid g =? id); [by intros [= ->]|apply IH].
Qed.

Lemma find_fs_sets s s' f f' id r l : fsid f' = fsid f -> forall k j, l !! j = Some (Some f) ->
  find_fs l k id s = Ret r s -> find_fs (<[j := Some f']> l) k id s' = Ret r s'.
Proof.
  intros Hid. induction l as [|o l IH]; intros k j Hj; [done|]. destruct j as [|j]; cbn [insert list_insert lookup list_lookup] in *.
  - injection Hj as ->. cbn [find_fs]. rewrite Hid. destruct (fsid f =? id); [by intros [= ->]|]. apply find_fs_state.
  - cbn [find_fs]. destruct o as [g|]; [|done]. destruct (fsid g =? id); [by intros [= ->]|]. by apply IH.
Qed.

(** Setting the context keeps the list of open files. *)
Lemma serves_context s s' id i ps f : serves s id i ps -> fslist s !! i = Some (Some f) ->
  fslist s' = fslist (in_context i f s) -> serves s' id i ps.
Proof.
  intros (Hf & Hn & g & Hg & Hps) Hi E. assert (g = f) as -> by congruence. split_and!; [|done|].
  - rewrite E. cbn [fslist in_context]. by apply (find_fs_sets s s' f).
  - eexists. rewrite E. cbn [fslist in_context]. rewrite list_lookup_insert_eq by (by eapply lookup_lt_Some). done.
Qed.

Lemma on_file_ok s id i ps f n body : serves s id i ps -> fslist s !! i = Some (Some f) ->
  with_file id n body s =
  (p ← find_file ps n; if p =? NULL then mret (- EBADF) else body i p) (in_context i f s).
Proof.
  intros Hs Hi. unfold with_file. rewrite (with_fs_ok s id i ps f _ Hs Hi). unfold fuse_file_find. rewrite bind_assoc.
  destruct (serves_context s (in_context i f s) id i ps f Hs Hi eq_refl) as (_ & Hn & g & Hg & <-).
  by rewrite (bind_Ret _ _ _ _ _ (fuse_at_ok _ i g Hg)), scan_nonnull.
Qed.

(** A file in front of [p] in the list, neither of number [n] nor of number [m]. *)
Definition in_front s (p : Z) (f : fuse_file) (n m q : Z) : Prop :=
  live s n q /\ live s m q /\ q <> p /\ (forall g, handles s !! q = Some g -> file_info g <> file_info f).

Lemma live_change s s' p f n m q : in_front s p f n m q -> (forall r, r <> p -> handles s' !! r = handles s !! r) ->
  (forall r, r <> file_info f -> infos s' !! r = infos s !! r) -> live s' m q.
Proof.
  intros (_ & (Hq & g & x & Hg & Hi & Hx & Hm) & Hne & Hd) Hh Hf. split; [done|]. exists g, x.
  rewrite Hh by done. rewrite Hf by (by apply Hd). done.
Qed.

(** Closing a file of number [n] that is found. *)
Lemma fs_close_state s s' id n i l1 p l2 f x : serves s id i (l1 ++ p :: l2) -> p <> NULL ->
  handles s !! p = Some f -> file_info f <> NULL -> infos s !! file_info f = Some x -> fh x = w64 n ->
  Forall (live s n) l1 -> fs_close id n s = Ret 0 s' ->
  serves s' id i (l1 ++ p :: l2) /\ handles s' = delete p (handles s) /\ (forall r, r <> file_info f -> infos s' !! r = infos s !! r).
Proof.
  intros Hs Hp Hf Hi Hx Hn Hl E. pose proof Hs as (_ & _ & g & Hg & _). set (s1 := in_context i g s).
  unfold fs_close in E. rewrite (on_file_ok s id i _ g _ _ Hs Hg) in E.
  assert (E1 : find_file (l1 ++ p :: l2) n s1 = Ret p s1) by (rewrite find_file_app by done; by eapply find_file_here).
  rewrite (bind_Ret _ _ _ _ _ E1), (proj2 (Z.eqb_neq _ _) Hp) in E.
  destruct op_release as [op|]; cbn [optional] in E; [|done].
  rewrite (bind_Ret _ _ _ _ _ (handle_at_ok s1 p f Hp Hf)) in E. unfold call_info in E.
  rewrite bind_assoc, (bind_Ret _ _ _ _ _ (handle_at_ok s1 p f Hp Hf)) in E.
  rewrite bind_assoc, (bind_Ret _ _ _ _ _ (info_at_ok s1 _ x Hi Hx)) in E. rewrite bind_assoc in E.
  destruct (op (filename f) x (world s1)) as [[ret x'] w|w r] eqn:Eo.
  2: { rewrite (bind_Stop _ _ s1 w (set_world r s1)) in E; [done|]. unfold call. by rewrite Eo. }
  rewrite (bind_Ret _ _ s1 (ret, x') (set_world w s1)) in E by (unfold call; by rewrite Eo).
  cbn [fst snd] in E. rewrite bind_assoc in E. unfold put_info in E. rewrite bind_modify, bind_ret in E.
  destruct (Z.leb_spec 0 ret) as [_|Hneg]; [|injection E as ->; lia].
  unfold free_file in E. rewrite bind_assoc in E. set (s2 := set_infos _ _) in E.
  assert (Hf2 : file_at p s2 = Ret f s2) by (by apply handle_at_ok).
  rewrite (bind_Ret _ _ _ _ _ Hf2) in E. injection E as <-. split_and!.
  - by apply (serves_context s _ id i _ g Hs Hg).
  - done.
  - intros r Hr. cbn. rewrite lookup_delete_ne by done. by rewrite lookup_insert_ne.
Qed.

(** C40: After a file has been closed, every call on a file that was opened before it, and every
    further call on the closed file itself, uses freed memory: the record is freed, but
    stays in the list of open files. *)
Theorem closed_file_faults s s' id n m i l1 p l2 f x body : serves s id i (l1 ++ p :: l2) -> p <> NULL ->
  handles s !! p = Some f -> file_info f <> NULL -> infos s !! file_info f = Some x -> fh x = w64 n ->
  Forall (in_front s p f n m) l1 -> fs_close id n s = Ret 0 s' ->
  exists s'', with_file id m body s' = Stop UseAfterFree s''.
Proof.
  intros Hs Hp Hf Hi Hx Hn Hl E.
  destruct (fs_close_state s s' id n i l1 p l2 f x) as (Hs' & Hh & Hinf); try done.
  { eapply Forall_impl; [exact Hl|]. by intros q (? & _). }
  pose proof Hs' as (_ & _ & g & Hg & _). exists (in_context i g s').
  rewrite (on_file_ok s' id i _ g _ _ Hs' Hg). apply bind_Stop. rewrite find_file_app.
  - apply find_file_freed; [done|]. cbn [handles in_context]. rewrite Hh. apply lookup_delete_eq.
  - eapply Forall_impl; [exact Hl|]. intros q Hq. eapply (live_change s _ p f n m q Hq).
    + intros r Hr. cbn. rewrite Hh. by apply lookup_delete_ne.
    + exact Hinf.
Qed.
End facts.
