(* ===== verification/Devfs.v ===== *)
(** * The file system of the devices (apps/devfs/devfs.c) and the drivers' side of it
      (apps/lib/libmeinos/devfs.c, apps/include/devfs.h)

    The server keeps a list of devices, each with the process that owns it and a segment of
    shared memory for its data; a read or write of a client, which comes through libfuse
    (Fuse), is handed on by remote procedure call to the owner, whose library calls the
    function of the driver.

    [device_read_correct] follows a read through all three; [closed_file_faults] is what libfuse
    does after a file has been closed. *)

From S2P Require Import Prelude LList Machine Path Cache Fuse.

Definition DEVFS_BUFSIZE : Z := 4096.
Definition DT_CHAR : Z := 0.
Definition DT_BLOCK : Z := 1.

(** ** Data *)

Section data.
Context (U : Type).

(** A function of a driver: the device, the buffer, the number of bytes and the offset; it
    works on the state of the driver and the segments. *)
Definition callback : Type := Z -> Z -> Z -> Z -> cmd (U * gmap Z segment) Z.

(** [devfs_dev_t] of the library *)
Record devfs_dev_t := LDev {
  l_name : str;
  l_id : Z;
  l_shmid : Z;
  l_shmbuf : Z;
  func_read : option callback;
  func_write : option callback;
}.

(** A process that has devices: the list of the library and the state of the driver. *)
Record process := Process { p_devs : gmap Z devfs_dev_t; p_devlist : list Z; p_user : U }.

(** [struct devlist_item] of the server; the name is a pointer. *)
Record devlist_item := Item {
  d_id : Z;
  d_name : Z;
  owner : Z;
  d_type : Z;
  d_shmbuf : Z;
  bufsz : Z;
}.

Record devfs := Devfs {
  devs : gmap Z devlist_item;
  names : gmap Z str;
  devlist : list Z;
  nextdevid : Z;
  procs : gmap Z process;
}.
End data.
Arguments LDev {U}.
Arguments l_name {U}.
Arguments l_id {U}.
Arguments l_shmid {U}.
Arguments l_shmbuf {U}.
Arguments func_read {U}.
Arguments func_write {U}.
Arguments Process {U}.
Arguments p_devs {U}.
Arguments p_devlist {U}.
Arguments p_user {U}.
Arguments Devfs {U}.
Arguments devs {U}.
Arguments names {U}.
Arguments devlist {U}.
Arguments nextdevid {U}.
Arguments procs {U}.

(** ** The library in the process of the driver *)

Section library.
Context {U : Type} `{MM : Malloc}.
Abbreviation L A := (cmd (process U * gmap Z segment) A).

Definition ldev_at (p : Z) : L (devfs_dev_t U) := fun s =>
  if p =? NULL then Stop NullDeref s
  else match p_devs s.1 !! p with Some d => Ret d s | None => Stop UseAfterFree s end.

Fixpoint find_lid (ps : list Z) (i id : Z) : L Z :=
  match ps with
  | [] => mret (-1)
  | p :: ps => d ← ldev_at p; if l_id d =? id then mret i else find_lid ps (i + 1) id
  end.

Definition getlidx_id (id : Z) : L Z := s ← gets Datatypes.id; find_lid (Seq.scan (p_devlist s.1)) 0 id.

(** Call the function of the driver. *)
Definition driver (c : cmd (U * gmap Z segment) Z) : L Z := fun s =>
  match c (p_user s.1, s.2) with
  | Ret r (u, g) => Ret r (Process (p_devs s.1) (p_devlist s.1) u, g)
  | Stop w (u, g) => Stop w (Process (p_devs s.1) (p_devlist s.1) u, g)
  end.

(** [devfs_read] and [devfs_write] of the library; [f] is the function of the device. *)
Definition lib_transfer (f : devfs_dev_t U -> option (callback U)) (devid size offset : Z) : L Z :=
  i ← getlidx_id devid;
  s ← gets Datatypes.id;
  let p := Seq.get (p_devlist s.1) i in
  d ← ldev_at p;
  match f d with
  | Some g => driver (g p (l_shmbuf d) (if DEVFS_BUFSIZE <? size then DEVFS_BUFSIZE else size) offset)
  | None => mret (- ENOSYS)
  end.

Definition lib_read : Z -> Z -> Z -> L Z := lib_transfer func_read.
Definition lib_write : Z -> Z -> Z -> L Z := lib_transfer func_write.

Definition lib_init : L unit := modify (fun s => (Process (p_devs s.1) [] (p_user s.1), s.2)).

(** [devfs_createdev] of the library: [shmid] is the result of [shmget], [id] that of the call of
    the server, [room] the size of the block that [malloc(0)] gives; the record has 28
    bytes. *)
Definition lib_createdev (room : Z) (name : str) (shmid id : Z) : L Z :=
  if shmid =? -1 then mret NULL
  else if id <? 0 then modify (fun s => (s.1, delete shmid s.2));; mret NULL
  else if room <? 28 then stop_with OutOfBounds
  else
    s ← gets Datatypes.id;
    let p := malloc (dom (p_devs s.1)) in
    modify (fun s => (Process (<[p := LDev name id shmid shmid None None]> (p_devs s.1)) (p :: p_devlist s.1) (p_user s.1),
                      alter (fun g => Segment (bytes g) (nattch g + 1)) shmid s.2));;
    mret p.

Definition devfs_onread (p : Z) (g : callback U) : L unit :=
  d ← ldev_at p;
  modify (fun s => (Process (<[p := LDev (l_name d) (l_id d) (l_shmid d) (l_shmbuf d) (Some g) (func_write d)]> (p_devs s.1))
                      (p_devlist s.1) (p_user s.1), s.2)).

Definition devfs_onwrite (p : Z) (g : callback U) : L unit :=
  d ← ldev_at p;
  modify (fun s => (Process (<[p := LDev (l_name d) (l_id d) (l_shmid d) (l_shmbuf d) (func_read d) (Some g)]> (p_devs s.1))
                      (p_devlist s.1) (p_user s.1), s.2)).

(** [res] is the result of the server. *)
Definition lib_removedev (p res : Z) : L Z :=
  d ← ldev_at p;
  (if 0 <=? res then
     i ← getlidx_id (l_id d);
     modify (fun s => (Process (delete p (p_devs s.1)) (Seq.remove (p_devlist s.1) (w32 i)).2 (p_user s.1), delete (l_shmid d) s.2))
   else mret tt);;
  mret res.
End library.

(** ** The server *)

(** The strings "." and ".." of the program. *)
Definition DOT : Z := -1.
Definition DOTDOT : Z := -2.

Section server.
Context {U : Type} `{MM : Malloc}.
(** What a field holds that was not set. *)
Context (junk : Z).
Abbreviation E A := (cmd (env (devfs U)) A).

Definition set_drv (f : devfs U -> devfs U) : E unit := modify (fun w => Env (f (drv w)) (shm w) (caller w)).

Definition dev_at (p : Z) : E devlist_item := fun w =>
  if p =? NULL then Stop NullDeref w
  else match devs (drv w) !! p with Some d => Ret d w | None => Stop UseAfterFree w end.

Definition devfs_string (d : devfs U) (p : Z) : option str :=
  if p =? DOT then Some [46] else if p =? DOTDOT then Some [46; 46] else names d !! p.

Definition name_of (p : Z) : E str := fun w =>
  match devfs_string (drv w) p with Some x => Ret x w | None => Stop UseAfterFree w end.

Fixpoint find_devid (ps : list Z) (i id : Z) : E Z :=
  match ps with
  | [] => mret (-1)
  | p :: ps => d ← dev_at p; if d_id d =? id then mret i else find_devid ps (i + 1) id
  end.

Definition getlid_devid (id : Z) : E Z := w ← gets Datatypes.id; find_devid (Seq.scan (devlist (drv w))) 0 id.

Fixpoint find_name (ps : list Z) (name : str) : E Z :=
  match ps with
  | [] => mret NULL
  | p :: ps => d ← dev_at p; x ← name_of (d_name d); if bool_decide (x = name) then mret p else find_name ps name
  end.

Definition getdev_name (name : str) : E Z := w ← gets Datatypes.id; find_name (Seq.scan (devlist (drv w))) name.

(** [path+1]; behind the end of an empty path. *)
Definition path_name (path : str) : E str :=
  match path with [] => stop_with OutOfBounds | _ :: x => mret x end.

Definition getdev_path (path : str) : E Z := x ← path_name path; getdev_name x.

(** [rpc_call(..., RPC_FLAG_SENDTO, pid, ...)]: -1 when the process does not offer the
    function. *)
Definition rpc_to (pid : Z) (c : cmd (process U * gmap Z segment) Z) : E Z := fun w =>
  match procs (drv w) !! pid with
  | None => Ret (-1) w
  | Some pr =>
      let back x := Env (Devfs (devs (drv w)) (names (drv w)) (devlist (drv w)) (nextdevid (drv w)) (<[pid := x.1]> (procs (drv w))))
                        x.2 (caller w) in
      match c (pr, shm w) with Ret r x => Ret r (back x) | Stop r x => Stop r (back x) end
  end.

Definition devfs_open (path : str) (fi : fuse_file_info) : E (Z * fuse_file_info) :=
  p ← getdev_path path; mret (if p =? NULL then - ENOENT else 0, fi).

Definition devfs_close (path : str) (fi : fuse_file_info) : E (Z * fuse_file_info) := mret (0, fi).

(** The result, if negative, is a huge number of bytes to [memcpy]. *)
Definition devfs_read (path : str) (buf count offset : Z) (fi : fuse_file_info) : E (Z * fuse_file_info) :=
  p ← getdev_path path;
  if p =? NULL then mret (- ENOENT, fi)
  else
    d ← dev_at p;
    let count := if bufsz d <? count then bufsz d else count in
    ret ← rpc_to (owner d) (lib_read (d_id d) count offset);
    x ← env_read (d_shmbuf d) 0 (w32 ret);
    env_write buf 0 x;;
    mret (ret, fi).

Definition devfs_write (path : str) (buf count offset : Z) (fi : fuse_file_info) : E (Z * fuse_file_info) :=
  p ← getdev_path path;
  if p =? NULL then mret (- ENOENT, fi)
  else
    d ← dev_at p;
    let count := if bufsz d <? count then bufsz d else count in
    x ← env_read buf 0 count;
    env_write (d_shmbuf d) 0 x;;
    ret ← rpc_to (owner d) (lib_write (d_id d) count offset);
    mret (ret, fi).

Fixpoint dev_entries (ps : list Z) : E (list fuse_readdir) :=
  match ps with
  | [] => mret []
  | p :: ps => d ← dev_at p; l ← dev_entries ps; mret (Entry (d_name d) 0 :: l)
  end.

Definition devfs_readdir (path : str) (o : Z) (fi : fuse_file_info) : E (Z * list fuse_readdir * fuse_file_info) :=
  if bool_decide (path = [47]) then
    w ← gets Datatypes.id;
    l ← dev_entries (Seq.scan (devlist (drv w)));
    mret (0, Entry DOT 0 :: Entry DOTDOT 0 :: l, fi)
  else mret (- ENOENT, [], fi).

Definition S_IFDIR : Z := 16384.
Definition S_IFBLK : Z := 24576.
Definition S_IFCHR : Z := 8192.

Definition devfs_getattr (path : str) : E (Z * stat) :=
  if bool_decide (path = [47]) then mret (0, Stat (Z.lor S_IFDIR 493) 2 0)
  else
    p ← getdev_path path;
    if p =? NULL then mret (- ENOENT, Stat 0 0 0)
    else d ← dev_at p; mret (0, Stat (Z.lor (if d_type d =? DT_BLOCK then S_IFBLK else S_IFCHR) 484) 1 0).

(** Called by a driver; the number is used up also when the device is not created. *)
Definition devfs_createdev (name : str) (shmid : Z) : E Z :=
  w ← gets Datatypes.id;
  let devid := nextdevid (drv w) in
  set_drv (fun d => Devfs (devs d) (names d) (devlist d) (s32 (nextdevid d + 1)) (procs d));;
  known ← (if 0 <=? devid then getdev_name name else mret NULL);
  if (0 <=? devid) && (known =? NULL) then
    a ← env_shmat shmid;
    w ← gets Datatypes.id;
    let size := match shm w !! shmid with Some g => Z.of_nat (length (bytes g)) | None => junk end in
    let p := malloc (dom (devs (drv w))) in
    let q := malloc ({[DOT; DOTDOT]} ∪ dom (names (drv w))) in
    set_drv (fun d => Devfs (<[p := Item devid q (c_pid (caller w)) junk a size]> (devs d)) (<[q := name]> (names d))
                        (p :: devlist d) (nextdevid d) (procs d));;
    mret devid
  else mret (-1).

Definition devfs_removedev (id : Z) : E Z :=
  i ← getlid_devid id;
  w ← gets Datatypes.id;
  let p := Seq.get (devlist (drv w)) i in
  if p =? NULL then mret (-1)
  else
    d ← dev_at p;
    if owner d =? c_pid (caller w) then
      set_drv (fun x => Devfs (devs x) (names x) (Seq.remove (devlist x) (w32 i)).2 (nextdevid x) (procs x));;
      env_shmdt (d_shmbuf d);;
      set_drv (fun x => Devfs (delete p (devs x)) (delete (d_name d) (names x)) (devlist x) (nextdevid x) (procs x));;
      mret 0
    else mret (-1).

(** The table of [main]. *)
#[export] Instance devfs_oper : Operations (devfs U) := {
  op_getattr := Some devfs_getattr;
  op_fgetattr := None;
  op_readlink := None;
  op_mknod := None;
  op_mkdir := None;
  op_unlink := None;
  op_rmdir := None;
  op_symlink := None;
  op_rename := None;
  op_link := None;
  op_chmod := None;
  op_chown := None;
  op_truncate := None;
  op_ftruncate := None;
  op_utime := None;
  op_open := Some devfs_open;
  op_read := Some devfs_read;
  op_write := Some devfs_write;
  op_release := Some devfs_close;
  op_statfs := None;
  op_opendir := None;
  op_readdir := Some devfs_readdir;
  op_releasedir := None;
  op_access := None;
  op_init := None;
  op_destroy := None;
  string_at := devfs_string;
}.
End server.

(** * Properties *)

Section facts.
Context {U : Type} `{MM : Malloc}.
Implicit Types s : server (devfs U).

(** A device as the three see it: the server has it under the name, its owner knows it, and
    the driver has a function to read. *)
Record device (w : env (devfs U)) (name : str) (q : Z) (d : devlist_item) (pr : process U) (r : Z) (g : callback U) : Prop := {
  dv_found : find_name (Seq.scan (devlist (drv w))) name w = Ret q w;
  dv_q : q <> NULL;
  dv_item : devs (drv w) !! q = Some d;
  dv_owner : procs (drv w) !! owner d = Some pr;
  dv_lib : exists k, find_lid (Seq.scan (p_devlist pr)) 0 (d_id d) (pr, shm w) = Ret k (pr, shm w) /\ Seq.get (p_devlist pr) k = r;
  dv_r : r <> NULL;
  dv_ldev : exists ld, p_devs pr !! r = Some ld /\ func_read ld = Some g /\ l_shmbuf ld = d_shmbuf d;
}.

(** The process of the owner after the function has run. *)
Definition ran (w : env (devfs U)) (d : devlist_item) (pr : process U) (u : U) (g : gmap Z segment) : env (devfs U) :=
  Env (Devfs (devs (drv w)) (names (drv w)) (devlist (drv w)) (nextdevid (drv w))
         (<[owner d := Process (p_devs pr) (p_devlist pr) u]> (procs (drv w)))) g (caller w).

Lemma dev_at_ok w q d : q <> NULL -> devs (drv w) !! q = Some d -> dev_at (U := U) q w = Ret d w.
Proof. intros Hq Hd. unfold dev_at. by rewrite (proj2 (Z.eqb_neq _ _)), Hd. Qed.

Lemma lib_read_ok w name q d pr r g size o ret u shm' : device w name q d pr r g ->
  g r (d_shmbuf d) (Z.min size DEVFS_BUFSIZE) o (p_user pr, shm w) = Ret ret (u, shm') ->
  rpc_to (owner d) (lib_read (d_id d) size o) w = Ret ret (ran w d pr u shm').
Proof.
  intros H Hg. unfold rpc_to. rewrite (dv_owner _ _ _ _ _ _ _ H).
  destruct (dv_lib _ _ _ _ _ _ _ H) as (k & Hk & Hr). destruct (dv_ldev _ _ _ _ _ _ _ H) as (ld & Hld & Hf & Hb).
  assert (E : lib_read (d_id d) size o (pr, shm w) = Ret ret (Process (p_devs pr) (p_devlist pr) u, shm')).
  { unfold lib_read, lib_transfer, getlidx_id. rewrite bind_assoc, bind_gets. cbn [fst].
    rewrite (bind_Ret _ _ _ _ _ Hk), bind_gets. cbn [fst Datatypes.id]. rewrite Hr.
    rewrite (bind_Ret _ _ (pr, shm w) ld (pr, shm w)).
    2: { unfold ldev_at. rewrite (proj2 (Z.eqb_neq _ _) (dv_r _ _ _ _ _ _ _ H)). cbn [fst]. by rewrite Hld. }
    rewrite Hf, Hb. unfold driver. cbn [fst snd]. replace (if DEVFS_BUFSIZE <? size then _ else _) with (Z.min size DEVFS_BUFSIZE)
      by (destruct (Z.ltb_spec DEVFS_BUFSIZE size); lia). by rewrite Hg. }
  by rewrite E.
Qed.

(** The bytes the driver leaves at the start of the segment of the device are copied into
    that of the client. *)
Lemma devfs_read_ok w name q d pr r g c buf count o fi u x bs k cs j : device w name q d pr r g ->
  let b := d_shmbuf d in
  let n := Z.of_nat (length x) in
  g r b (Z.min (Z.min count (bufsz d)) DEVFS_BUFSIZE) o (p_user pr, shm w) = Ret n (u, <[b := Segment (splice bs 0 x) k]> (shm w)) ->
  b <> NULL -> n <= Z.of_nat (length bs) -> n < 4294967296 -> buf <> NULL -> buf <> b ->
  shm w !! buf = Some (Segment cs j) -> n <= Z.of_nat (length cs) ->
  devfs_read (c :: name) buf count o fi w =
  Ret (n, fi) (ran w d pr u (<[buf := Segment (splice cs 0 x) j]> (<[b := Segment (splice bs 0 x) k]> (shm w)))).
Proof.
  intros H b n Hg Hb Hn Hn2 Hbuf Hne Hc Hnc. unfold devfs_read, getdev_path, path_name. rewrite bind_assoc, bind_ret.
  unfold getdev_name. rewrite bind_assoc, bind_gets. rewrite (bind_Ret _ _ _ _ _ (dv_found _ _ _ _ _ _ _ H)).
  rewrite (proj2 (Z.eqb_neq _ _) (dv_q _ _ _ _ _ _ _ H)).
  rewrite (bind_Ret _ _ _ _ _ (dev_at_ok w q d (dv_q _ _ _ _ _ _ _ H) (dv_item _ _ _ _ _ _ _ H))).
  replace (if bufsz d <? count then bufsz d else count) with (Z.min count (bufsz d)) by (destruct (Z.ltb_spec (bufsz d) count); lia).
  rewrite (bind_Ret _ _ _ _ _ (lib_read_ok _ _ _ _ _ _ _ _ _ _ _ _ H Hg)). fold b. rewrite w32_small by lia.
  set (w1 := ran w d pr u _).
  assert (Hlen : length (splice bs 0 x) = length bs) by (unfold splice; rewrite !length_app, length_take, length_drop; lia).
  assert (Er : env_read b 0 n w1 = Ret x w1).
  { unfold env_read. rewrite (proj2 (Z.eqb_neq b NULL)) by done. cbn [shm w1 ran]. rewrite lookup_insert_eq. cbn [bytes].
    rewrite Hlen. rewrite (proj2 (Z.leb_le _ (Z.of_nat (length bs)))) by lia. cbn [Z.leb Z.compare andb]. f_equal.
    unfold subrange, splice, n. rewrite Nat2Z.id. change (Z.to_nat 0) with 0%nat. rewrite take_0, drop_0. cbn [app]. by rewrite take_app_length. }
  rewrite (bind_Ret _ _ _ _ _ Er).
  assert (Ew : env_write buf 0 x w1 = Ret tt (Env (drv w1) (<[buf := Segment (splice cs 0 x) j]> (shm w1)) (caller w1))).
  { unfold env_write. rewrite (proj2 (Z.eqb_neq buf NULL)) by done. cbn [shm w1 ran]. rewrite lookup_insert_ne, Hc by done. cbn [bytes nattch].
    rewrite (proj2 (Z.leb_le _ (Z.of_nat (length cs)))) by (fold n; lia). done. }
  by rewrite (bind_Ret _ _ _ _ _ Ew).
Qed.

(** C15: A client's read of a device: the call goes through the list of open files of libfuse,
    the list of devices of the server and the list of the library of its owner to the
    function of the driver, with the number of bytes cut at both buffers and the position of
    the file; what the function puts at the start of the device's segment appears in the
    client's, its number is the result, and the position moves on by it. *)
Theorem device_read_correct s id i l1 p l2 f x n count name q d pr r g u data bs k cs j :
  serves s id i (l1 ++ p :: l2) -> Forall (live s n) l1 -> p <> NULL -> handles s !! p = Some f -> file_info f <> NULL ->
  infos s !! file_info f = Some x -> fh x = w64 n -> filename f = 47 :: name ->
  device (world s) name q d pr r g ->
  let b := d_shmbuf d in
  let len := Z.of_nat (length data) in
  0 <= count < 4294967296 ->
  g r b (Z.min (Z.min count (bufsz d)) DEVFS_BUFSIZE) (off f) (p_user pr, shm (world s)) =
    Ret len (u, <[b := Segment (splice bs 0 data) k]> (shm (world s))) ->
  b <> NULL -> len <= Z.of_nat (length bs) -> 0 <= off f -> off f + len < 2147483648 -> shmbuf f <> NULL -> shmbuf f <> b ->
  shm (world s) !! shmbuf f = Some (Segment cs j) -> len <= Z.of_nat (length cs) ->
  exists s', fs_read id n count s = Ret len s' /\
    world s' = ran (world s) d pr u (<[shmbuf f := Segment (splice cs 0 data) j]> (<[b := Segment (splice bs 0 data) k]> (shm (world s)))) /\
    (exists f', handles s' = <[p := f']> (handles s) /\ f' = set_off (off f + len) f) /\ serves s' id i (l1 ++ p :: l2).
Proof.
  intros Hs Hl Hp Hf Hi Hx Hn Hname Hd b len Hc Hg Hb Hlb Ho Hol Hsb Hne Hseg Hlc.
  pose proof Hs as (_ & _ & fz & Hz & _). set (s1 := in_context i fz s).
  unfold fs_read. rewrite (on_file_ok s id i _ fz _ _ Hs Hz).
  assert (E1 : find_file (l1 ++ p :: l2) n s1 = Ret p s1) by (rewrite find_file_app by done; by eapply find_file_here).
  rewrite (bind_Ret _ _ _ _ _ E1), (proj2 (Z.eqb_neq _ _) Hp). cbn [optional op_read devfs_oper]. unfold transfer, call_info.
  rewrite (bind_Ret _ _ _ _ _ (handle_at_ok s1 p f Hp Hf)), bind_assoc, (bind_Ret _ _ _ _ _ (handle_at_ok s1 p f Hp Hf)).
  rewrite bind_assoc, (bind_Ret _ _ _ _ _ (info_at_ok s1 _ x Hi Hx)), bind_assoc, Hname, w32_small by done.
  assert (Er := devfs_read_ok (world s) name q d pr r g 47 (shmbuf f) count (off f) x u data bs k cs j Hd Hg Hb Hlb ltac:(lia) Hsb Hne Hseg Hlc).
  set (w2 := ran _ _ _ _ _) in Er.
  rewrite (bind_Ret _ _ s1 (len, x) (set_world w2 s1)) by (unfold call; change (world s1) with (world s); by rewrite Er).
  cbn [fst snd]. unfold put_info. rewrite bind_assoc, bind_modify, bind_ret. set (s2 := set_infos _ _).
  destruct (Z.ltb_spec 0 len) as [Hpos|Hz0].
  - assert (Hf2 : file_at p s2 = Ret f s2) by (by apply handle_at_ok).
    rewrite bind_assoc, (bind_Ret _ _ _ _ _ Hf2). unfold put_file. rewrite bind_modify, s32_small by lia.
    eexists. split_and!; [reflexivity|done|by eexists|by apply (serves_context s _ id i _ fz Hs Hz)].
  - rewrite bind_ret. exists s2. split_and!; [done|done| |by apply (serves_context s _ id i _ fz Hs Hz)].
    exists f. replace (off f + len) with (off f) by lia. split; [|by destruct f]. cbn [handles s2 set_infos set_world in_context s1].
    by rewrite insert_id.
Qed.
End facts.

Module Sample.
(** A driver whose device gives the next numbers, three at a time. *)
Definition count_read : callback Z := fun dev buf size o s =>
  match s.2 !! buf with
  | Some g =>
      let x := seqZ s.1 (Z.min size 3) in
      Ret (Z.of_nat (length x)) (s.1 + 3, <[buf := Segment (splice (bytes g) 0 x) (nattch g)]> s.2)
  | None => Stop UseAfterFree s
  end.

(** A device that cannot be read. *)
Definition broken_read : callback Z := fun dev buf size o s => Ret (-29) s.

(** "/r" is open under the number 0; process 5 owns it. *)
Definition segments : gmap Z segment := {[100 := Segment (repeat 0 8) 2; 200 := Segment ([47; 114; 0] ++ repeat 0 5) 1]}.
Definition file_r : fuse_file := File 1 200 200 [47; 114] 0 REG Unset.
Definition dev_r : devlist_item := Item 1 11 5 0 100 8.
Definition driver_of (g : callback Z) : process Z := Process {[1 := LDev [114] 1 100 100 (Some g) None]} [1] 7.
Definition system (g : callback Z) : server (devfs Z) :=
  Server (Env (Devfs {[1 := dev_r]} {[11 := [114]]} [1] 2 {[5 := driver_of g]}) segments (Context_ 9 0 0))
    [Some (Fuse 3 (Context_ 0 0 0) 0 [1] 0)] {[1 := file_r]} {[1 := Info 0 0]} ∅ 1 None.

Lemma system_serves g : serves (system g) 3 0 ([] ++ 1 :: []).
Proof. split_and!; [reflexivity|set_solver|by eexists]. Qed.

Lemma system_device g : device (world (system g)) [114] 1 dev_r (driver_of g) 1 g.
Proof. constructor; try done; [by exists 0|by eexists]. Qed.

(** Five bytes are asked for, three come: 7, 8, 9. *)
Lemma device_read_correct_witness : exists s', fs_read 3 0 5 (system count_read) = Ret 3 s' /\
  shm (world s') !! 200 = Some (Segment ([7; 8; 9] ++ repeat 0 5) 1) /\ handles s' !! 1 = Some (set_off 3 file_r).
Proof.
  destruct (device_read_correct (system count_read) 3 0 [] 1 [] file_r (Info 0 0) 0 5 [114] 1 dev_r (driver_of count_read) 1 count_read
    10 [7; 8; 9] (repeat 0 8) 2 ([47; 114; 0] ++ repeat 0 5) 1) as (s' & E & Hw & (f' & Hh & Hf) & _);
    [apply system_serves|constructor|done|done|done|done|done|done|apply system_device|lia|reflexivity|done|cbn; lia|cbn; lia|cbn; lia|done|done|done|cbn; lia|].
  exists s'. split_and!; [exact E| |].
  - rewrite Hw. reflexivity.
  - rewrite Hh, Hf. reflexivity.
Defined.

Definition closed : server (devfs Z) :=
  match fs_close 3 0 (system count_read) with Ret _ s => s | Stop _ s => s end.

(** Closing works; reading from the closed file afterwards does not even fail. *)
Lemma closed_file_faults_witness : fs_close 3 0 (system count_read) = Ret 0 closed /\
  exists s'', fs_read 3 0 5 closed = Stop UseAfterFree s''.
Proof.
  split; [reflexivity|].
  apply (closed_file_faults (system count_read) closed 3 0 0 0 [] 1 [] file_r (Info 0 0)); [apply system_serves|done|done|done|done|done|constructor|reflexivity].
Defined.

(** A driver that reports an error makes the server copy 2^32-29 bytes. *)
Example read_error_faults : exists s', fs_read 3 0 5 (system broken_read) = Stop OutOfBounds s'.
Proof. eexists. vm_compute. reflexivity. Qed.

(** A device that is removed takes its name along, also from a directory that is being
    read: after "." and ".." the name is asked for. *)
Definition dir_open : server (devfs Z) :=
  match fs_opendir 3 300 0 (set_world (Env (drv (world (system count_read))) (<[300 := Segment ([47; 0] ++ repeat 0 6) 1]> segments) (Context_ 5 0 0))
    (system count_read)) with Ret _ s => s | Stop _ s => s end.
Definition read_twice : cmd (server (devfs Z)) Z := _ ← fs_readdir 3 1; fs_readdir 3 1.
Definition read_third : cmd (server (devfs Z)) Z := _ ← read_twice; fs_readdir 3 1.
Definition read_removed : cmd (server (devfs Z)) Z := _ ← read_twice; _ ← call (devfs_removedev 1); fs_readdir 3 1.

Example readdir_third : match read_third dir_open with
  | Ret r s => r = 0 /\ shm (world s) !! 300 = Some (Segment [114; 0; 0; 0; 0; 0; 0; 0] 2)
  | Stop _ _ => False end.
Proof. vm_compute. split; reflexivity. Qed.

Example removed_name_faults : exists s', read_removed dir_open = Stop UseAfterFree s'.
Proof. eexists. vm_compute. reflexivity. Qed.

(** The copy of a file has a number, but no call finds it. *)
Example dup_not_listed : match fs_dup 3 1 200 dir_open with
  | Ret r s => r = 2 /\ match fs_seek 3 2 0 SEEK_SET s with Ret r' _ => r' = - EBADF | Stop _ _ => False end
  | Stop _ _ => False end.
Proof. vm_compute. split; reflexivity. Qed.

(** The record of a new device does not fit into the block of [malloc(0)], unless that is
    larger than asked for. *)
Example createdev_overruns : exists s', lib_createdev 12 [114] 100 1 (driver_of count_read, segments) = Stop OutOfBounds s'.
Proof. eexists. vm_compute. reflexivity. Qed.
End Sample.
