(* ===== verification/PsDev.v ===== *)
(** * Pseudo devices (apps/psdev: null.c, zero.c, time.c, random.c; rand of stdlibc/stdlib.c)

    The drivers of the devices without hardware, as functions of the library of Devfs.  The
    state of the process is the time that [time] gives.

    [pseudo_reads] says which bytes each of them gives; it is the form in which
    [device_read_correct] needs the function of a driver.  [psdev_main_listed] says that the
    process registers them. *)

From S2P Require Import Prelude LList Machine Path Cache Pack Fuse Devfs.

Abbreviation P A := (cmd (Z * gmap Z segment) A).

(** Store bytes into a segment. *)
Definition seg_write (id o : Z) (x : list Z) : P unit := fun s =>
  if id =? NULL then Stop NullDeref s
  else match s.2 !! id with
  | Some g =>
      if (0 <=? o) && (o + Z.of_nat (length x) <=? Z.of_nat (length (bytes g)))
      then Ret tt (s.1, <[id := Segment (splice (bytes g) o x) (nattch g)]> s.2)
      else Stop OutOfBounds s
  | None => Stop UseAfterFree s
  end.

Definition null_read (dev buf count offset : Z) : P Z := mret 0.
Definition null_write (dev buf count offset : Z) : P Z := mret (s32 count).

Definition zero_read (dev buf count offset : Z) : P Z := seg_write buf 0 (replicate (Z.to_nat count) 0);; mret (s32 count).
Definition zero_write (dev buf count offset : Z) : P Z := mret 0.

Definition time_read (dev buf count offset : Z) : P Z :=
  let count := if 4 <? count then 4 else count in
  s ← gets Datatypes.id;
  seg_write buf 0 (take (Z.to_nat count) (le_bytes 4 s.1));; mret (s32 count).
Definition time_write (dev buf count offset : Z) : P Z := mret 0.

(** 0xD00FC0DE *)
Definition rand : Z := 3490693342.

(** [while (count_rem>sizeof(int))], and the rest *)
Fixpoint random_loop (fuel : nat) (buf o count_rem : Z) : P unit :=
  match fuel with
  | O => stop_with Hang
  | S fuel =>
      if 4 <? count_rem then seg_write buf o (le_bytes 4 rand);; random_loop fuel buf (o + 4) (count_rem - 4)
      else seg_write buf o (take (Z.to_nat count_rem) (le_bytes 4 rand))
  end.

Definition random_read (dev buf count offset : Z) : P Z := random_loop (S (Z.to_nat count)) buf 0 count;; mret (s32 count).
Definition random_write (dev buf count offset : Z) : P Z := mret 0.

(** ** Registration *)

Section init.
Context `{MM : Malloc}.
(** The size of the block that [malloc(0)] gives (see [lib_createdev]). *)
Context (room : Z).

(** Create a device and set its functions; the pair has the results of [shmget] and of the
    server. *)
Definition register (name : str) (rd wr : callback Z) (r : Z * Z) : cmd (process Z * gmap Z segment) Z :=
  dev ← lib_createdev room name r.1 r.2;
  if dev =? NULL then mret (-1) else devfs_onread dev rd;; devfs_onwrite dev wr;; mret 0.

(** "null", "zero", "time", "random" and "urandom" *)
Definition null_init := register [110; 117; 108; 108] null_read null_write.
Definition zero_init := register [122; 101; 114; 111] zero_read zero_write.
Definition time_init := register [116; 105; 109; 101] time_read time_write.
Definition random_init (r1 r2 : Z * Z) : cmd (process Z * gmap Z segment) Z :=
  x ← register [114; 97; 110; 100; 111; 109] random_read random_write r1;
  if x =? -1 then mret (-1) else register [117; 114; 97; 110; 100; 111; 109] random_read random_write r2.

(** [main] up to its loop, which serves the calls of the server. *)
Definition psdev_main (r1 r2 r3 r4 r5 : Z * Z) : cmd (process Z * gmap Z segment) unit :=
  lib_init;; _ ← null_init r1; _ ← random_init r2 r3; _ ← time_init r4; _ ← zero_init r5; mret tt.
End init.

(** * Properties *)

(** Asked for [size] bytes, the function gives [data]. *)
Definition gives (g : callback Z) (now size : Z) (data : list Z) : Prop :=
  forall dev b o bs k segs, b <> NULL -> segs !! b = Some (Segment bs k) -> size <= Z.of_nat (length bs) ->
  g dev b size o (now, segs) = Ret (Z.of_nat (length data)) (now, <[b := Segment (splice bs 0 data) k]> segs).

Lemma seg_write_ok b o x now segs bs k : b <> NULL -> segs !! b = Some (Segment bs k) -> 0 <= o ->
  o + Z.of_nat (length x) <= Z.of_nat (length bs) ->
  seg_write b o x (now, segs) = Ret tt (now, <[b := Segment (splice bs o x) k]> segs).
Proof.
  intros Hb Hs Ho Hl. unfold seg_write. rewrite (proj2 (Z.eqb_neq _ _)) by done. cbn [fst snd]. rewrite Hs. cbn [bytes nattch].
  rewrite (proj2 (Z.leb_le 0 o)), (proj2 (Z.leb_le _ (Z.of_nat (length bs)))) by lia. done.
Qed.

(** The bytes of [rand], over and over. *)
Fixpoint pattern (fuel : nat) (n : Z) : list Z :=
  match fuel with
  | O => []
  | S fuel => if 4 <? n then le_bytes 4 rand ++ pattern fuel (n - 4) else take (Z.to_nat n) (le_bytes 4 rand)
  end.

Lemma pattern_length fuel : forall n, 0 <= n -> (Z.to_nat n < fuel)%nat -> Z.of_nat (length (pattern fuel n)) = n.
Proof.
  induction fuel as [|fuel IH]; intros n Hn Hf; [lia|]. cbn [pattern]. destruct (Z.ltb_spec 4 n).
  - rewrite length_app, Nat2Z.inj_add, IH by lia. rewrite le_bytes_length. lia.
  - rewrite length_take, le_bytes_length. lia.
Qed.

Lemma random_loop_ok fuel : forall n b o bs k now segs, b <> NULL -> segs !! b = Some (Segment bs k) -> 0 <= n -> 0 <= o ->
  o + n <= Z.of_nat (length bs) -> (Z.to_nat n < fuel)%nat ->
  random_loop fuel b o n (now, segs) = Ret tt (now, <[b := Segment (splice bs o (pattern fuel n)) k]> segs).
Proof.
  induction fuel as [|fuel IH]; intros n b o bs k now segs Hb Hs Hn Ho Hl Hf; [lia|]. cbn [random_loop pattern].
  destruct (Z.ltb_spec 4 n) as [H4|H4].
  - rewrite (bind_Ret _ _ _ _ _ (seg_write_ok b o (le_bytes 4 rand) now segs bs k Hb Hs Ho ltac:(rewrite le_bytes_length; lia))).
    assert (El : length (splice bs o (le_bytes 4 rand)) = length bs)
      by (unfold splice; rewrite !length_app, length_take, length_drop, le_bytes_length; lia).
    rewrite (IH (n - 4) b (o + 4) (splice bs o (le_bytes 4 rand)) k) by (rewrite ?El; (done || lia || apply lookup_insert_eq)).
    rewrite insert_insert_eq. do 3 f_equal. f_equal. change 4 with (Z.of_nat (length (le_bytes 4 rand))) at 1.
    apply splice_app. lia.
  - apply seg_write_ok; [done..|]. rewrite length_take, le_bytes_length. lia.
Qed.

(** What the devices give: nothing, zeros, the time, and always the same bytes. *)
Lemma pseudo_reads now size : 0 <= size < 2147483648 ->
  gives null_read now size [] /\ gives zero_read now size (replicate (Z.to_nat size) 0) /\
  gives time_read now size (take (Z.to_nat size) (le_bytes 4 now)) /\ gives random_read now size (pattern (S (Z.to_nat size)) size).
Proof.
  intros Hs. split_and!; intros dev b o bs k segs Hb Hg Hl.
  - rewrite splice_nil by lia. rewrite insert_id by done. done.
  - unfold zero_read. rewrite (bind_Ret _ _ _ _ _ (seg_write_ok b 0 (replicate (Z.to_nat size) 0) now segs bs k Hb Hg ltac:(lia) ltac:(rewrite length_replicate; lia))).
    rewrite s32_small, length_replicate, Z2Nat.id by lia. done.
  - unfold time_read. rewrite bind_gets. cbn [fst Datatypes.id].
    replace (take (Z.to_nat (if 4 <? size then 4 else size)) (le_bytes 4 now)) with (take (Z.to_nat size) (le_bytes 4 now)).
    2: { destruct (Z.ltb_spec 4 size); [|done]. by rewrite !take_ge by (rewrite le_bytes_length; lia). }
    rewrite (bind_Ret _ _ _ _ _ (seg_write_ok b 0 (take (Z.to_nat size) (le_bytes 4 now)) now segs bs k Hb Hg ltac:(lia) ltac:(rewrite length_take, le_bytes_length; lia))).
    rewrite length_take, le_bytes_length. destruct (Z.ltb_spec 4 size); rewrite s32_small by lia; unfold mret, cmd_ret; f_equal; lia.
  - unfold random_read. rewrite (bind_Ret _ _ _ _ _ (random_loop_ok (S (Z.to_nat size)) size b 0 bs k now segs Hb Hg ltac:(lia) ltac:(lia) ltac:(lia) ltac:(lia))).
    rewrite s32_small, pattern_length by lia. done.
Qed.

(** A device that is registered is the first of the list, with its functions. *)
Lemma register_ok `{MM : Malloc} room name rd wr shmid id pr segs : 28 <= room -> shmid <> -1 -> 0 <= id ->
  let p := malloc (dom (p_devs pr)) in
  register room name rd wr (shmid, id) (pr, segs) =
    Ret 0 (Process (<[p := LDev name id shmid shmid (Some rd) (Some wr)]> (p_devs pr)) (p :: p_devlist pr) (p_user pr),
           alter (fun g => Segment (bytes g) (nattch g + 1)) shmid segs).
Proof.
  intros Hr Hs Hi p. assert (Hp : p <> NULL) by apply malloc_nonnull. unfold register, lib_createdev. cbn [fst snd].
  rewrite (proj2 (Z.eqb_neq _ _) Hs), (proj2 (Z.ltb_ge _ _) Hi), (proj2 (Z.ltb_ge _ _) Hr).
  rewrite !bind_assoc, bind_gets. rewrite !bind_assoc, bind_modify, bind_ret. cbn [fst snd Datatypes.id]. fold p.
  rewrite (proj2 (Z.eqb_neq _ _) Hp). unfold devfs_onread, devfs_onwrite.
  rewrite !bind_assoc. unfold mbind, cmd_bind. unfold ldev_at at 1. rewrite (proj2 (Z.eqb_neq _ _) Hp). cbn [fst p_devs].
  rewrite lookup_insert_eq. cbn. unfold ldev_at. rewrite (proj2 (Z.eqb_neq _ _) Hp). cbn.
  rewrite lookup_insert_eq. cbn. by rewrite !insert_insert_eq.
Qed.

(** What the server and [shmget] answered is good. *)
Definition good (r : Z * Z) : Prop := r.1 <> -1 /\ 0 <= r.2.

Lemma register_adds `{MM : Malloc} room name rd wr r s : 28 <= room -> good r -> exists p s',
  register room name rd wr r s = Ret 0 s' /\ p ∉ dom (p_devs s.1) /\ p_devlist s'.1 = p :: p_devlist s.1 /\
  p_devs s'.1 = <[p := LDev name r.2 r.1 r.1 (Some rd) (Some wr)]> (p_devs s.1).
Proof.
  destruct r as [shmid id], s as [pr segs]. intros Hr [Hs Hi]. exists (malloc (dom (p_devs pr))). eexists.
  split_and!; [by apply register_ok|apply malloc_fresh|done..].
Qed.

(** The devices of a process in the order of the list: numbers and functions to read and
    write. *)
Definition listed (pr : process Z) : list (option (str * Z * option (callback Z) * option (callback Z))) :=
  (fun p => (fun d => (l_name d, l_id d, func_read d, func_write d)) <$> (p_devs pr !! p)) <$> p_devlist pr.

(** What the list refers to exists. *)
Definition allocated (pr : process Z) : Prop := forall p, p ∈ p_devlist pr -> p ∈ dom (p_devs pr).

Lemma register_listed `{MM : Malloc} room name rd wr r s : 28 <= room -> good r -> allocated s.1 -> exists s',
  register room name rd wr r s = Ret 0 s' /\ allocated s'.1 /\
  listed s'.1 = Some (name, r.2, Some rd, Some wr) :: listed s.1.
Proof.
  intros Hr Hg Hd. destruct (register_adds room name rd wr r s Hr Hg) as (p & s' & E & Hp & El & Ed).
  exists s'. split_and!; [done| |].
  - intros q. rewrite El, Ed, elem_of_cons, dom_insert_L. intros [->|Hq]; [set_solver|]. specialize (Hd _ Hq). set_solver.
  - unfold listed. rewrite El, Ed. cbn [fmap list_fmap]. rewrite lookup_insert_eq. cbn. f_equal.
    apply list_fmap_ext. intros i q Hq. rewrite lookup_insert_ne; [done|]. intros ->. apply Hp, Hd. by eapply list_elem_of_lookup_2.
Qed.

(** When all calls succeed, [main] leaves exactly the five devices with their functions. *)
Lemma psdev_main_listed `{MM : Malloc} room r1 r2 r3 r4 r5 s : 28 <= room -> good r1 -> good r2 -> good r3 -> good r4 -> good r5 ->
  exists s', psdev_main room r1 r2 r3 r4 r5 s = Ret tt s' /\
  listed s'.1 = Some <$> [([122; 101; 114; 111], r5.2, Some zero_read, Some zero_write);
    ([116; 105; 109; 101], r4.2, Some time_read, Some time_write);
    ([117; 114; 97; 110; 100; 111; 109], r3.2, Some random_read, Some random_write);
    ([114; 97; 110; 100; 111; 109], r2.2, Some random_read, Some random_write);
    ([110; 117; 108; 108], r1.2, Some null_read, Some null_write)].
Proof.
  intros Hr G1 G2 G3 G4 G5. unfold psdev_main, lib_init. rewrite bind_modify. set (s0 := (_, s.2)).
  assert (D0 : allocated s0.1) by (intros p; cbn; set_solver). unfold null_init, time_init, zero_init, random_init.
  destruct (register_listed room [110; 117; 108; 108] null_read null_write r1 s0 Hr G1 D0) as (s1 & E1 & D1 & L1).
  destruct (register_listed room [114; 97; 110; 100; 111; 109] random_read random_write r2 s1 Hr G2 D1) as (s2 & E2 & D2 & L2).
  destruct (register_listed room [117; 114; 97; 110; 100; 111; 109] random_read random_write r3 s2 Hr G3 D2) as (s3 & E3 & D3 & L3).
  destruct (register_listed room [116; 105; 109; 101] time_read time_write r4 s3 Hr G4 D3) as (s4 & E4 & D4 & L4).
  destruct (register_listed room [122; 101; 114; 111] zero_read zero_write r5 s4 Hr G5 D4) as (s5 & E5 & D5 & L5).
  exists s5. rewrite (bind_Ret _ _ _ _ _ E1), bind_assoc, (bind_Ret _ _ _ _ _ E2). cbn [Z.eqb].
  rewrite (bind_Ret _ _ _ _ _ E3), (bind_Ret _ _ _ _ _ E4), (bind_Ret _ _ _ _ _ E5).
  split; [done|]. by rewrite L5, L4, L3, L2, L1.
Qed.

Module Sample.
(** "/zero" is open under the number 0; process 5 owns it. *)
Definition segments : gmap Z segment := {[100 := Segment (repeat 9 8) 2; 200 := Segment ([47; 122; 0] ++ repeat 1 5) 1]}.
Definition file_zero : fuse_file := File 1 200 200 [47; 122; 101; 114; 111] 0 REG Unset.
Definition dev_zero : devlist_item := Item 1 11 5 0 100 8.
Definition driver_zero : process Z := Process {[1 := LDev [122; 101; 114; 111] 1 100 100 (Some zero_read) (Some zero_write)]} [1] 77.
Definition system : server (devfs Z) :=
  Server (Env (Devfs {[1 := dev_zero]} {[11 := [122; 101; 114; 111]]} [1] 2 {[5 := driver_zero]}) segments (Context_ 9 0 0))
    [Some (Fuse 3 (Context_ 0 0 0) 0 [1] 0)] {[1 := file_zero]} {[1 := Info 0 0]} ∅ 1 None.

(** Five bytes of "/dev/zero". *)
Example zero_device_read :
  match fs_read 3 0 5 system with
  | Ret r s' => r = 5 /\ shm (world s') !! 200 = Some (Segment ([0; 0; 0; 0; 0] ++ [1; 1; 1]) 1) /\
      handles s' !! 1 = Some (set_off 5 file_zero)
  | Stop _ _ => False
  end.
Proof. vm_compute. split_and!; reflexivity. Qed.
End Sample.
